(* ===== verification/_CoqProject ===== *)
-Q . S2P
Prelude.v
Common.v
Strconv.v
GoStd.v
Forks.v
Tools.v
Permissions.v
KdaUtils.v
KdaData.v
DataTrie.v
UserAccount.v
Codec.v
Balances.v
Staking.v
Rewards.v
RewardClaims.v
StakeHistory.v
AccountsCache.v
World.v
SystemAccount.v
KdaKapp.v
WorldLemmas.v
KdaSupply.v
RewardDeposit.v
FeesPool.v
MarketKapp.v
Transfer.v
TransferProps.v
MarketFlow.v
MarketSettle.v
MarketProps.v
MarketRuns.v
MarketInv.v
NetParams.v
Proposals.v
ProposalProps.v
ProposalRuns.v
WorldExample.v
MarketExample.v
ProposalExample.v
Rating.v
Validators.v
PeersUpdate.v
ValidatorLemmas.v
ValidatorProps.v
ValidatorRewards.v
ValidatorExample.v
TrieNode.v
TrieTree.v
TrieSim.v
TrieUpdate.v
TrieCommit.v
TrieStorage.v
PatriciaTrie.v
TrieProofs.v
PatriciaProps.v
TriePruning.v
TrieExample.v
AccountsDB.v
AccountsTries.v
AccountsRevert.v
AccountsSnapshots.v
AccountsExample.v
TxList.v
TxCache.v
TxCacheInv.v
TxCacheProps.v
TxSelect.v
TxPool.v
ForkDetector.v
ForkChoice.v
BlockSync.v
FinalBlocks.v
SyncSafety.v
SyncExample.v
Selection.v
Shuffler.v
NodesCoordinator.v
NodesCoordProps.v
ShardingExample.v
