(* ===== verification/Prelude.v ===== *)
(** * klever-go: a verification development of the ledger core

    Klever is a slot-based blockchain node.  Its state is a set of accounts
    (users, native applications, validators), each with a data trie; native
    applications ("KApps") are the protocol-level programs that move balances,
    assets, stakes and fees.  This library models the part of the node that
    decides who owns what: the Merkle Patricia trie and the accounts database
    that hold the state, the account objects and their cache, the asset
    application, staking and rewards, the fee pools, the marketplace, the
    governance of the network's parameters by proposals and votes, the
    validators with their keys, delegations, ratings and rewards, the
    permission masks and the fork schedule that gates them, the pool of
    pending transactions, the synchronization of a node with the chain, and the
    selection of the validators that produce it.

    ** The parts and how they interact

    A contract of a transaction runs a handler of an application
    ([core/kapp/...]).  A handler asks the accounts cache
    ([data/state/accountsCacher.go]) for shared account objects, reads and
    writes records (asset, staking data, pools) serialized in the tracked data
    trie of an application account ([data/state/trackableDataTrie.go],
    [kappAccount.go]), and moves balances with the operations of the user
    account ([data/state/userAccount.go]).  The block processor finally saves
    every cached account, which flushes its dirty values into its trie
    ([accountsDB.go], [saveDataTrie]).  The accounts database keeps the main trie
    of accounts and code and one data trie per account
    ([data/trie/patriciaMerkleTrie.go]), journals every change so that a failed
    transaction can be undone ([journalEntries.go]), and commits the tries to a
    key-value database, whose obsolete nodes are pruned once a block is final
    ([trieStorageManager.go]).  Every behaviour change of the protocol
    is a gate of the fork controller ([core/fork/forks.go]), so a modelled
    operation takes the gates as an argument and keeps both branches.
    A node that is behind, or on the losing side of a fork, follows the fork
    detector ([core/process/sync]): it fetches, executes and commits blocks, and
    rolls committed ones back when another branch is to be preferred.
    Fees, limits and rewards are network parameters ([kapps/proposal.go]); holders
    of frozen KFI propose values and vote on them ([core/kapp/proposal]), an
    unfreeze takes the votes it no longer covers back ([accounts.go]), and the
    block processor settles the proposals that end with an epoch ([block.go]).
    A validator is a record of the validators application and an account per BLS
    key ([core/kapp/validators], [data/state/peerAccount.go]): users delegate
    frozen buckets to it, blocks credit fees to the account of its key and move
    its rating ([core/process/rating]), and the end of an epoch turns the fees
    into rewards of the delegators.
    The nodes coordinator ([sharding]) keeps the lists of validators of each epoch
    and draws the consensus group of every slot from the elected ones.

    ** Files

    - [Prelude]: machine integers ([wrap_i64] and [cong64] for [int64]
      arithmetic), the result type, the state-and-error monad [M] in which the
      operations are written, their inversion tactics, sums over lists and maps.
    - [Common]: the error values and result codes; the interfaces to code
      outside the model: [Marshalizer] (protobuf), [TrieOps] (data trie), with
      their laws and a reference trie.
    - [Strconv], [GoStd]: what the source uses of [strconv], [encoding/hex],
      [bytes.Split], of [float64] and of [math/big.Float] (53-bit mantissa
      rounding to nearest even, both formats), of [unicode/utf8] and of the
      calendar and time zones of [time].
    - [Forks]: [core/fork/forks.go] and [config/enableEpochs.go]: the gates, their activation
      on [EpochConfirmed] and the validation of a schedule.
    - [Tools]: [tools/safeConverter.go], [tools/converters.go], [tools/computers.go]:
      saturating and wrapping conversions, percentages, byte encodings.
    - [Permissions]: [data/transaction/utils.go] and the permission checks of
      [userAccount.go]: bit masks of contract types.
    - [KdaUtils]: [core/process/kda/kdautils/utils.go]: identifiers, storage keys and
      their parser, validity rules.
    - [KdaData]: [kapps/kda.go]: the asset record, roles, transfer control and
      transfer royalties.
    - [DataTrie]: [trackableDataTrie.go] and the flush of [accountsDB.go].
    - [UserAccount], [Balances]: balances per asset, with and without a nonce.
    - [Codec]: a concrete serializer, used to show that what the components
      assume of protobuf can hold.
    - [Staking]: freeze, unfreeze, delegate, undelegate, withdraw on buckets.
    - [Rewards]: APR and FPR claims; [RewardClaims], [StakeHistory] hold their
      theorems.
    - [AccountsCache]: [accountsCacher.go] with a heap of account objects per
      kind, so that sharing and aliasing are explicit.
    - [World]: application accounts, receipts and the state of a handler;
      [WorldLemmas]: the frame rules handlers are verified with ([world_step]
      says which accounts a step may change).
    - [SystemAccount]: [core/kapp/systemAccount]: supply per semi-fungible nonce.
    - [KdaKapp]: [core/kapp/kda/kda.go] and [mint.go]: burn, wipe, mint, reward
      deposit; [KdaSupply], [RewardDeposit] hold their theorems.
    - [FeesPool]: [core/kapp/kdaFeesPool]: fee pools and their theorems.
    - [Transfer]: the transfer contract of [core/kapp/accounts/accounts.go] with its
      royalties, and [core/address.go]; [TransferProps]: theorems, with that on the
      circulation of semi-fungible items.
    - [MarketKapp]: [core/kapp/market/market.go]: marketplaces, orders in escrow,
      bids and settlement; [MarketFlow], [MarketSettle], [MarketProps]: what each
      step and each settlement moves; [MarketRuns], [MarketInv]: the six
      contracts as a step relation, its invariant and the conservation of every
      asset; [MarketExample]: runs, and two listings that go wrong.
    - [NetParams]: [kapps/proposal.go], [proposalParser.go]: the network parameters,
      their parsing, bounds and defaults, and the live set; [Proposals]:
      [core/kapp/proposal], the votes an unfreeze takes back ([accounts.go]) and
      the settlement of an epoch ([block.go], [baseProcess.go]); [ProposalProps]:
      the vote index, tallies and the invariant of governance; [ProposalRuns]: the
      handlers in the node's state, reachable states and the theorems;
      [ProposalExample]: a run.
    - [Rating]: [core/process/rating]: the rating steps and the rater, with their
      theorem; [Validators]: [peerAccount.go] and
      [core/kapp/validators/validators.go]: peer accounts, validator records,
      registration, key rotation, delegations and pending rewards;
      [PeersUpdate]: [peersUpdate.go]: what blocks and epochs do to validators;
      [ValidatorLemmas]: the records and accounts as the handlers see them;
      [ValidatorProps]: the invariant of stakes and keys and that each handler
      keeps it; [ValidatorRewards]: fees and rewards, runs and the theorems;
      [ValidatorExample]: a network in which their assumptions hold.
    - [TrieNode]: [data/trie/node.go], [leafNode.go], [extensionNode.go],
      [branchNode.go]: the operations of the three node types, with cached
      hashes, dirty flags and children that are loaded from the database on use.
    - [TrieTree]: the tree a node stands for and the paths of keys; [TrieSim]:
      insertion and deletion on trees, and the simulation
      between nodes and trees; [TrieUpdate], [TrieCommit]: the node operations preserve the simulation and the hashes.
    - [TrieStorage]: [trieStorageManager.go], [evictionWaitingList.go],
      [pruningBuffer.go]; [PatriciaTrie]: [patriciaMerkleTrie.go];
      [TrieProofs]: membership proofs; [PatriciaProps]: the trie's theorems, and
      the proof that the trie implements the interface [TrieOps] the accounts are
      verified against; [TriePruning]: theorems on pruning; [TrieExample]: a
      database, a hash function and codecs for which the assumptions hold.
    - [AccountsDB]: [accountsDB.go], [journalEntries.go], [dataTriesHolder.go]:
      accounts over shared tries, the journal, reverts and commits.
    - [AccountsTries]: the effect of the operations on the maps the tries stand
      for, how entries undo it, and a store of tries that holds given maps;
      [AccountsRevert]: the invariant of the database and of its
      journal; [AccountsSnapshots]: the theorems on reverts and commits;
      [AccountsExample]: runs in which their assumptions hold.
    - [TxList]: [storage/txcache/maps]: sharded maps and score chunks;
      [txListForSender.go]: the transactions of one sender; [TxCache]:
      [txCache.go], [txListBySenderMap.go], [txByHashMap.go], [eviction.go],
      [sweeping.go]: the pool; [TxCacheInv], [TxCacheProps]: their
      lemmas; [TxSelect]: [score.go], which implements the interface
      [scoreComputer] the pool is verified against, and selections; [TxPool]: series of
      operations, the theorems, and runs.
    - [ForkDetector]: [core/process/sync/baseForkDetector.go] and
      [metaForkDetector.go], with [storage/timecache/timeCache.go]: the
      headers known per nonce, checkpoints and the choice between branches;
      [ForkChoice]: its theorems; [BlockSync]: [baseSync.go]: a synchronization
      round, roll backs, and the commit of a block as the chain sees it;
      [FinalBlocks]: what the operations do to the detector's checkpoints;
      [SyncSafety]: the chain of committed blocks, the steps of a node and the
      theorems; [SyncExample]: a node in which their assumptions hold.
    - [Selection]: [sharding/selectionBasedProvider.go], [expandedListSampling.go]:
      weighted selection; [Shuffler]: [hashValidatorShuffler.go]: rotation at the
      start of an epoch; [NodesCoordinator]: [nodesCoordinator.go] and its registry;
      [NodesCoordProps]: its invariant and theorems; [ShardingExample]: runs.
    - [WorldExample]: serializers, accounts databases and a small world in which
      the assumptions of the handlers' theorems hold and their runs execute.

    ** What the theorems show

    The code keeps every behaviour it ever had behind a gate of its fork
    schedule ([ForkController]).  A property of the behaviour after a gate says
    so in its comment and has the gate as a hypothesis ("smart contracts active"
    is [EnableSmartContracts], "the FPR fork" is [KdaFpr], "the market overflow
    fix" is [FixMarketBuyOverflow], "V3" to "V7" are [FixAuditChangesV3] to
    [FixAuditChangesV7]).

    - Balances: a credit or debit changes one asset by exactly its value, never
      wraps and never overdraws; what the dirty-data check is for.
    - Staking: through any run of the new staking flow the frozen balance is the
      sum of the staked buckets and the asset's total moves with it; a withdrawal
      pays exactly the matured buckets.
    - Rewards: an FPR claim always succeeds once due, pays exactly what the
      pools' claimed counters record and never more than a pool holds; the stake
      history kept across top-ups refines the timeline of the user's stake; an
      APR claim mints within the maximum supply; a reward deposit goes to the
      pool of the next epoch and refunds exactly the expired pools.
    - Assets: mint and burn change balances and supply counters by exactly their
      amount, within the maximum supply, for authorized senders only; NFT mints
      number items without collision; royalties are bounded by the transfer.
    - Transfers: a transfer changes every balance by exactly the amount and the
      royalties of the asset's tiers, divided among the beneficiaries by their
      percentages to the last unit; an item moves byte for byte.
    - Marketplace: through any run of market contracts whose listings have unused
      identifiers every open order has its item in escrow, items are held once,
      and balances plus escrow add up to the same amount in every asset; a
      settlement divides the bid to the last unit, by the percentages of the
      marketplace and of the asset, among referral, royalties and seller and pays
      nobody else; the terms
      of a sale are those of its listing; the reported escrow total is exact.
    - Fee pools: a fee swap conserves both assets at no less than the pool's
      ratio; only the owner or admin withdraws, never more than the pool holds.
    - Governance: through any run, on both sides of the fork that indexed the
      votes, the count of each option is the sum of its voters' votes and every
      vote on an open proposal is covered by KFI its voter has frozen; an epoch
      settles exactly its proposals and enacts exactly the approved values, on
      every node alike; the parameters keep their types and bounds, so reading
      one never panics; the stored vote index reads back exactly.
    - Trie: reads, updates and deletions behave as a finite map for every
      history, including histories that evict nodes to the database and load
      them again; a committed root is read back exactly; two tries have the same
      root hash exactly when they hold the same entries; a proof verifies
      exactly for the present entries; walks terminate and list each entry
      once; a prune removes exactly the marked hashes that no remaining entry
      lists (of a new root only, when an old root is pruned).
    - Accounts database: after any sequence of saves, removals and loads, and of
      reverts among them, reverting to an earlier journal length restores every
      account, data trie and code entry of that moment; reverting to zero
      restores the last commit.
    - Transaction pool: through any run the lists of senders are sorted, both
      indexes agree and the counters are exact; a selection ends, takes
      from each sender a run without a missing nonce (except after nonce 0, where
      the code does not look) and stops short only when nothing is left to take.
    - Synchronization: nodes that see the same competing blocks choose the same
      one, whichever they committed; a reported fork is the lowest one above the
      final block; a roll back ends and removes exactly the blocks it is asked
      to; over any run a final block is never reverted.
    - Validators: through any run of registrations, rotations, delegations,
      blocks and epochs the total stake of a validator is the sum of its active
      bookings, no two validators share a key and a revoked key stays revoked;
      the fees of a block are credited to the last unit, move with a rotated key,
      and become at the end of the epoch exactly the commission and shares of the
      delegators; the rater applies exactly the configured steps, within the
      bounds, and keeps the order of ratings.
    - Selection of validators: the selection answers what repeated picking and cutting
      answers; the group of a slot is a function of the randomness, the slot and
      the elected list, whatever the cache holds; a rotation and the start of an
      epoch lose and duplicate nobody and fill the elected places; the lists do
      not depend on the order of the input; a saved coordinator is restored.
    - State: a save preserves what an account stores; the cache hands out one
      object per address and [SaveAll] loses nothing; storage keys of distinct
      assets and items never collide.
    - Gates and masks: flags follow the confirmed epoch, validated schedules
      respect their dependencies; a permission mask grants exactly what was
      encoded.

    ** Conventions

    Integers are [Z] with the wrap-around written out ([+!], [-!] are [int64]
    addition and subtraction).  Go maps are [gmap]; the order of [range] over a
    map is a parameter constrained to be a permutation of its entries, and the
    results are shown not to depend on it.  Account objects are heap cells; a
    handler holds locations.  Loops over Go slices are structural; the NFT mint
    loop runs [Amount] times.  Trie operations recurse on the path of a key,
    whose length bounds the depth ([path_fuel]); commits recurse on the nodes in
    memory ([node_depth]); walks over stored nodes take a number of levels, and
    the theorem on them shows the depth of the tree is enough ([tdepth]).  A
    selection makes at most one pass per requested transaction and one more, an
    eviction one round per sender; both are enough.  A roll back takes at most the
    nonce of the current block plus one rounds ([rounds_of]).  The other fuels in use are [big_bytes] (8 rounds, the
    bytes of an [int64]), [FormatInt] and the little-endian loops (20 digits and
    8 bytes suffice for 64 bits, proved in [Strconv] and [Tools]), and the list
    reader of [Codec] (the length of its input, shown to be enough).

    Parameters, with their assumptions as classes: the protobuf runtime
    ([MarshalizerLaws], [UserKDACodec], [ProtoCodec]: encodings read back, only
    the all-default message is empty; [NodeCodecLaws], [BatchLaws],
    [AccountCodecLaws], [CodeCodecLaws] for nodes, batches, accounts and code
    entries), the key-value database ([DBLaws]: what is put is read back until
    it is removed), the hash function ([HasherLaws]: as every use of a Merkle
    trie supposes, no collision, and no input with the hash of the empty trie), the trie as the
    account objects see it ([TrieLaws], discharged in [PatriciaProps]), the
    rest of a node as the synchronization sees it ([NodeLaws]: stored headers stay,
    a saved block is read back under its hash, hashes identify headers), the
    cache of groups, storage and JSON text of the coordinator ([GroupCacherLaws],
    [BootStorerLaws], [RegistryJSONLaws]), the
    accounts databases as the cache sees them ([AdapterLaws], [WorldLaws]: a
    saved account is read back and others are unaffected; [KappStore] for the
    settlement, [ValidatorStores] for the validators), the base-36 decoder and the parsers of floating-point text
    ([FloatParsers], which no network parameter uses), the check of a BLS public
    key and the verification of a BLS signature, and what a platform makes of a
    floating-point value that does not fit an integer.  The keys of accounts and of code share the main trie; that an
    address is not the hash of some code is an assumption of the theorems on it
    ([is_code]).

    ** Not modelled

    Consensus, networking, header requests and the bootstrap of a node, database
    drivers and indexing,
    state snapshots and checkpoints (background goroutines), block processing
    beyond the commit and the settlement of proposals, the virtual machine and its
    hooks, and of the applications: asset creation and the remaining asset
    triggers, ITO and the accounts application beyond transfers and
    the votes an unfreeze takes back (the handlers that dispatch staking
    contracts to the modelled account operations).
    Locks are not modelled: every operation of the cache, of a trie and of the
    accounts database is atomic, as the mutex makes it.  The operations of the
    transaction pool are atomic too, where the code holds its lock for parts of
    them only (the eviction before an addition, the removal after it and the
    walk of the expiry run outside): interleavings inside one operation of the
    pool are not modelled.  The goroutines that hash and commit the children of
    a root in parallel are run in sequence.  Go runtime panics are modelled where
    a theorem speaks of them (governance: a parameter read at another type, an
    assignment to a nil map, [GoPanic]; the validators' parameters without a
    proposal controller; the rotation of more validators than are elected; a
    null validator in the saved coordinator state), and not for nil dereferences
    elsewhere. *)

From stdpp Require Export base option list gmap fin_maps strings numbers sorting.
From Stdlib Require Export ZArith Lia.

#[global] Open Scope Z_scope.

(** * Shared vocabulary of the development

    Go's fixed-width integers, errors as values, the state-and-error monad in
    which the handlers are written, and the generic lemmas on lists, maps and
    integers that the components share. *)

(** ** Machine integers

    An [int64], [uint32] or [uint64] of the Go code is a [Z]; every arithmetic
    operation that can leave the range wraps explicitly. *)

Definition MaxInt64 : Z := 9223372036854775807.
Definition MinInt64 : Z := -9223372036854775808.
Definition MaxUint64 : Z := 18446744073709551615.
Definition MaxInt32 : Z := 2147483647.
Definition MinInt32 : Z := -2147483648.
Definition MaxUint32 : Z := 4294967295.

Definition wrap_i64 (z : Z) : Z := (z + 9223372036854775808) mod 18446744073709551616 - 9223372036854775808.
Definition wrap_u64 (z : Z) : Z := z mod 18446744073709551616.
Definition wrap_u32 (z : Z) : Z := z mod 4294967296.

Definition is_i64 (z : Z) : Prop := MinInt64 <= z <= MaxInt64.
Definition is_u64 (z : Z) : Prop := 0 <= z <= MaxUint64.
Definition is_u32 (z : Z) : Prop := 0 <= z <= MaxUint32.

Declare Scope go_scope.
Delimit Scope go_scope with go.
Notation "a +! b" := (wrap_i64 (a + b)) (at level 50, left associativity) : go_scope.
Notation "a -! b" := (wrap_i64 (a - b)) (at level 50, left associativity) : go_scope.
#[global] Open Scope go_scope.

#[global] Instance is_i64_dec z : Decision (is_i64 z).
Proof. unfold is_i64. apply _. Defined.
#[global] Instance is_u64_dec z : Decision (is_u64 z).
Proof. unfold is_u64. apply _. Defined.
#[global] Instance is_u32_dec z : Decision (is_u32 z).
Proof. unfold is_u32. apply _. Defined.

(** [ints] exposes the numeric bounds to [lia]. *)
Ltac ints :=
  unfold is_i64, is_u64, is_u32, MaxInt64, MinInt64, MaxUint64, MaxInt32, MinInt32, MaxUint32 in *.
Ltac ilia := ints; lia.

Lemma wrap_i64_id z : is_i64 z -> wrap_i64 z = z.
Proof. unfold wrap_i64. ints. intros H. rewrite Z.mod_small; lia. Qed.

Lemma wrap_i64_range z : is_i64 (wrap_i64 z).
Proof.
  unfold wrap_i64. ints.
  pose proof (Z.mod_pos_bound (z + 9223372036854775808) 18446744073709551616 eq_refl). lia.
Qed.

Lemma wrap_i64_over z : MaxInt64 < z <= MaxInt64 + MaxInt64 + 1 -> wrap_i64 z < 0.
Proof.
  unfold wrap_i64. ints. intros H.
  replace (z + 9223372036854775808)
    with ((z - 9223372036854775808) + 1 * 18446744073709551616) by lia.
  rewrite Z.mod_add by lia. rewrite Z.mod_small; lia.
Qed.

(** Wrapping is addition modulo 2^64, so nested wraps collapse. *)
Lemma wrap_i64_add_l a b : wrap_i64 (wrap_i64 a + b) = wrap_i64 (a + b).
Proof.
  unfold wrap_i64.
  set (M := 18446744073709551616). set (h := 9223372036854775808).
  replace ((a + h) mod M - h + b + h) with ((a + h) mod M + b) by lia.
  rewrite Zplus_mod_idemp_l. f_equal. f_equal. lia.
Qed.

Lemma wrap_i64_add_r a b : wrap_i64 (a + wrap_i64 b) = wrap_i64 (a + b).
Proof. rewrite (Z.add_comm a), wrap_i64_add_l, Z.add_comm. done. Qed.

Lemma wrap_i64_sub_l a b : wrap_i64 (wrap_i64 a - b) = wrap_i64 (a - b).
Proof. exact (wrap_i64_add_l a (- b)). Qed.

Lemma wrap_u32_range z : is_u32 (wrap_u32 z).
Proof. unfold wrap_u32. ints. pose proof (Z.mod_pos_bound z 4294967296 eq_refl). lia. Qed.

Lemma wrap_u32_id z : is_u32 z -> wrap_u32 z = z.
Proof. unfold wrap_u32. ints. intros. apply Z.mod_small. lia. Qed.

Lemma wrap_u64_range z : is_u64 (wrap_u64 z).
Proof. unfold wrap_u64. ints. pose proof (Z.mod_pos_bound z 18446744073709551616 eq_refl). lia. Qed.

Lemma wrap_u64_id z : is_u64 z -> wrap_u64 z = z.
Proof. unfold wrap_u64. ints. intros. apply Z.mod_small. lia. Qed.

(** The overflow test of the balance code: for nonnegative [int64] operands a
    sum is negative exactly when it left the range. *)
Lemma add_overflow_iff a b :
  0 <= a <= MaxInt64 -> 0 <= b <= MaxInt64 -> (a +! b < 0 <-> MaxInt64 < a + b).
Proof.
  intros Ha Hb. split.
  - intros H. destruct (Z_le_gt_dec (a + b) MaxInt64) as [Hle|]; [|lia].
    rewrite wrap_i64_id in H; ilia.
  - intros H. apply wrap_i64_over. ilia.
Qed.

(** Congruence modulo 2^64, the equality the wrapping operations respect. *)
Inductive cong64 (a b : Z) : Prop :=
| Cong64 : a mod 18446744073709551616 = b mod 18446744073709551616 -> cong64 a b.

#[global] Instance cong64_equiv : Equivalence cong64.
Proof.
  split; repeat intro; repeat match goal with H : cong64 _ _ |- _ => destruct H end;
    constructor; congruence.
Qed.

#[global] Instance cong64_add : Proper (cong64 ==> cong64 ==> cong64) Z.add.
Proof.
  intros a a' [Ha] b b' [Hb]. constructor. rewrite (Z.add_mod a), (Z.add_mod a') by lia.
  by rewrite Ha, Hb.
Qed.

#[global] Instance cong64_sub : Proper (cong64 ==> cong64 ==> cong64) Z.sub.
Proof.
  intros a a' [Ha] b b' [Hb]. constructor. rewrite (Zminus_mod a), (Zminus_mod a').
  by rewrite Ha, Hb.
Qed.

Lemma wrap_cong64 z : cong64 (wrap_i64 z) z.
Proof. constructor. unfold wrap_i64. rewrite Zminus_mod_idemp_l. f_equal. lia. Qed.

Lemma cong64_wrap a b : cong64 a b -> wrap_i64 a = wrap_i64 b.
Proof.
  intros [H]. unfold wrap_i64. f_equal.
  rewrite (Z.add_mod a), (Z.add_mod b) by lia. by rewrite H.
Qed.

#[global] Instance wrap_i64_proper : Proper (cong64 ==> eq) wrap_i64.
Proof. exact cong64_wrap. Qed.
#[global] Instance wrap_i64_cong64_proper : Proper (cong64 ==> cong64) wrap_i64.
Proof. intros a b H. by rewrite (cong64_wrap a b H). Qed.

(** Goals whose sides are equal integers. *)
Ltac cong_lia := apply eq_subrelation; [apply _|]; lia.

Lemma cong64_eq a b : is_i64 a -> is_i64 b -> cong64 a b -> a = b.
Proof. intros Ha Hb H%cong64_wrap. by rewrite !wrap_i64_id in H. Qed.

Create HintDb goint.
#[export] Hint Resolve wrap_i64_range wrap_u32_range wrap_u64_range : goint.

(** ** Results and the state-and-error monad

    A Go function returning [(T, error)] is a [res E T].  A method that also
    mutates reachable state is an [M S E T]: the state it leaves behind is kept
    on the error path too, because Go does not undo the assignments made before
    an early return. *)

Inductive res (E A : Type) : Type :=
| Ok (a : A)
| Err (e : E).
Arguments Ok {E A} a.
Arguments Err {E A} e.

#[global] Instance res_ret {E} : MRet (res E) := fun A a => Ok a.
#[global] Instance res_bind {E} : MBind (res E) := fun A B f m =>
  match m with Ok a => f a | Err e => Err e end.

#[global] Instance res_eq_dec {E A} `{EqDecision E, EqDecision A} : EqDecision (res E A).
Proof. solve_decision. Defined.

#[global] Instance Ok_inj {E A} : Inj (=) (=) (@Ok E A).
Proof. intros a b H. congruence. Qed.

Definition is_ok {E A} (r : res E A) : bool := match r with Ok _ => true | Err _ => false end.

(** The value of a call known to succeed, for stating facts on concrete runs. *)
Definition from_ok {E A} (d : A) (r : res E A) : A := match r with Ok a => a | Err _ => d end.

Lemma from_ok_spec {E A} (d : A) (r : res E A) : is_ok r = true -> r = Ok (from_ok d r).
Proof. by destruct r. Qed.

Lemma run_ok_spec {S E A} (d : A) (p : S * res E A) :
  is_ok p.2 = true -> p = (p.1, Ok (from_ok d p.2)).
Proof. by destruct p as [s [a|e]]. Qed.
Lemma run_unit_spec {S E} (p : S * res E unit) : is_ok p.2 = true -> p = (p.1, Ok tt).
Proof. by destruct p as [s [[]|e]]. Qed.

Definition map_err {E F A} (f : E -> F) (r : res E A) : res F A :=
  match r with Ok a => Ok a | Err e => Err (f e) end.

Definition M (S E A : Type) : Type := S -> S * res E A.

#[global] Instance M_ret {S E} : MRet (M S E) := fun A a s => (s, Ok a).
#[global] Instance M_bind {S E} : MBind (M S E) := fun A B f m s =>
  match m s with
  | (s', Ok a) => f a s'
  | (s', Err e) => (s', Err e)
  end.

Definition fail {S E A} (e : E) : M S E A := fun s => (s, Err e).
Definition get {S E} : M S E S := fun s => (s, Ok s).
Definition put {S E} (s : S) : M S E unit := fun _ => (s, Ok tt).
Definition modify {S E} (f : S -> S) : M S E unit := fun s => (f s, Ok tt).
Definition lift {S E A} (r : res E A) : M S E A := fun s => (s, r).
Definition with_err {S E F A} (f : E -> F) (m : M S E A) : M S F A :=
  fun s => let '(s', r) := m s in (s', map_err f r).

(** [if cond { return err }]. *)
Definition reject_if {S E} (b : bool) (e : E) : M S E unit :=
  if b then fail e else mret tt.

Lemma res_bind_ok {E A B} (m : res E A) (f : A -> res E B) b :
  mbind f m = Ok b <-> exists a, m = Ok a /\ f a = Ok b.
Proof.
  destruct m as [a|e]; cbn; split; intros H; try (destruct H as (?&?&?)); try congruence; eauto.
Qed.

Lemma M_bind_ok {S E A B} (m : M S E A) (f : A -> M S E B) s s' b :
  mbind f m s = (s', Ok b) <-> exists s1 a, m s = (s1, Ok a) /\ f a s1 = (s', Ok b).
Proof.
  unfold mbind, M_bind. destruct (m s) as [s1 [a|e]]; split; intros H;
    try (destruct H as (?&?&?&?)); try congruence; eauto.
Qed.

Lemma reject_if_ok {S E} (b : bool) (e : E) (s s' : S) u :
  reject_if b e s = (s', Ok u) <-> b = false /\ s' = s.
Proof.
  unfold reject_if. destruct b, u; cbn; unfold fail, mret, M_ret; split.
  all: try (intros [? ?]); try intros ?; simplify_eq; done.
Qed.

Lemma with_err_ok {S E F A} (f : E -> F) (m : M S E A) s s' a :
  with_err f m s = (s', Ok a) <-> m s = (s', Ok a).
Proof.
  unfold with_err. destruct (m s) as [s1 [x|x]]; cbn; split; intros H; congruence.
Qed.

(** [m_ok] turns every hypothesis saying that a sequence of calls returned
    without error into one equation per call. *)
Ltac m_ok_step :=
  match goal with
  | H : mbind _ _ _ = (_, Ok _) |- _ =>
      apply M_bind_ok in H; destruct H as (?w & ?x & ?Hm & H)
  | H : mbind _ _ = Ok _ |- _ => apply res_bind_ok in H; destruct H as (?x & ?Hm & H)
  | H : reject_if _ _ _ = (_, Ok _) |- _ => apply reject_if_ok in H; destruct H; subst
  | H : with_err _ _ _ = (_, Ok _) |- _ => apply with_err_ok in H
  | H : mret _ _ = (_, Ok _) |- _ => unfold mret, M_ret in H; simplify_eq
  | H : (_, Ok _) = (_, Ok _) |- _ => simplify_eq
  | H : Ok _ = Ok _ |- _ => simplify_eq
  | H : fail _ _ = (_, Ok _) |- _ => discriminate H
  | H : lift _ _ = (_, Ok _) |- _ => unfold lift in H; simplify_eq
  | H : (_, Err _) = (_, Ok _) |- _ => discriminate H
  | H : Err _ = Ok _ |- _ => discriminate H
  | H : get _ = (_, Ok _) |- _ => unfold get in H; simplify_eq
  | H : put _ _ = (_, Ok _) |- _ => unfold put in H; simplify_eq
  | H : modify _ _ = (_, Ok _) |- _ => unfold modify in H; simplify_eq
  end.
Ltac m_ok := repeat m_ok_step.

(** [mrun] unfolds the sequencing of a computation so that it runs on its state. *)
Ltac mrun := unfold mbind, M_bind, get, put, lift, modify, mret, M_ret, reject_if, fail.

(** Case analysis on a boolean guard of the code, with its meaning. *)
Ltac guard_case :=
  match goal with
  | |- context [if ?b then _ else _] => destruct b eqn:?
  | H : context [if ?b then _ else _] |- _ => destruct b eqn:?
  end.

Ltac zify_bools :=
  repeat match goal with
  | H : (_ <? _) = true |- _ => apply Z.ltb_lt in H
  | H : (_ <? _) = false |- _ => apply Z.ltb_ge in H
  | H : (_ <=? _) = true |- _ => apply Z.leb_le in H
  | H : (_ <=? _) = false |- _ => apply Z.leb_gt in H
  | H : (_ =? _) = true |- _ => apply Z.eqb_eq in H
  | H : (_ =? _) = false |- _ => apply Z.eqb_neq in H
  | H : _ && _ = true |- _ => apply andb_true_iff in H; destruct H
  | H : _ || _ = false |- _ => apply orb_false_iff in H; destruct H
  | H : negb _ = true |- _ => apply negb_true_iff in H
  | H : negb _ = false |- _ => apply negb_false_iff in H
  | H : bool_decide _ = true |- _ => apply bool_decide_eq_true in H
  | H : bool_decide _ = false |- _ => apply bool_decide_eq_false in H
  end.

(** Splitting conjunctions only, not the records below them. *)
Ltac splits := repeat match goal with |- _ /\ _ => split end.

(** ** Strings as byte sequences

    Go strings and byte slices are both sequences of bytes, [string] here.  A
    slice whose nil-ness the code tests is an [option string]. *)

Abbreviation slice := (option string) (only parsing).
Definition bytes_of (s : slice) : string := default EmptyString s.
Definition str_eqb (a b : string) : bool := bool_decide (a = b).
Definition slen (s : string) : Z := Z.of_nat (String.length s).

(** Go's order on strings. *)
Definition str_le (a b : string) : Prop := String.leb a b = true.
#[global] Instance str_le_dec a b : Decision (str_le a b).
Proof. unfold str_le. apply _. Defined.

Lemma string_app_cons a (s t : string) : String a s +:+ t = String a (s +:+ t).
Proof. reflexivity. Qed.

Lemma string_app_empty_l (s : string) : "" +:+ s = s.
Proof. reflexivity. Qed.

Lemma string_app_nil_r (s : string) : s +:+ "" = s.
Proof. induction s as [|a s IH]; [done|]. by rewrite string_app_cons, IH. Qed.

Lemma string_app_assoc (a b c : string) : a +:+ (b +:+ c) = (a +:+ b) +:+ c.
Proof. induction a as [|x a IH]; [done|]. by rewrite !string_app_cons, IH. Qed.

Lemma string_length_app (a b : string) :
  String.length (a +:+ b) = (String.length a + String.length b)%nat.
Proof. induction a as [|x a IH]; [done|]. rewrite string_app_cons. cbn. by rewrite IH. Qed.

Lemma string_app_inj_l (a b c : string) : a +:+ b = a +:+ c -> b = c.
Proof. induction a as [|x a IH]; [done|]. rewrite !string_app_cons. intros [=]. auto. Qed.

Lemma string_substring_app (a b : string) : String.substring 0 (String.length a) (a +:+ b) = a.
Proof.
  induction a as [|x a IH]; [by destruct b|]. rewrite string_app_cons. cbn. by rewrite IH.
Qed.

(** ** Sums over finite maps

    The invariants of the staking code are sums over the buckets of an
    account; they do not depend on the order Go's [range] visits the map. *)

Definition zsum (l : list Z) : Z := foldr Z.add 0 l.

Lemma zsum_cons x l : zsum (x :: l) = x + zsum l.
Proof. done. Qed.

Lemma zsum_app l1 l2 : zsum (l1 ++ l2) = zsum l1 + zsum l2.
Proof. induction l1 as [|x l1 IH]; cbn; [done|]. unfold zsum in *. cbn. lia. Qed.

Lemma zsum_nonneg l : Forall (Z.le 0) l -> 0 <= zsum l.
Proof. induction 1 as [|x l Hx _ IH]; unfold zsum in *; cbn; lia. Qed.

#[global] Instance zsum_perm : Proper ((≡ₚ) ==> eq) zsum.
Proof.
  intros l1 l2 H. induction H as [| |x y l|? ? ? ? IH1 ? IH2]; unfold zsum in *; cbn; try lia.
Qed.

Section msum.
Context {V : Type} (f : V -> Z).

Definition msum (m : gmap string V) : Z := zsum (f ∘ snd <$> map_to_list m).

Lemma msum_empty : msum ∅ = 0.
Proof. unfold msum. by rewrite map_to_list_empty. Qed.

Lemma msum_insert_new m k v : m !! k = None -> msum (<[k := v]> m) = f v + msum m.
Proof. intros H. unfold msum. by rewrite map_to_list_insert by done. Qed.

Lemma msum_delete m k v : m !! k = Some v -> msum m = f v + msum (delete k m).
Proof.
  intros H. rewrite <- (insert_delete_id m k v H) at 1.
  apply msum_insert_new, lookup_delete_eq.
Qed.

Lemma msum_insert m k v :
  msum (<[k := v]> m) = f v - default 0 (f <$> m !! k) + msum m.
Proof.
  destruct (m !! k) as [w|] eqn:E; cbn.
  - rewrite <- insert_delete_eq, msum_insert_new by apply lookup_delete_eq.
    rewrite (msum_delete m k w E). lia.
  - rewrite msum_insert_new by done. lia.
Qed.

Lemma msum_nonneg m : (forall k v, m !! k = Some v -> 0 <= f v) -> 0 <= msum m.
Proof.
  intros H. apply zsum_nonneg, Forall_fmap, Forall_forall. intros [k v] Hin.
  apply elem_of_map_to_list in Hin. eauto.
Qed.

(** Visiting the map in any order gives the same sum. *)
Lemma msum_order m (l : list (string * V)) :
  l ≡ₚ map_to_list m -> zsum (f ∘ snd <$> l) = msum m.
Proof. intros H. unfold msum. by rewrite H. Qed.
End msum.

(** [gains[k] += x] on a Go map: a missing key reads as zero. *)
Definition map_add (m : gmap string Z) (k : string) (x : Z) : gmap string Z :=
  <[k := default 0 (m !! k) +! x]> m.
Definition map_get (m : gmap string Z) (k : string) : Z := default 0 (m !! k).

Lemma map_get_insert (m : gmap string Z) k v : map_get (<[k := v]> m) k = v.
Proof. unfold map_get. by rewrite lookup_insert_eq. Qed.

Lemma map_add_get m k x k' :
  map_get (map_add m k x) k' = if decide (k = k') then map_get m k +! x else map_get m k'.
Proof.
  unfold map_get, map_add. case_decide; subst; simplify_map_eq; done.
Qed.

(** Additions to a gains map commute, whatever the keys. *)
Lemma map_add_comm m k1 x1 k2 x2 :
  map_add (map_add m k1 x1) k2 x2 = map_add (map_add m k2 x2) k1 x1.
Proof.
  unfold map_add. destruct (decide (k1 = k2)) as [->|Hne].
  - rewrite !lookup_insert_eq. cbn. rewrite !insert_insert_eq, !wrap_i64_add_l.
    do 2 f_equal. lia.
  - rewrite !lookup_insert_ne by done. apply insert_insert_ne. done.
Qed.
