(* ===== verification/Common.v ===== *)
(** * Errors and result codes

    The Go error variables the modelled code returns ([common/errors.go],
    [data/state/errors.go], [core/process/errors.go], the errors of [strconv])
    and the [Transaction_TXResultCode] values the native applications answer
    with, under their source names. *)

From S2P Require Import Prelude.

Inductive error : Type :=
(* data/state/errors.go *)
| ErrInsufficientFunds | ErrAddBalanceOverflow | StateErrInvalidValue | ErrInvalidClaimType
| ErrInvalidStakeType | ErrNotStaked | ErrUnstakeNotAvailable | ErrUndelegatingNotAvailable
| ErrClaimNotAvailable | ErrWithdrawNotAvailable | ErrInvalidPermissionID
| ErrInconsistentStakingData | ErrInvalidNonce | ErrNegativeCirculatingSupply
| ErrAPRGainDropped (reason : error)
(* common/errors.go *)
| ErrNilAddress | ErrNilTrie | ErrNegativeValue | ErrLeafSizeTooBig | ErrAccNotFound
| ErrAssetNotFound | ErrStakingNotFound | ErrAssetIDInvalid | ErrMaxSupplyExceeded
| ErrInt64Overflow | ErrUint64Overflow | ErrInvalidType | ErrInvalidValue | ErrInvalidParameter
| ErrRoleNotFound | ErrAccNotOwner | ErrAssetTriggerInvalid | ErrAssetTypeInvalid
| ErrAssetAlreadyExists | ErrInvalidAsset | ErrBalance | ErrAPRAboveMaximum
| ErrAssetPoolNotFound | ErrAssetPoolInvalidAddress | ErrAssetPoolInvalidAmount
| ErrAssetPoolAmountError | ErrAssetPoolInvalidAsset | ErrAssetPoolOutOfFunds
| ErrAssetPoolNotActive | ErrSubtractionOverflow | ErrAdditionOverflow | ErrNotFoundInKApp
| ErrProposalNotFound | ErrProposalMaxVotersReached | ErrEmptyString
| ErrValidatorNotFound | ErrAccountValidatorSet | ErrValidatorMaxDelegatorsReached
| ErrInvalidBLSPublicKey | ErrInvalidBLSKeyProof | ErrValidatorOwnerNotSender | ErrBLSKeyRevoked
| ErrAccountValidatorNotOwner | ErrInvalidPeerList | ErrNilBLSPublicKey | ErrEmptyAddress
(* core/process/errors.go *)
| ErrInvalidRcvAddr | ErrInvalidArgument | ErrSupplyNotValid | ErrInvalidUnitValue
| ErrAssetIsPaused | ErrKDATransferNotAllowed | ErrReadOnlyKAppMutation
| ErrSameSenderAndReceiverAddress | ErrContractAccountNotAllowed | ProcessErrInsufficientFunds
| ErrMinKFIStaked
(* strconv *)
| ErrSyntax | ErrRange
(* encoding/hex *)
| ErrInvalidByte | ErrLength
(* kdautils *)
| ErrInvalidTicker | ErrInvalidTickerLength | ErrInvalidTickerRandom | ErrInvalidTickerEncoding
(* a failure reported by code outside the model: the marshalizer, the trie, the database *)
| ErrExternal (code : Z)
(* not an error value: the Go runtime panics *)
| GoPanic.

#[global] Instance error_eq_dec : EqDecision error.
Proof. solve_decision. Defined.

Inductive txResultCode : Type :=
| Transaction_Ok | Transaction_KAPPError | Transaction_ParameterInvalid
| Transaction_AccountNotOwner | Transaction_AssetCantBeWiped | Transaction_AssetCantBeBurned
| Transaction_AccountError | Transaction_LoadAccountError | Transaction_AssetTypeInvalid
| Transaction_AssetError | Transaction_BalanceError | Transaction_SaveAccountError
| Transaction_AssetPaused | Transaction_KDATransferNotAllowed | Transaction_AmountInvalid
| Transaction_MaxSupplyExceeded | Transaction_SetStakingErr | Transaction_AssetCantBeMinted
| Transaction_NFTMintStopped | Transaction_OutOfFunds | Transaction_SameAccountError
| Transaction_ContractInvalid | Transaction_SetMarketOrderErr | Transaction_KeyConflict
| Transaction_MinKFIStakedUnreached | Transaction_ProposalNotActive | Transaction_Fail
| Transaction_BucketIDInvalid | Transaction_MaxDelegationAmount | Transaction_CommissionTooHigh
| Transaction_DelegationAmountInvalid | Transaction_InvalidPeerKey.

#[global] Instance txResultCode_eq_dec : EqDecision txResultCode.
Proof. solve_decision. Defined.

(** The fields of the error receipts ([common.ErrField...]). *)
Inductive errField : Type :=
| ErrFieldInvalidPermission | ErrFieldAssetCannotWipe | ErrFieldAssetCannotBurn
| ErrFieldInvalidToAddress | ErrFieldAssetPaused | ErrFieldTransferNotAllowed
| ErrFieldInvalidAssetID | ErrFieldInvalidAmount | ErrFieldAssetNotFound
| ErrFieldInvalidRoleAddress | ErrFieldMissingDepositRole | ErrFieldInvalidStakingType
| ErrFieldMaxDepositKDAsExceeded | ErrFieldAssetCannotMint | ErrFieldAssetMintStopped
| ErrFieldMaxSupplyExceeded | ErrFieldInvalidAddress | ErrFieldInsufficientFunds
| ErrFieldSameAddress | ErrFieldLoadSenderAccount | ErrFieldLoadReceiverAccount
| ErrFieldUninitializedContract | ErrFieldInvalidRoyalties | ErrFieldInvalidAssetType
| ErrFieldBalanceError | ErrFieldOrderIDMissing | ErrFieldOrderNotFound | ErrFieldInvalidOrder
| ErrFieldOrderCurrencyInvalid | ErrFieldOrderExpired | ErrFieldBidTooLow
| ErrFieldPriceBelowMinimum | ErrFieldInvalidMarketType | ErrFieldClaimNotAvailable
| ErrFieldMarketplaceError | ErrFieldInvalidPrice | ErrFieldInvalidName
| ErrFieldInvalidProposal | ErrFieldInvalidProposalParams | ErrFieldProposalNotActive
| ErrFieldProposalNotFound | ErrFieldInvalidVoteType | ErrFieldInvalidVoteAmount
| ErrFieldMinKFIStakedUnreached | ErrFieldInsufficientFrozenKFI | ErrFieldProposalMaxVoters
| ErrFieldValidatorAlreadySet | ErrFieldInvalidOwnerAddress | ErrFieldInvalidRewardAddress
| ErrFieldInvalidBLSKey | ErrFieldBLSKeyAlreadyUsed | ErrFieldBLSKeyRevoked
| ErrFieldInvalidBLSKeyProof | ErrFieldInvalidCommission | ErrFieldInvalidDelegation
| ErrFieldInvalidLogo | ErrFieldURICountExceeded | ErrFieldInvalidURI | ErrFieldValidatorNotFound
| ErrFieldBLSKeyNotOwned | ErrFieldUnjailNotAvailable.

#[global] Instance errField_eq_dec : EqDecision errField.
Proof. solve_decision. Defined.

(** ** Interfaces to code outside the model

    The protobuf runtime serializes the messages kept in the tries.  What the
    callers rely on is that decoding what was encoded gives the message back,
    up to [canon], the proto3 normal form (an empty map or byte field is not
    transmitted and reads back as nil). *)

Class Marshalizer (T : Type) : Type := {
  Marshal : T -> res error string;
  Unmarshal : string -> res error T;
  canon : T -> T;
}.

Class MarshalizerLaws (T : Type) `{Marshalizer T} : Prop := {
  unmarshal_marshal : forall x b, Marshal x = Ok b -> Unmarshal b = Ok (canon x);
  canon_canon : forall x, canon (canon x) = canon x;
}.

(** The data trie below an account, as [data.Trie] offers it: a failing read,
    a failing write, and an absent key read as the empty value. *)
Class TrieOps : Type := {
  trie : Type;
  trie_get : trie -> string -> res error string;
  trie_update : trie -> string -> string -> res error trie;
}.

Class TrieLaws `{TrieOps} : Prop := {
  trie_get_update_eq : forall t t' k v, trie_update t k v = Ok t' -> trie_get t' k = Ok v;
  trie_get_update_ne : forall t t' k k' v,
      trie_update t k v = Ok t' -> k <> k' -> trie_get t' k' = trie_get t k';
}.

(** A hash function. *)
Class Hasher : Type := { Compute : string -> string }.

(** The reference trie: a finite map that never fails. *)
Definition map_trie_get (t : gmap string string) (k : string) : res error string :=
  Ok (default EmptyString (t !! k)).
Definition map_trie_update (t : gmap string string) (k v : string) : res error (gmap string string) :=
  Ok (if decide (v = EmptyString) then delete k t else <[k := v]> t).

Definition map_trie : TrieOps :=
  {| trie := gmap string string; trie_get := map_trie_get; trie_update := map_trie_update |}.

Definition empty_map_trie : @trie map_trie := (∅ : gmap string string).

Lemma map_trie_laws : @TrieLaws map_trie.
Proof.
  split; cbn; unfold map_trie_get, map_trie_update.
  - intros t t' k v [= <-]. f_equal. case_decide; subst; by simplify_map_eq.
  - intros t t' k k' v [= <-] Hne. do 2 f_equal. case_decide; by simplify_map_eq.
Qed.
