(* ===== verification/Strconv.v ===== *)
(** * Decimal and hexadecimal text

    The [strconv] and [encoding/hex] functions the identifiers and keys of the
    source go through: [FormatInt]/[FormatUint] in base 10, [ParseUint] and
    [ParseInt] with base 10 and 64 bits, [hex.EncodeToString], and
    [bytes.Split] on a one-byte separator. *)

From S2P Require Import Prelude Common.
From Stdlib Require Import Ascii String.
Local Open Scope Z_scope.

Definition ascii_Z (c : ascii) : Z := Z.of_N (N_of_ascii c).
Definition digit_char (d : Z) : ascii := ascii_of_N (Z.to_N (48 + d)).
Definition is_digit (c : ascii) : bool := (48 <=? ascii_Z c) && (ascii_Z c <=? 57).

(** ** Formatting *)

Fixpoint dec_aux (fuel : nat) (n : Z) (acc : string) : string :=
  match fuel with
  | O => acc
  | S f =>
      let acc' := String (digit_char (n mod 10)) acc in
      if n <? 10 then acc' else dec_aux f (n / 10) acc'
  end.

(** Twenty digits are enough for every [uint64]. *)
Definition FormatUint (n : Z) : string := dec_aux 20 n EmptyString.
Definition FormatInt (n : Z) : string :=
  if n <? 0 then String "-" (FormatUint (- n)) else FormatUint n.

(** ** Parsing *)

(** The scanning loop of [ParseUint]: the range test comes before the next
    character is looked at; [max] is the largest value of the bit size. *)
Fixpoint parse_loop (max n : Z) (s : string) : res error Z :=
  match s with
  | EmptyString => Ok n
  | String c s' =>
      if negb (is_digit c) then Err ErrSyntax
      else if 1844674407370955162 <=? n then Err ErrRange
      else
        let n1 := n * 10 + (ascii_Z c - 48) in
        if max <? n1 then Err ErrRange else parse_loop max n1 s'
  end.

Definition ParseUint (s : string) : res error Z :=
  match s with EmptyString => Err ErrSyntax | _ => parse_loop MaxUint64 0 s end.

Definition ParseInt (s : string) : res error Z :=
  match s with
  | EmptyString => Err ErrSyntax
  | String c s' =>
      let neg := bool_decide (c = "-"%char) in
      let body := if neg || bool_decide (c = "+"%char) then s' else s in
      un ← ParseUint body;
      if negb neg && (9223372036854775808 <=? un) then Err ErrRange
      else if neg && (9223372036854775808 <? un) then Err ErrRange
      else Ok (if neg then - un else un)
  end.

(** The same functions at another bit size. *)
Definition ParseUintN (bitSize : Z) (s : string) : res error Z :=
  match s with EmptyString => Err ErrSyntax | _ => parse_loop (2 ^ bitSize - 1) 0 s end.

Definition ParseIntN (bitSize : Z) (s : string) : res error Z :=
  match s with
  | EmptyString => Err ErrSyntax
  | String c s' =>
      let neg := bool_decide (c = "-"%char) in
      let body := if neg || bool_decide (c = "+"%char) then s' else s in
      let cutoff := 2 ^ (bitSize - 1) in
      un ← ParseUintN bitSize body;
      if negb neg && (cutoff <=? un) then Err ErrRange
      else if neg && (cutoff <? un) then Err ErrRange
      else Ok (if neg then - un else un)
  end.

(** [ParseBool]. *)
Definition ParseBool (s : string) : res error bool :=
  if bool_decide (s ∈ ["1"; "t"; "T"; "true"; "TRUE"; "True"]) then Ok true
  else if bool_decide (s ∈ ["0"; "f"; "F"; "false"; "FALSE"; "False"]) then Ok false
  else Err ErrSyntax.

(** ** Hexadecimal *)

Definition hex_char (d : N) : ascii :=
  if (d <? 10)%N then ascii_of_N (48 + d) else ascii_of_N (87 + d).

Fixpoint EncodeToString (s : string) : string :=
  match s with
  | EmptyString => EmptyString
  | String c s' =>
      String (hex_char (N_of_ascii c / 16)) (String (hex_char (N_of_ascii c mod 16)) (EncodeToString s'))
  end.

(** [hex.DecodeString]: both cases of the letters, an even number of digits. *)
Definition hex_value (c : ascii) : option N :=
  let n := N_of_ascii c in
  if ((48 <=? n) && (n <=? 57))%N then Some (n - 48)%N
  else if ((97 <=? n) && (n <=? 102))%N then Some (n - 87)%N
  else if ((65 <=? n) && (n <=? 70))%N then Some (n - 55)%N
  else None.

Fixpoint DecodeString (s : string) : res error string :=
  match s with
  | EmptyString => Ok EmptyString
  | String a EmptyString => match hex_value a with None => Err ErrInvalidByte | Some _ => Err ErrLength end
  | String a (String b s') =>
      match hex_value a, hex_value b with
      | Some x, Some y => r ← DecodeString s'; Ok (String (ascii_of_N (16 * x + y)) r)
      | _, _ => Err ErrInvalidByte
      end
  end.

Example DecodeString_mixed : DecodeString "0aFf" = Ok (String (ascii_of_N 10) (String (ascii_of_N 255) "")).
Proof. reflexivity. Qed.

(** ** Splitting at a separator byte *)

Fixpoint split_at (sep : ascii) (s : string) : list string :=
  match s with
  | EmptyString => [EmptyString]
  | String c s' =>
      if bool_decide (c = sep) then EmptyString :: split_at sep s'
      else match split_at sep s' with
           | [] => [String c EmptyString]
           | w :: ws => String c w :: ws
           end
  end.

Fixpoint occurs (c : ascii) (s : string) : bool :=
  match s with
  | EmptyString => false
  | String x s' => bool_decide (x = c) || occurs c s'
  end.

(** ** Lemmas *)

Lemma ascii_Z_range c : 0 <= ascii_Z c < 256.
Proof. unfold ascii_Z. pose proof (N_ascii_bounded c). lia. Qed.

Lemma ascii_Z_digit d : 0 <= d < 10 -> ascii_Z (digit_char d) = 48 + d.
Proof.
  intros H. unfold ascii_Z, digit_char. rewrite N_ascii_embedding by lia. lia.
Qed.

Lemma is_digit_char d : 0 <= d < 10 -> is_digit (digit_char d) = true.
Proof. intros H. unfold is_digit. rewrite ascii_Z_digit by lia. lia. Qed.

Lemma parse_loop_digit n d s :
  0 <= n -> 0 <= d < 10 -> n * 10 + d <= MaxUint64 ->
  parse_loop MaxUint64 n (String (digit_char d) s) = parse_loop MaxUint64 (n * 10 + d) s.
Proof.
  intros Hn Hd Hm. cbn. rewrite is_digit_char, ascii_Z_digit by lia. cbn.
  ints. destruct (Z.leb_spec 1844674407370955162 n); [lia|].
  replace (48 + d - 48) with d by lia.
  destruct (Z.ltb_spec 18446744073709551615 (n * 10 + d)); [lia|done].
Qed.

Lemma parse_loop_dec_aux f n acc :
  0 <= n <= MaxUint64 -> n < 10 ^ Z.of_nat f ->
  parse_loop MaxUint64 0 (dec_aux f n acc) = parse_loop MaxUint64 n acc.
Proof.
  revert n acc. induction f as [|f IH]; intros n acc Hn Hf.
  - cbn in Hf. assert (n = 0) as -> by lia. done.
  - cbn. pose proof (Z.mod_pos_bound n 10 ltac:(lia)) as Hmod.
    pose proof (Z.div_mod n 10 ltac:(lia)) as Hdiv.
    destruct (Z.ltb_spec n 10).
    + rewrite parse_loop_digit by ilia. rewrite Z.mod_small by lia. f_equal.
    + assert (n / 10 <= n) by (apply Z.div_le_upper_bound; lia).
      rewrite IH.
      * rewrite parse_loop_digit by (first [ilia | apply Z.div_pos; lia]). f_equal. lia.
      * split; [apply Z.div_pos; lia|ilia].
      * apply Z.div_lt_upper_bound; [lia|].
        rewrite Nat2Z.inj_succ, Z.pow_succ_r in Hf by lia. lia.
Qed.

Lemma dec_aux_nonempty f n acc : dec_aux (S f) n acc <> EmptyString.
Proof.
  revert n acc. induction f as [|f IH]; intros n acc; cbn; destruct (n <? 10); try done.
  apply (IH (n / 10)).
Qed.

Lemma ParseUint_FormatUint n : is_u64 n -> ParseUint (FormatUint n) = Ok n.
Proof.
  intros H. unfold ParseUint, FormatUint.
  destruct (dec_aux 20 n EmptyString) eqn:E; [by apply dec_aux_nonempty in E|].
  rewrite <- E, parse_loop_dec_aux; [done|ilia|].
  change (10 ^ Z.of_nat 20) with 100000000000000000000. ilia.
Qed.

(** The first character of a formatted natural number is a digit, never a sign. *)
Lemma dec_aux_head f n acc :
  0 <= n -> exists c s, dec_aux (S f) n acc = String c s /\ is_digit c = true.
Proof.
  revert n acc. induction f as [|f IH]; intros n acc Hn;
    pose proof (Z.mod_pos_bound n 10 ltac:(lia)).
  - cbn. destruct (n <? 10); eauto using is_digit_char.
  - change (dec_aux (S (S f)) n acc) with
      (if n <? 10 then String (digit_char (n mod 10)) acc
       else dec_aux (S f) (n / 10) (String (digit_char (n mod 10)) acc)).
    destruct (n <? 10); [eauto using is_digit_char|].
    apply IH, Z.div_pos; lia.
Qed.

Lemma is_digit_not_sign c : is_digit c = true -> c <> "-"%char /\ c <> "+"%char.
Proof. intros H. split; intros ->; vm_compute in H; discriminate. Qed.

Lemma ParseInt_FormatInt n : is_i64 n -> ParseInt (FormatInt n) = Ok n.
Proof.
  intros H. unfold FormatInt. destruct (Z.ltb_spec n 0) as [Hn|Hn].
  - unfold ParseInt. rewrite bool_decide_eq_true_2 by done. cbn [orb].
    rewrite ParseUint_FormatUint by ilia. cbn.
    destruct (Z.ltb_spec 9223372036854775808 (- n)); [ilia|]. f_equal. lia.
  - unfold FormatUint. destruct (dec_aux_head 19 n EmptyString Hn) as (c & s & E & Hc).
    pose proof (ParseUint_FormatUint n ltac:(ilia)) as HP. unfold FormatUint in HP.
    rewrite E in *. apply is_digit_not_sign in Hc as [Hm Hp].
    unfold ParseInt.
    rewrite (bool_decide_eq_false_2 (c = "-"%char)), (bool_decide_eq_false_2 (c = "+"%char)) by done.
    cbn [orb]. rewrite HP. cbn.
    destruct (Z.leb_spec 9223372036854775808 n); [ilia|done].
Qed.

Lemma FormatInt_inj n m : is_i64 n -> is_i64 m -> FormatInt n = FormatInt m -> n = m.
Proof.
  intros Hn Hm E. pose proof (ParseInt_FormatInt n Hn) as P.
  rewrite E, ParseInt_FormatInt in P by done. congruence.
Qed.

Lemma hex_char_inj a b : (a < 16)%N -> (b < 16)%N -> hex_char a = hex_char b -> a = b.
Proof.
  unfold hex_char. intros Ha Hb.
  destruct (N.ltb_spec a 10), (N.ltb_spec b 10); intros E;
    apply (f_equal N_of_ascii) in E; rewrite !N_ascii_embedding in E; lia.
Qed.

(** The textual bucket identifiers of KLV and KFI stakes are unambiguous. *)
Lemma EncodeToString_inj a b : EncodeToString a = EncodeToString b -> a = b.
Proof.
  revert b. induction a as [|x a IH]; intros [|y b]; cbn; try done.
  intros [= H1 H2 H3].
  pose proof (N_ascii_bounded x). pose proof (N_ascii_bounded y).
  apply hex_char_inj in H1; [|apply N.Div0.div_lt_upper_bound; lia..].
  apply hex_char_inj in H2; [|apply N.mod_lt; lia..].
  f_equal; [|by apply IH].
  rewrite <- (ascii_N_embedding x), <- (ascii_N_embedding y). f_equal.
  rewrite (N.div_mod (N_of_ascii x) 16), (N.div_mod (N_of_ascii y) 16) by lia. congruence.
Qed.

Lemma hex_value_char d : (d < 16)%N -> hex_value (hex_char d) = Some d.
Proof.
  intros Hd. assert (In d [0;1;2;3;4;5;6;7;8;9;10;11;12;13;14;15]%N) as Hin.
  { cbn. lia. }
  cbn in Hin. repeat (destruct Hin as [<-|Hin]; [reflexivity|]). done.
Qed.

Lemma DecodeString_EncodeToString s : DecodeString (EncodeToString s) = Ok s.
Proof.
  induction s as [|c s IH]; [done|]. cbn. pose proof (N_ascii_bounded c).
  rewrite !hex_value_char, IH; [|apply N.mod_lt; lia|apply N.Div0.div_lt_upper_bound; lia].
  cbn. do 2 f_equal. rewrite <- (ascii_N_embedding c) at 3. f_equal. symmetry. apply N.div_mod. lia.
Qed.

Lemma split_at_none sep s : occurs sep s = false -> split_at sep s = [s].
Proof.
  induction s as [|c s IH]; cbn; [done|].
  intros [Hc Hs]%orb_false_iff. rewrite Hc, (IH Hs). done.
Qed.

Lemma split_at_app sep a b :
  occurs sep a = false -> split_at sep (a +:+ String sep b) = a :: split_at sep b.
Proof.
  induction a as [|c a IH].
  - intros _. change ("" +:+ String sep b) with (String sep b). cbn.
    by rewrite bool_decide_eq_true_2 by done.
  - rewrite string_app_cons. cbn. intros [Hc Ha]%orb_false_iff.
    by rewrite Hc, (IH Ha).
Qed.

(** Decimal text contains digits only. *)
Lemma digits_no_char c f n acc : is_digit c = false -> 0 <= n -> occurs c acc = false -> occurs c (dec_aux f n acc) = false.
Proof.
  intros Hc. revert n acc. induction f as [|f IH]; intros n acc Hn Ha; cbn; [done|].
  assert (H : occurs c (String (digit_char (n mod 10)) acc) = false).
  { cbn. rewrite Ha, orb_false_r. apply bool_decide_eq_false_2. intros <-.
    rewrite is_digit_char in Hc; [done|]. apply Z.mod_pos_bound. lia. }
  destruct (n <? 10); [done|]. apply IH; [apply Z.div_pos; lia|done].
Qed.

Lemma FormatUint_no_char c n : is_digit c = false -> 0 <= n -> occurs c (FormatUint n) = false.
Proof. intros Hc Hn. unfold FormatUint. by apply digits_no_char. Qed.

Lemma occurs_app c a b : occurs c (a +:+ b) = occurs c a || occurs c b.
Proof.
  induction a as [|x a IH]; [done|]. rewrite string_app_cons. cbn. rewrite IH.
  apply orb_assoc.
Qed.

(** A separator-free prefix is determined by the joined string. *)
Lemma sep_app_inj sep a b a' b' :
  occurs sep a = false -> occurs sep a' = false ->
  a +:+ String sep b = a' +:+ String sep b' -> a = a' /\ b = b'.
Proof.
  revert a'. induction a as [|c a IH]; intros [|c' a'];
    rewrite ?string_app_cons, ?string_app_empty_l; cbn -[String.append].
  - intros _ _ [= ->]. done.
  - intros _ [H _]%orb_false_iff [= -> _]. by rewrite bool_decide_eq_true_2 in H.
  - intros [H _]%orb_false_iff _ [= -> _]. by rewrite bool_decide_eq_true_2 in H.
  - intros [_ Ha]%orb_false_iff [_ Ha']%orb_false_iff [= -> E].
    destruct (IH a' Ha Ha' E). by subst.
Qed.
