(* ===== verification/GoStd.v ===== *)
(** * Standard packages of Go

    The reward code multiplies and divides [float64] and [big.Float] values.
    Both are binary floating point with a 53-bit significand and rounding to
    nearest even: [float64] has 11 exponent bits, [big.NewFloat] gives
    precision 53 with a 32-bit exponent.  They are the [spec_float] operations
    of the standard library at the two exponent ranges, so the formulas stay
    executable bit for bit.  Then [unicode/utf8] as far as [Valid], and the
    calendar of package [time] as far as [time.Unix(t, 0).AddDate(1, 0, 0).Unix()]:
    civil dates of the proleptic Gregorian calendar and a location that gives the
    offset in force. *)

From S2P Require Import Prelude Common Strconv.
From Stdlib Require Import SpecFloat.
From Stdlib Require Import Ascii.
Local Open Scope Z_scope.

Definition f64_emax : Z := 1024.
Definition big_emax : Z := 2147483648.

(** [float64(n)] for an integer [n]. *)
Definition f64_of_Z (z : Z) : spec_float := binary_normalize 53 f64_emax z 0 false.
Definition f64_mul (x y : spec_float) : spec_float := SFmul 53 f64_emax x y.
Definition f64_div (x y : spec_float) : spec_float := SFdiv 53 f64_emax x y.

(** [big.NewFloat(x).Mul] and [.Quo] on precision-53 operands. *)
Definition big_mul (x y : spec_float) : spec_float := SFmul 53 big_emax x y.
Definition big_quo (x y : spec_float) : spec_float := SFdiv 53 big_emax x y.

(** Truncation toward zero of a finite value, [None] otherwise. *)
Definition sf_trunc (x : spec_float) : option Z :=
  match x with
  | S754_zero _ => Some 0
  | S754_finite s m e =>
      let a := if 0 <=? e then Zpos m * 2 ^ e else Zpos m / 2 ^ (- e) in
      Some (if s then - a else a)
  | _ => None
  end.

(** [float64] to [int64] conversion.  Go leaves a value that does not fit
    unspecified; [oob] is what the platform produces then. *)
Definition f64_to_i64 (oob : spec_float -> Z) (x : spec_float) : Z :=
  match sf_trunc x with
  | Some z => if decide (is_i64 z) then z else oob x
  | None => oob x
  end.

(** [big.Float.Int64]: truncation, saturating at the ends of the range. *)
Definition big_to_i64 (x : spec_float) : Z :=
  match sf_trunc x with
  | Some z => Z.max MinInt64 (Z.min MaxInt64 z)
  | None => match x with S754_infinity true => MinInt64 | _ => MaxInt64 end
  end.

(** [x.Cmp(y) >= 0]. *)
Definition big_geb (x y : spec_float) : bool :=
  match SFcompare x y with Some Lt => false | Some _ => true | None => false end.

(** ** Signs

    The reward formulas only multiply and divide nonnegative quantities; a
    value carrying no minus sign never truncates below zero. *)

Definition sf_nonneg (x : spec_float) : Prop :=
  match x with
  | S754_zero s | S754_infinity s => s = false
  | S754_finite s _ _ => s = false
  | S754_nan => True
  end.

Lemma binary_round_aux_sign prec emax m e l : sf_nonneg (binary_round_aux prec emax false m e l).
Proof.
  unfold binary_round_aux.
  destruct (shr_fexp prec emax m e l) as [mrs' e'].
  destruct (shr_fexp prec emax _ e' loc_Exact) as [mrs'' e''].
  destruct (shr_m mrs''); cbn; try done. by destruct (_ <=? _).
Qed.

Lemma f64_of_Z_nonneg z : 0 <= z -> sf_nonneg (f64_of_Z z).
Proof.
  intros H. unfold f64_of_Z, binary_normalize. destruct z as [|p|p]; [done| |lia].
  unfold binary_round. destruct (shl_align _ _ _) as [mz ez].
  apply binary_round_aux_sign.
Qed.

Lemma big_mul_nonneg x y : sf_nonneg x -> sf_nonneg y -> sf_nonneg (big_mul x y).
Proof.
  unfold big_mul, SFmul. destruct x, y; cbn; intros; subst; try done.
  apply binary_round_aux_sign.
Qed.

Lemma big_quo_nonneg x y : sf_nonneg x -> sf_nonneg y -> sf_nonneg (big_quo x y).
Proof.
  unfold big_quo, SFdiv. destruct x, y; cbn -[SFdiv_core_binary]; intros; subst; try done.
  destruct (SFdiv_core_binary _ _ _ _ _ _) as [[mz ez] lz]. apply binary_round_aux_sign.
Qed.

Lemma big_to_i64_nonneg x : sf_nonneg x -> 0 <= big_to_i64 x.
Proof.
  unfold big_to_i64, sf_trunc. destruct x as [s|s| |s m e]; cbn; intros H; subst; try ilia.
  destruct (0 <=? e).
  - assert (0 <= Zpos m * 2 ^ e) by (apply Z.mul_nonneg_nonneg; [lia|apply Z.pow_nonneg; lia]).
    ilia.
  - assert (0 <= Zpos m / 2 ^ (- e)) by (apply Z_div_nonneg_nonneg; [lia|apply Z.pow_nonneg; lia]).
    ilia.
Qed.

Lemma big_to_i64_range x : is_i64 (big_to_i64 x).
Proof.
  unfold big_to_i64. destruct (sf_trunc x); [ilia|].
  destruct x as [s|[] | |s m e]; ilia.
Qed.

#[export] Hint Resolve f64_of_Z_nonneg big_mul_nonneg big_quo_nonneg big_to_i64_nonneg
  big_to_i64_range : goint.

(** ** [utf8.Valid] *)

Definition byte_in (lo hi : Z) (c : ascii) : bool := (lo <=? ascii_Z c) && (ascii_Z c <=? hi).
Definition cont_byte (c : ascii) : bool := byte_in 128 191 c.

(** One rune at a time, along the table of first bytes and accepted second
    bytes. *)
Fixpoint utf8_Valid (s : string) : bool :=
  match s with
  | EmptyString => true
  | String c s1 =>
      if byte_in 0 127 c then utf8_Valid s1
      else
        match s1 with
        | EmptyString => false
        | String c2 s2 =>
            if byte_in 194 223 c then cont_byte c2 && utf8_Valid s2
            else
              match s2 with
              | EmptyString => false
              | String c3 s3 =>
                  if byte_in 224 239 c then
                    (if ascii_Z c =? 224 then byte_in 160 191 c2
                     else if ascii_Z c =? 237 then byte_in 128 159 c2
                     else cont_byte c2) && cont_byte c3 && utf8_Valid s3
                  else
                    match s3 with
                    | EmptyString => false
                    | String c4 s4 =>
                        byte_in 240 244 c
                        && (if ascii_Z c =? 240 then byte_in 144 191 c2
                            else if ascii_Z c =? 244 then byte_in 128 143 c2
                            else cont_byte c2) && cont_byte c3 && cont_byte c4 && utf8_Valid s4
                    end
              end
        end
  end.

(** ** Dates *)

Definition is_leap (y : Z) : bool :=
  (y mod 4 =? 0) && (negb (y mod 100 =? 0) || (y mod 400 =? 0)).

(** Days from 1970-01-01 to the first of January of [y]. *)
Definition days_before_year (y : Z) : Z :=
  let p := y - 1 in 365 * p + p / 4 - p / 100 + p / 400 - 719162.

(** Days before each month of a common year, [daysBefore]. *)
Definition daysBefore : list Z := [0; 31; 59; 90; 120; 151; 181; 212; 243; 273; 304; 334].
Definition days_before_month (y m : Z) : Z :=
  default 0 (daysBefore !! Z.to_nat (m - 1)) + (if is_leap y && (3 <=? m) then 1 else 0).

(** The day number of a date; a day past the end of its month is a day of the
    next. *)
Definition date_days (y m d : Z) : Z := days_before_year y + days_before_month y m + d - 1.

(** The year of a day number and the day in the year, by cycles of 400, 100, 4
    and 1 years. *)
Definition year_of_days (days : Z) : Z * Z :=
  let d := days + 719162 in
  let n400 := d / 146097 in
  let d := d - 146097 * n400 in
  let n100 := Z.min 3 (d / 36524) in
  let d := d - 36524 * n100 in
  let n4 := d / 1461 in
  let d := d - 1461 * n4 in
  let n1 := Z.min 3 (d / 365) in
  (400 * n400 + 100 * n100 + 4 * n4 + n1 + 1, d - 365 * n1).

(** The last month that starts on or before the day [yday] of year [y]. *)
Fixpoint month_from (fuel : nat) (y yday m : Z) : Z :=
  match fuel with
  | O => m
  | S f => if (m <? 12) && (days_before_month y (m + 1) <=? yday) then month_from f y yday (m + 1) else m
  end.

(** [Time.Date]. *)
Definition civil_date (days : Z) : Z * Z * Z :=
  let '(y, yday) := year_of_days days in
  let m := month_from 12 y yday 1 in
  (y, m, yday - days_before_month y m + 1).

(** A location: the offset in force at an instant, and the instants between
    which it is in force. *)
Definition Location : Type := Z -> Z * Z * Z.
Definition loc_offset (l : Location) (unix : Z) : Z := (l unix).1.1.
Definition UTC : Location := fun _ => (0, - 2 ^ 63, 2 ^ 63 - 1).
(** A zone a fixed number of seconds east of Greenwich. *)
Definition FixedZone (offset : Z) : Location := fun _ => (offset, - 2 ^ 63, 2 ^ 63 - 1).

Definition secondsPerDay : Z := 86400.

(** [time.Date]: the instant of a local date and time of day. *)
Definition time_Date (l : Location) (y m d clock : Z) : Z :=
  let unix := date_days y m d * secondsPerDay + clock in
  let '(offset, start, fin) := l unix in
  if offset =? 0 then unix
  else
    let utc := unix - offset in
    let offset' := if (utc <? start) || (fin <=? utc) then loc_offset l utc else offset in
    unix - offset'.

(** [time.Unix(t, 0).AddDate(years, 0, 0).Unix()] where [l] is the local zone. *)
Definition AddYears (l : Location) (years t : Z) : Z :=
  let abs := t + loc_offset l t in
  let '(y, m, d) := civil_date (abs / secondsPerDay) in
  time_Date l (y + years) m d (abs mod secondsPerDay).

(** ** Lemmas *)

(** The next year starts 365 or 366 days after this one. *)
Lemma year_length y :
  days_before_year (y + 1) = days_before_year y + (if is_leap y then 366 else 365).
Proof.
  unfold days_before_year, is_leap. replace (y + 1 - 1) with y by lia.
  pose proof (Z.div_mod y 4 ltac:(lia)). pose proof (Z.mod_pos_bound y 4 ltac:(lia)).
  pose proof (Z.div_mod y 100 ltac:(lia)). pose proof (Z.mod_pos_bound y 100 ltac:(lia)).
  pose proof (Z.div_mod y 400 ltac:(lia)). pose proof (Z.mod_pos_bound y 400 ltac:(lia)).
  pose proof (Z.div_mod (y - 1) 4 ltac:(lia)). pose proof (Z.mod_pos_bound (y - 1) 4 ltac:(lia)).
  pose proof (Z.div_mod (y - 1) 100 ltac:(lia)). pose proof (Z.mod_pos_bound (y - 1) 100 ltac:(lia)).
  pose proof (Z.div_mod (y - 1) 400 ltac:(lia)). pose proof (Z.mod_pos_bound (y - 1) 400 ltac:(lia)).
  destruct (Z.eqb_spec (y mod 4) 0), (Z.eqb_spec (y mod 100) 0), (Z.eqb_spec (y mod 400) 0);
    cbn; lia.
Qed.

Lemma days_before_month_next_year y m :
  days_before_month (y + 1) m - days_before_month y m =
  (if is_leap (y + 1) && (3 <=? m) then 1 else 0) - (if is_leap y && (3 <=? m) then 1 else 0).
Proof. unfold days_before_month. lia. Qed.

(** Leap years are not consecutive. *)
Lemma leap_alone y : is_leap y = true -> is_leap (y + 1) = false.
Proof.
  unfold is_leap. intros [H _]%andb_true_iff. apply Z.eqb_eq in H.
  replace ((y + 1) mod 4) with 1; [done|].
  rewrite Zplus_mod, H. done.
Qed.

(** A date and the same date of the next year are 365 or 366 days apart. *)
Lemma next_year_days y m d :
  365 <= date_days (y + 1) m d - date_days y m d <= 366.
Proof.
  unfold date_days. rewrite year_length. pose proof (days_before_month_next_year y m) as H.
  destruct (is_leap y) eqn:E; [rewrite (leap_alone y E) in H|]; cbn in H.
  - destruct (3 <=? m); cbn in H; lia.
  - destruct (is_leap (y + 1)), (3 <=? m); cbn in H; lia.
Qed.

(** The date of a day number is the date with that number. *)
Lemma civil_date_days days :
  let '(y, m, d) := civil_date days in date_days y m d = days.
Proof.
  unfold civil_date. destruct (year_of_days days) as [y yday] eqn:E.
  unfold date_days. assert (days_before_year y + yday = days) as H; [|lia].
  unfold year_of_days in E. injection E as <- <-. unfold days_before_year.
  set (d0 := days + 719162). set (n400 := d0 / 146097). set (d1 := d0 - 146097 * n400).
  set (n100 := Z.min 3 (d1 / 36524)). set (d2 := d1 - 36524 * n100). set (n4 := d2 / 1461).
  set (d3 := d2 - 1461 * n4). set (n1 := Z.min 3 (d3 / 365)).
  assert (0 <= d1 < 146097) by (unfold d1, n400; pose proof (Z.div_mod d0 146097 ltac:(lia));
    pose proof (Z.mod_pos_bound d0 146097 ltac:(lia)); lia).
  assert (0 <= n100 <= 3 /\ 0 <= d2 < 36525) as [? ?].
  { unfold d2, n100. pose proof (Z.div_mod d1 36524 ltac:(lia)).
    pose proof (Z.mod_pos_bound d1 36524 ltac:(lia)). lia. }
  assert (0 <= n4 <= 24 /\ 0 <= d3 < 1461) as [? ?].
  { unfold d3, n4. pose proof (Z.div_mod d2 1461 ltac:(lia)).
    pose proof (Z.mod_pos_bound d2 1461 ltac:(lia)). lia. }
  assert (0 <= n1 <= 3) by (unfold n1; pose proof (Z.div_pos d3 365 ltac:(lia) ltac:(lia)); lia).
  replace (400 * n400 + 100 * n100 + 4 * n4 + n1 + 1 - 1) with (n400 * 400 + (100 * n100 + 4 * n4 + n1)) by lia.
  replace ((n400 * 400 + (100 * n100 + 4 * n4 + n1)) / 4) with (n400 * 100 + (25 * n100 + n4)).
  2: { apply (Z.div_unique _ 4 _ n1); lia. }
  replace ((n400 * 400 + (100 * n100 + 4 * n4 + n1)) / 100) with (n400 * 4 + n100).
  2: { apply (Z.div_unique _ 100 _ (4 * n4 + n1)); lia. }
  replace ((n400 * 400 + (100 * n100 + 4 * n4 + n1)) / 400) with n400.
  2: { apply (Z.div_unique _ 400 _ (100 * n100 + 4 * n4 + n1)); lia. }
  unfold d3, d2, d1, d0 in *. lia.
Qed.

(** In a zone of one offset the same date a year later is 365 or 366 days
    away. *)
Lemma AddYears_bounds l offset t :
  (forall u, (l u).1.1 = offset) ->
  t + 365 * secondsPerDay <= AddYears l 1 t <= t + 366 * secondsPerDay.
Proof.
  intros Hl. unfold AddYears, loc_offset. rewrite Hl.
  pose proof (civil_date_days ((t + offset) / secondsPerDay)) as Hd.
  destruct (civil_date _) as [[y m] d]. unfold time_Date, loc_offset.
  set (unix := date_days (y + 1) m d * secondsPerDay + (t + offset) mod secondsPerDay).
  pose proof (Hl unix) as Hu. pose proof (Hl (unix - offset)) as Hu'. 
  destruct (l unix) as [[o s] e]. cbn in Hu. subst o. rewrite Hu'.
  pose proof (next_year_days y m d). pose proof (Z.div_mod (t + offset) secondsPerDay ltac:(done)).
  unfold secondsPerDay in *. destruct (Z.eqb_spec offset 0); [lia|]. case_match; lia.
Qed.
