(* ===== verification/Forks.v ===== *)
(** * Fork activation

    [core/fork/forks.go] and [config/enableEpochs.go]: every consensus change is
    gated by an activation epoch of the node configuration.  The flag of a fork
    is recomputed for each confirmed epoch; [Validate] rejects schedules under
    which one change would run without another it relies on. *)

From S2P Require Import Prelude Common.

(** One name per gate of [core.ForkController]. *)
Inductive fork : Type :=
| ClaimKFI | ProcessorFlowITOPrice | FixStakingBuckets | KdaFpr | BigBucketsCompute
| FPRComputeAndKdaFeeFlow | FixDelegationSameEpoch | EnableSmartContracts | FixAuditChanges
| EpochRewardsV2 | FixAuditChangesV2 | FixMarketBuyOverflow | FixAuditChangesV3
| FixAuditChangesV4 | FixAuditChangesV5 | FixAuditChangesV6 | FixAuditChangesV7.

#[global] Instance fork_eq_dec : EqDecision fork.
Proof. solve_decision. Defined.

(** What the components see of the controller: which gates are open. *)
Definition ForkController : Type := fork -> bool.

(** Every gate open, the state of a node past the last scheduled fork. *)
Definition all_forks : ForkController := fun _ => true.

(** [config.EnableEpochs]: the activation epoch of each gate. *)
Definition EnableEpochs : Type := fork -> Z.

Record forkController : Type := {
  enableEpochs : EnableEpochs;
  flags : ForkController;
}.

(** [NewForkController]: all flags start unset. *)
Definition NewForkController (cfg : EnableEpochs) : forkController :=
  {| enableEpochs := cfg; flags := fun _ => false |}.

(** The accessors [ClaimKFI], ..., [FixAuditChangesV7]. *)
Definition IsSet (fc : forkController) (f : fork) : bool := flags fc f.

(** [FixAuditChangesV5InEpoch] and its V6 and V7 siblings. *)
Definition InEpoch (fc : forkController) (f : fork) (epoch : Z) : bool :=
  enableEpochs fc f <=? epoch.

Definition EpochConfirmed (fc : forkController) (epoch : Z) : forkController :=
  {| enableEpochs := enableEpochs fc; flags := fun f => enableEpochs fc f <=? epoch |}.

(** A node that has seen the given epochs confirmed, in order. *)
Definition run_epochs (fc : forkController) (epochs : list Z) : forkController :=
  foldl EpochConfirmed fc epochs.

(** [EnableEpochs.Validate]: true when the schedule is accepted. *)
Definition Validate (e : EnableEpochs) : bool :=
  negb (e EnableSmartContracts <? e ProcessorFlowITOPrice)
  && negb (negb (e FixMarketBuyOverflow =? 0) && (e FixAuditChangesV4 <=? e FixMarketBuyOverflow))
  && negb (negb (e FixAuditChangesV4 =? 0) && (e FixAuditChangesV5 <=? e FixAuditChangesV4))
  && negb (e FixAuditChangesV6 <? e BigBucketsCompute)
  && negb (negb (e FixAuditChangesV6 =? 0) && (e FixAuditChangesV7 <=? e FixAuditChangesV6)).

(** The gates that a validated schedule makes depend on one another: whenever
    the first is open so is the second. *)
Definition fork_requires : list (fork * fork) :=
  [ (EnableSmartContracts, ProcessorFlowITOPrice);
    (FixAuditChangesV6, BigBucketsCompute) ].

Lemma run_epochs_app fc l1 l2 : run_epochs fc (l1 ++ l2) = run_epochs (run_epochs fc l1) l2.
Proof. unfold run_epochs. by rewrite foldl_app. Qed.

Lemma run_epochs_schedule fc l : enableEpochs (run_epochs fc l) = enableEpochs fc.
Proof.
  revert fc. induction l as [|x l IH]; intros fc; [done|].
  unfold run_epochs in *. cbn. by rewrite IH.
Qed.

Lemma run_epochs_last fc l e f :
  IsSet (run_epochs fc (l ++ [e])) f = InEpoch fc f e.
Proof.
  rewrite run_epochs_app. unfold run_epochs at 1, IsSet, InEpoch. cbn.
  by rewrite run_epochs_schedule.
Qed.

(** ** Properties *)

(** Whatever epochs were confirmed before, after [EpochConfirmed e] every
    gate answers what its [InEpoch] variant answers for [e]; a gate that is open
    at [e] is open after any later confirmation, so a fork never un-activates
    while epochs advance. *)
Theorem fork_flags_follow_epoch (cfg : EnableEpochs) (l : list Z) (e e' : Z) (f : fork) :
  e <= e' ->
  IsSet (run_epochs (NewForkController cfg) (l ++ [e])) f = InEpoch (NewForkController cfg) f e /\
  (IsSet (run_epochs (NewForkController cfg) (l ++ [e])) f = true ->
   IsSet (run_epochs (NewForkController cfg) (l ++ [e; e'])) f = true).
Proof.
  intros He. split; [apply run_epochs_last|].
  change [e; e'] with ([e] ++ [e']). rewrite app_assoc, !run_epochs_last.
  unfold InEpoch. cbn. lia.
Qed.

Lemma fork_flags_follow_epoch_witness :
  exists cfg,
    IsSet (run_epochs (NewForkController cfg) ([1] ++ [5])) FixAuditChangesV6 = true /\
    IsSet (run_epochs (NewForkController cfg) ([1] ++ [5; 9])) FixAuditChangesV6 = true.
Proof.
  exists (fun _ => 4). split; [reflexivity|].
  apply (fork_flags_follow_epoch (fun _ => 4) [1] 5 9 FixAuditChangesV6); [lia|reflexivity].
Defined.

(** Under a schedule accepted by [Validate], at every confirmed epoch the
    smart-contract gate implies the accounts cache gate (so semi-fungible
    balances are persisted) and V6 implies the big-number APR arithmetic; and
    if the freeze gate has a configured epoch, the freeze window before V4 is
    not empty. *)
Theorem validated_schedule_dependencies (cfg : EnableEpochs) (l : list Z) (e : Z) :
  Validate cfg = true ->
  (forall f g, (f, g) ∈ fork_requires ->
     IsSet (run_epochs (NewForkController cfg) (l ++ [e])) f = true ->
     IsSet (run_epochs (NewForkController cfg) (l ++ [e])) g = true) /\
  (cfg FixMarketBuyOverflow <> 0 ->
   InEpoch (NewForkController cfg) FixMarketBuyOverflow (cfg FixMarketBuyOverflow) = true /\
   InEpoch (NewForkController cfg) FixAuditChangesV4 (cfg FixMarketBuyOverflow) = false).
Proof.
  unfold Validate. intros HV. repeat rewrite andb_true_iff in HV.
  destruct HV as [[[[H1 H2] H3] H4] H5]. split.
  - intros f g Hfg. rewrite !run_epochs_last. unfold InEpoch. cbn.
    unfold fork_requires in Hfg. rewrite !elem_of_cons in Hfg.
    destruct Hfg as [[= -> ->]|[[= -> ->]|Hnil]]; [lia|lia|by apply not_elem_of_nil in Hnil].
  - intros Hne. unfold InEpoch. cbn. lia.
Qed.

(** A schedule with every gate configured, used by the witnesses. *)
Definition example_schedule : EnableEpochs := fun f =>
  match f with
  | EnableSmartContracts => 6 | ProcessorFlowITOPrice => 3
  | FixMarketBuyOverflow => 8 | FixAuditChangesV4 => 9 | FixAuditChangesV5 => 10
  | FixAuditChangesV6 => 11 | FixAuditChangesV7 => 12 | _ => 1
  end.

Lemma validated_schedule_dependencies_witness :
  Validate example_schedule = true /\
  IsSet (run_epochs (NewForkController example_schedule) ([] ++ [7])) ProcessorFlowITOPrice = true.
Proof.
  split; [reflexivity|].
  refine (proj1 (validated_schedule_dependencies example_schedule [] 7 eq_refl)
            EnableSmartContracts _ _ eq_refl).
  apply list_elem_of_here.
Defined.
