(* ===== verification/Tools.v ===== *)
(** * Checked arithmetic and byte conversions

    [tools/safeConverter.go], [tools/converters.go] and the checked [uint64]
    operations of [tools/computers.go]. *)

From S2P Require Import Prelude Common GoStd Strconv.
From Stdlib Require Import Ascii.
Local Open Scope Z_scope.

Definition HundredPercent : Z := 10000.
Definition OneYearTimestamp : Z := 31556926.

(** ** Checked additions *)

Definition SafeAddU64 (a b : Z) : res error Z :=
  if MaxUint64 - b <? a then Err ErrUint64Overflow else Ok (wrap_u64 (a + b)).

Definition safeAddI64 (a b : Z) : res error Z :=
  if ((0 <? b) && (MaxInt64 -! b <? a)) || ((b <? 0) && (a <? MinInt64 -! b))
  then Err ErrInt64Overflow else Ok (a +! b).

(** The dynamic type of the second argument of [SafeAddI64]. *)
Inductive ifaceInt : Type :=
| IInt (z : Z) | IInt64 (z : Z) | IUint64 (z : Z) | IOther.

Definition SafeU64ToI64 (v : Z) : Z := if MaxInt64 <? v then MaxInt64 else v.

Definition SafeAddI64 (a : Z) (b : ifaceInt) : res error Z :=
  match b with
  | IInt z => safeAddI64 a z
  | IInt64 z => safeAddI64 a z
  | IUint64 z => if MaxInt64 <? z then Err ErrInt64Overflow else safeAddI64 a (SafeU64ToI64 z)
  | IOther => Err ErrInvalidType
  end.

(** ** Saturating conversions *)

Definition SafeI64ToU64 (v : Z) : Z := if v <? 0 then 0 else v.
Definition SafeU64ToI32 (v : Z) : Z := if MaxInt32 <? v then MaxInt32 else v.
Definition SafeU64ToU32 (v : Z) : Z := if MaxUint32 <? v then MaxUint32 else v.
Definition SafeU32ToI32 (v : Z) : Z := if MaxInt32 <? v then MaxInt32 else v.
Definition SafeI64ToI32 (v : Z) : Z :=
  if MaxInt32 <? v then MaxInt32 else if v <? MinInt32 then MinInt32 else v.
Definition SafeI64ToU32 (v : Z) : Z :=
  if MaxUint32 <? v then MaxUint32 else if v <? 0 then 0 else v.
Definition SafeStringToU64 (s : string) : res error Z := ParseUint s.
Definition SafeStringToI64 (s : string) : res error Z := ParseInt s.

(** ** [computers.go] *)

Definition SafeSubUint64 (a b : Z) : res error Z :=
  if a <? b then Err ErrSubtractionOverflow else Ok (wrap_u64 (a - b)).
Definition SafeAddUint64 (a b : Z) : res error Z :=
  let s := wrap_u64 (a + b) in
  if (a <=? s) && (b <=? s) then Ok s else Err ErrAdditionOverflow.

(** ** Percentages

    [oob] is the platform's conversion of an out-of-range [float64]. *)
Definition ComputePercentageI64 (oob : SpecFloat.spec_float -> Z)
    (value percentage : Z) (checkOverflow : bool) : res error Z :=
  if negb checkOverflow then
    Ok (f64_to_i64 oob (f64_div (f64_mul (f64_of_Z value) (f64_of_Z percentage)) (f64_of_Z HundredPercent)))
  else
    let result := value * percentage / HundredPercent in
    if bool_decide (is_i64 result) then Ok result else Err ErrInt64Overflow.

(** ** Little-endian bytes *)

(** [copy(tmp[:], b)] then [LittleEndian.Uint64]: the first eight bytes, padded. *)
Fixpoint le_value (n : nat) (s : string) : Z :=
  match n, s with
  | S n', String c s' => ascii_Z c + 256 * le_value n' s'
  | _, _ => 0
  end.
Definition BytesToUint64LE (b : string) : Z := le_value 8 b.

Definition byte_of (z : Z) : ascii := ascii_of_N (Z.to_N (Z.land z 255)).

(** [for u > 0 { append(byte(u&0xFF)); u >>= 8 }]: eight rounds empty a [uint64]. *)
Fixpoint le_bytes (fuel : nat) (u : Z) : string :=
  match fuel with
  | O => EmptyString
  | S f => if 0 <? u then String (byte_of u) (le_bytes f (Z.shiftr u 8)) else EmptyString
  end.
Definition Uint64ToBytesLETruncate (u : Z) : string :=
  if u =? 0 then String (byte_of 0) EmptyString else le_bytes 8 u.

Fixpoint le_padded (n : nat) (u : Z) : string :=
  match n with
  | O => EmptyString
  | S n' => String (byte_of u) (le_padded n' (Z.shiftr u 8))
  end.
Definition Uint64ToBytesLE (u : Z) : string := le_padded 8 u.

(** ** Lemmas *)

Lemma safeAddI64_spec a b :
  is_i64 a -> is_i64 b ->
  safeAddI64 a b = if bool_decide (is_i64 (a + b)) then Ok (a + b) else Err ErrInt64Overflow.
Proof.
  intros Ha Hb. unfold safeAddI64.
  case_bool_decide as H.
  - rewrite (wrap_i64_id (a + b)) by done.
    destruct (Z.ltb_spec 0 b), (Z.ltb_spec b 0); cbn; try lia; rewrite ?wrap_i64_id by ilia.
    + destruct (Z.ltb_spec (MaxInt64 - b) a); [ilia|done].
    + destruct (Z.ltb_spec a (MinInt64 - b)); [ilia|done].
    + done.
  - destruct (Z.ltb_spec 0 b), (Z.ltb_spec b 0); cbn; try lia; rewrite ?wrap_i64_id by ilia.
    + destruct (Z.ltb_spec (MaxInt64 - b) a); [done|ilia].
    + destruct (Z.ltb_spec a (MinInt64 - b)); [done|ilia].
    + ilia.
Qed.

Lemma safeAddI64_ok a b r :
  is_i64 a -> is_i64 b -> safeAddI64 a b = Ok r -> r = a + b /\ is_i64 (a + b).
Proof.
  intros Ha Hb. rewrite safeAddI64_spec by done. case_bool_decide; [|done]. by intros [= <-].
Qed.

Lemma ComputePercentage_checked_bound oob v p r :
  0 <= v -> 0 <= p <= HundredPercent ->
  ComputePercentageI64 oob v p true = Ok r -> 0 <= r <= v.
Proof.
  unfold ComputePercentageI64, HundredPercent. cbn. intros Hv Hp.
  case_bool_decide; [|done]. intros [= <-]. split.
  - apply Z.div_pos; nia.
  - apply Z.div_le_upper_bound; nia.
Qed.

Lemma ascii_byte_of z : ascii_Z (byte_of z) = Z.land z 255.
Proof.
  unfold ascii_Z, byte_of. change 255 with (Z.ones 8). rewrite Z.land_ones by lia.
  pose proof (Z.mod_pos_bound z (2 ^ 8) ltac:(lia)).
  change (2 ^ 8) with 256 in *. rewrite N_ascii_embedding; lia.
Qed.

Lemma byte_split u : Z.land u 255 + 256 * Z.shiftr u 8 = u.
Proof.
  change 255 with (Z.ones 8). rewrite Z.land_ones, Z.shiftr_div_pow2 by lia.
  change (2 ^ 8) with 256. pose proof (Z.div_mod u 256). lia.
Qed.

Lemma shiftr8_lt u n : 0 <= u < 256 ^ Z.of_nat (S n) -> 0 <= Z.shiftr u 8 < 256 ^ Z.of_nat n.
Proof.
  intros H. rewrite Z.shiftr_div_pow2 by lia. change (2 ^ 8) with 256.
  rewrite Nat2Z.inj_succ, Z.pow_succ_r in H by lia. split.
  - apply Z.div_pos; lia.
  - apply Z.div_lt_upper_bound; lia.
Qed.

Lemma le_value_bytes n u : 0 <= u < 256 ^ Z.of_nat n -> le_value n (le_bytes n u) = u.
Proof.
  revert u. induction n as [|n IH]; intros u H.
  - cbn in H. assert (u = 0) as -> by lia. done.
  - cbn. destruct (Z.ltb_spec 0 u); [|cbn; lia].
    cbn. rewrite ascii_byte_of, IH by (by apply shiftr8_lt). apply byte_split.
Qed.

Lemma le_value_padded n u : 0 <= u < 256 ^ Z.of_nat n -> le_value n (le_padded n u) = u.
Proof.
  revert u. induction n as [|n IH]; intros u H.
  - cbn in H. assert (u = 0) as -> by lia. done.
  - cbn. rewrite ascii_byte_of, IH by (by apply shiftr8_lt). apply byte_split.
Qed.

Lemma u64_bytes u : is_u64 u <-> 0 <= u < 256 ^ Z.of_nat 8.
Proof. change (256 ^ Z.of_nat 8) with 18446744073709551616. ilia. Qed.

(** Both little-endian encodings decode to the number they encode. *)
Lemma BytesToUint64LE_truncate u : is_u64 u -> BytesToUint64LE (Uint64ToBytesLETruncate u) = u.
Proof.
  intros H%u64_bytes. unfold BytesToUint64LE, Uint64ToBytesLETruncate.
  destruct (Z.eqb_spec u 0) as [->|]; [reflexivity|]. by apply le_value_bytes.
Qed.

Lemma BytesToUint64LE_padded u : is_u64 u -> BytesToUint64LE (Uint64ToBytesLE u) = u.
Proof. intros H%u64_bytes. by apply le_value_padded. Qed.
