(* ===== verification/Permissions.v ===== *)
(** * Contract permissions of an account

    [data/transaction/utils.go] and the permission methods of
    [data/state/userAccount.go]: the operations a permission grants are a
    little-endian bit set, one bit per contract type. *)

From S2P Require Import Prelude Common Strconv Tools.
From Stdlib Require Import Ascii String.
Local Open Scope Z_scope.

(** [1 << uint(contractType)] on a [uint64]: a shift of 64 or more is zero, and
    so is one by a negative type, which converts to a huge unsigned count. *)
Definition contract_bit (ct : Z) : Z :=
  if (0 <=? ct) && (ct <? 64) then Z.shiftl 1 ct else 0.

Definition permission_value (cts : list Z) : Z := foldl (fun v ct => Z.lor v (contract_bit ct)) 0 cts.

Definition EncodeContractPermissions (cts : list Z) : string :=
  match cts with
  | [] => EmptyString
  | _ => Uint64ToBytesLETruncate (permission_value cts)
  end.

Definition EncodeContractPermissionsHex (cts : list Z) : string :=
  EncodeToString (EncodeContractPermissions cts).

(** The types granted by the byte at index [i], in bit order. *)
Definition decode_byte (i : Z) (b : ascii) : list Z :=
  if ascii_Z b =? 0 then []
  else omap (fun bit => if negb (Z.land (ascii_Z b) (Z.shiftl 1 bit) =? 0)
                        then Some (i * 8 + bit) else None)
            [0; 1; 2; 3; 4; 5; 6; 7].

Fixpoint decode_from (i : Z) (s : string) : list Z :=
  match s with
  | EmptyString => []
  | String c s' => decode_byte i c ++ decode_from (i + 1) s'
  end.

Definition DecodeContractPermissions (permissions : string) : list Z := decode_from 0 permissions.

(** [getPermissionMask]: byte index and bit mask, on [uint32(contractType)]. *)
Definition getPermissionMask (ct : Z) : Z * Z := (ct / 8, Z.shiftl 1 (ct mod 8)).

Definition CheckPermissionGrantedForContract (permissions : string) (ct : Z) : bool :=
  let '(byteIndex, bitMask) := getPermissionMask (wrap_u32 ct) in
  match String.get (Z.to_nat byteIndex) permissions with
  | None => false
  | Some c => negb (Z.land (ascii_Z c) bitMask =? 0)
  end.

Definition CheckPermissionGrantedForContracts (permissions : string) (cts : list Z) : bool :=
  if slen permissions =? 0 then false
  else forallb (CheckPermissionGrantedForContract permissions) cts.

(** [(ops & ^permissionUint64) == 0] on [uint64]. *)
Definition CheckPermissionGrantedForUint64 (permissions : string) (ops : Z) : bool :=
  Z.land ops (Z.lxor (BytesToUint64LE permissions) MaxUint64) =? 0.

(** ** The permissions of an account *)

Inductive PermissionType : Type := Permission_Owner | Permission_User.

Record Key : Type := { key_Address : string; key_Weight : Z }.

Record Permission : Type := {
  perm_ID : Z;
  perm_Type : PermissionType;
  perm_Name : string;
  perm_Threshold : Z;
  perm_Operations : string;
  perm_Signers : list Key;
}.

#[global] Instance Key_eq_dec : EqDecision Key.
Proof. solve_decision. Defined.
#[global] Instance PermissionType_eq_dec : EqDecision PermissionType.
Proof. solve_decision. Defined.
#[global] Instance Permission_eq_dec : EqDecision Permission.
Proof. solve_decision. Defined.

Definition is_owner_type (t : PermissionType) : bool :=
  match t with Permission_Owner => true | Permission_User => false end.

(** The methods on a possibly nil [*Permission]. *)
Definition Permission_GrantedForContracts (x : option Permission) (cts : list Z) : bool :=
  match x with
  | None => false
  | Some p => if is_owner_type (perm_Type p) then true
              else CheckPermissionGrantedForContracts (perm_Operations p) cts
  end.

Definition Permission_GrantedForUint64 (x : option Permission) (ops : Z) : bool :=
  match x with
  | None => false
  | Some p => if is_owner_type (perm_Type p) then true
              else CheckPermissionGrantedForUint64 (perm_Operations p) ops
  end.

(** [userAccount.GetPermission]: an account that never set permissions answers
    id 0 with an implicit owner permission of weight one. *)
Definition GetPermission (address : string) (perms : list Permission) (id : Z)
  : res error (Permission * bool) :=
  match perms with
  | [] =>
      if id =? 0 then
        Ok ({| perm_ID := 0; perm_Type := Permission_Owner; perm_Name := EmptyString;
               perm_Threshold := 1; perm_Operations := EmptyString;
               perm_Signers := [{| key_Address := address; key_Weight := 1 |}] |}, false)
      else Err ErrInvalidPermissionID
  | _ =>
      match list_find (fun p => perm_ID p = id) perms with
      | Some (_, p) => Ok (p, true)
      | None => Err ErrInvalidPermissionID
      end
  end.

(** ** Bits of little-endian byte strings *)

Lemma testbit_add_256 a b k :
  0 <= a < 256 -> 0 <= k ->
  Z.testbit (a + 256 * b) k = if k <? 8 then Z.testbit a k else Z.testbit b (k - 8).
Proof.
  intros Ha Hk. destruct (Z.ltb_spec k 8).
  - rewrite <- (Z.mod_pow2_bits_low (a + 256 * b) 8 k) by lia.
    change (2 ^ 8) with 256. rewrite Z.mul_comm, Z.mod_add by lia.
    by rewrite Z.mod_small.
  - replace k with ((k - 8) + 8) at 1 by lia.
    rewrite <- Z.div_pow2_bits by lia. change (2 ^ 8) with 256.
    rewrite Z.mul_comm, Z.div_add by lia. by rewrite Z.div_small by lia.
Qed.

Lemma testbit_le_value n s i j :
  (i < n)%nat -> 0 <= j < 8 ->
  Z.testbit (le_value n s) (8 * Z.of_nat i + j) =
  match String.get i s with Some c => Z.testbit (ascii_Z c) j | None => false end.
Proof.
  revert n s. induction i as [|i IH]; intros [|n] s Hi Hj; try lia; destruct s as [|c s];
    try (cbn; by rewrite Z.testbit_0_l).
  - cbn [le_value String.get]. rewrite testbit_add_256 by (try apply ascii_Z_range; lia).
    destruct (Z.ltb_spec (8 * Z.of_nat 0 + j) 8); [|lia]. done.
  - cbn [le_value String.get]. rewrite testbit_add_256 by (try apply ascii_Z_range; lia).
    destruct (Z.ltb_spec (8 * Z.of_nat (S i) + j) 8); [lia|].
    rewrite <- (IH n s) by lia. f_equal. lia.
Qed.

Lemma land_bit_nonzero x k : 0 <= k -> negb (Z.land x (Z.shiftl 1 k) =? 0) = Z.testbit x k.
Proof.
  intros Hk. rewrite Z.shiftl_1_l.
  destruct (Z.testbit x k) eqn:E.
  - apply negb_true_iff, Z.eqb_neq. intros H.
    assert (Z.testbit (Z.land x (2 ^ k)) k = true) as Hb.
    { rewrite Z.land_spec, E, Z.pow2_bits_true by lia. done. }
    rewrite H, Z.testbit_0_l in Hb. done.
  - apply negb_false_iff, Z.eqb_eq. apply Z.bits_inj'. intros m Hm.
    rewrite Z.land_spec, Z.testbit_0_l, Z.pow2_bits_eqb by lia.
    destruct (Z.eqb_spec k m); [subst; by rewrite E|apply andb_false_r].
Qed.

(** The byte-wise test reads one bit of the little-endian value. *)
Lemma granted_testbit p ct :
  0 <= ct < 64 -> CheckPermissionGrantedForContract p ct = Z.testbit (BytesToUint64LE p) ct.
Proof.
  intros Hct. unfold CheckPermissionGrantedForContract, getPermissionMask, BytesToUint64LE.
  rewrite wrap_u32_id by ilia.
  pose proof (Z.div_mod ct 8 ltac:(lia)) as E.
  pose proof (Z.mod_pos_bound ct 8 ltac:(lia)) as Hm.
  assert (0 <= ct / 8 < 8) by (split; [apply Z.div_pos|apply Z.div_lt_upper_bound]; lia).
  replace (Z.testbit (le_value 8 p) ct)
    with (Z.testbit (le_value 8 p) (8 * Z.of_nat (Z.to_nat (ct / 8)) + ct mod 8))
    by (f_equal; lia).
  rewrite testbit_le_value by lia. destruct (String.get _ p) as [c|]; [|done].
  apply land_bit_nonzero. lia.
Qed.

Lemma contract_bit_testbit ct k :
  0 <= k -> Z.testbit (contract_bit ct) k = bool_decide (k = ct /\ 0 <= ct < 64).
Proof.
  intros Hk. unfold contract_bit.
  destruct (Z.leb_spec 0 ct), (Z.ltb_spec ct 64); cbn -[Z.testbit Z.shiftl];
    try (rewrite Z.testbit_0_l; symmetry; apply bool_decide_eq_false_2; lia).
  rewrite Z.shiftl_1_l, Z.pow2_bits_eqb by lia.
  destruct (Z.eqb_spec ct k); symmetry;
    [apply bool_decide_eq_true_2|apply bool_decide_eq_false_2]; lia.
Qed.

Lemma permission_value_testbit_from v cts k :
  0 <= k ->
  Z.testbit (foldl (fun v ct => Z.lor v (contract_bit ct)) v cts) k =
  Z.testbit v k || bool_decide (k ∈ cts /\ k < 64).
Proof.
  intros Hk. revert v. induction cts as [|c cts IH]; intros v; cbn.
  - rewrite (bool_decide_eq_false_2 (k ∈ [] ∧ _)); [by rewrite orb_false_r|].
    intros [H _]. by apply not_elem_of_nil in H.
  - rewrite IH, Z.lor_spec, contract_bit_testbit, <- orb_assoc by done. f_equal.
    rewrite <- bool_decide_or. apply bool_decide_ext. rewrite elem_of_cons.
    split; [intros [[-> ?]|[? ?]]|intros [[->|?] ?]];
      [split; [by left|lia] | split; [by right|done] | left; lia | by right].
Qed.

Lemma permission_value_testbit cts k :
  0 <= k -> Z.testbit (permission_value cts) k = bool_decide (k ∈ cts /\ k < 64).
Proof.
  intros Hk. unfold permission_value. rewrite permission_value_testbit_from by done.
  by rewrite Z.testbit_0_l.
Qed.

Lemma permission_value_u64 cts : is_u64 (permission_value cts).
Proof.
  assert (forall v, 0 <= v -> 0 <= foldl (fun v ct => Z.lor v (contract_bit ct)) v cts) as Hnn.
  { induction cts as [|c cts IH]; cbn; intros v Hv; [done|]. apply IH, Z.lor_nonneg.
    split; [done|]. unfold contract_bit. destruct (_ && _); [|lia].
    rewrite Z.shiftl_nonneg. lia. }
  specialize (Hnn 0 ltac:(lia)). fold (permission_value cts) in Hnn. split; [done|].
  assert (permission_value cts < 2 ^ 64); [|ilia].
  apply Z.log2_lt_cancel. rewrite Z.log2_pow2 by lia.
  destruct (Z.ltb_spec (Z.log2 (permission_value cts)) 64); [done|].
  destruct (Z.eq_dec (permission_value cts) 0) as [E|Hne]; [rewrite E in *; cbn in *; lia|].
  pose proof (Z.bit_log2 (permission_value cts) ltac:(lia)) as Hb.
  rewrite permission_value_testbit in Hb by lia. apply bool_decide_eq_true in Hb. lia.
Qed.

Lemma encode_nonempty cts : cts <> [] -> EncodeContractPermissions cts <> EmptyString.
Proof.
  unfold EncodeContractPermissions, Uint64ToBytesLETruncate. destruct cts; [done|].
  intros _. pose proof (permission_value_u64 (z :: cts)).
  destruct (Z.eqb_spec (permission_value (z :: cts)) 0); [discriminate|].
  cbn [le_bytes]. destruct (Z.ltb_spec 0 (permission_value (z :: cts))); [discriminate|ilia].
Qed.

Lemma granted_uint64_bits p ops :
  is_u64 ops ->
  CheckPermissionGrantedForUint64 p ops = true <->
  (forall k, 0 <= k < 64 -> Z.testbit ops k = true -> Z.testbit (BytesToUint64LE p) k = true).
Proof.
  intros Hops. unfold CheckPermissionGrantedForUint64. rewrite Z.eqb_eq. split.
  - intros H k Hk Hb. apply (f_equal (fun z => Z.testbit z k)) in H.
    change MaxUint64 with (Z.ones 64) in H.
    rewrite Z.land_spec, Z.lxor_spec, Z.testbit_0_l, Hb, Z.ones_spec_low in H by lia.
    destruct (Z.testbit (BytesToUint64LE p) k) eqn:E; [done|]. discriminate H.
  - intros H. apply Z.bits_inj'. intros k Hk. rewrite Z.land_spec, Z.testbit_0_l.
    destruct (Z.testbit ops k) eqn:E; [|done].
    assert (k < 64) as Hlt.
    { destruct (Z.ltb_spec k 64); [done|]. rewrite Z.bits_above_log2 in E; [done|ilia|].
      destruct (Z.eq_dec ops 0) as [->|]; [cbn; lia|].
      apply Z.log2_lt_pow2; [ilia|]. apply Z.lt_le_trans with (2 ^ 64); [ilia|].
      apply Z.pow_le_mono_r; lia. }
    change MaxUint64 with (Z.ones 64). rewrite Z.lxor_spec, Z.ones_spec_low, H by (done || lia).
    done.
Qed.

(** ** Properties *)

(** For contract types below 64, the byte string produced by
    [EncodeContractPermissions] grants exactly the encoded types, through the
    byte-wise check and through the 64-bit mask check alike. *)
Theorem encoded_permissions_grant_exactly (cts : list Z) (ct : Z) :
  cts <> [] -> 0 <= ct < 64 ->
  (CheckPermissionGrantedForContracts (EncodeContractPermissions cts) [ct] = true <-> ct ∈ cts) /\
  (CheckPermissionGrantedForUint64 (EncodeContractPermissions cts) (contract_bit ct) = true
   <-> ct ∈ cts).
Proof.
  intros Hne Hct.
  assert (BytesToUint64LE (EncodeContractPermissions cts) = permission_value cts) as HB.
  { unfold EncodeContractPermissions. destruct cts; [done|].
    apply BytesToUint64LE_truncate, permission_value_u64. }
  pose proof (encode_nonempty cts Hne) as Hnil.
  split.
  - unfold CheckPermissionGrantedForContracts, slen.
    destruct (EncodeContractPermissions cts) eqn:E; [done|].
    destruct (Z.eqb_spec (Z.of_nat (String.length (String a s))) 0) as [H0|]; [cbn in H0; lia|].
    cbn [forallb]. rewrite andb_true_r, granted_testbit, HB, permission_value_testbit, bool_decide_eq_true by lia.
    split; [by intros [? _]|intros ?; split; [done|lia]].
  - rewrite granted_uint64_bits.
    2:{ unfold contract_bit. destruct (Z.leb_spec 0 ct), (Z.ltb_spec ct 64); try lia. cbn.
        rewrite Z.shiftl_1_l. split; [apply Z.pow_nonneg; lia|].
        assert (2 ^ ct < 2 ^ 64) by (apply Z.pow_lt_mono_r; lia). ilia. }
    rewrite HB. split.
    + intros H. specialize (H ct Hct). rewrite contract_bit_testbit in H by lia.
      rewrite permission_value_testbit, !bool_decide_eq_true in H by lia. apply H. lia.
    + intros H k Hk. rewrite contract_bit_testbit, permission_value_testbit by lia.
      rewrite !bool_decide_eq_true. intros [-> _]. split; [done|lia].
Qed.

Lemma encoded_permissions_grant_exactly_witness :
  CheckPermissionGrantedForContracts (EncodeContractPermissions [0; 9; 33]) [9] = true.
Proof.
  apply (encoded_permissions_grant_exactly [0; 9; 33] 9); [discriminate|lia|].
  apply list_elem_of_In. cbn. tauto.
Defined.

(** On any permission bytes, granting a list of contract types below 64
    through the per-contract check is the same as granting their mask through
    the 64-bit check: the two code paths of the account never disagree. *)
Theorem permission_checks_agree (p : Permission) (cts : list Z) :
  perm_Operations p <> EmptyString -> Forall (fun ct => 0 <= ct < 64) cts ->
  Permission_GrantedForContracts (Some p) cts =
  Permission_GrantedForUint64 (Some p) (permission_value cts).
Proof.
  intros Hne Hall. cbn. destruct (is_owner_type (perm_Type p)); [done|].
  apply eq_bool_prop_intro. rewrite !Is_true_true, granted_uint64_bits
    by apply permission_value_u64.
  unfold CheckPermissionGrantedForContracts, slen.
  destruct (perm_Operations p) as [|c s] eqn:E; [done|].
  destruct (Z.eqb_spec (Z.of_nat (String.length (String c s))) 0) as [H0|]; [cbn in H0; lia|].
  rewrite forallb_forall. split.
  - intros H k Hk. rewrite permission_value_testbit, bool_decide_eq_true by lia.
    intros [Hin _]. rewrite <- granted_testbit by lia. apply H, list_elem_of_In, Hin.
  - intros H ct Hin%list_elem_of_In. rewrite Forall_forall in Hall.
    rewrite granted_testbit by auto. apply H; [by auto|].
    rewrite permission_value_testbit, bool_decide_eq_true by (apply Hall; done).
    split; [done|]. apply Hall. done.
Qed.

Lemma permission_checks_agree_witness :
  let p := {| perm_ID := 1; perm_Type := Permission_User; perm_Name := "ops";
              perm_Threshold := 1; perm_Operations := EncodeContractPermissions [1; 4];
              perm_Signers := [] |} in
  Permission_GrantedForContracts (Some p) [4; 1] =
  Permission_GrantedForUint64 (Some p) (permission_value [4; 1]).
Proof.
  intros p. apply (permission_checks_agree p [4; 1]).
  - discriminate.
  - repeat constructor; lia.
Defined.
