(* ===== verification/KdaUtils.v ===== *)
(** * Asset identifiers and storage keys

    [core/process/kda/kdautils/utils.go] and the key prefixes of
    [kapps/consts.go]: the validity rules of tickers, names and supplies, and
    the keys under which the applications store assets, proposals, offerings
    and market orders. *)

From S2P Require Import Prelude Common Strconv Tools.
From Stdlib Require Import Ascii String.
Local Open Scope Z_scope.

Definition KLVIdentifier : string := "KLV".
Definition KFIIdentifier : string := "KFI".

Definition Sp : string := "/".
Definition sep : ascii := "/"%char.
Definition KDAPrefix : string := "KDA".
Definition ProposalPrefix : string := "PROP".
Definition ProposalVotesPrefix : string := "PROPVOTES".
Definition ITOPrefix : string := "ITO".
Definition ITOWhitelistPrefix : string := "ITOWL".
Definition MarketOrderPrefix : string := "MKT".
Definition MarketplacePrefix : string := "MKTPLACE".

Definition MinLengthForAssetTicker : Z := 3.
Definition MaxLengthForAssetTicker : Z := 10.
Definition MinLengthForAssetName : Z := 1.
Definition MaxLengthForAssetName : Z := 32.
Definition TickerSeparatorByte : ascii := "-"%char.
Definition TickerRandomSequenceLength : Z := 4.

(** ** Validity rules *)

Definition in_range (lo hi : ascii) (c : ascii) : bool :=
  (ascii_Z lo <=? ascii_Z c) && (ascii_Z c <=? ascii_Z hi).
Definition isBigCharacter (c : ascii) : bool := in_range "A" "Z" c.
Definition isSmallCharacter (c : ascii) : bool := in_range "a" "z" c.
Definition isNumber (c : ascii) : bool := in_range "0" "9" c.

Fixpoint string_forallb (f : ascii -> bool) (s : string) : bool :=
  match s with
  | EmptyString => true
  | String c s' => f c && string_forallb f s'
  end.

Definition IsTickerValid (t : string) : bool :=
  if (slen t <? MinLengthForAssetTicker) || (MaxLengthForAssetTicker <? slen t)
     || str_eqb t KLVIdentifier || str_eqb t KFIIdentifier
  then false
  else string_forallb (fun c => isBigCharacter c || isNumber c) t.

Definition IsAssetNameHumanReadableOld (n : string) : bool :=
  if (slen n <? MinLengthForAssetName) || (MaxLengthForAssetName <? slen n) then false
  else string_forallb (fun c => isSmallCharacter c || isBigCharacter c || isNumber c
                                || bool_decide (c = " "%char)) n.

Definition IsAssetNameHumanReadable (n : string) : bool :=
  if (slen n <? MinLengthForAssetName) || (MaxLengthForAssetName <? slen n) then false
  else string_forallb (fun c => isSmallCharacter c || isBigCharacter c || isNumber c) n.

Definition IsSupplyValid (mintable : bool) (initSupply circSupply maxSupply : Z) : bool :=
  if (initSupply <? 0) || (circSupply <? 0) || (maxSupply <? 0) then false
  else if negb mintable then (initSupply =? circSupply) && (initSupply =? maxSupply)
  else (initSupply =? circSupply) && ((maxSupply =? 0) || (initSupply <=? maxSupply)).

Definition IsNFTContractValid (initSupply precision : Z) : bool :=
  if negb (initSupply =? 0) then false
  else if negb (precision =? 0) then false
  else true.

(** ** Identifiers derived from a hash

    [hash] is the configured [hashing.Hasher]. *)

(** [binary.BigEndian.PutUint64]. *)
Fixpoint be_aux (n : nat) (u : Z) (acc : string) : string :=
  match n with
  | O => acc
  | S n' => be_aux n' (Z.shiftr u 8) (String (byte_of u) acc)
  end.
Definition be_bytes (n : Z) : string := be_aux 8 (wrap_u64 n) EmptyString.

Definition ToBucketID (hash : string -> string) (randSeed sender assetID : string)
    (nonce contractIndex amount : Z) : string :=
  hash (randSeed +:+ sender +:+ assetID
        +:+ EncodeToString (be_bytes nonce)
        +:+ EncodeToString (be_bytes contractIndex)
        +:+ EncodeToString (be_bytes (SafeI64ToU64 amount))).

Definition ToMarketID (hash : string -> string) (randSeed sender : string)
    (nonce contractIndex : Z) (marketKeyLength : nat) : string :=
  String.substring 0 marketKeyLength
    (hash (randSeed +:+ sender +:+ EncodeToString (be_bytes nonce)
           +:+ EncodeToString (be_bytes contractIndex))).

(** ** Storage keys *)

(** The nonce of a collection item; the empty nonce and "0" name the asset itself. *)
Definition has_nonce (nonce : string) : bool :=
  (0 <? slen nonce) && negb (str_eqb nonce "0").

Definition ToKDAKeyWithouPrefix (kdaID nonce : string) : string :=
  if has_nonce nonce then kdaID +:+ Sp +:+ nonce else kdaID.

Definition ToKDAKey (kdaID nonce : string) : string :=
  let key := KDAPrefix +:+ Sp +:+ kdaID in
  if has_nonce nonce then key +:+ Sp +:+ nonce else key.

Definition ToProposalKey (proposalID : Z) : string :=
  ProposalPrefix +:+ Sp +:+ FormatUint proposalID.
Definition ToAccountProposalVotesKey (hexAddress : string) : string :=
  ProposalVotesPrefix +:+ Sp +:+ hexAddress.
Definition ProposalControllerKey : string := ToProposalKey 0.
Definition ProposalPreForkVotesKey : string := "PROPPREFORK".
Definition ToITOKey (kdaID : string) : string := ITOPrefix +:+ Sp +:+ kdaID.
Definition ToITOWhitelistKey (kdaID hexAddress : string) : string :=
  ITOWhitelistPrefix +:+ Sp +:+ kdaID +:+ Sp +:+ hexAddress.
Definition ToMarketOrderKey (orderID : string) : string := MarketOrderPrefix +:+ Sp +:+ orderID.
Definition ToMarketplaceKey (marketplaceID : string) : string :=
  MarketplacePrefix +:+ Sp +:+ marketplaceID.

(** ** Parsing a key back *)

Inductive KDAType : Type := Fungible | NonFungible.

(** [b36] says whether a string decodes as base 36 (package go-base36). *)
Definition ExtractAssetIDAndNonce (b36 : string -> bool) (key : string)
  : res error (string * Z * KDAType) :=
  if slen key =? 0 then Ok (KLVIdentifier, 0, Fungible)
  else if str_eqb key KLVIdentifier || str_eqb key KFIIdentifier then Ok (key, 0, Fungible)
  else
    let keySplit := split_at sep key in
    let head := default EmptyString (keySplit !! 0%nat) in
    '(nonce, tokenType) ←
      match keySplit !! 1%nat with
      | Some part => n ← ParseUint part; Ok (n, NonFungible)
      | None => Ok (0, Fungible)
      end;
    match split_at TickerSeparatorByte head with
    | [ticker; rand] =>
        if (slen ticker <? MinLengthForAssetTicker) || (MaxLengthForAssetTicker <? slen ticker)
        then Err ErrInvalidTickerLength
        else if negb (slen rand =? TickerRandomSequenceLength) then Err ErrInvalidTickerRandom
        else if negb (b36 rand) then Err ErrInvalidTickerEncoding
        else Ok (head, nonce, tokenType)
    | _ => Err ErrInvalidTicker
    end.

(** ** Lemmas *)

Lemma in_range_not_sep lo hi c x :
  (ascii_Z x < ascii_Z lo) \/ (ascii_Z hi < ascii_Z x) ->
  in_range lo hi c = true -> c <> x.
Proof. unfold in_range. intros H Hc ->. lia. Qed.

(** A valid ticker contains neither the key separator nor the ticker separator. *)
Lemma ticker_chars_no_sep t :
  string_forallb (fun c => isBigCharacter c || isNumber c) t = true ->
  occurs sep t = false /\ occurs TickerSeparatorByte t = false.
Proof.
  induction t as [|c t IH]; cbn; [done|].
  intros [Hc Ht]%andb_true_iff. destruct (IH Ht) as [-> ->].
  rewrite !orb_false_r. apply orb_true_iff in Hc.
  assert (c <> sep /\ c <> TickerSeparatorByte) as [H1 H2].
  { unfold isBigCharacter, isNumber in Hc. destruct Hc as [Hc|Hc];
      split; (eapply in_range_not_sep; [|exact Hc]; vm_compute; auto). }
  split; by apply bool_decide_eq_false_2.
Qed.

(** Decimal text contains no separator. *)
Lemma dec_no_sep n : 0 <= n -> occurs sep (FormatUint n) = false.
Proof. by apply FormatUint_no_char. Qed.

Lemma has_nonce_spec n : has_nonce n = false <-> n = EmptyString \/ n = "0".
Proof.
  unfold has_nonce, slen, str_eqb. destruct n as [|c s]; cbn.
  - split; auto.
  - destruct (Z.ltb_spec 0 (Z.of_nat (S (String.length s)))); [|lia]. cbn.
    rewrite negb_false_iff, bool_decide_eq_true. split; [by right|intros [?|?]; done].
Qed.

Lemma not_sep_split a b b' :
  occurs sep a = false -> occurs sep b = false -> a = b +:+ String sep b' -> False.
Proof.
  intros Ha Hb ->. rewrite occurs_app in Ha. cbn in Ha.
  rewrite bool_decide_eq_true_2 in Ha by done. rewrite orb_true_r in Ha. done.
Qed.

(** The key of an asset, without the constant prefix, determines the asset and
    the collection nonce. *)
Lemma kda_suffix_inj a b n m :
  occurs sep a = false -> occurs sep b = false ->
  ToKDAKeyWithouPrefix a n = ToKDAKeyWithouPrefix b m ->
  a = b /\ (has_nonce n = has_nonce m) /\ (has_nonce n = true -> n = m).
Proof.
  intros Ha Hb. unfold ToKDAKeyWithouPrefix, Sp.
  destruct (has_nonce n) eqn:En, (has_nonce m) eqn:Em; intros E.
  - destruct (sep_app_inj sep a n b m Ha Hb E) as [-> ->]. auto.
  - exfalso. exact (not_sep_split b a n Hb Ha (eq_sym E)).
  - exfalso. exact (not_sep_split a b m Ha Hb E).
  - done.
Qed.

Lemma ToKDAKey_prefix a n : ToKDAKey a n = KDAPrefix +:+ Sp +:+ ToKDAKeyWithouPrefix a n.
Proof.
  unfold ToKDAKey, ToKDAKeyWithouPrefix. destruct (has_nonce n); [|done].
  by rewrite <- !string_app_assoc.
Qed.

(** ** Properties *)

(** Two storage keys of the KDA application coincide only for the same
    asset and the same collection item, for asset identifiers without a key
    separator (every ticker-random identifier is one): distinct assets and
    distinct NFTs never share a trie slot. *)
Theorem kda_key_injective (a b n m : string) :
  occurs sep a = false -> occurs sep b = false ->
  ToKDAKey a n = ToKDAKey b m <->
  (a = b /\ has_nonce n = has_nonce m /\ (has_nonce n = true -> n = m)).
Proof.
  intros Ha Hb. rewrite !ToKDAKey_prefix. split.
  - intros E%string_app_inj_l%string_app_inj_l. by apply kda_suffix_inj.
  - intros (-> & E & H). unfold ToKDAKeyWithouPrefix. rewrite <- E.
    destruct (has_nonce n); [by rewrite H|done].
Qed.

Lemma kda_key_injective_witness : ToKDAKey "DVK-34ZH" "7" <> ToKDAKey "DVK-34ZH" "8".
Proof.
  intros E. apply (kda_key_injective "DVK-34ZH" "DVK-34ZH" "7" "8") in E;
    [|reflexivity|reflexivity].
  destruct E as (_ & _ & E). discriminate (E eq_refl).
Defined.

(** The identifier printed for item [n] of a collection, ticker-random/n,
    is parsed back into the same collection and the same nonce, for every valid
    ticker, every random part of the expected length that base 36 accepts and
    every positive [uint64] nonce. *)
Theorem extract_asset_id_roundtrip (b36 : string -> bool) (ticker rand : string) (n : Z) :
  IsTickerValid ticker = true ->
  slen rand = TickerRandomSequenceLength -> b36 rand = true ->
  occurs sep rand = false -> occurs TickerSeparatorByte rand = false ->
  is_u64 n -> 0 < n ->
  ExtractAssetIDAndNonce b36
    (ToKDAKeyWithouPrefix (ticker +:+ String TickerSeparatorByte rand) (FormatUint n)) =
  Ok (ticker +:+ String TickerSeparatorByte rand, n, NonFungible).
Proof.
  intros Ht Hlen H36 Hr1 Hr2 Hn Hpos.
  unfold IsTickerValid in Ht.
  destruct (_ || str_eqb ticker KFIIdentifier) eqn:Hg; [done|].
  apply ticker_chars_no_sep in Ht as [Ht1 Ht2].
  repeat (apply orb_false_iff in Hg; destruct Hg as [Hg ?]).
  set (id := ticker +:+ String TickerSeparatorByte rand).
  assert (occurs sep id = false) as Hid.
  { unfold id. rewrite occurs_app, Ht1. cbn. rewrite Hr1.
    rewrite bool_decide_eq_false_2 by (intros E; discriminate E). done. }
  assert (has_nonce (FormatUint n) = true) as Hnn.
  { destruct (has_nonce (FormatUint n)) eqn:E; [done|].
    apply has_nonce_spec in E. pose proof (ParseUint_FormatUint n Hn) as P.
    destruct E as [E|E]; rewrite E in P; vm_compute in P; [done|]. injection P. lia. }
  unfold ToKDAKeyWithouPrefix. rewrite Hnn.
  set (key := id +:+ Sp +:+ FormatUint n).
  assert (occurs sep key = true) as Hsep.
  { unfold key. rewrite occurs_app, Hid. unfold Sp. rewrite occurs_app. done. }
  unfold ExtractAssetIDAndNonce.
  destruct (Z.eqb_spec (slen key) 0) as [E|_].
  { exfalso. unfold slen in E. destruct key; [discriminate Hsep|cbn in E; lia]. }
  assert (str_eqb key KLVIdentifier || str_eqb key KFIIdentifier = false) as ->.
  { apply orb_false_iff. split; apply bool_decide_eq_false_2; intros E; rewrite E in Hsep;
      discriminate Hsep. }
  assert (split_at sep key = id :: split_at sep (FormatUint n)) as ->.
  { unfold key, Sp. by apply (split_at_app sep id (FormatUint n)). }
  assert (occurs sep (FormatUint n) = false) as Hd.
  { apply dec_no_sep; lia. }
  rewrite (split_at_none sep (FormatUint n)) by done. cbn -[slen split_at ParseUint FormatUint].
  rewrite ParseUint_FormatUint by done. cbn -[slen split_at FormatUint].
  unfold id at 1. rewrite split_at_app, split_at_none by done.
  rewrite Hlen, H36. rewrite Z.eqb_refl. cbn -[slen].
  repeat match goal with H : _ = false |- _ => rewrite H end. done.
Qed.

Lemma extract_asset_id_roundtrip_witness :
  ExtractAssetIDAndNonce (fun _ => true) (ToKDAKeyWithouPrefix "DVK-34ZH" (FormatUint 41)) =
  Ok ("DVK-34ZH", 41, NonFungible).
Proof.
  apply (extract_asset_id_roundtrip (fun _ => true) "DVK" "34ZH" 41); try reflexivity.
  split; vm_compute; discriminate.
Defined.
