(* ===== verification/KdaData.v ===== *)
(** * The asset record

    The messages of [kapps/proto] kept in the tries (assets, staking pools,
    user positions) and the methods of [kapps/kda.go]: ownership, roles,
    transfer restrictions and the transfer royalty. *)

From S2P Require Import Prelude Common GoStd Tools.
From Stdlib Require Import SpecFloat.
Local Open Scope Z_scope.

(** ** Messages *)

Inductive EnumAssetType : Type := KDAData_Fungible | KDAData_NonFungible | KDAData_SemiFungible.

Record PropertiesData : Type := {
  CanFreeze : bool; CanWipe : bool; CanPause : bool; CanMint : bool;
  CanBurn : bool; CanChangeOwner : bool; CanAddRoles : bool; LimitTransfer : bool;
}.

Record AttributesData : Type := {
  IsPaused : bool; IsNFTMintStopped : bool;
  IsRoyaltiesChangeStopped : bool; IsNFTMetadataChangeStopped : bool;
}.

Record RolesData : Type := {
  role_Address : string; HasRoleMint : bool; HasRoleSetITOPrices : bool;
  HasRoleDeposit : bool; HasRoleTransfer : bool;
}.

Record RoyaltyData : Type := { royalty_Amount : Z; royalty_Percentage : Z }.

Record RoyaltySplitData : Type := {
  PercentTransferPercentage : Z; PercentTransferFixed : Z; PercentMarketPercentage : Z;
  PercentMarketFixed : Z; PercentITOPercentage : Z; PercentITOFixed : Z;
}.

Record RoyaltiesData : Type := {
  royalties_Address : string; TransferPercentage : list RoyaltyData; TransferFixed : Z;
  MarketPercentage : Z; MarketFixed : Z; SplitRoyalties : gmap string RoyaltySplitData;
  ITOPercentage : Z; ITOFixed : Z;
}.

Record KDAData : Type := {
  AssetType : EnumAssetType; kda_ID : string; kda_Name : string; Ticker : string;
  OwnerAddress : string; Logo : string; URIs : gmap string string; Precision : Z;
  InitialSupply : Z; CirculatingSupply : Z; MaxSupply : Z; MintedValue : Z; BurnedValue : Z;
  IssueDate : Z; Royalties : RoyaltiesData; Properties : PropertiesData;
  Attributes : AttributesData; Roles : list RolesData; AdminAddress : string;
}.

#[global] Instance EnumAssetType_eq_dec : EqDecision EnumAssetType.
Proof. solve_decision. Defined.
#[global] Instance PropertiesData_eq_dec : EqDecision PropertiesData.
Proof. solve_decision. Defined.
#[global] Instance AttributesData_eq_dec : EqDecision AttributesData.
Proof. solve_decision. Defined.
#[global] Instance RolesData_eq_dec : EqDecision RolesData.
Proof. solve_decision. Defined.
#[global] Instance RoyaltyData_eq_dec : EqDecision RoyaltyData.
Proof. solve_decision. Defined.

(** The assignments to the supply counters of an asset. *)
Definition set_supply (k : KDAData) (circulating minted burned : Z) : KDAData :=
  {| AssetType := AssetType k; kda_ID := kda_ID k; kda_Name := kda_Name k; Ticker := Ticker k;
     OwnerAddress := OwnerAddress k; Logo := Logo k; URIs := URIs k; Precision := Precision k;
     InitialSupply := InitialSupply k; CirculatingSupply := circulating; MaxSupply := MaxSupply k;
     MintedValue := minted; BurnedValue := burned; IssueDate := IssueDate k;
     Royalties := Royalties k; Properties := Properties k; Attributes := Attributes k;
     Roles := Roles k; AdminAddress := AdminAddress k |}.

(** ** Ownership and roles *)

Definition MatchesAddress (expected address : string) : bool :=
  (0 <? slen address) && str_eqb expected address.
Definition IsOwner (k : KDAData) (address : string) : bool :=
  MatchesAddress (OwnerAddress k) address.
Definition IsOwnerOrAdmin (k : KDAData) (address : string) : bool :=
  IsOwner k address || MatchesAddress (AdminAddress k) address.

Definition GetRoleByAddress (k : KDAData) (address : string) : res error RolesData :=
  if IsOwnerOrAdmin k address then
    Ok {| role_Address := address; HasRoleMint := true; HasRoleSetITOPrices := true;
          HasRoleDeposit := true; HasRoleTransfer := true |}
  else
    match list_find (fun r => role_Address r = address) (Roles k) with
    | Some (_, r) => Ok r
    | None => Err ErrRoleNotFound
    end.

Definition CanSenderTransfer (k : KDAData) (sender : string) : bool :=
  if negb (LimitTransfer (Properties k)) then true
  else match GetRoleByAddress k sender with
       | Ok r => HasRoleTransfer r
       | Err _ => false
       end.

Definition IsTransferAllowed (k : KDAData) (sender destination : string) : bool :=
  if CanSenderTransfer k sender then true
  else match GetRoleByAddress k destination with
       | Ok r => HasRoleDeposit r
       | Err _ => false
       end.

(** [IsKAppAddress]: 32 bytes, the fixed prefix and suffix around the
    application number at index 29. *)
Definition kapp_zero : Ascii.ascii := Ascii.ascii_of_nat 0.
Definition kapp_one : Ascii.ascii := Ascii.ascii_of_nat 1.
Definition kapp_ff : Ascii.ascii := Ascii.ascii_of_nat 255.
Definition kapp_address (id : Ascii.ascii) : list Ascii.ascii :=
  replicate 9 kapp_zero ++ [kapp_one] ++ replicate 19 kapp_zero ++ [id] ++ [kapp_ff; kapp_ff].
Definition expectedPattern : list Ascii.ascii := kapp_address kapp_zero.

Definition IsKAppAddress (address : list Ascii.ascii) : bool :=
  if negb (Z.of_nat (length address) =? 32) then false
  else if negb (bool_decide (take 29 address = take 29 expectedPattern)) then false
  else bool_decide (drop 30 address = drop 30 expectedPattern).

(** ** Transfer royalties *)

Section royalties.
(** [oob] is the platform's conversion of an out-of-range float. *)
Context (oob : spec_float -> Z).

(** The tranche loop of [computeNewFlowRoyalty] over the remaining tiers. *)
Fixpoint new_flow_loop (sc : bool) (tiers : list RoyaltyData) (amount royaltySum : Z)
  : res error Z :=
  match tiers with
  | [] => Ok royaltySum
  | r :: rest =>
      if amount <? royalty_Amount r then
        c ← ComputePercentageI64 oob amount (royalty_Percentage r) sc;
        Ok (royaltySum +! c)
      else
        c ← ComputePercentageI64 oob (royalty_Amount r) (royalty_Percentage r) sc;
        let amount' := amount -! royalty_Amount r in
        let royaltySum' := royaltySum +! c in
        match rest with
        | [] =>
            if 0 <? amount' then
              c' ← ComputePercentageI64 oob amount' (royalty_Percentage r) sc;
              Ok (royaltySum' +! c')
            else Ok royaltySum'
        | _ => new_flow_loop sc rest amount' royaltySum'
        end
  end.

Definition computeNewFlowRoyalty (k : KDAData) (amount : Z) (sc : bool) : res error Z :=
  new_flow_loop sc (TransferPercentage (Royalties k)) amount 0.

(** The first tier whose amount is not exceeded, the last one otherwise. *)
Definition chosenRoyalty (tiers : list RoyaltyData) (amount : Z) : option RoyaltyData :=
  match list_find (fun r => amount <= royalty_Amount r) tiers with
  | Some (_, r) => Some r
  | None => last tiers
  end.

Definition computeOldFlowRoyalty (k : KDAData) (amount : Z) (sc : bool) : res error Z :=
  match chosenRoyalty (TransferPercentage (Royalties k)) amount with
  | Some r => ComputePercentageI64 oob amount (royalty_Percentage r) sc
  | None => Err ErrInvalidValue (* unreachable: the caller checked the list is not empty *)
  end.

Definition GetTransferRoyaltyByAmount (k : KDAData) (amount : Z)
    (isKdaFprFork isEnableSmartContractsFork : bool) : res error Z :=
  match TransferPercentage (Royalties k) with
  | [] => Err ErrInvalidValue
  | _ => if negb isKdaFprFork then computeOldFlowRoyalty k amount isEnableSmartContractsFork
         else computeNewFlowRoyalty k amount isEnableSmartContractsFork
  end.

(** *** Lemmas *)

Definition tier_ok (r : RoyaltyData) : Prop :=
  0 <= royalty_Amount r /\ 0 <= royalty_Percentage r <= HundredPercent.

Lemma percentage_total v p :
  0 <= v <= MaxInt64 -> 0 <= p <= HundredPercent ->
  exists c, ComputePercentageI64 oob v p true = Ok c /\ 0 <= c <= v.
Proof.
  intros Hv Hp. assert (0 <= v * p / HundredPercent <= v).
  { unfold HundredPercent in *. split; [apply Z.div_pos; nia|apply Z.div_le_upper_bound; nia]. }
  exists (v * p / HundredPercent). split; [|done].
  unfold ComputePercentageI64. cbn. rewrite bool_decide_eq_true_2; [done|ilia].
Qed.

(** The part of an amount that a percentage, in hundredths of a percent, is. *)
Definition part_of (v p : Z) : Z := v * p / HundredPercent.

Lemma part_of_zero p : part_of 0 p = 0.
Proof. done. Qed.

Lemma part_of_bound v p : 0 <= v -> 0 <= p <= HundredPercent -> 0 <= part_of v p <= v.
Proof.
  intros Hv Hp. unfold part_of, HundredPercent in *.
  split; [apply Z.div_pos; nia|apply Z.div_le_upper_bound; nia].
Qed.

Lemma percentage_value v p c : ComputePercentageI64 oob v p true = Ok c -> c = part_of v p /\ is_i64 c.
Proof. unfold ComputePercentageI64. cbn. case_bool_decide; [|done]. by intros [= <-]. Qed.

Lemma percentage_exact v p :
  0 <= v <= MaxInt64 -> 0 <= p <= HundredPercent -> ComputePercentageI64 oob v p true = Ok (part_of v p).
Proof. intros Hv Hp. destruct (percentage_total v p Hv Hp) as (c & Hc & _). by destruct (percentage_value _ _ _ Hc) as [<- _]. Qed.

(** The royalty of an amount under a list of tiers: each tier takes its
    percentage of the slice of the amount it covers, the last one also of all
    that is above. *)
Fixpoint tiered (tiers : list RoyaltyData) (amount : Z) : Z :=
  match tiers with
  | [] => 0
  | r :: rest =>
      let slice := Z.min amount (royalty_Amount r) in
      part_of slice (royalty_Percentage r)
      + match rest with [] => part_of (amount - slice) (royalty_Percentage r) | _ => tiered rest (amount - slice) end
  end.

Lemma tiered_zero tiers : Forall tier_ok tiers -> tiered tiers 0 = 0.
Proof.
  induction 1 as [|r rest [Ha Hp] _ IH]; [done|]. cbn [tiered]. rewrite Z.min_l, Z.sub_0_r, part_of_zero, IH by lia.
  by destruct rest.
Qed.

Lemma new_flow_loop_exact tiers amount s :
  Forall tier_ok tiers -> 0 <= amount -> 0 <= s -> s + amount <= MaxInt64 ->
  new_flow_loop true tiers amount s = Ok (s + tiered tiers amount) /\ 0 <= tiered tiers amount <= amount.
Proof.
  intros Ht. revert amount s. induction Ht as [|t rest [Ha Hp] Hrest IH]; intros amount s H0 Hs Hm.
  { cbn. split; [f_equal; lia|lia]. }
  cbn [new_flow_loop tiered]. destruct (Z.ltb_spec amount (royalty_Amount t)) as [Hlt|Hge].
  { rewrite Z.min_l, Z.sub_diag, part_of_zero, (tiered_zero rest) by (done || lia).
    rewrite percentage_exact by (done || lia). pose proof (part_of_bound amount _ H0 Hp).
    replace (match rest with [] => 0 | _ :: _ => 0 end) with 0 by (by destruct rest).
    cbn [mbind res_bind]. rewrite wrap_i64_id by ilia. split; [f_equal; lia|lia]. }
  rewrite Z.min_r by lia. rewrite (percentage_exact (royalty_Amount t)) by (done || lia).
  pose proof (part_of_bound (royalty_Amount t) _ Ha Hp) as Hb. set (c := part_of (royalty_Amount t) _) in *.
  cbn [mbind res_bind]. rewrite !wrap_i64_id by ilia. destruct rest as [|t' rest'].
  - destruct (Z.ltb_spec 0 (amount - royalty_Amount t)) as [Hpos|Hz].
    + rewrite percentage_exact by (done || lia).
      pose proof (part_of_bound (amount - royalty_Amount t) _ ltac:(lia) Hp).
      cbn [mbind res_bind]. rewrite wrap_i64_id by ilia. split; [f_equal; lia|lia].
    + assert (amount - royalty_Amount t = 0) as -> by lia. rewrite part_of_zero. split; [f_equal; lia|lia].
  - destruct (IH (amount - royalty_Amount t) (s + c)) as [-> Hr]; [lia..|]. split; [f_equal; lia|lia].
Qed.

Lemma chosenRoyalty_in tiers amount r : chosenRoyalty tiers amount = Some r -> r ∈ tiers.
Proof.
  unfold chosenRoyalty. destruct (list_find _ tiers) as [[i x]|] eqn:E.
  - intros [= <-]. apply list_find_Some in E as (E & _). by eapply list_elem_of_lookup_2.
  - intros Hl. rewrite last_lookup in Hl. by eapply list_elem_of_lookup_2.
Qed.

Lemma chosenRoyalty_total tiers amount : tiers <> [] -> is_Some (chosenRoyalty tiers amount).
Proof.
  intros H. unfold chosenRoyalty. destruct (list_find _ tiers) as [[i x]|]; [by eexists|].
  by apply last_is_Some.
Qed.
End royalties.

(** ** Roles *)

Lemma owner_or_admin_roles k a r :
  IsOwnerOrAdmin k a = true -> GetRoleByAddress k a = Ok r ->
  HasRoleMint r = true /\ HasRoleDeposit r = true /\ HasRoleTransfer r = true.
Proof. intros H. unfold GetRoleByAddress. rewrite H. by intros [= <-]. Qed.

Lemma role_origin k a r :
  GetRoleByAddress k a = Ok r ->
  IsOwnerOrAdmin k a = true \/ (r ∈ Roles k /\ role_Address r = a).
Proof.
  unfold GetRoleByAddress. destruct (IsOwnerOrAdmin k a); [by left|].
  destruct (list_find _ (Roles k)) as [[i x]|] eqn:E; [|done].
  intros [= <-]. right. apply list_find_Some in E as (E & ? & _).
  split; [by eapply list_elem_of_lookup_2|done].
Qed.

(** ** Properties *)

(** Once smart contracts are enabled, the transfer royalty of an asset whose
    tiers are nonnegative amounts with percentages up to 100% is always computed
    (no overflow) and lies between zero and the amount transferred, in the
    tiered flow and in the single-tier flow. *)
Theorem transfer_royalty_bounded (oob : spec_float -> Z) (k : KDAData) (amount : Z) (fpr : bool) :
  TransferPercentage (Royalties k) <> [] ->
  Forall tier_ok (TransferPercentage (Royalties k)) ->
  0 <= amount <= MaxInt64 ->
  exists r, GetTransferRoyaltyByAmount oob k amount fpr true = Ok r /\ 0 <= r <= amount.
Proof.
  intros Hne Ht Ha. unfold GetTransferRoyaltyByAmount.
  destruct (TransferPercentage (Royalties k)) as [|t rest] eqn:E; [done|].
  destruct fpr; cbn [negb].
  - unfold computeNewFlowRoyalty. rewrite E.
    destruct (new_flow_loop_exact oob (t :: rest) amount 0 Ht) as [-> Hr]; [lia..|].
    eexists. split; [done|lia].
  - unfold computeOldFlowRoyalty. rewrite E.
    destruct (chosenRoyalty_total (t :: rest) amount) as [r Hr]; [done|]. rewrite Hr.
    apply chosenRoyalty_in in Hr. rewrite Forall_forall in Ht.
    apply (percentage_total oob amount (royalty_Percentage r)); [lia|by apply Ht].
Qed.

Definition example_royalties : RoyaltiesData :=
  {| royalties_Address := "owner";
     TransferPercentage := [ {| royalty_Amount := 100; royalty_Percentage := 1000 |};
                             {| royalty_Amount := 500; royalty_Percentage := 250 |} ];
     TransferFixed := 0; MarketPercentage := 0; MarketFixed := 0; SplitRoyalties := ∅;
     ITOPercentage := 0; ITOFixed := 0 |}.

(** A fungible asset with the given identifier and supply counters. *)
Definition example_kda (id : string) (circulating max minted : Z) : KDAData :=
  {| AssetType := KDAData_Fungible; kda_ID := id; kda_Name := "Asset"; Ticker := "AST";
     OwnerAddress := "owner"; Logo := ""; URIs := ∅; Precision := 6; InitialSupply := 0;
     CirculatingSupply := circulating; MaxSupply := max; MintedValue := minted; BurnedValue := 0;
     IssueDate := 1; Royalties := example_royalties;
     Properties := {| CanFreeze := true; CanWipe := true; CanPause := true; CanMint := true;
                      CanBurn := true; CanChangeOwner := true; CanAddRoles := true;
                      LimitTransfer := false |};
     Attributes := {| IsPaused := false; IsNFTMintStopped := false;
                      IsRoyaltiesChangeStopped := false; IsNFTMetadataChangeStopped := false |};
     Roles := []; AdminAddress := "" |}.

Lemma transfer_royalty_bounded_witness :
  exists r, GetTransferRoyaltyByAmount (fun _ => 0) (example_kda "AST-0001" 10 0 10) 1000 true true
            = Ok r /\ 0 <= r <= 1000.
Proof.
  apply (transfer_royalty_bounded (fun _ => 0) (example_kda "AST-0001" 10 0 10) 1000 true).
  - discriminate.
  - repeat constructor; cbn; unfold HundredPercent; lia.
  - ilia.
Defined.
