(* ===== verification/DataTrie.v ===== *)
(** * The tracked data trie of an account

    [data/state/trackableDataTrie.go]: writes go to a map of dirty values and
    reach the trie only when the account is saved.  Every stored value carries
    its key and the owner's identifier as a tail, which reads strip again. *)

From S2P Require Import Prelude Common Strconv.
From Stdlib Require Import String.
Local Open Scope Z_scope.

Section datatrie.
Context `{TO : TrieOps}.

(** 786 KB, [1<<18 + 1<<19]. *)
Definition MaxLeafSize : Z := 786432.

Record TrackableDataTrie : Type := {
  dirtyData : gmap string string;
  tr : option trie;
  identifier : string;
}.

Definition NewTrackableDataTrie (id : string) (t : option trie) : TrackableDataTrie :=
  {| dirtyData := ∅; tr := t; identifier := id |}.

Definition ClearDataCaches (d : TrackableDataTrie) : TrackableDataTrie :=
  {| dirtyData := ∅; tr := tr d; identifier := identifier d |}.

Definition SetDataTrie (d : TrackableDataTrie) (t : trie) : TrackableDataTrie :=
  {| dirtyData := dirtyData d; tr := Some t; identifier := identifier d |}.

Definition trimValue (value : string) (tailLength : Z) : res error string :=
  let dataLength := slen value - tailLength in
  if dataLength <? 0 then Err ErrNegativeValue
  else Ok (String.substring 0 (Z.to_nat dataLength) value).

(** A trim error of a value read from the trie is dropped, one of a dirty
    value is returned. *)
Definition RetrieveValue (d : TrackableDataTrie) (key : string) : res error string :=
  let tailLength := slen key + slen (identifier d) in
  match dirtyData d !! key with
  | Some value => trimValue value tailLength
  | None =>
      match tr d with
      | None => Err ErrNilTrie
      | Some t =>
          value ← trie_get t key;
          Ok (match trimValue value tailLength with Ok v => v | Err _ => EmptyString end)
      end
  end.

Definition SaveKeyValue (d : TrackableDataTrie) (key value : string)
  : res error TrackableDataTrie :=
  if MaxLeafSize <? slen value then Err ErrLeafSizeTooBig
  else
    let tail := if slen value =? 0 then EmptyString else key +:+ identifier d in
    Ok {| dirtyData := <[key := value +:+ tail]> (dirtyData d); tr := tr d;
          identifier := identifier d |}.

(** ** Writing the dirty values into the trie

    The loop of [AccountsDB.saveDataTrie] ([data/state/accountsDB.go]); [order]
    is the order in which Go's [range] visits the dirty map. *)
Fixpoint flush_loop (order : list (string * string)) (t : trie) : res error trie :=
  match order with
  | [] => Ok t
  | (k, v) :: rest =>
      _ ← trie_get t k; (* the old value, kept for the journal *)
      t' ← trie_update t k v;
      flush_loop rest t'
  end.

(** [empty] is the trie [mainTrie.Recreate] gives for an empty root hash. *)
Definition saveDataTrie (empty : trie) (order : list (string * string)) (d : TrackableDataTrie)
  : res error TrackableDataTrie :=
  match map_to_list (dirtyData d) with
  | [] => Ok d
  | _ =>
      t ← flush_loop order (default empty (tr d));
      Ok (ClearDataCaches (SetDataTrie d t))
  end.

(** ** Lemmas *)

Lemma slen_app a b : slen (a +:+ b) = slen a + slen b.
Proof. unfold slen. rewrite string_length_app. lia. Qed.

Lemma trimValue_app v tail : trimValue (v +:+ tail) (slen tail) = Ok v.
Proof.
  unfold trimValue. rewrite slen_app. destruct (Z.ltb_spec (slen v + slen tail - slen tail) 0).
  { unfold slen in *. lia. }
  f_equal. replace (Z.to_nat _) with (String.length v) by (unfold slen; lia).
  apply string_substring_app.
Qed.

Lemma SaveKeyValue_identifier d d' k v : SaveKeyValue d k v = Ok d' -> identifier d' = identifier d.
Proof. unfold SaveKeyValue. destruct (_ <? _); [done|]. by intros [= <-]. Qed.

Lemma SaveKeyValue_tr d d' k v : SaveKeyValue d k v = Ok d' -> tr d' = tr d.
Proof. unfold SaveKeyValue. destruct (_ <? _); [done|]. by intros [= <-]. Qed.

Lemma SaveKeyValue_dirty d d' k v : SaveKeyValue d k v = Ok d' -> dirtyData d' <> ∅.
Proof.
  unfold SaveKeyValue. destruct (_ <? _); [done|]. intros [= <-]. cbn. apply insert_non_empty.
Qed.

(** Reading back what was written. *)
Lemma retrieve_save_eq d d' k v :
  SaveKeyValue d k v = Ok d' -> v <> EmptyString -> RetrieveValue d' k = Ok v.
Proof.
  unfold SaveKeyValue, RetrieveValue. destruct (_ <? _); [done|].
  intros [= <-] Hv. cbn. rewrite lookup_insert_eq.
  destruct (Z.eqb_spec (slen v) 0) as [E|_].
  { destruct v; [done|]. unfold slen in E. cbn in E. lia. }
  rewrite <- slen_app. apply trimValue_app.
Qed.

(** A key deleted since the last save reads as an error, not as an absence. *)
Lemma retrieve_deleted d d' k :
  SaveKeyValue d k EmptyString = Ok d' -> 0 < slen k + slen (identifier d) ->
  RetrieveValue d' k = Err ErrNegativeValue.
Proof.
  unfold SaveKeyValue, RetrieveValue. cbn. intros [= <-] H. cbn. rewrite lookup_insert_eq.
  unfold trimValue. change (slen ("" +:+ "")) with 0.
  destruct (Z.ltb_spec (0 - (slen k + slen (identifier d))) 0); [done|lia].
Qed.

Lemma retrieve_save_ne d d' k k' v :
  SaveKeyValue d k v = Ok d' -> k <> k' -> RetrieveValue d' k' = RetrieveValue d k'.
Proof.
  unfold SaveKeyValue, RetrieveValue. destruct (_ <? _); [done|].
  intros [= <-] Hne. cbn. by rewrite lookup_insert_ne.
Qed.

(** *** Flushing *)

Context {TL : TrieLaws}.

Lemma flush_loop_get order t t' k :
  NoDup order.*1 -> flush_loop order t = Ok t' ->
  trie_get t' k = match (list_to_map order : gmap string string) !! k with
                  | Some v => Ok v
                  | None => trie_get t k
                  end.
Proof.
  revert t. induction order as [|[k1 v1] order IH]; intros t Hnd; cbn.
  { intros [= <-]. by rewrite lookup_empty. }
  inversion_clear Hnd as [|? ? Hk1 Hnd']. intros Hf. m_ok.
  rename x0 into t1. specialize (IH t1 Hnd' Hf). rewrite IH.
  destruct (decide (k1 = k)) as [->|Hne].
  - rewrite lookup_insert_eq.
    assert ((list_to_map order : gmap string string) !! k = None) as ->.
    { apply not_elem_of_list_to_map. done. }
    eapply trie_get_update_eq. done.
  - rewrite lookup_insert_ne by done.
    destruct (list_to_map order !! k); [done|]. by eapply trie_get_update_ne.
Qed.

(** What an account reads, with the dirty-deletion error seen as absence. *)
Definition content (d : TrackableDataTrie) (k : string) : res error string :=
  match dirtyData d !! k with
  | Some v => Ok (match trimValue v (slen k + slen (identifier d)) with
                  | Ok x => x | Err _ => EmptyString end)
  | None => RetrieveValue d k
  end.

(** ** Properties *)

(** Saving an account moves every dirty value into its trie without
    changing what the account stores under any key, whatever order the dirty
    map is visited in. *)
Theorem flush_preserves_content (empty : trie) (order : list (string * string))
    (d d' : TrackableDataTrie) (k : string) :
  order ≡ₚ map_to_list (dirtyData d) ->
  tr d <> None \/ dirtyData d !! k <> None ->
  saveDataTrie empty order d = Ok d' ->
  content d' k = content d k.
Proof.
  intros Hord Hdef. unfold saveDataTrie.
  destruct (map_to_list (dirtyData d)) eqn:E; [by intros [= <-]|].
  rewrite <- E in Hord. intros H. m_ok. rename x into t.
  unfold content, RetrieveValue. cbn. rewrite lookup_empty.
  assert ((list_to_map order : gmap string string) = dirtyData d) as HM.
  { rewrite <- (list_to_map_to_list (dirtyData d)). apply list_to_map_proper; [|done].
    rewrite Hord. apply NoDup_fst_map_to_list. }
  erewrite (flush_loop_get order); [|rewrite Hord; apply NoDup_fst_map_to_list|eassumption].
  rewrite HM. destruct (dirtyData d !! k) as [v|] eqn:Ed; [done|].
  destruct Hdef as [Htr|]; [|done]. by destruct (tr d).
Qed.
End datatrie.

(** A tracker over the reference trie with one dirty entry. *)
Definition example_tracker : @TrackableDataTrie map_trie :=
  @Build_TrackableDataTrie map_trie (<["KDA/AST" := "7KDA/ASTid"]> ∅) (Some empty_map_trie) "id".

(** The same tracker after the account was saved. *)
Definition example_saved : @TrackableDataTrie map_trie :=
  from_ok example_tracker
    (@saveDataTrie map_trie empty_map_trie [("KDA/AST", "7KDA/ASTid")] example_tracker).

Lemma flush_preserves_content_witness :
  map_to_list (dirtyData example_saved) = [] /\
  @content map_trie example_saved "KDA/AST" = Ok "7".
Proof.
  split; [vm_compute; reflexivity|].
  rewrite (@flush_preserves_content map_trie map_trie_laws empty_map_trie
             [("KDA/AST", "7KDA/ASTid")] example_tracker example_saved "KDA/AST").
  - vm_compute. reflexivity.
  - vm_compute. reflexivity.
  - left. discriminate.
  - apply from_ok_spec. vm_compute. reflexivity.
Defined.
