(* ===== verification/UserAccount.v ===== *)
(** * User accounts: balances per asset

    [data/state/userAccount.go], the part that moves balances: the KLV balance
    is a field of the account, every other asset lives in the account's data
    trie as a serialized [UserKDA]. *)

From S2P Require Import Prelude Common Strconv Tools Permissions KdaUtils DataTrie.
Local Open Scope Z_scope.

(** ** The position of a user in an asset ([kapps/proto/userKapps.proto]) *)

Record LastClaim : Type := { lc_Timestamp : Z; lc_Epoch : Z }.

Record StakeSegment : Type := {
  seg_StakedEpoch : Z; seg_ThroughEpoch : Z; seg_Value : Z;
}.

Record UserBucket : Type := {
  StakedAt : Z; StakedEpoch : Z; UnstakedEpoch : Z; bucket_Value : Z;
  Delegation : slice; History : list StakeSegment;
}.

Record UserKDA : Type := {
  kda_Balance : Z; FrozenBalance : Z; uk_LastClaim : option LastClaim;
  Buckets : option (gmap string UserBucket); MIME : string; Metadata : string;
}.

#[global] Instance LastClaim_eq_dec : EqDecision LastClaim.
Proof. solve_decision. Defined.
#[global] Instance StakeSegment_eq_dec : EqDecision StakeSegment.
Proof. solve_decision. Defined.
#[global] Instance UserBucket_eq_dec : EqDecision UserBucket.
Proof. solve_decision. Defined.
#[global] Instance UserKDA_eq_dec : EqDecision UserKDA.
Proof. solve_decision. Defined.

Definition set_kda_Balance (u : UserKDA) (b : Z) : UserKDA :=
  {| kda_Balance := b; FrozenBalance := FrozenBalance u; uk_LastClaim := uk_LastClaim u;
     Buckets := Buckets u; MIME := MIME u; Metadata := Metadata u |}.
Definition set_Frozen (u : UserKDA) (f : Z) : UserKDA :=
  {| kda_Balance := kda_Balance u; FrozenBalance := f; uk_LastClaim := uk_LastClaim u;
     Buckets := Buckets u; MIME := MIME u; Metadata := Metadata u |}.
Definition set_Buckets (u : UserKDA) (b : gmap string UserBucket) : UserKDA :=
  {| kda_Balance := kda_Balance u; FrozenBalance := FrozenBalance u;
     uk_LastClaim := uk_LastClaim u; Buckets := Some b; MIME := MIME u; Metadata := Metadata u |}.

(** The proto3 normal form of a message read back from its encoding: an empty
    map and an empty byte field are nil. *)
Definition canon_slice (s : slice) : slice :=
  match s with Some EmptyString => None | _ => s end.
Definition canon_bucket (b : UserBucket) : UserBucket :=
  {| StakedAt := StakedAt b; StakedEpoch := StakedEpoch b; UnstakedEpoch := UnstakedEpoch b;
     bucket_Value := bucket_Value b; Delegation := canon_slice (Delegation b);
     History := History b |}.
Definition canon_UserKDA (u : UserKDA) : UserKDA :=
  {| kda_Balance := kda_Balance u; FrozenBalance := FrozenBalance u;
     uk_LastClaim := uk_LastClaim u;
     Buckets := match Buckets u with
                | Some m => if decide (m = ∅) then None else Some (canon_bucket <$> m)
                | None => None
                end;
     MIME := MIME u; Metadata := Metadata u |}.

Definition zeroUserKDA : UserKDA :=
  {| kda_Balance := 0; FrozenBalance := 0; uk_LastClaim := None; Buckets := None;
     MIME := EmptyString; Metadata := EmptyString |}.

(** What the account code relies on from the protobuf serializer of [UserKDA]:
    it reads back the normal form, and only the all-default message has an
    empty encoding. *)
Class UserKDACodec (C : Marshalizer UserKDA) : Prop := {
  ukc_laws :: MarshalizerLaws UserKDA;
  ukc_canon : forall u, canon u = canon_UserKDA u;
  ukc_empty : forall u, Marshal u = Ok EmptyString -> canon_UserKDA u = zeroUserKDA;
}.

Section account.
Context `{TO : TrieOps} `{C : Marshalizer UserKDA}.

(** [userAccount]: the embedded [baseAccount] and [UserAccountData]. *)
Record userAccount : Type := {
  address : string;
  tracker : TrackableDataTrie;
  code : string;
  hasNewCode : bool;
  acc_Name : string;
  RootHash : string;
  Balance : Z;
  Allowance : Z;
  Nonce : Z;
  Permissions : list Permission;
  acc_OwnerAddress : string;
  CodeHash : string;
  CodeMetadata : string;
}.

Definition with_tracker (a : userAccount) (t : TrackableDataTrie) : userAccount :=
  {| address := address a; tracker := t; code := code a; hasNewCode := hasNewCode a;
     acc_Name := acc_Name a; RootHash := RootHash a; Balance := Balance a;
     Allowance := Allowance a; Nonce := Nonce a; Permissions := Permissions a;
     acc_OwnerAddress := acc_OwnerAddress a; CodeHash := CodeHash a;
     CodeMetadata := CodeMetadata a |}.
Definition with_Balance (a : userAccount) (b : Z) : userAccount :=
  {| address := address a; tracker := tracker a; code := code a; hasNewCode := hasNewCode a;
     acc_Name := acc_Name a; RootHash := RootHash a; Balance := b;
     Allowance := Allowance a; Nonce := Nonce a; Permissions := Permissions a;
     acc_OwnerAddress := acc_OwnerAddress a; CodeHash := CodeHash a;
     CodeMetadata := CodeMetadata a |}.
Definition with_Allowance (a : userAccount) (v : Z) : userAccount :=
  {| address := address a; tracker := tracker a; code := code a; hasNewCode := hasNewCode a;
     acc_Name := acc_Name a; RootHash := RootHash a; Balance := Balance a;
     Allowance := v; Nonce := Nonce a; Permissions := Permissions a;
     acc_OwnerAddress := acc_OwnerAddress a; CodeHash := CodeHash a;
     CodeMetadata := CodeMetadata a |}.

Definition NewUserAccountNoCheck (addr : string) : userAccount :=
  {| address := addr; tracker := NewTrackableDataTrie addr None; code := EmptyString;
     hasNewCode := false; acc_Name := EmptyString; RootHash := EmptyString; Balance := 0;
     Allowance := 0; Nonce := 0; Permissions := []; acc_OwnerAddress := EmptyString;
     CodeHash := EmptyString; CodeMetadata := EmptyString |}.

Definition NewUserAccount (addr : string) : res error userAccount :=
  if slen addr =? 0 then Err ErrNilAddress else Ok (NewUserAccountNoCheck addr).

Definition IncreaseNonce (value : Z) (a : userAccount) : userAccount :=
  {| address := address a; tracker := tracker a; code := code a; hasNewCode := hasNewCode a;
     acc_Name := acc_Name a; RootHash := RootHash a; Balance := Balance a;
     Allowance := Allowance a; Nonce := wrap_u64 (Nonce a + value);
     Permissions := Permissions a; acc_OwnerAddress := acc_OwnerAddress a;
     CodeHash := CodeHash a; CodeMetadata := CodeMetadata a |}.

(** An account operation: mutates the account, may fail. *)
Abbreviation AM := (M userAccount error).

Definition is_klv (assetID : slice) : bool :=
  match assetID with None => true | Some a => str_eqb a KLVIdentifier end.

Definition emptyUserKDA : UserKDA :=
  {| kda_Balance := 0; FrozenBalance := 0;
     uk_LastClaim := Some {| lc_Timestamp := 0; lc_Epoch := 0 |}; Buckets := Some ∅;
     MIME := EmptyString; Metadata := EmptyString |}.

(** [GetUserKDA(assetID, nonce, checkDirtData)]. *)
Definition GetUserKDA (a : userAccount) (assetID : slice) (nonce : string) (cdd : bool)
  : res error UserKDA :=
  let noTrie := match tr (tracker a) with None => true | Some _ => false end in
  let noDirty := bool_decide (dirtyData (tracker a) = ∅) in
  if noTrie && (negb cdd || noDirty) then Ok emptyUserKDA
  else
    let key := ToKDAKey (default KLVIdentifier assetID) nonce in
    value ← match RetrieveValue (tracker a) key with
            | Err e => if bool_decide (e = ErrNilTrie) then Ok EmptyString else Err e
            | Ok v => Ok v
            end;
    if slen value =? 0 then Ok emptyUserKDA else Unmarshal value.

Definition SaveKeyValueM (key value : string) : AM unit := fun a =>
  match SaveKeyValue (tracker a) key value with
  | Ok t => (with_tracker a t, Ok tt)
  | Err e => (a, Err e)
  end.

(** [SetUserKDA]: an empty encoding deletes the key. *)
Definition SetUserKDA (assetID : slice) (nonce : string) (u : UserKDA) : AM unit :=
  data ← lift (Marshal u);
  SaveKeyValueM (ToKDAKey (default KLVIdentifier assetID) nonce) data.

Definition AddToAllowance (value : Z) : AM unit :=
  _ ← reject_if (value <? 0) StateErrInvalidValue;
  modify (fun a => with_Allowance a (Allowance a +! value)).

(** The position an operation works on: the caller's object when one is
    passed, the stored one otherwise. *)
Definition user_kda_or_stored (opts : option UserKDA) (assetID : slice) (nonce : string)
    (cdd : bool) : AM UserKDA :=
  match opts with
  | Some u => mret u
  | None => a ← get; lift (GetUserKDA a assetID nonce cdd)
  end.

(** [AddToBalance].  The result is the caller's [UserKDA] object as the call
    leaves it. *)
Definition AddToBalance (value : Z) (assetID : slice) (cdd : bool) (opts : option UserKDA)
  : AM (option UserKDA) :=
  _ ← reject_if (value <? 0) StateErrInvalidValue;
  if is_klv assetID then
    a ← get;
    let newBalance := Balance a +! value in
    _ ← reject_if (newBalance <? 0) ErrAddBalanceOverflow;
    _ ← modify (fun a => with_Balance a newBalance);
    mret opts
  else
    u ← user_kda_or_stored opts assetID EmptyString cdd;
    let newBalance := kda_Balance u +! value in
    _ ← reject_if (newBalance <? 0) ErrAddBalanceOverflow;
    let u' := set_kda_Balance u newBalance in
    _ ← SetUserKDA assetID EmptyString u';
    mret (Some u').

Definition SubFromBalance (value : Z) (assetID : slice) (cdd : bool) (opts : option UserKDA)
  : AM (option UserKDA) :=
  _ ← reject_if (value <? 0) StateErrInvalidValue;
  if is_klv assetID then
    a ← get;
    let newBalance := Balance a -! value in
    _ ← reject_if (newBalance <? 0) ErrInsufficientFunds;
    _ ← modify (fun a => with_Balance a newBalance);
    mret opts
  else
    u ← user_kda_or_stored opts assetID EmptyString cdd;
    let newBalance := kda_Balance u -! value in
    _ ← reject_if (newBalance <? 0) ErrInsufficientFunds;
    let u' := set_kda_Balance u newBalance in
    _ ← SetUserKDA assetID EmptyString u';
    mret (Some u').

(** [strconv.ParseInt(string(nonce), 10, 64)] and the positivity check. *)
Definition check_nonce (nonce : string) : AM unit :=
  n ← lift (ParseInt nonce);
  reject_if (n <=? 0) ErrInvalidNonce.

Definition AddToBalanceWithNonce (value : Z) (assetID : slice) (nonce : string) (cdd : bool)
    (opts : option UserKDA) : AM (option UserKDA) :=
  _ ← reject_if (value <? 0) StateErrInvalidValue;
  if value =? 0 then mret opts
  else
    _ ← check_nonce nonce;
    u ← user_kda_or_stored opts assetID nonce cdd;
    let newBalance := kda_Balance u +! value in
    _ ← reject_if (newBalance <? 0) ErrAddBalanceOverflow;
    let u' := set_kda_Balance u newBalance in
    _ ← SetUserKDA assetID nonce u';
    mret (Some u').

Definition SubFromBalanceWithNonce (value : Z) (assetID : slice) (nonce : string) (cdd : bool)
    (opts : option UserKDA) : AM (option UserKDA) :=
  _ ← reject_if (value <? 0) StateErrInvalidValue;
  _ ← check_nonce nonce;
  u ← user_kda_or_stored opts assetID nonce cdd;
  let newBalance := kda_Balance u -! value in
  _ ← reject_if (newBalance <? 0) ErrAddBalanceOverflow;
  let u' := set_kda_Balance u newBalance in
  _ ← SetUserKDA assetID nonce u';
  mret (Some u').

(** Moving one item of a collection in and out of the account. *)
Definition AddInternalKDA (assetID internalID data : string) : AM unit :=
  _ ← reject_if (slen data =? 0) ErrAssetNotFound;
  SaveKeyValueM (ToKDAKey assetID internalID) data.

Definition SubInternalKDA (assetID internalID : string) : AM string :=
  let key := ToKDAKey assetID internalID in
  a ← get;
  data ← lift (RetrieveValue (tracker a) key);
  _ ← reject_if (slen data =? 0) ErrAssetNotFound;
  _ ← SaveKeyValueM key EmptyString;
  mret data.

Definition GetBalanceWithNonce (a : userAccount) (assetID : slice) (nonce : string) (cdd : bool)
  : Z :=
  match GetUserKDA a assetID nonce cdd with Ok u => kda_Balance u | Err _ => 0 end.

Definition GetBalance (a : userAccount) (assetID : slice) (cdd : bool) : Z :=
  if is_klv assetID then Balance a else GetBalanceWithNonce a assetID EmptyString cdd.

Definition GetFrozenBalance (a : userAccount) (assetID : slice) (cdd : bool) : Z :=
  match GetUserKDA a assetID EmptyString cdd with Ok u => FrozenBalance u | Err _ => 0 end.

Definition GetBuckets (a : userAccount) (assetID : slice) (cdd : bool)
  : option (gmap string UserBucket) :=
  match GetUserKDA a assetID EmptyString cdd with Ok u => Buckets u | Err _ => None end.
End account.

Arguments userAccount {_}.
