(* ===== verification/Codec.v ===== *)
(** * A serializer for the stored messages

    The protobuf runtime is a parameter of the model ([Marshalizer]).  This file
    gives one concrete serializer per stored message, with its round trip, to
    show that what the components assume of the runtime can hold; the concrete
    runs in the witnesses use it. *)

From S2P Require Import Prelude Common Permissions DataTrie UserAccount.
From Stdlib Require Import Ascii.
Local Open Scope Z_scope.

Class Ser (A : Type) : Type := {
  ser : A -> string;
  de : string -> option (A * string);
  de_ser : forall x k, de (ser x +:+ k) = Some (x, k);
}.

#[export] Hint Mode Ser ! : typeclass_instances.

(** ** Basic types *)

Fixpoint ser_pos (p : positive) : string :=
  match p with
  | xI q => String "1" (ser_pos q)
  | xO q => String "0" (ser_pos q)
  | xH => String "." EmptyString
  end.
Fixpoint de_pos (s : string) : option (positive * string) :=
  match s with
  | String "1" r => '(q, k) ← de_pos r; Some (xI q, k)
  | String "0" r => '(q, k) ← de_pos r; Some (xO q, k)
  | String "." r => Some (xH, r)
  | _ => None
  end.
Lemma de_ser_pos p k : de_pos (ser_pos p +:+ k) = Some (p, k).
Proof.
  induction p as [p IH|p IH|]; cbn [ser_pos]; rewrite string_app_cons; cbn;
    [by rewrite IH|by rewrite IH|done].
Qed.
#[export] Instance Ser_pos : Ser positive := {| de_ser := de_ser_pos |}.

Definition ser_Z (z : Z) : string :=
  match z with
  | Z0 => String "z" EmptyString
  | Zpos p => String "+" (ser_pos p)
  | Zneg p => String "-" (ser_pos p)
  end.
Definition de_Z (s : string) : option (Z * string) :=
  match s with
  | String "z" r => Some (0, r)
  | String "+" r => '(p, k) ← de_pos r; Some (Zpos p, k)
  | String "-" r => '(p, k) ← de_pos r; Some (Zneg p, k)
  | _ => None
  end.
Lemma de_ser_Z z k : de_Z (ser_Z z +:+ k) = Some (z, k).
Proof.
  destruct z as [|p|p]; cbn [ser_Z]; rewrite string_app_cons; cbn; [done|..];
    by rewrite de_ser_pos.
Qed.
#[export] Instance Ser_Z : Ser Z := {| de_ser := de_ser_Z |}.

Definition ser_bool (b : bool) : string := String (if b then "t"%char else "f"%char) EmptyString.
Definition de_bool (s : string) : option (bool * string) :=
  match s with
  | String "t" r => Some (true, r)
  | String "f" r => Some (false, r)
  | _ => None
  end.
Lemma de_ser_bool b k : de_bool (ser_bool b +:+ k) = Some (b, k).
Proof. by destruct b. Qed.
#[export] Instance Ser_bool : Ser bool := {| de_ser := de_ser_bool |}.

Fixpoint ser_str (s : string) : string :=
  match s with
  | EmptyString => String "$" EmptyString
  | String c r => String "," (String c (ser_str r))
  end.
Fixpoint de_str (s : string) : option (string * string) :=
  match s with
  | String "$" r => Some (EmptyString, r)
  | String "," (String c r) => '(x, k) ← de_str r; Some (String c x, k)
  | _ => None
  end.
Lemma de_ser_str s k : de_str (ser_str s +:+ k) = Some (s, k).
Proof.
  induction s as [|c s IH]; cbn [ser_str]; rewrite !string_app_cons; cbn;
    [done|by rewrite IH].
Qed.
#[export] Instance Ser_str : Ser string := {| de_ser := de_ser_str |}.

Section combinators.
Context {A B : Type} `{Ser A, Ser B}.

Definition ser_pair (p : A * B) : string := ser p.1 +:+ ser p.2.
Definition de_pair (s : string) : option ((A * B) * string) :=
  '(a, r) ← de s; '(b, k) ← de r; Some ((a, b), k).
Lemma de_ser_pair p k : de_pair (ser_pair p +:+ k) = Some (p, k).
Proof.
  destruct p as [a b]. unfold de_pair, ser_pair. cbn.
  rewrite <- string_app_assoc, de_ser. cbn. by rewrite de_ser.
Qed.

Definition ser_option (o : option A) : string :=
  match o with
  | None => String "n" EmptyString
  | Some a => String "s" (ser a)
  end.
Definition de_option (s : string) : option (option A * string) :=
  match s with
  | String "n" r => Some (None, r)
  | String "s" r => '(a, k) ← de r; Some (Some a, k)
  | _ => None
  end.
Lemma de_ser_option o k : de_option (ser_option o +:+ k) = Some (o, k).
Proof. destruct o as [a|]; [|done]. cbn [ser_option]. rewrite string_app_cons. cbn. by rewrite de_ser. Qed.

Fixpoint ser_list (l : list A) : string :=
  match l with
  | [] => String "$" EmptyString
  | x :: r => String "," (ser x +:+ ser_list r)
  end.
Fixpoint de_list (fuel : nat) (s : string) : option (list A * string) :=
  match fuel with
  | O => None
  | S f =>
      match s with
      | String "$" r => Some ([], r)
      | String "," r => '(x, r') ← de r; '(l, k) ← de_list f r'; Some (x :: l, k)
      | _ => None
      end
  end.

Lemma de_list_ser (l : list A) k f :
  (length l < f)%nat -> de_list f (ser_list l +:+ k) = Some (l, k).
Proof.
  revert f. induction l as [|x l IH]; intros [|f] Hf; cbn in Hf; try lia; cbn [ser_list];
    rewrite string_app_cons; cbn; [done|].
  rewrite <- string_app_assoc, de_ser. cbn. rewrite IH by lia. done.
Qed.

Lemma ser_list_length (l : list A) : (length l < String.length (ser_list l))%nat.
Proof.
  induction l as [|x l IH]; cbn; [lia|]. rewrite string_length_app. lia.
Qed.

(** Every element takes at least one character, so the input length is enough fuel. *)
Definition de_list_all (s : string) : option (list A * string) := de_list (String.length s) s.

Lemma de_ser_list (l : list A) k : de_list_all (ser_list l +:+ k) = Some (l, k).
Proof.
  apply de_list_ser. rewrite string_length_app. pose proof (ser_list_length l). lia.
Qed.
End combinators.

#[export] Instance Ser_pair {A B} `{Ser A, Ser B} : Ser (A * B) := {| de_ser := de_ser_pair |}.
#[export] Instance Ser_option {A} `{Ser A} : Ser (option A) := {| de_ser := de_ser_option |}.
#[export] Instance Ser_list {A} `{Ser A} : Ser (list A) :=
  {| ser := ser_list; de := de_list_all; de_ser := de_ser_list |}.

Definition de_gmap `{Countable K} {A} `{Ser K, Ser A} (s : string) : option (gmap K A * string) :=
  '(l, k) ← de s; Some (list_to_map l, k).
Lemma de_ser_gmap `{Countable K} {A} `{Ser K, Ser A} (m : gmap K A) k :
  de_gmap (ser (map_to_list m) +:+ k) = Some (m, k).
Proof. unfold de_gmap. rewrite de_ser. cbn. by rewrite list_to_map_to_list. Qed.
#[export] Instance Ser_gmap `{Countable K} {A} `{Ser K, Ser A} : Ser (gmap K A) := {| de_ser := de_ser_gmap |}.

(** A record isomorphic to a serializable tuple is serializable. *)
Definition Ser_iso {A B} `{Ser B} (to : A -> B) (from : B -> A)
    (iso : forall x, from (to x) = x) : Ser A.
Proof.
  refine {| ser x := ser (to x); de s := '(b, k) ← de s; Some (from b, k) |}.
  intros x k. rewrite de_ser. cbn. by rewrite iso.
Defined.

(** ** User positions *)

#[export] Instance Ser_LastClaim : Ser LastClaim :=
  Ser_iso (fun l => (lc_Timestamp l, lc_Epoch l))
    (fun p => {| lc_Timestamp := p.1; lc_Epoch := p.2 |}) ltac:(by intros []).

#[export] Instance Ser_StakeSegment : Ser StakeSegment :=
  Ser_iso (fun s => (seg_StakedEpoch s, seg_ThroughEpoch s, seg_Value s))
    (fun p => {| seg_StakedEpoch := p.1.1; seg_ThroughEpoch := p.1.2; seg_Value := p.2 |})
    ltac:(by intros []).

#[export] Instance Ser_UserBucket : Ser UserBucket :=
  Ser_iso (fun b => (StakedAt b, StakedEpoch b, UnstakedEpoch b, bucket_Value b, Delegation b, History b))
    (fun p => {| StakedAt := p.1.1.1.1.1; StakedEpoch := p.1.1.1.1.2; UnstakedEpoch := p.1.1.1.2;
                 bucket_Value := p.1.1.2; Delegation := p.1.2; History := p.2 |})
    ltac:(by intros []).

#[export] Instance Ser_UserKDA : Ser UserKDA :=
  Ser_iso (fun u => (kda_Balance u, FrozenBalance u, uk_LastClaim u, Buckets u, MIME u, Metadata u))
    (fun p => {| kda_Balance := p.1.1.1.1.1; FrozenBalance := p.1.1.1.1.2; uk_LastClaim := p.1.1.1.2;
                 Buckets := p.1.1.2; MIME := p.1.2; Metadata := p.2 |})
    ltac:(by intros []).

Definition codec_unmarshal {A} `{Ser A} (s : string) : res error A :=
  match de s with Some (x, _) => Ok x | None => Err (ErrExternal 1) end.

Definition userkda_marshal (u : UserKDA) : res error string :=
  let c := canon_UserKDA u in
  Ok (if decide (c = zeroUserKDA) then EmptyString else ser c).
Definition userkda_unmarshal (s : string) : res error UserKDA :=
  if decide (s = EmptyString) then Ok zeroUserKDA else codec_unmarshal s.
Definition userkda_codec : Marshalizer UserKDA :=
  {| Marshal := userkda_marshal; Unmarshal := userkda_unmarshal; canon := canon_UserKDA |}.

Lemma canon_UserKDA_idem u : canon_UserKDA (canon_UserKDA u) = canon_UserKDA u.
Proof.
  assert (forall b, canon_bucket (canon_bucket b) = canon_bucket b) as Hb.
  { intros [? ? ? ? d ?]. unfold canon_bucket, canon_slice. cbn. by destruct d as [[]|]. }
  unfold canon_UserKDA. destruct u as [? ? ? [m|] ? ?]; cbn; [|done].
  destruct (decide (m = ∅)) as [|Hm]; cbn; [done|].
  destruct (decide (canon_bucket <$> m = ∅)) as [E|_].
  { by apply fmap_empty_iff in E. }
  do 2 f_equal. rewrite <- map_fmap_compose. apply map_fmap_ext. intros k b _. apply Hb.
Qed.

Lemma ser_pair_nonempty {A B} `{Ser A, Ser B} (p : A * B) :
  ser p.1 <> EmptyString -> ser p <> EmptyString.
Proof.
  cbn. unfold ser_pair. intros Hne E. apply (f_equal String.length) in E.
  rewrite string_length_app in E. destruct (ser p.1); [done|cbn in E; lia].
Qed.

Lemma ser_Z_nonempty (z : Z) : ser z <> EmptyString.
Proof. by destruct z. Qed.

Lemma ser_UserKDA_nonempty (u : UserKDA) : ser u <> EmptyString.
Proof. do 5 apply ser_pair_nonempty. apply ser_Z_nonempty. Qed.

Lemma codec_unmarshal_ser {A} `{Ser A} (x : A) : codec_unmarshal (ser x) = Ok x.
Proof.
  unfold codec_unmarshal. pose proof (de_ser x EmptyString) as P.
  rewrite string_app_nil_r in P. by rewrite P.
Qed.

Lemma userkda_roundtrip u b :
  userkda_marshal u = Ok b -> userkda_unmarshal b = Ok (canon_UserKDA u).
Proof.
  unfold userkda_marshal, userkda_unmarshal. intros Hb. apply Ok_inj in Hb. subst b.
  destruct (decide (canon_UserKDA u = zeroUserKDA)) as [->|Hne]; [done|].
  rewrite decide_False by apply ser_UserKDA_nonempty. apply codec_unmarshal_ser.
Qed.

Lemma userkda_empty u : userkda_marshal u = Ok EmptyString -> canon_UserKDA u = zeroUserKDA.
Proof.
  unfold userkda_marshal. destruct (decide (canon_UserKDA u = zeroUserKDA)) as [E|Hne]; [done|].
  intros E. apply Ok_inj in E. destruct (ser_UserKDA_nonempty _ E).
Qed.

#[export] Instance userkda_codec_laws : UserKDACodec userkda_codec.
Proof.
  split; [split|..].
  - exact userkda_roundtrip.
  - exact canon_UserKDA_idem.
  - reflexivity.
  - exact userkda_empty.
Qed.
