(* ===== verification/Balances.v ===== *)
(** * Balances: what the account operations do to them

    The operations of [UserAccount] read and write an asset position through
    the tracked data trie and the serializer.  Here they are related to the
    balances an observer reads: a credit or a debit changes one balance by
    exactly its value and nothing else, and a refused one changes nothing. *)

From S2P Require Import Prelude Common Strconv Tools Permissions KdaUtils DataTrie UserAccount Codec.
Local Open Scope Z_scope.

Section balances.
Context `{TO : TrieOps} `{C : Marshalizer UserKDA} {CL : UserKDACodec C}.

Implicit Types (a : userAccount) (asset : slice) (u : UserKDA).

(** The account's pending writes are visible to its reads: either the dirty
    data is consulted or the account already has a data trie. *)
Definition readable a (cdd : bool) : Prop := cdd = true \/ tr (tracker a) <> None.

(** A new account: no data trie has been opened and nothing is pending. *)
Definition untouched a : Prop := tr (tracker a) = None /\ dirtyData (tracker a) = ∅.

Abbreviation akey asset nonce := (ToKDAKey (default KLVIdentifier asset) nonce).

Lemma ToKDAKey_nonempty k n : 0 < slen (ToKDAKey k n).
Proof. rewrite ToKDAKey_prefix. unfold slen. rewrite string_length_app. cbn. lia. Qed.

Lemma ToKDAKey_inj_nil k k' : ToKDAKey k EmptyString = ToKDAKey k' EmptyString -> k = k'.
Proof. rewrite !ToKDAKey_prefix. by intros E%string_app_inj_l%string_app_inj_l. Qed.

Lemma slen_zero s : slen s = 0 <-> s = EmptyString.
Proof. unfold slen. destruct s; cbn; split; intros; try done; lia. Qed.

Lemma SaveKeyValueM_ok k v a a' x :
  SaveKeyValueM k v a = (a', Ok x) ->
  exists t, SaveKeyValue (tracker a) k v = Ok t /\ a' = with_tracker a t.
Proof. unfold SaveKeyValueM. destruct (SaveKeyValue _ _ _) eqn:E; intros [= <- <-]. eauto. Qed.

Lemma SetUserKDA_ok asset nonce u a a' x :
  SetUserKDA asset nonce u a = (a', Ok x) ->
  exists data t, Marshal u = Ok data /\
    SaveKeyValue (tracker a) (akey asset nonce) data = Ok t /\ a' = with_tracker a t.
Proof.
  unfold SetUserKDA. intros H. m_ok. apply SaveKeyValueM_ok in H as (t & H & ->). eauto 6.
Qed.

Lemma SetUserKDA_frame asset nonce u a a' x :
  SetUserKDA asset nonce u a = (a', Ok x) ->
  Balance a' = Balance a /\ Allowance a' = Allowance a /\ address a' = address a /\
  tr (tracker a') = tr (tracker a).
Proof.
  intros (data & t & _ & Hs & ->)%SetUserKDA_ok. cbn.
  repeat split. by eapply SaveKeyValue_tr.
Qed.

Lemma GetUserKDA_set asset nonce u a a' x cdd :
  SetUserKDA asset nonce u a = (a', Ok x) -> readable a cdd ->
  GetUserKDA a' asset nonce cdd = Ok (canon_UserKDA u) \/
  (canon_UserKDA u = zeroUserKDA /\ exists e, GetUserKDA a' asset nonce cdd = Err e).
Proof.
  intros (data & t & Hm & Hs & ->)%SetUserKDA_ok Hr. unfold GetUserKDA. cbn.
  pose proof (SaveKeyValue_tr _ _ _ _ Hs) as Htr.
  pose proof (SaveKeyValue_dirty _ _ _ _ Hs) as Hd.
  rewrite Htr, (bool_decide_eq_false_2 (dirtyData t = ∅)) by done.
  assert ((match tr (tracker a) with None => true | Some _ => false end) &&
          (negb cdd || false) = false) as ->.
  { destruct Hr as [->|Hr]; destruct (tr (tracker a)); done. }
  destruct (decide (data = EmptyString)) as [->|Hne].
  - right. split; [by apply ukc_empty|].
    rewrite (retrieve_deleted _ _ _ Hs) by (pose proof (ToKDAKey_nonempty (default KLVIdentifier asset) nonce); unfold slen in *; lia).
    cbn. eauto.
  - left. rewrite (retrieve_save_eq _ _ _ _ Hs Hne). cbn.
    destruct (Z.eqb_spec (slen data) 0) as [E|_]; [by apply slen_zero in E|].
    rewrite (unmarshal_marshal _ _ Hm). by rewrite ukc_canon.
Qed.

Lemma GetBalance_set asset nonce u a a' x cdd :
  SetUserKDA asset nonce u a = (a', Ok x) -> readable a cdd ->
  GetBalanceWithNonce a' asset nonce cdd = kda_Balance u.
Proof.
  intros H Hr. unfold GetBalanceWithNonce.
  destruct (GetUserKDA_set _ _ _ _ _ _ _ H Hr) as [->|[E [e ->]]]; [done|].
  by apply (f_equal kda_Balance) in E.
Qed.

(** A write to one key is invisible under every other key. *)
Lemma GetUserKDA_write_frame a t k v cdd asset' nonce' :
  SaveKeyValue (tracker a) k v = Ok t -> k <> akey asset' nonce' ->
  GetUserKDA (with_tracker a t) asset' nonce' cdd = GetUserKDA a asset' nonce' cdd.
Proof.
  intros Hs Hne. unfold GetUserKDA. cbn.
  rewrite (SaveKeyValue_tr _ _ _ _ Hs), (retrieve_save_ne _ _ _ _ _ Hs Hne).
  pose proof (SaveKeyValue_dirty _ _ _ _ Hs) as Hd.
  rewrite (bool_decide_eq_false_2 (dirtyData t = ∅)) by done.
  destruct (tr (tracker a)) eqn:Et; cbn; [done|].
  destruct cdd; cbn; [|done].
  case_bool_decide as Hdd; cbn; [|done].
  unfold RetrieveValue. by rewrite Hdd, lookup_empty, Et.
Qed.

Lemma GetUserKDA_frame asset nonce u a a' x cdd asset' nonce' :
  SetUserKDA asset nonce u a = (a', Ok x) -> akey asset nonce <> akey asset' nonce' ->
  GetUserKDA a' asset' nonce' cdd = GetUserKDA a asset' nonce' cdd.
Proof. intros (data & t & _ & Hs & ->)%SetUserKDA_ok. by apply (GetUserKDA_write_frame _ _ _ data). Qed.

(** What the account reads at a key it can read at all. *)
Lemma GetUserKDA_stored a asset nonce data :
  RetrieveValue (tracker a) (akey asset nonce) = Ok data -> data <> EmptyString ->
  GetUserKDA a asset nonce true = Unmarshal data.
Proof.
  intros Hr Hne. unfold GetUserKDA. rewrite Hr. cbn.
  assert ((match tr (tracker a) with None => true | Some _ => false end)
          && bool_decide (dirtyData (tracker a) = ∅) = false) as ->.
  { destruct (tr (tracker a)) eqn:Et; [done|]. case_bool_decide as Hd; [|done].
    unfold RetrieveValue in Hr. by rewrite Hd, lookup_empty, Et in Hr. }
  destruct (Z.eqb_spec (slen data) 0) as [E|_]; [by apply slen_zero in E|done].
Qed.

Lemma GetUserKDA_deleted a t asset nonce :
  SaveKeyValue (tracker a) (akey asset nonce) EmptyString = Ok t ->
  GetUserKDA (with_tracker a t) asset nonce true = Err ErrNegativeValue.
Proof.
  intros Hs. unfold GetUserKDA. cbn.
  rewrite (bool_decide_eq_false_2 (dirtyData t = ∅)) by (by eapply SaveKeyValue_dirty).
  rewrite andb_false_r. rewrite (retrieve_deleted _ _ _ Hs); [done|].
  pose proof (ToKDAKey_nonempty (default KLVIdentifier asset) nonce). unfold slen in *. lia.
Qed.

Lemma is_klv_default asset : is_klv asset = true <-> default KLVIdentifier asset = KLVIdentifier.
Proof.
  destruct asset as [k|]; cbn; [|done]. unfold str_eqb. by rewrite bool_decide_eq_true.
Qed.

Lemma GetBalance_frame asset u a a' x cdd asset' :
  SetUserKDA asset EmptyString u a = (a', Ok x) ->
  default KLVIdentifier asset <> default KLVIdentifier asset' ->
  GetBalance a' asset' cdd = GetBalance a asset' cdd.
Proof.
  intros H Hne. unfold GetBalance, GetBalanceWithNonce.
  destruct (SetUserKDA_frame _ _ _ _ _ _ H) as (-> & _ & _).
  by rewrite (GetUserKDA_frame _ _ _ _ _ _ _ _ _ H) by (by intros E%ToKDAKey_inj_nil).
Qed.

(** The account [a'] differs from [a] at most in the balance of [asset],
    which is [b]. *)
Definition balance_becomes a a' asset (cdd : bool) (b : Z) : Prop :=
  GetBalance a' asset cdd = b /\
  (forall asset', default KLVIdentifier asset' <> default KLVIdentifier asset ->
     GetBalance a' asset' cdd = GetBalance a asset' cdd).

Lemma kda_balance_becomes asset u a a' x cdd b :
  is_klv asset = false -> readable a cdd ->
  SetUserKDA asset EmptyString (set_kda_Balance u b) a = (a', Ok x) ->
  balance_becomes a a' asset cdd b.
Proof.
  intros Hk Hr H. split.
  - unfold GetBalance. rewrite Hk. by erewrite GetBalance_set by eassumption.
  - intros asset' Hne. eapply GetBalance_frame; [eassumption|done].
Qed.

Lemma klv_balance_becomes asset a b cdd :
  is_klv asset = true -> balance_becomes a (with_Balance a b) asset cdd b.
Proof.
  intros Hk. split; [unfold GetBalance; by rewrite Hk|].
  intros asset' Hne. unfold GetBalance.
  apply is_klv_default in Hk. destruct (is_klv asset') eqn:E; [|done].
  apply is_klv_default in E. congruence.
Qed.

(** The position an operation reads is the one [GetBalance] reports. *)
Lemma stored_balance asset a a' u cdd :
  is_klv asset = false ->
  user_kda_or_stored None asset EmptyString cdd a = (a', Ok u) ->
  a' = a /\ kda_Balance u = GetBalance a asset cdd.
Proof.
  intros Hk H. unfold user_kda_or_stored in H. m_ok.
  unfold GetBalance, GetBalanceWithNonce. rewrite Hk. split; [done|].
  match goal with H : GetUserKDA _ _ _ _ = Ok _ |- _ => by rewrite H end.
Qed.

Lemma GetBalance_klv asset a cdd : is_klv asset = true -> GetBalance a asset cdd = Balance a.
Proof. unfold GetBalance. by intros ->. Qed.

Lemma AddToBalance_ok a a' value asset cdd r :
  readable a cdd -> AddToBalance value asset cdd None a = (a', Ok r) ->
  0 <= value /\ 0 <= GetBalance a asset cdd +! value /\
  balance_becomes a a' asset cdd (GetBalance a asset cdd +! value).
Proof.
  intros Hr H. unfold AddToBalance in H.
  apply M_bind_ok in H as (w & [] & [Hg ->]%reject_if_ok & H). zify_bools.
  destruct (is_klv asset) eqn:Hk.
  - rewrite (GetBalance_klv _ _ _ Hk). m_ok. zify_bools. eauto using klv_balance_becomes.
  - apply M_bind_ok in H as (w & u & [-> Hu]%stored_balance & H); [|done]. rewrite <- Hu.
    m_ok. zify_bools. eauto using kda_balance_becomes.
Qed.

Lemma SubFromBalance_ok a a' value asset cdd r :
  readable a cdd -> SubFromBalance value asset cdd None a = (a', Ok r) ->
  0 <= value /\ 0 <= GetBalance a asset cdd -! value /\
  balance_becomes a a' asset cdd (GetBalance a asset cdd -! value).
Proof.
  intros Hr H. unfold SubFromBalance in H.
  apply M_bind_ok in H as (w & [] & [Hg ->]%reject_if_ok & H). zify_bools.
  destruct (is_klv asset) eqn:Hk.
  - rewrite (GetBalance_klv _ _ _ Hk). m_ok. zify_bools. eauto using klv_balance_becomes.
  - apply M_bind_ok in H as (w & u & [-> Hu]%stored_balance & H); [|done]. rewrite <- Hu.
    m_ok. zify_bools. eauto using kda_balance_becomes.
Qed.

Lemma AddToBalance_kda a a' value asset cdd r :
  is_klv asset = false -> AddToBalance value asset cdd None a = (a', Ok r) ->
  exists u x, GetUserKDA a asset EmptyString cdd = Ok u /\
    SetUserKDA asset EmptyString (set_kda_Balance u (kda_Balance u +! value)) a = (a', Ok x).
Proof.
  intros Hk H. unfold AddToBalance in H. rewrite Hk in H. unfold user_kda_or_stored in H.
  m_ok. eauto.
Qed.

(** ** Properties *)

(** A credit that succeeds raises the balance of its asset by exactly its
    value, leaves every other asset of the account alone, and never wraps:
    the new balance is an [int64]. *)
Theorem credit_exact a a' value asset cdd r :
  readable a cdd -> 0 <= GetBalance a asset cdd <= MaxInt64 -> is_i64 value ->
  AddToBalance value asset cdd None a = (a', Ok r) ->
  0 <= value /\ GetBalance a asset cdd + value <= MaxInt64 /\
  balance_becomes a a' asset cdd (GetBalance a asset cdd + value).
Proof.
  intros Hr Hb Hv (Hv0 & Hn & Hbec)%AddToBalance_ok; [|done].
  destruct (add_overflow_iff (GetBalance a asset cdd) value) as [_ Hov]; [ilia..|].
  assert (GetBalance a asset cdd + value <= MaxInt64) by lia.
  rewrite wrap_i64_id in Hbec by ilia. auto.
Qed.

(** A debit succeeds only within the balance of its asset, which it lowers
    by exactly its value, leaving every other asset alone; a debit above the
    balance is refused with [ErrInsufficientFunds] and leaves the account as
    it was. *)
Theorem debit_exact a value asset cdd :
  readable a cdd -> 0 <= GetBalance a asset cdd <= MaxInt64 -> is_i64 value ->
  (forall a' r, SubFromBalance value asset cdd None a = (a', Ok r) ->
     0 <= value <= GetBalance a asset cdd /\
     balance_becomes a a' asset cdd (GetBalance a asset cdd - value)) /\
  (GetBalance a asset cdd < value ->
     (is_klv asset = false -> is_ok (GetUserKDA a asset EmptyString cdd) = true) ->
     SubFromBalance value asset cdd None a = (a, Err ErrInsufficientFunds)).
Proof.
  intros Hr Hb Hv. split.
  - intros a' r (Hv0 & Hn & Hbec)%SubFromBalance_ok; [|done].
    rewrite wrap_i64_id in Hn, Hbec by ilia. split; [lia|done].
  - intros Hlt Hread. unfold SubFromBalance.
    assert (0 <= value) as Hv0 by lia.
    unfold mbind, M_bind, reject_if. rewrite (proj2 (Z.ltb_ge value 0)) by done. cbn -[GetUserKDA].
    assert (GetBalance a asset cdd -! value < 0) as Hneg by (rewrite wrap_i64_id; ilia).
    destruct (is_klv asset) eqn:Hk; cbn -[GetUserKDA].
    + rewrite (GetBalance_klv _ _ _ Hk) in Hneg.
      by rewrite (proj2 (Z.ltb_lt _ _) Hneg).
    + specialize (Hread eq_refl).
      unfold GetBalance, GetBalanceWithNonce in Hneg. rewrite Hk in Hneg.
      unfold user_kda_or_stored, mbind, M_bind, get, lift.
      destruct (GetUserKDA a asset EmptyString cdd); [|discriminate Hread]. cbn.
      by rewrite (proj2 (Z.ltb_lt _ _) Hneg).
Qed.

(** Without the dirty-data check an account that has no data trie yet does
    not see its own pending writes, so of two credits to the same asset in a
    row only the second one remains; with the check both are kept. *)
Theorem dirty_check_keeps_credits a a1 a2 asset v1 v2 cdd r1 r2 :
  untouched a -> is_klv asset = false ->
  is_i64 v1 -> is_i64 v2 -> 0 < v1 ->
  AddToBalance v1 asset cdd None a = (a1, Ok r1) ->
  AddToBalance v2 asset cdd None a1 = (a2, Ok r2) ->
  GetBalance a2 asset true = if cdd then v1 + v2 else v2.
Proof.
  intros [Htr Hd] Hk H1 H2 Hpos Ha1 Ha2.
  assert (forall b, GetBalance a asset b = 0) as Hz0.
  { intros b. unfold GetBalance, GetBalanceWithNonce, GetUserKDA. rewrite Hk, Htr.
    rewrite bool_decide_eq_true_2 by done. by destruct b. }
  destruct cdd.
  - apply AddToBalance_ok in Ha1 as (? & ? & Hb1 & _); [|by left].
    apply AddToBalance_ok in Ha2 as (? & Hov & Hb2 & _); [|by left].
    rewrite Hz0 in Hb1. rewrite Hb1 in Hb2, Hov. rewrite Z.add_0_l in Hb2, Hov.
    rewrite (wrap_i64_id v1) in Hb2, Hov by done.
    destruct (add_overflow_iff v1 v2) as [_ Hw]; [ilia..|].
    rewrite Hb2. apply wrap_i64_id. ilia.
  - apply (AddToBalance_kda _ _ _ _ _ _ Hk) in Ha1 as (u1 & x1 & _ & Hs1).
    apply (AddToBalance_kda _ _ _ _ _ _ Hk) in Ha2 as (u2 & x2 & Hu2 & Hs2).
    destruct (SetUserKDA_frame _ _ _ _ _ _ Hs1) as (_ & _ & _ & Htr1). rewrite Htr in Htr1.
    assert (u2 = emptyUserKDA) as ->.
    { unfold GetUserKDA in Hu2. rewrite Htr1 in Hu2. by apply Ok_inj in Hu2. }
    destruct (kda_balance_becomes _ _ _ _ _ true _ Hk (or_introl eq_refl) Hs2) as [-> _].
    by apply wrap_i64_id.
Qed.
End balances.

(** ** A concrete account over the reference trie *)

Definition example_account : @userAccount map_trie := @NewUserAccountNoCheck map_trie "alice".
Definition example_asset : slice := Some "DVK-34ZH".

Abbreviation ex_add := (@AddToBalance map_trie userkda_codec).
Abbreviation ex_sub := (@SubFromBalance map_trie userkda_codec).
Abbreviation ex_balance := (@GetBalance map_trie userkda_codec).

(** [example_account] after a credit of 70. *)
Definition example_credited : @userAccount map_trie :=
  (ex_add 70 example_asset true None example_account).1.

Lemma credit_exact_witness :
  ex_balance example_account example_asset true = 0 /\
  ex_balance example_credited example_asset true = 70.
Proof.
  split; [vm_compute; reflexivity|].
  refine (proj1 (proj2 (proj2 (@credit_exact map_trie userkda_codec userkda_codec_laws
    example_account example_credited 70 example_asset true _ _ _ _ (run_ok_spec None _ _))))).
  - by left.
  - vm_compute. split; discriminate.
  - split; discriminate.
  - vm_compute. reflexivity.
Defined.

Lemma debit_exact_witness :
  (ex_sub 30 example_asset true None example_credited).2 <> Err ErrInsufficientFunds /\
  ex_balance (ex_sub 30 example_asset true None example_credited).1 example_asset true = 40 /\
  ex_sub 71 example_asset true None example_credited = (example_credited, Err ErrInsufficientFunds).
Proof.
  assert (readable example_credited true) as Hr by by left.
  assert (0 <= ex_balance example_credited example_asset true <= MaxInt64) as Hb
    by (split; vm_compute; discriminate).
  split; [vm_compute; discriminate|]. split.
  - refine (proj1 (proj2 (proj1 (@debit_exact map_trie userkda_codec userkda_codec_laws
      example_credited 30 example_asset true Hr Hb _) _ _ (run_ok_spec None _ _)))).
    + split; discriminate.
    + vm_compute. reflexivity.
  - apply (@debit_exact map_trie userkda_codec userkda_codec_laws); done.
Defined.

Lemma dirty_check_keeps_credits_witness :
  ex_balance (ex_add 5 example_asset true None example_credited).1 example_asset true = 75 /\
  ex_balance (ex_add 5 example_asset false None
    (ex_add 70 example_asset false None example_account).1).1 example_asset true = 5.
Proof.
  split.
  - refine (@dirty_check_keeps_credits map_trie userkda_codec userkda_codec_laws
      example_account example_credited _ example_asset 70 5 true _ _ (conj eq_refl eq_refl) _ _ _ _
      (run_ok_spec None _ _) (run_ok_spec None _ _)).
    all: try reflexivity. all: try (split; discriminate). all: vm_compute; reflexivity.
  - refine (@dirty_check_keeps_credits map_trie userkda_codec userkda_codec_laws
      example_account _ _ example_asset 70 5 false _ _ (conj eq_refl eq_refl) _ _ _ _
      (run_ok_spec None _ _) (run_ok_spec None _ _)).
    all: try reflexivity. all: try (split; discriminate). all: vm_compute; reflexivity.
Defined.
