(* ===== verification/Staking.v ===== *)
(** * Staking: the buckets of a user account

    The staking half of [data/state/userAccount.go]: [Freeze], [Unfreeze],
    [Delegate], [Undelegate] and [Withdraw] on the position ([UserKDA]) and the
    staking data ([StakingData]) that the caller loaded.  Both objects are
    passed by reference and mutated, so an operation is a computation over the
    pair of them. *)

From S2P Require Import Prelude Common Strconv Tools Permissions KdaUtils DataTrie UserAccount Codec Balances.
Local Open Scope Z_scope.

(** ** Staking data ([kapps/proto/staking.proto]) *)

Definition StakingData_APRI : Z := 0.
Definition StakingData_FPRI : Z := 1.

Record APRData : Type := { apr_Timestamp : Z; apr_Epoch : Z; apr_Value : Z }.

Record KDAFPRData : Type := { kfpr_TotalAmount : Z; kfpr_TotalClaimed : Z }.

Record FPRData : Type := {
  fpr_TotalAmount : Z; fpr_TotalStaked : Z; fpr_Epoch : Z; fpr_TotalClaimed : Z;
  fpr_KDAS : gmap string KDAFPRData;
}.

Record StakingData : Type := {
  InterestType : Z; APR : list APRData; FPR : list FPRData; CurrentFPRAmount : Z;
  TotalStaked : Z; MinEpochsToClaim : Z; MinEpochsToUnstake : Z; MinEpochsToWithdraw : Z;
}.

#[global] Instance APRData_eq_dec : EqDecision APRData.
Proof. solve_decision. Defined.
#[global] Instance KDAFPRData_eq_dec : EqDecision KDAFPRData.
Proof. solve_decision. Defined.
#[global] Instance FPRData_eq_dec : EqDecision FPRData.
Proof. solve_decision. Defined.
#[global] Instance StakingData_eq_dec : EqDecision StakingData.
Proof. solve_decision. Defined.

Definition set_TotalStaked (s : StakingData) (v : Z) : StakingData :=
  {| InterestType := InterestType s; APR := APR s; FPR := FPR s;
     CurrentFPRAmount := CurrentFPRAmount s; TotalStaked := v;
     MinEpochsToClaim := MinEpochsToClaim s; MinEpochsToUnstake := MinEpochsToUnstake s;
     MinEpochsToWithdraw := MinEpochsToWithdraw s |}.
Definition set_FPR (s : StakingData) (l : list FPRData) : StakingData :=
  {| InterestType := InterestType s; APR := APR s; FPR := l;
     CurrentFPRAmount := CurrentFPRAmount s; TotalStaked := TotalStaked s;
     MinEpochsToClaim := MinEpochsToClaim s; MinEpochsToUnstake := MinEpochsToUnstake s;
     MinEpochsToWithdraw := MinEpochsToWithdraw s |}.

(** [core.DefaultUnstakedEpoch]: the bucket has not been unstaked. *)
Definition DefaultUnstakedEpoch : Z := MaxUint32.

Record FreezeOptions : Type := {
  BlockEpoch : Z; BlockTime : Z; NewStakingFlow : bool; KeepStakeHistory : bool;
}.

(** KLV and KFI have a bucket per freeze, any other asset has one bucket. *)
Definition parsedBucketID (assetID bucketID : string) : string :=
  if negb (str_eqb assetID KLVIdentifier) && negb (str_eqb assetID KFIIdentifier)
  then assetID else EncodeToString bucketID.

Definition LastClaim_GetEpoch (lc : option LastClaim) : Z :=
  match lc with Some c => lc_Epoch c | None => 0 end.

Definition is_staked (b : UserBucket) : bool := UnstakedEpoch b =? DefaultUnstakedEpoch.

Definition stakeHistoryAfterFreeze (bucket : UserBucket) (epoch lastClaimEpoch : Z)
  : list StakeSegment :=
  let kept := filter (fun segment => lastClaimEpoch < seg_ThroughEpoch segment) (History bucket) in
  let through := if negb (is_staked bucket) then UnstakedEpoch bucket else epoch in
  if (StakedEpoch bucket <? through) && (lastClaimEpoch <? through) then
    kept ++ [{| seg_StakedEpoch := StakedEpoch bucket; seg_ThroughEpoch := through;
                seg_Value := bucket_Value bucket |}]
  else kept.

(** What [Freeze], [Unfreeze], [Delegate] and [Undelegate] mutate. *)
Record stakeState : Type := { st_staking : StakingData; st_userKDA : UserKDA }.
Abbreviation SM := (M stakeState error).

Definition Freeze (assetID bucketID : string) (value : Z) (opts : FreezeOptions) : SM unit :=
  _ ← reject_if (value <=? 0) StateErrInvalidValue;
  st ← get;
  let u := st_userKDA st in
  let s := st_staking st in
  let buckets := default ∅ (Buckets u) in
  let id := parsedBucketID assetID bucketID in
  let oldValue := match buckets !! id with Some b => bucket_Value b | None => 0 end in
  let toAdd := match buckets !! id with
               | Some b => if NewStakingFlow opts && negb (is_staked b)
                           then value +! oldValue else value
               | None => value
               end in
  let history := match buckets !! id with
                 | Some b => if KeepStakeHistory opts
                             then stakeHistoryAfterFreeze b (BlockEpoch opts)
                                    (LastClaim_GetEpoch (uk_LastClaim u))
                             else []
                 | None => []
                 end in
  let bucket := {| StakedAt := BlockTime opts; StakedEpoch := BlockEpoch opts;
                   UnstakedEpoch := DefaultUnstakedEpoch; bucket_Value := oldValue +! value;
                   Delegation := None; History := history |} in
  put {| st_staking := set_TotalStaked s (TotalStaked s +! toAdd);
         st_userKDA := set_Frozen (set_Buckets u (<[id := bucket]> buckets))
                         (FrozenBalance u +! toAdd) |}.

Definition set_Unstaked (b : UserBucket) (e : Z) : UserBucket :=
  {| StakedAt := StakedAt b; StakedEpoch := StakedEpoch b; UnstakedEpoch := e;
     bucket_Value := bucket_Value b; Delegation := Delegation b; History := History b |}.
Definition set_Delegation (b : UserBucket) (d : slice) : UserBucket :=
  {| StakedAt := StakedAt b; StakedEpoch := StakedEpoch b; UnstakedEpoch := UnstakedEpoch b;
     bucket_Value := bucket_Value b; Delegation := d; History := History b |}.

(** The bucket an operation works on, or [ErrNotStaked]. *)
Definition find_bucket (u : UserKDA) (id : string) : res error (gmap string UserBucket * UserBucket) :=
  match Buckets u with
  | None => Err ErrNotStaked
  | Some m => match m !! id with None => Err ErrNotStaked | Some b => Ok (m, b) end
  end.

Definition Unfreeze (assetID bucketID : string) (blockEpoch : Z) (newStakingFlow : bool)
  : SM (slice * Z) :=
  st ← get;
  let u := st_userKDA st in
  let s := st_staking st in
  let id := parsedBucketID assetID bucketID in
  mb ← lift (find_bucket u id);
  let '(m, b) := mb in
  _ ← reject_if (negb (UnstakedEpoch b =? DefaultUnstakedEpoch)
                 || (wrap_u32 (blockEpoch - StakedEpoch b) <? MinEpochsToUnstake s))
        ErrUnstakeNotAvailable;
  let u' := set_Buckets u (<[id := set_Unstaked b blockEpoch]> m) in
  _ ← put (if newStakingFlow && (InterestType s =? StakingData_APRI) then
             {| st_staking := set_TotalStaked s (TotalStaked s -! FrozenBalance u);
                st_userKDA := set_Frozen u' 0 |}
           else
             {| st_staking := set_TotalStaked s (TotalStaked s -! bucket_Value b);
                st_userKDA := set_Frozen u' (FrozenBalance u -! bucket_Value b) |});
  mret (Delegation b, bucket_Value b).

Definition set_userKDA (st : stakeState) (u : UserKDA) : stakeState :=
  {| st_staking := st_staking st; st_userKDA := u |}.

Definition Delegate (bucketID : string) (delegation : slice) : SM Z :=
  st ← get;
  let id := EncodeToString bucketID in
  mb ← lift (find_bucket (st_userKDA st) id);
  let '(m, b) := mb in
  _ ← put (set_userKDA st (set_Buckets (st_userKDA st) (<[id := set_Delegation b delegation]> m)));
  mret (bucket_Value b).

Definition Undelegate (bucketID : string) : SM (slice * Z) :=
  st ← get;
  let id := EncodeToString bucketID in
  mb ← lift (find_bucket (st_userKDA st) id);
  let '(m, b) := mb in
  _ ← reject_if (match Delegation b with None => true | Some _ => false end)
        ErrUndelegatingNotAvailable;
  _ ← put (set_userKDA st (set_Buckets (st_userKDA st) (<[id := set_Delegation b None]> m)));
  mret (Delegation b, bucket_Value b).

(** ** Withdrawing unstaked buckets *)

Definition matured (epoch minEpochsToWithdraw : Z) (b : UserBucket) : bool :=
  UnstakedEpoch b + minEpochsToWithdraw <=? epoch.

(** The loop of [Withdraw] over the buckets in the order [range] visits them. *)
Fixpoint withdraw_loop (epoch min : Z) (order : list (string * UserBucket))
    (acc : Z * gmap string UserBucket) : Z * gmap string UserBucket :=
  match order with
  | [] => acc
  | (key, bucket) :: rest =>
      withdraw_loop epoch min rest
        (if matured epoch min bucket
         then (acc.1 +! bucket_Value bucket, delete key acc.2) else acc)
  end.

Section withdraw.
Context `{TO : TrieOps} `{C : Marshalizer UserKDA}.
(** The order in which [range] visits a map. *)
Variable range : gmap string UserBucket -> list (string * UserBucket).

Record withdrawState : Type := { wd_acc : userAccount; wd_userKDA : UserKDA }.

Definition Withdraw (assetID : string) (epoch minEpochsToWithdraw : Z)
  : M withdrawState error Z := fun w =>
  let u := wd_userKDA w in
  let '(withdraw, u1) :=
    match Buckets u with
    | None => (0, u)
    | Some m => let '(wd, m') := withdraw_loop epoch minEpochsToWithdraw (range m) (0, m) in
                (wd, set_Buckets u m')
    end in
  if withdraw =? 0 then ({| wd_acc := wd_acc w; wd_userKDA := u1 |}, Err ErrWithdrawNotAvailable)
  else
    let klv := str_eqb assetID KLVIdentifier in
    let a2 := if klv then with_Balance (wd_acc w) (Balance (wd_acc w) +! withdraw) else wd_acc w in
    let u2 := if klv then u1 else set_kda_Balance u1 (kda_Balance u1 +! withdraw) in
    let '(a3, r) := SetUserKDA (Some assetID) EmptyString u2 a2 in
    ({| wd_acc := a3; wd_userKDA := u2 |}, _ ← r; Ok withdraw).
End withdraw.
Arguments withdrawState {_}.

(** ** Lemmas *)

(** The value of a bucket that counts as staked. *)
Definition staked_value (b : UserBucket) : Z := if is_staked b then bucket_Value b else 0.
Definition staked_total (u : UserKDA) : Z := msum staked_value (default ∅ (Buckets u)).

(** The invariant of a position: the frozen balance is the sum of the staked
    buckets, an asset other than KLV and KFI has at most its own bucket. *)
Definition single_bucket_asset (assetID : string) : bool :=
  negb (str_eqb assetID KLVIdentifier) && negb (str_eqb assetID KFIIdentifier).

Record position_wf (assetID : string) (u : UserKDA) : Prop := {
  pw_frozen : FrozenBalance u = wrap_i64 (staked_total u);
  pw_single : single_bucket_asset assetID = true ->
              forall k, default ∅ (Buckets u) !! k <> None -> k = assetID;
}.

Lemma parsedBucketID_single assetID bucketID :
  single_bucket_asset assetID = true -> parsedBucketID assetID bucketID = assetID.
Proof. unfold single_bucket_asset, parsedBucketID. by intros ->. Qed.

Lemma insert_single assetID bucketID (b : UserBucket) (m : gmap string UserBucket) :
  (single_bucket_asset assetID = true -> forall k, m !! k <> None -> k = assetID) ->
  single_bucket_asset assetID = true ->
  forall k, <[parsedBucketID assetID bucketID := b]> m !! k <> None -> k = assetID.
Proof.
  intros H Hs k Hk. rewrite (parsedBucketID_single _ _ Hs) in Hk.
  destruct (decide (k = assetID)) as [|Hne]; [done|]. rewrite lookup_insert_ne in Hk by done. eauto.
Qed.

(** Writing a bucket and adjusting the frozen balance by [d] keeps the position
    well formed when [d] is the change of the staked value. *)
Lemma position_wf_write assetID bucketID u b f :
  position_wf assetID u ->
  let m := default ∅ (Buckets u) in
  let id := parsedBucketID assetID bucketID in
  is_i64 f ->
  cong64 f (FrozenBalance u + (staked_value b - default 0 (staked_value <$> m !! id))) ->
  position_wf assetID (set_Frozen (set_Buckets u (<[id := b]> m)) f).
Proof.
  intros [Hf Hs] m id Hi Hd. split; cbn.
  - unfold staked_total. cbn. rewrite msum_insert. fold m.
    rewrite <- (wrap_i64_id f) by done. apply cong64_wrap. rewrite Hd, Hf, wrap_cong64.
    unfold staked_total. fold m. cong_lia.
  - by apply insert_single.
Qed.

(** The staked total of the asset moves with the frozen balance of the user. *)
Definition totals_agree (st st' : stakeState) : Prop :=
  cong64 (TotalStaked (st_staking st') - FrozenBalance (st_userKDA st'))
         (TotalStaked (st_staking st) - FrozenBalance (st_userKDA st)).

Definition stake_keeps (assetID : string) (st st' : stakeState) : Prop :=
  position_wf assetID (st_userKDA st') /\ totals_agree st st' /\
  InterestType (st_staking st') = InterestType (st_staking st).

Lemma stake_keeps_refl assetID st : position_wf assetID (st_userKDA st) -> stake_keeps assetID st st.
Proof. intros H. split; [done|]. split; [|done]. unfold totals_agree. reflexivity. Qed.

Lemma Freeze_keeps assetID bucketID value opts st st' r :
  NewStakingFlow opts = true -> position_wf assetID (st_userKDA st) ->
  Freeze assetID bucketID value opts st = (st', r) -> stake_keeps assetID st st'.
Proof.
  intros Hn Hwf. unfold Freeze, mbind, M_bind, reject_if. destruct (value <=? 0) eqn:Hv; cbn.
  { intros [= <- <-]. by apply stake_keeps_refl. }
  rewrite Hn. unfold get, put. intros [= <- _].
  destruct st as [s u]; cbn in *. split; cbn; [|split; [|done]].
  - apply position_wf_write; [done|apply wrap_i64_range|].
    rewrite wrap_cong64. unfold staked_value at 1. cbn.
    destruct (default ∅ (Buckets u) !! _) as [b|] eqn:Eb; cbn.
    + unfold staked_value. destruct (is_staked b) eqn:Es; cbn; rewrite !wrap_cong64; cong_lia.
    + rewrite wrap_cong64. cong_lia.
  - unfold totals_agree. cbn. destruct (default ∅ (Buckets u) !! _) as [b|]; cbn;
      [destruct (is_staked b); cbn|]; rewrite !wrap_cong64; cong_lia.
Qed.

Lemma Unfreeze_keeps assetID bucketID epoch newFlow st st' r :
  newFlow = true -> is_u32 epoch -> epoch <> DefaultUnstakedEpoch ->
  (InterestType (st_staking st) = StakingData_APRI -> single_bucket_asset assetID = true) ->
  position_wf assetID (st_userKDA st) ->
  Unfreeze assetID bucketID epoch newFlow st = (st', r) -> stake_keeps assetID st st'.
Proof.
  intros -> He Hd Hapr Hwf. unfold Unfreeze, mbind, M_bind, get, lift.
  destruct (find_bucket _ _) as [[m b]|e] eqn:Hf; cbn; [|intros [= <- _]; by apply stake_keeps_refl].
  unfold reject_if. destruct (_ || _) eqn:Hg; cbn; [intros [= <- _]; by apply stake_keeps_refl|].
  zify_bools. unfold find_bucket in Hf.
  destruct (Buckets (st_userKDA st)) as [m0|] eqn:Em; [|done].
  destruct (m0 !! _) as [b0|] eqn:Eb; [|done]. injection Hf as -> ->.
  assert (is_staked (set_Unstaked b epoch) = false) as Hns by (by apply Z.eqb_neq).
  assert (is_staked b = true) as Hst by (by apply Z.eqb_eq).
  destruct st as [s u]; cbn in *.
  destruct (InterestType s =? StakingData_APRI) eqn:Hi; intros [= <- _]; zify_bools.
  - specialize (Hapr Hi). split; [|split; [|done]].
    + assert (staked_total u = bucket_Value b) as Hsum.
      { unfold staked_total. rewrite Em. cbn.
        rewrite (parsedBucketID_single _ _ Hapr) in Eb. rewrite (msum_delete _ _ _ _ Eb).
        rewrite (map_eq _ (∅ : gmap string UserBucket)); [rewrite msum_empty; unfold staked_value; rewrite Hst; lia|].
        intros k. destruct (decide (k = assetID)) as [->|Hk]; [by rewrite lookup_delete_eq|].
        rewrite lookup_delete_ne, lookup_empty by done. apply eq_None_not_Some. intros [x Hx].
        apply Hk, (pw_single _ _ Hwf Hapr). by rewrite Em; cbn; rewrite Hx. }
      cbn. pose proof (position_wf_write assetID bucketID u (set_Unstaked b epoch) 0 Hwf) as Hw.
      rewrite Em in Hw. apply Hw; cbn; [ilia|]. rewrite Eb. cbn.
      unfold staked_value. rewrite Hns, Hst, (pw_frozen _ _ Hwf), wrap_cong64, Hsum. cong_lia.
    + unfold totals_agree. cbn. rewrite wrap_cong64. cong_lia.
  - split; [|split; [|done]].
    + pose proof (position_wf_write assetID bucketID u (set_Unstaked b epoch)
        (FrozenBalance u -! bucket_Value b) Hwf) as Hw.
      rewrite Em in Hw. apply Hw; cbn; [apply wrap_i64_range|]. rewrite Eb. cbn.
      unfold staked_value. rewrite Hns, Hst, wrap_cong64. cong_lia.
    + unfold totals_agree. cbn. rewrite !wrap_cong64. cong_lia.
Qed.

(** *** Delegation touches no amount *)

Lemma find_bucket_ok u id m b : find_bucket u id = Ok (m, b) -> Buckets u = Some m /\ m !! id = Some b.
Proof.
  unfold find_bucket. destruct (Buckets u) as [m'|]; [|done].
  destruct (m' !! id) eqn:E; [|done]. by intros [= <- <-].
Qed.

Lemma position_wf_delegation assetID u m id b d :
  position_wf assetID u -> Buckets u = Some m -> m !! id = Some b ->
  position_wf assetID (set_Buckets u (<[id := set_Delegation b d]> m)).
Proof.
  intros [Hf Hs] Em Eb. split; cbn.
  - rewrite Hf. unfold staked_total. cbn. rewrite msum_insert, Eb, Em. cbn. f_equal.
    unfold staked_value, is_staked. cbn. lia.
  - intros Hsi k Hk. rewrite Em in Hs. apply Hs; [done|].
    destruct (decide (id = k)) as [->|]; [cbn; by rewrite Eb|]. by rewrite lookup_insert_ne in Hk.
Qed.

Lemma delegation_keeps assetID st m id b d :
  position_wf assetID (st_userKDA st) -> find_bucket (st_userKDA st) id = Ok (m, b) ->
  stake_keeps assetID st
    (set_userKDA st (set_Buckets (st_userKDA st) (<[id := set_Delegation b d]> m))).
Proof.
  intros Hwf [Em Eb]%find_bucket_ok. split; [by apply position_wf_delegation|].
  split; [|done]. unfold totals_agree. reflexivity.
Qed.

Lemma Delegate_keeps assetID bucketID d st st' r :
  position_wf assetID (st_userKDA st) ->
  Delegate bucketID d st = (st', r) -> stake_keeps assetID st st'.
Proof.
  intros Hwf. unfold Delegate, mbind, M_bind, get, lift.
  destruct (find_bucket _ _) as [[m b]|e] eqn:Hf; intros [= <- _].
  - by apply delegation_keeps.
  - by apply stake_keeps_refl.
Qed.

Lemma Undelegate_keeps assetID bucketID st st' r :
  position_wf assetID (st_userKDA st) ->
  Undelegate bucketID st = (st', r) -> stake_keeps assetID st st'.
Proof.
  intros Hwf. unfold Undelegate, mbind, M_bind, get, lift, reject_if.
  destruct (find_bucket _ _) as [[m b]|e] eqn:Hf; [|intros [= <- _]; by apply stake_keeps_refl].
  destruct (Delegation b); intros [= <- _].
  - by apply delegation_keeps.
  - by apply stake_keeps_refl.
Qed.

(** *** The withdrawal loop *)

Definition live (epoch min : Z) (m : gmap string UserBucket) : gmap string UserBucket :=
  filter (fun kb => matured epoch min kb.2 = false) m.
Definition withdrawable (epoch min : Z) (b : UserBucket) : Z :=
  if matured epoch min b then bucket_Value b else 0.

Lemma withdraw_loop_sum epoch min order acc :
  cong64 (withdraw_loop epoch min order acc).1
         (acc.1 + zsum (withdrawable epoch min ∘ snd <$> order)).
Proof.
  revert acc. induction order as [|[k b] order IH]; intros acc; cbn; [cong_lia|].
  rewrite IH. unfold withdrawable at 2. cbn. unfold zsum. cbn.
  destruct (matured epoch min b); cbn; [rewrite wrap_cong64|]; cong_lia.
Qed.

Lemma withdraw_loop_i64 epoch min order acc :
  is_i64 acc.1 -> is_i64 (withdraw_loop epoch min order acc).1.
Proof.
  revert acc. induction order as [|[k b] order IH]; intros acc H; [done|]. cbn. apply IH.
  destruct (matured _ _ _); [apply wrap_i64_range|done].
Qed.

Lemma withdraw_loop_map epoch min order acc k :
  NoDup order.*1 ->
  (withdraw_loop epoch min order acc).2 !! k =
  match (list_to_map order : gmap string UserBucket) !! k with
  | Some b => if matured epoch min b then None else acc.2 !! k
  | None => acc.2 !! k
  end.
Proof.
  revert acc. induction order as [|[k1 b1] order IH]; intros acc Hnd; cbn; [by rewrite lookup_empty|].
  inversion_clear Hnd as [|? ? Hk1 Hnd']. rewrite IH by done.
  destruct (decide (k1 = k)) as [->|Hne].
  - rewrite lookup_insert_eq. rewrite (not_elem_of_list_to_map_1 order k Hk1).
    destruct (matured _ _ b1); cbn; [by rewrite lookup_delete_eq|done].
  - rewrite lookup_insert_ne by done.
    destruct (matured _ _ b1); cbn; [by rewrite lookup_delete_ne|done].
Qed.

(** Whatever the order, the loop removes the matured buckets and returns the
    sum of their values. *)
Lemma withdraw_loop_spec epoch min m order :
  order ≡ₚ map_to_list m ->
  withdraw_loop epoch min order (0, m) =
  (wrap_i64 (msum (withdrawable epoch min) m), live epoch min m).
Proof.
  intros Hord. rewrite (surjective_pairing (withdraw_loop _ _ _ _)). f_equal.
  - rewrite <- (wrap_i64_id (withdraw_loop _ _ _ _).1) by (by apply withdraw_loop_i64).
    apply cong64_wrap. rewrite withdraw_loop_sum, (msum_order _ _ _ Hord). cbn; cong_lia.
  - assert (NoDup order.*1) as Hnd by (rewrite Hord; apply NoDup_fst_map_to_list).
    assert ((list_to_map order : gmap string UserBucket) = m) as HM.
    { rewrite <- (list_to_map_to_list m). by apply list_to_map_proper. }
    apply map_eq. intros k. rewrite withdraw_loop_map by done. rewrite HM. cbn.
    unfold live. rewrite map_lookup_filter. destruct (m !! k) as [b|] eqn:E; cbn; [|done].
    destruct (matured epoch min b) eqn:Em; [by rewrite option_guard_False by congruence|].
    by rewrite option_guard_True.
Qed.

Lemma msum_filter {V} (f : V -> Z) (m : gmap string V) (P : V -> bool) :
  (forall v, P v = true -> f v = 0) ->
  msum f (filter (fun kb => P kb.2 = false) m) = msum f m.
Proof.
  intros HP. induction m as [|k v m Hk IH] using map_ind; [by rewrite map_filter_empty|].
  rewrite (msum_insert_new f m k v Hk). destruct (P v) eqn:E.
  - rewrite map_filter_insert_False by (cbn; congruence).
    rewrite map_filter_delete, (delete_id _ k), IH, HP; [lia|done|].
    apply map_lookup_filter_None. left. done.
  - rewrite map_filter_insert_True by done. rewrite msum_insert_new, IH; [done|].
    apply map_lookup_filter_None. left. done.
Qed.

(** No staked bucket matures before the last epoch number. *)
Lemma matured_unstaked epoch min b :
  0 <= min -> epoch < DefaultUnstakedEpoch -> matured epoch min b = true -> staked_value b = 0.
Proof.
  unfold matured, staked_value, is_staked. intros Hm He H. zify_bools.
  destruct (Z.eqb_spec (UnstakedEpoch b) DefaultUnstakedEpoch); [lia|done].
Qed.

Lemma live_position_wf assetID u m epoch min :
  0 <= min -> epoch < DefaultUnstakedEpoch -> position_wf assetID u -> Buckets u = Some m ->
  position_wf assetID (set_Buckets u (live epoch min m)).
Proof.
  intros Hm He [Hf Hs] Em. split; cbn.
  - rewrite Hf. unfold staked_total. cbn. rewrite Em. cbn. f_equal. symmetry.
    apply msum_filter. intros b. by apply matured_unstaked.
  - rewrite Em in Hs. intros Hsi k Hk. apply Hs; [done|]. cbn.
    intros E. apply Hk, map_lookup_filter_None. by left.
Qed.

(** *** Bounds on amounts *)

(** All the amounts in the buckets of a position, staked or waiting. *)
Definition bucket_total (st : stakeState) : Z := msum bucket_Value (default ∅ (Buckets (st_userKDA st))).
Record amounts_ok (st : stakeState) : Prop := {
  ao_total : is_i64 (TotalStaked (st_staking st));
  ao_values : map_Forall (fun _ b => 0 <= bucket_Value b) (default ∅ (Buckets (st_userKDA st)));
}.

Lemma msum_le {V} (f g : V -> Z) (m : gmap string V) :
  map_Forall (fun _ v => f v <= g v) m -> msum f m <= msum g m.
Proof.
  induction m as [|k v m Hk IH] using map_ind; [by rewrite !msum_empty|].
  rewrite map_Forall_insert, !msum_insert_new by done. intros [? ?]. specialize (IH ltac:(done)). lia.
Qed.

Lemma staked_total_bound st : amounts_ok st -> 0 <= staked_total (st_userKDA st) <= bucket_total st.
Proof.
  intros [_ Hv]. unfold staked_total, bucket_total. split.
  - apply msum_nonneg. intros k b Hk. specialize (Hv k b Hk). cbn in Hv. unfold staked_value. by destruct (is_staked b).
  - apply msum_le. intros k b Hk. specialize (Hv k b Hk). cbn in Hv. unfold staked_value. destruct (is_staked b); lia.
Qed.

Lemma bucket_value_bound st k b :
  amounts_ok st -> default ∅ (Buckets (st_userKDA st)) !! k = Some b -> 0 <= bucket_Value b <= bucket_total st.
Proof.
  intros [_ Hv] Hk. split; [exact (Hv k b Hk)|]. unfold bucket_total. rewrite (msum_delete _ _ _ _ Hk).
  assert (0 <= msum bucket_Value (delete k (default ∅ (Buckets (st_userKDA st))))); [|lia].
  apply msum_nonneg. intros j c [_ Hj]%lookup_delete_Some. exact (Hv j c Hj).
Qed.

Lemma Freeze_bounded assetID bucketID value opts st st' r :
  amounts_ok st -> bucket_total st + Z.max 0 value <= MaxInt64 ->
  Freeze assetID bucketID value opts st = (st', r) ->
  amounts_ok st' /\ bucket_total st' <= bucket_total st + Z.max 0 value /\ 0 <= Z.max 0 value.
Proof.
  intros Ha Hb. unfold Freeze, mbind, M_bind, reject_if. destruct (Z.leb_spec value 0) as [Hv|Hv]; cbn.
  { intros [= <- <-]. split; [done|]. lia. }
  unfold get, put. intros [= <- _]. rewrite Z.max_r in * by lia.
  pose proof (bucket_value_bound st (parsedBucketID assetID bucketID)) as Hold.
  unfold bucket_total in *. destruct st as [s u]. cbn in *. set (m := default ∅ (Buckets u)) in *.
  set (old := match m !! _ with Some b => bucket_Value b | None => 0 end).
  assert (0 <= old <= msum bucket_Value m /\ default 0 (bucket_Value <$> m !! parsedBucketID assetID bucketID) = old)
    as [Ho He].
  { unfold old. destruct (m !! _) as [b|] eqn:Eb; cbn; [split; [by apply Hold|done]|]. split; [|done].
    split; [done|]. apply msum_nonneg. intros k b Hk. exact (ao_values _ Ha k b Hk). }
  rewrite (wrap_i64_id (old + value)) by ilia. split; [split; cbn; [apply wrap_i64_range|]|].
  - apply map_Forall_insert_2; [cbn; lia|exact (ao_values _ Ha)].
  - rewrite msum_insert, He. cbn. lia.
Qed.

(** Rewriting a bucket without its value. *)
Lemma same_value_bounded st st' m id b b' :
  amounts_ok st -> Buckets (st_userKDA st) = Some m -> m !! id = Some b -> bucket_Value b' = bucket_Value b ->
  Buckets (st_userKDA st') = Some (<[id := b']> m) -> is_i64 (TotalStaked (st_staking st')) ->
  amounts_ok st' /\ bucket_total st' <= bucket_total st.
Proof.
  intros [_ Hv] Em Eb Hb Em' Ht. unfold bucket_total. rewrite Em in Hv. cbn in Hv. split; [split; [done|]|].
  - rewrite Em'. apply map_Forall_insert_2; [rewrite Hb; exact (Hv id b Eb)|done].
  - rewrite Em, Em'. cbn. rewrite msum_insert, Eb, Hb. cbn. lia.
Qed.

Lemma Unfreeze_bounded assetID bucketID epoch newFlow st st' r :
  amounts_ok st -> Unfreeze assetID bucketID epoch newFlow st = (st', r) ->
  amounts_ok st' /\ bucket_total st' <= bucket_total st.
Proof.
  intros Ha. unfold Unfreeze, mbind, M_bind, get, lift.
  destruct (find_bucket _ _) as [[m b]|e] eqn:Hf; cbn; [|intros [= <- _]; split; [done|lia]].
  unfold reject_if. destruct (_ || _); cbn; [intros [= <- _]; split; [done|lia]|].
  apply find_bucket_ok in Hf as [Em Eb]. intros [= <- _].
  eapply (same_value_bounded st _ m _ b (set_Unstaked b epoch)); [done|done|exact Eb|done| |].
  - by destruct (_ && _).
  - destruct (_ && _); apply wrap_i64_range.
Qed.

Lemma Delegate_bounded bucketID d st st' r :
  amounts_ok st -> Delegate bucketID d st = (st', r) -> amounts_ok st' /\ bucket_total st' <= bucket_total st.
Proof.
  intros Ha. unfold Delegate, mbind, M_bind, get, lift.
  destruct (find_bucket _ _) as [[m b]|e] eqn:Hf; intros [= <- _]; [|split; [done|lia]].
  apply find_bucket_ok in Hf as [Em Eb].
  eapply (same_value_bounded st _ m _ b (set_Delegation b d)); [done|done|exact Eb|done|done|apply Ha].
Qed.

Lemma Undelegate_bounded bucketID st st' r :
  amounts_ok st -> Undelegate bucketID st = (st', r) -> amounts_ok st' /\ bucket_total st' <= bucket_total st.
Proof.
  intros Ha. unfold Undelegate, mbind, M_bind, get, lift, reject_if.
  destruct (find_bucket _ _) as [[m b]|e] eqn:Hf; [|intros [= <- _]; split; [done|lia]].
  apply find_bucket_ok in Hf as [Em Eb].
  destruct (Delegation b); intros [= <- _]; [|split; [done|lia]].
  eapply (same_value_bounded st _ m _ b (set_Delegation b None)); [done|done|exact Eb|done|done|apply Ha].
Qed.

(** ** Properties *)

Section staking_properties.
Context `{TO : TrieOps} `{C : Marshalizer UserKDA}.
Variable range : gmap string UserBucket -> list (string * UserBucket).
Hypothesis range_visits : forall m, range m ≡ₚ map_to_list m.

(** One call of a staking operation on the position of a user in [assetID],
    whether it succeeds or not, under the new staking flow, with the amount it
    freezes. *)
Inductive stake_step (assetID : string) (st : stakeState) : Z -> stakeState -> Prop :=
| step_freeze bucketID value opts st' r :
    NewStakingFlow opts = true ->
    Freeze assetID bucketID value opts st = (st', r) -> stake_step assetID st (Z.max 0 value) st'
| step_unfreeze bucketID epoch st' r :
    is_u32 epoch -> epoch <> DefaultUnstakedEpoch ->
    Unfreeze assetID bucketID epoch true st = (st', r) -> stake_step assetID st 0 st'
| step_delegate bucketID d st' r :
    Delegate bucketID d st = (st', r) -> stake_step assetID st 0 st'
| step_undelegate bucketID st' r :
    Undelegate bucketID st = (st', r) -> stake_step assetID st 0 st'
| step_withdraw (a : userAccount) epoch min w r :
    0 <= min -> epoch < DefaultUnstakedEpoch ->
    Withdraw range assetID epoch min {| wd_acc := a; wd_userKDA := st_userKDA st |} = (w, r) ->
    stake_step assetID st 0 (set_userKDA st (wd_userKDA w)).

(** A sequence of calls, with all the amounts they freeze. *)
Inductive stake_run (assetID : string) : stakeState -> Z -> stakeState -> Prop :=
| run_nil st : stake_run assetID st 0 st
| run_step st v st1 vs st' :
    stake_step assetID st v st1 -> stake_run assetID st1 vs st' -> stake_run assetID st (v + vs) st'.

Lemma set_kda_Balance_wf assetID u b :
  position_wf assetID u -> position_wf assetID (set_kda_Balance u b).
Proof. intros []. by split. Qed.

Lemma Withdraw_userKDA assetID epoch min (w w' : withdrawState) r :
  Withdraw range assetID epoch min w = (w', r) ->
  FrozenBalance (wd_userKDA w') = FrozenBalance (wd_userKDA w) /\
  Buckets (wd_userKDA w') = live epoch min <$> Buckets (wd_userKDA w).
Proof.
  unfold Withdraw. destruct (Buckets (wd_userKDA w)) as [m|] eqn:Em.
  - rewrite (withdraw_loop_spec _ _ m (range m)) by done. destruct (_ =? 0); [by intros [= <- _]|].
    destruct (SetUserKDA _ _ _ _). intros [= <- _]. by destruct (str_eqb _ _).
  - intros [= <- _]. cbn. by rewrite Em.
Qed.

Lemma Withdraw_keeps assetID epoch min (a : userAccount) w st r :
  0 <= min -> epoch < DefaultUnstakedEpoch -> position_wf assetID (st_userKDA st) ->
  Withdraw range assetID epoch min {| wd_acc := a; wd_userKDA := st_userKDA st |} = (w, r) ->
  stake_keeps assetID st (set_userKDA st (wd_userKDA w)).
Proof.
  intros Hm He Hwf [Hf Hb]%Withdraw_userKDA. cbn in *. split; [|split; [|done]]; cbn.
  - destruct (Buckets (st_userKDA st)) as [m|] eqn:Em; cbn in Hb.
    + destruct (live_position_wf _ _ _ _ _ Hm He Hwf Em) as [Hf' Hs']. split.
      * rewrite Hf. unfold staked_total. by rewrite Hb.
      * by rewrite Hb.
    + destruct Hwf as [Hf' Hs']. unfold staked_total in Hf'. rewrite Em in Hf', Hs'. split.
      * rewrite Hf. unfold staked_total. by rewrite Hb.
      * by rewrite Hb.
  - unfold totals_agree. cbn. rewrite Hf. reflexivity.
Qed.

Lemma Withdraw_bounded assetID epoch min (a : userAccount) w st r :
  amounts_ok st -> Withdraw range assetID epoch min {| wd_acc := a; wd_userKDA := st_userKDA st |} = (w, r) ->
  amounts_ok (set_userKDA st (wd_userKDA w)) /\ bucket_total (set_userKDA st (wd_userKDA w)) <= bucket_total st.
Proof.
  intros [Ht Hv] [_ Hb]%Withdraw_userKDA. cbn in Hb. unfold bucket_total. cbn. rewrite Hb.
  destruct (Buckets (st_userKDA st)) as [m|]; cbn in *; [|split; [split; cbn; [done|by rewrite Hb]|lia]].
  split; [split; cbn; [done|rewrite Hb; cbn; intros k b [Hk _]%map_lookup_filter_Some; exact (Hv k b Hk)]|].
  clear -Hv. unfold live. induction m as [|k v m Hk IH] using map_ind; [by rewrite map_filter_empty|].
  apply map_Forall_insert in Hv as [Hv0 Hv]; [|done]. specialize (IH Hv). cbn in Hv0.
  rewrite (msum_insert_new _ _ _ _ Hk). destruct (matured epoch min v) eqn:E.
  - rewrite map_filter_insert_False by (cbn; congruence). rewrite delete_id by done. lia.
  - rewrite map_filter_insert_True by done. rewrite msum_insert_new; [lia|].
    apply map_lookup_filter_None. by left.
Qed.

Lemma stake_step_keeps assetID st v st' :
  (InterestType (st_staking st) = StakingData_APRI -> single_bucket_asset assetID = true) ->
  position_wf assetID (st_userKDA st) -> stake_step assetID st v st' -> stake_keeps assetID st st'.
Proof.
  intros Hapr Hwf [].
  - by eapply Freeze_keeps.
  - by eapply Unfreeze_keeps.
  - by eapply Delegate_keeps.
  - by eapply Undelegate_keeps.
  - by eapply Withdraw_keeps.
Qed.

Lemma stake_step_bounded assetID st v st' :
  amounts_ok st -> bucket_total st + v <= MaxInt64 -> stake_step assetID st v st' ->
  amounts_ok st' /\ bucket_total st' <= bucket_total st + v /\ 0 <= v.
Proof.
  intros Ha Hb Hs. revert Hb. destruct Hs; intros Hb.
  - by eapply Freeze_bounded.
  - rewrite Z.add_0_r. split; [|split; [|done]]; by eapply Unfreeze_bounded.
  - rewrite Z.add_0_r. split; [|split; [|done]]; by eapply Delegate_bounded.
  - rewrite Z.add_0_r. split; [|split; [|done]]; by eapply Undelegate_bounded.
  - rewrite Z.add_0_r. split; [|split; [|done]]; by eapply Withdraw_bounded.
Qed.

Lemma stake_run_nonneg assetID st vs st' : stake_run assetID st vs st' -> 0 <= vs.
Proof. induction 1 as [|? v ? ? ? Hs _ IH]; [done|]. destruct Hs; lia. Qed.

Lemma stake_run_bounded assetID st vs st' :
  stake_run assetID st vs st' -> amounts_ok st -> bucket_total st + vs <= MaxInt64 ->
  amounts_ok st' /\ bucket_total st' <= bucket_total st + vs.
Proof.
  induction 1 as [st|st v st1 vs st' Hs Hrun IH]; intros Ha Hb; [split; [done|lia]|].
  pose proof (stake_run_nonneg _ _ _ _ Hrun).
  destruct (stake_step_bounded assetID st v st1) as (Ha1 & Hb1 & _); [done|lia|done|].
  destruct IH as [? ?]; [done|lia|]. split; [done|lia].
Qed.

Lemma stake_run_keeps assetID st vs st' :
  (InterestType (st_staking st) = StakingData_APRI -> single_bucket_asset assetID = true) ->
  position_wf assetID (st_userKDA st) -> stake_run assetID st vs st' -> stake_keeps assetID st st'.
Proof.
  intros Hapr Hwf Hrun. induction Hrun as [st|st v st1 vs st' Hs Hrun IH]; [by apply stake_keeps_refl|].
  destruct (stake_step_keeps _ _ _ _ Hapr Hwf Hs) as (Hwf1 & Ht1 & Hi1).
  destruct IH as (? & Ht2 & Hi2); [by rewrite Hi1|done|].
  split; [done|]. split; [|congruence]. unfold totals_agree in *. by rewrite Ht2.
Qed.

(** C1: under the new staking flow ([FixStakingBuckets]), and for an asset that
    pays APR interest only if it has one bucket per user (KLV and KFI have
    many), through any sequence of freezes, unfreezes, delegations and
    withdrawals, failed calls included, the frozen balance of a user is exactly
    the sum of the buckets that are still staked and the asset's total staked
    amount is exactly the stake of the others plus that balance, as long as the
    buckets, all amounts frozen and the stake of the others together fit a
    signed 64-bit number. *)
Theorem frozen_balance_invariant assetID st vs st' :
  (InterestType (st_staking st) = StakingData_APRI -> single_bucket_asset assetID = true) ->
  position_wf assetID (st_userKDA st) -> amounts_ok st ->
  let others := TotalStaked (st_staking st) - FrozenBalance (st_userKDA st) in
  0 <= others -> others + bucket_total st + vs <= MaxInt64 ->
  stake_run assetID st vs st' ->
  FrozenBalance (st_userKDA st') = staked_total (st_userKDA st') /\
  TotalStaked (st_staking st') = others + FrozenBalance (st_userKDA st').
Proof.
  intros Hapr Hwf Ha others Ho Hb Hrun.
  destruct (stake_run_keeps _ _ _ _ Hapr Hwf Hrun) as (Hwf' & Ht & _).
  destruct (stake_run_bounded assetID st vs st') as [Ha' Hb']; [done|done|lia|].
  pose proof (staked_total_bound _ Ha') as Hs. pose proof (stake_run_nonneg _ _ _ _ Hrun).
  assert (FrozenBalance (st_userKDA st') = staked_total (st_userKDA st')) as Hf
    by (rewrite (pw_frozen _ _ Hwf'); apply wrap_i64_id; ilia).
  split; [done|]. rewrite <- (wrap_i64_id (TotalStaked _)) by apply Ha'.
  rewrite <- (wrap_i64_id (others + _)) by (rewrite Hf; ilia). apply cong64_wrap.
  unfold totals_agree in Ht. fold others in Ht. rewrite <- Ht. cong_lia.
Qed.

(** A withdrawal pays out exactly the buckets whose waiting period is over
    and removes exactly those: the amount returned is the sum of their values
    and is what the balance grows by, every other bucket is kept unchanged,
    no staked bucket is ever paid out, and the order in which the bucket map
    is visited does not matter. *)
Theorem withdraw_exact assetID epoch min (w w' : withdrawState) amount m :
  0 <= min -> epoch < DefaultUnstakedEpoch -> Buckets (wd_userKDA w) = Some m ->
  Withdraw range assetID epoch min w = (w', Ok amount) ->
  amount = wrap_i64 (msum (withdrawable epoch min) m) /\
  Buckets (wd_userKDA w') = Some (live epoch min m) /\
  (forall k b, m !! k = Some b -> is_staked b = true -> live epoch min m !! k = Some b) /\
  (if str_eqb assetID KLVIdentifier
   then Balance (wd_acc w') = Balance (wd_acc w) +! amount /\
        kda_Balance (wd_userKDA w') = kda_Balance (wd_userKDA w)
   else Balance (wd_acc w') = Balance (wd_acc w) /\
        kda_Balance (wd_userKDA w') = kda_Balance (wd_userKDA w) +! amount).
Proof.
  intros Hm He Em H. pose proof (Withdraw_userKDA _ _ _ _ _ _ H) as [_ Hb].
  rewrite Em in Hb. unfold Withdraw in H. rewrite Em in H.
  rewrite (withdraw_loop_spec _ _ m (range m)) in H by done.
  destruct (_ =? 0); [done|].
  destruct (SetUserKDA _ _ _ _) as [a3 [x|e]] eqn:Hset; [|done].
  injection H as <- <-. split; [done|]. split; [done|]. split.
  { intros k b Hk Hs. apply map_lookup_filter_Some. split; [done|]. cbn.
    unfold matured, is_staked in *. zify_bools. rewrite Hs. apply Z.leb_gt. lia. }
  apply SetUserKDA_frame in Hset as (Hbal & _). cbn. rewrite Hbal. by destruct (str_eqb assetID KLVIdentifier).
Qed.
End staking_properties.

(** ** A concrete run: freeze 100, freeze 20 more, unfreeze, withdraw *)

Definition example_staking : StakingData :=
  {| InterestType := StakingData_FPRI; APR := []; FPR := []; CurrentFPRAmount := 0;
     TotalStaked := 500; MinEpochsToClaim := 1; MinEpochsToUnstake := 2; MinEpochsToWithdraw := 3 |}.
Definition example_opts (epoch : Z) : FreezeOptions :=
  {| BlockEpoch := epoch; BlockTime := 1000 * epoch; NewStakingFlow := true; KeepStakeHistory := true |}.
Definition example_st0 : stakeState := {| st_staking := example_staking; st_userKDA := emptyUserKDA |}.
Definition example_st1 : stakeState := (Freeze "DVK-34ZH" EmptyString 100 (example_opts 4) example_st0).1.
Definition example_st2 : stakeState := (Freeze "DVK-34ZH" EmptyString 20 (example_opts 7) example_st1).1.
Definition example_st3 : stakeState := (Unfreeze "DVK-34ZH" EmptyString 9 true example_st2).1.

Example example_run_totals :
  (FrozenBalance (st_userKDA example_st2), TotalStaked (st_staking example_st2),
   FrozenBalance (st_userKDA example_st3), TotalStaked (st_staking example_st3)) = (120, 620, 0, 500).
Proof. vm_compute. reflexivity. Qed.

Lemma empty_position_wf assetID : position_wf assetID emptyUserKDA.
Proof. by split. Qed.

Lemma frozen_balance_invariant_witness :
  FrozenBalance (st_userKDA example_st3) = staked_total (st_userKDA example_st3) /\
  TotalStaked (st_staking example_st3) = 500 + FrozenBalance (st_userKDA example_st3).
Proof.
  apply (@frozen_balance_invariant map_trie userkda_codec map_to_list
           (fun m => Permutation_refl _) "DVK-34ZH" example_st0 120 example_st3).
  - discriminate.
  - apply empty_position_wf.
  - split; [split; vm_compute; discriminate|cbn; intros k b Hk; discriminate].
  - vm_compute. discriminate.
  - vm_compute. discriminate.
  - eapply (run_step _ _ _ 100 _ 20); [eapply (step_freeze _ _ _ EmptyString 100 (example_opts 4)); [done|apply surjective_pairing]|].
    eapply (run_step _ _ _ 20 _ 0); [eapply (step_freeze _ _ _ EmptyString 20 (example_opts 7)); [done|apply surjective_pairing]|].
    eapply (run_step _ _ _ 0 _ 0); [eapply (step_unfreeze _ _ _ EmptyString 9); [by split|discriminate|apply surjective_pairing]|].
    apply run_nil.
Defined.

(** The account and position before and after the withdrawal at epoch 12. *)
Definition example_wd : @withdrawState map_trie :=
  {| wd_acc := example_account; wd_userKDA := st_userKDA example_st3 |}.
Definition example_wd' : @withdrawState map_trie :=
  (@Withdraw map_trie userkda_codec map_to_list "DVK-34ZH" 12 3 example_wd).1.

Lemma withdraw_exact_witness :
  msum (withdrawable 12 3) (default ∅ (Buckets (wd_userKDA example_wd))) = 120 /\
  kda_Balance (wd_userKDA example_wd') = 120 /\
  Buckets (wd_userKDA example_wd') = Some (live 12 3 (default ∅ (Buckets (wd_userKDA example_wd)))).
Proof.
  assert (@Withdraw map_trie userkda_codec map_to_list "DVK-34ZH" 12 3 example_wd =
          (example_wd', Ok 120)) as H.
  { rewrite (run_ok_spec 0 (Withdraw _ _ _ _ _)) by (vm_compute; reflexivity).
    f_equal. }
  destruct (@withdraw_exact map_trie userkda_codec map_to_list (fun m => Permutation_refl _)
    "DVK-34ZH" 12 3 example_wd example_wd' 120 (default ∅ (Buckets (wd_userKDA example_wd))))
    as (Ha & Hb & _ & Hc); [done|done|reflexivity|done|].
  split; [vm_compute; reflexivity|]. split; [|exact Hb].
  cbn in Hc. destruct Hc as [_ Hc]. rewrite Hc. vm_compute. reflexivity.
Defined.
