(* ===== verification/Rewards.v ===== *)
(** * Staking rewards

    The claim half of [data/state/userAccount.go].  An APR pool pays interest on
    the bucket by minting; an FPR pool shares the amounts deposited for an epoch
    among the stakes that were live then, recording what was paid in the pool's
    [TotalClaimed] counters. *)

From S2P Require Import Prelude Common Strconv GoStd Forks Tools Permissions KdaUtils KdaData DataTrie UserAccount Codec.
From S2P Require Import Balances Staking.
From Stdlib Require Import SpecFloat.
Local Open Scope Z_scope.

(** [transaction.ClaimContract_EnumClaimType]; proto3 enums are open. *)
Inductive EnumClaimType : Type :=
| ClaimContract_StakingClaim | ClaimContract_AllowanceClaim | ClaimContract_MarketClaim
| ClaimContract_Other (n : Z).

Abbreviation gainsMap := (gmap string Z).

Section rewards.
(** What the platform yields for a [float64] outside the [int64] range. *)
Variable oob : spec_float -> Z.
Variable fc : ForkController.

(** ** Interest *)

Definition computeAPR (initTime endTime amount currAPR : Z) : res error Z :=
  if negb (fc BigBucketsCompute) then
    let product := wrap_i64 (wrap_i64 ((endTime -! initTime) * amount) * currAPR) in
    Ok (Z.quot (f64_to_i64 oob (f64_div (f64_of_Z product) (f64_of_Z OneYearTimestamp)))
               HundredPercent)
  else
    let v := f64_of_Z (endTime -! initTime) in
    let v := big_mul v (f64_of_Z amount) in
    let v := big_mul v (f64_of_Z currAPR) in
    let v := big_quo v (f64_of_Z HundredPercent) in
    let v := big_quo v (f64_of_Z OneYearTimestamp) in
    if fc FixAuditChangesV6 && big_geb v (f64_of_Z MaxInt64) then Err ErrInt64Overflow
    else Ok (big_to_i64 v).

Record aprGains : Type := { g_values : gainsMap; g_err : option error }.

(** [aprGains.add] for the key [key]. *)
Definition aprGains_add (key : string) (initTime endTime amount currAPR : Z) (g : aprGains)
  : aprGains :=
  match g_err g with
  | Some _ => g
  | None =>
      match computeAPR initTime endTime amount currAPR with
      | Err e => {| g_values := g_values g; g_err := Some e |}
      | Ok gain =>
          if negb (fc FixAuditChangesV6) then
            {| g_values := map_add (g_values g) key gain; g_err := None |}
          else if gain <? 0 then {| g_values := g_values g; g_err := Some ErrNegativeValue |}
          else match SafeAddI64 (map_get (g_values g) key) (IInt64 gain) with
               | Ok v => {| g_values := <[key := v]> (g_values g); g_err := None |}
               | Err e => {| g_values := <[key := 0]> (g_values g); g_err := Some e |}
               end
      end
  end.

Definition aprGains_result (g : aprGains) : res error gainsMap :=
  match g_err g with Some e => Err e | None => Ok (g_values g) end.

(** The loop over the rate changes: the accumulated gains, the end of the last
    interval paid and the rate in force after it. *)
Fixpoint apr_loop (key : string) (blockTime amount : Z) (aprs : list APRData)
    (g : aprGains) (lastClaim currAPR : Z) : aprGains * Z * Z :=
  match aprs with
  | [] => (g, lastClaim, currAPR)
  | apr :: rest =>
      if blockTime <=? apr_Timestamp apr then (g, lastClaim, currAPR)
      else if lastClaim <? apr_Timestamp apr then
        apr_loop key blockTime amount rest
          (aprGains_add key lastClaim (apr_Timestamp apr) amount currAPR g)
          (apr_Timestamp apr) (apr_Value apr)
      else apr_loop key blockTime amount rest g lastClaim (apr_Value apr)
  end.

Definition computeClaimAPR (assetID : string) (blockTime : Z) (userKDA : UserKDA)
    (staking : StakingData) : res error gainsMap :=
  match uk_LastClaim userKDA with
  | None => Ok ∅
  | Some lc =>
      if lc_Timestamp lc =? 0 then Ok ∅
      else match default ∅ (Buckets userKDA) !! assetID with
           | None => Ok ∅
           | Some bucket =>
               let amount := bucket_Value bucket in
               if negb (is_staked bucket) then Ok ∅
               else if amount =? 0 then Ok ∅
               else
                 let '(g, lastClaim, currAPR) :=
                   apr_loop assetID blockTime amount (APR staking)
                     {| g_values := ∅; g_err := None |} (lc_Timestamp lc) 0 in
                 aprGains_result
                   (if 0 <? currAPR
                    then aprGains_add assetID lastClaim blockTime amount currAPR g else g)
           end
  end.

(** ** Shares of the deposited pools *)

Definition bucketStakeAt (bucket : UserBucket) (fprEpoch : Z) : option Z :=
  if StakedEpoch bucket <? fprEpoch then Some (bucket_Value bucket)
  else if negb (fc FixAuditChangesV5) then None
  else match list_find (fun s => seg_StakedEpoch s < fprEpoch <= seg_ThroughEpoch s)
                       (History bucket) with
       | Some (_, s) => Some (seg_Value s)
       | None => None
       end.

Definition bucketEligibleForFPR (bucket : UserBucket) (fprEpoch : Z) : bool :=
  if UnstakedEpoch bucket =? DefaultUnstakedEpoch then true
  else if fc FixAuditChangesV3 then fprEpoch <=? UnstakedEpoch bucket
  else negb (fc FixStakingBuckets).

(** The share before any cap. *)
Definition fpr_share (totalAmount totalStaked bucketValue : Z) : Z :=
  let v := f64_of_Z totalAmount in
  let v := big_quo v (f64_of_Z totalStaked) in
  let v := big_mul v (f64_of_Z bucketValue) in
  big_to_i64 v.

Definition calculateFPRAmount (totalAmount totalStaked bucketValue totalClaimed : Z) : Z :=
  if negb (fc BigBucketsCompute) then
    f64_to_i64 oob (f64_mul (f64_div (f64_of_Z totalAmount) (f64_of_Z totalStaked))
                            (f64_of_Z bucketValue))
  else if (totalAmount <=? 0) || (totalStaked <=? 0) then 0
  else
    let intAmount := fpr_share totalAmount totalStaked bucketValue in
    let intAmount := if totalAmount <? totalClaimed +! intAmount
                     then totalAmount -! totalClaimed else intAmount in
    if fc FPRComputeAndKdaFeeFlow && (intAmount <? 0) then 0 else intAmount.

Definition set_TotalClaimed (f : FPRData) (c : Z) : FPRData :=
  {| fpr_TotalAmount := fpr_TotalAmount f; fpr_TotalStaked := fpr_TotalStaked f;
     fpr_Epoch := fpr_Epoch f; fpr_TotalClaimed := c; fpr_KDAS := fpr_KDAS f |}.
Definition set_KDAS (f : FPRData) (m : gmap string KDAFPRData) : FPRData :=
  {| fpr_TotalAmount := fpr_TotalAmount f; fpr_TotalStaked := fpr_TotalStaked f;
     fpr_Epoch := fpr_Epoch f; fpr_TotalClaimed := fpr_TotalClaimed f; fpr_KDAS := m |}.

(** What one pool's accrual mutates. *)
Record accrual : Type := { ac_gains : gainsMap; ac_fpr : FPRData }.

(** One iteration of [range fpr.KDAS]. *)
Definition accrue_kda (stakedValue : Z) (s : accrual) (key : string) : accrual :=
  match fpr_KDAS (ac_fpr s) !! key with
  | None => s
  | Some value =>
      let intAmount := calculateFPRAmount (kfpr_TotalAmount value) (fpr_TotalStaked (ac_fpr s))
                         stakedValue (kfpr_TotalClaimed value) in
      {| ac_gains := map_add (ac_gains s) key intAmount;
         ac_fpr := set_KDAS (ac_fpr s)
           (<[key := {| kfpr_TotalAmount := kfpr_TotalAmount value;
                        kfpr_TotalClaimed := kfpr_TotalClaimed value +! intAmount |}]>
              (fpr_KDAS (ac_fpr s))) |}
  end.

Definition fpr_kdaID : string := if negb (fc ClaimKFI) then KFIIdentifier else KLVIdentifier.

(** [keys] is the order in which [range] visits the pool's assets. *)
Definition accrueBucketFPR (keys : list string) (bucket : UserBucket) : M accrual error unit := fun s =>
  let fpr := ac_fpr s in
  match bucketStakeAt bucket (fpr_Epoch fpr) with
  | None => (s, Ok tt)
  | Some stakedValue =>
      if negb (fc BigBucketsCompute) && (fpr_TotalStaked fpr <? stakedValue)
      then (s, Err ErrInconsistentStakingData)
      else if negb (bucketEligibleForFPR bucket (fpr_Epoch fpr)) then (s, Ok tt)
      else
        let s1 :=
          if 0 <? fpr_TotalAmount fpr then
            let intAmount := calculateFPRAmount (fpr_TotalAmount fpr) (fpr_TotalStaked fpr)
                               stakedValue (fpr_TotalClaimed fpr) in
            {| ac_gains := map_add (ac_gains s) fpr_kdaID intAmount;
               ac_fpr := set_TotalClaimed fpr (fpr_TotalClaimed fpr +! intAmount) |}
          else s in
        (foldl (accrue_kda stakedValue) s1 keys, Ok tt)
  end.

(** [range userKDA.Buckets] for one pool; [keys] gives the visiting order of
    the pool's assets for each bucket. *)
Fixpoint accrue_loop (keys : string -> list string) (order : list (string * UserBucket))
  : M accrual error unit :=
  match order with
  | [] => mret tt
  | (id, bucket) :: rest =>
      _ ← accrueBucketFPR (keys id) bucket; accrue_loop keys rest
  end.

(** The visiting orders Go's runtime chose: for the pool at position [i], the
    order of the buckets and, for each of them, of the pool's assets. *)
Record visit : Type := {
  bucket_order : nat -> list (string * UserBucket);
  asset_order : nat -> string -> list string;
}.

Definition pool_skipped (lastClaimEpoch blockEpoch : Z) (fpr : FPRData) : bool :=
  (fpr_Epoch fpr <=? lastClaimEpoch) || (blockEpoch <? fpr_Epoch fpr).

(** The loop over the pools, from position [i]: gains, updated pools, result. *)
Fixpoint fpr_loop (ord : visit) (lastClaimEpoch blockEpoch : Z) (i : nat) (gains : gainsMap)
    (pools : list FPRData) : gainsMap * list FPRData * res error unit :=
  match pools with
  | [] => (gains, [], Ok tt)
  | fpr :: rest =>
      if pool_skipped lastClaimEpoch blockEpoch fpr then
        let '(g, l, r) := fpr_loop ord lastClaimEpoch blockEpoch (S i) gains rest in
        (g, fpr :: l, r)
      else
        match accrue_loop (asset_order ord i) (bucket_order ord i)
                {| ac_gains := gains; ac_fpr := fpr |} with
        | (s, Err e) => (ac_gains s, ac_fpr s :: rest, Err e)
        | (s, Ok _) =>
            let '(g, l, r) := fpr_loop ord lastClaimEpoch blockEpoch (S i) (ac_gains s) rest in
            (g, ac_fpr s :: l, r)
        end
  end.

(** [computeClaimFPR] mutates the pools of [staking]. *)
Definition computeClaimFPR (ord : visit) (blockEpoch : Z) (userKDA : UserKDA)
  : M StakingData error gainsMap := fun staking =>
  match Buckets userKDA, uk_LastClaim userKDA with
  | Some _, Some lc =>
      if wrap_u32 (blockEpoch - lc_Epoch lc) <? MinEpochsToClaim staking
      then (staking, Err ErrClaimNotAvailable)
      else
        let '(g, l, r) := fpr_loop ord (lc_Epoch lc) blockEpoch 0 ∅ (FPR staking) in
        (set_FPR staking l, _ ← r; Ok g)
  | _, _ => (staking, Ok ∅)
  end.

Definition ComputeAvailableClaim (ord : visit) (assetID : string) (epoch blockTime : Z)
    (userKDA : UserKDA) : M StakingData error gainsMap :=
  staking ← get;
  if InterestType staking =? StakingData_APRI then
    lift (computeClaimAPR assetID blockTime userKDA staking)
  else if InterestType staking =? StakingData_FPRI then
    computeClaimFPR ord epoch userKDA
  else fail ErrInvalidStakeType.

(** ** Claims *)

Definition isAPRStakingWithV6 (staking : StakingData) : bool :=
  fc FixAuditChangesV6 && (InterestType staking =? StakingData_APRI).

(** Why an APR claim cannot credit its gain, [None] when it can. *)
Definition APRGainDropReason (staking : StakingData) (kda : KDAData) (gains : res error gainsMap)
    (assetID : string) : option error :=
  if negb (isAPRStakingWithV6 staking) then None
  else match gains with
       | Err e => if bool_decide (e = ErrInt64Overflow) then Some ErrInt64Overflow else None
       | Ok g =>
           let gain := map_get g assetID in
           if gain <=? 0 then None
           else if CirculatingSupply kda <? 0 then Some ErrNegativeCirculatingSupply
           else if (0 <? MaxSupply kda) && (MaxSupply kda -! CirculatingSupply kda <? gain)
           then Some ErrMaxSupplyExceeded
           else match SafeAddI64 (CirculatingSupply kda) (IInt64 gain) with
                | Ok _ => None
                | Err e => Some e
                end
       end.

Definition addAPRGainToSupply (kda : KDAData) (gain : Z) : KDAData :=
  set_supply kda (CirculatingSupply kda +! gain)
    (if MaxInt64 -! gain <? MintedValue kda then MaxInt64 else MintedValue kda +! gain)
    (BurnedValue kda).

Section claim.
Context `{TO : TrieOps}.

(** The objects a claim mutates. *)
Record claimState : Type := {
  cl_acc : userAccount; cl_staking : StakingData; cl_kda : KDAData;
}.
Abbreviation CM := (M claimState error).

Definition with_staking (m : M StakingData error gainsMap) : CM gainsMap := fun s =>
  let '(st, r) := m (cl_staking s) in
  ({| cl_acc := cl_acc s; cl_staking := st; cl_kda := cl_kda s |}, r).
Definition set_kda (k : KDAData) : CM unit :=
  modify (fun s => {| cl_acc := cl_acc s; cl_staking := cl_staking s; cl_kda := k |}).

Definition claimAPRStaking (assetID : string) (blockTime : Z) (userKDA : UserKDA) : CM gainsMap :=
  s ← get;
  let gains := computeClaimAPR assetID blockTime userKDA (cl_staking s) in
  match APRGainDropReason (cl_staking s) (cl_kda s) gains assetID with
  | Some reason => fail (ErrAPRGainDropped reason)
  | None =>
      g ← lift gains;
      _ ← set_kda (addAPRGainToSupply (cl_kda s) (map_get g assetID));
      mret g
  end.

Definition claimAllowance : CM gainsMap :=
  s ← get;
  _ ← modify (fun s => {| cl_acc := with_Allowance (cl_acc s) 0; cl_staking := cl_staking s;
                          cl_kda := cl_kda s |});
  mret (<[KLVIdentifier := Allowance (cl_acc s)]> ∅).

Definition Claim (ord : visit) (claimType : EnumClaimType) (assetID : string)
    (epoch blockTime : Z) (userKDA : UserKDA) : CM gainsMap :=
  match claimType with
  | ClaimContract_StakingClaim =>
      s ← get;
      if isAPRStakingWithV6 (cl_staking s) then claimAPRStaking assetID blockTime userKDA
      else
        amountToAdd ← with_staking (ComputeAvailableClaim ord assetID epoch blockTime userKDA);
        s ← get;
        if InterestType (cl_staking s) =? StakingData_APRI then
          let gain := map_get amountToAdd assetID in
          let k := cl_kda s in
          _ ← reject_if ((0 <? MaxSupply k) && (MaxSupply k <? CirculatingSupply k +! gain))
                ErrMaxSupplyExceeded;
          _ ← set_kda (set_supply k (CirculatingSupply k +! gain) (MintedValue k +! gain)
                         (BurnedValue k));
          mret amountToAdd
        else mret amountToAdd
  | ClaimContract_AllowanceClaim =>
      _ ← reject_if (negb (str_eqb assetID KLVIdentifier)) ErrAssetIDInvalid;
      claimAllowance
  | ClaimContract_MarketClaim => mret ∅
  | ClaimContract_Other _ => fail ErrInvalidClaimType
  end.
End claim.
End rewards.
