(* ===== verification/RewardClaims.v ===== *)
(** * Claims are exact

    [computeClaimFPR] walks the pools of an asset, the buckets of the user and
    the assets deposited in each pool, the last two in whatever order Go's
    [range] picks.  Here its result is characterised without any order: each
    counter of each pool grows by the sum of the user's shares, capped by what
    the pool has left, and the gains are exactly that growth.  An APR claim mints
    its gain, which the V6 rules check against the supply before anything is
    credited ([claimAPRStaking], [APRGainDropReason], [addAPRGainToSupply]). *)

From S2P Require Import Prelude Common Strconv GoStd Forks Tools Permissions KdaUtils KdaData DataTrie UserAccount Codec Balances Staking Rewards.
From Stdlib Require Import SpecFloat.
Local Open Scope Z_scope.

Section pool_shares.
Variable oob : spec_float -> Z.
Variable fc : ForkController.

(** ** The specification *)

(** The stake of a bucket that a pool of epoch [e] pays. *)
Definition fpr_price (bucket : UserBucket) (e : Z) : option Z :=
  match bucketStakeAt fc bucket e with
  | Some v => if bucketEligibleForFPR fc bucket e then Some v else None
  | None => None
  end.

(** A counter of a pool with [T] deposited and [S] staked after paying the
    stakes [vs]. *)
Definition claimed_total (T S c : Z) (vs : list Z) : Z :=
  if (T <=? 0) || (S <=? 0) then c
  else Z.max c (Z.min T (c + zsum (fpr_share T S <$> vs))).

Definition kda_after (S : Z) (vs : list Z) (d : KDAFPRData) : KDAFPRData :=
  {| kfpr_TotalAmount := kfpr_TotalAmount d;
     kfpr_TotalClaimed := claimed_total (kfpr_TotalAmount d) S (kfpr_TotalClaimed d) vs |}.

Definition pool_after (vs : list Z) (f : FPRData) : FPRData :=
  {| fpr_TotalAmount := fpr_TotalAmount f; fpr_TotalStaked := fpr_TotalStaked f;
     fpr_Epoch := fpr_Epoch f;
     fpr_TotalClaimed := claimed_total (fpr_TotalAmount f) (fpr_TotalStaked f) (fpr_TotalClaimed f) vs;
     fpr_KDAS := kda_after (fpr_TotalStaked f) vs <$> fpr_KDAS f |}.

(** What the pool pays in asset [k]. *)
Definition kda_gain (vs : list Z) (f : FPRData) (k : string) : Z :=
  match fpr_KDAS f !! k with
  | Some d => claimed_total (kfpr_TotalAmount d) (fpr_TotalStaked f) (kfpr_TotalClaimed d) vs
              - kfpr_TotalClaimed d
  | None => 0
  end.
Definition main_gain (vs : list Z) (f : FPRData) (k : string) : Z :=
  if decide (k = fpr_kdaID fc)
  then claimed_total (fpr_TotalAmount f) (fpr_TotalStaked f) (fpr_TotalClaimed f) vs
       - fpr_TotalClaimed f
  else 0.
Definition pool_gain (vs : list Z) (f : FPRData) (k : string) : Z :=
  main_gain vs f k + kda_gain vs f k.

(** The stakes of a user that the pool pays. *)
Definition priced (order : list (string * UserBucket)) (f : FPRData) : list Z :=
  omap (fun kb => fpr_price kb.2 (fpr_Epoch f)) order.

(** A counter of the pool has room for the shares in an [int64]. *)
Definition counter_fits (S : Z) (vs : list Z) (T c : Z) : Prop :=
  0 <= c <= MaxInt64 /\ is_i64 T /\
  Forall (fun v => 0 <= v /\ (0 < T -> 0 < S -> Z.max c T + fpr_share T S v <= MaxInt64)) vs.
Definition pool_fits (vs : list Z) (f : FPRData) : Prop :=
  counter_fits (fpr_TotalStaked f) vs (fpr_TotalAmount f) (fpr_TotalClaimed f) /\
  forall k d, fpr_KDAS f !! k = Some d ->
    counter_fits (fpr_TotalStaked f) vs (kfpr_TotalAmount d) (kfpr_TotalClaimed d).

(** ** Shares and caps *)

Lemma fpr_share_nonneg T S v : 0 <= T -> 0 <= S -> 0 <= v -> 0 <= fpr_share T S v.
Proof. intros. unfold fpr_share. auto with goint. Qed.

Lemma claimed_total_nil T S c : claimed_total T S c [] = c.
Proof. unfold claimed_total. destruct (_ || _); [done|]. change (zsum _) with 0. lia. Qed.

Lemma claimed_total_cons T S c v vs :
  Forall (Z.le 0) (v :: vs) ->
  claimed_total T S c (v :: vs) = claimed_total T S (claimed_total T S c [v]) vs.
Proof.
  intros H. unfold claimed_total. destruct (_ || _) eqn:E; [done|]. zify_bools.
  inversion_clear H as [|? ? Hv Hvs].
  assert (0 <= fpr_share T S v) by (apply fpr_share_nonneg; lia).
  assert (0 <= zsum (fpr_share T S <$> vs)).
  { apply zsum_nonneg, Forall_fmap. eapply Forall_impl; [exact Hvs|]. intros x Hx. cbn.
    apply fpr_share_nonneg; lia. }
  unfold zsum in *. cbn. lia.
Qed.

Lemma claimed_total_bounds T S c vs :
  c <= claimed_total T S c vs /\ (c <= T -> claimed_total T S c vs <= T).
Proof. unfold claimed_total. destruct (_ || _); lia. Qed.

Lemma claimed_total_perm T S c vs vs' :
  vs ≡ₚ vs' -> claimed_total T S c vs = claimed_total T S c vs'.
Proof. intros H. unfold claimed_total. by rewrite H. Qed.

Lemma counter_fits_head S v vs T c : counter_fits S (v :: vs) T c -> counter_fits S [v] T c.
Proof. intros (? & ? & H). inversion_clear H. split; [done|]. split; [done|]. by constructor. Qed.

Lemma counter_fits_values S vs T c : counter_fits S vs T c -> Forall (Z.le 0) vs.
Proof. intros (_ & _ & H). eapply Forall_impl; [exact H|]. by intros x [? _]. Qed.

Lemma counter_fits_step S v vs T c :
  counter_fits S (v :: vs) T c -> counter_fits S vs T (claimed_total T S c [v]).
Proof.
  intros (Hc & HT & H). inversion_clear H as [|? ? _ Hvs].
  assert (c <= claimed_total T S c [v] <= Z.max c T) as Hb
    by (unfold claimed_total; destruct (_ || _); lia).
  split; [ilia|]. split; [done|]. eapply Forall_impl; [exact Hvs|]. intros x [Hx Hfit]. split; [done|].
  intros HT0 HS0. specialize (Hfit HT0 HS0). lia.
Qed.

Hypothesis Hbig : fc BigBucketsCompute = true.
Hypothesis Hflow : fc FPRComputeAndKdaFeeFlow = true.

(** The code's capped share is the growth of the counter, and adding it to the
    counter does not wrap. *)
Lemma calculateFPRAmount_spec T S c v :
  counter_fits S [v] T c ->
  calculateFPRAmount oob fc T S v c = claimed_total T S c [v] - c /\
  c +! calculateFPRAmount oob fc T S v c = claimed_total T S c [v].
Proof.
  intros (Hc & HT & H). inversion_clear H as [|? ? [Hv Hfit] _].
  unfold calculateFPRAmount, claimed_total. rewrite Hbig, Hflow. cbn [negb andb].
  destruct ((T <=? 0) || (S <=? 0)) eqn:E.
  { rewrite Z.add_0_r, wrap_i64_id by ilia. lia. }
  zify_bools. specialize (Hfit ltac:(lia) ltac:(lia)).
  assert (0 <= fpr_share T S v) by (apply fpr_share_nonneg; lia).
  change (zsum _) with (fpr_share T S v + 0). rewrite (wrap_i64_id (c + _)) by ilia.
  destruct (Z.ltb_spec T (c + fpr_share T S v)).
  - rewrite (wrap_i64_id (T - c)) by ilia.
    destruct (Z.ltb_spec (T - c) 0); rewrite wrap_i64_id by ilia; lia.
  - destruct (Z.ltb_spec (fpr_share T S v) 0); [lia|]. rewrite wrap_i64_id by ilia. lia.
Qed.

(** ** One bucket *)

Lemma map_get_add_cong (m : gainsMap) k x k' :
  cong64 (map_get (map_add m k x) k') (map_get m k' + if decide (k' = k) then x else 0).
Proof.
  rewrite map_add_get. destruct (decide (k = k')) as [->|Hne].
  - rewrite decide_True by done. apply wrap_cong64.
  - rewrite decide_False by done. cong_lia.
Qed.

Lemma accrue_kda_spec v s key :
  (forall d, fpr_KDAS (ac_fpr s) !! key = Some d ->
     counter_fits (fpr_TotalStaked (ac_fpr s)) [v] (kfpr_TotalAmount d) (kfpr_TotalClaimed d)) ->
  let s' := accrue_kda oob fc v s key in
  ac_fpr s' = set_KDAS (ac_fpr s) (fpr_KDAS (ac_fpr s')) /\
  (forall k, fpr_KDAS (ac_fpr s') !! k =
     if decide (k = key) then kda_after (fpr_TotalStaked (ac_fpr s)) [v] <$> fpr_KDAS (ac_fpr s) !! k
     else fpr_KDAS (ac_fpr s) !! k) /\
  (forall k, cong64 (map_get (ac_gains s') k)
     (map_get (ac_gains s) k + if decide (k = key) then kda_gain [v] (ac_fpr s) k else 0)).
Proof.
  intros Hfit. destruct s as [g f]; cbn in *. unfold accrue_kda. cbn.
  destruct (fpr_KDAS f !! key) as [d|] eqn:Ed; cbn.
  - specialize (Hfit d eq_refl). destruct (calculateFPRAmount_spec _ _ _ _ Hfit) as [Hx ->].
    split; [done|]. split.
    + intros k. destruct (decide (k = key)) as [->|Hne].
      * by rewrite lookup_insert_eq, Ed.
      * by rewrite lookup_insert_ne.
    + intros k. rewrite map_get_add_cong. destruct (decide (k = key)) as [->|Hne]; [|reflexivity].
      unfold kda_gain. by rewrite Ed, Hx.
  - split; [by destruct f|]. split.
    + intros k. destruct (decide (k = key)) as [->|]; [by rewrite Ed|done].
    + intros k. unfold kda_gain. destruct (decide (k = key)) as [->|]; [rewrite Ed|]; cong_lia.
Qed.

Lemma accrue_kdas_spec v keys s :
  NoDup keys ->
  (forall k d, k ∈ keys -> fpr_KDAS (ac_fpr s) !! k = Some d ->
     counter_fits (fpr_TotalStaked (ac_fpr s)) [v] (kfpr_TotalAmount d) (kfpr_TotalClaimed d)) ->
  let s' := foldl (accrue_kda oob fc v) s keys in
  ac_fpr s' = set_KDAS (ac_fpr s) (fpr_KDAS (ac_fpr s')) /\
  (forall k, fpr_KDAS (ac_fpr s') !! k =
     if decide (k ∈ keys) then kda_after (fpr_TotalStaked (ac_fpr s)) [v] <$> fpr_KDAS (ac_fpr s) !! k
     else fpr_KDAS (ac_fpr s) !! k) /\
  (forall k, cong64 (map_get (ac_gains s') k)
     (map_get (ac_gains s) k + if decide (k ∈ keys) then kda_gain [v] (ac_fpr s) k else 0)).
Proof.
  intros Hnd. revert s. induction Hnd as [|key keys Hkey Hnd IH]; intros s Hfit; cbn.
  { split; [by destruct (ac_fpr s)|]. split; intros k; (rewrite decide_False by (by intros ?%elem_of_nil)); [done|cong_lia]. }
  destruct (accrue_kda_spec v s key) as (Hf1 & Hk1 & Hg1); [intros d Hd; eapply Hfit; [left|done]|].
  set (s1 := accrue_kda oob fc v s key) in *.
  assert (fpr_TotalStaked (ac_fpr s1) = fpr_TotalStaked (ac_fpr s)) as HS by (by rewrite Hf1).
  assert (forall k, k <> key -> fpr_KDAS (ac_fpr s1) !! k = fpr_KDAS (ac_fpr s) !! k) as Hsame.
  { intros k Hk. by rewrite Hk1, decide_False. }
  destruct (IH s1) as (Hf2 & Hk2 & Hg2).
  { intros k d Hk Hd. rewrite HS. eapply Hfit; [by right|]. rewrite <- Hsame; [done|].
    by intros ->. }
  cbn in *. set (s2 := foldl (accrue_kda oob fc v) s1 keys) in *.
  split; [rewrite Hf2, Hf1; done|]. split; intros k.
  - rewrite Hk2, HS. destruct (decide (k = key)) as [->|Hne].
    + rewrite decide_False by done. rewrite (decide_True (P := key ∈ key :: keys)) by left.
      by rewrite Hk1, decide_True.
    + rewrite (Hsame k Hne). destruct (decide (k ∈ keys)) as [Hin|Hin].
      * by rewrite decide_True by (by right).
      * rewrite decide_False; [done|]. by intros [|]%elem_of_cons.
  - rewrite Hg2, Hg1. destruct (decide (k = key)) as [->|Hne].
    + rewrite decide_False by done. rewrite (decide_True (P := key ∈ key :: keys)) by left. cong_lia.
    + assert (kda_gain [v] (ac_fpr s1) k = kda_gain [v] (ac_fpr s) k) as Hgk
        by (unfold kda_gain; by rewrite HS, (Hsame k Hne)).
      destruct (decide (k ∈ keys)) as [Hin|Hin].
      * rewrite Hgk, decide_True by (by right). cong_lia.
      * rewrite decide_False; [cong_lia|]. by intros [|]%elem_of_cons.
Qed.

(** Accruing one bucket applies its stake to every counter of the pool. *)
Definition price_list (bucket : UserBucket) (f : FPRData) : list Z :=
  match fpr_price bucket (fpr_Epoch f) with Some v => [v] | None => [] end.

Lemma pool_after_nil f : pool_after [] f = f.
Proof.
  destruct f as [T S e c m]. unfold pool_after. cbn. rewrite claimed_total_nil. f_equal.
  rewrite <- (map_fmap_id m) at 2. apply map_fmap_ext. intros k [T' c'] _.
  unfold kda_after. cbn. by rewrite claimed_total_nil.
Qed.

Lemma pool_gain_nil f k : pool_gain [] f k = 0.
Proof.
  unfold pool_gain, main_gain, kda_gain. rewrite claimed_total_nil.
  destruct (decide _), (fpr_KDAS f !! k); rewrite ?claimed_total_nil; lia.
Qed.

Lemma accrueBucketFPR_spec keys bucket s :
  keys ≡ₚ (map_to_list (fpr_KDAS (ac_fpr s))).*1 ->
  pool_fits (price_list bucket (ac_fpr s)) (ac_fpr s) ->
  exists s', accrueBucketFPR oob fc keys bucket s = (s', Ok tt) /\
    ac_fpr s' = pool_after (price_list bucket (ac_fpr s)) (ac_fpr s) /\
    forall k, cong64 (map_get (ac_gains s') k)
      (map_get (ac_gains s) k + pool_gain (price_list bucket (ac_fpr s)) (ac_fpr s) k).
Proof.
  intros Hkeys. unfold price_list, fpr_price, accrueBucketFPR. rewrite Hbig. cbn [negb andb].
  destruct (bucketStakeAt fc bucket (fpr_Epoch (ac_fpr s))) as [v|];
    [destruct (bucketEligibleForFPR fc bucket (fpr_Epoch (ac_fpr s)))|]; cbn [negb];
    [|intros _; exists s; rewrite pool_after_nil; split; [done|]; split; [done|]; intros k;
      rewrite pool_gain_nil; cong_lia ..].
  intros [Hmain Hkdas].
  destruct (calculateFPRAmount_spec _ _ _ _ Hmain) as [Hx Hc]. rewrite Hc.
  set (s1 := if 0 <? fpr_TotalAmount (ac_fpr s) then _ else s).
  assert (ac_fpr s1 = set_TotalClaimed (ac_fpr s)
    (claimed_total (fpr_TotalAmount (ac_fpr s)) (fpr_TotalStaked (ac_fpr s))
       (fpr_TotalClaimed (ac_fpr s)) [v])) as Hf1.
  { unfold s1. destruct (Z.ltb_spec 0 (fpr_TotalAmount (ac_fpr s))); [done|].
    unfold claimed_total. rewrite (proj2 (Z.leb_le _ _)) by done. cbn. by destruct (ac_fpr s). }
  assert (forall k, cong64 (map_get (ac_gains s1) k)
                      (map_get (ac_gains s) k + main_gain [v] (ac_fpr s) k)) as Hg1.
  { intros k. unfold s1, main_gain. destruct (Z.ltb_spec 0 (fpr_TotalAmount (ac_fpr s))); cbn.
    - rewrite map_get_add_cong, Hx. reflexivity.
    - unfold claimed_total. rewrite (proj2 (Z.leb_le _ _)) by done. cbn.
      destruct (decide _); cong_lia. }
  assert (NoDup keys) as Hnd by (rewrite Hkeys; apply NoDup_fst_map_to_list).
  destruct (accrue_kdas_spec v keys s1 Hnd) as (Hf2 & Hk2 & Hg2).
  { intros k d _. rewrite Hf1. cbn. apply Hkdas. }
  rewrite Hf1 in Hf2, Hk2, Hg2. cbn in Hf2, Hk2, Hg2.
  assert (forall k, k ∈ keys <-> fpr_KDAS (ac_fpr s) !! k <> None) as Hin.
  { intros k. rewrite Hkeys, list_elem_of_fmap. split.
    - intros ([k' d] & -> & Hd%elem_of_map_to_list). cbn. by rewrite Hd.
    - intros Hd. destruct (fpr_KDAS (ac_fpr s) !! k) as [d|] eqn:E; [|done].
      exists (k, d). by rewrite elem_of_map_to_list. }
  eexists. split; [done|]. split.
  - rewrite Hf2. unfold pool_after, set_KDAS, set_TotalClaimed. cbn. f_equal. apply map_eq.
    intros k. rewrite Hk2, lookup_fmap. destruct (decide (k ∈ keys)) as [|Hn]; [done|].
    destruct (fpr_KDAS (ac_fpr s) !! k) eqn:E; [|done]. destruct Hn. apply Hin. by rewrite E.
  - intros k. rewrite Hg2, Hg1. unfold pool_gain.
    assert ((if decide (k ∈ keys) then kda_gain [v] (set_TotalClaimed (ac_fpr s)
        (claimed_total (fpr_TotalAmount (ac_fpr s)) (fpr_TotalStaked (ac_fpr s))
           (fpr_TotalClaimed (ac_fpr s)) [v])) k else 0) = kda_gain [v] (ac_fpr s) k) as ->.
    { unfold kda_gain. cbn. destruct (decide (k ∈ keys)) as [|Hn]; [done|].
      destruct (fpr_KDAS (ac_fpr s) !! k) eqn:E; [|done]. destruct Hn. apply Hin. by rewrite E. }
    cong_lia.
Qed.

(** ** All buckets *)

Lemma pool_after_cons v vs f :
  Forall (Z.le 0) (v :: vs) -> pool_after (v :: vs) f = pool_after vs (pool_after [v] f).
Proof.
  intros H. destruct f as [T S e c m]. unfold pool_after. cbn -[claimed_total].
  rewrite claimed_total_cons by done. f_equal. rewrite <- map_fmap_compose.
  apply map_fmap_ext. intros k [T' c'] _. unfold kda_after. cbn -[claimed_total].
  by rewrite claimed_total_cons.
Qed.

Lemma pool_gain_cons v vs f k :
  Forall (Z.le 0) (v :: vs) ->
  pool_gain (v :: vs) f k = pool_gain [v] f k + pool_gain vs (pool_after [v] f) k.
Proof.
  intros H. unfold pool_gain, main_gain, kda_gain. cbn -[claimed_total].
  rewrite lookup_fmap. rewrite (claimed_total_cons (fpr_TotalAmount f)) by done.
  destruct (fpr_KDAS f !! k) as [d|]; cbn -[claimed_total];
    [rewrite (claimed_total_cons (kfpr_TotalAmount d)) by done|];
    destruct (decide _); lia.
Qed.

Lemma pool_fits_cons v vs f :
  pool_fits (v :: vs) f ->
  Forall (Z.le 0) (v :: vs) /\ pool_fits [v] f /\ pool_fits vs (pool_after [v] f).
Proof.
  intros [Hm Hk]. split; [by eapply counter_fits_values|]. split.
  - split; [by eapply counter_fits_head|]. intros k d Hd. eapply counter_fits_head. eauto.
  - split; cbn -[claimed_total]; [by apply counter_fits_step|].
    intros k d. rewrite lookup_fmap. intros (d0 & Hd0 & ->)%fmap_Some.
    cbn -[claimed_total]. apply counter_fits_step. eauto.
Qed.

Lemma pool_fits_nil vs f : pool_fits vs f -> pool_fits [] f.
Proof.
  intros [(? & ? & _) Hk]. split; [by split|]. intros k d Hd.
  destruct (Hk k d Hd) as (? & ? & _). by split.
Qed.

Lemma pool_after_keys vs f :
  (map_to_list (fpr_KDAS (pool_after vs f))).*1 ≡ₚ (map_to_list (fpr_KDAS f)).*1.
Proof.
  cbn. rewrite map_to_list_fmap, <- list_fmap_compose. apply eq_subrelation; [apply _|].
  apply list_fmap_ext. by intros ? [? ?].
Qed.

Lemma pool_after_priced order vs f : priced order (pool_after vs f) = priced order f.
Proof. done. Qed.

Lemma priced_cons id b order f : priced ((id, b) :: order) f = price_list b f ++ priced order f.
Proof. unfold priced, price_list. cbn. by destruct (fpr_price b (fpr_Epoch f)). Qed.

Lemma accrue_loop_spec keys order s :
  (forall id, keys id ≡ₚ (map_to_list (fpr_KDAS (ac_fpr s))).*1) ->
  pool_fits (priced order (ac_fpr s)) (ac_fpr s) ->
  exists s', accrue_loop oob fc keys order s = (s', Ok tt) /\
    ac_fpr s' = pool_after (priced order (ac_fpr s)) (ac_fpr s) /\
    forall k, cong64 (map_get (ac_gains s') k)
      (map_get (ac_gains s) k + pool_gain (priced order (ac_fpr s)) (ac_fpr s) k).
Proof.
  revert s. induction order as [|[id b] order IH]; intros s Hkeys Hfit.
  { exists s. cbn. rewrite pool_after_nil. split; [done|]. split; [done|]. intros k.
    rewrite pool_gain_nil. cong_lia. }
  rewrite priced_cons in *.
  assert (pool_fits (price_list b (ac_fpr s)) (ac_fpr s) /\
          pool_fits (priced order (ac_fpr s)) (pool_after (price_list b (ac_fpr s)) (ac_fpr s)) /\
          pool_after (price_list b (ac_fpr s) ++ priced order (ac_fpr s)) (ac_fpr s) =
            pool_after (priced order (ac_fpr s)) (pool_after (price_list b (ac_fpr s)) (ac_fpr s)) /\
          forall k, pool_gain (price_list b (ac_fpr s) ++ priced order (ac_fpr s)) (ac_fpr s) k =
            pool_gain (price_list b (ac_fpr s)) (ac_fpr s) k +
            pool_gain (priced order (ac_fpr s)) (pool_after (price_list b (ac_fpr s)) (ac_fpr s)) k)
    as (Hfit1 & Hfit2 & Hafter & Hgain).
  { unfold price_list in *. destruct (fpr_price b (fpr_Epoch (ac_fpr s))) as [v|]; cbn [app] in *.
    - apply pool_fits_cons in Hfit as (Hnn & ? & ?).
      split; [done|]. split; [done|]. split; [by apply pool_after_cons|].
      intros k. by apply pool_gain_cons.
    - rewrite pool_after_nil. split; [by eapply pool_fits_nil|]. split; [done|]. split; [done|].
      intros k. rewrite pool_gain_nil. lia. }
  destruct (accrueBucketFPR_spec (keys id) b s (Hkeys id) Hfit1) as (s1 & Hrun1 & Hf1 & Hg1).
  destruct (IH s1) as (s2 & Hrun2 & Hf2 & Hg2).
  { intros id'. rewrite Hf1, pool_after_keys. apply Hkeys. }
  { by rewrite Hf1, pool_after_priced. }
  exists s2. split; [|split].
  - cbn. unfold mbind, M_bind. by rewrite Hrun1.
  - rewrite Hf2, Hf1, pool_after_priced. done.
  - intros k. rewrite Hg2, Hg1, Hf1, pool_after_priced, Hgain. cong_lia.
Qed.

(** ** All pools *)

Section claim_all.
Variables (ord : visit) (m : gmap string UserBucket) (lastClaim blockEpoch : Z).
Hypothesis buckets_visited : forall i, bucket_order ord i ≡ₚ map_to_list m.

(** The outcome for one pool, in terms of the user's buckets only. *)
Definition pool_result (f : FPRData) : FPRData :=
  if pool_skipped lastClaim blockEpoch f then f
  else pool_after (priced (map_to_list m) f) f.
Definition pool_payment (k : string) (f : FPRData) : Z :=
  if pool_skipped lastClaim blockEpoch f then 0
  else pool_gain (priced (map_to_list m) f) f k.

Lemma priced_perm order f : order ≡ₚ map_to_list m -> priced order f ≡ₚ priced (map_to_list m) f.
Proof. intros H. unfold priced. by rewrite H. Qed.

Lemma pool_after_perm vs vs' f : vs ≡ₚ vs' -> pool_after vs f = pool_after vs' f.
Proof.
  intros H. unfold pool_after. rewrite (claimed_total_perm _ _ _ _ _ H). f_equal.
  apply map_fmap_ext. intros k d _. unfold kda_after. by rewrite (claimed_total_perm _ _ _ _ _ H).
Qed.

Lemma pool_gain_perm vs vs' f k : vs ≡ₚ vs' -> pool_gain vs f k = pool_gain vs' f k.
Proof.
  intros H. unfold pool_gain, main_gain, kda_gain. rewrite (claimed_total_perm _ _ _ _ _ H).
  destruct (fpr_KDAS f !! k); [by rewrite (claimed_total_perm _ _ _ _ _ H)|done].
Qed.

Lemma pool_fits_perm vs vs' f : vs ≡ₚ vs' -> pool_fits vs f -> pool_fits vs' f.
Proof.
  intros H. unfold pool_fits, counter_fits. intros [(? & ? & Hf) Hk].
  split; [by rewrite <- H|]. intros k d Hd. rewrite <- H. eauto.
Qed.

Lemma fpr_loop_spec i gains pools :
  (forall j f id, pools !! j = Some f ->
     asset_order ord (i + j) id ≡ₚ (map_to_list (fpr_KDAS f)).*1) ->
  Forall (fun f => pool_fits (priced (map_to_list m) f) f) pools ->
  exists gains', fpr_loop oob fc ord lastClaim blockEpoch i gains pools =
      (gains', pool_result <$> pools, Ok tt) /\
    forall k, cong64 (map_get gains' k) (map_get gains k + zsum (pool_payment k <$> pools)).
Proof.
  revert i gains. induction pools as [|f pools IH]; intros i gains Hord Hfit.
  { exists gains. split; [done|]. intros k. cbn. cong_lia. }
  inversion_clear Hfit as [|? ? Hf Hfs].
  assert (forall j f' id, pools !! j = Some f' ->
     asset_order ord (S i + j) id ≡ₚ (map_to_list (fpr_KDAS f')).*1) as Hord'.
  { intros j f' id Hj. rewrite Nat.add_succ_comm. by apply (Hord (S j)). }
  cbn [fpr_loop fmap list_fmap]. unfold pool_result at 1.
  destruct (pool_skipped lastClaim blockEpoch f) eqn:Hskip.
  - destruct (IH (S i) gains Hord' Hfs) as (g & -> & Hg). exists g. split; [done|].
    intros k. rewrite Hg, zsum_cons. unfold pool_payment at 2. rewrite Hskip. cong_lia.
  - pose proof (priced_perm _ f (buckets_visited i)) as Hp.
    destruct (accrue_loop_spec (asset_order ord i) (bucket_order ord i)
                {| ac_gains := gains; ac_fpr := f |}) as (s' & Hrun & Hf' & Hg'); cbn [ac_fpr ac_gains] in *.
    { intros id. specialize (Hord 0%nat f id eq_refl). by rewrite Nat.add_0_r in Hord. }
    { by eapply pool_fits_perm; [symmetry|]. }
    rewrite Hrun. destruct (IH (S i) (ac_gains s') Hord' Hfs) as (g & -> & Hg). exists g. split.
    + rewrite Hf'. by rewrite (pool_after_perm _ _ _ Hp).
    + intros k. rewrite Hg, Hg', (pool_gain_perm _ _ _ _ Hp), zsum_cons.
      unfold pool_payment at 2. rewrite Hskip. cong_lia.
Qed.

Lemma pool_payment_nonneg k f : 0 <= pool_payment k f.
Proof.
  unfold pool_payment, pool_gain, main_gain, kda_gain. destruct (pool_skipped _ _ _); [done|].
  set (vs := priced _ _).
  pose proof (claimed_total_bounds (fpr_TotalAmount f) (fpr_TotalStaked f) (fpr_TotalClaimed f) vs).
  destruct (fpr_KDAS f !! k) as [d|];
    [pose proof (claimed_total_bounds (kfpr_TotalAmount d) (fpr_TotalStaked f)
                   (kfpr_TotalClaimed d) vs)|]; destruct (decide _); lia.
Qed.
End claim_all.

(** Every gain is an [int64]. *)
Definition gains_i64 (g : gainsMap) : Prop := forall k, is_i64 (map_get g k).

Lemma map_add_i64 g k x : gains_i64 g -> gains_i64 (map_add g k x).
Proof. intros H k'. rewrite map_add_get. destruct (decide _); [apply wrap_i64_range|apply H]. Qed.

Lemma accrue_kdas_i64 v keys s :
  gains_i64 (ac_gains s) -> gains_i64 (ac_gains (foldl (accrue_kda oob fc v) s keys)).
Proof.
  revert s. induction keys as [|k keys IH]; intros s H; [done|]. cbn. apply IH.
  unfold accrue_kda. destruct (_ !! k); [by apply map_add_i64|done].
Qed.

Lemma accrue_loop_i64 keys order s :
  gains_i64 (ac_gains s) -> gains_i64 (ac_gains (accrue_loop oob fc keys order s).1).
Proof.
  revert s. induction order as [|[id b] order IH]; intros s H; [done|].
  cbn. unfold mbind, M_bind, accrueBucketFPR.
  destruct (bucketStakeAt _ _ _) as [v|]; [|by apply IH].
  destruct (negb _ && _); [done|]. destruct (negb _); [by apply IH|]. apply IH.
  apply accrue_kdas_i64. destruct (0 <? _); [by apply map_add_i64|done].
Qed.

Lemma fpr_loop_i64 ord lc be i gains pools :
  gains_i64 gains -> gains_i64 (fpr_loop oob fc ord lc be i gains pools).1.1.
Proof.
  revert i gains. induction pools as [|f pools IH]; intros i gains H; [done|]. cbn.
  destruct (pool_skipped lc be f).
  - specialize (IH (S i) gains H). by destruct (fpr_loop _ _ _ _ _ _ _ _) as [[? ?] ?].
  - pose proof (accrue_loop_i64 (asset_order ord i) (bucket_order ord i)
      {| ac_gains := gains; ac_fpr := f |} H) as Ha.
    destruct (accrue_loop _ _ _ _ _) as [s [x|e]]; [|done].
    specialize (IH (S i) _ Ha). by destruct (fpr_loop _ _ _ _ _ _ _ _) as [[? ?] ?].
Qed.

(** The conditions under which a claim is considered: the orders are orders
    of the user's buckets and of the pools' assets, and the shares fit. *)
Record claim_setting (ord : visit) (u : UserKDA) (staking : StakingData)
    (m : gmap string UserBucket) (lc : LastClaim) : Prop := {
  cs_buckets : Buckets u = Some m;
  cs_lastClaim : uk_LastClaim u = Some lc;
  cs_order : forall i, bucket_order ord i ≡ₚ map_to_list m;
  cs_assets : forall i f id, FPR staking !! i = Some f ->
              asset_order ord i id ≡ₚ (map_to_list (fpr_KDAS f)).*1;
  cs_fits : Forall (fun f => pool_fits (priced (map_to_list m) f) f) (FPR staking);
}.

Lemma computeClaimFPR_spec ord u staking m lc blockEpoch :
  claim_setting ord u staking m lc ->
  MinEpochsToClaim staking <= wrap_u32 (blockEpoch - lc_Epoch lc) ->
  exists gains,
    computeClaimFPR oob fc ord blockEpoch u staking =
      (set_FPR staking (pool_result m (lc_Epoch lc) blockEpoch <$> FPR staking), Ok gains) /\
    forall k, map_get gains k =
              wrap_i64 (zsum (pool_payment m (lc_Epoch lc) blockEpoch k <$> FPR staking)).
Proof.
  intros [Hb Hlc Hord Has Hfit] Hmin. unfold computeClaimFPR. rewrite Hb, Hlc.
  rewrite (proj2 (Z.ltb_ge _ _) Hmin).
  destruct (fpr_loop_spec ord m (lc_Epoch lc) blockEpoch Hord 0 ∅ (FPR staking) Has Hfit)
    as (g & Hrun & Hg).
  assert (gains_i64 g) as Hi.
  { pose proof (fpr_loop_i64 ord (lc_Epoch lc) blockEpoch 0 ∅ (FPR staking)) as H.
    rewrite Hrun in H. apply H. intros k. unfold map_get. rewrite lookup_empty. by split. }
  rewrite Hrun. exists g. split; [done|]. intros k.
  rewrite <- (wrap_i64_id (map_get g k)) by apply Hi. apply cong64_wrap. rewrite Hg.
  unfold map_get. rewrite lookup_empty. cbn [default]. cong_lia.
Qed.

(** A counter [c] that became [c'] by paying the stakes [vs] out of a deposit
    [T] for the stake [S]: by their shares, up to the deposit. *)
Definition paid_counter (vs : list Z) (S T c c' : Z) : Prop :=
  (T <= 0 \/ S <= 0 -> c' = c) /\
  (0 < T -> 0 < S -> c' = Z.max c (Z.min T (c + zsum (fpr_share T S <$> vs)))) /\
  c <= c' /\ (c <= T -> c' <= T).

Lemma claimed_total_paid vs S T c : paid_counter vs S T c (claimed_total T S c vs).
Proof.
  split; [|split; [|apply claimed_total_bounds]]; unfold claimed_total; intros.
  - rewrite (proj2 (orb_true_iff _ _)); [done|]. rewrite !Z.leb_le. lia.
  - by rewrite !(proj2 (Z.leb_gt _ _)) by done.
Qed.

(** What was claimed of a pool in asset [k] between [f] and [f']. *)
Definition claimed_in (k : string) (f f' : FPRData) : Z :=
  (if decide (k = fpr_kdaID fc) then fpr_TotalClaimed f' - fpr_TotalClaimed f else 0) +
  match fpr_KDAS f !! k, fpr_KDAS f' !! k with
  | Some d, Some d' => kfpr_TotalClaimed d' - kfpr_TotalClaimed d
  | _, _ => 0
  end.

Lemma payments_growth m lastClaim blockEpoch k pools :
  zsum (pool_payment m lastClaim blockEpoch k <$> pools) =
  zsum (zip_with (claimed_in k) pools (pool_result m lastClaim blockEpoch <$> pools)).
Proof.
  induction pools as [|f pools IH]; [done|]. cbn [fmap list_fmap zip_with]. unfold zsum in *. cbn. f_equal; [|exact IH].
  unfold pool_payment, pool_result, claimed_in, pool_gain, main_gain, kda_gain. destruct (pool_skipped _ _ _).
  - destruct (decide _), (fpr_KDAS f !! k); cbn; lia.
  - cbn -[claimed_total]. rewrite lookup_fmap. destruct (fpr_KDAS f !! k); done.
Qed.

(** ** Properties *)

(** C34: a claim on an FPR asset of a user with buckets and a last claim, no
    earlier than the least number of epochs after it, succeeds whatever order
    the buckets and the pool assets are visited in.  A pool of an epoch up to
    the last claim or after the block's is untouched.  In every other pool the
    deposits stay and each counter of what was claimed, the main one and that
    of every other asset deposited, grows by exactly the shares of the buckets
    the pool pays (the deposit over the total stake times the bucket, in the
    code's floating-point arithmetic), capped at what is left: it never falls, and one that did not
    exceed its deposit still does not.  The gain in an asset is the sum of what
    the counters kept in that asset grew by, when that sum is an int64.  From
    BigBucketsCompute and FPRComputeAndKdaFeeFlow on, and when for every
    counter the larger of the deposit and of what was claimed, plus one
    bucket's share, is an int64 (the code adds them unchecked, and overpays
    when they are not). *)
Theorem fpr_never_overpays ord u staking m lc blockEpoch :
  claim_setting ord u staking m lc ->
  MinEpochsToClaim staking <= wrap_u32 (blockEpoch - lc_Epoch lc) ->
  exists pools gains,
    computeClaimFPR oob fc ord blockEpoch u staking = (set_FPR staking pools, Ok gains) /\
    length pools = length (FPR staking) /\
    (forall i f, FPR staking !! i = Some f -> exists f', pools !! i = Some f' /\
       (fpr_Epoch f <= lc_Epoch lc \/ blockEpoch < fpr_Epoch f -> f' = f) /\
       (lc_Epoch lc < fpr_Epoch f <= blockEpoch ->
          (fpr_Epoch f', fpr_TotalAmount f', fpr_TotalStaked f') = (fpr_Epoch f, fpr_TotalAmount f, fpr_TotalStaked f) /\
          paid_counter (priced (map_to_list m) f) (fpr_TotalStaked f) (fpr_TotalAmount f)
            (fpr_TotalClaimed f) (fpr_TotalClaimed f') /\
          forall k, match fpr_KDAS f !! k, fpr_KDAS f' !! k with
                    | Some d, Some d' => kfpr_TotalAmount d' = kfpr_TotalAmount d /\
                        paid_counter (priced (map_to_list m) f) (fpr_TotalStaked f) (kfpr_TotalAmount d)
                          (kfpr_TotalClaimed d) (kfpr_TotalClaimed d')
                    | None, None => True
                    | _, _ => False
                    end)) /\
    (forall k, let growth := zsum (zip_with (claimed_in k) (FPR staking) pools) in
               is_i64 growth -> map_get gains k = growth).
Proof.
  intros Hset Hmin. destruct (computeClaimFPR_spec _ _ _ _ _ blockEpoch Hset Hmin) as (gains & Hrun & Hg).
  exists (pool_result m (lc_Epoch lc) blockEpoch <$> FPR staking), gains. split; [done|].
  split; [apply length_fmap|]. split.
  - intros i f Hi. exists (pool_result m (lc_Epoch lc) blockEpoch f). rewrite list_lookup_fmap, Hi. split; [done|].
    unfold pool_result, pool_skipped. split; intros He.
    + rewrite (proj2 (orb_true_iff _ _)); [done|]. rewrite Z.leb_le, Z.ltb_lt. lia.
    + rewrite (proj2 (Z.leb_gt _ _)), (proj2 (Z.ltb_ge _ _)) by lia. cbn [orb pool_after fpr_Epoch fpr_TotalAmount
        fpr_TotalStaked fpr_TotalClaimed fpr_KDAS]. split; [done|]. split; [apply claimed_total_paid|].
      intros k. rewrite lookup_fmap. destruct (fpr_KDAS f !! k) as [d|]; [|done]. cbn. split; [done|apply claimed_total_paid].
  - intros k growth Hi. rewrite Hg, payments_growth. by apply wrap_i64_id.
Qed.
End pool_shares.

(** ** A concrete claim: two buckets, one pool with two assets *)

Definition example_bucket (epoch value : Z) : UserBucket :=
  {| StakedAt := 0; StakedEpoch := epoch; UnstakedEpoch := DefaultUnstakedEpoch;
     bucket_Value := value; Delegation := None; History := [] |}.
Definition example_buckets : gmap string UserBucket :=
  <["aa" := example_bucket 2 100]> (<["bb" := example_bucket 4 50]> ∅).
Definition example_lc : LastClaim := {| lc_Timestamp := 30; lc_Epoch := 3 |}.
Definition example_position : UserKDA :=
  {| kda_Balance := 0; FrozenBalance := 150; uk_LastClaim := Some example_lc;
     Buckets := Some example_buckets; MIME := EmptyString; Metadata := EmptyString |}.
Definition example_pool : FPRData :=
  {| fpr_TotalAmount := 1000; fpr_TotalStaked := 300; fpr_Epoch := 5; fpr_TotalClaimed := 400;
     fpr_KDAS := <["DVK-34ZH" := {| kfpr_TotalAmount := 60; kfpr_TotalClaimed := 0 |}]> ∅ |}.
Definition example_fpr_staking : StakingData := set_FPR example_staking [example_pool].
Definition example_visit : visit :=
  {| bucket_order := fun _ => map_to_list example_buckets;
     asset_order := fun _ _ => ["DVK-34ZH"] |}.

(** [counter_fits] for a concrete pair of stakes. *)
Lemma counter_fits_2 S v1 v2 T c :
  (0 <=? c) && (c <=? MaxInt64) && bool_decide (is_i64 T) && (0 <=? v1) && (0 <=? v2) &&
  (Z.max c T + fpr_share T S v1 <=? MaxInt64) && (Z.max c T + fpr_share T S v2 <=? MaxInt64) = true ->
  counter_fits S [v1; v2] T c.
Proof. intros H. zify_bools. split; [done|]. split; [done|]. by repeat (constructor; [done|]). Qed.

Lemma example_setting :
  claim_setting all_forks example_visit example_position example_fpr_staking example_buckets example_lc.
Proof.
  split; [done..| |].
  - intros [|i] f id; [|done]. by intros [= <-].
  - apply Forall_singleton.
    assert (priced all_forks (map_to_list example_buckets) example_pool ≡ₚ [100; 50]) as Hp
      by (vm_compute; try reflexivity; apply Permutation_swap).
    eapply pool_fits_perm; [symmetry; exact Hp|]. split.
    + apply counter_fits_2. vm_compute. reflexivity.
    + intros k d. cbn. intros [[<- <-]|[_ ?]]%lookup_insert_Some; [|by rewrite lookup_empty in *].
      apply counter_fits_2. vm_compute. reflexivity.
Qed.

Lemma fpr_never_overpays_witness :
  exists pools gains,
    computeClaimFPR (fun _ => 0) all_forks example_visit 6 example_position example_fpr_staking =
      (set_FPR example_fpr_staking pools, Ok gains) /\
    map_get gains KLVIdentifier = 499 /\ map_get gains "DVK-34ZH" = 30 /\
    exists f', pools !! 0%nat = Some f' /\ 400 <= fpr_TotalClaimed f' <= 1000.
Proof.
  destruct (fpr_never_overpays (fun _ => 0) all_forks eq_refl eq_refl example_visit example_position
    example_fpr_staking example_buckets example_lc 6 example_setting) as (pools & gains & Hrun & _ & Hp & Hg).
  { vm_compute. discriminate. }
  exists pools, gains. split; [exact Hrun|].
  assert (pools = [from_option id example_pool (head (FPR
    (computeClaimFPR (fun _ => 0) all_forks example_visit 6 example_position example_fpr_staking).1))]) as E.
  { pose proof (f_equal (fun r => FPR r.1) Hrun) as E. cbn [fst FPR set_FPR] in E. rewrite <- E. vm_compute. reflexivity. }
  split; [|split].
  1-2: rewrite Hg; rewrite E; vm_compute; (reflexivity || split; discriminate).
  destruct (Hp 0%nat example_pool eq_refl) as (f' & Hf & _ & Hpaid). exists f'. split; [exact Hf|].
  destruct Hpaid as (_ & (_ & _ & Hlo & Hhi) & _); [vm_compute; split; [reflexivity|discriminate]|].
  split; [exact Hlo|]. apply Hhi. vm_compute. discriminate.
Defined.

(** Without room in the [int64] the sum of what was claimed and the share wraps
    and the cap does not apply: a pool that is spent pays 3.6e18 again. *)
Example spent_pool_overpays :
  calculateFPRAmount (fun _ => 0) all_forks 6000000000000000000 100 60 6000000000000000000 = 3600000000000000000.
Proof. vm_compute. reflexivity. Qed.

Section apr.
Variable oob : spec_float -> Z.
Variable fc : ForkController.
Hypothesis Hv6 : fc FixAuditChangesV6 = true.

Implicit Types (g : aprGains) (staking : StakingData) (k : KDAData).

Definition gain_ok (key : string) (v : gainsMap) : Prop := 0 <= map_get v key <= MaxInt64.

Lemma computeAPR_range i e a c x : fc BigBucketsCompute = true ->
  computeAPR oob fc i e a c = Ok x -> is_i64 x.
Proof.
  intros Hb. unfold computeAPR. rewrite Hb. cbn [negb]. destruct (_ && _); [done|].
  intros [= <-]. apply big_to_i64_range.
Qed.

Hypothesis Hbig : fc BigBucketsCompute = true.

Lemma aprGains_add_ok key i e a c g :
  gain_ok key (g_values g) -> gain_ok key (g_values (aprGains_add oob fc key i e a c g)).
Proof.
  intros Hg. unfold aprGains_add. destruct (g_err g); [done|].
  destruct (computeAPR oob fc i e a c) as [x|] eqn:Hx; [|done].
  apply computeAPR_range in Hx; [|done]. rewrite Hv6. cbn [negb].
  destruct (Z.ltb_spec x 0); [done|]. unfold SafeAddI64.
  destruct (safeAddI64 _ _) as [v|] eqn:Hs; cbn; unfold gain_ok in *.
  - apply safeAddI64_ok in Hs as [-> Hr]; [|ilia|done].
    rewrite map_get_insert. ilia.
  - rewrite map_get_insert. by split.
Qed.

Lemma apr_loop_ok key bt a aprs g lc cur :
  gain_ok key (g_values g) -> gain_ok key (g_values (apr_loop oob fc key bt a aprs g lc cur).1.1).
Proof.
  revert g lc cur. induction aprs as [|x aprs IH]; intros g lc cur Hg; [done|]. cbn.
  destruct (_ <=? _); [done|]. destruct (_ <? _); [|by apply IH]. by apply IH, aprGains_add_ok.
Qed.

(** The interest accrued by a claim is never negative. *)
Lemma computeClaimAPR_nonneg assetID bt u staking gains :
  computeClaimAPR oob fc assetID bt u staking = Ok gains -> gain_ok assetID gains.
Proof.
  assert (gain_ok assetID ∅) as H0 by (unfold gain_ok, map_get; rewrite lookup_empty; by split).
  unfold computeClaimAPR. destruct (uk_LastClaim u) as [lc|]; [|by intros [= <-]].
  destruct (_ =? 0); [by intros [= <-]|]. destruct (_ !! assetID) as [b|]; [|by intros [= <-]].
  destruct (negb _); [by intros [= <-]|]. destruct (_ =? 0); [by intros [= <-]|].
  pose proof (apr_loop_ok assetID bt (bucket_Value b) (APR staking) {| g_values := ∅; g_err := None |}
    (lc_Timestamp lc) 0 H0) as Hl.
  destruct (apr_loop _ _ _ _ _ _ _ _ _) as [[g l] c]. cbn in Hl. unfold aprGains_result.
  destruct (g_err _); [done|]. intros [= <-]. destruct (0 <? c); [by apply aprGains_add_ok|done].
Qed.

Lemma APRGainDropReason_none staking k gains assetID :
  isAPRStakingWithV6 fc staking = true -> is_i64 (CirculatingSupply k) -> is_i64 (MaxSupply k) ->
  is_i64 (map_get gains assetID) ->
  APRGainDropReason fc staking k (Ok gains) assetID = None ->
  0 < map_get gains assetID ->
  0 <= CirculatingSupply k /\ CirculatingSupply k + map_get gains assetID <= MaxInt64 /\
  (0 < MaxSupply k -> CirculatingSupply k + map_get gains assetID <= MaxSupply k).
Proof.
  intros HV Hc Hm Hg. unfold APRGainDropReason. rewrite HV. cbn [negb].
  set (gain := map_get gains assetID) in *. intros H Hpos.
  destruct (Z.leb_spec gain 0); [lia|]. destruct (Z.ltb_spec (CirculatingSupply k) 0); [done|].
  destruct (_ && _) eqn:E; [done|]. unfold SafeAddI64 in H.
  destruct (safeAddI64 _ _) as [v|] eqn:Hs; [|done]. apply safeAddI64_ok in Hs as [_ Hr]; [|done..].
  split; [done|]. split; [ilia|]. intros Hmax.
  rewrite (proj2 (Z.ltb_lt _ _) Hmax) in E. cbn in E. zify_bools.
  rewrite wrap_i64_id in E by ilia. lia.
Qed.

Context `{TO : TrieOps}.

Lemma claimAPRStaking_ok assetID bt u (s s' : claimState) gains :
  claimAPRStaking oob fc assetID bt u s = (s', Ok gains) ->
  computeClaimAPR oob fc assetID bt u (cl_staking s) = Ok gains /\
  APRGainDropReason fc (cl_staking s) (cl_kda s) (Ok gains) assetID = None /\
  s' = {| cl_acc := cl_acc s; cl_staking := cl_staking s;
          cl_kda := addAPRGainToSupply (cl_kda s) (map_get gains assetID) |}.
Proof.
  unfold claimAPRStaking, mbind, M_bind, get, lift, fail, set_kda, modify, mret, M_ret.
  destruct (computeClaimAPR _ _ _ _ _ _) as [g|e].
  - destruct (APRGainDropReason _ _ _ _ _) eqn:E; [done|]. by intros [= <- <-].
  - by destruct (APRGainDropReason _ _ _ _ _).
Qed.

(** ** Properties *)

(** An APR claim under the V6 rules either fails, and then leaves the
    account, the pool and the asset untouched, or mints exactly its gain,
    which is a non-negative int64: the circulating supply grows by it without
    overflow and stays within the asset's maximum supply, and the minted
    counter grows by it or saturates. *)
Theorem apr_claim_supply (ord : visit) assetID epoch bt u (s s' : claimState) r :
  InterestType (cl_staking s) = StakingData_APRI ->
  is_i64 (CirculatingSupply (cl_kda s)) -> is_i64 (MaxSupply (cl_kda s)) ->
  is_i64 (MintedValue (cl_kda s)) ->
  Claim oob fc ord ClaimContract_StakingClaim assetID epoch bt u s = (s', r) ->
  match r with
  | Err _ => s' = s
  | Ok gains =>
      let gain := map_get gains assetID in
      gain_ok assetID gains /\
      CirculatingSupply (cl_kda s') = CirculatingSupply (cl_kda s) + gain /\
      (0 < gain -> 0 < MaxSupply (cl_kda s) ->
         CirculatingSupply (cl_kda s') <= MaxSupply (cl_kda s')) /\
      MintedValue (cl_kda s') = Z.min MaxInt64 (MintedValue (cl_kda s) + gain) /\
      cl_staking s' = cl_staking s
  end.
Proof.
  intros Hint Hc Hm Hmint. unfold Claim. unfold mbind at 1, M_bind at 1, get at 1.
  assert (isAPRStakingWithV6 fc (cl_staking s) = true) as HV
    by (unfold isAPRStakingWithV6; by rewrite Hv6, Hint).
  rewrite HV. destruct r as [gains|e].
  - intros (Hg & Hr & ->)%claimAPRStaking_ok. cbn -[Z.min].
    apply computeClaimAPR_nonneg in Hg. unfold gain_ok in *.
    set (gain := map_get gains assetID) in *.
    assert (gain = 0 \/ 0 < gain) as [Hz|Hpos] by lia.
    + rewrite Hz. rewrite !wrap_i64_id by ilia.
      destruct (Z.ltb_spec (MaxInt64 - 0) (MintedValue (cl_kda s))); [ilia|].
      rewrite ?wrap_i64_id by ilia. repeat split; ilia.
    + destruct (APRGainDropReason_none _ _ gains assetID HV Hc Hm ltac:(ilia) Hr Hpos)
        as (H0 & H1 & H2). fold gain in H1, H2.
      rewrite (wrap_i64_id (CirculatingSupply _ + _)) by ilia.
      rewrite (wrap_i64_id (MaxInt64 - _)) by ilia.
      destruct (Z.ltb_spec (MaxInt64 - gain) (MintedValue (cl_kda s)));
        rewrite ?wrap_i64_id by ilia; repeat split; ilia.
  - unfold claimAPRStaking, mbind, M_bind, get, lift, fail, set_kda, modify, mret, M_ret.
    destruct (APRGainDropReason _ _ _ _ _); [by intros [= <- _]|].
    destruct (computeClaimAPR _ _ _ _ _ _); [done|]. by intros [= <- _].
Qed.
End apr.

(** ** A concrete claim: one year at ten percent on a million units *)

Definition example_apr_staking : StakingData :=
  {| InterestType := StakingData_APRI; APR := [{| apr_Timestamp := 500; apr_Epoch := 1; apr_Value := 1000 |}];
     FPR := []; CurrentFPRAmount := 0; TotalStaked := 1000000; MinEpochsToClaim := 0;
     MinEpochsToUnstake := 0; MinEpochsToWithdraw := 0 |}.
Definition example_apr_position : UserKDA :=
  {| kda_Balance := 0; FrozenBalance := 1000000;
     uk_LastClaim := Some {| lc_Timestamp := 1000; lc_Epoch := 1 |};
     Buckets := Some (<["AST-0001" := {| StakedAt := 1000; StakedEpoch := 1;
                          UnstakedEpoch := DefaultUnstakedEpoch; bucket_Value := 1000000;
                          Delegation := None; History := [] |}]> ∅);
     MIME := EmptyString; Metadata := EmptyString |}.
Definition example_claim_state (max : Z) : @claimState map_trie :=
  {| cl_acc := example_account; cl_staking := example_apr_staking;
     cl_kda := example_kda "AST-0001" 5000000 max 0 |}.
Definition example_year : Z := 1000 + OneYearTimestamp.
Definition example_no_order : visit :=
  {| bucket_order := fun _ => []; asset_order := fun _ _ => [] |}.
Definition example_apr_claim (max : Z) : @claimState map_trie * res error gainsMap :=
  Claim (fun _ => 0) all_forks example_no_order
    ClaimContract_StakingClaim "AST-0001" 2 example_year example_apr_position
    (example_claim_state max).

Example example_apr_gain :
  map_get (from_ok ∅ (example_apr_claim 5100000).2) "AST-0001" = 100000.
Proof. vm_compute. reflexivity. Qed.

Lemma apr_claim_supply_witness :
  is_ok (example_apr_claim 5100000).2 = true /\
  CirculatingSupply (cl_kda (example_apr_claim 5100000).1) <= 5100000 /\
  is_ok (example_apr_claim 5099999).2 = false /\
  (example_apr_claim 5099999).1 = example_claim_state 5099999.
Proof.
  assert (is_ok (example_apr_claim 5100000).2 = true) as Hok by (vm_compute; reflexivity).
  assert ((example_apr_claim 5099999).2 = Err (ErrAPRGainDropped ErrMaxSupplyExceeded)) as Herr
    by (vm_compute; reflexivity).
  split; [done|]. split; [|split; [by rewrite Herr|]].
  - destruct (apr_claim_supply (fun _ => 0) all_forks eq_refl eq_refl example_no_order "AST-0001" 2
      example_year example_apr_position (example_claim_state 5100000)
      (example_apr_claim 5100000).1 (Ok (from_ok ∅ (example_apr_claim 5100000).2))) as (_ & _ & H & _).
    1: reflexivity. 1-3: split; vm_compute; discriminate.
    + exact (run_ok_spec ∅ (example_apr_claim 5100000) Hok).
    + apply H; vm_compute; reflexivity.
  - apply (apr_claim_supply (fun _ => 0) all_forks eq_refl eq_refl example_no_order "AST-0001" 2
      example_year example_apr_position (example_claim_state 5099999)
      (example_apr_claim 5099999).1 (Err (ErrAPRGainDropped ErrMaxSupplyExceeded))).
    1: reflexivity. 1-3: split; vm_compute; discriminate.
    rewrite <- Herr. exact (surjective_pairing (example_apr_claim 5099999)).
Defined.
