(* ===== verification/StakeHistory.v ===== *)
(** * Stake history: top-ups do not lose or invent rewards

    A freeze rewrites the bucket it tops up, so the stake that earned earlier
    pools survives only in the segments [stakeHistoryAfterFreeze] records.
    The specification is a timeline: the stake a pool of epoch [e] should pay is
    whatever the freezes and unfreezes of epochs before [e] left live.  The
    refinement theorem says that the bucket prices every unclaimed pool exactly
    so. *)

From S2P Require Import Prelude Common Strconv GoStd Forks Tools Permissions KdaUtils KdaData DataTrie UserAccount Codec.
From S2P Require Import Balances Staking Rewards RewardClaims.
Local Open Scope Z_scope.

(** ** The timeline *)

Inductive stake_event : Type :=
| EvFreeze (epoch value : Z)
| EvUnfreeze (epoch : Z)
| EvClaim (epoch : Z).

Definition ev_epoch (ev : stake_event) : Z :=
  match ev with EvFreeze e _ => e | EvUnfreeze e => e | EvClaim e => e end.

(** The amount in the bucket and whether it is staked. *)
Definition stake_apply (s : Z * bool) (ev : stake_event) : Z * bool :=
  match ev with
  | EvFreeze _ v => (s.1 + v, true)
  | EvUnfreeze _ => (s.1, false)
  | EvClaim _ => s
  end.

Definition stake_after (evs : list stake_event) : Z * bool := foldl stake_apply (0, false) evs.

(** The stake a pool of epoch [e] pays: the events of earlier epochs. *)
Definition timeline_price (evs : list stake_event) (e : Z) : option Z :=
  let s := stake_after (filter (fun ev => ev_epoch ev < e) evs) in
  if s.2 then Some s.1 else None.

(** ** Runs of the account code *)

Definition set_LastClaim (st : stakeState) (lc : LastClaim) : stakeState :=
  set_userKDA st
    {| kda_Balance := kda_Balance (st_userKDA st); FrozenBalance := FrozenBalance (st_userKDA st);
       uk_LastClaim := Some lc; Buckets := Buckets (st_userKDA st); MIME := MIME (st_userKDA st);
       Metadata := Metadata (st_userKDA st) |}.

Definition claim_cursor (st : stakeState) : Z := LastClaim_GetEpoch (uk_LastClaim (st_userKDA st)).

Definition bucket_of (st : stakeState) (id : string) : option UserBucket :=
  default ∅ (Buckets (st_userKDA st)) !! id.

(** [history_run asset bucket evs st cur]: the successful operations [evs], in
    blocks of epochs up to [cur], took an account without that bucket to
    [st]. *)
Inductive history_run (assetID bucketID : string) : list stake_event -> stakeState -> Z -> Prop :=
| run_start st cur :
    bucket_of st (parsedBucketID assetID bucketID) = None -> 0 <= claim_cursor st <= cur ->
    history_run assetID bucketID [] st cur
| run_freeze evs st st' cur epoch value bt flow :
    history_run assetID bucketID evs st cur -> cur <= epoch ->
    (stake_after evs).1 + value <= MaxInt64 ->
    Freeze assetID bucketID value
      {| BlockEpoch := epoch; BlockTime := bt; NewStakingFlow := flow; KeepStakeHistory := true |} st
      = (st', Ok tt) ->
    history_run assetID bucketID (evs ++ [EvFreeze epoch value]) st' epoch
| run_unfreeze evs st st' cur epoch flow r :
    history_run assetID bucketID evs st cur -> cur <= epoch < DefaultUnstakedEpoch ->
    Unfreeze assetID bucketID epoch flow st = (st', Ok r) ->
    history_run assetID bucketID (evs ++ [EvUnfreeze epoch]) st' epoch
| run_claim evs st cur epoch bt :
    history_run assetID bucketID evs st cur -> cur <= epoch ->
    history_run assetID bucketID (evs ++ [EvClaim epoch])
      (set_LastClaim st {| lc_Timestamp := bt; lc_Epoch := epoch |}) epoch.

(** ** Lemmas on the timeline *)

Lemma stake_after_snoc evs ev : stake_after (evs ++ [ev]) = stake_apply (stake_after evs) ev.
Proof. unfold stake_after. by rewrite foldl_app. Qed.

Lemma timeline_price_snoc evs ev e :
  timeline_price (evs ++ [ev]) e =
  if decide (ev_epoch ev < e)
  then let s := stake_apply (stake_after (filter (fun x => ev_epoch x < e) evs)) ev in
       if s.2 then Some s.1 else None
  else timeline_price evs e.
Proof.
  unfold timeline_price. rewrite filter_app, filter_cons, filter_nil.
  destruct (decide (ev_epoch ev < e)); [by rewrite stake_after_snoc|by rewrite app_nil_r].
Qed.

Lemma filter_all_before evs cur e :
  Forall (fun ev => ev_epoch ev <= cur) evs -> cur < e ->
  filter (fun ev => ev_epoch ev < e) evs = evs.
Proof.
  intros H He. induction H as [|ev evs Hev _ IH]; [done|].
  rewrite filter_cons_True by lia. by rewrite IH.
Qed.

(** ** The bucket invariant *)

Section refinement.
Variable fc : ForkController.
Hypothesis Hv3 : fc FixAuditChangesV3 = true.
Hypothesis Hv5 : fc FixAuditChangesV5 = true.

Record bucket_wf (cur : Z) (b : UserBucket) : Prop := {
  bw_staked : StakedEpoch b <= cur;
  bw_history : Forall (fun s => seg_ThroughEpoch s <= StakedEpoch b) (History b);
  bw_unstaked : is_staked b = false -> StakedEpoch b <= UnstakedEpoch b <= cur;
}.

Definition segment_covers (e : Z) (s : StakeSegment) : Prop :=
  seg_StakedEpoch s < e <= seg_ThroughEpoch s.
#[local] Instance segment_covers_dec e s : Decision (segment_covers e s).
Proof. unfold segment_covers. apply _. Defined.

Definition history_price (h : list StakeSegment) (e : Z) : option Z :=
  match list_find (segment_covers e) h with Some (_, s) => Some (seg_Value s) | None => None end.

Lemma history_price_cons s h e :
  history_price (s :: h) e =
  if decide (segment_covers e s) then Some (seg_Value s) else history_price h e.
Proof.
  unfold history_price. cbn. destruct (decide (segment_covers e s)); [done|].
  by destruct (list_find (segment_covers e) h) as [[i x]|].
Qed.

Lemma history_price_none h e :
  Forall (fun s => seg_ThroughEpoch s < e) h -> history_price h e = None.
Proof.
  induction 1 as [|s h Hs _ IH]; [done|]. rewrite history_price_cons.
  rewrite decide_False; [done|]. unfold segment_covers. lia.
Qed.

(** Dropping the claimed segments hides no unclaimed pool. *)
Lemma history_price_filter h l e h' :
  l < e ->
  history_price (filter (fun s => l < seg_ThroughEpoch s) h ++ h') e =
  match history_price h e with Some v => Some v | None => history_price h' e end.
Proof.
  intros He. induction h as [|s h IH]; [done|]. rewrite filter_cons, history_price_cons.
  destruct (decide (l < seg_ThroughEpoch s)) as [Hl|Hl].
  - cbn [app]. rewrite history_price_cons, IH. by destruct (decide (segment_covers e s)).
  - rewrite IH. rewrite decide_False; [done|]. unfold segment_covers. lia.
Qed.

Lemma fpr_price_eq b e :
  fpr_price fc b e =
  if StakedEpoch b <? e
  then (if is_staked b || (e <=? UnstakedEpoch b) then Some (bucket_Value b) else None)
  else (if is_staked b || (e <=? UnstakedEpoch b) then history_price (History b) e else None).
Proof.
  unfold fpr_price, bucketStakeAt, bucketEligibleForFPR, history_price, is_staked. rewrite Hv3, Hv5.
  cbn [negb]. change (list_find _ (History b)) with (list_find (segment_covers e) (History b)).
  destruct (StakedEpoch b <? e); [by destruct (UnstakedEpoch b =? _)|].
  destruct (list_find _ _) as [[i s]|]; destruct (UnstakedEpoch b =? _); by try destruct (e <=? _).
Qed.

(** What a freeze at [epoch] records prices every unclaimed pool as the
    replaced bucket did. *)
Lemma history_after_freeze cur b epoch l e :
  bucket_wf cur b -> cur <= epoch -> l < e <= epoch ->
  history_price (stakeHistoryAfterFreeze b epoch l) e = fpr_price fc b e.
Proof.
  intros [Hs Hh Hu] Hcur He. rewrite fpr_price_eq. unfold stakeHistoryAfterFreeze.
  set (through := if negb (is_staked b) then UnstakedEpoch b else epoch).
  assert (forall h', history_price (filter (fun s => l < seg_ThroughEpoch s) (History b) ++ h') e =
            if StakedEpoch b <? e then history_price h' e
            else match history_price (History b) e with
                 | Some v => Some v | None => history_price h' e end) as Hkept.
  { intros h'. rewrite history_price_filter by lia. destruct (Z.ltb_spec (StakedEpoch b) e); [|done].
    rewrite (history_price_none (History b)); [done|].
    eapply Forall_impl; [exact Hh|]. cbn. lia. }
  assert ((is_staked b || (e <=? UnstakedEpoch b)) = (e <=? through)) as Hel.
  { unfold through. destruct (is_staked b); cbn; [symmetry; apply Z.leb_le; lia|done]. }
  rewrite Hel. destruct ((StakedEpoch b <? through) && (l <? through)) eqn:Hg.
  - rewrite Hkept, history_price_cons. zify_bools. unfold segment_covers. cbn.
    destruct (Z.ltb_spec (StakedEpoch b) e), (Z.leb_spec e through).
    + by rewrite decide_True by lia.
    + by rewrite decide_False by lia.
    + rewrite decide_False by lia. by destruct (history_price (History b) e).
    + lia.
  - rewrite <- (app_nil_r (filter _ _)), Hkept. apply andb_false_iff in Hg.
    destruct (Z.ltb_spec (StakedEpoch b) e), (Z.leb_spec e through); cbn.
    + exfalso. destruct Hg as [Hg|Hg]; zify_bools; lia.
    + done.
    + by destruct (history_price (History b) e).
    + assert (is_staked b = false \/ through = epoch) as [Hns| ->] by (unfold through; destruct (is_staked b); auto).
      * specialize (Hu Hns). unfold through in *. rewrite Hns in *. cbn in *. lia.
      * lia.
Qed.

(** The price of a bucket that may not exist. *)
Definition price_of (ob : option UserBucket) (e : Z) : option Z :=
  match ob with Some b => fpr_price fc b e | None => None end.

Record run_inv (id : string) (evs : list stake_event) (st : stakeState) (cur : Z) : Prop := {
  ri_epochs : Forall (fun ev => ev_epoch ev <= cur) evs;
  ri_cursor : 0 <= claim_cursor st <= cur;
  ri_value : default 0 (bucket_Value <$> bucket_of st id) = (stake_after evs).1 /\
             0 <= (stake_after evs).1 <= MaxInt64;
  ri_live : default false (is_staked <$> bucket_of st id) = (stake_after evs).2;
  ri_wf : forall b, bucket_of st id = Some b -> bucket_wf cur b;
  ri_price : forall e, claim_cursor st < e -> price_of (bucket_of st id) e = timeline_price evs e;
}.

Lemma Freeze_bucket assetID bucketID value opts st st' :
  Freeze assetID bucketID value opts st = (st', Ok tt) ->
  let id := parsedBucketID assetID bucketID in
  0 < value /\ claim_cursor st' = claim_cursor st /\
  bucket_of st' id = Some
    {| StakedAt := BlockTime opts; StakedEpoch := BlockEpoch opts;
       UnstakedEpoch := DefaultUnstakedEpoch;
       bucket_Value := default 0 (bucket_Value <$> bucket_of st id) +! value; Delegation := None;
       History := match bucket_of st id with
                  | Some b => if KeepStakeHistory opts
                              then stakeHistoryAfterFreeze b (BlockEpoch opts) (claim_cursor st)
                              else []
                  | None => [] end |}.
Proof.
  unfold Freeze, mbind, M_bind, reject_if, get, put. destruct (Z.leb_spec value 0); [done|].
  intros [= <-]. split; [lia|]. split; [done|]. unfold bucket_of. cbn. rewrite lookup_insert_eq.
  by destruct (default ∅ (Buckets (st_userKDA st)) !! _).
Qed.

Lemma Unfreeze_bucket assetID bucketID epoch flow st st' r :
  Unfreeze assetID bucketID epoch flow st = (st', Ok r) ->
  let id := parsedBucketID assetID bucketID in
  claim_cursor st' = claim_cursor st /\
  exists b, bucket_of st id = Some b /\ is_staked b = true /\
    bucket_of st' id = Some (set_Unstaked b epoch).
Proof.
  unfold Unfreeze, mbind, M_bind, get, lift.
  destruct (find_bucket _ _) as [[m b]|e] eqn:Hf; [|done].
  apply find_bucket_ok in Hf as [Em Eb]. unfold reject_if. destruct (_ || _) eqn:Hg; [done|].
  zify_bools. unfold put. intros [= <- _].
  assert (is_staked b = true) by (by apply Z.eqb_eq).
  split; [by destruct (flow && _)|]. exists b.
  unfold bucket_of. rewrite Em. cbn. split; [done|]. split; [done|].
  by destruct (flow && _); cbn; rewrite lookup_insert_eq.
Qed.

Lemma history_appended_wf cur b epoch l :
  bucket_wf cur b -> cur <= epoch ->
  Forall (fun s => seg_ThroughEpoch s <= epoch) (stakeHistoryAfterFreeze b epoch l).
Proof.
  intros [Hs Hh Hu] Hcur. unfold stakeHistoryAfterFreeze.
  assert (Forall (fun s => seg_ThroughEpoch s <= epoch)
            (filter (fun s => l < seg_ThroughEpoch s) (History b))) as Hk.
  { apply Forall_forall. intros s [_ Hin]%list_elem_of_filter.
    rewrite Forall_forall in Hh. specialize (Hh s Hin). lia. }
  destruct (_ && _); [|done]. apply Forall_app. split; [done|]. apply Forall_singleton. cbn.
  destruct (is_staked b); cbn; [lia|]. specialize (Hu eq_refl). lia.
Qed.

Lemma epochs_snoc evs ev cur :
  Forall (fun x => ev_epoch x <= cur) evs -> cur <= ev_epoch ev ->
  Forall (fun x => ev_epoch x <= ev_epoch ev) (evs ++ [ev]).
Proof.
  intros H Hc. apply Forall_app. split; [|by apply Forall_singleton].
  eapply Forall_impl; [exact H|]. cbn. lia.
Qed.

Lemma run_inv_freeze id assetID bucketID evs st st' cur epoch value bt flow :
  id = parsedBucketID assetID bucketID ->
  run_inv id evs st cur -> cur <= epoch -> (stake_after evs).1 + value <= MaxInt64 ->
  Freeze assetID bucketID value
    {| BlockEpoch := epoch; BlockTime := bt; NewStakingFlow := flow; KeepStakeHistory := true |} st
    = (st', Ok tt) ->
  run_inv id (evs ++ [EvFreeze epoch value]) st' epoch.
Proof.
  intros -> [He Hc [Hv Hv0] Hl Hw Hp] Hcur Hmax (Hpos & Hcur' & Hb)%Freeze_bucket.
  cbn in Hb. rewrite Hv, wrap_i64_id in Hb by ilia. split.
  - by eapply (epochs_snoc _ (EvFreeze epoch value)).
  - rewrite Hcur'. lia.
  - rewrite Hb, stake_after_snoc. cbn. lia.
  - rewrite Hb, stake_after_snoc. done.
  - intros b. rewrite Hb. intros [= <-]. split; cbn; [lia| |done].
    destruct (bucket_of st _) as [b0|]; [|constructor]. eapply history_appended_wf; eauto.
  - intros e Hlt. rewrite Hcur' in Hlt. rewrite Hb, timeline_price_snoc. cbn [price_of ev_epoch].
    rewrite fpr_price_eq. cbn [StakedEpoch UnstakedEpoch bucket_Value History].
    unfold is_staked. cbn [UnstakedEpoch]. rewrite Z.eqb_refl. cbn [orb].
    destruct (Z.ltb_spec epoch e).
    + rewrite decide_True by done. by rewrite (filter_all_before evs cur) by (done || lia).
    + rewrite decide_False by lia. rewrite <- Hp by done. destruct (bucket_of st _) as [b0|]; [|done].
      eapply history_after_freeze; eauto with lia.
Qed.

Lemma run_inv_unfreeze id assetID bucketID evs st st' cur epoch flow r :
  id = parsedBucketID assetID bucketID ->
  run_inv id evs st cur -> cur <= epoch < DefaultUnstakedEpoch ->
  Unfreeze assetID bucketID epoch flow st = (st', Ok r) ->
  run_inv id (evs ++ [EvUnfreeze epoch]) st' epoch.
Proof.
  intros -> [He Hc [Hv Hv0] Hl Hw Hp] Hcur (Hcur' & b & Hb0 & Hst & Hb)%Unfreeze_bucket.
  rewrite Hb0 in *. cbn in Hv, Hl. specialize (Hw b eq_refl).
  assert (is_staked (set_Unstaked b epoch) = false) as Hns.
  { apply Z.eqb_neq. cbn. lia. }
  split.
  - eapply (epochs_snoc _ (EvUnfreeze epoch)); [done|cbn; lia].
  - rewrite Hcur'. lia.
  - rewrite Hb, stake_after_snoc. cbn. lia.
  - rewrite Hb, stake_after_snoc. cbn. done.
  - intros b'. rewrite Hb. intros [= <-]. destruct Hw as [Hs Hh Hu]. split; cbn; [lia|done|lia].
  - intros e Hlt. rewrite Hcur' in Hlt. rewrite Hb, timeline_price_snoc. cbn [price_of ev_epoch].
    specialize (Hp e Hlt). cbn in Hp. rewrite fpr_price_eq in Hp |- *.
    rewrite Hns. rewrite Hst in Hp. cbn in Hp |- *.
    destruct (decide (epoch < e)).
    + rewrite (proj2 (Z.leb_gt e epoch)) by done. by destruct (StakedEpoch b <? e).
    + by rewrite (proj2 (Z.leb_le e epoch)) by lia.
Qed.

Lemma run_inv_claim id evs st cur epoch bt :
  run_inv id evs st cur -> cur <= epoch ->
  run_inv id (evs ++ [EvClaim epoch]) (set_LastClaim st {| lc_Timestamp := bt; lc_Epoch := epoch |}) epoch.
Proof.
  intros [He Hc [Hv Hv0] Hl Hw Hp] Hcur.
  change (bucket_of st id) with
    (bucket_of (set_LastClaim st {| lc_Timestamp := bt; lc_Epoch := epoch |}) id) in *.
  split.
  - by eapply (epochs_snoc _ (EvClaim epoch)).
  - unfold claim_cursor. cbn. lia.
  - by rewrite stake_after_snoc.
  - by rewrite stake_after_snoc.
  - intros b Hb. destruct (Hw b Hb) as [Hs Hh Hu]. split; [lia|done|]. intros Hns. specialize (Hu Hns). lia.
  - intros e. unfold claim_cursor at 1. cbn. intros Hlt. rewrite timeline_price_snoc. cbn [ev_epoch].
    rewrite decide_True by done. rewrite Hp by lia. done.
Qed.

Lemma history_run_inv assetID bucketID evs st cur :
  history_run assetID bucketID evs st cur ->
  run_inv (parsedBucketID assetID bucketID) evs st cur.
Proof.
  induction 1 as [st cur Hb Hc|evs st st' cur epoch value bt flow _ IH Hcur Hmax Hrun
                 |evs st st' cur epoch flow r _ IH Hcur Hrun|evs st cur epoch bt _ IH Hcur].
  - split; rewrite ?Hb; done.
  - by eapply run_inv_freeze.
  - by eapply run_inv_unfreeze.
  - by eapply run_inv_claim.
Qed.

(** ** Properties *)

(** C35: after any sequence of successful freezes (top-ups included) and
    unfreezes of one bucket that did not exist before, and of claims, in blocks
    of epochs that do not fall, the bucket prices every pool not yet claimed at
    exactly the stake the user had live before that pool's epoch: a top-up
    neither hides the pools the older stake earned nor lets the new stake share
    in them.  From FixAuditChangesV3 and V5 on, when every freeze keeps the
    stake history (its option KeepStakeHistory; before V5 a top-up hides the
    pools) and the stake stays an int64. *)
Theorem stake_history_refines_timeline assetID bucketID evs st cur e :
  history_run assetID bucketID evs st cur -> claim_cursor st < e ->
  price_of (bucket_of st (parsedBucketID assetID bucketID)) e = timeline_price evs e.
Proof. intros H%history_run_inv. apply H. Qed.
End refinement.

(** ** A concrete run: freeze 100 at epoch 4, top up by 20 at epoch 7, unfreeze at 9 *)

Definition example_events : list stake_event := [EvFreeze 4 100; EvFreeze 7 20; EvUnfreeze 9].

Lemma stake_history_refines_timeline_witness :
  (fun e => price_of all_forks (bucket_of example_st3 "DVK-34ZH") e) <$> [4; 5; 7; 8; 9; 10] =
  [None; Some 100; Some 100; Some 120; Some 120; None].
Proof.
  assert (history_run "DVK-34ZH" EmptyString example_events example_st3 9) as Hrun.
  { pose proof (run_ok_spec tt (Freeze "DVK-34ZH" EmptyString 100 (example_opts 4) example_st0)
      ltac:(vm_compute; reflexivity)) as H1.
    pose proof (run_ok_spec tt (Freeze "DVK-34ZH" EmptyString 20 (example_opts 7) example_st1)
      ltac:(vm_compute; reflexivity)) as H2.
    pose proof (run_ok_spec (None, 0) (Unfreeze "DVK-34ZH" EmptyString 9 true example_st2)
      ltac:(vm_compute; reflexivity)) as H3.
    assert (history_run "DVK-34ZH" EmptyString [] example_st0 0) as R0 by (by apply run_start).
    assert (history_run "DVK-34ZH" EmptyString [EvFreeze 4 100] example_st1 4) as R1.
    { refine (run_freeze _ _ [] _ _ 0 4 100 _ _ R0 _ _ H1); [lia|cbn; ilia]. }
    assert (history_run "DVK-34ZH" EmptyString [EvFreeze 4 100; EvFreeze 7 20] example_st2 7) as R2.
    { refine (run_freeze _ _ [EvFreeze 4 100] _ _ 4 7 20 _ _ R1 _ _ H2); [lia|cbn; ilia]. }
    refine (run_unfreeze _ _ [EvFreeze 4 100; EvFreeze 7 20] _ _ 7 9 _ _ R2 _ H3). by split. }
  assert (forall e, 0 < e -> price_of all_forks (bucket_of example_st3 "DVK-34ZH") e =
                             timeline_price example_events e) as H.
  { intros e He. apply (stake_history_refines_timeline all_forks eq_refl eq_refl "DVK-34ZH" EmptyString
      example_events example_st3 9 e Hrun). done. }
  cbn. rewrite !H by lia. vm_compute. reflexivity.
Defined.
