(* ===== verification/AccountsCache.v ===== *)
(** * The accounts cache

    [data/state/accountsCacher.go]: while the cache is enabled every account a
    block touches is loaded once, all handlers share the one object, and
    [SaveAll] writes the objects back in the order they were first loaded.
    With the cache disabled every load makes a fresh object and [Update...]
    writes it through.

    Accounts are mutable objects, so each kind of account has a heap; a handler
    holds locations.  The three kinds (users, applications, peers) are treated
    alike by the source and by one [pool] each here. *)

From S2P Require Import Prelude Common.
Local Open Scope Z_scope.

(** The accounts database below the cache ([state.AccountsAdapter]). [adb_Save]
    returns the account object as the save leaves it. *)
Class AccountsAdapter (A : Type) : Type := {
  adb : Type;
  addr_of : A -> string;
  adb_GetExisting : adb -> string -> res error A;
  adb_Load : adb -> string -> res error A;
  adb_Save : adb -> A -> adb * A * res error unit;
}.

(** What the cache relies on, for an observation [obs] of the accounts that a
    save does not change: a saved account is read back, other accounts are not
    affected, an account is stored under its own address. *)
Class AdapterLaws {A O : Type} (AA : AccountsAdapter A) (obs : A -> O) : Prop := {
  save_same : forall db a db' a', adb_Save db a = (db', a', Ok tt) ->
    exists b, adb_GetExisting db' (addr_of a) = Ok b /\ obs b = obs a;
  save_other : forall db a db' a' k, adb_Save db a = (db', a', Ok tt) -> k <> addr_of a ->
    adb_GetExisting db' k = adb_GetExisting db k;
  save_object : forall db a db' a', adb_Save db a = (db', a', Ok tt) ->
    addr_of a' = addr_of a /\ obs a' = obs a;
  get_addr : forall db k a, adb_GetExisting db k = Ok a -> addr_of a = k;
  load_addr : forall db k a, adb_Load db k = Ok a -> addr_of a = k;
  load_existing : forall db k a, adb_GetExisting db k = Ok a -> adb_Load db k = Ok a;
}.

Section pool.
Context {A : Type} `{AA : AccountsAdapter A}.

Record pool : Type := {
  adapter : adb;
  heap : list A;
  objMap : gmap string nat;
  objList : list string;
}.

Definition NewPool (db : adb) : pool :=
  {| adapter := db; heap := []; objMap := ∅; objList := [] |}.

Definition set_heap (p : pool) (h : list A) : pool :=
  {| adapter := adapter p; heap := h; objMap := objMap p; objList := objList p |}.
Definition set_adapter (p : pool) (d : adb) : pool :=
  {| adapter := d; heap := heap p; objMap := objMap p; objList := objList p |}.

(** [GetExistingUser], [LoadUser] and their KApp and peer siblings: the cached
    object, or a fresh one, remembered when the cache is enabled. *)
Definition fetch (load : adb -> string -> res error A) (cacheEnable : bool) (addr : string)
  : M pool error nat := fun p =>
  match objMap p !! addr with
  | Some l => (p, Ok l)
  | None =>
      match load (adapter p) addr with
      | Err e => (p, Err e)
      | Ok a =>
          let l := length (heap p) in
          let p1 := set_heap p (heap p ++ [a]) in
          (if cacheEnable
           then {| adapter := adapter p; heap := heap p1; objMap := <[addr := l]> (objMap p);
                   objList := objList p ++ [addr] |}
           else p1, Ok l)
      end
  end.

Definition GetExisting : bool -> string -> M pool error nat := fetch adb_GetExisting.
Definition Load : bool -> string -> M pool error nat := fetch adb_Load.

(** [SaveAccount] of the object at [l]. *)
Definition save_object_at (l : nat) : M pool error unit := fun p =>
  match heap p !! l with
  | None => (p, Err ErrAccNotFound)
  | Some a =>
      let '(db, a', r) := adb_Save (adapter p) a in
      ({| adapter := db; heap := <[l := a']> (heap p); objMap := objMap p;
          objList := objList p |}, r)
  end.

(** [UpdateUser], [UpdateKapp], [UpdatePeer]. *)
Definition Update (cacheEnable : bool) (l : nat) : M pool error unit :=
  if cacheEnable then mret tt else save_object_at l.

(** [SaveUser]: write through and forget the cached object. *)
Definition remove_first (k : string) (l : list string) : list string :=
  match list_find (fun x => x = k) l with
  | Some (i, _) => take i l ++ drop (S i) l
  | None => l
  end.
Definition SaveUser (l : nat) : M pool error unit :=
  p0 ← get;
  _ ← save_object_at l;
  match heap p0 !! l with
  | None => mret tt
  | Some a =>
      modify (fun p => {| adapter := adapter p; heap := heap p;
                          objMap := delete (addr_of a) (objMap p);
                          objList := remove_first (addr_of a) (objList p) |})
  end.

(** The loop of [SaveAll] over one list of cached addresses. *)
Fixpoint save_list (keys : list string) : M pool error unit :=
  match keys with
  | [] => mret tt
  | k :: rest =>
      p ← get;
      _ ← match objMap p !! k with
          | None => fail ErrAccNotFound
          | Some l => save_object_at l
          end;
      save_list rest
  end.

Definition reset_pool (p : pool) : pool :=
  {| adapter := adapter p; heap := heap p; objMap := ∅; objList := [] |}.

(** ** The invariant of one pool *)

Record pool_wf (p : pool) : Prop := {
  pw_nodup : NoDup (objList p);
  pw_dom : forall k, k ∈ objList p <-> is_Some (objMap p !! k);
  pw_object : forall k l, objMap p !! k = Some l -> exists a, heap p !! l = Some a /\ addr_of a = k;
}.

Lemma empty_pool_wf p : objMap p = ∅ -> objList p = [] -> pool_wf p.
Proof.
  intros Hm Hl. split; rewrite ?Hm, ?Hl; [constructor| |].
  - intros k. rewrite lookup_empty. split; [by intros ?%elem_of_nil|by intros [? ?]].
  - intros k l. by rewrite lookup_empty.
Qed.

(** Distinct addresses are distinct objects. *)
Lemma pool_no_alias p k k' l :
  pool_wf p -> objMap p !! k = Some l -> objMap p !! k' = Some l -> k = k'.
Proof.
  intros H Hk Hk'. destruct (pw_object _ H _ _ Hk) as (a & Ha & <-).
  destruct (pw_object _ H _ _ Hk') as (a' & Ha' & <-). congruence.
Qed.

Lemma fetch_wf (load : adb -> string -> res error A) enable addr p p' r :
  (forall db k a, load db k = Ok a -> addr_of a = k) ->
  pool_wf p -> fetch load enable addr p = (p', r) -> pool_wf p'.
Proof.
  intros Hload [Hn Hd Ho]. unfold fetch.
  destruct (objMap p !! addr) as [l|] eqn:E; [by intros [= <- _]|].
  destruct (load (adapter p) addr) as [a|e] eqn:Ea; [|by intros [= <- _]].
  assert (forall k l, objMap p !! k = Some l -> exists x, (heap p ++ [a]) !! l = Some x /\ addr_of x = k)
    as Ho'.
  { intros k l Hk. destruct (Ho k l Hk) as (x & Hx & Hax). exists x. split; [|done].
    by apply lookup_app_l_Some. }
  destruct enable; intros [= <- _]; [|by split].
  split; cbn.
  - apply NoDup_app. split; [done|]. split; [|apply NoDup_singleton].
    intros k Hk ->%list_elem_of_singleton. apply Hd in Hk. rewrite E in Hk. by destruct Hk.
  - intros k. rewrite elem_of_app, list_elem_of_singleton, Hd.
    destruct (decide (addr = k)) as [->|Hne].
    + rewrite lookup_insert_eq. split; [eauto|by right].
    + rewrite lookup_insert_ne by done. split; [|by left]. by intros [?|?].
  - intros k l [[<- <-]|[Hne Hk]]%lookup_insert_Some; [|by apply Ho'].
    exists a. split; [|by eapply Hload]. by rewrite lookup_app_r, Nat.sub_diag by lia.
Qed.

(** The object the cache hands out while it is enabled. *)
Lemma fetch_cached (load : adb -> string -> res error A) addr p p' l :
  fetch load true addr p = (p', Ok l) -> objMap p' !! addr = Some l.
Proof.
  unfold fetch. destruct (objMap p !! addr) as [l'|] eqn:E; [by intros [= <- <-]|].
  destruct (load _ _); [|done]. intros [= <- <-]. cbn. by rewrite lookup_insert_eq.
Qed.

Lemma fetch_hit (load : adb -> string -> res error A) enable addr p l :
  objMap p !! addr = Some l -> fetch load enable addr p = (p, Ok l).
Proof. unfold fetch. by intros ->. Qed.

(** A load keeps what was cached. *)
Lemma fetch_keeps (load : adb -> string -> res error A) enable addr p p' r k l :
  fetch load enable addr p = (p', r) -> objMap p !! k = Some l -> objMap p' !! k = Some l.
Proof.
  unfold fetch. destruct (objMap p !! addr) eqn:E; [by intros [= <- _]|].
  destruct (load _ _); [|by intros [= <- _]]. destruct enable; intros [= <- _]; [|done].
  cbn. intros Hk. rewrite lookup_insert_ne; [done|]. by intros ->; rewrite Hk in E.
Qed.

(** ** Saving *)

Context {O : Type} (obs : A -> O) {AL : AdapterLaws AA obs}.

(** What the node's state says about an address: the cached object if there
    is one, the stored account otherwise. *)
Definition view (p : pool) (k : string) : option O :=
  match objMap p !! k with
  | Some l => obs <$> heap p !! l
  | None => match adb_GetExisting (adapter p) k with Ok a => Some (obs a) | Err _ => None end
  end.

Definition stored (p : pool) (k : string) : option O :=
  match adb_GetExisting (adapter p) k with Ok a => Some (obs a) | Err _ => None end.

Lemma save_object_at_ok l p p' :
  save_object_at l p = (p', Ok tt) ->
  exists a a', heap p !! l = Some a /\ adb_Save (adapter p) a = (adapter p', a', Ok tt) /\
    heap p' = <[l := a']> (heap p) /\ objMap p' = objMap p /\ objList p' = objList p /\
    addr_of a' = addr_of a /\ obs a' = obs a.
Proof.
  unfold save_object_at. destruct (heap p !! l) as [a|]; [|done].
  destruct (adb_Save (adapter p) a) as [[db a'] r] eqn:Hs. intros [= <- ->].
  destruct (save_object _ _ _ _ Hs). exists a, a'. done.
Qed.

Lemma save_object_at_wf l p p' : pool_wf p -> save_object_at l p = (p', Ok tt) -> pool_wf p'.
Proof.
  intros [Hn Hd Ho] (a & a' & Ha & _ & Hh & Hm & Hl & Haddr & _)%save_object_at_ok.
  split; rewrite ?Hm, ?Hl; try done. intros k l' Hk.
  destruct (Ho k l' Hk) as (x & Hx & Hax). rewrite Hh.
  destruct (decide (l = l')) as [->|Hne].
  - exists a'. rewrite list_lookup_insert_eq by (by eapply lookup_lt_Some). split; [done|]. congruence.
  - exists x. by rewrite list_lookup_insert_ne.
Qed.

Lemma save_list_spec keys p p' :
  pool_wf p -> NoDup keys -> save_list keys p = (p', Ok tt) ->
  pool_wf p' /\ objMap p' = objMap p /\ objList p' = objList p /\
  (forall k, view p' k = view p k) /\
  (forall k, stored p' k = if decide (k ∈ keys) then view p k else stored p k).
Proof.
  revert p. induction keys as [|k keys IH]; intros p Hwf Hnd Hrun.
  { cbn in Hrun. unfold mret, M_ret in Hrun. injection Hrun as <-. repeat split; try done.
    all: try apply Hwf. }
  cbn in Hrun. unfold mbind, M_bind, get in Hrun.
  destruct (objMap p !! k) as [l|] eqn:El; [|done].
  destruct (save_object_at l p) as [p1 [[]|e]] eqn:Hs; [|done].
  pose proof (save_object_at_wf _ _ _ Hwf Hs) as Hwf1.
  apply save_object_at_ok in Hs as (a & a' & Ha & Hsv & Hh & Hm & Hl & Haddr & Hobs).
  inversion_clear Hnd as [|? ? Hk Hnd'].
  destruct (IH p1 Hwf1 Hnd' Hrun) as (Hwf' & Hm' & Hl' & Hv' & Hst').
  assert (addr_of a = k) as Hak by (destruct (pw_object _ Hwf _ _ El) as (x & Hx & <-); congruence).
  assert (forall j, view p1 j = view p j) as Hv1.
  { intros j. unfold view. rewrite Hm. destruct (objMap p !! j) as [l'|] eqn:Ej.
    - rewrite Hh. destruct (decide (l = l')) as [->|Hne].
      + rewrite list_lookup_insert_eq by (by eapply lookup_lt_Some). cbn. by rewrite Ha, Hobs.
      + by rewrite list_lookup_insert_ne.
    - rewrite (save_other _ _ _ _ j Hsv); [done|]. intros ->. congruence. }
  split; [done|]. split; [congruence|]. split; [congruence|].
  split; [intros j; by rewrite Hv', Hv1|]. intros j. rewrite Hst'.
  destruct (decide (j ∈ keys)) as [Hin|Hin].
  { rewrite decide_True by (by right). apply Hv1. }
  destruct (decide (j = k)) as [->|Hne].
  - rewrite decide_True by left. unfold stored.
    destruct (save_same _ _ _ _ Hsv) as (b & Hb & Hob). rewrite Hak in Hb. rewrite Hb.
    unfold view. rewrite El, Ha. cbn. by rewrite Hob.
  - rewrite decide_False; [|by intros [?|?]%elem_of_cons]. unfold stored.
    by rewrite (save_other _ _ _ _ j Hsv) by congruence.
Qed.

Lemma stored_after_save p p' k :
  pool_wf p -> save_list (objList p) p = (p', Ok tt) -> stored (reset_pool p') k = view p k.
Proof.
  intros Hwf Hs. destruct (save_list_spec _ _ _ Hwf (pw_nodup _ Hwf) Hs) as (_ & _ & _ & _ & Hst).
  change (stored (reset_pool p') k) with (stored p' k). rewrite Hst.
  destruct (decide (k ∈ objList p)) as [|Hn]; [done|]. unfold stored, view.
  destruct (objMap p !! k) eqn:E; [|done]. destruct Hn. apply (pw_dom _ Hwf). by rewrite E.
Qed.
End pool.
Arguments pool A {_}.

(** ** The cache of the three kinds of accounts *)

Section cache.
Context {U K P : Type} `{UA : AccountsAdapter U} `{KA : AccountsAdapter K} `{PA : AccountsAdapter P}.

Record accountsCache : Type := {
  cacheEnable : bool;
  users : pool U;
  kapps : pool K;
  peers : pool P;
}.
Abbreviation CacheM := (M accountsCache error).

Definition NewAccountsCacher (u : adb (A := U)) (k : adb (A := K)) (p : adb (A := P)) : accountsCache :=
  {| cacheEnable := false; users := NewPool u; kapps := NewPool k; peers := NewPool p |}.

(** Running an operation of one pool. *)
Definition on_users {B} (f : bool -> M (pool U) error B) : CacheM B := fun c =>
  let '(p, r) := f (cacheEnable c) (users c) in
  ({| cacheEnable := cacheEnable c; users := p; kapps := kapps c; peers := peers c |}, r).
Definition on_kapps {B} (f : bool -> M (pool K) error B) : CacheM B := fun c =>
  let '(p, r) := f (cacheEnable c) (kapps c) in
  ({| cacheEnable := cacheEnable c; users := users c; kapps := p; peers := peers c |}, r).
Definition on_peers {B} (f : bool -> M (pool P) error B) : CacheM B := fun c =>
  let '(p, r) := f (cacheEnable c) (peers c) in
  ({| cacheEnable := cacheEnable c; users := users c; kapps := kapps c; peers := p |}, r).

Definition GetExistingUser (addr : string) : CacheM nat := on_users (fun e => GetExisting e addr).
Definition GetExistingKapp (addr : string) : CacheM nat := on_kapps (fun e => GetExisting e addr).
Definition GetExistingPeer (addr : string) : CacheM nat := on_peers (fun e => GetExisting e addr).
Definition LoadUser (addr : string) : CacheM nat := on_users (fun e => Load e addr).
Definition LoadKApp (addr : string) : CacheM nat := on_kapps (fun e => Load e addr).
Definition LoadPeer (addr : string) : CacheM nat := on_peers (fun e => Load e addr).
Definition UpdateUser (l : nat) : CacheM unit := on_users (fun e => Update e l).
Definition UpdateKapp (l : nat) : CacheM unit := on_kapps (fun e => Update e l).
Definition UpdatePeer (l : nat) : CacheM unit := on_peers (fun e => Update e l).
Definition cache_SaveUser (l : nat) : CacheM unit := on_users (fun _ => SaveUser l).

(** [LoadKAppUncached]: the last committed state, a fresh object. *)
Definition LoadKAppUncached (addr : string) (c : accountsCache) : res error K :=
  adb_Load (adapter (kapps c)) addr.

Definition resetAllNoLock (enable : bool) (c : accountsCache) : accountsCache :=
  {| cacheEnable := enable; users := reset_pool (users c); kapps := reset_pool (kapps c);
     peers := reset_pool (peers c) |}.
Definition ResetAll (enable : bool) : CacheM unit := modify (resetAllNoLock enable).

Definition SaveAll : CacheM unit :=
  _ ← on_users (fun _ p => save_list (objList p) p);
  _ ← on_kapps (fun _ p => save_list (objList p) p);
  _ ← on_peers (fun _ p => save_list (objList p) p);
  modify (fun c => resetAllNoLock (cacheEnable c) c).

(** A handler assigning to the object at [l]. *)
Definition write_user (l : nat) (a : U) : CacheM unit :=
  modify (fun c => {| cacheEnable := cacheEnable c;
                      users := set_heap (users c) (<[l := a]> (heap (users c)));
                      kapps := kapps c; peers := peers c |}).
Definition write_kapp (l : nat) (a : K) : CacheM unit :=
  modify (fun c => {| cacheEnable := cacheEnable c; users := users c;
                      kapps := set_heap (kapps c) (<[l := a]> (heap (kapps c)));
                      peers := peers c |}).
Definition write_peer (l : nat) (a : P) : CacheM unit :=
  modify (fun c => {| cacheEnable := cacheEnable c; users := users c; kapps := kapps c;
                      peers := set_heap (peers c) (<[l := a]> (heap (peers c))) |}).

(** ** The invariant *)

Record cache_wf (c : accountsCache) : Prop := {
  cw_users : pool_wf (users c);
  cw_kapps : pool_wf (kapps c);
  cw_peers : pool_wf (peers c);
}.

Context {OU OK OP : Type} (obsU : U -> OU) (obsK : K -> OK) (obsP : P -> OP).
Context {UL : AdapterLaws UA obsU} {KL : AdapterLaws KA obsK} {PL : AdapterLaws PA obsP}.

Lemma write_heap_wf {A} `{AA : AccountsAdapter A} (p : pool A) l a a0 :
  pool_wf p -> heap p !! l = Some a0 -> addr_of a = addr_of a0 ->
  pool_wf (set_heap p (<[l := a]> (heap p))).
Proof.
  intros [Hn Hd Ho] Ha0 Haddr. split; cbn; [done..|]. intros k l' Hk.
  destruct (Ho k l' Hk) as (x & Hx & Hax). destruct (decide (l = l')) as [->|Hne].
  - exists a. rewrite list_lookup_insert_eq by (by eapply lookup_lt_Some). split; [done|]. congruence.
  - exists x. by rewrite list_lookup_insert_ne.
Qed.

(** One operation of the cache or of a handler on a loaded object. Saves are
    taken to succeed: a failed one aborts the block. *)
Inductive cache_step (c : accountsCache) : accountsCache -> Prop :=
| cs_get_user addr c' r : GetExistingUser addr c = (c', r) -> cache_step c c'
| cs_load_user addr c' r : LoadUser addr c = (c', r) -> cache_step c c'
| cs_get_kapp addr c' r : GetExistingKapp addr c = (c', r) -> cache_step c c'
| cs_load_kapp addr c' r : LoadKApp addr c = (c', r) -> cache_step c c'
| cs_get_peer addr c' r : GetExistingPeer addr c = (c', r) -> cache_step c c'
| cs_load_peer addr c' r : LoadPeer addr c = (c', r) -> cache_step c c'
| cs_update_user l c' : UpdateUser l c = (c', Ok tt) -> cache_step c c'
| cs_update_kapp l c' : UpdateKapp l c = (c', Ok tt) -> cache_step c c'
| cs_update_peer l c' : UpdatePeer l c = (c', Ok tt) -> cache_step c c'
| cs_save_user l c' : cache_SaveUser l c = (c', Ok tt) -> cache_step c c'
| cs_write_user l a a0 c' : heap (users c) !! l = Some a0 -> addr_of a = addr_of a0 ->
    write_user l a c = (c', Ok tt) -> cache_step c c'
| cs_write_kapp l a a0 c' : heap (kapps c) !! l = Some a0 -> addr_of a = addr_of a0 ->
    write_kapp l a c = (c', Ok tt) -> cache_step c c'
| cs_write_peer l a a0 c' : heap (peers c) !! l = Some a0 -> addr_of a = addr_of a0 ->
    write_peer l a c = (c', Ok tt) -> cache_step c c'
| cs_reset enable c' : ResetAll enable c = (c', Ok tt) -> cache_step c c'
| cs_save_all c' : SaveAll c = (c', Ok tt) -> cache_step c c'.

Lemma reset_wf enable c : cache_wf (resetAllNoLock enable c).
Proof. split; by apply empty_pool_wf. Qed.

Lemma remove_first_not_in k l : k ∉ l -> remove_first k l = l.
Proof.
  unfold remove_first. intros H. destruct (list_find _ l) as [[i x]|] eqn:E; [|done].
  apply list_find_Some in E as (Hi & -> & _). destruct H. by eapply list_elem_of_lookup_2.
Qed.

Lemma remove_first_spec k l :
  NoDup l -> NoDup (remove_first k l) /\ forall x, x ∈ remove_first k l <-> x ∈ l /\ x <> k.
Proof.
  intros Hn. unfold remove_first. destruct (list_find (fun x => x = k) l) as [[i x]|] eqn:E.
  - apply list_find_Some in E as (Hi & -> & _).
    rewrite <- (take_drop_middle l i k Hi) in Hn.
    apply NoDup_app in Hn as (Hn1 & Hn2 & Hn3). inversion_clear Hn3 as [|? ? Hk Hn4].
    assert (forall y, y ∈ take i l ++ drop (S i) l <-> y ∈ l /\ y <> k) as Hin.
    { intros y. rewrite <- (take_drop_middle l i k Hi) at 3. rewrite !elem_of_app, elem_of_cons.
      split; [|naive_solver]. intros [Hy|Hy]; split; auto; intros ->; [|done].
      eapply Hn2; [done|left]. }
    split; [|exact Hin]. apply NoDup_app. split; [done|]. split; [|done].
    intros y Hy Hy'. eapply Hn2; [done|by right].
  - apply list_find_None in E. rewrite Forall_forall in E. split; [done|]. intros x. split; [|by intros []].
    intros Hx. split; [done|]. by apply E.
Qed.

Lemma SaveUser_wf (l : nat) (p p' : pool U) :
  pool_wf p -> SaveUser l p = (p', Ok tt) -> pool_wf p'.
Proof.
  intros Hwf. unfold SaveUser, mbind, M_bind, get, modify.
  destruct (save_object_at l p) as [p1 [[]|e]] eqn:Hs; [|done].
  pose proof (save_object_at_wf obsU _ _ _ Hwf Hs) as [Hn Hd Ho].
  destruct (heap p !! l) as [a|]; intros [= <-]; [|by split].
  destruct (remove_first_spec (addr_of a) (objList p1) Hn) as [Hn' Hin].
  split; cbn; [done| |].
  - intros k. rewrite Hin, Hd. destruct (decide (addr_of a = k)) as [<-|Hne].
    + rewrite lookup_delete_eq. split; [by intros []|by intros [? ?]].
    + rewrite lookup_delete_ne by done. naive_solver.
  - intros k l' [Hne Hk]%lookup_delete_Some. by apply Ho.
Qed.

Lemma Update_wf {A} `{AA : AccountsAdapter A} {O} (obs : A -> O) {AL : AdapterLaws AA obs}
    enable l (p p' : pool A) :
  pool_wf p -> Update enable l p = (p', Ok tt) -> pool_wf p'.
Proof.
  intros Hwf. unfold Update. destruct enable; [by intros [= <-]|]. by apply (save_object_at_wf obs).
Qed.

Lemma SaveAll_pools c c' :
  SaveAll c = (c', Ok tt) ->
  exists pu pk pp,
    save_list (objList (users c)) (users c) = (pu, Ok tt) /\
    save_list (objList (kapps c)) (kapps c) = (pk, Ok tt) /\
    save_list (objList (peers c)) (peers c) = (pp, Ok tt) /\
    c' = resetAllNoLock (cacheEnable c)
           {| cacheEnable := cacheEnable c; users := pu; kapps := pk; peers := pp |}.
Proof.
  unfold SaveAll, mbind, M_bind, on_users, on_kapps, on_peers, modify.
  destruct (save_list (objList (users c)) (users c)) as [pu [[]|]] eqn:Hu; [|done]. cbn.
  destruct (save_list (objList (kapps c)) (kapps c)) as [pk [[]|]] eqn:Hk; [|done]. cbn.
  destruct (save_list (objList (peers c)) (peers c)) as [pp [[]|]] eqn:Hp; [|done]. cbn.
  intros [= <-]. eauto 8.
Qed.

Ltac one_pool :=
  match goal with
  | H : context [on_users ?f ?c] |- _ =>
      unfold on_users in H; destruct (f (cacheEnable c) (users c)) as [? ?] eqn:?; simplify_eq
  | H : context [on_kapps ?f ?c] |- _ =>
      unfold on_kapps in H; destruct (f (cacheEnable c) (kapps c)) as [? ?] eqn:?; simplify_eq
  | H : context [on_peers ?f ?c] |- _ =>
      unfold on_peers in H; destruct (f (cacheEnable c) (peers c)) as [? ?] eqn:?; simplify_eq
  end; split; cbn; try done.

Lemma cache_step_wf c c' : cache_wf c -> cache_step c c' -> cache_wf c'.
Proof.
  intros [Hu Hk Hp] Hstep. destruct Hstep as
    [? ? ? H|? ? ? H|? ? ? H|? ? ? H|? ? ? H|? ? ? H|? ? H|? ? H|? ? H|? ? H|? ? ? ? Ha0 Haddr H
    |? ? ? ? Ha0 Haddr H|? ? ? ? Ha0 Haddr H|? ? H|? H].
  1-10: unfold GetExistingUser, LoadUser, GetExistingKapp, LoadKApp, GetExistingPeer, LoadPeer,
    UpdateUser, UpdateKapp, UpdatePeer, cache_SaveUser in H; one_pool.
  1,3,5: eapply fetch_wf; [by apply get_addr| |eassumption]; done.
  1,2,3: eapply fetch_wf; [by apply load_addr| |eassumption]; done.
  1: by eapply (Update_wf obsU). 1: by eapply (Update_wf obsK). 1: by eapply (Update_wf obsP).
  1: by eapply SaveUser_wf.
  - injection H as <-. split; cbn; [by eapply write_heap_wf|done..].
  - injection H as <-. split; cbn; [done|by eapply write_heap_wf|done].
  - injection H as <-. split; cbn; [done|done|by eapply write_heap_wf].
  - injection H as <-. apply reset_wf.
  - apply SaveAll_pools in H as (? & ? & ? & _ & _ & _ & ->). apply reset_wf.
Qed.

(** ** Properties *)

(** While the cache is enabled, and whatever loads, updates, saves and
    object mutations happened before, every load of an address returns the
    same object (and changes nothing) until the cache is reset, whether it is
    asked for as an existing account or loaded, and two addresses never share
    an object. *)
Theorem cache_shares_objects c0 c c1 addr l :
  cache_wf c0 -> rtc cache_step c0 c -> cacheEnable c = true ->
  (GetExistingUser addr c = (c1, Ok l) \/ LoadUser addr c = (c1, Ok l)) ->
  GetExistingUser addr c1 = (c1, Ok l) /\ LoadUser addr c1 = (c1, Ok l) /\
  (forall addr' c2, (GetExistingUser addr' c1 = (c2, Ok l) \/ LoadUser addr' c1 = (c2, Ok l)) ->
     addr' = addr).
Proof.
  intros Hwf0 Hrun He Hload.
  assert (cache_wf c1) as Hwf1.
  { assert (cache_wf c) as Hwf by (induction Hrun; eauto using cache_step_wf).
    eapply cache_step_wf; [exact Hwf|]. destruct Hload; [by eapply cs_get_user|by eapply cs_load_user]. }
  assert (objMap (users c1) !! addr = Some l /\ cacheEnable c1 = true) as [Hl He1].
  { unfold GetExistingUser, LoadUser, GetExisting, Load, on_users in Hload. rewrite He in Hload.
    destruct Hload as [H|H];
      [destruct (fetch adb_GetExisting true addr (users c)) as [p r] eqn:Hf
      |destruct (fetch adb_Load true addr (users c)) as [p r] eqn:Hf];
      injection H as <- ->; cbn; split; try done; by eapply fetch_cached. }
  unfold GetExistingUser, LoadUser, GetExisting, Load, on_users.
  rewrite !(fetch_hit _ _ _ _ _ Hl). split; [by destruct c1|]. split; [by destruct c1|].
  intros addr' c2 Hload'. rewrite He1 in Hload'.
  assert (exists p : pool U, pool_wf p /\ objMap p !! addr' = Some l /\ objMap p !! addr = Some l)
    as (p & Hwp & Ha' & Ha); [|exact (pool_no_alias p addr' addr l Hwp Ha' Ha)].
  destruct Hload' as [H|H];
    [destruct (fetch adb_GetExisting true addr' (users c1)) as [p r] eqn:Hf
    |destruct (fetch adb_Load true addr' (users c1)) as [p r] eqn:Hf];
    injection H as <- ->; exists p; (split; [|split; [by eapply fetch_cached|by eapply fetch_keeps]]).
  - eapply fetch_wf; [by apply get_addr|apply Hwf1|exact Hf].
  - eapply fetch_wf; [by apply load_addr|apply Hwf1|exact Hf].
Qed.

(** C38: a successful [SaveAll] leaves the cache empty and every account, cached
    or not, stored with the contents the node saw before: nothing a handler
    did to a cached account is lost and no other account is affected. *)
Theorem save_all_persists c0 c c' :
  cache_wf c0 -> rtc cache_step c0 c -> SaveAll c = (c', Ok tt) ->
  objMap (users c') = ∅ /\ objMap (kapps c') = ∅ /\ objMap (peers c') = ∅ /\
  cacheEnable c' = cacheEnable c /\
  (forall k, stored obsU (users c') k = view obsU (users c) k) /\
  (forall k, stored obsK (kapps c') k = view obsK (kapps c) k) /\
  (forall k, stored obsP (peers c') k = view obsP (peers c) k).
Proof.
  intros Hwf0 Hrun Hsave.
  assert (cache_wf c) as [Hu Hk Hp] by (clear Hsave; induction Hrun; eauto using cache_step_wf).
  apply SaveAll_pools in Hsave as (pu & pk & pp & Hsu & Hsk & Hsp & ->).
  repeat (split; [done|]).
  split; [|split]; intros k; eapply stored_after_save; eauto.
Qed.
End cache.
Arguments accountsCache U K P {_ _ _}.

(** ** The reference adapter: a map from addresses to balances *)

Definition map_adapter : AccountsAdapter (string * Z) :=
  {| adb := gmap string Z; addr_of := fst;
     adb_GetExisting db k := match db !! k with Some v => Ok (k, v) | None => Err ErrAccNotFound end;
     adb_Load db k := Ok (k, default 0 (db !! k));
     adb_Save db a := (<[a.1 := a.2]> db, a, Ok tt) |}.

Lemma map_adapter_laws : AdapterLaws map_adapter (fun a => a).
Proof.
  split; cbn.
  - intros db [k v] db' a' [= <- <-]. cbn. rewrite lookup_insert_eq. eauto.
  - intros db [k v] db' a' k' [= <- <-] Hne. cbn in *. by rewrite lookup_insert_ne.
  - by intros db [k v] db' a' [= <- <-].
  - intros db k a. destruct (db !! k); by intros [= <-].
  - by intros db k a [= <-].
  - intros db k a. destruct (db !! k); by intros [= <-].
Qed.

Abbreviation ex_cache := (@accountsCache _ _ _ map_adapter map_adapter map_adapter).

(** A fresh, enabled cache over an empty database, and the same cache after a
    handler loaded alice and assigned her a balance. *)
Definition example_cache0 : ex_cache :=
  resetAllNoLock true (@NewAccountsCacher _ _ _ map_adapter map_adapter map_adapter
    (∅ : gmap string Z) (∅ : gmap string Z) (∅ : gmap string Z)).
Definition example_cache1 : ex_cache := (LoadUser "alice" example_cache0).1.
Definition example_cache2 : ex_cache := (write_user 0 ("alice", 5) example_cache1).1.

Lemma cache_shares_objects_witness :
  GetExistingUser "alice" example_cache1 = (example_cache1, Ok 0%nat) /\
  LoadUser "alice" example_cache1 = (example_cache1, Ok 0%nat).
Proof.
  pose proof map_adapter_laws as L.
  destruct (cache_shares_objects (fun a => a) (fun a => a) (fun a => a)
    example_cache0 example_cache0 example_cache1 "alice" 0) as (H1 & H2 & _).
  - apply reset_wf.
  - apply rtc_refl.
  - reflexivity.
  - right. exact (run_ok_spec 0%nat (LoadUser "alice" example_cache0) eq_refl).
  - done.
Defined.

Lemma save_all_persists_witness :
  (SaveAll example_cache2).2 = Ok tt /\
  stored (fun a => a) (users (SaveAll example_cache2).1) "alice" = Some ("alice", 5).
Proof.
  pose proof map_adapter_laws as L. split; [vm_compute; reflexivity|].
  destruct (save_all_persists (fun a => a) (fun a => a) (fun a => a)
    example_cache0 example_cache2 (SaveAll example_cache2).1) as (_ & _ & _ & _ & H & _).
  - apply reset_wf.
  - eapply rtc_l; [eapply (cs_load_user _ "alice"), (surjective_pairing (LoadUser "alice" example_cache0))|].
    eapply rtc_l; [|apply rtc_refl].
    eapply (cs_write_user _ 0 ("alice", 5) ("alice", 0)); [vm_compute; reflexivity..|].
    exact (run_ok_spec tt (write_user 0 ("alice", 5) example_cache1) eq_refl).
  - apply (run_ok_spec tt (SaveAll example_cache2)). vm_compute. reflexivity.
  - rewrite H. vm_compute. reflexivity.
Defined.
