(* ===== verification/World.v ===== *)
(** * What a native application sees

    The application accounts of [data/state/kappAccount.go], the receipts and
    execution context of [core/kapp/context.go], and the state a handler works
    on: the accounts cache, the receipts collected so far and the data returned
    to the caller.  A handler answers with a result code and an error, or
    succeeds. *)

From S2P Require Import Prelude Common Strconv GoStd Forks Tools Permissions KdaUtils KdaData DataTrie UserAccount AccountsCache.
Local Open Scope Z_scope.

(** ** Application accounts *)

Section kapp_account.
Context `{TO : TrieOps} `{CU : Marshalizer UserKDA}.

Record kappAccount : Type := { kapp_Address : string; kapp_tracker : TrackableDataTrie }.

Definition with_kapp_tracker (a : kappAccount) (t : TrackableDataTrie) : kappAccount :=
  {| kapp_Address := kapp_Address a; kapp_tracker := t |}.

Definition NewKAppAccount (addr : string) : res error kappAccount :=
  if slen addr =? 0 then Err ErrNilAddress
  else Ok {| kapp_Address := addr; kapp_tracker := NewTrackableDataTrie addr None |}.

Abbreviation KAM := (M kappAccount error).

Definition kapp_RetrieveValue (key : string) : KAM string := fun a =>
  (a, RetrieveValue (kapp_tracker a) key).
Definition kapp_SaveKeyValue (key value : string) : KAM unit := fun a =>
  match SaveKeyValue (kapp_tracker a) key value with
  | Ok t => (with_kapp_tracker a t, Ok tt)
  | Err e => (a, Err e)
  end.

(** [GetStorage]: a read error is an absent value. *)
Definition GetStorage (a : kappAccount) (key : string) : slice :=
  match RetrieveValue (kapp_tracker a) key with Ok v => Some v | Err _ => None end.
Definition SetStorage (key value : string) : KAM unit := kapp_SaveKeyValue key value.

Definition kapp_AddInternalKDA (assetID internalID data : string) : KAM unit :=
  _ ← reject_if (slen data =? 0) ErrAssetNotFound;
  kapp_SaveKeyValue (ToKDAKey assetID internalID) data.

Definition kapp_SubInternalKDA (assetID internalID : string) : KAM string :=
  let key := ToKDAKey assetID internalID in
  data ← kapp_RetrieveValue key;
  _ ← reject_if (slen data =? 0) ErrAssetNotFound;
  _ ← kapp_SaveKeyValue key EmptyString;
  mret data.

Definition kapp_GetUserKDA (a : kappAccount) (assetID : slice) (nonce : string) (cdd : bool)
  : res error UserKDA :=
  let noTrie := match tr (kapp_tracker a) with None => true | Some _ => false end in
  let noDirty := bool_decide (dirtyData (kapp_tracker a) = ∅) in
  if noTrie && (negb cdd || noDirty) then Ok emptyUserKDA
  else
    let key := ToKDAKey (default KLVIdentifier assetID) nonce in
    value ← match RetrieveValue (kapp_tracker a) key with
            | Err e => if bool_decide (e = ErrNilTrie) then Ok EmptyString else Err e
            | Ok v => Ok v
            end;
    if slen value =? 0 then Ok emptyUserKDA else Unmarshal value.
End kapp_account.
Arguments kappAccount {_}.

(** ** Addresses of the applications ([kapps/consts.go]) *)

Definition kapp_addr (n : nat) : string :=
  foldr String EmptyString (kapp_address (Ascii.ascii_of_nat n)).
Definition StakingKAppAddress : string := kapp_addr 0.
Definition KDAKAppAddress : string := kapp_addr 1.
Definition ProposalKAppAddress : string := kapp_addr 2.
Definition MarketKAppAddress : string := kapp_addr 4.
Definition ValidatorsKAppAddress : string := kapp_addr 5.
Definition KDAFeesPoolKAppAddress : string := kapp_addr 6.
Definition SystemAccountKAppAddress : string := kapp_addr 7.
Definition ZeroAddress : string := foldr String EmptyString (replicate 32 kapp_zero).

(** ** Receipts *)

Definition Receipt_Transfer : Z := 0.
Definition Receipt_Proposal : Z := 5.
Definition Receipt_ProposalVote : Z := 6.
Definition Receipt_CreateMarketplace : Z := 10.
Definition Receipt_ConfigMarketplace : Z := 11.
Definition Receipt_UpdateValidator : Z := 12.
Definition Receipt_Sell : Z := 15.
Definition Receipt_Buy : Z := 16.
Definition Receipt_Claim : Z := 17.
Definition Receipt_Withdraw : Z := 18.
Definition Receipt_Deposit : Z := 21.
Definition Receipt_UpdateKDAPool : Z := 22.
Definition Receipt_CancelOrder : Z := 24.

(** A receipt of an operation as its data fields, or an error receipt. *)
Inductive receipt : Type :=
| Receipt (data : list string)
| ErrorReceipt (contractID : Z) (field : errField) (e : error).

Definition NewReceipt (receiptType contractID : Z) (params : list string) : receipt :=
  Receipt (String (byte_of receiptType) (String (byte_of contractID) EmptyString) :: params).

(** The byte of an asset type in a receipt. *)
Definition asset_type_byte (t : EnumAssetType) : string :=
  String (byte_of (match t with KDAData_Fungible => 0 | KDAData_NonFungible => 1
                              | KDAData_SemiFungible => 2 end)) EmptyString.

(** ** The execution environment of one contract

    Block and transaction data, the network parameters voted by proposal, the
    forks in force and the collaborators outside the model. *)
Record kappEnv : Type := {
  env_fc : ForkController;
  env_pubkeyLen : Z;
  env_epoch : Z;
  env_randSeed : string;
  env_txHash : string;
  env_contractID : Z;
  env_MaxNFTMintBatch : Z;
  env_MaxEpochsUnclaimed : Z;
  env_hash : string -> string;
  env_IsReadOnly : bool;
}.

(** ** The state of a handler *)

Section world.
Context `{TO : TrieOps} {Peer : Type} `{UA : AccountsAdapter userAccount}
  `{KA : AccountsAdapter kappAccount} `{PA : AccountsAdapter Peer}.

Record world : Type := {
  w_cache : accountsCache userAccount kappAccount Peer;
  w_receipts : list receipt;
  w_returnData : list string;
}.

(** Errors of the layers below carry no result code. *)
Abbreviation WM := (M world error).
Abbreviation KM := (M world (txResultCode * error)).

Definition set_cache (w : world) (c : accountsCache userAccount kappAccount Peer) : world :=
  {| w_cache := c; w_receipts := w_receipts w; w_returnData := w_returnData w |}.

Definition on_cache {B} (m : M (accountsCache userAccount kappAccount Peer) error B) : WM B := fun w =>
  let '(c, r) := m (w_cache w) in (set_cache w c, r).

(** Running an operation of the account object at [l]. *)
Definition on_user {B} (l : nat) (m : M userAccount error B) : WM B := fun w =>
  match heap (users (w_cache w)) !! l with
  | None => (w, Err ErrAccNotFound)
  | Some a => let '(a', r) := m a in (set_cache w (write_user l a' (w_cache w)).1, r)
  end.
Definition on_kapp {B} (l : nat) (m : M kappAccount error B) : WM B := fun w =>
  match heap (kapps (w_cache w)) !! l with
  | None => (w, Err ErrAccNotFound)
  | Some a => let '(a', r) := m a in (set_cache w (write_kapp l a' (w_cache w)).1, r)
  end.
Definition on_peer {B} (l : nat) (m : M Peer error B) : WM B := fun w =>
  match heap (peers (w_cache w)) !! l with
  | None => (w, Err ErrAccNotFound)
  | Some a => let '(a', r) := m a in (set_cache w (write_peer l a' (w_cache w)).1, r)
  end.

Definition Receipts_Add (r : receipt) : KM unit :=
  modify (fun w => {| w_cache := w_cache w; w_receipts := w_receipts w ++ [r];
                      w_returnData := w_returnData w |}).
Definition SetReturnData (d : list string) : KM unit :=
  modify (fun w => {| w_cache := w_cache w; w_receipts := w_receipts w; w_returnData := d |}).

(** [return code, err] when the call below fails. *)
Definition or_code {B} (c : txResultCode) (m : WM B) : KM B := with_err (fun e => (c, e)) m.

(** [AddError(...); return code, err] when the condition holds. *)
Definition refuse_if (env : kappEnv) (b : bool) (field : errField) (c : txResultCode) (e : error) : KM unit :=
  if b then
    _ ← Receipts_Add (ErrorReceipt (env_contractID env) field e);
    fail (c, e)
  else mret tt.
(** The same when a call fails. *)
Definition or_refuse {B} (env : kappEnv) (field : errField) (c : txResultCode) (m : WM B) : KM B := fun w =>
  match m w with
  | (w', Ok x) => (w', Ok x)
  | (w', Err e) =>
      ({| w_cache := w_cache w'; w_receipts := w_receipts w' ++ [ErrorReceipt (env_contractID env) field e];
          w_returnData := w_returnData w' |}, Err (c, e))
  end.

(** *** Inversion *)

Lemma on_cache_ok {B} (m : M (accountsCache userAccount kappAccount Peer) error B) w w' (x : B) :
  on_cache m w = (w', Ok x) -> exists c, m (w_cache w) = (c, Ok x) /\ w' = set_cache w c.
Proof. unfold on_cache. destruct (m (w_cache w)) as [c r]. intros [= <- ->]. eauto. Qed.

Lemma on_user_ok {B} l (m : M userAccount error B) w w' (x : B) :
  on_user l m w = (w', Ok x) ->
  exists a a', heap (users (w_cache w)) !! l = Some a /\ m a = (a', Ok x) /\
    w' = set_cache w (write_user l a' (w_cache w)).1.
Proof.
  unfold on_user. destruct (heap _ !! l) as [a|]; [|done].
  destruct (m a) as [a' r] eqn:E. intros [= <- ->]. eauto.
Qed.

Lemma on_kapp_ok {B} l (m : M kappAccount error B) w w' (x : B) :
  on_kapp l m w = (w', Ok x) ->
  exists a a', heap (kapps (w_cache w)) !! l = Some a /\ m a = (a', Ok x) /\
    w' = set_cache w (write_kapp l a' (w_cache w)).1.
Proof.
  unfold on_kapp. destruct (heap _ !! l) as [a|]; [|done].
  destruct (m a) as [a' r] eqn:E. intros [= <- ->]. eauto.
Qed.

Lemma on_peer_ok {B} l (m : M Peer error B) w w' (x : B) :
  on_peer l m w = (w', Ok x) ->
  exists a a', heap (peers (w_cache w)) !! l = Some a /\ m a = (a', Ok x) /\
    w' = set_cache w (write_peer l a' (w_cache w)).1.
Proof.
  unfold on_peer. destruct (heap _ !! l) as [a|]; [|done].
  destruct (m a) as [a' r] eqn:E. intros [= <- ->]. eauto.
Qed.

Lemma or_refuse_ok {B} env field c (m : WM B) w w' (x : B) :
  or_refuse env field c m w = (w', Ok x) <-> m w = (w', Ok x).
Proof. unfold or_refuse. destruct (m w) as [w1 [y|e]]; split; intros H; congruence. Qed.

Lemma refuse_if_ok env b field c e w w' x :
  refuse_if env b field c e w = (w', Ok x) <-> b = false /\ w' = w.
Proof.
  destruct x. unfold refuse_if. destruct b; cbn; split; try done.
  - by intros [? ?].
  - by intros [= ->].
  - by intros [_ ->].
Qed.
End world.
Arguments world {_} Peer {_ _ _}.

(** [w_ok] is [m_ok] for handlers. *)
Ltac w_ok_step :=
  match goal with
  | H : or_code _ _ _ = (_, Ok _) |- _ => unfold or_code in H
  | H : or_refuse _ _ _ _ _ = (_, Ok _) |- _ => apply or_refuse_ok in H
  | H : refuse_if _ _ _ _ _ _ = (_, Ok _) |- _ => apply refuse_if_ok in H; destruct H; subst
  | H : Receipts_Add _ _ = (_, Ok _) |- _ => unfold Receipts_Add in H
  | H : SetReturnData _ _ = (_, Ok _) |- _ => unfold SetReturnData in H
  | _ => m_ok_step
  end.
Ltac w_ok := repeat w_ok_step.
