(* ===== verification/SystemAccount.v ===== *)
(** * The system account: supply of semi-fungible items

    [core/kapp/systemAccount/systemAcount.go]: each nonce of a semi-fungible
    collection has its own circulation and maximum supply, kept in the system
    application's trie. *)

From S2P Require Import Prelude Common Strconv GoStd Forks Tools Permissions KdaUtils KdaData DataTrie UserAccount AccountsCache.
From S2P Require Import World.
Local Open Scope Z_scope.

Record MetaV2Data : Type := { meta_Name : string; meta_Hash : string; meta_Attributes : string }.
Record MetaV2 : Type := {
  Circulation : Z; meta_MaxSupply : Z; meta_Metadata : option MetaV2Data;
}.

#[global] Instance MetaV2Data_eq_dec : EqDecision MetaV2Data.
Proof. solve_decision. Defined.
#[global] Instance MetaV2_eq_dec : EqDecision MetaV2.
Proof. solve_decision. Defined.

Section system_account.
Context `{TO : TrieOps} {Peer : Type} `{UA : AccountsAdapter userAccount}
  `{KA : AccountsAdapter kappAccount} `{PA : AccountsAdapter Peer} `{CM : Marshalizer MetaV2}.
Variable env : kappEnv.
Abbreviation WM := (M (world Peer) error).

Definition getKApp : WM nat := on_cache (LoadKApp SystemAccountKAppAddress).

Definition getKDADataFromApp (kapp : nat) (asset nonce : string) : WM MetaV2 :=
  metaBytes ← on_kapp kapp (kapp_RetrieveValue (ToKDAKey asset nonce));
  _ ← reject_if (slen metaBytes =? 0) ErrAssetNotFound;
  lift (Unmarshal metaBytes).

Definition getKDAData (asset nonce : string) : WM MetaV2 :=
  kapp ← getKApp;
  getKDADataFromApp kapp asset nonce.

Definition marshalAndSave (key : string) (kapp : nat) (meta : MetaV2) : WM unit :=
  metaBytes ← lift (Marshal meta);
  on_kapp kapp (kapp_SaveKeyValue key metaBytes).

(** [amount] is negative when tokens are burned. *)
Definition SFTAddCirculation (asset nonce : string) (amount : Z) : WM unit :=
  if amount =? 0 then mret tt
  else
    kapp ← getKApp;
    meta ← getKDAData asset nonce;
    let circulation := Circulation meta +! amount in
    _ ← reject_if (env_fc env FixMarketBuyOverflow && (0 <? amount) && (circulation <? Circulation meta))
          ErrMaxSupplyExceeded;
    _ ← reject_if ((meta_MaxSupply meta <? circulation) && negb (meta_MaxSupply meta =? 0))
          ErrMaxSupplyExceeded;
    marshalAndSave (ToKDAKey asset nonce) kapp
      {| Circulation := circulation; meta_MaxSupply := meta_MaxSupply meta;
         meta_Metadata := meta_Metadata meta |}.

Definition SFTCreateMeta (asset nonce : string) (supply : Z) (hash : string) : WM unit := fun w =>
  match getKApp w with
  | (w1, Err e) => (w1, Err e)
  | (w1, Ok kapp) =>
      match getKDAData asset nonce w1 with
      | (w2, Ok _) => (w2, Err ErrAssetAlreadyExists)
      | (w2, Err _) =>
          marshalAndSave (ToKDAKey asset nonce) kapp
            {| Circulation := 0; meta_MaxSupply := supply;
               meta_Metadata := Some {| meta_Name := EmptyString; meta_Hash := hash;
                                        meta_Attributes := EmptyString |} |} w2
      end
  end.

(** [SFTSetMetadata]: one argument sets the attributes, two set the name too.
    A message stored without its metadata field would be a nil dereference,
    which [SFTCreateMeta] rules out. *)
Definition SFTSetMetadata (asset nonce : string) (args : list string) : WM unit :=
  kapp ← getKApp;
  meta ← getKDAData asset nonce;
  let md := default {| meta_Name := EmptyString; meta_Hash := EmptyString;
                       meta_Attributes := EmptyString |} (meta_Metadata meta) in
  md' ← match args with
        | [attributes] =>
            mret {| meta_Name := meta_Name md; meta_Hash := meta_Hash md; meta_Attributes := attributes |}
        | [name; attributes] =>
            mret {| meta_Name := name; meta_Hash := meta_Hash md; meta_Attributes := attributes |}
        | _ => fail ErrInvalidParameter
        end;
  marshalAndSave (ToKDAKey asset nonce) kapp
    {| Circulation := Circulation meta; meta_MaxSupply := meta_MaxSupply meta;
       meta_Metadata := Some md' |}.

Definition SFTGetMeta (asset nonce : string) : WM MetaV2 := fun w =>
  match getKDAData asset nonce w with
  | (w', Err ErrNilTrie) =>
      (w', Ok {| Circulation := 0; meta_MaxSupply := 0;
                 meta_Metadata := Some {| meta_Name := EmptyString; meta_Hash := EmptyString;
                                          meta_Attributes := EmptyString |} |})
  | r => r
  end.
End system_account.
