(* ===== verification/KdaKapp.v ===== *)
(** * The KDA application: minting, burning and reward deposits

    [core/kapp/kda/kda.go] and [core/kapp/kda/mint.go].  The asset record and the
    staking data are loaded from the tries of two application accounts into
    fresh objects, changed, and written back; user accounts are shared objects
    of the cache. *)

From S2P Require Import Prelude Common Strconv GoStd Forks Tools Permissions KdaUtils KdaData DataTrie UserAccount AccountsCache.
From S2P Require Import Staking World SystemAccount.
Local Open Scope Z_scope.

(** ** Contracts ([data/transaction/proto/contracts.proto])

    The fields the modelled handlers read. *)

Inductive EnumTriggerType : Type :=
| AssetTriggerContract_Mint | AssetTriggerContract_Burn | AssetTriggerContract_Wipe
| AssetTriggerContract_Pause | AssetTriggerContract_Resume | AssetTriggerContract_ChangeOwner
| AssetTriggerContract_AddRole | AssetTriggerContract_RemoveRole
| AssetTriggerContract_UpdateMetadata | AssetTriggerContract_StopNFTMint
| AssetTriggerContract_UpdateLogo | AssetTriggerContract_UpdateURIs
| AssetTriggerContract_ChangeRoyaltiesReceiver | AssetTriggerContract_UpdateStaking
| AssetTriggerContract_UpdateRoyalties | AssetTriggerContract_UpdateKDAFeePool
| AssetTriggerContract_StopRoyaltiesChange | AssetTriggerContract_StopNFTMetadataChange
| AssetTriggerContract_ChangeAdmin.
#[global] Instance EnumTriggerType_eq_dec : EqDecision EnumTriggerType.
Proof. solve_decision. Defined.

Record AssetTriggerContract : Type := {
  TriggerType : EnumTriggerType; at_AssetID : slice; ToAddress : string; at_Amount : Z; at_Value : Z;
}.
Record DepositContract : Type := { dp_ID : slice; dp_CurrencyID : slice; dp_Amount : Z }.

(** [core.MaxDepositKDAs]. *)
Definition MaxDepositKDAs : Z := 20.

(** [big.NewInt(0).SetInt64(v).Bytes()] for a positive [v]. *)
Fixpoint big_bytes_loop (fuel : nat) (v : Z) (acc : string) : string :=
  match fuel with
  | O => acc
  | S f => if v =? 0 then acc else big_bytes_loop f (Z.shiftr v 8) (String (byte_of v) acc)
  end.
Definition big_bytes (v : Z) : string := big_bytes_loop 8 v EmptyString.

(** [types.OrderedKeys]: sorted bytewise, or in the order [range] gives. *)
Definition OrderedKeys {V} (range : gmap string V -> list string)
    (m : gmap string V) (sorted : bool) : list string :=
  if sorted then merge_sort str_le (range m) else range m.

Section kda.
Context `{TO : TrieOps} {Peer : Type} `{UA : AccountsAdapter userAccount}
  `{KA : AccountsAdapter kappAccount} `{PA : AccountsAdapter Peer}
  `{CU : Marshalizer UserKDA} `{CK : Marshalizer KDAData} `{CS : Marshalizer StakingData}
  `{CM : Marshalizer MetaV2}.
Variable env : kappEnv.
(** The order in which [range] visits the assets of a pool. *)
Variable range : gmap string KDAFPRData -> list string.

Abbreviation WM := (M (world Peer) error).
Abbreviation KM := (M (world Peer) (txResultCode * error)).
Abbreviation cdd := (env_fc env EnableSmartContracts).

(** ** Records in the application tries *)

(** Both [GetKDA] and [GetStaking], for a non-nil asset identifier. *)
Definition get_record {T} `{Marshalizer T} (kappAddress : string) (missing : error) (assetID : string)
  : WM (nat * T) :=
  kapp ← on_cache (GetExistingKapp kappAddress);
  bytes ← on_kapp kapp (kapp_RetrieveValue (ToKDAKey assetID EmptyString));
  _ ← reject_if (slen bytes =? 0) missing;
  x ← lift (Unmarshal bytes);
  mret (kapp, x).
Definition set_record {T} `{Marshalizer T} (kapp : nat) (assetID : string) (x : T) : WM unit :=
  data ← lift (Marshal x);
  on_kapp kapp (kapp_SaveKeyValue (ToKDAKey assetID EmptyString) data).

Definition GetKDA (assetID : string) : WM (nat * KDAData) :=
  get_record KDAKAppAddress ErrAssetNotFound assetID.
Definition SetKDA (kapp : nat) (assetID : string) (kda : KDAData) : WM unit :=
  set_record kapp assetID kda.
Definition GetStaking (assetID : string) : WM (nat * StakingData) :=
  get_record StakingKAppAddress ErrStakingNotFound assetID.
Definition SetStaking (kapp : nat) (assetID : string) (staking : StakingData) : WM unit :=
  set_record kapp assetID staking.

Definition GetExistingUserAccount (pubkey : string) : WM nat := on_cache (GetExistingUser pubkey).
Definition LoadUserAccount (pubkey : string) : WM nat := on_cache (LoadUser pubkey).

Definition TokeTypeHasNonce (t : EnumAssetType) : bool :=
  if env_fc env EnableSmartContracts then
    bool_decide (t = KDAData_NonFungible) || bool_decide (t = KDAData_SemiFungible)
  else bool_decide (t = KDAData_NonFungible).

(** [parseAndLoadKDA]: the collection, the item, the KDA application and the
    asset record. *)
Definition parseAndLoadKDA (kdaID : slice) : KM (string * string * nat * KDAData) :=
  let parsed := match kdaID with None => [] | Some s => split_at sep s end in
  let assetID := match parsed with [] => KLVIdentifier | a :: _ => a end in
  '(kapp, kda) ← or_code Transaction_KAPPError (GetKDA assetID);
  match parsed with
  | _ :: internalID :: rest =>
      _ ← reject_if (negb (TokeTypeHasNonce (AssetType kda)) || bool_decide (rest <> []))
            (Transaction_ParameterInvalid, ErrInvalidValue);
      mret (assetID, internalID, kapp, kda)
  | _ => mret (assetID, EmptyString, kapp, kda)
  end.

(** The Transfer receipt of minted and burned amounts. *)
Definition transfer_receipt (from to amount assetID internalID : string) (kda : KDAData) : KM unit :=
  Receipts_Add (NewReceipt Receipt_Transfer (env_contractID env)
    [from; to; amount; assetID; internalID; asset_type_byte (AssetType kda)]).

Definition user_address (l : nat) : WM string := on_user l (a ← get; mret (address a)).

(** ** Burning *)

Definition isValidCirculatingSupply (kda : KDAData) : bool :=
  if env_fc env EnableSmartContracts then 0 <=? CirculatingSupply kda
  else 0 <? CirculatingSupply kda.

(** The supply counters after [amount] units were burned. *)
Definition burn_supply (kda : KDAData) (amount : Z) : KDAData :=
  set_supply kda (CirculatingSupply kda -! amount) (MintedValue kda) (BurnedValue kda +! amount).

Definition burn_non_fungible (tc : AssetTriggerContract) (assetID internalID : string) (acc : nat)
    (kda : KDAData) : KM KDAData :=
  _ ← reject_if (slen internalID =? 0) (Transaction_AssetTypeInvalid, ErrInvalidArgument);
  let key := ToKDAKey assetID internalID in
  data ← with_err (fun _ => (Transaction_AssetError, ErrInvalidArgument))
           (on_user acc (a ← get; lift (RetrieveValue (tracker a) key)));
  _ ← reject_if (slen data =? 0) (Transaction_AssetError, ErrInvalidArgument);
  _ ← or_code Transaction_AssetError (on_user acc (SaveKeyValueM key EmptyString));
  _ ← reject_if (negb (at_Amount tc =? 1)) (Transaction_AssetError, ErrInvalidArgument);
  let kda' := burn_supply kda 1 in
  _ ← reject_if ((BurnedValue kda' <=? 0) || (CirculatingSupply kda' <? 0))
        (Transaction_AssetError, ErrSupplyNotValid);
  owner ← or_code Transaction_AccountError (user_address acc);
  _ ← transfer_receipt owner ZeroAddress "1" assetID internalID kda;
  mret kda'.

Definition burn_semi_fungible (tc : AssetTriggerContract) (assetID internalID : string) (acc : nat)
    (kda : KDAData) : KM KDAData :=
  _ ← reject_if (slen internalID =? 0) (Transaction_AssetTypeInvalid, ErrInvalidArgument);
  _ ← or_code Transaction_BalanceError
        (on_user acc (SubFromBalanceWithNonce (at_Amount tc) (Some assetID) internalID cdd None));
  _ ← or_code Transaction_AssetError (SFTAddCirculation env assetID internalID (wrap_i64 (- at_Amount tc)));
  owner ← or_code Transaction_AccountError (user_address acc);
  _ ← transfer_receipt owner ZeroAddress (FormatInt (at_Amount tc)) assetID internalID kda;
  mret kda.

Definition burn_fungible (tc : AssetTriggerContract) (assetID internalID : string) (acc : nat)
    (kda : KDAData) : KM KDAData :=
  _ ← reject_if (negb (slen internalID =? 0)) (Transaction_AssetTypeInvalid, ErrInvalidArgument);
  _ ← reject_if (at_Amount tc <=? 0) (Transaction_ParameterInvalid, ErrInvalidArgument);
  let kda' := burn_supply kda (at_Amount tc) in
  _ ← reject_if ((BurnedValue kda' <=? 0) || negb (isValidCirculatingSupply kda'))
        (Transaction_AssetError, ErrSupplyNotValid);
  _ ← or_code Transaction_BalanceError
        (on_user acc (SubFromBalance (at_Amount tc) (Some assetID) cdd None));
  owner ← or_code Transaction_AccountError (user_address acc);
  _ ← transfer_receipt owner ZeroAddress (FormatInt (at_Amount tc)) assetID EmptyString kda;
  mret kda'.

Definition Burn (sender : string) (tc : AssetTriggerContract) : KM unit :=
  '(assetID, internalID, kdaKapp, kda) ← parseAndLoadKDA (at_AssetID tc);
  _ ← (if decide (TriggerType tc = AssetTriggerContract_Wipe) then
         _ ← refuse_if env (negb (IsOwnerOrAdmin kda sender)) ErrFieldInvalidPermission
               Transaction_AccountNotOwner ErrAccNotOwner;
         refuse_if env (negb (CanWipe (Properties kda))) ErrFieldAssetCannotWipe
           Transaction_AssetCantBeWiped ErrAssetTriggerInvalid
       else mret tt);
  _ ← refuse_if env (negb (CanBurn (Properties kda))) ErrFieldAssetCannotBurn
        Transaction_AssetCantBeBurned ErrAssetTriggerInvalid;
  _ ← refuse_if env (negb (slen (ToAddress tc) =? env_pubkeyLen env)) ErrFieldInvalidToAddress
        Transaction_AccountError ErrInvalidRcvAddr;
  acc ← or_code Transaction_LoadAccountError (LoadUserAccount (ToAddress tc));
  kda' ← match AssetType kda with
         | KDAData_NonFungible => burn_non_fungible tc assetID internalID acc kda
         | KDAData_SemiFungible => burn_semi_fungible tc assetID internalID acc kda
         | KDAData_Fungible => burn_fungible tc assetID internalID acc kda
         end;
  _ ← or_code Transaction_SaveAccountError (on_cache (UpdateUser acc));
  _ ← or_code Transaction_KAPPError (SetKDA kdaKapp assetID kda');
  or_code Transaction_SaveAccountError (on_cache (UpdateKapp kdaKapp)).

(** ** Minting *)

Definition mint_supply (kda : KDAData) (amount : Z) : KDAData :=
  set_supply kda (CirculatingSupply kda +! amount) (MintedValue kda +! amount) (BurnedValue kda).

Definition checkMintNotPaused (kda : KDAData) : KM unit :=
  refuse_if env (env_fc env FixAuditChangesV6 && IsPaused (Attributes kda)) ErrFieldAssetPaused
    Transaction_AssetPaused ErrAssetIsPaused.

(** The position stored for a minted item. *)
Definition minted_item : UserKDA :=
  {| kda_Balance := 1; FrozenBalance := 0; uk_LastClaim := None; Buckets := None;
     MIME := EmptyString; Metadata := EmptyString |}.

(** The mint loop, [n] items left; returns the record and the nonces minted. *)
Fixpoint nft_mint_loop (n : nat) (assetID data : string) (acntDst : nat) (kda : KDAData)
    (minted : list string) : KM (KDAData * list string) :=
  match n with
  | O => mret (kda, minted)
  | S n' =>
      let kda' := mint_supply kda 1 in
      _ ← reject_if (MintedValue kda' <=? 0) (Transaction_AssetError, ErrSupplyNotValid);
      let internalID := FormatInt (MintedValue kda') in
      _ ← or_code Transaction_AccountError
            (on_user acntDst (SaveKeyValueM (ToKDAKey assetID internalID) data));
      owner ← or_code Transaction_AccountError (user_address acntDst);
      _ ← transfer_receipt ZeroAddress owner "1" (kda_ID kda') internalID kda';
      nft_mint_loop n' assetID data acntDst kda' (minted ++ [big_bytes (MintedValue kda')])
  end.

Definition processNonFungibleMint (tc : AssetTriggerContract) (assetID : string) (acntDst kdaAcc : nat)
    (kda : KDAData) : KM unit :=
  _ ← refuse_if env (IsNFTMintStopped (Attributes kda)) ErrFieldAssetMintStopped
        Transaction_NFTMintStopped ErrInvalidArgument;
  _ ← refuse_if env (env_MaxNFTMintBatch env <? at_Amount tc) ErrFieldInvalidAmount
        Transaction_AssetError ErrInvalidArgument;
  _ ← refuse_if env ((0 <? MaxSupply kda) && (MaxSupply kda <? CirculatingSupply kda +! at_Amount tc))
        ErrFieldMaxSupplyExceeded Transaction_AssetError ErrMaxSupplyExceeded;
  data ← or_code Transaction_AssetError (lift (Marshal minted_item));
  '(kda', minted) ← nft_mint_loop (Z.to_nat (at_Amount tc)) assetID data acntDst kda [];
  _ ← or_code Transaction_SaveAccountError (on_cache (UpdateUser acntDst));
  _ ← or_code Transaction_KAPPError (SetKDA kdaAcc assetID kda');
  _ ← or_code Transaction_SaveAccountError (on_cache (UpdateKapp kdaAcc));
  SetReturnData minted.

Definition processSemiFungibleAddQuantity (tc : AssetTriggerContract) (assetID internalID : string)
    (acntDst : nat) (kda : KDAData) : KM unit :=
  internalIDInt ← or_code Transaction_AssetError (lift (ParseInt internalID));
  _ ← reject_if (MintedValue kda <? internalIDInt) (Transaction_AssetError, ErrAssetIDInvalid);
  _ ← or_code Transaction_BalanceError
        (on_user acntDst (AddToBalanceWithNonce (at_Amount tc) (Some assetID) internalID cdd None));
  _ ← or_code Transaction_AssetError (SFTAddCirculation env assetID internalID (at_Amount tc));
  owner ← or_code Transaction_AccountError (user_address acntDst);
  transfer_receipt ZeroAddress owner (FormatInt (at_Amount tc)) (kda_ID kda) internalID kda.

Definition processSemiFungibleMintNew (tc : AssetTriggerContract) (assetID : string)
    (acntDst kdaAcc : nat) (kda : KDAData) : KM unit :=
  _ ← reject_if ((at_Value tc <? 0) || ((0 <? at_Value tc) && (at_Value tc <? at_Amount tc)))
        (Transaction_AssetError, ErrInvalidArgument);
  _ ← reject_if ((0 <? MaxSupply kda) && (MaxSupply kda <? CirculatingSupply kda +! 1))
        (Transaction_AssetError, ErrMaxSupplyExceeded);
  let kda' := mint_supply kda 1 in
  _ ← reject_if (MintedValue kda' <=? 0) (Transaction_AssetError, ErrSupplyNotValid);
  let internalID := FormatInt (MintedValue kda') in
  _ ← or_code Transaction_KAPPError (SetKDA kdaAcc assetID kda');
  _ ← or_code Transaction_SaveAccountError (on_cache (UpdateKapp kdaAcc));
  _ ← SetReturnData [big_bytes (MintedValue kda')];
  let hash := env_hash env (env_randSeed env +:+ env_txHash env +:+ assetID +:+ internalID) in
  _ ← or_code Transaction_AssetError (SFTCreateMeta assetID internalID (at_Value tc) hash);
  processSemiFungibleAddQuantity tc assetID internalID acntDst kda'.

Definition processSemiFungibleMint (tc : AssetTriggerContract) (assetID internalID : string)
    (acntDst kdaAcc : nat) (kda : KDAData) : KM unit :=
  _ ← reject_if (negb (env_fc env EnableSmartContracts)) (Transaction_AssetTypeInvalid, ErrAssetTypeInvalid);
  _ ← reject_if (IsNFTMintStopped (Attributes kda)) (Transaction_NFTMintStopped, ErrInvalidArgument);
  if slen internalID =? 0 then processSemiFungibleMintNew tc assetID acntDst kdaAcc kda
  else
    _ ← reject_if (negb (at_Value tc =? 0)) (Transaction_AssetError, ErrInvalidArgument);
    processSemiFungibleAddQuantity tc assetID internalID acntDst kda.

Definition processFungibleMint (tc : AssetTriggerContract) (assetID : string) (acntDst kdaKapp : nat)
    (kda : KDAData) : KM unit :=
  let kda' := mint_supply kda (at_Amount tc) in
  _ ← reject_if (MintedValue kda' <=? 0) (Transaction_AssetError, ErrSupplyNotValid);
  _ ← reject_if ((0 <? MaxSupply kda') && (MaxSupply kda' <? CirculatingSupply kda'))
        (Transaction_AssetError, ErrMaxSupplyExceeded);
  _ ← or_code Transaction_BalanceError
        (on_user acntDst (AddToBalance (at_Amount tc) (Some assetID) cdd None));
  owner ← or_code Transaction_AccountError (user_address acntDst);
  _ ← transfer_receipt ZeroAddress owner (FormatInt (at_Amount tc)) assetID EmptyString kda';
  _ ← or_code Transaction_SaveAccountError (on_cache (UpdateUser acntDst));
  _ ← or_code Transaction_KAPPError (SetKDA kdaKapp assetID kda');
  or_code Transaction_SaveAccountError (on_cache (UpdateKapp kdaKapp)).

Definition Mint (sender : string) (tc : AssetTriggerContract) : KM unit :=
  _ ← refuse_if env (negb (slen (ToAddress tc) =? env_pubkeyLen env)) ErrFieldInvalidToAddress
        Transaction_AccountError ErrInvalidRcvAddr;
  acntDst ← or_code Transaction_LoadAccountError (LoadUserAccount (ToAddress tc));
  '(assetID, internalID, kdaAcc, kda) ← parseAndLoadKDA (at_AssetID tc);
  _ ← refuse_if env (negb (CanMint (Properties kda))) ErrFieldAssetCannotMint
        Transaction_AssetCantBeMinted ErrAssetTriggerInvalid;
  _ ← refuse_if env ((at_Amount tc <? 0)
          || ((at_Amount tc =? 0) && negb (bool_decide (AssetType kda = KDAData_SemiFungible))))
        ErrFieldInvalidAmount Transaction_ParameterInvalid ErrInvalidArgument;
  role ← or_refuse env ErrFieldInvalidRoleAddress Transaction_AssetError
           (lift (GetRoleByAddress kda sender));
  _ ← refuse_if env (negb (HasRoleMint role)) ErrFieldInvalidPermission
        Transaction_AccountNotOwner ErrAccNotOwner;
  _ ← checkMintNotPaused kda;
  _ ← reject_if (env_fc env EnableSmartContracts
          && negb (bool_decide (AssetType kda = KDAData_SemiFungible)) && (0 <? slen internalID))
        (Transaction_AssetError, ErrInvalidArgument);
  _ ← reject_if (env_fc env EnableSmartContracts
          && negb (bool_decide (AssetType kda = KDAData_SemiFungible)) && negb (at_Value tc =? 0))
        (Transaction_AssetError, ErrInvalidArgument);
  match AssetType kda with
  | KDAData_NonFungible => processNonFungibleMint tc assetID acntDst kdaAcc kda
  | KDAData_SemiFungible => processSemiFungibleMint tc assetID internalID acntDst kdaAcc kda
  | KDAData_Fungible => processFungibleMint tc assetID acntDst kdaAcc kda
  end.

(** ** Deposits into a reward pool *)

Definition checkDepositPauseAndTransferControls (sender : string) (asset currency : KDAData) : KM unit :=
  if negb (env_fc env FixAuditChangesV6) then mret tt
  else
    _ ← refuse_if env (IsPaused (Attributes asset) || IsPaused (Attributes currency))
          ErrFieldAssetPaused Transaction_AssetPaused ErrAssetIsPaused;
    refuse_if env (negb (CanSenderTransfer currency sender)) ErrFieldTransferNotAllowed
      Transaction_KDATransferNotAllowed ErrKDATransferNotAllowed.

Definition expiredResidualAccount (depositorAcc : nat) (asset : KDAData) : WM nat :=
  depositor ← user_address depositorAcc;
  if negb (env_fc env FixAuditChangesV6) || str_eqb (OwnerAddress asset) depositor
  then mret depositorAcc
  else LoadUserAccount (OwnerAddress asset).

Definition refundExpiredFPR (recipient : nat) (amount : Z) (currencyID : string) : KM unit :=
  _ ← or_code Transaction_AssetError
        (on_user recipient (AddToBalance amount (Some currencyID) cdd None));
  to ← or_code Transaction_AssetError (user_address recipient);
  Receipts_Add (NewReceipt Receipt_Transfer (env_contractID env)
    [ZeroAddress; to; FormatInt amount; currencyID; EmptyString; asset_type_byte KDAData_Fungible]).

(** [if expired > 0 { refund }]. *)
Definition refund_residual (recipient : nat) (total claimed : Z) (currencyID : string) : KM unit :=
  let expired := total -! claimed in
  if 0 <? expired then refundExpiredFPR recipient expired currencyID else mret tt.

Fixpoint refund_kdas (recipient : nat) (kdas : gmap string KDAFPRData) (keys : list string) : KM unit :=
  match keys with
  | [] => mret tt
  | key :: rest =>
      _ ← match kdas !! key with
          | Some v => refund_residual recipient (kfpr_TotalAmount v) (kfpr_TotalClaimed v) key
          | None => mret tt
          end;
      refund_kdas recipient kdas rest
  end.

Definition pool_not_expired (fpr : FPRData) : bool :=
  let maxEpochsUnclaimed := SafeI64ToU32 (env_MaxEpochsUnclaimed env) in
  if env_fc env FixAuditChangesV6
  then env_epoch env <=? fpr_Epoch fpr + maxEpochsUnclaimed
  else env_epoch env <=? wrap_u32 (fpr_Epoch fpr + maxEpochsUnclaimed).

Definition nextEpoch : Z := wrap_u32 (env_epoch env + 1).

(** The loop over the existing pools: keep the live ones, pay out the expired
    ones, and set aside the pool of the next epoch. *)
Fixpoint deposit_loop (residualAcc : nat) (pools validFPRs : list FPRData) (newFPR : FPRData)
  : KM (list FPRData * FPRData) :=
  match pools with
  | [] => mret (validFPRs, newFPR)
  | fpr :: rest =>
      if fpr_Epoch fpr =? nextEpoch then deposit_loop residualAcc rest validFPRs fpr
      else if pool_not_expired fpr then deposit_loop residualAcc rest (validFPRs ++ [fpr]) newFPR
      else
        _ ← refund_residual residualAcc (fpr_TotalAmount fpr) (fpr_TotalClaimed fpr) KLVIdentifier;
        _ ← refund_kdas residualAcc (fpr_KDAS fpr)
              (OrderedKeys range (fpr_KDAS fpr) (env_fc env FixAuditChangesV6));
        deposit_loop residualAcc rest validFPRs newFPR
  end.

Definition emptyFPR : FPRData :=
  {| fpr_TotalAmount := 0; fpr_TotalStaked := 0; fpr_Epoch := 0; fpr_TotalClaimed := 0; fpr_KDAS := ∅ |}.

(** The pool of the next epoch after the deposit. *)
Definition deposited_pool (newFPR : FPRData) (totalStaked : Z) (currencyID : string) (amount : Z) : FPRData :=
  if str_eqb currencyID KLVIdentifier then
    {| fpr_TotalAmount := fpr_TotalAmount newFPR +! amount; fpr_TotalStaked := totalStaked;
       fpr_Epoch := nextEpoch; fpr_TotalClaimed := fpr_TotalClaimed newFPR;
       fpr_KDAS := fpr_KDAS newFPR |}
  else
    {| fpr_TotalAmount := fpr_TotalAmount newFPR; fpr_TotalStaked := totalStaked;
       fpr_Epoch := nextEpoch; fpr_TotalClaimed := fpr_TotalClaimed newFPR;
       fpr_KDAS := <[currencyID :=
          match fpr_KDAS newFPR !! currencyID with
          | Some v => {| kfpr_TotalAmount := kfpr_TotalAmount v +! amount;
                         kfpr_TotalClaimed := kfpr_TotalClaimed v |}
          | None => {| kfpr_TotalAmount := amount; kfpr_TotalClaimed := 0 |}
          end]> (fpr_KDAS newFPR) |}.

Definition Deposit (sender : string) (tc : DepositContract) : KM unit :=
  _ ← refuse_if env (match dp_ID tc with None => true | Some _ => false end) ErrFieldInvalidAssetID
        Transaction_AssetError ErrInvalidAsset;
  let assetID := default EmptyString (dp_ID tc) in
  _ ← refuse_if env (dp_Amount tc <=? 0) ErrFieldInvalidAmount Transaction_AmountInvalid ErrInvalidValue;
  '(kdaKapp, kda) ← or_refuse env ErrFieldAssetNotFound Transaction_KAPPError (GetKDA assetID);
  role ← or_refuse env ErrFieldInvalidRoleAddress Transaction_AssetError
           (lift (GetRoleByAddress kda sender));
  _ ← refuse_if env (negb (HasRoleDeposit role)) ErrFieldMissingDepositRole
        Transaction_AccountError ErrInvalidValue;
  let currencyID := default KLVIdentifier (dp_CurrencyID tc) in
  '(_, currency) ← or_code Transaction_KAPPError (GetKDA currencyID);
  _ ← checkDepositPauseAndTransferControls sender kda currency;
  '(stakingKapp, staking) ← or_refuse env ErrFieldInvalidStakingType Transaction_AssetError
                              (GetStaking assetID);
  _ ← refuse_if env (negb (InterestType staking =? StakingData_FPRI)) ErrFieldInvalidStakingType
        Transaction_AssetTypeInvalid ErrAssetTypeInvalid;
  depositorAcc ← or_code Transaction_LoadAccountError (GetExistingUserAccount sender);
  _ ← or_code Transaction_BalanceError
        (on_user depositorAcc (SubFromBalance (dp_Amount tc) (Some currencyID) cdd None));
  residualAcc ← or_code Transaction_LoadAccountError (expiredResidualAccount depositorAcc kda);
  '(validFPRs, newFPR) ← deposit_loop residualAcc (FPR staking) [] emptyFPR;
  _ ← refuse_if env ((MaxDepositKDAs <=? Z.of_nat (size (fpr_KDAS newFPR)))
                     && negb (str_eqb currencyID KLVIdentifier))
        ErrFieldMaxDepositKDAsExceeded Transaction_MaxSupplyExceeded ErrMaxSupplyExceeded;
  depositor ← or_code Transaction_LoadAccountError (user_address depositorAcc);
  _ ← Receipts_Add (NewReceipt Receipt_Deposit (env_contractID env)
        [depositor; "0"; FormatInt (dp_Amount tc); assetID; currencyID]);
  let staking' := set_FPR staking
        (validFPRs ++ [deposited_pool newFPR (TotalStaked staking) currencyID (dp_Amount tc)]) in
  _ ← or_code Transaction_SetStakingErr (SetStaking stakingKapp assetID staking');
  _ ← or_code Transaction_SaveAccountError (on_cache (UpdateKapp stakingKapp));
  _ ← or_code Transaction_KAPPError (SetKDA kdaKapp assetID kda);
  or_code Transaction_SaveAccountError (on_cache (UpdateKapp kdaKapp)).
End kda.
