(* ===== verification/WorldLemmas.v ===== *)
(** * Reasoning about handlers

    With the cache enabled every address stands for one object.  [user_obj] and
    [kapp_obj] are what the node's state says about an address; the lemmas say
    which of them each step of a handler reads and changes, so that the
    properties of a handler are statements about accounts and records, not
    about locations. *)

From S2P Require Import Prelude Common Strconv GoStd Forks Tools Permissions KdaUtils KdaData DataTrie UserAccount Codec.
From S2P Require Import Balances AccountsCache Staking World SystemAccount KdaKapp.
Local Open Scope Z_scope.

(** A message type whose decoded form is the message itself and whose only
    empty encoding is that of the all-default message. *)
Class ProtoCodec {T : Type} (C : Marshalizer T) (zero : T) : Prop := {
  pc_laws :: MarshalizerLaws T;
  pc_canon : forall x : T, canon x = x;
  pc_empty : forall x : T, Marshal x = Ok EmptyString -> x = zero;
}.

(** Two accounts an observer of balances cannot tell apart. *)
Definition same_balances `{TO : TrieOps} `{CU : Marshalizer UserKDA} (a b : userAccount) : Prop :=
  forall asset, GetBalance a asset true = GetBalance b asset true.

(** What the handlers rely on from the accounts databases: an account lives
    under its own address, and saving a user account changes neither its
    balances nor any other account. *)
Class WorldLaws `{TO : TrieOps} `{CU : Marshalizer UserKDA} (Peer : Type)
    `{UA : AccountsAdapter userAccount} `{KA : AccountsAdapter kappAccount}
    `{PA : AccountsAdapter Peer} : Prop := {
  wl_user_addr : forall a : userAccount, addr_of a = address a;
  wl_kapp_addr : forall a : kappAccount, addr_of a = kapp_Address a;
  wl_user_get : forall db k (a : userAccount), adb_GetExisting db k = Ok a -> adb_Load db k = Ok a;
  wl_kapp_get : forall db k (a : kappAccount), adb_GetExisting db k = Ok a -> adb_Load db k = Ok a;
  wl_user_load : forall db k (a : userAccount), adb_Load db k = Ok a -> addr_of a = k;
  wl_kapp_load : forall db k (a : kappAccount), adb_Load db k = Ok a -> addr_of a = k;
  wl_user_save : forall db (a : userAccount) db' a', adb_Save db a = (db', a', Ok tt) ->
    addr_of a' = addr_of a /\
    (exists b, adb_Load db' (addr_of a) = Ok b /\ same_balances b a) /\
    (forall k, k <> addr_of a -> adb_Load db' k = adb_Load db k);
}.

Create HintDb keeps.

Section world_lemmas.
Context `{TO : TrieOps} `{CU : Marshalizer UserKDA} {Peer : Type}
  `{UA : AccountsAdapter userAccount} `{KA : AccountsAdapter kappAccount}
  `{PA : AccountsAdapter Peer} {WL : WorldLaws Peer}.

Implicit Types (w : world Peer).

Definition wusers w : pool userAccount := users (w_cache w).
Definition wkapps w : pool kappAccount := kapps (w_cache w).

(** ** The accounts of a world *)

Definition pool_obj {A} `{AA : AccountsAdapter A} (p : pool A) (k : string) : option A :=
  match objMap p !! k with
  | Some l => heap p !! l
  | None => match adb_Load (adapter p) k with Ok a => Some a | Err _ => None end
  end.
Definition user_obj w (k : string) : option userAccount := pool_obj (wusers w) k.
Definition kapp_obj w (k : string) : option kappAccount := pool_obj (wkapps w) k.

(** [l] is the object of address [k]. *)
Definition user_loc w (k : string) (l : nat) : Prop := objMap (wusers w) !! k = Some l.
Definition kapp_loc w (k : string) (l : nat) : Prop := objMap (wkapps w) !! k = Some l.

Record world_ok w : Prop := {
  wo_enabled : cacheEnable (w_cache w) = true;
  wo_users : pool_wf (wusers w);
  wo_kapps : pool_wf (wkapps w);
}.

(** [w'] differs from [w] at most in the accounts satisfying the predicates;
    every handed-out object stays the object of its address. *)
Record world_step (U K : string -> Prop) w w' : Prop := {
  ws_ok : world_ok w';
  ws_user : forall k, ~ U k -> user_obj w' k = user_obj w k;
  ws_kapp : forall k, ~ K k -> kapp_obj w' k = kapp_obj w k;
  ws_user_loc : forall k l, user_loc w k l -> user_loc w' k l;
  ws_kapp_loc : forall k l, kapp_loc w k l -> kapp_loc w' k l;
}.
Definition nobody : string -> Prop := fun _ => False.

Lemma world_step_refl w : world_ok w -> world_step nobody nobody w w.
Proof. by split. Qed.

Lemma world_step_trans U K U' K' w1 w2 w3 :
  world_step U K w1 w2 -> world_step U' K' w2 w3 ->
  world_step (fun k => U k \/ U' k) (fun k => K k \/ K' k) w1 w3.
Proof.
  intros [Hok1 Hu1 Hk1 Hul1 Hkl1] [Hok2 Hu2 Hk2 Hul2 Hkl2]. split; [done|..].
  - intros k Hk. rewrite Hu2, Hu1; [done|tauto|tauto].
  - intros k Hk. rewrite Hk2, Hk1; [done|tauto|tauto].
  - auto.
  - auto.
Qed.

Lemma world_step_weaken (U K U' K' : string -> Prop) w w' :
  world_step U K w w' -> (forall k, U k -> U' k) -> (forall k, K k -> K' k) ->
  world_step U' K' w w'.
Proof.
  intros [Hok Hu Hk Hul Hkl] HU HK. split; try done.
  - intros k Hn. apply Hu. auto.
  - intros k Hn. apply Hk. auto.
Qed.

(** ** Loading *)

Lemma fetch_spec {A} `{AA : AccountsAdapter A} (load : adb -> string -> res error A) k
    (p p' : pool A) l :
  (forall db a, load db k = Ok a -> adb_Load db k = Ok a) ->
  (forall db k a, adb_Load db k = Ok a -> addr_of a = k) ->
  pool_wf p -> fetch load true k p = (p', Ok l) ->
  pool_wf p' /\ objMap p' !! k = Some l /\ (forall j, pool_obj p' j = pool_obj p j) /\
  (forall j i, objMap p !! j = Some i -> objMap p' !! j = Some i).
Proof.
  intros Hload Haddr Hwf Hf.
  assert (fetch adb_Load true k p = (p', Ok l)) as Hf'.
  { unfold fetch in *. destruct (objMap p !! k); [done|].
    destruct (load (adapter p) k) as [a|] eqn:E; [|done]. by rewrite (Hload _ _ E). }
  split; [by eapply fetch_wf|]. split; [by eapply fetch_cached|]. split; [|eauto using fetch_keeps].
  intros j. unfold fetch in Hf'. destruct (objMap p !! k) as [l0|] eqn:Ek.
  { by injection Hf' as <- <-. }
  destruct (adb_Load (adapter p) k) as [a|] eqn:Ea; [|done]. injection Hf' as <- <-.
  unfold pool_obj. cbn. destruct (decide (k = j)) as [<-|Hne].
  - rewrite lookup_insert_eq, Ek, Ea. by rewrite lookup_app_r, Nat.sub_diag by lia.
  - rewrite lookup_insert_ne by done. destruct (objMap p !! j) as [i|] eqn:Ej; [|done].
    destruct (pw_object _ Hwf _ _ Ej) as (b & Hb & _).
    rewrite lookup_app_l by (by eapply lookup_lt_Some). done.
Qed.

Lemma load_user_spec load w w' k l :
  (forall db a, load db k = Ok a -> adb_Load db k = Ok a) -> world_ok w ->
  on_cache (on_users (fun e => fetch load e k)) w = (w', Ok l) ->
  world_step nobody nobody w w' /\ user_loc w' k l.
Proof.
  intros Hload [He Hu Hk] (c & Hc & ->)%on_cache_ok. unfold on_users in Hc. rewrite He in Hc.
  destruct (fetch load true k (users (w_cache w))) as [p r] eqn:Hf. injection Hc as <- ->.
  destruct (fetch_spec load k _ _ _ Hload wl_user_load Hu Hf) as (Hwf & Hl & Ho & Hkeep).
  split; [|done]. split; [by split|intros j _; apply Ho|done|intros j i; apply Hkeep|done].
Qed.

Lemma load_kapp_spec load w w' k l :
  (forall db a, load db k = Ok a -> adb_Load db k = Ok a) -> world_ok w ->
  on_cache (on_kapps (fun e => fetch load e k)) w = (w', Ok l) ->
  world_step nobody nobody w w' /\ kapp_loc w' k l.
Proof.
  intros Hload [He Hu Hk] (c & Hc & ->)%on_cache_ok. unfold on_kapps in Hc. rewrite He in Hc.
  destruct (fetch load true k (kapps (w_cache w))) as [p r] eqn:Hf. injection Hc as <- ->.
  destruct (fetch_spec load k _ _ _ Hload wl_kapp_load Hk Hf) as (Hwf & Hl & Ho & Hkeep).
  split; [|done]. split; [by split|done|intros j _; apply Ho|done|intros j i; apply Hkeep].
Qed.

Lemma LoadUserAccount_spec w w' k l :
  world_ok w -> LoadUserAccount k w = (w', Ok l) ->
  world_step nobody nobody w w' /\ user_loc w' k l.
Proof. intros Hok. apply load_user_spec; auto. Qed.

Lemma GetExistingUserAccount_spec w w' k l :
  world_ok w -> GetExistingUserAccount k w = (w', Ok l) ->
  world_step nobody nobody w w' /\ user_loc w' k l.
Proof. intros Hok. apply load_user_spec; [intros db a; apply wl_user_get|done]. Qed.

Lemma GetExistingKapp_spec w w' k l :
  world_ok w -> on_cache (GetExistingKapp k) w = (w', Ok l) ->
  world_step nobody nobody w w' /\ kapp_loc w' k l.
Proof. intros Hok. apply load_kapp_spec; [intros db a; apply wl_kapp_get|done]. Qed.

Lemma LoadKApp_spec w w' k l :
  world_ok w -> on_cache (LoadKApp k) w = (w', Ok l) ->
  world_step nobody nobody w w' /\ kapp_loc w' k l.
Proof. intros Hok. apply load_kapp_spec; auto. Qed.

(** ** Working on an object *)

Lemma write_obj {A} `{AA : AccountsAdapter A} (p : pool A) k l (a a' : A) :
  pool_wf p -> objMap p !! k = Some l -> heap p !! l = Some a -> addr_of a' = addr_of a ->
  let p' := set_heap p (<[l := a']> (heap p)) in
  pool_wf p' /\ pool_obj p k = Some a /\ pool_obj p' k = Some a' /\
  (forall j, j <> k -> pool_obj p' j = pool_obj p j).
Proof.
  intros Hwf Hl Ha Haddr p'. split; [by eapply write_heap_wf|]. unfold pool_obj, p'. cbn. rewrite Hl.
  split; [done|]. split; [apply list_lookup_insert_eq; by eapply lookup_lt_Some|].
  intros j Hj. destruct (objMap p !! j) as [i|] eqn:Ej; [|done].
  rewrite list_lookup_insert_ne; [done|]. intros ->. apply Hj. by eapply pool_no_alias.
Qed.

Lemma on_user_spec {B} w w' k l (m : M userAccount error B) (x : B) :
  world_ok w -> user_loc w k l ->
  (forall a a' r, m a = (a', r) -> address a' = address a) ->
  on_user l m w = (w', Ok x) ->
  world_step (eq k) nobody w w' /\
  exists a a', user_obj w k = Some a /\ m a = (a', Ok x) /\ user_obj w' k = Some a'.
Proof.
  intros [He Hu Hk] Hl Haddr (a & a' & Ha & Hm & ->)%on_user_ok.
  assert (addr_of a' = addr_of a) as Haddr' by (rewrite !wl_user_addr; by eapply Haddr).
  destruct (write_obj (wusers w) k l a a' Hu Hl Ha Haddr') as (Hwf & H1 & H2 & H3).
  split; [split; [by split|intros j Hj; apply H3; congruence|done..]|]. eauto.
Qed.

Lemma on_kapp_spec {B} w w' k l (m : M kappAccount error B) (x : B) :
  world_ok w -> kapp_loc w k l ->
  (forall a a' r, m a = (a', r) -> kapp_Address a' = kapp_Address a) ->
  on_kapp l m w = (w', Ok x) ->
  world_step nobody (eq k) w w' /\
  exists a a', kapp_obj w k = Some a /\ m a = (a', Ok x) /\ kapp_obj w' k = Some a'.
Proof.
  intros [He Hu Hk] Hl Haddr (a & a' & Ha & Hm & ->)%on_kapp_ok.
  assert (addr_of a' = addr_of a) as Haddr' by (rewrite !wl_kapp_addr; by eapply Haddr).
  destruct (write_obj (wkapps w) k l a a' Hk Hl Ha Haddr') as (Hwf & H1 & H2 & H3).
  split; [split; [by split|done|intros j Hj; apply H3; congruence|done..]|]. eauto.
Qed.

(** *** Operations keep the address of their account *)

Definition keeps_address {B} (m : M userAccount error B) : Prop :=
  forall a a' r, m a = (a', r) -> address a' = address a.

Lemma keeps_bind {B D} (m : M userAccount error B) (f : B -> M userAccount error D) :
  keeps_address m -> (forall x, keeps_address (f x)) -> keeps_address (mbind f m).
Proof.
  intros Hm Hf a a' r. unfold mbind, M_bind. destruct (m a) as [a1 [x|e]] eqn:E.
  - intros H. rewrite (Hf _ _ _ _ H). eauto.
  - intros [= <- _]. eauto.
Qed.
Lemma keeps_ret {B} (x : B) : keeps_address (mret x).
Proof. by intros a a' r [= <- _]. Qed.
Lemma keeps_lift {B} (r : res error B) : keeps_address (lift r).
Proof. by intros a a' r' [= <- _]. Qed.
Lemma keeps_get : keeps_address get.
Proof. by intros a a' r [= <- _]. Qed.
Lemma keeps_reject b e : keeps_address (reject_if b e).
Proof. intros a a' r. unfold reject_if. by destruct b; intros [= <- _]. Qed.
Lemma keeps_with_Balance f : keeps_address (modify (fun a => with_Balance a (f a))).
Proof. by intros a a' r [= <- _]. Qed.
Lemma keeps_SaveKeyValue k v : keeps_address (SaveKeyValueM k v).
Proof. intros a a' r. unfold SaveKeyValueM. by destruct (SaveKeyValue _ _ _); intros [= <- _]. Qed.

Hint Resolve keeps_ret keeps_lift keeps_get keeps_reject keeps_with_Balance keeps_SaveKeyValue : keeps.
Ltac keeps := repeat (first [apply keeps_bind; [|intros ?] | solve [auto with keeps] | case_match]).

Section keeps_balance.
Lemma keeps_SetUserKDA asset n u : keeps_address (SetUserKDA asset n u).
Proof. unfold SetUserKDA. keeps. Qed.
Lemma keeps_stored o asset n cdd : keeps_address (user_kda_or_stored o asset n cdd).
Proof. unfold user_kda_or_stored. keeps. Qed.
Hint Resolve keeps_SetUserKDA keeps_stored : keeps.
Lemma keeps_AddToBalance v asset cdd o : keeps_address (AddToBalance v asset cdd o).
Proof. unfold AddToBalance. keeps. Qed.
Lemma keeps_SubFromBalance v asset cdd o : keeps_address (SubFromBalance v asset cdd o).
Proof. unfold SubFromBalance. keeps. Qed.
End keeps_balance.

(** ** Reading and writing records *)

(** The message an application account stores under a key. *)
Definition kapp_value {T} `{Marshalizer T} w (kapp key : string) : option T :=
  a ← kapp_obj w kapp;
  match RetrieveValue (kapp_tracker a) key with
  | Ok b => if slen b =? 0 then None else match Unmarshal b with Ok x => Some x | Err _ => None end
  | Err _ => None
  end.
(** The record of an asset. *)
Definition kapp_record {T} `{Marshalizer T} w (kapp id : string) : option T :=
  kapp_value w kapp (ToKDAKey id EmptyString).

Lemma kapp_value_same {T} `{Marshalizer T} w w' kapp key :
  kapp_obj w' kapp = kapp_obj w kapp -> kapp_value w' kapp key = kapp_value w kapp key.
Proof. unfold kapp_value. by intros ->. Qed.

Lemma kapp_read_spec {B} w w' k l (m : M kappAccount error B) x :
  world_ok w -> kapp_loc w k l -> (forall a, (m a).1 = a) -> on_kapp l m w = (w', Ok x) ->
  world_step nobody nobody w w' /\ exists a, kapp_obj w k = Some a /\ (m a).2 = Ok x.
Proof.
  intros Hok Hl Hr H.
  apply (on_kapp_spec _ _ k) in H as [[Hok' Hu Hk Hul Hkl] (a & a' & Ha & Hm & Ha')]; [|done..|].
  - pose proof (Hr a) as E. rewrite Hm in E. cbn in E. subst a'. split.
    + split; [done|auto| |auto|auto]. intros j _. destruct (decide (j = k)) as [->|Hj]; [congruence|].
      apply Hk. congruence.
    + exists a. by rewrite Hm.
  - intros a a' r Hm. pose proof (Hr a) as E. rewrite Hm in E. cbn in E. by subst.
Qed.

Lemma user_read_spec {B} w w' k l (m : M userAccount error B) x :
  world_ok w -> user_loc w k l -> (forall a, (m a).1 = a) -> on_user l m w = (w', Ok x) ->
  world_step nobody nobody w w' /\ exists a, user_obj w k = Some a /\ (m a).2 = Ok x.
Proof.
  intros Hok Hl Hr H.
  apply (on_user_spec _ _ k) in H as [[Hok' Hu Hk Hul Hkl] (a & a' & Ha & Hm & Ha')]; [|done..|].
  - pose proof (Hr a) as E. rewrite Hm in E. cbn in E. subst a'. split.
    + split; [done| |auto|auto|auto]. intros j _. destruct (decide (j = k)) as [->|Hj]; [congruence|].
      apply Hu. congruence.
    + exists a. by rewrite Hm.
  - intros a a' r Hm. pose proof (Hr a) as E. rewrite Hm in E. cbn in E. by subst.
Qed.

(** Steps that change no account compose to one. *)
Lemma quiet_trans w1 w2 w3 :
  world_step nobody nobody w1 w2 -> world_step nobody nobody w2 w3 -> world_step nobody nobody w1 w3.
Proof.
  intros H1 H2. eapply world_step_weaken; [exact (world_step_trans _ _ _ _ _ _ _ H1 H2)|..];
    unfold nobody; tauto.
Qed.
Lemma quiet_kapp w w' k : world_step nobody nobody w w' -> kapp_obj w' k = kapp_obj w k.
Proof. intros H. apply (ws_kapp _ _ _ _ H). unfold nobody. tauto. Qed.
Lemma quiet_user w w' k : world_step nobody nobody w w' -> user_obj w' k = user_obj w k.
Proof. intros H. apply (ws_user _ _ _ _ H). unfold nobody. tauto. Qed.

Lemma get_record_spec {T} `{Marshalizer T} w w' kapp missing id l (x : T) :
  world_ok w -> get_record kapp missing id w = (w', Ok (l, x)) ->
  world_step nobody nobody w w' /\ kapp_loc w' kapp l /\ kapp_record w kapp id = Some x.
Proof.
  intros Hok Hg. unfold get_record in Hg.
  apply M_bind_ok in Hg as (w1 & l1 & [Hs1 Hl1]%GetExistingKapp_spec & Hg); [|done].
  apply M_bind_ok in Hg as (w2 & b & Hr & Hg).
  apply (kapp_read_spec _ _ kapp) in Hr as [Hs2 (a & Ha & Hb)]; [|apply Hs1|done|done].
  m_ok. zify_bools. cbn in Hb.
  split; [by eapply quiet_trans|].
  split; [by apply (ws_kapp_loc _ _ _ _ Hs2)|].
  unfold kapp_record, kapp_value. rewrite <- (quiet_kapp _ _ _ Hs1), Ha. cbn. rewrite Hb.
  rewrite (proj2 (Z.eqb_neq _ _)) by done.
  match goal with H : Unmarshal _ = Ok _ |- _ => by rewrite H end.
Qed.

(** Writing a message under a key. *)
Lemma save_value_spec {T} (C : Marshalizer T) (zero : T) {PC : ProtoCodec C zero}
    w w' kapp l key data (x : T) :
  world_ok w -> kapp_loc w kapp l -> x <> zero -> Marshal x = Ok data ->
  on_kapp l (kapp_SaveKeyValue key data) w = (w', Ok tt) ->
  world_step nobody (eq kapp) w w' /\ kapp_value w' kapp key = Some x /\
  (forall T' (C' : Marshalizer T') key', key' <> key ->
     @kapp_value T' C' w' kapp key' = @kapp_value T' C' w kapp key').
Proof.
  intros Hok Hl Hz Hm Hs.
  apply (on_kapp_spec _ _ kapp) in Hs as [Hst (a & a' & Ha & Hsv & Ha')]; [|done|done|].
  2: { intros b b' r. unfold kapp_SaveKeyValue. by destruct (SaveKeyValue _ _ _); intros [= <- _]. }
  unfold kapp_SaveKeyValue in Hsv.
  destruct (SaveKeyValue (kapp_tracker a) key data) as [t|] eqn:Et; [|done].
  injection Hsv as <-. split; [done|]. unfold kapp_value. rewrite Ha', Ha. cbn. split.
  - assert (data <> EmptyString) as Hne by (intros ->; by apply pc_empty in Hm).
    rewrite (retrieve_save_eq _ _ _ _ Et Hne).
    rewrite (proj2 (Z.eqb_neq _ _)) by (by intros E%slen_zero).
    rewrite (unmarshal_marshal _ _ Hm). by rewrite pc_canon.
  - intros T' C' key' Hk. by rewrite (retrieve_save_ne _ _ _ _ _ Et).
Qed.

Lemma set_record_spec {T} (C : Marshalizer T) (zero : T) {PC : ProtoCodec C zero} w w' kapp l id (x : T) :
  world_ok w -> kapp_loc w kapp l -> x <> zero -> set_record l id x w = (w', Ok tt) ->
  world_step nobody (eq kapp) w w' /\ kapp_record w' kapp id = Some x /\
  (forall T' (C' : Marshalizer T') id', id' <> id ->
     @kapp_record T' C' w' kapp id' = @kapp_record T' C' w kapp id').
Proof.
  intros Hok Hl Hz Hs. unfold set_record in Hs.
  apply M_bind_ok in Hs as (w1 & data & Hm & Hs). unfold lift in Hm. injection Hm as <- Hm.
  destruct (save_value_spec C zero _ _ kapp l _ _ x Hok Hl Hz Hm Hs) as (Hst & Hv & Hf).
  split; [done|]. split; [done|]. intros T' C' id' Hid. apply Hf. by intros E%ToKDAKey_inj_nil.
Qed.

(** ** Updates and saves *)

Lemma update_enabled {B} w w' (m : M (accountsCache userAccount kappAccount Peer) error B) x :
  (forall c, cacheEnable c = true -> (m c).1 = c) -> world_ok w -> on_cache m w = (w', Ok x) -> w' = w.
Proof.
  intros Hm Hok (c & Hc & ->)%on_cache_ok. specialize (Hm _ (wo_enabled _ Hok)). rewrite Hc in Hm.
  cbn in Hm. subst c. by destruct w.
Qed.

Lemma UpdateUser_enabled w w' l x : world_ok w -> on_cache (UpdateUser l) w = (w', Ok x) -> w' = w.
Proof. apply update_enabled. intros [e u k p] Hc. cbn in Hc. by subst. Qed.
Lemma UpdateKapp_enabled w w' l x : world_ok w -> on_cache (UpdateKapp l) w = (w', Ok x) -> w' = w.
Proof. apply update_enabled. intros [e u k p] Hc. cbn in Hc. by subst. Qed.

(** The balance of an address in an asset. *)
Definition user_balance w (k : string) (asset : slice) : Z :=
  match user_obj w k with Some a => GetBalance a asset true | None => 0 end.

Lemma user_balance_same w w' k asset :
  user_obj w' k = user_obj w k -> user_balance w' k asset = user_balance w k asset.
Proof. unfold user_balance. by intros ->. Qed.

(** Saving a user account drops it from the cache and changes no balance. *)
Lemma save_user_spec w w' k l :
  world_ok w -> user_loc w k l -> on_cache (cache_SaveUser l) w = (w', Ok tt) ->
  world_ok w' /\ (forall j, kapp_obj w' j = kapp_obj w j) /\
  (forall j i, kapp_loc w j i -> kapp_loc w' j i) /\
  (forall j asset, user_balance w' j asset = user_balance w j asset).
Proof.
  intros [He Hu Hk] Hl (c & Hc & ->)%on_cache_ok.
  unfold cache_SaveUser, on_users, SaveUser, mbind, M_bind, get, modify, save_object_at in Hc.
  destruct (pw_object _ Hu _ _ Hl) as (a & Ha & Hak). unfold wusers in Ha, Hl. rewrite Ha in Hc.
  destruct (adb_Save (adapter (users (w_cache w))) a) as [[db a'] [[]|]] eqn:Hs; [|done].
  injection Hc as <-. destruct (wl_user_save _ _ _ _ Hs) as (Haddr & (b & Hb & Hsame) & Hother).
  assert (pool_wf {| adapter := db; heap := <[l:=a']> (heap (users (w_cache w)));
                     objMap := delete (addr_of a) (objMap (users (w_cache w)));
                     objList := remove_first (addr_of a) (objList (users (w_cache w))) |}) as Hwf.
  { destruct Hu as [Hn Hd Ho]. destruct (remove_first_spec (addr_of a) _ Hn) as [Hn' Hin].
    split; cbn; [done| |].
    - intros j. rewrite Hin, Hd. destruct (decide (addr_of a = j)) as [<-|Hne].
      + rewrite lookup_delete_eq. split; [by intros []|by intros [? ?]].
      + rewrite lookup_delete_ne by done. split; [by intros [? _]|]. intros ?. by split.
    - intros j i [Hne Hj]%lookup_delete_Some. destruct (Ho j i Hj) as (x & Hx & Hxj).
      exists x. split; [|done]. rewrite list_lookup_insert_ne; [done|]. intros ->.
      unfold wusers in Hx. congruence. }
  split; [by split|]. split; [done|]. split; [done|].
  intros j asset. unfold user_balance, user_obj, pool_obj, wusers. cbn. rewrite Hak in *.
  destruct (decide (k = j)) as [<-|Hne].
  - rewrite lookup_delete_eq, Hb, Hl, Ha. apply Hsame.
  - rewrite lookup_delete_ne by done. destruct (objMap (users (w_cache w)) !! j) as [i|] eqn:Ej.
    + rewrite list_lookup_insert_ne; [done|]. intros ->.
      apply Hne. symmetry. by eapply (pool_no_alias _ _ _ _ Hu).
    + by rewrite Hother by congruence.
Qed.

(** ** Balance operations of a handler *)

Context {UL : UserKDACodec CU}.

Lemma credit_spec w w' k l value asset r :
  world_ok w -> user_loc w k l -> is_i64 value -> 0 <= user_balance w k asset <= MaxInt64 ->
  on_user l (AddToBalance value asset true None) w = (w', Ok r) ->
  world_step (eq k) nobody w w' /\ 0 <= value /\
  user_balance w' k asset = user_balance w k asset + value /\
  user_balance w' k asset <= MaxInt64 /\
  (forall asset', default KLVIdentifier asset' <> default KLVIdentifier asset ->
     user_balance w' k asset' = user_balance w k asset').
Proof.
  intros Hok Hl Hv Hb H.
  apply (on_user_spec _ _ k) in H as [Hst (a & a' & Ha & Hadd & Ha')];
    [|done|done|apply keeps_AddToBalance].
  split; [done|]. unfold user_balance in *. rewrite Ha in *. rewrite Ha'.
  apply AddToBalance_ok in Hadd as (Hv0 & Hn & [Heq Hf]); [|by left].
  destruct (add_overflow_iff (GetBalance a asset true) value) as [_ Hov]; [ilia..|].
  rewrite wrap_i64_id in Heq by ilia. split; [done|]. split; [done|]. split; [ilia|].
  intros asset' Hne. by apply Hf.
Qed.

Lemma debit_spec w w' k l value asset r :
  world_ok w -> user_loc w k l -> is_i64 value -> 0 <= user_balance w k asset <= MaxInt64 ->
  on_user l (SubFromBalance value asset true None) w = (w', Ok r) ->
  world_step (eq k) nobody w w' /\ 0 <= value <= user_balance w k asset /\
  user_balance w' k asset = user_balance w k asset - value /\
  (forall asset', default KLVIdentifier asset' <> default KLVIdentifier asset ->
     user_balance w' k asset' = user_balance w k asset').
Proof.
  intros Hok Hl Hv Hb H.
  apply (on_user_spec _ _ k) in H as [Hst (a & a' & Ha & Hsub & Ha')];
    [|done|done|apply keeps_SubFromBalance].
  split; [done|]. unfold user_balance in *. rewrite Ha in *. rewrite Ha'.
  apply SubFromBalance_ok in Hsub as (Hv0 & Hn & [Heq Hf]); [|by left].
  rewrite wrap_i64_id in Hn, Heq by ilia. split; [lia|]. split; [done|].
  intros asset' Hne. by apply Hf.
Qed.

Lemma user_address_spec w w' l k addr :
  world_ok w -> user_loc w k l -> user_address l w = (w', Ok addr) -> world_step nobody nobody w w'.
Proof. intros Hok Hl H. by apply (user_read_spec _ _ k) in H as [Hst _]. Qed.

Lemma user_address_value w w' k l addr :
  world_ok w -> user_loc w k l -> user_address l w = (w', Ok addr) -> addr = k.
Proof.
  intros Hok Hl H. apply (user_read_spec _ _ k) in H as [_ (a & Ha & Hx)]; [|done..].
  cbn in Hx. injection Hx as <-. unfold user_loc in Hl. unfold user_obj, pool_obj in Ha. rewrite Hl in Ha.
  destruct (pw_object _ (wo_users _ Hok) _ _ Hl) as (b & Hb & <-).
  rewrite wl_user_addr. congruence.
Qed.

Lemma same_cache_quiet w w' :
  world_ok w -> w_cache w' = w_cache w -> world_step nobody nobody w w'.
Proof.
  intros [He Hu Hk] E.
  split; [split|..]; unfold user_obj, kapp_obj, user_loc, kapp_loc, wusers, wkapps; by rewrite E.
Qed.

Lemma Receipts_Add_spec w w' r x :
  world_ok w -> Receipts_Add r w = (w', Ok x) -> world_step nobody nobody w w'.
Proof. intros Hok [= <-]. by apply same_cache_quiet. Qed.
End world_lemmas.

(** One step of a handler known to succeed. *)
Tactic Notation "step" hyp(H) "as" simple_intropattern(w) simple_intropattern(x) ident(Hs) :=
  apply M_bind_ok in H; destruct H as (w & x & Hs & H).
(** A guard passed. *)
Ltac guard_ok H :=
  apply M_bind_ok in H;
  let g := fresh "G" in
  destruct H as (? & ? & g & H);
  first [apply refuse_if_ok in g | apply reject_if_ok in g];
  destruct g as [g ->]; zify_bools.
