(* ===== verification/KdaSupply.v ===== *)
(** * Supply of assets

    What a successful [Mint] and a successful [Burn] of a fungible asset do to
    the asset record and to the balances, and who may do it; and how a mint of
    [n] non-fungible items numbers them after the minted counter, under fresh
    numbers, with nothing else the receiver owns changed. *)

From S2P Require Import Prelude Common Strconv GoStd Forks Tools Permissions KdaUtils KdaData DataTrie UserAccount Codec Balances Staking AccountsCache World SystemAccount KdaKapp WorldLemmas.
Local Open Scope Z_scope.

(** The all-default asset record. *)
Definition zeroKDA : KDAData :=
  {| AssetType := KDAData_Fungible; kda_ID := EmptyString; kda_Name := EmptyString;
     Ticker := EmptyString; OwnerAddress := EmptyString; Logo := EmptyString; URIs := ∅;
     Precision := 0; InitialSupply := 0; CirculatingSupply := 0; MaxSupply := 0; MintedValue := 0;
     BurnedValue := 0; IssueDate := 0;
     Royalties := {| royalties_Address := EmptyString; TransferPercentage := []; TransferFixed := 0;
                     MarketPercentage := 0; MarketFixed := 0; SplitRoyalties := ∅;
                     ITOPercentage := 0; ITOFixed := 0 |};
     Properties := {| CanFreeze := false; CanWipe := false; CanPause := false; CanMint := false;
                      CanBurn := false; CanChangeOwner := false; CanAddRoles := false;
                      LimitTransfer := false |};
     Attributes := {| IsPaused := false; IsNFTMintStopped := false;
                      IsRoyaltiesChangeStopped := false; IsNFTMetadataChangeStopped := false |};
     Roles := []; AdminAddress := EmptyString |}.

(** The supply counters of a record as every operation on assets keeps them:
    what circulates was minted and is not negative. *)
Definition supply_ok (kda : KDAData) : Prop :=
  0 <= CirculatingSupply kda <= MintedValue kda /\ MintedValue kda <= MaxInt64.

(** The asset a trigger names: the part before the item separator. *)
Definition asset_of (kdaID : slice) : string :=
  match kdaID with
  | None => KLVIdentifier
  | Some s => match split_at sep s with a :: _ => a | [] => KLVIdentifier end
  end.

Section supply.
Context `{TO : TrieOps} `{CU : Marshalizer UserKDA} {UL : UserKDACodec CU} {Peer : Type}
  `{UA : AccountsAdapter userAccount} `{KA : AccountsAdapter kappAccount}
  `{PA : AccountsAdapter Peer} {WL : WorldLaws Peer}
  `{CK : Marshalizer KDAData} {KL : ProtoCodec CK zeroKDA}
  `{CS : Marshalizer StakingData} `{CM : Marshalizer MetaV2}.
Variable env : kappEnv.
Hypothesis Hsc : env_fc env EnableSmartContracts = true.

Implicit Types (w : world Peer) (tc : AssetTriggerContract).

Abbreviation asset_record w id := (kapp_record (T := KDAData) w KDAKAppAddress id).

Lemma parseAndLoadKDA_spec w w' kdaID id internal l kda :
  world_ok w -> parseAndLoadKDA env kdaID w = (w', Ok (id, internal, l, kda)) ->
  world_step nobody nobody w w' /\ id = asset_of kdaID /\ kapp_loc w' KDAKAppAddress l /\
  asset_record w id = Some kda.
Proof.
  intros Hok H. unfold parseAndLoadKDA in H. w_ok.
  match goal with H : GetKDA _ _ = (_, Ok ?p) |- _ => destruct p as [l' k'];
    apply get_record_spec in H as (Hst & Hl & Hrec); [|done] end.
  assert (id = asset_of kdaID /\ l' = l /\ k' = kda /\ w0 = w') as (-> & -> & -> & ->).
  { unfold asset_of. destruct kdaID as [s|]; cbn in H.
    - destruct (split_at sep s) as [|a [|i rest]]; w_ok; done.
    - w_ok; done. }
  split; [done|]. split; [done|]. split; [done|]. unfold asset_of in *. by destruct kdaID.
Qed.

(** The record of an asset with some supply is not the default message. *)
Lemma minted_not_zero kda : 0 < MintedValue kda -> kda <> zeroKDA.
Proof. intros H ->. cbn in H. lia. Qed.
Lemma burned_not_zero kda : 0 < BurnedValue kda -> kda <> zeroKDA.
Proof. intros H ->. cbn in H. lia. Qed.

(** The common tail of the handlers: write the record back. *)
Lemma store_record_spec w w' l id kda lu :
  world_ok w -> kapp_loc w KDAKAppAddress l -> kda <> zeroKDA ->
  (_ ← or_code Transaction_SaveAccountError (on_cache (UpdateUser lu));
   _ ← or_code Transaction_KAPPError (SetKDA l id kda);
   or_code Transaction_SaveAccountError (on_cache (UpdateKapp l))) w = (w', Ok tt) ->
  world_step nobody (eq KDAKAppAddress) w w' /\ asset_record w' id = Some kda /\
  (forall id', id' <> id -> asset_record w' id' = asset_record w id').
Proof.
  intros Hok Hl Hz H. unfold or_code in H.
  step H as w1 [] Hu. apply with_err_ok, UpdateUser_enabled in Hu; [|done]. subst w1.
  step H as w2 [] Hs. apply with_err_ok in Hs.
  destruct (set_record_spec CK zeroKDA _ _ KDAKAppAddress l id kda Hok Hl Hz Hs) as (Hst & Hr & Hf).
  apply with_err_ok, UpdateKapp_enabled in H; [|apply Hst]. subst w2. auto.
Qed.

Lemma processFungibleMint_spec w w' tc id to lu lk kda :
  world_ok w -> user_loc w to lu -> kapp_loc w KDAKAppAddress lk -> is_i64 (at_Amount tc) ->
  0 <= user_balance w to (Some id) <= MaxInt64 ->
  processFungibleMint env tc id lu lk kda w = (w', Ok tt) ->
  let kda' := mint_supply kda (at_Amount tc) in
  0 < MintedValue kda' /\ (0 < MaxSupply kda -> CirculatingSupply kda' <= MaxSupply kda) /\
  world_step (eq to) (eq KDAKAppAddress) w w' /\
  user_balance w' to (Some id) = user_balance w to (Some id) + at_Amount tc /\
  asset_record w' id = Some kda' /\
  (forall id', id' <> id -> asset_record w' id' = asset_record w id').
Proof.
  intros Hok Hu Hk Hi Hb H kda'. unfold processFungibleMint in H. fold kda' in H.
  guard_ok H. guard_ok H. rewrite Hsc in H.
  step H as w1 r Hadd. apply with_err_ok in Hadd.
  destruct (credit_spec _ _ to lu _ _ _ Hok Hu Hi Hb Hadd) as (Hst1 & Hv & Hbal & _ & _).
  step H as w2 addr Haddr. apply with_err_ok, (user_address_spec _ _ _ to) in Haddr;
    [|apply Hst1|by apply (ws_user_loc _ _ _ _ Hst1)].
  step H as w3 [] Hrc. apply Receipts_Add_spec in Hrc; [|apply Haddr].
  pose proof (quiet_trans _ _ _ Haddr Hrc) as Hq.
  apply store_record_spec in H as (Hst4 & Hrec & Hoth);
    [|apply Hrc|by apply (ws_kapp_loc _ _ _ _ Hq), (ws_kapp_loc _ _ _ _ Hst1)|by apply minted_not_zero].
  pose proof (world_step_trans _ _ _ _ _ _ _ Hst1
    (world_step_trans _ _ _ _ _ _ _ Hq Hst4)) as Hst.
  split; [done|]. split; [intros; destruct (Z.ltb_spec 0 (MaxSupply kda')); [cbn in *; zify_bools|cbn in *]; lia|].
  split; [eapply world_step_weaken; [exact Hst|unfold nobody; tauto..]|].
  split; [|split; [done|]].
  - rewrite <- Hbal. apply user_balance_same.
    rewrite (ws_user _ _ _ _ Hst4) by (unfold nobody; tauto). by apply quiet_user.
  - intros id' Hid. rewrite (Hoth id' Hid). apply kapp_value_same.
    rewrite (quiet_kapp _ _ _ Hq). apply (ws_kapp _ _ _ _ Hst1). unfold nobody. tauto.
Qed.

(** The permission checks of [Mint] and what they leave to do. *)
Lemma Mint_fungible w w' sender tc kda :
  world_ok w -> asset_record w (asset_of (at_AssetID tc)) = Some kda ->
  AssetType kda = KDAData_Fungible ->
  Mint env sender tc w = (w', Ok tt) ->
  exists role w1 lu lk,
    GetRoleByAddress kda sender = Ok role /\ HasRoleMint role = true /\
    CanMint (Properties kda) = true /\ 0 < at_Amount tc /\
    (env_fc env FixAuditChangesV6 = true -> IsPaused (Attributes kda) = false) /\
    world_step nobody nobody w w1 /\ user_loc w1 (ToAddress tc) lu /\
    kapp_loc w1 KDAKAppAddress lk /\
    processFungibleMint env tc (asset_of (at_AssetID tc)) lu lk kda w1 = (w', Ok tt).
Proof.
  intros Hok Hrec Hty H. unfold Mint in H. guard_ok H.
  step H as w1 lu Hlu. apply with_err_ok, LoadUserAccount_spec in Hlu as [Hs1 Hul]; [|done].
  step H as w2 [[[id internal] lk] kda0] Hp.
  apply parseAndLoadKDA_spec in Hp as (Hs2 & -> & Hkl & Hrec2); [|apply Hs1].
  unfold kapp_record in Hrec, Hrec2.
  rewrite (kapp_value_same _ _ _ _ (quiet_kapp _ _ KDAKAppAddress Hs1)), Hrec in Hrec2.
  injection Hrec2 as <-.
  guard_ok H. guard_ok H. step H as w3 role Hrole. apply or_refuse_ok in Hrole.
  unfold lift in Hrole. injection Hrole as <- Hrole.
  guard_ok H. unfold checkMintNotPaused in H. guard_ok H. guard_ok H. guard_ok H.
  rewrite Hty in H. exists role, w2, lu, lk.
  assert (at_Amount tc <> 0).
  { intros E. rewrite E, Hty in *. cbn in *. rewrite bool_decide_eq_false_2 in * by done. done. }
  repeat match goal with |- _ /\ _ => split end; try done; try lia.
  - intros Hv6. rewrite Hv6 in *. done.
  - by eapply quiet_trans.
  - by apply (ws_user_loc _ _ _ _ Hs2).
Qed.

Lemma burn_fungible_spec w w' tc id internal from lu kda kda' :
  world_ok w -> user_loc w from lu -> is_i64 (at_Amount tc) ->
  0 <= user_balance w from (Some id) <= MaxInt64 ->
  burn_fungible env tc id internal lu kda w = (w', Ok kda') ->
  kda' = burn_supply kda (at_Amount tc) /\ 0 < at_Amount tc /\
  0 < BurnedValue kda' /\ 0 <= CirculatingSupply kda' /\
  world_step (eq from) nobody w w' /\
  at_Amount tc <= user_balance w from (Some id) /\
  user_balance w' from (Some id) = user_balance w from (Some id) - at_Amount tc.
Proof.
  intros Hok Hu Hi Hb H. unfold burn_fungible in H.
  guard_ok H. guard_ok H. guard_ok H. rewrite Hsc in H.
  step H as w1 r Hsub. apply with_err_ok in Hsub.
  destruct (debit_spec _ _ from lu _ _ _ Hok Hu Hi Hb Hsub) as (Hst1 & Hv & Hbal & _).
  step H as w2 addr Haddr. apply with_err_ok, (user_address_spec _ _ _ from) in Haddr;
    [|apply Hst1|by apply (ws_user_loc _ _ _ _ Hst1)].
  step H as w3 [] Hrc. apply Receipts_Add_spec in Hrc; [|apply Haddr].
  pose proof (quiet_trans _ _ _ Haddr Hrc) as Hq. injection H as <- <-.
  unfold isValidCirculatingSupply in *. rewrite Hsc in *. zify_bools.
  split; [done|]. split; [lia|]. split; [done|]. split; [done|].
  split; [eapply world_step_weaken;
    [exact (world_step_trans _ _ _ _ _ _ _ Hst1 Hq)|unfold nobody; tauto..]|].
  split; [lia|]. rewrite <- Hbal. apply user_balance_same, quiet_user, Hq.
Qed.

(** The permission checks of [Burn] and what they leave to do. *)
Lemma Burn_fungible w w' sender tc kda :
  world_ok w -> asset_record w (asset_of (at_AssetID tc)) = Some kda ->
  AssetType kda = KDAData_Fungible ->
  Burn env sender tc w = (w', Ok tt) ->
  exists internal w1 w2 lu lk kda',
    CanBurn (Properties kda) = true /\
    (TriggerType tc = AssetTriggerContract_Wipe ->
       IsOwnerOrAdmin kda sender = true /\ CanWipe (Properties kda) = true) /\
    world_step nobody nobody w w1 /\ user_loc w1 (ToAddress tc) lu /\
    kapp_loc w1 KDAKAppAddress lk /\
    burn_fungible env tc (asset_of (at_AssetID tc)) internal lu kda w1 = (w2, Ok kda') /\
    (_ ← or_code Transaction_SaveAccountError (on_cache (UpdateUser lu));
     _ ← or_code Transaction_KAPPError (SetKDA lk (asset_of (at_AssetID tc)) kda');
     or_code Transaction_SaveAccountError (on_cache (UpdateKapp lk))) w2 = (w', Ok tt).
Proof.
  intros Hok Hrec Hty H. unfold Burn in H.
  step H as w1 [[[id internal] lk] kda0] Hp.
  apply parseAndLoadKDA_spec in Hp as (Hs1 & -> & Hkl & Hrec2); [|done].
  rewrite Hrec in Hrec2. injection Hrec2 as <-.
  step H as w1' [] Hw.
  assert (w1' = w1 /\ (TriggerType tc = AssetTriggerContract_Wipe ->
       IsOwnerOrAdmin kda sender = true /\ CanWipe (Properties kda) = true)) as [-> Hwipe].
  { destruct (decide (TriggerType tc = AssetTriggerContract_Wipe)).
    - guard_ok Hw. apply refuse_if_ok in Hw as [G' ->]. zify_bools. done.
    - by injection Hw as <-. }
  guard_ok H. guard_ok H.
  step H as w2 lu Hlu. apply with_err_ok, LoadUserAccount_spec in Hlu as [Hs2 Hul]; [|apply Hs1].
  rewrite Hty in H. step H as w3 kda' Hburn.
  exists internal, w2, w3, lu, lk, kda'.
  split; [done|]. split; [done|]. split; [by eapply quiet_trans|].
  split; [done|]. split; [by apply (ws_kapp_loc _ _ _ _ Hs2)|]. done.
Qed.

(** ** Properties *)

(** C31: with smart contracts active, a mint of a fungible asset succeeds only for
    a sender holding the mint role of a mintable asset (under the V6 rules an
    unpaused one), and then creates exactly its amount: the receiver's balance
    and the circulating and minted supplies grow by it, the circulating supply
    stays within the maximum supply, no counter wraps around, and no other
    account or asset changes. *)
Theorem fungible_mint_exact w w' sender tc kda :
  world_ok w -> asset_record w (asset_of (at_AssetID tc)) = Some kda ->
  AssetType kda = KDAData_Fungible -> is_i64 (at_Amount tc) ->
  supply_ok kda -> 0 <= user_balance w (ToAddress tc) (Some (asset_of (at_AssetID tc))) <= MaxInt64 ->
  Mint env sender tc w = (w', Ok tt) ->
  (exists role, GetRoleByAddress kda sender = Ok role /\ HasRoleMint role = true) /\
  CanMint (Properties kda) = true /\ 0 < at_Amount tc /\
  (env_fc env FixAuditChangesV6 = true -> IsPaused (Attributes kda) = false) /\
  asset_record w' (asset_of (at_AssetID tc)) =
    Some (set_supply kda (CirculatingSupply kda + at_Amount tc) (MintedValue kda + at_Amount tc)
            (BurnedValue kda)) /\
  (0 < MaxSupply kda -> CirculatingSupply kda + at_Amount tc <= MaxSupply kda) /\
  MintedValue kda + at_Amount tc <= MaxInt64 /\
  user_balance w' (ToAddress tc) (Some (asset_of (at_AssetID tc))) =
    user_balance w (ToAddress tc) (Some (asset_of (at_AssetID tc))) + at_Amount tc /\
  (forall k, k <> ToAddress tc -> user_obj w' k = user_obj w k) /\
  (forall id, id <> asset_of (at_AssetID tc) -> asset_record w' id = asset_record w id).
Proof.
  intros Hok Hrec Hty Hi [Hc Hm] Hb HM.
  destruct (Mint_fungible _ _ _ _ _ Hok Hrec Hty HM)
    as (role & w1 & lu & lk & Hrole & Hmint & Hcan & Hpos & Hpause & Hq & Hul & Hkl & Hrun).
  assert (user_balance w1 (ToAddress tc) (Some (asset_of (at_AssetID tc))) =
          user_balance w (ToAddress tc) (Some (asset_of (at_AssetID tc)))) as Hb1
    by (apply user_balance_same, quiet_user, Hq).
  rewrite <- Hb1 in Hb. apply (processFungibleMint_spec _ _ _ _ (ToAddress tc)) in Hrun
    as (Hmv & Hcap & Hst & Hbal & Hr & Hoth); [|apply Hq|done..].
  unfold mint_supply in *. cbn in Hmv, Hcap.
  assert (MintedValue kda + at_Amount tc <= MaxInt64).
  { destruct (Z_le_gt_dec (MintedValue kda + at_Amount tc) MaxInt64); [done|].
    pose proof (wrap_i64_over (MintedValue kda + at_Amount tc)). ilia. }
  rewrite !wrap_i64_id in Hr by ilia. rewrite wrap_i64_id in Hcap by ilia.
  split; [eauto|]. split; [done|]. split; [done|]. split; [done|]. split; [done|].
  split; [done|]. split; [done|]. split; [congruence|]. split.
  - intros k Hk. rewrite (ws_user _ _ _ _ Hst) by congruence. by apply quiet_user.
  - intros id Hid. rewrite (Hoth id Hid). apply kapp_value_same, quiet_kapp, Hq.
Qed.

(** C36: with smart contracts active, a burn of a fungible asset destroys exactly its amount: the holder's
    balance and the circulating supply shrink by it, neither below zero, the
    burned counter grows by it, and no other account or asset changes; it
    needs a burnable asset, and a wipe needs its owner or admin and a wipeable
    asset. *)
Theorem fungible_burn_exact w w' sender tc kda :
  world_ok w -> asset_record w (asset_of (at_AssetID tc)) = Some kda ->
  AssetType kda = KDAData_Fungible -> is_i64 (at_Amount tc) ->
  supply_ok kda -> 0 <= BurnedValue kda <= MaxInt64 ->
  0 <= user_balance w (ToAddress tc) (Some (asset_of (at_AssetID tc))) <= MaxInt64 ->
  Burn env sender tc w = (w', Ok tt) ->
  CanBurn (Properties kda) = true /\ 0 < at_Amount tc <= CirculatingSupply kda /\
  (TriggerType tc = AssetTriggerContract_Wipe ->
     IsOwnerOrAdmin kda sender = true /\ CanWipe (Properties kda) = true) /\
  asset_record w' (asset_of (at_AssetID tc)) =
    Some (set_supply kda (CirculatingSupply kda - at_Amount tc) (MintedValue kda)
            (BurnedValue kda + at_Amount tc)) /\
  at_Amount tc <= user_balance w (ToAddress tc) (Some (asset_of (at_AssetID tc))) /\
  user_balance w' (ToAddress tc) (Some (asset_of (at_AssetID tc))) =
    user_balance w (ToAddress tc) (Some (asset_of (at_AssetID tc))) - at_Amount tc /\
  (forall k, k <> ToAddress tc -> user_obj w' k = user_obj w k) /\
  (forall id, id <> asset_of (at_AssetID tc) -> asset_record w' id = asset_record w id).
Proof.
  intros Hok Hrec Hty Hi [Hc Hm] Hbv Hb HB.
  destruct (Burn_fungible _ _ _ _ _ Hok Hrec Hty HB)
    as (internal & w1 & w2 & lu & lk & kda' & Hcan & Hwipe & Hq & Hul & Hkl & Hburn & Htail).
  assert (user_balance w1 (ToAddress tc) (Some (asset_of (at_AssetID tc))) =
          user_balance w (ToAddress tc) (Some (asset_of (at_AssetID tc)))) as Hb1
    by (apply user_balance_same, quiet_user, Hq).
  rewrite <- Hb1 in Hb. apply (burn_fungible_spec _ _ _ _ _ (ToAddress tc)) in Hburn
    as (-> & Hpos & Hbp & Hcp & Hst & Hle & Hbal); [|apply Hq|done..].
  apply store_record_spec in Htail as (Hst2 & Hr & Hoth);
    [|apply Hst|by apply (ws_kapp_loc _ _ _ _ Hst)|by apply burned_not_zero].
  unfold burn_supply in *. cbn in Hbp, Hcp.
  assert (BurnedValue kda + at_Amount tc <= MaxInt64).
  { destruct (Z_le_gt_dec (BurnedValue kda + at_Amount tc) MaxInt64); [done|].
    pose proof (wrap_i64_over (BurnedValue kda + at_Amount tc)). ilia. }
  rewrite wrap_i64_id in Hcp by ilia. rewrite !wrap_i64_id in Hr by ilia.
  assert (forall k, user_obj w' k = user_obj w2 k) as Huo
    by (intros k; apply (ws_user _ _ _ _ Hst2); unfold nobody; tauto).
  split; [done|]. split; [lia|]. split; [done|]. split; [done|]. split; [congruence|].
  split; [rewrite (user_balance_same _ _ _ _ (Huo _)); congruence|]. split.
  - intros k Hk. rewrite Huo, (ws_user _ _ _ _ Hst) by congruence. by apply quiet_user.
  - intros id Hid. rewrite (Hoth id Hid). apply kapp_value_same.
    rewrite (ws_kapp _ _ _ _ Hst) by (unfold nobody; tauto). by apply quiet_kapp.
Qed.
End supply.

Lemma FormatInt_has_nonce n : 0 < n <= MaxInt64 -> has_nonce (FormatInt n) = true.
Proof.
  intros Hn. destruct (has_nonce (FormatInt n)) eqn:E; [done|]. exfalso.
  pose proof (ParseInt_FormatInt n ltac:(ilia)) as P.
  apply has_nonce_spec in E as [E|E]; rewrite E in P; vm_compute in P; [done|].
  injection P as P. lia.
Qed.

Lemma ToKDAKey_item_inj id n m :
  0 < n <= MaxInt64 -> 0 < m <= MaxInt64 ->
  ToKDAKey id (FormatInt n) = ToKDAKey id (FormatInt m) -> n = m.
Proof.
  intros Hn Hm. unfold ToKDAKey. rewrite !FormatInt_has_nonce by done.
  intros E%string_app_inj_l%string_app_inj_l. apply FormatInt_inj; [ilia|ilia|done].
Qed.

Section nft.
Context `{TO : TrieOps} `{CU : Marshalizer UserKDA} {UL : UserKDACodec CU} {Peer : Type}
  `{UA : AccountsAdapter userAccount} `{KA : AccountsAdapter kappAccount}
  `{PA : AccountsAdapter Peer} {WL : WorldLaws Peer}
  `{CK : Marshalizer KDAData} {KL : ProtoCodec CK zeroKDA}
  `{CS : Marshalizer StakingData} `{CM : Marshalizer MetaV2}.
Variable env : kappEnv.

Implicit Types (w : world Peer) (tc : AssetTriggerContract).

(** How many of an item an address holds. *)
Definition item_balance w (k : string) (asset : slice) (nonce : string) : Z :=
  match user_obj w k with Some a => GetBalanceWithNonce a asset nonce true | None => 0 end.

(** The key an item is stored under. *)
Abbreviation item_key asset nonce := (ToKDAKey (default KLVIdentifier asset) nonce).

Lemma mint_item_spec w w' to lu id nonce data :
  world_ok w -> user_loc w to lu -> Marshal minted_item = Ok data ->
  on_user lu (SaveKeyValueM (ToKDAKey id nonce) data) w = (w', Ok tt) ->
  world_step (eq to) nobody w w' /\ item_balance w' to (Some id) nonce = 1 /\
  (forall asset n, item_key asset n <> ToKDAKey id nonce ->
     item_balance w' to asset n = item_balance w to asset n).
Proof.
  intros Hok Hl Hm H.
  apply (on_user_spec _ _ to) in H as [Hst (a & a' & Ha & Hsv & Ha')];
    [|done|done|apply keeps_SaveKeyValue].
  assert (SetUserKDA (Some id) nonce minted_item a = (a', Ok tt)) as Hset.
  { unfold SetUserKDA, mbind, M_bind, lift. by rewrite Hm. }
  split; [done|]. unfold item_balance. rewrite Ha, Ha'. split.
  - exact (GetBalance_set _ _ _ _ _ _ true Hset (or_introl eq_refl)).
  - intros asset n Hne. unfold GetBalanceWithNonce.
    by rewrite (GetUserKDA_frame _ _ _ _ _ _ _ _ _ Hset) by (cbn; congruence).
Qed.

(** The numbers of the items minted by a loop of [n] from [minted]. *)
Definition minted_range (minted : Z) (n : nat) (i : Z) : Prop := minted < i <= minted + Z.of_nat n.

Lemma nft_mint_loop_spec n w w' id data to lu kda acc kda' acc' :
  world_ok w -> user_loc w to lu -> Marshal minted_item = Ok data ->
  0 <= MintedValue kda <= MaxInt64 -> is_i64 (CirculatingSupply kda) ->
  nft_mint_loop env n id data lu kda acc w = (w', Ok (kda', acc')) ->
  world_step (eq to) nobody w w' /\
  MintedValue kda + Z.of_nat n <= MaxInt64 /\
  kda' = set_supply kda (CirculatingSupply kda +! Z.of_nat n) (MintedValue kda + Z.of_nat n)
           (BurnedValue kda) /\
  (forall i, minted_range (MintedValue kda) n i -> item_balance w' to (Some id) (FormatInt i) = 1) /\
  (forall asset m, (forall i, minted_range (MintedValue kda) n i ->
                      item_key asset m <> ToKDAKey id (FormatInt i)) ->
     item_balance w' to asset m = item_balance w to asset m).
Proof.
  intros Hok Hl Hm. revert w kda acc Hok Hl. induction n as [|n IH]; intros w kda acc Hok Hl Hmv Hci H.
  - cbn [nft_mint_loop] in H. injection H as <- <- _. rewrite !Z.add_0_r.
    rewrite wrap_i64_id by done. split; [|split; [lia|split; [by destruct kda|]]].
    + eapply world_step_weaken; [by apply world_step_refl|unfold nobody; tauto..].
    + split; [unfold minted_range; lia|done].
  - cbn [nft_mint_loop] in H. guard_ok H.
    set (kda1 := mint_supply kda 1) in *.
    assert (MintedValue kda1 = MintedValue kda + 1 /\ MintedValue kda + 1 <= MaxInt64) as [Hm1 Hle].
    { unfold kda1 in *. cbn in *. destruct (Z_le_gt_dec (MintedValue kda + 1) MaxInt64).
      - rewrite wrap_i64_id by ilia. lia.
      - pose proof (wrap_i64_over (MintedValue kda + 1)). ilia. }
    step H as w1 [] Hsv. apply with_err_ok in Hsv.
    apply (mint_item_spec _ _ to) in Hsv as (Hst1 & Hone & Hframe); [|done..].
    step H as w2 addr Haddr. apply with_err_ok, (user_address_spec _ _ _ to) in Haddr;
      [|apply Hst1|by apply (ws_user_loc _ _ _ _ Hst1)].
    step H as w3 [] Hrc. apply Receipts_Add_spec in Hrc; [|apply Haddr].
    pose proof (quiet_trans _ _ _ Haddr Hrc) as Hq.
    assert (forall asset m, item_balance w3 to asset m = item_balance w1 to asset m) as Hi3
      by (intros; unfold item_balance; by rewrite (quiet_user _ _ _ Hq)).
    apply IH in H as (Hst2 & Hle2 & -> & Hitems & Hrest);
      [|apply Hrc|by apply (ws_user_loc _ _ _ _ Hq), (ws_user_loc _ _ _ _ Hst1)|lia|apply wrap_i64_range].
    rewrite Hm1 in *. unfold minted_range in *. split; [|split; [lia|split; [|split]]].
    + eapply world_step_weaken;
        [exact (world_step_trans _ _ _ _ _ _ _ Hst1 (world_step_trans _ _ _ _ _ _ _ Hq Hst2))
        |unfold nobody; tauto..].
    + unfold kda1, mint_supply, set_supply. cbn -[Z.of_nat]. rewrite wrap_i64_add_l.
      f_equal; [f_equal; lia|lia].
    + intros i Hi. destruct (decide (i = MintedValue kda + 1)) as [->|Hne].
      * rewrite Hrest, Hi3; [done|]. intros j Hj E. apply ToKDAKey_item_inj in E; lia.
      * apply Hitems. lia.
    + intros asset m Hne. rewrite Hrest, Hi3; [apply Hframe, Hne; lia|]. intros j Hj. apply Hne. lia.
Qed.

(** ** Properties *)

(** A successful mint of [n] items of a collection gives the receiver
    exactly one of each of the next [n] numbers and leaves everything else the
    receiver and everybody else own alone; both supply counters grow by [n],
    within the maximum supply, and the new numbers are exactly those between
    the old and the new minted counter. *)
Theorem nft_mint_exact w w' tc id to lu lk kda :
  world_ok w -> user_loc w to lu -> kapp_loc w KDAKAppAddress lk ->
  supply_ok kda -> 0 < at_Amount tc <= MaxInt64 ->
  processNonFungibleMint env tc id lu lk kda w = (w', Ok tt) ->
  IsNFTMintStopped (Attributes kda) = false /\ at_Amount tc <= env_MaxNFTMintBatch env /\
  kapp_record w' KDAKAppAddress id =
    Some (set_supply kda (CirculatingSupply kda + at_Amount tc) (MintedValue kda + at_Amount tc)
            (BurnedValue kda)) /\
  (0 < MaxSupply kda -> CirculatingSupply kda + at_Amount tc <= MaxSupply kda) /\
  (forall i, MintedValue kda < i <= MintedValue kda + at_Amount tc ->
     item_balance w' to (Some id) (FormatInt i) = 1) /\
  (forall asset m, (forall i, MintedValue kda < i <= MintedValue kda + at_Amount tc ->
                      item_key asset m <> ToKDAKey id (FormatInt i)) ->
     item_balance w' to asset m = item_balance w to asset m) /\
  (forall k, k <> to -> user_obj w' k = user_obj w k).
Proof.
  intros Hok Hu Hk [Hc Hmv] Hpos H. unfold processNonFungibleMint in H.
  guard_ok H. guard_ok H. guard_ok H.
  step H as w1 data Hd. apply with_err_ok in Hd. unfold lift in Hd. injection Hd as <- Hd.
  step H as w2 [kda' minted] Hloop.
  apply (nft_mint_loop_spec _ _ _ _ _ to) in Hloop as (Hst & Hle & -> & Hitems & Hrest); [|done..|ilia|ilia].
  rewrite Z2Nat.id in * by lia. unfold minted_range in *. rewrite Z2Nat.id in * by lia.
  rewrite wrap_i64_id in G1 by ilia.
  step H as w3 [] Hup. apply with_err_ok, UpdateUser_enabled in Hup; [|apply Hst]. subst w3.
  step H as w3 [] Hset. apply with_err_ok in Hset.
  apply (set_record_spec CK zeroKDA _ _ KDAKAppAddress) in Hset as (Hst3 & Hrec & _);
    [|apply Hst|by apply (ws_kapp_loc _ _ _ _ Hst)|apply minted_not_zero; cbn; lia].
  step H as w4 [] Hup. apply with_err_ok, UpdateKapp_enabled in Hup; [|apply Hst3]. subst w4.
  injection H as <-.
  match goal with |- context [kapp_record ?w _ _] => set (w4 := w) end.
  assert (world_step nobody nobody w3 w4) as Hq by (by apply same_cache_quiet; [apply Hst3|]).
  assert (forall k, user_obj w4 k = user_obj w2 k) as Huo.
  { intros k. rewrite (quiet_user _ _ _ Hq). apply (ws_user _ _ _ _ Hst3). unfold nobody. tauto. }
  assert (forall k asset m, item_balance w4 k asset m = item_balance w2 k asset m) as Hib
    by (intros; unfold item_balance; by rewrite Huo).
  rewrite (wrap_i64_id (CirculatingSupply kda + at_Amount tc)) in Hrec by ilia.
  split; [done|]. split; [lia|]. split; [|split; [|split; [|split]]].
  - unfold kapp_record in *. by rewrite (kapp_value_same _ _ _ _ (quiet_kapp _ _ _ Hq)).
  - intros Hm. rewrite (proj2 (Z.ltb_lt _ _) Hm) in *. cbn in *. zify_bools. lia.
  - intros i Hi. rewrite Hib. by apply Hitems.
  - intros asset m Hne. rewrite Hib. by apply Hrest.
  - intros k Hne. rewrite Huo. apply (ws_user _ _ _ _ Hst). congruence.
Qed.
End nft.
