(* ===== verification/RewardDeposit.v ===== *)
(** * Reward deposits conserve every asset

    [kdaKapp.Deposit]: a deposit moves the depositor's money into the reward
    pool of the next epoch, and hands what is left of expired pools to the
    residual account.  What the pools owe to stakers plus what the accounts hold
    is the same before and after, asset by asset. *)

From S2P Require Import Prelude Common Strconv GoStd Forks Tools Permissions KdaUtils KdaData DataTrie UserAccount Codec.
From S2P Require Import Balances AccountsCache Staking World SystemAccount KdaKapp WorldLemmas KdaSupply.
Local Open Scope Z_scope.

(** The all-default staking record. *)
Definition zeroStaking : StakingData :=
  {| InterestType := 0; APR := []; FPR := []; CurrentFPRAmount := 0; TotalStaked := 0;
     MinEpochsToClaim := 0; MinEpochsToUnstake := 0; MinEpochsToWithdraw := 0 |}.

(** What a pool still owes in an asset. *)
Definition kda_owed (fpr : FPRData) (a : string) : Z :=
  match fpr_KDAS fpr !! a with
  | Some v => kfpr_TotalAmount v - kfpr_TotalClaimed v
  | None => 0
  end.
Definition klv_owed (fpr : FPRData) (a : string) : Z :=
  if decide (a = KLVIdentifier) then fpr_TotalAmount fpr - fpr_TotalClaimed fpr else 0.
Definition pool_owed (a : string) (fpr : FPRData) : Z := klv_owed fpr a + kda_owed fpr a.
Definition pools_owed (a : string) (pools : list FPRData) : Z := zsum (pool_owed a <$> pools).

(** No pool paid more than it holds, and [amount] more fits into every counter. *)
Definition counters_ok (amount total claimed : Z) : Prop :=
  0 <= claimed <= total /\ total + amount <= MaxInt64.
Record pool_ok (amount : Z) (fpr : FPRData) : Prop := {
  po_main : counters_ok amount (fpr_TotalAmount fpr) (fpr_TotalClaimed fpr);
  po_kdas : forall a v, fpr_KDAS fpr !! a = Some v ->
    counters_ok amount (kfpr_TotalAmount v) (kfpr_TotalClaimed v);
}.
(** One pool per epoch. *)
Definition pools_ok (amount : Z) (pools : list FPRData) : Prop :=
  NoDup (fpr_Epoch <$> pools) /\ Forall (pool_ok amount) pools.

Lemma pools_owed_app a l1 l2 : pools_owed a (l1 ++ l2) = pools_owed a l1 + pools_owed a l2.
Proof. unfold pools_owed. by rewrite fmap_app, zsum_app. Qed.
Lemma pools_owed_cons a p l : pools_owed a (p :: l) = pool_owed a p + pools_owed a l.
Proof. done. Qed.
Lemma pools_owed_single a p : pools_owed a [p] = pool_owed a p.
Proof. unfold pools_owed. cbn. lia. Qed.
Lemma empty_owed a : pool_owed a emptyFPR = 0.
Proof.
  unfold pool_owed, klv_owed, kda_owed. change (fpr_KDAS emptyFPR) with (∅ : gmap string KDAFPRData).
  rewrite lookup_empty. by case_decide.
Qed.
Lemma empty_pool_ok amount : 0 <= amount <= MaxInt64 -> pool_ok amount emptyFPR.
Proof. intros H. split; [by split; cbn; lia|]. intros a v E. cbn in E. by rewrite lookup_empty in E. Qed.

Lemma deposited_owed env new staked cur amount a :
  0 <= amount -> pool_ok amount new ->
  pool_owed a (deposited_pool env new staked cur amount) =
    pool_owed a new + (if decide (a = cur) then amount else 0).
Proof.
  intros Ha [[Hm Hr] Hk]. unfold deposited_pool, pool_owed, klv_owed, kda_owed, str_eqb.
  case_bool_decide as Ec; cbn [fpr_TotalAmount fpr_TotalClaimed fpr_KDAS].
  - subst cur. rewrite wrap_i64_id by ilia. destruct (decide (a = KLVIdentifier)); lia.
  - destruct (decide (a = cur)) as [->|Hne].
    + rewrite lookup_insert_eq, (decide_False (P := cur = KLVIdentifier)) by done.
      destruct (fpr_KDAS new !! cur) as [v|] eqn:Ev; cbn [kfpr_TotalAmount kfpr_TotalClaimed]; [|lia].
      destruct (Hk _ _ Ev) as [Hv Hvr]. rewrite wrap_i64_id by ilia. lia.
    + rewrite lookup_insert_ne by congruence. lia.
Qed.

Lemma deposited_ok env new staked cur amount :
  0 <= amount <= MaxInt64 -> pool_ok amount new -> pool_ok 0 (deposited_pool env new staked cur amount).
Proof.
  intros Ha [[Hm Hr] Hk]. unfold deposited_pool, counters_ok.
  assert (forall a v, fpr_KDAS new !! a = Some v ->
    counters_ok 0 (kfpr_TotalAmount v) (kfpr_TotalClaimed v)) as Hk'.
  { intros a v Hv. destruct (Hk a v Hv). split; lia. }
  destruct (str_eqb cur KLVIdentifier); split; unfold counters_ok; cbn -[Z.add]; try done.
  - rewrite wrap_i64_id by ilia. lia.
  - lia.
  - intros a v [[<- <-]|[_ Hv]]%lookup_insert_Some; [|by apply (Hk' a v)].
    destruct (fpr_KDAS new !! cur) as [v|] eqn:Ev; cbn -[Z.add]; [|lia].
    destruct (Hk _ _ Ev). rewrite wrap_i64_id by ilia. lia.
Qed.

Section deposit.
Context `{TO : TrieOps} `{CU : Marshalizer UserKDA} {UL : UserKDACodec CU} {Peer : Type}
  `{UA : AccountsAdapter userAccount} `{KA : AccountsAdapter kappAccount}
  `{PA : AccountsAdapter Peer} {WL : WorldLaws Peer}
  `{CK : Marshalizer KDAData} `{CS : Marshalizer StakingData} {SL : ProtoCodec CS zeroStaking}.
Variable env : kappEnv.
Variable range : gmap string KDAFPRData -> list string.
Hypothesis Hsc : env_fc env EnableSmartContracts = true.
(** [range] visits every key of a map once, in some order. *)
Hypothesis Hrange : forall m, range m ≡ₚ (map_to_list m).*1.

Implicit Types (w : world Peer).

Definition solvent w (k : string) : Prop := forall a, 0 <= user_balance w k (Some a) <= MaxInt64.

Lemma OrderedKeys_keys m sorted :
  NoDup (OrderedKeys range m sorted) /\ forall k, k ∈ OrderedKeys range m sorted <-> is_Some (m !! k).
Proof.
  assert (OrderedKeys range m sorted ≡ₚ (map_to_list m).*1) as HP.
  { unfold OrderedKeys. destruct sorted; [by rewrite merge_sort_Permutation|done]. }
  rewrite HP. split; [apply NoDup_fst_map_to_list|]. intros k. rewrite HP, list_elem_of_fmap. split.
  - intros ([k' v] & -> & Hk%elem_of_map_to_list). by exists v.
  - intros [v Hv]. exists (k, v). split; [done|]. by apply elem_of_map_to_list.
Qed.

(** A step that credits one account with [f a] of every asset [a]. *)
Definition credits w w' (k : string) (f : string -> Z) : Prop :=
  world_step (eq k) nobody w w' /\ solvent w' k /\
  forall a, user_balance w' k (Some a) = user_balance w k (Some a) + f a.

Lemma credits_nothing w w' k :
  solvent w k -> world_step nobody nobody w w' -> credits w w' k (fun _ => 0).
Proof.
  intros Hs Hst. assert (forall a, user_balance w' k a = user_balance w k a) as Hb
    by (intros; apply user_balance_same, quiet_user, Hst).
  split; [eapply world_step_weaken; [exact Hst|unfold nobody; tauto..]|].
  split; intros a; rewrite Hb; [apply Hs|lia].
Qed.

Lemma credits_trans w1 w2 w3 k f g h :
  credits w1 w2 k f -> credits w2 w3 k g -> (forall a, h a = f a + g a) -> credits w1 w3 k h.
Proof.
  intros (Hs1 & _ & Hb1) (Hs2 & Hs & Hb2) Hh. split; [|split; [done|]].
  - eapply world_step_weaken; [exact (world_step_trans _ _ _ _ _ _ _ Hs1 Hs2)|unfold nobody; tauto..].
  - intros a. rewrite Hb2, Hb1, Hh. lia.
Qed.

Lemma credits_ext w w' k f g : credits w w' k f -> (forall a, f a = g a) -> credits w w' k g.
Proof. intros (? & ? & Hb) Hfg. split; [done|]. split; [done|]. intros a. by rewrite Hb, Hfg. Qed.

Lemma refund_residual_spec w w' k l amount total claimed cur :
  world_ok w -> user_loc w k l -> solvent w k -> 0 <= amount -> counters_ok amount total claimed ->
  refund_residual env l total claimed cur w = (w', Ok tt) ->
  credits w w' k (fun a => if decide (a = cur) then total - claimed else 0).
Proof.
  intros Hok Hl Hsol Ha [Hc Hr] H. unfold refund_residual in H. rewrite wrap_i64_id in H by ilia.
  destruct (Z.ltb_spec 0 (total - claimed)) as [Hpos|Hz].
  - unfold refundExpiredFPR in H. rewrite Hsc in H.
    step H as w1 r Hadd. apply with_err_ok, (credit_spec _ _ k) in Hadd as (Hs1 & _ & Hb & Hmax & Hf);
      [|done|done|ilia|apply Hsol].
    step H as w2 to Haddr. apply with_err_ok, (user_address_spec _ _ _ k) in Haddr;
      [|apply Hs1|by apply (ws_user_loc _ _ _ _ Hs1)].
    apply Receipts_Add_spec in H; [|apply Haddr].
    assert (forall a, user_balance w1 k (Some a) =
              user_balance w k (Some a) + if decide (a = cur) then total - claimed else 0) as Hall.
    { intros a. case_decide as E; [by subst|]. rewrite Hf by (cbn; congruence). lia. }
    assert (solvent w1 k) as Hsol1.
    { intros a. destruct (decide (a = cur)) as [->|Hne].
      - pose proof (Hsol cur). lia.
      - rewrite Hf by (cbn; congruence). apply Hsol. }
    eapply credits_trans; [|apply credits_nothing, (quiet_trans _ _ _ Haddr H); done|].
    + split; [done|]. split; [done|exact Hall].
    + intros a. cbn. lia.
  - injection H as <-. eapply credits_ext; [by apply credits_nothing, world_step_refl|].
    intros a. cbn. case_decide; lia.
Qed.

Lemma refund_kdas_spec keys w w' k l amount kdas :
  world_ok w -> user_loc w k l -> solvent w k -> 0 <= amount -> NoDup keys ->
  (forall a v, kdas !! a = Some v -> counters_ok amount (kfpr_TotalAmount v) (kfpr_TotalClaimed v)) ->
  refund_kdas env l kdas keys w = (w', Ok tt) ->
  credits w w' k (fun a => if decide (a ∈ keys)
                           then match kdas !! a with
                                | Some v => kfpr_TotalAmount v - kfpr_TotalClaimed v | None => 0 end
                           else 0).
Proof.
  intros Hok Hl Hsol Ha Hnd Hc. revert w Hok Hl Hsol. induction keys as [|key keys IH]; intros w Hok Hl Hsol H.
  { injection H as <-. by apply credits_nothing, world_step_refl. }
  inversion_clear Hnd as [|? ? Hk Hnd']. cbn [refund_kdas] in H. step H as w1 [] H1.
  assert (credits w w1 k (fun a => if decide (a = key)
            then match kdas !! a with
                 | Some v => kfpr_TotalAmount v - kfpr_TotalClaimed v | None => 0 end else 0)) as Hc1.
  { destruct (kdas !! key) as [v|] eqn:Ev.
    - apply (refund_residual_spec _ _ k _ amount) in H1; eauto.
      eapply credits_ext; [exact H1|]. intros a. cbn. case_decide as E; [|done]. by rewrite E, Ev.
    - injection H1 as <-. eapply credits_ext; [by apply credits_nothing, world_step_refl|].
      intros a. cbn. case_decide as E; [|done]. by rewrite E, Ev. }
  destruct (Hc1) as (Hs1 & Hsol1 & _).
  eapply credits_trans; [exact Hc1|apply (IH Hnd' w1); try done; [apply Hs1|by apply (ws_user_loc _ _ _ _ Hs1)]|].
  intros a. cbn. destruct (decide (a = key)) as [->|Hne].
  - rewrite decide_True by left. rewrite (decide_False (P := key ∈ keys)) by done. lia.
  - destruct (decide (a ∈ keys)); [rewrite decide_True by (by right); lia|].
    rewrite decide_False; [done|]. by intros [?|?]%elem_of_cons.
Qed.

(** ** The loop over the existing pools *)

(** The pools of the next epoch, of other epochs that are not over, and those
    that have expired. *)
Definition next_pools (pools : list FPRData) : list FPRData := filter (fun p => fpr_Epoch p = nextEpoch env) pools.
Definition other_pools (pools : list FPRData) : list FPRData := filter (fun p => fpr_Epoch p <> nextEpoch env) pools.
Definition live_pools (pools : list FPRData) : list FPRData :=
  filter (fun p => pool_not_expired env p = true) (other_pools pools).
Definition expired_pools (pools : list FPRData) : list FPRData :=
  filter (fun p => pool_not_expired env p = false) (other_pools pools).

Lemma pools_split a pools :
  pools_owed a pools = pools_owed a (next_pools pools) + pools_owed a (live_pools pools) + pools_owed a (expired_pools pools).
Proof.
  unfold next_pools, live_pools, expired_pools, other_pools.
  induction pools as [|p pools IH]; [done|]. rewrite pools_owed_cons, IH.
  destruct (decide (fpr_Epoch p = nextEpoch env)) as [E|E].
  - rewrite (filter_cons_True (fun p => fpr_Epoch p = nextEpoch env) _ _ E), (filter_cons_False (fun p => fpr_Epoch p <> nextEpoch env)) by tauto.
    rewrite pools_owed_cons. lia.
  - rewrite (filter_cons_False (fun p => fpr_Epoch p = nextEpoch env) _ _ E), (filter_cons_True (fun p => fpr_Epoch p <> nextEpoch env)) by done.
    destruct (pool_not_expired env p) eqn:Ex.
    + rewrite (filter_cons_True (fun p => pool_not_expired env p = true) _ _ Ex), (filter_cons_False (fun p => pool_not_expired env p = false)) by congruence. rewrite pools_owed_cons. lia.
    + rewrite (filter_cons_False (fun p => pool_not_expired env p = true)), (filter_cons_True (fun p => pool_not_expired env p = false) _ _ Ex) by congruence. rewrite pools_owed_cons. lia.
Qed.

Lemma deposit_loop_spec pools w w' k l amount valid new valid' new' :
  world_ok w -> user_loc w k l -> solvent w k -> 0 <= amount -> Forall (pool_ok amount) pools ->
  deposit_loop env range l pools valid new w = (w', Ok (valid', new')) ->
  credits w w' k (fun a => pools_owed a (expired_pools pools)) /\
  valid' = valid ++ live_pools pools /\ new' = default new (last (next_pools pools)).
Proof.
  intros Hok Hl Hsol Ha. revert w valid new Hok Hl Hsol.
  unfold expired_pools, live_pools, next_pools, other_pools.
  induction pools as [|fpr pools IH]; intros w valid new Hok Hl Hsol Hall H.
  { injection H as <- <- <-. rewrite app_nil_r. split; [|done]. by apply credits_nothing, world_step_refl. }
  inversion_clear Hall as [|? ? Hp Hall'].
  cbn [deposit_loop] in H. destruct (Z.eqb_spec (fpr_Epoch fpr) (nextEpoch env)) as [He|He].
  - rewrite (filter_cons_False (fun p => fpr_Epoch p <> nextEpoch env)), (filter_cons_True (fun p => fpr_Epoch p = nextEpoch env) _ _ He) by tauto.
    apply (IH w valid fpr Hok Hl Hsol Hall') in H as (Hc & -> & ->). split; [done|]. split; [done|].
    rewrite last_cons. by destruct (last _).
  - rewrite (filter_cons_True (fun p => fpr_Epoch p <> nextEpoch env)), (filter_cons_False (fun p => fpr_Epoch p = nextEpoch env) _ _ He) by done.
    destruct (pool_not_expired env fpr) eqn:Ex.
    + rewrite (filter_cons_True (fun p => pool_not_expired env p = true) _ _ Ex), (filter_cons_False (fun p => pool_not_expired env p = false)) by congruence.
      apply (IH w (valid ++ [fpr]) new Hok Hl Hsol Hall') in H as (Hc & -> & ->).
      split; [done|]. split; [by rewrite <- app_assoc|done].
    + rewrite (filter_cons_False (fun p => pool_not_expired env p = true)), (filter_cons_True (fun p => pool_not_expired env p = false) _ _ Ex) by congruence.
      step H as w1 [] H1. apply (refund_residual_spec _ _ k _ amount) in H1; [|done..|apply Hp].
      destruct H1 as (Hs1 & Hsol1 & Hb1).
      step H as w2 [] H2. destruct (OrderedKeys_keys (fpr_KDAS fpr) (env_fc env FixAuditChangesV6)) as [Hnk Hik].
      apply (refund_kdas_spec _ _ _ k _ amount) in H2;
        [|apply Hs1|by apply (ws_user_loc _ _ _ _ Hs1)|done|done|done|apply Hp].
      assert (credits w w2 k (fun a => pool_owed a fpr)) as Hc2.
      { eapply credits_trans; [exact (conj Hs1 (conj Hsol1 Hb1))|exact H2|]. intros a. unfold pool_owed, klv_owed, kda_owed. cbn.
        f_equal. destruct (decide (a ∈ _)) as [|Hni]; [done|]. rewrite Hik in Hni.
        destruct (fpr_KDAS fpr !! a); [|done]. destruct Hni. eauto. }
      destruct (Hc2) as (Hs2 & Hsol2 & _).
      apply (IH w2) in H as (Hc & -> & ->); [|apply Hs2|by apply (ws_user_loc _ _ _ _ Hs2)|done..].
      split; [|done]. eapply credits_trans; [exact Hc2|exact Hc|]. intros a. cbv beta. by rewrite pools_owed_cons.
Qed.

(** One pool per epoch: the pool of the next epoch, empty if there is none. *)
Definition next_pool (pools : list FPRData) : FPRData := default emptyFPR (last (next_pools pools)).

Lemma next_pool_owed a pools : NoDup (fpr_Epoch <$> pools) -> pools_owed a (next_pools pools) = pool_owed a (next_pool pools).
Proof.
  intros Hnd. unfold next_pool. assert (length (next_pools pools) <= 1)%nat as Hl.
  { unfold next_pools. induction pools as [|p pools IH]; [cbn; lia|]. rewrite fmap_cons in Hnd.
    apply NoDup_cons in Hnd as [Hn Hnd]. rewrite filter_cons. case_decide as E; [|by apply IH].
    assert (filter (fun q => fpr_Epoch q = nextEpoch env) pools = []) as ->; [|done].
    destruct (filter _ pools) as [|q l] eqn:Ef; [done|]. exfalso. apply Hn.
    assert (q ∈ filter (fun q => fpr_Epoch q = nextEpoch env) pools) as Hq by (rewrite Ef; left).
    apply list_elem_of_filter in Hq as [Hq1 Hq2]. rewrite E, <- Hq1. by apply list_elem_of_fmap_2. }
  destruct (next_pools pools) as [|p [|q l]]; [|apply pools_owed_single|cbn in Hl; lia].
  cbn [last default]. by rewrite empty_owed.
Qed.

Lemma next_pool_in pools : next_pool pools = emptyFPR \/ next_pool pools ∈ pools.
Proof.
  unfold next_pool. destruct (last (next_pools pools)) as [p|] eqn:E; [right|by left].
  apply last_Some_elem_of, list_elem_of_filter in E as [_ E]. exact E.
Qed.

(** ** The handler *)

(** The account that receives what expired pools still owe. *)
Definition residual_of (kda : KDAData) (sender : string) : string :=
  if env_fc env FixAuditChangesV6 then OwnerAddress kda else sender.
(** What the accounts a deposit touches hold of an asset. *)
Definition holdings w (kda : KDAData) (sender a : string) : Z :=
  user_balance w sender (Some a) +
  (if decide (residual_of kda sender = sender) then 0
   else user_balance w (residual_of kda sender) (Some a)).

Lemma expiredResidualAccount_spec w w' sender l kda r :
  world_ok w -> user_loc w sender l ->
  expiredResidualAccount env l kda w = (w', Ok r) ->
  world_step nobody nobody w w' /\ user_loc w' (residual_of kda sender) r.
Proof.
  intros Hok Hl H. unfold expiredResidualAccount in H. step H as w1 addr Haddr.
  pose proof (user_address_value _ _ _ _ _ Hok Hl Haddr) as ->.
  apply (user_address_spec _ _ _ sender) in Haddr; [|done..]. unfold residual_of.
  assert (user_loc w1 sender l) as Hl1 by (by apply (ws_user_loc _ _ _ _ Haddr)).
  unfold str_eqb in H. destruct (env_fc env FixAuditChangesV6); cbn in H.
  - case_bool_decide as E; [injection H as <- <-; by rewrite E|].
    apply LoadUserAccount_spec in H as [Hs Hl2]; [|apply Haddr].
    split; [by eapply quiet_trans|done].
  - injection H as <- <-. done.
Qed.

Lemma set_record_step {T} `{Marshalizer T} w w' kapp l id (x : T) :
  world_ok w -> kapp_loc w kapp l -> set_record l id x w = (w', Ok tt) ->
  world_step nobody (eq kapp) w w'.
Proof.
  intros Hok Hl H'. unfold set_record in H'. step H' as w1 data Hm. unfold lift in Hm. injection Hm as <- _.
  apply (on_kapp_spec _ _ kapp) in H' as [Hst _]; [done|done|done|].
  intros b b' r. unfold kapp_SaveKeyValue. by destruct (SaveKeyValue _ _ _); intros [= <- _].
Qed.

(** The checks before anything moves. *)
Lemma deposit_guards w w' sender kda currency x :
  checkDepositPauseAndTransferControls env sender kda currency w = (w', Ok x) ->
  w' = w /\ (env_fc env FixAuditChangesV6 = true ->
    IsPaused (Attributes kda) = false /\ IsPaused (Attributes currency) = false /\
    CanSenderTransfer currency sender = true).
Proof.
  unfold checkDepositPauseAndTransferControls. destruct (env_fc env FixAuditChangesV6); cbn; intros H.
  - guard_ok H. apply refuse_if_ok in H as [G' ->]. zify_bools. done.
  - by injection H as <- _.
Qed.

(** What [Deposit] does once its checks passed. *)
Definition deposit_tail (tc : DepositContract) (assetID : string) (kda : KDAData) (staking : StakingData)
    (kdaKapp stakingKapp depositorAcc : nat) : M (world Peer) (txResultCode * error) unit :=
  let currencyID := default KLVIdentifier (dp_CurrencyID tc) in
  _ ← or_code Transaction_BalanceError
        (on_user depositorAcc (SubFromBalance (dp_Amount tc) (Some currencyID)
           (env_fc env EnableSmartContracts) None));
  residualAcc ← or_code Transaction_LoadAccountError (expiredResidualAccount env depositorAcc kda);
  '(validFPRs, newFPR) ← deposit_loop env range residualAcc (FPR staking) [] emptyFPR;
  _ ← refuse_if env ((MaxDepositKDAs <=? Z.of_nat (size (fpr_KDAS newFPR)))
                     && negb (str_eqb currencyID KLVIdentifier))
        ErrFieldMaxDepositKDAsExceeded Transaction_MaxSupplyExceeded ErrMaxSupplyExceeded;
  depositor ← or_code Transaction_LoadAccountError (user_address depositorAcc);
  _ ← Receipts_Add (NewReceipt Receipt_Deposit (env_contractID env)
        [depositor; "0"; FormatInt (dp_Amount tc); assetID; currencyID]);
  let staking' := set_FPR staking
        (validFPRs ++ [deposited_pool env newFPR (TotalStaked staking) currencyID (dp_Amount tc)]) in
  _ ← or_code Transaction_SetStakingErr (SetStaking stakingKapp assetID staking');
  _ ← or_code Transaction_SaveAccountError (on_cache (UpdateKapp stakingKapp));
  _ ← or_code Transaction_KAPPError (SetKDA kdaKapp assetID kda);
  or_code Transaction_SaveAccountError (on_cache (UpdateKapp kdaKapp)).

Lemma Deposit_checks w w' sender tc assetID kda staking :
  world_ok w -> dp_ID tc = Some assetID ->
  kapp_record w KDAKAppAddress assetID = Some kda ->
  kapp_record w StakingKAppAddress assetID = Some staking ->
  Deposit env range sender tc w = (w', Ok tt) ->
  exists role w1 lk ls l,
    GetRoleByAddress kda sender = Ok role /\ HasRoleDeposit role = true /\ 0 < dp_Amount tc /\
    (env_fc env FixAuditChangesV6 = true -> IsPaused (Attributes kda) = false) /\
    world_step nobody nobody w w1 /\ kapp_loc w1 KDAKAppAddress lk /\
    kapp_loc w1 StakingKAppAddress ls /\ user_loc w1 sender l /\
    deposit_tail tc assetID kda staking lk ls l w1 = (w', Ok tt).
Proof.
  intros Hok Hid Hrec Hst H. unfold Deposit in H. rewrite Hid in H.
  guard_ok H. guard_ok H. cbn [default] in H.
  step H as w1 [lk kda0] Hg. apply or_refuse_ok, get_record_spec in Hg as (Hs1 & Hlk & Hr1); [|done].
  change (id assetID) with assetID in Hr1. rewrite Hrec in Hr1. injection Hr1 as <-.
  step H as w2 role Hrole. apply or_refuse_ok in Hrole. unfold lift in Hrole. injection Hrole as <- Hrole.
  guard_ok H.
  step H as w2 [lc currency] Hg. apply with_err_ok, get_record_spec in Hg as (Hs2 & _ & _); [|apply Hs1].
  step H as w3 [] Hctl. apply deposit_guards in Hctl as [-> Hctl].
  step H as w3 [ls staking0] Hg. apply or_refuse_ok, get_record_spec in Hg as (Hs3 & Hls & Hr3); [|apply Hs2].
  change (id assetID) with assetID in Hr3.
  pose proof (quiet_trans _ _ _ Hs1 Hs2) as Hq. unfold kapp_record in Hst, Hr3.
  rewrite (kapp_value_same _ _ _ _ (quiet_kapp _ _ _ Hq)), Hst in Hr3. injection Hr3 as <-.
  guard_ok H.
  step H as w4 l Hl. apply with_err_ok, GetExistingUserAccount_spec in Hl as [Hs4 Hul]; [|apply Hs3].
  exists role, w4, lk, ls, l. splits; try done; try lia.
  - intros Hv6. by apply Hctl.
  - exact (quiet_trans _ _ _ Hq (quiet_trans _ _ _ Hs3 Hs4)).
  - by apply (ws_kapp_loc _ _ _ _ Hs4), (ws_kapp_loc _ _ _ _ Hs3), (ws_kapp_loc _ _ _ _ Hs2).
  - by apply (ws_kapp_loc _ _ _ _ Hs4).
Qed.

(** The pools after the deposit are again one per epoch. *)
Lemma deposited_pools_ok amount pools kept new staked cur :
  0 <= amount <= MaxInt64 -> pools_ok amount pools -> sublist kept pools ->
  Forall (fun p => fpr_Epoch p <> nextEpoch env) kept -> new = emptyFPR \/ new ∈ pools ->
  pools_ok 0 (kept ++ [deposited_pool env new staked cur amount]).
Proof.
  intros Ha [Hnd Hall] Hsub Hne Hnew.
  assert (pool_ok amount new) as Hok.
  { destruct Hnew as [->|Hin]; [by apply empty_pool_ok|]. by eapply (proj1 (Forall_forall _ _) Hall). }
  split.
  - rewrite fmap_app. apply NoDup_app. split; [|split; [|apply NoDup_singleton]].
    + eapply sublist_NoDup; [exact Hnd|]. by apply fmap_sublist.
    + intros e (p & -> & Hp)%list_elem_of_fmap Hin. apply list_elem_of_singleton in Hin.
      rewrite Forall_forall in Hne. apply (Hne p Hp). rewrite Hin. unfold deposited_pool.
      by destruct (str_eqb _ _).
  - apply Forall_app. split; [|by constructor; [apply deposited_ok|constructor]].
    apply Forall_forall. intros p Hp. eapply elem_of_sublist in Hp; [|exact Hsub].
    destruct (proj1 (Forall_forall _ _) Hall p Hp) as [[Hm Hr] Hk]. split; [split; lia|]. intros a v Hv. destruct (Hk a v Hv). split; lia.
Qed.

(** Taking the amount out of the depositor's balance. *)
Lemma deposit_debit_spec w w' sender l cur amount r :
  world_ok w -> user_loc w sender l -> is_i64 amount -> solvent w sender ->
  on_user l (SubFromBalance amount (Some cur) true None) w = (w', Ok r) ->
  world_step (eq sender) nobody w w' /\ solvent w' sender /\
  forall a, user_balance w' sender (Some a) =
            user_balance w sender (Some a) - (if decide (a = cur) then amount else 0).
Proof.
  intros Hok Hl Hi Hsol H. apply (debit_spec _ _ sender) in H as (Hs & Hle & Hb & Hf); [|done..|apply Hsol].
  assert (forall a, user_balance w' sender (Some a) =
            user_balance w sender (Some a) - (if decide (a = cur) then amount else 0)) as Hall.
  { intros a. case_decide as E; [by subst|]. rewrite Hf by (cbn; congruence). lia. }
  split; [done|]. split; [|exact Hall]. intros a. rewrite Hall. pose proof (Hsol a).
  case_decide as E; [subst|]; lia.
Qed.

(** Storing the staking record and the unchanged asset record. *)
Lemma deposit_store_spec w w' assetID kda (staking' : StakingData) lk ls :
  world_ok w -> kapp_loc w KDAKAppAddress lk -> kapp_loc w StakingKAppAddress ls -> staking' <> zeroStaking ->
  (_ ← or_code Transaction_SetStakingErr (SetStaking ls assetID staking');
   _ ← or_code Transaction_SaveAccountError (on_cache (UpdateKapp ls));
   _ ← or_code Transaction_KAPPError (SetKDA lk assetID kda);
   or_code Transaction_SaveAccountError (on_cache (UpdateKapp lk))) w = (w', Ok tt) ->
  kapp_record w' StakingKAppAddress assetID = Some staking' /\
  (forall k, user_obj w' k = user_obj w k).
Proof.
  intros Hok Hlk Hls Hz H.
  step H as w1 [] H1. apply with_err_ok in H1.
  destruct (set_record_spec CS zeroStaking _ _ StakingKAppAddress ls assetID staking' Hok Hls Hz H1)
    as (Hs1 & Hr & _).
  step H as w2 [] H2. apply with_err_ok, UpdateKapp_enabled in H2; [|apply Hs1]. subst w2.
  step H as w2 [] H2. apply with_err_ok, (set_record_step _ _ KDAKAppAddress) in H2;
    [|apply Hs1|by apply (ws_kapp_loc _ _ _ _ Hs1)].
  apply with_err_ok, UpdateKapp_enabled in H; [|apply H2]. subst w2. split.
  - unfold kapp_record in *. rewrite <- Hr. apply kapp_value_same, (ws_kapp _ _ _ _ H2).
    vm_compute. discriminate.
  - intros k. rewrite (ws_user _ _ _ _ H2), (ws_user _ _ _ _ Hs1) by (unfold nobody; tauto). done.
Qed.

Lemma deposit_tail_spec w w' sender tc assetID kda staking lk ls l :
  world_ok w -> kapp_loc w KDAKAppAddress lk -> kapp_loc w StakingKAppAddress ls ->
  user_loc w sender l -> 0 < dp_Amount tc <= MaxInt64 -> pools_ok (dp_Amount tc) (FPR staking) ->
  solvent w sender -> solvent w (residual_of kda sender) ->
  deposit_tail tc assetID kda staking lk ls l w = (w', Ok tt) ->
  let cur := default KLVIdentifier (dp_CurrencyID tc) in
  let new := deposited_pool env (next_pool (FPR staking)) (TotalStaked staking) cur (dp_Amount tc) in
  kapp_record w' StakingKAppAddress assetID = Some (set_FPR staking (live_pools (FPR staking) ++ [new])) /\
  (forall k a, user_balance w' k (Some a) = user_balance w k (Some a)
     - (if decide (k = sender) then if decide (a = cur) then dp_Amount tc else 0 else 0)
     + (if decide (k = residual_of kda sender) then pools_owed a (expired_pools (FPR staking)) else 0)) /\
  (forall k, k <> sender -> k <> residual_of kda sender -> user_obj w' k = user_obj w k).
Proof.
  intros Hok Hlk Hls Hl Hpos Hpools Hsol Hsolr H cur new. unfold deposit_tail in H. rewrite Hsc in H.
  step H as w1 r1 Hsub. apply with_err_ok, (deposit_debit_spec _ _ sender) in Hsub as (Hs1 & Hsol1 & Hb1);
    [|done|done|ilia|done].
  step H as w2 lr Hres. apply with_err_ok, (expiredResidualAccount_spec _ _ sender) in Hres as [Hs2 Hlr];
    [|apply Hs1|by apply (ws_user_loc _ _ _ _ Hs1)].
  assert (forall k a, user_balance w2 k (Some a) = user_balance w k (Some a)
       - (if decide (k = sender) then if decide (a = cur) then dp_Amount tc else 0 else 0)) as Hb2.
  { intros k a. rewrite (user_balance_same w1 w2) by apply quiet_user, Hs2. case_decide as E; [by subst|].
    rewrite (user_balance_same w w1) by (apply (ws_user _ _ _ _ Hs1); congruence). lia. }
  assert (solvent w2 (residual_of kda sender)) as Hsol2.
  { intros a. destruct (decide (residual_of kda sender = sender)) as [E|E].
    - rewrite E, (user_balance_same w1 w2) by apply quiet_user, Hs2. apply Hsol1.
    - rewrite Hb2, decide_False by done. pose proof (Hsolr a). lia. }
  step H as w3 [valid new'] Hloop.
  apply (deposit_loop_spec _ _ _ (residual_of kda sender) _ (dp_Amount tc)) in Hloop
    as ((Hs3 & _ & Hb3) & -> & ->); [|apply Hs2|done|done|lia|apply Hpools].
  fold (next_pool (FPR staking)) in H. cbn [app] in H. guard_ok H.
  step H as w4 addr Ha. apply with_err_ok, (user_address_spec _ _ _ sender) in Ha;
    [|apply Hs3|by apply (ws_user_loc _ _ _ _ Hs3), (ws_user_loc _ _ _ _ Hs2), (ws_user_loc _ _ _ _ Hs1)].
  step H as w5 [] Hrc. apply Receipts_Add_spec in Hrc; [|apply Ha].
  pose proof (quiet_trans _ _ _ Ha Hrc) as Hq.
  apply deposit_store_spec in H as [Hrec Huo]; [|apply Hrc| | |].
  2,3: by apply (ws_kapp_loc _ _ _ _ Hq), (ws_kapp_loc _ _ _ _ Hs3), (ws_kapp_loc _ _ _ _ Hs2),
    (ws_kapp_loc _ _ _ _ Hs1).
  2: { intros E. apply (f_equal FPR) in E. cbn in E. by destruct (live_pools (FPR staking)). }
  assert (forall k, user_obj w' k = user_obj w3 k) as Huo3
    by (intros; rewrite Huo; by apply quiet_user).
  splits; [done|..].
  - intros k a. rewrite (user_balance_same w3 w') by apply Huo3.
    destruct (decide (k = residual_of kda sender)) as [->|Hk].
    + rewrite Hb3, Hb2. lia.
    + rewrite (user_balance_same w2 w3) by (apply (ws_user _ _ _ _ Hs3); congruence).
      rewrite Hb2. lia.
  - intros k Hk Hk'. rewrite Huo3, (ws_user _ _ _ _ Hs3), (quiet_user _ _ _ Hs2) by congruence.
    apply (ws_user _ _ _ _ Hs1). congruence.
Qed.

(** ** Properties *)

(** C23: with smart contracts active and no counter of a pool overflowing by the
    amount, a reward deposit is made by a holder of the deposit role and does
    exactly this.  The amount leaves the depositor's balance of the currency and
    is added to what the pool of the next epoch owes in it; that pool, new or
    not, is dated the next epoch and records the present total stake, and owes
    the same as before in every other asset.  Of the other pools those that have
    expired are removed, and what they still owe is credited to the residual
    account (the asset's owner under the V6 rules, the depositor before); the
    others stay as they are.  No other account changes; so for every asset what
    these accounts hold plus what the pools owe is unchanged.  The pools stay one
    per epoch and owe no negative amount, and under the V6 rules the asset is
    not paused. *)
Theorem reward_deposit_conserves w w' sender tc assetID kda staking :
  world_ok w -> dp_ID tc = Some assetID -> is_i64 (dp_Amount tc) ->
  kapp_record w KDAKAppAddress assetID = Some kda ->
  kapp_record w StakingKAppAddress assetID = Some staking ->
  pools_ok (dp_Amount tc) (FPR staking) ->
  solvent w sender -> solvent w (residual_of kda sender) ->
  Deposit env range sender tc w = (w', Ok tt) ->
  let cur := default KLVIdentifier (dp_CurrencyID tc) in
  let pools := FPR staking in
  exists new role,
    GetRoleByAddress kda sender = Ok role /\ HasRoleDeposit role = true /\ 0 < dp_Amount tc /\
    fpr_Epoch new = nextEpoch env /\ fpr_TotalStaked new = TotalStaked staking /\
    (forall a, pool_owed a new = pool_owed a (next_pool pools) + (if decide (a = cur) then dp_Amount tc else 0)) /\
    kapp_record w' StakingKAppAddress assetID = Some (set_FPR staking (live_pools pools ++ [new])) /\
    pools_ok 0 (live_pools pools ++ [new]) /\
    (forall k a, user_balance w' k (Some a) = user_balance w k (Some a)
       - (if decide (k = sender) then if decide (a = cur) then dp_Amount tc else 0 else 0)
       + (if decide (k = residual_of kda sender) then pools_owed a (expired_pools pools) else 0)) /\
    (forall k, k <> sender -> k <> residual_of kda sender -> user_obj w' k = user_obj w k) /\
    (forall a, holdings w' kda sender a + pools_owed a (live_pools pools ++ [new]) =
               holdings w kda sender a + pools_owed a pools) /\
    (env_fc env FixAuditChangesV6 = true -> IsPaused (Attributes kda) = false).
Proof.
  intros Hok Hid Hi Hrec Hst Hpools Hsol Hsolr H cur pools.
  destruct (Deposit_checks _ _ _ _ _ _ _ Hok Hid Hrec Hst H)
    as (role & w1 & lk & ls & l & Hrole & Hdep & Hpos & Hpause & Hq & Hlk & Hls & Hl & Htail).
  assert (forall k a, user_balance w1 k a = user_balance w k a) as Hb1
    by (intros; apply user_balance_same, quiet_user, Hq).
  apply (deposit_tail_spec _ _ sender) in Htail as (Hr & Hbal & Hoth);
    [|apply Hq|done|done|done|ilia|done|intros a; rewrite Hb1; auto..]. fold cur pools in Hr, Hbal.
  set (new := deposited_pool env (next_pool pools) (TotalStaked staking) cur (dp_Amount tc)) in *.
  assert (forall a, pool_owed a new = pool_owed a (next_pool pools) + (if decide (a = cur) then dp_Amount tc else 0)) as Hnew.
  { intros a. apply deposited_owed; [lia|]. destruct (next_pool_in pools) as [->|Hin]; [apply empty_pool_ok; ilia|].
    exact (proj1 (Forall_forall _ _) (proj2 Hpools) _ Hin). }
  exists new, role. splits; try done.
  - unfold new, deposited_pool. by destruct (str_eqb _ _).
  - unfold new, deposited_pool. by destruct (str_eqb _ _).
  - apply (deposited_pools_ok _ pools); [ilia|done| |apply Forall_forall|apply next_pool_in].
    + unfold live_pools, other_pools. etrans; apply sublist_filter.
    + intros p [_ [Hp _]%list_elem_of_filter]%list_elem_of_filter. exact Hp.
  - intros k a. by rewrite Hbal, Hb1.
  - intros k Hk Hk'. rewrite Hoth by done. by apply quiet_user.
  - intros a. unfold holdings. rewrite !Hbal, !Hb1, pools_owed_app, pools_owed_single, Hnew.
    rewrite (pools_split a pools), next_pool_owed by apply Hpools.
    rewrite (decide_True (P := sender = sender)) by done.
    destruct (decide (residual_of kda sender = sender)) as [E|E].
    + rewrite E, (decide_True (P := sender = sender)) by done. lia.
    + rewrite (decide_False (P := sender = residual_of kda sender)) by congruence.
      rewrite (decide_True (P := residual_of kda sender = residual_of kda sender)) by done. lia.
Qed.
End deposit.
