(* ===== verification/FeesPool.v ===== *)
(** * The KDA fee pools

    [core/kapp/kdaFeesPool/kdaFeesPool.go] and [actions.go]: a pool lets users
    pay the KLV fee of a transaction in another asset, at a fixed ratio, out of
    the KLV its owner deposited.  The theorems say what a successful fee swap,
    deposit and withdrawal do to the pool and to the balances of the user, and
    who may do them. *)

From S2P Require Import Prelude Common Strconv GoStd Forks Tools Permissions KdaUtils KdaData DataTrie UserAccount Codec Balances Staking AccountsCache World SystemAccount KdaKapp WorldLemmas KdaSupply.
Local Open Scope Z_scope.

(** ** Messages *)

Record KDAFeesPoolData : Type := {
  pool_OwnerAddress : string; pool_KDA : string; Active : bool; KLVBalance : Z; KDABalance : Z;
  ConvertedFees : Z; pool_AdminAddress : string; FRatioKDA : Z; FRatioKLV : Z;
}.
#[global] Instance KDAFeesPoolData_eq_dec : EqDecision KDAFeesPoolData.
Proof. solve_decision. Defined.

Record KDAPoolInfo : Type := {
  info_Active : bool; info_AdminAddress : string; info_FRatioKDA : Z; info_FRatioKLV : Z;
}.
(** The fields of the contract a pool withdrawal reads. *)
Record WithdrawContract : Type := { wc_AssetID : slice; wc_Amount : Z; wc_CurrencyID : string }.
(** [data.KDAFeeHandler]: the asset a fee is paid in and the amount signed. *)
Record KDAFee : Type := { fee_KDA : slice; fee_Amount : Z }.

Definition set_balances (p : KDAFeesPoolData) (klv kda : Z) : KDAFeesPoolData :=
  {| pool_OwnerAddress := pool_OwnerAddress p; pool_KDA := pool_KDA p; Active := Active p;
     KLVBalance := klv; KDABalance := kda; ConvertedFees := ConvertedFees p;
     pool_AdminAddress := pool_AdminAddress p; FRatioKDA := FRatioKDA p; FRatioKLV := FRatioKLV p |}.

Section fees_pool.
Context `{TO : TrieOps} {Peer : Type} `{UA : AccountsAdapter userAccount}
  `{KA : AccountsAdapter kappAccount} `{PA : AccountsAdapter Peer}
  `{CU : Marshalizer UserKDA} `{CK : Marshalizer KDAData} `{CP : Marshalizer KDAFeesPoolData}.
Variable env : kappEnv.

Abbreviation WM := (M (world Peer) error).
Abbreviation KM := (M (world Peer) (txResultCode * error)).
Abbreviation cdd := (env_fc env EnableSmartContracts).

Definition pool_getKApp : WM nat := on_cache (LoadKApp KDAFeesPoolKAppAddress).
Definition saveKApp (app : nat) : WM unit := on_cache (UpdateKapp app).

(** [getPool]: a decoding error is reported as a missing pool. *)
Definition getPool (app : nat) (kda : string) : WM KDAFeesPoolData :=
  data ← on_kapp app (a ← get; mret (bytes_of (GetStorage a kda)));
  _ ← reject_if (slen data =? 0) ErrAssetPoolNotFound;
  lift (map_err (fun _ => ErrAssetPoolNotFound) (Unmarshal data)).

Definition setPool (app : nat) (kda : string) (val : KDAFeesPoolData) : WM unit :=
  data ← lift (Marshal val);
  on_kapp app (SetStorage kda data).

Definition invalidFeeRatio (info : KDAPoolInfo) : bool :=
  if env_fc env FixAuditChangesV3 then (info_FRatioKLV info <=? 0) || (info_FRatioKDA info <=? 0)
  else (info_FRatioKLV info =? 0) || (info_FRatioKDA info =? 0).

(** [getPool] answering [None] for a missing pool. *)
Definition find_pool (app : nat) (kda : string) : WM (option KDAFeesPoolData) := fun w =>
  match getPool app kda w with
  | (w', Ok p) => (w', Ok (Some p))
  | (w', Err e) => (w', if bool_decide (e = ErrAssetPoolNotFound) then Ok None else Err e)
  end.

Definition UpdatePool (poolID assetOwner sender : string) (info : KDAPoolInfo) : KM unit :=
  app ← or_refuse env ErrFieldAssetNotFound Transaction_KAPPError pool_getKApp;
  found ← or_refuse env ErrFieldAssetNotFound Transaction_KAPPError (find_pool app poolID);
  pool ← match found with
         | Some p => mret p
         | None =>
             _ ← refuse_if env (negb (MatchesAddress assetOwner sender)) ErrFieldInvalidPermission
                   Transaction_AccountNotOwner ErrAccNotOwner;
             mret {| pool_OwnerAddress := sender; pool_KDA := poolID; Active := false; KLVBalance := 0;
                     KDABalance := 0; ConvertedFees := 0; pool_AdminAddress := sender;
                     FRatioKDA := 0; FRatioKLV := 0 |}
         end;
  _ ← refuse_if env (negb (MatchesAddress (pool_AdminAddress pool) sender)
                     && negb (MatchesAddress assetOwner sender)) ErrFieldInvalidPermission
        Transaction_AccountNotOwner ErrAccNotOwner;
  let admin := if negb (slen (info_AdminAddress info) =? 0) then info_AdminAddress info
               else pool_AdminAddress pool in
  _ ← refuse_if env (negb (slen admin =? env_pubkeyLen env)) ErrFieldInvalidAddress
        Transaction_ParameterInvalid ErrAssetPoolInvalidAddress;
  _ ← refuse_if env (invalidFeeRatio info) ErrFieldInvalidAmount
        Transaction_ParameterInvalid ErrAssetPoolInvalidAmount;
  let pool' := {| pool_OwnerAddress := pool_OwnerAddress pool; pool_KDA := pool_KDA pool;
                  Active := info_Active info; KLVBalance := KLVBalance pool;
                  KDABalance := KDABalance pool; ConvertedFees := ConvertedFees pool;
                  pool_AdminAddress := admin; FRatioKDA := info_FRatioKDA info;
                  FRatioKLV := info_FRatioKLV info |} in
  _ ← or_refuse env ErrFieldAssetNotFound Transaction_KAPPError (setPool app poolID pool');
  _ ← or_refuse env ErrFieldAssetNotFound Transaction_KAPPError (saveKApp app);
  Receipts_Add (NewReceipt Receipt_UpdateKDAPool (env_contractID env) [poolID]).

Definition ChangePoolOwner (assetID sender newOwner : string) : KM unit :=
  if negb (env_fc env EnableSmartContracts) then mret tt
  else
    app ← or_refuse env ErrFieldAssetNotFound Transaction_KAPPError pool_getKApp;
    found ← or_refuse env ErrFieldAssetNotFound Transaction_KAPPError (find_pool app assetID);
    match found with
    | None => mret tt
    | Some pool =>
        _ ← refuse_if env (negb (MatchesAddress (pool_OwnerAddress pool) sender))
              ErrFieldInvalidPermission Transaction_AccountNotOwner ErrAccNotOwner;
        _ ← refuse_if env (negb (slen newOwner =? env_pubkeyLen env)) ErrFieldInvalidAddress
              Transaction_ParameterInvalid ErrAssetPoolInvalidAddress;
        let pool' := {| pool_OwnerAddress := newOwner; pool_KDA := pool_KDA pool; Active := Active pool;
                        KLVBalance := KLVBalance pool; KDABalance := KDABalance pool;
                        ConvertedFees := ConvertedFees pool;
                        pool_AdminAddress := pool_AdminAddress pool; FRatioKDA := FRatioKDA pool;
                        FRatioKLV := FRatioKLV pool |} in
        _ ← or_refuse env ErrFieldAssetNotFound Transaction_KAPPError (setPool app assetID pool');
        _ ← or_refuse env ErrFieldAssetNotFound Transaction_KAPPError (saveKApp app);
        Receipts_Add (NewReceipt Receipt_UpdateKDAPool (env_contractID env) [assetID])
    end.

Definition GetPoolOwner (assetID : string) : WM string :=
  app ← pool_getKApp;
  pool ← getPool app assetID;
  mret (pool_OwnerAddress pool).

Definition pool_receipts (from to amount currencyID assetID : string) : KM unit :=
  _ ← Receipts_Add (NewReceipt Receipt_Transfer (env_contractID env)
        [from; to; amount; currencyID; EmptyString; asset_type_byte KDAData_Fungible]);
  Receipts_Add (NewReceipt Receipt_UpdateKDAPool (env_contractID env) [assetID]).

Definition isPoolOwnerOrAdmin (pool : KDAFeesPoolData) (sender : string) : bool :=
  MatchesAddress (pool_AdminAddress pool) sender || MatchesAddress (pool_OwnerAddress pool) sender.

Definition pool_Deposit (sender : string) (tc : DepositContract) : KM unit :=
  _ ← refuse_if env (match dp_ID tc with None => true | Some _ => false end) ErrFieldInvalidAssetID
        Transaction_ParameterInvalid ErrInvalidAsset;
  let assetID := default EmptyString (dp_ID tc) in
  let amount := dp_Amount tc in
  _ ← refuse_if env (amount <=? 0) ErrFieldInvalidAmount Transaction_AmountInvalid ErrInvalidValue;
  let currencyID := default KLVIdentifier (dp_CurrencyID tc) in
  app ← or_refuse env ErrFieldAssetNotFound Transaction_KAPPError pool_getKApp;
  pool ← or_refuse env ErrFieldAssetNotFound Transaction_KAPPError (getPool app assetID);
  _ ← refuse_if env (amount <=? 0) ErrFieldInvalidAmount Transaction_AmountInvalid ErrAssetPoolAmountError;
  _ ← (if isPoolOwnerOrAdmin pool sender then mret tt
       else
         _ ← refuse_if env (negb (env_fc env EnableSmartContracts)) ErrFieldInvalidPermission
               Transaction_KAPPError ErrAssetPoolInvalidAddress;
         '(_, kda) ← or_refuse env ErrFieldAssetNotFound Transaction_KAPPError (GetKDA assetID);
         role ← or_refuse env ErrFieldInvalidRoleAddress Transaction_AssetError
                  (lift (GetRoleByAddress kda sender));
         refuse_if env (negb (HasRoleDeposit role)) ErrFieldMissingDepositRole
           Transaction_AccountError ErrInvalidValue);
  acc ← or_refuse env ErrFieldInvalidAddress Transaction_AccountError (on_cache (LoadUser sender));
  balance ← or_code Transaction_AccountError
              (on_user acc (a ← get; mret (GetBalance a (Some currencyID) cdd)));
  _ ← refuse_if env (balance <? amount) ErrFieldInsufficientFunds Transaction_OutOfFunds ErrBalance;
  _ ← refuse_if env (negb (str_eqb currencyID KLVIdentifier) && negb (str_eqb currencyID (pool_KDA pool)))
        ErrFieldInvalidAssetID Transaction_AssetError ErrAssetPoolInvalidAsset;
  let pool' := if str_eqb currencyID KLVIdentifier
               then set_balances pool (KLVBalance pool +! amount) (KDABalance pool)
               else set_balances pool (KLVBalance pool) (KDABalance pool +! amount) in
  _ ← or_refuse env ErrFieldInsufficientFunds Transaction_AccountError
        (on_user acc (SubFromBalance amount (Some currencyID) cdd None));
  _ ← or_refuse env ErrFieldInvalidAddress Transaction_AccountError (on_cache (cache_SaveUser acc));
  _ ← or_refuse env ErrFieldAssetNotFound Transaction_KAPPError (setPool app assetID pool');
  _ ← or_refuse env ErrFieldAssetNotFound Transaction_KAPPError (saveKApp app);
  pool_receipts sender KDAFeesPoolKAppAddress (FormatInt amount) currencyID assetID.

Definition pool_Withdraw (sender : string) (tc : WithdrawContract) : KM unit :=
  let assetID := default KLVIdentifier (wc_AssetID tc) in
  let amount := wc_Amount tc in
  app ← or_refuse env ErrFieldAssetNotFound Transaction_KAPPError pool_getKApp;
  pool ← or_refuse env ErrFieldAssetNotFound Transaction_KAPPError (getPool app assetID);
  _ ← refuse_if env (amount <=? 0) ErrFieldInvalidAmount Transaction_ParameterInvalid ErrAssetPoolAmountError;
  _ ← refuse_if env (negb (isPoolOwnerOrAdmin pool sender)) ErrFieldInvalidPermission
        Transaction_KAPPError ErrAssetPoolInvalidAddress;
  receiver ← or_refuse env ErrFieldInvalidAddress Transaction_AccountError (on_cache (LoadUser sender));
  pool' ←
    (if str_eqb (wc_CurrencyID tc) KLVIdentifier then
       _ ← refuse_if env (KLVBalance pool <? amount) ErrFieldInsufficientFunds
             Transaction_OutOfFunds ErrAssetPoolOutOfFunds;
       _ ← or_refuse env ErrFieldInvalidAmount Transaction_AccountError
             (on_user receiver (AddToBalance amount None cdd None));
       mret (set_balances pool (KLVBalance pool -! amount) (KDABalance pool))
     else if str_eqb (wc_CurrencyID tc) (pool_KDA pool) then
       _ ← refuse_if env (KDABalance pool <? amount) ErrFieldInsufficientFunds
             Transaction_OutOfFunds ErrAssetPoolOutOfFunds;
       _ ← or_refuse env ErrFieldInvalidAmount Transaction_AccountError
             (on_user receiver (AddToBalance amount (Some (wc_CurrencyID tc)) cdd None));
       mret (set_balances pool (KLVBalance pool) (KDABalance pool -! amount))
     else
       _ ← refuse_if env true ErrFieldInvalidAssetID Transaction_AssetError ErrAssetPoolInvalidAsset;
       mret pool);
  _ ← or_refuse env ErrFieldInvalidAddress Transaction_AccountError (on_cache (cache_SaveUser receiver));
  _ ← or_refuse env ErrFieldAssetNotFound Transaction_KAPPError (setPool app assetID pool');
  _ ← or_refuse env ErrFieldAssetNotFound Transaction_KAPPError (saveKApp app);
  pool_receipts KDAFeesPoolKAppAddress sender (FormatInt amount) (wc_CurrencyID tc) assetID.

(** ** Fee payments *)

Definition fee_key (info : KDAFee) : string := bytes_of (fee_KDA info).

Definition compute (app : nat) (klvFee : Z) (info : KDAFee) : WM (KDAFeesPoolData * Z) :=
  pool ← getPool app (fee_key info);
  _ ← reject_if (negb (Active pool)) ErrAssetPoolNotActive;
  _ ← reject_if (env_fc env FixAuditChangesV3 && ((FRatioKLV pool <=? 0) || (FRatioKDA pool <=? 0)))
        ErrAssetPoolInvalidAmount;
  let fv := Z.quot (klvFee * FRatioKDA pool) (FRatioKLV pool) in
  _ ← reject_if (env_fc env FixAuditChangesV3 && negb (bool_decide (is_i64 fv))) ErrAssetPoolInvalidAmount;
  mret (pool, wrap_i64 fv).

Definition computeValue (app : nat) (klvFee : Z) (info : KDAFee) : WM Z :=
  '(_, value) ← compute app klvFee info; mret value.

Definition Compute (klvFee : Z) (info : KDAFee) : WM Z :=
  app ← pool_getKApp; computeValue app klvFee info.

Definition validate (app : nat) (klvFee : Z) (info : KDAFee) : WM KDAFeesPoolData :=
  _ ← reject_if (klvFee <? 0) ErrAssetPoolInvalidAmount;
  '(pool, value) ← compute app klvFee info;
  _ ← reject_if (KLVBalance pool <? klvFee) ErrAssetPoolOutOfFunds;
  _ ← reject_if ((value <=? 0) || (fee_Amount info <? value)) ErrAssetPoolAmountError;
  mret pool.

Definition feeAssetID (info : KDAFee) : string :=
  match fee_KDA info with
  | None => KLVIdentifier
  | Some s => match split_at sep s with a :: _ => a | [] => KLVIdentifier end
  end.

Definition checkFeeTransferControls (senderAddress : string) (kda : KDAData) : res error unit :=
  if IsPaused (Attributes kda) then Err ErrAssetIsPaused
  else if negb (CanSenderTransfer kda senderAddress) then Err ErrKDATransferNotAllowed
  else Ok tt.

(** [GetKDAUncached]: the last committed record of the asset. *)
Definition GetKDAUncached (assetID : string) : WM KDAData := fun w =>
  (w, app ← LoadKAppUncached KDAKAppAddress (w_cache w);
      bytes ← RetrieveValue (kapp_tracker app) (ToKDAKey assetID EmptyString);
      if slen bytes =? 0 then Err ErrAssetNotFound else Unmarshal bytes).

Definition Validate (senderAddress : string) (klvFee : Z) (info : KDAFee) : WM unit :=
  app ← pool_getKApp;
  _ ← validate app klvFee info;
  if negb (env_fc env FixAuditChangesV5) then mret tt
  else
    kda ← GetKDAUncached (feeAssetID info);
    lift (checkFeeTransferControls senderAddress kda).

(** The checks of [Swap] before it moves anything: the pool accepts the fee
    and, with the V5 rules, the asset may be spent by the sender. *)
Definition swap_checks (sender : nat) (klvAmount : Z) (info : KDAFee) : WM (nat * KDAFeesPoolData) :=
  app ← pool_getKApp;
  pool ← validate app klvAmount info;
  _ ← (if env_fc env FixAuditChangesV5 then
         '(_, kda) ← GetKDA (feeAssetID info);
         addr ← user_address sender;
         lift (checkFeeTransferControls addr kda)
       else mret tt);
  mret (app, pool).

(** [Swap]: the sender pays the signed amount of the asset into the pool and
    receives the KLV fee from it. *)
Definition Swap (sender : nat) (klvAmount : Z) (info : option KDAFee) : WM unit :=
  match info with
  | None => mret tt
  | Some info =>
      '(app, pool) ← swap_checks sender klvAmount info;
      _ ← on_user sender (SubFromBalance (fee_Amount info) (fee_KDA info) cdd None);
      let klv := KLVBalance pool -! klvAmount in
      _ ← reject_if (klv <? 0) ErrInsufficientFunds;
      _ ← on_user sender (AddToBalance klvAmount None cdd None);
      _ ← on_cache (cache_SaveUser sender);
      _ ← setPool app (fee_key info) (set_balances pool klv (KDABalance pool +! fee_Amount info));
      saveKApp app
  end.
End fees_pool.

(** The all-default pool. *)
Definition zeroPool : KDAFeesPoolData :=
  {| pool_OwnerAddress := EmptyString; pool_KDA := EmptyString; Active := false; KLVBalance := 0;
     KDABalance := 0; ConvertedFees := 0; pool_AdminAddress := EmptyString; FRatioKDA := 0;
     FRatioKLV := 0 |}.

Section pool_props.
Context `{TO : TrieOps} `{CU : Marshalizer UserKDA} {UL : UserKDACodec CU} {Peer : Type}
  `{UA : AccountsAdapter userAccount} `{KA : AccountsAdapter kappAccount}
  `{PA : AccountsAdapter Peer} {WL : WorldLaws Peer}
  `{CK : Marshalizer KDAData} `{CP : Marshalizer KDAFeesPoolData} {PL : ProtoCodec CP zeroPool}.
Variable env : kappEnv.
Hypothesis Hsc : env_fc env EnableSmartContracts = true.

Implicit Types (w : world Peer) (p : KDAFeesPoolData).

(** The pool stored for an asset. *)
Definition pool_of w (kda : string) : option KDAFeesPoolData := kapp_value w KDAFeesPoolKAppAddress kda.

Lemma pool_of_same w w' kda :
  kapp_obj w' KDAFeesPoolKAppAddress = kapp_obj w KDAFeesPoolKAppAddress ->
  pool_of w' kda = pool_of w kda.
Proof. apply kapp_value_same. Qed.

Lemma getPool_spec w w' app kda p :
  world_ok w -> kapp_loc w KDAFeesPoolKAppAddress app -> getPool app kda w = (w', Ok p) ->
  world_step nobody nobody w w' /\ pool_of w kda = Some p.
Proof.
  intros Hok Hl H. unfold getPool in H. step H as w1 data Hr.
  apply (kapp_read_spec _ _ KDAFeesPoolKAppAddress) in Hr as [Hst (a & Ha & Hd)]; [|done..].
  guard_ok H. unfold lift in H. injection H as <- H. split; [done|].
  unfold pool_of, kapp_value. rewrite Ha. cbn in *. injection Hd as <-.
  unfold GetStorage in *. destruct (RetrieveValue (kapp_tracker a) kda) as [b|]; cbn in *; [|done].
  rewrite (proj2 (Z.eqb_neq _ _)) by done.
  destruct (Unmarshal b); cbn in H; [by injection H as ->|done].
Qed.

Lemma setPool_spec w w' app kda p :
  world_ok w -> kapp_loc w KDAFeesPoolKAppAddress app -> p <> zeroPool ->
  setPool app kda p w = (w', Ok tt) ->
  world_step nobody (eq KDAFeesPoolKAppAddress) w w' /\ pool_of w' kda = Some p /\
  (forall kda', kda' <> kda -> pool_of w' kda' = pool_of w kda').
Proof.
  intros Hok Hl Hz H. unfold setPool in H. step H as w1 data Hm. unfold lift in Hm. injection Hm as <- Hm.
  destruct (save_value_spec CP zeroPool _ _ KDAFeesPoolKAppAddress app _ _ p Hok Hl Hz Hm H)
    as (Hst & Hv & Hf). split; [done|]. split; [done|]. intros kda' Hne. by apply Hf.
Qed.

Lemma pool_getKApp_spec w w' app :
  world_ok w -> pool_getKApp w = (w', Ok app) ->
  world_step nobody nobody w w' /\ kapp_loc w' KDAFeesPoolKAppAddress app.
Proof. apply LoadKApp_spec. Qed.

(** The amount of the asset a KLV fee costs at the pool's fixed ratio. *)
Definition fee_required p (klvFee : Z) : Z := Z.quot (klvFee * FRatioKDA p) (FRatioKLV p).

Hypothesis Hv3 : env_fc env FixAuditChangesV3 = true.

Lemma validate_spec w w' app klvFee info p :
  world_ok w -> kapp_loc w KDAFeesPoolKAppAddress app ->
  validate env app klvFee info w = (w', Ok p) ->
  world_step nobody nobody w w' /\ pool_of w (fee_key info) = Some p /\ Active p = true /\
  0 < FRatioKLV p /\ 0 < FRatioKDA p /\ 0 <= klvFee <= KLVBalance p /\
  0 < fee_required p klvFee <= fee_Amount info /\ is_i64 (fee_required p klvFee).
Proof.
  intros Hok Hl H. unfold validate in H. guard_ok H. step H as w1 [p' value] Hc.
  unfold compute in Hc. step Hc as w2 p'' Hg. apply getPool_spec in Hg as [Hst Hp]; [|done..].
  rewrite Hv3 in Hc. guard_ok Hc. guard_ok Hc. guard_ok Hc. injection Hc as <- <- <-.
  guard_ok H. guard_ok H. injection H as <- <-.
  cbn in G1, G2. unfold fee_required. zify_bools.
  match goal with H : bool_decide _ = true |- _ => apply bool_decide_eq_true in H | _ => idtac end.
  rewrite wrap_i64_id in * by done. splits; done || lia.
Qed.

Lemma ratio_not_zero p klv kda : 0 < FRatioKLV p -> set_balances p klv kda <> zeroPool.
Proof. intros H E. apply (f_equal FRatioKLV) in E. cbn in E. lia. Qed.

Lemma swap_checks_spec w w' k l klvAmount info app p :
  world_ok w -> user_loc w k l ->
  swap_checks env l klvAmount info w = (w', Ok (app, p)) ->
  world_step nobody nobody w w' /\ kapp_loc w' KDAFeesPoolKAppAddress app /\
  pool_of w (fee_key info) = Some p /\ Active p = true /\ 0 < FRatioKLV p /\
  0 <= klvAmount <= KLVBalance p /\ 0 < fee_required p klvAmount <= fee_Amount info /\
  (env_fc env FixAuditChangesV5 = true -> exists kda,
     kapp_record w KDAKAppAddress (feeAssetID info) = Some kda /\
     IsPaused (Attributes kda) = false).
Proof.
  intros Hok Hl H. unfold swap_checks in H.
  step H as w1 app1 Ha. apply pool_getKApp_spec in Ha as [Hs1 Hal]; [|done].
  step H as w2 p1 Hv. apply validate_spec in Hv as (Hs2 & Hp & Hact & Hr & _ & Hfee & Hreq & _);
    [|apply Hs1|done].
  step H as w3 [] Hc. injection H as <- <- <-.
  pose proof (quiet_trans _ _ _ Hs1 Hs2) as Hq.
  rewrite <- (pool_of_same _ _ _ (quiet_kapp _ _ _ Hs1)).
  assert (world_step nobody nobody w2 w3 /\ (env_fc env FixAuditChangesV5 = true -> exists kda,
     kapp_record w KDAKAppAddress (feeAssetID info) = Some kda /\ IsPaused (Attributes kda) = false))
    as [Hs3 Hctl].
  { destruct (env_fc env FixAuditChangesV5).
    - step Hc as w4 [lk kda] Hg. apply get_record_spec in Hg as (Hs4 & _ & Hrec); [|apply Hq].
      step Hc as w5 addr Haddr. apply (user_address_spec _ _ _ k) in Haddr;
        [|apply Hs4|by apply (ws_user_loc _ _ _ _ Hs4), (ws_user_loc _ _ _ _ Hq)].
      unfold lift in Hc. injection Hc as <- Hc. split; [by eapply quiet_trans|]. intros _. exists kda.
      split; [|by unfold checkFeeTransferControls in Hc; destruct (IsPaused _)].
      unfold kapp_record in *. by rewrite <- (kapp_value_same _ _ _ _ (quiet_kapp _ _ _ Hq)).
    - injection Hc as <-. split; [by apply world_step_refl, Hs2|done]. }
  splits; try done; try lia.
  - by eapply quiet_trans.
  - by apply (ws_kapp_loc _ _ _ _ Hs3), (ws_kapp_loc _ _ _ _ Hs2).
Qed.

(** The tail of [Deposit] and [Withdraw]: save the account, store the pool. *)
Lemma settle_spec w w' k l app kda p from to amount cur :
  world_ok w -> user_loc w k l -> kapp_loc w KDAFeesPoolKAppAddress app -> p <> zeroPool ->
  (_ ← or_refuse env ErrFieldInvalidAddress Transaction_AccountError (on_cache (cache_SaveUser l));
   _ ← or_refuse env ErrFieldAssetNotFound Transaction_KAPPError (setPool app kda p);
   _ ← or_refuse env ErrFieldAssetNotFound Transaction_KAPPError (saveKApp app);
   pool_receipts env from to amount cur kda) w = (w', Ok tt) ->
  pool_of w' kda = Some p /\ (forall kda', kda' <> kda -> pool_of w' kda' = pool_of w kda') /\
  (forall j a, user_balance w' j a = user_balance w j a).
Proof.
  intros Hok Hl Hal Hz H.
  step H as w1 [] Hs. apply or_refuse_ok, (save_user_spec _ _ k) in Hs as (Hok1 & Hko & Hkl & Hub); [|done..].
  step H as w2 [] Hset. apply or_refuse_ok, setPool_spec in Hset as (Hs2 & Hpool & Hoth); [|done|auto|done].
  step H as w3 [] Hsv. apply or_refuse_ok, UpdateKapp_enabled in Hsv; [|apply Hs2]. subst w3.
  unfold pool_receipts in H. step H as w3 [] Hr1. apply Receipts_Add_spec in Hr1; [|apply Hs2].
  apply Receipts_Add_spec in H; [|apply Hr1]. pose proof (quiet_trans _ _ _ Hr1 H) as Hq.
  assert (forall kda, pool_of w' kda = pool_of w2 kda) as Hp
    by (intros; apply pool_of_same, quiet_kapp, Hq).
  split; [by rewrite Hp|]. split.
  - intros kda' Hne. rewrite Hp, (Hoth kda' Hne). apply pool_of_same, Hko.
  - intros j a. rewrite <- Hub. transitivity (user_balance w2 j a).
    + apply user_balance_same, quiet_user, Hq.
    + apply user_balance_same, (ws_user _ _ _ _ Hs2). unfold nobody. tauto.
Qed.

(** The pool after [amount] of [currency] was taken out. *)
Definition pool_minus p (currency : string) (amount : Z) : KDAFeesPoolData :=
  if str_eqb currency KLVIdentifier then set_balances p (KLVBalance p - amount) (KDABalance p)
  else set_balances p (KLVBalance p) (KDABalance p - amount).
Definition pool_holds p (currency : string) : Z :=
  if str_eqb currency KLVIdentifier then KLVBalance p else KDABalance p.

(** The pool after [amount] of [currency] was put in. *)
Definition pool_plus p (currency : string) (amount : Z) : KDAFeesPoolData :=
  if str_eqb currency KLVIdentifier then set_balances p (KLVBalance p +! amount) (KDABalance p)
  else set_balances p (KLVBalance p) (KDABalance p +! amount).

(** Who may put money into a pool. *)
Definition may_deposit w p (asset sender : string) : Prop :=
  isPoolOwnerOrAdmin p sender = true \/
  exists kda role, kapp_record w KDAKAppAddress asset = Some kda /\
    GetRoleByAddress kda sender = Ok role /\ HasRoleDeposit role = true.

Lemma deposit_permission_spec w w' p asset sender :
  world_ok w ->
  (if isPoolOwnerOrAdmin p sender then mret tt
   else
     _ ← refuse_if env (negb (env_fc env EnableSmartContracts)) ErrFieldInvalidPermission
           Transaction_KAPPError ErrAssetPoolInvalidAddress;
     '(_, kda) ← or_refuse env ErrFieldAssetNotFound Transaction_KAPPError (GetKDA asset);
     role ← or_refuse env ErrFieldInvalidRoleAddress Transaction_AssetError
              (lift (GetRoleByAddress kda sender));
     refuse_if env (negb (HasRoleDeposit role)) ErrFieldMissingDepositRole
       Transaction_AccountError ErrInvalidValue) w = (w', Ok tt) ->
  world_step nobody nobody w w' /\ may_deposit w p asset sender.
Proof.
  intros Hok. unfold may_deposit. destruct (isPoolOwnerOrAdmin p sender) eqn:Eo.
  { intros [= <-]. split; [by apply world_step_refl|by left]. }
  intros H. guard_ok H. step H as w1 [l kda] Hg.
  apply or_refuse_ok, get_record_spec in Hg as (Hs & _ & Hr); [|done].
  step H as w2 role Hrole. apply or_refuse_ok in Hrole. unfold lift in Hrole. injection Hrole as <- Hrole.
  apply refuse_if_ok in H as [G' ->]. zify_bools. split; [done|]. right. eauto.
Qed.

(** ** Properties *)

(** C33: with smart contracts and V3 active, a fee paid in an asset other than KLV
    moves exactly the signed amount of it from the sender into the asset's pool
    and exactly the KLV fee from the pool to the sender: both assets are
    conserved, the pool never goes below zero, the signed amount covers the fee
    at the pool's fixed ratio, the pool is active and, under the V5 rules, the
    asset is not paused, and nobody else's balance changes.  Balances and the
    pool's holdings, the amount included, are nonnegative 64-bit amounts. *)
Theorem swap_exact w w' k l klvAmount info asset :
  world_ok w -> user_loc w k l -> is_i64 (fee_Amount info) -> is_i64 klvAmount ->
  fee_KDA info = Some asset -> asset <> KLVIdentifier ->
  0 <= user_balance w k (Some asset) <= MaxInt64 -> 0 <= user_balance w k None <= MaxInt64 ->
  (forall p, pool_of w asset = Some p ->
     KLVBalance p <= MaxInt64 /\ 0 <= KDABalance p /\ KDABalance p + fee_Amount info <= MaxInt64) ->
  Swap env l klvAmount (Some info) w = (w', Ok tt) ->
  exists p, pool_of w asset = Some p /\ Active p = true /\
    0 < fee_required p klvAmount <= fee_Amount info /\
    0 <= klvAmount <= KLVBalance p /\
    pool_of w' asset = Some (set_balances p (KLVBalance p - klvAmount) (KDABalance p + fee_Amount info)) /\
    user_balance w' k (Some asset) = user_balance w k (Some asset) - fee_Amount info /\
    0 <= user_balance w' k (Some asset) /\
    user_balance w' k None = user_balance w k None + klvAmount /\
    (env_fc env FixAuditChangesV5 = true -> exists kda,
       kapp_record w KDAKAppAddress (feeAssetID info) = Some kda /\ IsPaused (Attributes kda) = false) /\
    (forall j a, j <> k -> user_balance w' j a = user_balance w j a).
Proof.
  intros Hok Hl Hi Hik Hkda Hasset Hbal Hbalk Hpb H. unfold Swap in H.
  step H as w1 [app p] Ha.
  assert (fee_key info = asset) as Hkey by (unfold fee_key; by rewrite Hkda).
  apply (swap_checks_spec _ _ k) in Ha as (Hs1 & Hal & Hp & Hact & Hr & Hfee & Hreq & Hctl); [|done..].
  rewrite Hkey in *. rewrite Hsc, Hkda in H. exists p. destruct (Hpb p Hp) as (Hpk & Hpa & Hpf).
  assert (forall j a, user_balance w1 j a = user_balance w j a) as Hb1
    by (intros; apply user_balance_same, quiet_user, Hs1).
  step H as w2 r2 Hsub. apply (debit_spec _ _ k) in Hsub as (Hs2 & Hle & Hnew & Hoth2);
    [|apply Hs1|by apply (ws_user_loc _ _ _ _ Hs1)|done|by rewrite Hb1].
  guard_ok H. rewrite (wrap_i64_id (KLVBalance p - klvAmount)) in * by ilia.
  rewrite (wrap_i64_id (KDABalance p + fee_Amount info)) in H by ilia.
  step H as w3 r3 Hadd.
  assert (user_balance w2 k None = user_balance w k None) as Hk2 by (rewrite Hoth2; [apply Hb1|cbn; congruence]).
  apply (credit_spec _ _ k) in Hadd as (Hs3 & _ & Hadd & _ & Hoth3);
    [|apply Hs2|by apply (ws_user_loc _ _ _ _ Hs2), (ws_user_loc _ _ _ _ Hs1)|done|by rewrite Hk2].
  step H as w4 [] Hsave. apply (save_user_spec _ _ k) in Hsave as (Hok4 & Hko & Hkl & Hub);
    [|apply Hs3|by apply (ws_user_loc _ _ _ _ Hs3), (ws_user_loc _ _ _ _ Hs2), (ws_user_loc _ _ _ _ Hs1)].
  step H as w5 [] Hset. apply setPool_spec in Hset as (Hs5 & Hpool & _);
    [|done|by apply Hkl, (ws_kapp_loc _ _ _ _ Hs3), (ws_kapp_loc _ _ _ _ Hs2)|by apply ratio_not_zero].
  apply UpdateKapp_enabled in H; [|apply Hs5]. subst w5.
  assert (forall j a, user_balance w' j a = user_balance w3 j a) as Hb5.
  { intros j a. rewrite <- Hub. apply user_balance_same, (ws_user _ _ _ _ Hs5). unfold nobody. tauto. }
  splits; try done; try lia.
  - rewrite Hb5, Hoth3, Hnew by (cbn; congruence). by rewrite Hb1.
  - rewrite Hb5, Hoth3, Hnew by (cbn; congruence). rewrite Hb1 in *. lia.
  - rewrite Hb5, Hadd, Hk2. done.
  - intros j a Hj. rewrite Hb5. transitivity (user_balance w2 j a).
    + apply user_balance_same, (ws_user _ _ _ _ Hs3). congruence.
    + rewrite <- Hb1. apply user_balance_same, (ws_user _ _ _ _ Hs2). congruence.
Qed.

(** Only the owner or the admin of a pool can withdraw from it, only KLV or
    the pool's own asset, and never more than the pool holds; what leaves the
    pool is exactly what the withdrawer's balance gains, and no other pool and
    nobody else's balance changes. *)
Theorem pool_withdraw_exact w w' sender tc :
  world_ok w -> is_i64 (wc_Amount tc) ->
  0 <= user_balance w sender (Some (wc_CurrencyID tc)) <= MaxInt64 ->
  let asset := default KLVIdentifier (wc_AssetID tc) in
  (forall p, pool_of w asset = Some p ->
     KLVBalance p <= MaxInt64 /\ KDABalance p <= MaxInt64 /\ 0 < FRatioKLV p) ->
  pool_Withdraw env sender tc w = (w', Ok tt) ->
  exists p, pool_of w asset = Some p /\ isPoolOwnerOrAdmin p sender = true /\
    (wc_CurrencyID tc = KLVIdentifier \/ wc_CurrencyID tc = pool_KDA p) /\
    0 < wc_Amount tc <= pool_holds p (wc_CurrencyID tc) /\
    pool_of w' asset = Some (pool_minus p (wc_CurrencyID tc) (wc_Amount tc)) /\
    (forall kda, kda <> asset -> pool_of w' kda = pool_of w kda) /\
    user_balance w' sender (Some (wc_CurrencyID tc)) =
      user_balance w sender (Some (wc_CurrencyID tc)) + wc_Amount tc /\
    (forall j a, j <> sender -> user_balance w' j a = user_balance w j a).
Proof.
  intros Hok Hi Hbal asset Hpb H. unfold pool_Withdraw in H. fold asset in H. rewrite Hsc in H.
  step H as w1 app Ha. apply or_refuse_ok, pool_getKApp_spec in Ha as [Hs1 Hal]; [|done].
  step H as w2 p Hg. apply or_refuse_ok, getPool_spec in Hg as [Hs2 Hp]; [|apply Hs1|done].
  rewrite (pool_of_same _ _ _ (quiet_kapp _ _ _ Hs1)) in Hp.
  destruct (Hpb p Hp) as (Hpb1 & Hpb2 & Hr).
  guard_ok H. guard_ok H.
  step H as w3 l Hl. apply or_refuse_ok, LoadUserAccount_spec in Hl as [Hs3 Hul]; [|apply Hs2].
  pose proof (quiet_trans _ _ _ Hs1 (quiet_trans _ _ _ Hs2 Hs3)) as Hq.
  assert (forall j a, user_balance w3 j a = user_balance w j a) as Hb3
    by (intros; apply user_balance_same, quiet_user, Hq).
  step H as w4 p' Hmove.
  assert (exists r cur, on_user l (AddToBalance (wc_Amount tc) cur true None) w3 = (w4, Ok r) /\
    default KLVIdentifier cur = wc_CurrencyID tc /\
    (wc_CurrencyID tc = KLVIdentifier \/ wc_CurrencyID tc = pool_KDA p) /\
    wc_Amount tc <= pool_holds p (wc_CurrencyID tc) /\ p' = pool_minus p (wc_CurrencyID tc) (wc_Amount tc))
    as (r & cur & Hadd & Hcur & Hwhich & Hle & ->).
  { unfold pool_holds, pool_minus. destruct (str_eqb (wc_CurrencyID tc) KLVIdentifier) eqn:Ek.
    - guard_ok Hmove. step Hmove as w5 r Hadd. apply or_refuse_ok in Hadd.
      injection Hmove as <- <-. unfold str_eqb in Ek. zify_bools. exists r, None.
      rewrite wrap_i64_id by ilia. cbn. auto 6.
    - destruct (str_eqb (wc_CurrencyID tc) (pool_KDA p)) eqn:Ep.
      + guard_ok Hmove. step Hmove as w5 r Hadd. apply or_refuse_ok in Hadd.
        injection Hmove as <- <-. unfold str_eqb in Ep. zify_bools. exists r, (Some (wc_CurrencyID tc)).
        rewrite wrap_i64_id by ilia. cbn. auto 6.
      + guard_ok Hmove. done. }
  assert (forall w, user_balance w sender cur = user_balance w sender (Some (wc_CurrencyID tc))) as Hsame.
  { intros v. unfold user_balance, GetBalance. destruct (user_obj v sender); [|done].
    destruct cur as [c|]; cbn in Hcur; subst; [done|]. rewrite <- Hcur. done. }
  apply (credit_spec _ _ sender) in Hadd as (Hs4 & Hv & Hnew & _ & _);
    [|apply Hs3|done|done|by rewrite Hb3, Hsame].
  rewrite !Hsame, Hb3 in Hnew. exists p.
  apply (settle_spec _ _ sender) in H as (Hpool & Hothers & Hub);
    [|apply Hs4|by apply (ws_user_loc _ _ _ _ Hs4)
     |by apply (ws_kapp_loc _ _ _ _ Hs4), (ws_kapp_loc _ _ _ _ Hs3), (ws_kapp_loc _ _ _ _ Hs2)
     |by unfold pool_minus; destruct (str_eqb _ _); apply ratio_not_zero].
  splits; try done; try lia.
  - intros kda Hne. rewrite (Hothers kda Hne). apply pool_of_same.
    rewrite (ws_kapp _ _ _ _ Hs4) by (unfold nobody; tauto). by apply quiet_kapp.
  - by rewrite Hub.
  - intros j a Hj. rewrite Hub, <- Hb3. apply user_balance_same, (ws_user _ _ _ _ Hs4). congruence.
Qed.

(** A deposit into a fee pool is made by the pool's owner or admin or by a
    holder of the asset's deposit role, in KLV or the pool's own asset, and moves
    exactly its amount from the depositor's balance, which covers it, into the
    pool; no other pool and nobody else's balance changes. *)
Theorem pool_deposit_exact w w' sender tc asset :
  world_ok w -> is_i64 (dp_Amount tc) -> dp_ID tc = Some asset ->
  let cur := default KLVIdentifier (dp_CurrencyID tc) in
  0 <= user_balance w sender (Some cur) <= MaxInt64 ->
  (forall p, pool_of w asset = Some p -> 0 < FRatioKLV p) ->
  pool_Deposit env sender tc w = (w', Ok tt) ->
  exists p, pool_of w asset = Some p /\ may_deposit w p asset sender /\
    (cur = KLVIdentifier \/ cur = pool_KDA p) /\
    0 < dp_Amount tc <= user_balance w sender (Some cur) /\
    pool_of w' asset = Some (pool_plus p cur (dp_Amount tc)) /\
    (forall kda, kda <> asset -> pool_of w' kda = pool_of w kda) /\
    user_balance w' sender (Some cur) = user_balance w sender (Some cur) - dp_Amount tc /\
    (forall j a, j <> sender -> user_balance w' j a = user_balance w j a).
Proof.
  intros Hok Hi Hid cur Hbal Hpb H. unfold pool_Deposit in H. rewrite Hid in H. cbn [default] in H.
  fold cur in H. guard_ok H. guard_ok H.
  step H as w1 app Ha. apply or_refuse_ok, pool_getKApp_spec in Ha as [Hs1 Hal]; [|done].
  step H as w2 p Hg. apply or_refuse_ok, getPool_spec in Hg as [Hs2 Hp]; [|apply Hs1|done].
  rewrite (pool_of_same _ _ _ (quiet_kapp _ _ _ Hs1)) in Hp. specialize (Hpb p Hp).
  guard_ok H. step H as w3 [] Hperm. apply deposit_permission_spec in Hperm as [Hs3 Hmay]; [|apply Hs2].
  step H as w4 l Hl. apply or_refuse_ok, LoadUserAccount_spec in Hl as [Hs4 Hul]; [|apply Hs3].
  rewrite Hsc in H. step H as w5 bal Hb. apply with_err_ok, (user_read_spec _ _ sender) in Hb as [Hs5 _];
    [|apply Hs4|done|done].
  guard_ok H. guard_ok H.
  pose proof (quiet_trans _ _ _ Hs1 Hs2) as Hq12.
  pose proof (quiet_trans _ _ _ Hq12 (quiet_trans _ _ _ Hs3 (quiet_trans _ _ _ Hs4 Hs5))) as Hq.
  assert (forall j a, user_balance w5 j a = user_balance w j a) as Hb5
    by (intros; apply user_balance_same, quiet_user, Hq).
  step H as w6 r Hsub. apply or_refuse_ok, (debit_spec _ _ sender) in Hsub as (Hs6 & Hle & Hnew & _);
    [|apply Hs5|by apply (ws_user_loc _ _ _ _ Hs5)|done|by rewrite Hb5].
  rewrite Hb5 in Hnew, Hle.
  apply (settle_spec _ _ sender) in H as (Hpool & Hothers & Hub);
    [|apply Hs6|by apply (ws_user_loc _ _ _ _ Hs6), (ws_user_loc _ _ _ _ Hs5)
     |by apply (ws_kapp_loc _ _ _ _ Hs6), (ws_kapp_loc _ _ _ _ Hs5), (ws_kapp_loc _ _ _ _ Hs4),
        (ws_kapp_loc _ _ _ _ Hs3), (ws_kapp_loc _ _ _ _ Hs2)
     |by destruct (str_eqb _ _); apply ratio_not_zero].
  exists p. splits; try done; try lia.
  - destruct Hmay as [?|(kda & role & Hr & ?)]; [by left|right]. exists kda, role. split; [|done].
    unfold kapp_record in *. by rewrite <- (kapp_value_same _ _ _ _ (quiet_kapp _ _ _ Hq12)).
  - unfold str_eqb in *. destruct (decide (cur = KLVIdentifier)) as [E|E]; [by left|right].
    rewrite bool_decide_eq_false_2 in * by done. cbn in *. zify_bools. done.
  - intros kda Hne. rewrite (Hothers kda Hne). apply pool_of_same.
    rewrite (ws_kapp _ _ _ _ Hs6) by (unfold nobody; tauto). by apply quiet_kapp.
  - by rewrite Hub.
  - intros j a Hj. rewrite Hub, <- Hb5. apply user_balance_same, (ws_user _ _ _ _ Hs6). congruence.
Qed.
End pool_props.
