(* ===== verification/MarketKapp.v ===== *)
(** * The marketplace application

    [core/kapp/market/market.go]: marketplaces, orders for non-fungible items
    kept in escrow by the application account, bids, and the settlement that
    pays the referral, the royalties and the seller.  The messages are those of
    [kapps/proto/market.proto] and [data/transaction/proto/contracts.proto]. *)

From S2P Require Import Prelude Common Strconv GoStd Forks Tools Permissions KdaUtils KdaData.
From S2P Require Import DataTrie UserAccount AccountsCache Staking World SystemAccount KdaKapp.
From Stdlib Require Import SpecFloat.
Local Open Scope Z_scope.

(** ** Messages *)

Record Marketplace : Type := {
  mp_ID : string; mp_Name : string; mp_OwnerAddress : string; mp_ReferralAddress : string;
  mp_ReferralPercentage : Z;
}.

(** The order types; other numbers can be transmitted and are refused. *)
Definition MarketOrderData_BuyItNow : Z := 0.
Definition MarketOrderData_Auction : Z := 1.

Record MarketOrderData : Type := {
  mo_ID : string; mo_MarketplaceID : string; mo_MarketType : Z; mo_OwnerAddress : string;
  mo_AssetID : string; mo_CollectionID : string; mo_CurrencyID : string; mo_Price : Z;
  mo_ReservePrice : Z; mo_CurrentBidder : string; mo_CurrentBid : Z; mo_RoyaltiesFixedDeposit : Z;
  mo_ReferralPercentage : Z; mo_StartTime : Z; mo_EndTime : Z; mo_IsClaimed : bool;
  mo_RoyaltyPercentage : Z; mo_RoyaltySnapshotted : bool; mo_ReferralAddress : string;
  mo_ReferralSnapshotted : bool;
}.

Definition emptyMarketplace : Marketplace :=
  {| mp_ID := EmptyString; mp_Name := EmptyString; mp_OwnerAddress := EmptyString;
     mp_ReferralAddress := EmptyString; mp_ReferralPercentage := 0 |}.
Definition emptyOrder : MarketOrderData :=
  {| mo_ID := EmptyString; mo_MarketplaceID := EmptyString; mo_MarketType := 0;
     mo_OwnerAddress := EmptyString; mo_AssetID := EmptyString; mo_CollectionID := EmptyString;
     mo_CurrencyID := EmptyString; mo_Price := 0; mo_ReservePrice := 0;
     mo_CurrentBidder := EmptyString; mo_CurrentBid := 0; mo_RoyaltiesFixedDeposit := 0;
     mo_ReferralPercentage := 0; mo_StartTime := 0; mo_EndTime := 0; mo_IsClaimed := false;
     mo_RoyaltyPercentage := 0; mo_RoyaltySnapshotted := false; mo_ReferralAddress := EmptyString;
     mo_ReferralSnapshotted := false |}.

#[global] Instance Marketplace_eq_dec : EqDecision Marketplace.
Proof. solve_decision. Defined.
#[global] Instance MarketOrderData_eq_dec : EqDecision MarketOrderData.
Proof. solve_decision. Defined.

(** The assignments of the handlers: the bid, the closing of an order, and the
    deposit that was given back. *)
Definition set_bid (o : MarketOrderData) (bid : Z) (bidder : string) : MarketOrderData :=
  {| mo_ID := mo_ID o; mo_MarketplaceID := mo_MarketplaceID o; mo_MarketType := mo_MarketType o;
     mo_OwnerAddress := mo_OwnerAddress o; mo_AssetID := mo_AssetID o;
     mo_CollectionID := mo_CollectionID o; mo_CurrencyID := mo_CurrencyID o; mo_Price := mo_Price o;
     mo_ReservePrice := mo_ReservePrice o; mo_CurrentBidder := bidder; mo_CurrentBid := bid;
     mo_RoyaltiesFixedDeposit := mo_RoyaltiesFixedDeposit o;
     mo_ReferralPercentage := mo_ReferralPercentage o; mo_StartTime := mo_StartTime o;
     mo_EndTime := mo_EndTime o; mo_IsClaimed := mo_IsClaimed o;
     mo_RoyaltyPercentage := mo_RoyaltyPercentage o; mo_RoyaltySnapshotted := mo_RoyaltySnapshotted o;
     mo_ReferralAddress := mo_ReferralAddress o; mo_ReferralSnapshotted := mo_ReferralSnapshotted o |}.

Definition set_closed (o : MarketOrderData) (endTime deposit : Z) : MarketOrderData :=
  {| mo_ID := mo_ID o; mo_MarketplaceID := mo_MarketplaceID o; mo_MarketType := mo_MarketType o;
     mo_OwnerAddress := mo_OwnerAddress o; mo_AssetID := mo_AssetID o;
     mo_CollectionID := mo_CollectionID o; mo_CurrencyID := mo_CurrencyID o; mo_Price := mo_Price o;
     mo_ReservePrice := mo_ReservePrice o; mo_CurrentBidder := mo_CurrentBidder o;
     mo_CurrentBid := mo_CurrentBid o; mo_RoyaltiesFixedDeposit := deposit;
     mo_ReferralPercentage := mo_ReferralPercentage o; mo_StartTime := mo_StartTime o;
     mo_EndTime := endTime; mo_IsClaimed := true;
     mo_RoyaltyPercentage := mo_RoyaltyPercentage o; mo_RoyaltySnapshotted := mo_RoyaltySnapshotted o;
     mo_ReferralAddress := mo_ReferralAddress o; mo_ReferralSnapshotted := mo_ReferralSnapshotted o |}.

(** Byte fields whose absence the code tests are slices. *)
Record BuyContract : Type := { by_ID : slice; by_CurrencyID : slice; by_Amount : Z; by_CurrencyAmount : Z }.
Record SellContract : Type := {
  sl_MarketType : Z; sl_MarketplaceID : slice; sl_AssetID : slice; sl_CurrencyID : slice;
  sl_Price : Z; sl_ReservePrice : Z; sl_EndTime : Z;
}.
Record CreateMarketplaceContract : Type := {
  cm_Name : slice; cm_ReferralAddress : slice; cm_ReferralPercentage : Z;
}.
Record ConfigMarketplaceContract : Type := {
  cf_MarketplaceID : slice; cf_Name : slice; cf_ReferralAddress : slice; cf_ReferralPercentage : Z;
}.

(** A byte field of a decoded message: an empty one is nil. *)
Definition field_slice (s : string) : slice := if slen s =? 0 then None else Some s.

Definition MarketKeyLength : nat := 8.
Definition MaxNameSize : Z := 100.
Definition OrderNotExecuted : Z := 0.
Definition OrderExecuted : Z := 1.
(** [transaction.ClaimContract_MarketClaim]. *)
Definition ClaimContract_MarketClaim : Z := 2.

(** ** The execution context of a market contract

    The context of every application with the block time, the nonce of the
    transaction and the time zone of the node. *)
Record marketEnv : Type := {
  me_env :> kappEnv;
  me_timestamp : Z;
  me_txNonce : Z;
  me_local : Location;
}.

(** How a sale splits in the currency of the order. *)
Record settlementAmounts : Type := {
  referralAddress : string; referral : Z; royalties : Z; marketOwner : Z;
}.

Section market.
Context `{TO : TrieOps} {Peer : Type} `{UA : AccountsAdapter userAccount}
  `{KA : AccountsAdapter kappAccount} `{PA : AccountsAdapter Peer}
  `{CU : Marshalizer UserKDA} `{CK : Marshalizer KDAData}
  `{CP : Marshalizer Marketplace} `{CO : Marshalizer MarketOrderData}.
Variable env : marketEnv.
(** The value of a float conversion that is out of range. *)
Variable oob : spec_float -> Z.
(** The order in which [range] visits the splits when they are not sorted. *)
Variable range : gmap string RoyaltySplitData -> list string.

Abbreviation WM := (M (world Peer) error).
Abbreviation KM := (M (world Peer) (txResultCode * error)).
Abbreviation cdd := (env_fc env EnableSmartContracts).

(** ** Records *)

(** A value of the application account: an account without a trie has none. *)
Definition market_bytes (kapp : nat) (key : string) : WM string := fun w =>
  match on_kapp kapp (kapp_RetrieveValue key) w with
  | (w', Err e) => if bool_decide (e = ErrNilTrie) then (w', Ok EmptyString) else (w', Err e)
  | r => r
  end.

(** The application account and the message; [None] stands for the answer
    [ErrNotFoundInKApp], which comes with the account. *)
Definition market_record {T} `{Marshalizer T} (zero : T) (kapp : nat) (id : slice) (toKey : string -> string)
  : WM (nat * option T) :=
  match id with
  | None => mret (kapp, Some zero)
  | Some id =>
      bytes ← market_bytes kapp (toKey id);
      if slen bytes =? 0 then mret (kapp, None)
      else x ← lift (Unmarshal bytes); mret (kapp, Some x)
  end.

Definition GetMarketplace (marketplaceID : slice) : WM (nat * option Marketplace) :=
  kapp ← on_cache (LoadKApp MarketKAppAddress);
  market_record emptyMarketplace kapp marketplaceID ToMarketplaceKey.
Definition GetMarketOrder (orderID : slice) : WM (nat * option MarketOrderData) :=
  kapp ← on_cache (GetExistingKapp MarketKAppAddress);
  market_record emptyOrder kapp orderID ToMarketOrderKey.

(** For callers to which a missing message is an error. *)
Definition found {T} (m : WM (nat * option T)) : WM (nat * T) :=
  '(kapp, x) ← m;
  match x with Some x => mret (kapp, x) | None => fail ErrNotFoundInKApp end.

Definition SetMarketplace (kapp : nat) (marketplace : Marketplace) : WM unit :=
  data ← lift (Marshal marketplace);
  on_kapp kapp (kapp_SaveKeyValue (ToMarketplaceKey (mp_ID marketplace)) data).
Definition SetMarketOrder (kapp : nat) (order : MarketOrderData) : WM unit :=
  data ← lift (Marshal order);
  on_kapp kapp (kapp_SaveKeyValue (ToMarketOrderKey (mo_ID order)) data).

(** ** The KLV in escrow *)

Definition orderEscrowAmount (app : kappAccount) (key : string) : res error Z :=
  let raw := bytes_of (GetStorage app key) in
  if slen raw =? 0 then Ok 0
  else
    order ← Unmarshal (T := MarketOrderData) raw;
    if mo_IsClaimed order then Ok 0
    else
      let add := if str_eqb (mo_CurrencyID order) KLVIdentifier
                 then mo_RoyaltiesFixedDeposit order +! mo_CurrentBid order
                 else mo_RoyaltiesFixedDeposit order in
      Ok (if add <? 0 then 0 else add).

(** The sum over the order keys found in the account's trie; an entry that
    would overflow is skipped. *)
Fixpoint escrow_sum (app : kappAccount) (keys : list string) (total : Z) : res error Z :=
  match keys with
  | [] => Ok total
  | key :: rest =>
      add ← orderEscrowAmount app key;
      escrow_sum app rest (if MaxInt64 - add <? total then total else total + add)
  end.

(** [leaves] are the keys of the account's trie, in the order of the walk; the
    node has no trie for an application that never stored anything. *)
Definition GetMarketEscrowTotal (app : kappAccount) (leaves : list string) : res error Z :=
  match tr (kapp_tracker app) with
  | None => Ok 0
  | Some _ =>
      let prefix := MarketOrderPrefix +:+ Sp in
      escrow_sum app (filter (fun k => String.prefix prefix k = true) leaves) 0
  end.

(** ** Receipts and credits *)

(** A transfer between an account and the escrow. *)
Definition market_receipt (from to amount asset internalID : string) (ty : EnumAssetType)
    (o : MarketOrderData) : KM unit :=
  Receipts_Add (NewReceipt Receipt_Transfer (env_contractID env)
    [from; to; amount; asset; internalID; asset_type_byte ty; mo_MarketplaceID o; mo_ID o]).

Definition paid_receipt (l : nat) (amount : Z) (currency : slice) (o : MarketOrderData) : KM unit :=
  to ← or_code Transaction_AccountError (user_address l);
  market_receipt MarketKAppAddress to (FormatInt amount) (bytes_of currency) EmptyString KDAData_Fungible o.

(** ** Settlement *)

Definition referralBeneficiary (o : MarketOrderData) : WM string :=
  if mo_ReferralSnapshotted o then mret (mo_ReferralAddress o)
  else
    '(_, marketplace) ← found (GetMarketplace (field_slice (mo_MarketplaceID o)));
    mret (mp_ReferralAddress marketplace).

Definition computeReferralAmount (o : MarketOrderData) (address : string) (amount : Z) (currencyID : slice)
  : KM unit :=
  if amount <=? 0 then mret tt
  else
    referralAcc ← or_code Transaction_LoadAccountError (LoadUserAccount address);
    _ ← or_code Transaction_BalanceError (on_user referralAcc (AddToBalance amount currencyID cdd None));
    _ ← paid_receipt referralAcc amount currencyID o;
    or_code Transaction_SaveAccountError (on_cache (UpdateUser referralAcc)).

(** The share of [value] a split of [percentage] receives. *)
Definition splitRoyaltyAmount (value percentage remaining : Z) : KM Z :=
  splitToPay ← or_code Transaction_ParameterInvalid (lift (ComputePercentageI64 oob value percentage cdd));
  _ ← refuse_if env (env_fc env FixMarketBuyOverflow && (remaining <? splitToPay))
        ErrFieldInvalidRoyalties Transaction_ParameterInvalid ErrInvalidValue;
  mret splitToPay.

(** One split; returns what is left to pay. *)
Definition market_computeSplitRoyalties (address : string) (o : MarketOrderData) (currencyID : slice)
    (value percentage royaltiesToPay : Z) : KM Z :=
  decodedAddress ← or_code Transaction_LoadAccountError (lift (DecodeString address));
  splitRoyalty ← or_code Transaction_LoadAccountError (LoadUserAccount decodedAddress);
  splitToPay ← splitRoyaltyAmount value percentage royaltiesToPay;
  _ ← or_code Transaction_BalanceError
        (on_user splitRoyalty (AddToBalance splitToPay currencyID cdd None));
  _ ← or_code Transaction_SaveAccountError (on_cache (UpdateUser splitRoyalty));
  _ ← paid_receipt splitRoyalty splitToPay currencyID o;
  mret (royaltiesToPay -! splitToPay).

Definition split_percent (percentOf : RoyaltySplitData -> Z) (splits : gmap string RoyaltySplitData)
    (key : string) : Z :=
  match splits !! key with Some s => percentOf s | None => 0 end.

Fixpoint market_splits (keys : list string) (splits : gmap string RoyaltySplitData) (o : MarketOrderData)
    (currencyID : slice) (value : Z) (percentOf : RoyaltySplitData -> Z) (royaltiesToPay : Z) : KM Z :=
  match keys with
  | [] => mret royaltiesToPay
  | key :: rest =>
      left ← market_computeSplitRoyalties key o currencyID value (split_percent percentOf splits key)
               royaltiesToPay;
      market_splits rest splits o currencyID value percentOf left
  end.

Definition computeRoyaltiesFixedDeposit (o : MarketOrderData) (asset : KDAData) : KM unit :=
  let deposit := mo_RoyaltiesFixedDeposit o in
  if deposit <=? 0 then mret tt
  else
    let splits := SplitRoyalties (Royalties asset) in
    left ← market_splits (OrderedKeys range splits (env_fc env FixAuditChangesV6)) splits o
             (Some KLVIdentifier) deposit PercentMarketFixed deposit;
    if left <=? 0 then mret tt
    else
      kdaOwner ← or_code Transaction_LoadAccountError (LoadUserAccount (royalties_Address (Royalties asset)));
      _ ← or_code Transaction_BalanceError
            (on_user kdaOwner (AddToBalance left (Some KLVIdentifier) cdd None));
      _ ← or_code Transaction_SaveAccountError (on_cache (UpdateUser kdaOwner));
      paid_receipt kdaOwner left (Some KLVIdentifier) o.

(** Who receives what the splits leave of the percentage royalty. *)
Definition royalty_remainder_owner (asset : KDAData) : WM nat := fun w =>
  if env_fc env FixAuditChangesV6 then LoadUserAccount (royalties_Address (Royalties asset)) w
  else
    let '(w1, r) := GetExistingUserAccount (royalties_Address (Royalties asset)) w in
    if negb (env_fc env KdaFpr) then GetExistingUserAccount (OwnerAddress asset) w1 else (w1, r).

Definition computeRoyaltiesAmount (o : MarketOrderData) (asset : KDAData) (currencyID : slice)
    (royaltiesAmount : Z) : KM unit :=
  if royaltiesAmount <=? 0 then mret tt
  else
    let splits := SplitRoyalties (Royalties asset) in
    left ← market_splits (OrderedKeys range splits (env_fc env FixAuditChangesV6)) splits o
             currencyID royaltiesAmount PercentMarketPercentage royaltiesAmount;
    if left <=? 0 then mret tt
    else
      kdaOwner ← or_code Transaction_LoadAccountError (royalty_remainder_owner asset);
      _ ← or_code Transaction_BalanceError (on_user kdaOwner (AddToBalance left currencyID cdd None));
      _ ← or_code Transaction_SaveAccountError (on_cache (UpdateUser kdaOwner));
      paid_receipt kdaOwner left currencyID o.

Definition computeMarketOwnerAmount (o : MarketOrderData) (currencyID : slice) (amount : Z) : KM unit :=
  if amount <=? 0 then mret tt
  else
    marketOwnerAcc ← or_code Transaction_LoadAccountError (LoadUserAccount (mo_OwnerAddress o));
    _ ← or_code Transaction_BalanceError (on_user marketOwnerAcc (AddToBalance amount currencyID cdd None));
    _ ← paid_receipt marketOwnerAcc amount currencyID o;
    or_code Transaction_SaveAccountError (on_cache (UpdateUser marketOwnerAcc)).

Definition computeSettlementAmounts (o : MarketOrderData) (roy : RoyaltiesData) (bid : Z)
  : KM settlementAmounts :=
  referralAmount ← or_code Transaction_ParameterInvalid
                     (lift (ComputePercentageI64 oob bid (mo_ReferralPercentage o) cdd));
  address ← (if 0 <? referralAmount
             then or_code Transaction_ParameterInvalid (referralBeneficiary o)
             else mret EmptyString);
  let referralAmount' := if env_fc env FixAuditChangesV4 && (slen address =? 0) then 0 else referralAmount in
  let percentage := if mo_RoyaltySnapshotted o then mo_RoyaltyPercentage o else MarketPercentage roy in
  royaltiesAmount ← or_code Transaction_ParameterInvalid
                      (lift (ComputePercentageI64 oob bid percentage cdd));
  let marketOwnerAmount := bid -! referralAmount' -! royaltiesAmount in
  _ ← refuse_if env (env_fc env FixMarketBuyOverflow && (marketOwnerAmount <? 0))
        ErrFieldInvalidRoyalties Transaction_AmountInvalid ErrInvalidValue;
  mret {| referralAddress := address; referral := referralAmount'; royalties := royaltiesAmount;
          marketOwner := marketOwnerAmount |}.

(** ** Asset controls *)

Definition checkNotPaused (asset : KDAData) : KM unit :=
  reject_if (IsPaused (Attributes asset)) (Transaction_AssetPaused, ErrAssetIsPaused).

Definition checkTransferAllowed (asset : KDAData) (sender destination : string) (amount : Z) : KM unit :=
  reject_if (negb ((amount <=? 0) || IsTransferAllowed asset sender destination))
    (Transaction_KDATransferNotAllowed, ErrKDATransferNotAllowed).

Definition loadUnpausedKDA (id : string) : KM KDAData :=
  '(_, asset) ← or_refuse env ErrFieldAssetNotFound Transaction_KAPPError (GetKDA id);
  _ ← checkNotPaused asset;
  mret asset.

(** What the splits leave, every share allowed. *)
Fixpoint check_splits (keys : list string) (splits : gmap string RoyaltySplitData) (currency : KDAData)
    (buyer : string) (value remaining : Z) : KM Z :=
  match keys with
  | [] => mret remaining
  | key :: rest =>
      splitAddress ← or_code Transaction_LoadAccountError (lift (DecodeString key));
      splitToPay ← splitRoyaltyAmount value (split_percent PercentMarketPercentage splits key) remaining;
      _ ← checkTransferAllowed currency buyer splitAddress splitToPay;
      check_splits rest splits currency buyer value (remaining -! splitToPay)
  end.

Definition checkSettlementControls (o : MarketOrderData) (collection : KDAData) (roy : RoyaltiesData)
    (currency : KDAData) (buyer : string) (amounts : settlementAmounts) : KM unit :=
  _ ← checkTransferAllowed collection (mo_OwnerAddress o) buyer 1;
  _ ← checkTransferAllowed currency buyer (referralAddress amounts) (referral amounts);
  _ ← (if 0 <? royalties amounts then
         remaining ← check_splits (OrderedKeys range (SplitRoyalties roy) true) (SplitRoyalties roy)
                       currency buyer (royalties amounts) (royalties amounts);
         checkTransferAllowed currency buyer (royalties_Address roy) remaining
       else mret tt);
  checkTransferAllowed currency buyer (mo_OwnerAddress o) (marketOwner amounts).

Definition addControlRefusedReceipt (status : txResultCode) : KM unit :=
  match status with
  | Transaction_AssetPaused =>
      Receipts_Add (ErrorReceipt (env_contractID env) ErrFieldAssetPaused ErrAssetIsPaused)
  | Transaction_KDATransferNotAllowed =>
      Receipts_Add (ErrorReceipt (env_contractID env) ErrFieldTransferNotAllowed ErrKDATransferNotAllowed)
  | _ => mret tt
  end.

Definition isControlRefusal (status : txResultCode) : bool :=
  bool_decide (status = Transaction_AssetPaused) || bool_decide (status = Transaction_KDATransferNotAllowed).

(** [addControlRefusedReceipt(ctx, status); return status, err]. *)
Definition with_control_receipt {B} (m : KM B) : KM B := fun w =>
  match m w with
  | (w', Err (status, e)) => ((addControlRefusedReceipt status w').1, Err (status, e))
  | r => r
  end.

Definition checkBidControls (o : MarketOrderData) (currencyID buyer : string) (bid : Z) : KM unit :=
  if negb (env_fc env FixAuditChangesV6) then mret tt
  else
    currency ← with_control_receipt (loadUnpausedKDA currencyID);
    collection ← with_control_receipt (loadUnpausedKDA (mo_CollectionID o));
    amounts ← computeSettlementAmounts o (Royalties collection) bid;
    with_control_receipt
      (checkSettlementControls o collection (Royalties collection) currency buyer amounts).

(** The collection and the split of the current bid.  Before the fork neither
    asset's controls are read. *)
Definition prepareSettlement (o : MarketOrderData) (currencyID : string) (buyer : string)
  : KM (KDAData * settlementAmounts) :=
  '(_, asset) ← or_code Transaction_KAPPError (GetKDA (mo_CollectionID o));
  currency ← (if env_fc env FixAuditChangesV6 then
                _ ← checkNotPaused asset;
                currency ← loadUnpausedKDA currencyID;
                mret (Some currency)
              else mret None);
  amounts ← computeSettlementAmounts o (Royalties asset) (mo_CurrentBid o);
  _ ← match currency with
      | Some currency => checkSettlementControls o asset (Royalties asset) currency buyer amounts
      | None => mret tt
      end;
  mret (asset, amounts).

Definition executeBuyMarket (bidderAcc kapp : nat) (o : MarketOrderData) (currencyID : slice) : KM unit :=
  buyer ← or_code Transaction_AccountError (user_address bidderAcc);
  '(asset, amounts) ← with_control_receipt (prepareSettlement o (bytes_of currencyID) buyer);
  _ ← computeReferralAmount o (referralAddress amounts) (referral amounts) currencyID;
  _ ← computeRoyaltiesFixedDeposit o asset;
  _ ← computeRoyaltiesAmount o asset currencyID (royalties amounts);
  _ ← computeMarketOwnerAmount o currencyID (marketOwner amounts);
  data ← or_code Transaction_BalanceError
           (on_kapp kapp (kapp_SubInternalKDA (mo_CollectionID o) (mo_AssetID o)));
  _ ← or_code Transaction_AssetError
        (on_user bidderAcc (AddInternalKDA (mo_CollectionID o) (mo_AssetID o) data));
  _ ← market_receipt MarketKAppAddress buyer "1" (mo_CollectionID o) (mo_AssetID o) KDAData_NonFungible o;
  _ ← or_code Transaction_SaveAccountError (on_cache (UpdateUser bidderAcc));
  _ ← or_code Transaction_SetMarketOrderErr (SetMarketOrder kapp o);
  or_code Transaction_SaveAccountError (on_cache (UpdateKapp kapp)).

(** ** Handlers *)

(** [AddError(...); return code, ErrInvalidValue]. *)
Abbreviation invalid_if b field code := (refuse_if env b field code ErrInvalidValue).

(** Whether a bid of [amount] executes the order at once. *)
Definition bid_executes (o : MarketOrderData) (amount : Z) : KM bool :=
  if mo_MarketType o =? MarketOrderData_BuyItNow then
    _ ← invalid_if (amount <? mo_Price o) ErrFieldPriceBelowMinimum Transaction_AmountInvalid;
    mret true
  else if mo_MarketType o =? MarketOrderData_Auction then
    _ ← invalid_if (amount <? mo_ReservePrice o) ErrFieldPriceBelowMinimum Transaction_AmountInvalid;
    mret ((0 <? mo_Price o) && (mo_Price o <=? amount))
  else
    _ ← invalid_if true ErrFieldInvalidMarketType Transaction_ParameterInvalid;
    mret false.

(** The previous bid goes back to its bidder. *)
Definition refund_bid (o : MarketOrderData) (currencyID : slice) : KM unit :=
  if 0 <? slen (mo_CurrentBidder o) then
    lastBidderAcc ← or_code Transaction_LoadAccountError (GetExistingUserAccount (mo_CurrentBidder o));
    _ ← or_code Transaction_BalanceError
          (on_user lastBidderAcc (AddToBalance (mo_CurrentBid o) currencyID cdd None));
    _ ← or_code Transaction_SaveAccountError (on_cache (UpdateUser lastBidderAcc));
    paid_receipt lastBidderAcc (mo_CurrentBid o) currencyID o
  else mret tt.

Definition Buy (sender : string) (tc : BuyContract) : KM unit :=
  _ ← invalid_if (bool_decide (by_ID tc = None)) ErrFieldOrderIDMissing Transaction_ParameterInvalid;
  let currencyID := default KLVIdentifier (by_CurrencyID tc) in
  let amount := by_Amount tc in
  _ ← invalid_if (amount <=? 0) ErrFieldInvalidAmount Transaction_AmountInvalid;
  '(kapp, o) ← or_refuse env ErrFieldOrderNotFound Transaction_ParameterInvalid
                 (found (GetMarketOrder (by_ID tc)));
  _ ← invalid_if (env_fc env FixAuditChangesV3 && mo_IsClaimed o) ErrFieldInvalidOrder
        Transaction_ParameterInvalid;
  _ ← invalid_if (negb (str_eqb (mo_CurrencyID o) currencyID)) ErrFieldOrderCurrencyInvalid
        Transaction_ParameterInvalid;
  _ ← invalid_if (mo_EndTime o <? me_timestamp env) ErrFieldOrderExpired Transaction_ParameterInvalid;
  _ ← invalid_if (amount <=? mo_CurrentBid o) ErrFieldBidTooLow Transaction_AmountInvalid;
  execute ← bid_executes o amount;
  _ ← checkBidControls o currencyID sender amount;
  _ ← refund_bid o (Some currencyID);
  bidderAcc ← or_code Transaction_LoadAccountError (GetExistingUserAccount sender);
  _ ← or_refuse env ErrFieldInsufficientFunds Transaction_BalanceError
        (on_user bidderAcc (SubFromBalance amount (Some currencyID) cdd None));
  bidder ← or_code Transaction_AccountError (user_address bidderAcc);
  let o1 := set_bid o amount bidder in
  _ ← market_receipt bidder MarketKAppAddress (FormatInt amount) currencyID EmptyString KDAData_Fungible o1;
  _ ← Receipts_Add (NewReceipt Receipt_Buy (env_contractID env)
        [mo_ID o1; mo_MarketplaceID o1; FormatInt (if execute then OrderExecuted else OrderNotExecuted);
         bidder; FormatInt (mo_CurrentBid o1); mo_CurrencyID o1]);
  if (execute : bool) then
    executeBuyMarket bidderAcc kapp
      (set_closed o1 (me_timestamp env) (mo_RoyaltiesFixedDeposit o1)) (Some currencyID)
  else
    _ ← or_code Transaction_SaveAccountError (on_cache (UpdateUser bidderAcc));
    _ ← or_code Transaction_SetMarketOrderErr (SetMarketOrder kapp o1);
    or_code Transaction_SaveAccountError (on_cache (UpdateKapp kapp)).

(** [marketKapp.AddressBytes()]. *)
Definition kapp_AddressBytes (l : nat) : WM string := on_kapp l (a ← get; mret (kapp_Address a)).

(** An expired order closed without a sale. *)
Definition returnOrderToOwners (kapp : nat) (o : MarketOrderData) : KM unit :=
  marketOwnerAcc ← or_refuse env ErrFieldInvalidAddress Transaction_LoadAccountError
                     (GetExistingUserAccount (mo_OwnerAddress o));
  data ← or_refuse env ErrFieldMarketplaceError Transaction_BalanceError
           (on_kapp kapp (kapp_SubInternalKDA (mo_CollectionID o) (mo_AssetID o)));
  _ ← or_refuse env ErrFieldMarketplaceError Transaction_AssetError
        (on_user marketOwnerAcc (AddInternalKDA (mo_CollectionID o) (mo_AssetID o) data));
  market ← or_code Transaction_AccountError (kapp_AddressBytes kapp);
  owner ← or_code Transaction_AccountError (user_address marketOwnerAcc);
  _ ← market_receipt market owner "1" (mo_CollectionID o) (mo_AssetID o) KDAData_NonFungible o;
  _ ← (if 0 <? mo_RoyaltiesFixedDeposit o then
         _ ← or_refuse env ErrFieldMarketplaceError Transaction_BalanceError
               (on_user marketOwnerAcc
                  (AddToBalance (mo_RoyaltiesFixedDeposit o) (Some KLVIdentifier) cdd None));
         market_receipt market owner (FormatInt (mo_RoyaltiesFixedDeposit o)) KLVIdentifier EmptyString
           KDAData_Fungible o
       else mret tt);
  _ ← or_code Transaction_SaveAccountError (on_cache (UpdateUser marketOwnerAcc));
  if 0 <? slen (mo_CurrentBidder o) then
    bidderAcc ← or_refuse env ErrFieldInvalidAddress Transaction_LoadAccountError
                  (GetExistingUserAccount (mo_CurrentBidder o));
    _ ← or_refuse env ErrFieldMarketplaceError Transaction_BalanceError
          (on_user bidderAcc (AddToBalance (mo_CurrentBid o) (field_slice (mo_CurrencyID o)) cdd None));
    bidder ← or_code Transaction_AccountError (user_address bidderAcc);
    _ ← market_receipt market bidder (FormatInt (mo_CurrentBid o)) (mo_CurrencyID o) EmptyString
          KDAData_Fungible o;
    or_code Transaction_SaveAccountError (on_cache (UpdateUser bidderAcc))
  else mret tt.

(** Whether the sale of an expired order can settle: a refusal of an asset
    control unwinds it, any other failure fails the claim. *)
Definition can_settle (o : MarketOrderData) (buyer : string) : KM bool := fun w =>
  if negb (env_fc env FixAuditChangesV6) then (w, Ok true)
  else
    match prepareSettlement o (mo_CurrencyID o) buyer w with
    | (w', Ok _) => (w', Ok true)
    | (w', Err (status, e)) => if isControlRefusal status then (w', Ok false) else (w', Err (status, e))
    end.

Definition reserve_met (o : MarketOrderData) : bool :=
  (0 <? mo_ReservePrice o) && (mo_ReservePrice o <=? mo_CurrentBid o).

Definition Claim (sender : string) (id : slice) : KM unit :=
  _ ← invalid_if (bool_decide (id = None)) ErrFieldOrderIDMissing Transaction_ParameterInvalid;
  '(kapp, o0) ← or_refuse env ErrFieldOrderNotFound Transaction_ParameterInvalid (found (GetMarketOrder id));
  _ ← invalid_if (mo_IsClaimed o0) ErrFieldClaimNotAvailable Transaction_ParameterInvalid;
  _ ← invalid_if (negb (str_eqb sender (mo_OwnerAddress o0)) && negb (str_eqb sender (mo_CurrentBidder o0)))
        ErrFieldInvalidPermission Transaction_ParameterInvalid;
  let o := set_closed o0 (mo_EndTime o0) (mo_RoyaltiesFixedDeposit o0) in
  let currencyID := field_slice (mo_CurrencyID o) in
  _ ← Receipts_Add (NewReceipt Receipt_Claim (env_contractID env)
        [FormatInt 0; mo_ID o; mo_MarketplaceID o; EmptyString; EmptyString;
         FormatInt ClaimContract_MarketClaim]);
  if me_timestamp env <=? mo_EndTime o then
    _ ← invalid_if (negb (str_eqb sender (mo_OwnerAddress o) && reserve_met o)) ErrFieldClaimNotAvailable
          Transaction_ParameterInvalid;
    bidderAcc ← or_refuse env ErrFieldInvalidAddress Transaction_LoadAccountError
                  (GetExistingUserAccount (mo_CurrentBidder o));
    _ ← executeBuyMarket bidderAcc kapp o currencyID;
    Receipts_Add (NewReceipt Receipt_Buy (env_contractID env) [mo_ID o; mo_MarketplaceID o])
  else
    settled ← (if reserve_met o then
                 bidderAcc ← or_refuse env ErrFieldInvalidAddress Transaction_LoadAccountError
                               (GetExistingUserAccount (mo_CurrentBidder o));
                 buyer ← or_code Transaction_AccountError (user_address bidderAcc);
                 settle ← can_settle o buyer;
                 if (settle : bool) then
                   _ ← executeBuyMarket bidderAcc kapp o currencyID;
                   _ ← Receipts_Add (NewReceipt Receipt_Buy (env_contractID env)
                         [mo_ID o; mo_MarketplaceID o; FormatInt OrderExecuted; buyer;
                          FormatInt (mo_CurrentBid o); mo_CurrencyID o]);
                   mret true
                 else mret false
               else mret false);
    if (settled : bool) then mret tt
    else
      _ ← returnOrderToOwners kapp o;
      _ ← or_refuse env ErrFieldMarketplaceError Transaction_SetMarketOrderErr (SetMarketOrder kapp o);
      or_code Transaction_SaveAccountError (on_cache (UpdateKapp kapp)).

(** *** Listing *)

(** The reserve price an order of the type keeps. *)
Definition sell_reserve (tc : SellContract) : KM Z :=
  if sl_MarketType tc =? MarketOrderData_BuyItNow then
    _ ← invalid_if (sl_Price tc =? 0) ErrFieldInvalidPrice Transaction_AmountInvalid;
    mret 0
  else if sl_MarketType tc =? MarketOrderData_Auction then mret (sl_ReservePrice tc)
  else
    _ ← invalid_if true ErrFieldInvalidMarketType Transaction_ParameterInvalid;
    mret 0.

Definition new_order (tc : SellContract) (orderID sender collection item currencyID : string)
    (reservePrice : Z) (marketplace : Marketplace) (asset : KDAData) : MarketOrderData :=
  let v3 := env_fc env FixAuditChangesV3 in
  let v4 := env_fc env FixAuditChangesV4 in
  {| mo_ID := orderID; mo_MarketplaceID := mp_ID marketplace; mo_MarketType := sl_MarketType tc;
     mo_OwnerAddress := sender; mo_AssetID := item; mo_CollectionID := collection;
     mo_CurrencyID := currencyID; mo_Price := sl_Price tc; mo_ReservePrice := reservePrice;
     mo_CurrentBidder := EmptyString; mo_CurrentBid := 0;
     mo_RoyaltiesFixedDeposit := MarketFixed (Royalties asset);
     mo_ReferralPercentage := mp_ReferralPercentage marketplace; mo_StartTime := me_timestamp env;
     mo_EndTime := sl_EndTime tc; mo_IsClaimed := false;
     mo_RoyaltyPercentage := if v3 then MarketPercentage (Royalties asset) else 0;
     mo_RoyaltySnapshotted := v3;
     mo_ReferralAddress := if v4 then mp_ReferralAddress marketplace else EmptyString;
     mo_ReferralSnapshotted := v4 |}.

(** [ToMarketID] of the contract being executed. *)
Definition market_id (sender : string) : string :=
  ToMarketID (env_hash env) (env_randSeed env) sender (me_txNonce env) (env_contractID env) MarketKeyLength.

Definition is_market_type (ty : Z) : bool :=
  (ty =? MarketOrderData_BuyItNow) || (ty =? MarketOrderData_Auction).

Definition Sell (sender : string) (tc : SellContract) : KM unit :=
  _ ← invalid_if (bool_decide (sl_AssetID tc = None)) ErrFieldInvalidAssetID Transaction_AssetError;
  _ ← invalid_if (bool_decide (sl_MarketplaceID tc = None)) ErrFieldMarketplaceError
        Transaction_ParameterInvalid;
  match split_at sep (bytes_of (sl_AssetID tc)) with
  | [collection; item] =>
      _ ← invalid_if ((sl_Price tc <? 0) || (sl_ReservePrice tc <? 0)) ErrFieldInvalidPrice
            Transaction_ParameterInvalid;
      let oneYearExpiration := AddYears (me_local env) 1 (me_timestamp env) in
      _ ← invalid_if ((sl_EndTime tc <=? me_timestamp env) || (oneYearExpiration <? sl_EndTime tc))
            ErrFieldOrderExpired Transaction_ParameterInvalid;
      let currencyID := default KLVIdentifier (sl_CurrencyID tc) in
      _ ← invalid_if (negb (is_market_type (sl_MarketType tc))) ErrFieldInvalidMarketType
            Transaction_ParameterInvalid;
      '(_, asset) ← or_refuse env ErrFieldAssetNotFound Transaction_KAPPError (GetKDA collection);
      _ ← invalid_if (negb (bool_decide (AssetType asset = KDAData_NonFungible))) ErrFieldInvalidAssetType
            Transaction_AssetTypeInvalid;
      _ ← (if env_fc env FixAuditChangesV6 then with_control_receipt (checkNotPaused asset) else mret tt);
      '(_, marketplace) ← or_refuse env ErrFieldMarketplaceError Transaction_ParameterInvalid
                            (found (GetMarketplace (sl_MarketplaceID tc)));
      _ ← invalid_if (HundredPercent <?
                       wrap_u32 (MarketPercentage (Royalties asset) + mp_ReferralPercentage marketplace))
            ErrFieldInvalidRoyalties Transaction_ParameterInvalid;
      let orderID := market_id sender in
      '(kapp, _) ← or_refuse env ErrFieldInvalidOrder Transaction_KeyConflict (GetMarketOrder (Some orderID));
      reservePrice ← sell_reserve tc;
      ownerAcc ← or_refuse env ErrFieldInvalidAddress Transaction_LoadAccountError
                   (GetExistingUserAccount sender);
      data ← or_refuse env ErrFieldInsufficientFunds Transaction_BalanceError
               (on_user ownerAcc (SubInternalKDA collection item));
      _ ← or_refuse env ErrFieldMarketplaceError Transaction_AssetError
            (on_kapp kapp (kapp_AddInternalKDA collection item data));
      owner ← or_code Transaction_AccountError (user_address ownerAcc);
      let order := new_order tc orderID sender collection item currencyID reservePrice marketplace asset in
      _ ← market_receipt owner MarketKAppAddress "1" collection item (AssetType asset) order;
      let fixed := MarketFixed (Royalties asset) in
      _ ← (if 0 <? fixed then
             _ ← or_refuse env ErrFieldInsufficientFunds Transaction_BalanceError
                   (on_user ownerAcc (SubFromBalance fixed (Some KLVIdentifier) cdd None));
             market_receipt owner MarketKAppAddress (FormatInt fixed) KLVIdentifier EmptyString
               KDAData_Fungible order
           else mret tt);
      _ ← or_refuse env ErrFieldMarketplaceError Transaction_SetMarketOrderErr (SetMarketOrder kapp order);
      _ ← or_code Transaction_SaveAccountError (on_cache (UpdateUser ownerAcc));
      _ ← or_code Transaction_SaveAccountError (on_cache (UpdateKapp kapp));
      _ ← SetReturnData [orderID];
      Receipts_Add (NewReceipt Receipt_Sell (env_contractID env) [mo_ID order; mo_MarketplaceID order])
  | _ => refuse_if env true ErrFieldInvalidAssetType Transaction_AssetTypeInvalid ErrInvalidArgument
  end.

(** *** Cancelling *)

(** Who gets the bid of a cancelled order back. *)
Definition cancel_bidder (o : MarketOrderData) (sender : string) : WM nat := fun w =>
  let '(w1, r) := GetExistingUserAccount (mo_CurrentBidder o) w in
  if negb (env_fc env KdaFpr) then GetExistingUserAccount sender w1 else (w1, r).

Definition CancelOrder (sender : string) (orderID : slice) : KM unit :=
  _ ← invalid_if (bool_decide (orderID = None)) ErrFieldOrderIDMissing Transaction_ParameterInvalid;
  '(kapp, o) ← or_refuse env ErrFieldOrderNotFound Transaction_ParameterInvalid
                 (found (GetMarketOrder orderID));
  _ ← invalid_if (mo_IsClaimed o) ErrFieldInvalidOrder Transaction_ParameterInvalid;
  _ ← invalid_if (negb (str_eqb (mo_OwnerAddress o) sender)) ErrFieldInvalidPermission
        Transaction_ParameterInvalid;
  _ ← invalid_if (mo_EndTime o <=? me_timestamp env) ErrFieldOrderExpired Transaction_ParameterInvalid;
  ownerAcc ← or_refuse env ErrFieldInvalidAddress Transaction_LoadAccountError
               (GetExistingUserAccount sender);
  deposit ← (if 0 <? mo_RoyaltiesFixedDeposit o then
               _ ← or_refuse env ErrFieldMarketplaceError Transaction_BalanceError
                     (on_user ownerAcc
                        (AddToBalance (mo_RoyaltiesFixedDeposit o) (Some KLVIdentifier) cdd None));
               _ ← paid_receipt ownerAcc (mo_RoyaltiesFixedDeposit o) (Some KLVIdentifier) o;
               mret 0
             else mret (mo_RoyaltiesFixedDeposit o));
  o1 ← (if (0 <? slen (mo_CurrentBidder o)) && (0 <? mo_CurrentBid o) then
          bidderAcc ← or_refuse env ErrFieldInvalidAddress Transaction_LoadAccountError
                        (cancel_bidder o sender);
          _ ← or_refuse env ErrFieldMarketplaceError Transaction_BalanceError
                (on_user bidderAcc (AddToBalance (mo_CurrentBid o) (field_slice (mo_CurrencyID o)) cdd None));
          _ ← or_code Transaction_SaveAccountError (on_cache (UpdateUser bidderAcc));
          _ ← paid_receipt bidderAcc (mo_CurrentBid o) (field_slice (mo_CurrencyID o)) o;
          mret (set_bid o 0 EmptyString)
        else mret o);
  let o2 := set_closed o1 (me_timestamp env) deposit in
  data ← or_refuse env ErrFieldMarketplaceError Transaction_BalanceError
           (on_kapp kapp (kapp_SubInternalKDA (mo_CollectionID o2) (mo_AssetID o2)));
  _ ← or_refuse env ErrFieldMarketplaceError Transaction_AssetError
        (on_user ownerAcc (AddInternalKDA (mo_CollectionID o2) (mo_AssetID o2) data));
  owner ← or_code Transaction_AccountError (user_address ownerAcc);
  _ ← market_receipt MarketKAppAddress owner "1" (mo_CollectionID o2) (mo_AssetID o2) KDAData_NonFungible o2;
  _ ← Receipts_Add (NewReceipt Receipt_CancelOrder (env_contractID env) [mo_MarketplaceID o2; mo_ID o2]);
  _ ← or_refuse env ErrFieldMarketplaceError Transaction_SetMarketOrderErr (SetMarketOrder kapp o2);
  _ ← or_code Transaction_SaveAccountError (on_cache (UpdateUser ownerAcc));
  or_code Transaction_SaveAccountError (on_cache (UpdateKapp kapp)).

(** *** Marketplaces *)

Definition valid_name (name : string) : bool := utf8_Valid name && (slen name <=? MaxNameSize).

Definition CreateMarketplace (sender : string) (tc : CreateMarketplaceContract) : KM unit :=
  let name := bytes_of (cm_Name tc) in
  let referral := bytes_of (cm_ReferralAddress tc) in
  _ ← invalid_if (bool_decide (cm_Name tc = None) || negb (valid_name name)) ErrFieldInvalidName
        Transaction_ParameterInvalid;
  _ ← invalid_if ((0 <? slen referral) && negb (slen referral =? env_pubkeyLen env)) ErrFieldInvalidToAddress
        Transaction_ParameterInvalid;
  _ ← invalid_if (HundredPercent <? cm_ReferralPercentage tc) ErrFieldInvalidRoyalties
        Transaction_ParameterInvalid;
  let marketplaceID := market_id sender in
  '(kapp, _) ← or_refuse env ErrFieldMarketplaceError Transaction_KeyConflict
                 (GetMarketplace (Some marketplaceID));
  _ ← or_refuse env ErrFieldMarketplaceError Transaction_ParameterInvalid
        (SetMarketplace kapp
           {| mp_ID := marketplaceID; mp_OwnerAddress := sender; mp_Name := name;
              mp_ReferralAddress := if 0 <? slen referral then referral else sender;
              mp_ReferralPercentage := cm_ReferralPercentage tc |});
  _ ← or_code Transaction_SaveAccountError (on_cache (UpdateKapp kapp));
  _ ← SetReturnData [marketplaceID];
  Receipts_Add (NewReceipt Receipt_CreateMarketplace (env_contractID env) [marketplaceID]).

(** The receipt names [ErrAccNotOwner], the answer is [ErrInvalidValue]. *)
Definition refuse_not_owner (b : bool) : KM unit :=
  if b then
    _ ← Receipts_Add (ErrorReceipt (env_contractID env) ErrFieldInvalidPermission ErrAccNotOwner);
    fail (Transaction_ParameterInvalid, ErrInvalidValue)
  else mret tt.

Definition ConfigMarketplace (sender : string) (tc : ConfigMarketplaceContract) : KM unit :=
  let newReferral := bytes_of (cf_ReferralAddress tc) in
  _ ← invalid_if (negb (bool_decide (cf_ReferralAddress tc = None))
                  && negb (slen newReferral =? env_pubkeyLen env)) ErrFieldInvalidAddress
        Transaction_ParameterInvalid;
  _ ← invalid_if (HundredPercent <? cf_ReferralPercentage tc) ErrFieldInvalidRoyalties
        Transaction_ParameterInvalid;
  '(kapp, marketplace) ← or_refuse env ErrFieldMarketplaceError Transaction_ParameterInvalid
                           (found (GetMarketplace (cf_MarketplaceID tc)));
  _ ← refuse_not_owner (negb (str_eqb (mp_OwnerAddress marketplace) sender));
  name ← match cf_Name tc with
         | Some name =>
             _ ← invalid_if (negb (valid_name name)) ErrFieldInvalidName Transaction_ParameterInvalid;
             mret name
         | None => mret (mp_Name marketplace)
         end;
  referral ← (if env_fc env FixAuditChangesV4 then
                let referral := if 0 <? slen newReferral then newReferral
                                else mp_ReferralAddress marketplace in
                _ ← invalid_if ((0 <? cf_ReferralPercentage tc) && (slen referral =? 0))
                      ErrFieldInvalidAddress Transaction_ParameterInvalid;
                mret referral
              else mret newReferral);
  _ ← or_refuse env ErrFieldMarketplaceError Transaction_ParameterInvalid
        (SetMarketplace kapp
           {| mp_ID := mp_ID marketplace; mp_OwnerAddress := mp_OwnerAddress marketplace; mp_Name := name;
              mp_ReferralAddress := referral; mp_ReferralPercentage := cf_ReferralPercentage tc |});
  _ ← or_refuse env ErrFieldMarketplaceError Transaction_SaveAccountError (on_cache (UpdateKapp kapp));
  Receipts_Add (NewReceipt Receipt_ConfigMarketplace (env_contractID env) [bytes_of (cf_MarketplaceID tc)]).
End market.
