(* ===== verification/Transfer.v ===== *)
(** * Transfers

    [core/kapp/accounts/accounts.go], the transfer contract: permission checks,
    the fixed (KLV) and percentage (asset) royalties with their splits, and the
    movement of fungible, semi-fungible and non-fungible assets.  With
    [core/address.go], the test for contract addresses. *)

From S2P Require Import Prelude Common Strconv GoStd Forks Tools Permissions KdaUtils KdaData.
From S2P Require Import DataTrie UserAccount AccountsCache Staking World SystemAccount KdaKapp.
From Stdlib Require Import SpecFloat.
Local Open Scope Z_scope.

(** ** Contract addresses *)

Definition zeros (n : nat) : string := foldr String EmptyString (replicate n kapp_zero).
Definition NumInitCharactersForScAddress : Z := 10.
Definition VMTypeLen : Z := 2.
(** [common.WasmVirtualMachine]. *)
Definition WasmVirtualMachine : string :=
  String (Ascii.ascii_of_nat 5) (String (Ascii.ascii_of_nat 0) EmptyString).

Definition IsEmptyAddress (address : string) : bool := str_eqb address (zeros (String.length address)).

Definition IsSmartContractAddress (rcvAddress : string) : bool :=
  if slen rcvAddress <=? NumInitCharactersForScAddress then false
  else if IsEmptyAddress rcvAddress then true
  else
    let numOfZeros := Z.to_nat (NumInitCharactersForScAddress - VMTypeLen) in
    str_eqb (String.substring 0 numOfZeros rcvAddress) (zeros numOfZeros)
    && str_eqb (String.substring numOfZeros (Z.to_nat VMTypeLen) rcvAddress) WasmVirtualMachine.

(** ** The contract *)

Record TransferContract : Type := {
  tr_ToAddress : string; tr_AssetID : slice; tr_Amount : Z; KDARoyalties : Z; KLVRoyalties : Z;
}.

Section transfer.
Context `{TO : TrieOps} {Peer : Type} `{UA : AccountsAdapter userAccount}
  `{KA : AccountsAdapter kappAccount} `{PA : AccountsAdapter Peer}
  `{CU : Marshalizer UserKDA} `{CK : Marshalizer KDAData}.
Variable env : kappEnv.
(** The value of a float conversion that is out of range. *)
Variable oob : spec_float -> Z.
(** The order in which [range] visits the splits before they are sorted. *)
Variable range : gmap string RoyaltySplitData -> list string.

Abbreviation WM := (M (world Peer) error).
Abbreviation KM := (M (world Peer) (txResultCode * error)).
Abbreviation cdd := (env_fc env EnableSmartContracts).

Definition checkReadOnly : WM unit := reject_if (env_IsReadOnly env) ErrReadOnlyKAppMutation.

Definition isUninitializedContractAddress (address : string) : WM bool := fun w =>
  if negb (IsSmartContractAddress address) then (w, Ok false)
  else
    match on_cache (GetExistingUser address) w with
    | (w', Err _) => (w', Ok true)
    | (w', Ok userAcc) =>
        on_user userAcc (a ← get; mret ((slen (CodeHash a) =? 0) && (slen (CodeMetadata a) =? 0))) w'
    end.

Definition validateAndLoadAccounts (sender : string) (tc : TransferContract) : KM (nat * nat) :=
  _ ← refuse_if env (negb (slen (tr_ToAddress tc) =? env_pubkeyLen env)) ErrFieldInvalidToAddress
        Transaction_AccountError ErrInvalidRcvAddr;
  _ ← refuse_if env (str_eqb sender (tr_ToAddress tc)) ErrFieldSameAddress
        Transaction_SameAccountError ErrSameSenderAndReceiverAddress;
  acntSrc ← or_refuse env ErrFieldLoadSenderAccount Transaction_LoadAccountError (LoadUserAccount sender);
  acntDst ← or_refuse env ErrFieldLoadReceiverAccount Transaction_LoadAccountError
              (LoadUserAccount (tr_ToAddress tc));
  mret (acntSrc, acntDst).

(** The asset, the item and the record. *)
Definition loadKDA (kdaID : slice) : KM (string * string * KDAData) :=
  let parsedKDA := match kdaID with None => [] | Some s => split_at sep s end in
  let assetID := match parsedKDA with [] => KLVIdentifier | a :: _ => a end in
  '(_, kda) ← or_refuse env ErrFieldAssetNotFound Transaction_KAPPError (GetKDA assetID);
  match parsedKDA with
  | _ :: internalID :: rest =>
      _ ← refuse_if env (negb (TokeTypeHasNonce env (AssetType kda)) || bool_decide (rest <> []))
            ErrFieldInvalidAssetID Transaction_ParameterInvalid ErrInvalidValue;
      mret (assetID, internalID, kda)
  | _ => mret (assetID, EmptyString, kda)
  end.

(** ** Royalties *)

Definition computeRoyalties (kda : KDAData) (amountToTransfer : Z) : res error (Z * Z) :=
  let klvRoyalties := if 0 <? TransferFixed (Royalties kda) then TransferFixed (Royalties kda) else 0 in
  assetRoyalties ← match TransferPercentage (Royalties kda) with
                   | [] => Ok 0
                   | _ => GetTransferRoyaltyByAmount oob kda amountToTransfer (env_fc env KdaFpr) cdd
                   end;
  Ok (klvRoyalties, assetRoyalties).

Definition ComputeRoyalties (kdaID : slice) (amountToTransfer : Z) : KM (Z * Z) :=
  '(_, _, kda) ← loadKDA kdaID;
  lift (map_err (fun e => (Transaction_Ok, e)) (computeRoyalties kda amountToTransfer)).

Definition royalty_receipt (src dst : nat) (amount : Z) (assetID internalID : string) (ty : EnumAssetType)
  : KM unit :=
  from ← or_code Transaction_AccountError (user_address src);
  to ← or_code Transaction_AccountError (user_address dst);
  Receipts_Add (NewReceipt Receipt_Transfer (env_contractID env)
    [from; to; FormatInt amount; assetID; internalID; asset_type_byte ty]).

(** One split; returns what is left to pay. *)
Definition computeSplitRoyalties (address assetID : string) (assetType : EnumAssetType) (acntSrc : nat)
    (value percentage royaltiesToPay : Z) : KM Z :=
  decodedAddress ← or_code Transaction_LoadAccountError (lift (DecodeString address));
  splitRoyalty ← or_code Transaction_LoadAccountError (LoadUserAccount decodedAddress);
  splitToPay ← or_code Transaction_ParameterInvalid (lift (ComputePercentageI64 oob value percentage cdd));
  _ ← refuse_if env (env_fc env FixMarketBuyOverflow && (royaltiesToPay <? splitToPay))
        ErrFieldInvalidRoyalties Transaction_ParameterInvalid ErrInvalidValue;
  _ ← or_code Transaction_BalanceError
        (on_user splitRoyalty (AddToBalance splitToPay (Some assetID) cdd None));
  _ ← or_code Transaction_SaveAccountError (on_cache (UpdateUser splitRoyalty));
  _ ← royalty_receipt acntSrc splitRoyalty splitToPay assetID EmptyString assetType;
  mret (royaltiesToPay -! splitToPay).

Fixpoint pay_splits (keys : list string) (splits : gmap string RoyaltySplitData) (assetID : string)
    (assetType : EnumAssetType) (acntSrc : nat) (value : Z) (percentOf : RoyaltySplitData -> Z)
    (royaltiesToPay : Z) : KM Z :=
  match keys with
  | [] => mret royaltiesToPay
  | key :: rest =>
      let percentage := match splits !! key with Some s => percentOf s | None => 0 end in
      left ← computeSplitRoyalties key assetID assetType acntSrc value percentage royaltiesToPay;
      pay_splits rest splits assetID assetType acntSrc value percentOf left
  end.

Definition paySplitRoyalties (splits : gmap string RoyaltySplitData) (assetID : string)
    (assetType : EnumAssetType) (acntSrc : nat) (value : Z) (percentOf : RoyaltySplitData -> Z)
    (royaltiesToPay : Z) : KM Z :=
  pay_splits (OrderedKeys range splits true) splits assetID assetType acntSrc value percentOf royaltiesToPay.

Definition src_is_contract (acntSrc : nat) : KM bool :=
  address ← or_code Transaction_AccountError (user_address acntSrc);
  mret (IsSmartContractAddress address).

(** The account that receives what the splits leave of a fixed royalty. *)
Definition fixed_royalty_owner (kda : KDAData) : WM nat := fun w =>
  let '(w1, r) := LoadUserAccount (royalties_Address (Royalties kda)) w in
  if negb (env_fc env KdaFpr) then GetExistingUserAccount (OwnerAddress kda) w1 else (w1, r).

Definition processFixedRoyaltiesTransfer (tc : TransferContract) (acntSrc : nat) (kda : KDAData) : KM unit :=
  isSC ← src_is_contract acntSrc;
  let fixed := TransferFixed (Royalties kda) in
  if isSC || (fixed <=? 0) then mret tt
  else
    _ ← reject_if (env_fc env EnableSmartContracts && negb (KLVRoyalties tc =? fixed))
          (Transaction_ParameterInvalid, ErrInvalidValue);
    balance ← or_code Transaction_AccountError
                (on_user acntSrc (a ← get; mret (GetBalance a (Some KLVIdentifier) cdd)));
    _ ← reject_if (balance <? fixed) (Transaction_OutOfFunds, ProcessErrInsufficientFunds);
    _ ← or_code Transaction_BalanceError (on_user acntSrc (SubFromBalance fixed (Some KLVIdentifier) cdd None));
    _ ← or_code Transaction_SaveAccountError (on_cache (UpdateUser acntSrc));
    left ← paySplitRoyalties (SplitRoyalties (Royalties kda)) KLVIdentifier KDAData_Fungible acntSrc fixed
             PercentTransferFixed fixed;
    if left <=? 0 then mret tt
    else
      royaltyOwner ← or_code Transaction_LoadAccountError (fixed_royalty_owner kda);
      _ ← or_code Transaction_BalanceError
            (on_user royaltyOwner (AddToBalance left (Some KLVIdentifier) cdd None));
      _ ← or_code Transaction_SaveAccountError (on_cache (UpdateUser royaltyOwner));
      royalty_receipt acntSrc royaltyOwner left KLVIdentifier EmptyString KDAData_Fungible.

Definition validatePercentageRoyaltiesTransfer (tc : TransferContract) (kda : KDAData) (acntSrc : nat)
    (assetID : string) : KM Z :=
  isSC ← src_is_contract acntSrc;
  match TransferPercentage (Royalties kda) with
  | [] => mret 0
  | _ =>
      if (isSC : bool) then mret 0
      else
        let value := tr_Amount tc in
        _ ← reject_if (value <=? 0) (Transaction_ContractInvalid, ErrInvalidValue);
        royaltyAmount ← or_code Transaction_AccountError
          (lift (GetTransferRoyaltyByAmount oob kda value (env_fc env KdaFpr) cdd));
        balance ← or_code Transaction_AccountError
                    (on_user acntSrc (a ← get; mret (GetBalance a (Some assetID) cdd)));
        _ ← reject_if (balance <? value +! royaltyAmount) (Transaction_OutOfFunds, ProcessErrInsufficientFunds);
        mret royaltyAmount
  end.

Definition processPercentageRoyaltiesTransfer (tc : TransferContract) (assetID internalID : string)
    (acntSrc : nat) (kda : KDAData) : KM unit :=
  royaltyAmount ← validatePercentageRoyaltiesTransfer tc kda acntSrc assetID;
  if royaltyAmount <=? 0 then mret tt
  else
    _ ← reject_if (negb (royaltyAmount =? KDARoyalties tc)) (Transaction_ParameterInvalid, ErrInvalidValue);
    let pay : KM unit :=
      _ ← or_code Transaction_BalanceError
            (on_user acntSrc (SubFromBalance royaltyAmount (Some assetID) cdd None));
      mret tt in
    _ ← (if env_fc env FixMarketBuyOverflow then pay else mret tt);
    left ← paySplitRoyalties (SplitRoyalties (Royalties kda)) assetID (AssetType kda) acntSrc royaltyAmount
             PercentTransferPercentage royaltyAmount;
    if left <=? 0 then mret tt
    else
      royaltyReceiver ← or_code Transaction_LoadAccountError
                          (LoadUserAccount (royalties_Address (Royalties kda)));
      _ ← (if env_fc env FixMarketBuyOverflow then mret tt else pay);
      _ ← or_code Transaction_BalanceError
            (on_user royaltyReceiver (AddToBalance left (Some assetID) cdd None));
      _ ← or_code Transaction_SaveAccountError (on_cache (UpdateUser royaltyReceiver));
      royalty_receipt acntSrc royaltyReceiver left assetID internalID (AssetType kda).

(** ** Moving the asset *)

Definition processNonFungibleTransfer (assetID internalID : string) (acntSrc acntDst : nat) : KM unit :=
  data ← or_code Transaction_BalanceError (on_user acntSrc (SubInternalKDA assetID internalID));
  _ ← or_code Transaction_SaveAccountError (on_cache (UpdateUser acntSrc));
  _ ← or_code Transaction_AssetError (on_user acntDst (AddInternalKDA assetID internalID data));
  _ ← or_code Transaction_SaveAccountError (on_cache (UpdateUser acntDst));
  royalty_receipt acntSrc acntDst 1 assetID internalID KDAData_NonFungible.

Definition processSemiFungibleTransfer (tc : TransferContract) (assetID internalID : string)
    (acntSrc acntDst : nat) : KM unit :=
  _ ← refuse_if env (negb (env_fc env EnableSmartContracts)) ErrFieldInvalidAssetType
        Transaction_AssetTypeInvalid ErrAssetTypeInvalid;
  let value := tr_Amount tc in
  _ ← refuse_if env (value <=? 0) ErrFieldInvalidAmount Transaction_ContractInvalid ErrInvalidValue;
  balance ← or_code Transaction_AccountError
              (on_user acntSrc (a ← get; mret (GetBalanceWithNonce a (Some assetID) internalID cdd)));
  _ ← refuse_if env (balance <? value) ErrFieldInsufficientFunds Transaction_OutOfFunds
        ProcessErrInsufficientFunds;
  _ ← or_refuse env ErrFieldBalanceError Transaction_BalanceError
        (on_user acntSrc (SubFromBalanceWithNonce value (Some assetID) internalID cdd None));
  _ ← or_refuse env ErrFieldBalanceError Transaction_BalanceError
        (on_user acntDst (AddToBalanceWithNonce value (Some assetID) internalID cdd None));
  royalty_receipt acntSrc acntDst value assetID internalID KDAData_SemiFungible.

Definition processFungibleTransfer (tc : TransferContract) (assetID : string) (acntSrc acntDst : nat)
  : KM unit :=
  let value := tr_Amount tc in
  _ ← refuse_if env (value <=? 0) ErrFieldInvalidAmount Transaction_ContractInvalid ErrInvalidValue;
  balance ← or_code Transaction_AccountError
              (on_user acntSrc (a ← get; mret (GetBalance a (Some assetID) cdd)));
  _ ← refuse_if env (balance <? value) ErrFieldInsufficientFunds Transaction_OutOfFunds
        ProcessErrInsufficientFunds;
  _ ← or_code Transaction_BalanceError (on_user acntSrc (SubFromBalance value (Some assetID) cdd None));
  _ ← or_code Transaction_SaveAccountError (on_cache (UpdateUser acntSrc));
  _ ← or_code Transaction_BalanceError (on_user acntDst (AddToBalance value (Some assetID) cdd None));
  _ ← or_code Transaction_SaveAccountError (on_cache (UpdateUser acntDst));
  royalty_receipt acntSrc acntDst value assetID EmptyString KDAData_Fungible.

(** ** The handler; [isSmartContractType] says that a smart-contract contract is
    being processed. *)
Definition Transfer (isSmartContractType : bool) (sender : string) (tc : TransferContract) : KM unit :=
  _ ← or_code Transaction_KAPPError checkReadOnly;
  '(acntSrc, acntDst) ← validateAndLoadAccounts sender tc;
  '(assetID, internalID, kda) ← loadKDA (tr_AssetID tc);
  _ ← refuse_if env (IsPaused (Attributes kda)) ErrFieldAssetPaused Transaction_AssetPaused ErrAssetIsPaused;
  _ ← (if env_fc env EnableSmartContracts then
         _ ← refuse_if env (negb (IsTransferAllowed kda sender (tr_ToAddress tc))) ErrFieldTransferNotAllowed
               Transaction_KDATransferNotAllowed ErrKDATransferNotAllowed;
         if isSmartContractType then mret tt
         else
           uninit ← or_code Transaction_AccountError (isUninitializedContractAddress (tr_ToAddress tc));
           refuse_if env uninit ErrFieldUninitializedContract Transaction_AccountError
             ErrContractAccountNotAllowed
       else mret tt);
  _ ← processFixedRoyaltiesTransfer tc acntSrc kda;
  match AssetType kda with
  | KDAData_NonFungible =>
      _ ← refuse_if env (env_fc env FixAuditChangesV3 && negb (tr_Amount tc =? 1)) ErrFieldInvalidAmount
            Transaction_ContractInvalid ErrInvalidValue;
      processNonFungibleTransfer assetID internalID acntSrc acntDst
  | KDAData_SemiFungible =>
      _ ← processPercentageRoyaltiesTransfer tc assetID internalID acntSrc kda;
      processSemiFungibleTransfer tc assetID internalID acntSrc acntDst
  | KDAData_Fungible =>
      _ ← processPercentageRoyaltiesTransfer tc assetID internalID acntSrc kda;
      processFungibleTransfer tc assetID acntSrc acntDst
  end.
End transfer.
