(* ===== verification/TransferProps.v ===== *)
(** * A transfer moves money and creates none

    What a successful transfer of a fungible asset does to every balance: the
    amount to the receiver, the percentage royalty in the asset and the fixed
    royalty in KLV to the royalty receiver and the splits, whoever they are (the
    sender and the receiver may be among them), and nothing else.  A transfer of
    a non-fungible item moves the stored position, byte for byte.  The
    circulation recorded for an item of a semi-fungible collection moves by
    exactly the minted or burned amount and stays within its maximum supply. *)

From S2P Require Import Prelude Common Strconv GoStd Forks Tools Permissions KdaUtils KdaData DataTrie UserAccount Codec Balances Staking AccountsCache World SystemAccount KdaKapp WorldLemmas KdaSupply Transfer.
From Stdlib Require Import SpecFloat.
Local Open Scope Z_scope.

(** A change of balances: address, asset, amount. *)
Definition change : Type := string -> string -> Z.
Definition no_change : change := fun _ _ => 0.
Definition one_change (k0 a0 : string) (v : Z) : change := fun k a =>
  if decide (k = k0) then if decide (a = a0) then v else 0 else 0.
Definition both (f g : change) : change := fun k a => f k a + g k a.

(** What a list of payments in one asset gives to an address. *)
Definition received (pays : list (string * Z)) (k : string) : Z :=
  zsum ((fun p => if decide (k = p.1) then p.2 else 0) <$> pays).
Definition payments (a0 : string) (pays : list (string * Z)) : change := fun k a =>
  if decide (a = a0) then received pays k else 0.
Definition paid_total (pays : list (string * Z)) : Z := zsum (snd <$> pays).

(** The sum of a change over a set of addresses. *)
Definition over (T : list string) (f : string -> Z) : Z := zsum (f <$> T).

Lemma over_add T f g : over T (fun k => f k + g k) = over T f + over T g.
Proof. unfold over. induction T as [|x T IH]; [done|]. rewrite !fmap_cons, !zsum_cons. lia. Qed.
Lemma over_ext T f g : (forall k, f k = g k) -> over T f = over T g.
Proof. intros H. unfold over. f_equal. by apply list_fmap_ext. Qed.
Lemma over_one T k0 v : NoDup T -> k0 ∈ T -> over T (fun k => if decide (k = k0) then v else 0) = v.
Proof.
  unfold over. induction T as [|x T IH]; [by intros _ ?%elem_of_nil|].
  intros [Hx Hnd]%NoDup_cons [->|Hin]%elem_of_cons.
  - rewrite fmap_cons, zsum_cons, decide_True by done.
    assert (zsum ((fun k => if decide (k = x) then v else 0) <$> T) = 0) as E; [|lia].
    clear IH Hnd. induction T as [|y T IH]; [done|]. apply not_elem_of_cons in Hx as [Hy Hx].
    rewrite fmap_cons, zsum_cons, decide_False by congruence. by rewrite IH.
  - rewrite fmap_cons, zsum_cons, decide_False by congruence. by apply IH.
Qed.
Lemma over_zero T : over T (fun _ => 0) = 0.
Proof. unfold over. by induction T. Qed.

Lemma over_null T f : (forall k, f k = 0) -> over T f = 0.
Proof. intros H. rewrite (over_ext T f (fun _ => 0) H). apply over_zero. Qed.

Lemma over_received T pays :
  NoDup T -> Forall (fun p => p.1 ∈ T) pays -> over T (received pays) = paid_total pays.
Proof.
  intros Hnd Hall. induction Hall as [|p pays Hp Hall IH]; [apply over_zero|].
  unfold paid_total in *. rewrite fmap_cons, zsum_cons, <- IH, <- (over_one T p.1 p.2 Hnd Hp), <- over_add.
  by apply over_ext.
Qed.

Lemma received_snoc pays k0 v k :
  received (pays ++ [(k0, v)]) k = received pays k + (if decide (k = k0) then v else 0).
Proof. unfold received. rewrite fmap_app, zsum_app. cbn. lia. Qed.
Lemma paid_total_snoc pays k0 v : paid_total (pays ++ [(k0, v)]) = paid_total pays + v.
Proof. unfold paid_total. rewrite fmap_app, zsum_app. cbn. lia. Qed.

(** Who may receive a royalty of an asset. *)
Definition beneficiary (kda : KDAData) (k : string) : Prop :=
  k = royalties_Address (Royalties kda) \/
  exists key, is_Some (SplitRoyalties (Royalties kda) !! key) /\ DecodeString key = Ok k.

(** How the splits of a royalty share [total], and how it is divided: each
    split gets its percentage, the royalty address what is left. *)
Definition split_of (roy : RoyaltiesData) (percentOf : RoyaltySplitData -> Z) (key : string) : Z :=
  match SplitRoyalties roy !! key with Some s => percentOf s | None => 0 end.
Definition split_parts (roy : RoyaltiesData) (percentOf : RoyaltySplitData -> Z) (total : Z)
    (keys : list string) : list (string * Z) :=
  omap (fun key => match DecodeString key with
                   | Ok k => Some (k, part_of total (split_of roy percentOf key))
                   | Err _ => None
                   end) keys.
Definition division (roy : RoyaltiesData) (percentOf : RoyaltySplitData -> Z) (total : Z) : list (string * Z) :=
  let parts := split_parts roy percentOf total (map_to_list (SplitRoyalties roy)).*1 in
  parts ++ [(royalties_Address roy, total - paid_total parts)].

Lemma received_app p1 p2 k : received (p1 ++ p2) k = received p1 k + received p2 k.
Proof. unfold received. by rewrite fmap_app, zsum_app. Qed.

Lemma received_one k0 v k : received [(k0, v)] k = if decide (k = k0) then v else 0.
Proof. unfold received. cbn. lia. Qed.

Lemma division_total roy percentOf total : paid_total (division roy percentOf total) = total.
Proof. unfold division. rewrite paid_total_snoc. lia. Qed.

Lemma division_who kda percentOf total :
  Forall (fun p => beneficiary kda p.1) (division (Royalties kda) percentOf total).
Proof.
  apply Forall_app. split; [|by repeat constructor; left]. apply Forall_forall. intros p Hin.
  apply list_elem_of_omap in Hin as (key & Hin & Hd). right. exists key.
  destruct (DecodeString key) as [k|]; [|done]. injection Hd as <-. split; [|done].
  apply list_elem_of_fmap in Hin as ([k' v] & -> & Hkv%elem_of_map_to_list). by exists v.
Qed.

(** Whatever the order in which the splits are visited. *)
Lemma division_order roy percentOf total keys k :
  keys ≡ₚ (map_to_list (SplitRoyalties roy)).*1 ->
  let parts := split_parts roy percentOf total keys in
  received (parts ++ [(royalties_Address roy, total - paid_total parts)]) k
  = received (division roy percentOf total) k.
Proof.
  intros Hk parts. assert (parts ≡ₚ split_parts roy percentOf total (map_to_list (SplitRoyalties roy)).*1) as Hp
    by (unfold parts, split_parts; by rewrite Hk).
  unfold division, paid_total, received. by rewrite !fmap_app, Hp.
Qed.

Lemma division_zero roy percentOf k : received (division roy percentOf 0) k = 0.
Proof.
  assert (forall keys, received (split_parts roy percentOf 0 keys) k = 0 /\ paid_total (split_parts roy percentOf 0 keys) = 0)
    as Hz.
  { unfold received, paid_total. induction keys as [|key keys [IH1 IH2]]; [done|]. cbn.
    fold (split_parts roy percentOf 0 keys). destruct (DecodeString key); [|done].
    rewrite !fmap_cons, !zsum_cons, IH1, IH2. cbn. by case_decide. }
  unfold division.
  rewrite received_app, received_one. destruct (Hz (map_to_list (SplitRoyalties roy)).*1) as [-> ->].
  by case_decide.
Qed.

(** The royalties a transfer of the asset costs its sender; a contract pays
    none. *)
Definition fixed_royalty (kda : KDAData) (sender : string) : Z :=
  if IsSmartContractAddress sender then 0 else Z.max 0 (TransferFixed (Royalties kda)).
Definition percentage_royalty (kda : KDAData) (sender : string) (amount : Z) : Z :=
  if IsSmartContractAddress sender then 0 else tiered (TransferPercentage (Royalties kda)) amount.

Section transfer_props.
Context `{TO : TrieOps} `{CU : Marshalizer UserKDA} {UL : UserKDACodec CU} {Peer : Type}
  `{UA : AccountsAdapter userAccount} `{KA : AccountsAdapter kappAccount}
  `{PA : AccountsAdapter Peer} {WL : WorldLaws Peer} `{CK : Marshalizer KDAData}.
Variable env : kappEnv.
Variable oob : spec_float -> Z.
Variable range : gmap string RoyaltySplitData -> list string.
Hypothesis Hsc : env_fc env EnableSmartContracts = true.
Hypothesis Hfpr : env_fc env KdaFpr = true.
Hypothesis Hmkt : env_fc env FixMarketBuyOverflow = true.
(** [range] visits every key of a map once, in some order. *)
Hypothesis Hrange : forall m, range m ≡ₚ (map_to_list m).*1.

Implicit Types (w : world Peer) (f g : change).

(** Every balance of every account is a nonnegative [int64]. *)
Definition all_solvent w : Prop := forall k a, 0 <= user_balance w k (Some a) <= MaxInt64.

(** [w'] is [w] with the balances changed by [f] and no application touched. *)
Record shift w w' f : Prop := {
  sh_step : world_step (fun _ => True) nobody w w';
  sh_solvent : all_solvent w';
  sh_balance : forall k a, user_balance w' k (Some a) = user_balance w k (Some a) + f k a;
}.

Lemma shift_ok w w' f : shift w w' f -> world_ok w'.
Proof. intros H. apply (sh_step _ _ _ H). Qed.
Lemma shift_loc w w' f k l : shift w w' f -> user_loc w k l -> user_loc w' k l.
Proof. intros H. apply (ws_user_loc _ _ _ _ (sh_step _ _ _ H)). Qed.

Lemma shift_quiet w w' : all_solvent w -> world_step nobody nobody w w' -> shift w w' no_change.
Proof.
  intros Hs Hq. assert (forall k a, user_balance w' k a = user_balance w k a) as Hb
    by (intros; apply user_balance_same, quiet_user, Hq).
  split; [eapply world_step_weaken; [exact Hq|done|done]| |].
  - intros k a. rewrite Hb. apply Hs.
  - intros k a. rewrite Hb. unfold no_change. lia.
Qed.

Lemma shift_trans w1 w2 w3 f g h :
  shift w1 w2 f -> shift w2 w3 g -> (forall k a, h k a = f k a + g k a) -> shift w1 w3 h.
Proof.
  intros [S1 _ B1] [S2 So2 B2] Hh. split; [|done|].
  - eapply world_step_weaken; [exact (world_step_trans _ _ _ _ _ _ _ S1 S2)|done|unfold nobody; tauto].
  - intros k a. rewrite B2, B1, Hh. lia.
Qed.

Lemma shift_ext w w' f g : shift w w' f -> (forall k a, g k a = f k a) -> shift w w' g.
Proof. intros [? ? B] Hg. split; [done|done|]. intros k a. by rewrite B, Hg. Qed.

Lemma shift_then_quiet w1 w2 w3 f : shift w1 w2 f -> world_step nobody nobody w2 w3 -> shift w1 w3 f.
Proof.
  intros H Hq. eapply shift_trans; [exact H|apply shift_quiet; [apply (sh_solvent _ _ _ H)|exact Hq]|].
  intros k a. unfold no_change. lia.
Qed.

Lemma shift_one w w' k0 l a0 v (Hst : world_step (eq k0) nobody w w') :
  all_solvent w -> user_loc w k0 l ->
  user_balance w' k0 (Some a0) = user_balance w k0 (Some a0) + v ->
  0 <= user_balance w' k0 (Some a0) <= MaxInt64 ->
  (forall a, a <> a0 -> user_balance w' k0 (Some a) = user_balance w k0 (Some a)) ->
  shift w w' (one_change k0 a0 v).
Proof.
  intros Hs Hl Hb Hr Hf.
  assert (forall k a, k <> k0 -> user_balance w' k a = user_balance w k a) as Ho
    by (intros k a Hk; apply user_balance_same, (ws_user _ _ _ _ Hst); congruence).
  split; [eapply world_step_weaken; [exact Hst|done|done]| |].
  - intros k a. destruct (decide (k = k0)) as [->|Hk]; [|rewrite Ho by done; apply Hs].
    destruct (decide (a = a0)) as [->|Ha]; [done|]. rewrite Hf by done. apply Hs.
  - intros k a. unfold one_change. destruct (decide (k = k0)) as [->|Hk]; [|rewrite Ho by done; lia].
    destruct (decide (a = a0)) as [->|Ha]; [done|]. rewrite Hf by done. lia.
Qed.

Lemma shift_credit w w' k l v a r :
  world_ok w -> all_solvent w -> user_loc w k l -> is_i64 v ->
  on_user l (AddToBalance v (Some a) true None) w = (w', Ok r) ->
  0 <= v /\ shift w w' (one_change k a v).
Proof.
  intros Hok Hs Hl Hv H.
  apply (credit_spec _ _ k) in H as (Hst & Hv0 & Hb & Hmax & Hf); [|done|done|done|apply Hs].
  split; [done|]. apply (shift_one _ _ _ l); [done|done|done|done|split; [|done]|].
  - rewrite Hb. pose proof (Hs k a). lia.
  - intros a' Ha. apply Hf. cbn. congruence.
Qed.

Lemma shift_debit w w' k l v a r :
  world_ok w -> all_solvent w -> user_loc w k l -> is_i64 v ->
  on_user l (SubFromBalance v (Some a) true None) w = (w', Ok r) ->
  0 <= v <= user_balance w k (Some a) /\ shift w w' (one_change k a (- v)).
Proof.
  intros Hok Hs Hl Hv H.
  apply (debit_spec _ _ k) in H as (Hst & Hle & Hb & Hf); [|done|done|done|apply Hs].
  split; [done|]. pose proof (Hs k a). apply (shift_one _ _ _ l); [done|done|done|lia|lia|].
  intros a' Ha. apply Hf. cbn. congruence.
Qed.

Lemma receipt_spec w w' src dst ks kd amount a i ty :
  world_ok w -> user_loc w ks src -> user_loc w kd dst ->
  royalty_receipt env src dst amount a i ty w = (w', Ok tt) -> world_step nobody nobody w w'.
Proof.
  intros Hok Hs Hd H. unfold royalty_receipt in H.
  step H as w1 from Hf. apply with_err_ok, (user_address_spec _ _ _ ks) in Hf; [|done..].
  step H as w2 to Ht. apply with_err_ok, (user_address_spec _ _ _ kd) in Ht;
    [|apply Hf|by apply (ws_user_loc _ _ _ _ Hf)].
  apply Receipts_Add_spec in H; [|apply Ht].
  exact (quiet_trans _ _ _ Hf (quiet_trans _ _ _ Ht H)).
Qed.

(** Crediting a royalty and writing its receipt. *)
Lemma royalty_credit_spec w w' src ks k l v a i ty :
  world_ok w -> all_solvent w -> user_loc w ks src -> user_loc w k l -> is_i64 v ->
  (_ ← or_code Transaction_BalanceError (on_user l (AddToBalance v (Some a) true None));
   _ ← or_code Transaction_SaveAccountError (on_cache (UpdateUser l));
   royalty_receipt env src l v a i ty) w = (w', Ok tt) ->
  0 <= v /\ shift w w' (one_change k a v).
Proof.
  intros Hok Hs Hsrc Hl Hv H.
  step H as w1 r Hadd. apply with_err_ok, (shift_credit _ _ k) in Hadd as [Hv0 Hsh]; [|done..].
  step H as w2 [] Hu. apply with_err_ok, UpdateUser_enabled in Hu; [|by eapply shift_ok]. subst w2.
  apply (receipt_spec _ _ _ _ ks k) in H; [|by eapply shift_ok|by eapply shift_loc..].
  split; [done|]. by eapply shift_then_quiet.
Qed.

Lemma loaded_credit w w1 w' src ks k l v a i ty :
  all_solvent w -> world_step nobody nobody w w1 -> user_loc w ks src -> user_loc w1 k l -> is_i64 v ->
  (_ ← or_code Transaction_BalanceError (on_user l (AddToBalance v (Some a) true None));
   _ ← or_code Transaction_SaveAccountError (on_cache (UpdateUser l));
   royalty_receipt env src l v a i ty) w1 = (w', Ok tt) ->
  shift w w' (one_change k a v).
Proof.
  intros Hs Hq Hsrc Hl Hv H. pose proof (shift_quiet _ _ Hs Hq) as Sh0.
  apply (royalty_credit_spec _ _ _ ks k) in H as [_ Sh1];
    [|apply Hq|apply (sh_solvent _ _ _ Sh0)|by eapply shift_loc|done|done].
  eapply shift_trans; [exact Sh0|exact Sh1|]. intros k' a'. unfold no_change. lia.
Qed.

(** ** Royalties *)

Lemma computeSplit_spec w w' src ks key a ty value pct left left' :
  world_ok w -> all_solvent w -> user_loc w ks src -> 0 <= left <= MaxInt64 ->
  computeSplitRoyalties env oob key a ty src value pct left w = (w', Ok left') ->
  exists k, DecodeString key = Ok k /\ 0 <= left' <= left /\ left = left' + part_of value pct /\
    shift w w' (one_change k a (part_of value pct)).
Proof.
  intros Hok Hs Hsrc Hleft H. unfold computeSplitRoyalties in H. rewrite Hmkt in H.
  step H as w1 k Hk. apply with_err_ok in Hk. unfold lift in Hk. injection Hk as <- Hk.
  step H as w1 l Hl. apply with_err_ok, LoadUserAccount_spec in Hl as [Hq Hl]; [|done].
  step H as w2 v Hv. apply with_err_ok in Hv. unfold lift in Hv. injection Hv as <- Hv.
  guard_ok H. cbn in G. apply Z.ltb_ge in G. rewrite Hsc in Hv.
  apply percentage_value in Hv as [-> Hi]. set (v := part_of value pct) in *.
  pose proof (sh_solvent _ _ _ (shift_quiet _ _ Hs Hq)) as Hs1.
  rewrite Hsc in H. step H as w2 r Hadd.
  apply with_err_ok, (shift_credit _ _ k) in Hadd as [Hv0 Hsh]; [|apply Hq|done..].
  step H as w3 [] Hu. apply with_err_ok, UpdateUser_enabled in Hu; [|by eapply shift_ok]. subst w3.
  step H as w3 [] Hr. apply (receipt_spec _ _ _ _ ks k) in Hr;
    [|by eapply shift_ok|by eapply shift_loc; [|apply (ws_user_loc _ _ _ _ Hq)]|by eapply shift_loc].
  injection H as <- <-. exists k. rewrite wrap_i64_id by ilia. splits; [done|lia|lia|lia|].
  eapply shift_then_quiet; [|exact Hr]. eapply shift_trans; [by apply shift_quiet|exact Hsh|].
  intros k' a'. unfold no_change. lia.
Qed.

Lemma shift_payment w1 w2 w3 a k v pays :
  shift w1 w2 (one_change k a v) -> shift w2 w3 (payments a pays) -> shift w1 w3 (payments a ((k, v) :: pays)).
Proof.
  intros H1 H2. eapply shift_trans; [exact H1|exact H2|]. intros k' a'. unfold payments, one_change.
  change ((k, v) :: pays) with ([(k, v)] ++ pays). rewrite received_app, received_one. repeat case_decide; lia.
Qed.

Lemma shift_no_payment w a : world_ok w -> all_solvent w -> shift w w (payments a []).
Proof.
  intros Hok Hs. eapply shift_ext; [by apply shift_quiet, world_step_refl|].
  intros k a'. unfold payments, received, no_change. cbn. by case_decide.
Qed.

Lemma pay_splits_spec keys w w' src ks roy a ty value pct left left' :
  world_ok w -> all_solvent w -> user_loc w ks src -> 0 <= left <= MaxInt64 ->
  pay_splits env oob keys (SplitRoyalties roy) a ty src value pct left w = (w', Ok left') ->
  let parts := split_parts roy pct value keys in
  0 <= left' <= left /\ left' = left - paid_total parts /\ shift w w' (payments a parts).
Proof.
  revert w left. induction keys as [|key keys IH]; intros w left Hok Hs Hsrc Hleft H.
  { injection H as <- <-. split; [lia|]. split; [cbn; lia|by apply shift_no_payment]. }
  cbn [pay_splits] in H. step H as w1 left1 Hc. fold (split_of roy pct key) in Hc.
  apply (computeSplit_spec _ _ _ ks) in Hc as (k & Hd & Hl1 & Hl & Hsh1); [|done..].
  destruct (IH w1 left1) as (Hle & Hl' & Hsh'); [by eapply shift_ok|apply (sh_solvent _ _ _ Hsh1)|by eapply shift_loc|lia|done|].
  cbn [split_parts omap list_omap]. rewrite Hd. fold (split_parts roy pct value keys).
  split; [lia|]. split; [unfold paid_total in *; rewrite fmap_cons, zsum_cons; cbn; lia|].
  by eapply shift_payment.
Qed.

Lemma src_is_contract_spec w w' sender src b :
  world_ok w -> user_loc w sender src -> src_is_contract src w = (w', Ok b) ->
  world_step nobody nobody w w' /\ b = IsSmartContractAddress sender.
Proof.
  intros Hok Hl H. unfold src_is_contract in H. step H as w1 addr Ha. apply with_err_ok in Ha.
  pose proof (user_address_value _ _ _ _ _ Hok Hl Ha) as ->.
  apply (user_address_spec _ _ _ sender) in Ha; [|done..]. by injection H as <- <-.
Qed.

Lemma read_balance_spec w w' k l a b :
  world_ok w -> user_loc w k l ->
  on_user l (a' ← get; mret (GetBalance a' (Some a) true)) w = (w', Ok b) ->
  world_step nobody nobody w w' /\ b = user_balance w k (Some a).
Proof.
  intros Hok Hl H. apply (user_read_spec _ _ k) in H as [Hq (x & Hx & Hb)]; [|done..].
  cbn in Hb. injection Hb as <-. split; [done|]. unfold user_balance. by rewrite Hx.
Qed.

(** A royalty of [total] in asset [a]: the sender pays it, the beneficiaries
    share it. *)
Definition royalty_change (sender a : string) (total : Z) (pays : list (string * Z)) : change :=
  both (one_change sender a (- total)) (payments a pays).

Lemma shift_nothing w w' sender roy percentOf a :
  all_solvent w -> world_step nobody nobody w w' ->
  shift w w' (royalty_change sender a 0 (division roy percentOf 0)).
Proof.
  intros Hs Hq. eapply shift_ext; [by apply shift_quiet|].
  intros k' a'. unfold royalty_change, both, one_change, payments, no_change. rewrite division_zero.
  repeat case_decide; done.
Qed.

(** A royalty paid by the sender: the splits first, what they leave to the
    account [k], the royalty address. *)
Lemma royalty_paid w w1 w2 w' src sender roy percentOf a ty total left (rest : M (world Peer) (txResultCode * error) unit) :
  shift w w1 (one_change sender a (- total)) -> user_loc w1 sender src -> 0 <= total <= MaxInt64 ->
  paySplitRoyalties env oob range (SplitRoyalties roy) a ty src total percentOf total w1 = (w2, Ok left) ->
  (if left <=? 0 then mret tt else rest) w2 = (w', Ok tt) ->
  (world_ok w2 -> all_solvent w2 -> user_loc w2 sender src -> is_i64 left -> rest w2 = (w', Ok tt) ->
     shift w2 w' (one_change (royalties_Address roy) a left)) ->
  shift w w' (royalty_change sender a total (division roy percentOf total)).
Proof.
  intros Sh1 Hsrc Ht Hsp H Hrest. unfold paySplitRoyalties in Hsp. set (keys := OrderedKeys _ _ _) in Hsp.
  assert (keys ≡ₚ (map_to_list (SplitRoyalties roy)).*1) as Hkeys
    by (unfold keys, OrderedKeys; by rewrite merge_sort_Permutation, Hrange).
  apply (pay_splits_spec _ _ _ _ sender) in Hsp as (Hleft & Hl & Sh2);
    [|by eapply shift_ok|apply (sh_solvent _ _ _ Sh1)|done|lia].
  assert (shift w2 w' (one_change (royalties_Address roy) a left)) as Sh3.
  { destruct (Z.leb_spec left 0) as [Hz|Hz].
    - injection H as <-. assert (left = 0) as -> by lia.
      eapply shift_ext; [apply shift_quiet; [apply (sh_solvent _ _ _ Sh2)|apply world_step_refl; by eapply shift_ok]|].
      intros k' a'. unfold one_change, no_change. by repeat case_decide.
    - apply Hrest; [by eapply shift_ok|apply (sh_solvent _ _ _ Sh2)|by eapply shift_loc|ilia|done]. }
  eapply shift_trans; [exact Sh1|eapply (shift_trans _ _ _ _ _ (payments a (division roy percentOf total))); [exact Sh2|exact Sh3|]|done].
  intros k' a'. unfold payments, one_change. rewrite <- (division_order roy percentOf total keys k' Hkeys).
  rewrite received_app, received_one, <- Hl. repeat case_decide; lia.
Qed.

Lemma processFixed_spec w w' tc sender src kda :
  world_ok w -> all_solvent w -> user_loc w sender src -> is_i64 (TransferFixed (Royalties kda)) ->
  processFixedRoyaltiesTransfer env oob range tc src kda w = (w', Ok tt) ->
  let fixed := fixed_royalty kda sender in
  (0 < fixed -> KLVRoyalties tc = fixed) /\
  shift w w' (royalty_change sender KLVIdentifier fixed (division (Royalties kda) PercentTransferFixed fixed)).
Proof.
  intros Hok Hs Hsrc Hi H. unfold processFixedRoyaltiesTransfer in H. unfold fixed_royalty.
  set (fixed := TransferFixed (Royalties kda)) in *.
  step H as w1 b Hb. apply (src_is_contract_spec _ _ sender) in Hb as [Hq ->]; [|done..].
  destruct (IsSmartContractAddress sender); cbn [orb] in H.
  { injection H as <-. split; [lia|]. by apply shift_nothing. }
  destruct (Z.leb_spec fixed 0) as [Hz|Hpos].
  { injection H as <-. rewrite Z.max_l by lia. split; [lia|]. by apply shift_nothing. }
  rewrite Z.max_r by lia. rewrite Hsc in H. guard_ok H. cbn in G. zify_bools.
  step H as w2 bal Hbal. apply with_err_ok, (read_balance_spec _ _ sender) in Hbal as [Hq2 _];
    [|apply Hq|by apply (ws_user_loc _ _ _ _ Hq)].
  guard_ok H. pose proof (quiet_trans _ _ _ Hq Hq2) as Hq12.
  pose proof (shift_quiet _ _ Hs Hq12) as Hsh0.
  step H as w3 r Hsub. apply with_err_ok, (shift_debit _ _ sender) in Hsub as [_ Hsh1];
    [|apply Hq2|apply (sh_solvent _ _ _ Hsh0)|by eapply shift_loc|done].
  step H as w4 [] Hu. apply with_err_ok, UpdateUser_enabled in Hu; [|by eapply shift_ok]. subst w4.
  assert (shift w w3 (one_change sender KLVIdentifier (- fixed))) as Hsh2
    by (eapply shift_trans; [exact Hsh0|exact Hsh1|intros; unfold no_change; lia]).
  step H as w4 left Hsp. split; [lia|].
  eapply royalty_paid; [exact Hsh2|by eapply shift_loc|ilia|exact Hsp|exact H|].
  intros Hok4 Hs4 Hl4 Hil H4.
  step H4 as w5 lo Ho. apply with_err_ok in Ho. unfold fixed_royalty_owner in Ho. rewrite Hfpr in Ho. cbn in Ho.
  destruct (LoadUserAccount (royalties_Address (Royalties kda)) w4) as [w6 r6] eqn:Hlo.
  injection Ho as <- ->. apply LoadUserAccount_spec in Hlo as [Hq5 Hlo]; [|done].
  by apply (loaded_credit w4 w6 w' src sender _ lo left KLVIdentifier EmptyString KDAData_Fungible).
Qed.

(** The percentage royalty. *)
Lemma validatePercentage_spec w w' tc sender src kda a royalty :
  world_ok w -> user_loc w sender src -> Forall tier_ok (TransferPercentage (Royalties kda)) ->
  is_i64 (tr_Amount tc) ->
  validatePercentageRoyaltiesTransfer env oob tc kda src a w = (w', Ok royalty) ->
  world_step nobody nobody w w' /\ royalty = percentage_royalty kda sender (tr_Amount tc).
Proof.
  intros Hok Hsrc Ht Hi H. unfold validatePercentageRoyaltiesTransfer in H. unfold percentage_royalty.
  step H as w1 b Hb. apply (src_is_contract_spec _ _ sender) in Hb as [Hq ->]; [|done..].
  destruct (TransferPercentage (Royalties kda)) as [|tier tiers] eqn:Et;
    [injection H as <- <-; split; [done|]; by destruct (IsSmartContractAddress sender)|].
  destruct (IsSmartContractAddress sender); [injection H as <- <-; auto|]. rewrite Hfpr, Hsc in H.
  guard_ok H. step H as w2 r Hr. apply with_err_ok in Hr. unfold lift in Hr. injection Hr as <- Hr.
  step H as w2 bal Hbal. apply with_err_ok, (read_balance_spec _ _ sender) in Hbal as [Hq2 _];
    [|apply Hq|by apply (ws_user_loc _ _ _ _ Hq)].
  guard_ok H. injection H as <- <-. split; [by eapply quiet_trans|].
  unfold GetTransferRoyaltyByAmount, computeNewFlowRoyalty in Hr. rewrite Et in Hr. cbn [negb] in Hr.
  destruct (new_flow_loop_exact oob (tier :: tiers) (tr_Amount tc) 0 Ht) as [E _]; [lia|lia|ilia|].
  rewrite E in Hr. injection Hr as Hr. rewrite <- Hr. done.
Qed.

Lemma processPercentage_spec w w' tc sender src kda a i :
  world_ok w -> all_solvent w -> user_loc w sender src -> is_i64 (KDARoyalties tc) ->
  Forall tier_ok (TransferPercentage (Royalties kda)) -> is_i64 (tr_Amount tc) ->
  processPercentageRoyaltiesTransfer env oob range tc a i src kda w = (w', Ok tt) ->
  let royalty := percentage_royalty kda sender (tr_Amount tc) in
  (0 < royalty -> KDARoyalties tc = royalty) /\
  (0 <= royalty ->
   shift w w' (royalty_change sender a royalty (division (Royalties kda) PercentTransferPercentage royalty))).
Proof.
  intros Hok Hs Hsrc Hi Ht Hia H. unfold processPercentageRoyaltiesTransfer in H.
  step H as w1 royalty Hv. apply (validatePercentage_spec _ _ _ sender) in Hv as [Hq Hroy]; [|done..].
  rewrite <- Hroy. destruct (Z.leb_spec royalty 0) as [Hz|Hpos].
  { injection H as <-. split; [lia|]. intros H0. assert (royalty = 0) as -> by lia. by apply shift_nothing. }
  guard_ok H. zify_bools. split; [done|]. intros _. rewrite Hmkt, Hsc in H.
  pose proof (shift_quiet _ _ Hs Hq) as Hsh0.
  step H as w2 [] Hsub. step Hsub as w2' r Hsub'. injection Hsub as <-.
  apply with_err_ok, (shift_debit _ _ sender) in Hsub' as [_ Hsh1];
    [|apply Hq|apply (sh_solvent _ _ _ Hsh0)|by eapply shift_loc|congruence].
  assert (shift w w2' (one_change sender a (- royalty))) as Hsh2
    by (eapply shift_trans; [exact Hsh0|exact Hsh1|intros; unfold no_change; lia]).
  step H as w4 left Hsp.
  eapply royalty_paid; [exact Hsh2|by eapply shift_loc|ilia|exact Hsp|exact H|].
  intros Hok4 Hs4 Hl4 Hil H4.
  step H4 as w5 lo Ho. apply with_err_ok, LoadUserAccount_spec in Ho as [Hq5 Hlo]; [|done].
  step H4 as w6 [] Hn. injection Hn as <-.
  by apply (loaded_credit w4 w5 w' src sender _ lo left a i (AssetType kda)).
Qed.

(** ** The transfer *)

Lemma processFungible_spec w w' tc sender src to dst a :
  world_ok w -> all_solvent w -> user_loc w sender src -> user_loc w to dst -> is_i64 (tr_Amount tc) ->
  processFungibleTransfer env tc a src dst w = (w', Ok tt) ->
  0 < tr_Amount tc /\
  shift w w' (both (one_change sender a (- tr_Amount tc)) (one_change to a (tr_Amount tc))).
Proof.
  intros Hok Hs Hsrc Hdst Hi H. unfold processFungibleTransfer in H. guard_ok H. rewrite Hsc in H.
  step H as w1 bal Hbal. apply with_err_ok, (read_balance_spec _ _ sender) in Hbal as [Hq _]; [|done..].
  pose proof (shift_quiet _ _ Hs Hq) as Hsh0. guard_ok H.
  step H as w2 r Hsub. apply with_err_ok, (shift_debit _ _ sender) in Hsub as [_ Hsh1];
    [|apply Hq|apply (sh_solvent _ _ _ Hsh0)|by eapply shift_loc|done].
  step H as w3 [] Hu. apply with_err_ok, UpdateUser_enabled in Hu; [|by eapply shift_ok]. subst w3.
  apply (royalty_credit_spec _ _ _ sender to) in H as [_ Hsh2];
    [|by eapply shift_ok|apply (sh_solvent _ _ _ Hsh1)|by eapply shift_loc; [|eapply shift_loc]..|done].
  split; [lia|]. eapply shift_trans; [|exact Hsh2|done].
  eapply shift_trans; [exact Hsh0|exact Hsh1|]. intros; unfold no_change; lia.
Qed.

Lemma loadKDA_spec w w' kdaID a i kda :
  world_ok w -> loadKDA env kdaID w = (w', Ok (a, i, kda)) ->
  world_step nobody nobody w w' /\ a = asset_of kdaID /\ kapp_record w KDAKAppAddress a = Some kda.
Proof.
  intros Hok H. unfold loadKDA in H. step H as w1 [l k'] Hg.
  apply or_refuse_ok, get_record_spec in Hg as (Hst & _ & Hrec); [|done].
  assert (a = asset_of kdaID /\ k' = kda /\ w1 = w') as (-> & -> & ->).
  { unfold asset_of. destruct kdaID as [s|]; cbn in H.
    - destruct (split_at sep s) as [|x [|y rest]]; w_ok; done.
    - w_ok; done. }
  split; [done|]. split; [done|]. unfold asset_of in *. by destruct kdaID.
Qed.

Lemma uninitialized_spec w w' addr b :
  world_ok w -> isUninitializedContractAddress addr w = (w', Ok b) -> world_step nobody nobody w w'.
Proof.
  intros Hok. unfold isUninitializedContractAddress.
  destruct (IsSmartContractAddress addr); cbn [negb]; [|intros [= <- _]; by apply world_step_refl].
  destruct (on_cache (GetExistingUser addr) w) as [w1 [l|e]] eqn:E.
  - apply GetExistingUserAccount_spec in E as [Hq Hl]; [|done]. intros H.
    apply (user_read_spec _ _ addr) in H as [Hq2 _]; [|apply Hq|done|done]. by eapply quiet_trans.
  - intros [= <- _]. apply same_cache_quiet; [done|].
    unfold on_cache, GetExistingUser, on_users, GetExisting, fetch in E.
    destruct (objMap (users (w_cache w)) !! addr); [done|].
    destruct (adb_GetExisting _ addr); [done|]. injection E as <- _. by destruct w as [[]].
Qed.

(** The checks before anything moves. *)
Lemma Transfer_checks w w' sc sender tc kda :
  world_ok w -> kapp_record w KDAKAppAddress (asset_of (tr_AssetID tc)) = Some kda ->
  AssetType kda = KDAData_Fungible -> Transfer env oob range sc sender tc w = (w', Ok tt) ->
  exists w1 w2 w3 src dst i,
    sender <> tr_ToAddress tc /\ IsPaused (Attributes kda) = false /\
    IsTransferAllowed kda sender (tr_ToAddress tc) = true /\
    world_step nobody nobody w w1 /\ user_loc w1 sender src /\ user_loc w1 (tr_ToAddress tc) dst /\
    processFixedRoyaltiesTransfer env oob range tc src kda w1 = (w2, Ok tt) /\
    processPercentageRoyaltiesTransfer env oob range tc (asset_of (tr_AssetID tc)) i src kda w2 = (w3, Ok tt) /\
    processFungibleTransfer env tc (asset_of (tr_AssetID tc)) src dst w3 = (w', Ok tt).
Proof.
  intros Hok Hrec Hty H. unfold Transfer in H.
  step H as w1 [] Hro. apply with_err_ok, reject_if_ok in Hro as [_ ->].
  step H as w1 [src dst] Hv. unfold validateAndLoadAccounts in Hv. guard_ok Hv. guard_ok Hv.
  step Hv as v1 l1 Hl1. apply or_refuse_ok, LoadUserAccount_spec in Hl1 as [Hs1 Hl1]; [|done].
  step Hv as v2 l2 Hl2. apply or_refuse_ok, LoadUserAccount_spec in Hl2 as [Hs2 Hl2]; [|apply Hs1].
  injection Hv as <- <- <-. pose proof (quiet_trans _ _ _ Hs1 Hs2) as Hq.
  step H as w2 [[a i] kda0] Hk. apply loadKDA_spec in Hk as (Hs3 & -> & Hr); [|apply Hs2].
  unfold kapp_record in Hrec, Hr.
  rewrite (kapp_value_same _ _ _ _ (quiet_kapp _ _ KDAKAppAddress Hq)), Hrec in Hr. injection Hr as <-.
  guard_ok H. rewrite Hsc in H. step H as w3 [] Hc. guard_ok Hc.
  assert (world_step nobody nobody w2 w3) as Hs4.
  { destruct sc; [injection Hc as <-; apply world_step_refl, Hs3|].
    step Hc as w4 u Hu. apply with_err_ok, uninitialized_spec in Hu; [|apply Hs3].
    by apply refuse_if_ok in Hc as [_ ->]. }
  step H as w4 [] Hfix. rewrite Hty in H. step H as w5 [] Hpct.
  pose proof (quiet_trans _ _ _ Hs3 Hs4) as Hq2.
  exists w3, w4, w5, l1, l2, i. unfold str_eqb in *. zify_bools. splits; try done.
  - by eapply quiet_trans.
  - by apply (ws_user_loc _ _ _ _ Hq2), (ws_user_loc _ _ _ _ Hs2).
  - by apply (ws_user_loc _ _ _ _ Hq2).
Qed.

Lemma over_royalty T sender a0 total percentOf kda a :
  NoDup T -> sender ∈ T -> (forall k, beneficiary kda k -> k ∈ T) ->
  over T (fun k => royalty_change sender a0 total (division (Royalties kda) percentOf total) k a) = 0.
Proof.
  intros Hnd Hin HB. unfold royalty_change, both, one_change, payments. rewrite over_add.
  destruct (decide (a = a0)) as [->|Hne].
  - rewrite (over_one T sender (- total)) by done.
    assert (over T (received (division (Royalties kda) percentOf total)) = total) as E;
      [|rewrite (over_ext T _ (received (division (Royalties kda) percentOf total))) by done; lia].
    rewrite over_received, division_total; [done|done|].
    eapply Forall_impl; [apply division_who|]. intros p Hp. auto.
  - by rewrite !over_null by (intros; cbn; repeat case_decide; done).
Qed.

Lemma over_move T k0 k1 a0 v a :
  NoDup T -> k0 ∈ T -> k1 ∈ T -> over T (fun k => both (one_change k0 a0 (- v)) (one_change k1 a0 v) k a) = 0.
Proof.
  intros Hnd H0 H1. unfold both, one_change. rewrite over_add. destruct (decide (a = a0)).
  - rewrite !over_one by done. lia.
  - by rewrite !over_null by (intros; cbn; repeat case_decide; done).
Qed.

(** ** Properties *)

(** C20: with smart contracts, the FPR fork and the market overflow fix active, a
    successful transfer of a fungible asset changes every balance by exactly
    this.  The receiver gains the amount.  The sender pays the amount, the
    percentage royalty in the asset, computed tier by tier, and the fixed
    royalty in KLV, both zero for a contract.  Of each royalty every split
    receives its percentage, rounded down, and the royalty address the rest;
    sender and receiver may be among them.  A positive royalty is the one the
    contract declared.  Over any set of accounts that contains those involved
    every asset is conserved, no balance wraps or goes negative, the asset is
    not paused and the transfer is allowed.  The tiers are taken to be
    nonnegative amounts with percentages of at most a hundred. *)
Theorem fungible_transfer_exact w w' sc sender tc kda :
  world_ok w -> all_solvent w ->
  kapp_record w KDAKAppAddress (asset_of (tr_AssetID tc)) = Some kda ->
  AssetType kda = KDAData_Fungible -> Forall tier_ok (TransferPercentage (Royalties kda)) ->
  is_i64 (tr_Amount tc) -> is_i64 (KDARoyalties tc) -> is_i64 (TransferFixed (Royalties kda)) ->
  Transfer env oob range sc sender tc w = (w', Ok tt) ->
  let asset := asset_of (tr_AssetID tc) in
  let to := tr_ToAddress tc in
  let fixed := fixed_royalty kda sender in
  let royalty := percentage_royalty kda sender (tr_Amount tc) in
  IsPaused (Attributes kda) = false /\ IsTransferAllowed kda sender to = true /\
  sender <> to /\ 0 < tr_Amount tc /\ all_solvent w' /\
  (0 < fixed -> KLVRoyalties tc = fixed) /\ (0 < royalty -> KDARoyalties tc = royalty) /\
  (forall k a, user_balance w' k (Some a) = user_balance w k (Some a)
     + (one_change sender asset (- tr_Amount tc) k a + one_change to asset (tr_Amount tc) k a)
     + royalty_change sender asset royalty (division (Royalties kda) PercentTransferPercentage royalty) k a
     + royalty_change sender KLVIdentifier fixed (division (Royalties kda) PercentTransferFixed fixed) k a) /\
  (forall T a, NoDup T -> sender ∈ T -> to ∈ T -> (forall k, beneficiary kda k -> k ∈ T) ->
     over T (fun k => user_balance w' k (Some a)) = over T (fun k => user_balance w k (Some a))).
Proof.
  intros Hok Hs Hrec Hty Htiers Hi Hik Hif H asset to fixed royalty.
  destruct (Transfer_checks _ _ _ _ _ _ Hok Hrec Hty H)
    as (w1 & w2 & w3 & src & dst & i & Hne & Hpause & Hallow & Hq & Hsrc & Hdst & Hfix & Hpct & Hmove).
  pose proof (shift_quiet _ _ Hs Hq) as Sh0.
  apply (processFixed_spec _ _ _ sender) in Hfix as (Hdecl & Sh1);
    [|apply Hq|apply (sh_solvent _ _ _ Sh0)|done|done].
  assert (0 < tr_Amount tc) as Hpos by (unfold processFungibleTransfer in Hmove; guard_ok Hmove; lia).
  assert (0 <= royalty) as Hr0.
  { unfold royalty, percentage_royalty. destruct (IsSmartContractAddress sender); [done|].
    by destruct (new_flow_loop_exact oob _ (tr_Amount tc) 0 Htiers) as [_ [? _]]; [lia|lia|ilia|]. }
  apply (processPercentage_spec _ _ _ sender) in Hpct as (Hdecl2 & Sh2);
    [|by eapply shift_ok|apply (sh_solvent _ _ _ Sh1)|by eapply shift_loc|done..].
  specialize (Sh2 Hr0).
  apply (processFungible_spec _ _ _ sender _ to) in Hmove as (_ & Sh3);
    [|by eapply shift_ok|apply (sh_solvent _ _ _ Sh2)|by eapply shift_loc; [|eapply shift_loc]..|done].
  splits; try done; [apply (sh_solvent _ _ _ Sh3)|..].
  - intros k a. rewrite (sh_balance _ _ _ Sh3), (sh_balance _ _ _ Sh2), (sh_balance _ _ _ Sh1),
      (sh_balance _ _ _ Sh0). unfold no_change, both. subst asset fixed to royalty. lia.
  - intros T a Hnd Hts Htt Hb. pose proof (sh_balance _ _ _ Sh3) as B3. pose proof (sh_balance _ _ _ Sh2) as B2.
    pose proof (sh_balance _ _ _ Sh1) as B1. pose proof (sh_balance _ _ _ Sh0) as B0.
    rewrite (over_ext T _ _ (fun k => B3 k a)), over_add, (over_move T) by done.
    rewrite (over_ext T _ _ (fun k => B2 k a)), over_add, over_royalty by done.
    rewrite (over_ext T _ _ (fun k => B1 k a)), over_add, over_royalty by done.
    rewrite (over_ext T _ _ (fun k => B0 k a)), over_add, (over_null T (fun k => no_change k a)) by done. lia.
Qed.
End transfer_props.

Section nft_transfer.
Context `{TO : TrieOps} `{CU : Marshalizer UserKDA} {UL : UserKDACodec CU} {Peer : Type}
  `{UA : AccountsAdapter userAccount} `{KA : AccountsAdapter kappAccount}
  `{PA : AccountsAdapter Peer} {WL : WorldLaws Peer}.
Variable env : kappEnv.

Implicit Types (w : world Peer).

(** The bytes an address stores for an item. *)
Definition item_data w (k id nonce : string) : option string :=
  match user_obj w k with
  | Some a => match RetrieveValue (tracker a) (ToKDAKey id nonce) with
              | Ok d => if slen d =? 0 then None else Some d
              | Err _ => None
              end
  | None => None
  end.

Abbreviation item_key asset nonce := (ToKDAKey (default KLVIdentifier asset) nonce).

Lemma keeps_SubInternalKDA id n : keeps_address (SubInternalKDA id n).
Proof.
  unfold SubInternalKDA. apply keeps_bind; [apply keeps_get|intros a].
  apply keeps_bind; [apply keeps_lift|intros d]. apply keeps_bind; [apply keeps_reject|intros _].
  apply keeps_bind; [apply keeps_SaveKeyValue|intros _]. apply keeps_ret.
Qed.
Lemma keeps_AddInternalKDA id n d : keeps_address (AddInternalKDA id n d).
Proof. unfold AddInternalKDA. apply keeps_bind; [apply keeps_reject|intros _]. apply keeps_SaveKeyValue. Qed.

Lemma sub_item_spec w w' k l id n data :
  world_ok w -> user_loc w k l -> on_user l (SubInternalKDA id n) w = (w', Ok data) ->
  world_step (eq k) nobody w w' /\ data <> EmptyString /\ item_data w k id n = Some data /\
  item_data w' k id n = None /\ item_balance w' k (Some id) n = 0 /\
  (forall u, Unmarshal data = Ok u -> item_balance w k (Some id) n = kda_Balance u) /\
  (forall asset m, item_key asset m <> ToKDAKey id n -> item_balance w' k asset m = item_balance w k asset m).
Proof.
  intros Hok Hl H.
  apply (on_user_spec _ _ k) in H as [Hst (a & a' & Ha & Hsub & Ha')]; [|done|done|apply keeps_SubInternalKDA].
  unfold SubInternalKDA in Hsub. step Hsub as a1 b Hg. injection Hg as <- <-.
  step Hsub as a1 d Hr. unfold lift in Hr. injection Hr as <- Hr. guard_ok Hsub.
  step Hsub as a1 [] Hs. apply SaveKeyValueM_ok in Hs as (t & Hs & ->). injection Hsub as <- ->.
  assert (data <> EmptyString) as Hne by (by intros ->).
  unfold item_data, item_balance, GetBalanceWithNonce. rewrite Ha, Ha'.
  split; [done|]. split; [done|]. split; [|split; [|split; [|split]]].
  - rewrite Hr. by rewrite (proj2 (Z.eqb_neq _ _)).
  - cbn. rewrite (retrieve_deleted _ _ _ Hs); [done|].
    pose proof (ToKDAKey_nonempty id n). unfold slen in *. lia.
  - by rewrite (GetUserKDA_deleted a t (Some id) n).
  - intros u Hu. by rewrite (GetUserKDA_stored a (Some id) n data), Hu.
  - intros asset m Hk. by rewrite (GetUserKDA_write_frame _ _ _ _ _ _ _ Hs) by congruence.
Qed.

Lemma add_item_spec w w' k l id n data :
  world_ok w -> user_loc w k l -> on_user l (AddInternalKDA id n data) w = (w', Ok tt) ->
  world_step (eq k) nobody w w' /\ item_data w' k id n = Some data /\
  (forall u, Unmarshal data = Ok u -> item_balance w' k (Some id) n = kda_Balance u) /\
  (forall asset m, item_key asset m <> ToKDAKey id n -> item_balance w' k asset m = item_balance w k asset m).
Proof.
  intros Hok Hl H.
  apply (on_user_spec _ _ k) in H as [Hst (a & a' & Ha & Hadd & Ha')]; [|done|done|apply keeps_AddInternalKDA].
  unfold AddInternalKDA in Hadd. guard_ok Hadd. apply SaveKeyValueM_ok in Hadd as (t & Hs & ->).
  assert (data <> EmptyString) as Hne by (by intros ->).
  pose proof (retrieve_save_eq _ _ _ _ Hs Hne) as Hr.
  unfold item_data, item_balance, GetBalanceWithNonce. rewrite Ha, Ha'. split; [done|]. split; [|split].
  - cbn. rewrite Hr. by rewrite (proj2 (Z.eqb_neq _ _)).
  - intros u Hu. by rewrite (GetUserKDA_stored (with_tracker a t) (Some id) n data), Hu.
  - intros asset m Hk. by rewrite (GetUserKDA_write_frame _ _ _ _ _ _ _ Hs) by congruence.
Qed.

(** ** Properties *)

(** A transfer of a non-fungible item takes the item the sender holds away
    from the sender and gives the receiver the very bytes the sender stored, so
    the item exists once before and once after; a sender without the item cannot
    transfer it, and no other item or balance of anybody changes. *)
Theorem nft_transfer_exact w w' sender src to dst id n :
  world_ok w -> user_loc w sender src -> user_loc w to dst -> sender <> to ->
  processNonFungibleTransfer env id n src dst w = (w', Ok tt) ->
  exists data, item_data w sender id n = Some data /\
    item_data w' to id n = Some data /\ item_data w' sender id n = None /\
    (forall u, Unmarshal data = Ok u ->
       item_balance w' to (Some id) n = item_balance w sender (Some id) n) /\
    item_balance w' sender (Some id) n = 0 /\
    (forall k asset m, item_key asset m <> ToKDAKey id n ->
       item_balance w' k asset m = item_balance w k asset m) /\
    (forall k, k <> sender -> k <> to -> user_obj w' k = user_obj w k).
Proof.
  intros Hok Hsrc Hdst Hne H. unfold processNonFungibleTransfer in H.
  step H as w1 data Hsub. apply with_err_ok, (sub_item_spec _ _ sender) in Hsub
    as (Hs1 & Hd & Hi1 & Hi2 & Hb1 & Hu1 & Hf1); [|done..].
  step H as w2 [] Hup. apply with_err_ok, UpdateUser_enabled in Hup; [|apply Hs1]. subst w2.
  step H as w2 [] Hadd. apply with_err_ok, (add_item_spec _ _ to) in Hadd as (Hs2 & Hi3 & Hu3 & Hf2);
    [|apply Hs1|by apply (ws_user_loc _ _ _ _ Hs1)].
  step H as w3 [] Hup. apply with_err_ok, UpdateUser_enabled in Hup; [|apply Hs2]. subst w3.
  apply (receipt_spec env _ _ _ _ sender to) in H;
    [|apply Hs2|by apply (ws_user_loc _ _ _ _ Hs2), (ws_user_loc _ _ _ _ Hs1)..].
  assert (forall k, user_obj w' k = user_obj w2 k) as Hu by (intros; by apply quiet_user).
  assert (forall k a m, item_balance w' k a m = item_balance w2 k a m) as Hib
    by (intros; unfold item_balance; by rewrite Hu).
  assert (forall k i m, item_data w' k i m = item_data w2 k i m) as Hid
    by (intros; unfold item_data; by rewrite Hu).
  assert (forall k, k <> to -> user_obj w2 k = user_obj w1 k) as Ho2
    by (intros; apply (ws_user _ _ _ _ Hs2); congruence).
  exists data. splits; [done|by rewrite Hid|..].
  - rewrite Hid. unfold item_data. rewrite Ho2 by done. exact Hi2.
  - intros u Hun. rewrite Hib, (Hu3 u Hun). symmetry. by apply Hu1.
  - rewrite Hib. unfold item_balance. rewrite Ho2 by done. exact Hb1.
  - intros k asset m Hk. rewrite Hib. transitivity (item_balance w1 k asset m).
    + destruct (decide (k = to)) as [->|Hk']; [by apply Hf2|]. unfold item_balance. by rewrite Ho2.
    + destruct (decide (k = sender)) as [->|Hk']; [by apply Hf1|].
      unfold item_balance. by rewrite (ws_user _ _ _ _ Hs1) by congruence.
  - intros k Hk Hk'. rewrite Hu, Ho2 by done. apply (ws_user _ _ _ _ Hs1). congruence.
Qed.
End nft_transfer.

(** The all-default item record. *)
Definition zeroMeta : MetaV2 := {| Circulation := 0; meta_MaxSupply := 0; meta_Metadata := None |}.

Section sft.
Context `{TO : TrieOps} `{CU : Marshalizer UserKDA} {Peer : Type}
  `{UA : AccountsAdapter userAccount} `{KA : AccountsAdapter kappAccount}
  `{PA : AccountsAdapter Peer} {WL : WorldLaws Peer}
  `{CM : Marshalizer MetaV2} {ML : ProtoCodec CM zeroMeta}.
Variable env : kappEnv.

Implicit Types (w : world Peer).

(** The record of an item. *)
Definition item_meta w (asset nonce : string) : option MetaV2 :=
  kapp_value w SystemAccountKAppAddress (ToKDAKey asset nonce).

Lemma getKApp_spec w w' app :
  world_ok w -> getKApp w = (w', Ok app) ->
  world_step nobody nobody w w' /\ kapp_loc w' SystemAccountKAppAddress app.
Proof. apply LoadKApp_spec. Qed.

Lemma getKDAData_spec w w' asset nonce meta :
  world_ok w -> getKDAData asset nonce w = (w', Ok meta) ->
  world_step nobody nobody w w' /\ item_meta w asset nonce = Some meta.
Proof.
  intros Hok H. unfold getKDAData in H. step H as w1 l Hl. apply getKApp_spec in Hl as [Hs1 Hl]; [|done].
  unfold getKDADataFromApp in H. step H as w2 data Hr.
  apply (kapp_read_spec _ _ SystemAccountKAppAddress) in Hr as [Hs2 (a & Ha & Hd)]; [|apply Hs1|done|done].
  guard_ok H. unfold lift in H. injection H as <- H. split; [by eapply quiet_trans|].
  unfold item_meta, kapp_value. rewrite <- (quiet_kapp _ _ _ Hs1), Ha. cbn in *. rewrite Hd.
  rewrite (proj2 (Z.eqb_neq _ _)) by done. by rewrite H.
Qed.

(** ** Properties *)

(** Changing the circulation of a semi-fungible item by [amount] (negative
    for a burn) records exactly the sum, without wrapping around, keeps it within
    the item's maximum supply when there is one, leaves the maximum and the
    metadata alone, and changes no other item and no user account. *)
Theorem sft_circulation_exact w w' asset nonce amount meta :
  world_ok w -> env_fc env FixMarketBuyOverflow = true ->
  item_meta w asset nonce = Some meta -> meta_Metadata meta <> None ->
  is_i64 amount -> 0 <= Circulation meta <= MaxInt64 ->
  SFTAddCirculation env asset nonce amount w = (w', Ok tt) ->
  item_meta w' asset nonce =
    Some {| Circulation := Circulation meta + amount; meta_MaxSupply := meta_MaxSupply meta;
            meta_Metadata := meta_Metadata meta |} /\
  (amount <> 0 -> meta_MaxSupply meta <> 0 -> Circulation meta + amount <= meta_MaxSupply meta) /\
  Circulation meta + amount <= MaxInt64 /\
  (forall asset' nonce', ToKDAKey asset' nonce' <> ToKDAKey asset nonce ->
     item_meta w' asset' nonce' = item_meta w asset' nonce') /\
  (forall k, user_obj w' k = user_obj w k).
Proof.
  intros Hok Hfix Hmeta Hmd Hi Hc H. unfold SFTAddCirculation in H.
  destruct (Z.eqb_spec amount 0) as [->|Hne].
  { injection H as <-. rewrite Z.add_0_r. splits; try done; [|lia]. rewrite Hmeta. by destruct meta. }
  step H as w1 l Hl. apply getKApp_spec in Hl as [Hs1 Hl]; [|done].
  step H as w2 m Hm. apply getKDAData_spec in Hm as [Hs2 Hm]; [|apply Hs1].
  unfold item_meta in Hm, Hmeta.
  rewrite (kapp_value_same _ _ _ _ (quiet_kapp _ _ SystemAccountKAppAddress Hs1)), Hmeta in Hm.
  injection Hm as <-. rewrite Hfix in H. guard_ok H. guard_ok H. cbn in G.
  assert (Circulation meta + amount <= MaxInt64) as Hmax.
  { destruct (Z_le_gt_dec (Circulation meta + amount) MaxInt64); [done|]. exfalso.
    pose proof (wrap_i64_over (Circulation meta + amount)). destruct (Z.ltb_spec 0 amount); [|ilia].
    cbn in G. zify_bools. ilia. }
  rewrite wrap_i64_id in * by ilia. pose proof (quiet_trans _ _ _ Hs1 Hs2) as Hq.
  unfold marshalAndSave in H. step H as w3 data Hd. unfold lift in Hd. injection Hd as <- Hd.
  assert ({| Circulation := Circulation meta + amount; meta_MaxSupply := meta_MaxSupply meta;
             meta_Metadata := meta_Metadata meta |} <> zeroMeta) as Hz
    by (intros E; by apply (f_equal meta_Metadata) in E).
  destruct (save_value_spec CM zeroMeta _ _ SystemAccountKAppAddress l _ data _ (ws_ok _ _ _ _ Hs2)
    (ws_kapp_loc _ _ _ _ Hs2 _ _ Hl) Hz Hd H) as (Hst & Hv & Hf).
  splits; try done.
  - intros _ Hm0. rewrite (proj2 (Z.eqb_neq _ _) Hm0) in G0. cbn in G0. rewrite andb_true_r in G0. zify_bools. lia.
  - intros a' n' Hk. unfold item_meta. rewrite (Hf _ _ _ Hk). apply kapp_value_same, quiet_kapp, Hq.
  - intros k. rewrite (ws_user _ _ _ _ Hst) by (unfold nobody; tauto). by apply quiet_user.
Qed.
End sft.
