(* ===== verification/MarketFlow.v ===== *)
(** * Money and items on the move

    The market holds bids and items in escrow.  A run of a handler is described
    by its legs: who is credited or debited, in which asset, how much.  [pays]
    says that a run changed the balances by a list of legs and left items and
    applications alone; the last part says how an item enters and leaves the
    escrow account. *)

From S2P Require Import Prelude Common Strconv GoStd Forks Tools Permissions KdaUtils KdaData.
From S2P Require Import DataTrie UserAccount Codec Balances AccountsCache Staking World SystemAccount.
From S2P Require Import KdaKapp WorldLemmas KdaSupply MarketKapp Transfer TransferProps.
Local Open Scope Z_scope.

(** ** Legs *)

(** Address, asset, amount; a debit is negative. *)
Definition leg : Type := string * string * Z.
Definition leg_to (g : leg) : string := g.1.1.
Definition leg_asset (g : leg) : string := g.1.2.
Definition leg_amount (g : leg) : Z := g.2.

(** What the legs give to an address, and in all. *)
Definition legs_to (l : list leg) (k a : string) : Z :=
  zsum ((fun g => if decide (k = leg_to g) then if decide (a = leg_asset g) then leg_amount g else 0 else 0) <$> l).
Definition legs_net (l : list leg) (a : string) : Z :=
  zsum ((fun g => if decide (a = leg_asset g) then leg_amount g else 0) <$> l).

Lemma legs_to_app l1 l2 k a : legs_to (l1 ++ l2) k a = legs_to l1 k a + legs_to l2 k a.
Proof. unfold legs_to. by rewrite fmap_app, zsum_app. Qed.
Lemma legs_net_app l1 l2 a : legs_net (l1 ++ l2) a = legs_net l1 a + legs_net l2 a.
Proof. unfold legs_net. by rewrite fmap_app, zsum_app. Qed.
Lemma legs_net_nil a : legs_net [] a = 0.
Proof. done. Qed.
Lemma legs_net_one k a0 v a : legs_net [(k, a0, v)] a = if decide (a = a0) then v else 0.
Proof. unfold legs_net. cbn. unfold leg_asset, leg_amount. cbn. lia. Qed.
Lemma legs_to_one k0 a0 v k a : legs_to [(k0, a0, v)] k a = one_change k0 a0 v k a.
Proof. unfold legs_to, one_change, leg_to, leg_asset, leg_amount. cbn. lia. Qed.
Lemma legs_to_none l k a : k ∉ leg_to <$> l -> legs_to l k a = 0.
Proof.
  unfold legs_to. induction l as [|g l IH]; [done|]. rewrite !fmap_cons, zsum_cons.
  intros [Hg Hl]%not_elem_of_cons. rewrite decide_False by done. by rewrite IH.
Qed.

(** Over accounts that include everybody paid, the legs add up to their net. *)
Lemma over_legs T l a : NoDup T -> leg_to <$> l ⊆ T -> over T (fun k => legs_to l k a) = legs_net l a.
Proof.
  intros Hnd. induction l as [|g l IH]; intros Hsub; [apply over_zero|].
  rewrite fmap_cons in Hsub. rewrite (over_ext T _ (fun k => legs_to [g] k a + legs_to l k a))
    by (intros k; exact (legs_to_app [g] l k a)).
  change (g :: l) with ([g] ++ l).
  rewrite over_add, legs_net_app, IH by (intros x Hx; apply Hsub; by right).
  f_equal. destruct g as [[k0 a0] v]. rewrite legs_net_one.
  rewrite (over_ext T _ (fun k => if decide (k = k0) then if decide (a = a0) then v else 0 else 0))
    by (intros k; apply legs_to_one).
  apply (over_one T k0); [done|]. apply Hsub. left.
Qed.

(** Assets whose identifier has no separator, and items of such collections. *)
Definition plain (a : string) : Prop := occurs sep a = false.
Definition is_item (coll item : string) : Prop := plain coll /\ has_nonce item = true.

Lemma item_key_apart a coll item :
  plain a -> is_item coll item -> ToKDAKey a EmptyString <> ToKDAKey coll item.
Proof.
  intros Ha [Hc Hi]. rewrite !ToKDAKey_prefix. intros E%string_app_inj_l%string_app_inj_l.
  destruct (kda_suffix_inj a coll EmptyString item Ha Hc E) as (_ & H & _). rewrite Hi in H. done.
Qed.
Lemma plain_klv : plain KLVIdentifier.
Proof. reflexivity. Qed.

Section flow.
Context `{TO : TrieOps} `{CU : Marshalizer UserKDA} {UL : UserKDACodec CU} {Peer : Type}
  `{UA : AccountsAdapter userAccount} `{KA : AccountsAdapter kappAccount}
  `{PA : AccountsAdapter Peer} {WL : WorldLaws Peer}.
Implicit Types (w : world Peer).

(** Balances of plain assets are nonnegative [int64]s. *)
Definition solvent w : Prop := forall k a, plain a -> 0 <= user_balance w k (Some a) <= MaxInt64.

(** ** Payments *)

Record pays w w' (l : list leg) : Prop := {
  py_step : world_step (fun _ => True) nobody w w';
  py_solvent : solvent w';
  py_balance : forall k a, plain a -> user_balance w' k (Some a) = user_balance w k (Some a) + legs_to l k a;
  py_items : forall k coll item, is_item coll item -> item_data w' k coll item = item_data w k coll item;
}.

Lemma pays_ok w w' l : pays w w' l -> world_ok w'.
Proof. intros H. apply (py_step _ _ _ H). Qed.
Lemma pays_loc w w' l k i : pays w w' l -> user_loc w k i -> user_loc w' k i.
Proof. intros H. apply (ws_user_loc _ _ _ _ (py_step _ _ _ H)). Qed.
Lemma pays_kapp_loc w w' l k i : pays w w' l -> kapp_loc w k i -> kapp_loc w' k i.
Proof. intros H. apply (ws_kapp_loc _ _ _ _ (py_step _ _ _ H)). Qed.
Lemma pays_kapp w w' l k : pays w w' l -> kapp_obj w' k = kapp_obj w k.
Proof. intros H. apply (ws_kapp _ _ _ _ (py_step _ _ _ H)). by intros []. Qed.

Lemma pays_quiet w w' : solvent w -> world_step nobody nobody w w' -> pays w w' [].
Proof.
  intros Hs Hq. assert (forall k, user_obj w' k = user_obj w k) as Hu by (intros; by apply quiet_user).
  split; [eapply world_step_weaken; [exact Hq|done|done]|..].
  - intros k a Ha. rewrite (user_balance_same w w') by done. by apply Hs.
  - intros k a _. rewrite (user_balance_same w w') by done. unfold legs_to. cbn. lia.
  - intros k coll item _. unfold item_data. by rewrite Hu.
Qed.

Lemma pays_trans w1 w2 w3 l1 l2 : pays w1 w2 l1 -> pays w2 w3 l2 -> pays w1 w3 (l1 ++ l2).
Proof.
  intros [S1 _ B1 I1] [S2 So2 B2 I2]. split; [|done|..].
  - eapply world_step_weaken; [exact (world_step_trans _ _ _ _ _ _ _ S1 S2)|done|unfold nobody; tauto].
  - intros k a Ha. rewrite B2, B1, legs_to_app by done. lia.
  - intros k coll item Hi. by rewrite I2, I1.
Qed.
Lemma pays_then_quiet w1 w2 w3 l : pays w1 w2 l -> world_step nobody nobody w2 w3 -> pays w1 w3 l.
Proof.
  intros H Hq. rewrite <- (app_nil_r l). eapply pays_trans; [exact H|].
  apply pays_quiet; [apply (py_solvent _ _ _ H)|done].
Qed.

(** A balance operation writes the balance's own key. *)
Lemma balance_write_item w w' k l asset (m : M userAccount error (option UserKDA)) r :
  (forall a a' r, m a = (a', Ok r) -> tracker a' = tracker a \/
     exists u x, SetUserKDA asset EmptyString u a = (a', Ok x)) ->
  keeps_address m -> plain (default KLVIdentifier asset) ->
  world_ok w -> user_loc w k l -> on_user l m w = (w', Ok r) ->
  forall j coll item, is_item coll item -> item_data w' j coll item = item_data w j coll item.
Proof.
  intros Hm Hk Ha Hok Hl H j coll item Hi.
  apply (on_user_spec _ _ k) in H as [Hst (a & a' & Hobj & Hrun & Hobj')]; [|done|done|exact Hk].
  unfold item_data. destruct (decide (j = k)) as [->|Hj].
  - rewrite Hobj, Hobj'. destruct (Hm _ _ _ Hrun) as [->|(u & x & Hs)]; [done|].
    apply SetUserKDA_ok in Hs as (data & t & _ & Hs & ->). cbn.
    rewrite (retrieve_save_ne _ _ _ _ _ Hs); [done|by apply item_key_apart].
  - by rewrite (ws_user _ _ _ _ Hst) by congruence.
Qed.

Lemma AddToBalance_writes v asset a a' r :
  AddToBalance v asset true None a = (a', Ok r) ->
  tracker a' = tracker a \/ exists u x, SetUserKDA asset EmptyString u a = (a', Ok x).
Proof.
  unfold AddToBalance. intros H. apply M_bind_ok in H as (a1 & [] & [_ ->]%reject_if_ok & H).
  destruct (is_klv asset); [m_ok; by left|]. right. unfold user_kda_or_stored in H. m_ok. eauto.
Qed.
Lemma SubFromBalance_writes v asset a a' r :
  SubFromBalance v asset true None a = (a', Ok r) ->
  tracker a' = tracker a \/ exists u x, SetUserKDA asset EmptyString u a = (a', Ok x).
Proof.
  unfold SubFromBalance. intros H. apply M_bind_ok in H as (a1 & [] & [_ ->]%reject_if_ok & H).
  destruct (is_klv asset); [m_ok; by left|]. right. unfold user_kda_or_stored in H. m_ok. eauto.
Qed.

Lemma pays_one w w' k0 a0 v (Hst : world_step (eq k0) nobody w w') :
  solvent w -> plain a0 ->
  user_balance w' k0 (Some a0) = user_balance w k0 (Some a0) + v ->
  0 <= user_balance w' k0 (Some a0) <= MaxInt64 ->
  (forall a, a <> a0 -> user_balance w' k0 (Some a) = user_balance w k0 (Some a)) ->
  (forall k coll item, is_item coll item -> item_data w' k coll item = item_data w k coll item) ->
  pays w w' [(k0, a0, v)].
Proof.
  intros Hs Ha0 Hb Hr Hf Hi.
  assert (forall k a, k <> k0 -> user_balance w' k a = user_balance w k a) as Ho
    by (intros k a Hk; apply user_balance_same, (ws_user _ _ _ _ Hst); congruence).
  split; [eapply world_step_weaken; [exact Hst|done|done]|..|exact Hi].
  - intros k a Ha. destruct (decide (k = k0)) as [->|Hk]; [|rewrite Ho by done; by apply Hs].
    destruct (decide (a = a0)) as [->|Hne]; [done|]. rewrite Hf by done. by apply Hs.
  - intros k a Ha. rewrite legs_to_one. unfold one_change.
    destruct (decide (k = k0)) as [->|Hk]; [|rewrite Ho by done; lia].
    destruct (decide (a = a0)) as [->|Hne]; [done|]. rewrite Hf by done. lia.
Qed.

Lemma user_balance_default w k asset :
  user_balance w k asset = user_balance w k (Some (default KLVIdentifier asset)).
Proof. destruct asset; [done|]. unfold user_balance, GetBalance. cbn. by destruct (user_obj w k). Qed.

Lemma pays_credit w w' k l v asset r :
  world_ok w -> solvent w -> user_loc w k l -> is_i64 v -> plain (default KLVIdentifier asset) ->
  on_user l (AddToBalance v asset true None) w = (w', Ok r) ->
  0 <= v /\ pays w w' [(k, default KLVIdentifier asset, v)].
Proof.
  intros Hok Hs Hl Hv Hp H.
  pose proof (balance_write_item _ _ _ _ _ _ _ (AddToBalance_writes v asset)
                (keeps_AddToBalance v asset true None) Hp Hok Hl H) as Hi.
  pose proof (Hs k _ Hp) as Hr.
  apply (credit_spec _ _ k) in H as (Hst & Hv0 & Hb & Hmax & Hf);
    [|done|done|done|by rewrite user_balance_default].
  rewrite (user_balance_default w' k asset) in Hb, Hmax. rewrite (user_balance_default w k asset) in Hb.
  split; [done|]. apply pays_one; [done|done|done|done|lia| |done].
  intros a Ha. apply Hf. done.
Qed.

Lemma pays_debit w w' k l v asset r :
  world_ok w -> solvent w -> user_loc w k l -> is_i64 v -> plain (default KLVIdentifier asset) ->
  on_user l (SubFromBalance v asset true None) w = (w', Ok r) ->
  0 <= v <= user_balance w k (Some (default KLVIdentifier asset)) /\
  pays w w' [(k, default KLVIdentifier asset, - v)].
Proof.
  intros Hok Hs Hl Hv Hp H.
  pose proof (balance_write_item _ _ _ _ _ _ _ (SubFromBalance_writes v asset)
                (keeps_SubFromBalance v asset true None) Hp Hok Hl H) as Hi.
  pose proof (Hs k _ Hp) as Hr.
  apply (debit_spec _ _ k) in H as (Hst & Hle & Hb & Hf);
    [|done|done|done|by rewrite user_balance_default].
  rewrite (user_balance_default w' k asset) in Hb. rewrite (user_balance_default w k asset) in Hb, Hle.
  split; [done|]. apply pays_one; [done|done|done|lia|lia| |done].
  intros a Ha. apply Hf. done.
Qed.

(** ** Items *)

(** The bytes an application account stores for an item. *)
Definition kapp_item w (kapp coll item : string) : option string :=
  match kapp_obj w kapp with
  | Some a => match RetrieveValue (kapp_tracker a) (ToKDAKey coll item) with
              | Ok d => if slen d =? 0 then None else Some d
              | Err _ => None
              end
  | None => None
  end.

(** Everything but the item at one key. *)
Definition others_kept w w' (coll item : string) : Prop :=
  (forall k a, plain a -> user_balance w' k (Some a) = user_balance w k (Some a)) /\
  (forall k c i, ToKDAKey c i <> ToKDAKey coll item -> item_data w' k c i = item_data w k c i).

Lemma user_write_spec {B} w w' k l (m : M userAccount error B) coll item x :
  is_item coll item ->
  (forall a a' x, m a = (a', Ok x) -> exists v t,
     SaveKeyValue (tracker a) (ToKDAKey coll item) v = Ok t /\ a' = with_tracker a t) ->
  keeps_address m -> world_ok w -> user_loc w k l -> on_user l m w = (w', Ok x) ->
  others_kept w w' coll item.
Proof.
  intros Hi Hm Hk Hok Hl H.
  apply (on_user_spec _ _ k) in H as [Hst (a & a' & Ha & Hrun & Ha')]; [|done|done|exact Hk].
  destruct (Hm _ _ _ Hrun) as (v & t & Hs & ->). split.
  - intros j asset Hp. destruct (decide (j = k)) as [->|Hj];
      [|apply user_balance_same, (ws_user _ _ _ _ Hst); congruence].
    unfold user_balance. rewrite Ha, Ha'. unfold GetBalance, GetBalanceWithNonce.
    destruct (is_klv (Some asset)); [done|].
    rewrite (GetUserKDA_write_frame _ _ _ _ _ _ _ Hs); [done|].
    intros E. by apply (item_key_apart asset coll item).
  - intros j c i Hne. unfold item_data. destruct (decide (j = k)) as [->|Hj];
      [|by rewrite (ws_user _ _ _ _ Hst) by congruence].
    rewrite Ha, Ha'. cbn. by rewrite (retrieve_save_ne _ _ _ _ _ Hs) by congruence.
Qed.

Lemma AddInternalKDA_writes coll item data a a' x :
  AddInternalKDA coll item data a = (a', Ok x) -> exists v t,
    SaveKeyValue (tracker a) (ToKDAKey coll item) v = Ok t /\ a' = with_tracker a t.
Proof. unfold AddInternalKDA. intros H. guard_ok H. apply SaveKeyValueM_ok in H as (t & Hs & ->). eauto. Qed.
Lemma SubInternalKDA_writes coll item a a' x :
  SubInternalKDA coll item a = (a', Ok x) -> exists v t,
    SaveKeyValue (tracker a) (ToKDAKey coll item) v = Ok t /\ a' = with_tracker a t.
Proof.
  unfold SubInternalKDA. intros H. m_ok.
  match goal with H : SaveKeyValueM _ _ _ = _ |- _ => apply SaveKeyValueM_ok in H as (t & Hs & ->) end. eauto.
Qed.

Lemma kapp_save_spec w w' k l key v :
  world_ok w -> kapp_loc w k l -> on_kapp l (kapp_SaveKeyValue key v) w = (w', Ok tt) ->
  world_step nobody (eq k) w w' /\ exists a t, kapp_obj w k = Some a /\
    SaveKeyValue (kapp_tracker a) key v = Ok t /\ kapp_obj w' k = Some (with_kapp_tracker a t).
Proof.
  intros Hok Hl H. apply (on_kapp_spec _ _ k) in H as [Hst (a & a' & Ha & Hs & Ha')]; [|done|done|].
  - split; [done|]. unfold kapp_SaveKeyValue in Hs.
    destruct (SaveKeyValue _ _ _) as [t|] eqn:E; [|done]. injection Hs as <-. eauto.
  - intros b b' r. unfold kapp_SaveKeyValue. by destruct (SaveKeyValue _ _ _); intros [= <- _].
Qed.

(** The values of an application at other keys. *)
Definition kapp_kept w w' (k key : string) : Prop :=
  forall T (C : Marshalizer T) key', key' <> key -> @kapp_value _ _ _ _ _ T C w' k key' = kapp_value w k key'.

Lemma kapp_save_kept w w' k key v a t :
  kapp_obj w k = Some a -> SaveKeyValue (kapp_tracker a) key v = Ok t ->
  kapp_obj w' k = Some (with_kapp_tracker a t) -> kapp_kept w w' k key.
Proof.
  intros Ha Hs Ha' T C key' Hne. unfold kapp_value. rewrite Ha, Ha'. cbn.
  by rewrite (retrieve_save_ne _ _ _ _ _ Hs) by congruence.
Qed.

Lemma kapp_sub_item_spec w w' k l coll item data :
  world_ok w -> kapp_loc w k l -> on_kapp l (kapp_SubInternalKDA coll item) w = (w', Ok data) ->
  world_step nobody (eq k) w w' /\ data <> EmptyString /\ kapp_item w k coll item = Some data /\
  kapp_item w' k coll item = None /\ kapp_kept w w' k (ToKDAKey coll item).
Proof.
  intros Hok Hl H. apply (on_kapp_spec _ _ k) in H as [Hst (a & a' & Ha & Hs & Ha')]; [|done|done|].
  - unfold kapp_SubInternalKDA in Hs. step Hs as a1 d Hr. injection Hr as <- Hr. guard_ok Hs.
    step Hs as a2 [] Hw. injection Hs as <- <-. unfold kapp_SaveKeyValue in Hw.
    destruct (SaveKeyValue _ _ _) as [t|] eqn:E; [|done]. injection Hw as <-.
    split; [done|]. split; [by intros ->|]. unfold kapp_item. rewrite Ha, Ha', Hr. cbn.
    rewrite (proj2 (Z.eqb_neq _ _)) by done. split; [done|].
    rewrite (retrieve_deleted _ _ _ E); [|pose proof (ToKDAKey_nonempty coll item); unfold slen in *; lia].
    split; [done|]. by eapply kapp_save_kept.
  - intros b b' r. unfold kapp_SubInternalKDA, mbind, M_bind, kapp_RetrieveValue, reject_if, fail.
    destruct (RetrieveValue _ _); [|by intros [= <- _]]. destruct (slen _ =? 0); [by intros [= <- _]|].
    cbn. unfold kapp_SaveKeyValue. by destruct (SaveKeyValue _ _ _); intros [= <- _].
Qed.

Lemma kapp_add_item_spec w w' k l coll item data :
  world_ok w -> kapp_loc w k l -> on_kapp l (kapp_AddInternalKDA coll item data) w = (w', Ok tt) ->
  world_step nobody (eq k) w w' /\ kapp_item w' k coll item = Some data /\
  kapp_kept w w' k (ToKDAKey coll item).
Proof.
  intros Hok Hl H.
  assert (on_kapp l (kapp_SaveKeyValue (ToKDAKey coll item) data) w = (w', Ok tt) /\ slen data <> 0) as [H1 Hne].
  { unfold on_kapp in *. destruct (heap _ !! l) as [a|]; [|done].
    unfold kapp_AddInternalKDA, mbind, M_bind, reject_if, fail in H. by destruct (Z.eqb_spec (slen data) 0). }
  apply (kapp_save_spec _ _ k) in H1 as (Hst & a & t & Ha & Hs & Ha'); [|done|done].
  split; [done|]. split; [|by eapply kapp_save_kept].
  unfold kapp_item. rewrite Ha'. cbn. rewrite (retrieve_save_eq _ _ _ _ Hs) by (by intros ->).
  by rewrite (proj2 (Z.eqb_neq _ _)).
Qed.

(** The item goes from the escrow account to [k], byte for byte. *)
Record hands_over w w' (kapp k coll item : string) : Prop := {
  ho_step : world_step (eq k) (eq kapp) w w';
  ho_item : exists data, kapp_item w kapp coll item = Some data /\ item_data w' k coll item = Some data;
  ho_gone : kapp_item w' kapp coll item = None;
  ho_rest : others_kept w w' coll item;
  ho_kept : kapp_kept w w' kapp (ToKDAKey coll item);
}.
(** The item goes from [k] into escrow. *)
Record takes_in w w' (kapp k coll item : string) : Prop := {
  ti_step : world_step (eq k) (eq kapp) w w';
  ti_item : exists data, item_data w k coll item = Some data /\ kapp_item w' kapp coll item = Some data;
  ti_gone : item_data w' k coll item = None;
  ti_rest : others_kept w w' coll item;
  ti_kept : kapp_kept w w' kapp (ToKDAKey coll item);
}.

Lemma kapp_step_users w w' k : world_step nobody (eq k) w w' -> forall j, user_obj w' j = user_obj w j.
Proof. intros H j. apply (ws_user _ _ _ _ H). by intros []. Qed.
Lemma user_step_kapps w w' k : world_step (eq k) nobody w w' -> forall j, kapp_obj w' j = kapp_obj w j.
Proof. intros H j. apply (ws_kapp _ _ _ _ H). by intros []. Qed.

Lemma hands_over_spec w w1 w2 kapp lk k l coll item data :
  world_ok w -> is_item coll item -> kapp_loc w kapp lk -> user_loc w k l ->
  on_kapp lk (kapp_SubInternalKDA coll item) w = (w1, Ok data) ->
  on_user l (AddInternalKDA coll item data) w1 = (w2, Ok tt) ->
  hands_over w w2 kapp k coll item.
Proof.
  intros Hok Hi Hlk Hl H1 H2.
  apply (kapp_sub_item_spec _ _ kapp) in H1 as (S1 & Hd & I1 & I2 & K1); [|done|done].
  pose proof (ws_user_loc _ _ _ _ S1 _ _ Hl) as Hl1. pose proof (kapp_step_users _ _ _ S1) as U1.
  pose proof (user_write_spec _ _ _ _ _ _ _ _ Hi (AddInternalKDA_writes coll item data)
    (keeps_AddInternalKDA coll item data) (ws_ok _ _ _ _ S1) Hl1 H2) as [R1 R2].
  apply (add_item_spec _ _ k) in H2 as (S2 & I3 & _); [|apply S1|done].
  pose proof (user_step_kapps _ _ _ S2) as K2.
  split.
  - eapply world_step_weaken; [exact (world_step_trans _ _ _ _ _ _ _ S1 S2)|..]; unfold nobody; tauto.
  - eauto.
  - unfold kapp_item in *. by rewrite K2.
  - split.
    + intros j a Ha. rewrite R1 by done. by apply user_balance_same.
    + intros j c i Hne. rewrite R2 by done. unfold item_data. by rewrite U1.
  - intros T C key Hne. rewrite <- (K1 T C key Hne). by apply kapp_value_same.
Qed.

Lemma takes_in_spec w w1 w2 kapp lk k l coll item data :
  world_ok w -> is_item coll item -> kapp_loc w kapp lk -> user_loc w k l ->
  on_user l (SubInternalKDA coll item) w = (w1, Ok data) ->
  on_kapp lk (kapp_AddInternalKDA coll item data) w1 = (w2, Ok tt) ->
  takes_in w w2 kapp k coll item.
Proof.
  intros Hok Hi Hlk Hl H1 H2.
  pose proof (user_write_spec _ _ _ _ _ _ _ _ Hi (SubInternalKDA_writes coll item)
    (keeps_SubInternalKDA coll item) Hok Hl H1) as [R1 R2].
  apply (sub_item_spec _ _ k) in H1 as (S1 & Hd & I1 & I2 & _); [|done|done].
  apply (kapp_add_item_spec _ _ kapp) in H2 as (S2 & I3 & K2); [|apply S1|by apply (ws_kapp_loc _ _ _ _ S1)].
  pose proof (kapp_step_users _ _ _ S2) as U2.
  split.
  - eapply world_step_weaken; [exact (world_step_trans _ _ _ _ _ _ _ S1 S2)|..]; unfold nobody; tauto.
  - eauto.
  - unfold item_data in *. by rewrite U2.
  - split.
    + intros j a Ha. rewrite (user_balance_same w1 w2) by done. by apply R1.
    + intros j c i Hne. rewrite <- R2 by done. unfold item_data. by rewrite U2.
  - intros T C key Hne. rewrite (K2 T C key Hne). by apply kapp_value_same, user_step_kapps with k.
Qed.
End flow.
