(* ===== verification/MarketSettle.v ===== *)
(** * Settling a sale

    What [executeBuyMarket] pays and to whom: the referral, the splits and the
    remainder of the two royalties and the seller, in all exactly the bid and
    the deposit held in escrow, with the item handed to the buyer. *)

From S2P Require Import Prelude Common Strconv GoStd Forks Tools Permissions KdaUtils KdaData.
From S2P Require Import DataTrie UserAccount Codec Balances AccountsCache Staking World SystemAccount.
From S2P Require Import KdaKapp WorldLemmas KdaSupply MarketKapp Transfer TransferProps MarketFlow.
From Stdlib Require Import SpecFloat.
Local Open Scope Z_scope.

(** Shares of one asset as legs. *)
Definition legs_of (a : string) (sh : list (string * Z)) : list leg := (fun p => (p.1, a, p.2)) <$> sh.
Lemma legs_of_app a s1 s2 : legs_of a (s1 ++ s2) = legs_of a s1 ++ legs_of a s2.
Proof. apply fmap_app. Qed.
Lemma legs_net_of a sh b : legs_net (legs_of a sh) b = if decide (b = a) then paid_total sh else 0.
Proof.
  unfold paid_total. induction sh as [|[k v] sh IH]; [by case_decide|].
  change (legs_of a ((k, v) :: sh)) with ([(k, a, v)] ++ legs_of a sh).
  rewrite legs_net_app, legs_net_one, IH, fmap_cons, zsum_cons. case_decide; cbn; lia.
Qed.

Lemma slen_eqb_empty s : (slen s =? 0) = bool_decide (s = EmptyString).
Proof. apply eq_bool_prop_intro. rewrite Is_true_true, Z.eqb_eq, bool_decide_spec. apply slen_zero. Qed.

(** A payment that is skipped when there is nothing to pay. *)
Definition share (k : string) (v : Z) : list (string * Z) := if 0 <? v then [(k, v)] else [].
Lemma share_total k v : paid_total (share k v) = Z.max 0 v.
Proof. unfold share, paid_total. destruct (Z.ltb_spec 0 v); cbn; lia. Qed.
Lemma paid_total_app s1 s2 : paid_total (s1 ++ s2) = paid_total s1 + paid_total s2.
Proof. unfold paid_total. by rewrite fmap_app, zsum_app. Qed.

(** The shares of the splits of [value] and what they leave of [remaining]. *)
Fixpoint shares (oob : spec_float -> Z) (keys : list string) (splits : gmap string RoyaltySplitData)
    (percentOf : RoyaltySplitData -> Z) (value remaining : Z) : option (list (string * Z) * Z) :=
  match keys with
  | [] => Some ([], remaining)
  | key :: rest =>
      match DecodeString key, ComputePercentageI64 oob value (split_percent percentOf splits key) true with
      | Ok k, Ok v =>
          if remaining <? v then None
          else '(sh, r) ← shares oob rest splits percentOf value (remaining - v); Some ((k, v) :: sh, r)
      | _, _ => None
      end
  end.

(** They are the parts of the division of a royalty, in the order of the keys. *)
Lemma shares_parts oob keys roy percentOf value remaining sh left :
  0 <= remaining -> shares oob keys (SplitRoyalties roy) percentOf value remaining = Some (sh, left) ->
  sh = split_parts roy percentOf value keys /\ left = remaining - paid_total sh /\ 0 <= left.
Proof.
  revert remaining sh left. induction keys as [|key keys IH]; intros remaining sh left Hr H; cbn [shares] in H.
  { injection H as <- <-. split; [done|]. cbn. lia. }
  destruct (DecodeString key) as [k|] eqn:Hk; [|done].
  destruct (ComputePercentageI64 _ _ _ _) as [v|] eqn:Hv; [|done]. apply percentage_value in Hv as [-> _].
  change (split_percent percentOf (SplitRoyalties roy) key) with (split_of roy percentOf key) in H.
  set (v := part_of value (split_of roy percentOf key)) in *.
  destruct (Z.ltb_spec remaining v); [done|].
  destruct (shares _ _ _ _ _ _) as [[sh' l']|] eqn:E; [|done]. injection H as <- <-.
  apply IH in E as (-> & -> & Hl); [|lia]. cbn [split_parts omap list_omap]. rewrite Hk.
  split; [done|]. unfold paid_total in *. rewrite fmap_cons, zsum_cons. cbn. lia.
Qed.

Lemma received_share k0 v k : 0 <= v -> received (share k0 v) k = received [(k0, v)] k.
Proof. intros Hv. unfold share. destruct (Z.ltb_spec 0 v); [done|]. rewrite received_one. case_decide; cbn; lia. Qed.

Lemma legs_to_of a sh k b : legs_to (legs_of a sh) k b = if decide (b = a) then received sh k else 0.
Proof.
  induction sh as [|[k0 v] sh IH]; [by case_decide|].
  change (legs_of a ((k0, v) :: sh)) with ([(k0, a, v)] ++ legs_of a sh).
  change ((k0, v) :: sh) with ([(k0, v)] ++ sh).
  rewrite legs_to_app, legs_to_one, IH, received_app, received_one. unfold one_change. repeat case_decide; lia.
Qed.

Section settle.
Context `{TO : TrieOps} `{CU : Marshalizer UserKDA} {UL : UserKDACodec CU} {Peer : Type}
  `{UA : AccountsAdapter userAccount} `{KA : AccountsAdapter kappAccount}
  `{PA : AccountsAdapter Peer} {WL : WorldLaws Peer} `{CK : Marshalizer KDAData}
  {CP : Marshalizer Marketplace} {CO : Marshalizer MarketOrderData}
  {LP : ProtoCodec CP emptyMarketplace} {LO : ProtoCodec CO emptyOrder}.
Variable env : marketEnv.
Variable oob : spec_float -> Z.
Variable range : gmap string RoyaltySplitData -> list string.
Hypothesis Hsc : env_fc env EnableSmartContracts = true.
Hypothesis Hfpr : env_fc env KdaFpr = true.
Hypothesis Hmkt : env_fc env FixMarketBuyOverflow = true.

Implicit Types (w : world Peer) (o : MarketOrderData).

(** ** Reading records *)

Definition order_at w (id : string) : option MarketOrderData :=
  kapp_value w MarketKAppAddress (ToMarketOrderKey id).
Definition marketplace_at w (id : string) : option Marketplace :=
  kapp_value w MarketKAppAddress (ToMarketplaceKey id).

Lemma market_bytes_spec w w' k l key b :
  world_ok w -> kapp_loc w k l -> market_bytes l key w = (w', Ok b) ->
  world_step nobody nobody w w' /\ exists a, kapp_obj w k = Some a /\
    (RetrieveValue (kapp_tracker a) key = Ok b \/
     RetrieveValue (kapp_tracker a) key = Err ErrNilTrie /\ b = EmptyString).
Proof.
  intros Hok Hl H. unfold market_bytes in H.
  destruct (on_kapp l (kapp_RetrieveValue key) w) as [w1 [x|e]] eqn:E.
  - injection H as <- ->. apply (kapp_read_spec _ _ k) in E as [Hq (a & Ha & Hr)]; [|done..]. eauto.
  - case_bool_decide as He; [|done]. injection H as <- <-. subst e.
    unfold on_kapp in E. unfold kapp_loc, wkapps in Hl.
    destruct (pw_object _ (wo_kapps _ Hok) _ _ Hl) as (a & Ha & _). unfold wkapps in Ha. rewrite Ha in E.
    cbn in E. injection E as <- Er. split.
    + apply same_cache_quiet; [done|]. unfold write_kapp, on_kapps, modify. cbn. unfold set_heap.
      rewrite list_insert_id by done. by destruct w as [[? ? [] ?]].
    + exists a. unfold kapp_obj, pool_obj, wkapps. rewrite Hl. auto.
Qed.

Lemma market_record_spec {T} {C : Marshalizer T} (zero x : T) w w' l id toKey kapp :
  world_ok w -> kapp_loc w MarketKAppAddress l ->
  market_record zero l (Some id) toKey w = (w', Ok (kapp, Some x)) ->
  world_step nobody nobody w w' /\ kapp = l /\ kapp_value w MarketKAppAddress (toKey id) = Some x.
Proof.
  intros Hok Hl H. unfold market_record in H. step H as w1 b Hb.
  apply (market_bytes_spec _ _ MarketKAppAddress) in Hb as (Hq & a & Ha & Hb); [|done|done].
  destruct (Z.eqb_spec (slen b) 0) as [Hz|Hz]; [done|].
  step H as w2 y Hu. injection Hu as <- Hu. injection H as <- <- <-.
  split; [done|]. split; [done|]. unfold kapp_value. rewrite Ha. cbn.
  destruct Hb as [->|[_ ->]]; [|done]. by rewrite (proj2 (Z.eqb_neq _ _)), Hu.
Qed.

Lemma market_record_quiet {T} {C : Marshalizer T} (zero : T) w w' l id toKey r :
  world_ok w -> kapp_loc w MarketKAppAddress l ->
  market_record zero l id toKey w = (w', Ok r) -> world_step nobody nobody w w' /\ r.1 = l.
Proof.
  intros Hok Hl H. destruct id as [id|]; [|injection H as <- <-; split; [by apply world_step_refl|done]].
  unfold market_record in H. step H as w1 b Hb.
  apply (market_bytes_spec _ _ MarketKAppAddress) in Hb as (Hq & _); [|done|done].
  destruct (slen b =? 0); [by injection H as <- <-|].
  step H as w2 y Hu. injection Hu as <- Hu. by injection H as <- <-.
Qed.

Lemma GetMarketOrder_spec w w' id r :
  world_ok w -> GetMarketOrder id w = (w', Ok r) ->
  world_step nobody nobody w w' /\ kapp_loc w' MarketKAppAddress r.1.
Proof.
  intros Hok H. unfold GetMarketOrder in H. step H as w1 l Hg. apply GetExistingKapp_spec in Hg as [Hq Hl]; [|done].
  pose proof H as H'. apply market_record_quiet in H' as [Hq2 ->]; [|apply Hq|done].
  split; [by eapply quiet_trans|by apply (ws_kapp_loc _ _ _ _ Hq2)].
Qed.

Lemma found_order_spec w w' id kapp o :
  world_ok w -> found (GetMarketOrder (Some id)) w = (w', Ok (kapp, o)) ->
  world_step nobody nobody w w' /\ kapp_loc w' MarketKAppAddress kapp /\ order_at w id = Some o.
Proof.
  intros Hok H. unfold found in H. step H as w1 [kapp0 [o1|]] Hg; [|done]. injection H as <- <- <-.
  pose proof (GetMarketOrder_spec _ _ _ _ Hok Hg) as [Hq Hl]. split; [done|]. split; [done|].
  unfold GetMarketOrder in Hg. step Hg as w2 l Hk. apply GetExistingKapp_spec in Hk as [Hq1 Hl1]; [|done].
  apply market_record_spec in Hg as (_ & _ & Ho); [|apply Hq1|done].
  unfold order_at. by rewrite <- (kapp_value_same _ _ _ _ (quiet_kapp _ _ MarketKAppAddress Hq1)).
Qed.

Lemma found_marketplace_spec w w' id kapp m :
  world_ok w -> found (GetMarketplace id) w = (w', Ok (kapp, m)) ->
  world_step nobody nobody w w' /\ kapp_loc w' MarketKAppAddress kapp /\
  match id with Some id => marketplace_at w id = Some m | None => m = emptyMarketplace end.
Proof.
  intros Hok H. unfold found in H. step H as w1 [kapp0 [o1|]] Hg; [|done]. injection H as <- <- <-.
  unfold GetMarketplace in Hg. step Hg as w2 l Hk. apply LoadKApp_spec in Hk as [Hq1 Hl1]; [|done].
  pose proof (market_record_quiet _ _ _ _ _ _ _ (ws_ok _ _ _ _ Hq1) Hl1 Hg) as [Hq2 Hk]. cbn in Hk. subst kapp0.
  split; [by eapply quiet_trans|]. split; [by apply (ws_kapp_loc _ _ _ _ Hq2)|].
  destruct id as [id|]; [|by injection Hg as <- <-].
  apply market_record_spec in Hg as (_ & _ & Ho); [|apply Hq1|done].
  unfold marketplace_at. by rewrite <- (kapp_value_same _ _ _ _ (quiet_kapp _ _ MarketKAppAddress Hq1)).
Qed.

(** ** Payments *)

Lemma paid_receipt_spec w w' k l v cur o :
  world_ok w -> user_loc w k l -> paid_receipt env l v cur o w = (w', Ok tt) -> world_step nobody nobody w w'.
Proof.
  intros Hok Hl H. unfold paid_receipt in H. step H as w1 to Ht.
  apply with_err_ok, (user_address_spec _ _ _ k) in Ht; [|done..].
  apply Receipts_Add_spec in H; [|apply Ht]. by eapply quiet_trans.
Qed.

(** A credit, in whatever order it is written down. *)
Lemma paid_after_credit w w1 w2 w3 k l v cur o r :
  world_ok w -> solvent w -> user_loc w k l -> is_i64 v -> plain (default KLVIdentifier cur) ->
  on_user l (AddToBalance v cur true None) w = (w1, Ok r) ->
  (paid_receipt env l v cur o w1 = (w2, Ok tt) /\ on_cache (UpdateUser l) w2 = (w3, Ok tt) \/
   on_cache (UpdateUser l) w1 = (w2, Ok tt) /\ paid_receipt env l v cur o w2 = (w3, Ok tt)) ->
  0 <= v /\ pays w w3 [(k, default KLVIdentifier cur, v)].
Proof.
  intros Hok Hs Hl Hv Hp Hc H. apply (pays_credit _ _ k) in Hc as [Hv0 Hpay]; [|done..].
  split; [done|]. eapply pays_then_quiet; [exact Hpay|].
  destruct H as [[Hr Hu]|[Hu Hr]].
  - apply (paid_receipt_spec _ _ k) in Hr; [|by eapply pays_ok|by eapply pays_loc].
    apply UpdateUser_enabled in Hu; [|apply Hr]. by subst w3.
  - apply UpdateUser_enabled in Hu; [|by eapply pays_ok]. subst w2.
    by apply (paid_receipt_spec _ _ k) in Hr; [|by eapply pays_ok|by eapply pays_loc].
Qed.

Lemma pays_load w w1 w2 k l L :
  world_ok w -> solvent w -> LoadUserAccount k w = (w1, Ok l) ->
  (world_ok w1 -> solvent w1 -> user_loc w1 k l -> pays w1 w2 L) -> pays w w2 L.
Proof.
  intros Hok Hs Hl H. apply LoadUserAccount_spec in Hl as [Hq Hl]; [|done].
  pose proof (pays_quiet _ _ Hs Hq) as P. change L with ([] ++ L). eapply pays_trans; [exact P|].
  apply H; [apply Hq|apply (py_solvent _ _ _ P)|done].
Qed.

Lemma computeReferralAmount_spec w w' o addr v cur :
  world_ok w -> solvent w -> is_i64 v -> plain (default KLVIdentifier cur) ->
  computeReferralAmount env o addr v cur w = (w', Ok tt) ->
  pays w w' (legs_of (default KLVIdentifier cur) (share addr v)).
Proof.
  intros Hok Hs Hv Hp H. unfold computeReferralAmount, share in *. rewrite Z.leb_antisym in H.
  destruct (0 <? v); cbn in H; [|injection H as <-; by apply pays_quiet, world_step_refl].
  step H as w1 l Hl. apply with_err_ok in Hl. eapply pays_load; [done|done|exact Hl|]. intros Hok1 Hs1 Hl1.
  rewrite Hsc in H. step H as w2 r Hc. apply with_err_ok in Hc. step H as w3 [] Hr. apply with_err_ok in H.
  by eapply (paid_after_credit _ _ _ _ addr l v cur); eauto.
Qed.

Lemma computeMarketOwnerAmount_spec w w' o v cur :
  world_ok w -> solvent w -> is_i64 v -> plain (default KLVIdentifier cur) ->
  computeMarketOwnerAmount env o cur v w = (w', Ok tt) ->
  pays w w' (legs_of (default KLVIdentifier cur) (share (mo_OwnerAddress o) v)).
Proof. exact (computeReferralAmount_spec w w' o (mo_OwnerAddress o) v cur). Qed.

Lemma splitRoyaltyAmount_spec w w' value pct remaining v :
  splitRoyaltyAmount env oob value pct remaining w = (w', Ok v) ->
  w' = w /\ ComputePercentageI64 oob value pct true = Ok v /\ v <= remaining /\ is_i64 v.
Proof.
  unfold splitRoyaltyAmount. rewrite Hsc, Hmkt. intros H. step H as w1 v1 Hv.
  apply with_err_ok in Hv. injection Hv as <- Hv. guard_ok H. cbn in G. apply Z.ltb_ge in G.
  injection H as <- <-. splits; try done.
  unfold ComputePercentageI64 in Hv. cbn in Hv. case_bool_decide; [by injection Hv as <-|done].
Qed.

Lemma market_splits_spec keys splits o cur value percentOf remaining w w' left :
  world_ok w -> solvent w -> plain (default KLVIdentifier cur) -> 0 <= remaining <= MaxInt64 ->
  market_splits env oob keys splits o cur value percentOf remaining w = (w', Ok left) ->
  0 <= left <= remaining /\ exists sh, shares oob keys splits percentOf value remaining = Some (sh, left) /\
    pays w w' (legs_of (default KLVIdentifier cur) sh) /\ paid_total sh = remaining - left.
Proof.
  revert w remaining. induction keys as [|key keys IH]; intros w remaining Hok Hs Hp Hrem H.
  { injection H as <- <-. split; [lia|]. exists []. splits; [done|by apply pays_quiet, world_step_refl|cbn; lia]. }
  cbn [market_splits] in H. step H as w1 left1 Hc. unfold market_computeSplitRoyalties in Hc.
  step Hc as w2 k Hk. apply with_err_ok in Hk. injection Hk as <- Hk.
  step Hc as w2 l Hl. apply with_err_ok in Hl. step Hc as w3 v Hv.
  apply splitRoyaltyAmount_spec in Hv as (-> & Hv & Hle & Hi). rewrite Hsc in Hc.
  step Hc as w4 r Hadd. apply with_err_ok in Hadd. step Hc as w5 [] Hu. apply with_err_ok in Hu.
  step Hc as w6 [] Hr. injection Hc as -> <-.
  assert (0 <= v) as Hv0.
  { apply LoadUserAccount_spec in Hl as [Hq Hl]; [|done].
    apply (pays_credit _ _ k) in Hadd as [? _]; [done|apply Hq|apply (py_solvent _ _ _ (pays_quiet _ _ Hs Hq))|done..]. }
  assert (pays w w1 [(k, default KLVIdentifier cur, v)]) as P1.
  { eapply pays_load; [done|done|exact Hl|]. intros ? ? ?.
    by eapply (paid_after_credit _ _ _ _ k l v cur); eauto. }
  rewrite wrap_i64_id in H by ilia.
  apply IH in H as (Hl2 & sh & Hsh & P2 & Ht); [|by eapply pays_ok|apply (py_solvent _ _ _ P1)|done|lia].
  split; [lia|]. exists ((k, v) :: sh). cbn [shares]. rewrite Hk, Hv, (proj2 (Z.ltb_ge _ _)), Hsh by lia.
  splits; [done|exact (pays_trans _ _ _ _ _ P1 P2)|].
  unfold paid_total in *. rewrite fmap_cons, zsum_cons. cbn. lia.
Qed.

(** A royalty: the shares of the splits and the remainder to the royalty
    address. *)
Definition royalty_shares (roy : RoyaltiesData) (percentOf : RoyaltySplitData -> Z) (total : Z)
    (sh : list (string * Z)) : Prop :=
  if 0 <? total then
    exists s left, shares oob (OrderedKeys range (SplitRoyalties roy) (env_fc env FixAuditChangesV6))
                     (SplitRoyalties roy) percentOf total total = Some (s, left) /\
      sh = s ++ share (royalties_Address roy) left
  else sh = [].

Lemma royalty_spec w w1 w' o asset cur percentOf total left (rest : M (world Peer) (txResultCode * error) unit) :
  world_ok w -> solvent w -> plain (default KLVIdentifier cur) -> 0 < total <= MaxInt64 ->
  market_splits env oob (OrderedKeys range (SplitRoyalties (Royalties asset)) (env_fc env FixAuditChangesV6))
    (SplitRoyalties (Royalties asset)) o cur total percentOf total w = (w1, Ok left) ->
  (if left <=? 0 then mret tt else rest) w1 = (w', Ok tt) ->
  (world_ok w1 -> solvent w1 -> is_i64 left -> rest w1 = (w', Ok tt) ->
     pays w1 w' [(royalties_Address (Royalties asset), default KLVIdentifier cur, left)]) ->
  exists sh, royalty_shares (Royalties asset) percentOf total sh /\
    pays w w' (legs_of (default KLVIdentifier cur) sh) /\ paid_total sh = total.
Proof.
  intros Hok Hs Hp Ht Hm H Hrest.
  apply market_splits_spec in Hm as (Hl & s & Hsh & P1 & Htot); [|done|done|done|lia].
  exists (s ++ share (royalties_Address (Royalties asset)) left).
  unfold royalty_shares. rewrite (proj2 (Z.ltb_lt _ _)) by lia. split; [eauto|].
  rewrite paid_total_app, share_total, legs_of_app. split; [|lia].
  eapply pays_trans; [exact P1|]. unfold share. rewrite Z.leb_antisym in H.
  destruct (Z.ltb_spec 0 left); cbn in H.
  - apply Hrest; [by eapply pays_ok|apply (py_solvent _ _ _ P1)|ilia|done].
  - injection H as <-. apply pays_quiet; [apply (py_solvent _ _ _ P1)|].
    apply world_step_refl. by eapply pays_ok.
Qed.

Lemma no_royalty w roy percentOf total a :
  world_ok w -> solvent w -> total <= 0 ->
  exists sh, royalty_shares roy percentOf total sh /\ pays w w (legs_of a sh) /\ paid_total sh = Z.max 0 total.
Proof.
  intros Hok Hs Ht. exists []. unfold royalty_shares. rewrite (proj2 (Z.ltb_ge _ _)) by lia.
  splits; [done|by apply pays_quiet, world_step_refl|cbn; lia].
Qed.

Lemma computeRoyaltiesFixedDeposit_spec w w' o asset :
  world_ok w -> solvent w -> is_i64 (mo_RoyaltiesFixedDeposit o) ->
  computeRoyaltiesFixedDeposit env oob range o asset w = (w', Ok tt) ->
  exists sh, royalty_shares (Royalties asset) PercentMarketFixed (mo_RoyaltiesFixedDeposit o) sh /\
    pays w w' (legs_of KLVIdentifier sh) /\ paid_total sh = Z.max 0 (mo_RoyaltiesFixedDeposit o).
Proof.
  intros Hok Hs Hi H. unfold computeRoyaltiesFixedDeposit in H.
  destruct (Z.leb_spec (mo_RoyaltiesFixedDeposit o) 0) as [Hz|Hz];
    [injection H as <-; by apply no_royalty|].
  rewrite Z.max_r by lia. step H as w1 left Hm.
  eapply (royalty_spec w w1 w' o asset (Some KLVIdentifier)); [done|done|apply plain_klv|ilia|exact Hm|exact H|].
  intros Hok1 Hs1 Hil H1. step H1 as w2 l Hl. apply with_err_ok in Hl.
  eapply pays_load; [done|done|exact Hl|]. intros ? ? ?. rewrite Hsc in H1.
  step H1 as w3 r Hc. apply with_err_ok in Hc. step H1 as w4 [] Hu. apply with_err_ok in Hu.
  by eapply (paid_after_credit _ _ _ _ _ l left (Some KLVIdentifier)); eauto using plain_klv.
Qed.

Lemma computeRoyaltiesAmount_spec w w' o asset cur total :
  world_ok w -> solvent w -> plain (default KLVIdentifier cur) -> is_i64 total ->
  computeRoyaltiesAmount env oob range o asset cur total w = (w', Ok tt) ->
  exists sh, royalty_shares (Royalties asset) PercentMarketPercentage total sh /\
    pays w w' (legs_of (default KLVIdentifier cur) sh) /\ paid_total sh = Z.max 0 total.
Proof.
  intros Hok Hs Hp Hi H. unfold computeRoyaltiesAmount in H.
  destruct (Z.leb_spec total 0) as [Hz|Hz]; [injection H as <-; by apply no_royalty|].
  rewrite Z.max_r by lia. step H as w1 left Hm.
  eapply (royalty_spec w w1 w' o asset cur); [done|done|done|ilia|exact Hm|exact H|].
  intros Hok1 Hs1 Hil H1. step H1 as w2 l Hl. apply with_err_ok in Hl.
  assert (world_step nobody nobody w1 w2 /\ user_loc w2 (royalties_Address (Royalties asset)) l) as [Hq Hloc].
  { unfold royalty_remainder_owner in Hl. destruct (env_fc env FixAuditChangesV6).
    - by apply LoadUserAccount_spec.
    - rewrite Hfpr in Hl. cbn in Hl. destruct (GetExistingUserAccount _ w1) as [v r] eqn:E.
      injection Hl as <- ->. by apply GetExistingUserAccount_spec. }
  pose proof (pays_quiet _ _ Hs1 Hq) as P. rewrite Hsc in H1.
  change ([(?k, ?a, left)]) with ([] ++ [(k, a, left)]). eapply pays_trans; [exact P|].
  step H1 as w3 r Hc. apply with_err_ok in Hc. step H1 as w4 [] Hu. apply with_err_ok in Hu.
  eapply (paid_after_credit _ _ _ _ _ l left cur); [apply Hq|apply (py_solvent _ _ _ P)|done|done|done|exact Hc|eauto].
Qed.

(** ** Amounts *)

(** How an order divides a bid among referral, royalty and seller. *)
Record divides (am : settlementAmounts) (bid : Z) : Prop := {
  dv_referral : 0 <= referral am;
  dv_royalties : 0 <= royalties am;
  dv_owner : 0 <= marketOwner am;
  dv_total : referral am + royalties am + marketOwner am = bid;
}.

(** The percentages of an order and of a royalty are at most a hundred. *)
Definition percent (p : Z) : Prop := 0 <= p <= HundredPercent.
(** The royalty percentage that applies to an order. *)
Definition royalty_percentage o (roy : RoyaltiesData) : Z :=
  if mo_RoyaltySnapshotted o then mo_RoyaltyPercentage o else MarketPercentage roy.

(** Who receives the referral of an order: the address of the listing, of its
    marketplace when the listing recorded none. *)
Definition referral_to w o : string :=
  if mo_ReferralSnapshotted o then mo_ReferralAddress o
  else mp_ReferralAddress match field_slice (mo_MarketplaceID o) with
                          | Some id => default emptyMarketplace (marketplace_at w id)
                          | None => emptyMarketplace
                          end.
(** The terms of an order for a bid: the referral's percentage of it, nothing
    from V4 on when there is no address to pay it to, the royalty's percentage,
    and the rest to the seller. *)
Definition due w o (roy : RoyaltiesData) (bid : Z) : settlementAmounts :=
  let referral := if env_fc env FixAuditChangesV4 && bool_decide (referral_to w o = EmptyString) then 0
                  else part_of bid (mo_ReferralPercentage o) in
  let royalties := part_of bid (royalty_percentage o roy) in
  {| referralAddress := referral_to w o; referral := referral; royalties := royalties;
     marketOwner := bid - referral - royalties |}.
(** The same terms; the address does not matter when there is nothing to pay. *)
Record same_terms (am am' : settlementAmounts) : Prop := {
  st_referral : referral am = referral am';
  st_address : 0 < referral am -> referralAddress am = referralAddress am';
  st_royalties : royalties am = royalties am';
  st_owner : marketOwner am = marketOwner am';
}.

Lemma same_terms_share am am' : same_terms am am' ->
  share (referralAddress am) (referral am) = share (referralAddress am') (referral am').
Proof.
  intros [E A _ _]. rewrite <- E. unfold share. destruct (Z.ltb_spec 0 (referral am)); [by rewrite A|done].
Qed.

Lemma due_same w w' o roy bid :
  (forall k, kapp_obj w' k = kapp_obj w k) -> due w' o roy bid = due w o roy bid.
Proof.
  intros Hk. assert (referral_to w' o = referral_to w o) as E; [|unfold due; by rewrite E].
  unfold referral_to, marketplace_at. destruct (mo_ReferralSnapshotted o); [done|].
  destruct (field_slice _); [|done]. by rewrite (kapp_value_same w w').
Qed.

Lemma referralBeneficiary_spec w w' o addr :
  world_ok w -> referralBeneficiary o w = (w', Ok addr) ->
  world_step nobody nobody w w' /\ addr = referral_to w o.
Proof.
  intros Hok H. unfold referralBeneficiary, referral_to in *. destruct (mo_ReferralSnapshotted o).
  - injection H as <- <-. split; [by apply world_step_refl|done].
  - step H as w1 [kapp m] Hg. apply found_marketplace_spec in Hg as (Hq & _ & Hm); [|done]. injection H as <- <-.
    split; [done|]. destruct (field_slice _); by rewrite Hm.
Qed.

Lemma computeSettlementAmounts_spec w w' o roy bid am :
  world_ok w -> 0 <= bid <= MaxInt64 -> percent (mo_ReferralPercentage o) -> percent (royalty_percentage o roy) ->
  computeSettlementAmounts env oob o roy bid w = (w', Ok am) ->
  world_step nobody nobody w w' /\ divides am bid /\ same_terms am (due w o roy bid).
Proof.
  intros Hok Hb Hp1 Hp2 H. unfold computeSettlementAmounts in H. rewrite Hsc, Hmkt in H.
  fold (royalty_percentage o roy) in H.
  step H as w1 ref Hr. apply with_err_ok in Hr. injection Hr as <- Hr.
  apply percentage_value in Hr as [-> _]. pose proof (part_of_bound bid _ (proj1 Hb) Hp1) as Hr.
  set (ref := part_of bid (mo_ReferralPercentage o)) in *.
  step H as w1 addr Ha. assert (world_step nobody nobody w w1 /\ (0 < ref -> addr = referral_to w o)) as [Hq Haddr].
  { destruct (Z.ltb_spec 0 ref); [|injection Ha as <- _; split; [by apply world_step_refl|lia]].
    apply with_err_ok, referralBeneficiary_spec in Ha as [? ?]; auto. }
  cbv zeta in H. set (ref' := if _ && _ then 0 else ref) in H.
  assert (0 <= ref' <= bid) as Hr' by (unfold ref'; destruct (_ && _); lia).
  assert (ref' = referral (due w o roy bid) /\ (0 < ref' -> addr = referral_to w o)) as [Hre Haddr'].
  { unfold ref', due. cbn [referral]. fold ref. destruct (Z.ltb_spec 0 ref) as [Hpos|Hz].
    - rewrite (Haddr Hpos). by rewrite slen_eqb_empty.
    - assert (ref = 0) as -> by lia. split; [|destruct (_ && _); lia]. by destruct (_ && _), (_ && _). }
  step H as w2 v Hv. apply with_err_ok in Hv. injection Hv as <- Hv.
  apply percentage_value in Hv as [-> _]. pose proof (part_of_bound bid _ (proj1 Hb) Hp2) as Hv.
  set (v := part_of bid (royalty_percentage o roy)) in *.
  assert (is_i64 (bid - ref')) as Hi1 by ilia. assert (is_i64 (bid - ref' - v)) as Hi2 by ilia.
  rewrite (wrap_i64_id (bid - ref')), (wrap_i64_id (bid - ref' - v)) in H by done.
  guard_ok H. cbn in G. apply Z.ltb_ge in G. injection H as <- <-.
  split; [done|]. split; [split; cbn; lia|]. split; cbn [referral referralAddress royalties marketOwner]; try done.
  unfold due in *. cbn [referral marketOwner] in *. fold v. lia.
Qed.

(** ** Asset controls *)

Lemma checkTransferAllowed_spec w w' asset from to v :
  checkTransferAllowed (Peer := Peer) asset from to v w = (w', Ok tt) ->
  w' = w /\ (0 < v -> IsTransferAllowed asset from to = true).
Proof.
  unfold checkTransferAllowed. intros [Hg ->]%reject_if_ok. split; [done|]. intros Hv.
  rewrite (proj2 (Z.leb_gt _ _)) in Hg by lia. cbn in Hg. by apply negb_false_iff in Hg.
Qed.

Lemma loadUnpausedKDA_spec w w' id kda :
  world_ok w -> loadUnpausedKDA env id w = (w', Ok kda) ->
  world_step nobody nobody w w' /\ kapp_record w KDAKAppAddress id = Some kda /\
  IsPaused (Attributes kda) = false.
Proof.
  intros Hok H. unfold loadUnpausedKDA in H. step H as w1 [l k] Hg.
  apply or_refuse_ok, get_record_spec in Hg as (Hq & _ & Hr); [|done].
  unfold checkNotPaused in H. guard_ok H. by injection H as <- <-.
Qed.

(** Every share of positive amount may be transferred from the buyer. *)
Definition shares_allowed (currency : KDAData) (buyer : string) (sh : list (string * Z)) : Prop :=
  Forall (fun p => 0 < p.2 -> IsTransferAllowed currency buyer p.1 = true) sh.

Lemma check_splits_spec keys splits currency buyer value remaining w w' r :
  0 <= remaining <= MaxInt64 -> 0 <= value ->
  (forall key, 0 <= split_percent PercentMarketPercentage splits key) ->
  check_splits env oob keys splits currency buyer value remaining w = (w', Ok r) ->
  w' = w /\ exists sh, shares oob keys splits PercentMarketPercentage value remaining = Some (sh, r) /\
    shares_allowed currency buyer sh.
Proof.
  intros Hrem Hval Hpct. revert w remaining Hrem. induction keys as [|key keys IH]; intros w remaining Hrem H.
  { injection H as <- <-. split; [done|]. exists []. split; [done|constructor]. }
  cbn [check_splits] in H. step H as w1 k Hk. apply with_err_ok in Hk. injection Hk as <- Hk.
  step H as w2 v Hv. apply splitRoyaltyAmount_spec in Hv as (-> & Hv & Hle & Hi).
  step H as w3 [] Hc. apply checkTransferAllowed_spec in Hc as [-> Hal].
  assert (0 <= v) as Hv0.
  { unfold ComputePercentageI64 in Hv. cbn in Hv. case_bool_decide; [|done]. injection Hv as <-.
    apply Z.div_pos; [|done]. specialize (Hpct key). nia. }
  rewrite wrap_i64_id in H by ilia. apply IH in H as (-> & sh & Hsh & Hall); [|lia].
  split; [done|]. exists ((k, v) :: sh). cbn [shares]. rewrite Hk, Hv, (proj2 (Z.ltb_ge _ _)), Hsh by lia.
  split; [done|]. by constructor.
Qed.

Definition splits_typed (roy : RoyaltiesData) : Prop :=
  forall key, 0 <= split_percent PercentMarketPercentage (SplitRoyalties roy) key.

Lemma checkSettlementControls_spec w w' o collection roy currency buyer am bid :
  divides am bid -> bid <= MaxInt64 -> splits_typed roy ->
  checkSettlementControls env oob range o collection roy currency buyer am w = (w', Ok tt) ->
  w' = w /\ IsTransferAllowed collection (mo_OwnerAddress o) buyer = true /\
  shares_allowed currency buyer (share (referralAddress am) (referral am)) /\
  shares_allowed currency buyer (share (mo_OwnerAddress o) (marketOwner am)) /\
  (env_fc env FixAuditChangesV6 = true -> forall sh,
     royalty_shares roy PercentMarketPercentage (royalties am) sh -> shares_allowed currency buyer sh).
Proof.
  intros [] Hb Hty H. unfold checkSettlementControls in H.
  step H as w1 [] H1. apply checkTransferAllowed_spec in H1 as [-> A1].
  step H as w1 [] H2. apply checkTransferAllowed_spec in H2 as [-> A2].
  step H as w1 [] H3. apply checkTransferAllowed_spec in H as [-> A4].
  assert (forall addr v, (0 < v -> IsTransferAllowed currency buyer addr = true) ->
    shares_allowed currency buyer (share addr v)) as Hone.
  { intros addr v Hal. unfold share. destruct (0 <? v); repeat constructor. exact Hal. }
  assert (w1 = w /\ (env_fc env FixAuditChangesV6 = true -> forall sh,
     royalty_shares roy PercentMarketPercentage (royalties am) sh -> shares_allowed currency buyer sh))
    as [-> A3]; [|splits; auto; apply A1; lia].
  unfold royalty_shares. destruct (Z.ltb_spec 0 (royalties am)) as [Hpos|Hz].
  - step H3 as w2 r Hs. apply check_splits_spec in Hs as (-> & s & Hsh & Hall); [|lia|lia|exact Hty].
    apply checkTransferAllowed_spec in H3 as [-> A3]. split; [done|].
    intros Hv6 sh (s' & l & Hsh' & ->). rewrite Hv6, Hsh in Hsh'. injection Hsh' as <- <-.
    apply Forall_app. split; [done|]. by apply Hone.
  - injection H3 as <-. split; [done|]. intros _ sh ->. constructor.
Qed.

(** The terms of a sale: how it divides the bid, and under the asset controls
    that nothing in it is paused or refused. *)
Definition sale_allowed w o (asset : KDAData) (am : settlementAmounts) (currencyID buyer : string) : Prop :=
  IsPaused (Attributes asset) = false /\ IsTransferAllowed asset (mo_OwnerAddress o) buyer = true /\
  exists currency, kapp_record w KDAKAppAddress currencyID = Some currency /\
    IsPaused (Attributes currency) = false /\
    shares_allowed currency buyer (share (referralAddress am) (referral am)) /\
    shares_allowed currency buyer (share (mo_OwnerAddress o) (marketOwner am)) /\
    forall sh, royalty_shares (Royalties asset) PercentMarketPercentage (royalties am) sh ->
      shares_allowed currency buyer sh.

(** What the records of assets satisfy: percentages and split percentages are
    unsigned and at most a hundred, the fixed fee is an amount. *)
Definition asset_typed (kda : KDAData) : Prop :=
  percent (MarketPercentage (Royalties kda)) /\ 0 <= MarketFixed (Royalties kda) <= MaxInt64 /\
  splits_typed (Royalties kda).
Definition assets_typed w : Prop :=
  forall id kda, kapp_record w KDAKAppAddress id = Some kda -> asset_typed kda.

Lemma prepareSettlement_spec w w' o currencyID buyer asset am :
  world_ok w -> assets_typed w -> 0 <= mo_CurrentBid o <= MaxInt64 ->
  percent (mo_ReferralPercentage o) -> percent (mo_RoyaltyPercentage o) ->
  prepareSettlement env oob range o currencyID buyer w = (w', Ok (asset, am)) ->
  world_step nobody nobody w w' /\ kapp_record w KDAKAppAddress (mo_CollectionID o) = Some asset /\
  divides am (mo_CurrentBid o) /\ same_terms am (due w o (Royalties asset) (mo_CurrentBid o)) /\
  (env_fc env FixAuditChangesV6 = true -> sale_allowed w o asset am currencyID buyer).
Proof.
  intros Hok Hat Hb Hp1 Hp2 H. unfold prepareSettlement in H.
  step H as w1 [l kda] Hg. apply with_err_ok, get_record_spec in Hg as (Hq & _ & Hr); [|done].
  destruct (Hat _ _ Hr) as (Hmp & _ & Hsp).
  assert (percent (royalty_percentage o (Royalties kda))) as Hrp by (unfold royalty_percentage; by destruct (mo_RoyaltySnapshotted o)).
  step H as w2 cur Hc. step H as w3 am1 Ha.
  assert (world_step nobody nobody w1 w2 /\ match cur with
    | Some c => env_fc env FixAuditChangesV6 = true /\ IsPaused (Attributes kda) = false /\
        kapp_record w KDAKAppAddress currencyID = Some c /\ IsPaused (Attributes c) = false
    | None => env_fc env FixAuditChangesV6 = false end) as [Hq2 Hcur].
  { destruct (env_fc env FixAuditChangesV6); [|injection Hc as <- <-; split; [apply world_step_refl, Hq|done]].
    unfold checkNotPaused in Hc. guard_ok Hc. step Hc as w4 c Hl.
    apply loadUnpausedKDA_spec in Hl as (Hq2 & Hrec & Hpause); [|apply Hq]. injection Hc as <- <-.
    splits; try done. unfold kapp_record in *.
    by rewrite <- (kapp_value_same _ _ _ _ (quiet_kapp _ _ KDAKAppAddress Hq)). }
  apply computeSettlementAmounts_spec in Ha as (Hq3 & Hdiv & Hterms); [|apply Hq2|done..].
  rewrite (due_same w w2) in Hterms by (intros k; exact (quiet_kapp _ _ k (quiet_trans _ _ _ Hq Hq2))).
  step H as w4 [] Hctl. injection H as <- <- <-.
  assert (world_step nobody nobody w w3) as Hq13 by exact (quiet_trans _ _ _ Hq (quiet_trans _ _ _ Hq2 Hq3)).
  destruct cur as [c|].
  - destruct Hcur as (Hv6 & Hpk & Hrec & Hpc).
    apply (checkSettlementControls_spec _ _ _ _ _ _ _ _ (mo_CurrentBid o)) in Hctl
      as (-> & A1 & A2 & A3 & A4); [|done|lia|done].
    splits; try done. intros _. split; [done|]. split; [done|]. exists c. splits; auto.
  - injection Hctl as <-. splits; try done. congruence.
Qed.
End settle.
