(* ===== verification/MarketProps.v ===== *)
(** * The market keeps what it is given and gives it all back

    The effect of every successful handler of the marketplace: which order it
    writes, which legs it pays, where the item goes.  From it the invariant of
    the stored orders and the conservation of every asset: balances and escrow
    together never change, over any run of market contracts. *)

From S2P Require Import Prelude Common Strconv GoStd Forks Tools Permissions KdaUtils KdaData.
From S2P Require Import DataTrie UserAccount Codec Balances AccountsCache Staking World SystemAccount.
From S2P Require Import KdaKapp WorldLemmas KdaSupply MarketKapp Transfer TransferProps MarketFlow MarketSettle.
From Stdlib Require Import SpecFloat.
Local Open Scope Z_scope.

Section effects.
Context `{TO : TrieOps} `{CU : Marshalizer UserKDA} {UL : UserKDACodec CU} {Peer : Type}
  `{UA : AccountsAdapter userAccount} `{KA : AccountsAdapter kappAccount}
  `{PA : AccountsAdapter Peer} {WL : WorldLaws Peer} `{CK : Marshalizer KDAData}
  {CP : Marshalizer Marketplace} {CO : Marshalizer MarketOrderData}
  {LP : ProtoCodec CP emptyMarketplace} {LO : ProtoCodec CO emptyOrder}.

Implicit Types (w : world Peer) (o : MarketOrderData) (K : string -> Prop).

(** A run that pays the legs and otherwise touches, in the escrow account and
    among the items, only the keys in [K]. *)
Record effect K w w' (l : list leg) : Prop := {
  ef_step : world_step (fun _ => True) (eq MarketKAppAddress) w w';
  ef_solvent : solvent w';
  ef_balance : forall k a, plain a -> user_balance w' k (Some a) = user_balance w k (Some a) + legs_to l k a;
  ef_items : forall k c i, is_item c i -> ~ K (ToKDAKey c i) -> item_data w' k c i = item_data w k c i;
  ef_kept : forall T (C : Marshalizer T) key, ~ K key ->
    @kapp_value _ _ _ _ _ T C w' MarketKAppAddress key = kapp_value w MarketKAppAddress key;
}.

Lemma effect_ok K w w' l : effect K w w' l -> world_ok w'.
Proof. intros H. apply (ef_step _ _ _ _ H). Qed.
Lemma effect_loc K w w' l k i : effect K w w' l -> user_loc w k i -> user_loc w' k i.
Proof. intros H. apply (ws_user_loc _ _ _ _ (ef_step _ _ _ _ H)). Qed.
Lemma effect_kapp_loc K w w' l k i : effect K w w' l -> kapp_loc w k i -> kapp_loc w' k i.
Proof. intros H. apply (ws_kapp_loc _ _ _ _ (ef_step _ _ _ _ H)). Qed.

Lemma effect_pays K w w' l : pays w w' l -> effect K w w' l.
Proof.
  intros [S So B I]. split; [eapply world_step_weaken; [exact S|done|by intros ? []]|done|done|auto|].
  intros T C key _. apply kapp_value_same, (ws_kapp _ _ _ _ S). by intros [].
Qed.
Lemma effect_quiet K w w' : solvent w -> world_step nobody nobody w w' -> effect K w w' [].
Proof. intros Hs Hq. by apply effect_pays, pays_quiet. Qed.
Lemma effect_trans K w1 w2 w3 l1 l2 : effect K w1 w2 l1 -> effect K w2 w3 l2 -> effect K w1 w3 (l1 ++ l2).
Proof.
  intros [S1 _ B1 I1 K1] [S2 So2 B2 I2 K2]. split; [|done|..].
  - eapply world_step_weaken; [exact (world_step_trans _ _ _ _ _ _ _ S1 S2)|done|by intros ? [?|?]].
  - intros k a Ha. rewrite B2, B1, legs_to_app by done. lia.
  - intros k c i Hi Hk. by rewrite I2, I1.
  - intros T C key Hk. by rewrite K2, K1.
Qed.
Lemma effect_then_quiet K w1 w2 w3 l : effect K w1 w2 l -> world_step nobody nobody w2 w3 -> effect K w1 w3 l.
Proof.
  intros H Hq. rewrite <- (app_nil_r l). eapply effect_trans; [exact H|].
  apply effect_quiet; [apply (ef_solvent _ _ _ _ H)|done].
Qed.
Lemma effect_then_pays K w1 w2 w3 l1 l2 : effect K w1 w2 l1 -> pays w2 w3 l2 -> effect K w1 w3 (l1 ++ l2).
Proof. intros H P. eapply effect_trans; [exact H|by apply effect_pays]. Qed.

Lemma others_kept_solvent w w' coll item : others_kept w w' coll item -> solvent w -> solvent w'.
Proof. intros [H _] Hs k a Ha. rewrite H by done. by apply Hs. Qed.

Lemma effect_item K w w' k coll item :
  world_step (eq k) (eq MarketKAppAddress) w w' -> others_kept w w' coll item ->
  kapp_kept w w' MarketKAppAddress (ToKDAKey coll item) -> K (ToKDAKey coll item) -> solvent w ->
  effect K w w' [].
Proof.
  intros S R Hk HK Hs. pose proof R as [R1 R2].
  split; [eapply world_step_weaken; [exact S|done|done]|by eapply others_kept_solvent|..].
  - intros j a Ha. rewrite R1 by done. unfold legs_to. cbn. lia.
  - intros j c i Hi Hn. apply R2. by intros E%eq_sym; rewrite E in *.
  - intros T C key Hn. apply Hk. by intros ->.
Qed.
Lemma effect_hands K w w' k coll item :
  hands_over w w' MarketKAppAddress k coll item -> K (ToKDAKey coll item) -> solvent w -> effect K w w' [].
Proof. intros [] HK Hs. by eapply effect_item. Qed.
Lemma effect_takes K w w' k coll item :
  takes_in w w' MarketKAppAddress k coll item -> K (ToKDAKey coll item) -> solvent w -> effect K w w' [].
Proof. intros [] HK Hs. by eapply effect_item. Qed.

Lemma quiet_kda w w' id :
  world_step nobody nobody w w' ->
  kapp_record (T := KDAData) w' KDAKAppAddress id = kapp_record w KDAKAppAddress id.
Proof. intros Hq. apply kapp_value_same, quiet_kapp, Hq. Qed.

(** ** Keys *)

Lemma order_key_inj a b : ToMarketOrderKey a = ToMarketOrderKey b -> a = b.
Proof. unfold ToMarketOrderKey. by intros E%string_app_inj_l%string_app_inj_l. Qed.
Lemma marketplace_key_inj a b : ToMarketplaceKey a = ToMarketplaceKey b -> a = b.
Proof. unfold ToMarketplaceKey. by intros E%string_app_inj_l%string_app_inj_l. Qed.
Lemma order_key_item a c i : ToMarketOrderKey a <> ToKDAKey c i.
Proof. by rewrite ToKDAKey_prefix. Qed.
Lemma marketplace_key_item a c i : ToMarketplaceKey a <> ToKDAKey c i.
Proof. by rewrite ToKDAKey_prefix. Qed.
Lemma order_key_marketplace a b : ToMarketOrderKey a <> ToMarketplaceKey b.
Proof. done. Qed.

(** The keys of an order: its record and its item. *)
Definition order_keys o (key : string) : Prop :=
  key = ToMarketOrderKey (mo_ID o) \/ key = ToKDAKey (mo_CollectionID o) (mo_AssetID o).

Lemma order_kept o w w' l id : effect (order_keys o) w w' l -> id <> mo_ID o -> order_at w' id = order_at w id.
Proof.
  intros H Hid. apply (ef_kept _ _ _ _ H). intros [E%order_key_inj|E]; [done|].
  by apply order_key_item in E.
Qed.
Lemma marketplace_kept o w w' l id :
  effect (order_keys o) w w' l -> marketplace_at w' id = marketplace_at w id.
Proof.
  intros H. apply (ef_kept _ _ _ _ H). intros [E|E].
  - symmetry in E. by apply order_key_marketplace in E.
  - by apply marketplace_key_item in E.
Qed.

(** Writing a record keeps items and balances. *)
Lemma set_value_effect {T} (C : Marshalizer T) (zero : T) {PC : ProtoCodec C zero} K w w' kapp key data (x : T) :
  world_ok w -> solvent w -> kapp_loc w MarketKAppAddress kapp -> x <> zero -> K key ->
  (forall c i, key <> ToKDAKey c i) -> Marshal x = Ok data ->
  on_kapp kapp (kapp_SaveKeyValue key data) w = (w', Ok tt) ->
  effect K w w' [] /\ kapp_value w' MarketKAppAddress key = Some x /\ (forall k, user_obj w' k = user_obj w k) /\
  (forall c i, kapp_item w' MarketKAppAddress c i = kapp_item w MarketKAppAddress c i).
Proof.
  intros Hok Hs Hl Hne HK Hkey Hm H. pose proof H as Hsave.
  apply (save_value_spec C zero _ _ MarketKAppAddress kapp _ _ x) in Hsave as (Hst & Hv & Hf); [|done..].
  apply (kapp_save_spec _ _ MarketKAppAddress) in H as (_ & a & t & Ha & Ht & Ha'); [|done..].
  pose proof (kapp_step_users _ _ _ Hst) as Hu.
  split; [split|split; [done|split; [done|]]].
  - eapply world_step_weaken; [exact Hst|done|done].
  - intros k a' Hx. rewrite (user_balance_same w w') by done. by apply Hs.
  - intros k a' _. rewrite (user_balance_same w w') by done. unfold legs_to. cbn. lia.
  - intros k c i _ _. unfold item_data. by rewrite Hu.
  - intros T' C' key' Hn. apply Hf. by intros ->.
  - intros c i. unfold kapp_item. rewrite Ha, Ha'. cbn.
    by rewrite (retrieve_save_ne _ _ _ _ _ Ht) by apply Hkey.
Qed.

Lemma set_order_spec K w w' kapp o :
  world_ok w -> solvent w -> kapp_loc w MarketKAppAddress kapp -> o <> emptyOrder ->
  K (ToMarketOrderKey (mo_ID o)) -> SetMarketOrder kapp o w = (w', Ok tt) ->
  effect K w w' [] /\ order_at w' (mo_ID o) = Some o /\ (forall k, user_obj w' k = user_obj w k) /\
  (forall c i, kapp_item w' MarketKAppAddress c i = kapp_item w MarketKAppAddress c i).
Proof.
  intros Hok Hs Hl Hne HK H. unfold SetMarketOrder in H. step H as w1 data Hm. injection Hm as <- Hm.
  apply (set_value_effect CO emptyOrder K _ _ _ _ _ o) in H; try done.
  intros c i. apply order_key_item.
Qed.

(** ** Closing an order *)

(** The item left the escrow for [k], byte for byte; nobody else's holding
    changed. *)
Definition released w w' (k : string) o : Prop :=
  exists data, kapp_item w MarketKAppAddress (mo_CollectionID o) (mo_AssetID o) = Some data /\
    item_data w' k (mo_CollectionID o) (mo_AssetID o) = Some data /\
    kapp_item w' MarketKAppAddress (mo_CollectionID o) (mo_AssetID o) = None /\
    (forall j, j <> k -> item_data w' j (mo_CollectionID o) (mo_AssetID o) =
                         item_data w j (mo_CollectionID o) (mo_AssetID o)).

Lemma kapp_item_same w w' c i :
  kapp_obj w' MarketKAppAddress = kapp_obj w MarketKAppAddress ->
  kapp_item w' MarketKAppAddress c i = kapp_item w MarketKAppAddress c i.
Proof. unfold kapp_item. by intros ->. Qed.

Lemma released_frame w0 w w' w1 k o :
  is_item (mo_CollectionID o) (mo_AssetID o) ->
  hands_over w w' MarketKAppAddress k (mo_CollectionID o) (mo_AssetID o) ->
  (forall c i, kapp_item w MarketKAppAddress c i = kapp_item w0 MarketKAppAddress c i) ->
  (forall c i, kapp_item w1 MarketKAppAddress c i = kapp_item w' MarketKAppAddress c i) ->
  (forall j c i, is_item c i -> item_data w j c i = item_data w0 j c i) ->
  (forall j c i, is_item c i -> item_data w1 j c i = item_data w' j c i) ->
  released w0 w1 k o.
Proof.
  intros Hi [Hst (data & H1 & H2) H3 _ _] Hb Ha Hd0 Hd. exists data.
  rewrite <- Hb, Ha, Hd by done. splits; try done. intros j Hj. rewrite Hd, <- Hd0 by done.
  unfold item_data. by rewrite (ws_user _ _ _ _ Hst) by congruence.
Qed.
End effects.

(** ** The handlers *)

Section handlers.
Context `{TO : TrieOps} `{CU : Marshalizer UserKDA} {UL : UserKDACodec CU} {Peer : Type}
  `{UA : AccountsAdapter userAccount} `{KA : AccountsAdapter kappAccount}
  `{PA : AccountsAdapter Peer} {WL : WorldLaws Peer} `{CK : Marshalizer KDAData}
  {CP : Marshalizer Marketplace} {CO : Marshalizer MarketOrderData}
  {LP : ProtoCodec CP emptyMarketplace} {LO : ProtoCodec CO emptyOrder}.
Variable env : marketEnv.
Variable oob : spec_float -> Z.
Variable range : gmap string RoyaltySplitData -> list string.
Hypothesis Hsc : env_fc env EnableSmartContracts = true.
Hypothesis Hfpr : env_fc env KdaFpr = true.
Hypothesis Hmkt : env_fc env FixMarketBuyOverflow = true.

Implicit Types (w : world Peer) (o : MarketOrderData).

(** What the stored orders satisfy: the bid and the deposit are amounts, there
    is no bid without a bidder, the percentages are at most a hundred, the
    currency and the collection are plain identifiers and the item is one. *)
Record order_typed o : Prop := {
  ot_bid : 0 <= mo_CurrentBid o <= MaxInt64;
  ot_bidder : mo_CurrentBidder o = EmptyString -> mo_CurrentBid o = 0;
  ot_deposit : 0 <= mo_RoyaltiesFixedDeposit o <= MaxInt64;
  ot_referral : percent (mo_ReferralPercentage o);
  ot_royalty : percent (mo_RoyaltyPercentage o);
  ot_currency : mo_CurrencyID o <> EmptyString /\ plain (mo_CurrencyID o);
  ot_item : is_item (mo_CollectionID o) (mo_AssetID o);
}.

(** What the escrow holds for an order in an asset. *)
Definition holds o (a : string) : Z :=
  (if decide (a = mo_CurrencyID o) then mo_CurrentBid o else 0)
  + (if decide (a = KLVIdentifier) then mo_RoyaltiesFixedDeposit o else 0).

(** The legs of a sale. *)
Definition sale_legs o (am : settlementAmounts) (fixedShares royaltyShares : list (string * Z)) : list leg :=
  legs_of (mo_CurrencyID o) (share (referralAddress am) (referral am))
  ++ legs_of KLVIdentifier fixedShares ++ legs_of (mo_CurrencyID o) royaltyShares
  ++ legs_of (mo_CurrencyID o) (share (mo_OwnerAddress o) (marketOwner am)).

(** A sale to [buyer]: the bid divided among referral, royalty and seller, the
    deposit and the royalty shared by the asset's splits and royalty address,
    all of it allowed by the asset controls, and the item handed over. *)
Record sale w w' o (buyer : string) (l : list leg) : Prop := {
  sale_terms : exists asset am fsh rsh,
    kapp_record w KDAKAppAddress (mo_CollectionID o) = Some asset /\ divides am (mo_CurrentBid o) /\
    same_terms am (due env w o (Royalties asset) (mo_CurrentBid o)) /\
    (env_fc env FixAuditChangesV6 = true -> sale_allowed env oob range w o asset am (mo_CurrencyID o) buyer) /\
    royalty_shares env oob range (Royalties asset) PercentMarketFixed (mo_RoyaltiesFixedDeposit o) fsh /\
    royalty_shares env oob range (Royalties asset) PercentMarketPercentage (royalties am) rsh /\
    paid_total fsh = mo_RoyaltiesFixedDeposit o /\ paid_total rsh = royalties am /\
    l = sale_legs o am fsh rsh;
  sale_effect : effect (order_keys o) w w' l;
  sale_order : order_at w' (mo_ID o) = Some o;
  sale_item : released w w' buyer o;
}.

Lemma sale_legs_net o am fsh rsh bid a :
  divides am bid -> paid_total fsh = mo_RoyaltiesFixedDeposit o -> paid_total rsh = royalties am ->
  bid = mo_CurrentBid o -> legs_net (sale_legs o am fsh rsh) a = holds o a.
Proof.
  intros [] Hf Hr ->. unfold sale_legs, holds. rewrite !legs_net_app, !legs_net_of, !share_total, Hf, Hr.
  repeat case_decide; lia.
Qed.

Lemma closed_not_empty o : mo_IsClaimed o = true -> o <> emptyOrder.
Proof. by intros H ->. Qed.

Lemma market_receipt_spec w w' from to v a i ty o :
  world_ok w -> market_receipt env from to v a i ty o w = (w', Ok tt) -> world_step nobody nobody w w'.
Proof. intros Hok H. by apply Receipts_Add_spec in H. Qed.

Lemma with_control_receipt_ok {B} (m : M (world Peer) (txResultCode * error) B) w w' x :
  with_control_receipt env m w = (w', Ok x) -> m w = (w', Ok x).
Proof. unfold with_control_receipt. destruct (m w) as [w1 [y|[c e]]]; congruence. Qed.

Lemma bytes_of_default s : s <> EmptyString -> default KLVIdentifier (field_slice s) = s /\ bytes_of (field_slice s) = s.
Proof.
  intros Hne. unfold field_slice, bytes_of.
  rewrite (proj2 (Z.eqb_neq _ _)); [done|]. by intros E%slen_zero.
Qed.

Lemma executeBuyMarket_spec w w' buyer bidderAcc kapp o cur :
  world_ok w -> solvent w -> assets_typed w -> order_typed o -> mo_IsClaimed o = true ->
  kapp_loc w MarketKAppAddress kapp -> user_loc w buyer bidderAcc ->
  default KLVIdentifier cur = mo_CurrencyID o -> bytes_of cur = mo_CurrencyID o ->
  executeBuyMarket env oob range bidderAcc kapp o cur w = (w', Ok tt) ->
  exists l, sale w w' o buyer l.
Proof.
  intros Hok Hs Hat Hty Hcl Hlk Hl Hcur Hcur' H. destruct Hty as [Hb _ Hd Hp1 Hp2 [_ Hpl] Hit].
  unfold executeBuyMarket in H. step H as w1 b Hb1. apply with_err_ok in Hb1.
  pose proof (user_address_value _ _ _ _ _ Hok Hl Hb1) as ->.
  apply (user_address_spec _ _ _ buyer) in Hb1; [|done..].
  step H as w2 [asset am] Hprep. apply with_control_receipt_ok in Hprep. rewrite Hcur' in Hprep.
  assert (assets_typed w1) as Hat1.
  { intros id kda Hr. apply (Hat id). by rewrite <- (quiet_kda _ _ _ Hb1). }
  apply prepareSettlement_spec in Hprep as (Hq2 & Hrec & Hdiv & Hterms & Hv6); [|done|done|apply Hb1|done..].
  pose proof (quiet_trans _ _ _ Hb1 Hq2) as Hq. pose proof (pays_quiet _ _ Hs Hq) as P0.
  assert (is_i64 (referral am) /\ is_i64 (royalties am) /\ is_i64 (marketOwner am)) as (I1 & I2 & I3)
    by (destruct Hdiv; splits; ilia).
  step H as w3 [] H3. apply computeReferralAmount_spec in H3;
    [|done|apply Hq2|apply (py_solvent _ _ _ P0)|done|by rewrite Hcur]. rewrite Hcur in H3.
  pose proof (pays_trans _ _ _ _ _ P0 H3) as P1.
  step H as w4 [] H4. apply computeRoyaltiesFixedDeposit_spec in H4 as (fsh & Hfsh & H4 & Ht1);
    [|done..|by eapply pays_ok|apply (py_solvent _ _ _ P1)|ilia].
  pose proof (pays_trans _ _ _ _ _ P1 H4) as P2.
  step H as w5 [] H5. apply computeRoyaltiesAmount_spec in H5 as (rsh & Hrsh & H5 & Ht2);
    [|done..|by eapply pays_ok|apply (py_solvent _ _ _ P2)|by rewrite Hcur|done]. rewrite Hcur in H5.
  pose proof (pays_trans _ _ _ _ _ P2 H5) as P3.
  step H as w6 [] H6. apply computeMarketOwnerAmount_spec in H6;
    [|done|by eapply pays_ok|apply (py_solvent _ _ _ P3)|done|by rewrite Hcur]. rewrite Hcur in H6.
  pose proof (pays_trans _ _ _ _ _ P3 H6) as P4. cbn [app] in P4. rewrite <- !app_assoc in P4.
  fold (sale_legs o am fsh rsh) in P4.
  step H as w7 data H7. apply with_err_ok in H7. step H as w8 [] H8. apply with_err_ok in H8.
  assert (hands_over w6 w8 MarketKAppAddress buyer (mo_CollectionID o) (mo_AssetID o)) as Hho
    by (eapply hands_over_spec; [by eapply pays_ok|done|by eapply pays_kapp_loc|by eapply pays_loc|done|done]).
  pose proof (effect_pays (order_keys o) _ _ _ P4) as E1.
  assert (effect (order_keys o) w6 w8 []) as E2
    by (eapply effect_hands; [exact Hho|by right|apply (py_solvent _ _ _ P4)]).
  pose proof (effect_trans _ _ _ _ _ _ E1 E2) as E3. rewrite app_nil_r in E3.
  step H as w9 [] H9. apply market_receipt_spec in H9; [|by eapply effect_ok].
  pose proof (effect_then_quiet _ _ _ _ _ E3 H9) as E4.
  step H as w10 [] H10. apply with_err_ok, UpdateUser_enabled in H10; [|by eapply effect_ok]. subst w10.
  step H as w10 [] H10. apply with_err_ok in H10.
  apply (set_order_spec (order_keys o)) in H10 as (E5 & Hat' & Hu & Hk);
    [|by eapply effect_ok|apply (ef_solvent _ _ _ _ E4)|by eapply effect_kapp_loc|by apply closed_not_empty|by left].
  apply with_err_ok, UpdateKapp_enabled in H; [|by eapply effect_ok]. subst w'.
  pose proof (effect_trans _ _ _ _ _ _ E4 E5) as E6. rewrite app_nil_r in E6.
  exists (sale_legs o am fsh rsh). split; [|done|done|].
  - exists asset, am, fsh, rsh. destruct Hdiv. splits; try done; try lia.
    + by rewrite <- (quiet_kda _ _ _ Hb1).
    + rewrite <- (due_same env w w1); [done|]. intros k. by apply quiet_kapp.
    + intros Hf. destruct (Hv6 Hf) as (A1 & A2 & c & A3 & A4). split; [done|]. split; [done|]. exists c. split; [|done].
      by rewrite <- (quiet_kda _ _ _ Hb1).
  - eapply (released_frame _ w6 w8); [done|exact Hho|..].
    + intros c i. apply kapp_item_same, (pays_kapp _ _ _ _ P4).
    + intros c i. rewrite Hk. apply kapp_item_same, quiet_kapp, H9.
    + intros j c i Hi. by apply (py_items _ _ _ P4).
    + intros j c i _. unfold item_data. by rewrite Hu, (quiet_user _ _ _ H9).
Qed.

(** *** Bidding *)

(** The previous bid going back. *)
Definition refund_legs o : list leg :=
  if 0 <? slen (mo_CurrentBidder o) then [(mo_CurrentBidder o, mo_CurrencyID o, mo_CurrentBid o)] else [].

Lemma slen_pos s : (0 <? slen s) = true <-> s <> EmptyString.
Proof.
  rewrite Z.ltb_lt. rewrite <- slen_zero. unfold slen. lia.
Qed.

Lemma refund_legs_net o a :
  order_typed o ->
  legs_net (refund_legs o) a = if decide (a = mo_CurrencyID o) then mo_CurrentBid o else 0.
Proof.
  intros Ht. unfold refund_legs. destruct (0 <? slen (mo_CurrentBidder o)) eqn:E; [apply legs_net_one|].
  rewrite legs_net_nil. destruct (ot_bidder _ Ht); [|by case_decide].
  destruct (decide (mo_CurrentBidder o = EmptyString)) as [|Hne]; [done|]. apply slen_pos in Hne. congruence.
Qed.

Lemma refund_bid_spec w w' o cur :
  world_ok w -> solvent w -> order_typed o -> default KLVIdentifier cur = mo_CurrencyID o ->
  refund_bid env o cur w = (w', Ok tt) -> pays w w' (refund_legs o).
Proof.
  intros Hok Hs Ht Hcur H. unfold refund_bid, refund_legs in *. rewrite Hsc in H.
  destruct (0 <? slen (mo_CurrentBidder o)); [|injection H as <-; by apply pays_quiet, world_step_refl].
  step H as w1 l Hl. apply with_err_ok, GetExistingUserAccount_spec in Hl as [Hq Hl]; [|done].
  step H as w2 r Hc. apply with_err_ok in Hc. step H as w3 [] Hu. apply with_err_ok in Hu.
  pose proof (pays_quiet _ _ Hs Hq) as P. rewrite <- Hcur.
  change [(mo_CurrentBidder o, default KLVIdentifier cur, mo_CurrentBid o)]
    with ([] ++ [(mo_CurrentBidder o, default KLVIdentifier cur, mo_CurrentBid o)]).
  eapply pays_trans; [exact P|].
  eapply (paid_after_credit env _ _ _ _ _ l _ cur); [apply Hq|apply (py_solvent _ _ _ P)|done| |rewrite Hcur; apply Ht|exact Hc|eauto].
  destruct (ot_bid _ Ht). ilia.
Qed.

Lemma bid_executes_spec w w' o amount b :
  bid_executes env o amount w = (w', Ok b) -> w' = w /\
  (mo_MarketType o = MarketOrderData_BuyItNow /\ b = true /\ mo_Price o <= amount \/
   mo_MarketType o = MarketOrderData_Auction /\ mo_ReservePrice o <= amount /\
     (b = true <-> 0 < mo_Price o <= amount)).
Proof.
  unfold bid_executes. intros H.
  destruct (Z.eqb_spec (mo_MarketType o) MarketOrderData_BuyItNow);
    [|destruct (Z.eqb_spec (mo_MarketType o) MarketOrderData_Auction)]; guard_ok H; [|..|done];
    injection H as <- <-; split; try done; [left|right]; splits; try done; try lia.
Qed.

(** The asset controls of a bid. *)
Lemma checkBidControls_spec w w' o currencyID buyer bid :
  world_ok w -> assets_typed w -> order_typed o -> 0 <= bid <= MaxInt64 ->
  checkBidControls env oob range o currencyID buyer bid w = (w', Ok tt) ->
  world_step nobody nobody w w' /\
  (env_fc env FixAuditChangesV6 = true -> exists asset am,
     kapp_record w KDAKAppAddress (mo_CollectionID o) = Some asset /\ divides am bid /\
     sale_allowed env oob range w o asset am currencyID buyer).
Proof.
  intros Hok Hat Ht Hb H. unfold checkBidControls in H.
  destruct (env_fc env FixAuditChangesV6) eqn:Hv6; cbn [negb] in H;
    [|injection H as <-; split; [by apply world_step_refl|done]].
  step H as w1 c Hc. apply with_control_receipt_ok, loadUnpausedKDA_spec in Hc as (Hq1 & Hr1 & Hp1); [|done].
  step H as w2 k Hk. apply with_control_receipt_ok, loadUnpausedKDA_spec in Hk as (Hq2 & Hr2 & Hp2); [|apply Hq1].
  rewrite (quiet_kda _ _ _ Hq1) in Hr2.
  destruct (Hat _ _ Hr2) as (Hmp & _ & Hsp).
  step H as w3 am Ha. apply computeSettlementAmounts_spec in Ha as (Hq3 & Hdiv & _);
    [|done|done|apply Hq2|done|apply Ht|unfold royalty_percentage; destruct (mo_RoyaltySnapshotted o); [apply Ht|done]].
  apply with_control_receipt_ok, (checkSettlementControls_spec _ _ _ Hsc Hmkt _ _ _ _ _ _ _ _ bid) in H
    as (-> & A1 & A2 & A3 & A4); [|done|lia|done].
  split; [exact (quiet_trans _ _ _ Hq1 (quiet_trans _ _ _ Hq2 Hq3))|].
  intros _. exists k, am. split; [done|]. split; [done|]. split; [done|]. split; [done|].
  exists c. splits; auto.
Qed.

(** The order a bid of [amount] by [bidder] leaves, executed or not. *)
Definition after_bid (executes : bool) o (amount : Z) (bidder : string) : MarketOrderData :=
  let o1 := set_bid o amount bidder in
  if executes then set_closed o1 (me_timestamp env) (mo_RoyaltiesFixedDeposit o1) else o1.

(** A bid: the previous one goes back, the new one comes in, and an executing
    bid settles the sale. *)
Record bid w w' o (sender : string) (amount : Z) (executes : bool) (l : list leg) : Prop := {
  bid_amount : mo_CurrentBid o < amount;
  bid_mode : mo_MarketType o = MarketOrderData_BuyItNow /\ executes = true /\ mo_Price o <= amount \/
    mo_MarketType o = MarketOrderData_Auction /\ mo_ReservePrice o <= amount /\
      (executes = true <-> 0 < mo_Price o <= amount);
  bid_time : me_timestamp env <= mo_EndTime o;
  bid_funds : amount <= user_balance w sender (Some (mo_CurrencyID o))
    + legs_to (refund_legs o) sender (mo_CurrencyID o);
  bid_controls : env_fc env FixAuditChangesV6 = true -> exists asset am,
    kapp_record w KDAKAppAddress (mo_CollectionID o) = Some asset /\ divides am amount /\
    sale_allowed env oob range w o asset am (mo_CurrencyID o) sender;
  bid_effect : effect (order_keys o) w w' (refund_legs o ++ (sender, mo_CurrencyID o, - amount) :: l);
  bid_order : order_at w' (mo_ID o) = Some (after_bid executes o amount sender);
  bid_sale : if executes then exists w1, (forall k, kapp_obj w1 k = kapp_obj w k) /\
               (forall k c i, is_item c i -> item_data w1 k c i = item_data w k c i) /\
               sale w1 w' (after_bid true o amount sender) sender l
             else l = [] /\ effect (eq (ToMarketOrderKey (mo_ID o))) w w'
               (refund_legs o ++ [(sender, mo_CurrencyID o, - amount)]);
}.

Lemma set_bid_typed o amount bidder :
  order_typed o -> 0 <= amount <= MaxInt64 -> bidder <> EmptyString -> order_typed (set_bid o amount bidder).
Proof. intros [] Ha Hb. by split. Qed.
Lemma set_closed_typed o t d : order_typed o -> 0 <= d <= MaxInt64 -> order_typed (set_closed o t d).
Proof. intros [] Hd. by split. Qed.
Lemma after_bid_typed b o amount bidder :
  order_typed o -> 0 <= amount <= MaxInt64 -> bidder <> EmptyString -> order_typed (after_bid b o amount bidder).
Proof.
  intros Ht Ha Hb. unfold after_bid. destruct b; [apply set_closed_typed|]; [by apply set_bid_typed|apply Ht|].
  by apply set_bid_typed.
Qed.

Lemma effect_reorder K w w' l l' : effect K w w' l -> l = l' -> effect K w w' l'.
Proof. by intros ? <-. Qed.

Lemma assets_typed_kapps w w' : (forall k, kapp_obj w' k = kapp_obj w k) -> assets_typed w -> assets_typed w'.
Proof.
  intros Hk Hat id kda Hr. apply (Hat id). unfold kapp_record in *. by rewrite <- (kapp_value_same w w').
Qed.

Lemma Buy_spec w w' sender tc o id :
  env_fc env FixAuditChangesV3 = true ->
  world_ok w -> solvent w -> assets_typed w -> by_ID tc = Some id -> order_at w id = Some o ->
  mo_ID o = id -> order_typed o -> is_i64 (by_Amount tc) -> sender <> EmptyString ->
  Buy env oob range sender tc w = (w', Ok tt) ->
  mo_IsClaimed o = false /\ exists executes l, bid w w' o sender (by_Amount tc) executes l.
Proof.
  intros Hv3 Hok Hs Hat Hid Ho Hoid Ht Hi Hsend H. unfold Buy in H. rewrite Hid, Hv3, Hsc in H.
  set (amount := by_Amount tc) in *. set (cur := default KLVIdentifier (by_CurrencyID tc)) in *.
  guard_ok H. guard_ok H. rename G0 into Hpos.
  step H as w1 [kapp o1] Hg. apply or_refuse_ok, found_order_spec in Hg as (Hq1 & Hlk & Ho1); [|done].
  rewrite Ho in Ho1. injection Ho1 as <-.
  guard_ok H. cbn in G0. rename G0 into Hopen. split; [done|].
  guard_ok H. unfold str_eqb in G0. apply bool_decide_eq_true in G0. rename G0 into Hcur.
  guard_ok H. rename G0 into Htime. guard_ok H. rename G0 into Hgt.
  step H as w2 b Hx. apply bid_executes_spec in Hx as [-> Hmode].
  step H as w2 [] Hctl. rewrite <- Hcur in Hctl.
  apply checkBidControls_spec in Hctl as [Hq2 Hal]; [|apply Hq1| |done|ilia].
  2: { eapply assets_typed_kapps; [|exact Hat]. intros k. by apply quiet_kapp. }
  pose proof (quiet_trans _ _ _ Hq1 Hq2) as Hq. pose proof (pays_quiet _ _ Hs Hq) as P0.
  step H as w3 [] Href. apply refund_bid_spec in Href; [|apply Hq2|apply (py_solvent _ _ _ P0)|done|done].
  pose proof (pays_trans _ _ _ _ _ P0 Href) as P1. cbn [app] in P1.
  step H as w4 l Hl. apply with_err_ok, GetExistingUserAccount_spec in Hl as [Hq3 Hl]; [|by eapply pays_ok].
  pose proof (pays_then_quiet _ _ _ _ P1 Hq3) as P2.
  step H as w5 r Hsub. apply or_refuse_ok, (pays_debit _ _ sender) in Hsub as [Hle Hdeb];
    [|apply Hq3|apply (py_solvent _ _ _ P2)|done|done|cbn; rewrite <- Hcur; apply Ht].
  cbn in Hle, Hdeb. rewrite <- Hcur in Hle, Hdeb.
  pose proof (pays_trans _ _ _ _ _ P2 Hdeb) as P3.
  step H as w6 addr Ha. apply with_err_ok in Ha. assert (addr = sender) as ->.
  { eapply user_address_value; [| |exact Ha]; [by eapply pays_ok|exact (pays_loc _ _ _ _ _ Hdeb Hl)]. }
  apply (user_address_spec _ _ _ sender) in Ha; [|by eapply pays_ok|exact (pays_loc _ _ _ _ _ Hdeb Hl)].
  step H as w7 [] H7. apply market_receipt_spec in H7; [|apply Ha].
  step H as w8 [] H8. apply Receipts_Add_spec in H8; [|apply H7].
  pose proof (quiet_trans _ _ _ Ha (quiet_trans _ _ _ H7 H8)) as Hq8.
  pose proof (pays_then_quiet _ _ _ _ P3 Hq8) as P4.
  assert (kapp_loc w8 MarketKAppAddress kapp) as Hlk8.
  { apply (pays_kapp_loc _ _ _ _ _ (pays_then_quiet _ _ _ _ Hdeb Hq8)).
    apply (ws_kapp_loc _ _ _ _ Hq3), (pays_kapp_loc _ _ _ _ _ Href), (ws_kapp_loc _ _ _ _ Hq2), Hlk. }
  assert (user_loc w8 sender l) as Hl8 by (eapply pays_loc; [exact (pays_then_quiet _ _ _ _ Hdeb Hq8)|done]).
  assert (user_balance w4 sender (Some (mo_CurrencyID o)) = user_balance w sender (Some (mo_CurrencyID o))
    + legs_to (refund_legs o) sender (mo_CurrencyID o)) as Hbal by (apply (py_balance _ _ _ P2); apply Ht).
  pose proof (effect_pays (order_keys o) _ _ _ P4) as E1.
  assert (env_fc env FixAuditChangesV6 = true -> exists asset am,
    kapp_record w KDAKAppAddress (mo_CollectionID o) = Some asset /\ divides am amount /\
    sale_allowed env oob range w o asset am (mo_CurrencyID o) sender) as Hal'.
  { intros Hf. destruct (Hal Hf) as (asset & am & R & Hd & A1 & A2 & c & R2 & A3).
    rewrite (quiet_kda w w1) in R, R2 by done.
    exists asset, am. split; [done|]. split; [done|]. split; [done|]. split; [done|]. exists c. done. }
  destruct b.
  - apply (executeBuyMarket_spec _ _ sender) in H as (ls & Hsale);
      [|by eapply pays_ok|apply (py_solvent _ _ _ P4)| |by apply (after_bid_typed true); [done|ilia|done]|done|done|done|done|done].
    2: { eapply assets_typed_kapps; [|exact Hat]. intros k. apply (pays_kapp _ _ _ _ P4). }
    exists true, ls. split; try done; try lia.
    + pose proof (sale_effect _ _ _ _ _ Hsale) as E2. eapply effect_reorder; [exact (effect_trans _ _ _ _ _ _ E1 E2)|].
      by rewrite <- app_assoc.
    + exact (sale_order _ _ _ _ _ Hsale).
    + exists w8. split; [intros k; apply (pays_kapp _ _ _ _ P4)|].
      split; [apply (py_items _ _ _ P4)|exact Hsale].
  - step H as w9 [] H9. apply with_err_ok, UpdateUser_enabled in H9; [|by eapply pays_ok]. subst w9.
    step H as w9 [] H9. apply with_err_ok in H9. pose proof H9 as H9'.
    assert (set_bid o amount sender <> emptyOrder) as Hne
      by (intros E; apply (f_equal mo_CurrentBid) in E; cbn in E; lia).
    apply (set_order_spec (order_keys o)) in H9 as (E2 & Hat' & _);
      [|by eapply pays_ok|apply (py_solvent _ _ _ P4)|done|done|by left].
    apply (set_order_spec (eq (ToMarketOrderKey (mo_ID o)))) in H9' as (E2' & _);
      [|by eapply pays_ok|apply (py_solvent _ _ _ P4)|done|done|done].
    apply with_err_ok, UpdateKapp_enabled in H; [|by eapply effect_ok]. subst w'.
    exists false, []. split; try done; try lia.
    + eapply effect_reorder; [exact (effect_trans _ _ _ _ _ _ E1 E2)|]. by rewrite app_nil_r.
    + split; [done|]. eapply effect_reorder; [exact (effect_trans _ _ _ _ _ _ (effect_pays _ _ _ _ P4) E2')|].
      by rewrite app_nil_r.
Qed.

(** *** Returning what is in escrow *)

Definition deposit_legs o : list leg :=
  legs_of KLVIdentifier (share (mo_OwnerAddress o) (mo_RoyaltiesFixedDeposit o)).

(** The legs that give everything back: the deposit to the owner, the bid to
    the bidder. *)
Lemma return_legs_net o a :
  order_typed o -> legs_net (deposit_legs o ++ refund_legs o) a = holds o a.
Proof.
  intros Ht. pose proof (ot_deposit _ Ht). unfold holds, deposit_legs.
  rewrite legs_net_app, refund_legs_net, legs_net_of, share_total by done. repeat case_decide; lia.
Qed.

Lemma kapp_AddressBytes_spec w w' k l addr :
  world_ok w -> kapp_loc w k l -> kapp_AddressBytes l w = (w', Ok addr) -> world_step nobody nobody w w'.
Proof. intros Hok Hl H. by apply (kapp_read_spec _ _ k) in H as [Hq _]. Qed.

Lemma returnOrderToOwners_spec w w' kapp o :
  world_ok w -> solvent w -> order_typed o -> kapp_loc w MarketKAppAddress kapp ->
  returnOrderToOwners env kapp o w = (w', Ok tt) ->
  effect (order_keys o) w w' (deposit_legs o ++ refund_legs o) /\
  released w w' (mo_OwnerAddress o) o.
Proof.
  intros Hok Hs Ht Hlk H. destruct (ot_currency _ Ht) as [Hc0 Hcp].
  destruct (bytes_of_default _ Hc0) as [Hcd Hcb].
  unfold returnOrderToOwners in H. rewrite Hsc in H.
  step H as w1 l Hl. apply or_refuse_ok, GetExistingUserAccount_spec in Hl as [Hq1 Hl]; [|done].
  pose proof (pays_quiet _ _ Hs Hq1) as P0.
  step H as w2 data H2. apply or_refuse_ok in H2. step H as w3 [] H3. apply or_refuse_ok in H3.
  assert (hands_over w1 w3 MarketKAppAddress (mo_OwnerAddress o) (mo_CollectionID o) (mo_AssetID o)) as Hho
    by (eapply hands_over_spec; [apply Hq1|apply Ht|by apply (ws_kapp_loc _ _ _ _ Hq1)|done|done|done]).
  assert (effect (order_keys o) w1 w3 []) as E1
    by (eapply effect_hands; [exact Hho|by right|apply (py_solvent _ _ _ P0)]).
  pose proof (effect_loc _ _ _ _ _ _ E1 Hl) as Hl3.
  step H as w4 m H4. apply with_err_ok, (kapp_AddressBytes_spec _ _ MarketKAppAddress) in H4;
    [|by eapply effect_ok|eapply effect_kapp_loc; [exact E1|by apply (ws_kapp_loc _ _ _ _ Hq1)]].
  step H as w5 owner H5. apply with_err_ok in H5.
  apply (user_address_spec _ _ _ (mo_OwnerAddress o)) in H5; [|apply H4|by apply (ws_user_loc _ _ _ _ H4)].
  step H as w6 [] H6. apply market_receipt_spec in H6; [|apply H5].
  pose proof (quiet_trans _ _ _ H4 (quiet_trans _ _ _ H5 H6)) as Hq6.
  pose proof (pays_quiet _ _ (ef_solvent _ _ _ _ E1) Hq6) as P1.
  pose proof (pays_loc _ _ _ _ _ P1 Hl3) as Hl6.
  step H as w7 [] H7. assert (pays w6 w7 (deposit_legs o)) as P2.
  { unfold deposit_legs, share. destruct (0 <? mo_RoyaltiesFixedDeposit o);
      [|injection H7 as <-; apply pays_quiet; [apply (py_solvent _ _ _ P1)|apply world_step_refl, H6]].
    step H7 as w8 r H8. apply or_refuse_ok in H8.
    apply (pays_credit _ _ (mo_OwnerAddress o)) in H8 as [_ P]; [|apply H6|apply (py_solvent _ _ _ P1)|done|destruct (ot_deposit _ Ht); ilia|apply plain_klv].
    apply market_receipt_spec in H7; [|by eapply pays_ok].
    by eapply pays_then_quiet. }
  step H as w8 [] H8. apply with_err_ok, UpdateUser_enabled in H8; [|by eapply pays_ok]. subst w8.
  assert (pays w7 w' (refund_legs o)) as P3.
  { unfold refund_legs. destruct (0 <? slen (mo_CurrentBidder o));
      [|injection H as <-; apply pays_quiet; [apply (py_solvent _ _ _ P2)|apply world_step_refl; by eapply pays_ok]].
    step H as w9 lb Hlb. apply or_refuse_ok, GetExistingUserAccount_spec in Hlb as [Hq9 Hlb]; [|by eapply pays_ok].
    pose proof (pays_quiet _ _ (py_solvent _ _ _ P2) Hq9) as P9.
    step H as w10 r H10. apply or_refuse_ok, (pays_credit _ _ (mo_CurrentBidder o)) in H10 as [_ P10];
      [|apply Hq9|apply (py_solvent _ _ _ P9)|done|destruct (ot_bid _ Ht); ilia|by rewrite Hcd].
    rewrite Hcd in P10. pose proof (pays_trans _ _ _ _ _ P9 P10) as P. cbn [app] in P.
    step H as w11 b H11. apply with_err_ok, (user_address_spec _ _ _ (mo_CurrentBidder o)) in H11;
      [|by eapply pays_ok|exact (pays_loc _ _ _ _ _ P10 Hlb)].
    step H as w12 [] H12. apply market_receipt_spec in H12; [|apply H11].
    apply with_err_ok, UpdateUser_enabled in H; [|apply H12]. subst w12.
    eapply pays_then_quiet; [exact P|]. by eapply quiet_trans. }
  pose proof (pays_trans _ _ _ _ _ P1 (pays_trans _ _ _ _ _ P2 P3)) as P4. cbn [app] in P4.
  split.
  - eapply effect_reorder; [|reflexivity].
    exact (effect_trans _ _ _ _ _ _ (effect_trans _ _ _ _ _ _ (effect_pays _ _ _ _ P0) E1) (effect_pays _ _ _ _ P4)).
  - eapply (released_frame _ w1 w3); [apply Ht|exact Hho|..].
    + intros c i. apply kapp_item_same, quiet_kapp, Hq1.
    + intros c i. apply kapp_item_same, (pays_kapp _ _ _ _ P4).
    + intros j c i Hi. by apply (py_items _ _ _ P0).
    + intros j c i Hi. by apply (py_items _ _ _ P4).
Qed.

(** *** Cancelling *)

(** The order a cancellation leaves. *)
Definition cancelled o : MarketOrderData :=
  let o1 := if (0 <? slen (mo_CurrentBidder o)) && (0 <? mo_CurrentBid o) then set_bid o 0 EmptyString else o in
  set_closed o1 (me_timestamp env)
    (if 0 <? mo_RoyaltiesFixedDeposit o then 0 else mo_RoyaltiesFixedDeposit o).

(** A cancelled order: only its owner can, before the end, and everything goes
    back. *)
Record cancellation w w' o (sender : string) (l : list leg) : Prop := {
  cn_owner : mo_OwnerAddress o = sender;
  cn_open : mo_IsClaimed o = false;
  cn_time : me_timestamp env < mo_EndTime o;
  cn_net : forall a, legs_net l a = holds o a;
  cn_legs : l ⊆ deposit_legs o ++ refund_legs o;
  cn_effect : effect (order_keys o) w w' l;
  cn_order : order_at w' (mo_ID o) = Some (cancelled o);
  cn_item : released w w' sender o;
}.

(** The bid of a cancelled order, when there is one. *)
Definition cancel_refund o : list leg :=
  if (0 <? slen (mo_CurrentBidder o)) && (0 <? mo_CurrentBid o) then refund_legs o else [].

Lemma cancel_refund_net o a :
  order_typed o -> legs_net (cancel_refund o) a = legs_net (refund_legs o) a.
Proof.
  intros Ht. unfold cancel_refund. destruct (0 <? slen (mo_CurrentBidder o)) eqn:E; cbn.
  - destruct (Z.ltb_spec 0 (mo_CurrentBid o)); [done|].
    pose proof (ot_bid _ Ht). rewrite refund_legs_net by done. case_decide; [cbn; lia|done].
  - unfold refund_legs. by rewrite E.
Qed.

Lemma cancel_refund_spec w w' o sender o1 :
  world_ok w -> solvent w -> order_typed o ->
  (if (0 <? slen (mo_CurrentBidder o)) && (0 <? mo_CurrentBid o) then
     bidderAcc ← or_refuse env ErrFieldInvalidAddress Transaction_LoadAccountError
                   (cancel_bidder env o sender);
     _ ← or_refuse env ErrFieldMarketplaceError Transaction_BalanceError
           (on_user bidderAcc (AddToBalance (mo_CurrentBid o) (field_slice (mo_CurrencyID o)) true None));
     _ ← or_code Transaction_SaveAccountError (on_cache (UpdateUser bidderAcc));
     _ ← paid_receipt env bidderAcc (mo_CurrentBid o) (field_slice (mo_CurrencyID o)) o;
     mret (set_bid o 0 EmptyString)
   else mret o) w = (w', Ok o1) ->
  pays w w' (cancel_refund o) /\
  o1 = (if (0 <? slen (mo_CurrentBidder o)) && (0 <? mo_CurrentBid o) then set_bid o 0 EmptyString else o).
Proof.
  intros Hok Hs Ht H. destruct (ot_currency _ Ht) as [Hc0 Hcp].
  destruct (bytes_of_default _ Hc0) as [Hcd _]. unfold cancel_refund, refund_legs.
  destruct (0 <? slen (mo_CurrentBidder o)), (0 <? mo_CurrentBid o); cbn [andb] in *;
    try (injection H as <- <-; split; [by apply pays_quiet, world_step_refl|done]).
  step H as w1 l Hl. apply or_refuse_ok in Hl. unfold cancel_bidder in Hl. rewrite Hfpr in Hl. cbn in Hl.
  destruct (GetExistingUserAccount (mo_CurrentBidder o) w) as [v r] eqn:E. injection Hl as <- ->.
  apply GetExistingUserAccount_spec in E as [Hq Hl]; [|done]. pose proof (pays_quiet _ _ Hs Hq) as P.
  step H as w2 r Hc. apply or_refuse_ok in Hc. step H as w3 [] Hu. apply with_err_ok in Hu.
  step H as w4 [] Hr. injection H as <- <-. split; [|done]. rewrite <- Hcd at 1.
  eapply (pays_trans _ _ _ []); [exact P|].
  eapply (paid_after_credit env _ _ _ _ _ l); [apply Hq|apply (py_solvent _ _ _ P)|done|destruct (ot_bid _ Ht); ilia|by rewrite Hcd|exact Hc|eauto].
Qed.

Lemma cancel_deposit_spec w w' o l d :
  world_ok w -> solvent w -> order_typed o -> user_loc w (mo_OwnerAddress o) l ->
  (if 0 <? mo_RoyaltiesFixedDeposit o then
     _ ← or_refuse env ErrFieldMarketplaceError Transaction_BalanceError
           (on_user l (AddToBalance (mo_RoyaltiesFixedDeposit o) (Some KLVIdentifier) true None));
     _ ← paid_receipt env l (mo_RoyaltiesFixedDeposit o) (Some KLVIdentifier) o;
     mret 0
   else mret (mo_RoyaltiesFixedDeposit o)) w = (w', Ok d) ->
  pays w w' (deposit_legs o) /\ d = (if 0 <? mo_RoyaltiesFixedDeposit o then 0 else mo_RoyaltiesFixedDeposit o).
Proof.
  intros Hok Hs Ht Hl H. unfold deposit_legs, share. destruct (0 <? mo_RoyaltiesFixedDeposit o);
    [|injection H as <- <-; split; [by apply pays_quiet, world_step_refl|done]].
  step H as w1 r Hc. apply or_refuse_ok in Hc. step H as w2 [] Hr. injection H as <- <-. split; [|done].
  apply (pays_credit _ _ (mo_OwnerAddress o)) in Hc as [_ P];
    [|done|done|done|destruct (ot_deposit _ Ht); ilia|apply plain_klv].
  apply (paid_receipt_spec _ _ _ (mo_OwnerAddress o)) in Hr; [|by eapply pays_ok|by eapply pays_loc].
  by eapply pays_then_quiet.
Qed.

Lemma CancelOrder_spec w w' sender o id :
  world_ok w -> solvent w -> order_at w id = Some o -> mo_ID o = id -> order_typed o ->
  CancelOrder env sender (Some id) w = (w', Ok tt) -> exists l, cancellation w w' o sender l.
Proof.
  intros Hok Hs Ho Hoid Ht H. unfold CancelOrder in H. rewrite Hsc in H. guard_ok H.
  step H as w1 [kapp o1] Hg. apply or_refuse_ok, found_order_spec in Hg as (Hq1 & Hlk & Ho1); [|done].
  rewrite Ho in Ho1. injection Ho1 as <-.
  guard_ok H. rename G0 into Hopen. guard_ok H. unfold str_eqb in G0. apply bool_decide_eq_true in G0.
  subst sender. guard_ok H. rename G0 into Htime.
  step H as w2 l Hl. apply or_refuse_ok, GetExistingUserAccount_spec in Hl as [Hq2 Hl]; [|apply Hq1].
  pose proof (quiet_trans _ _ _ Hq1 Hq2) as Hq. pose proof (pays_quiet _ _ Hs Hq) as P0.
  step H as w3 d Hd. apply cancel_deposit_spec in Hd as [P1 ->]; [|apply Hq2|apply (py_solvent _ _ _ P0)|done|done].
  step H as w4 o1 Hc. apply cancel_refund_spec in Hc as [P2 ->]; [|by eapply pays_ok|apply (py_solvent _ _ _ P1)|done].
  fold (cancelled o) in H. set (o2 := cancelled o) in *.
  assert (mo_CollectionID o2 = mo_CollectionID o /\ mo_AssetID o2 = mo_AssetID o /\ mo_ID o2 = mo_ID o /\
    mo_IsClaimed o2 = true) as (Ec & Ei & Eid & Ecl)
    by (unfold o2, cancelled; destruct (_ && _); done).
  cbv zeta in H. rewrite Ec, Ei in H.
  pose proof (pays_trans _ _ _ _ _ P0 (pays_trans _ _ _ _ _ P1 P2)) as P3. cbn [app] in P3.
  pose proof (pays_trans _ _ _ _ _ P1 P2) as P12.
  step H as w5 data H5. apply or_refuse_ok in H5. step H as w6 [] H6. apply or_refuse_ok in H6.
  assert (hands_over w4 w6 MarketKAppAddress (mo_OwnerAddress o) (mo_CollectionID o) (mo_AssetID o)) as Hho.
  { eapply hands_over_spec; [by eapply pays_ok|apply Ht| | |done|done].
    - eapply pays_kapp_loc; [exact P12|]. by apply (ws_kapp_loc _ _ _ _ Hq2).
    - exact (pays_loc _ _ _ _ _ P12 Hl). }
  assert (effect (order_keys o) w4 w6 []) as E1
    by (eapply effect_hands; [exact Hho|by right|apply (py_solvent _ _ _ P2)]).
  pose proof (effect_trans _ _ _ _ _ _ (effect_pays (order_keys o) _ _ _ P3) E1) as E2. rewrite app_nil_r in E2.
  assert (user_loc w6 (mo_OwnerAddress o) l) as Hl6
    by (eapply effect_loc; [exact E1|exact (pays_loc _ _ _ _ _ P12 Hl)]).
  step H as w7 addr H7. apply with_err_ok, (user_address_spec _ _ _ (mo_OwnerAddress o)) in H7; [|by eapply effect_ok|done].
  step H as w8 [] H8. apply market_receipt_spec in H8; [|apply H7].
  step H as w9 [] H9. apply Receipts_Add_spec in H9; [|apply H8].
  pose proof (quiet_trans _ _ _ H7 (quiet_trans _ _ _ H8 H9)) as Hq9.
  pose proof (effect_then_quiet _ _ _ _ _ E2 Hq9) as E3.
  step H as w10 [] H10. apply or_refuse_ok in H10.
  apply (set_order_spec (order_keys o)) in H10 as (E4 & Hat' & Hu & Hk);
    [|by eapply effect_ok|apply (ef_solvent _ _ _ _ E3)| |by apply closed_not_empty|left; by rewrite Eid].
  2: { apply (ws_kapp_loc _ _ _ _ Hq9), (effect_kapp_loc _ _ _ _ _ _ E1), (pays_kapp_loc _ _ _ _ _ P12).
       by apply (ws_kapp_loc _ _ _ _ Hq2). }
  step H as w11 [] H11. apply with_err_ok, UpdateUser_enabled in H11; [|by eapply effect_ok]. subst w11.
  apply with_err_ok, UpdateKapp_enabled in H; [|by eapply effect_ok]. subst w'.
  pose proof (effect_trans _ _ _ _ _ _ E3 E4) as E5. rewrite app_nil_r in E5.
  exists (deposit_legs o ++ cancel_refund o). split; try done.
  - intros a. rewrite legs_net_app, cancel_refund_net, <- legs_net_app by done. by apply return_legs_net.
  - unfold cancel_refund. destruct (_ && _); [done|]. rewrite app_nil_r. intros x Hx. by apply elem_of_app; left.
  - by rewrite <- Eid.
  - eapply (released_frame _ w4 w6); [apply Ht|exact Hho|..].
    + intros c i. apply kapp_item_same, (pays_kapp _ _ _ _ P3).
    + intros c i. rewrite Hk. apply kapp_item_same, quiet_kapp, Hq9.
    + intros j c i Hi. by apply (py_items _ _ _ P3).
    + intros j c i _. unfold item_data. by rewrite Hu, (quiet_user _ _ _ Hq9).
Qed.

(** ** Who a royalty is paid to *)

(** [range] visits every key of a map once, in some order. *)
Hypothesis Hrange : forall m, range m ≡ₚ (map_to_list m).*1.

Lemma royalty_keys (roy : RoyaltiesData) :
  OrderedKeys range (SplitRoyalties roy) (env_fc env FixAuditChangesV6) ≡ₚ (map_to_list (SplitRoyalties roy)).*1.
Proof.
  unfold OrderedKeys. destruct (env_fc env FixAuditChangesV6); [rewrite merge_sort_Permutation|]; apply Hrange.
Qed.

Lemma royalty_received roy percentOf total sh k :
  0 <= total -> royalty_shares env oob range roy percentOf total sh ->
  received sh k = received (division roy percentOf total) k.
Proof.
  intros Ht. unfold royalty_shares. destruct (Z.ltb_spec 0 total) as [Hpos|Hz].
  - intros (s & left & (-> & -> & Hl)%shares_parts & ->); [|done].
    rewrite received_app, received_share, <- received_app by done. apply division_order, royalty_keys.
  - intros ->. assert (total = 0) as -> by lia. by rewrite division_zero.
Qed.

Lemma royalty_division_allowed roy percentOf total sh currency buyer :
  0 <= total -> royalty_shares env oob range roy percentOf total sh ->
  shares_allowed currency buyer sh -> shares_allowed currency buyer (division roy percentOf total).
Proof.
  intros Ht. unfold royalty_shares, shares_allowed, division.
  set (all := split_parts roy percentOf total (map_to_list (SplitRoyalties roy)).*1).
  destruct (Z.ltb_spec 0 total) as [Hpos|Hz].
  - intros (s & left & (-> & -> & Hl)%shares_parts & ->) [H1 H2]%Forall_app; [|done].
    assert (split_parts roy percentOf total (OrderedKeys range (SplitRoyalties roy) (env_fc env FixAuditChangesV6)) ≡ₚ all)
      as Hp by (unfold all, split_parts; by rewrite royalty_keys).
    set (parts := split_parts _ _ _ (OrderedKeys _ _ _)) in *. unfold paid_total in *.
    assert (zsum (snd <$> parts) = zsum (snd <$> all)) as Ez by (by rewrite Hp).
    rewrite Ez in H2. rewrite Hp in H1.
    apply Forall_app. split; [done|]. apply Forall_singleton. intros Hr. cbn in Hr.
    unfold share in H2. rewrite (proj2 (Z.ltb_lt _ _)) in H2 by done. inversion_clear H2 as [|? ? Hx _]. exact (Hx Hr).
  - intros -> _. assert (total = 0) as -> by lia.
    assert (Forall (fun p => p.2 = 0) all) as Hall.
    { apply Forall_forall. intros p (key & _ & Hd)%list_elem_of_omap. destruct (DecodeString key); [|done].
      by injection Hd as <-. }
    apply Forall_app. split; [eapply Forall_impl; [exact Hall|]; intros p ->; lia|].
    apply Forall_singleton. cbn. assert (paid_total all = 0) as ->; [|lia].
    unfold paid_total. clear -Hall. induction Hall as [|p l Hp _ IH]; [done|]. rewrite fmap_cons, zsum_cons. lia.
Qed.

(** ** Properties *)

(** C5: with smart contracts, the FPR fork and the market overflow fix active, a
    settlement pays out exactly what the escrow holds for the order and hands the
    item over.  Of the bid the referral address (the one recorded at listing, or
    the marketplace's) gets the referral percentage, nothing from V4 on if there
    is no such address; the asset's royalty gets the royalty percentage (the one
    recorded at listing, or the asset's), the seller the rest.  The royalty, and
    the deposit as the fixed royalty in KLV, are divided so that every split
    gets its percentage, rounded down, and the royalty address what is left.
    No other balance changes and none overflows; the buyer receives the very
    bytes of the item, which leaves the escrow; other orders are not touched.
    From V6 on neither asset is paused, the item may go from seller to buyer, and
    every amount paid in the currency may go from the buyer to its receiver. *)
Theorem settlement_exact w w' buyer bidderAcc kapp o cur :
  world_ok w -> solvent w -> assets_typed w -> order_typed o -> mo_IsClaimed o = true ->
  kapp_loc w MarketKAppAddress kapp -> user_loc w buyer bidderAcc ->
  default KLVIdentifier cur = mo_CurrencyID o -> bytes_of cur = mo_CurrencyID o ->
  executeBuyMarket env oob range bidderAcc kapp o cur w = (w', Ok tt) ->
  exists asset, kapp_record w KDAKAppAddress (mo_CollectionID o) = Some asset /\
    let am := due env w o (Royalties asset) (mo_CurrentBid o) in
    let fixed := division (Royalties asset) PercentMarketFixed (mo_RoyaltiesFixedDeposit o) in
    let royalty := division (Royalties asset) PercentMarketPercentage (royalties am) in
    0 <= referral am /\ 0 <= royalties am /\ 0 <= marketOwner am /\
    (forall k a, plain a -> user_balance w' k (Some a) = user_balance w k (Some a)
       + legs_to (sale_legs o am fixed royalty) k a) /\
    (forall a, legs_net (sale_legs o am fixed royalty) a = holds o a) /\
    solvent w' /\ released w w' buyer o /\ order_at w' (mo_ID o) = Some o /\
    (forall id, id <> mo_ID o -> order_at w' id = order_at w id) /\
    (env_fc env FixAuditChangesV6 = true ->
       IsPaused (Attributes asset) = false /\ IsTransferAllowed asset (mo_OwnerAddress o) buyer = true /\
       exists currency, kapp_record w KDAKAppAddress (mo_CurrencyID o) = Some currency /\
         IsPaused (Attributes currency) = false /\
         shares_allowed currency buyer
           (share (referralAddress am) (referral am) ++ royalty ++ share (mo_OwnerAddress o) (marketOwner am))).
Proof.
  intros Hok Hs Hat Ht Hcl Hlk Hl Hc Hc' H.
  destruct (executeBuyMarket_spec _ _ _ _ _ _ _ Hok Hs Hat Ht Hcl Hlk Hl Hc Hc' H)
    as (l & [(asset & am & fsh & rsh & Hr & Hd & Hterms & Hv6 & Hf1 & Hf2 & T1 & T2 & ->) E Ho Hrel]).
  exists asset. split; [done|]. intros am' fixed royalty. fold am' in Hterms.
  pose proof (same_terms_share _ _ Hterms) as Hsh. pose proof Hterms as [E1 _ E2 E3]. rewrite E2 in Hf2, T2.
  destruct Hd as [D1 D2 D3 D4]. rewrite E1, E2, E3 in *. destruct (ot_deposit _ Ht) as [Hdep _].
  splits; try done.
  - intros k a Ha. rewrite (ef_balance _ _ _ _ E) by done. f_equal. unfold sale_legs.
    rewrite !legs_to_app, !legs_to_of, E1, Hsh, E3.
    by rewrite (royalty_received _ _ _ _ k Hdep Hf1), (royalty_received _ _ _ _ k D2 Hf2).
  - intros a. eapply sale_legs_net; [by split|apply division_total..|done].
  - apply (ef_solvent _ _ _ _ E).
  - intros id Hid. by apply (order_kept _ _ _ _ _ E).
  - intros Hf. destruct (Hv6 Hf) as (P1 & P2 & c & Hrc & P3 & A1 & A2 & A3).
    split; [done|]. split; [done|]. exists c. split; [done|]. split; [done|]. rewrite E2 in A3.
    rewrite E1, Hsh in A1. rewrite E3 in A2.
    apply Forall_app. split; [done|]. apply Forall_app. split; [|done].
    eapply royalty_division_allowed; [done|exact Hf2|by apply A3].
Qed.

(** The terms of an order are fixed when it is listed.  Once royalty and
    referral are snapshotted, as every listing since the audit forks is, the
    amounts and the referral receiver of a sale at a given bid are the same in
    every state and for every later royalty record: neither an update of the
    asset's royalties nor a reconfigured marketplace changes them, in success
    or in failure. *)
Theorem sale_terms_fixed_at_listing w1 w2 o roy1 roy2 bid :
  mo_RoyaltySnapshotted o = true -> mo_ReferralSnapshotted o = true ->
  (computeSettlementAmounts env oob o roy1 bid w1).2 = (computeSettlementAmounts env oob o roy2 bid w2).2.
Proof.
  intros H1 H2. unfold computeSettlementAmounts, referralBeneficiary. rewrite H1, H2.
  unfold or_code, with_err, lift, mbind, M_bind, mret, M_ret.
  destruct (ComputePercentageI64 oob bid (mo_ReferralPercentage o) _) as [r|e]; [|done]. cbn.
  destruct (0 <? r); cbn; (destruct (ComputePercentageI64 oob bid (mo_RoyaltyPercentage o) _) as [v|e]; [|done]); cbn;
    unfold refuse_if; by destruct (_ && (_ <? 0)).
Qed.
End handlers.
