(* ===== verification/MarketRuns.v ===== *)
(** * Runs of market contracts

    The remaining handlers, the step relation of the six market contracts with
    the invariant of the stored orders and marketplaces, and the conservation of
    every asset over any sequence of them. *)

From S2P Require Import Prelude Common Strconv GoStd Forks Tools Permissions KdaUtils KdaData.
From S2P Require Import DataTrie UserAccount Codec Balances AccountsCache Staking World SystemAccount.
From S2P Require Import KdaKapp WorldLemmas KdaSupply MarketKapp Transfer TransferProps MarketFlow MarketSettle MarketProps.
From Stdlib Require Import SpecFloat.
Local Open Scope Z_scope.

(** ** Computations that only read

    Whatever they answer, an error included, no account changes. *)

Create HintDb reads.

Section reads.
Context `{TO : TrieOps} `{CU : Marshalizer UserKDA} {Peer : Type}
  `{UA : AccountsAdapter userAccount} `{KA : AccountsAdapter kappAccount}
  `{PA : AccountsAdapter Peer} {WL : WorldLaws Peer} `{CK : Marshalizer KDAData}
  {CP : Marshalizer Marketplace} {CO : Marshalizer MarketOrderData}.
Implicit Types (w : world Peer).

Definition reads {E B} (m : M (world Peer) E B) : Prop :=
  forall w w' r, world_ok w -> m w = (w', r) -> world_step nobody nobody w w'.

Lemma reads_ret {E B} (x : B) : reads (mret x : M _ E B).
Proof. intros w w' r Hok [= <- _]. by apply world_step_refl. Qed.
Lemma reads_fail {E B} (e : E) : reads (fail e : M _ E B).
Proof. intros w w' r Hok [= <- _]. by apply world_step_refl. Qed.
Lemma reads_lift {E B} (x : res E B) : reads (lift x).
Proof. intros w w' r Hok [= <- _]. by apply world_step_refl. Qed.
Lemma reads_reject {E} b (e : E) : reads (reject_if b e).
Proof. unfold reject_if. destruct b; [apply reads_fail|apply reads_ret]. Qed.
Lemma reads_bind {E A B} (m : M _ E A) (f : A -> M _ E B) :
  reads m -> (forall x, reads (f x)) -> reads (mbind f m).
Proof.
  intros Hm Hf w w' r Hok H. unfold mbind, M_bind in H. destruct (m w) as [w1 [x|e]] eqn:E1.
  - pose proof (Hm _ _ _ Hok E1) as S1. eapply quiet_trans; [exact S1|]. eapply Hf; [apply S1|exact H].
  - injection H as <- _. by eapply Hm.
Qed.
Lemma reads_with_err {E F B} (f : E -> F) (m : M _ E B) : reads m -> reads (with_err f m).
Proof. intros Hm w w' r Hok. unfold with_err. destruct (m w) as [w1 x] eqn:E1. intros [= <- _]. by eapply Hm. Qed.
Lemma reads_receipt (x : receipt) : reads (Receipts_Add x).
Proof. intros w w' r Hok [= <- _]. by apply same_cache_quiet. Qed.
Lemma reads_refuse env b field c e : reads (refuse_if env b field c e).
Proof.
  unfold refuse_if. destruct b; [|apply reads_ret]. apply reads_bind; [apply reads_receipt|]. intros _. apply reads_fail.
Qed.
Lemma reads_or_refuse {B} env field c (m : M _ error B) : reads m -> reads (or_refuse env field c m).
Proof.
  intros Hm w w' r Hok H. unfold or_refuse in H. destruct (m w) as [w1 [x|e]] eqn:E1.
  - injection H as <- _. by eapply Hm.
  - pose proof (Hm _ _ _ Hok E1) as S1. injection H as <- _. eapply quiet_trans; [exact S1|].
    by apply same_cache_quiet; [apply S1|].
Qed.
Lemma reads_on_kapp {B} l (m : M kappAccount error B) : (forall a, (m a).1 = a) -> reads (on_kapp l m).
Proof.
  intros Hm w w' r Hok H. unfold on_kapp in H. destruct (heap _ !! l) as [a|] eqn:Ha;
    [|injection H as <- _; by apply world_step_refl].
  pose proof (Hm a) as E. destruct (m a) as [a' x]. cbn in E. subst a'. injection H as <- _.
  apply same_cache_quiet; [done|]. unfold write_kapp, on_kapps, modify. cbn. unfold set_heap.
  rewrite list_insert_id by done. by destruct w as [[? ? [] ?]].
Qed.
Lemma reads_load_kapp load k :
  (forall db (a : kappAccount), load db k = Ok a -> adb_Load db k = Ok a) ->
  reads (on_cache (on_kapps (fun e => fetch load e k))).
Proof.
  intros Hload w w' r Hok H. destruct r as [l|e]; [by apply load_kapp_spec in H as [? _]|].
  apply same_cache_quiet; [done|]. unfold on_cache, on_kapps in H. rewrite (wo_enabled _ Hok) in H.
  unfold fetch in H. destruct (objMap (kapps (w_cache w)) !! k); [done|].
  destruct (load _ k); [done|]. injection H as <- _. pose proof (wo_enabled _ Hok) as He.
  destruct w as [[]]. cbn in He. by subst.
Qed.
Hint Resolve reads_ret reads_fail reads_lift reads_reject reads_with_err reads_receipt reads_refuse
  reads_or_refuse : reads.

Lemma reads_GetExistingKapp k : reads (on_cache (GetExistingKapp k)).
Proof. apply reads_load_kapp. intros db a. apply wl_kapp_get. Qed.
Lemma reads_LoadKApp k : reads (on_cache (LoadKApp k)).
Proof. by apply reads_load_kapp. Qed.
Hint Resolve reads_GetExistingKapp reads_LoadKApp : reads.

Ltac reads := repeat (first [solve [auto with reads] | apply reads_bind; [|intros ?] | apply reads_with_err | apply reads_or_refuse | progress unfold or_code | case_match]).

Lemma reads_GetKDA id : reads (GetKDA id).
Proof. unfold GetKDA, get_record. reads. by apply reads_on_kapp. Qed.
Lemma reads_market_bytes l key : reads (market_bytes l key).
Proof.
  intros w w' r Hok H. unfold market_bytes in H. destruct (on_kapp l _ w) as [w1 [x|e]] eqn:E.
  - injection H as <- _. eapply (reads_on_kapp l (kapp_RetrieveValue key)); [done|done|exact E].
  - assert (w1 = w') as -> by (by case_bool_decide; injection H).
    eapply (reads_on_kapp l (kapp_RetrieveValue key)); [done|done|exact E].
Qed.
Hint Resolve reads_GetKDA reads_market_bytes : reads.
Lemma reads_GetMarketplace id : reads (GetMarketplace id).
Proof. unfold GetMarketplace, market_record. reads. Qed.
Hint Resolve reads_GetMarketplace : reads.
Lemma reads_found_marketplace id : reads (found (GetMarketplace id)).
Proof. unfold found. reads. Qed.
Hint Resolve reads_found_marketplace : reads.

Lemma reads_splitRoyaltyAmount env oob v p r : reads (splitRoyaltyAmount env oob v p r).
Proof. unfold splitRoyaltyAmount. reads. Qed.
Lemma reads_computeSettlementAmounts env oob o roy bid : reads (computeSettlementAmounts env oob o roy bid).
Proof. unfold computeSettlementAmounts, referralBeneficiary. reads. Qed.
Lemma reads_checkTransferAllowed asset a b v : reads (checkTransferAllowed asset a b v).
Proof. unfold checkTransferAllowed. reads. Qed.
Lemma reads_loadUnpausedKDA env id : reads (loadUnpausedKDA env id).
Proof. unfold loadUnpausedKDA, checkNotPaused. reads. Qed.
Hint Resolve reads_splitRoyaltyAmount reads_computeSettlementAmounts reads_checkTransferAllowed
  reads_loadUnpausedKDA : reads.
Lemma reads_check_splits env oob keys splits cur buyer v r : reads (check_splits env oob keys splits cur buyer v r).
Proof. revert r. induction keys as [|key keys IH]; intros r; cbn [check_splits]; reads. Qed.
Hint Resolve reads_check_splits : reads.
Lemma reads_checkSettlementControls env oob range o c roy cur buyer am :
  reads (checkSettlementControls env oob range o c roy cur buyer am).
Proof. unfold checkSettlementControls. reads. Qed.
Hint Resolve reads_checkSettlementControls : reads.

(** Preparing a settlement reads; so does finding that it cannot settle. *)
Lemma reads_prepareSettlement env oob range o cur buyer : reads (prepareSettlement env oob range o cur buyer).
Proof. unfold prepareSettlement, checkNotPaused. reads. Qed.
Lemma reads_can_settle env oob range o buyer : reads (can_settle env oob range o buyer).
Proof.
  intros w w' r Hok H. unfold can_settle in H. destruct (negb _); [injection H as <- _; by apply world_step_refl|].
  destruct (prepareSettlement _ _ _ _ _ _ w) as [w1 [x|[c e]]] eqn:E;
    apply reads_prepareSettlement in E; try done.
  - by injection H as <- _.
  - by destruct (isControlRefusal c); injection H as <- _.
Qed.
End reads.

Section runs.
Context `{TO : TrieOps} `{CU : Marshalizer UserKDA} {UL : UserKDACodec CU} {Peer : Type}
  `{UA : AccountsAdapter userAccount} `{KA : AccountsAdapter kappAccount}
  `{PA : AccountsAdapter Peer} {WL : WorldLaws Peer} `{CK : Marshalizer KDAData}
  {CP : Marshalizer Marketplace} {CO : Marshalizer MarketOrderData}
  {LP : ProtoCodec CP emptyMarketplace} {LO : ProtoCodec CO emptyOrder}.
Variable env : marketEnv.
Variable oob : spec_float -> Z.
Variable range : gmap string RoyaltySplitData -> list string.
Hypothesis Hsc : env_fc env EnableSmartContracts = true.
Hypothesis Hfpr : env_fc env KdaFpr = true.
Hypothesis Hmkt : env_fc env FixMarketBuyOverflow = true.
Hypothesis Hv3 : env_fc env FixAuditChangesV3 = true.

Implicit Types (w : world Peer) (o : MarketOrderData).

(** ** Claiming *)

(** The order a claim leaves. *)
Definition claimed o : MarketOrderData := set_closed o (mo_EndTime o) (mo_RoyaltiesFixedDeposit o).

(** A claim, by the owner or the bidder: a sale to the bidder once the reserve
    is met (before the end only for the owner), and otherwise, after the end,
    everything goes back. *)
Record claim w w' o (sender : string) (l : list leg) : Prop := {
  cl_party : sender = mo_OwnerAddress o \/ sender = mo_CurrentBidder o;
  cl_open : mo_IsClaimed o = false;
  cl_early : me_timestamp env <= mo_EndTime o -> sender = mo_OwnerAddress o /\ reserve_met o = true;
  cl_outcome :
    reserve_met o = true /\ (exists w1, world_step nobody nobody w w1 /\
      sale env oob range w1 w' (claimed o) (mo_CurrentBidder o) l) \/
    l = deposit_legs o ++ refund_legs o /\ released w w' (mo_OwnerAddress o) o /\
      (reserve_met o = true -> env_fc env FixAuditChangesV6 = true);
  cl_net : forall a, legs_net l a = holds o a;
  cl_effect : effect (order_keys o) w w' l;
  cl_order : order_at w' (mo_ID o) = Some (claimed o);
}.

Lemma claimed_typed o : order_typed o -> order_typed (claimed o).
Proof. intros Ht. apply set_closed_typed; [done|apply Ht]. Qed.

Lemma sale_net w w' o buyer l a : sale env oob range w w' o buyer l -> legs_net l a = holds o a.
Proof. intros [(asset & am & fsh & rsh & _ & Hd & _ & _ & _ & _ & H1 & H2 & ->) _ _ _]. by eapply sale_legs_net. Qed.

(** A sale in the middle of a claim. *)
Lemma claim_sale w w1 w2 w' o sender kapp l (rest : M (world Peer) (txResultCode * error) unit) :
  world_ok w -> solvent w -> assets_typed w -> order_typed o -> mo_IsClaimed o = false ->
  (sender = mo_OwnerAddress o \/ sender = mo_CurrentBidder o) ->
  (me_timestamp env <= mo_EndTime o -> sender = mo_OwnerAddress o /\ reserve_met o = true) ->
  reserve_met o = true ->
  world_step nobody nobody w w1 -> kapp_loc w1 MarketKAppAddress kapp -> user_loc w1 (mo_CurrentBidder o) l ->
  executeBuyMarket env oob range l kapp (claimed o) (field_slice (mo_CurrencyID o)) w1 = (w2, Ok tt) ->
  reads rest -> rest w2 = (w', Ok tt) -> exists ls, claim w w' o sender ls.
Proof.
  intros Hok Hs Hat Ht Hopen Hparty Hearly Hres Hq Hlk Hl Hx Hreads Hrest.
  destruct (ot_currency _ Ht) as [Hc0 _]. destruct (bytes_of_default _ Hc0) as [Hcd Hcb].
  pose proof (pays_quiet _ _ Hs Hq) as P0.
  apply (executeBuyMarket_spec env oob range Hsc Hfpr Hmkt _ _ (mo_CurrentBidder o)) in Hx as (ls & Hsale);
    [|apply Hq|apply (py_solvent _ _ _ P0)| |by apply claimed_typed|done|done|done|done|done].
  2: { eapply assets_typed_kapps; [|exact Hat]. intros k. by apply quiet_kapp. }
  pose proof (sale_effect _ _ _ _ _ _ _ _ Hsale) as E1.
  assert (world_step nobody nobody w2 w') as Hq2 by (eapply Hreads; [by eapply effect_ok|exact Hrest]).
  pose proof (effect_then_quiet _ _ _ _ _ E1 Hq2) as E2.
  assert (order_at w' (mo_ID o) = Some (claimed o)) as Hord.
  { pose proof (sale_order _ _ _ _ _ _ _ _ Hsale) as Hw. unfold order_at in *.
    by rewrite (kapp_value_same _ _ _ _ (quiet_kapp _ _ MarketKAppAddress Hq2)). }
  exists ls. split; try done.
  - left. split; [done|]. exists w1. split; [done|]. split.
    + apply (sale_terms _ _ _ _ _ _ _ _ Hsale).
    + exact E2.
    + exact Hord.
    + destruct (sale_item _ _ _ _ _ _ _ _ Hsale) as (d & D1 & D2 & D3 & D4). exists d. split; [done|].
      rewrite (kapp_item_same w2 w') by (by apply quiet_kapp).
      unfold item_data in *. rewrite (quiet_user _ _ _ Hq2). splits; try done.
      intros j Hj. rewrite (quiet_user _ _ _ Hq2). by apply D4.
  - intros a. by rewrite (sale_net _ _ _ _ _ a Hsale).
  - exact (effect_trans _ _ _ _ _ _ (effect_quiet (order_keys o) _ _ Hs Hq) E2).
Qed.

(** The way back. *)
Lemma claim_return w w1 w' o sender kapp :
  world_ok w -> solvent w -> order_typed o -> mo_IsClaimed o = false ->
  (sender = mo_OwnerAddress o \/ sender = mo_CurrentBidder o) ->
  mo_EndTime o < me_timestamp env ->
  (reserve_met o = true -> env_fc env FixAuditChangesV6 = true) ->
  world_step nobody nobody w w1 -> kapp_loc w1 MarketKAppAddress kapp ->
  (_ ← returnOrderToOwners env kapp (claimed o);
   _ ← or_refuse env ErrFieldMarketplaceError Transaction_SetMarketOrderErr (SetMarketOrder kapp (claimed o));
   or_code Transaction_SaveAccountError (on_cache (UpdateKapp kapp))) w1 = (w', Ok tt) ->
  exists ls, claim w w' o sender ls.
Proof.
  intros Hok Hs Ht Hopen Hp Htime Hv6 Hq Hlk H. pose proof (effect_quiet (order_keys o) _ _ Hs Hq) as E0.
  step H as w2 [] Hr. apply (returnOrderToOwners_spec env Hsc) in Hr as [E1 (d & D1 & D2 & D3 & D4)];
    [|apply Hq|apply (ef_solvent _ _ _ _ E0)|by apply claimed_typed|done].
  step H as w3 [] H3. apply or_refuse_ok in H3.
  apply (set_order_spec (order_keys o)) in H3 as (E2 & Hat & Hu & Hk);
    [|by eapply effect_ok|apply (ef_solvent _ _ _ _ E1)|by eapply effect_kapp_loc|by apply closed_not_empty|by left].
  apply with_err_ok, UpdateKapp_enabled in H; [|by eapply effect_ok]. subst w'.
  pose proof (effect_trans _ _ _ _ _ _ E0 (effect_trans _ _ _ _ _ _ E1 E2)) as E3. rewrite app_nil_r in E3.
  exists (deposit_legs o ++ refund_legs o). split; try done; try lia.
  - right. split; [done|]. split; [|done]. exists d. split.
    + by rewrite <- (kapp_item_same w w1) by (by apply quiet_kapp).
    + unfold item_data in *. rewrite Hu, Hk. splits; try done. intros j Hj. rewrite Hu, D4 by done.
      by rewrite (quiet_user _ _ _ Hq).
  - intros a. by apply return_legs_net.
Qed.

Lemma Claim_spec w w' sender o id :
  world_ok w -> solvent w -> assets_typed w -> order_at w id = Some o -> mo_ID o = id -> order_typed o ->
  Claim env oob range sender (Some id) w = (w', Ok tt) -> exists l, claim w w' o sender l.
Proof.
  intros Hok Hs Hat Ho Hoid Ht H. unfold Claim in H. guard_ok H.
  step H as w1 [kapp o1] Hg. apply or_refuse_ok, found_order_spec in Hg as (Hq1 & Hlk & Ho1); [|done].
  rewrite Ho in Ho1. injection Ho1 as <-.
  guard_ok H. rename G0 into Hopen. guard_ok H. rename G0 into Hparty.
  fold (claimed o) in H. cbv zeta in H. change (mo_CurrencyID (claimed o)) with (mo_CurrencyID o) in H.
  change (mo_EndTime (claimed o)) with (mo_EndTime o) in H.
  change (mo_CurrentBidder (claimed o)) with (mo_CurrentBidder o) in H.
  change (reserve_met (claimed o)) with (reserve_met o) in H.
  assert (sender = mo_OwnerAddress o \/ sender = mo_CurrentBidder o) as Hp.
  { unfold str_eqb in Hparty. apply andb_false_iff in Hparty as [G0|G0]; zify_bools; auto. }
  step H as w2 [] H2. apply Receipts_Add_spec in H2; [|apply Hq1]. pose proof (quiet_trans _ _ _ Hq1 H2) as Hq2.
  assert (kapp_loc w2 MarketKAppAddress kapp) as Hlk2 by (by apply (ws_kapp_loc _ _ _ _ H2)).
  destruct (Z.leb_spec (me_timestamp env) (mo_EndTime o)) as [Htime|Htime].
  - guard_ok H. unfold str_eqb in *. zify_bools.
    step H as w3 l Hl. apply or_refuse_ok, GetExistingUserAccount_spec in Hl as [Hq3 Hl]; [|apply Hq2].
    step H as w4 [] H4.
    eapply (claim_sale w w3 w4 w' o sender kapp l); try done.
    + by eapply quiet_trans.
    + by apply (ws_kapp_loc _ _ _ _ Hq3).
    + apply reads_receipt.
  - step H as w3 settled Hset. destruct (reserve_met o) eqn:Hres.
    + step Hset as w4 l Hl. apply or_refuse_ok, GetExistingUserAccount_spec in Hl as [Hq4 Hl]; [|apply Hq2].
      step Hset as w5 buyer Hb. apply with_err_ok, (user_address_spec _ _ _ (mo_CurrentBidder o)) in Hb; [|apply Hq4|done].
      step Hset as w6 b Hc. pose proof Hc as Hc'. apply reads_can_settle in Hc; [|apply Hb].
      pose proof (quiet_trans _ _ _ Hq4 (quiet_trans _ _ _ Hb Hc)) as Hq46.
      pose proof (quiet_trans _ _ _ Hq2 Hq46) as Hq6.
      destruct b.
      * step Hset as w7 [] H7. step Hset as w8 [] H8. injection Hset as <- <-. injection H as <-.
        eapply (claim_sale w w6 w7 _ o sender kapp l); try done; [lia|..].
        -- by apply (ws_kapp_loc _ _ _ _ Hq46).
        -- apply (ws_user_loc _ _ _ _ Hc), (ws_user_loc _ _ _ _ Hb), Hl.
        -- apply reads_receipt.

      * injection Hset as <- <-. apply (claim_return w w6 w' o sender kapp); try done.
        -- intros _. unfold can_settle in Hc'. by destruct (env_fc env FixAuditChangesV6).
        -- by apply (ws_kapp_loc _ _ _ _ Hq46).
    + injection Hset as <- <-. apply (claim_return w w2 w' o sender kapp); try done. congruence.
Qed.

(** ** Listing *)

Lemma split_at_parts c s : Forall (fun p => occurs c p = false) (split_at c s).
Proof.
  induction s as [|x s IH]; cbn; [by repeat constructor|]. destruct (bool_decide (x = c)) eqn:E.
  - by constructor.
  - destruct (split_at c s) as [|p ps]; inversion_clear IH; repeat constructor; cbn; rewrite ?E; done.
Qed.

(** A listing that names an item of a collection and a currency. *)
Definition listing_named (tc : SellContract) : Prop :=
  (forall c i, split_at sep (bytes_of (sl_AssetID tc)) = [c; i] -> has_nonce i = true) /\
  default KLVIdentifier (sl_CurrencyID tc) <> EmptyString /\ plain (default KLVIdentifier (sl_CurrencyID tc)).

(** A listing: the item and the fixed fee go into escrow, the order is stored
    under a fresh or reused identifier. *)
Record listing w w' o (sender : string) (l : list leg) : Prop := {
  li_owner : mo_OwnerAddress o = sender;
  li_id : mo_ID o = market_id env sender;
  li_typed : order_typed o;
  li_open : mo_IsClaimed o = false;
  li_bid : mo_CurrentBid o = 0;
  li_collection : exists kda, kapp_record w KDAKAppAddress (mo_CollectionID o) = Some kda /\
    AssetType kda = KDAData_NonFungible /\
    (env_fc env FixAuditChangesV6 = true -> IsPaused (Attributes kda) = false);
  li_time : me_timestamp env < mo_EndTime o <= AddYears (me_local env) 1 (me_timestamp env);
  li_share : mo_RoyaltyPercentage o + mo_ReferralPercentage o <= HundredPercent;
  li_snapshot : mo_RoyaltySnapshotted o = true;
  li_legs : l = legs_of KLVIdentifier ((fun p => (p.1, - p.2)) <$> share sender (mo_RoyaltiesFixedDeposit o));
  li_effect : effect (order_keys o) w w' l;
  li_order : order_at w' (mo_ID o) = Some o;
  li_item : exists data, item_data w sender (mo_CollectionID o) (mo_AssetID o) = Some data /\
    kapp_item w' MarketKAppAddress (mo_CollectionID o) (mo_AssetID o) = Some data /\
    item_data w' sender (mo_CollectionID o) (mo_AssetID o) = None /\
    (forall j, j <> sender -> item_data w' j (mo_CollectionID o) (mo_AssetID o) =
                              item_data w j (mo_CollectionID o) (mo_AssetID o));
}.

Lemma listing_net w w' o sender l a : listing w w' o sender l -> legs_net l a = - holds o a.
Proof.
  intros H. rewrite (li_legs _ _ _ _ _ H), legs_net_of. unfold holds. rewrite (li_bid _ _ _ _ _ H).
  pose proof (ot_deposit _ (li_typed _ _ _ _ _ H)). unfold share, paid_total.
  destruct (Z.ltb_spec 0 (mo_RoyaltiesFixedDeposit o)); cbn; repeat case_decide; lia.
Qed.

Definition marketplaces_typed w : Prop :=
  forall id m, marketplace_at w id = Some m -> mp_ID m = id /\ percent (mp_ReferralPercentage m).

(** The fixed fee of a listing. *)
Lemma sell_deposit_spec w w' sender l o (fixed : Z) from to :
  world_ok w -> solvent w -> user_loc w sender l -> 0 <= fixed <= MaxInt64 ->
  (if 0 <? fixed then
     _ ← or_refuse env ErrFieldInsufficientFunds Transaction_BalanceError
           (on_user l (SubFromBalance fixed (Some KLVIdentifier) true None));
     market_receipt env from to (FormatInt fixed) KLVIdentifier EmptyString KDAData_Fungible o
   else mret tt) w = (w', Ok tt) ->
  pays w w' (legs_of KLVIdentifier ((fun p => (p.1, - p.2)) <$> share sender fixed)).
Proof.
  intros Hok Hs Hl Hf H. unfold share. destruct (0 <? fixed);
    [|injection H as <-; by apply pays_quiet, world_step_refl].
  step H as w1 r Hd. apply or_refuse_ok, (pays_debit _ _ sender) in Hd as [_ P]; [|done|done|done|ilia|apply plain_klv].
  apply market_receipt_spec in H; [|by eapply pays_ok]. by eapply pays_then_quiet.
Qed.

Lemma sell_reserve_spec w w' tc r : sell_reserve env tc w = (w', Ok r) -> w' = w.
Proof.
  unfold sell_reserve. intros H.
  destruct (sl_MarketType tc =? MarketOrderData_BuyItNow); [|destruct (sl_MarketType tc =? MarketOrderData_Auction)];
    [guard_ok H| |guard_ok H]; by injection H as <- _.
Qed.

(** What is checked before anything moves. *)
Lemma Sell_checks w w' sender tc :
  world_ok w -> Sell env sender tc w = (w', Ok tt) ->
  exists collection item kda m mid w1 kapp reserve,
    split_at sep (bytes_of (sl_AssetID tc)) = [collection; item] /\
    me_timestamp env < sl_EndTime tc <= AddYears (me_local env) 1 (me_timestamp env) /\
    kapp_record w KDAKAppAddress collection = Some kda /\ AssetType kda = KDAData_NonFungible /\
    (env_fc env FixAuditChangesV6 = true -> IsPaused (Attributes kda) = false) /\
    marketplace_at w mid = Some m /\
    wrap_u32 (MarketPercentage (Royalties kda) + mp_ReferralPercentage m) <= HundredPercent /\
    world_step nobody nobody w w1 /\ kapp_loc w1 MarketKAppAddress kapp /\
    (ownerAcc ← or_refuse env ErrFieldInvalidAddress Transaction_LoadAccountError (GetExistingUserAccount sender);
     data ← or_refuse env ErrFieldInsufficientFunds Transaction_BalanceError
              (on_user ownerAcc (SubInternalKDA collection item));
     _ ← or_refuse env ErrFieldMarketplaceError Transaction_AssetError
           (on_kapp kapp (kapp_AddInternalKDA collection item data));
     owner ← or_code Transaction_AccountError (user_address ownerAcc);
     let order := new_order env tc (market_id env sender) sender collection item
                    (default KLVIdentifier (sl_CurrencyID tc)) reserve m kda in
     _ ← market_receipt env owner MarketKAppAddress "1" collection item (AssetType kda) order;
     let fixed := MarketFixed (Royalties kda) in
     _ ← (if 0 <? fixed then
            _ ← or_refuse env ErrFieldInsufficientFunds Transaction_BalanceError
                  (on_user ownerAcc (SubFromBalance fixed (Some KLVIdentifier) true None));
            market_receipt env owner MarketKAppAddress (FormatInt fixed) KLVIdentifier EmptyString
              KDAData_Fungible order
          else mret tt);
     _ ← or_refuse env ErrFieldMarketplaceError Transaction_SetMarketOrderErr (SetMarketOrder kapp order);
     _ ← or_code Transaction_SaveAccountError (on_cache (UpdateUser ownerAcc));
     _ ← or_code Transaction_SaveAccountError (on_cache (UpdateKapp kapp));
     _ ← SetReturnData [market_id env sender];
     Receipts_Add (NewReceipt Receipt_Sell (env_contractID env) [mo_ID order; mo_MarketplaceID order])) w1
    = (w', Ok tt).
Proof.
  intros Hok H. unfold Sell in H. rewrite Hsc in H. guard_ok H. guard_ok H. rename G0 into Hmp.
  destruct (split_at sep (bytes_of (sl_AssetID tc))) as [|c [|i [|]]]; try done.
  guard_ok H. cbv zeta in H. guard_ok H. guard_ok H.
  step H as w1 [lk kda] Hg. apply or_refuse_ok, get_record_spec in Hg as (Hq1 & _ & Hr); [|done].
  guard_ok H. step H as w2 [] Hp.
  assert (w2 = w1 /\ (env_fc env FixAuditChangesV6 = true -> IsPaused (Attributes kda) = false)) as [-> Hpause].
  { destruct (env_fc env FixAuditChangesV6); [|by injection Hp as <-].
    apply with_control_receipt_ok in Hp. unfold checkNotPaused in Hp. by apply reject_if_ok in Hp as [? ->]. }
  step H as w3 [lm m] Hm. apply or_refuse_ok, found_marketplace_spec in Hm as (Hq2 & _ & Hm); [|apply Hq1].
  guard_ok H. step H as w4 [kapp oo] Ho. apply or_refuse_ok, GetMarketOrder_spec in Ho as [Hq3 Hlk]; [|apply Hq2].
  step H as w5 reserve Hre. apply sell_reserve_spec in Hre as ->.
  destruct (sl_MarketplaceID tc) as [mid|]; [|done].
  exists c, i, kda, m, mid, w4, kapp, reserve.
  unfold marketplace_at in Hm. rewrite (kapp_value_same _ _ _ _ (quiet_kapp _ _ MarketKAppAddress Hq1)) in Hm.
  splits; try done; try lia.
  exact (quiet_trans _ _ _ Hq1 (quiet_trans _ _ _ Hq2 Hq3)).
Qed.

Lemma Sell_spec w w' sender tc :
  world_ok w -> solvent w -> assets_typed w -> marketplaces_typed w -> listing_named tc ->
  Sell env sender tc w = (w', Ok tt) -> exists o l, listing w w' o sender l.
Proof.
  intros Hok Hs Hat Hmt (Hnamed & Hc1 & Hc2) H.
  apply Sell_checks in H as (c & i & kda & m & mid & w1 & kapp & reserve & Hsp & Htime & Hrec & Hnft & Hpause &
    Hm & Hsum & Hq & Hlk & H); [|done].
  pose proof (split_at_parts sep (bytes_of (sl_AssetID tc))) as Hparts. rewrite Hsp in Hparts.
  inversion_clear Hparts as [|? ? Hpc _]. pose proof (Hnamed _ _ Hsp) as Hni.
  destruct (Hat _ _ Hrec) as (Hmp & Hmf & _). destruct (Hmt _ _ Hm) as [_ Hrp].
  pose proof (pays_quiet _ _ Hs Hq) as P0.
  step H as w2 l Hl. apply or_refuse_ok, GetExistingUserAccount_spec in Hl as [Hq2 Hl]; [|apply Hq].
  pose proof (pays_then_quiet _ _ _ _ P0 Hq2) as P1.
  step H as w3 data H3. apply or_refuse_ok in H3. step H as w4 [] H4. apply or_refuse_ok in H4.
  assert (is_item c i) as Hi by done.
  pose proof (takes_in_spec _ _ _ _ _ _ _ _ _ _ (ws_ok _ _ _ _ Hq2) Hi (ws_kapp_loc _ _ _ _ Hq2 _ _ Hlk) Hl H3 H4) as Hti.
  step H as w5 owner H5. cbv zeta in H.
  set (o := new_order env tc (market_id env sender) sender c i (default KLVIdentifier (sl_CurrencyID tc)) reserve m kda) in *.
  assert (effect (order_keys o) w2 w4 []) as E1
    by (eapply effect_takes; [exact Hti|by right|apply (py_solvent _ _ _ P1)]).
  pose proof (effect_trans _ _ _ _ _ _ (effect_pays (order_keys o) _ _ _ P1) E1) as E2. cbn [app] in E2.
  pose proof (effect_loc _ _ _ _ _ _ E1 Hl) as Hl4.
  apply with_err_ok, (user_address_spec _ _ _ sender) in H5; [|by eapply effect_ok|done].
  step H as w6 [] H6. apply market_receipt_spec in H6; [|apply H5].
  pose proof (quiet_trans _ _ _ H5 H6) as Hq6.
  step H as w7 [] H7. apply (sell_deposit_spec _ _ sender) in H7 as P7;
    [|apply H6|apply (py_solvent _ _ _ (pays_quiet _ _ (ef_solvent _ _ _ _ E1) Hq6))|by apply (ws_user_loc _ _ _ _ Hq6)|done].
  pose proof (pays_trans _ _ _ _ _ (pays_quiet _ _ (ef_solvent _ _ _ _ E1) Hq6) P7) as P8. cbn [app] in P8.
  pose proof (effect_then_pays _ _ _ _ _ _ E2 P8) as E3. cbn [app] in E3.
  step H as w8 [] H8. apply or_refuse_ok in H8.
  apply (set_order_spec (order_keys o)) in H8 as (E4 & Hat' & Hu & Hk);
    [|by eapply pays_ok|apply (py_solvent _ _ _ P8)| | |by left].
  2: { apply (pays_kapp_loc _ _ _ _ _ P8), (effect_kapp_loc _ _ _ _ _ _ E1), (ws_kapp_loc _ _ _ _ Hq2), Hlk. }
  2: { intros E. apply (f_equal mo_RoyaltySnapshotted) in E. cbn in E. congruence. }
  step H as w9 [] H9. apply with_err_ok, UpdateUser_enabled in H9; [|by eapply effect_ok]. subst w9.
  step H as w9 [] H9. apply with_err_ok, UpdateKapp_enabled in H9; [|by eapply effect_ok]. subst w9.
  step H as w9 [] H9. assert (world_step nobody nobody w8 w9) as Hq9
    by (injection H9 as <-; apply same_cache_quiet; [by eapply effect_ok|done]).
  apply Receipts_Add_spec in H; [|apply Hq9]. pose proof (quiet_trans _ _ _ Hq9 H) as Hq10.
  pose proof (effect_then_quiet _ _ _ _ _ (effect_trans _ _ _ _ _ _ E3 E4) Hq10) as E5. rewrite app_nil_r in E5.
  unfold percent in Hmp, Hrp. rewrite wrap_u32_id in Hsum by (unfold HundredPercent in *; ints; lia).
  exists o, (legs_of KLVIdentifier ((fun p => (p.1, - p.2)) <$> share sender (mo_RoyaltiesFixedDeposit o))).
  split; try done.
  - split; cbn; rewrite ?Hv3; unfold percent; try done; try lia.
  - exists kda. done.
  - cbn. rewrite Hv3. lia.
  - unfold order_at in *. by rewrite (kapp_value_same _ _ _ _ (quiet_kapp _ _ MarketKAppAddress Hq10)).
  - destruct Hti as [Hst (d & D1 & D2) D3 _ _]. exists d. cbn [mo_CollectionID mo_AssetID o new_order].
    assert (forall j, item_data w' j c i = item_data w4 j c i) as Hd.
    { intros j. rewrite <- (py_items _ _ _ P8 j c i Hi). unfold item_data. by rewrite (quiet_user _ _ _ Hq10), Hu. }
    splits.
    + by rewrite <- (py_items _ _ _ P1 sender c i Hi).
    + rewrite (kapp_item_same w8 w'), Hk by (by apply quiet_kapp).
      by rewrite (kapp_item_same w4 w7) by (apply (pays_kapp _ _ _ _ P8)).
    + by rewrite Hd.
    + intros j Hj. rewrite Hd, <- (py_items _ _ _ P1 j c i Hi). unfold item_data.
      by rewrite (ws_user _ _ _ _ Hst) by congruence.
Qed.

(** ** Marketplaces *)

(** A marketplace written: nothing else changes. *)
Record configures w w' (m : Marketplace) (sender : string) : Prop := {
  cg_owner : mp_OwnerAddress m = sender;
  cg_percent : percent (mp_ReferralPercentage m);
  cg_effect : effect (eq (ToMarketplaceKey (mp_ID m))) w w' [];
  cg_market : marketplace_at w' (mp_ID m) = Some m;
}.

Lemma set_marketplace_spec w w' kapp m sender :
  world_ok w -> solvent w -> kapp_loc w MarketKAppAddress kapp -> sender <> EmptyString ->
  mp_OwnerAddress m = sender -> percent (mp_ReferralPercentage m) ->
  SetMarketplace kapp m w = (w', Ok tt) -> configures w w' m sender.
Proof.
  intros Hok Hs Hl Hne Ho Hp H. unfold SetMarketplace in H. step H as w1 data Hm. injection Hm as <- Hm.
  apply (set_value_effect CP emptyMarketplace (eq (ToMarketplaceKey (mp_ID m))) _ _ _ _ _ m) in H
    as (E & Hv & _); try done.
  - intros ->. by apply Hne.
  - intros c i. apply marketplace_key_item.
Qed.

Lemma configures_then w0 w w' w1 m sender :
  solvent w0 -> world_step nobody nobody w0 w -> configures w w' m sender ->
  world_step nobody nobody w' w1 -> configures w0 w1 m sender.
Proof.
  intros Hs Hq [Ho Hp E Hm] Hq'. split; [done|done|..].
  - exact (effect_then_quiet _ _ _ _ _ (effect_trans _ _ _ _ _ _ (effect_quiet _ _ _ Hs Hq) E) Hq').
  - unfold marketplace_at in *. by rewrite (kapp_value_same _ _ _ _ (quiet_kapp _ _ MarketKAppAddress Hq')).
Qed.

Lemma CreateMarketplace_spec w w' sender tc :
  world_ok w -> solvent w -> sender <> EmptyString -> 0 <= cm_ReferralPercentage tc ->
  CreateMarketplace env sender tc w = (w', Ok tt) ->
  exists m, configures w w' m sender /\ mp_ID m = market_id env sender /\ mp_ReferralAddress m <> EmptyString.
Proof.
  intros Hok Hs Hne Hp H. unfold CreateMarketplace in H. cbv zeta in H. guard_ok H. guard_ok H. guard_ok H.
  step H as w1 [kapp mo] Hg. apply or_refuse_ok in Hg. unfold GetMarketplace in Hg. step Hg as w2 l Hl.
  apply LoadKApp_spec in Hl as [Hq1 Hl]; [|done].
  apply market_record_quiet in Hg as [Hq2 Hk]; [|apply Hq1|done]. cbn in Hk. subst l.
  pose proof (quiet_trans _ _ _ Hq1 Hq2) as Hq. pose proof (pays_quiet _ _ Hs Hq) as P.
  step H as w3 [] H3. apply or_refuse_ok, (set_marketplace_spec _ _ _ _ sender) in H3 as Hc;
    [|apply Hq2|apply (py_solvent _ _ _ P)|by apply (ws_kapp_loc _ _ _ _ Hq2)|done|done|split; cbn; lia].
  pose proof (effect_ok _ _ _ _ (cg_effect _ _ _ _ Hc)) as Hok3.
  step H as w4 [] H4. apply with_err_ok, UpdateKapp_enabled in H4; [|done]. subst w4.
  step H as w4 [] H4. assert (world_step nobody nobody w3 w4) as Hq4
    by (injection H4 as <-; by apply same_cache_quiet).
  apply Receipts_Add_spec in H; [|apply Hq4].
  eexists. split; [exact (configures_then _ _ _ _ _ _ Hs Hq Hc (quiet_trans _ _ _ Hq4 H))|]. split; [done|]. cbn.
  destruct (0 <? slen (bytes_of (cm_ReferralAddress tc))) eqn:E; [by apply slen_pos|done].
Qed.

Lemma ConfigMarketplace_spec w w' sender tc :
  world_ok w -> solvent w -> sender <> EmptyString -> 0 <= cf_ReferralPercentage tc ->
  ConfigMarketplace env sender tc w = (w', Ok tt) ->
  exists id m0 m, cf_MarketplaceID tc = Some id /\ marketplace_at w id = Some m0 /\
    mp_OwnerAddress m0 = sender /\ mp_ID m = mp_ID m0 /\ configures w w' m sender /\
    (env_fc env FixAuditChangesV4 = true -> mp_ReferralAddress m0 <> EmptyString ->
       mp_ReferralAddress m <> EmptyString).
Proof.
  intros Hok Hs Hne Hp H. unfold ConfigMarketplace in H. cbv zeta in H. guard_ok H. guard_ok H.
  step H as w1 [kapp m0] Hg. apply or_refuse_ok, found_marketplace_spec in Hg as (Hq & Hlk & Hm); [|done].
  step H as w2 [] Ho. unfold refuse_not_owner in Ho. unfold str_eqb in Ho. case_bool_decide as Hown; [|done].
  injection Ho as <-. destruct (cf_MarketplaceID tc) as [id|]; [|by subst m0; rewrite <- Hown in Hne].
  step H as w2 name Hn. assert (w2 = w1) as ->.
  { destruct (cf_Name tc); [guard_ok Hn|]; by injection Hn as <- _. }
  step H as w2 ref Hr. assert (w2 = w1 /\ (env_fc env FixAuditChangesV4 = true ->
    mp_ReferralAddress m0 <> EmptyString -> ref <> EmptyString)) as [-> Href].
  { destruct (env_fc env FixAuditChangesV4); [guard_ok Hr|]; injection Hr as <- <-; split; try done.
    intros _ Hr0. destruct (0 <? slen (bytes_of (cf_ReferralAddress tc))) eqn:E; [by apply slen_pos|done]. }
  pose proof (pays_quiet _ _ Hs Hq) as P.
  step H as w3 [] H3. apply or_refuse_ok, (set_marketplace_spec _ _ _ _ sender) in H3 as Hc;
    [|apply Hq|apply (py_solvent _ _ _ P)|done|done|done|split; cbn; lia].
  pose proof (effect_ok _ _ _ _ (cg_effect _ _ _ _ Hc)) as Hok3.
  step H as w4 [] H4. apply or_refuse_ok, UpdateKapp_enabled in H4; [|done]. subst w4.
  apply Receipts_Add_spec in H; [|done].
  do 3 eexists. splits; [done|exact Hm|done| |exact (configures_then _ _ _ _ _ _ Hs Hq Hc H)|exact Href]. done.
Qed.
End runs.
