(* ===== verification/MarketInv.v ===== *)
(** * Any sequence of market contracts

    The six contracts as the steps of a transition system over the worlds in
    which the stored orders are well formed and their items are in escrow. *)

From S2P Require Import Prelude Common Strconv GoStd Forks Tools Permissions KdaUtils KdaData.
From S2P Require Import DataTrie UserAccount Codec Balances AccountsCache Staking World SystemAccount.
From S2P Require Import KdaKapp WorldLemmas KdaSupply MarketKapp Transfer TransferProps MarketFlow MarketSettle MarketProps MarketRuns.
From stdpp Require Import relations.
From Stdlib Require Import SpecFloat.
Local Open Scope Z_scope.

Lemma zsum_Permutation (l l' : list Z) : l ≡ₚ l' -> zsum l = zsum l'.
Proof. induction 1; unfold zsum in *; cbn in *; lia. Qed.

(** A market contract, with its sender. *)
Inductive market_call : Type :=
| CallSell (sender : string) (tc : SellContract)
| CallBuy (sender : string) (tc : BuyContract)
| CallClaim (sender : string) (id : slice)
| CallCancel (sender : string) (id : slice)
| CallCreate (sender : string) (tc : CreateMarketplaceContract)
| CallConfig (sender : string) (tc : ConfigMarketplaceContract).

Definition caller (c : market_call) : string :=
  match c with
  | CallSell s _ | CallBuy s _ | CallClaim s _ | CallCancel s _ | CallCreate s _ | CallConfig s _ => s
  end.

Section market_inv.
Context `{TO : TrieOps} `{CU : Marshalizer UserKDA} {UL : UserKDACodec CU} {Peer : Type}
  `{UA : AccountsAdapter userAccount} `{KA : AccountsAdapter kappAccount}
  `{PA : AccountsAdapter Peer} {WL : WorldLaws Peer} `{CK : Marshalizer KDAData}
  {CP : Marshalizer Marketplace} {CO : Marshalizer MarketOrderData}
  {LP : ProtoCodec CP emptyMarketplace} {LO : ProtoCodec CO emptyOrder}.
Variable oob : spec_float -> Z.
Variable range : gmap string RoyaltySplitData -> list string.

Implicit Types (w : world Peer) (o : MarketOrderData).

Definition run_call (env : marketEnv) (c : market_call) : M (world Peer) (txResultCode * error) unit :=
  match c with
  | CallSell s tc => Sell env s tc
  | CallBuy s tc => Buy env oob range s tc
  | CallClaim s id => Claim env oob range s id
  | CallCancel s id => CancelOrder env s id
  | CallCreate s tc => CreateMarketplace env s tc
  | CallConfig s tc => ConfigMarketplace env s tc
  end.

(** The forks the statements are about. *)
Definition forks_on (env : marketEnv) : Prop :=
  env_fc env EnableSmartContracts = true /\ env_fc env KdaFpr = true /\
  env_fc env FixMarketBuyOverflow = true /\ env_fc env FixAuditChangesV3 = true.

(** The ranges of the fields of a contract; a listing names an item and a
    currency, and the hash gives it an identifier not in use. *)
Definition call_typed (env : marketEnv) w (c : market_call) : Prop :=
  match c with
  | CallSell s tc => listing_named tc /\ order_at w (market_id env s) = None
  | CallBuy _ tc => is_i64 (by_Amount tc)
  | CallClaim _ _ | CallCancel _ _ => True
  | CallCreate _ tc => 0 <= cm_ReferralPercentage tc
  | CallConfig _ tc => 0 <= cf_ReferralPercentage tc
  end.

(** One successful market contract. *)
Inductive market_step w w' : Prop :=
| step_call env c : forks_on env -> caller c <> EmptyString -> call_typed env w c ->
    run_call env c w = (w', Ok tt) -> market_step w w'.

(** ** The invariant *)

Definition nft_collection w (c : string) : Prop :=
  exists kda, kapp_record w KDAKAppAddress c = Some kda /\ AssetType kda = KDAData_NonFungible.

(** Every open order's item is in escrow and no two open orders share one; an
    item has one holder, a user or the escrow. *)
Record custody w : Prop := {
  cu_escrow : forall id o, order_at w id = Some o -> mo_IsClaimed o = false ->
    nft_collection w (mo_CollectionID o) /\ is_Some (kapp_item w MarketKAppAddress (mo_CollectionID o) (mo_AssetID o));
  cu_single : forall id1 o1 id2 o2, order_at w id1 = Some o1 -> order_at w id2 = Some o2 ->
    mo_IsClaimed o1 = false -> mo_IsClaimed o2 = false ->
    ToKDAKey (mo_CollectionID o1) (mo_AssetID o1) = ToKDAKey (mo_CollectionID o2) (mo_AssetID o2) -> id1 = id2;
  cu_escrow_only : forall c i k, is_item c i -> nft_collection w c ->
    is_Some (kapp_item w MarketKAppAddress c i) -> item_data w k c i = None;
  cu_holder : forall c i k k', is_item c i -> nft_collection w c ->
    is_Some (item_data w k c i) -> is_Some (item_data w k' c i) -> k = k';
}.

Record market_inv w : Prop := {
  mi_ok : world_ok w;
  mi_solvent : solvent w;
  mi_assets : assets_typed w;
  mi_orders : forall id o, order_at w id = Some o -> mo_ID o = id /\ order_typed o;
  mi_places : marketplaces_typed w;
  mi_custody : custody w;
}.

(** What the escrow holds for an order that may not exist. *)
Definition held (o : option MarketOrderData) (a : string) : Z :=
  match o with Some o => if mo_IsClaimed o then 0 else holds o a | None => 0 end.

(** ** What a step is *)

Inductive advance w w' : list leg -> Prop :=
(** a marketplace is written *)
| adv_config m sender : configures w w' m sender -> advance w w' []
(** an open order gets a higher bid *)
| adv_bid o o' l : order_at w (mo_ID o) = Some o -> mo_IsClaimed o = false -> order_typed o' ->
    mo_ID o' = mo_ID o -> mo_IsClaimed o' = false -> mo_CollectionID o' = mo_CollectionID o ->
    mo_AssetID o' = mo_AssetID o -> order_at w' (mo_ID o) = Some o' ->
    effect (eq (ToMarketOrderKey (mo_ID o))) w w' l ->
    (forall a, legs_net l a = holds o a - holds o' a) -> advance w w' l
(** an open order is closed and its item released to [k] *)
| adv_close o o' k l : order_at w (mo_ID o) = Some o -> mo_IsClaimed o = false -> order_typed o' ->
    mo_ID o' = mo_ID o -> mo_IsClaimed o' = true -> order_at w' (mo_ID o) = Some o' ->
    effect (order_keys o) w w' l -> released w w' k o ->
    (forall a, legs_net l a = holds o a) -> advance w w' l
(** an item is listed *)
| adv_list env o sender l : order_at w (mo_ID o) = None -> listing env w w' o sender l -> advance w w' l.

Lemma released_same w w1 w' k o o' :
  order_typed o -> (forall j, kapp_obj w1 j = kapp_obj w j) ->
  (forall k c i, is_item c i -> item_data w1 k c i = item_data w k c i) ->
  mo_CollectionID o' = mo_CollectionID o -> mo_AssetID o' = mo_AssetID o ->
  released w1 w' k o' -> released w w' k o.
Proof.
  intros Ht Hk Hi Ec Ei (d & D1 & D2 & D3 & D4). rewrite Ec, Ei in *. exists d.
  rewrite <- (kapp_item_same w w1) by done. splits; try done.
  intros j Hj. rewrite D4, Hi by (done || apply Ht). done.
Qed.

Lemma bid_advance env w w' o sender amount b l :
  order_at w (mo_ID o) = Some o -> order_typed o -> mo_IsClaimed o = false -> is_i64 amount ->
  sender <> EmptyString -> bid env oob range w w' o sender amount b l ->
  advance w w' (refund_legs o ++ (sender, mo_CurrencyID o, - amount) :: l).
Proof.
  intros Ho Ht Hopen Hi Hne [Hgt _ _ _ _ E Hord Hsale].
  assert (0 <= amount <= MaxInt64) as Ha by (pose proof (ot_bid _ Ht); ilia).
  pose proof (after_bid_typed env b o amount sender Ht Ha Hne) as Ht'.
  change ((sender, mo_CurrencyID o, - amount) :: l) with ([(sender, mo_CurrencyID o, - amount)] ++ l) in *.
  destruct b.
  - destruct Hsale as (w1 & Hk & Hit & Hsale).
    eapply (adv_close _ _ o _ sender); [done|done|exact Ht'|done|done|exact Hord|exact E|..].
    + eapply released_same; [done|exact Hk|exact Hit|..|exact (sale_item _ _ _ _ _ _ _ _ Hsale)]; done.
    + intros a. rewrite !legs_net_app, refund_legs_net, legs_net_one by done.
      rewrite (sale_net _ _ _ _ _ _ _ _ a Hsale). unfold holds. cbn. repeat case_decide; lia.
  - destruct Hsale as [-> E']. cbn [app] in *.
    eapply (adv_bid _ _ o); [done|done|exact Ht'|done|done|done|done|exact Hord|exact E'|].
    intros a. rewrite legs_net_app, refund_legs_net, legs_net_one by done. unfold holds. cbn.
    repeat case_decide; lia.
Qed.

Lemma claim_advance env w w' o sender l :
  order_at w (mo_ID o) = Some o -> order_typed o -> claim env oob range w w' o sender l -> advance w w' l.
Proof.
  intros Ho Ht [_ Hopen _ Hout Hnet E Hord].
  assert (exists k, released w w' k o) as [k Hr].
  { destruct Hout as [(_ & w1 & Hq & Hsale)|(_ & Hr & _)]; [|eauto]. exists (mo_CurrentBidder o).
    eapply (released_same w w1); [done|..|exact (sale_item _ _ _ _ _ _ _ _ Hsale)]; try done.
    - intros j. by apply quiet_kapp.
    - intros j c i _. unfold item_data. by rewrite (quiet_user _ _ _ Hq). }
  eapply (adv_close _ _ o (claimed o) k); try done. by apply claimed_typed.
Qed.

Lemma cancelled_typed env o : order_typed o -> order_typed (cancelled env o).
Proof.
  intros Ht. unfold cancelled. apply set_closed_typed.
  - destruct (_ && _); [|done]. destruct Ht. by split.
  - pose proof (ot_deposit _ Ht). destruct (0 <? _); lia.
Qed.

Lemma cancel_advance env w w' o sender l :
  order_at w (mo_ID o) = Some o -> order_typed o -> cancellation env w w' o sender l -> advance w w' l.
Proof.
  intros Ho Ht [_ Hopen _ Hnet _ E Hord Hr].
  eapply (adv_close _ _ o (cancelled env o) sender); try done; [by apply cancelled_typed|].
  unfold cancelled. by destruct (_ && _).
Qed.

(** Every successful contract is one of these. *)
Lemma market_step_advance w w' : market_inv w -> market_step w w' -> exists l, advance w w' l.
Proof.
  intros [Hok Hs Hat Hord Hpl _] [env c (Hsc & Hfpr & Hmkt & Hv3) Hne Hty H].
  destruct c as [s tc|s tc|s id|s id|s tc|s tc]; cbn in *.
  - destruct Hty as [Hn Hfresh]. apply Sell_spec in H as (o & l & Hl); try done.
    exists l. apply (adv_list _ _ env o s); [by rewrite (li_id _ _ _ _ _ _ Hl)|done].
  - destruct (by_ID tc) as [id|] eqn:Hid.
    2: { unfold Buy in H. rewrite Hid in H. guard_ok H. done. }
    destruct (order_at w id) as [o|] eqn:Ho.
    + destruct (Hord _ _ Ho) as [E Ht]. apply (Buy_spec env oob range Hsc Hfpr Hmkt _ _ _ _ o id) in H as (Hopen & b & l & Hb); try done.
      subst id. eexists. by eapply bid_advance.
    + unfold Buy in H. rewrite Hid in H. guard_ok H. guard_ok H. step H as w1 [kapp o1] Hg.
      apply or_refuse_ok, found_order_spec in Hg as (_ & _ & Hg); [congruence|done].
  - destruct id as [id|]; [|unfold Claim in H; guard_ok H; done].
    destruct (order_at w id) as [o|] eqn:Ho.
    + destruct (Hord _ _ Ho) as [E Ht]. destruct (Claim_spec env oob range Hsc Hfpr Hmkt w w' s o id Hok Hs Hat Ho E Ht H) as (l & Hc).
      subst id. eexists. by eapply claim_advance.
    + unfold Claim in H. guard_ok H. step H as w1 [kapp o1] Hg.
      apply or_refuse_ok, found_order_spec in Hg as (_ & _ & Hg); [congruence|done].
  - destruct id as [id|]; [|unfold CancelOrder in H; guard_ok H; done].
    destruct (order_at w id) as [o|] eqn:Ho.
    + destruct (Hord _ _ Ho) as [E Ht]. destruct (CancelOrder_spec env Hsc Hfpr w w' s o id Hok Hs Ho E Ht H) as (l & Hc).
      subst id. eexists. by eapply cancel_advance.
    + unfold CancelOrder in H. guard_ok H. step H as w1 [kapp o1] Hg.
      apply or_refuse_ok, found_order_spec in Hg as (_ & _ & Hg); [congruence|done].
  - apply CreateMarketplace_spec in H as (m & Hc & _); try done. eexists. by eapply adv_config.
  - apply ConfigMarketplace_spec in H as (id & m0 & m & _ & _ & _ & _ & Hc & _); try done. eexists. by eapply adv_config.
Qed.

(** ** Frames of a step *)

(** The bytes of an item are a value like any other. *)
Definition raw_codec : Marshalizer string := {| Marshal := Ok; Unmarshal := Ok; canon := fun x => x |}.

Lemma kapp_item_value w k c i : kapp_item w k c i = @kapp_value _ _ _ _ _ string raw_codec w k (ToKDAKey c i).
Proof.
  unfold kapp_item, kapp_value. destruct (kapp_obj w k) as [a|]; [|done]. cbn.
  destruct (RetrieveValue _ _); [|done]. by destruct (slen _ =? 0).
Qed.
Lemma effect_kapp_item K w w' l c i :
  effect K w w' l -> ~ K (ToKDAKey c i) ->
  kapp_item w' MarketKAppAddress c i = kapp_item w MarketKAppAddress c i.
Proof. intros E Hk. rewrite !kapp_item_value. by apply (ef_kept _ _ _ _ E). Qed.
Lemma effect_kda K w w' l id :
  effect K w w' l -> kapp_record (T := KDAData) w' KDAKAppAddress id = kapp_record w KDAKAppAddress id.
Proof. intros E. apply kapp_value_same, (ws_kapp _ _ _ _ (ef_step _ _ _ _ E)). discriminate. Qed.
Lemma effect_assets K w w' l : effect K w w' l -> assets_typed w -> assets_typed w'.
Proof. intros E H id kda Hr. rewrite (effect_kda _ _ _ _ id E) in Hr. by apply (H id). Qed.
Lemma effect_nft K w w' l c : effect K w w' l -> nft_collection w' c -> nft_collection w c.
Proof. intros E (kda & Hr & Ht). rewrite (effect_kda _ _ _ _ c E) in Hr. by exists kda. Qed.
Lemma effect_nft_back K w w' l c : effect K w w' l -> nft_collection w c -> nft_collection w' c.
Proof. intros E (kda & Hr & Ht). exists kda. by rewrite (effect_kda _ _ _ _ c E). Qed.

(** Items stored under the same key are the same item. *)
Lemma kapp_item_key w c i c' i' : ToKDAKey c i = ToKDAKey c' i' ->
  kapp_item w MarketKAppAddress c i = kapp_item w MarketKAppAddress c' i'.
Proof. unfold kapp_item. by intros ->. Qed.
Lemma item_data_key w k c i c' i' : ToKDAKey c i = ToKDAKey c' i' -> item_data w k c i = item_data w k c' i'.
Proof. unfold item_data. by intros ->. Qed.
Lemma item_key_coll c i c' i' :
  is_item c i -> is_item c' i' -> ToKDAKey c i = ToKDAKey c' i' -> c = c' /\ i = i'.
Proof.
  intros [Hc Hi] [Hc' Hi']. rewrite !ToKDAKey_prefix. intros E%string_app_inj_l%string_app_inj_l.
  destruct (kda_suffix_inj c c' i i' Hc Hc' E) as (-> & _ & Hn). auto.
Qed.

(** Steps that move no item. *)
Lemma custody_same w w' K l :
  custody w -> effect K w w' l -> (forall c i, ~ K (ToKDAKey c i)) ->
  (forall id o', order_at w' id = Some o' -> mo_IsClaimed o' = false -> exists o, order_at w id = Some o /\
     mo_IsClaimed o = false /\ mo_CollectionID o = mo_CollectionID o' /\ mo_AssetID o = mo_AssetID o') ->
  custody w'.
Proof.
  intros [C1 C2 C3 C4] E Hk Ho. split.
  - intros id o' H Hopen. destruct (Ho _ _ H Hopen) as (o & H1 & H2 & Ec & Ei).
    destruct (C1 _ _ H1 H2) as [Hn Hi]. rewrite Ec, Ei in *. split; [by eapply effect_nft_back|].
    by rewrite (effect_kapp_item _ _ _ _ _ _ E).
  - intros id1 o1 id2 o2 H1 H2 Ho1 Ho2 Ekey.
    destruct (Ho _ _ H1 Ho1) as (p1 & P1 & Q1 & Ec1 & Ei1). destruct (Ho _ _ H2 Ho2) as (p2 & P2 & Q2 & Ec2 & Ei2).
    eapply (C2 id1 p1 id2 p2); try done. by rewrite Ec1, Ei1, Ec2, Ei2.
  - intros c i k Hi Hn. rewrite (effect_kapp_item _ _ _ _ _ _ E), (ef_items _ _ _ _ E) by done.
    apply C3; [done|]. by eapply effect_nft.
  - intros c i k k' Hi Hn. rewrite !(ef_items _ _ _ _ E) by done. apply C4; [done|]. by eapply effect_nft.
Qed.

Lemma custody_close w w' o o' k l :
  custody w -> order_typed o -> order_at w (mo_ID o) = Some o -> mo_IsClaimed o = false ->
  order_at w' (mo_ID o) = Some o' -> mo_IsClaimed o' = true ->
  effect (order_keys o) w w' l -> released w w' k o -> custody w'.
Proof.
  intros [C1 C2 C3 C4] Ht Ho Hopen Ho' Hcl E (d & D1 & D2 & D3 & D4).
  destruct (C1 _ _ Ho Hopen) as [Hnft _]. set (key := ToKDAKey (mo_CollectionID o) (mo_AssetID o)).
  assert (forall id p, order_at w' id = Some p -> mo_IsClaimed p = false ->
    order_at w id = Some p /\ ToKDAKey (mo_CollectionID p) (mo_AssetID p) <> key) as Hother.
  { intros id p Hp Hop. assert (id <> mo_ID o) as Hid by (intros ->; congruence).
    rewrite (order_kept _ _ _ _ _ E Hid) in Hp. split; [done|]. intros Ek. by apply Hid, (C2 id p (mo_ID o) o). }
  assert (forall c i, ToKDAKey c i <> key -> ~ order_keys o (ToKDAKey c i)) as Hkeys.
  { intros c i Hne [Ek|Ek]; [symmetry in Ek; by apply order_key_item in Ek|done]. }
  assert (forall j, item_data w j (mo_CollectionID o) (mo_AssetID o) = None) as Hnone
    by (intros j; apply C3; [apply Ht|done|by rewrite D1]).
  split.
  - intros id p Hp Hop. destruct (Hother _ _ Hp Hop) as [Hp0 Hne]. destruct (C1 _ _ Hp0 Hop) as [Hn Hi].
    split; [by eapply effect_nft_back|]. by rewrite (effect_kapp_item _ _ _ _ _ _ E) by auto.
  - intros id1 o1 id2 o2 H1 H2 Q1 Q2. destruct (Hother _ _ H1 Q1), (Hother _ _ H2 Q2). by apply C2.
  - intros c i j Hi Hn. destruct (decide (ToKDAKey c i = key)) as [Ek|Hne].
    + rewrite (kapp_item_key _ _ _ _ _ Ek), D3. by intros [? ?].
    + rewrite (effect_kapp_item _ _ _ _ _ _ E), (ef_items _ _ _ _ E) by auto.
      apply C3; [done|]. by eapply effect_nft.
  - intros c i j j' Hi Hn. destruct (decide (ToKDAKey c i = key)) as [Ek|Hne].
    + rewrite !(item_data_key _ _ _ _ _ _ Ek).
      assert (forall x, is_Some (item_data w' x (mo_CollectionID o) (mo_AssetID o)) -> x = k) as Hx;
        [|intros H1 H2; by rewrite (Hx _ H1), (Hx _ H2)].
      intros x Hs. destruct (decide (x = k)) as [|Hxk]; [done|].
      rewrite (D4 x Hxk), Hnone in Hs. by destruct Hs.
    + rewrite !(ef_items _ _ _ _ E) by auto. apply C4; [done|]. by eapply effect_nft.
Qed.

Lemma custody_list env w w' o sender l :
  custody w -> order_at w (mo_ID o) = None -> listing env w w' o sender l -> custody w'.
Proof.
  intros [C1 C2 C3 C4] Hfresh Hl. pose proof (li_effect _ _ _ _ _ _ Hl) as E.
  destruct (li_item _ _ _ _ _ _ Hl) as (d & D1 & D2 & D3 & D4). pose proof (li_order _ _ _ _ _ _ Hl) as Ho'.
  pose proof (ot_item _ (li_typed _ _ _ _ _ _ Hl)) as Hit.
  assert (nft_collection w (mo_CollectionID o)) as Hnft.
  { destruct (li_collection _ _ _ _ _ _ Hl) as (kda & Hr & Hty & _). by exists kda. }
  set (key := ToKDAKey (mo_CollectionID o) (mo_AssetID o)).
  assert (kapp_item w MarketKAppAddress (mo_CollectionID o) (mo_AssetID o) = None) as Hout.
  { destruct (kapp_item w MarketKAppAddress _ _) eqn:Ek; [|done].
    rewrite (C3 _ _ sender Hit Hnft) in D1; [done|by rewrite Ek]. }
  assert (forall id p, order_at w' id = Some p -> mo_IsClaimed p = false -> id <> mo_ID o ->
    order_at w id = Some p /\ ToKDAKey (mo_CollectionID p) (mo_AssetID p) <> key) as Hother.
  { intros id p Hp Hop Hid. rewrite (order_kept _ _ _ _ _ E Hid) in Hp. split; [done|]. intros Ek.
    destruct (C1 _ _ Hp Hop) as [_ Hs]. rewrite (kapp_item_key _ _ _ _ _ Ek), Hout in Hs. by destruct Hs. }
  assert (forall c i, ToKDAKey c i <> key -> ~ order_keys o (ToKDAKey c i)) as Hkeys.
  { intros c i Hne [Ek|Ek]; [symmetry in Ek; by apply order_key_item in Ek|done]. }
  assert (forall j, item_data w' j (mo_CollectionID o) (mo_AssetID o) = None) as Hnone.
  { intros j. destruct (decide (j = sender)) as [->|Hj]; [done|]. rewrite (D4 j Hj).
    destruct (item_data w j _ _) eqn:Ej; [|done]. destruct Hj. eapply (C4 _ _ j sender Hit Hnft); by rewrite ?Ej, ?D1. }
  split.
  - intros id p Hp Hop. destruct (decide (id = mo_ID o)) as [->|Hid].
    + rewrite Ho' in Hp. injection Hp as <-. split; [by eapply effect_nft_back|by rewrite D2].
    + destruct (Hother _ _ Hp Hop Hid) as [Hp0 Hne]. destruct (C1 _ _ Hp0 Hop) as [Hn Hi].
      split; [by eapply effect_nft_back|]. by rewrite (effect_kapp_item _ _ _ _ _ _ E) by auto.
  - intros id1 o1 id2 o2 H1 H2 Q1 Q2 Ek.
    destruct (decide (id1 = mo_ID o)) as [->|N1], (decide (id2 = mo_ID o)) as [->|N2]; [done|..].
    + rewrite Ho' in H1. injection H1 as <-. by destruct (Hother _ _ H2 Q2 N2).
    + rewrite Ho' in H2. injection H2 as <-. by destruct (Hother _ _ H1 Q1 N1).
    + destruct (Hother _ _ H1 Q1 N1), (Hother _ _ H2 Q2 N2). by eapply (C2 id1 o1 id2 o2).
  - intros c i j Hi Hn. destruct (decide (ToKDAKey c i = key)) as [Ek|Hne].
    + intros _. by rewrite (item_data_key _ _ _ _ _ _ Ek).
    + rewrite (effect_kapp_item _ _ _ _ _ _ E), (ef_items _ _ _ _ E) by auto.
      apply C3; [done|]. by eapply effect_nft.
  - intros c i j j' Hi Hn. destruct (decide (ToKDAKey c i = key)) as [Ek|Hne].
    + rewrite !(item_data_key _ _ _ _ _ _ Ek), Hnone. by intros [? ?].
    + rewrite !(ef_items _ _ _ _ E) by auto. apply C4; [done|]. by eapply effect_nft.
Qed.

(** ** The invariant is kept *)

Lemma advance_inv w w' l : market_inv w -> advance w w' l -> market_inv w'.
Proof.
  intros [Hok Hs Hat Hord Hpl Hcu] H. destruct H as [m sender Hc|o o' l Ho Hopen Ht' Eid Hopen' Ec Ei Ho' E Hnet
    |o o' k l Ho Hopen Ht' Eid Hcl Ho' E Hr Hnet|env o sender l Hfresh Hl].
  - destruct Hc as [_ Hp E Hm].
    assert (forall id, order_at w' id = order_at w id) as Hsame.
    { intros id. apply (ef_kept _ _ _ _ E). intros Ek. symmetry in Ek. by apply order_key_marketplace in Ek. }
    split; [by eapply effect_ok|apply (ef_solvent _ _ _ _ E)|by eapply effect_assets|..].
    + intros id o. rewrite Hsame. apply Hord.
    + intros id m' Hm'. destruct (decide (id = mp_ID m)) as [->|Hid]; [rewrite Hm in Hm'; by injection Hm' as <-|].
      apply Hpl. unfold marketplace_at in *. rewrite (ef_kept _ _ _ _ E) in Hm'; [done|].
      intros Ek. by apply Hid, marketplace_key_inj.
    + eapply custody_same; [done|exact E|..].
      * intros c i Ek. by apply marketplace_key_item in Ek.
      * intros id o'. rewrite Hsame. eauto.
  - assert (forall id, id <> mo_ID o -> order_at w' id = order_at w id) as Hsame.
    { intros id Hid. apply (ef_kept _ _ _ _ E). intros Ek. by apply Hid, order_key_inj. }
    split; [by eapply effect_ok|apply (ef_solvent _ _ _ _ E)|by eapply effect_assets|..].
    + intros id p Hp. destruct (decide (id = mo_ID o)) as [->|Hid]; [rewrite Ho' in Hp; by injection Hp as <-|].
      apply Hord. by rewrite <- Hsame.
    + intros id m Hm. apply Hpl. unfold marketplace_at in *. rewrite <- (ef_kept _ _ _ _ E); [done|].
      apply order_key_marketplace.
    + eapply custody_same; [done|exact E|..].
      * intros c i Ek. by apply order_key_item in Ek.
      * intros id p Hp Hop. destruct (decide (id = mo_ID o)) as [->|Hid].
        -- rewrite Ho' in Hp. injection Hp as <-. eauto.
        -- rewrite Hsame in Hp by done. eauto.
  - split; [by eapply effect_ok|apply (ef_solvent _ _ _ _ E)|by eapply effect_assets|..].
    + intros id p Hp. destruct (decide (id = mo_ID o)) as [->|Hid]; [rewrite Ho' in Hp; by injection Hp as <-|].
      apply Hord. by rewrite <- (order_kept _ _ _ _ _ E Hid).
    + intros id m Hm. apply Hpl. by rewrite <- (marketplace_kept _ _ _ _ _ E).
    + apply (custody_close w w' o o' k l); try done. by apply (Hord (mo_ID o)).
  - pose proof (li_effect _ _ _ _ _ _ Hl) as E.
    split; [by eapply effect_ok|apply (ef_solvent _ _ _ _ E)|by eapply effect_assets|..].
    + intros id p Hp. destruct (decide (id = mo_ID o)) as [->|Hid].
      * rewrite (li_order _ _ _ _ _ _ Hl) in Hp. injection Hp as <-. split; [done|apply (li_typed _ _ _ _ _ _ Hl)].
      * apply Hord. by rewrite <- (order_kept _ _ _ _ _ E Hid).
    + intros id m Hm. apply Hpl. by rewrite <- (marketplace_kept _ _ _ _ _ E).
    + by eapply custody_list.
Qed.

(** ** Conservation *)

(** Who is paid and which order is written, such that everybody and every order
    outside is untouched and balances and escrow together stay the same. *)
Definition conserves w w' : Prop :=
  exists A O : list string,
    (forall k a, k ∉ A -> plain a -> user_balance w' k (Some a) = user_balance w k (Some a)) /\
    (forall id, id ∉ O -> order_at w' id = order_at w id) /\
    forall T S a, NoDup T -> NoDup S -> A ⊆ T -> O ⊆ S -> plain a ->
      over T (fun k => user_balance w' k (Some a)) + over S (fun id => held (order_at w' id) a) =
      over T (fun k => user_balance w k (Some a)) + over S (fun id => held (order_at w id) a).

Lemma conserves_refl w : conserves w w.
Proof. by exists [], []. Qed.

Lemma conserves_trans w1 w2 w3 : conserves w1 w2 -> conserves w2 w3 -> conserves w1 w3.
Proof.
  intros (A1 & O1 & B1 & Q1 & H1) (A2 & O2 & B2 & Q2 & H2). exists (A1 ++ A2), (O1 ++ O2). splits.
  - intros k a [? ?]%not_elem_of_app Ha. by rewrite B2, B1.
  - intros id [? ?]%not_elem_of_app. by rewrite Q2, Q1.
  - intros T S a HT HS HA HO Ha.
    rewrite H2, H1; try done; intros x Hx; (apply HA || apply HO); apply elem_of_app; auto.
Qed.

(** A change at one order only. *)
Lemma over_orders w w' S id a :
  NoDup S -> id ∈ S -> (forall id', id' <> id -> order_at w' id' = order_at w id') ->
  over S (fun i => held (order_at w' i) a) =
  over S (fun i => held (order_at w i) a) + (held (order_at w' id) a - held (order_at w id) a).
Proof.
  intros HS Hid Hsame.
  rewrite <- (over_one S id (held (order_at w' id) a - held (order_at w id) a)), <- over_add by done.
  apply over_ext. intros i. destruct (decide (i = id)) as [->|Hne]; [lia|]. rewrite Hsame by done. lia.
Qed.

Lemma effect_conserves K w w' l id :
  effect K w w' l -> (forall id', id' <> id -> order_at w' id' = order_at w id') ->
  (forall a, legs_net l a = held (order_at w id) a - held (order_at w' id) a) -> conserves w w'.
Proof.
  intros E Hsame Hnet. exists (leg_to <$> l), [id]. splits.
  - intros k a Hk Ha. rewrite (ef_balance _ _ _ _ E) by done. rewrite legs_to_none by done. lia.
  - intros i Hi. apply Hsame. by intros ->; apply Hi, list_elem_of_singleton.
  - intros T S a HT HS HA HO Ha.
    rewrite (over_ext T _ (fun k => user_balance w k (Some a) + legs_to l k a))
      by (intros k; by apply (ef_balance _ _ _ _ E)).
    rewrite over_add, (over_legs T l a HT HA), Hnet.
    rewrite (over_orders w w' S id a HS) by (done || (apply HO, list_elem_of_singleton; done)). lia.
Qed.

Lemma advance_conserves w w' l : market_inv w -> advance w w' l -> conserves w w'.
Proof.
  intros [_ _ _ Hord _ _] H. destruct H as [m sender Hc|o o' l Ho Hopen Ht' Eid Hopen' Ec Ei Ho' E Hnet
    |o o' k l Ho Hopen Ht' Eid Hcl Ho' E Hr Hnet|env o sender l Hfresh Hl].
  - destruct Hc as [_ _ E _].
    assert (forall id, order_at w' id = order_at w id) as Hsame.
    { intros id. apply (ef_kept _ _ _ _ E). intros Ek. symmetry in Ek. by apply order_key_marketplace in Ek. }
    apply (effect_conserves _ _ _ _ EmptyString E); [auto|]. intros a. rewrite Hsame, legs_net_nil. lia.
  - apply (effect_conserves _ _ _ _ (mo_ID o) E).
    + intros id Hid. apply (ef_kept _ _ _ _ E). intros Ek. by apply Hid, order_key_inj.
    + intros a. rewrite Ho, Ho'. cbn. by rewrite Hopen, Hopen'.
  - apply (effect_conserves _ _ _ _ (mo_ID o) E).
    + intros id Hid. by apply (order_kept _ _ _ _ _ E).
    + intros a. rewrite Ho, Ho'. cbn. rewrite Hopen, Hcl, Hnet. lia.
  - pose proof (li_effect _ _ _ _ _ _ Hl) as E. apply (effect_conserves _ _ _ _ (mo_ID o) E).
    + intros id Hid. by apply (order_kept _ _ _ _ _ E).
    + intros a. rewrite Hfresh, (li_order _ _ _ _ _ _ Hl). cbn.
      rewrite (li_open _ _ _ _ _ _ Hl), (listing_net _ _ _ _ _ _ a Hl). lia.
Qed.

(** ** Properties *)

Lemma reachable w w' : rtc market_step w w' -> market_inv w -> market_inv w' /\ conserves w w'.
Proof.
  induction 1 as [w|w w1 w' Hstep _ IH]; intros Hinv; [by split; [|apply conserves_refl]|].
  destruct (market_step_advance _ _ Hinv Hstep) as [l Hadv].
  destruct (IH (advance_inv _ _ _ Hinv Hadv)) as [Hinv' Hc]. split; [done|].
  eapply conserves_trans; [by eapply advance_conserves|done].
Qed.


(** C3: the market creates and destroys no money, once smart contracts, the FPR
    fork, the market overflow fix and V3 are active.  Over any sequence of
    successful listings, bids, claims, cancellations and marketplace contracts in
    which no listing gets the identifier of an order that exists (the code does
    not check it) and listings name an item and a plain currency, there are
    finitely many accounts and orders outside of which nothing changes, and over
    any set of accounts and orders containing those, the balances and what the
    open orders hold in escrow add up to the same amount as before, in every
    asset: each bid, refund, royalty and payout is accounted for. *)
Theorem market_conserves_assets w w' : rtc market_step w w' -> market_inv w -> conserves w w'.
Proof. intros H Hinv. by destruct (reachable _ _ H Hinv). Qed.

(** ** The escrow total the node reports *)

Lemma orderEscrowAmount_spec w app id :
  (forall id o, order_at w id = Some o -> mo_ID o = id /\ order_typed o) ->
  kapp_obj w MarketKAppAddress = Some app -> is_Some (order_at w id) ->
  held (order_at w id) KLVIdentifier <= MaxInt64 ->
  orderEscrowAmount app (ToMarketOrderKey id) = Ok (held (order_at w id) KLVIdentifier) /\
  0 <= held (order_at w id) KLVIdentifier.
Proof.
  intros Hord Happ [o Ho] Hle. destruct (Hord _ _ Ho) as [_ Ht]. rewrite Ho in *.
  unfold order_at, kapp_value in Ho. rewrite Happ in Ho. cbn in Ho.
  unfold orderEscrowAmount, GetStorage. destruct (RetrieveValue _ _) as [b|]; [|done]. cbn.
  destruct (slen b =? 0); [done|]. destruct (Unmarshal b) as [o'|] eqn:E; [|done]. injection Ho as ->.
  cbn. cbn in Hle. destruct (ot_bid _ Ht), (ot_deposit _ Ht). unfold holds, str_eqb in *.
  destruct (mo_IsClaimed o); [done|]. rewrite (decide_True _ _ (eq_refl KLVIdentifier)) in *.
  destruct (decide (KLVIdentifier = mo_CurrencyID o)) as [Ec|Ec].
  - rewrite bool_decide_eq_true_2 by done. rewrite wrap_i64_id by ilia.
    rewrite (proj2 (Z.ltb_ge _ _)) by lia. split; [f_equal|]; lia.
  - rewrite bool_decide_eq_false_2 by congruence. rewrite (proj2 (Z.ltb_ge _ _)) by lia. split; [done|lia].
Qed.

Lemma escrow_sum_spec w app S total :
  (forall id o, order_at w id = Some o -> mo_ID o = id /\ order_typed o) ->
  kapp_obj w MarketKAppAddress = Some app -> Forall (fun id => is_Some (order_at w id)) S ->
  0 <= total -> total + over S (fun id => held (order_at w id) KLVIdentifier) <= MaxInt64 ->
  Forall (fun id => 0 <= held (order_at w id) KLVIdentifier) S ->
  escrow_sum app (ToMarketOrderKey <$> S) total =
    Ok (total + over S (fun id => held (order_at w id) KLVIdentifier)).
Proof.
  intros Hord Happ Hall. revert total. induction Hall as [|id S Hid Hall IH]; intros total H0 Hle Hpos.
  { cbn. unfold over. cbn. f_equal. lia. }
  inversion_clear Hpos as [|? ? Hp Hps].
  assert (0 <= over S (fun id => held (order_at w id) KLVIdentifier)) as Hover.
  { unfold over. clear -Hps. induction Hps as [|i S Hi _ IH]; [done|]. rewrite fmap_cons, zsum_cons. lia. }
  assert (over (id :: S) (fun id => held (order_at w id) KLVIdentifier) =
    held (order_at w id) KLVIdentifier + over S (fun id => held (order_at w id) KLVIdentifier)) as Hcons
    by (unfold over; by rewrite fmap_cons, zsum_cons).
  rewrite Hcons in Hle |- *. rewrite fmap_cons. cbn [escrow_sum].
  destruct (orderEscrowAmount_spec w app id) as [-> _]; [done|done|done|lia|]. cbn.
  rewrite (proj2 (Z.ltb_ge _ _)) by lia. rewrite IH; [f_equal; lia|lia|lia|done].
Qed.

(** The escrow total the node reports is the KLV the open orders hold: for
    an application account whose trie holds the orders [S], in whatever order
    its leaves are walked and among whatever marketplaces and items, the answer
    is the sum over the orders of deposit and KLV bid, provided it fits 64
    bits. *)
Theorem escrow_total_exact w app t leaves S :
  market_inv w -> kapp_obj w MarketKAppAddress = Some app -> tr (kapp_tracker app) = Some t ->
  filter (fun k => String.prefix (MarketOrderPrefix +:+ Sp) k = true) leaves ≡ₚ ToMarketOrderKey <$> S ->
  Forall (fun id => is_Some (order_at w id)) S ->
  over S (fun id => held (order_at w id) KLVIdentifier) <= MaxInt64 ->
  GetMarketEscrowTotal app leaves = Ok (over S (fun id => held (order_at w id) KLVIdentifier)).
Proof.
  intros Hinv Happ Htr Hperm Hall Hle. unfold GetMarketEscrowTotal. rewrite Htr.
  set (keys := filter _ leaves) in *. clearbody keys.
  apply Permutation_map_inv in Hperm as (S' & -> & HS).
  assert (over S (fun id => held (order_at w id) KLVIdentifier) =
          over S' (fun id => held (order_at w id) KLVIdentifier)) as Hover
    by (unfold over; apply zsum_Permutation, fmap_Permutation, HS).
  rewrite Hover in Hle |- *. rewrite HS in Hall.
  assert (Forall (fun id => 0 <= held (order_at w id) KLVIdentifier) S') as Hpos.
  { eapply Forall_impl; [exact Hall|]. intros id [o Ho]. rewrite Ho. cbn.
    destruct (mi_orders _ Hinv _ _ Ho) as [_ Ht]. destruct (ot_bid _ Ht), (ot_deposit _ Ht).
    unfold holds. destruct (mo_IsClaimed o); [done|]. repeat case_decide; lia. }
  change (map ToMarketOrderKey S') with (ToMarketOrderKey <$> S').
  rewrite (escrow_sum_spec w app S' 0); [f_equal; lia|apply Hinv|done|done|lia|lia|done].
Qed.
End market_inv.
