(* ===== verification/NetParams.v ===== *)
(** * Network parameters

    [kapps/proposal.go] and [kapps/proposalParser.go]: the parameters the
    network votes on, how a stored value is parsed and bounded, and the live
    parameter set every node reads; with the parameter half of the settlement
    of proposals ([core/process/block/block.go]). *)

From S2P Require Import Prelude Common Strconv GoStd Forks Tools.
From Stdlib Require Import SpecFloat.
Local Open Scope Z_scope.

(** ** Types and parameters ([kapps/proto/proposal.proto]) *)

Definition EnumType_Bool : Z := 0.
Definition EnumType_Int8 : Z := 1.
Definition EnumType_Int16 : Z := 2.
Definition EnumType_Int32 : Z := 3.
Definition EnumType_Int64 : Z := 4.
Definition EnumType_Uint8 : Z := 5.
Definition EnumType_Uint16 : Z := 6.
Definition EnumType_Uint32 : Z := 7.
Definition EnumType_Uint64 : Z := 8.
Definition EnumType_Float32 : Z := 9.
Definition EnumType_Float64 : Z := 10.
Definition EnumType_Complex64 : Z := 11.
Definition EnumType_Complex128 : Z := 12.
Definition EnumType_String : Z := 13.
Definition EnumType_Bytes : Z := 14.

Definition EnumParameter_FeePerDataByte : Z := 0.
Definition EnumParameter_KAppFeeCreateValidator : Z := 1.
Definition EnumParameter_KAppFeeCreateAsset : Z := 2.
Definition EnumParameter_MaxEpochsUnclaimed : Z := 3.
Definition EnumParameter_MinSelfDelegatedAmount : Z := 4.
Definition EnumParameter_MinTotalDelegatedAmount : Z := 5.
Definition EnumParameter_BlockRewards : Z := 6.
Definition EnumParameter_StakingRewards : Z := 7.
Definition EnumParameter_KAppFeeTransfer : Z := 8.
Definition EnumParameter_KAppFeeAssetTrigger : Z := 9.
Definition EnumParameter_KAppFeeValidatorConfig : Z := 10.
Definition EnumParameter_KAppFeeFreeze : Z := 11.
Definition EnumParameter_KAppFeeUnfreeze : Z := 12.
Definition EnumParameter_KAppFeeDelegate : Z := 13.
Definition EnumParameter_KAppFeeUndelegate : Z := 14.
Definition EnumParameter_KAppFeeWithdraw : Z := 15.
Definition EnumParameter_KAppFeeClaim : Z := 16.
Definition EnumParameter_KAppFeeUnjail : Z := 17.
Definition EnumParameter_KAppFeeSetAccountName : Z := 18.
Definition EnumParameter_KAppFeeProposal : Z := 19.
Definition EnumParameter_KAppFeeVote : Z := 20.
Definition EnumParameter_KAppFeeConfigITO : Z := 21.
Definition EnumParameter_KAppFeeSetITOPrices : Z := 22.
Definition EnumParameter_KAppFeeBuy : Z := 23.
Definition EnumParameter_KAppFeeSell : Z := 24.
Definition EnumParameter_KAppFeeCancelMarketOrder : Z := 25.
Definition EnumParameter_KAppFeeCreateMarketplace : Z := 26.
Definition EnumParameter_KAppFeeConfigMarketplace : Z := 27.
Definition EnumParameter_KAppFeeUpdateAccountPermission : Z := 28.
Definition EnumParameter_MaxNFTMintBatch : Z := 29.
Definition EnumParameter_MinKFIStakedToEnableProposals : Z := 30.
Definition EnumParameter_MinKLVBucketAmount : Z := 31.
Definition EnumParameter_MaxBucketSize : Z := 32.
Definition EnumParameter_LeaderValidatorRewardsPercentage : Z := 33.
Definition EnumParameter_ProposalMaxEpochsDuration : Z := 34.
Definition EnumParameter_KAppFeeITOTrigger : Z := 35.
Definition EnumParameter_KAppFeeDeposit : Z := 36.
Definition EnumParameter_KAppFeeSmartContract : Z := 37.
Definition EnumParameter_GasMultiplier : Z := 38.
Definition EnumParameter_MaxGasPerBlock : Z := 39.
Definition EnumParameter_MaxGasPerTX : Z := 40.

(** [len(EnumParameter_name[p]) != 0]. *)
Definition EnumParameter_named (p : Z) : bool := (0 <=? p) && (p <=? 40).

(** [Parameter]. *)
Record Param : Type := { prm_Type : Z; prm_Value : string }.
#[global] Instance Param_eq_dec : EqDecision Param.
Proof. solve_decision. Defined.

(** [map[int32]*Parameter]; [None] is a nil pointer. *)
Abbreviation Params := (gmap Z (option Param)) (only parsing).

(** ** Parsing a value *)

(** The dynamic values [reflect.ValueOf] gives for the parsers' results. *)
Inductive Value : Type :=
| VBool (b : bool) | VInt (z : Z) | VUint (z : Z) | VFloat (f : spec_float)
| VComplex (re im : spec_float) | VString (s : string) | VBytes (s : string).

(** [Value.CanInt], [Value.Int] and [Value.Uint]; the accessors panic on the
    other kinds. *)
Definition CanInt (v : Value) : bool := match v with VInt _ => true | _ => false end.
Definition Value_Int (v : Value) : res error Z := match v with VInt z => Ok z | _ => Err GoPanic end.
Definition Value_Uint (v : Value) : res error Z := match v with VUint z => Ok z | _ => Err GoPanic end.

(** [strconv.ParseFloat] and [strconv.ParseComplex]; no parameter of the network
    has such a type. *)
Class FloatParsers : Type := {
  ParseFloat : string -> Z -> res error spec_float;
  ParseComplex : string -> Z -> res error (spec_float * spec_float);
}.

Definition Parser : Type := string -> res error Value.

Definition parseBool : Parser := fun value => v ← ParseBool value; Ok (VBool v).
Definition parseInt (bitSize : Z) : Parser := fun value => v ← ParseIntN bitSize value; Ok (VInt v).
Definition parseUint (bitSize : Z) : Parser := fun value => v ← ParseUintN bitSize value; Ok (VUint v).
Definition parseFloat `{FloatParsers} (bitSize : Z) : Parser := fun value =>
  v ← ParseFloat value bitSize; Ok (VFloat v).
Definition parseComplex `{FloatParsers} (bitSize : Z) : Parser := fun value =>
  v ← ParseComplex value bitSize; Ok (VComplex v.1 v.2).
Definition parseString : Parser := fun value => Ok (VString value).
Definition parseBytes : Parser := fun value => Ok (VBytes value).

Definition parsers `{FloatParsers} : gmap Z Parser :=
  list_to_map [
    (EnumType_Bool, parseBool);
    (EnumType_Int8, parseInt 8); (EnumType_Int16, parseInt 16);
    (EnumType_Int32, parseInt 32); (EnumType_Int64, parseInt 64);
    (EnumType_Uint8, parseUint 8); (EnumType_Uint16, parseUint 16);
    (EnumType_Uint32, parseUint 32); (EnumType_Uint64, parseUint 64);
    (EnumType_Float32, parseFloat 32); (EnumType_Float64, parseFloat 64);
    (EnumType_Complex64, parseComplex 64); (EnumType_Complex128, parseComplex 128);
    (EnumType_String, parseString); (EnumType_Bytes, parseBytes)].

(** ** The initial parameters *)

Definition int64_param (v : string) : option Param := Some {| prm_Type := EnumType_Int64; prm_Value := v |}.
Definition uint32_param (v : string) : option Param := Some {| prm_Type := EnumType_Uint32; prm_Value := v |}.

Definition initial_base : list (Z * option Param) := [
  (EnumParameter_FeePerDataByte, int64_param "4000");
  (EnumParameter_KAppFeeCreateAsset, int64_param "20000000000");
  (EnumParameter_KAppFeeCreateValidator, int64_param "50000000000");
  (EnumParameter_KAppFeeTransfer, int64_param "500000");
  (EnumParameter_KAppFeeAssetTrigger, int64_param "2000000");
  (EnumParameter_KAppFeeValidatorConfig, int64_param "1000000000");
  (EnumParameter_KAppFeeFreeze, int64_param "1000000");
  (EnumParameter_KAppFeeUnfreeze, int64_param "1000000");
  (EnumParameter_KAppFeeDelegate, int64_param "1000000");
  (EnumParameter_KAppFeeUndelegate, int64_param "1000000");
  (EnumParameter_KAppFeeWithdraw, int64_param "1000000");
  (EnumParameter_KAppFeeClaim, int64_param "1000000");
  (EnumParameter_KAppFeeUnjail, int64_param "10000000000");
  (EnumParameter_KAppFeeSetAccountName, int64_param "100000000");
  (EnumParameter_KAppFeeProposal, int64_param "500000000");
  (EnumParameter_KAppFeeVote, int64_param "1000000");
  (EnumParameter_KAppFeeConfigITO, int64_param "20000000000");
  (EnumParameter_KAppFeeSetITOPrices, int64_param "1000000");
  (EnumParameter_KAppFeeBuy, int64_param "1000000");
  (EnumParameter_KAppFeeSell, int64_param "10000000");
  (EnumParameter_KAppFeeCancelMarketOrder, int64_param "50000000");
  (EnumParameter_KAppFeeCreateMarketplace, int64_param "50000000000");
  (EnumParameter_KAppFeeConfigMarketplace, int64_param "1000000000");
  (EnumParameter_KAppFeeUpdateAccountPermission, int64_param "1000000000");
  (EnumParameter_MaxEpochsUnclaimed, int64_param "100");
  (EnumParameter_MinSelfDelegatedAmount, int64_param "1500000000000");
  (EnumParameter_MinTotalDelegatedAmount, int64_param "10000000000000");
  (EnumParameter_BlockRewards, int64_param "0");
  (EnumParameter_StakingRewards, int64_param "0");
  (EnumParameter_MaxNFTMintBatch, int64_param "50");
  (EnumParameter_MinKFIStakedToEnableProposals, int64_param "1000000000000");
  (EnumParameter_MinKLVBucketAmount, int64_param "1000000000");
  (EnumParameter_MaxBucketSize, int64_param "100");
  (EnumParameter_LeaderValidatorRewardsPercentage, uint32_param "6000");
  (EnumParameter_ProposalMaxEpochsDuration, uint32_param "40")].

Definition initial_fpr : list (Z * option Param) := [
  (EnumParameter_KAppFeeITOTrigger, int64_param "2000000");
  (EnumParameter_KAppFeeDeposit, int64_param "10000000")].
Definition initial_contracts : list (Z * option Param) := [
  (EnumParameter_KAppFeeSmartContract, int64_param "2000000");
  (EnumParameter_GasMultiplier, int64_param "10");
  (EnumParameter_MaxGasPerBlock, int64_param "1500000000");
  (EnumParameter_MaxGasPerTX, int64_param "100000000")].
Definition initial_audit : list (Z * option Param) := [
  (EnumParameter_MaxGasPerTX, int64_param "400000000");
  (EnumParameter_GasMultiplier, int64_param "1")].

(** The assignments in order, a later one replacing an earlier. *)
Definition assign (m : Params) (l : list (Z * option Param)) : Params :=
  foldl (fun m kv => <[kv.1 := kv.2]> m) m l.

Definition InitialProposalParameters (forks : ForkController) : Params :=
  let m := assign ∅ initial_base in
  let m := if forks KdaFpr then assign m initial_fpr else m in
  let m := if forks EnableSmartContracts then assign m initial_contracts else m in
  if forks FixAuditChanges then assign m initial_audit else m.

(** ** Bounds *)

Definition MaxKappIterator : Z := 1000.
Definition MinGasLimit : Z := 50000.
Definition MaxGasBandwidthPerBatchPerSender : Z := 50000000.
Definition MaxGasLimitPerTx : Z := 500000000.

Definition maxGasPerBlock : Z := MaxGasLimitPerTx * MaxKappIterator.
Definition maxGasMultiplier : Z := 10000.
Definition maxProposalEpochsDuration : Z := 1000.
Definition maxEmissionPerBlock : Z := 1000000000.
Definition maxKAppFee : Z := 1000000000000.
Definition maxFeePerDataByte : Z := 4000000.
Definition maxKLVSupply : Z := 10000000000000000.
Definition maxKFISupply : Z := 21000000000000.

(** [paramLimits]: the smallest and the largest value. *)
Definition paramLimits : Type := Z * Z.
Definition kappFeeLimits : paramLimits := (0, maxKAppFee).
Definition emissionLimits : paramLimits := (0, maxEmissionPerBlock).
Definition klvStakeLimits : paramLimits := (1, maxKLVSupply).
Definition iterationLimits : paramLimits := (1, MaxKappIterator).

Definition paramBounds : gmap Z paramLimits :=
  list_to_map ([
    (EnumParameter_FeePerDataByte, (0, maxFeePerDataByte));
    (EnumParameter_KAppFeeCreateValidator, kappFeeLimits);
    (EnumParameter_KAppFeeCreateAsset, kappFeeLimits);
    (EnumParameter_KAppFeeTransfer, kappFeeLimits);
    (EnumParameter_KAppFeeAssetTrigger, kappFeeLimits);
    (EnumParameter_KAppFeeValidatorConfig, kappFeeLimits);
    (EnumParameter_KAppFeeFreeze, kappFeeLimits);
    (EnumParameter_KAppFeeUnfreeze, kappFeeLimits);
    (EnumParameter_KAppFeeDelegate, kappFeeLimits);
    (EnumParameter_KAppFeeUndelegate, kappFeeLimits);
    (EnumParameter_KAppFeeWithdraw, kappFeeLimits);
    (EnumParameter_KAppFeeClaim, kappFeeLimits);
    (EnumParameter_KAppFeeUnjail, kappFeeLimits);
    (EnumParameter_KAppFeeSetAccountName, kappFeeLimits);
    (EnumParameter_KAppFeeProposal, kappFeeLimits);
    (EnumParameter_KAppFeeVote, kappFeeLimits);
    (EnumParameter_KAppFeeConfigITO, kappFeeLimits);
    (EnumParameter_KAppFeeSetITOPrices, kappFeeLimits);
    (EnumParameter_KAppFeeBuy, kappFeeLimits);
    (EnumParameter_KAppFeeSell, kappFeeLimits);
    (EnumParameter_KAppFeeCancelMarketOrder, kappFeeLimits);
    (EnumParameter_KAppFeeCreateMarketplace, kappFeeLimits);
    (EnumParameter_KAppFeeConfigMarketplace, kappFeeLimits);
    (EnumParameter_KAppFeeUpdateAccountPermission, kappFeeLimits);
    (EnumParameter_KAppFeeITOTrigger, kappFeeLimits);
    (EnumParameter_KAppFeeDeposit, kappFeeLimits);
    (EnumParameter_KAppFeeSmartContract, kappFeeLimits);
    (EnumParameter_BlockRewards, emissionLimits);
    (EnumParameter_StakingRewards, emissionLimits);
    (EnumParameter_MinSelfDelegatedAmount, klvStakeLimits);
    (EnumParameter_MinTotalDelegatedAmount, klvStakeLimits);
    (EnumParameter_MinKLVBucketAmount, klvStakeLimits);
    (EnumParameter_MinKFIStakedToEnableProposals, (1, maxKFISupply));
    (EnumParameter_MaxEpochsUnclaimed, iterationLimits);
    (EnumParameter_MaxNFTMintBatch, iterationLimits);
    (EnumParameter_MaxBucketSize, iterationLimits);
    (EnumParameter_ProposalMaxEpochsDuration, (1, maxProposalEpochsDuration));
    (EnumParameter_LeaderValidatorRewardsPercentage, (0, HundredPercent));
    (EnumParameter_GasMultiplier, (1, maxGasMultiplier));
    (EnumParameter_MaxGasPerBlock, (MaxGasLimitPerTx, maxGasPerBlock));
    (EnumParameter_MaxGasPerTX, (MinGasLimit, MaxGasLimitPerTx))] : list (Z * paramLimits)).

(** [value.Int()] when it is one, else [int64(value.Uint())]. *)
Definition int_of_value (v : Value) : res error Z :=
  if CanInt v then Value_Int v else u ← Value_Uint v; Ok (wrap_i64 u).

Definition validateBounds (parameter : Z) (value : Value) : res error unit :=
  match paramBounds !! parameter with
  | None => Err ErrInvalidParameter
  | Some (min, max) =>
      v ← int_of_value value;
      if (v <? min) || (max <? v) then Err ErrInvalidParameter else Ok tt
  end.

Definition validateConstraints (parameter : Z) (value : Value) (fc : ForkController) : res error unit :=
  if fc FixAuditChangesV6 then validateBounds parameter value
  else if parameter =? EnumParameter_LeaderValidatorRewardsPercentage then
    u ← Value_Uint value;
    if HundredPercent <? u then Err ErrInvalidParameter else Ok tt
  else if parameter =? EnumParameter_GasMultiplier then
    v ← Value_Int value;
    if v <? 1 then Err ErrInvalidParameter else Ok tt
  else if parameter =? EnumParameter_MaxGasPerBlock then
    v ← Value_Int value;
    if v <? MinGasLimit then Err ErrInvalidParameter else Ok tt
  else if parameter =? EnumParameter_MaxGasPerTX then
    let maxValue := if negb (fc FixAuditChanges) then MaxGasBandwidthPerBatchPerSender else MaxGasLimitPerTx in
    v ← Value_Int value;
    if (v <? MinGasLimit) || (maxValue <? v) then Err ErrInvalidParameter else Ok tt
  else Ok tt.

(** ** The parameters of a controller *)

Section controller.
Context `{FP : FloatParsers}.

Definition ParseParam (active : Params) (parameter : Z) (value : string) : res error Value :=
  match active !! parameter with
  | None | Some None => Err ErrInvalidParameter
  | Some (Some param) =>
      match (parsers !! prm_Type param : option Parser) with
      | None => Err ErrInvalidParameter
      | Some parser => parser value
      end
  end.

Definition ParseParamAndValidate (active : Params) (parameter : Z) (value : string)
    (fc : ForkController) : res error Value :=
  result ← ParseParam active parameter value;
  _ ← validateConstraints parameter result fc;
  Ok result.

(** A missing or unreadable parameter is 0; a value of another kind panics. *)
Definition GetParameterInt (active : Params) (parameter : Z) : res error Z :=
  match active !! parameter with
  | None => Ok 0
  | Some p =>
      match ParseParam active parameter (default EmptyString (prm_Value <$> p)) with
      | Err _ => Ok 0
      | Ok v => Value_Int v
      end
  end.

Definition GetParameterUint (active : Params) (parameter : Z) : res error Z :=
  match active !! parameter with
  | None => Ok 0
  | Some p =>
      match ParseParam active parameter (default EmptyString (prm_Value <$> p)) with
      | Err _ => Ok 0
      | Ok (VInt z) => Ok (wrap_u64 z)
      | Ok v => Value_Uint v
      end
  end.
End controller.

(** ** The live parameter set

    A copy is a fresh object, so the live set shares nothing with the stored
    controller and is a value here. *)

Definition cloneParameters (params : Params) : Params := Some <$> omap id params.
(** Every non-nil entry of [params] replaces the live one. *)
Definition UpdateParameters (live params : Params) : Params := cloneParameters params ∪ live.
Definition RestoreParameters (live params : Params) : Params := cloneParameters params.
Definition GetActiveParameters (live : Params) : Params := cloneParameters live.

(** ** Settling the parameters of a proposal

    Go visits the parameters of a proposal in an unspecified order, [order]. *)

Section settle.
Context `{FP : FloatParsers}.
Variable fc : ForkController.

Fixpoint validateProposalParameters (order : list (Z * string)) (active : Params) : res error unit :=
  match order with
  | [] => Ok tt
  | (parameter, value) :: rest =>
      _ ← ParseParamAndValidate active parameter value fc;
      validateProposalParameters rest active
  end.

(** [ActiveParameters[parameter].Value = value]; a nil entry panics. *)
Definition validateAndApplyParameter (parameter : Z) (value : string) (active : Params) : res error Params :=
  _ ← ParseParamAndValidate active parameter value fc;
  match active !! parameter with
  | Some (Some p) => Ok (<[parameter := Some {| prm_Type := prm_Type p; prm_Value := value |}]> active)
  | _ => Err GoPanic
  end.

Fixpoint updateApprovedProposalParameters (order : list (Z * string)) (active : Params)
  : res error Params :=
  match order with
  | [] => Ok active
  | (parameter, value) :: rest =>
      active' ← validateAndApplyParameter parameter value active;
      updateApprovedProposalParameters rest active'
  end.
End settle.

(** The parameters a fork added are backfilled, every stored one is kept. *)
Definition mergeInitialParameters (active : Params) (forks : ForkController) : Params * bool :=
  let initialParameters := InitialProposalParameters forks in
  if (size initialParameters <=? size active)%nat then (active, false)
  else (active ∪ initialParameters, true).

(** * Lemmas *)

(** The declared type of each parameter. *)
Definition param_type (p : Z) : Z :=
  if (p =? EnumParameter_LeaderValidatorRewardsPercentage) || (p =? EnumParameter_ProposalMaxEpochsDuration)
  then EnumType_Uint32 else EnumType_Int64.

(** The number a text denotes at the declared type of a parameter. *)
Definition param_value (p : Z) (text : string) : res error Z :=
  if param_type p =? EnumType_Int64 then ParseIntN 64 text else ParseUintN 32 text.

(** A parameter is well typed: it has its declared type, and its text is a
    number of that type between the bounds of the parameter. *)
Definition param_okb (p : Z) (prm : Param) : bool :=
  (prm_Type prm =? param_type p) &&
  match paramBounds !! p, param_value p (prm_Value prm) with
  | Some lim, Ok z => (lim.1 <=? z) && (z <=? lim.2)
  | _, _ => false
  end.

(** Every parameter of a set is. *)
Definition params_ok (m : Params) : Prop :=
  forall p prm, m !! p = Some (Some prm) -> param_okb p prm = true.

(** The values of [ps] put into the set. *)
Definition with_values (active : Params) (ps : gmap Z string) : Params :=
  merge (fun o v => match o, v with
                    | Some (Some p), Some v => Some (Some {| prm_Type := prm_Type p; prm_Value := v |})
                    | _, _ => o
                    end) active ps.

Lemma param_okb_spec p prm :
  param_okb p prm = true <->
  prm_Type prm = param_type p /\
  exists lim z, paramBounds !! p = Some lim /\ param_value p (prm_Value prm) = Ok z /\ lim.1 <= z <= lim.2.
Proof.
  unfold param_okb. split.
  - intros H. zify_bools. split; [done|]. destruct (paramBounds !! p) as [lim|]; [|done].
    destruct (param_value p _) as [z|]; [|done]. zify_bools. by exists lim, z.
  - intros (-> & lim & z & -> & -> & H). rewrite Z.eqb_refl. lia.
Qed.

(** ** Sets built by the code *)

Lemma assign_ok m l :
  params_ok m -> forallb (fun kv => match kv.2 with Some prm => param_okb kv.1 prm | None => true end) l = true ->
  params_ok (assign m l).
Proof.
  revert m. induction l as [|[k o] l IH]; intros m Hm; [done|]. cbn. intros [H1 H2]%andb_true_iff.
  apply IH; [|done]. intros p prm. rewrite lookup_insert_Some. intros [[<- ->]|[_ H]]; eauto.
Qed.

Lemma InitialProposalParameters_ok fc : params_ok (InitialProposalParameters fc).
Proof.
  unfold InitialProposalParameters.
  assert (params_ok (assign ∅ initial_base)) as H0
    by (apply assign_ok; [by intros p prm|vm_compute; reflexivity]).
  repeat match goal with |- context [if fc ?f then _ else _] => destruct (fc f) end;
    repeat (apply assign_ok; [|vm_compute; reflexivity]); done.
Qed.

Lemma union_ok m1 m2 : params_ok m1 -> params_ok m2 -> params_ok (m1 ∪ m2).
Proof. intros H1 H2 p prm. rewrite lookup_union_Some_raw. intros [H|[_ H]]; eauto. Qed.

Lemma merge_ok m fc : params_ok m -> params_ok (mergeInitialParameters m fc).1.
Proof.
  intros Hm. unfold mergeInitialParameters. destruct (_ <=? _)%nat; [done|].
  apply union_ok; [done|apply InitialProposalParameters_ok].
Qed.

Lemma clone_lookup m p prm : cloneParameters m !! p = Some (Some prm) <-> m !! p = Some (Some prm).
Proof.
  unfold cloneParameters. rewrite lookup_fmap, lookup_omap. destruct (m !! p) as [[x|]|]; cbn; naive_solver.
Qed.

Lemma clone_ok m : params_ok m -> params_ok (cloneParameters m).
Proof. intros Hm p prm. rewrite clone_lookup. apply Hm. Qed.

Lemma UpdateParameters_ok live m : params_ok live -> params_ok m -> params_ok (UpdateParameters live m).
Proof. intros Hl Hm. apply union_ok; [by apply clone_ok|done]. Qed.

(** Merging and cloning keep what is there. *)
Lemma merge_keeps m fc p o : m !! p = Some o -> (mergeInitialParameters m fc).1 !! p = Some o.
Proof.
  intros H. unfold mergeInitialParameters. destruct (_ <=? _)%nat; [done|]. cbn. by apply lookup_union_Some_l.
Qed.

(** ** Validation *)

Lemma parse_loop_range max n s z : 0 <= n -> parse_loop max n s = Ok z -> 0 <= z /\ (s <> EmptyString -> z <= max).
Proof.
  revert n. induction s as [|c s IH]; intros n Hn; cbn; [by intros [= <-]|].
  destruct (is_digit c) eqn:Ec; [|done]. cbn. destruct (_ <=? n); [done|].
  destruct (Z.ltb_spec max (n * 10 + (ascii_Z c - 48))); [done|]. intros H'.
  unfold is_digit in Ec. zify_bools.
  destruct s as [|c' s'].
  - cbn in H'. injection H' as <-. split; [lia|done].
  - apply IH in H'; [|lia]. destruct H' as [? H2]. split; [done|]. intros _. by apply H2.
Qed.

Lemma ParseUintN_range b s z : ParseUintN b s = Ok z -> 0 <= z <= 2 ^ b - 1.
Proof.
  unfold ParseUintN. destruct s as [|c s]; [done|]. intros H.
  apply parse_loop_range in H as [? H]; [|done]. split; [done|]. by apply H.
Qed.

Lemma param_type_cases p : param_type p = EnumType_Int64 \/ param_type p = EnumType_Uint32.
Proof. unfold param_type. destruct (_ || _); auto. Qed.

Section lemmas.
Context `{FP : FloatParsers}.

Lemma parsers_int64 : (parsers !! EnumType_Int64 : option Parser) = Some (parseInt 64).
Proof. reflexivity. Qed.
Lemma parsers_uint32 : (parsers !! EnumType_Uint32 : option Parser) = Some (parseUint 32).
Proof. reflexivity. Qed.

(** What the parser of a well-typed parameter answers. *)
Lemma ParseParam_typed active p prm text :
  active !! p = Some (Some prm) -> prm_Type prm = param_type p ->
  ParseParam active p text =
    match param_value p text with
    | Ok z => Ok (if param_type p =? EnumType_Int64 then VInt z else VUint z)
    | Err e => Err e
    end.
Proof.
  intros Ha Ht. unfold ParseParam, param_value. rewrite Ha, Ht.
  destruct (param_type_cases p) as [E|E]; rewrite E.
  - rewrite parsers_int64. change (EnumType_Int64 =? EnumType_Int64) with true. cbn iota.
    unfold parseInt. by destruct (ParseIntN 64 text).
  - rewrite parsers_uint32. change (EnumType_Uint32 =? EnumType_Int64) with false. cbn iota.
    unfold parseUint. by destruct (ParseUintN 32 text).
Qed.

(** A value accepted from [FixAuditChangesV6] on is in bounds. *)
Lemma accepted_ok fc active p prm v r :
  fc FixAuditChangesV6 = true -> active !! p = Some (Some prm) -> prm_Type prm = param_type p ->
  ParseParamAndValidate active p v fc = Ok r ->
  param_okb p {| prm_Type := prm_Type prm; prm_Value := v |} = true.
Proof.
  intros Hv6 Ha Ht H. unfold ParseParamAndValidate in H. apply res_bind_ok in H as (x & Hp & H).
  apply res_bind_ok in H as ([] & Hc & _). rewrite (ParseParam_typed _ _ _ _ Ha Ht) in Hp.
  unfold validateConstraints in Hc. rewrite Hv6 in Hc. unfold validateBounds in Hc.
  apply param_okb_spec. split; [done|]. cbn [prm_Value].
  destruct (paramBounds !! p) as [[lo hi]|] eqn:Eb; [|done].
  destruct (param_value p v) as [z|] eqn:Ez; [|done]. injection Hp as <-.
  exists (lo, hi), z. split; [done|]. split; [done|]. cbn.
  apply res_bind_ok in Hc as (i & Hi & Hc).
  assert (i = z) as ->.
  { destruct (param_type_cases p) as [E|E]; unfold param_value in Ez; rewrite E in Hi, Ez.
    - cbn in Hi. by injection Hi as <-.
    - change (EnumType_Uint32 =? EnumType_Int64) with false in Hi, Ez. cbn in Hi. injection Hi as <-.
      apply ParseUintN_range in Ez. apply wrap_i64_id. change (2 ^ 32) with 4294967296 in Ez. ilia. }
  destruct ((z <? lo) || (hi <? z)) eqn:E; [done|]. zify_bools. lia.
Qed.

Lemma paramBounds_nonneg p lim : paramBounds !! p = Some lim -> 0 <= lim.1 /\ lim.2 <= MaxInt64.
Proof.
  assert (map_Forall (fun _ lim => 0 <= lim.1 /\ lim.2 <= MaxInt64) paramBounds) as H.
  { eapply (bool_decide_unpack _). vm_compute. exact I. }
  apply H.
Qed.

(** Reading a well-typed parameter never panics and gives a value in bounds. *)
Lemma ok_GetParameter active p prm :
  params_ok active -> active !! p = Some (Some prm) ->
  exists lim z, paramBounds !! p = Some lim /\ lim.1 <= z <= lim.2 /\ GetParameterUint active p = Ok z /\
    (param_type p = EnumType_Int64 -> GetParameterInt active p = Ok z).
Proof.
  intros Hok Ha. pose proof (Hok _ _ Ha) as (Hty & lim & z & Hb & Hz & Hr)%param_okb_spec.
  exists lim, z. splits; try done; try lia; unfold GetParameterUint, GetParameterInt; rewrite Ha; cbn;
    rewrite (ParseParam_typed _ _ _ _ Ha Hty), Hz.
  - apply paramBounds_nonneg in Hb. destruct (_ =? _); cbn; [|done]. rewrite wrap_u64_id by ilia. done.
  - by intros ->.
Qed.

(** ** Applying an approved set *)

(** Only the declared types matter to a check. *)
Definition same_types (m m' : Params) : Prop :=
  forall p, (fun o : option Param => prm_Type <$> o) <$> m !! p = (fun o : option Param => prm_Type <$> o) <$> m' !! p.

Lemma ParseParam_types m m' p v : same_types m m' -> ParseParam m p v = ParseParam m' p v.
Proof.
  intros H. specialize (H p). unfold ParseParam.
  destruct (m !! p) as [[x|]|], (m' !! p) as [[y|]|]; cbn in H; try done. by injection H as ->.
Qed.

Lemma set_value_types m p prm v :
  m !! p = Some (Some prm) -> same_types (<[p := Some {| prm_Type := prm_Type prm; prm_Value := v |}]> m) m.
Proof.
  intros H q. destruct (decide (p = q)) as [<-|Hne]; [|by rewrite lookup_insert_ne].
  by rewrite lookup_insert_eq, H.
Qed.

Lemma validate_types fc l m m' :
  same_types m m' -> validateProposalParameters fc l m = validateProposalParameters fc l m'.
Proof.
  intros H. induction l as [|[p v] l IH]; [done|]. cbn. unfold ParseParamAndValidate.
  by rewrite (ParseParam_types m m' p v H), IH.
Qed.

Lemma ParseParamAndValidate_entry m p v fc r :
  ParseParamAndValidate m p v fc = Ok r -> exists prm, m !! p = Some (Some prm).
Proof.
  unfold ParseParamAndValidate, ParseParam. destruct (m !! p) as [[prm|]|]; [eauto|done..].
Qed.

Lemma validate_all fc l m :
  validateProposalParameters fc l m = Ok tt <->
  Forall (fun pv => is_ok (ParseParamAndValidate m pv.1 pv.2 fc) = true) l.
Proof.
  induction l as [|[p v] l IH]; cbn; [split; [constructor|done]|]. rewrite Forall_cons. cbn.
  destruct (ParseParamAndValidate m p v fc); cbn; [rewrite IH; tauto|].
  split; [done|by intros [? _]].
Qed.

(** The checks pass or fail whatever the order. *)
Lemma validate_perm fc l l' m :
  l ≡ₚ l' -> validateProposalParameters fc l m = Ok tt -> validateProposalParameters fc l' m = Ok tt.
Proof. intros Hp. rewrite !validate_all. by rewrite Hp. Qed.

(** After a check that passed, the set lands whole, whatever the order. *)
Lemma apply_validated fc l m :
  NoDup l.*1 -> validateProposalParameters fc l m = Ok tt ->
  updateApprovedProposalParameters fc l m = Ok (with_values m (list_to_map l)).
Proof.
  revert m. induction l as [|[p v] l IH]; intros m Hnd Hv.
  { cbn. f_equal. apply map_eq. intros k. unfold with_values. rewrite lookup_merge, lookup_empty.
    by destruct (m !! k) as [[|]|]. }
  cbn in Hnd. apply NoDup_cons in Hnd as [Hp Hnd].
  cbn in Hv. apply res_bind_ok in Hv as (x & Hx & Hv).
  destruct (ParseParamAndValidate_entry _ _ _ _ _ Hx) as (prm & Hm).
  cbn. unfold validateAndApplyParameter. rewrite Hx. cbn. rewrite Hm. cbn.
  pose proof (set_value_types m p prm v Hm) as Hst.
  rewrite IH; [|done|by rewrite (validate_types fc l _ _ Hst)]. f_equal. apply map_eq. intros k.
  unfold with_values. rewrite !lookup_merge. destruct (decide (p = k)) as [<-|Hne].
  - rewrite !lookup_insert_eq, Hm. by rewrite (not_elem_of_list_to_map_1 l p Hp).
  - by rewrite !lookup_insert_ne.
Qed.

(** An approved set of checked values keeps the parameters well typed. *)
Lemma with_values_ok fc m ps :
  fc FixAuditChangesV6 = true -> params_ok m ->
  (forall p v, ps !! p = Some v -> is_ok (ParseParamAndValidate m p v fc) = true) ->
  params_ok (with_values m ps).
Proof.
  intros Hv6 Hm Hps p prm. unfold with_values. rewrite lookup_merge.
  destruct (m !! p) as [[x|]|] eqn:Ex, (ps !! p) as [v|] eqn:Ev; cbn; try done; intros [= <-]; [|by apply Hm].
  specialize (Hps p v Ev). destruct (ParseParamAndValidate m p v fc) as [r|] eqn:Er; [|done].
  pose proof (Hm _ _ Ex) as (Hty & _)%param_okb_spec. by eapply accepted_ok.
Qed.
End lemmas.
