(* ===== verification/Proposals.v ===== *)
(** * The proposal application

    [core/kapp/proposal/proposal.go] and [core/kapp/proposal/voteIndex.go]:
    creating proposals and voting on them; the part of an unfreeze
    ([core/kapp/accounts/accounts.go]) that takes unfrozen KFI out of the votes;
    and the settlement of the proposals that end with an epoch
    ([core/process/block/block.go]). *)

From S2P Require Import Prelude Common Strconv GoStd Forks Tools Permissions KdaUtils KdaData DataTrie UserAccount AccountsCache.
From S2P Require Import Staking World SystemAccount KdaKapp NetParams.
Local Open Scope Z_scope.

(** ** Messages ([kapps/proto/proposal.proto]) *)

Definition VoteDetail_Yes : Z := 0.
Definition VoteDetail_No : Z := 1.
(** [len(EnumVoteType_name[t]) != 0]. *)
Definition EnumVoteType_named (t : Z) : bool := (t =? VoteDetail_Yes) || (t =? VoteDetail_No).

Record VoteDetail : Type := { vd_Type : Z; vd_Amount : Z; vd_Timestamp : Z }.

Inductive EnumProposalStatus : Type :=
| ProposalData_ActiveProposal | ProposalData_ApprovedProposal | ProposalData_DeniedProposal.

(** The voters map holds pointers, which can be nil. *)
Record ProposalData : Type := {
  pd_Proposer : string; pd_TXHash : string; pd_ProposalStatus : EnumProposalStatus;
  pd_Parameters : gmap Z string; pd_Description : string;
  pd_EpochStart : Z; pd_EpochEnd : Z; pd_Votes : gmap Z Z; pd_Timestamp : Z;
  pd_Voters : gmap string (option VoteDetail); pd_TotalStaked : Z;
}.

(** A bucket is the list of ids of an [ActiveProposals] message, or nil. *)
Record ProposalController : Type := {
  pc_ProposalCount : Z;
  pc_ActiveParameters : Params;
  pc_ActiveProposals : gmap Z (option (list Z));
}.

#[global] Instance VoteDetail_eq_dec : EqDecision VoteDetail.
Proof. solve_decision. Defined.
#[global] Instance EnumProposalStatus_eq_dec : EqDecision EnumProposalStatus.
Proof. solve_decision. Defined.
#[global] Instance ProposalData_eq_dec : EqDecision ProposalData.
Proof. solve_decision. Defined.
#[global] Instance ProposalController_eq_dec : EqDecision ProposalController.
Proof. solve_decision. Defined.

Definition emptyProposal : ProposalData :=
  {| pd_Proposer := EmptyString; pd_TXHash := EmptyString;
     pd_ProposalStatus := ProposalData_ActiveProposal; pd_Parameters := ∅; pd_Description := EmptyString;
     pd_EpochStart := 0; pd_EpochEnd := 0; pd_Votes := ∅; pd_Timestamp := 0; pd_Voters := ∅;
     pd_TotalStaked := 0 |}.
Definition emptyController : ProposalController :=
  {| pc_ProposalCount := 0; pc_ActiveParameters := ∅; pc_ActiveProposals := ∅ |}.

Definition NewInitialProposalController (forks : ForkController) : ProposalController :=
  {| pc_ProposalCount := 0; pc_ActiveParameters := InitialProposalParameters forks;
     pc_ActiveProposals := ∅ |}.

Definition set_votes (p : ProposalData) (votes : gmap Z Z) (voters : gmap string (option VoteDetail))
  : ProposalData :=
  {| pd_Proposer := pd_Proposer p; pd_TXHash := pd_TXHash p; pd_ProposalStatus := pd_ProposalStatus p;
     pd_Parameters := pd_Parameters p; pd_Description := pd_Description p;
     pd_EpochStart := pd_EpochStart p; pd_EpochEnd := pd_EpochEnd p; pd_Votes := votes;
     pd_Timestamp := pd_Timestamp p; pd_Voters := voters; pd_TotalStaked := pd_TotalStaked p |}.
Definition set_outcome (p : ProposalData) (s : EnumProposalStatus) (total : Z) : ProposalData :=
  {| pd_Proposer := pd_Proposer p; pd_TXHash := pd_TXHash p; pd_ProposalStatus := s;
     pd_Parameters := pd_Parameters p; pd_Description := pd_Description p;
     pd_EpochStart := pd_EpochStart p; pd_EpochEnd := pd_EpochEnd p; pd_Votes := pd_Votes p;
     pd_Timestamp := pd_Timestamp p; pd_Voters := pd_Voters p; pd_TotalStaked := total |}.
Definition set_parameters (c : ProposalController) (m : Params) : ProposalController :=
  {| pc_ProposalCount := pc_ProposalCount c; pc_ActiveParameters := m;
     pc_ActiveProposals := pc_ActiveProposals c |}.
Definition set_buckets (c : ProposalController) (b : gmap Z (option (list Z))) : ProposalController :=
  {| pc_ProposalCount := pc_ProposalCount c; pc_ActiveParameters := pc_ActiveParameters c;
     pc_ActiveProposals := b |}.

(** [votes[t] += x]. *)
Definition votes_add (votes : gmap Z Z) (t x : Z) : gmap Z Z := <[t := default 0 (votes !! t) +! x]> votes.
(** [votes[t] -= x]. *)
Definition votes_sub (votes : gmap Z Z) (t x : Z) : gmap Z Z := <[t := default 0 (votes !! t) -! x]> votes.

(** ** Contracts *)

Record ProposalContract : Type := {
  prc_Parameters : gmap Z string; prc_Description : string; prc_EpochsDuration : Z;
}.
Record VoteContract : Type := { vc_ProposalID : Z; vc_Amount : Z; vc_Type : Z }.

Definition MaxVotersPerProposal : Z := 7000.
Definition MaxProposalsLength : Z := 10.
Definition MaxProposalParamLength : Z := 50.
Definition MaxDescriptionLength : Z := 1000.

(** ** The vote index of an account *)

Record ProposalVoteIndexEntry : Type := { vi_ProposalID : Z; vi_Amount : Z }.
#[global] Instance ProposalVoteIndexEntry_eq_dec : EqDecision ProposalVoteIndexEntry.
Proof. solve_decision. Defined.

Definition proposalIDSize : Z := 8.
Definition voteAmountSize : Z := 8.
Definition voteIndexEntrySize : Z := proposalIDSize + voteAmountSize.

(** [binary.BigEndian.Uint64] of an 8-byte string. *)
Fixpoint be_value (acc : Z) (s : string) : Z :=
  match s with EmptyString => acc | String c s' => be_value (acc * 256 + ascii_Z c) s' end.
Definition BigEndian_Uint64 (s : string) : Z := be_value 0 s.

(** [n] entries from the front of [raw]. *)
Fixpoint decode_entries (n : nat) (raw : string) : res error (list ProposalVoteIndexEntry) :=
  match n with
  | O => Ok []
  | S n' =>
      let amount := BigEndian_Uint64 (String.substring 8 8 raw) in
      if (amount =? 0) || (MaxInt64 <? amount) then Err ErrInvalidValue
      else
        rest ← decode_entries n' (String.substring 16 (String.length raw - 16) raw);
        Ok ({| vi_ProposalID := BigEndian_Uint64 (String.substring 0 8 raw); vi_Amount := amount |} :: rest)
  end.
Definition decodeProposalVoteIndex (raw : string) : res error (list ProposalVoteIndexEntry) :=
  if negb (slen raw mod voteIndexEntrySize =? 0) then Err ErrInvalidValue
  else decode_entries (Z.to_nat (slen raw / voteIndexEntrySize)) raw.

Fixpoint encodeProposalVoteIndex (entries : list ProposalVoteIndexEntry) : res error string :=
  match entries with
  | [] => Ok EmptyString
  | e :: rest =>
      if vi_Amount e <=? 0 then Err ErrInvalidValue
      else
        raw ← encodeProposalVoteIndex rest;
        Ok (be_bytes (vi_ProposalID e) +:+ be_bytes (vi_Amount e) +:+ raw)
  end.

Definition upsertProposalVoteIndex (entries : list ProposalVoteIndexEntry) (proposalID amount : Z)
  : list ProposalVoteIndexEntry * bool :=
  match list_find (fun e => vi_ProposalID e = proposalID) entries with
  | None => (entries ++ [{| vi_ProposalID := proposalID; vi_Amount := amount |}], true)
  | Some (i, e) =>
      if vi_Amount e =? amount then (entries, false)
      else (<[i := {| vi_ProposalID := vi_ProposalID e; vi_Amount := amount |}]> entries, true)
  end.

(** The ids of all buckets ([kdautils.ActiveProposalIDs]). *)
Definition ActiveProposalIDs (controller : ProposalController) : gset Z :=
  list_to_set (concat ((fun b => default [] b.2) <$> map_to_list (pc_ActiveProposals controller))).

Definition dropInactiveProposalVotes (entries : list ProposalVoteIndexEntry) (controller : ProposalController)
  : list ProposalVoteIndexEntry * bool :=
  let active := ActiveProposalIDs controller in
  let entries' := filter (fun e => vi_ProposalID e ∈ active) entries in
  (entries', negb (length entries' =? length entries)%nat).

(** ** The application account *)

Section account.
Context `{TO : TrieOps} {CD : Marshalizer ProposalData} {CC : Marshalizer ProposalController}.

Abbreviation KAM := (M kappAccount error).

(** The controller, without a test for an absent one. *)
Definition read_controller : KAM ProposalController :=
  controllerBytes ← kapp_RetrieveValue ProposalControllerKey;
  lift (Unmarshal controllerBytes).

Definition GetProposalData (proposalID : Z) : KAM ProposalData :=
  proposalBytes ← kapp_RetrieveValue (ToProposalKey proposalID);
  _ ← reject_if (slen proposalBytes =? 0) ErrProposalNotFound;
  lift (Unmarshal proposalBytes).

Definition write_controller (controller : ProposalController) : KAM unit :=
  data ← lift (Marshal controller);
  kapp_SaveKeyValue ProposalControllerKey data.

Definition write_proposal (proposalID : Z) (proposal : ProposalData) : KAM unit :=
  data ← lift (Marshal proposal);
  kapp_SaveKeyValue (ToProposalKey proposalID) data.

Definition SetProposal (proposalID : Z) (proposal : ProposalData) (controller : option ProposalController)
  : KAM unit :=
  _ ← match controller with Some c => write_controller c | None => mret tt end;
  write_proposal proposalID proposal.

Definition mergeAndSaveParameters (initialParams : Params) (current : ProposalController)
  : KAM ProposalController :=
  let current := set_parameters current (pc_ActiveParameters current ∪ initialParams) in
  _ ← write_controller current;
  mret current.

(** The controller of the application when the node starts: the stored one with
    the parameters the forks have added, or the initial one when there is none.
    The result becomes the live controller. *)
Definition StartProposalsKApp (forks : ForkController) : KAM ProposalController := fun a =>
  let initialProposal := NewInitialProposalController forks in
  let start := (_ ← write_controller initialProposal; mret initialProposal) in
  match kapp_RetrieveValue ProposalControllerKey a with
  | (a, Err _) => start a
  | (a, Ok controllerBytes) =>
      if slen controllerBytes =? 0 then start a
      else
        (current ← lift (Unmarshal controllerBytes);
         if (size (pc_ActiveParameters current) <? size (pc_ActiveParameters initialProposal))%nat
         then mergeAndSaveParameters (pc_ActiveParameters initialProposal) current
         else mret current) a
  end.

(** A missing trie and a value deleted since the last save read as absent. *)
Definition retrieveOptional (key : string) : KAM string := fun a =>
  match kapp_RetrieveValue key a with
  | (a', Err e) => if bool_decide (e = ErrNilTrie) || bool_decide (e = ErrNegativeValue)
                   then (a', Ok EmptyString) else (a', Err e)
  | r => r
  end.

Definition PreForkVoteIDBound (controller : ProposalController) : KAM Z :=
  raw ← retrieveOptional ProposalPreForkVotesKey;
  if slen raw =? proposalIDSize then mret (BigEndian_Uint64 raw)
  else if slen raw =? 0 then
    let idBound := pc_ProposalCount controller in
    _ ← kapp_SaveKeyValue ProposalPreForkVotesKey (be_bytes idBound);
    mret idBound
  else fail ErrInvalidValue.

Definition GetAccountProposalVotes (encodedAddr : string) : KAM (list ProposalVoteIndexEntry) :=
  raw ← retrieveOptional (ToAccountProposalVotesKey encodedAddr);
  lift (decodeProposalVoteIndex raw).

Definition SetAccountProposalVotes (encodedAddr : string) (entries : list ProposalVoteIndexEntry) : KAM unit :=
  raw ← lift (encodeProposalVoteIndex entries);
  kapp_SaveKeyValue (ToAccountProposalVotesKey encodedAddr) raw.

Definition addVoterToIndex (encodedAddr : string) (proposalID amount : Z) (controller : ProposalController)
  : KAM unit :=
  entries ← GetAccountProposalVotes encodedAddr;
  let '(entries, pruned) := dropInactiveProposalVotes entries controller in
  let '(entries, changed) := upsertProposalVoteIndex entries proposalID amount in
  if negb pruned && negb changed then mret tt
  else SetAccountProposalVotes encodedAddr entries.
End account.

(** ** Creating proposals and voting *)

(** The context of a contract, with the block time and the live parameters. *)
Record proposalEnv : Type := {
  pe_env :> kappEnv;
  pe_timestamp : Z;
  pe_live : Params;
}.

Section proposal.
Context `{TO : TrieOps} {Peer : Type} `{UA : AccountsAdapter userAccount}
  `{KA : AccountsAdapter kappAccount} `{PA : AccountsAdapter Peer}
  `{CU : Marshalizer UserKDA} `{CS : Marshalizer StakingData}
  {CD : Marshalizer ProposalData} {CC : Marshalizer ProposalController} `{FP : FloatParsers}.
Variable env : proposalEnv.
(** The order in which [range] visits the parameters of a contract. *)
Variable range : gmap Z string -> list (Z * string).

Abbreviation WM := (M (world Peer) error).
Abbreviation KM := (M (world Peer) (txResultCode * error)).
Abbreviation fc := (env_fc env).
Abbreviation cdd := (env_fc env EnableSmartContracts).

(** A panic leaves the handler without a result code; [Transaction_KAPPError]
    stands in for it. *)
Definition or_panic {B} (r : res error B) : KM B := or_code Transaction_KAPPError (lift r).

Definition GetProposal (proposalID : Z) : WM (nat * ProposalData * ProposalController) :=
  proposalKApp ← on_cache (GetExistingKapp ProposalKAppAddress);
  controller ← on_kapp proposalKApp read_controller;
  proposal ← (if negb (proposalID =? 0) then on_kapp proposalKApp (GetProposalData proposalID)
              else mret emptyProposal);
  mret (proposalKApp, proposal, controller).

(** Whether the input is valid; every refusal is [ErrInvalidValue]. *)
Definition validateCreateInput (tc : ProposalContract) : res error bool :=
  if MaxProposalsLength <? Z.of_nat (size (prc_Parameters tc)) then Ok false
  else if MaxDescriptionLength <? slen (prc_Description tc) then Ok false
  else
    maxDuration ← GetParameterUint (pe_live env) EnumParameter_ProposalMaxEpochsDuration;
    if (maxDuration <? prc_EpochsDuration tc) || (size (prc_Parameters tc) =? 0)%nat then Ok false
    else if fc FixAuditChangesV5 && (prc_EpochsDuration tc =? 0) then Ok false
    else Ok true.

Fixpoint validateNewParameters (order : list (Z * string)) (controller : ProposalController) : res error unit :=
  match order with
  | [] => Ok tt
  | (parameter, value) :: rest =>
      if negb (EnumParameter_named parameter) then Err ErrInvalidParameter
      else if slen value =? 0 then Err ErrInvalidValue
      else if negb (utf8_Valid value) || (MaxProposalParamLength <? slen value) then Err ErrInvalidValue
      else
        _ ← ParseParamAndValidate (pc_ActiveParameters controller) parameter value fc;
        validateNewParameters rest controller
  end.

(** The frozen KFI of an account. *)
Definition kfi_of (acc : nat) : WM UserKDA :=
  on_user acc (a ← get; lift (GetUserKDA a (Some KFIIdentifier) EmptyString cdd)).

(** [TotalStaked < MinKFIStakedToEnableProposals]. *)
Definition require_min_staked (staking : StakingData) : KM unit :=
  minStaked ← or_panic (GetParameterInt (pe_live env) EnumParameter_MinKFIStakedToEnableProposals);
  refuse_if env (TotalStaked staking <? minStaked) ErrFieldMinKFIStakedUnreached
    Transaction_MinKFIStakedUnreached ErrMinKFIStaked.

Definition checkStakingRequirements (staking : StakingData) (sender : string) : KM unit :=
  _ ← require_min_staked staking;
  ownerAcc ← or_code Transaction_LoadAccountError (GetExistingUserAccount sender);
  userKFIStaking ← or_code Transaction_AccountError (kfi_of ownerAcc);
  refuse_if env (FrozenBalance userKFIStaking =? 0) ErrFieldInsufficientFrozenKFI
    Transaction_OutOfFunds ErrBalance.

Definition copyProposalDetails (proposal : ProposalData) (totalStaked : Z) (tc : ProposalContract)
    (sender : string) : ProposalData :=
  {| pd_Proposer := sender; pd_TXHash := env_txHash env;
     pd_ProposalStatus := ProposalData_ActiveProposal;
     pd_Parameters := prc_Parameters tc; pd_Description := prc_Description tc;
     pd_EpochStart := env_epoch env; pd_EpochEnd := wrap_u32 (env_epoch env + prc_EpochsDuration tc);
     pd_Votes := ∅; pd_Timestamp := pd_Timestamp proposal; pd_Voters := ∅; pd_TotalStaked := totalStaked |}.

(** The id of the count joins the bucket of its last epoch. *)
Definition updateActiveProposals (controller : ProposalController) (proposal : ProposalData)
  : ProposalController :=
  let b := pc_ActiveProposals controller in
  set_buckets controller
    (<[pd_EpochEnd proposal :=
        match b !! pd_EpochEnd proposal with
        | None | Some None => Some [pc_ProposalCount controller]
        | Some (Some ids) => Some (ids ++ [pc_ProposalCount controller])
        end]> b).
(** [controller.ProposalCount++]. *)
Definition count_up (c : ProposalController) : ProposalController :=
  {| pc_ProposalCount := wrap_u64 (pc_ProposalCount c + 1); pc_ActiveParameters := pc_ActiveParameters c;
     pc_ActiveProposals := pc_ActiveProposals c |}.

Definition finalizeProposal (proposalKapp : nat) (proposal : ProposalData) (controller : ProposalController)
    (staking : StakingData) (tc : ProposalContract) (sender : string) : KM unit :=
  let proposal := copyProposalDetails proposal (TotalStaked staking) tc sender in
  _ ← (if fc FixAuditChangesV5 then
         _ ← or_code Transaction_KAPPError (on_kapp proposalKapp (PreForkVoteIDBound controller)); mret tt
       else mret tt);
  let controller := updateActiveProposals (count_up controller) proposal in
  _ ← or_code Transaction_ParameterInvalid
        (on_kapp proposalKapp (SetProposal (pc_ProposalCount controller) proposal (Some controller)));
  _ ← or_code Transaction_SaveAccountError (on_cache (UpdateKapp proposalKapp));
  let proposalID := FormatUint (pc_ProposalCount controller) in
  _ ← SetReturnData [proposalID];
  Receipts_Add (NewReceipt Receipt_Proposal (env_contractID env) [proposalID]).

Definition Create (sender : string) (tc : ProposalContract) : KM unit :=
  valid ← or_panic (validateCreateInput tc);
  _ ← refuse_if env (negb valid) ErrFieldInvalidProposal Transaction_ParameterInvalid ErrInvalidValue;
  '(proposalKapp, proposal, controller) ← or_code Transaction_AccountError (GetProposal 0);
  _ ← or_refuse env ErrFieldInvalidProposalParams Transaction_ParameterInvalid
        (lift (validateNewParameters (range (prc_Parameters tc)) controller));
  '(_, staking) ← or_code Transaction_AssetError (GetStaking KFIIdentifier);
  _ ← checkStakingRequirements staking sender;
  finalizeProposal proposalKapp proposal controller staking tc sender.

Definition isVoterLimitExceeded (proposal : ProposalData) (encodedAddr : string) : bool :=
  if negb (fc EpochRewardsV2) then false
  else match pd_Voters proposal !! encodedAddr with
       | Some _ => false
       | None => MaxVotersPerProposal <=? Z.of_nat (size (pd_Voters proposal))
       end.

(** The proposal without an earlier vote of another type, and the amount of an
    earlier vote of the same type. *)
Definition processExistingVote (proposal : ProposalData) (encodedAddr : string) (newType : Z)
  : ProposalData * Z :=
  match pd_Voters proposal !! encodedAddr with
  | None | Some None => (proposal, 0)
  | Some (Some v) =>
      if negb (vd_Type v =? newType)
      then (set_votes proposal (votes_sub (pd_Votes proposal) (vd_Type v) (vd_Amount v)) (pd_Voters proposal), 0)
      else (proposal, vd_Amount v)
  end.

(** The proposal after the vote. *)
Definition record_vote (proposal : ProposalData) (encodedAddr : string) (tc : VoteContract)
    (totalStaked : Z) : ProposalData :=
  let '(proposal, oldAmount) := processExistingVote proposal encodedAddr (vc_Type tc) in
  let votes := votes_add (pd_Votes proposal) (vc_Type tc) (vc_Amount tc -! oldAmount) in
  let voters := <[encodedAddr := Some {| vd_Type := vc_Type tc; vd_Amount := vc_Amount tc;
                                         vd_Timestamp := pe_timestamp env |}]> (pd_Voters proposal) in
  set_outcome (set_votes proposal votes voters) (pd_ProposalStatus proposal) totalStaked.

Definition Vote (sender : string) (tc : VoteContract) : KM unit :=
  _ ← refuse_if env (negb (EnumVoteType_named (vc_Type tc))) ErrFieldInvalidVoteType
        Transaction_ParameterInvalid ErrInvalidValue;
  _ ← refuse_if env ((vc_ProposalID tc <=? 0) || (vc_Amount tc <=? 0)) ErrFieldInvalidVoteAmount
        Transaction_ParameterInvalid ErrInvalidValue;
  '(proposalKapp, proposal, controller) ← or_refuse env ErrFieldProposalNotFound Transaction_AccountError
                                            (GetProposal (vc_ProposalID tc));
  _ ← refuse_if env (negb (bool_decide (pd_ProposalStatus proposal = ProposalData_ActiveProposal)))
        ErrFieldProposalNotActive Transaction_ProposalNotActive ErrInvalidParameter;
  '(_, staking) ← or_code Transaction_AssetError (GetStaking KFIIdentifier);
  _ ← require_min_staked staking;
  ownerAcc ← or_code Transaction_LoadAccountError (GetExistingUserAccount sender);
  userKFIStaking ← or_code Transaction_AccountError (kfi_of ownerAcc);
  _ ← refuse_if env (FrozenBalance userKFIStaking <? vc_Amount tc) ErrFieldInsufficientFrozenKFI
        Transaction_OutOfFunds ErrBalance;
  let encodedAddr := EncodeToString sender in
  _ ← refuse_if env (isVoterLimitExceeded proposal encodedAddr) ErrFieldProposalMaxVoters
        Transaction_ParameterInvalid ErrProposalMaxVotersReached;
  let proposal := record_vote proposal encodedAddr tc (TotalStaked staking) in
  _ ← or_code Transaction_ParameterInvalid
        (on_kapp proposalKapp (SetProposal (vc_ProposalID tc) proposal (Some controller)));
  _ ← (if fc FixAuditChangesV5 then
         or_code Transaction_KAPPError
           (on_kapp proposalKapp (addVoterToIndex encodedAddr (vc_ProposalID tc) (vc_Amount tc) controller))
       else mret tt);
  _ ← or_code Transaction_SaveAccountError (on_cache (UpdateKapp proposalKapp));
  voter ← or_code Transaction_LoadAccountError (user_address ownerAcc);
  Receipts_Add (NewReceipt Receipt_ProposalVote (env_contractID env)
    [FormatUint (vc_ProposalID tc); voter; FormatInt (vc_Type tc); FormatInt (vc_Amount tc)]).

(** ** Taking unfrozen KFI out of the votes

    The unfreeze reads the KFI staking total at most once ([sync.OnceValues]):
    the state of these functions is the world with the memo of that read. *)

Record unfreezeState : Type := { us_world : world Peer; us_kfiStaked : option (res error Z) }.
Abbreviation UM := (M unfreezeState error).

Definition on_world {B} (m : WM B) : UM B := fun s =>
  let '(w, r) := m (us_world s) in ({| us_world := w; us_kfiStaked := us_kfiStaked s |}, r).

Definition kfiStaked : UM Z := fun s =>
  match us_kfiStaked s with
  | Some r => (s, r)
  | None =>
      let '(w, r) := ('(_, stakedKFI) ← GetStaking KFIIdentifier; mret (TotalStaked stakedKFI)) (us_world s) in
      ({| us_world := w; us_kfiStaked := Some r |}, r)
  end.

(** The part of [proposalVoteUpdate] that does not change. *)
Record proposalVoteUpdate : Type := {
  pu_proposalKapp : nat; pu_controller : ProposalController; pu_encodedAddr : string;
  pu_unfrozenAmount : Z; pu_ownerAcc : nat; pu_userKDA : UserKDA; pu_activeIDs : gset Z;
}.

(** The proposal after the votes are removed, and the amount for the receipt. *)
Definition remove_votes (encodedAddr : string) (unfrozenAmount : Z) (voter : VoteDetail)
    (proposal : ProposalData) : ProposalData * Z :=
  if vd_Amount voter <=? unfrozenAmount then
    (set_votes proposal (votes_sub (pd_Votes proposal) (vd_Type voter) (vd_Amount voter))
       (delete encodedAddr (pd_Voters proposal)), 0)
  else
    let left := vd_Amount voter -! unfrozenAmount in
    (set_votes proposal (votes_sub (pd_Votes proposal) (vd_Type voter) unfrozenAmount)
       (<[encodedAddr := Some {| vd_Type := vd_Type voter; vd_Amount := left;
                                 vd_Timestamp := vd_Timestamp voter |}]> (pd_Voters proposal)), left).

(** Assigning to the votes of a message that came without any panics. *)
Definition updateVoterAndProposal (update : proposalVoteUpdate) (voter : VoteDetail)
    (proposal : ProposalData) (proposalID : Z) : UM ProposalData :=
  let '(proposal', receiptAmount) :=
    remove_votes (pu_encodedAddr update) (pu_unfrozenAmount update) voter proposal in
  _ ← reject_if (bool_decide (pd_Votes proposal = ∅)) GoPanic;
  owner ← on_world (user_address (pu_ownerAcc update));
  _ ← modify (fun s => {| us_world := (Receipts_Add (NewReceipt Receipt_ProposalVote (env_contractID env)
        [FormatUint proposalID; owner; FormatInt (vd_Type voter); FormatInt receiptAmount]) (us_world s)).1;
                          us_kfiStaked := us_kfiStaked s |});
  mret proposal'.

Definition updateProposalTotalStaked (proposal : ProposalData) : UM ProposalData :=
  if negb cdd then mret proposal
  else
    total ← kfiStaked;
    mret (set_outcome proposal (pd_ProposalStatus proposal) total).

(** The vote of the caller that remains. *)
Definition shrinkVoteIfUncovered (update : proposalVoteUpdate) (proposal : ProposalData) (id : Z)
  : UM (option VoteDetail) :=
  match pd_Voters proposal !! pu_encodedAddr update with
  | None | Some None => mret None
  | Some (Some voter) =>
      if FrozenBalance (pu_userKDA update) <? vd_Amount voter then
        proposal ← updateVoterAndProposal update voter proposal id;
        proposal ← updateProposalTotalStaked proposal;
        _ ← on_world (on_kapp (pu_proposalKapp update) (SetProposal id proposal None));
        mret (default None (pd_Voters proposal !! pu_encodedAddr update))
      else mret (Some voter)
  end.

(** What an index entry becomes; a missing proposal drops its entry. *)
Definition rebuildIndexEntry (update : proposalVoteUpdate) (entry : ProposalVoteIndexEntry)
  : UM (option ProposalVoteIndexEntry) :=
  if negb (bool_decide (vi_ProposalID entry ∈ pu_activeIDs update)) then mret None
  else if vi_Amount entry <=? FrozenBalance (pu_userKDA update) then mret (Some entry)
  else fun s =>
    match on_world (on_kapp (pu_proposalKapp update) (GetProposalData (vi_ProposalID entry))) s with
    | (s', Err e) => if bool_decide (e = ErrProposalNotFound) then (s', Ok None) else (s', Err e)
    | (s', Ok proposal) =>
        (remaining ← shrinkVoteIfUncovered update proposal (vi_ProposalID entry);
         mret ((fun v => {| vi_ProposalID := vi_ProposalID entry; vi_Amount := vd_Amount v |}) <$> remaining)) s'
    end.

(** The loop over the entries: the ids seen and the rebuilt entries. *)
Fixpoint rebuild_loop (update : proposalVoteUpdate) (entries : list ProposalVoteIndexEntry) (skip : gset Z)
    (kept : list ProposalVoteIndexEntry) : UM (gset Z * list ProposalVoteIndexEntry) :=
  match entries with
  | [] => mret (skip, kept)
  | entry :: rest =>
      if bool_decide (vi_ProposalID entry ∈ skip) then rebuild_loop update rest skip kept
      else
        rebuilt ← rebuildIndexEntry update entry;
        rebuild_loop update rest ({[vi_ProposalID entry]} ∪ skip)
          (match rebuilt with Some e => kept ++ [e] | None => kept end)
  end.

Fixpoint processActiveProposal (update : proposalVoteUpdate) (ids : list Z) (skip : gset Z) (idBound : Z)
  : UM unit :=
  match ids with
  | [] => mret tt
  | id :: rest =>
      _ ← (if bool_decide (id ∈ skip) then mret tt
           else if idBound <? id then mret tt
           else
             proposal ← on_world (on_kapp (pu_proposalKapp update) (GetProposalData id));
             _ ← shrinkVoteIfUncovered update proposal id;
             mret tt);
      processActiveProposal update rest skip idBound
  end.

(** The buckets in ascending order of their epoch. *)
Fixpoint scan_buckets (update : proposalVoteUpdate) (epochs : list Z) (skip : gset Z) (idBound : Z) : UM unit :=
  match epochs with
  | [] => mret tt
  | e :: rest =>
      _ ← processActiveProposal update
            (default [] (default None (pc_ActiveProposals (pu_controller update) !! e))) skip idBound;
      scan_buckets update rest skip idBound
  end.
Definition scanActiveProposals (update : proposalVoteUpdate) (skip : gset Z) (idBound : Z) : UM unit :=
  scan_buckets update (merge_sort Z.le (map_to_list (pc_ActiveProposals (pu_controller update))).*1) skip idBound.

Definition with_activeIDs (u : proposalVoteUpdate) (ids : gset Z) : proposalVoteUpdate :=
  {| pu_proposalKapp := pu_proposalKapp u; pu_controller := pu_controller u;
     pu_encodedAddr := pu_encodedAddr u; pu_unfrozenAmount := pu_unfrozenAmount u;
     pu_ownerAcc := pu_ownerAcc u; pu_userKDA := pu_userKDA u; pu_activeIDs := ids |}.

Definition processIndexedProposalVotes (update : proposalVoteUpdate) : UM unit :=
  let on_app {B} (m : M kappAccount error B) : UM B := on_world (on_kapp (pu_proposalKapp update) m) in
  entries ← on_app (GetAccountProposalVotes (pu_encodedAddr update));
  let update := if (0 <? length entries)%nat
                then with_activeIDs update (ActiveProposalIDs (pu_controller update)) else update in
  '(skip, kept) ← rebuild_loop update entries ∅ [];
  _ ← (if bool_decide (kept = entries) then mret tt
       else on_app (SetAccountProposalVotes (pu_encodedAddr update) kept));
  idBound ← on_app (PreForkVoteIDBound (pu_controller update));
  scanActiveProposals update skip idBound.

Definition handleProposalVotesOnUnfreeze (ownerAcc : nat) (assetID sender : string) (unfrozenAmount : Z)
  : KM unit :=
  if negb (str_eqb assetID KFIIdentifier) then mret tt
  else
    '(proposalKapp, _, controller) ← or_code Transaction_AccountError (GetProposal 0);
    userKDA ← or_code Transaction_AccountError
      (on_user ownerAcc (a ← get; lift (GetUserKDA a (Some assetID) EmptyString cdd)));
    let update := {| pu_proposalKapp := proposalKapp; pu_controller := controller;
                     pu_encodedAddr := EncodeToString sender; pu_unfrozenAmount := unfrozenAmount;
                     pu_ownerAcc := ownerAcc; pu_userKDA := userKDA; pu_activeIDs := ∅ |} in
    _ ← or_code Transaction_AccountError (fun w =>
          let '(s, r) := (if fc FixAuditChangesV5 then processIndexedProposalVotes update
                          else scanActiveProposals update ∅ MaxUint64)
                         {| us_world := w; us_kfiStaked := None |} in
          (us_world s, r));
    or_code Transaction_AccountError (on_cache (UpdateKapp proposalKapp)).
End proposal.

(** ** Settling proposals at the start of an epoch

    The block processor works on accounts it loads from the application
    database, below the cache; the account is a value until it is saved. *)

Section settlement.
Context `{TO : TrieOps} `{KA : AccountsAdapter kappAccount} `{CS : Marshalizer StakingData}
  {CD : Marshalizer ProposalData} {CC : Marshalizer ProposalController} `{FP : FloatParsers}.
Variable fc : ForkController.
(** The order in which [range] visits the parameters of a proposal. *)
Variable range : gmap Z string -> list (Z * string).

Abbreviation KAM := (M kappAccount error).

Definition getProposalKApp (proposalID : Z) : KAM ProposalData :=
  if negb (proposalID =? 0) then
    proposalBytes ← kapp_RetrieveValue (ToProposalKey proposalID);
    _ ← reject_if (slen proposalBytes =? 0) ErrEmptyString;
    lift (Unmarshal proposalBytes)
  else mret emptyProposal.

Definition setProposalController (controller : ProposalController) : KAM unit := write_controller controller.
Definition setProposalKApp (proposalID : Z) (proposal : ProposalData) : KAM unit :=
  write_proposal proposalID proposal.

Definition determineProposalStatus (proposal : ProposalData) (kfi : StakingData) : EnumProposalStatus :=
  if Z.quot (TotalStaked kfi) 2 <? default 0 (pd_Votes proposal !! VoteDetail_Yes)
  then ProposalData_ApprovedProposal else ProposalData_DeniedProposal.

Definition processSingleProposal (controller : ProposalController) (kfi : StakingData) (proposalID : Z)
  : KAM (ProposalData * ProposalController) :=
  proposal ← getProposalKApp proposalID;
  let status := determineProposalStatus proposal kfi in
  let proposal := set_outcome proposal status (TotalStaked kfi) in
  if negb (bool_decide (status = ProposalData_ApprovedProposal)) then mret (proposal, controller)
  else
    let params := pc_ActiveParameters controller in
    let order := range (pd_Parameters proposal) in
    if fc FixAuditChangesV6 && negb (is_ok (validateProposalParameters fc order params))
    then mret (set_outcome proposal ProposalData_DeniedProposal (TotalStaked kfi), controller)
    else
      params' ← lift (updateApprovedProposalParameters fc order params);
      mret (proposal, set_parameters controller params').

(** The ids for the indexer and the controller after the bucket [ids]. *)
Fixpoint processAllProposals (controller : ProposalController) (kfi : StakingData) (ids : list Z)
  : KAM (list string * ProposalController) :=
  match ids with
  | [] => mret ([], controller)
  | proposalID :: rest =>
      '(proposal, controller) ← processSingleProposal controller kfi proposalID;
      _ ← setProposalKApp proposalID proposal;
      '(proposalsToUpdate, controller) ← processAllProposals controller kfi rest;
      mret (FormatUint proposalID :: proposalsToUpdate, controller)
  end.

(** The application database and the live parameters. *)
Record settleState : Type := { ss_db : adb; ss_live : Params }.
Abbreviation SM := (M settleState error).

(** Running an operation of a loaded account, which stays unsaved. *)
Definition on_account {B} (a : kappAccount) (m : KAM B) : SM (kappAccount * B) :=
  match m a with (a', Ok x) => mret (a', x) | (_, Err e) => fail e end.

Definition loadProposalController : SM (kappAccount * ProposalController) :=
  s ← get;
  proposalKApp ← lift (adb_Load (ss_db s) ProposalKAppAddress);
  on_account proposalKApp read_controller.

Definition getProposalController : SM (kappAccount * ProposalController) :=
  '(proposalKApp, controller) ← loadProposalController;
  let '(params, merged) := mergeInitialParameters (pc_ActiveParameters controller) fc in
  let controller := set_parameters controller params in
  if merged then
    '(proposalKApp, _) ← on_account proposalKApp (write_controller controller);
    _ ← modify (fun s => {| ss_db := ss_db s; ss_live := UpdateParameters (ss_live s) params |});
    mret (proposalKApp, controller)
  else mret (proposalKApp, controller).

(** The KLV and the KFI staking data. *)
Definition getNativeStakingKApps : SM (StakingData * StakingData) :=
  s ← get;
  stakingKapp ← lift (adb_Load (ss_db s) StakingKAppAddress);
  klvStakedBytes ← lift (RetrieveValue (kapp_tracker stakingKapp) (ToKDAKey KLVIdentifier EmptyString));
  _ ← reject_if (slen klvStakedBytes =? 0) ErrEmptyString;
  kfiStakedBytes ← lift (RetrieveValue (kapp_tracker stakingKapp) (ToKDAKey KFIIdentifier EmptyString));
  _ ← reject_if (slen kfiStakedBytes =? 0) ErrEmptyString;
  klvStaking ← lift (Unmarshal klvStakedBytes);
  kfiStaking ← lift (Unmarshal kfiStakedBytes);
  mret (klvStaking, kfiStaking).

Definition finalizeProposalUpdates (proposalKApp : kappAccount) (controller : ProposalController) : SM unit :=
  '(proposalKApp, _) ← on_account proposalKApp (setProposalController controller);
  _ ← (fun s => let '(db, _, r) := adb_Save (ss_db s) proposalKApp in
                ({| ss_db := db; ss_live := ss_live s |}, r));
  modify (fun s => {| ss_db := ss_db s;
                      ss_live := UpdateParameters (ss_live s) (pc_ActiveParameters controller) |}).

Definition processProposalsEndOfEpoch (epoch : Z) : SM (list string) :=
  '(proposalKApp, controller) ← getProposalController;
  match pc_ActiveProposals controller !! epoch with
  | None | Some None => mret []
  | Some (Some ids) =>
      '(_, kfi) ← getNativeStakingKApps;
      '(proposalKApp, (proposalsToUpdate, controller)) ←
        on_account proposalKApp (processAllProposals controller kfi ids);
      let controller := set_buckets controller (delete epoch (pc_ActiveProposals controller)) in
      _ ← finalizeProposalUpdates proposalKApp controller;
      mret proposalsToUpdate
  end.

(** [reloadProposalParameters]: the live set again from the database; without a
    trie, from the defaults. *)
Definition reloadProposalParameters : SM unit := fun s =>
  let from c := ({| ss_db := ss_db s;
                    ss_live := RestoreParameters (ss_live s)
                                 (mergeInitialParameters (pc_ActiveParameters c) fc).1 |}, Ok tt) in
  match loadProposalController s with
  | (_, Ok (_, c)) => from c
  | (_, Err e) => if bool_decide (e = ErrNilTrie) then from emptyController else (s, Err e)
  end.
End settlement.
