(* ===== verification/ProposalProps.v ===== *)
(** * Governance: what votes count and what they change

    What the application account of proposals stores, how each operation of
    [Proposals] changes it, and the invariant every sequence of creations,
    votes, freezes, unfreezes and settlements keeps. *)

From S2P Require Import Prelude Common Strconv GoStd Forks Tools Permissions KdaUtils KdaData DataTrie UserAccount Codec.
From S2P Require Import Balances AccountsCache Staking World SystemAccount KdaKapp WorldLemmas NetParams Proposals.
From Stdlib Require Import Ascii.
Local Open Scope Z_scope.
#[local] Arguments be_bytes _ : simpl never.

(** ** The vote index as bytes *)

Definition entry_ok (e : ProposalVoteIndexEntry) : Prop :=
  is_u64 (vi_ProposalID e) /\ 0 < vi_Amount e <= MaxInt64.

Lemma be_value_app acc a b : be_value acc (a +:+ b) = be_value (be_value acc a) b.
Proof. revert acc. induction a as [|c a IH]; intros acc; [done|]. rewrite string_app_cons. cbn. apply IH. Qed.

Lemma be_aux_app n u acc : be_aux n u acc = be_aux n u EmptyString +:+ acc.
Proof.
  revert u acc. induction n as [|n IH]; intros u acc; [done|]. cbn. rewrite IH, (IH _ (String _ _)).
  by rewrite <- string_app_assoc.
Qed.

Lemma be_aux_length n u : String.length (be_aux n u EmptyString) = n.
Proof.
  revert u. induction n as [|n IH]; intros u; [done|]. cbn. rewrite be_aux_app, string_length_app, IH. cbn. lia.
Qed.

Lemma be_aux_value n u : 0 <= u < 256 ^ Z.of_nat n -> be_value 0 (be_aux n u EmptyString) = u.
Proof.
  revert u. induction n as [|n IH]; intros u Hu; [cbn in *; lia|].
  cbn [be_aux]. rewrite be_aux_app, be_value_app, IH by (by apply shiftr8_lt).
  cbn. rewrite ascii_byte_of. pose proof (byte_split u). lia.
Qed.

Lemma be_bytes_length z : String.length (be_bytes z) = 8%nat.
Proof. apply be_aux_length. Qed.
Lemma be_bytes_value z : is_u64 z -> BigEndian_Uint64 (be_bytes z) = z.
Proof.
  intros Hz. unfold BigEndian_Uint64, be_bytes. rewrite wrap_u64_id by done.
  apply be_aux_value. by apply u64_bytes.
Qed.

(** The value of 8 bytes determines them. *)
Lemma be_value_bound acc s : 0 <= acc -> acc * 256 ^ slen s <= be_value acc s < (acc + 1) * 256 ^ slen s.
Proof.
  revert acc. induction s as [|c s IH]; intros acc Ha; [change (slen EmptyString) with 0; rewrite Z.pow_0_r; cbn; lia|].
  cbn [be_value].
  pose proof (ascii_Z_range c). specialize (IH (acc * 256 + ascii_Z c) ltac:(lia)).
  replace (slen (String c s)) with (Z.succ (slen s)) by (unfold slen; cbn [String.length]; lia).
  rewrite Z.pow_succ_r by (unfold slen; lia). nia.
Qed.

Lemma BigEndian_u64 s : String.length s = 8%nat -> is_u64 (BigEndian_Uint64 s).
Proof.
  intros H. unfold BigEndian_Uint64. pose proof (be_value_bound 0 s ltac:(lia)) as B.
  replace (slen s) with 8 in B by (unfold slen; lia). change (256 ^ 8) with 18446744073709551616 in B. ilia.
Qed.

Lemma ascii_Z_inj c d : ascii_Z c = ascii_Z d -> c = d.
Proof.
  unfold ascii_Z. intros H. apply N2Z.inj in H. rewrite <- (ascii_N_embedding c), <- (ascii_N_embedding d). congruence.
Qed.

Lemma be_value_inj acc acc' s t :
  0 <= acc -> 0 <= acc' -> String.length s = String.length t -> be_value acc s = be_value acc' t -> acc = acc' /\ s = t.
Proof.
  revert acc acc' t. induction s as [|c s IH]; intros acc acc' [|d t] Ha Ha' Hl; cbn; try done.
  intros H. injection Hl as Hl. pose proof (ascii_Z_range c). pose proof (ascii_Z_range d).
  destruct (IH (acc * 256 + ascii_Z c) (acc' * 256 + ascii_Z d) t ltac:(lia) ltac:(lia) Hl H) as [E ->].
  assert (acc = acc') as -> by lia. split; [done|]. f_equal. apply ascii_Z_inj. lia.
Qed.

Lemma be_bytes_BigEndian s : String.length s = 8%nat -> be_bytes (BigEndian_Uint64 s) = s.
Proof.
  intros H. pose proof (be_bytes_value _ (BigEndian_u64 s H)) as E. unfold BigEndian_Uint64 in E at 1.
  apply be_value_inj in E as [_ E]; [done|lia|lia|]. by rewrite be_bytes_length.
Qed.

(** *** Substrings *)

Lemma substring_skip (a b : string) k n : String.length a = k ->
  String.substring k n (a +:+ b) = String.substring 0 n b.
Proof. revert k. induction a as [|c a IH]; intros k <-; [done|]. rewrite string_app_cons. cbn. by apply IH. Qed.

Lemma substring_all (b : string) : String.substring 0 (String.length b) b = b.
Proof. induction b as [|c b IH]; [done|]. cbn. by rewrite IH. Qed.

Lemma substring_parts (a b c : string) :
  String.length a = 8%nat -> String.length b = 8%nat ->
  let raw := a +:+ b +:+ c in
  String.substring 0 8 raw = a /\ String.substring 8 8 raw = b /\
  String.substring 16 (String.length raw - 16) raw = c.
Proof.
  intros Ha Hb raw. subst raw. split; [rewrite <- Ha; apply string_substring_app|]. split.
  - rewrite (substring_skip a) by done. rewrite <- Hb. apply string_substring_app.
  - rewrite string_app_assoc, (substring_skip (a +:+ b)) by (rewrite string_length_app; lia).
    rewrite string_length_app, string_length_app, Ha, Hb.
    replace (8 + 8 + String.length c - 16)%nat with (String.length c) by lia. apply substring_all.
Qed.

Lemma string_cut (s : string) n : (n <= String.length s)%nat ->
  exists a b, s = a +:+ b /\ String.length a = n.
Proof.
  revert n. induction s as [|c s IH]; intros [|n] H; cbn in H; try lia.
  - by exists EmptyString, EmptyString.
  - by exists EmptyString, (String c s).
  - destruct (IH n ltac:(lia)) as (a & b & -> & <-). by exists (String c a), b.
Qed.

(** *** Decoding and encoding *)

Lemma encode_length es b :
  encodeProposalVoteIndex es = Ok b -> String.length b = (16 * length es)%nat.
Proof.
  revert b. induction es as [|e es IH]; intros b; cbn [encodeProposalVoteIndex]; [by intros [= <-]|].
  destruct (_ <=? 0); [done|]. destruct (encodeProposalVoteIndex es) as [r|]; [|done]. intros [= <-].
  rewrite !string_length_app, !be_bytes_length, (IH r eq_refl). cbn [length]. lia.
Qed.

Lemma decode_entries_encode es b :
  Forall entry_ok es -> encodeProposalVoteIndex es = Ok b -> decode_entries (length es) b = Ok es.
Proof.
  intros H. revert b. induction H as [|e es [Hid Ham] _ IH]; intros b; cbn [encodeProposalVoteIndex];
    [by intros [= <-]|].
  destruct (Z.leb_spec (vi_Amount e) 0); [lia|].
  destruct (encodeProposalVoteIndex es) as [r|] eqn:Er; [|done]. intros Hb. cbn in Hb. injection Hb as <-.
  cbn [length decode_entries].
  destruct (substring_parts (be_bytes (vi_ProposalID e)) (be_bytes (vi_Amount e)) r) as (E1 & E2 & E3);
    [apply be_bytes_length..|]. cbn zeta in E1, E2, E3. rewrite E1, E2, E3.
  rewrite !be_bytes_value by ilia.
  destruct (Z.eqb_spec (vi_Amount e) 0); [lia|]. destruct (Z.ltb_spec MaxInt64 (vi_Amount e)); [lia|].
  cbn [orb]. rewrite (IH r eq_refl). cbn. by destruct e.
Qed.

Lemma decode_encode es b :
  Forall entry_ok es -> encodeProposalVoteIndex es = Ok b -> decodeProposalVoteIndex b = Ok es.
Proof.
  intros H Hb. unfold decodeProposalVoteIndex. unfold slen. rewrite (encode_length _ _ Hb).
  change voteIndexEntrySize with 16.
  replace (Z.of_nat (16 * length es)) with (Z.of_nat (length es) * 16) by lia.
  rewrite Z.mod_mul, Z.div_mul, Nat2Z.id by lia. by apply decode_entries_encode.
Qed.

Lemma decode_entries_spec n b es :
  String.length b = (16 * n)%nat -> decode_entries n b = Ok es ->
  Forall entry_ok es /\ encodeProposalVoteIndex es = Ok b.
Proof.
  revert b es. induction n as [|n IH]; intros b es Hl; cbn [decode_entries].
  { intros [= <-]. destruct b; [|cbn in Hl; lia]. by split; [constructor|]. }
  destruct (string_cut b 8) as (i & r & -> & Hi); [lia|].
  rewrite string_length_app in Hl. destruct (string_cut r 8) as (m & c & -> & Hm); [lia|].
  rewrite string_length_app in Hl. destruct (substring_parts i m c Hi Hm) as (E1 & E2 & E3).
  cbn zeta in E1, E2, E3. rewrite E1, E2, E3. cbn zeta.
  destruct (Z.eqb_spec (BigEndian_Uint64 m) 0); [done|]. destruct (Z.ltb_spec MaxInt64 (BigEndian_Uint64 m)); [done|].
  cbn [orb]. destruct (decode_entries n c) as [rest|] eqn:Er; [|done]. cbn. intros [= <-].
  pose proof (BigEndian_u64 m Hm). destruct (IH c rest ltac:(lia) Er) as [Hok He]. split.
  - constructor; [|done]. split; cbn; [by apply BigEndian_u64|ilia].
  - cbn. destruct (Z.leb_spec (BigEndian_Uint64 m) 0); [ilia|]. rewrite He. cbn.
    by rewrite !be_bytes_BigEndian.
Qed.

Lemma decode_spec b es :
  decodeProposalVoteIndex b = Ok es -> Forall entry_ok es /\ encodeProposalVoteIndex es = Ok b.
Proof.
  unfold decodeProposalVoteIndex. change voteIndexEntrySize with 16.
  destruct (Z.eqb_spec (slen b mod 16) 0) as [E|]; [|done]. cbn [negb].
  intros H. eapply decode_entries_spec; [|exact H].
  pose proof (Z.div_mod (slen b) 16 ltac:(lia)) as D. rewrite E in D.
  assert (0 <= slen b / 16) by (apply Z.div_pos; unfold slen; lia). unfold slen in *. lia.
Qed.

(** C40: the stored vote index is a faithful encoding: bytes decode to a list of
    entries exactly when every entry has a 64-bit id and a positive [int64]
    amount and the list encodes to those bytes; so what an unfreeze reads is
    what the votes wrote, and corrupt bytes are refused, never misread. *)
Theorem vote_index_roundtrip (b : string) (es : list ProposalVoteIndexEntry) :
  decodeProposalVoteIndex b = Ok es <-> Forall entry_ok es /\ encodeProposalVoteIndex es = Ok b.
Proof. split; [apply decode_spec|]. intros [H E]. by apply decode_encode. Qed.

(** ** What the application account stores *)

Lemma ToProposalKey_inj i j : is_u64 i -> is_u64 j -> ToProposalKey i = ToProposalKey j -> i = j.
Proof.
  intros Hi Hj E. unfold ToProposalKey in E. apply string_app_inj_l, string_app_inj_l in E.
  apply (f_equal ParseUint) in E. rewrite !ParseUint_FormatUint in E by done. congruence.
Qed.
Lemma votes_key_not_proposal s i : ToAccountProposalVotesKey s <> ToProposalKey i.
Proof. discriminate. Qed.
Lemma votes_key_not_prefork s : ToAccountProposalVotesKey s <> ProposalPreForkVotesKey.
Proof. discriminate. Qed.
Lemma prefork_not_proposal i : ProposalPreForkVotesKey <> ToProposalKey i.
Proof. discriminate. Qed.
Lemma votes_key_inj s t : ToAccountProposalVotesKey s = ToAccountProposalVotesKey t -> s = t.
Proof. intros E. unfold ToAccountProposalVotesKey in E. by apply string_app_inj_l, string_app_inj_l in E. Qed.
#[local] Hint Resolve votes_key_not_proposal votes_key_not_prefork prefork_not_proposal : core.

Section app.
Context `{TO : TrieOps} {CD : Marshalizer ProposalData} {CC : Marshalizer ProposalController}.
Implicit Types (a : kappAccount).

(** The bytes under a key, empty when there are none. *)
Definition bytes_at a (key : string) : res error string := (retrieveOptional key a).2.

Definition stored {T} `{Marshalizer T} a (key : string) : option T :=
  match bytes_at a key with
  | Ok b => if slen b =? 0 then None else match Unmarshal b with Ok x => Some x | Err _ => None end
  | Err _ => None
  end.

Definition controller_at a : option ProposalController := stored a ProposalControllerKey.
Definition proposal_at a (id : Z) : option ProposalData := stored a (ToProposalKey id).
Definition index_at a (s : string) : res error (list ProposalVoteIndexEntry) :=
  b ← bytes_at a (ToAccountProposalVotesKey s); decodeProposalVoteIndex b.

Lemma retrieveOptional_spec key a : retrieveOptional key a = (a, bytes_at a key).
Proof.
  unfold bytes_at, retrieveOptional, kapp_RetrieveValue. destruct (RetrieveValue _ key) as [v|e]; [done|].
  by destruct (_ || _).
Qed.

Lemma bytes_at_retrieve a key b :
  RetrieveValue (kapp_tracker a) key = Ok b -> bytes_at a key = Ok b.
Proof. unfold bytes_at, retrieveOptional, kapp_RetrieveValue. by intros ->. Qed.

Lemma bytes_at_nonempty a key b :
  bytes_at a key = Ok b -> b <> EmptyString -> RetrieveValue (kapp_tracker a) key = Ok b.
Proof.
  unfold bytes_at, retrieveOptional, kapp_RetrieveValue. destruct (RetrieveValue _ key) as [v|e]; cbn; [done|].
  destruct (_ || _); cbn; congruence.
Qed.

(** *** Writing *)

Lemma save_bytes key v a a' :
  kapp_SaveKeyValue key v a = (a', Ok tt) -> key <> EmptyString ->
  kapp_Address a' = kapp_Address a /\ bytes_at a' key = Ok v /\
  (forall k, k <> key -> bytes_at a' k = bytes_at a k).
Proof.
  unfold kapp_SaveKeyValue. destruct (SaveKeyValue (kapp_tracker a) key v) as [t|] eqn:E; [|done].
  intros [= <-] Hk. split; [done|]. split.
  - unfold bytes_at, retrieveOptional, kapp_RetrieveValue. cbn.
    destruct (decide (v = EmptyString)) as [->|Hv]; [|by rewrite (retrieve_save_eq _ _ _ _ E Hv)].
    rewrite (retrieve_deleted _ _ _ E); [done|]. destruct key; [done|]. unfold slen. cbn [String.length]. lia.
  - intros k Hne. unfold bytes_at, retrieveOptional, kapp_RetrieveValue. cbn.
    rewrite (retrieve_save_ne _ _ _ _ _ E) by congruence.
    destruct (RetrieveValue _ k); [done|]. by destruct (_ || _).
Qed.

Lemma save_message {T} (C : Marshalizer T) (zero : T) {PC : ProtoCodec C zero} key (x : T) data a a' :
  Marshal x = Ok data -> x <> zero -> kapp_SaveKeyValue key data a = (a', Ok tt) -> key <> EmptyString ->
  stored a' key = Some x.
Proof.
  intros Hm Hz Hs Hk. destruct (save_bytes _ _ _ _ Hs Hk) as (_ & Hb & _). unfold stored. rewrite Hb.
  assert (data <> EmptyString) as Hne by (intros ->; by apply pc_empty in Hm).
  rewrite (proj2 (Z.eqb_neq _ _)) by (by intros E%slen_zero).
  by rewrite (unmarshal_marshal _ _ Hm), pc_canon.
Qed.

Lemma stored_same {T} `{Marshalizer T} a a' key :
  bytes_at a' key = bytes_at a key -> stored a' key = stored a key.
Proof. unfold stored. by intros ->. Qed.

(** *** Reading *)

Lemma read_controller_spec a a' c c' :
  read_controller a = (a', Ok c') -> controller_at a = Some c -> a' = a /\ c' = c.
Proof.
  unfold read_controller, mbind, M_bind, kapp_RetrieveValue. destruct (RetrieveValue _ _) as [b|] eqn:E; [|done].
  unfold lift. intros [= <- Hu]. unfold controller_at, stored. rewrite (bytes_at_retrieve _ _ _ E).
  destruct (slen b =? 0); [done|]. rewrite Hu. by intros [= <-].
Qed.

Lemma GetProposalData_ok a a' id p :
  GetProposalData id a = (a', Ok p) -> a' = a /\ proposal_at a id = Some p.
Proof.
  unfold GetProposalData, mbind, M_bind, kapp_RetrieveValue. destruct (RetrieveValue _ _) as [b|] eqn:E; [|done].
  unfold reject_if. destruct (slen b =? 0) eqn:Eb; [done|]. cbn. unfold lift. intros [= <- Hu].
  split; [done|]. unfold proposal_at, stored. by rewrite (bytes_at_retrieve _ _ _ E), Eb, Hu.
Qed.

Lemma GetProposalData_reads id a : (GetProposalData id a).1 = a.
Proof.
  unfold GetProposalData, mbind, M_bind, kapp_RetrieveValue. destruct (RetrieveValue _ _) as [b|] eqn:E; [|done].
  unfold reject_if. by destruct (slen b =? 0).
Qed.

Lemma read_controller_reads a : (read_controller a).1 = a.
Proof. unfold read_controller, mbind, M_bind, kapp_RetrieveValue. by destruct (RetrieveValue _ _). Qed.

Lemma GetProposalData_missing a a' id :
  GetProposalData id a = (a', Err ErrProposalNotFound) -> a' = a.
Proof. intros E. pose proof (GetProposalData_reads id a) as R. by rewrite E in R. Qed.

Lemma GetAccountProposalVotes_spec s a : GetAccountProposalVotes s a = (a, index_at a s).
Proof.
  unfold GetAccountProposalVotes, mbind, M_bind. rewrite retrieveOptional_spec. unfold index_at.
  by destruct (bytes_at a _).
Qed.
End app.

(** ** Votes and tallies *)

(** What a voter has on a proposal. *)
Definition vote_of (p : ProposalData) (s : string) : Z :=
  match pd_Voters p !! s with Some (Some v) => vd_Amount v | _ => 0 end.

Definition vote_for (t : Z) (o : option VoteDetail) : Z :=
  match o with Some v => if vd_Type v =? t then vd_Amount v else 0 | None => 0 end.

(** The votes of a type, voter by voter. *)
Definition tally_of (p : ProposalData) (t : Z) : Z := msum (vote_for t) (pd_Voters p).

(** The running count of each type is what the voters have, as an [int64]. *)
Definition tally_ok (p : ProposalData) : Prop :=
  forall t, default 0 (pd_Votes p !! t) = wrap_i64 (tally_of p t).

Lemma votes_add_get votes t x u :
  default 0 (votes_add votes t x !! u) = if decide (t = u) then default 0 (votes !! t) +! x else default 0 (votes !! u).
Proof. unfold votes_add. case_decide; subst; by simplify_map_eq. Qed.
Lemma votes_sub_get votes t x u :
  default 0 (votes_sub votes t x !! u) = if decide (t = u) then default 0 (votes !! t) -! x else default 0 (votes !! u).
Proof. unfold votes_sub. case_decide; subst; by simplify_map_eq. Qed.

(** Counting a change of one voter's entry. *)
Lemma tally_insert p s o votes t :
  tally_of (set_votes p votes (<[s := o]> (pd_Voters p))) t =
  tally_of p t - vote_for t (default None (pd_Voters p !! s)) + vote_for t o.
Proof.
  unfold tally_of. cbn. rewrite msum_insert. destruct (pd_Voters p !! s); cbn; lia.
Qed.
Lemma tally_delete p s o votes t :
  pd_Voters p !! s = Some o ->
  tally_of (set_votes p votes (delete s (pd_Voters p))) t = tally_of p t - vote_for t o.
Proof. intros H. unfold tally_of. cbn. rewrite (msum_delete _ _ _ _ H). lia. Qed.

Lemma vote_of_insert p s v votes u :
  vote_of (set_votes p votes (<[s := Some v]> (pd_Voters p))) u = if decide (s = u) then vd_Amount v else vote_of p u.
Proof. unfold vote_of. cbn. case_decide; subst; by simplify_map_eq. Qed.
Lemma vote_of_delete p s votes u :
  vote_of (set_votes p votes (delete s (pd_Voters p))) u = if decide (s = u) then 0 else vote_of p u.
Proof. unfold vote_of. cbn. case_decide; subst; by simplify_map_eq. Qed.

(** The counts follow one entry of the voters. *)
Lemma tally_update p p' s (o : option VoteDetail) :
  tally_ok p -> pd_Voters p' = <[s := o]> (pd_Voters p) ->
  (forall t, cong64 (default 0 (pd_Votes p' !! t))
               (default 0 (pd_Votes p !! t) + vote_for t o - vote_for t (default None (pd_Voters p !! s)))) ->
  (forall t, is_i64 (default 0 (pd_Votes p' !! t))) -> tally_ok p'.
Proof.
  intros Hok Hv Hc Hr t. apply cong64_eq; [done|apply wrap_i64_range|]. rewrite Hc, (Hok t), !wrap_cong64.
  pose proof (tally_insert p s o (pd_Votes p) t) as E. unfold tally_of in *. rewrite Hv. cbn in E. rewrite E.
  cong_lia.
Qed.

Lemma tally_remove p p' s (o : option VoteDetail) :
  tally_ok p -> pd_Voters p !! s = Some o -> pd_Voters p' = delete s (pd_Voters p) ->
  (forall t, cong64 (default 0 (pd_Votes p' !! t)) (default 0 (pd_Votes p !! t) - vote_for t o)) ->
  (forall t, is_i64 (default 0 (pd_Votes p' !! t))) -> tally_ok p'.
Proof.
  intros Hok Ho Hv Hc Hr t. apply cong64_eq; [done|apply wrap_i64_range|]. rewrite Hc, (Hok t), !wrap_cong64.
  pose proof (tally_delete p s o (pd_Votes p) t Ho) as E. unfold tally_of in *. rewrite Hv. cbn in E. rewrite E.
  cong_lia.
Qed.

Lemma tally_i64 p t : tally_ok p -> is_i64 (default 0 (pd_Votes p !! t)).
Proof. intros ->. apply wrap_i64_range. Qed.

(** The change [votes_add] and [votes_sub] make to a count. *)
Lemma votes_add_cong votes t x u :
  cong64 (default 0 (votes_add votes t x !! u)) (default 0 (votes !! u) + (if t =? u then x else 0)).
Proof.
  rewrite votes_add_get. case_decide as E; subst; [rewrite Z.eqb_refl, wrap_cong64; done|].
  rewrite (proj2 (Z.eqb_neq t u) E). cong_lia.
Qed.
Lemma votes_sub_cong votes t x u :
  cong64 (default 0 (votes_sub votes t x !! u)) (default 0 (votes !! u) - (if t =? u then x else 0)).
Proof.
  rewrite votes_sub_get. case_decide as E; subst; [rewrite Z.eqb_refl, wrap_cong64; done|].
  rewrite (proj2 (Z.eqb_neq t u) E). cong_lia.
Qed.
Lemma votes_add_range votes t x :
  (forall u, is_i64 (default 0 (votes !! u))) -> forall u, is_i64 (default 0 (votes_add votes t x !! u)).
Proof. intros H u. rewrite votes_add_get. case_decide; [apply wrap_i64_range|done]. Qed.
Lemma votes_sub_range votes t x :
  (forall u, is_i64 (default 0 (votes !! u))) -> forall u, is_i64 (default 0 (votes_sub votes t x !! u)).
Proof. intros H u. rewrite votes_sub_get. case_decide; [apply wrap_i64_range|done]. Qed.

(** Voting: the voter has the new amount, nobody else changes, the counts
    follow. *)
Lemma record_vote_tally env p s tc total : tally_ok p -> tally_ok (record_vote env p s tc total).
Proof.
  intros Hok. unfold record_vote, processExistingVote.
  destruct (pd_Voters p !! s) as [[v|]|] eqn:Ev; [destruct (Z.eqb_spec (vd_Type v) (vc_Type tc)) as [Et|Et]|..];
    cbn [negb]; (eapply (tally_update p _ s); [done|reflexivity| |]); cbn [set_outcome set_votes pd_Votes].
  all: try (repeat first [apply votes_add_range | apply votes_sub_range]; intros ?; by apply tally_i64).
  all: intros t; rewrite votes_add_cong, ?votes_sub_cong, Ev; cbn; rewrite ?Et;
    repeat (destruct (_ =? _)); rewrite ?wrap_cong64; cong_lia.
Qed.

Lemma record_vote_votes env p s tc total u :
  vote_of (record_vote env p s tc total) u = if decide (s = u) then vc_Amount tc else vote_of p u.
Proof.
  unfold record_vote, processExistingVote, vote_of.
  destruct (pd_Voters p !! s) as [[v|]|] eqn:Ev; [destruct (_ =? _)|..];
    cbn; case_decide; subst; by simplify_map_eq.
Qed.

Lemma record_vote_status env p s tc total :
  pd_ProposalStatus (record_vote env p s tc total) = pd_ProposalStatus p.
Proof.
  unfold record_vote, processExistingVote. destruct (pd_Voters p !! s) as [[v|]|]; [destruct (_ =? _)|..]; done.
Qed.

(** Removing unfrozen votes: what is left of the voter's amount, and nobody
    else changes. *)
Lemma remove_votes_tally s u v p :
  pd_Voters p !! s = Some (Some v) -> tally_ok p -> tally_ok (remove_votes s u v p).1.
Proof.
  intros Hv Hok. unfold remove_votes. destruct (_ <=? _); cbn [fst].
  - eapply (tally_remove p); [done|exact Hv|reflexivity| |apply votes_sub_range; intros ?; by apply tally_i64].
    intros t. cbn [set_votes pd_Votes]. by rewrite votes_sub_cong.
  - eapply (tally_update p _ s); [done|reflexivity| |apply votes_sub_range; intros ?; by apply tally_i64].
    intros t. cbn [set_votes pd_Votes]. rewrite votes_sub_cong, Hv. cbn.
    destruct (_ =? _); [rewrite wrap_cong64|]; cong_lia.
Qed.

Lemma remove_votes_votes s u v p w :
  pd_Voters p !! s = Some (Some v) -> 0 <= u -> vd_Amount v <= MaxInt64 ->
  vote_of (remove_votes s u v p).1 w = if decide (s = w) then Z.max 0 (vd_Amount v - u) else vote_of p w.
Proof.
  intros Hv Hu Hm. unfold remove_votes. destruct (Z.leb_spec (vd_Amount v) u); cbn [fst].
  - rewrite vote_of_delete. case_decide; [lia|done].
  - rewrite vote_of_insert. case_decide; [cbn; rewrite wrap_i64_id by ilia; lia|done].
Qed.

Lemma remove_votes_status s u v p : pd_ProposalStatus (remove_votes s u v p).1 = pd_ProposalStatus p.
Proof. unfold remove_votes. by destruct (_ <=? _). Qed.

(** ** The vote index as a list *)

(** The amount of the first entry of a proposal. *)
Fixpoint first_entry (es : list ProposalVoteIndexEntry) (id : Z) : option Z :=
  match es with
  | [] => None
  | e :: rest => if decide (vi_ProposalID e = id) then Some (vi_Amount e) else first_entry rest id
  end.

Lemma first_entry_app es es' id :
  first_entry (es ++ es') id = match first_entry es id with Some m => Some m | None => first_entry es' id end.
Proof. induction es as [|e es IH]; [done|]. cbn. by case_decide. Qed.

Lemma first_entry_filter (active : gset Z) es id :
  first_entry (filter (fun e => vi_ProposalID e ∈ active) es) id =
  if decide (id ∈ active) then first_entry es id else None.
Proof.
  induction es as [|e es IH]; [by case_decide|]. rewrite filter_cons.
  destruct (decide (vi_ProposalID e ∈ active)) as [Ha|Ha]; cbn [first_entry].
  - rewrite IH. destruct (decide (vi_ProposalID e = id)) as [<-|]; [by rewrite decide_True|done].
  - rewrite IH. destruct (decide (vi_ProposalID e = id)) as [<-|]; [by rewrite !decide_False|done].
Qed.

Lemma first_entry_not_in es id : first_entry es id = None <-> id ∉ vi_ProposalID <$> es.
Proof.
  induction es as [|e es IH]; cbn; [split; [by intros _ ?%elem_of_nil|done]|].
  rewrite not_elem_of_cons. case_decide; [split; [done|intros [? _]; congruence]|].
  rewrite IH. split; [by split|by intros [_ ?]].
Qed.

Lemma upsert_cons e es id am :
  vi_ProposalID e <> id ->
  upsertProposalVoteIndex (e :: es) id am =
    (e :: (upsertProposalVoteIndex es id am).1, (upsertProposalVoteIndex es id am).2).
Proof.
  intros He. unfold upsertProposalVoteIndex. cbn [list_find]. rewrite decide_False by done.
  destruct (list_find _ es) as [[i x]|]; cbn; [|done]. by destruct (_ =? _).
Qed.

Lemma first_entry_upsert es id am j :
  first_entry (upsertProposalVoteIndex es id am).1 j = if decide (id = j) then Some am else first_entry es j.
Proof.
  induction es as [|e es IH].
  - cbn. by case_decide.
  - destruct (decide (vi_ProposalID e = id)) as [<-|Hne].
    + unfold upsertProposalVoteIndex. cbn [list_find]. rewrite decide_True by done.
      destruct (Z.eqb_spec (vi_Amount e) am) as [<-|]; cbn; by case_decide.
    + rewrite upsert_cons by done. cbn [fst first_entry]. rewrite IH.
      repeat case_decide; congruence.
Qed.

Lemma upsert_ok es id am :
  Forall entry_ok es -> is_u64 id -> 0 < am <= MaxInt64 -> Forall entry_ok (upsertProposalVoteIndex es id am).1.
Proof.
  intros H Hid Ham. induction H as [|e es He Hes IH].
  - cbn. repeat constructor; cbn; ilia.
  - destruct (decide (vi_ProposalID e = id)) as [<-|Hne].
    + unfold upsertProposalVoteIndex. cbn [list_find]. rewrite decide_True by done.
      destruct (_ =? _); cbn; [by constructor|]. constructor; [|done]. by split; cbn; [apply He|].
    + rewrite upsert_cons by done. by constructor.
Qed.

Lemma filter_Forall {A} (P : A -> Prop) (Q : A -> Prop) `{forall x, Decision (Q x)} (l : list A) :
  Forall P l -> Forall P (filter Q l).
Proof. rewrite !Forall_forall. intros H' x [_ Hx]%list_elem_of_filter. auto. Qed.

Lemma filter_all {A} (Q : A -> Prop) `{forall x, Decision (Q x)} (l : list A) :
  length (filter Q l) = length l -> filter Q l = l.
Proof.
  induction l as [|x l IH]; [done|]. rewrite filter_cons. destruct (decide (Q x)); cbn.
  - intros [= E]. by rewrite IH.
  - intros E. pose proof (length_filter Q l). lia.
Qed.

(** Pruning, then recording a vote. *)
Lemma addVoterToIndex_spec `{TO : TrieOps} s id am c a a' es :
  index_at a s = Ok es -> is_u64 id -> 0 < am <= MaxInt64 ->
  addVoterToIndex s id am c a = (a', Ok tt) ->
  exists es', index_at a' s = Ok es' /\
    (forall j, first_entry es' j = if decide (id = j) then Some am
                                   else if decide (j ∈ ActiveProposalIDs c) then first_entry es j else None) /\
    (forall k, k <> ToAccountProposalVotesKey s -> bytes_at a' k = bytes_at a k).
Proof.
  intros Hes Hid Ham. unfold addVoterToIndex.
  set (es1 := filter (fun e => vi_ProposalID e ∈ ActiveProposalIDs c) es).
  intros H. apply M_bind_ok in H as (a1 & es0 & H0 & H). rewrite GetAccountProposalVotes_spec, Hes in H0.
  injection H0 as <- <-. unfold dropInactiveProposalVotes in H. fold es1 in H.
  assert (Forall entry_ok es) as Hok.
  { unfold index_at in Hes. apply res_bind_ok in Hes as (b & _ & Hd). by apply decode_spec in Hd as [? _]. }
  pose proof (first_entry_upsert es1 id am) as Hf.
  pose proof (upsert_ok es1 id am (filter_Forall _ _ _ Hok) Hid Ham) as Hok'.
  destruct (upsertProposalVoteIndex es1 id am) as [es2 ch] eqn:Eu. cbn [fst] in Hf, Hok'.
  assert (forall j, first_entry es2 j = if decide (id = j) then Some am
     else if decide (j ∈ ActiveProposalIDs c) then first_entry es j else None) as Hf'.
  { intros j. rewrite Hf. case_decide; [done|]. apply first_entry_filter. }
  destruct (negb (negb _) && negb ch) eqn:Eg.
  - apply andb_true_iff in Eg as [E1 E2]. rewrite negb_involutive in E1. apply Nat.eqb_eq in E1.
    apply negb_true_iff in E2. injection H as <-.
    assert (es1 = es) as E. { unfold es1 in *. by apply filter_all. }
    assert (es2 = es1) as ->.
    { unfold upsertProposalVoteIndex in Eu. destruct (list_find _ es1) as [[i e]|].
      - destruct (_ =? _); congruence.
      - congruence. }
    exists es. split; [done|]. split; [|done]. by rewrite E in Hf'.
  - unfold SetAccountProposalVotes in H. apply M_bind_ok in H as (a2 & raw & Hr & H).
    unfold lift in Hr. injection Hr as <- Hr.
    destruct (save_bytes _ _ _ _ H) as (_ & Hb & Hk); [done|].
    exists es2. split; [|done]. unfold index_at. rewrite Hb. cbn. by apply decode_encode.
Qed.

(** ** The invariant *)

Lemma elem_of_active c id :
  id ∈ ActiveProposalIDs c <-> exists e ids, pc_ActiveProposals c !! e = Some (Some ids) /\ id ∈ ids.
Proof.
  unfold ActiveProposalIDs. rewrite elem_of_list_to_set, list_elem_of_In, in_concat. split.
  - intros (l & Hl & Hid). apply list_elem_of_In, list_elem_of_fmap in Hl as ([e o] & -> & Hm).
    apply elem_of_map_to_list in Hm. cbn in Hid. destruct o as [ids|]; [|done].
    exists e, ids. split; [done|by apply list_elem_of_In].
  - intros (e & ids & He & Hid). exists ids. split; [|by apply list_elem_of_In].
    apply list_elem_of_In, list_elem_of_fmap. exists (e, Some ids). split; [done|]. by apply elem_of_map_to_list.
Qed.

(** The ids proposals can have. *)
Definition id_ok (id : Z) : Prop := 1 <= id <= MaxUint64.

Section inv.
Context `{TO : TrieOps} {CD : Marshalizer ProposalData} {CC : Marshalizer ProposalController}.
Implicit Types (a : kappAccount) (c : ProposalController) (p : ProposalData).

(** A proposal open for votes. *)
Definition open_at a (id : Z) p : Prop :=
  id_ok id /\ proposal_at a id = Some p /\ pd_ProposalStatus p = ProposalData_ActiveProposal.

(** The highest id whose votes may be in no index. *)
Definition bound_at (v5 : bool) a c (b : Z) : Prop :=
  bytes_at a ProposalPreForkVotesKey = Ok EmptyString /\ b = pc_ProposalCount c \/
  v5 = true /\ bytes_at a ProposalPreForkVotesKey = Ok (be_bytes b) /\ 0 <= b <= pc_ProposalCount c.

(** What a voter's index must say about its votes. *)
Definition indexed (b : Z) (es : list ProposalVoteIndexEntry) (id vote : Z) : Prop :=
  0 < vote -> match first_entry es id with Some m => vote <= m | None => id <= b end.

(** [v5] says whether [FixAuditChangesV5] is in force and [frozen] is the frozen
    KFI of each address. *)
Record gov_inv (v5 : bool) (frozen : string -> Z) a c (b : Z) : Prop := {
  gi_controller : controller_at a = Some c;
  gi_count : is_u64 (pc_ProposalCount c);
  gi_known : forall id p, id_ok id -> proposal_at a id = Some p -> id <= pc_ProposalCount c;
  gi_open : forall id, id ∈ ActiveProposalIDs c <-> exists p, open_at a id p;
  gi_once : forall e e' ids ids' id, pc_ActiveProposals c !! e = Some (Some ids) ->
    pc_ActiveProposals c !! e' = Some (Some ids') -> id ∈ ids -> id ∈ ids' -> e = e';
  gi_tally : forall id p, id_ok id -> proposal_at a id = Some p -> tally_ok p;
  gi_votes : forall id p s, open_at a id p -> 0 <= vote_of p s <= MaxInt64;
  gi_backed : forall id p s, open_at a id p -> 0 < vote_of p s ->
    exists k, s = EncodeToString k /\ vote_of p s <= frozen k;
  gi_index : forall s, exists es, index_at a s = Ok es /\ (v5 = false -> es = []) /\
    forall id p, open_at a id p -> indexed b es id (vote_of p s);
  gi_bound : bound_at v5 a c b;
}.

(** The ids are open exactly when a bucket holds them, so a controller with an
    open proposal is not the empty message. *)
Lemma open_controller v5 F a c b id p : gov_inv v5 F a c b -> open_at a id p -> c <> emptyController.
Proof.
  intros Hi Ho ->. assert (id ∈ ActiveProposalIDs emptyController) as H by (apply (gi_open _ _ _ _ _ Hi); eauto).
  apply elem_of_active in H as (e & ids & He & _).
  change (pc_ActiveProposals emptyController) with (∅ : gmap Z (option (list Z))) in He. by rewrite lookup_empty in He.
Qed.

(** *** Changes of the account *)

(** [a'] is [a] with another message under the key of [id]. *)
Definition proposal_set a a' (id : Z) p : Prop :=
  proposal_at a' id = Some p /\ (forall k, k <> ToProposalKey id -> bytes_at a' k = bytes_at a k).

Lemma id_ok_u64 id : id_ok id -> is_u64 id.
Proof. unfold id_ok. ilia. Qed.

Lemma ToProposalKey_ne i j : id_ok i -> id_ok j -> i <> j -> ToProposalKey i <> ToProposalKey j.
Proof. intros Hi Hj Hne E. apply Hne. apply ToProposalKey_inj; auto using id_ok_u64. Qed.
Lemma controller_key_ne i : id_ok i -> ProposalControllerKey <> ToProposalKey i.
Proof.
  intros Hi E. apply ToProposalKey_inj in E; [|ilia|by apply id_ok_u64]. unfold id_ok in Hi. lia.
Qed.

Lemma proposal_set_other a a' id p j : proposal_set a a' id p -> id_ok id -> id_ok j -> j <> id ->
  proposal_at a' j = proposal_at a j.
Proof. intros [_ H] Hi Hj Hne. apply stored_same, H. by apply ToProposalKey_ne. Qed.
Lemma proposal_set_controller a a' id p : proposal_set a a' id p -> id_ok id -> controller_at a' = controller_at a.
Proof. intros [_ H] Hi. apply stored_same, H. by apply controller_key_ne. Qed.
Lemma proposal_set_index a a' id p s : proposal_set a a' id p -> index_at a' s = index_at a s.
Proof. intros [_ H]. unfold index_at. by rewrite H. Qed.
Lemma proposal_set_prefork a a' id p : proposal_set a a' id p ->
  bytes_at a' ProposalPreForkVotesKey = bytes_at a ProposalPreForkVotesKey.
Proof. intros [_ H]. by rewrite H. Qed.

Context {LD : ProtoCodec CD emptyProposal} {LC : ProtoCodec CC emptyController}.

Lemma write_proposal_spec id p a a' :
  p <> emptyProposal -> write_proposal id p a = (a', Ok tt) -> proposal_set a a' id p.
Proof.
  intros Hz H. unfold write_proposal in H. apply M_bind_ok in H as (a1 & data & Hm & H).
  unfold lift in Hm. injection Hm as <- Hm. split.
  - unfold proposal_at. by eapply (save_message CD emptyProposal).
  - by apply (save_bytes _ _ _ _ H).
Qed.

Lemma write_controller_spec c a a' :
  c <> emptyController -> write_controller c a = (a', Ok tt) ->
  controller_at a' = Some c /\ (forall k, k <> ProposalControllerKey -> bytes_at a' k = bytes_at a k).
Proof.
  intros Hz H. unfold write_controller in H. apply M_bind_ok in H as (a1 & data & Hm & H).
  unfold lift in Hm. injection Hm as <- Hm. split.
  - unfold controller_at. by eapply (save_message CC emptyController).
  - by apply (save_bytes _ _ _ _ H).
Qed.

(** *** A vote *)

(** What writing the controller and a proposal leaves. *)
Lemma SetProposal_spec id p c a a' :
  id_ok id -> c <> emptyController -> p <> emptyProposal -> SetProposal id p (Some c) a = (a', Ok tt) ->
  controller_at a' = Some c /\ proposal_at a' id = Some p /\
  (forall key, key <> ProposalControllerKey -> key <> ToProposalKey id -> bytes_at a' key = bytes_at a key) /\
  (forall j, id_ok j -> j <> id -> proposal_at a' j = proposal_at a j).
Proof.
  intros Hid Hc Hz H. unfold SetProposal in H. apply M_bind_ok in H as (a0 & [] & Hwc & Hwp).
  apply write_controller_spec in Hwc as [Hc0 Hk0]; [|done].
  apply write_proposal_spec in Hwp; [|done]. destruct Hwp as [Hp1 Hk1].
  assert (forall key, key <> ProposalControllerKey -> key <> ToProposalKey id -> bytes_at a' key = bytes_at a key) as Hsame
    by (intros key H1 H2; by rewrite Hk1, Hk0).
  splits; try done.
  - rewrite <- Hc0. apply stored_same, Hk1. by apply controller_key_ne.
  - intros j Hj Hne. apply stored_same, Hsame; [by apply not_eq_sym, controller_key_ne|by apply ToProposalKey_ne].
Qed.

(** The invariant once an open proposal [p] has become [p'], the index of [s]
    matching. *)
Lemma set_open_inv v5 F a a' c b id p p' :
  gov_inv v5 F a c b -> open_at a id p -> pd_ProposalStatus p' = ProposalData_ActiveProposal ->
  proposal_at a' id = Some p' -> controller_at a' = Some c ->
  (forall j, id_ok j -> j <> id -> proposal_at a' j = proposal_at a j) ->
  bytes_at a' ProposalPreForkVotesKey = bytes_at a ProposalPreForkVotesKey ->
  tally_ok p' -> (forall s, 0 <= vote_of p' s <= MaxInt64) ->
  (forall s, 0 < vote_of p' s -> exists k, s = EncodeToString k /\ vote_of p' s <= F k) ->
  (forall s, exists es, index_at a' s = Ok es /\ (v5 = false -> es = []) /\ indexed b es id (vote_of p' s) /\
     forall j q, open_at a j q -> j <> id -> indexed b es j (vote_of q s)) ->
  gov_inv v5 F a' c b.
Proof.
  intros Hi [Hid [Hp Hst]] Hst' Hp' Hc' Hoth Hpre Htal Hvr Hback Hidx.
  assert (forall j q, open_at a' j q <-> (j = id /\ q = p') \/ (j <> id /\ open_at a j q)) as Hopen.
  { intros j q. unfold open_at. destruct (decide (j = id)) as [->|Hne].
    - rewrite Hp'. split; [intros (_ & [= <-] & _); by left|intros [[_ ->]|[? _]]; done].
    - split; [intros (Hj & H1 & H2); rewrite Hoth in H1 by done; by right|].
      intros [[-> _]|(_ & Hj & H1 & H2)]; [done|]. by rewrite Hoth. }
  split.
  - done.
  - apply Hi.
  - intros j q Hj. destruct (decide (j = id)) as [->|Hne].
    + intros _. by apply (gi_known _ _ _ _ _ Hi id p).
    + rewrite Hoth by done. by apply Hi.
  - intros j. rewrite (gi_open _ _ _ _ _ Hi j). split; intros [q Hq].
    + destruct (decide (j = id)) as [->|Hne]; [exists p'|exists q]; apply Hopen; auto.
    + apply Hopen in Hq as [[-> ->]|[_ Hq]]; [exists p|exists q]; done.
  - apply Hi.
  - intros j q Hj. destruct (decide (j = id)) as [->|Hne].
    + rewrite Hp'. by intros [= <-].
    + rewrite Hoth by done. by apply Hi.
  - intros j q s Hq. apply Hopen in Hq as [[-> ->]|[_ Hq]]; [done|by apply (gi_votes _ _ _ _ _ Hi j)].
  - intros j q s Hq. apply Hopen in Hq as [[-> ->]|[_ Hq]]; [auto|by apply (gi_backed _ _ _ _ _ Hi j)].
  - intros s. destruct (Hidx s) as (es & He & Hv & H1 & H2). exists es. split; [done|]. split; [done|].
    intros j q Hq. apply Hopen in Hq as [[-> ->]|[Hne Hq]]; auto.
  - pose proof (gi_bound _ _ _ _ _ Hi) as Hb. unfold bound_at in *. by rewrite Hpre.
Qed.

(** The index of a voter after the vote, whether or not it was written. *)
Lemma vote_indexed v5 F a a1 a' c b id k am :
  gov_inv v5 F a c b -> id_ok id -> 0 < am <= MaxInt64 -> (forall s, index_at a1 s = index_at a s) ->
  (if v5 then addVoterToIndex (EncodeToString k) id am c a1 = (a', Ok tt) else a' = a1) ->
  (forall key, key <> ToAccountProposalVotesKey (EncodeToString k) -> bytes_at a' key = bytes_at a1 key) /\
  exists es0 es', index_at a (EncodeToString k) = Ok es0 /\ index_at a' (EncodeToString k) = Ok es' /\
    (v5 = false -> es' = []) /\
    forall j q, j = id \/ open_at a j q ->
      first_entry es' j = if decide (id = j) then if v5 then Some am else None else first_entry es0 j.
Proof.
  intros Hi Hid Ham Hx Hidx. destruct (gi_index _ _ _ _ _ Hi (EncodeToString k)) as (es0 & Hes0 & Hn & _).
  destruct v5.
  - destruct (addVoterToIndex_spec (EncodeToString k) id am c a1 a' es0) as (es' & H1 & H2 & H3);
      [by rewrite Hx|by apply id_ok_u64|done|done|].
    split; [done|]. exists es0, es'. splits; try done. intros j q Hj. rewrite H2.
    destruct (decide (id = j)) as [|Hne]; [done|]. destruct Hj as [->|Hj]; [done|].
    rewrite decide_True; [done|]. apply (gi_open _ _ _ _ _ Hi). eauto.
  - subst a'. split; [done|]. exists es0, es0. rewrite Hx. splits; try done. rewrite (Hn eq_refl).
    intros j q _. by case_decide.
Qed.

(** The vote a handler recorded, with the index written when [v5]. *)
Lemma vote_inv v5 F a a1 a' c b id p p' k am :
  gov_inv v5 F a c b -> open_at a id p -> p' <> emptyProposal ->
  pd_ProposalStatus p' = ProposalData_ActiveProposal -> tally_ok p' ->
  (forall u, vote_of p' u = if decide (EncodeToString k = u) then am else vote_of p u) ->
  0 < am <= MaxInt64 -> am <= F k ->
  SetProposal id p' (Some c) a = (a1, Ok tt) ->
  (if v5 then addVoterToIndex (EncodeToString k) id am c a1 = (a', Ok tt) else a' = a1) ->
  gov_inv v5 F a' c b.
Proof.
  intros Hi Ho Hz Hst Htal Hvotes Ham HF Hset Hidx. pose proof Ho as [Hid [Hp _]].
  apply SetProposal_spec in Hset as (Hc1 & Hp1 & Hsame & Ho1); [|done|by eapply open_controller|done].
  assert (forall s, index_at a1 s = index_at a s) as Hx1 by (intros s; unfold index_at; by rewrite Hsame).
  destruct (vote_indexed v5 F a a1 a' c b id k am) as (Hother & es0 & es' & Hes0 & Hes' & Hempty & Hfirst); [done..|].
  assert (forall key, (forall s, ToAccountProposalVotesKey s <> key) -> bytes_at a' key = bytes_at a1 key) as Hkeep
    by (intros key Hk; apply Hother, not_eq_sym, Hk).
  eapply (set_open_inv v5 F a a' c b id p p'); try done.
  - rewrite <- Hp1. apply stored_same, Hkeep. intros s. apply votes_key_not_proposal.
  - rewrite <- Hc1. apply stored_same, Hkeep. intros s. apply votes_key_not_proposal.
  - intros j Hj Hne. rewrite <- Ho1 by done. apply stored_same, Hkeep. intros s. apply votes_key_not_proposal.
  - rewrite Hkeep by (intros s; apply votes_key_not_prefork). by rewrite Hsame.
  - intros s. rewrite Hvotes. case_decide; [lia|]. by apply (gi_votes _ _ _ _ _ Hi id).
  - intros s. rewrite Hvotes. case_decide as E; [subst; eauto|]. by apply (gi_backed _ _ _ _ _ Hi id).
  - intros s. destruct (gi_index _ _ _ _ _ Hi s) as (es & E & Hn & Hall).
    destruct (decide (EncodeToString k = s)) as [<-|Hs].
    + exists es'. split; [done|]. split; [done|]. assert (es0 = es) as -> by congruence. split.
      * rewrite Hvotes, decide_True by done. intros _. rewrite (Hfirst id p) by auto. rewrite decide_True by done.
        destruct v5; [done|].
        pose proof (gi_known _ _ _ _ _ Hi id p Hid Hp). destruct (gi_bound _ _ _ _ _ Hi) as [[_ ->]|[? _]]; done.
      * intros j q Hq Hne. unfold indexed. rewrite (Hfirst j q) by auto. rewrite decide_False by congruence.
        by apply Hall.
    + exists es. rewrite <- Hx1 in E. split; [|split; [done|]].
      * rewrite <- E. unfold index_at. by rewrite Hother by (intros ?%votes_key_inj; congruence).
      * split; [rewrite Hvotes, decide_False by done; by apply Hall|]. intros j q Hq _. by apply Hall.
Qed.

(** *** A creation *)

Lemma PreForkVoteIDBound_spec a a' c b b' :
  bound_at true a c b -> is_u64 (pc_ProposalCount c) -> PreForkVoteIDBound c a = (a', Ok b') ->
  b' = b /\ bytes_at a' ProposalPreForkVotesKey = Ok (be_bytes b) /\ 0 <= b <= pc_ProposalCount c /\
  (forall k, k <> ProposalPreForkVotesKey -> bytes_at a' k = bytes_at a k).
Proof.
  intros Hb Hc H. unfold PreForkVoteIDBound in H. apply M_bind_ok in H as (a1 & raw & Hr & H).
  rewrite retrieveOptional_spec in Hr. injection Hr as <- Hr.
  destruct Hb as [[Hraw ->]|(_ & Hraw & Hb)]; rewrite Hraw in Hr; injection Hr as <-.
  - change (slen EmptyString =? proposalIDSize) with false in H. cbn iota in H.
    change (slen EmptyString =? 0) with true in H. cbn iota zeta in H.
    apply M_bind_ok in H as (a2 & [] & Hs & H). injection H as <- <-.
    destruct (save_bytes _ _ _ _ Hs) as (_ & H1 & H2); [done|]. splits; try done; ilia.
  - unfold slen in H at 1. rewrite be_bytes_length in H. change (Z.of_nat 8 =? proposalIDSize) with true in H.
    cbn iota in H. injection H as <- <-. rewrite be_bytes_value by ilia. splits; try done; lia.
Qed.

Lemma count_up_spec c : 0 <= pc_ProposalCount c < MaxUint64 -> pc_ProposalCount (count_up c) = pc_ProposalCount c + 1.
Proof. intros H. cbn. apply wrap_u64_id. ilia. Qed.

(** The buckets after a creation. *)
Lemma updateActiveProposals_buckets c p e ids' :
  pc_ActiveProposals (updateActiveProposals c p) !! e = Some (Some ids') <->
  (e = pd_EpochEnd p /\
   ids' = default [] (default None (pc_ActiveProposals c !! e)) ++ [pc_ProposalCount c]) \/
  (e <> pd_EpochEnd p /\ pc_ActiveProposals c !! e = Some (Some ids')).
Proof.
  unfold updateActiveProposals. cbn [set_buckets pc_ActiveProposals].
  destruct (decide (pd_EpochEnd p = e)) as [<-|Hne].
  - rewrite lookup_insert_eq.
    destruct (pc_ActiveProposals c !! pd_EpochEnd p) as [[l|]|]; cbn; split; try (intros [= <-]; by left);
      intros [[_ ->]|[? _]]; done.
  - rewrite lookup_insert_ne by done. split; [by right|]. by intros [[? _]|[_ ?]].
Qed.

Lemma updateActiveProposals_ids c p id :
  id ∈ ActiveProposalIDs (updateActiveProposals c p) <-> id = pc_ProposalCount c \/ id ∈ ActiveProposalIDs c.
Proof.
  rewrite !elem_of_active. split.
  - intros (e & ids & [[-> ->]|[_ H]]%updateActiveProposals_buckets & Hid); [|eauto].
    apply elem_of_app in Hid as [Hid|Hid%list_elem_of_singleton]; [|by left].
    destruct (pc_ActiveProposals c !! pd_EpochEnd p) as [[l|]|] eqn:E; cbn in Hid; try by apply elem_of_nil in Hid.
    eauto.
  - intros [->|(e & ids & H & Hid)].
    + eexists (pd_EpochEnd p), _. split; [apply updateActiveProposals_buckets; by left|].
      apply elem_of_app. right. by apply list_elem_of_singleton.
    + destruct (decide (e = pd_EpochEnd p)) as [->|Hne].
      * eexists _, _. split; [apply updateActiveProposals_buckets; by left|]. rewrite H. cbn. apply elem_of_app. by left.
      * exists e, ids. split; [apply updateActiveProposals_buckets; by right|done].
Qed.

Lemma new_bucket_once v5 F a c b p :
  gov_inv v5 F a c b -> 0 <= pc_ProposalCount c < MaxUint64 ->
  forall e e' ids ids' id, pc_ActiveProposals (updateActiveProposals (count_up c) p) !! e = Some (Some ids) ->
    pc_ActiveProposals (updateActiveProposals (count_up c) p) !! e' = Some (Some ids') ->
    id ∈ ids -> id ∈ ids' -> e = e'.
Proof.
  intros Hi Hn e e' ids ids' id He He' Hid Hid'.
  apply updateActiveProposals_buckets in He, He'. rewrite count_up_spec in He, He' by done.
  assert (forall e0 l, pc_ActiveProposals c !! e0 = Some (Some l) -> pc_ProposalCount c + 1 ∉ l) as Hfresh.
  { intros e0 l Hl Hin. assert (pc_ProposalCount c + 1 ∈ ActiveProposalIDs c) as H by (apply elem_of_active; eauto).
    apply (gi_open _ _ _ _ _ Hi) in H as (q & Hok & Hq & _). apply (gi_known _ _ _ _ _ Hi) in Hq; [lia|done]. }
  assert (forall e0 l, (e0 = pd_EpochEnd p /\
      l = default [] (default None (pc_ActiveProposals c !! e0)) ++ [pc_ProposalCount c + 1]) -> id ∈ l ->
      id = pc_ProposalCount c + 1 \/ exists l', pc_ActiveProposals c !! e0 = Some (Some l') /\ id ∈ l') as Hsplit.
  { intros e0 l [-> ->] [H|H%list_elem_of_singleton]%elem_of_app; [|by left]. right.
    destruct (pc_ActiveProposals c !! pd_EpochEnd p) as [[l|]|]; cbn in H; try by apply elem_of_nil in H. eauto. }
  change (pc_ActiveProposals (count_up c)) with (pc_ActiveProposals c) in *.
  destruct He as [[-> E1]|[N1 H1]], He' as [[-> E2]|[N2 H2]]; [done|..].
  - destruct (Hsplit _ ids (conj eq_refl E1) Hid) as [->|(l' & Hl & Hin)]; [by apply Hfresh in H2|].
    by eapply (gi_once _ _ _ _ _ Hi).
  - destruct (Hsplit _ ids' (conj eq_refl E2) Hid') as [->|(l' & Hl & Hin)]; [by apply Hfresh in H1|].
    by eapply (gi_once _ _ _ _ _ Hi).
  - by eapply (gi_once _ _ _ _ _ Hi).
Qed.

(** The bound once a creation has recorded it or, before the fork, moved it. *)
Lemma create_bound v5 F a a1 a' c c' b :
  gov_inv v5 F a c b -> pc_ProposalCount c < pc_ProposalCount c' ->
  (if v5 then exists b1, PreForkVoteIDBound c a = (a1, Ok b1) else a1 = a) ->
  bytes_at a' ProposalPreForkVotesKey = bytes_at a1 ProposalPreForkVotesKey ->
  (exists b', bound_at v5 a' c' b' /\ b <= b') /\
  (forall k, k <> ProposalPreForkVotesKey -> bytes_at a1 k = bytes_at a k).
Proof.
  intros Hi Hlt Hpre Hk. pose proof (gi_bound _ _ _ _ _ Hi) as Hb. pose proof (gi_count _ _ _ _ _ Hi). destruct v5.
  - destruct Hpre as [b1 Hpre]. apply (PreForkVoteIDBound_spec _ _ _ b) in Hpre as (-> & H1 & H2 & H3); [|done|done].
    split; [|done]. exists b. split; [|lia]. right. rewrite Hk. splits; try done; lia.
  - subst a1. destruct Hb as [[H1 ->]|[? _]]; [|done]. split; [|done].
    exists (pc_ProposalCount c'). split; [|lia]. left. by rewrite Hk.
Qed.

Lemma create_inv v5 F a a1 a' c b p :
  gov_inv v5 F a c b -> pc_ProposalCount c < MaxUint64 ->
  p <> emptyProposal -> pd_ProposalStatus p = ProposalData_ActiveProposal -> pd_Votes p = ∅ -> pd_Voters p = ∅ ->
  (if v5 then exists b1, PreForkVoteIDBound c a = (a1, Ok b1) else a1 = a) ->
  let c' := updateActiveProposals (count_up c) p in
  SetProposal (pc_ProposalCount c') p (Some c') a1 = (a', Ok tt) ->
  exists b', gov_inv v5 F a' c' b'.
Proof.
  intros Hi Hmax Hz Hst Hvotes Hvoters Hpre c' Hset. pose proof (gi_count _ _ _ _ _ Hi) as Hc.
  assert (0 <= pc_ProposalCount c < MaxUint64) as Hn by ilia.
  assert (pc_ProposalCount c' = pc_ProposalCount c + 1) as Ec by (by apply count_up_spec). rewrite Ec in Hset.
  set (id := pc_ProposalCount c + 1) in *. assert (id_ok id) as Hid by (unfold id_ok, id; ilia).
  apply SetProposal_spec in Hset as (Hc2 & Hp3 & Hsame & Ho1); [|done| |done].
  2: { intros E. assert (pc_ProposalCount c' = 0) by (by rewrite E). lia. }
  destruct (create_bound v5 F a a1 a' c c' b) as [(b' & Hb' & Hle) Hk1]; [done|lia|done|by apply Hsame|]. exists b'.
  assert (forall j, id_ok j -> j <> id -> proposal_at a' j = proposal_at a j) as Hoth.
  { intros j Hj Hne. rewrite Ho1 by done. apply stored_same, Hk1, not_eq_sym, prefork_not_proposal. }
  assert (forall s, index_at a' s = index_at a s) as Hx by (intros s; unfold index_at; by rewrite Hsame, Hk1).
  assert (forall s, vote_of p s = 0) as Hv0 by (intros s; unfold vote_of; by rewrite Hvoters).
  assert (forall j q, open_at a' j q <-> (j = id /\ q = p) \/ open_at a j q) as Hopen.
  { intros j q. unfold open_at. destruct (decide (j = id)) as [->|Hne].
    - rewrite Hp3. split; [intros (_ & [= <-] & _); by left|].
      intros [[_ ->]|(_ & H & _)]; [done|]. apply (gi_known _ _ _ _ _ Hi) in H; [lia|done].
    - split; [intros (Hj & H1 & H2); rewrite Hoth in H1 by done; by right|].
      intros [[-> _]|(Hj & H1 & H2)]; [done|]. by rewrite Hoth. }
  split; [done|rewrite Ec; unfold id; ilia|..].
  - intros j q Hj. destruct (decide (j = id)) as [->|Hne]; [lia|]. rewrite Hoth by done.
    intros H. apply (gi_known _ _ _ _ _ Hi) in H; [lia|done].
  - intros j. unfold c'. rewrite updateActiveProposals_ids, count_up_spec by done.
    change (ActiveProposalIDs (count_up c)) with (ActiveProposalIDs c). rewrite (gi_open _ _ _ _ _ Hi). split.
    + intros [->|[q Hq]]; [exists p|exists q]; apply Hopen; auto.
    + intros [q [[-> _]|Hq]%Hopen]; [by left|right; eauto].
  - by eapply new_bucket_once.
  - intros j q Hj. destruct (decide (j = id)) as [->|Hne]; [|rewrite Hoth by done; by apply Hi].
    rewrite Hp3. intros [= <-] t. unfold tally_of. rewrite Hvotes, Hvoters, lookup_empty, msum_empty. done.
  - intros j q s [[-> ->]|Hq]%Hopen; [rewrite Hv0; ilia|]. by apply (gi_votes _ _ _ _ _ Hi j).
  - intros j q s [[-> ->]|Hq]%Hopen; [rewrite Hv0; lia|]. by apply (gi_backed _ _ _ _ _ Hi j).
  - intros s. destruct (gi_index _ _ _ _ _ Hi s) as (es & E & Hn' & Hall). exists es. rewrite Hx. split; [done|].
    split; [done|]. intros j q [[-> ->]|Hq]%Hopen; [unfold indexed; rewrite Hv0; lia|].
    specialize (Hall j q Hq). unfold indexed in *. intros H. specialize (Hall H). destruct (first_entry es j); lia.
  - done.
Qed.

(** *** Votes going down *)

(** [p'] is [p] with fewer votes of [s] and everything else as it was. *)
Record lowered (s : string) p p' : Prop := {
  lw_status : pd_ProposalStatus p' = pd_ProposalStatus p;
  lw_tally : tally_ok p -> tally_ok p';
  lw_other : forall t, t <> s -> vote_of p' t = vote_of p t;
  lw_self : 0 <= vote_of p s <= MaxInt64 -> 0 <= vote_of p' s <= vote_of p s;
}.

Lemma lowered_refl s p : lowered s p p.
Proof. split; try done. lia. Qed.
Lemma lowered_trans s p q r : lowered s p q -> lowered s q r -> lowered s p r.
Proof.
  intros [A1 A2 A3 A4] [B1 B2 B3 B4]. split; [congruence|auto|intros t Ht; rewrite B3, A3; done|].
  intros H. specialize (A4 H). specialize (B4 ltac:(lia)). lia.
Qed.

(** Nothing but proposals changed. *)
Definition same_rest a a' : Prop :=
  forall k, (forall id, id_ok id -> k <> ToProposalKey id) -> bytes_at a' k = bytes_at a k.
(** The proposals of [a'] are those of [a] with votes of [s] lowered. *)
Record lowers (s : string) a a' : Prop := {
  ls_some : forall id p, id_ok id -> proposal_at a id = Some p ->
    exists p', proposal_at a' id = Some p' /\ lowered s p p';
  ls_none : forall id, id_ok id -> proposal_at a id = None -> proposal_at a' id = None;
}.

Lemma lowers_refl s a : lowers s a a.
Proof. split; [|done]. intros id p _ H. exists p. split; [done|apply lowered_refl]. Qed.
Lemma lowers_trans s a1 a2 a3 : lowers s a1 a2 -> lowers s a2 a3 -> lowers s a1 a3.
Proof.
  intros [A2 A3] [B2 B3]. split; [|eauto]. intros id p Hid Hp. destruct (A2 _ _ Hid Hp) as (q & Hq & Hl). destruct (B2 _ _ Hid Hq) as (r & Hr & Hl').
  exists r. split; [done|]. by eapply lowered_trans.
Qed.

Lemma lowers_set s a a' id p p' :
  id_ok id -> proposal_at a id = Some p -> lowered s p p' -> proposal_set a a' id p' -> lowers s a a'.
Proof.
  intros Hid Hp Hl Hs. split.
  - intros j q Hj Hq. destruct (decide (j = id)) as [->|Hne].
    + exists p'. split; [apply Hs|]. congruence.
    + exists q. rewrite (proposal_set_other _ _ _ _ _ Hs Hid Hj Hne). split; [done|apply lowered_refl].
  - intros j Hj Hq. destruct (decide (j = id)) as [->|Hne]; [congruence|].
    by rewrite (proposal_set_other _ _ _ _ _ Hs Hid Hj Hne).
Qed.

(** What lowering keeps open, seen from either side. *)
Lemma lowers_open s a a' id p : lowers s a a' -> open_at a id p -> exists p', open_at a' id p' /\ lowered s p p'.
Proof.
  intros Hl (Hid & Hp & Hst). destruct (ls_some _ _ _ Hl _ _ Hid Hp) as (p' & Hp' & Hw).
  exists p'. split; [|done]. split; [done|]. split; [done|]. by rewrite (lw_status _ _ _ Hw).
Qed.
Lemma lowers_open_inv s a a' id p' : lowers s a a' -> open_at a' id p' -> exists p, open_at a id p /\ lowered s p p'.
Proof.
  intros Hl (Hid & Hp & Hst). destruct (proposal_at a id) as [p|] eqn:E.
  - destruct (ls_some _ _ _ Hl _ _ Hid E) as (q & Hq & Hw). assert (q = p') as -> by congruence.
    exists p. split; [|done]. split; [done|]. split; [done|]. by rewrite <- (lw_status _ _ _ Hw).
  - apply (ls_none _ _ _ Hl) in E; [congruence|done].
Qed.

Lemma same_rest_trans a1 a2 a3 : same_rest a1 a2 -> same_rest a2 a3 -> same_rest a1 a3.
Proof. intros A B k Hk. by rewrite B, A. Qed.
Lemma same_rest_set a a' id p : id_ok id -> proposal_set a a' id p -> same_rest a a'.
Proof. intros Hid [_ H] k Hk. apply H. by apply Hk. Qed.
Lemma same_rest_controller a a' : same_rest a a' -> controller_at a' = controller_at a.
Proof. intros H. apply stored_same, H. intros id. apply controller_key_ne. Qed.
Lemma same_rest_index a a' t : same_rest a a' -> index_at a' t = index_at a t.
Proof. intros H. unfold index_at. by rewrite H. Qed.

(** The invariant after an unfreeze: votes of [s] were lowered to what is still
    frozen, its index rebuilt and the bound recorded. *)
Lemma lowered_inv v5 F F' a a' c b k es' :
  gov_inv v5 F a c b -> lowers (EncodeToString k) a a' ->
  (forall j, j <> k -> F' j = F j) ->
  bound_at v5 a' c b ->
  index_at a' (EncodeToString k) = Ok es' -> (v5 = false -> es' = []) ->
  (forall t, t <> EncodeToString k -> index_at a' t = index_at a t) ->
  (forall id p, open_at a' id p -> 0 < vote_of p (EncodeToString k) ->
     vote_of p (EncodeToString k) <= F' k /\ indexed b es' id (vote_of p (EncodeToString k))) ->
  controller_at a' = Some c ->
  gov_inv v5 F' a' c b.
Proof.
  intros Hi Hl HF Hb Hes Hempty Hidx Hself Hc. set (s := EncodeToString k) in *.
  assert (forall id p, id_ok id -> proposal_at a' id = Some p -> exists q, proposal_at a id = Some q /\ lowered s q p)
    as Hback.
  { intros id p Hid Hp. destruct (proposal_at a id) as [q|] eqn:E.
    - destruct (ls_some _ _ _ Hl _ _ Hid E) as (r & Hr & Hw). exists q. split; [done|]. congruence.
    - apply (ls_none _ _ _ Hl) in E; [congruence|done]. }
  split.
  - done.
  - apply Hi.
  - intros id p Hid (q & Hq & _)%Hback; [|done]. by apply (gi_known _ _ _ _ _ Hi id q).
  - intros id. rewrite (gi_open _ _ _ _ _ Hi). split.
    + intros [p Hp]. destruct (lowers_open _ _ _ _ _ Hl Hp) as (q & Hq & _). eauto.
    + intros [p Hp]. destruct (lowers_open_inv _ _ _ _ _ Hl Hp) as (q & Hq & _). eauto.
  - apply Hi.
  - intros id p Hid (q & Hq & Hw)%Hback; [|done]. apply Hw. by apply (gi_tally _ _ _ _ _ Hi id).
  - intros id p t Hp. destruct (lowers_open_inv _ _ _ _ _ Hl Hp) as (q & Hq & Hw).
    pose proof (gi_votes _ _ _ _ _ Hi id q t Hq) as Hr. destruct (decide (t = s)) as [->|Ht].
    + pose proof (lw_self _ _ _ Hw Hr). lia.
    + by rewrite (lw_other _ _ _ Hw).
  - intros id p t Hp Hpos. destruct (decide (t = s)) as [->|Ht].
    + exists k. split; [done|]. by apply (Hself id).
    + destruct (lowers_open_inv _ _ _ _ _ Hl Hp) as (q & Hq & Hw). rewrite (lw_other _ _ _ Hw) in * by done.
      destruct (gi_backed _ _ _ _ _ Hi id q t Hq Hpos) as (j & -> & Hj). exists j. split; [done|].
      rewrite HF; [done|]. by intros ->.
  - intros t. destruct (decide (t = s)) as [->|Ht].
    + exists es'. split; [done|]. split; [done|]. intros id p Hp Hpos. by apply (Hself id p Hp Hpos).
    + destruct (gi_index _ _ _ _ _ Hi t) as (es & E & Hn & Hall). exists es. rewrite Hidx by done.
      split; [done|]. split; [done|]. intros id p Hp.
      destruct (lowers_open_inv _ _ _ _ _ Hl Hp) as (q & Hq & Hw). rewrite (lw_other _ _ _ Hw) by done. by apply Hall.
  - done.
Qed.
End inv.
