(* ===== verification/ProposalRuns.v ===== *)
(** * Governance runs

    The handlers of [Proposals] in the node's state, the relation of reachable
    governance states, and the theorems on votes, settlements and parameters. *)

From S2P Require Import Prelude Common Strconv GoStd Forks Tools Permissions KdaUtils KdaData DataTrie UserAccount Codec.
From S2P Require Import Balances AccountsCache Staking World SystemAccount KdaKapp WorldLemmas NetParams Proposals ProposalProps.
Local Open Scope Z_scope.

Section handlers.
Context `{TO : TrieOps} `{CU : Marshalizer UserKDA} {Peer : Type}
  `{UA : AccountsAdapter userAccount} `{KA : AccountsAdapter kappAccount}
  `{PA : AccountsAdapter Peer} {WL : WorldLaws Peer} `{CS : Marshalizer StakingData}
  {CD : Marshalizer ProposalData} {CC : Marshalizer ProposalController}
  {LD : ProtoCodec CD emptyProposal} {LC : ProtoCodec CC emptyController} `{FP : FloatParsers}.
Variable env : proposalEnv.
Variable range : gmap Z string -> list (Z * string).
Implicit Types (w : world Peer) (a : kappAccount).

(** The frozen KFI of an address, as the handlers read it. *)
Definition frozen_in w (k : string) : Z :=
  match user_obj w k with
  | Some u => match GetUserKDA u (Some KFIIdentifier) EmptyString (env_fc env EnableSmartContracts) with
              | Ok d => FrozenBalance d
              | Err _ => 0
              end
  | None => 0
  end.

(** *** Steps on the application account *)

(** [w] holds the application account [a] at the location [l]. *)
Record holds_app w (l : nat) a : Prop := {
  ha_ok : world_ok w;
  ha_loc : kapp_loc w ProposalKAppAddress l;
  ha_obj : kapp_obj w ProposalKAppAddress = Some a;
}.

Lemma holds_quiet w w' l a : holds_app w l a -> world_step nobody nobody w w' -> holds_app w' l a.
Proof.
  intros [Hok Hl Ho] H. split; [apply H|by apply (ws_kapp_loc _ _ _ _ H)|]. by rewrite (quiet_kapp _ _ _ H).
Qed.

Lemma app_read {B} w w' l a (m : M kappAccount error B) x :
  holds_app w l a -> (forall b, (m b).1 = b) -> on_kapp l m w = (w', Ok x) ->
  holds_app w' l a /\ world_step nobody nobody w w' /\ m a = (a, Ok x).
Proof.
  intros Hh Hr H. apply (kapp_read_spec _ _ ProposalKAppAddress) in H as [Hq (b & Hb & Hx)]; [|apply Hh|apply Hh|done].
  rewrite (ha_obj _ _ _ Hh) in Hb. injection Hb as <-. split; [by eapply holds_quiet|]. split; [done|].
  specialize (Hr a). destruct (m a). cbn in *. by subst.
Qed.

Lemma app_write {B} w w' l a (m : M kappAccount error B) x :
  holds_app w l a -> (forall b b' r, m b = (b', r) -> kapp_Address b' = kapp_Address b) ->
  on_kapp l m w = (w', Ok x) ->
  exists a', holds_app w' l a' /\ world_step nobody (eq ProposalKAppAddress) w w' /\ m a = (a', Ok x).
Proof.
  intros Hh Hk H.
  apply (on_kapp_spec _ _ ProposalKAppAddress) in H as [Hs (b & b' & Hb & Hm & Hb')]; [|apply Hh|apply Hh|done].
  rewrite (ha_obj _ _ _ Hh) in Hb. injection Hb as <-. exists b'. split; [|done].
  split; [apply Hs|apply (ws_kapp_loc _ _ _ _ Hs), Hh|done].
Qed.

(** Operations of the account keep its address. *)
Definition keeps_app {B} (m : M kappAccount error B) : Prop :=
  forall b b' r, m b = (b', r) -> kapp_Address b' = kapp_Address b.

Lemma keeps_app_bind {B D} (m : M kappAccount error B) (f : B -> M kappAccount error D) :
  keeps_app m -> (forall x, keeps_app (f x)) -> keeps_app (mbind f m).
Proof.
  intros Hm Hf b b' r H. unfold mbind, M_bind in H. destruct (m b) as [b1 [x|e]] eqn:E.
  - rewrite (Hf _ _ _ _ H). by eapply Hm.
  - injection H as <- _. by eapply Hm.
Qed.
Lemma keeps_app_ret {B} (x : B) : keeps_app (mret x).
Proof. by intros b b' r [= <- _]. Qed.
Lemma keeps_app_fail {B} e : keeps_app (fail e : M _ _ B).
Proof. by intros b b' r [= <- _]. Qed.
Lemma keeps_app_lift {B} (x : res error B) : keeps_app (lift x).
Proof. by intros b b' r [= <- _]. Qed.
Lemma keeps_app_save k v : keeps_app (kapp_SaveKeyValue k v).
Proof. intros b b' r. unfold kapp_SaveKeyValue. by destruct (SaveKeyValue _ _ _); intros [= <- _]. Qed.
Lemma keeps_app_opt k : keeps_app (retrieveOptional k).
Proof. intros b b' r. rewrite retrieveOptional_spec. by intros [= <- _]. Qed.
Hint Resolve keeps_app_ret keeps_app_fail keeps_app_lift keeps_app_save keeps_app_opt : keeps.
Ltac keeps_app := repeat (first [apply keeps_app_bind; [|intros ?] | solve [auto with keeps] | case_match]).

Lemma keeps_SetProposal id p o : keeps_app (SetProposal id p o).
Proof. unfold SetProposal, write_controller, write_proposal. keeps_app. Qed.
Lemma keeps_SetVotes s es : keeps_app (SetAccountProposalVotes s es).
Proof. unfold SetAccountProposalVotes. keeps_app. Qed.
Lemma keeps_addVoter s id am c : keeps_app (addVoterToIndex s id am c).
Proof. unfold addVoterToIndex, GetAccountProposalVotes, SetAccountProposalVotes. keeps_app. Qed.
Lemma keeps_PreFork c : keeps_app (PreForkVoteIDBound c).
Proof. unfold PreForkVoteIDBound. keeps_app. Qed.

(** *** Loading *)

Lemma GetProposal_spec w w' a c id l p c' :
  world_ok w -> kapp_obj w ProposalKAppAddress = Some a -> controller_at a = Some c ->
  GetProposal id w = (w', Ok (l, p, c')) ->
  world_step nobody nobody w w' /\ holds_app w' l a /\ c' = c /\
  (id <> 0 -> proposal_at a id = Some p) /\ (id = 0 -> p = emptyProposal).
Proof.
  intros Hok Ha Hc H. unfold GetProposal in H. step H as w1 l1 H1.
  apply GetExistingKapp_spec in H1 as [Hq1 Hl1]; [|done].
  assert (holds_app w1 l1 a) as Hh1 by (split; [apply Hq1|done|by rewrite (quiet_kapp _ _ _ Hq1)]).
  step H as w2 c2 H2. apply (app_read _ _ _ a) in H2 as (Hh2 & Hq2 & H2); [|done|apply read_controller_reads].
  apply (read_controller_spec _ _ c) in H2 as [_ ->]; [|done].
  pose proof (quiet_trans _ _ _ Hq1 Hq2) as Hq.
  destruct (Z.eqb_spec id 0) as [->|Hid]; cbn [negb] in H.
  - step H as w3 p3 H3. injection H3 as <- <-. injection H as <- <- <- <-. by splits.
  - step H as w3 p3 H3. apply (app_read _ _ _ a) in H3 as (Hh3 & Hq3 & H3); [|done|apply GetProposalData_reads].
    injection H as <- <- <- <-. apply GetProposalData_ok in H3 as [_ Hp].
    split; [by eapply quiet_trans|]. by splits.
Qed.

Lemma GetStaking_quiet w w' asset x : world_ok w -> GetStaking asset w = (w', Ok x) -> world_step nobody nobody w w'.
Proof. intros Hok H. destruct x as [l st]. by apply get_record_spec in H as (? & _). Qed.

Lemma kfi_of_spec w w' k l d :
  world_ok w -> user_loc w k l -> kfi_of env l w = (w', Ok d) ->
  world_step nobody nobody w w' /\ FrozenBalance d = frozen_in w k.
Proof.
  intros Hok Hl H. apply (user_read_spec _ _ k) in H as [Hq (u & Hu & Hx)]; [|done|done|done].
  split; [done|]. unfold frozen_in. rewrite Hu. unfold mbind, M_bind, get, lift in Hx. cbn in Hx. by rewrite Hx.
Qed.

Lemma frozen_quiet w w' k : world_step nobody nobody w w' -> frozen_in w' k = frozen_in w k.
Proof. intros H. unfold frozen_in. by rewrite (quiet_user _ _ _ H). Qed.

(** *** Voting and creating *)

Lemma require_min_staked_quiet w w' st : world_ok w -> require_min_staked env st w = (w', Ok tt) -> w' = w.
Proof.
  intros Hok H. unfold require_min_staked in H. step H as w1 m H1. unfold or_panic in H1.
  apply with_err_ok in H1. injection H1 as <- _. by apply refuse_if_ok in H as [_ ->].
Qed.

Lemma Vote_spec w w' a c sender tc :
  world_ok w -> kapp_obj w ProposalKAppAddress = Some a -> controller_at a = Some c ->
  Vote env sender tc w = (w', Ok tt) ->
  exists p total a1 a',
    0 < vc_ProposalID tc /\ 0 < vc_Amount tc <= frozen_in w sender /\
    proposal_at a (vc_ProposalID tc) = Some p /\ pd_ProposalStatus p = ProposalData_ActiveProposal /\
    isVoterLimitExceeded env p (EncodeToString sender) = false /\
    SetProposal (vc_ProposalID tc) (record_vote env p (EncodeToString sender) tc total) (Some c) a = (a1, Ok tt) /\
    (if env_fc env FixAuditChangesV5
     then addVoterToIndex (EncodeToString sender) (vc_ProposalID tc) (vc_Amount tc) c a1 = (a', Ok tt)
     else a' = a1) /\
    kapp_obj w' ProposalKAppAddress = Some a' /\ world_step nobody (eq ProposalKAppAddress) w w'.
Proof.
  intros Hok Ha Hc H. unfold Vote in H. guard_ok H. guard_ok H.
  step H as w1 [[l p] c1] K1. apply or_refuse_ok in K1.
  apply (GetProposal_spec _ _ a c) in K1 as (Q1 & Hh1 & -> & Hp & _); [|done..].
  guard_ok H. step H as w2 [l2 st] K2. apply with_err_ok, GetStaking_quiet in K2 as Q2; [|apply Hh1].
  step H as w3 [] K3. apply require_min_staked_quiet in K3 as ->; [|apply Q2].
  step H as w4 lo K4. apply with_err_ok, GetExistingUserAccount_spec in K4 as [Q4 Hlo]; [|apply Q2].
  step H as w5 d K5. apply with_err_ok, (kfi_of_spec _ _ sender) in K5 as [Q5 Hd]; [|apply Q4|done].
  guard_ok H. guard_ok H. cbv zeta in H.
  pose proof (quiet_trans _ _ _ Q1 (quiet_trans _ _ _ Q2 Q4)) as Q. pose proof (quiet_trans _ _ _ Q Q5) as QQ.
  assert (holds_app w5 l a) as Hh5 by (eapply holds_quiet; [exact Hh1|by eapply quiet_trans, quiet_trans]).
  step H as w6 [] K6. apply with_err_ok, (app_write _ _ _ a) in K6 as (a1 & Hh6 & S6 & K6); [|done|apply keeps_SetProposal].
  assert (exists w7 a', holds_app w7 l a' /\ world_step nobody (eq ProposalKAppAddress) w6 w7 /\
     (if env_fc env FixAuditChangesV5
      then addVoterToIndex (EncodeToString sender) (vc_ProposalID tc) (vc_Amount tc) c a1 = (a', Ok tt)
      else a' = a1) /\
     (_ ← or_code Transaction_SaveAccountError (on_cache (UpdateKapp l));
      voter ← or_code Transaction_LoadAccountError (user_address lo);
      Receipts_Add (NewReceipt Receipt_ProposalVote (env_contractID env)
        [FormatUint (vc_ProposalID tc); voter; FormatInt (vc_Type tc); FormatInt (vc_Amount tc)])) w7 = (w', Ok tt))
    as (w7 & a' & Hh7 & S7 & Hidx & Hrest).
  { destruct (env_fc env FixAuditChangesV5).
    - step H as w7 [] K7. apply with_err_ok, (app_write _ _ _ a1) in K7 as (a' & Hh7 & S7 & K7);
        [|done|apply keeps_addVoter]. by exists w7, a'.
    - step H as w7 [] K7. injection K7 as <-. exists w6, a1. split; [done|]. split; [|done].
      eapply world_step_weaken; [by apply world_step_refl, Hh6| |]; by intros. }
  step Hrest as w8 [] K8. apply with_err_ok, UpdateKapp_enabled in K8; [|apply Hh7]. subst w8.
  step Hrest as w9 addr K9. apply with_err_ok, (user_address_spec _ _ _ sender) in K9; [|apply Hh7|].
  2: { apply (ws_user_loc _ _ _ _ S7), (ws_user_loc _ _ _ _ S6), (ws_user_loc _ _ _ _ Q5), Hlo. }
  apply Receipts_Add_spec in Hrest; [|apply K9]. pose proof (quiet_trans _ _ _ K9 Hrest) as Q9.
  exists p, (TotalStaked st), a1, a'. splits; try done.
  - rewrite <- (frozen_quiet _ _ sender Q). lia.
  - apply Hp. lia.
  - by rewrite (quiet_kapp _ _ _ Q9), (ha_obj _ _ _ Hh7).
  - pose proof (world_step_trans _ _ _ _ _ _ _ QQ (world_step_trans _ _ _ _ _ _ _ S6
      (world_step_trans _ _ _ _ _ _ _ S7 Q9))) as S.
    eapply world_step_weaken; [exact S|..]; unfold nobody; intros k; tauto.
Qed.

Lemma record_vote_nonempty p s tc total : record_vote env p s tc total <> emptyProposal.
Proof.
  intros E. assert (pd_Voters (record_vote env p s tc total) !! s = None) as H by (by rewrite E).
  unfold record_vote in H. destruct (processExistingVote p s (vc_Type tc)). cbn in H. by rewrite lookup_insert_eq in H.
Qed.

Lemma Vote_inv F w w' a c b sender tc :
  world_ok w -> kapp_obj w ProposalKAppAddress = Some a -> (forall k, frozen_in w k = F k) ->
  is_u64 (vc_ProposalID tc) -> is_i64 (vc_Amount tc) ->
  gov_inv (env_fc env FixAuditChangesV5) F a c b -> Vote env sender tc w = (w', Ok tt) ->
  exists a', kapp_obj w' ProposalKAppAddress = Some a' /\ gov_inv (env_fc env FixAuditChangesV5) F a' c b.
Proof.
  intros Hok Ha HF Hid Ham Hi H. pose proof (gi_controller _ _ _ _ _ Hi) as Hc.
  destruct (Vote_spec _ _ _ _ _ _ Hok Ha Hc H) as (p & total & a1 & a' & H1 & H2 & Hp & Hst & _ & Hset & Hidx & Ha' & _).
  exists a'. split; [done|]. rewrite HF in H2.
  assert (id_ok (vc_ProposalID tc)) as Hid' by (unfold id_ok; ilia).
  eapply (vote_inv _ F a a1 a' c b (vc_ProposalID tc) p _ sender (vc_Amount tc)); [done|by split| | | | |ilia|lia|exact Hset|exact Hidx].
  - apply record_vote_nonempty.
  - by rewrite record_vote_status.
  - apply record_vote_tally. by apply (gi_tally _ _ _ _ _ Hi (vc_ProposalID tc)).
  - intros u. apply record_vote_votes.
Qed.

Lemma checkStakingRequirements_quiet w w' st sender :
  world_ok w -> checkStakingRequirements env st sender w = (w', Ok tt) -> world_step nobody nobody w w'.
Proof.
  intros Hok H. unfold checkStakingRequirements in H. step H as w1 [] H1.
  apply require_min_staked_quiet in H1 as ->; [|done].
  step H as w2 l H2. apply with_err_ok, GetExistingUserAccount_spec in H2 as [Q2 Hl]; [|done].
  step H as w3 d H3. apply with_err_ok, (kfi_of_spec _ _ sender) in H3 as [Q3 _]; [|apply Q2|done].
  apply refuse_if_ok in H as [_ ->]. by eapply quiet_trans.
Qed.

Lemma Create_spec w w' a c sender tc :
  world_ok w -> kapp_obj w ProposalKAppAddress = Some a -> controller_at a = Some c ->
  Create env range sender tc w = (w', Ok tt) ->
  exists total a1 a',
    validateCreateInput env tc = Ok true /\
    validateNewParameters env (range (prc_Parameters tc)) c = Ok tt /\
    (if env_fc env FixAuditChangesV5 then exists b1, PreForkVoteIDBound c a = (a1, Ok b1) else a1 = a) /\
    (let p := copyProposalDetails env emptyProposal total tc sender in
     let c' := updateActiveProposals (count_up c) p in
     SetProposal (pc_ProposalCount c') p (Some c') a1 = (a', Ok tt)) /\
    kapp_obj w' ProposalKAppAddress = Some a' /\ world_ok w'.
Proof.
  intros Hok Ha Hc H. unfold Create in H. step H as w0 v K0. unfold or_panic in K0. apply with_err_ok in K0.
  injection K0 as <- Hv. guard_ok H. subst v.
  step H as w1 [[l p] c1] K1. apply with_err_ok, (GetProposal_spec _ _ a c) in K1 as (Q1 & Hh1 & -> & _ & Hp); [|done..].
  rewrite (Hp eq_refl) in H. clear Hp p.
  step H as w2 [] K2. apply or_refuse_ok in K2. injection K2 as <- Hnew.
  step H as w3 [l3 st] K3. apply with_err_ok, GetStaking_quiet in K3 as Q3; [|apply Hh1].
  step H as w4 [] K4. apply checkStakingRequirements_quiet in K4 as Q4; [|apply Q3].
  assert (holds_app w4 l a) as Hh4 by (eapply holds_quiet; [exact Hh1|by eapply quiet_trans]).
  unfold finalizeProposal in H. cbv zeta in H.
  assert (exists w5 a1, holds_app w5 l a1 /\
     (if env_fc env FixAuditChangesV5 then exists b1, PreForkVoteIDBound c a = (a1, Ok b1) else a1 = a) /\
     (_ ← or_code Transaction_ParameterInvalid
        (on_kapp l (SetProposal (pc_ProposalCount (updateActiveProposals (count_up c) (copyProposalDetails env emptyProposal (TotalStaked st) tc sender)))
            (copyProposalDetails env emptyProposal (TotalStaked st) tc sender)
            (Some (updateActiveProposals (count_up c) (copyProposalDetails env emptyProposal (TotalStaked st) tc sender)))));
      _ ← or_code Transaction_SaveAccountError (on_cache (UpdateKapp l));
      _ ← SetReturnData [FormatUint (pc_ProposalCount (updateActiveProposals (count_up c) (copyProposalDetails env emptyProposal (TotalStaked st) tc sender)))];
      Receipts_Add (NewReceipt Receipt_Proposal (env_contractID env)
        [FormatUint (pc_ProposalCount (updateActiveProposals (count_up c) (copyProposalDetails env emptyProposal (TotalStaked st) tc sender)))])) w5 = (w', Ok tt))
    as (w5 & a1 & Hh5 & Hpre & Hrest).
  { destruct (env_fc env FixAuditChangesV5).
    - step H as w5 [] K5. step K5 as w6 b1 K6. injection K5 as <-.
      apply with_err_ok, (app_write _ _ _ a) in K6 as (a1 & Hh6 & _ & K6); [|done|apply keeps_PreFork].
      exists w6, a1. split; [done|]. split; [by exists b1|done].
    - step H as w5 [] K5. injection K5 as <-. by exists w4, a. }
  step Hrest as w6 [] K6. apply with_err_ok, (app_write _ _ _ a1) in K6 as (a' & Hh6 & _ & K6); [|done|apply keeps_SetProposal].
  step Hrest as w7 [] K7. apply with_err_ok, UpdateKapp_enabled in K7; [|apply Hh6]. subst w7.
  step Hrest as w8 [] K8. injection K8 as <-. injection Hrest as <-.
  exists (TotalStaked st), a1, a'. splits; try done.
  - by rewrite <- (ha_obj _ _ _ Hh6).
  - destruct Hh6 as [[] _ _]. by split.
Qed.

Lemma validateCreateInput_nonempty tc : validateCreateInput env tc = Ok true -> prc_Parameters tc <> ∅.
Proof.
  intros H E. unfold validateCreateInput in H. rewrite E, map_size_empty in H.
  destruct (_ <? Z.of_nat 0); [done|]. destruct (MaxDescriptionLength <? _); [done|].
  destruct (GetParameterUint _ _); [|done]. cbn in H. by rewrite orb_true_r in H.
Qed.

Lemma Create_inv F w w' a c b sender tc :
  world_ok w -> kapp_obj w ProposalKAppAddress = Some a -> pc_ProposalCount c < MaxUint64 ->
  gov_inv (env_fc env FixAuditChangesV5) F a c b -> Create env range sender tc w = (w', Ok tt) ->
  exists a' c' b', kapp_obj w' ProposalKAppAddress = Some a' /\ gov_inv (env_fc env FixAuditChangesV5) F a' c' b'.
Proof.
  intros Hok Ha Hmax Hi H. pose proof (gi_controller _ _ _ _ _ Hi) as Hc.
  destruct (Create_spec _ _ _ _ _ _ Hok Ha Hc H) as (total & a1 & a' & Hv & _ & Hpre & Hset & Ha' & _).
  set (p := copyProposalDetails env emptyProposal total tc sender) in *.
  destruct (create_inv (env_fc env FixAuditChangesV5) F a a1 a' c b p) as (b' & Hi'); try done; [|by eauto].
  intros E. assert (prc_Parameters tc = ∅) as E' by (change (pd_Parameters p = ∅); by rewrite E).
  by apply validateCreateInput_nonempty in Hv.
Qed.

(** *** Unfreezing *)

Lemma kfiStaked_quiet st st' x :
  world_ok (us_world st) -> kfiStaked st = (st', Ok x) -> world_step nobody nobody (us_world st) (us_world st').
Proof.
  intros Hok H. unfold kfiStaked in H. destruct (us_kfiStaked st) as [r|].
  - injection H as <- _. by apply world_step_refl.
  - match type of H with (let '(_, _) := ?m in _) = _ => destruct m as [w r] eqn:E end. injection H as <- ->. step E as w1 [l d] E1. injection E as <- _.
    by eapply GetStaking_quiet.
Qed.

Lemma on_world_ok {B} (m : M (world Peer) error B) st st' x :
  on_world m st = (st', Ok x) ->
  m (us_world st) = (us_world st', Ok x) /\ us_kfiStaked st' = us_kfiStaked st.
Proof. unfold on_world. destruct (m (us_world st)) as [w r]. by intros [= <- ->]. Qed.

Section unfreeze.
Variables (k : string) (up : proposalVoteUpdate).
Abbreviation s := (EncodeToString k).
Abbreviation f := (FrozenBalance (pu_userKDA up)).
Abbreviation u := (pu_unfrozenAmount up).
Hypothesis Haddr : pu_encodedAddr up = s.
Hypothesis Hu : 0 <= u.

(** The state of the loops holds the account [a]. *)
Definition us_holds (st : @unfreezeState TO Peer UA KA PA) a : Prop :=
  holds_app (us_world st) (pu_proposalKapp up) a /\ user_loc (us_world st) k (pu_ownerAcc up).

Lemma us_quiet st st' a :
  us_holds st a -> world_step nobody nobody (us_world st) (us_world st') -> us_holds st' a.
Proof. intros [Hh Hl] Hq. split; [by eapply holds_quiet|by apply (ws_user_loc _ _ _ _ Hq)]. Qed.

Lemma us_read {B} st st' a (m : M kappAccount error B) x :
  us_holds st a -> (forall b, (m b).1 = b) -> on_world (on_kapp (pu_proposalKapp up) m) st = (st', Ok x) ->
  us_holds st' a /\ m a = (a, Ok x).
Proof.
  intros [Hh Hl] Hr [H _]%on_world_ok. apply (app_read _ _ _ a) in H as (Hh' & Hq & Hm); [|done|done].
  split; [|done]. split; [done|]. by apply (ws_user_loc _ _ _ _ Hq).
Qed.

Lemma us_write {B} st st' a (m : M kappAccount error B) x :
  us_holds st a -> keeps_app m -> on_world (on_kapp (pu_proposalKapp up) m) st = (st', Ok x) ->
  exists a', us_holds st' a' /\ m a = (a', Ok x).
Proof.
  intros [Hh Hl] Hr [H _]%on_world_ok. apply (app_write _ _ _ a) in H as (a' & Hh' & Hq & Hm); [|done|done].
  exists a'. split; [|done]. split; [done|]. by apply (ws_user_loc _ _ _ _ Hq).
Qed.

Lemma updateVoterAndProposal_spec st st' a v p id p' :
  us_holds st a -> updateVoterAndProposal env up v p id st = (st', Ok p') ->
  us_holds st' a /\ p' = (remove_votes s u v p).1 /\ pd_Votes p' <> ∅.
Proof.
  intros Hh H. unfold updateVoterAndProposal in H. rewrite Haddr in H.
  assert (pd_Votes (remove_votes s u v p).1 <> ∅) as Hne.
  { unfold remove_votes, votes_sub. destruct (_ <=? _); cbn; apply insert_non_empty. }
  destruct (remove_votes s u v p) as [q r]. cbn [fst] in *.
  guard_ok H. step H as st1 owner K1. apply on_world_ok in K1 as [K1 _].
  apply (user_address_spec _ _ _ k) in K1; [|apply Hh|apply Hh].
  step H as st2 [] K2. injection K2 as <-. injection H as <- <-. split; [|done].
  eapply us_quiet; [exact Hh|]. eapply quiet_trans; [exact K1|]. apply same_cache_quiet; [apply K1|done].
Qed.

Lemma shrink_spec st st' a p id r :
  us_holds st a -> id_ok id -> proposal_at a id = Some p -> 0 <= vote_of p s <= MaxInt64 ->
  shrinkVoteIfUncovered env up p id st = (st', Ok r) ->
  exists a' p', us_holds st' a' /\ lowers s a a' /\ same_rest a a' /\ proposal_at a' id = Some p' /\
    (forall j, id_ok j -> j <> id -> proposal_at a' j = proposal_at a j) /\
    ((0 < vote_of p s -> vote_of p s <= f + u) -> vote_of p' s <= f \/ vote_of p' s = 0) /\
    vote_of p' s = match r with Some v => vd_Amount v | None => 0 end.
Proof.
  intros Hh Hid Hp Hr H. unfold shrinkVoteIfUncovered in H. rewrite Haddr in H.
  destruct (pd_Voters p !! s) as [[v|]|] eqn:Ev.
  2,3: injection H as <- <-; exists a, p; assert (vote_of p s = 0) as E by (unfold vote_of; by rewrite Ev);
    splits; try done; [apply lowers_refl|by right].
  assert (vote_of p s = vd_Amount v) as Evote by (unfold vote_of; by rewrite Ev).
  destruct (Z.ltb_spec f (vd_Amount v)) as [Hlt|Hge].
  2: { injection H as <- <-. exists a, p. splits; try done; [apply lowers_refl|left; lia]. }
  step H as st1 p1 K1. apply (updateVoterAndProposal_spec _ _ a) in K1 as (Hh1 & -> & Hne); [|done].
  step H as st2 p2 K2.
  assert (us_holds st2 a /\ exists total, p2 = set_outcome (remove_votes s u v p).1 (pd_ProposalStatus (remove_votes s u v p).1) total)
    as [Hh2 [total ->]].
  { unfold updateProposalTotalStaked in K2. destruct (env_fc env EnableSmartContracts); cbn [negb] in K2.
    - step K2 as st3 t K3. injection K2 as <- <-. apply kfiStaked_quiet in K3; [|apply Hh1].
      split; [by eapply us_quiet|by eexists].
    - injection K2 as <- <-. split; [done|]. exists (pd_TotalStaked (remove_votes s u v p).1).
      by destruct (remove_votes s u v p).1. }
  set (p1 := (remove_votes s u v p).1) in *. set (p2 := set_outcome p1 (pd_ProposalStatus p1) total) in *.
  step H as st3 [] K3. injection H as <- <-.
  apply (us_write _ _ a) in K3 as (a' & Hh3 & K3); [|done|apply keeps_SetProposal].
  unfold SetProposal in K3. step K3 as a1 [] K4. injection K4 as <-.
  apply write_proposal_spec in K3; [|intros E; apply Hne; change (pd_Votes p2 = ∅); by rewrite E].
  assert (forall t, vote_of p2 t = if decide (s = t) then Z.max 0 (vd_Amount v - u) else vote_of p t) as Hvotes.
  { intros t. change (vote_of p2 t) with (vote_of p1 t). apply remove_votes_votes; [done|done|lia]. }
  assert (lowered s p p2) as Hlow.
  { split.
    - apply remove_votes_status.
    - intros Ht. change (tally_ok p1). by apply remove_votes_tally.
    - intros t Hne'. by rewrite Hvotes, decide_False.
    - intros _. rewrite Hvotes, decide_True by done. lia. }
  exists a', p2. splits.
  - done.
  - by eapply lowers_set.
  - by eapply same_rest_set.
  - apply K3.
  - intros j Hj Hne'. by eapply proposal_set_other.
  - intros Hb. rewrite Hvotes, decide_True by done. destruct (Z_le_gt_dec (vote_of p s) 0); [lia|].
    specialize (Hb ltac:(lia)). lia.
  - unfold vote_of. change (pd_Voters p2) with (pd_Voters p1). by destruct (pd_Voters p1 !! s) as [[x|]|].
Qed.

(** The votes of the caller on open proposals were backed before. *)
Definition votes_fit a : Prop :=
  forall id p, open_at a id p -> 0 <= vote_of p s <= MaxInt64 /\ (0 < vote_of p s -> vote_of p s <= f + u).

Lemma votes_fit_lowers a a' : votes_fit a -> lowers s a a' -> votes_fit a'.
Proof.
  intros Hf Hl id p' Hp. destruct (lowers_open_inv _ _ _ _ _ Hl Hp) as (p & Ho & Hw).
  destruct (Hf _ _ Ho) as [Hr Hb]. pose proof (lw_self _ _ _ Hw Hr). split; [lia|].
  intros Hpos. specialize (Hb ltac:(lia)). lia.
Qed.

(** A vote is covered by what is still frozen. *)
Definition covered a (id : Z) : Prop :=
  exists p, proposal_at a id = Some p /\ (vote_of p s <= f \/ vote_of p s = 0).

Lemma covered_lowers a a' id : id_ok id -> covered a id -> votes_fit a -> (exists p, open_at a id p) -> lowers s a a' -> covered a' id.
Proof.
  intros Hid (p & Hp & Hc) Hf [q Hq] Hl. destruct (ls_some _ _ _ Hl _ _ Hid Hp) as (p' & Hp' & Hw).
  assert (q = p) as -> by (destruct Hq as (_ & ? & _); congruence).
  destruct (Hf _ _ Hq) as [Hr _]. pose proof (lw_self _ _ _ Hw Hr). exists p'. split; [done|]. lia.
Qed.

Lemma rebuildIndexEntry_spec st st' a e r :
  us_holds st a -> votes_fit a -> entry_ok e ->
  (forall id, id ∈ pu_activeIDs up -> exists p, open_at a id p) ->
  rebuildIndexEntry env up e st = (st', Ok r) ->
  exists a', us_holds st' a' /\ lowers s a a' /\ same_rest a a' /\
    (forall j, id_ok j -> j <> vi_ProposalID e -> proposal_at a' j = proposal_at a j) /\
    (forall e', r = Some e' -> vi_ProposalID e' = vi_ProposalID e /\ vi_Amount e' <= MaxInt64) /\
    (forall p, open_at a (vi_ProposalID e) p -> vi_ProposalID e ∈ pu_activeIDs up ->
       (0 < vote_of p s -> vote_of p s <= vi_Amount e) ->
       exists p', proposal_at a' (vi_ProposalID e) = Some p' /\ (vote_of p' s <= f \/ vote_of p' s = 0) /\
         (0 < vote_of p' s -> match r with Some e' => vote_of p' s <= vi_Amount e' | None => False end)).
Proof.
  intros Hh Hf [Hid Ham] Hact H. unfold rebuildIndexEntry in H.
  destruct (bool_decide (vi_ProposalID e ∈ pu_activeIDs up)) eqn:Ea; cbn [negb] in H.
  2: { injection H as <- <-. apply bool_decide_eq_false in Ea. exists a.
       splits; try done. apply lowers_refl. }
  apply bool_decide_eq_true in Ea. destruct (Z.leb_spec (vi_Amount e) f) as [Hle|Hgt].
  { injection H as <- <-. exists a. splits; try done; [apply lowers_refl|intros e' [= <-]; lia|].
    intros p Ho _ Hm. exists p. split; [apply Ho|]. split; [|done].
    destruct (Hf _ _ Ho) as [? _]. destruct (Z_le_gt_dec (vote_of p s) 0); [lia|]. specialize (Hm ltac:(lia)). lia. }
  destruct (Hact _ Ea) as [p Ho]. pose proof Ho as (Hidok & Hp & _).
  destruct (on_world _ st) as [st1 [q|err]] eqn:Eq.
  - apply (us_read _ _ a) in Eq as [Hh1 Hq]; [|done|apply GetProposalData_reads].
    apply GetProposalData_ok in Hq as [_ Hq]. assert (q = p) as -> by congruence.
    step H as st2 rem K1. injection H as <- <-. destruct (Hf _ _ Ho) as [Hr Hb].
    destruct (shrink_spec _ _ _ _ _ _ Hh1 Hidok Hp Hr K1) as (a' & p' & Hh2 & Hl & Hs & Hp' & Hoth & Hcov & Hrem).
    exists a'. splits; try done.
    + intros e'. destruct rem as [v|]; [|done]. cbn. intros [= <-]. cbn. split; [done|]. rewrite <- Hrem.
      destruct (ls_some _ _ _ Hl _ _ Hidok Hp) as (p2 & Hp2 & Hw). assert (p2 = p') as -> by congruence.
      pose proof (lw_self _ _ _ Hw Hr). lia.
    + intros p0 Ho' _ _. exists p'. split; [done|]. split; [by apply Hcov|]. destruct rem as [v|]; cbn; lia.
  - case_bool_decide as En; [|done]. injection H as <- <-. subst err. exfalso.
    unfold on_world in Eq. destruct (on_kapp _ _ (us_world st)) as [w1 r1] eqn:Ek. injection Eq as <- ->.
    destruct Hh as [[Hok Hl Hobj] _]. unfold on_kapp in Ek. unfold kapp_loc, wkapps in Hl.
    unfold kapp_obj, pool_obj, wkapps in Hobj. rewrite Hl in Hobj. rewrite Hobj in Ek.
    destruct (GetProposalData (vi_ProposalID e) a) as [a2 r2] eqn:Eg. injection Ek as _ ->.
    unfold GetProposalData, mbind, M_bind, kapp_RetrieveValue in Eg.
    destruct (RetrieveValue (kapp_tracker a) _) as [bs|err] eqn:Er.
    + unfold proposal_at, stored in Hp. rewrite (bytes_at_retrieve _ _ _ Er) in Hp.
      destruct (slen bs =? 0); [done|]. cbn in Eg. unfold lift in Eg. injection Eg as _ Eu. by rewrite Eu in Hp.
    + unfold proposal_at, stored, bytes_at, retrieveOptional, kapp_RetrieveValue in Hp. rewrite Er in Hp.
      injection Eg as _ ->. done.
Qed.

(** What the loop over the index entries leaves. *)
Record rebuilt (skip : gset Z) (es : list ProposalVoteIndexEntry) a a' (new : list ProposalVoteIndexEntry) : Prop := {
  rb_lowers : lowers s a a';
  rb_rest : same_rest a a';
  rb_range : Forall (fun e => is_u64 (vi_ProposalID e) /\ vi_Amount e <= MaxInt64) new;
  rb_other : forall id, id ∈ skip \/ first_entry es id = None ->
    (id_ok id -> proposal_at a' id = proposal_at a id) /\ first_entry new id = None;
  rb_seen : forall id p m, open_at a id p -> id ∉ skip -> first_entry es id = Some m ->
    (0 < vote_of p s -> vote_of p s <= m) ->
    exists p', proposal_at a' id = Some p' /\ (vote_of p' s <= f \/ vote_of p' s = 0) /\
      (0 < vote_of p' s -> match first_entry new id with Some m' => vote_of p' s <= m' | None => False end);
}.

Lemma rebuilt_skip skip e es a a' new :
  vi_ProposalID e ∈ skip -> rebuilt skip es a a' new -> rebuilt skip (e :: es) a a' new.
Proof.
  intros Hin [H1 H2 H3 H4 H5]. split; try done.
  - intros id Hid. apply H4. destruct Hid as [|Hid]; [by left|]. cbn in Hid. case_decide; [done|by right].
  - intros id p m Ho Hn Hm. apply (H5 id p m Ho Hn). cbn in Hm. case_decide; [congruence|done].
Qed.

Lemma rebuilt_cons skip e es a a1 a' new r :
  vi_ProposalID e ∉ skip -> entry_ok e -> votes_fit a ->
  lowers s a a1 -> same_rest a a1 ->
  (forall j, id_ok j -> j <> vi_ProposalID e -> proposal_at a1 j = proposal_at a j) ->
  (forall e', r = Some e' -> vi_ProposalID e' = vi_ProposalID e /\ vi_Amount e' <= MaxInt64) ->
  (forall p, open_at a (vi_ProposalID e) p -> (0 < vote_of p s -> vote_of p s <= vi_Amount e) ->
     exists p', proposal_at a1 (vi_ProposalID e) = Some p' /\ (vote_of p' s <= f \/ vote_of p' s = 0) /\
       (0 < vote_of p' s -> match r with Some e' => vote_of p' s <= vi_Amount e' | None => False end)) ->
  rebuilt ({[vi_ProposalID e]} ∪ skip) es a1 a' new ->
  rebuilt skip (e :: es) a a' (match r with Some e' => [e'] | None => [] end ++ new).
Proof.
  intros Hn [Hid _] Hf Hl Hs Hoth Hr He [H1 H2 H3 H4 H5].
  assert (forall id, id <> vi_ProposalID e ->
    first_entry (match r with Some e' => [e'] | None => [] end ++ new) id = first_entry new id) as Hne.
  { intros id Hne. destruct r as [e'|]; [|done]. cbn. rewrite decide_False; [done|].
    destruct (Hr _ eq_refl) as [-> _]. done. }
  split.
  - by eapply lowers_trans.
  - by eapply same_rest_trans.
  - apply Forall_app. split; [|done]. destruct r as [e'|]; [|constructor]. destruct (Hr _ eq_refl) as [E ?].
    constructor; [|constructor]. by rewrite E.
  - intros id Hx. assert (id <> vi_ProposalID e) as Hd.
    { intros ->. destruct Hx as [|Hx]; [done|]. cbn in Hx. by rewrite decide_True in Hx. }
    destruct (H4 id) as [E1 E2].
    { destruct Hx as [Hx|Hx]; [left; set_solver|]. right. cbn in Hx. by rewrite decide_False in Hx. }
    rewrite Hne by done. split; [|done]. intros Hok. rewrite E1 by done. by apply Hoth.
  - intros id p m Ho Hnid Hm Hv. destruct (decide (id = vi_ProposalID e)) as [->|Hd].
    + cbn in Hm. rewrite decide_True in Hm by done. injection Hm as <-.
      destruct (He _ Ho Hv) as (p' & Hp' & Hc & Hx). exists p'.
      destruct (H4 (vi_ProposalID e)) as [E1 E2]; [left; set_solver|].
      rewrite E1 by apply Ho. split; [done|]. split; [done|]. intros Hpos. specialize (Hx Hpos).
      destruct r as [e'|]; [|done]. cbn. destruct (Hr _ eq_refl) as [-> _]. by rewrite decide_True.
    + cbn in Hm. rewrite decide_False in Hm by congruence. rewrite Hne by done.
      apply (H5 id p m); [|set_solver|done|done]. destruct Ho as (Hok & Hp & Hst). split; [done|].
      split; [|done]. by rewrite Hoth.
Qed.

Lemma rebuild_loop_spec es st st' a skip kept skip' kept' :
  us_holds st a -> votes_fit a -> Forall entry_ok es ->
  (forall id, id ∈ pu_activeIDs up <-> exists p, open_at a id p) ->
  rebuild_loop env up es skip kept st = (st', Ok (skip', kept')) ->
  exists a' new, us_holds st' a' /\ kept' = kept ++ new /\ rebuilt skip es a a' new /\
    (forall id, id ∈ skip' <-> id ∈ skip \/ is_Some (first_entry es id)).
Proof.
  intros Hh Hf Hok. revert st a skip kept Hh Hf.
  induction Hok as [|e es He Hes IH]; intros st a skip kept Hh Hf Hact H; cbn [rebuild_loop] in H.
  { injection H as <- <- <-. exists a, []. split; [done|]. split; [by rewrite app_nil_r|]. split.
    - split; try done. apply lowers_refl.
    - intros id. cbn. split; [by left|]. intros [|[? ?]]; done. }
  case_bool_decide as Hin.
  - destruct (IH _ _ _ _ Hh Hf Hact H) as (a' & new & Hh' & -> & Hr & Hsk). exists a', new.
    split; [done|]. split; [done|]. split; [by apply rebuilt_skip|]. intros id. rewrite Hsk. cbn.
    case_decide; [subst|done]. split; [by left|]. intros _. by left.
  - step H as st1 r K1.
    apply (rebuildIndexEntry_spec _ _ a) in K1 as (a1 & Hh1 & Hl & Hs & Hoth & Hre & Hseen); [|done|done|done|].
    2: { intros id. apply Hact. }
    assert (forall id, (exists p, open_at a1 id p) <-> (exists p, open_at a id p)) as Hopen.
    { intros id. split; intros [p Hp].
      - destruct (lowers_open_inv _ _ _ _ _ Hl Hp) as (q & Hq & _). eauto.
      - destruct (lowers_open _ _ _ _ _ Hl Hp) as (q & Hq & _). eauto. }
    apply (IH st1 a1) in H as (a' & new & Hh' & -> & Hr & Hsk);
      [|done|by eapply votes_fit_lowers|intros id; rewrite Hact; by rewrite Hopen].
    exists a', (match r with Some e' => [e'] | None => [] end ++ new). split; [done|].
    split; [destruct r; [by rewrite <- app_assoc|done]|]. split.
    + apply (rebuilt_cons skip e es a a1 a' new r); try done.
      intros p Ho Hv. apply (Hseen p); [done| |done]. apply Hact. by exists p.
    + intros id. rewrite Hsk, elem_of_union, elem_of_singleton. cbn.
      case_decide as E; [|naive_solver]. split; [eauto|]. intros _. left. left. by symmetry.
Qed.

(** Scanning the buckets. *)
Lemma processActiveProposal_spec ids skip bound st st' a :
  us_holds st a -> votes_fit a -> (forall id, id ∈ ids -> exists p, open_at a id p) ->
  processActiveProposal env up ids skip bound st = (st', Ok tt) ->
  exists a', us_holds st' a' /\ lowers s a a' /\ same_rest a a' /\
    forall id, id ∈ ids -> id ∉ skip -> id <= bound -> covered a' id.
Proof.
  revert st a. induction ids as [|id ids IH]; intros st a Hh Hf Hopen H; cbn [processActiveProposal] in H.
  { injection H as <-. exists a. splits; try done; [apply lowers_refl|]. by intros id ?%elem_of_nil. }
  step H as st1 [] K1.
  assert (exists a1, us_holds st1 a1 /\ lowers s a a1 /\ same_rest a a1 /\ (id ∉ skip -> id <= bound -> covered a1 id))
    as (a1 & Hh1 & Hl1 & Hs1 & Hc1).
  { case_bool_decide as Hin; [injection K1 as <-; exists a; splits; try done; apply lowers_refl|].
    destruct (Z.ltb_spec bound id); [injection K1 as <-; exists a; splits; try done; [apply lowers_refl|lia]|].
    destruct (Hopen id) as [p Ho]; [by left|]. pose proof Ho as (Hid & Hp & _). destruct (Hf _ _ Ho) as [Hr Hb].
    step K1 as st2 q K2. apply (us_read _ _ a) in K2 as [Hh2 K2]; [|done|apply GetProposalData_reads].
    apply GetProposalData_ok in K2 as [_ Hq]. assert (q = p) as -> by congruence.
    step K1 as st3 r K3. injection K1 as <-.
    destruct (shrink_spec _ _ _ _ _ _ Hh2 Hid Hp Hr K3) as (a' & p' & Hh3 & Hl & Hs & Hp' & _ & Hcov & _).
    exists a'. splits; try done. intros _ _. exists p'. split; [done|]. by apply Hcov. }
  assert (forall j, j ∈ ids -> exists p, open_at a1 j p) as Hopen1.
  { intros j Hj. destruct (Hopen j) as [p Ho]; [by right|]. destruct (lowers_open _ _ _ _ _ Hl1 Ho) as (q & Hq & _). eauto. }
  destruct (IH st1 a1 Hh1 (votes_fit_lowers _ _ Hf Hl1) Hopen1 H) as (a' & Hh' & Hl' & Hs' & Hc').
  exists a'. splits; [done|by eapply lowers_trans|by eapply same_rest_trans|].
  intros j Hj Hn Hle. apply elem_of_cons in Hj as [->|Hj]; [|by apply Hc'].
  destruct (Hopen id) as [p Ho]; [by left|]. destruct (lowers_open _ _ _ _ _ Hl1 Ho) as (q & Hq & _).
  eapply covered_lowers; [apply Ho|by apply Hc1|by eapply votes_fit_lowers|by eauto|done].
Qed.

Lemma scan_buckets_spec es skip bound st st' a :
  us_holds st a -> votes_fit a -> (forall id, id ∈ ActiveProposalIDs (pu_controller up) -> exists p, open_at a id p) ->
  scan_buckets env up es skip bound st = (st', Ok tt) ->
  exists a', us_holds st' a' /\ lowers s a a' /\ same_rest a a' /\
    forall e ids id, e ∈ es -> pc_ActiveProposals (pu_controller up) !! e = Some (Some ids) -> id ∈ ids ->
      id ∉ skip -> id <= bound -> covered a' id.
Proof.
  revert st a. induction es as [|e es IH]; intros st a Hh Hf Hopen H; cbn [scan_buckets] in H.
  { injection H as <-. exists a. splits; try done; [apply lowers_refl|]. by intros e ids id ?%elem_of_nil. }
  step H as st1 [] K1. set (ids := default [] (default None (pc_ActiveProposals (pu_controller up) !! e))) in *.
  assert (forall id, id ∈ ids -> id ∈ ActiveProposalIDs (pu_controller up)) as Hids.
  { intros id Hid. apply elem_of_active. unfold ids in Hid.
    destruct (pc_ActiveProposals (pu_controller up) !! e) as [[l|]|] eqn:E; cbn in Hid; try by apply elem_of_nil in Hid.
    eauto. }
  apply (processActiveProposal_spec _ _ _ _ _ a) in K1 as (a1 & Hh1 & Hl1 & Hs1 & Hc1); [|done|done|auto].
  assert (forall j, j ∈ ActiveProposalIDs (pu_controller up) -> exists p, open_at a1 j p) as Hopen1.
  { intros j Hj. destruct (Hopen j Hj) as [p Ho]. destruct (lowers_open _ _ _ _ _ Hl1 Ho) as (q & Hq & _). eauto. }
  destruct (IH st1 a1 Hh1 (votes_fit_lowers _ _ Hf Hl1) Hopen1 H) as (a' & Hh' & Hl' & Hs' & Hc').
  exists a'. splits; [done|by eapply lowers_trans|by eapply same_rest_trans|].
  intros e' ids' id He He' Hid Hn Hle. apply elem_of_cons in He as [->|He]; [|by eapply Hc'].
  assert (ids' = ids) as -> by (unfold ids; by rewrite He').
  destruct (Hopen id (Hids id Hid)) as [p Ho]. destruct (lowers_open _ _ _ _ _ Hl1 Ho) as (q & Hq & _).
  eapply covered_lowers; [apply Ho|by apply Hc1|by eapply votes_fit_lowers|by eauto|done].
Qed.

Lemma scanActiveProposals_spec skip bound st st' a :
  us_holds st a -> votes_fit a -> (forall id, id ∈ ActiveProposalIDs (pu_controller up) -> exists p, open_at a id p) ->
  scanActiveProposals env up skip bound st = (st', Ok tt) ->
  exists a', us_holds st' a' /\ lowers s a a' /\ same_rest a a' /\
    forall id, id ∈ ActiveProposalIDs (pu_controller up) -> id ∉ skip -> id <= bound -> covered a' id.
Proof.
  intros Hh Hf Hopen H. apply (scan_buckets_spec _ _ _ _ _ a) in H as (a' & Hh' & Hl & Hs & Hc); [|done..].
  exists a'. splits; try done. intros id (e & ids & He & Hid)%elem_of_active Hn Hle.
  eapply Hc; [|exact He|done|done|done]. rewrite merge_sort_Permutation. apply list_elem_of_fmap.
  exists (e, Some ids). split; [done|]. by apply elem_of_map_to_list.
Qed.
End unfreeze.

Lemma lowers_same s a a' : (forall id, id_ok id -> proposal_at a' id = proposal_at a id) -> lowers s a a'.
Proof.
  intros H. split; intros id; [|intros Hid; by rewrite H].
  intros p Hid Hp. exists p. rewrite H by done. split; [done|apply lowered_refl].
Qed.

Lemma encode_positive es b : encodeProposalVoteIndex es = Ok b -> Forall (fun e => 0 < vi_Amount e) es.
Proof.
  revert b. induction es as [|e es IH]; intros b; [constructor|]. cbn.
  destruct (Z.leb_spec (vi_Amount e) 0); [done|]. destruct (encodeProposalVoteIndex es) as [r|]; [|done].
  intros _. constructor; [done|]. by eapply IH.
Qed.

(** The index pass: the entries read, the proposals lowered, the rebuilt index. *)
Lemma index_pass k up st st1 st2 a es skip new :
  pu_encodedAddr up = EncodeToString k -> 0 <= pu_unfrozenAmount up ->
  us_holds k up st a -> votes_fit k up a -> index_at a (EncodeToString k) = Ok es ->
  (forall id, id ∈ ActiveProposalIDs (pu_controller up) <-> exists p, open_at a id p) ->
  let up1 := if (0 <? length es)%nat then with_activeIDs up (ActiveProposalIDs (pu_controller up)) else up in
  rebuild_loop env up1 es ∅ [] st = (st1, Ok (skip, new)) ->
  (if bool_decide (new = es) then mret tt
   else on_world (on_kapp (pu_proposalKapp up) (SetAccountProposalVotes (EncodeToString k) new))) st1 = (st2, Ok tt) ->
  exists a1 a2, us_holds k up st2 a2 /\ rebuilt k up ∅ es a a1 new /\
    (forall id, id ∈ skip <-> is_Some (first_entry es id)) /\
    index_at a2 (EncodeToString k) = Ok new /\
    (forall key, key <> ToAccountProposalVotesKey (EncodeToString k) -> bytes_at a2 key = bytes_at a1 key).
Proof.
  intros Haddr Hu Hh Hf Hes Hact up1 Hloop Hset.
  assert (Forall entry_ok es) as Hok.
  { unfold index_at in Hes. apply res_bind_ok in Hes as (raw & _ & Hd). by apply decode_spec in Hd as [? _]. }
  assert (exists a1, us_holds k up st1 a1 /\ rebuilt k up ∅ es a a1 new /\
            (forall id, id ∈ skip <-> is_Some (first_entry es id))) as (a1 & Hh1 & Hr & Hsk).
  { destruct es as [|e es].
    - cbn in Hloop. injection Hloop as <- <- <-. exists a. split; [done|]. split.
      + split; try done. apply lowers_refl.
      + intros id. cbn. split; [set_solver|by intros [? ?]].
    - assert (pu_encodedAddr up1 = EncodeToString k) as Haddr1 by done.
      destruct (rebuild_loop_spec k up1 Haddr1 Hu (e :: es) st st1 a ∅ [] skip new Hh Hf Hok Hact Hloop)
        as (a1 & new' & Hh1 & -> & Hr & Hsk). exists a1. split; [done|].
      split; [by destruct Hr; split|]. intros id. rewrite Hsk. split; [intros [?|?]; [set_solver|done]|by right]. }
  exists a1. case_bool_decide as E.
  - injection Hset as <-. subst new. exists a1. splits; try done. by rewrite (same_rest_index _ _ _ (rb_rest _ _ _ _ _ _ _ Hr)).
  - destruct (us_write _ _ _ _ _ _ _ Hh1 (keeps_SetVotes _ _) Hset) as (a2 & Hh2 & Hset'). clear Hset. rename Hset' into Hset.
    unfold SetAccountProposalVotes in Hset. step Hset as a3 raw Hraw. injection Hraw as <- Hraw.
    destruct (save_bytes _ _ _ _ Hset) as (_ & Hb & Hk); [done|]. exists a2. splits; try done.
    unfold index_at. rewrite Hb. cbn. apply decode_encode; [|done].
    apply encode_positive in Hraw. pose proof (rb_range _ _ _ _ _ _ _ Hr) as Hrange.
    rewrite Forall_forall in *. intros e He. destruct (Hrange e He) as [H1 H2]. specialize (Hraw e He).
    split; [done|lia].
Qed.

(** The frozen KFI of [k] has gone down by [u]. *)
Definition unfrozen (F F' : string -> Z) (k : string) (u : Z) : Prop :=
  F' k = F k - u /\ forall j, j <> k -> F' j = F j.

Lemma inv_votes_fit v5 F F' a c b k up :
  gov_inv v5 F a c b -> unfrozen F F' k (pu_unfrozenAmount up) -> FrozenBalance (pu_userKDA up) = F' k ->
  votes_fit k up a.
Proof.
  intros Hi [Hk _] Hf id p Ho. split; [by apply (gi_votes _ _ _ _ _ Hi id)|]. intros Hpos.
  destruct (gi_backed _ _ _ _ _ Hi id p _ Ho Hpos) as (j & Ej & Hj). apply EncodeToString_inj in Ej as <-. lia.
Qed.

(** The unfreeze before the fork scans every open proposal. *)
Lemma scan_inv F F' a c b k up st st' :
  gov_inv false F a c b -> unfrozen F F' k (pu_unfrozenAmount up) -> FrozenBalance (pu_userKDA up) = F' k ->
  pu_encodedAddr up = EncodeToString k -> 0 <= pu_unfrozenAmount up -> pu_controller up = c ->
  us_holds k up st a -> scanActiveProposals env up ∅ MaxUint64 st = (st', Ok tt) ->
  exists a', us_holds k up st' a' /\ gov_inv false F' a' c b.
Proof.
  intros Hi Hun Hf Haddr Hu Hc Hh H. pose proof (inv_votes_fit _ _ _ _ _ _ _ _ Hi Hun Hf) as Hfit.
  apply (scanActiveProposals_spec k up Haddr Hu _ _ _ _ a) in H as (a' & Hh' & Hl & Hs & Hcov);
    [|done|done|rewrite Hc; intros id; apply Hi].
  exists a'. split; [done|]. destruct (gi_index _ _ _ _ _ Hi (EncodeToString k)) as (es & Hes & Hn & Hall).
  eapply (lowered_inv false F F' a a' c b k es); try done.
  - apply Hun.
  - pose proof (gi_bound _ _ _ _ _ Hi) as [[Hb ->]|[? _]]; [|done]. left. split; [|done]. by rewrite Hs.
  - by rewrite (same_rest_index _ _ _ Hs).
  - intros t _. by apply same_rest_index.
  - intros id p Ho Hpos. destruct (lowers_open_inv _ _ _ _ _ Hl Ho) as (q & Hq & Hw). split.
    + destruct (Hcov id) as (p2 & Hp2 & Hc2); [rewrite Hc; apply Hi; eauto|set_solver|apply Ho|].
      assert (p2 = p) as -> by (destruct Ho as (_ & ? & _); congruence). lia.
    + intros _. rewrite (Hn eq_refl). cbn. pose proof (gi_known _ _ _ _ _ Hi id q) as Hkn.
      destruct Hq as (Hid & Hq & _). specialize (Hkn Hid Hq).
      pose proof (gi_bound _ _ _ _ _ Hi) as [[_ ->]|[? _]]; done.
  - rewrite (same_rest_controller _ _ Hs). apply Hi.
Qed.

(** A vote that remains after both passes is covered, and the new index has it:
    either the old index had it, or its proposal is older than the fork. *)
Lemma remaining_vote F a a1 a3 a4 c b k up es new (skip : gset Z) :
  gov_inv true F a c b ->
  (forall id p, open_at a id p -> indexed b es id (vote_of p (EncodeToString k))) ->
  rebuilt k up ∅ es a a1 new -> (forall id, id ∈ skip <-> is_Some (first_entry es id)) ->
  (forall id, id_ok id -> proposal_at a3 id = proposal_at a1 id) ->
  lowers (EncodeToString k) a a4 -> lowers (EncodeToString k) a3 a4 -> votes_fit k up a3 ->
  (forall id, id ∈ ActiveProposalIDs c -> id ∉ skip -> id <= b -> covered k up a4 id) ->
  forall id p, open_at a4 id p -> 0 < vote_of p (EncodeToString k) ->
    vote_of p (EncodeToString k) <= FrozenBalance (pu_userKDA up) /\ indexed b new id (vote_of p (EncodeToString k)).
Proof.
  intros Hi Hall Hr Hsk Hprop Hl14 Hl4 Hfit3 Hcov id p Ho Hpos.
  destruct (lowers_open_inv _ _ _ _ _ Hl14 Ho) as (p0 & Ho0 & Hw).
  pose proof (gi_votes _ _ _ _ _ Hi id p0 (EncodeToString k) Ho0) as Hr0.
  pose proof (lw_self _ _ _ Hw Hr0) as Hle. specialize (Hall id p0 Ho0 ltac:(lia)).
  destruct (first_entry es id) as [m|] eqn:Em.
  - destruct (rb_seen _ _ _ _ _ _ _ Hr id p0 m Ho0) as (p1 & Hp1 & Hcv & Hnew); [set_solver|done|done|].
    rewrite <- (Hprop id) in Hp1 by apply Ho.
    destruct (ls_some _ _ _ Hl4 id p1 (proj1 Ho) Hp1) as (p4 & Hp4 & Hw4).
    assert (p4 = p) as -> by (destruct Ho as (_ & ? & _); congruence).
    assert (open_at a3 id p1) as Ho3.
    { split; [apply Ho|]. split; [done|]. rewrite <- (lw_status _ _ _ Hw4). apply Ho. }
    destruct (Hfit3 id p1 Ho3) as [Hr1 _]. pose proof (lw_self _ _ _ Hw4 Hr1).
    split; [lia|]. intros _. specialize (Hnew ltac:(lia)). destruct (first_entry new id); [lia|done].
  - split.
    + destruct (Hcov id) as (p4 & Hp4 & Hc4); [apply Hi; eauto|rewrite Hsk, Em; by intros [? ?]|done|].
      assert (p4 = p) as -> by (destruct Ho as (_ & ? & _); congruence). lia.
    + intros _. destruct (rb_other _ _ _ _ _ _ _ Hr id) as [_ ->]; [by right|]. done.
Qed.

(** The unfreeze after the fork rebuilds the index and scans the older ids. *)
Lemma processIndexed_inv F F' a c b k up st st' :
  gov_inv true F a c b -> unfrozen F F' k (pu_unfrozenAmount up) -> FrozenBalance (pu_userKDA up) = F' k ->
  pu_encodedAddr up = EncodeToString k -> 0 <= pu_unfrozenAmount up -> pu_controller up = c ->
  us_holds k up st a -> processIndexedProposalVotes env up st = (st', Ok tt) ->
  exists a', us_holds k up st' a' /\ gov_inv true F' a' c b.
Proof.
  intros Hi Hun Hf Haddr Hu Hc Hh H. pose proof (inv_votes_fit _ _ _ _ _ _ _ _ Hi Hun Hf) as Hfit.
  unfold processIndexedProposalVotes in H. rewrite Haddr in H. step H as st0 es K0.
  assert (forall a0 : kappAccount, (GetAccountProposalVotes (EncodeToString k) a0).1 = a0) as Hrd
    by (intros a0; by rewrite GetAccountProposalVotes_spec).
  destruct (us_read _ _ _ _ _ _ _ Hh Hrd K0) as [Hh0 K0']. rewrite GetAccountProposalVotes_spec in K0'.
  injection K0' as Hes.
  destruct (gi_index _ _ _ _ _ Hi (EncodeToString k)) as (es0 & Hes0 & _ & Hall).
  assert (es0 = es) as -> by congruence.
  cbv zeta in H. set (up1 := if (0 <? length es)%nat then _ else up) in H.
  assert (pu_controller up1 = c /\ pu_encodedAddr up1 = EncodeToString k /\ pu_unfrozenAmount up1 = pu_unfrozenAmount up /\
          pu_userKDA up1 = pu_userKDA up /\ pu_proposalKapp up1 = pu_proposalKapp up /\ pu_ownerAcc up1 = pu_ownerAcc up)
    as (Ec & Ea & Eu & Eku & Ek & Eo) by (unfold up1; by destruct (_ <? _)%nat).
  step H as st1 [skip new] K1. step H as st2 [] K2. rewrite Ea in K2.
  destruct (index_pass k up st0 st1 st2 a es skip new) as (a1 & a2 & Hh2 & Hr & Hsk & Hx2 & Hk2); try done.
  { rewrite Hc. apply Hi. }
  step H as st3 bd K3.
  destruct (us_write _ _ _ _ _ _ _ Hh2 (keeps_PreFork _) K3) as (a3 & Hh3 & K3'). rewrite Ec in K3'. clear K3.
  assert (bound_at true a2 c b) as Hb2.
  { pose proof (gi_bound _ _ _ _ _ Hi) as Hb. unfold bound_at in *.
    rewrite Hk2, (rb_rest _ _ _ _ _ _ _ Hr) by (intros; try apply prefork_not_proposal; intros E; symmetry in E; by apply votes_key_not_prefork in E). done. }
  destruct (PreForkVoteIDBound_spec _ _ _ b _ Hb2 (gi_count _ _ _ _ _ Hi) K3') as (-> & Hb3 & Hb3' & Hk3).
  (* the proposals of the three accounts *)
  assert (forall id, id_ok id -> proposal_at a3 id = proposal_at a1 id) as Hprop.
  { intros id Hid. apply stored_same. rewrite Hk3, Hk2; [done|..].
    - intros E. symmetry in E. by apply votes_key_not_proposal in E.
    - intros E. symmetry in E. by apply prefork_not_proposal in E. }
  pose proof (rb_lowers _ _ _ _ _ _ _ Hr) as Hl1. pose proof (lowers_same (EncodeToString k) _ _ Hprop) as Hl3.
  pose proof (lowers_trans _ _ _ _ Hl1 Hl3) as Hl13.
  assert (us_holds k up1 st3 a3) as Hh3' by (destruct Hh3; split; congruence).
  assert (votes_fit k up1 a3) as Hfit3.
  { pose proof (votes_fit_lowers _ _ _ _ Hfit Hl13) as Hv. intros id p Ho. rewrite Eku, Eu. exact (Hv id p Ho). }
  assert (forall id, id ∈ ActiveProposalIDs c -> exists p, open_at a3 id p) as Hopen3.
  { intros id [p Ho]%(gi_open _ _ _ _ _ Hi). destruct (lowers_open _ _ _ _ _ Hl13 Ho) as (q & Hq & _). eauto. }
  apply (scanActiveProposals_spec k up1 Ea ltac:(lia) _ _ _ _ a3) in H as (a4 & Hh4 & Hl4 & Hs4 & Hcov);
    [|done|done|by rewrite Ec].
  exists a4. split; [destruct Hh4; split; congruence|].
  pose proof (lowers_trans _ _ _ _ Hl13 Hl4) as Hl14.
  assert (forall t, index_at a4 t = index_at a2 t) as Hx4.
  { intros t. rewrite (same_rest_index _ _ _ Hs4). unfold index_at. by rewrite Hk3. }
  eapply (lowered_inv true F F' a a4 c b k new); try done.
  - apply Hun.
  - right. by rewrite Hs4.
  - by rewrite Hx4.
  - intros t Ht. rewrite Hx4. unfold index_at. rewrite Hk2 by (by intros ?%votes_key_inj).
    by rewrite (rb_rest _ _ _ _ _ _ _ Hr).
  - rewrite <- Hf. eapply (remaining_vote F a a1 a3 a4 c b k up es new skip); try done.
    + intros id p Ho. rewrite <- Eku, <- Eu. exact (Hfit3 id p Ho).
    + intros id H1 H2 H3. destruct (Hcov id) as (q & Hq & Hle); [by rewrite Ec|done|done|]. exists q. by rewrite <- Eku.
  - rewrite (same_rest_controller _ _ Hs4). transitivity (controller_at a2); [by apply stored_same, Hk3|].
    transitivity (controller_at a1); [by apply stored_same, Hk2|].
    rewrite (same_rest_controller _ _ (rb_rest _ _ _ _ _ _ _ Hr)). apply Hi.
Qed.

Lemma Unfreeze_inv F F' w w' a c b k lo u :
  world_ok w -> kapp_obj w ProposalKAppAddress = Some a -> user_loc w k lo -> 0 <= u ->
  unfrozen F F' k u -> frozen_in w k = F' k ->
  gov_inv (env_fc env FixAuditChangesV5) F a c b ->
  handleProposalVotesOnUnfreeze env lo KFIIdentifier k u w = (w', Ok tt) ->
  exists a', kapp_obj w' ProposalKAppAddress = Some a' /\ gov_inv (env_fc env FixAuditChangesV5) F' a' c b.
Proof.
  intros Hok Ha Hl Hu Hun Hfr Hi H. unfold handleProposalVotesOnUnfreeze in H.
  change (negb (str_eqb KFIIdentifier KFIIdentifier)) with false in H. cbn iota in H.
  step H as w1 [[l p] c1] K1. apply with_err_ok in K1.
  destruct (GetProposal_spec _ _ _ _ _ _ _ _ Hok Ha (gi_controller _ _ _ _ _ Hi) K1) as (Q1 & Hh1 & -> & _).
  step H as w2 d K2. apply with_err_ok in K2. change (kfi_of env lo w1 = (w2, Ok d)) in K2.
  destruct (kfi_of_spec w1 w2 k lo d) as [Q2 Hd]; [apply Q1|by apply (ws_user_loc _ _ _ _ Q1)|done|].
  rewrite (frozen_quiet _ _ _ Q1), Hfr in Hd. cbv zeta in H.
  set (up := {| pu_proposalKapp := l |}) in H. step H as w3 [] K3. unfold or_code in K3. apply with_err_ok in K3.
  match type of K3 with (let '(_, _) := ?m in _) = _ => destruct m as [st' r] eqn:E end. injection K3 as <- ->.
  set (st := {| us_world := w2; us_kfiStaked := None |}) in E.
  assert (us_holds k up st a) as Hh2.
  { split; [by eapply holds_quiet|]. apply (ws_user_loc _ _ _ _ Q2). by apply (ws_user_loc _ _ _ _ Q1). }
  assert (exists a', us_holds k up st' a' /\ gov_inv (env_fc env FixAuditChangesV5) F' a' c b) as (a' & [Hh' _] & Hi').
  { destruct (env_fc env FixAuditChangesV5).
    - by eapply (processIndexed_inv F F' a c b k up st st').
    - by eapply (scan_inv F F' a c b k up st st'). }
  apply with_err_ok, UpdateKapp_enabled in H; [|apply Hh']. subst w'. exists a'. split; [apply Hh'|done].
Qed.
End handlers.

(** ** Settlement *)

(** What the settlement relies on from the application database: an account
    lives under its own address, and a saved account is read back with the same
    values. *)
Class KappStore `{TO : TrieOps} (KA : AccountsAdapter kappAccount) : Prop := {
  ks_addr : forall a : kappAccount, addr_of a = kapp_Address a;
  ks_load : forall db k (a : kappAccount), adb_Load db k = Ok a -> addr_of a = k;
  ks_save : forall db (a : kappAccount) db' a', adb_Save db a = (db', a', Ok tt) ->
    exists b, adb_Load db' (addr_of a) = Ok b /\ forall key, bytes_at b key = bytes_at a key;
}.

Section settlement.
Context `{TO : TrieOps} `{KA : AccountsAdapter kappAccount} {KS : KappStore KA} `{CS : Marshalizer StakingData}
  {CD : Marshalizer ProposalData} {CC : Marshalizer ProposalController}
  {LD : ProtoCodec CD emptyProposal} {LC : ProtoCodec CC emptyController} `{FP : FloatParsers}.
Variable fc : ForkController.
Variable range : gmap Z string -> list (Z * string).
Hypothesis Hrange : forall m, range m ≡ₚ map_to_list m.
Implicit Types (a : kappAccount) (c : ProposalController) (p : ProposalData).

(** *** One proposal *)

Lemma getProposalKApp_spec a a' id p :
  id_ok id -> getProposalKApp id a = (a', Ok p) -> a' = a /\ proposal_at a id = Some p.
Proof.
  intros Hid H. unfold getProposalKApp in H. destruct (Z.eqb_spec id 0); [unfold id_ok in Hid; lia|].
  cbn [negb] in H. unfold mbind, M_bind, kapp_RetrieveValue in H.
  destruct (RetrieveValue _ _) as [b|] eqn:E; [|done]. unfold reject_if in H.
  destruct (slen b =? 0) eqn:Eb; [done|]. cbn in H. unfold lift in H. injection H as <- Hu.
  split; [done|]. unfold proposal_at, stored. by rewrite (bytes_at_retrieve _ _ _ E), Eb, Hu.
Qed.

Lemma updateApproved_nonempty l m m' :
  updateApprovedProposalParameters fc l m = Ok m' -> m <> ∅ -> m' <> ∅.
Proof.
  revert m. induction l as [|[q v] l IH]; intros m; cbn; [by intros [= <-]|].
  intros H Hm. apply res_bind_ok in H as (m1 & H1 & H). apply (IH m1 H).
  unfold validateAndApplyParameter in H1. apply res_bind_ok in H1 as (x & _ & H1).
  destruct (m !! q) as [[prm|]|]; [|done..]. injection H1 as <-. apply insert_non_empty.
Qed.

(** Whatever the forks: the proposal gets an outcome, the controller at most
    other parameters. *)
Lemma processSingle_any a a' c c' kfi id p :
  id_ok id -> processSingleProposal fc range c kfi id a = (a', Ok (p, c')) ->
  a' = a /\ exists p0 st m, proposal_at a id = Some p0 /\ st <> ProposalData_ActiveProposal /\
    p = set_outcome p0 st (TotalStaked kfi) /\ c' = set_parameters c m /\
    (pc_ActiveParameters c <> ∅ -> m <> ∅).
Proof.
  intros Hid H. unfold processSingleProposal in H. step H as a1 p0 K1.
  apply getProposalKApp_spec in K1 as [-> Hp]; [|done]. cbv zeta in H.
  assert (forall c0, c0 = set_parameters c0 (pc_ActiveParameters c0)) as Eta by (by intros []).
  assert (determineProposalStatus p0 kfi <> ProposalData_ActiveProposal) as Hst
    by (unfold determineProposalStatus; by destruct (_ <? _)).
  destruct (bool_decide _) eqn:Eb; cbn [negb] in H.
  2: { injection H as <- <- <-. split; [done|]. by exists p0, (determineProposalStatus p0 kfi), (pc_ActiveParameters c). }
  destruct (_ && _).
  { injection H as <- <- <-. split; [done|]. by exists p0, ProposalData_DeniedProposal, (pc_ActiveParameters c). }
  step H as a2 m K2. injection K2 as <- K2. injection H as <- <- <-. split; [done|].
  exists p0, (determineProposalStatus p0 kfi), m. splits; try done. by eapply updateApproved_nonempty.
Qed.

Lemma settled_nonempty p st total : st <> ProposalData_ActiveProposal -> set_outcome p st total <> emptyProposal.
Proof. intros H E. apply H. change (pd_ProposalStatus (set_outcome p st total) = ProposalData_ActiveProposal). by rewrite E. Qed.

Lemma processAll_any ids a a' c c' kfi out :
  Forall id_ok ids -> processAllProposals fc range c kfi ids a = (a', Ok (out, c')) ->
  same_rest a a' /\ (exists m, c' = set_parameters c m /\ (pc_ActiveParameters c <> ∅ -> m <> ∅)) /\
  (forall id, id ∈ ids -> exists p st, proposal_at a id = Some p /\ st <> ProposalData_ActiveProposal /\
     proposal_at a' id = Some (set_outcome p st (TotalStaked kfi))) /\
  (forall j, id_ok j -> j ∉ ids -> proposal_at a' j = proposal_at a j).
Proof.
  intros Hids. revert a c out. induction Hids as [|id ids Hid Hids IH]; intros a c out H.
  { injection H as <- <- <-. split; [done|]. split; [exists (pc_ActiveParameters c); by destruct c|].
    split; [by intros id ?%elem_of_nil|done]. }
  cbn [processAllProposals] in H. step H as a1 [p c1] K1.
  apply processSingle_any in K1 as (-> & p0 & st & m & Hp0 & Hst & -> & -> & Hm); [|done].
  step H as a2 [] K2. apply write_proposal_spec in K2; [|by apply settled_nonempty].
  step H as a3 [out' c3] K3. injection H as <- <- <-.
  destruct (IH _ _ _ K3) as (Hs & (m' & -> & Hm') & Hin & Hout).
  assert (forall j, id_ok j -> j <> id -> proposal_at a2 j = proposal_at a j) as Hoth
    by (intros j Hj Hne; by eapply proposal_set_other).
  splits.
  - eapply same_rest_trans; [by eapply same_rest_set|done].
  - exists m'. split; [done|]. intros Hne. apply Hm'. by apply Hm.
  - intros j Hj. rewrite Forall_forall in Hids.
    destruct (decide (j ∈ ids)) as [Hjt|Hjt].
    + destruct (Hin j Hjt) as (q & st' & Hq & Hst' & Hq'). destruct (decide (j = id)) as [->|Hne].
      * exists p0, st'. split; [done|]. split; [done|]. rewrite Hq'. destruct K2 as [K2 _]. rewrite K2 in Hq.
        by injection Hq as <-.
      * exists q, st'. rewrite <- Hoth by auto. done.
    + apply elem_of_cons in Hj as [->|]; [|done]. exists p0, st. split; [done|]. split; [done|].
      rewrite Hout by done. apply K2.
  - intros j Hj Hn. apply not_elem_of_cons in Hn as [Hne Hn]. rewrite Hout by done. by apply Hoth.
Qed.

(** *** The controller with the parameters of the forks *)

Lemma mergeInitial_nonempty m : (mergeInitialParameters m fc).1 <> ∅.
Proof.
  unfold mergeInitialParameters.
  assert (InitialProposalParameters fc !! EnumParameter_FeePerDataByte <> None) as H.
  { unfold InitialProposalParameters. destruct (fc KdaFpr), (fc EnableSmartContracts), (fc FixAuditChanges); vm_compute; done. }
  assert (InitialProposalParameters fc <> ∅) as Hne by (intros E; apply H; by rewrite E).
  destruct (Nat.leb_spec (size (InitialProposalParameters fc)) (size m)); cbn.
  - intros ->. rewrite map_size_empty in *. apply Hne, map_size_empty_iff. lia.
  - intros E. apply Hne. apply map_eq. intros k. rewrite lookup_empty.
    assert ((m ∪ InitialProposalParameters fc) !! k = None) as Hk by (rewrite E; apply lookup_empty).
    by apply lookup_union_None in Hk as [_ ?].
Qed.

Lemma getProposalController_spec s s' a c a1 c1 :
  adb_Load (ss_db s) ProposalKAppAddress = Ok a -> controller_at a = Some c ->
  getProposalController fc s = (s', Ok (a1, c1)) ->
  let m := (mergeInitialParameters (pc_ActiveParameters c) fc) in
  ss_db s' = ss_db s /\ c1 = set_parameters c m.1 /\
  ss_live s' = (if m.2 then UpdateParameters (ss_live s) m.1 else ss_live s) /\
  kapp_Address a1 = kapp_Address a /\ controller_at a1 = Some c1 /\
  (forall k, k <> ProposalControllerKey -> bytes_at a1 k = bytes_at a k).
Proof.
  intros Hl Hc H m. unfold getProposalController in H. step H as s1 [a0 c0] K1.
  unfold loadProposalController in K1. step K1 as s2 s2' K2. injection K2 as <- <-.
  step K1 as s3 a3 K3. rewrite Hl in K3. injection K3 as <- <-. unfold on_account in K1.
  destruct (read_controller a) as [a4 [c4|]] eqn:Er; [|done]. injection K1 as <- <- <-.
  destruct (read_controller_spec _ _ _ _ Er Hc) as [-> ->].
  pose proof (mergeInitial_nonempty (pc_ActiveParameters c)) as Hne. fold m in H, Hne. destruct m as [m0 mg] eqn:Em.
  cbn [fst snd] in *. destruct mg.
  - step H as s5 [a5 []] K5. unfold on_account in K5.
    destruct (write_controller (set_parameters c m0) a) as [a6 [[]|]] eqn:Ew; [|done]. injection K5 as <- <-.
    step H as s6 [] K6. injection K6 as <-. injection H as <- <- <-.
    pose proof Ew as Ew'. apply write_controller_spec in Ew as [Hw Hk].
    2: { intros E. apply Hne. change (pc_ActiveParameters (set_parameters c m0) = ∅). by rewrite E. }
    splits; try done. unfold write_controller in Ew'. step Ew' as a7 data K7. injection K7 as <- _.
    by destruct (save_bytes _ _ _ _ Ew') as (? & _ & _).
  - injection H as <- <- <-.
    assert (m0 = pc_ActiveParameters c) as ->.
    { subst m. unfold mergeInitialParameters in Em. destruct (_ <=? _)%nat; by injection Em. }
    splits; try done; [by rewrite Hc; destruct c].
Qed.

(** The stored KFI staking data. *)
Definition kfi_staking (db : adb) (kfi : StakingData) : Prop :=
  exists sa, adb_Load db StakingKAppAddress = Ok sa /\ stored sa (ToKDAKey KFIIdentifier EmptyString) = Some kfi.

Lemma getNativeStakingKApps_spec s s' klv kfi :
  getNativeStakingKApps s = (s', Ok (klv, kfi)) -> s' = s /\ kfi_staking (ss_db s) kfi.
Proof.
  intros H. unfold getNativeStakingKApps in H. m_ok. split; [done|]. eexists. split; [eassumption|]. unfold stored.
  erewrite bytes_at_retrieve by eassumption. rewrite (proj2 (Z.eqb_neq _ _)) by (by zify_bools).
  match goal with H : Unmarshal _ = Ok kfi |- _ => by rewrite H end.
Qed.

Lemma keeps_address_write id p a a' : write_proposal id p a = (a', Ok tt) -> kapp_Address a' = kapp_Address a.
Proof.
  intros H. unfold write_proposal in H. step H as a1 d K. injection K as <- _.
  by destruct (save_bytes _ _ _ _ H) as (? & _).
Qed.

Lemma processAll_address ids a a' c c' kfi out :
  processAllProposals fc range c kfi ids a = (a', Ok (out, c')) -> Forall id_ok ids -> kapp_Address a' = kapp_Address a.
Proof.
  intros H Hids. revert a c out H. induction Hids as [|id ids Hid Hids IH]; intros a c out H; [by injection H as <- _|].
  cbn [processAllProposals] in H. step H as a1 [p c1] K1.
  apply processSingle_any in K1 as (-> & _); [|done]. step H as a2 [] K2. step H as a3 [out' c3] K3. injection H as <- _ <-.
  rewrite (IH _ _ _ K3). by eapply keeps_address_write.
Qed.

Lemma settle_epoch_spec s s' a c epoch ids out :
  adb_Load (ss_db s) ProposalKAppAddress = Ok a -> controller_at a = Some c ->
  pc_ActiveProposals c !! epoch = Some (Some ids) -> Forall id_ok ids ->
  processProposalsEndOfEpoch fc range epoch s = (s', Ok out) ->
  let m := mergeInitialParameters (pc_ActiveParameters c) fc in
  exists kfi a1 a2 c2 a',
    kfi_staking (ss_db s) kfi /\ (forall k, k <> ProposalControllerKey -> bytes_at a1 k = bytes_at a k) /\
    processAllProposals fc range (set_parameters c m.1) kfi ids a1 = (a2, Ok (out, c2)) /\
    adb_Load (ss_db s') ProposalKAppAddress = Ok a' /\
    controller_at a' = Some (set_buckets c2 (delete epoch (pc_ActiveProposals c2))) /\
    (forall k, k <> ProposalControllerKey -> bytes_at a' k = bytes_at a2 k) /\
    ss_live s' = UpdateParameters (if m.2 then UpdateParameters (ss_live s) m.1 else ss_live s) (pc_ActiveParameters c2).
Proof.
  intros Hl Hc He Hids H m. unfold processProposalsEndOfEpoch in H. step H as s1 [a1 c1] K1.
  destruct (getProposalController_spec _ _ _ _ _ _ Hl Hc K1) as (Hdb & -> & Hlive & Haddr & Hc1 & Hk1). fold m in Hlive, H.
  change (pc_ActiveProposals (set_parameters c m.1)) with (pc_ActiveProposals c) in H. rewrite He in H.
  step H as s2 [klv kfi] K2. apply getNativeStakingKApps_spec in K2 as [-> Hkfi]. rewrite Hdb in Hkfi.
  step H as s3 [a2 [out2 c2]] K3. unfold on_account in K3.
  destruct (processAllProposals _ _ _ _ _ _) as [a2' [[out2' c2']|]] eqn:Ep; [|done]. injection K3 as <- <- <- <-.
  cbv zeta in H. step H as s4 [] K4. injection H as <- <-.
  unfold finalizeProposalUpdates, setProposalController in K4. step K4 as s5 [a5 []] K5. unfold on_account in K5.
  destruct (write_controller _ _) as [a5' [[]|]] eqn:Ew; [|done]. injection K5 as <- <-.
  step K4 as s6 [] K6. destruct (adb_Save (ss_db s1) a5') as [[db a6] r] eqn:Es. injection K6 as <- ->. injection K4 as <-.
  pose proof (processAll_any _ _ _ _ _ _ _ Hids Ep) as (_ & (mm & -> & Hmm) & _).
  assert (mm <> ∅) as Hne by (apply Hmm, mergeInitial_nonempty).
  pose proof Ew as Ew'. apply write_controller_spec in Ew as [Hw Hk].
  2: { intros E. apply Hne. apply (f_equal pc_ActiveParameters) in E. exact E. }
  destruct (ks_save _ _ _ _ Es) as (a' & Ha' & Hb).
  assert (addr_of a5' = ProposalKAppAddress) as E.
  { rewrite ks_addr. unfold write_controller in Ew'. step Ew' as a7 data K7. injection K7 as <- _.
    destruct (save_bytes _ _ _ _ Ew') as (-> & _ & _); [done|].
    rewrite (processAll_address _ _ _ _ _ _ _ Ep Hids), Haddr, <- ks_addr. by eapply ks_load. }
  rewrite E in Ha'. exists kfi, a1, a2', (set_parameters (set_parameters c m.1) mm), a'. splits; try done.
  - unfold controller_at in *. rewrite <- Hw. by apply stored_same.
  - intros k Hk'. by rewrite Hb, Hk.
  - cbn. by rewrite Hlive.
Qed.

(** Without a bucket nothing of the account changes in the database. *)
Lemma settle_idle s s' a c epoch out :
  adb_Load (ss_db s) ProposalKAppAddress = Ok a -> controller_at a = Some c ->
  (forall ids, pc_ActiveProposals c !! epoch <> Some (Some ids)) ->
  processProposalsEndOfEpoch fc range epoch s = (s', Ok out) ->
  let m := mergeInitialParameters (pc_ActiveParameters c) fc in
  ss_db s' = ss_db s /\ out = [] /\
  ss_live s' = (if m.2 then UpdateParameters (ss_live s) m.1 else ss_live s).
Proof.
  intros Hl Hc He H m. unfold processProposalsEndOfEpoch in H. step H as s1 [a1 c1] K1.
  destruct (getProposalController_spec _ _ _ _ _ _ Hl Hc K1) as (Hdb & -> & Hlive & _). fold m in Hlive, H.
  change (pc_ActiveProposals (set_parameters c m.1)) with (pc_ActiveProposals c) in H.
  destruct (pc_ActiveProposals c !! epoch) as [[ids|]|] eqn:E; [by destruct (He ids)|..]; by injection H as <- <-.
Qed.

Lemma bucket_cases c epoch :
  (exists ids, pc_ActiveProposals c !! epoch = Some (Some ids)) \/
  (forall ids, pc_ActiveProposals c !! epoch <> Some (Some ids)).
Proof. destruct (pc_ActiveProposals c !! epoch) as [[ids|]|]; [left; eauto|by right..]. Qed.

(** *** The invariant *)

Lemma settle_account v5 F a a' c c' b epoch ids total :
  gov_inv v5 F a c b -> pc_ActiveProposals c !! epoch = Some (Some ids) ->
  controller_at a' = Some c' -> pc_ProposalCount c' = pc_ProposalCount c ->
  pc_ActiveProposals c' = delete epoch (pc_ActiveProposals c) ->
  (forall id, id ∈ ids -> exists p st, proposal_at a id = Some p /\ st <> ProposalData_ActiveProposal /\
     proposal_at a' id = Some (set_outcome p st total)) ->
  (forall j, id_ok j -> j ∉ ids -> proposal_at a' j = proposal_at a j) ->
  (forall s, index_at a' s = index_at a s) ->
  bytes_at a' ProposalPreForkVotesKey = bytes_at a ProposalPreForkVotesKey ->
  gov_inv v5 F a' c' b.
Proof.
  intros Hi He Hc Hcount Hb Hin Hout Hidx Hpre.
  assert (forall id p, open_at a' id p <-> (id ∉ ids) /\ open_at a id p) as Hopen.
  { intros id p. unfold open_at. split.
    - intros (Hid & Hp & Hst). destruct (decide (id ∈ ids)) as [Hx|Hx].
      + destruct (Hin id Hx) as (q & st & _ & Hst' & Hq). rewrite Hq in Hp. injection Hp as <-. done.
      + split; [done|]. by rewrite <- Hout.
    - intros (Hx & Hid & Hp & Hst). by rewrite Hout. }
  split.
  - done.
  - rewrite Hcount. apply Hi.
  - intros id p Hid Hp. rewrite Hcount. destruct (decide (id ∈ ids)) as [Hx|Hx].
    + destruct (Hin id Hx) as (q & st & Hq & _). by apply (gi_known _ _ _ _ _ Hi id q).
    + rewrite Hout in Hp by done. by apply (gi_known _ _ _ _ _ Hi id p).
  - intros id. rewrite elem_of_active, Hb. split.
    + intros (e & l & [Hne Hl]%lookup_delete_Some & Hid).
      assert (id ∈ ActiveProposalIDs c) as [p Hp]%(gi_open _ _ _ _ _ Hi) by (apply elem_of_active; eauto).
      exists p. apply Hopen. split; [|done]. intros Hx. apply Hne. by eapply (gi_once _ _ _ _ _ Hi).
    + intros [p [Hx Hp]%Hopen].
      assert (id ∈ ActiveProposalIDs c) as (e & l & Hl & Hid)%elem_of_active by (apply (gi_open _ _ _ _ _ Hi); eauto).
      exists e, l. split; [|done]. rewrite lookup_delete_ne; [done|]. intros <-. apply Hx. congruence.
  - intros e e' l l' id Hl Hl'. rewrite Hb in Hl, Hl'. apply lookup_delete_Some in Hl as [_ Hl], Hl' as [_ Hl'].
    by apply (gi_once _ _ _ _ _ Hi e e' l l').
  - intros id p Hid Hp. destruct (decide (id ∈ ids)) as [Hx|Hx].
    + destruct (Hin id Hx) as (q & st & Hq & _ & Hq'). rewrite Hq' in Hp. injection Hp as <-.
      by apply (gi_tally _ _ _ _ _ Hi id q).
    + rewrite Hout in Hp by done. by apply (gi_tally _ _ _ _ _ Hi id).
  - intros id p s [_ Hp]%Hopen. by apply (gi_votes _ _ _ _ _ Hi id).
  - intros id p s [_ Hp]%Hopen. by apply (gi_backed _ _ _ _ _ Hi id).
  - intros s. destruct (gi_index _ _ _ _ _ Hi s) as (es & Hes & Hn & Hall). exists es. rewrite Hidx.
    split; [done|]. split; [done|]. intros id p [_ Hp]%Hopen. by apply Hall.
  - pose proof (gi_bound _ _ _ _ _ Hi) as Hbd. unfold bound_at in *. by rewrite Hpre, Hcount.
Qed.

Lemma Settle_inv v5 F s s' a a' c b epoch out :
  adb_Load (ss_db s) ProposalKAppAddress = Ok a -> gov_inv v5 F a c b ->
  processProposalsEndOfEpoch fc range epoch s = (s', Ok out) ->
  adb_Load (ss_db s') ProposalKAppAddress = Ok a' -> exists c', gov_inv v5 F a' c' b.
Proof.
  intros Hl Hi H Hl'. pose proof (gi_controller _ _ _ _ _ Hi) as Hc.
  destruct (bucket_cases c epoch) as [[ids He]|Hn].
  - assert (Forall id_ok ids) as Hids.
    { apply Forall_forall. intros id Hid. assert (id ∈ ActiveProposalIDs c) as Hx by (apply elem_of_active; eauto).
      apply (gi_open _ _ _ _ _ Hi) in Hx as (p & Hok & _). done. }
    destruct (settle_epoch_spec _ _ _ _ _ _ _ Hl Hc He Hids H) as (kfi & a1 & a2 & c2 & a3 & _ & Hk1 & Hp & Hl3 & Hc3 & Hk3 & _).
    assert (a3 = a') as -> by congruence.
    destruct (processAll_any _ _ _ _ _ _ _ Hids Hp) as (Hs & (mm & -> & _) & Hin & Hout).
    assert (forall k, k <> ProposalControllerKey -> (forall id, id_ok id -> k <> ToProposalKey id) -> bytes_at a' k = bytes_at a k) as Hsame.
    { intros k K1 K2. by rewrite Hk3, Hs, Hk1. }
    assert (forall j, id_ok j -> proposal_at a1 j = proposal_at a j /\ proposal_at a' j = proposal_at a2 j) as Hpr.
    { intros j Hj. pose proof (controller_key_ne j Hj). split; apply stored_same; [apply Hk1|apply Hk3]; congruence. }
    eexists. eapply (settle_account v5 F a a' c _ b epoch ids (TotalStaked kfi)); try done.
    + intros id Hid. rewrite Forall_forall in Hids. destruct (Hpr id (Hids id Hid)) as [E1 E2].
      rewrite <- E1, E2. by apply Hin.
    + intros j Hj Hn. destruct (Hpr j Hj) as [E1 E2]. rewrite E2, <- E1. by apply Hout.
    + intros t. unfold index_at. by rewrite Hsame.
    + by rewrite Hsame.
  - destruct (settle_idle _ _ _ _ _ _ Hl Hc Hn H) as (Hdb & _).
    rewrite Hdb in Hl'. assert (a' = a) as -> by congruence. eauto.
Qed.

(** *** Starting the node *)

(** The invariant does not depend on the parameters of the controller. *)
Lemma parameters_inv v5 F a a' c b m :
  gov_inv v5 F a c b -> controller_at a' = Some (set_parameters c m) ->
  (forall key, key <> ProposalControllerKey -> bytes_at a' key = bytes_at a key) ->
  gov_inv v5 F a' (set_parameters c m) b.
Proof.
  intros Hi Hc Hb.
  assert (forall id, id_ok id -> proposal_at a' id = proposal_at a id) as Hp.
  { intros id Hid. apply stored_same, Hb. by apply not_eq_sym, controller_key_ne. }
  assert (forall id p, open_at a' id p <-> open_at a id p) as Ho.
  { intros id p. unfold open_at. split; intros (Hid & H & Hst); [rewrite Hp in H|rewrite Hp]; done. }
  split.
  - done.
  - apply (gi_count _ _ _ _ _ Hi).
  - intros id p Hid. rewrite Hp by done. by apply (gi_known _ _ _ _ _ Hi).
  - intros id. change (ActiveProposalIDs (set_parameters c m)) with (ActiveProposalIDs c).
    rewrite (gi_open _ _ _ _ _ Hi). by setoid_rewrite Ho.
  - apply (gi_once _ _ _ _ _ Hi).
  - intros id p Hid. rewrite Hp by done. by apply (gi_tally _ _ _ _ _ Hi).
  - intros id p s H%Ho. by apply (gi_votes _ _ _ _ _ Hi id).
  - intros id p s H%Ho. by apply (gi_backed _ _ _ _ _ Hi id).
  - intros s. destruct (gi_index _ _ _ _ _ Hi s) as (es & Hes & Hn & Hall). exists es. unfold index_at.
    rewrite Hb by done. split; [done|]. split; [done|]. intros id p H%Ho. by apply Hall.
  - pose proof (gi_bound _ _ _ _ _ Hi) as Hbd. unfold bound_at in *. by rewrite Hb.
Qed.

Lemma Start_inv v5 F a a' c c' b :
  gov_inv v5 F a c b -> StartProposalsKApp fc a = (a', Ok c') -> gov_inv v5 F a' c' b.
Proof.
  intros Hi H. pose proof (gi_controller _ _ _ _ _ Hi) as Hc. unfold StartProposalsKApp, kapp_RetrieveValue in H.
  unfold controller_at, stored in Hc. destruct (bytes_at a ProposalControllerKey) as [bs|] eqn:Eb; [|done].
  destruct (slen bs =? 0) eqn:Es; [done|]. destruct (Unmarshal bs) as [c1|] eqn:Eu; [|done]. injection Hc as ->.
  rewrite (bytes_at_nonempty _ _ _ Eb) in H by (by intros ->).
  rewrite Es in H. step H as a1 c1 K1. injection K1 as <- K1. assert (c1 = c) as -> by congruence.
  destruct (_ <? _)%nat eqn:El; [|by injection H as <- <-].
  unfold mergeAndSaveParameters in H. step H as a2 [] K2. injection H as <- <-.
  apply write_controller_spec in K2 as [Hc2 Hk2].
  - by eapply parameters_inv.
  - intros E. apply (f_equal pc_ActiveParameters) in E. apply (mergeInitial_nonempty (pc_ActiveParameters c)).
    unfold mergeInitialParameters. apply Nat.ltb_lt in El. cbn in El.
    by rewrite (proj2 (Nat.leb_gt _ _) El).
Qed.

(** *** The reference settlement, from [FixAuditChangesV6] on *)

(** The values a proposal would set all pass their checks. *)
Definition set_valid (active : Params) (ps : gmap Z string) : bool :=
  is_ok (validateProposalParameters fc (map_to_list ps) active).

(** More than half of the staked KFI voted yes, and the values are valid. *)
Definition approved (active : Params) (total : Z) p : bool :=
  (Z.quot total 2 <? default 0 (pd_Votes p !! VoteDetail_Yes)) && set_valid active (pd_Parameters p).

Definition outcome (active : Params) (total : Z) p : ProposalData :=
  set_outcome p (if approved active total p then ProposalData_ApprovedProposal else ProposalData_DeniedProposal) total.

(** The parameters after the proposals [ps], in their order. *)
Definition enacted (active : Params) (total : Z) (ps : list ProposalData) : Params :=
  foldl (fun m p => if approved active total p then with_values m (pd_Parameters p) else m) active ps.

Lemma same_types_refl m : same_types m m.
Proof. done. Qed.
Lemma with_values_types m ps : same_types (with_values m ps) m.
Proof.
  intros q. unfold with_values. rewrite lookup_merge. by destruct (m !! q) as [[x|]|], (ps !! q).
Qed.

Lemma approved_types m m' total p : same_types m m' -> approved m total p = approved m' total p.
Proof. intros H. unfold approved, set_valid. by rewrite (validate_types fc _ _ _ H). Qed.

Lemma range_nodup m : NoDup (range m).*1.
Proof. rewrite (Hrange m). apply NoDup_fst_map_to_list. Qed.

Lemma set_valid_range m ps : set_valid m ps = is_ok (validateProposalParameters fc (range ps) m).
Proof.
  unfold set_valid.
  destruct (validateProposalParameters fc (map_to_list ps) m) as [[]|] eqn:E1,
           (validateProposalParameters fc (range ps) m) as [[]|] eqn:E2; try done.
  - apply (validate_perm fc _ (range ps)) in E1; [congruence|by rewrite Hrange].
  - apply (validate_perm fc _ (map_to_list ps)) in E2; [congruence|by rewrite Hrange].
Qed.

Lemma processSingle_v6 a a' c c' kfi id p0 p :
  fc FixAuditChangesV6 = true -> id_ok id -> proposal_at a id = Some p0 ->
  processSingleProposal fc range c kfi id a = (a', Ok (p, c')) ->
  p = outcome (pc_ActiveParameters c) (TotalStaked kfi) p0 /\
  c' = set_parameters c (if approved (pc_ActiveParameters c) (TotalStaked kfi) p0
                         then with_values (pc_ActiveParameters c) (pd_Parameters p0) else pc_ActiveParameters c).
Proof.
  intros Hv6 Hid Hp0 H. unfold processSingleProposal in H. step H as a1 q K1.
  apply getProposalKApp_spec in K1 as [-> Hq]; [|done]. assert (q = p0) as -> by congruence. cbv zeta in H.
  assert (c = set_parameters c (pc_ActiveParameters c)) as Eta by (by destruct c).
  unfold outcome, approved, determineProposalStatus in *. destruct (_ <? _); cbn [andb] in *.
  2: { change (bool_decide (ProposalData_DeniedProposal = ProposalData_ApprovedProposal)) with false in H.
       by injection H as <- <- <-. }
  change (bool_decide (ProposalData_ApprovedProposal = ProposalData_ApprovedProposal)) with true in H.
  cbn [negb] in H. rewrite Hv6 in H. cbn [andb pd_Parameters set_outcome] in H. rewrite set_valid_range.
  destruct (validateProposalParameters fc (range (pd_Parameters p0)) (pc_ActiveParameters c)) as [[]|] eqn:Ev;
    cbn [is_ok negb] in *; [|by injection H as <- <- <-].
  step H as a2 m K2. rewrite apply_validated in K2; [|apply range_nodup|done]. injection K2 as <- <-.
  injection H as <- <- <-. split; [done|]. do 2 f_equal.
  rewrite <- (list_to_map_to_list (pd_Parameters p0)) at 2. apply list_to_map_proper; [apply range_nodup|apply Hrange].
Qed.

(** The proposals of a bucket. *)
Definition bucket_proposals a (ids : list Z) : list ProposalData :=
  (fun id => default emptyProposal (proposal_at a id)) <$> ids.

Lemma bucket_proposals_ext a a' ids :
  (forall j, j ∈ ids -> proposal_at a' j = proposal_at a j) -> bucket_proposals a' ids = bucket_proposals a ids.
Proof.
  intros H. unfold bucket_proposals. induction ids as [|id ids IH]; [done|]. cbn. rewrite H by left.
  f_equal. apply IH. intros j Hj. apply H. by right.
Qed.

Lemma processAll_v6 ids a a' c c' kfi out active :
  fc FixAuditChangesV6 = true -> NoDup ids -> Forall id_ok ids -> same_types (pc_ActiveParameters c) active ->
  processAllProposals fc range c kfi ids a = (a', Ok (out, c')) ->
  (forall id, id ∈ ids -> exists p, proposal_at a id = Some p /\
     proposal_at a' id = Some (outcome active (TotalStaked kfi) p)) /\
  out = FormatUint <$> ids /\
  c' = set_parameters c (foldl (fun m p => if approved active (TotalStaked kfi) p then with_values m (pd_Parameters p) else m)
                           (pc_ActiveParameters c) (bucket_proposals a ids)).
Proof.
  intros Hv6 Hnd Hids. revert a c out Hnd. induction Hids as [|id ids Hid Hids IH]; intros a c out Hnd Hty H.
  { injection H as <- <- <-. splits; [by intros id ?%elem_of_nil|done|by destruct c]. }
  apply NoDup_cons in Hnd as [Hx Hnd]. cbn [processAllProposals] in H. step H as a1 [p c1] K1.
  destruct (processSingle_any _ _ _ _ _ _ _ Hid K1) as (-> & p0 & st & m & Hp0 & Hst & Ep & _).
  destruct (processSingle_v6 _ _ _ _ _ _ _ _ Hv6 Hid Hp0 K1) as [Eo Ec].
  assert (p = outcome active (TotalStaked kfi) p0) as Eo' by (rewrite Eo; unfold outcome; by rewrite (approved_types _ _ _ _ Hty)).
  rewrite (approved_types _ _ _ _ Hty) in Ec.
  step H as a2 [] K2. apply write_proposal_spec in K2; [|rewrite Ep; by apply settled_nonempty]. rewrite Eo' in K2.
  step H as a3 [out' c3] K3. injection H as <- <- <-.
  assert (forall j, j ∈ ids -> proposal_at a2 j = proposal_at a j) as Hoth.
  { intros j Hj. rewrite Forall_forall in Hids. eapply proposal_set_other; [exact K2|done|by apply Hids|]. by intros ->. }
  pose proof (processAll_any _ _ _ _ _ _ _ Hids K3) as (_ & _ & _ & Hout).
  destruct (IH a2 c1 out' Hnd) as (Hin & -> & ->); [|exact K3|].
  { rewrite Ec. cbn. destruct (approved active (TotalStaked kfi) p0); [|done]. intros q. by rewrite with_values_types. }
  splits; [|done|].
  - intros j Hj. apply elem_of_cons in Hj as [->|Hj].
    + exists p0. split; [done|]. rewrite Hout by done. apply K2.
    + rewrite <- Hoth by done. by apply Hin.
  - rewrite (bucket_proposals_ext a a2 ids Hoth). rewrite Ec. unfold bucket_proposals. cbn. by rewrite Hp0.
Qed.

Lemma fold_types active total ps m :
  same_types m active ->
  same_types (foldl (fun m p => if approved active total p then with_values m (pd_Parameters p) else m) m ps) active.
Proof.
  revert m. induction ps as [|p ps IH]; intros m Hm; [done|]. cbn. apply IH.
  destruct (approved active total p); [|done]. intros q. by rewrite with_values_types.
Qed.

Lemma enacted_ok active total ps :
  fc FixAuditChangesV6 = true -> params_ok active -> params_ok (enacted active total ps).
Proof.
  intros Hv6 Hok. unfold enacted.
  assert (same_types active active) as Hty by done. revert Hok Hty. generalize active at 1 2 5 as m.
  induction ps as [|p ps IH]; intros m Hm Hty; [done|]. cbn. apply IH.
  - destruct (approved active total p) eqn:Ea; [|done]. unfold approved in Ea. apply andb_true_iff in Ea as [_ Ev].
    apply (with_values_ok fc); [done|done|]. intros q v Hq. unfold set_valid in Ev.
    rewrite <- (validate_types fc _ _ _ Hty) in Ev.
    destruct (validateProposalParameters fc _ m) as [[]|] eqn:E; [|done]. apply validate_all in E.
    rewrite Forall_forall in E. apply (E (q, v)). by apply elem_of_map_to_list.
  - destruct (approved active total p); [|done]. intros q. by rewrite with_values_types.
Qed.

(** C14: the start of an epoch settles exactly the proposals whose bucket ends
    there.  From [FixAuditChangesV6] on a proposal is approved precisely when
    its yes votes exceed half of the KFI staked and every value it proposes is
    valid, and denied otherwise; the parameters stored and used from then on
    are the old ones (with the defaults the forks add) overwritten by the whole
    sets of the approved proposals in the order of the bucket; no other
    proposal changes, the bucket is gone, and nothing depends on the order in
    which a node visits the values of a proposal. *)
Theorem proposals_settled_exactly s s' a c epoch ids out :
  fc FixAuditChangesV6 = true ->
  adb_Load (ss_db s) ProposalKAppAddress = Ok a -> controller_at a = Some c ->
  pc_ActiveProposals c !! epoch = Some (Some ids) -> NoDup ids -> Forall id_ok ids ->
  processProposalsEndOfEpoch fc range epoch s = (s', Ok out) ->
  let active := (mergeInitialParameters (pc_ActiveParameters c) fc).1 in
  exists kfi a', kfi_staking (ss_db s) kfi /\ adb_Load (ss_db s') ProposalKAppAddress = Ok a' /\
    out = FormatUint <$> ids /\
    (forall id, id ∈ ids -> exists p, proposal_at a id = Some p /\
       proposal_at a' id = Some (outcome active (TotalStaked kfi) p)) /\
    (forall j, id_ok j -> j ∉ ids -> proposal_at a' j = proposal_at a j) /\
    (let final := enacted active (TotalStaked kfi) (bucket_proposals a ids) in
     controller_at a' = Some {| pc_ProposalCount := pc_ProposalCount c; pc_ActiveParameters := final;
                                pc_ActiveProposals := delete epoch (pc_ActiveProposals c) |} /\
     forall q prm, final !! q = Some (Some prm) -> ss_live s' !! q = Some (Some prm)).
Proof.
  intros Hv6 Hl Hc He Hnd Hids H active.
  destruct (settle_epoch_spec _ _ _ _ _ _ _ Hl Hc He Hids H) as (kfi & a1 & a2 & c2 & a' & Hkfi & Hk1 & Hp & Hl' & Hc' & Hk' & Hlive).
  fold active in Hp.
  destruct (processAll_v6 _ _ _ (set_parameters c active) _ _ _ active Hv6 Hnd Hids (fun _ => eq_refl) Hp) as (Hin & -> & Ec).
  destruct (processAll_any _ _ _ _ _ _ _ Hids Hp) as (_ & _ & _ & Hout).
  assert (forall j, id_ok j -> proposal_at a1 j = proposal_at a j /\ proposal_at a' j = proposal_at a2 j) as Hpr.
  { intros j Hj. pose proof (controller_key_ne j Hj). split; apply stored_same; [apply Hk1|apply Hk']; congruence. }
  rewrite Forall_forall in Hids.
  rewrite (bucket_proposals_ext a a1) in Ec by (intros j Hj; exact (proj1 (Hpr j (Hids j Hj)))).
  exists kfi, a'. splits; try done.
  - intros id Hid. destruct (Hpr id (Hids id Hid)) as [E1 E2]. rewrite <- E1, E2. by apply Hin.
  - intros j Hj Hn. destruct (Hpr j Hj) as [E1 E2]. rewrite E2, <- E1. by apply Hout.
  - cbn zeta. split; [by rewrite Hc', Ec|]. intros q prm Hq. rewrite Hlive, Ec. unfold UpdateParameters. apply lookup_union_Some_l. by apply clone_lookup.
Qed.

(** C22: the network parameters stay well typed.  If every stored and every live
    parameter has its declared type and a value within the bounds of
    [paramBounds], the start of any epoch from [FixAuditChangesV6] on, whatever
    proposals it settles and whatever defaults the forks add, leaves both sets
    so; and then reading any live parameter panics on no node and gives a
    number within its bounds. *)
Theorem parameters_stay_typed s s' a c epoch out :
  fc FixAuditChangesV6 = true ->
  adb_Load (ss_db s) ProposalKAppAddress = Ok a -> controller_at a = Some c ->
  (forall ids, pc_ActiveProposals c !! epoch = Some (Some ids) -> NoDup ids /\ Forall id_ok ids) ->
  params_ok (pc_ActiveParameters c) -> params_ok (ss_live s) ->
  processProposalsEndOfEpoch fc range epoch s = (s', Ok out) ->
  params_ok (ss_live s') /\
  (forall a', adb_Load (ss_db s') ProposalKAppAddress = Ok a' ->
     exists c', controller_at a' = Some c' /\ params_ok (pc_ActiveParameters c')) /\
  forall q prm, ss_live s' !! q = Some (Some prm) ->
    exists lim z, paramBounds !! q = Some lim /\ lim.1 <= z <= lim.2 /\ GetParameterUint (ss_live s') q = Ok z /\
      (param_type q = EnumType_Int64 -> GetParameterInt (ss_live s') q = Ok z).
Proof.
  intros Hv6 Hl Hc Hb Hok Hlok H.
  assert (params_ok (ss_live s') /\ forall a', adb_Load (ss_db s') ProposalKAppAddress = Ok a' ->
     exists c', controller_at a' = Some c' /\ params_ok (pc_ActiveParameters c')) as [Hlive Hst].
  { pose proof (merge_ok _ fc Hok) as Hm.
    assert (params_ok (if (mergeInitialParameters (pc_ActiveParameters c) fc).2
                       then UpdateParameters (ss_live s) (mergeInitialParameters (pc_ActiveParameters c) fc).1
                       else ss_live s)) as Hm' by (destruct (_.2); [by apply UpdateParameters_ok|done]).
    destruct (bucket_cases c epoch) as [[ids E]|Hn].
    - destruct (Hb _ E) as [Hnd Hids].
      destruct (settle_epoch_spec _ _ _ _ _ _ _ Hl Hc E Hids H) as (kfi & a1 & a2 & c2 & a' & _ & _ & Hp & Hl' & Hc' & _ & ->).
      destruct (processAll_v6 _ _ _ _ _ _ _ _ Hv6 Hnd Hids (same_types_refl _) Hp) as (_ & _ & Ec).
      assert (params_ok (pc_ActiveParameters c2)) as Hc2 by (rewrite Ec; by apply enacted_ok).
      split; [by apply UpdateParameters_ok|]. intros a3 Ha3. assert (a3 = a') as -> by congruence. eauto.
    - destruct (settle_idle _ _ _ _ _ _ Hl Hc Hn H) as (Hdb & _ & ->).
      split; [done|]. rewrite Hdb. intros a' Ha'. assert (a' = a) as -> by congruence. eauto. }
  split; [done|]. split; [done|]. intros q prm Hq.
  by eapply ok_GetParameter.
Qed.
End settlement.

(** ** Reachable governance states *)

Section runs.
Context `{TO : TrieOps} `{CU : Marshalizer UserKDA} {Peer : Type}
  `{UA : AccountsAdapter userAccount} `{KA : AccountsAdapter kappAccount} {KS : KappStore KA}
  `{PA : AccountsAdapter Peer} {WL : WorldLaws Peer} `{CS : Marshalizer StakingData}
  {CD : Marshalizer ProposalData} {CC : Marshalizer ProposalController}
  {LD : ProtoCodec CD emptyProposal} {LC : ProtoCodec CC emptyController} `{FP : FloatParsers}.
Implicit Types (w : world Peer) (a : kappAccount).

(** [gov_reach v5 F a]: the application account can be [a] and the frozen KFI
    [F], [v5] telling whether [FixAuditChangesV5] is in force.  The steps are
    the transactions that succeed, the settlement of an epoch, and what happens
    around them: KFI being frozen, the account saved and loaded again, the node
    started again, the fork activated.  In the unfreeze step [w] is the node's state once the KFI of
    the sender has gone down, as the handler meets it. *)
Inductive gov_reach : bool -> (string -> Z) -> kappAccount -> Prop :=
| gr_genesis F fc a :
    controller_at a = Some (NewInitialProposalController fc) ->
    (forall id, id_ok id -> proposal_at a id = None) ->
    (forall s, bytes_at a (ToAccountProposalVotesKey s) = Ok EmptyString) ->
    bytes_at a ProposalPreForkVotesKey = Ok EmptyString ->
    gov_reach false F a
| gr_fork F a : gov_reach false F a -> gov_reach true F a
| gr_freeze v5 F F' a : gov_reach v5 F a -> (forall k, F k <= F' k) -> gov_reach v5 F' a
| gr_reload v5 F a a' : gov_reach v5 F a -> (forall key, bytes_at a' key = bytes_at a key) -> gov_reach v5 F a'
| gr_create F env range a a' c w w' sender tc :
    gov_reach (env_fc (pe_env env) FixAuditChangesV5) F a ->
    world_ok w -> kapp_obj w ProposalKAppAddress = Some a ->
    controller_at a = Some c -> pc_ProposalCount c < MaxUint64 ->
    Create env range sender tc w = (w', Ok tt) -> kapp_obj w' ProposalKAppAddress = Some a' ->
    gov_reach (env_fc env FixAuditChangesV5) F a'
| gr_vote F env a a' w w' sender tc :
    gov_reach (env_fc (pe_env env) FixAuditChangesV5) F a ->
    world_ok w -> kapp_obj w ProposalKAppAddress = Some a -> (forall k, frozen_in env w k = F k) ->
    is_u64 (vc_ProposalID tc) -> is_i64 (vc_Amount tc) ->
    Vote env sender tc w = (w', Ok tt) -> kapp_obj w' ProposalKAppAddress = Some a' ->
    gov_reach (env_fc env FixAuditChangesV5) F a'
| gr_unfreeze F F' env a a' w w' sender owner amount :
    gov_reach (env_fc (pe_env env) FixAuditChangesV5) F a ->
    world_ok w -> kapp_obj w ProposalKAppAddress = Some a -> user_loc w sender owner ->
    0 <= amount -> unfrozen F F' sender amount -> frozen_in env w sender = F' sender ->
    handleProposalVotesOnUnfreeze env owner KFIIdentifier sender amount w = (w', Ok tt) ->
    kapp_obj w' ProposalKAppAddress = Some a' ->
    gov_reach (env_fc env FixAuditChangesV5) F' a'
| gr_settle v5 F fc range epoch a a' s s' out :
    gov_reach v5 F a -> adb_Load (ss_db s) ProposalKAppAddress = Ok a ->
    processProposalsEndOfEpoch fc range epoch s = (s', Ok out) ->
    adb_Load (ss_db s') ProposalKAppAddress = Ok a' -> gov_reach v5 F a'
| gr_start v5 F fc a a' c :
    gov_reach v5 F a -> StartProposalsKApp fc a = (a', Ok c) -> gov_reach v5 F a'.

Lemma genesis_inv F fc a :
  controller_at a = Some (NewInitialProposalController fc) ->
  (forall id, id_ok id -> proposal_at a id = None) ->
  (forall s, bytes_at a (ToAccountProposalVotesKey s) = Ok EmptyString) ->
  bytes_at a ProposalPreForkVotesKey = Ok EmptyString ->
  gov_inv false F a (NewInitialProposalController fc) 0.
Proof.
  intros Hc Hp Hx Hb.
  assert (forall id p, ~ open_at a id p) as Hno by (intros id p (Hid & H & _); rewrite Hp in H; done).
  split.
  - done.
  - cbn. ilia.
  - intros id p Hid. by rewrite Hp.
  - intros id. rewrite elem_of_active. split; [intros (e & ids & He & _)|intros [p []%Hno]].
    change (pc_ActiveProposals (NewInitialProposalController fc)) with (∅ : gmap Z (option (list Z))) in He.
    by rewrite lookup_empty in He.
  - intros e e' ids ids' id He.
    change (pc_ActiveProposals (NewInitialProposalController fc)) with (∅ : gmap Z (option (list Z))) in He.
    by rewrite lookup_empty in He.
  - intros id p Hid. by rewrite Hp.
  - by intros id p s []%Hno.
  - by intros id p s []%Hno.
  - intros s. exists []. unfold index_at. rewrite Hx. split; [done|]. split; [done|]. by intros id p []%Hno.
  - by left.
Qed.

(** The invariant depends on the values stored, on a frozen balance only from
    below, and is weaker once the fork is in force. *)
Lemma gov_inv_weaken v5 v5' F F' a a' c b :
  gov_inv v5 F a c b -> (forall k, F k <= F' k) -> (v5 = true -> v5' = true) ->
  (forall key, bytes_at a' key = bytes_at a key) -> gov_inv v5' F' a' c b.
Proof.
  intros Hi HF Hv Hb.
  assert (forall id, proposal_at a' id = proposal_at a id) as Hp by (intros id; by apply stored_same).
  assert (forall id p, open_at a' id p <-> open_at a id p) as Ho by (intros id p; unfold open_at; by rewrite Hp).
  split.
  - rewrite <- (gi_controller _ _ _ _ _ Hi). by apply stored_same.
  - apply Hi.
  - intros id p. rewrite Hp. apply Hi.
  - intros id. rewrite (gi_open _ _ _ _ _ Hi). split; intros [p H]; exists p; by apply Ho.
  - apply Hi.
  - intros id p. rewrite Hp. apply Hi.
  - intros id p s H%Ho. by apply (gi_votes _ _ _ _ _ Hi id).
  - intros id p s H%Ho Hpos. destruct (gi_backed _ _ _ _ _ Hi id p s H Hpos) as (k & -> & Hk).
    exists k. split; [done|]. specialize (HF k). lia.
  - intros s. destruct (gi_index _ _ _ _ _ Hi s) as (es & He & Hn & Hall). exists es. unfold index_at in *.
    rewrite Hb. split; [done|]. split; [|intros id p H%Ho; by apply Hall].
    intros ->. apply Hn. by destruct v5; [discriminate Hv|].
  - pose proof (gi_bound _ _ _ _ _ Hi) as Hbd. unfold bound_at in *. rewrite Hb.
    destruct Hbd as [?|(-> & ? & ?)]; [by left|right]. by rewrite Hv.
Qed.

Lemma reach_inv v5 F a : gov_reach v5 F a -> exists c b, gov_inv v5 F a c b.
Proof.
  induction 1 as [F fc a Hc Hp Hx Hb|F a _ (c & b & IH)|v5 F F' a _ (c & b & IH) HF|v5 F a a' _ (c & b & IH) Hb
    |F env range a a' c w w' sender tc _ (c' & b & IH) Hok Ha Hc Hmax H Ha'
    |F env a a' w w' sender tc _ (c & b & IH) Hok Ha HF Hid Ham H Ha'
    |F F' env a a' w w' sender owner amount _ (c & b & IH) Hok Ha Hl Hu Hun Hfr H Ha'
    |v5 F fc range epoch a a' s s' out _ (c & b & IH) Hl H Hl'|v5 F fc a a' c' _ (c & b & IH) H].
  - exists (NewInitialProposalController fc), 0. by apply genesis_inv.
  - exists c, b. by eapply gov_inv_weaken.
  - exists c, b. by eapply gov_inv_weaken.
  - exists c, b. by eapply gov_inv_weaken.
  - assert (c' = c) as -> by (pose proof (gi_controller _ _ _ _ _ IH); congruence).
    destruct (Create_inv env range F w w' a c b sender tc) as (a2 & c2 & b2 & Ha2 & Hi); [done..|].
    exists c2, b2. assert (a2 = a') as -> by congruence. done.
  - destruct (Vote_inv env F w w' a c b sender tc) as (a2 & Ha2 & Hi); [done..|].
    exists c, b. assert (a2 = a') as -> by congruence. done.
  - destruct (Unfreeze_inv env F F' w w' a c b sender owner amount) as (a2 & Ha2 & Hi); [done..|].
    exists c, b. assert (a2 = a') as -> by congruence. done.
  - destruct (Settle_inv fc range v5 F s s' a a' c b epoch out) as (c' & Hi); [done..|]. eauto.
  - exists c', b. by eapply Start_inv.
Qed.

(** C21: through any sequence of creations, votes, changed votes, freezes,
    unfreezes, settlements, restarts and fork activations, the count a proposal keeps for
    each option is the sum of what its voters have on that option, as an
    [int64]: no vote is counted twice, under two options, or left behind when
    its voter changes option or unfreezes. *)
Theorem votes_tally_exact v5 F a id p t :
  gov_reach v5 F a -> id_ok id -> proposal_at a id = Some p ->
  default 0 (pd_Votes p !! t) = wrap_i64 (tally_of p t).
Proof. intros (c & b & Hi)%reach_inv Hid Hp. by apply (gi_tally _ _ _ _ _ Hi id p). Qed.

(** C9: every vote that can still decide a proposal is backed by stake.  In any
    reachable state, on both sides of the [FixAuditChangesV5] fork, what a
    voter has on a proposal open for votes is at most the KFI that voter has
    frozen now: an unfreeze lowers the votes on all of them, although from the
    fork on it reads only the voter's own index and the proposals older than
    the fork. *)
Theorem active_votes_backed v5 F a id p s v :
  gov_reach v5 F a -> id_ok id -> proposal_at a id = Some p ->
  pd_ProposalStatus p = ProposalData_ActiveProposal -> pd_Voters p !! s = Some (Some v) -> 0 < vd_Amount v ->
  exists k, s = EncodeToString k /\ vd_Amount v <= F k.
Proof.
  intros (c & b & Hi)%reach_inv Hid Hp Hst Hv Hpos.
  assert (vote_of p s = vd_Amount v) as E by (unfold vote_of; by rewrite Hv). rewrite <- E in *.
  by apply (gi_backed _ _ _ _ _ Hi id p).
Qed.
End runs.
