(* ===== verification/WorldExample.v ===== *)
(** * A concrete world

    Serializers for the remaining messages, accounts databases that are plain
    maps, and a small world over them: the assumptions of the handlers'
    properties hold there, and the concrete runs of the witnesses happen in
    it. *)

From S2P Require Import Prelude Common Strconv GoStd Forks Tools Permissions KdaUtils KdaData DataTrie UserAccount Codec.
From S2P Require Import Balances AccountsCache Staking World SystemAccount KdaKapp WorldLemmas KdaSupply FeesPool RewardDeposit.
From S2P Require Import Transfer TransferProps.
From Stdlib Require Import Ascii.
Local Open Scope Z_scope.

(** ** Serializers *)

#[export] Instance Ser_AssetType : Ser EnumAssetType :=
  Ser_iso (fun t => match t with KDAData_Fungible => None | KDAData_NonFungible => Some false
                               | KDAData_SemiFungible => Some true end)
    (fun o => match o with None => KDAData_Fungible | Some false => KDAData_NonFungible
                         | Some true => KDAData_SemiFungible end)
    ltac:(by intros []).
#[export] Instance Ser_Properties : Ser PropertiesData :=
  Ser_iso (fun p => (CanFreeze p, CanWipe p, CanPause p, CanMint p, CanBurn p, CanChangeOwner p,
                     CanAddRoles p, LimitTransfer p))
    (fun '(a, b, c, d, e, f, g, h) =>
       {| CanFreeze := a; CanWipe := b; CanPause := c; CanMint := d; CanBurn := e;
          CanChangeOwner := f; CanAddRoles := g; LimitTransfer := h |})
    ltac:(by intros []).
#[export] Instance Ser_Attributes : Ser AttributesData :=
  Ser_iso (fun p => (IsPaused p, IsNFTMintStopped p, IsRoyaltiesChangeStopped p,
                     IsNFTMetadataChangeStopped p))
    (fun '(a, b, c, d) => {| IsPaused := a; IsNFTMintStopped := b; IsRoyaltiesChangeStopped := c;
                             IsNFTMetadataChangeStopped := d |})
    ltac:(by intros []).
#[export] Instance Ser_Roles : Ser RolesData :=
  Ser_iso (fun r => (role_Address r, HasRoleMint r, HasRoleSetITOPrices r, HasRoleDeposit r,
                     HasRoleTransfer r))
    (fun '(a, b, c, d, e) => {| role_Address := a; HasRoleMint := b; HasRoleSetITOPrices := c;
                                HasRoleDeposit := d; HasRoleTransfer := e |})
    ltac:(by intros []).
#[export] Instance Ser_Royalty : Ser RoyaltyData :=
  Ser_iso (fun r => (royalty_Amount r, royalty_Percentage r))
    (fun '(a, b) => {| royalty_Amount := a; royalty_Percentage := b |}) ltac:(by intros []).
#[export] Instance Ser_Split : Ser RoyaltySplitData :=
  Ser_iso (fun r => (PercentTransferPercentage r, PercentTransferFixed r, PercentMarketPercentage r,
                     PercentMarketFixed r, PercentITOPercentage r, PercentITOFixed r))
    (fun '(a, b, c, d, e, f) =>
       {| PercentTransferPercentage := a; PercentTransferFixed := b; PercentMarketPercentage := c;
          PercentMarketFixed := d; PercentITOPercentage := e; PercentITOFixed := f |})
    ltac:(by intros []).
#[export] Instance Ser_Royalties : Ser RoyaltiesData :=
  Ser_iso (fun r => (royalties_Address r, TransferPercentage r, TransferFixed r, MarketPercentage r,
                     MarketFixed r, SplitRoyalties r, ITOPercentage r, ITOFixed r))
    (fun '(a, b, c, d, e, f, g, h) =>
       {| royalties_Address := a; TransferPercentage := b; TransferFixed := c; MarketPercentage := d;
          MarketFixed := e; SplitRoyalties := f; ITOPercentage := g; ITOFixed := h |})
    ltac:(by intros []).
#[export] Instance Ser_KDAData : Ser KDAData :=
  Ser_iso (fun k => (AssetType k, kda_ID k, kda_Name k, Ticker k, OwnerAddress k, Logo k, URIs k,
                     Precision k, InitialSupply k, CirculatingSupply k, MaxSupply k, MintedValue k,
                     BurnedValue k, IssueDate k, Royalties k, Properties k, Attributes k, Roles k,
                     AdminAddress k))
    (fun '(a, b, c, d, e, f, g, h, i, j, k, l, m, n, o, p, q, r, s) =>
       {| AssetType := a; kda_ID := b; kda_Name := c; Ticker := d; OwnerAddress := e; Logo := f;
          URIs := g; Precision := h; InitialSupply := i; CirculatingSupply := j; MaxSupply := k;
          MintedValue := l; BurnedValue := m; IssueDate := n; Royalties := o; Properties := p;
          Attributes := q; Roles := r; AdminAddress := s |})
    ltac:(by intros []).
#[export] Instance Ser_APRData : Ser APRData :=
  Ser_iso (fun a => (apr_Timestamp a, apr_Epoch a, apr_Value a))
    (fun '(a, b, c) => {| apr_Timestamp := a; apr_Epoch := b; apr_Value := c |}) ltac:(by intros []).
#[export] Instance Ser_KDAFPR : Ser KDAFPRData :=
  Ser_iso (fun a => (kfpr_TotalAmount a, kfpr_TotalClaimed a))
    (fun '(a, b) => {| kfpr_TotalAmount := a; kfpr_TotalClaimed := b |}) ltac:(by intros []).
#[export] Instance Ser_FPRData : Ser FPRData :=
  Ser_iso (fun f => (fpr_TotalAmount f, fpr_TotalStaked f, fpr_Epoch f, fpr_TotalClaimed f, fpr_KDAS f))
    (fun '(a, b, c, d, e) => {| fpr_TotalAmount := a; fpr_TotalStaked := b; fpr_Epoch := c;
                                fpr_TotalClaimed := d; fpr_KDAS := e |}) ltac:(by intros []).
#[export] Instance Ser_StakingData : Ser StakingData :=
  Ser_iso (fun s => (InterestType s, APR s, FPR s, CurrentFPRAmount s, TotalStaked s,
                     MinEpochsToClaim s, MinEpochsToUnstake s, MinEpochsToWithdraw s))
    (fun '(a, b, c, d, e, f, g, h) =>
       {| InterestType := a; APR := b; FPR := c; CurrentFPRAmount := d; TotalStaked := e;
          MinEpochsToClaim := f; MinEpochsToUnstake := g; MinEpochsToWithdraw := h |})
    ltac:(by intros []).
#[export] Instance Ser_MetaData : Ser MetaV2Data :=
  Ser_iso (fun m => (meta_Name m, meta_Hash m, meta_Attributes m))
    (fun '(a, b, c) => {| meta_Name := a; meta_Hash := b; meta_Attributes := c |}) ltac:(by intros []).
#[export] Instance Ser_Meta : Ser MetaV2 :=
  Ser_iso (fun m => (Circulation m, meta_MaxSupply m, meta_Metadata m))
    (fun '(a, b, c) => {| Circulation := a; meta_MaxSupply := b; meta_Metadata := c |})
    ltac:(by intros []).
#[export] Instance Ser_Pool : Ser KDAFeesPoolData :=
  Ser_iso (fun p => (pool_OwnerAddress p, pool_KDA p, Active p, KLVBalance p, KDABalance p,
                     ConvertedFees p, pool_AdminAddress p, FRatioKDA p, FRatioKLV p))
    (fun '(a, b, c, d, e, f, g, h, i) =>
       {| pool_OwnerAddress := a; pool_KDA := b; Active := c; KLVBalance := d; KDABalance := e;
          ConvertedFees := f; pool_AdminAddress := g; FRatioKDA := h; FRatioKLV := i |})
    ltac:(by intros []).

#[global] Instance RoyaltySplitData_eq_dec : EqDecision RoyaltySplitData.
Proof. solve_decision. Defined.
#[global] Instance RoyaltiesData_eq_dec : EqDecision RoyaltiesData.
Proof. solve_decision. Defined.
#[global] Instance KDAData_eq_dec : EqDecision KDAData.
Proof. solve_decision. Defined.

(** A serializer with the shape of proto3: the default message is empty. *)
Definition proto_codec {T} `{Ser T, EqDecision T} (zero : T) : Marshalizer T :=
  {| Marshal x := Ok (if decide (x = zero) then EmptyString else String "m"%char (ser x));
     Unmarshal s := match s with
                    | EmptyString => Ok zero
                    | String _ r => codec_unmarshal r
                    end;
     canon x := x |}.

Lemma proto_codec_laws {T} `{Ser T, EqDecision T} (zero : T) : ProtoCodec (proto_codec zero) zero.
Proof.
  split; [split|..]; cbn; [|done|done|].
  - intros x b E. apply Ok_inj in E. subst b. destruct (decide (x = zero)) as [->|Hne]; [done|].
    apply codec_unmarshal_ser.
  - intros x E. apply Ok_inj in E. by destruct (decide (x = zero)).
Qed.

Definition kda_codec : Marshalizer KDAData := proto_codec zeroKDA.
Definition staking_codec : Marshalizer StakingData := proto_codec zeroStaking.
Definition meta_codec : Marshalizer MetaV2 := proto_codec zeroMeta.
Definition pool_codec : Marshalizer KDAFeesPoolData := proto_codec zeroPool.

#[export] Instance kda_codec_laws : ProtoCodec kda_codec zeroKDA.
Proof. apply proto_codec_laws. Qed.
#[export] Instance staking_codec_laws : ProtoCodec staking_codec zeroStaking.
Proof. apply proto_codec_laws. Qed.
#[export] Instance meta_codec_laws : ProtoCodec meta_codec zeroMeta.
Proof. apply proto_codec_laws. Qed.
#[export] Instance pool_codec_laws : ProtoCodec pool_codec zeroPool.
Proof. apply proto_codec_laws. Qed.

(** ** Accounts databases that are maps *)

Abbreviation ex_user := (@userAccount map_trie).
Abbreviation ex_kapp := (@kappAccount map_trie).

(** An account found under another address than its own counts as missing. *)
Definition map_find {A} (addr : A -> string) (db : gmap string A) (k : string) : res error A :=
  match db !! k with
  | Some a => if decide (addr a = k) then Ok a else Err ErrAccNotFound
  | None => Err ErrAccNotFound
  end.

Definition user_adapter : AccountsAdapter ex_user :=
  {| adb := gmap string ex_user; addr_of := address;
     adb_GetExisting := map_find address;
     adb_Load db k := Ok (from_ok (@NewUserAccountNoCheck map_trie k) (map_find address db k));
     adb_Save db a := (<[address a := a]> db, a, Ok tt) |}.

Definition new_kapp (k : string) : ex_kapp :=
  {| kapp_Address := k; kapp_tracker := NewTrackableDataTrie k None |}.

Definition kapp_adapter : AccountsAdapter ex_kapp :=
  {| adb := gmap string ex_kapp; addr_of := kapp_Address;
     adb_GetExisting := map_find kapp_Address;
     adb_Load db k := Ok (from_ok (new_kapp k) (map_find kapp_Address db k));
     adb_Save db a := (<[kapp_Address a := a]> db, a, Ok tt) |}.

Lemma map_find_addr {A} (addr : A -> string) db k a : map_find addr db k = Ok a -> addr a = k.
Proof. unfold map_find. destruct (db !! k); [|done]. case_decide; [|done]. by intros [= <-]. Qed.

Lemma map_load_addr {A} (addr : A -> string) (fresh : string -> A) db k :
  addr (fresh k) = k -> addr (from_ok (fresh k) (map_find addr db k)) = k.
Proof. intros Hf. destruct (map_find addr db k) as [a|] eqn:E; cbn; [by apply map_find_addr in E|done]. Qed.

#[export] Instance example_world_laws :
  @WorldLaws map_trie userkda_codec (string * Z) user_adapter kapp_adapter map_adapter.
Proof.
  split.
  1,2: done.
  1,2: intros db k a E; cbn in *; by rewrite E.
  1,2: intros db k a E; cbn in *; injection E as <-; by apply map_load_addr.
  intros db a db' a' [= <- <-]. split; [done|]. cbn. unfold map_find. split.
  - exists a. rewrite lookup_insert_eq, decide_True by done. done.
  - intros k Hne. by rewrite lookup_insert_ne.
Qed.

Abbreviation ex_world := (@world map_trie (string * Z) user_adapter kapp_adapter map_adapter).

(** ** The world *)

Definition alice : string := "alice".
Definition bob : string := "bob00".
Definition carol : string := "carol".
Definition dave : string := "dave0".

(** Half of every royalty. *)
Definition half_split : RoyaltySplitData :=
  {| PercentTransferPercentage := 5000; PercentTransferFixed := 5000; PercentMarketPercentage := 5000;
     PercentMarketFixed := 5000; PercentITOPercentage := 5000; PercentITOFixed := 5000 |}.

Definition example_env : kappEnv :=
  {| env_fc := all_forks; env_pubkeyLen := 5; env_epoch := 10; env_randSeed := "seed";
     env_txHash := "tx"; env_contractID := 0; env_MaxNFTMintBatch := 50; env_MaxEpochsUnclaimed := 5;
     env_hash := fun s => s; env_IsReadOnly := false |}.

(** An asset of alice's: 10% and 3 KLV of every transfer, half of it to carol. *)
Definition example_kda (ty : EnumAssetType) (id : string) (initial max : Z) : KDAData :=
  {| AssetType := ty; kda_ID := id; kda_Name := "Example"; Ticker := "EXA"; OwnerAddress := alice;
     Logo := EmptyString; URIs := ∅; Precision := 0; InitialSupply := initial;
     CirculatingSupply := initial; MaxSupply := max; MintedValue := initial; BurnedValue := 0; IssueDate := 1;
     Royalties := {| royalties_Address := alice;
                     TransferPercentage := [{| royalty_Amount := 0; royalty_Percentage := 1000 |}];
                     TransferFixed := 3; MarketPercentage := 0; MarketFixed := 0;
                     SplitRoyalties := {[EncodeToString carol := half_split]};
                     ITOPercentage := 0; ITOFixed := 0 |};
     Properties := {| CanFreeze := true; CanWipe := true; CanPause := true; CanMint := true;
                      CanBurn := true; CanChangeOwner := true; CanAddRoles := true;
                      LimitTransfer := false |};
     Attributes := {| IsPaused := false; IsNFTMintStopped := false;
                      IsRoyaltiesChangeStopped := false; IsNFTMetadataChangeStopped := false |};
     Roles := [{| role_Address := bob; HasRoleMint := false; HasRoleSetITOPrices := false;
                  HasRoleDeposit := true; HasRoleTransfer := false |}];
     AdminAddress := alice |}.

Definition exa : KDAData := example_kda KDAData_Fungible "EXA-0001" 500 1000.
Definition nft : KDAData := example_kda KDAData_NonFungible "NFT-0001" 0 100.

Definition example_pool : KDAFeesPoolData :=
  {| pool_OwnerAddress := alice; pool_KDA := "EXA-0001"; Active := true; KLVBalance := 300;
     KDABalance := 0; ConvertedFees := 0; pool_AdminAddress := alice; FRatioKDA := 2; FRatioKLV := 1 |}.

(** Reward pools of the asset: one of epoch 3, expired, and one of epoch 9. *)
Definition example_pools : list FPRData :=
  [{| fpr_TotalAmount := 9; fpr_TotalStaked := 100; fpr_Epoch := 3; fpr_TotalClaimed := 2;
      fpr_KDAS := {["EXA-0001" := {| kfpr_TotalAmount := 50; kfpr_TotalClaimed := 20 |}]} |};
   {| fpr_TotalAmount := 11; fpr_TotalStaked := 100; fpr_Epoch := 9; fpr_TotalClaimed := 0;
      fpr_KDAS := ∅ |}].
Definition exa_staking : StakingData :=
  {| InterestType := StakingData_FPRI; APR := []; FPR := example_pools; CurrentFPRAmount := 0;
     TotalStaked := 100; MinEpochsToClaim := 1; MinEpochsToUnstake := 1; MinEpochsToWithdraw := 1 |}.

Definition put {T} `{Marshalizer T} (key : string) (x : T) (a : ex_kapp) : ex_kapp :=
  (kapp_SaveKeyValue key (from_ok EmptyString (Marshal x)) a).1.

Definition kda_app : ex_kapp :=
  @put _ kda_codec (ToKDAKey "EXA-0001" EmptyString) exa
    (@put _ kda_codec (ToKDAKey "NFT-0001" EmptyString) nft (new_kapp KDAKAppAddress)).
Definition pool_app : ex_kapp :=
  @put _ pool_codec "EXA-0001" example_pool (new_kapp KDAFeesPoolKAppAddress).
Definition staking_app : ex_kapp :=
  @put _ staking_codec (ToKDAKey "EXA-0001" EmptyString) exa_staking (new_kapp StakingKAppAddress).
(** An item with ten units in circulation, a hundred at most. *)
Definition example_meta : MetaV2 :=
  {| Circulation := 10; meta_MaxSupply := 100;
     meta_Metadata := Some {| meta_Name := "item"; meta_Hash := "hash"; meta_Attributes := EmptyString |} |}.
Definition system_app : ex_kapp :=
  @put _ meta_codec (ToKDAKey "SFT-0001" "1") example_meta (new_kapp SystemAccountKAppAddress).
Definition bob_account : ex_user :=
  (@AddToBalance map_trie userkda_codec 200 (Some "EXA-0001") true None
     (with_Balance (@NewUserAccountNoCheck map_trie bob) 40)).1.

Definition example_world : ex_world :=
  {| w_cache := resetAllNoLock true (@NewAccountsCacher _ _ _ user_adapter kapp_adapter map_adapter
       (<[bob := bob_account]> ∅ : gmap string ex_user)
       (<[KDAKAppAddress := kda_app]> (<[KDAFeesPoolKAppAddress := pool_app]>
          (<[StakingKAppAddress := staking_app]>
             (<[SystemAccountKAppAddress := system_app]> ∅))) : gmap string ex_kapp)
       (∅ : gmap string Z));
     w_receipts := []; w_returnData := [] |}.

Lemma example_world_ok : world_ok example_world.
Proof. split; [done|by apply empty_pool_wf..]. Qed.

(** ** Concrete runs *)

Definition trigger (ty : EnumTriggerType) (asset to : string) (amount : Z) : AssetTriggerContract :=
  {| TriggerType := ty; at_AssetID := Some asset; ToAddress := to; at_Amount := amount; at_Value := 0 |}.

#[local] Existing Instances map_trie userkda_codec user_adapter kapp_adapter map_adapter
  kda_codec staking_codec meta_codec pool_codec.

Abbreviation ex_record w id := (kapp_record (T := KDAData) w KDAKAppAddress id).

Definition mint_tc : AssetTriggerContract := trigger AssetTriggerContract_Mint "EXA-0001" bob 70.
Definition minted_world : ex_world := (Mint example_env alice mint_tc example_world).1.

Lemma fungible_mint_exact_witness :
  user_balance minted_world bob (Some "EXA-0001") = 270 /\
  ex_record minted_world "EXA-0001" = Some (set_supply exa 570 570 0).
Proof.
  destruct (fungible_mint_exact example_env eq_refl
    example_world minted_world alice mint_tc exa) as (_ & _ & _ & _ & Hr & _ & _ & Hb & _).
  - exact example_world_ok.
  - vm_compute. reflexivity.
  - reflexivity.
  - split; vm_compute; discriminate.
  - repeat split; vm_compute; discriminate.
  - split; vm_compute; discriminate.
  - unfold minted_world. apply (run_unit_spec (Mint example_env alice mint_tc example_world)). vm_compute. reflexivity.
  - split; [|exact Hr]. refine (eq_trans Hb _). vm_compute. reflexivity.
Defined.

Definition burn_tc : AssetTriggerContract := trigger AssetTriggerContract_Wipe "EXA-0001" bob 150.
Definition burned_world : ex_world := (Burn example_env alice burn_tc example_world).1.

Lemma fungible_burn_exact_witness :
  user_balance burned_world bob (Some "EXA-0001") = 50 /\
  ex_record burned_world "EXA-0001" = Some (set_supply exa 350 500 150).
Proof.
  destruct (fungible_burn_exact example_env eq_refl
    example_world burned_world alice burn_tc exa) as (_ & _ & _ & Hr & _ & Hb & _).
  - exact example_world_ok.
  - vm_compute. reflexivity.
  - reflexivity.
  - split; vm_compute; discriminate.
  - repeat split; vm_compute; discriminate.
  - split; vm_compute; discriminate.
  - split; vm_compute; discriminate.
  - unfold burned_world. apply (run_unit_spec (Burn example_env alice burn_tc example_world)). vm_compute. reflexivity.
  - split; [|exact Hr]. refine (eq_trans Hb _). vm_compute. reflexivity.
Defined.

(** The world with bob's account and the KDA application loaded. *)
Definition loaded_world : ex_world :=
  (on_cache (GetExistingKapp KDAKAppAddress) (on_cache (LoadUser bob) example_world).1).1.

Lemma loaded_world_ok : world_ok loaded_world /\ user_loc loaded_world bob 0 /\
  kapp_loc loaded_world KDAKAppAddress 0.
Proof.
  assert (on_cache (LoadUser bob) example_world = ((on_cache (LoadUser bob) example_world).1, Ok 0%nat)) as H1.
  { apply (run_ok_spec 0%nat (on_cache (LoadUser bob) example_world)). vm_compute. reflexivity. }
  apply LoadUserAccount_spec in H1 as [Hs1 Hl1]; [|exact example_world_ok].
  assert (on_cache (GetExistingKapp KDAKAppAddress) (on_cache (LoadUser bob) example_world).1 =
          (loaded_world, Ok 0%nat)) as H2.
  { apply (run_ok_spec 0%nat (on_cache (GetExistingKapp KDAKAppAddress)
      (on_cache (LoadUser bob) example_world).1)). vm_compute. reflexivity. }
  apply GetExistingKapp_spec in H2 as [Hs2 Hl2]; [|apply Hs1].
  split; [apply Hs2|]. split; [by apply (ws_user_loc _ _ _ _ Hs2)|done].
Qed.

Definition nft_tc : AssetTriggerContract := trigger AssetTriggerContract_Mint "NFT-0001" bob 3.
Definition nft_world : ex_world :=
  (processNonFungibleMint example_env nft_tc "NFT-0001" 0 0 nft loaded_world).1.

Lemma nft_mint_exact_witness :
  item_balance nft_world bob (Some "NFT-0001") "3" = 1 /\
  ex_record nft_world "NFT-0001" = Some (set_supply nft 3 3 0).
Proof.
  destruct (nft_mint_exact example_env loaded_world nft_world nft_tc "NFT-0001" bob 0 0 nft)
    as (_ & _ & Hr & _ & Hi & _).
  - apply loaded_world_ok.
  - apply loaded_world_ok.
  - apply loaded_world_ok.
  - repeat split; vm_compute; discriminate.
  - split; vm_compute; [reflexivity|discriminate].
  - unfold nft_world. apply (run_unit_spec (processNonFungibleMint example_env nft_tc "NFT-0001" 0 0 nft loaded_world)).
    vm_compute. reflexivity.
  - split; [|exact Hr]. apply (Hi 3). split; vm_compute; [reflexivity|discriminate].
Defined.

Definition fee_info : KDAFee := {| fee_KDA := Some "EXA-0001"; fee_Amount := 60 |}.
Definition swapped_world : ex_world := (Swap example_env 0 30 (Some fee_info) loaded_world).1.

Lemma example_pool_of : pool_of loaded_world "EXA-0001" = Some example_pool.
Proof. vm_compute. reflexivity. Qed.

Lemma swap_exact_witness :
  user_balance swapped_world bob (Some "EXA-0001") = 140 /\
  user_balance swapped_world bob None = 70 /\
  pool_of swapped_world "EXA-0001" = Some (set_balances example_pool 270 60).
Proof.
  destruct (swap_exact example_env eq_refl eq_refl loaded_world swapped_world bob 0 30 fee_info "EXA-0001")
    as (p & Hp & _ & _ & _ & Hp' & Ha & _ & Hk & _).
  - apply loaded_world_ok.
  - apply loaded_world_ok.
  - split; vm_compute; discriminate.
  - split; vm_compute; discriminate.
  - reflexivity.
  - discriminate.
  - split; vm_compute; discriminate.
  - split; vm_compute; discriminate.
  - intros p Hp. rewrite example_pool_of in Hp. injection Hp as <-. split; [|split]; vm_compute; discriminate.
  - unfold swapped_world. apply (run_unit_spec (Swap example_env 0 30 (Some fee_info) loaded_world)). vm_compute. reflexivity.
  - rewrite example_pool_of in Hp. injection Hp as <-.
    split; [|split]; [refine (eq_trans Ha _)|refine (eq_trans Hk _)|refine (eq_trans Hp' _)];
      vm_compute; reflexivity.
Defined.

Definition withdraw_tc : WithdrawContract :=
  {| wc_AssetID := Some "EXA-0001"; wc_Amount := 120; wc_CurrencyID := "KLV" |}.
Definition withdrawn_world : ex_world := (pool_Withdraw example_env alice withdraw_tc example_world).1.

Lemma pool_withdraw_exact_witness :
  user_balance withdrawn_world alice (Some "KLV") = 120 /\
  pool_of withdrawn_world "EXA-0001" = Some (set_balances example_pool 180 0).
Proof.
  assert (pool_of example_world "EXA-0001" = Some example_pool) as Hpool by (vm_compute; reflexivity).
  destruct (pool_withdraw_exact example_env eq_refl example_world withdrawn_world alice withdraw_tc)
    as (p & Hp & _ & _ & _ & Hp' & _ & Hb & _).
  - exact example_world_ok.
  - split; vm_compute; discriminate.
  - split; vm_compute; discriminate.
  - intros p Hp. change (pool_of example_world "EXA-0001" = Some p) in Hp. rewrite Hpool in Hp.
    injection Hp as <-. split; [|split]; vm_compute; [discriminate|discriminate|reflexivity].
  - unfold withdrawn_world. apply (run_unit_spec (pool_Withdraw example_env alice withdraw_tc example_world)). vm_compute. reflexivity.
  - change (pool_of example_world "EXA-0001" = Some p) in Hp. rewrite Hpool in Hp. injection Hp as <-.
    split; [refine (eq_trans Hb _)|refine (eq_trans Hp' _)]; vm_compute; reflexivity.
Defined.

(** ** A reward deposit *)

Lemma fresh_balance k b asset :
  GetBalance (with_Balance (NewUserAccountNoCheck k) b) asset true = if is_klv asset then b else 0.
Proof. unfold GetBalance, GetBalanceWithNonce, GetUserKDA. cbn. by destruct (is_klv asset). Qed.

Lemma alice_solvent : solvent example_world alice.
Proof.
  intros a. unfold user_balance. replace (user_obj example_world alice) with
    (Some (with_Balance (NewUserAccountNoCheck alice) 0)) by (vm_compute; reflexivity).
  rewrite fresh_balance. destruct (is_klv _); vm_compute; split; discriminate.
Qed.

Lemma bob_solvent : solvent example_world bob.
Proof.
  intros a. unfold user_balance.
  replace (user_obj example_world bob) with (Some bob_account) by (vm_compute; reflexivity).
  pose proof (run_ok_spec None (@AddToBalance map_trie userkda_codec 200 (Some "EXA-0001") true None
    (with_Balance (NewUserAccountNoCheck bob) 40)) ltac:(vm_compute; reflexivity)) as H.
  apply AddToBalance_ok in H as (_ & _ & Hb & Hf); [|by left]. fold bob_account in Hb, Hf.
  destruct (decide (a = "EXA-0001")) as [->|Hne].
  - rewrite Hb, fresh_balance. vm_compute. split; discriminate.
  - rewrite Hf by (cbn; congruence). rewrite fresh_balance. destruct (is_klv _); vm_compute; split; discriminate.
Qed.

Lemma example_pools_ok : pools_ok 40 example_pools.
Proof.
  split; [apply (bool_decide_unpack _); vm_compute; exact I|].
  constructor; [|constructor; [|constructor]]; split.
  - split; [split|]; vm_compute; discriminate.
  - intros a v Hv. cbn [fpr_KDAS] in Hv. apply lookup_singleton_Some in Hv as [<- <-]. split; [split|]; vm_compute; discriminate.
  - split; [split|]; vm_compute; discriminate.
  - intros a v Hv. cbn [fpr_KDAS] in Hv. by apply lookup_empty_Some in Hv.
Qed.

Definition deposit_tc : DepositContract :=
  {| dp_ID := Some "EXA-0001"; dp_CurrencyID := Some "EXA-0001"; dp_Amount := 40 |}.
Definition map_keys (m : gmap string KDAFPRData) : list string := (map_to_list m).*1.
Definition deposited_world : ex_world := (Deposit example_env map_keys bob deposit_tc example_world).1.

Lemma reward_deposit_conserves_witness :
  user_balance deposited_world bob (Some "EXA-0001") = 160 /\
  user_balance deposited_world alice (Some "EXA-0001") = 30 /\
  exists staking', kapp_record deposited_world StakingKAppAddress "EXA-0001" = Some staking' /\
    pools_owed "EXA-0001" (FPR staking') = 40.
Proof.
  destruct (reward_deposit_conserves example_env map_keys eq_refl (fun m => Permutation_refl _)
    example_world deposited_world bob deposit_tc "EXA-0001" exa exa_staking)
    as (new & role & _ & _ & _ & _ & _ & Hnew & Hr & _ & Hbal & _).
  - exact example_world_ok.
  - reflexivity.
  - split; vm_compute; discriminate.
  - vm_compute. reflexivity.
  - vm_compute. reflexivity.
  - exact example_pools_ok.
  - exact bob_solvent.
  - exact alice_solvent.
  - unfold deposited_world. apply (run_unit_spec (Deposit example_env map_keys bob deposit_tc example_world)). vm_compute. reflexivity.
  - split; [refine (eq_trans (Hbal bob "EXA-0001") _); vm_compute; reflexivity|].
    split; [refine (eq_trans (Hbal alice "EXA-0001") _); vm_compute; reflexivity|].
    eexists. split; [exact Hr|]. cbn [FPR set_FPR]. rewrite pools_owed_app, pools_owed_single, Hnew.
    vm_compute. reflexivity.
Defined.

(** ** Transfers *)

Lemma other_user k : k <> bob -> user_obj example_world k = Some (with_Balance (NewUserAccountNoCheck k) 0).
Proof.
  intros Hk. unfold user_obj, pool_obj. cbn. rewrite lookup_empty. cbn. unfold map_find.
  by rewrite lookup_insert_ne, lookup_empty by done.
Qed.

Lemma example_all_solvent : all_solvent example_world.
Proof.
  intros k a. destruct (decide (k = bob)) as [->|Hk]; [apply bob_solvent|].
  unfold user_balance. rewrite (other_user k Hk), fresh_balance.
  destruct (is_klv _); vm_compute; split; discriminate.
Qed.

Definition transfer_tc : TransferContract :=
  {| tr_ToAddress := dave; tr_AssetID := Some "EXA-0001"; tr_Amount := 100; KDARoyalties := 10;
     KLVRoyalties := 3 |}.
Definition no_oob (x : SpecFloat.spec_float) : Z := 0.
Definition split_keys (m : gmap string RoyaltySplitData) : list string := (map_to_list m).*1.
Definition transferred_world : ex_world :=
  (Transfer example_env no_oob split_keys false bob transfer_tc example_world).1.

Example transferred_balances :
  ((fun k => (user_balance transferred_world k (Some "EXA-0001"), user_balance transferred_world k (Some "KLV")))
     <$> [bob; dave; alice; carol]) = [(90, 37); (100, 0); (5, 2); (5, 1)].
Proof. vm_compute. reflexivity. Qed.

Lemma fungible_transfer_exact_witness :
  is_ok (Transfer example_env no_oob split_keys false bob transfer_tc example_world).2 = true /\
  over [bob; dave; alice; carol] (fun k => user_balance transferred_world k (Some "EXA-0001")) = 200.
Proof.
  split; [vm_compute; reflexivity|].
  destruct (fungible_transfer_exact example_env no_oob split_keys eq_refl eq_refl eq_refl
    (fun m => Permutation_refl _) example_world transferred_world false bob transfer_tc exa)
    as (_ & _ & _ & _ & _ & _ & _ & _ & Hcons).
  - exact example_world_ok.
  - exact example_all_solvent.
  - vm_compute. reflexivity.
  - reflexivity.
  - repeat constructor; vm_compute; discriminate.
  - split; vm_compute; discriminate.
  - split; vm_compute; discriminate.
  - split; vm_compute; discriminate.
  - unfold transferred_world.
    apply (run_unit_spec (Transfer example_env no_oob split_keys false bob transfer_tc example_world)).
    vm_compute. reflexivity.
  - rewrite Hcons.
    + vm_compute. reflexivity.
    + apply (bool_decide_unpack _). vm_compute. exact I.
    + apply (bool_decide_unpack _). vm_compute. exact I.
    + apply (bool_decide_unpack _). vm_compute. exact I.
    + intros k [->|(key & [v Hv] & Hk)]; [apply (bool_decide_unpack _); vm_compute; exact I|].
      cbn [exa example_kda Royalties SplitRoyalties] in Hv. apply lookup_singleton_Some in Hv as [<- _].
      change (DecodeString (EncodeToString carol)) with (Ok carol : res error string) in Hk.
      injection Hk as <-. apply (bool_decide_unpack _). vm_compute. exact I.
Defined.

(** A world in which carol owns an item, with her account and dave's loaded. *)
Definition carol_account : ex_user :=
  (SetUserKDA (Some "NFT-0001") "2" minted_item (@NewUserAccountNoCheck map_trie carol)).1.
Definition item_world0 : ex_world :=
  {| w_cache := resetAllNoLock true (@NewAccountsCacher _ _ _ user_adapter kapp_adapter map_adapter
       (<[carol := carol_account]> ∅ : gmap string ex_user) (∅ : gmap string ex_kapp) (∅ : gmap string Z));
     w_receipts := []; w_returnData := [] |}.
Definition item_world : ex_world :=
  (LoadUserAccount dave (LoadUserAccount carol item_world0).1).1.

Lemma item_world_ok : world_ok item_world /\ user_loc item_world carol 0 /\ user_loc item_world dave 1.
Proof.
  assert (world_ok item_world0) as Hok by (split; [done|by apply empty_pool_wf..]).
  pose proof (run_ok_spec 0%nat (LoadUserAccount carol item_world0) ltac:(vm_compute; reflexivity)) as H1.
  apply LoadUserAccount_spec in H1 as [Hs1 Hl1]; [|exact Hok].
  pose proof (run_ok_spec 0%nat (LoadUserAccount dave (LoadUserAccount carol item_world0).1)
    ltac:(vm_compute; reflexivity)) as H2.
  apply LoadUserAccount_spec in H2 as [Hs2 Hl2]; [|apply Hs1].
  split; [apply Hs2|]. split; [by apply (ws_user_loc _ _ _ _ Hs2)|exact Hl2].
Qed.

Definition moved_world : ex_world :=
  (processNonFungibleTransfer example_env "NFT-0001" "2" 0 1 item_world).1.

Lemma nft_transfer_exact_witness :
  item_balance item_world carol (Some "NFT-0001") "2" = 1 /\
  item_balance moved_world carol (Some "NFT-0001") "2" = 0 /\
  item_data moved_world dave "NFT-0001" "2" = item_data item_world carol "NFT-0001" "2".
Proof.
  split; [vm_compute; reflexivity|].
  destruct (nft_transfer_exact example_env item_world moved_world carol 0 dave 1 "NFT-0001" "2")
    as (data & Hd & Hd' & _ & _ & Hb & _).
  - apply item_world_ok.
  - apply item_world_ok.
  - apply item_world_ok.
  - discriminate.
  - unfold moved_world.
    apply (run_unit_spec (processNonFungibleTransfer example_env "NFT-0001" "2" 0 1 item_world)).
    vm_compute. reflexivity.
  - split; [exact Hb|]. exact (eq_trans Hd' (eq_sym Hd)).
Defined.

(** ** Semi-fungible circulation and pool deposits *)

Definition sft_world : ex_world := (SFTAddCirculation example_env "SFT-0001" "1" 90 example_world).1.

Lemma sft_circulation_exact_witness :
  item_meta sft_world "SFT-0001" "1" =
    Some {| Circulation := 100; meta_MaxSupply := 100; meta_Metadata := meta_Metadata example_meta |} /\
  is_ok (SFTAddCirculation example_env "SFT-0001" "1" 91 example_world).2 = false.
Proof.
  split; [|vm_compute; reflexivity].
  destruct (sft_circulation_exact example_env example_world sft_world "SFT-0001" "1" 90 example_meta)
    as (H & _).
  - exact example_world_ok.
  - reflexivity.
  - vm_compute. reflexivity.
  - discriminate.
  - split; vm_compute; discriminate.
  - split; vm_compute; discriminate.
  - unfold sft_world. apply (run_unit_spec (SFTAddCirculation example_env "SFT-0001" "1" 90 example_world)).
    vm_compute. reflexivity.
  - exact H.
Defined.

Definition pool_deposit_tc : DepositContract :=
  {| dp_ID := Some "EXA-0001"; dp_CurrencyID := None; dp_Amount := 25 |}.
Definition pool_deposited_world : ex_world := (pool_Deposit example_env bob pool_deposit_tc example_world).1.

Lemma pool_deposit_exact_witness :
  user_balance pool_deposited_world bob (Some KLVIdentifier) = 15 /\
  pool_of pool_deposited_world "EXA-0001" = Some (set_balances example_pool 325 0).
Proof.
  assert (pool_of example_world "EXA-0001" = Some example_pool) as Hpool by (vm_compute; reflexivity).
  destruct (pool_deposit_exact example_env eq_refl example_world pool_deposited_world bob pool_deposit_tc
    "EXA-0001") as (p & Hp & _ & _ & _ & Hp' & _ & Hb & _).
  - exact example_world_ok.
  - split; vm_compute; discriminate.
  - reflexivity.
  - split; vm_compute; discriminate.
  - intros p Hp. rewrite Hpool in Hp. injection Hp as <-. vm_compute. reflexivity.
  - unfold pool_deposited_world. apply (run_unit_spec (pool_Deposit example_env bob pool_deposit_tc example_world)).
    vm_compute. reflexivity.
  - rewrite Hpool in Hp. injection Hp as <-.
    split; [refine (eq_trans Hb _)|refine (eq_trans Hp' _)]; vm_compute; reflexivity.
Defined.
