(* ===== verification/MarketExample.v ===== *)
(** * A market in a concrete world

    An item listed by bob, bid for by dave and settled; the same world shows
    that an order identifier in use is overwritten and that the deadline of a
    listing depends on the time zone of the node. *)

From S2P Require Import Prelude Common Strconv GoStd Forks Tools Permissions KdaUtils KdaData DataTrie UserAccount Codec.
From S2P Require Import Balances AccountsCache Staking World SystemAccount KdaKapp WorldLemmas KdaSupply.
From S2P Require Import MarketKapp Transfer TransferProps WorldExample MarketFlow MarketSettle MarketProps MarketRuns MarketInv.
From stdpp Require Import relations.
From Stdlib Require Import Ascii.
Local Open Scope Z_scope.

(** ** Serializers *)

#[export] Instance Ser_Marketplace : Ser Marketplace :=
  Ser_iso (fun m => (mp_ID m, mp_Name m, mp_OwnerAddress m, mp_ReferralAddress m, mp_ReferralPercentage m))
    (fun '(a, b, c, d, e) => {| mp_ID := a; mp_Name := b; mp_OwnerAddress := c; mp_ReferralAddress := d;
                                mp_ReferralPercentage := e |}) ltac:(by intros []).
#[export] Instance Ser_Order : Ser MarketOrderData :=
  Ser_iso (fun o => (mo_ID o, mo_MarketplaceID o, mo_MarketType o, mo_OwnerAddress o, mo_AssetID o,
                     mo_CollectionID o, mo_CurrencyID o, mo_Price o, mo_ReservePrice o, mo_CurrentBidder o,
                     mo_CurrentBid o, mo_RoyaltiesFixedDeposit o, mo_ReferralPercentage o, mo_StartTime o,
                     mo_EndTime o, mo_IsClaimed o, mo_RoyaltyPercentage o, mo_RoyaltySnapshotted o,
                     mo_ReferralAddress o, mo_ReferralSnapshotted o))
    (fun '(a, b, c, d, e, f, g, h, i, j, k, l, m, n, o, p, q, r, s, t) =>
       {| mo_ID := a; mo_MarketplaceID := b; mo_MarketType := c; mo_OwnerAddress := d; mo_AssetID := e;
          mo_CollectionID := f; mo_CurrencyID := g; mo_Price := h; mo_ReservePrice := i;
          mo_CurrentBidder := j; mo_CurrentBid := k; mo_RoyaltiesFixedDeposit := l;
          mo_ReferralPercentage := m; mo_StartTime := n; mo_EndTime := o; mo_IsClaimed := p;
          mo_RoyaltyPercentage := q; mo_RoyaltySnapshotted := r; mo_ReferralAddress := s;
          mo_ReferralSnapshotted := t |})
    ltac:(by intros []).

Definition marketplace_codec : Marshalizer Marketplace := proto_codec emptyMarketplace.
Definition order_codec : Marshalizer MarketOrderData := proto_codec emptyOrder.
#[export] Instance marketplace_codec_laws : ProtoCodec marketplace_codec emptyMarketplace.
Proof. apply proto_codec_laws. Qed.
#[export] Instance order_codec_laws : ProtoCodec order_codec emptyOrder.
Proof. apply proto_codec_laws. Qed.

#[local] Existing Instances map_trie userkda_codec user_adapter kapp_adapter map_adapter
  kda_codec marketplace_codec order_codec.

(** ** The world *)

(** A sale of an item costs 5%, half of it and of the 10 KLV fee to carol. *)
Definition art_royalties : RoyaltiesData :=
  {| royalties_Address := alice; TransferPercentage := []; TransferFixed := 0; MarketPercentage := 500;
     MarketFixed := 10; SplitRoyalties := {[EncodeToString carol := half_split]};
     ITOPercentage := 0; ITOFixed := 0 |}.
Definition with_royalties (k : KDAData) (r : RoyaltiesData) : KDAData :=
  {| AssetType := AssetType k; kda_ID := kda_ID k; kda_Name := kda_Name k; Ticker := Ticker k;
     OwnerAddress := OwnerAddress k; Logo := Logo k; URIs := URIs k; Precision := Precision k;
     InitialSupply := InitialSupply k; CirculatingSupply := CirculatingSupply k; MaxSupply := MaxSupply k;
     MintedValue := MintedValue k; BurnedValue := BurnedValue k; IssueDate := IssueDate k;
     Royalties := r; Properties := Properties k; Attributes := Attributes k; Roles := Roles k;
     AdminAddress := AdminAddress k |}.
Definition art : KDAData := with_royalties (example_kda KDAData_NonFungible "NFT-0001" 0 100) art_royalties.
Definition klv : KDAData := with_royalties (example_kda KDAData_Fungible KLVIdentifier 500 1000) art_royalties.

Definition gallery : Marketplace :=
  {| mp_ID := "mp"; mp_Name := "Gallery"; mp_OwnerAddress := alice; mp_ReferralAddress := alice;
     mp_ReferralPercentage := 1000 |}.

Definition asset_app : ex_kapp :=
  @WorldExample.put _ kda_codec (ToKDAKey "NFT-0001" EmptyString) art
    (@WorldExample.put _ kda_codec (ToKDAKey KLVIdentifier EmptyString) klv (new_kapp KDAKAppAddress)).
Definition new_market_app : ex_kapp :=
  {| kapp_Address := MarketKAppAddress;
     kapp_tracker := NewTrackableDataTrie MarketKAppAddress (Some (∅ : gmap string string)) |}.
Definition market_app : ex_kapp :=
  @WorldExample.put _ marketplace_codec (ToMarketplaceKey "mp") gallery new_market_app.

Definition item_bytes : string := from_ok EmptyString (@Marshal _ userkda_codec minted_item).
Definition bob_seller : ex_user :=
  (SaveKeyValueM (ToKDAKey "NFT-0001" "7") item_bytes (with_Balance (@NewUserAccountNoCheck map_trie bob) 40)).1.
Definition dave_bidder : ex_user := with_Balance (@NewUserAccountNoCheck map_trie dave) 200.

(** A world with nothing loaded yet. *)
Definition fresh_world (us : gmap string ex_user) (ks : gmap string ex_kapp) : ex_world :=
  {| w_cache := resetAllNoLock true (@NewAccountsCacher _ _ _ user_adapter kapp_adapter map_adapter us ks
       (∅ : gmap string Z));
     w_receipts := []; w_returnData := [] |}.

Definition market_world : ex_world :=
  fresh_world (<[bob := bob_seller]> (<[dave := dave_bidder]> ∅))
    (<[KDAKAppAddress := asset_app]> (<[MarketKAppAddress := market_app]> ∅)).

Definition market_env (t nonce : Z) (l : Location) : marketEnv :=
  {| me_env := example_env; me_timestamp := t; me_txNonce := nonce; me_local := l |}.
Definition t0 : Z := 1709258400. (* 2024-03-01T02:00:00Z *)

Definition sell_tc (endTime : Z) : SellContract :=
  {| sl_MarketType := MarketOrderData_Auction; sl_MarketplaceID := Some "mp"; sl_AssetID := Some "NFT-0001/7";
     sl_CurrencyID := None; sl_Price := 0; sl_ReservePrice := 50; sl_EndTime := endTime |}.
Definition order_id : string := market_id (market_env t0 1 UTC) bob.
Definition buy_tc (amount : Z) : BuyContract :=
  {| by_ID := Some order_id; by_CurrencyID := None; by_Amount := amount; by_CurrencyAmount := 0 |}.

Definition run_market (t nonce : Z) (c : market_call) (w : ex_world) : ex_world * res (txResultCode * error) unit :=
  run_call no_oob split_keys (market_env t nonce UTC) c w.
Definition listed_world : ex_world := (run_market t0 1 (CallSell bob (sell_tc (t0 + 1000))) market_world).1.
Definition bid_world : ex_world := (run_market (t0 + 10) 1 (CallBuy dave (buy_tc 60)) listed_world).1.
Definition raised_world : ex_world := (run_market (t0 + 20) 2 (CallBuy dave (buy_tc 80)) bid_world).1.
Definition sold_world : ex_world := (run_market (t0 + 30) 2 (CallClaim bob (Some order_id)) raised_world).1.

Example sold_balances :
  ((fun w => (fun k => user_balance w k (Some KLVIdentifier)) <$> [bob; dave; alice; carol])
    <$> [market_world; listed_world; bid_world; raised_world; sold_world])
  = [[40; 200; 0; 0]; [30; 200; 0; 0]; [30; 140; 0; 0]; [30; 120; 0; 0]; [98; 120; 15; 7]].
Proof. vm_compute. reflexivity. Qed.

(** ** The invariant holds at the start *)

Lemma market_world_ok : world_ok market_world.
Proof. split; [done|by apply empty_pool_wf..]. Qed.

Lemma put_value_ne {T} {C : Marshalizer T} key (x : T) (a : ex_kapp) key' :
  key' <> key ->
  RetrieveValue (kapp_tracker (WorldExample.put key x a)) key' = RetrieveValue (kapp_tracker a) key'.
Proof.
  intros Hne. unfold WorldExample.put, kapp_SaveKeyValue.
  destruct (SaveKeyValue (kapp_tracker a) key _) as [t|] eqn:E; [|done]. cbn.
  by rewrite (retrieve_save_ne _ _ _ _ _ E) by congruence.
Qed.

(** An account of the databases under its own address. *)
Lemma stored_kapp us ks k a : kapp_Address a = k -> ks !! k = Some a -> kapp_obj (fresh_world us ks) k = Some a.
Proof.
  intros Ha Hk. unfold kapp_obj, pool_obj. cbn. rewrite lookup_empty. cbn. unfold map_find.
  by rewrite Hk, decide_True by done.
Qed.
Lemma stored_user us ks k a : address a = k -> us !! k = Some a -> user_obj (fresh_world us ks) k = Some a.
Proof.
  intros Ha Hk. unfold user_obj, pool_obj. cbn. rewrite lookup_empty. cbn. unfold map_find.
  by rewrite Hk, decide_True by done.
Qed.

Lemma market_app_obj : kapp_obj market_world MarketKAppAddress = Some market_app.
Proof.
  apply stored_kapp; [vm_compute; reflexivity|].
  rewrite lookup_insert_ne by discriminate. apply lookup_insert_eq.
Qed.
Lemma asset_app_obj : kapp_obj market_world KDAKAppAddress = Some asset_app.
Proof. apply stored_kapp; [vm_compute; reflexivity|]. apply lookup_insert_eq. Qed.

(** The market stores one value. *)
Lemma market_empty {T} (C : Marshalizer T) key :
  key <> ToMarketplaceKey "mp" -> @kapp_value _ _ _ _ _ T C market_world MarketKAppAddress key = None.
Proof.
  intros Hne. unfold kapp_value. rewrite market_app_obj. cbn [mbind option_bind].
  unfold market_app. rewrite put_value_ne by done.
  unfold RetrieveValue, new_market_app. cbn [kapp_tracker dirtyData tr identifier NewTrackableDataTrie].
  rewrite lookup_empty. change (trie_get ∅ key) with (Ok (E := error) (default EmptyString ((∅ : gmap string string) !! key))).
  rewrite lookup_empty. cbn -[slen]. unfold trimValue. change (slen EmptyString) with 0.
  destruct (_ <? 0); [done|]. by destruct (Z.to_nat _).
Qed.

Lemma asset_records id kda :
  kapp_record (T := KDAData) market_world KDAKAppAddress id = Some kda ->
  id = "NFT-0001" /\ kda = art \/ id = KLVIdentifier /\ kda = klv.
Proof.
  intros H. destruct (decide (id = "NFT-0001")) as [->|N1]; [left|destruct (decide (id = KLVIdentifier)) as [->|N2]; [right|]].
  - split; [done|]. assert (kapp_record (T := KDAData) market_world KDAKAppAddress "NFT-0001" = Some art) as E
      by (vm_compute; reflexivity). rewrite E in H. by injection H.
  - split; [done|]. assert (kapp_record (T := KDAData) market_world KDAKAppAddress KLVIdentifier = Some klv) as E
      by (vm_compute; reflexivity). rewrite E in H. by injection H.
  - unfold kapp_record, kapp_value in H. rewrite asset_app_obj in H. cbn [mbind option_bind] in H.
    assert (ToKDAKey id EmptyString <> ToKDAKey "NFT-0001" EmptyString) as K1
      by (intros E; exact (N1 (ToKDAKey_inj_nil _ _ E))).
    assert (ToKDAKey id EmptyString <> ToKDAKey KLVIdentifier EmptyString) as K2
      by (intros E; exact (N2 (ToKDAKey_inj_nil _ _ E))).
    unfold asset_app in H. rewrite (put_value_ne _ art _ _ K1), (put_value_ne _ klv _ _ K2) in H.
    unfold RetrieveValue in H. cbn [new_kapp kapp_tracker dirtyData tr NewTrackableDataTrie] in H.
    by rewrite lookup_empty in H.
Qed.

Lemma market_assets_typed : assets_typed market_world.
Proof.
  intros id kda [[-> ->]|[-> ->]]%asset_records;
    (split; [split; vm_compute; discriminate|]; split; [split; vm_compute; discriminate|]);
    intros key; unfold split_percent; cbn [Royalties SplitRoyalties art klv with_royalties art_royalties];
    (destruct (decide (key = EncodeToString carol)) as [->|Hne];
      [rewrite lookup_singleton_eq; vm_compute; discriminate|by rewrite lookup_singleton_ne by congruence]).
Qed.

Lemma bob_seller_obj : user_obj market_world bob = Some bob_seller.
Proof. apply stored_user; [vm_compute; reflexivity|]. apply lookup_insert_eq. Qed.
Lemma dave_bidder_obj : user_obj market_world dave = Some dave_bidder.
Proof.
  apply stored_user; [done|]. rewrite lookup_insert_ne by discriminate. apply lookup_insert_eq.
Qed.
Lemma market_other_user k : k <> bob -> k <> dave ->
  user_obj market_world k = Some (with_Balance (NewUserAccountNoCheck k) 0).
Proof.
  intros H1 H2. unfold user_obj, pool_obj. cbn. rewrite lookup_empty. cbn. unfold map_find.
  by rewrite !lookup_insert_ne, lookup_empty by done.
Qed.

Lemma bob_tracker : exists t,
  SaveKeyValue (tracker (with_Balance (@NewUserAccountNoCheck map_trie bob) 40)) (ToKDAKey "NFT-0001" "7") item_bytes = Ok t /\
  bob_seller = with_tracker (with_Balance (NewUserAccountNoCheck bob) 40) t.
Proof.
  unfold bob_seller, SaveKeyValueM.
  destruct (SaveKeyValue _ _ _) as [t|e] eqn:E; [by exists t|].
  unfold SaveKeyValue in E. replace (MaxLeafSize <? slen item_bytes) with false in E by (vm_compute; reflexivity).
  discriminate E.
Qed.

Lemma fresh_item k b c i : RetrieveValue (tracker (with_Balance (@NewUserAccountNoCheck map_trie k) b)) (ToKDAKey c i) = Err ErrNilTrie.
Proof. unfold RetrieveValue. cbn. by rewrite lookup_empty. Qed.

Lemma market_solvent : MarketFlow.solvent market_world.
Proof.
  intros k a Ha. unfold user_balance. destruct (decide (k = bob)) as [->|Hb].
  - rewrite bob_seller_obj. destruct bob_tracker as (t & Ht & ->). unfold GetBalance, GetBalanceWithNonce.
    destruct (is_klv (Some a)); [vm_compute; split; discriminate|].
    rewrite (GetUserKDA_write_frame _ _ _ _ _ _ _ Ht);
      [vm_compute; split; discriminate|]. intros E. by apply (item_key_apart a "NFT-0001" "7" Ha).
  - destruct (decide (k = dave)) as [->|Hd]; [rewrite dave_bidder_obj|rewrite market_other_user by done];
      [unfold dave_bidder|]; rewrite fresh_balance; destruct (is_klv _); vm_compute; split; discriminate.
Qed.

(** Only bob holds an item, and only this one. *)
Lemma market_items k c i : is_item c i -> is_Some (item_data market_world k c i) ->
  k = bob /\ c = "NFT-0001" /\ i = "7".
Proof.
  intros Hi [d Hd]. unfold item_data in Hd. destruct (decide (k = bob)) as [->|Hb].
  - rewrite bob_seller_obj in Hd. destruct bob_tracker as (t & Ht & E). rewrite E in Hd. cbn [tracker with_tracker] in Hd.
    destruct (decide (ToKDAKey "NFT-0001" "7" = ToKDAKey c i)) as [Ek|Hne].
    + symmetry in Ek. by apply item_key_coll in Ek as [-> ->].
    + by rewrite (retrieve_save_ne _ _ _ _ _ Ht Hne), fresh_item in Hd.
  - destruct (decide (k = dave)) as [->|Hd']; [rewrite dave_bidder_obj in Hd|rewrite market_other_user in Hd by done];
      [unfold dave_bidder in Hd|]; by rewrite fresh_item in Hd.
Qed.

Lemma market_starts : market_inv market_world.
Proof.
  assert (forall id, order_at market_world id = None) as Hno
    by (intros id; apply market_empty, order_key_marketplace).
  assert (forall c i, kapp_item market_world MarketKAppAddress c i = None) as Hni.
  { intros c i. rewrite kapp_item_value. apply market_empty. intros E. symmetry in E. by apply marketplace_key_item in E. }
  split; [exact market_world_ok|exact market_solvent|exact market_assets_typed|..].
  - intros id o. by rewrite Hno.
  - intros id m Hm. destruct (decide (id = "mp")) as [->|Hid].
    + assert (marketplace_at market_world "mp" = Some gallery) as E by (vm_compute; reflexivity).
      rewrite E in Hm. injection Hm as <-. split; [done|]. split; vm_compute; discriminate.
    + unfold marketplace_at in Hm. rewrite market_empty in Hm; [done|]. by intros E%marketplace_key_inj.
  - split.
    + intros id o. by rewrite Hno.
    + intros id1 o1 id2 o2. by rewrite Hno.
    + intros c i k _ _. rewrite Hni. by intros [? ?].
    + intros c i k k' Hi _ H1 H2. destruct (market_items k c i Hi H1) as [-> _].
      by destruct (market_items k' c i Hi H2) as [-> _].
Qed.

(** ** The run *)

Lemma run_market_step t nonce c w :
  caller c <> EmptyString -> call_typed (market_env t nonce UTC) w c ->
  is_ok (run_market t nonce c w).2 = true -> market_step no_oob split_keys w (run_market t nonce c w).1.
Proof.
  intros Hne Hty Hok. eapply (step_call _ _ _ _ (market_env t nonce UTC) c); [done|done|done|].
  by apply run_unit_spec.
Qed.

Lemma sell_named endTime : listing_named (sell_tc endTime).
Proof.
  split; [|split; [discriminate|reflexivity]].
  intros c i E. vm_compute in E. by injection E as <- <-.
Qed.

Lemma listed_run : rtc (market_step no_oob split_keys) market_world listed_world.
Proof.
  apply rtc_once, run_market_step; [discriminate| |vm_compute; reflexivity].
  split; [apply sell_named|vm_compute; reflexivity].
Qed.
Lemma raised_run : rtc (market_step no_oob split_keys) market_world raised_world.
Proof.
  eapply rtc_trans; [exact listed_run|]. eapply rtc_l; [|apply rtc_once].
  - apply (run_market_step (t0 + 10) 1 (CallBuy dave (buy_tc 60)) listed_world);
      [discriminate|split; vm_compute; discriminate|vm_compute; reflexivity].
  - apply (run_market_step (t0 + 20) 2 (CallBuy dave (buy_tc 80)) bid_world);
      [discriminate|split; vm_compute; discriminate|vm_compute; reflexivity].
Qed.


Lemma market_conserves_assets_witness :
  conserves market_world raised_world /\ held (order_at raised_world order_id) KLVIdentifier = 90.
Proof.
  split; [|vm_compute; reflexivity].
  exact (market_conserves_assets no_oob split_keys market_world raised_world raised_run market_starts).
Defined.

(** ** Settling *)

Definition raised_order : MarketOrderData := default emptyOrder (order_at raised_world order_id).
Definition settled_world : ex_world :=
  (executeBuyMarket (market_env (t0 + 30) 2 UTC) no_oob split_keys 1 1 (claimed raised_order) (Some KLVIdentifier) raised_world).1.

Lemma settlement_exact_witness :
  user_loc raised_world dave 1 /\ kapp_loc raised_world MarketKAppAddress 1 /\
  released raised_world settled_world dave (claimed raised_order).
Proof.
  assert (user_loc raised_world dave 1) as Hl by (vm_compute; reflexivity).
  assert (kapp_loc raised_world MarketKAppAddress 1) as Hk by (vm_compute; reflexivity).
  split; [exact Hl|]. split; [exact Hk|].
  destruct (reachable no_oob split_keys _ _ raised_run market_starts) as [Hinv _].
  assert (order_at raised_world order_id = Some raised_order) as Ho by (vm_compute; reflexivity).
  destruct (mi_orders _ Hinv _ _ Ho) as [_ Ht].
  destruct (settlement_exact (market_env (t0 + 30) 2 UTC) no_oob split_keys eq_refl eq_refl eq_refl
    (fun m => Permutation_refl _) raised_world settled_world dave 1 1 (claimed raised_order) (Some KLVIdentifier)
    (mi_ok _ Hinv) (mi_solvent _ Hinv) (mi_assets _ Hinv) (claimed_typed _ Ht) eq_refl Hk Hl)
    as (asset & _ & _ & _ & _ & _ & _ & _ & Hrel & _).
  - vm_compute. reflexivity.
  - vm_compute. reflexivity.
  - unfold settled_world. apply run_unit_spec. vm_compute. reflexivity.
  - exact Hrel.
Defined.

Lemma sale_terms_fixed_at_listing_witness :
  (computeSettlementAmounts (market_env t0 1 UTC) no_oob raised_order art_royalties 80 market_world).2 =
  (computeSettlementAmounts (market_env t0 1 UTC) no_oob raised_order
     {| royalties_Address := dave; TransferPercentage := []; TransferFixed := 0; MarketPercentage := 9000;
        MarketFixed := 0; SplitRoyalties := ∅; ITOPercentage := 0; ITOFixed := 0 |} 80 sold_world).2.
Proof.
  apply (sale_terms_fixed_at_listing (market_env t0 1 UTC) no_oob market_world sold_world raised_order);
    vm_compute; reflexivity.
Defined.

(** ** The reported escrow *)

Definition raised_app : ex_kapp := default new_market_app (kapp_obj raised_world MarketKAppAddress).

Lemma escrow_total_exact_witness :
  GetMarketEscrowTotal raised_app [ToMarketplaceKey "mp"; ToMarketOrderKey order_id; ToKDAKey "NFT-0001" "7"] = Ok 90.
Proof.
  destruct (reachable no_oob split_keys _ _ raised_run market_starts) as [Hinv _].
  refine (eq_trans (escrow_total_exact raised_world raised_app ∅
    [ToMarketplaceKey "mp"; ToMarketOrderKey order_id; ToKDAKey "NFT-0001" "7"] [order_id] Hinv _ _ _ _ _) _).
  - vm_compute. reflexivity.
  - vm_compute. reflexivity.
  - vm_compute. reflexivity.
  - constructor; [|constructor]. vm_compute. eauto.
  - vm_compute. discriminate.
  - vm_compute. reflexivity.
Defined.

(** ** A listing under an identifier in use *)

(** Two items of bob's, and a hash under which two listings collide. *)
Definition bob_collector : ex_user := (SaveKeyValueM (ToKDAKey "NFT-0001" "8") item_bytes bob_seller).1.
Definition collector_world : ex_world :=
  fresh_world (<[bob := bob_collector]> (<[dave := dave_bidder]> ∅))
    (<[KDAKAppAddress := asset_app]> (<[MarketKAppAddress := market_app]> ∅)).
Definition colliding_env (t nonce : Z) : marketEnv :=
  {| me_env := {| env_fc := all_forks; env_pubkeyLen := 5; env_epoch := 10; env_randSeed := "seed";
                  env_txHash := "tx"; env_contractID := 0; env_MaxNFTMintBatch := 50;
                  env_MaxEpochsUnclaimed := 5; env_hash := fun _ => "collision"; env_IsReadOnly := false |};
     me_timestamp := t; me_txNonce := nonce; me_local := UTC |}.
Definition sell_again : SellContract :=
  {| sl_MarketType := MarketOrderData_Auction; sl_MarketplaceID := Some "mp"; sl_AssetID := Some "NFT-0001/8";
     sl_CurrencyID := None; sl_Price := 0; sl_ReservePrice := 50; sl_EndTime := t0 + 1000 |}.
Definition buy_collision : BuyContract :=
  {| by_ID := Some "collisio"; by_CurrencyID := None; by_Amount := 60; by_CurrencyAmount := 0 |}.
Definition first_world : ex_world :=
  (Buy (colliding_env t0 1) no_oob split_keys dave buy_collision
     (Sell (colliding_env t0 1) bob (sell_tc (t0 + 1000)) collector_world).1).1.
Definition overwritten : ex_world * res (txResultCode * error) unit :=
  Sell (colliding_env t0 2) bob sell_again first_world.

(** A listing whose identifier is already in use is not refused.  When the
    truncated hash of two listings is the same, the second one succeeds and
    replaces the stored order of the first: the open order with its bid of 60
    is gone, the bidder is not refunded, and the first item stays in escrow
    without an order. *)
Theorem conflicting_listing_overwrites :
  market_id (colliding_env t0 1) bob = market_id (colliding_env t0 2) bob /\
  (mo_AssetID <$> order_at first_world "collisio") = Some "7" /\
  held (order_at first_world "collisio") KLVIdentifier = 70 /\
  overwritten.2 = Ok tt /\
  (mo_AssetID <$> order_at overwritten.1 "collisio") = Some "8" /\
  held (order_at overwritten.1 "collisio") KLVIdentifier = 10 /\
  user_balance overwritten.1 dave (Some KLVIdentifier) = user_balance first_world dave (Some KLVIdentifier) /\
  is_Some (kapp_item overwritten.1 MarketKAppAddress "NFT-0001" "7").
Proof. repeat split; try (vm_compute; reflexivity). vm_compute. eauto. Qed.

(** ** The last day a listing may end *)

(** The end time a day after the same date of the next year. *)
Definition late_end : Z := AddYears UTC 1 t0 + 3600.
Definition sell_in (zone : Location) : res (txResultCode * error) unit :=
  (Sell (market_env t0 1 zone) bob (sell_tc late_end) market_world).2.

(** Whether a listing is accepted depends on the time zone of the node.  At
    02:00 UTC on the first of March of a leap year it is still the 29th of
    February eight hours west of Greenwich, where the same date of the next year
    is a day later: a listing that ends in between is refused by a node in one
    zone and accepted by a node in the other, from the same state. *)
Example listing_deadline_depends_on_zone :
  AddYears (FixedZone (- 28800)) 1 t0 = AddYears UTC 1 t0 + secondsPerDay /\
  sell_in UTC = Err (Transaction_ParameterInvalid, ErrInvalidValue) /\
  sell_in (FixedZone (- 28800)) = Ok tt.
Proof. repeat split; vm_compute; reflexivity. Qed.
