(* ===== verification/ProposalExample.v ===== *)
(** * A governance run

    Serializers for the governance messages and a small network over the
    concrete world: a proposal is created, voted on, loses votes to an unfreeze
    and is settled.  The theorems on governance are applied to it. *)

From S2P Require Import Prelude Common Strconv GoStd Forks Tools Permissions KdaUtils KdaData DataTrie UserAccount Codec.
From S2P Require Import Balances AccountsCache Staking World SystemAccount KdaKapp WorldLemmas NetParams Proposals ProposalProps ProposalRuns WorldExample.
Local Open Scope Z_scope.

(** ** Serializers *)

#[export] Instance Ser_VoteDetail : Ser VoteDetail :=
  Ser_iso (fun v => (vd_Type v, vd_Amount v, vd_Timestamp v))
    (fun '(a, b, c) => {| vd_Type := a; vd_Amount := b; vd_Timestamp := c |}) ltac:(by intros []).
#[export] Instance Ser_Status : Ser EnumProposalStatus :=
  Ser_iso (fun t => match t with ProposalData_ActiveProposal => None
                               | ProposalData_ApprovedProposal => Some true
                               | ProposalData_DeniedProposal => Some false end)
    (fun o => match o with None => ProposalData_ActiveProposal | Some true => ProposalData_ApprovedProposal
                         | Some false => ProposalData_DeniedProposal end)
    ltac:(by intros []).
#[export] Instance Ser_ProposalData : Ser ProposalData :=
  Ser_iso (fun p => (pd_Proposer p, pd_TXHash p, pd_ProposalStatus p, pd_Parameters p, pd_Description p,
                     pd_EpochStart p, pd_EpochEnd p, pd_Votes p, pd_Timestamp p, pd_Voters p, pd_TotalStaked p))
    (fun '(a, b, c, d, e, f, g, h, i, j, k) =>
       {| pd_Proposer := a; pd_TXHash := b; pd_ProposalStatus := c; pd_Parameters := d; pd_Description := e;
          pd_EpochStart := f; pd_EpochEnd := g; pd_Votes := h; pd_Timestamp := i; pd_Voters := j;
          pd_TotalStaked := k |})
    ltac:(by intros []).
#[export] Instance Ser_Param : Ser Param :=
  Ser_iso (fun p => (prm_Type p, prm_Value p)) (fun '(a, b) => {| prm_Type := a; prm_Value := b |})
    ltac:(by intros []).
#[export] Instance Ser_Controller : Ser ProposalController :=
  Ser_iso (fun c => (pc_ProposalCount c, pc_ActiveParameters c, pc_ActiveProposals c))
    (fun '(a, b, c) => {| pc_ProposalCount := a; pc_ActiveParameters := b; pc_ActiveProposals := c |})
    ltac:(by intros []).

Definition proposal_codec : Marshalizer ProposalData := proto_codec emptyProposal.
Definition controller_codec : Marshalizer ProposalController := proto_codec emptyController.
#[export] Instance proposal_codec_laws : ProtoCodec proposal_codec emptyProposal.
Proof. apply proto_codec_laws. Qed.
#[export] Instance controller_codec_laws : ProtoCodec controller_codec emptyController.
Proof. apply proto_codec_laws. Qed.

(** No parameter is a floating-point number. *)
Definition no_floats : FloatParsers :=
  {| ParseFloat _ _ := Err ErrSyntax; ParseComplex _ _ := Err ErrSyntax |}.

#[export] Instance kapp_store : KappStore kapp_adapter.
Proof.
  split; [done|intros db k a E; cbn in *; injection E as <-; by apply map_load_addr|].
  intros db a db' a' [= <- <-]. exists a. cbn. unfold map_find.
  by rewrite lookup_insert_eq, decide_True by done.
Qed.

#[local] Existing Instances map_trie userkda_codec user_adapter kapp_adapter map_adapter
  staking_codec proposal_codec controller_codec no_floats.

(** ** The network at its start *)

(** Two million KFI staked, in millionths; bob has frozen all of it. *)
Definition gov_frozen : Z := 2 * 10 ^ 12.
Definition kfi_stake : StakingData :=
  {| InterestType := StakingData_FPRI; APR := []; FPR := []; CurrentFPRAmount := 0;
     TotalStaked := gov_frozen; MinEpochsToClaim := 1; MinEpochsToUnstake := 1; MinEpochsToWithdraw := 1 |}.

Definition genesis_controller : ProposalController := NewInitialProposalController all_forks.
Definition gov_genesis : ex_kapp :=
  @put _ controller_codec ProposalControllerKey genesis_controller (new_kapp ProposalKAppAddress).
Definition gov_staking : ex_kapp :=
  @put _ staking_codec (ToKDAKey KFIIdentifier EmptyString) kfi_stake
    (@put _ staking_codec (ToKDAKey KLVIdentifier EmptyString) kfi_stake (new_kapp StakingKAppAddress)).

Definition kfi_position (frozen : Z) : UserKDA :=
  {| kda_Balance := 0; FrozenBalance := frozen; uk_LastClaim := None; Buckets := None;
     MIME := EmptyString; Metadata := EmptyString |}.
Definition gov_bob : ex_user :=
  (SetUserKDA (Some KFIIdentifier) EmptyString (kfi_position gov_frozen) (NewUserAccountNoCheck bob)).1.

Definition gov_env : proposalEnv :=
  {| pe_env := example_env; pe_timestamp := 7; pe_live := InitialProposalParameters all_forks |}.
Definition range_map (m : gmap Z string) : list (Z * string) := map_to_list m.

Definition gov_world0 : ex_world :=
  {| w_cache := resetAllNoLock true (@NewAccountsCacher _ _ _ user_adapter kapp_adapter map_adapter
       (<[bob := gov_bob]> ∅ : gmap string ex_user)
       (<[ProposalKAppAddress := gov_genesis]> (<[StakingKAppAddress := gov_staking]> ∅) : gmap string ex_kapp)
       (∅ : gmap string Z));
     w_receipts := []; w_returnData := [] |}.

(** ** The steps *)

(** Bob proposes another fee for transfers, votes with all of his KFI, and
    unfreezes a quarter of it. *)
Definition fee_change : ProposalContract :=
  {| prc_Parameters := {[EnumParameter_KAppFeeTransfer := "250000"]}; prc_Description := "cheaper transfers";
     prc_EpochsDuration := 5 |}.
Definition gov_world1 : ex_world := (Create gov_env range_map bob fee_change gov_world0).1.
Definition yes_vote : VoteContract := {| vc_ProposalID := 1; vc_Amount := gov_frozen; vc_Type := VoteDetail_Yes |}.
Definition gov_world2 : ex_world := (Vote gov_env bob yes_vote gov_world1).1.
Definition gov_unfrozen : Z := 5 * 10 ^ 11.
Definition gov_world3 : ex_world :=
  (on_user 0 (SetUserKDA (Some KFIIdentifier) EmptyString (kfi_position (gov_frozen - gov_unfrozen))) gov_world2).1.
Definition gov_world4 : ex_world :=
  (handleProposalVotesOnUnfreeze gov_env 0 KFIIdentifier bob gov_unfrozen gov_world3).1.

Definition app_in (w : ex_world) : ex_kapp := default (new_kapp EmptyString) (kapp_obj w ProposalKAppAddress).

Lemma created : Create gov_env range_map bob fee_change gov_world0 = (gov_world1, Ok tt).
Proof. apply (run_unit_spec (Create gov_env range_map bob fee_change gov_world0)). vm_compute. reflexivity. Qed.
Lemma voted : Vote gov_env bob yes_vote gov_world1 = (gov_world2, Ok tt).
Proof. apply (run_unit_spec (Vote gov_env bob yes_vote gov_world1)). vm_compute. reflexivity. Qed.
Lemma lowered :
  on_user 0 (SetUserKDA (Some KFIIdentifier) EmptyString (kfi_position (gov_frozen - gov_unfrozen))) gov_world2 =
  (gov_world3, Ok tt).
Proof. apply (run_unit_spec (on_user 0 _ gov_world2)). vm_compute. reflexivity. Qed.
Lemma votes_taken :
  handleProposalVotesOnUnfreeze gov_env 0 KFIIdentifier bob gov_unfrozen gov_world3 = (gov_world4, Ok tt).
Proof.
  apply (run_unit_spec (handleProposalVotesOnUnfreeze gov_env 0 KFIIdentifier bob gov_unfrozen gov_world3)).
  vm_compute. reflexivity.
Qed.

Lemma some_default {A} (d : A) (o : option A) : bool_decide (is_Some o) = true -> o = Some (default d o).
Proof. intros [x ->]%bool_decide_eq_true. done. Qed.
Lemma app1 : kapp_obj gov_world1 ProposalKAppAddress = Some (app_in gov_world1).
Proof. apply some_default. vm_compute. reflexivity. Qed.
Lemma app2 : kapp_obj gov_world2 ProposalKAppAddress = Some (app_in gov_world2).
Proof. apply some_default. vm_compute. reflexivity. Qed.
Lemma app4 : kapp_obj gov_world4 ProposalKAppAddress = Some (app_in gov_world4).
Proof. apply some_default. vm_compute. reflexivity. Qed.

Lemma genesis_saved :
  kapp_SaveKeyValue ProposalControllerKey (from_ok EmptyString (Marshal genesis_controller))
    (new_kapp ProposalKAppAddress) = (gov_genesis, Ok tt).
Proof.
  apply (run_unit_spec (kapp_SaveKeyValue ProposalControllerKey
    (from_ok EmptyString (Marshal genesis_controller)) (new_kapp ProposalKAppAddress))).
  vm_compute. reflexivity.
Qed.

Lemma genesis_controller_at : controller_at gov_genesis = Some genesis_controller.
Proof.
  eapply save_message; [apply _| |..|exact genesis_saved|done]; [by vm_compute|].
  intros E. apply (f_equal (size ∘ pc_ActiveParameters)) in E. revert E. vm_compute. discriminate.
Qed.

Lemma genesis_empty key : key <> ProposalControllerKey -> bytes_at gov_genesis key = Ok EmptyString.
Proof.
  intros Hk. destruct (save_bytes _ _ _ _ genesis_saved ltac:(done)) as (_ & _ & Hs). by rewrite Hs.
Qed.

Lemma gov_ok : world_ok gov_world0 /\ world_ok gov_world1 /\ world_ok gov_world2.
Proof.
  assert (world_ok gov_world0) as H0 by (split; [done|by apply empty_pool_wf..]).
  destruct (Create_spec gov_env range_map _ _ gov_genesis _ _ _ H0 eq_refl genesis_controller_at created)
    as (_ & _ & _ & _ & _ & _ & _ & _ & H1).
  destruct (controller_at (app_in gov_world1)) as [c1|] eqn:E; [|by vm_compute in E].
  destruct (Vote_spec gov_env _ _ _ _ _ _ H1 app1 E voted) as (_ & _ & _ & _ & _ & _ & _ & _ & _ & _ & _ & _ & Hs).
  split; [done|]. split; [done|]. apply Hs.
Qed.

Lemma gov_world3_step : world_step (eq bob) nobody gov_world2 gov_world3.
Proof.
  eapply (on_user_spec _ _ bob); [apply gov_ok|vm_compute; reflexivity|apply keeps_SetUserKDA|exact lowered].
Qed.

Definition gov_stake (k : string) : Z := frozen_in gov_env gov_world1 k.
Definition gov_stake' (k : string) : Z := if decide (k = bob) then gov_stake bob - gov_unfrozen else gov_stake k.

Lemma run_reach : gov_reach true gov_stake' (app_in gov_world4).
Proof.
  destruct gov_ok as (H0 & H1 & H2).
  eapply (gr_unfreeze gov_stake gov_stake' gov_env (app_in gov_world2) _ gov_world3 gov_world4 bob 0 gov_unfrozen).
  - apply (gr_vote gov_stake gov_env (app_in gov_world1) _ gov_world1 gov_world2 bob yes_vote).
    + eapply (gr_create gov_stake gov_env range_map gov_genesis _ genesis_controller gov_world0 gov_world1 bob fee_change).
      * apply gr_fork, (gr_genesis _ all_forks); [exact genesis_controller_at|..].
        -- intros id Hid. unfold proposal_at, stored. rewrite genesis_empty; [done|].
           apply not_eq_sym. by apply controller_key_ne.
        -- intros k. apply genesis_empty. discriminate.
        -- apply genesis_empty. discriminate.
      * exact H0.
      * reflexivity.
      * exact genesis_controller_at.
      * reflexivity.
      * exact created.
      * exact app1.
    + exact H1.
    + exact app1.
    + done.
    + split; vm_compute; discriminate.
    + split; vm_compute; discriminate.
    + exact voted.
    + exact app2.
  - apply gov_world3_step.
  - rewrite (ws_kapp _ _ _ _ gov_world3_step); [exact app2|exact id].
  - vm_compute. reflexivity.
  - vm_compute. discriminate.
  - split; unfold gov_stake'; [by rewrite decide_True|]. intros j Hj. by rewrite decide_False.
  - vm_compute. reflexivity.
  - exact votes_taken.
  - exact app4.
Qed.

(** ** The settlement of epoch 15 *)

Definition gov_state : @settleState map_trie kapp_adapter :=
  {| ss_db := <[ProposalKAppAddress := app_in gov_world4]> (<[StakingKAppAddress := gov_staking]> ∅) : gmap string ex_kapp;
     ss_live := InitialProposalParameters all_forks |}.
Definition gov_settled : @settleState map_trie kapp_adapter :=
  (processProposalsEndOfEpoch all_forks range_map 15 gov_state).1.
Definition gov_controller : ProposalController := default emptyController (controller_at (app_in gov_world4)).

Definition gov_proposal : ProposalData := default emptyProposal (proposal_at (app_in gov_world4) 1).

Lemma gov_controller_at : controller_at (app_in gov_world4) = Some gov_controller.
Proof. apply some_default. vm_compute. reflexivity. Qed.
Lemma gov_proposal_at : proposal_at (app_in gov_world4) 1 = Some gov_proposal.
Proof. apply some_default. vm_compute. reflexivity. Qed.
Lemma gov_loaded : adb_Load (ss_db gov_state) ProposalKAppAddress = Ok (app_in gov_world4).
Proof.
  cbn. unfold map_find. rewrite lookup_insert_eq, decide_True; [done|]. vm_compute. reflexivity.
Qed.
Lemma gov_bucket : pc_ActiveProposals gov_controller !! 15 = Some (Some [1]).
Proof. vm_compute. reflexivity. Qed.
Lemma gov_settles : processProposalsEndOfEpoch all_forks range_map 15 gov_state = (gov_settled, Ok ["1"]).
Proof.
  assert ((processProposalsEndOfEpoch all_forks range_map 15 gov_state).2 = Ok ["1"]) as E by (vm_compute; reflexivity).
  unfold gov_settled. rewrite <- E. apply surjective_pairing.
Qed.
Lemma one_ok : id_ok 1.
Proof. split; vm_compute; discriminate. Qed.

(** ** Witnesses *)

Lemma votes_tally_exact_witness :
  default 0 (pd_Votes gov_proposal !! VoteDetail_Yes) = gov_frozen - gov_unfrozen /\
  wrap_i64 (tally_of gov_proposal VoteDetail_Yes) = gov_frozen - gov_unfrozen.
Proof.
  assert (default 0 (pd_Votes gov_proposal !! VoteDetail_Yes) = gov_frozen - gov_unfrozen) as E
    by (vm_compute; reflexivity).
  split; [exact E|]. rewrite <- E. symmetry.
  apply (votes_tally_exact true gov_stake' (app_in gov_world4) 1 gov_proposal VoteDetail_Yes).
  - exact run_reach.
  - exact one_ok.
  - exact gov_proposal_at.
Defined.

Definition gov_vote : VoteDetail :=
  {| vd_Type := VoteDetail_Yes; vd_Amount := gov_frozen - gov_unfrozen; vd_Timestamp := 7 |}.

Lemma active_votes_backed_witness :
  exists k, EncodeToString bob = EncodeToString k /\ gov_frozen - gov_unfrozen <= gov_stake' k.
Proof.
  apply (active_votes_backed true gov_stake' (app_in gov_world4) 1 gov_proposal (EncodeToString bob) gov_vote).
  - exact run_reach.
  - exact one_ok.
  - exact gov_proposal_at.
  - vm_compute. reflexivity.
  - vm_compute. reflexivity.
  - vm_compute. reflexivity.
Defined.

Lemma approved_outcome (fc : ForkController) active total p :
  approved fc active total p = true -> outcome fc active total p = set_outcome p ProposalData_ApprovedProposal total.
Proof. unfold outcome. by intros ->. Qed.

Lemma same_some {A} (o : option A) x y : o = Some x -> o = Some y -> x = y.
Proof. congruence. Qed.

#[local] Opaque gov_proposal gov_controller gov_world4 gov_settled.

Lemma proposals_settled_exactly_witness :
  ss_live gov_settled !! EnumParameter_KAppFeeTransfer =
    Some (Some {| prm_Type := EnumType_Int64; prm_Value := "250000" |}) /\
  exists kfi a', TotalStaked kfi = gov_frozen /\ adb_Load (ss_db gov_settled) ProposalKAppAddress = Ok a' /\
    proposal_at a' 1 = Some (set_outcome gov_proposal ProposalData_ApprovedProposal (TotalStaked kfi)).
Proof.
  destruct (proposals_settled_exactly all_forks range_map (fun m => Permutation_refl _) gov_state gov_settled
    (app_in gov_world4) gov_controller 15 [1] ["1"])
    as (kfi & a' & (sa & Hsa & Hkfi) & Hl & _ & Hin & _ & _ & Hlive).
  - reflexivity.
  - exact gov_loaded.
  - exact gov_controller_at.
  - exact gov_bucket.
  - apply NoDup_singleton.
  - constructor; [exact one_ok|constructor].
  - exact gov_settles.
  - assert (kfi = kfi_stake) as ->.
    { change (Ok gov_staking = Ok sa :> res error ex_kapp) in Hsa. injection Hsa as <-.
      enough (stored gov_staking (ToKDAKey KFIIdentifier EmptyString) = Some kfi_stake) by congruence.
      vm_compute. reflexivity. }
    split.
    + apply Hlive. unfold bucket_proposals. vm_compute. reflexivity.
    + exists kfi_stake, a'. split; [reflexivity|]. split; [exact Hl|].
      destruct (Hin 1) as (p & Hp & Hp'); [by apply list_elem_of_singleton|].
      assert (p = gov_proposal) as -> by exact (same_some _ _ _ Hp gov_proposal_at).
      rewrite Hp', approved_outcome; [reflexivity|]. vm_compute. reflexivity.
Defined.

Lemma parameters_stay_typed_witness :
  GetParameterUint (ss_live gov_settled) EnumParameter_KAppFeeTransfer = Ok 250000 /\
  params_ok (ss_live gov_settled).
Proof.
  split; [vm_compute; reflexivity|].
  apply (parameters_stay_typed all_forks range_map (fun m => Permutation_refl _) gov_state gov_settled
    (app_in gov_world4) gov_controller 15 ["1"]).
  - reflexivity.
  - exact gov_loaded.
  - exact gov_controller_at.
  - intros ids Hids. rewrite gov_bucket in Hids. injection Hids as <-.
    split; [apply NoDup_singleton|constructor; [exact one_ok|constructor]].
  - replace (pc_ActiveParameters gov_controller) with (InitialProposalParameters all_forks)
      by (vm_compute; reflexivity). apply InitialProposalParameters_ok.
  - apply InitialProposalParameters_ok.
  - exact gov_settles.
Defined.
