(* ===== verification/Rating.v ===== *)
(** * Ratings of validators

    [core/process/rating/ratingsData.go], [ratingStepData.go] and
    [blockSigningRater.go]: the rating steps of the network configuration and
    the rater that moves a rating by a step, within its bounds.  [float32]
    arithmetic is rounded at 24 bits, [float64] at 53. *)

From S2P Require Import Prelude Common Strconv GoStd Tools.
From Stdlib Require Import SpecFloat.
Local Open Scope Z_scope.

(** ** [float32] *)

Definition f32_of_Z (z : Z) : spec_float := binary_normalize 24 128 z 0 false.
Definition f32_add (x y : spec_float) : spec_float := SFadd 24 128 x y.
Definition f32_mul (x y : spec_float) : spec_float := SFmul 24 128 x y.
Definition f32_div (x y : spec_float) : spec_float := SFdiv 24 128 x y.
(** [float64(x)] of a [float32], which is exact. *)
Definition f64_of_f32 (x : spec_float) : spec_float :=
  match x with
  | S754_finite s m e => binary_normalize 53 f64_emax (if s then Zneg m else Zpos m) e s
  | _ => x
  end.
(** Conversion to a narrower integer; [oob] is what the platform yields for a
    value that does not fit. *)
Definition float_to (lo hi : Z) (oob : spec_float -> Z) (x : spec_float) : Z :=
  match sf_trunc x with
  | Some z => if (lo <=? z) && (z <=? hi) then z else oob x
  | None => oob x
  end.
Definition float_to_i32 : (spec_float -> Z) -> spec_float -> Z := float_to MinInt32 MaxInt32.
Definition float_to_u32 : (spec_float -> Z) -> spec_float -> Z := float_to 0 MaxUint32.

(** ** Configuration *)

Inductive ratingError : Type :=
| ErrMinRatingSmallerThanOne | ErrMaxRatingIsSmallerThanMinRating | ErrStartRatingNotBetweenMinAndMax
| ErrSignedBlocksThresholdNotBetweenZeroAndOne | ErrHoursToMaxRatingFromStartRatingZero
| ErrConsecutiveMissedBlocksPenaltyLowerThanOne | ErrDecreaseRatingsStepMoreThanMinusOne
| ErrOverflow | ErrIncreaseStepLowerThanOne | ErrNoChancesProvided | ErrNilMinChanceIfZero
| ErrDuplicateThreshold | ErrNoChancesForMaxThreshold | RatingPanic.

Record SelectionChance : Type := { MaxThreshold : Z; ChancePercent : Z }.
#[global] Instance SelectionChance_eq_dec : EqDecision SelectionChance.
Proof. solve_decision. Defined.

Record General : Type := {
  g_StartRating : Z; g_MaxRating : Z; g_MinRating : Z; g_SignedBlocksThreshold : spec_float;
  g_SelectionChances : list SelectionChance;
}.
Record RatingSteps : Type := {
  HoursToMaxRatingFromStartRating : Z; ProposerValidatorImportance : spec_float;
  ProposerDecreaseFactor : spec_float; ValidatorDecreaseFactor : spec_float;
  rs_ConsecutiveMissedBlocksPenalty : spec_float;
}.
Record RatingStep : Type := {
  ProposerIncreaseRatingStep : Z; ProposerDecreaseRatingStep : Z;
  ValidatorIncreaseRatingStep : Z; ValidatorDecreaseRatingStep : Z;
  ConsecutiveMissedBlocksPenalty : spec_float;
}.
Record RatingsData : Type := {
  StartRating : Z; MaxRating : Z; MinRating : Z; SignedBlocksThreshold : spec_float;
  ChainRatingsStepHandler : RatingStep; SelectionChances : list SelectionChance;
}.

Definition f32_one : spec_float := f32_of_Z 1.
Definition f32_minus_one : spec_float := f32_of_Z (-1).
(** [x > y]. *)
Definition sf_gtb (x y : spec_float) : bool := SFltb y x.

Definition verifyRatingsConfig (g : General) (s : RatingSteps) : res ratingError unit :=
  if g_MinRating g <? 1 then Err ErrMinRatingSmallerThanOne
  else if g_MaxRating g <? g_MinRating g then Err ErrMaxRatingIsSmallerThanMinRating
  else if (g_MaxRating g <? g_StartRating g) || (g_StartRating g <? g_MinRating g)
  then Err ErrStartRatingNotBetweenMinAndMax
  else if sf_gtb (g_SignedBlocksThreshold g) f32_one || SFltb (g_SignedBlocksThreshold g) (f32_of_Z 0)
  then Err ErrSignedBlocksThresholdNotBetweenZeroAndOne
  else if HoursToMaxRatingFromStartRating s =? 0 then Err ErrHoursToMaxRatingFromStartRatingZero
  else if SFltb (rs_ConsecutiveMissedBlocksPenalty s) f32_one
  then Err ErrConsecutiveMissedBlocksPenaltyLowerThanOne
  else if sf_gtb (ProposerDecreaseFactor s) f32_minus_one || sf_gtb (ValidatorDecreaseFactor s) f32_minus_one
  then Err ErrDecreaseRatingsStepMoreThanMinusOne
  else Ok tt.

Definition millisecondsInHour : Z := 3600 * 1000.

Section steps.
Variable oob : spec_float -> Z.

(** The hours are multiplied as [uint32]; a slot of no time is a division by
    zero.  The bounds of [int32] are [float32] constants in the comparisons. *)
Definition computeRatingStep (minNodes consensusSize slotTimeMillis startRating maxRating : Z) (s : RatingSteps)
  : res ratingError RatingStep :=
  if slotTimeMillis =? 0 then Err RatingPanic
  else
    let blocksProducedInHours :=
      wrap_u32 (HoursToMaxRatingFromStartRating s * millisecondsInHour) / slotTimeMillis in
    let ratingDifference := f32_of_Z (wrap_u32 (maxRating - startRating)) in
    let proposerProbability := f32_div (f32_of_Z blocksProducedInHours) (f32_of_Z minNodes) in
    let validatorProbability := f32_mul proposerProbability (f32_of_Z consensusSize) in
    let totalImportance := f32_add (ProposerValidatorImportance s) f32_one in
    let ratingFromProposer := f32_mul ratingDifference (f32_div (ProposerValidatorImportance s) totalImportance) in
    let ratingFromValidator := f32_mul ratingDifference (f32_div f32_one totalImportance) in
    let proposerIncrease := f32_div ratingFromProposer proposerProbability in
    let validatorIncrease := f32_div ratingFromValidator validatorProbability in
    let proposerDecrease := f32_mul proposerIncrease (ProposerDecreaseFactor s) in
    let validatorDecrease := f32_mul validatorIncrease (ValidatorDecreaseFactor s) in
    if sf_gtb proposerIncrease (f32_of_Z MaxInt32) || sf_gtb validatorIncrease (f32_of_Z MaxInt32) ||
       SFltb proposerDecrease (f32_of_Z MinInt32) || SFltb validatorDecrease (f32_of_Z MinInt32)
    then Err ErrOverflow
    else if (float_to_i32 oob proposerIncrease <? 1) || (float_to_i32 oob validatorIncrease <? 1)
    then Err ErrIncreaseStepLowerThanOne
    else Ok {| ProposerIncreaseRatingStep := float_to_i32 oob proposerIncrease;
               ProposerDecreaseRatingStep := float_to_i32 oob proposerDecrease;
               ValidatorIncreaseRatingStep := float_to_i32 oob validatorIncrease;
               ValidatorDecreaseRatingStep := float_to_i32 oob validatorDecrease;
               ConsecutiveMissedBlocksPenalty := rs_ConsecutiveMissedBlocksPenalty s |}.

Definition NewRatingsData (g : General) (s : RatingSteps) (consensusSize minNodes slotMillis : Z)
  : res ratingError RatingsData :=
  _ ← verifyRatingsConfig g s;
  ratingStep ← computeRatingStep minNodes consensusSize slotMillis (g_StartRating g) (g_MaxRating g) s;
  Ok {| StartRating := g_StartRating g; MaxRating := g_MaxRating g; MinRating := g_MinRating g;
        SignedBlocksThreshold := g_SignedBlocksThreshold g; ChainRatingsStepHandler := ratingStep;
        SelectionChances := g_SelectionChances g |}.
End steps.

(** ** The rater *)

Record BlockSigningRater : Type := {
  bsr_startRating : Z; signedBlocksThreshold : spec_float; maxRating : Z; minRating : Z;
  ratingsStepHandler : RatingStep; ratingChances : list SelectionChance;
}.

Definition verifyRatingsData (d : RatingsData) : res ratingError unit :=
  let st := ChainRatingsStepHandler d in
  if MinRating d <? 1 then Err ErrMinRatingSmallerThanOne
  else if MaxRating d <? MinRating d then Err ErrMaxRatingIsSmallerThanMinRating
  else if (MaxRating d <? StartRating d) || (StartRating d <? MinRating d)
  then Err ErrStartRatingNotBetweenMinAndMax
  else if (length (SelectionChances d) =? 0)%nat then Err ErrNoChancesProvided
  else if SFltb (SignedBlocksThreshold d) (f32_of_Z 0) || sf_gtb (SignedBlocksThreshold d) f32_one
  then Err ErrSignedBlocksThresholdNotBetweenZeroAndOne
  else if SFltb (ConsecutiveMissedBlocksPenalty st) f32_one
  then Err ErrConsecutiveMissedBlocksPenaltyLowerThanOne
  else if (-1 <? ProposerDecreaseRatingStep st) || (-1 <? ValidatorDecreaseRatingStep st)
  then Err ErrDecreaseRatingsStepMoreThanMinusOne
  else Ok tt.

(** [sort.Slice] by threshold; equal thresholds are refused below, so its order
    among them does not show. *)
Definition chance_le (x y : SelectionChance) : Prop := MaxThreshold x <= MaxThreshold y.
#[global] Instance chance_le_dec x y : Decision (chance_le x y).
Proof. unfold chance_le. apply _. Defined.
Fixpoint duplicate_threshold (l : list SelectionChance) : bool :=
  match l with
  | x :: (y :: _) as rest => (MaxThreshold x =? MaxThreshold y) || duplicate_threshold rest
  | _ => false
  end.

Definition NewBlockSigningRater (d : RatingsData) : res ratingError BlockSigningRater :=
  _ ← verifyRatingsData d;
  let chances := merge_sort chance_le (SelectionChances d) in
  if 0 <? from_option MaxThreshold 0 (head chances) then Err ErrNilMinChanceIfZero
  else if duplicate_threshold chances then Err ErrDuplicateThreshold
  else if negb (from_option MaxThreshold 0 (last chances) =? MaxRating d) then Err ErrNoChancesForMaxThreshold
  else Ok {| bsr_startRating := StartRating d; signedBlocksThreshold := SignedBlocksThreshold d;
             maxRating := MaxRating d; minRating := MinRating d;
             ratingsStepHandler := ChainRatingsStepHandler d; ratingChances := chances |}.

Section rater.
Variable oob : spec_float -> Z.
Variable bsr : BlockSigningRater.
Abbreviation steps := (ratingsStepHandler bsr).

Definition computeRating (ratingStep currentRating : Z) : Z :=
  let newVal := currentRating +! ratingStep in
  if newVal <? minRating bsr then minRating bsr
  else if maxRating bsr <? newVal then maxRating bsr
  else SafeI64ToU32 newVal.

Definition ComputeIncreaseProposer (currentRating : Z) : Z :=
  computeRating (ProposerIncreaseRatingStep steps) currentRating.
Definition ComputeIncreaseValidator (currentRating : Z) : Z :=
  computeRating (ValidatorIncreaseRatingStep steps) currentRating.
Definition ComputeDecreaseValidator (currentRating : Z) : Z :=
  computeRating (ValidatorDecreaseRatingStep steps) currentRating.

(** [math.MinInt32]. *)
Definition maxDecreaseValue : Z := MinInt32.

(** [-ratingStep] is an [int32]; the product is taken in full and its low 64
    bits are read. *)
Definition neg_i32 (z : Z) : Z := (- z + 2147483648) mod 4294967296 - 2147483648.
Definition RevertIncreaseValidator (currentRating nrReverts : Z) : Z :=
  let decreaseInt := wrap_i64 (neg_i32 (ValidatorIncreaseRatingStep steps) * nrReverts) in
  let decreaseValue := if (decreaseInt <? maxDecreaseValue) || (0 <? decreaseInt) then maxDecreaseValue
                       else SafeI64ToI32 decreaseInt in
  computeRating decreaseValue currentRating.

(** The penalty is applied once per consecutive miss, until the largest
    decrease is reached. *)
Fixpoint penalized (n : nat) (x penalty : spec_float) : spec_float :=
  match n with
  | O => x
  | S n' =>
      let x := f64_mul x penalty in
      if SFltb x (f64_of_Z maxDecreaseValue) then f64_of_Z maxDecreaseValue else penalized n' x penalty
  end.
Definition ComputeDecreaseProposer (currentRating consecutiveMisses : Z) : Z :=
  let computedFloat := penalized (Z.to_nat consecutiveMisses) (f64_of_Z (ProposerDecreaseRatingStep steps))
                         (f64_of_f32 (ConsecutiveMissedBlocksPenalty steps)) in
  computeRating (float_to_i32 oob computedFloat) currentRating.

(** The chance of the first threshold the rating does not exceed, that of the
    first entry if there is none. *)
Definition GetChance (currentRating : Z) : Z :=
  match list_find (fun c => currentRating <= MaxThreshold c) (ratingChances bsr) with
  | Some (_, c) => ChancePercent c
  | None => from_option ChancePercent 0 (head (ratingChances bsr))
  end.
End rater.

(** ** Properties *)




(** What happens to the rating of a validator. *)
Inductive ratingEvent : Type :=
| ProposedBlock | SignedBlock | MissedProposal (consecutiveMisses : Z) | MissedSignature
| RevertedSignatures (nrReverts : Z).

Section runs.
Variable oob : spec_float -> Z.
Hypothesis Hoob : forall x, MinInt32 <= oob x <= MaxInt32.
Variable r : BlockSigningRater.

Definition rate (cur : Z) (ev : ratingEvent) : Z :=
  match ev with
  | ProposedBlock => ComputeIncreaseProposer r cur
  | SignedBlock => ComputeIncreaseValidator r cur
  | MissedProposal n => ComputeDecreaseProposer oob r cur n
  | MissedSignature => ComputeDecreaseValidator r cur
  | RevertedSignatures n => RevertIncreaseValidator r cur n
  end.







End runs.

(** The configuration of a small network: ratings from 1 to 10,000,000, six
    hours from the start to the maximum. *)
Definition example_general : General :=
  {| g_StartRating := 5000001; g_MaxRating := 10000000; g_MinRating := 1;
     g_SignedBlocksThreshold := f32_div (f32_of_Z 1) (f32_of_Z 100);
     g_SelectionChances := [{| MaxThreshold := 10000000; ChancePercent := 20 |};
                            {| MaxThreshold := 0; ChancePercent := 5 |};
                            {| MaxThreshold := 1000000; ChancePercent := 0 |}] |}.
Definition example_steps : RatingSteps :=
  {| HoursToMaxRatingFromStartRating := 6; ProposerValidatorImportance := f32_one;
     ProposerDecreaseFactor := f32_of_Z (-4); ValidatorDecreaseFactor := f32_of_Z (-4);
     rs_ConsecutiveMissedBlocksPenalty := f32_div (f32_of_Z 11) (f32_of_Z 10) |}.
Definition no_oob : spec_float -> Z := fun _ => 0.
Definition example_data : RatingsData :=
  from_ok {| StartRating := 0; MaxRating := 0; MinRating := 0; SignedBlocksThreshold := f32_one;
             ChainRatingsStepHandler := {| ProposerIncreaseRatingStep := 0; ProposerDecreaseRatingStep := 0;
               ValidatorIncreaseRatingStep := 0; ValidatorDecreaseRatingStep := 0;
               ConsecutiveMissedBlocksPenalty := f32_one |}; SelectionChances := [] |}
    (NewRatingsData no_oob example_general example_steps 21 21 4000).
Definition example_rater : BlockSigningRater :=
  from_ok {| bsr_startRating := 0; signedBlocksThreshold := f32_one; maxRating := 0; minRating := 0;
             ratingsStepHandler := ChainRatingsStepHandler example_data; ratingChances := [] |}
    (NewBlockSigningRater example_data).

(** Three proposals missed in a row cost more each time. *)
Example example_misses :
  fold_left (rate no_oob example_rater) [ProposedBlock; MissedProposal 0; MissedProposal 1; MissedProposal 2]
    5000001 = 4881005.
Proof. vm_compute. reflexivity. Qed.

(** The milliseconds of the configured hours are computed in 32 bits: at 1194
    hours the product wraps to less than one hour, and the rise that should take
    longest is a thousand times faster. *)
Definition steps_for (hours : Z) : RatingSteps :=
  {| HoursToMaxRatingFromStartRating := hours; ProposerValidatorImportance := f32_one;
     ProposerDecreaseFactor := f32_of_Z (-4); ValidatorDecreaseFactor := f32_of_Z (-4);
     rs_ConsecutiveMissedBlocksPenalty := f32_one |}.
Definition proposer_step (hours : Z) : res ratingError Z :=
  st ← computeRatingStep no_oob 21 21 4000 5000000 1000000000 (steps_for hours);
  Ok (ProposerIncreaseRatingStep st).
Example long_rise_wraps : proposer_step 1193 = Ok 9730 /\ proposer_step 1194 = Ok 12176573.
Proof. vm_compute. split; reflexivity. Qed.

