(* ===== verification/Validators.v ===== *)
(** * Validators: peer accounts, delegations and rewards waiting to be claimed

    [data/state/peerAccount.go] and [core/kapp/validators/validators.go]: the
    peer account of each BLS key, the record of each validator with the buckets
    delegated to it, registration and key rotation, and the rewards of an
    address between the end of an epoch and its claim. *)

From S2P Require Import Prelude Common Strconv GoStd Forks Tools Permissions KdaUtils KdaData DataTrie UserAccount.
From S2P Require Import AccountsCache Staking World KdaKapp MarketKapp NetParams Proposals.
Local Open Scope Z_scope.

(** ** Peer accounts *)

Record SignRate : Type := { NumSuccess : Z; NumFailure : Z }.
Definition no_rate : SignRate := {| NumSuccess := 0; NumFailure := 0 |}.

Inductive PeerList : Type :=
| List_inactive | List_observer | List_waiting | List_eligible | List_elected | List_leaving | List_jailed.

Record peerAccount : Type := {
  pa_address : string; BLSPublicKey : string; pa_OwnerAddress : string; Revoked : bool; ShardId : Z;
  List : PeerList; pa_Index : Z; AccumulatedFees : Z; ValidatorSuccessRate : SignRate;
  LeaderSuccessRate : SignRate; ValidatorIgnoredSignaturesRate : Z; Rating : Z; TempRating : Z;
  NumSelectedInSuccessBlocks : Z; ConsecutiveProposerMisses : Z; TotalValidatorSuccessRate : SignRate;
  TotalLeaderSuccessRate : SignRate; TotalValidatorIgnoredSignaturesRate : Z;
}.

#[global] Instance SignRate_eq_dec : EqDecision SignRate.
Proof. solve_decision. Defined.
#[global] Instance PeerList_eq_dec : EqDecision PeerList.
Proof. solve_decision. Defined.
#[global] Instance peerAccount_eq_dec : EqDecision peerAccount.
Proof. solve_decision. Defined.

Definition NewPeerAccount (address : string) : res error peerAccount :=
  if slen address =? 0 then Err ErrNilAddress
  else Ok {| pa_address := address; BLSPublicKey := EmptyString; pa_OwnerAddress := EmptyString;
             Revoked := false; ShardId := 0; List := List_inactive; pa_Index := 0; AccumulatedFees := 0;
             ValidatorSuccessRate := no_rate; LeaderSuccessRate := no_rate;
             ValidatorIgnoredSignaturesRate := 0; Rating := 0; TempRating := 0;
             NumSelectedInSuccessBlocks := 0; ConsecutiveProposerMisses := 0;
             TotalValidatorSuccessRate := no_rate; TotalLeaderSuccessRate := no_rate;
             TotalValidatorIgnoredSignaturesRate := 0 |}.

(** The setters, each an assignment to the fields it names. *)
Definition with_keys (a : peerAccount) (bls owner : string) (revoked : bool) : peerAccount :=
  {| pa_address := pa_address a; BLSPublicKey := bls; pa_OwnerAddress := owner; Revoked := revoked;
     ShardId := ShardId a; List := List a; pa_Index := pa_Index a; AccumulatedFees := AccumulatedFees a;
     ValidatorSuccessRate := ValidatorSuccessRate a; LeaderSuccessRate := LeaderSuccessRate a;
     ValidatorIgnoredSignaturesRate := ValidatorIgnoredSignaturesRate a; Rating := Rating a;
     TempRating := TempRating a; NumSelectedInSuccessBlocks := NumSelectedInSuccessBlocks a;
     ConsecutiveProposerMisses := ConsecutiveProposerMisses a;
     TotalValidatorSuccessRate := TotalValidatorSuccessRate a;
     TotalLeaderSuccessRate := TotalLeaderSuccessRate a;
     TotalValidatorIgnoredSignaturesRate := TotalValidatorIgnoredSignaturesRate a |}.
Definition with_place (a : peerAccount) (list : PeerList) (index rating tempRating : Z) : peerAccount :=
  {| pa_address := pa_address a; BLSPublicKey := BLSPublicKey a; pa_OwnerAddress := pa_OwnerAddress a;
     Revoked := Revoked a; ShardId := ShardId a; List := list; pa_Index := index;
     AccumulatedFees := AccumulatedFees a; ValidatorSuccessRate := ValidatorSuccessRate a;
     LeaderSuccessRate := LeaderSuccessRate a;
     ValidatorIgnoredSignaturesRate := ValidatorIgnoredSignaturesRate a; Rating := rating;
     TempRating := tempRating; NumSelectedInSuccessBlocks := NumSelectedInSuccessBlocks a;
     ConsecutiveProposerMisses := ConsecutiveProposerMisses a;
     TotalValidatorSuccessRate := TotalValidatorSuccessRate a;
     TotalLeaderSuccessRate := TotalLeaderSuccessRate a;
     TotalValidatorIgnoredSignaturesRate := TotalValidatorIgnoredSignaturesRate a |}.
(** The fees and counters of the epoch. *)
Definition with_epoch (a : peerAccount) (fees : Z) (validator leader : SignRate) (ignored selected misses : Z)
  : peerAccount :=
  {| pa_address := pa_address a; BLSPublicKey := BLSPublicKey a; pa_OwnerAddress := pa_OwnerAddress a;
     Revoked := Revoked a; ShardId := ShardId a; List := List a; pa_Index := pa_Index a;
     AccumulatedFees := fees; ValidatorSuccessRate := validator; LeaderSuccessRate := leader;
     ValidatorIgnoredSignaturesRate := ignored; Rating := Rating a; TempRating := TempRating a;
     NumSelectedInSuccessBlocks := selected; ConsecutiveProposerMisses := misses;
     TotalValidatorSuccessRate := TotalValidatorSuccessRate a;
     TotalLeaderSuccessRate := TotalLeaderSuccessRate a;
     TotalValidatorIgnoredSignaturesRate := TotalValidatorIgnoredSignaturesRate a |}.

Definition SetList (l : PeerList) (a : peerAccount) : peerAccount :=
  with_place a l (pa_Index a) (Rating a) (TempRating a).
Definition SetListAndIndex (l : PeerList) (index : Z) (a : peerAccount) : peerAccount :=
  with_place a l index (Rating a) (TempRating a).
Definition SetRating (r : Z) (a : peerAccount) : peerAccount :=
  with_place a (List a) (pa_Index a) r (TempRating a).
Definition SetTempRating (r : Z) (a : peerAccount) : peerAccount :=
  with_place a (List a) (pa_Index a) (Rating a) r.
Definition SetRevoked (a : peerAccount) : peerAccount :=
  with_keys a (BLSPublicKey a) (pa_OwnerAddress a) true.

Abbreviation PAM := (M peerAccount error).
Definition SetBLSPublicKey (pubKey : string) : PAM unit :=
  _ ← reject_if (slen pubKey <? 1) ErrNilBLSPublicKey;
  modify (fun a => with_keys a pubKey (pa_OwnerAddress a) (Revoked a)).
Definition SetOwnerAddress (address : string) : PAM unit :=
  _ ← reject_if (slen address <? 1) ErrEmptyAddress;
  modify (fun a => with_keys a (BLSPublicKey a) address (Revoked a)).

Definition AddToAccumulatedFees (value : Z) (a : peerAccount) : peerAccount :=
  with_epoch a (AccumulatedFees a +! value) (ValidatorSuccessRate a) (LeaderSuccessRate a)
    (ValidatorIgnoredSignaturesRate a) (NumSelectedInSuccessBlocks a) (ConsecutiveProposerMisses a).
Definition add_success (r : SignRate) (n : Z) : SignRate :=
  {| NumSuccess := wrap_u32 (NumSuccess r + n); NumFailure := NumFailure r |}.
Definition add_failure (r : SignRate) (n : Z) : SignRate :=
  {| NumSuccess := NumSuccess r; NumFailure := wrap_u32 (NumFailure r + n) |}.
Definition IncreaseLeaderSuccessRate (n : Z) (a : peerAccount) : peerAccount :=
  with_epoch a (AccumulatedFees a) (ValidatorSuccessRate a) (add_success (LeaderSuccessRate a) n)
    (ValidatorIgnoredSignaturesRate a) (NumSelectedInSuccessBlocks a) (ConsecutiveProposerMisses a).
Definition DecreaseLeaderSuccessRate (n : Z) (a : peerAccount) : peerAccount :=
  with_epoch a (AccumulatedFees a) (ValidatorSuccessRate a) (add_failure (LeaderSuccessRate a) n)
    (ValidatorIgnoredSignaturesRate a) (NumSelectedInSuccessBlocks a) (ConsecutiveProposerMisses a).
Definition IncreaseValidatorSuccessRate (n : Z) (a : peerAccount) : peerAccount :=
  with_epoch a (AccumulatedFees a) (add_success (ValidatorSuccessRate a) n) (LeaderSuccessRate a)
    (ValidatorIgnoredSignaturesRate a) (NumSelectedInSuccessBlocks a) (ConsecutiveProposerMisses a).
Definition DecreaseValidatorSuccessRate (n : Z) (a : peerAccount) : peerAccount :=
  with_epoch a (AccumulatedFees a) (add_failure (ValidatorSuccessRate a) n) (LeaderSuccessRate a)
    (ValidatorIgnoredSignaturesRate a) (NumSelectedInSuccessBlocks a) (ConsecutiveProposerMisses a).
Definition IncreaseValidatorIgnoredSignaturesRate (n : Z) (a : peerAccount) : peerAccount :=
  with_epoch a (AccumulatedFees a) (ValidatorSuccessRate a) (LeaderSuccessRate a)
    (wrap_u32 (ValidatorIgnoredSignaturesRate a + n)) (NumSelectedInSuccessBlocks a) (ConsecutiveProposerMisses a).
Definition IncreaseNumSelectedInSuccessBlocks (a : peerAccount) : peerAccount :=
  with_epoch a (AccumulatedFees a) (ValidatorSuccessRate a) (LeaderSuccessRate a)
    (ValidatorIgnoredSignaturesRate a) (wrap_u32 (NumSelectedInSuccessBlocks a + 1)) (ConsecutiveProposerMisses a).
Definition SetConsecutiveProposerMisses (n : Z) (a : peerAccount) : peerAccount :=
  with_epoch a (AccumulatedFees a) (ValidatorSuccessRate a) (LeaderSuccessRate a)
    (ValidatorIgnoredSignaturesRate a) (NumSelectedInSuccessBlocks a) n.
Definition ClearEpochAccounting (a : peerAccount) : peerAccount :=
  with_epoch a 0 no_rate no_rate 0 0 0.

(** The counters of the epoch join the lifetime totals. *)
Definition sum_rate (r s : SignRate) : SignRate :=
  {| NumSuccess := wrap_u32 (NumSuccess r + NumSuccess s); NumFailure := wrap_u32 (NumFailure r + NumFailure s) |}.
Definition ResetAtNewEpoch (a : peerAccount) : peerAccount :=
  {| pa_address := pa_address a; BLSPublicKey := BLSPublicKey a; pa_OwnerAddress := pa_OwnerAddress a;
     Revoked := Revoked a; ShardId := ShardId a; List := List a; pa_Index := pa_Index a;
     AccumulatedFees := 0; ValidatorSuccessRate := no_rate; LeaderSuccessRate := no_rate;
     ValidatorIgnoredSignaturesRate := 0; Rating := TempRating a; TempRating := TempRating a;
     NumSelectedInSuccessBlocks := 0; ConsecutiveProposerMisses := ConsecutiveProposerMisses a;
     TotalValidatorSuccessRate := sum_rate (TotalValidatorSuccessRate a) (ValidatorSuccessRate a);
     TotalLeaderSuccessRate := sum_rate (TotalLeaderSuccessRate a) (LeaderSuccessRate a);
     TotalValidatorIgnoredSignaturesRate :=
       wrap_u32 (TotalValidatorIgnoredSignaturesRate a + ValidatorIgnoredSignaturesRate a) |}.

(** Everything but the keys and the owner. *)
Definition CopyFrom (old a : peerAccount) : peerAccount :=
  {| pa_address := pa_address a; BLSPublicKey := BLSPublicKey a; pa_OwnerAddress := pa_OwnerAddress a;
     Revoked := Revoked a; ShardId := ShardId old; List := List old; pa_Index := pa_Index old;
     AccumulatedFees := AccumulatedFees old; ValidatorSuccessRate := ValidatorSuccessRate old;
     LeaderSuccessRate := LeaderSuccessRate old;
     ValidatorIgnoredSignaturesRate := ValidatorIgnoredSignaturesRate old; Rating := Rating old;
     TempRating := TempRating old; NumSelectedInSuccessBlocks := NumSelectedInSuccessBlocks old;
     ConsecutiveProposerMisses := ConsecutiveProposerMisses old;
     TotalValidatorSuccessRate := TotalValidatorSuccessRate old;
     TotalLeaderSuccessRate := TotalLeaderSuccessRate old;
     TotalValidatorIgnoredSignaturesRate := TotalValidatorIgnoredSignaturesRate old |}.

(** ** Validators *)

Record ValidatorData : Type := {
  vd_OwnerAddress : string; RewardsAddress : string; RegisterNonce : Z; SelfStaked : bool;
  SelfStake : Z; TotalStake : Z; BlsPubKey : string; JailedEpoch : Z; Jailed : bool; Waiting : bool;
  NumJailed : Z; TotalSlash : Z; vd_CanDelegate : bool; MaxDelegation : Z; vd_Commission : Z;
  TotalRewards : Z; vd_Name : string; vd_Logo : string; vd_URIs : gmap string string;
}.

(** A booking of a user's bucket on a validator. *)
Record PeerBucket : Type := {
  DelegatedAt : Z; DelegatedEpoch : Z; UndelegatedEpoch : Z; pb_Value : Z; pb_Address : string;
}.
Record PeerData : Type := { pd_Buckets : gmap string PeerBucket }.

#[global] Instance ValidatorData_eq_dec : EqDecision ValidatorData.
Proof. solve_decision. Defined.
#[global] Instance PeerBucket_eq_dec : EqDecision PeerBucket.
Proof. solve_decision. Defined.
#[global] Instance PeerData_eq_dec : EqDecision PeerData.
Proof. solve_decision. Defined.

Definition zeroValidator : ValidatorData :=
  {| vd_OwnerAddress := EmptyString; RewardsAddress := EmptyString; RegisterNonce := 0; SelfStaked := false;
     SelfStake := 0; TotalStake := 0; BlsPubKey := EmptyString; JailedEpoch := 0; Jailed := false;
     Waiting := false; NumJailed := 0; TotalSlash := 0; vd_CanDelegate := false; MaxDelegation := 0;
     vd_Commission := 0; TotalRewards := 0; vd_Name := EmptyString; vd_Logo := EmptyString; vd_URIs := ∅ |}.
Definition zeroPeerData : PeerData := {| pd_Buckets := ∅ |}.

(** [val.TotalStake, val.SelfStake = total, self]. *)
Definition set_stake (v : ValidatorData) (self total : Z) : ValidatorData :=
  {| vd_OwnerAddress := vd_OwnerAddress v; RewardsAddress := RewardsAddress v;
     RegisterNonce := RegisterNonce v; SelfStaked := SelfStaked v; SelfStake := self; TotalStake := total;
     BlsPubKey := BlsPubKey v; JailedEpoch := JailedEpoch v; Jailed := Jailed v; Waiting := Waiting v;
     NumJailed := NumJailed v; TotalSlash := TotalSlash v; vd_CanDelegate := vd_CanDelegate v;
     MaxDelegation := MaxDelegation v; vd_Commission := vd_Commission v; TotalRewards := TotalRewards v;
     vd_Name := vd_Name v; vd_Logo := vd_Logo v; vd_URIs := vd_URIs v |}.
(** What an epoch changes of a validator. *)
Definition set_status (v : ValidatorData) (selfStaked : bool) (jailedEpoch : Z) (jailed waiting : bool)
    (numJailed totalRewards : Z) : ValidatorData :=
  {| vd_OwnerAddress := vd_OwnerAddress v; RewardsAddress := RewardsAddress v;
     RegisterNonce := RegisterNonce v; SelfStaked := selfStaked; SelfStake := SelfStake v;
     TotalStake := TotalStake v; BlsPubKey := BlsPubKey v; JailedEpoch := jailedEpoch; Jailed := jailed;
     Waiting := waiting; NumJailed := numJailed; TotalSlash := TotalSlash v;
     vd_CanDelegate := vd_CanDelegate v; MaxDelegation := MaxDelegation v; vd_Commission := vd_Commission v;
     TotalRewards := totalRewards; vd_Name := vd_Name v; vd_Logo := vd_Logo v; vd_URIs := vd_URIs v |}.
(** What the owner configures. *)
Definition set_config (v : ValidatorData) (bls rewards : string) (canDelegate : bool) (max commission : Z)
    (name logo : string) (uris : gmap string string) : ValidatorData :=
  {| vd_OwnerAddress := vd_OwnerAddress v; RewardsAddress := rewards; RegisterNonce := RegisterNonce v;
     SelfStaked := SelfStaked v; SelfStake := SelfStake v; TotalStake := TotalStake v; BlsPubKey := bls;
     JailedEpoch := JailedEpoch v; Jailed := Jailed v; Waiting := Waiting v; NumJailed := NumJailed v;
     TotalSlash := TotalSlash v; vd_CanDelegate := canDelegate; MaxDelegation := max;
     vd_Commission := commission; TotalRewards := TotalRewards v; vd_Name := name; vd_Logo := logo;
     vd_URIs := uris |}.

(** *** Contracts *)

Record ValidatorConfig : Type := {
  vcf_BLSPublicKey : string; vcf_RewardAddress : string; vcf_CanDelegate : bool; vcf_Commission : Z;
  vcf_MaxDelegationAmount : Z; vcf_Logo : string; vcf_URIs : gmap string string; vcf_Name : string;
  vcf_BLSSignature : string;
}.
Record CreateValidatorContract : Type := { cv_OwnerAddress : string; cv_Config : ValidatorConfig }.
Record ValidatorConfigContract : Type := { vcc_Config : ValidatorConfig }.
Record DelegateContract : Type := { dc_ToAddress : string; dc_BucketID : string }.
Record UndelegateContract : Type := { uc_BucketID : string }.

(** *** Constants *)

Definition VALIDATOR_PREFIX : string := "VAL".
Definition VALIDATOR_BUCKETS : string := "VALB".
Definition PENDING_REWARDS : string := "PREW".
Definition MaxBucketsPerValidator : Z := 4500.
Definition DefaultUndelegatedEpoch : Z := MaxUint32.
Definition MaxLogoURISize : Z := 250.
Definition MaxURIKeySize : Z := 30.
Definition MaxURIValueSize : Z := 250.
Definition MaxURIMapSize : Z := 10.
Definition BLSKeyProofDomainTag : string := "KLEVER_BLS_KEY_PROOF_OF_POSSESSION_V1".
Definition BLSKeyProofMessage (owner blsPubKey : string) : string := BLSKeyProofDomainTag +:+ owner +:+ blsPubKey.

Definition validatorKey (address : string) : string := VALIDATOR_PREFIX +:+ Sp +:+ address.
Definition validatorBucketsKey (address : string) : string := VALIDATOR_BUCKETS +:+ Sp +:+ address.
Definition pendingRewardsKey (address : string) : string := PENDING_REWARDS +:+ Sp +:+ address.

(** ** The application account *)

Section account.
Context `{TO : TrieOps} {CV : Marshalizer ValidatorData} {CB : Marshalizer PeerData}.

Abbreviation KAM := (M kappAccount error).

(** [GetStorage] as the callers use it: no value has length 0. *)
Definition storage (a : kappAccount) (key : string) : string := default EmptyString (GetStorage a key).

Definition getValidator (sender : string) : KAM ValidatorData := fun a =>
  let data := storage a (validatorKey sender) in
  if slen data =? 0 then (a, Err ErrValidatorNotFound) else (a, Unmarshal data).

Definition setValidator (address : string) (val : ValidatorData) : KAM unit :=
  data ← lift (Marshal val);
  SetStorage (validatorKey address) data.

Definition getValidatorBuckets (address : string) : KAM PeerData := fun a =>
  let data := storage a (validatorBucketsKey address) in
  if slen data =? 0 then (a, Ok zeroPeerData) else (a, Unmarshal data).

Definition setValidatorBuckets (address : string) (pd : PeerData) : KAM unit :=
  data ← lift (Marshal pd);
  SetStorage (validatorBucketsKey address) data.

(** *** Delegations *)

(** [-x] on an [int64]. *)
Definition neg_i64 (z : Z) : Z := wrap_i64 (- z).

Definition addStake (val : ValidatorData) (validator staker : string) (delta : Z) : ValidatorData :=
  set_stake val
    (if str_eqb validator staker || str_eqb (vd_OwnerAddress val) staker then SelfStake val +! delta else SelfStake val)
    (TotalStake val +! delta).

Definition set_UndelegatedEpoch (b : PeerBucket) (e : Z) : PeerBucket :=
  {| DelegatedAt := DelegatedAt b; DelegatedEpoch := DelegatedEpoch b; UndelegatedEpoch := e;
     pb_Value := pb_Value b; pb_Address := pb_Address b |}.

Variable fc : ForkController.

Definition undelegate (blockEpoch : Z) (validator sender bucketID : string) : KAM unit :=
  val ← getValidator validator;
  pd ← getValidatorBuckets validator;
  let encodedBucketID := EncodeToString bucketID in
  match pd_Buckets pd !! encodedBucketID with
  | None => fail ErrInvalidValue
  | Some b =>
      if negb (UndelegatedEpoch b =? DefaultUndelegatedEpoch) then fail ErrInvalidValue
      else
        let buckets := <[encodedBucketID := set_UndelegatedEpoch b blockEpoch]> (pd_Buckets pd) in
        let buckets := if fc FixDelegationSameEpoch && (DelegatedEpoch b =? blockEpoch)
                       then delete encodedBucketID buckets else buckets in
        _ ← setValidatorBuckets validator {| pd_Buckets := buckets |};
        setValidator validator (addStake val validator sender (neg_i64 (pb_Value b)))
  end.

(** The buckets of the target and the active booking the delegation replaces;
    nothing before [FixAuditChangesV6]. *)
Definition replacedBooking (validator encodedBucketID : string) : KAM (option PeerData * option PeerBucket) :=
  if negb (fc FixAuditChangesV6) then mret (None, None)
  else
    pd ← getValidatorBuckets validator;
    match pd_Buckets pd !! encodedBucketID with
    | None => mret (Some pd, None)
    | Some b => if negb (UndelegatedEpoch b =? DefaultUndelegatedEpoch) then mret (Some pd, None)
                else mret (Some pd, Some b)
    end.

(** [replaced.GetValue()] of a nil booking is 0. *)
Definition acceptsDelegation (val : ValidatorData) (validator sender : string) (amount : Z)
    (replaced : option PeerBucket) : bool :=
  if str_eqb sender validator || str_eqb sender (vd_OwnerAddress val) then true
  else if negb (vd_CanDelegate val) then false
  else (MaxDelegation val =? 0) ||
       (TotalStake val -! from_option pb_Value 0 replaced +! amount <=? MaxDelegation val).

Definition delegate (validator encodedBucketID : string) (booking : PeerBucket) (pd : option PeerData)
    (replaced : option PeerBucket) : KAM unit :=
  val ← getValidator validator;
  pd ← match pd with Some pd => mret pd | None => getValidatorBuckets validator end;
  _ ← reject_if (fc EpochRewardsV2 && negb (bool_decide (is_Some (pd_Buckets pd !! encodedBucketID)))
                 && (MaxBucketsPerValidator <=? Z.of_nat (size (pd_Buckets pd)))) ErrValidatorMaxDelegatorsReached;
  let val := match replaced with
             | Some r => addStake val validator (pb_Address r) (neg_i64 (pb_Value r))
             | None => val
             end in
  _ ← setValidatorBuckets validator {| pd_Buckets := <[encodedBucketID := booking]> (pd_Buckets pd) |};
  setValidator validator (addStake val validator (pb_Address booking) (pb_Value booking)).

(** *** Rewards waiting to be claimed *)

Definition getPendingRewards (address : string) : KAM Z := fun a =>
  let data := storage a (pendingRewardsKey address) in
  (a, if slen data =? 0 then Ok 0
      else if negb (slen data =? 8) then Err ErrInvalidValue
      else Ok (wrap_i64 (BigEndian_Uint64 data))).

Definition setPendingRewards (address : string) (amount : Z) : KAM unit :=
  _ ← reject_if (amount <? 0) ErrInvalidValue;
  if amount =? 0 then SetStorage (pendingRewardsKey address) EmptyString
  else SetStorage (pendingRewardsKey address) (be_bytes amount).

Definition addToPendingRewards (address : string) (amount : Z) : KAM unit :=
  if amount =? 0 then mret tt
  else
    current ← getPendingRewards address;
    setPendingRewards address (current +! amount).
End account.

(** ** Handlers *)

(** The context of a contract with what registration adds: the nonce of the
    block, the rating of a new validator, the check of a BLS public key and the
    verification of a BLS signature (packages [crypto/signing] and
    [kvm/crypto/signing/bls] over a pairing library). *)
Record validatorEnv : Type := {
  ve_env :> proposalEnv;
  ve_nonce : Z;
  ve_StartRating : Z;
  ve_CheckPublicKeyValid : string -> bool;
  ve_VerifyBLS : string -> string -> string -> bool;
}.

Section handlers.
Context `{TO : TrieOps} `{UA : AccountsAdapter userAccount} `{KA : AccountsAdapter kappAccount}
  `{PA : AccountsAdapter peerAccount} `{CU : Marshalizer UserKDA}
  {CV : Marshalizer ValidatorData} {CB : Marshalizer PeerData}.
Variable env : validatorEnv.

Abbreviation WM := (M (world peerAccount) error).
Abbreviation KM := (M (world peerAccount) (txResultCode * error)).
Abbreviation fc := (env_fc env).

Definition getKApp : WM nat := on_cache (LoadKApp ValidatorsKAppAddress).
Definition saveKApp (app : nat) : WM unit := on_cache (UpdateKapp app).
Definition loadPeerAccount (pubkey : string) : WM nat := on_cache (LoadPeer pubkey).
(** Reading from and assigning to a peer account. *)
Definition peer_get {B} (l : nat) (f : peerAccount -> B) : WM B := on_peer l (a ← get; mret (f a)).
Definition peer_set (l : nat) (f : peerAccount -> peerAccount) : WM unit := on_peer l (modify f).

(** *** Keys *)

Definition validateBLSPublicKey (blsPubKey : string) : res error unit :=
  if negb (fc FixAuditChangesV3) then Ok tt
  else if ve_CheckPublicKeyValid env blsPubKey then Ok tt else Err ErrInvalidBLSPublicKey.

Definition verifyBLSKeyProof (owner blsPubKey sig : string) : res error unit :=
  if negb (fc FixAuditChangesV6) then Ok tt
  else if ve_nonce env =? 0 then Ok tt
  else if slen sig =? 0 then Err ErrInvalidBLSKeyProof
  else if ve_VerifyBLS env blsPubKey (BLSKeyProofMessage owner blsPubKey) sig then Ok tt
  else Err ErrInvalidBLSKeyProof.

(** *** Contract checks *)

Definition validateCommissionAndDelegation (cfg : ValidatorConfig) : KM unit :=
  _ ← refuse_if env (HundredPercent <? vcf_Commission cfg) ErrFieldInvalidCommission
        Transaction_CommissionTooHigh ErrInvalidValue;
  refuse_if env (vcf_MaxDelegationAmount cfg <? 0) ErrFieldInvalidDelegation
    Transaction_DelegationAmountInvalid ErrInvalidValue.

(** Every URI that fails is refused the same way, so the order of the visit
    does not show. *)
Definition uri_ok (kv : string * string) : bool :=
  utf8_Valid kv.1 && utf8_Valid kv.2 && (slen kv.1 <=? MaxURIKeySize) && (slen kv.2 <=? MaxURIValueSize).
Definition validateValidatorMetadata (cfg : ValidatorConfig) : KM unit :=
  _ ← refuse_if env (negb (utf8_Valid (vcf_Logo cfg)) || (MaxLogoURISize <? slen (vcf_Logo cfg)))
        ErrFieldInvalidLogo Transaction_ParameterInvalid ErrInvalidValue;
  _ ← refuse_if env (MaxURIMapSize <? Z.of_nat (size (vcf_URIs cfg)))
        ErrFieldURICountExceeded Transaction_ParameterInvalid ErrInvalidValue;
  _ ← refuse_if env (negb (forallb uri_ok (map_to_list (vcf_URIs cfg))))
        ErrFieldInvalidURI Transaction_ParameterInvalid ErrInvalidValue;
  refuse_if env (negb (utf8_Valid (vcf_Name cfg)) || (MaxNameSize <? slen (vcf_Name cfg)))
    ErrFieldInvalidName Transaction_ParameterInvalid ErrInvalidValue.

Definition validateRegisterContract (sender : string) (tc : CreateValidatorContract) : KM unit :=
  let owner := cv_OwnerAddress tc in
  let cfg := cv_Config tc in
  _ ← refuse_if env (negb (slen owner =? env_pubkeyLen env)) ErrFieldInvalidOwnerAddress
        Transaction_AccountError ErrInvalidRcvAddr;
  _ ← refuse_if env (fc FixAuditChangesV6 && negb (ve_nonce env =? 0) && negb (str_eqb sender owner))
        ErrFieldInvalidOwnerAddress Transaction_AccountError ErrValidatorOwnerNotSender;
  _ ← refuse_if env (negb (slen (vcf_RewardAddress cfg) =? env_pubkeyLen env)) ErrFieldInvalidRewardAddress
        Transaction_AccountError ErrInvalidRcvAddr;
  _ ← validateCommissionAndDelegation cfg;
  _ ← validateValidatorMetadata cfg;
  or_refuse env ErrFieldInvalidBLSKey Transaction_ParameterInvalid
    (lift (validateBLSPublicKey (vcf_BLSPublicKey cfg))).

(** *** Registration *)

Definition claimPeerAccount (owner blsPubKey proof : string) : KM nat :=
  peerAcc ← or_code Transaction_AccountError (loadPeerAccount blsPubKey);
  pa ← or_code Transaction_AccountError (peer_get peerAcc id);
  _ ← refuse_if env (0 <? slen (pa_OwnerAddress pa)) ErrFieldBLSKeyAlreadyUsed
        Transaction_AccountError ErrAccountValidatorSet;
  _ ← refuse_if env (fc FixStakingBuckets && Revoked pa) ErrFieldBLSKeyRevoked
        Transaction_AccountError ErrAccountValidatorSet;
  _ ← or_refuse env ErrFieldInvalidBLSKeyProof Transaction_AccountError
        (lift (verifyBLSKeyProof owner blsPubKey proof));
  _ ← or_code Transaction_AccountError (on_peer peerAcc (SetOwnerAddress owner));
  _ ← or_code Transaction_AccountError (on_peer peerAcc (SetBLSPublicKey blsPubKey));
  _ ← or_code Transaction_Fail (on_cache (UpdatePeer peerAcc));
  mret peerAcc.

Definition newValidator (tc : CreateValidatorContract) : ValidatorData :=
  let cfg := cv_Config tc in
  {| vd_OwnerAddress := cv_OwnerAddress tc; RewardsAddress := vcf_RewardAddress cfg;
     RegisterNonce := ve_nonce env; SelfStaked := false; SelfStake := 0; TotalStake := 0;
     BlsPubKey := vcf_BLSPublicKey cfg; JailedEpoch := MaxUint32; Jailed := false; Waiting := false;
     NumJailed := 0; TotalSlash := 0; vd_CanDelegate := vcf_CanDelegate cfg;
     MaxDelegation := vcf_MaxDelegationAmount cfg; vd_Commission := vcf_Commission cfg; TotalRewards := 0;
     vd_Name := vcf_Name cfg; vd_Logo := vcf_Logo cfg; vd_URIs := vcf_URIs cfg |}.

Definition validator_receipt (owner : string) : receipt :=
  NewReceipt Receipt_UpdateValidator (env_contractID env) [owner].

Definition Register (sender : string) (tc : CreateValidatorContract) : KM unit :=
  let owner := cv_OwnerAddress tc in
  let cfg := cv_Config tc in
  _ ← validateRegisterContract sender tc;
  app ← or_code Transaction_AccountError getKApp;
  data ← or_code Transaction_AccountError (on_kapp app (a ← get; mret (storage a (validatorKey owner))));
  _ ← refuse_if env (0 <? slen data) ErrFieldValidatorAlreadySet Transaction_AccountError ErrAccountValidatorSet;
  peerAcc ← claimPeerAccount owner (vcf_BLSPublicKey cfg) (vcf_BLSSignature cfg);
  let list := if ve_nonce env =? 0 then List_elected else List_inactive in
  _ ← or_code Transaction_Fail (peer_set peerAcc (SetListAndIndex list (SafeU64ToU32 (ve_nonce env))));
  _ ← or_code Transaction_Fail (peer_set peerAcc (SetRating (ve_StartRating env)));
  _ ← or_code Transaction_Fail (peer_set peerAcc (SetTempRating (ve_StartRating env)));
  _ ← or_code Transaction_Fail (on_cache (UpdatePeer peerAcc));
  _ ← or_code Transaction_Fail (on_kapp app (setValidator owner (newValidator tc)));
  _ ← or_code Transaction_Fail (saveKApp app);
  Receipts_Add (validator_receipt owner).

(** *** Key rotation and configuration *)

Definition revokePeerAccount (pubkey : string) : WM nat :=
  peerAccOld ← loadPeerAccount pubkey;
  _ ← peer_set peerAccOld SetRevoked;
  _ ← on_cache (UpdatePeer peerAccOld);
  mret peerAccOld.

Definition checkRotationTarget (sender : string) (peerAcc : nat) : KM unit :=
  pa ← or_code Transaction_InvalidPeerKey (peer_get peerAcc id);
  _ ← refuse_if env (Revoked pa) ErrFieldBLSKeyRevoked Transaction_InvalidPeerKey ErrBLSKeyRevoked;
  refuse_if env ((0 <? slen (pa_OwnerAddress pa)) && negb (str_eqb sender (pa_OwnerAddress pa)))
    ErrFieldBLSKeyNotOwned Transaction_InvalidPeerKey ErrAccountValidatorNotOwner.

Definition loadAndCheckRotationTarget (sender newKey : string) : KM unit :=
  peerAcc ← or_code Transaction_InvalidPeerKey (loadPeerAccount newKey);
  checkRotationTarget sender peerAcc.

Definition initRotatedPeerAccount (peerAcc peerAccOld : nat) (newKey : string) : WM unit :=
  bls ← peer_get peerAcc BLSPublicKey;
  if str_eqb bls newKey then mret tt
  else
    _ ← on_peer peerAcc (SetBLSPublicKey newKey);
    if negb (fc FixStakingBuckets) then mret tt
    else
      old ← peer_get peerAccOld id;
      _ ← peer_set peerAcc (CopyFrom old);
      _ ← (if fc FixAuditChangesV7 then
             _ ← peer_set peerAccOld ClearEpochAccounting;
             on_cache (UpdatePeer peerAccOld)
           else mret tt);
      list ← peer_get peerAcc List;
      if bool_decide (list = List_elected) then
        _ ← peer_set peerAcc (SetRating 0);
        _ ← peer_set peerAcc (SetTempRating 0);
        peer_set peerAcc (SetList List_jailed)
      else mret tt.

(** [val.BlsPubKey = newKey]. *)
Definition set_BlsPubKey (v : ValidatorData) (key : string) : ValidatorData :=
  set_config v key (RewardsAddress v) (vd_CanDelegate v) (MaxDelegation v) (vd_Commission v) (vd_Name v)
    (vd_Logo v) (vd_URIs v).

Definition rotateBLSKey (sender : string) (val : ValidatorData) (cfg : ValidatorConfig) : KM ValidatorData :=
  let newKey := vcf_BLSPublicKey cfg in
  _ ← or_refuse env ErrFieldInvalidBLSKey Transaction_InvalidPeerKey (lift (validateBLSPublicKey newKey));
  let checkTargetFirst := fc FixAuditChangesV6 in
  _ ← (if checkTargetFirst then loadAndCheckRotationTarget sender newKey else mret tt);
  _ ← or_refuse env ErrFieldInvalidBLSKeyProof Transaction_InvalidPeerKey
        (lift (verifyBLSKeyProof sender newKey (vcf_BLSSignature cfg)));
  peerAccOld ← or_code Transaction_InvalidPeerKey (revokePeerAccount (BlsPubKey val));
  peerAcc ← or_code Transaction_InvalidPeerKey (loadPeerAccount newKey);
  _ ← or_code Transaction_InvalidPeerKey (initRotatedPeerAccount peerAcc peerAccOld newKey);
  _ ← (if checkTargetFirst then mret tt else checkRotationTarget sender peerAcc);
  _ ← or_code Transaction_InvalidPeerKey (on_peer peerAcc (SetOwnerAddress sender));
  _ ← or_code Transaction_Fail (on_cache (UpdatePeer peerAcc));
  mret (set_BlsPubKey val newKey).

Definition rotateKeyAndCheckMetadata (sender : string) (val : ValidatorData) (cfg : ValidatorConfig)
  : KM ValidatorData :=
  let metadataFirst := fc FixAuditChangesV6 in
  _ ← (if metadataFirst then validateValidatorMetadata cfg else mret tt);
  val ← (if (0 <? slen (vcf_BLSPublicKey cfg)) && negb (str_eqb (BlsPubKey val) (vcf_BLSPublicKey cfg))
         then rotateBLSKey sender val cfg else mret val);
  _ ← (if metadataFirst then mret tt else validateValidatorMetadata cfg);
  mret val.

Definition or_keep (new old : string) : string := if 0 <? slen new then new else old.
Definition applyValidatorConfig (val : ValidatorData) (cfg : ValidatorConfig) : ValidatorData :=
  set_config val (BlsPubKey val) (or_keep (vcf_RewardAddress cfg) (RewardsAddress val))
    (vcf_CanDelegate cfg) (vcf_MaxDelegationAmount cfg) (vcf_Commission cfg)
    (or_keep (vcf_Name cfg) (vd_Name val)) (or_keep (vcf_Logo cfg) (vd_Logo val))
    (if (0 <? size (vcf_URIs cfg))%nat then vcf_URIs cfg else vd_URIs val).

Definition UpdateValidator (sender : string) (tc : ValidatorConfigContract) : KM unit :=
  let cfg := vcc_Config tc in
  let reward := slen (vcf_RewardAddress cfg) in
  _ ← refuse_if env (negb (reward =? 0) && negb (reward =? env_pubkeyLen env)) ErrFieldInvalidRewardAddress
        Transaction_AccountError ErrInvalidRcvAddr;
  _ ← validateCommissionAndDelegation cfg;
  app ← or_code Transaction_AccountError getKApp;
  val ← or_refuse env ErrFieldValidatorNotFound Transaction_AccountError (on_kapp app (getValidator sender));
  val ← rotateKeyAndCheckMetadata sender val cfg;
  _ ← or_code Transaction_Fail (on_kapp app (setValidator sender (applyValidatorConfig val cfg)));
  _ ← or_code Transaction_Fail (saveKApp app);
  Receipts_Add (validator_receipt sender).

Definition Unjail (sender : string) : KM unit :=
  app ← or_code Transaction_Fail getKApp;
  val ← or_refuse env ErrFieldValidatorNotFound Transaction_Fail (on_kapp app (getValidator sender));
  peerAcc ← or_code Transaction_AccountError (loadPeerAccount (BlsPubKey val));
  list ← or_code Transaction_AccountError (peer_get peerAcc List);
  _ ← refuse_if env (negb (bool_decide (list = List_jailed))) ErrFieldUnjailNotAvailable
        Transaction_AccountError ErrInvalidPeerList;
  _ ← or_code Transaction_Fail (peer_set peerAcc (SetRating (ve_StartRating env)));
  _ ← or_code Transaction_Fail (peer_set peerAcc (SetTempRating (ve_StartRating env)));
  _ ← or_code Transaction_Fail (peer_set peerAcc (SetListAndIndex List_waiting (SafeU64ToU32 (ve_nonce env))));
  _ ← or_code Transaction_Fail (on_cache (UpdatePeer peerAcc));
  Receipts_Add (validator_receipt sender).

(** *** Delegating a bucket *)

(** The validators whose stake changed, which the callers ignore on an error. *)
Definition Delegate (sender : string) (blockTime blockEpoch : Z) (tc : DelegateContract) : KM (list string) :=
  app ← or_code Transaction_AccountError getKApp;
  senderAcc ← or_code Transaction_AccountError (on_cache (GetExistingUser sender));
  val ← or_code Transaction_AccountError (on_kapp app (getValidator (dc_ToAddress tc)));
  buckets ← or_code Transaction_AccountError
              (on_user senderAcc (a ← get; mret (GetBuckets a None (fc EnableSmartContracts))));
  let encodedBucketID := EncodeToString (dc_BucketID tc) in
  match default ∅ buckets !! encodedBucketID with
  | None => fail (Transaction_BucketIDInvalid, ErrInvalidValue)
  | Some bucket =>
      _ ← reject_if (negb (UnstakedEpoch bucket =? DefaultUnstakedEpoch))
            (Transaction_BucketIDInvalid, ErrInvalidValue);
      let currentDelegation := bytes_of (Delegation bucket) in
      _ ← reject_if (str_eqb (dc_ToAddress tc) currentDelegation) (Transaction_BucketIDInvalid, ErrInvalidValue);
      let amountDelegation := bucket_Value bucket in
      pr ← or_code Transaction_AccountError (on_kapp app (replacedBooking fc (dc_ToAddress tc) encodedBucketID));
      let '(pd, replaced) := pr in
      _ ← reject_if (negb (acceptsDelegation val (dc_ToAddress tc) sender amountDelegation replaced))
            (Transaction_MaxDelegationAmount, ErrInvalidValue);
      update ← (if 0 <? slen currentDelegation then
                  _ ← or_code Transaction_AccountError
                        (on_kapp app (undelegate fc blockEpoch currentDelegation sender (dc_BucketID tc)));
                  mret [currentDelegation]
                else mret []);
      let booking := {| DelegatedAt := blockTime; DelegatedEpoch := blockEpoch;
                        UndelegatedEpoch := DefaultUndelegatedEpoch; pb_Value := amountDelegation;
                        pb_Address := sender |} in
      _ ← or_code Transaction_AccountError
            (on_kapp app (delegate fc (dc_ToAddress tc) encodedBucketID booking pd replaced));
      _ ← or_code Transaction_Fail (saveKApp app);
      mret (update ++ [dc_ToAddress tc])
  end.

Definition Undelegate (blockEpoch : Z) (validator sender : string) (tc : UndelegateContract) : KM unit :=
  app ← or_code Transaction_Fail getKApp;
  _ ← or_code Transaction_Fail (on_kapp app (undelegate fc blockEpoch validator sender (uc_BucketID tc)));
  or_code Transaction_Fail (saveKApp app).

(** *** Claiming *)

Definition ClaimPendingRewards (address : string) : WM Z :=
  app ← getKApp;
  pendingAmount ← on_kapp app (getPendingRewards address);
  if pendingAmount =? 0 then mret 0
  else
    _ ← on_kapp app (setPendingRewards address 0);
    _ ← saveKApp app;
    mret pendingAmount.
End handlers.
