(* ===== verification/PeersUpdate.v ===== *)
(** * What blocks and epochs do to validators

    [core/kapp/validators/peersUpdate.go] with the helpers it calls in
    [validators.go]: the fees, counters and ratings of the members of a
    consensus group after a block, the penalties for missed slots, and the end
    of an epoch, when the fees of a validator are divided among its delegators. *)

From S2P Require Import Prelude Common Strconv GoStd Forks Tools Permissions KdaUtils KdaData DataTrie UserAccount.
From S2P Require Import AccountsCache Staking World KdaKapp NetParams Proposals Rating Validators.
From Stdlib Require Import SpecFloat.
Local Open Scope Z_scope.

(** ** [state.ValidatorInfo] *)

Record validatorInfo : Type := {
  in_OwnerAddress : string; in_PublicKey : string; in_List : string; in_Index : Z;
  in_TempRating : Z; in_Rating : Z; in_LeaderSuccess : Z; in_LeaderFailure : Z; in_ValidatorSuccess : Z;
  in_ValidatorFailure : Z; in_ValidatorIgnoredSignatures : Z; in_TotalLeaderSuccess : Z;
  in_TotalLeaderFailure : Z; in_TotalValidatorSuccess : Z; in_TotalValidatorFailure : Z;
  in_TotalValidatorIgnoredSignatures : Z; in_NumSelectedInSuccessBlocks : Z; in_IsPubKeyRevoked : bool;
}.

Definition List_String (l : PeerList) : string :=
  match l with
  | List_inactive => "inactive" | List_observer => "observer" | List_waiting => "waiting"
  | List_eligible => "eligible" | List_elected => "elected" | List_leaving => "leaving"
  | List_jailed => "jailed"
  end.
(** [List_value[s]]; an unknown name reads as 0, inactive. *)
Definition List_value (s : string) : PeerList :=
  default List_inactive
    (snd <$> list_find (fun l => List_String l = s)
       [List_inactive; List_observer; List_waiting; List_eligible; List_elected; List_leaving; List_jailed]).

Definition WasActiveInCurrentEpoch (i : validatorInfo) : bool :=
  (0 <? in_LeaderFailure i) || (0 <? in_LeaderSuccess i) || (0 <? in_ValidatorSuccess i) ||
  (0 <? in_ValidatorFailure i).
Definition WasLeavingElectedInCurrentEpoch (i : validatorInfo) : bool :=
  str_eqb (in_List i) "leaving" && WasActiveInCurrentEpoch i.

Definition PeerAccountToValidatorInfo (pubkey : string) (revoked : bool) (a : peerAccount) : validatorInfo :=
  {| in_OwnerAddress := pa_OwnerAddress a; in_PublicKey := pubkey; in_List := List_String (List a);
     in_Index := 0; in_TempRating := TempRating a; in_Rating := Rating a;
     in_LeaderSuccess := NumSuccess (LeaderSuccessRate a); in_LeaderFailure := NumFailure (LeaderSuccessRate a);
     in_ValidatorSuccess := NumSuccess (ValidatorSuccessRate a);
     in_ValidatorFailure := NumFailure (ValidatorSuccessRate a);
     in_ValidatorIgnoredSignatures := ValidatorIgnoredSignaturesRate a;
     in_TotalLeaderSuccess := NumSuccess (TotalLeaderSuccessRate a);
     in_TotalLeaderFailure := NumFailure (TotalLeaderSuccessRate a);
     in_TotalValidatorSuccess := NumSuccess (TotalValidatorSuccessRate a);
     in_TotalValidatorFailure := NumFailure (TotalValidatorSuccessRate a);
     in_TotalValidatorIgnoredSignatures := TotalValidatorIgnoredSignaturesRate a;
     in_NumSelectedInSuccessBlocks := NumSelectedInSuccessBlocks a; in_IsPubKeyRevoked := revoked |}.

(** [validator.TempRating = r]. *)
Definition set_in_TempRating (i : validatorInfo) (r : Z) : validatorInfo :=
  {| in_OwnerAddress := in_OwnerAddress i; in_PublicKey := in_PublicKey i; in_List := in_List i;
     in_Index := in_Index i; in_TempRating := r; in_Rating := in_Rating i;
     in_LeaderSuccess := in_LeaderSuccess i; in_LeaderFailure := in_LeaderFailure i;
     in_ValidatorSuccess := in_ValidatorSuccess i; in_ValidatorFailure := in_ValidatorFailure i;
     in_ValidatorIgnoredSignatures := in_ValidatorIgnoredSignatures i;
     in_TotalLeaderSuccess := in_TotalLeaderSuccess i; in_TotalLeaderFailure := in_TotalLeaderFailure i;
     in_TotalValidatorSuccess := in_TotalValidatorSuccess i;
     in_TotalValidatorFailure := in_TotalValidatorFailure i;
     in_TotalValidatorIgnoredSignatures := in_TotalValidatorIgnoredSignatures i;
     in_NumSelectedInSuccessBlocks := in_NumSelectedInSuccessBlocks i;
     in_IsPubKeyRevoked := in_IsPubKeyRevoked i |}.

(** ** Arithmetic *)

Definition ceilDivUint64 (numerator denominator : Z) : Z :=
  let quotient := numerator / denominator in
  if negb (numerator mod denominator =? 0) then wrap_u64 (quotient + 1) else quotient.

(** [math.SmallestNonzeroFloat64]. *)
Definition SmallestNonzeroFloat64 : spec_float := S754_finite false 1 (-1074).
Definition f64_add (x y : spec_float) : spec_float := SFadd 53 f64_emax x y.
Definition f64_sub (x y : spec_float) : spec_float := SFsub 53 f64_emax x y.

Definition computeDecreaseAllAppearances (oob : spec_float -> Z) (v6 : bool)
    (missedSlots validatorsCount consensusGroupSizeValidators : Z) : Z * Z :=
  if negb v6 then
    let percentage := f64_div (f64_of_Z missedSlots) (f64_of_Z validatorsCount) in
    let round_up x := float_to_u32 oob (f64_sub (f64_add x (f64_of_Z 1)) SmallestNonzeroFloat64) in
    (round_up percentage, round_up (f64_mul (f64_of_Z consensusGroupSizeValidators) percentage))
  else if validatorsCount <=? 0 then (0, 0)
  else
    let leaderAppearances := SafeU64ToU32 (ceilDivUint64 missedSlots validatorsCount) in
    if consensusGroupSizeValidators <=? 0 then (leaderAppearances, 0)
    else if MaxUint64 / consensusGroupSizeValidators <? missedSlots then (leaderAppearances, MaxUint32)
    else (leaderAppearances,
          SafeU64ToU32 (ceilDivUint64 (wrap_u64 (consensusGroupSizeValidators * missedSlots)) validatorsCount)).

(** [share / numValidators] panics for no validator. *)
Definition splitAccumulatedFees (oob : spec_float -> Z) (accumulatedFees validatorPercent numValidators : Z)
  : res error (Z * Z) :=
  share ← ComputePercentageI64 oob accumulatedFees validatorPercent true;
  if numValidators =? 0 then Err GoPanic
  else
    let validatorFees := wrap_i64 (Z.quot share numValidators) in
    Ok (accumulatedFees -! wrap_i64 (validatorFees * numValidators), validatorFees).

(** [big.Int.Div] is Euclidean; a zero divisor panics. *)
Definition big_Div (x y : Z) : res error Z :=
  if y =? 0 then Err GoPanic
  else if 0 <? y then Ok (x / y) else Ok (- (x / (- y))).

Definition calculateUserShareV2 (totalRemainingFees amount totalDelegated : Z) : res error Z :=
  result ← big_Div (totalRemainingFees * amount) totalDelegated;
  Ok (wrap_i64 result).

(** The bit of a member in the signing bitmap; out of range panics. *)
Definition has_signed (signingBitmap : string) (i : nat) : res error bool :=
  match String.get (i / 8) signingBitmap with
  | None => Err GoPanic
  | Some b => Ok (negb (Z.land (ascii_Z b) (Z.shiftl 1 (Z.of_nat (i mod 8))) =? 0))
  end.
Fixpoint count_signed (signingBitmap : string) (n i : nat) (total : Z) : res error Z :=
  match n with
  | O => Ok total
  | S n' =>
      haveSigned ← has_signed signingBitmap i;
      count_signed signingBitmap n' (S i) (if haveSigned : bool then total + 1 else total)
  end.

Inductive validatorActionType : Type := leaderSuccess | leaderFail | validatorSuccess | validatorIgnoredSignature.
Definition computeValidatorActionType (isLeader validatorSigned : bool) : validatorActionType :=
  match isLeader, validatorSigned with
  | true, true => leaderSuccess
  | true, false => leaderFail
  | false, true => validatorSuccess
  | false, false => validatorIgnoredSignature
  end.

(** ** Delegation rewards *)

(** What a validator's buckets amount to at the end of an epoch. *)
Record bucketProcessingResult : Type := {
  accumulatedDelegations : gmap string Z; totalDelegated : Z; totalUnDelegated : Z;
}.
Definition noBuckets : bucketProcessingResult :=
  {| accumulatedDelegations := ∅; totalDelegated := 0; totalUnDelegated := 0 |}.
Definition add_delegated (r : bucketProcessingResult) (b : PeerBucket) : bucketProcessingResult :=
  {| accumulatedDelegations := map_add (accumulatedDelegations r) (pb_Address b) (pb_Value b);
     totalDelegated := totalDelegated r +! pb_Value b; totalUnDelegated := totalUnDelegated r |}.
Definition add_undelegated (r : bucketProcessingResult) (b : PeerBucket) : bucketProcessingResult :=
  {| accumulatedDelegations := accumulatedDelegations r; totalDelegated := totalDelegated r;
     totalUnDelegated := totalUnDelegated r +! pb_Value b |}.

Section rewards.
Variable fc : ForkController.
Variable oob : spec_float -> Z.
(** The order in which [range] visits a map. *)
Variable range_buckets : gmap string PeerBucket -> list (string * PeerBucket).
Variable range_amounts : gmap string Z -> list (string * Z).

Definition processSingleBucketV1 (r : bucketProcessingResult) (b : PeerBucket) (delegatedEpoch currentEpoch : Z)
  : bucketProcessingResult :=
  if (DelegatedEpoch b =? 0) || (delegatedEpoch <? currentEpoch) then add_delegated r b else r.

(** The loops delete the current entry, or collect it to delete it later:
    every bucket is visited once. *)
Definition bucketV1 (currentEpoch : Z) (acc : bucketProcessingResult * gmap string PeerBucket)
    (kb : string * PeerBucket) : bucketProcessingResult * gmap string PeerBucket :=
  let '(r, buckets) := acc in
  let '(key, b) := kb in
  if fc FixDelegationSameEpoch && (UndelegatedEpoch b <=? currentEpoch)
  then (add_undelegated r b, delete key buckets)
  else
    let delegatedEpoch := if fc FixDelegationSameEpoch then wrap_u32 (DelegatedEpoch b + 1)
                          else DelegatedEpoch b in
    let r := processSingleBucketV1 r b delegatedEpoch currentEpoch in
    if UndelegatedEpoch b <=? currentEpoch then (add_undelegated r b, delete key buckets) else (r, buckets).
Definition processBucketDelegationsV1 (pd : PeerData) (currentEpoch : Z) : bucketProcessingResult * PeerData :=
  let '(r, buckets) := fold_left (bucketV1 currentEpoch) (range_buckets (pd_Buckets pd))
                         (noBuckets, pd_Buckets pd) in
  (r, {| pd_Buckets := buckets |}).

Definition bucketV2 (currentEpoch : Z) (acc : bucketProcessingResult * list string) (kb : string * PeerBucket)
  : bucketProcessingResult * list string :=
  let '(r, keysToDelete) := acc in
  let '(key, b) := kb in
  if fc FixDelegationSameEpoch && (UndelegatedEpoch b <=? currentEpoch)
  then (add_undelegated r b, keysToDelete ++ [key])
  else
    let delegatedEpoch := if fc FixDelegationSameEpoch then wrap_u32 (DelegatedEpoch b + 1)
                          else DelegatedEpoch b in
    if (DelegatedEpoch b =? 0) || (delegatedEpoch <? currentEpoch)
    then (add_delegated r b, keysToDelete) else (r, keysToDelete).
Definition processBucketDelegationsV2 (pd : PeerData) (currentEpoch : Z) : bucketProcessingResult * list string :=
  fold_left (bucketV2 currentEpoch) (range_buckets (pd_Buckets pd)) (noBuckets, []).

(** The shares of the delegators, taken from what is left of the fees. *)
Definition shareV1 (accumulatedFeesFloat : spec_float) (total : Z) (acc : gmap string Z * Z) (aa : string * Z)
  : gmap string Z * Z :=
  let '(totals, remainingFees) := acc in
  let '(address, amount) := aa in
  let userShare := f64_to_i64 oob (f64_mul accumulatedFeesFloat (f64_div (f64_of_Z amount) (f64_of_Z total))) in
  (map_add totals address userShare, remainingFees -! userShare).
Definition calculateDelegationRewardsV1 (val : ValidatorData) (accumulatedFees : Z) (r : bucketProcessingResult)
    (totals : gmap string Z) : gmap string Z :=
  let validatorCommission := f64_div (f64_of_Z (vd_Commission val)) (f64_of_Z HundredPercent) in
  let commissionAmount := f64_to_i64 oob (f64_mul (f64_of_Z accumulatedFees) validatorCommission) in
  let totals := map_add totals (RewardsAddress val) commissionAmount in
  let remainingFees := accumulatedFees -! commissionAmount in
  let '(totals, remainingFees) :=
    fold_left (shareV1 (f64_of_Z remainingFees) (totalDelegated r)) (range_amounts (accumulatedDelegations r))
      (totals, remainingFees) in
  if negb (remainingFees =? 0) && fc EnableSmartContracts
  then map_add totals (RewardsAddress val) remainingFees else totals.

Fixpoint sharesV2 (totalRemainingFees total : Z) (amounts : list (string * Z)) (local : gmap string Z)
    (remainingFees : Z) : res error (gmap string Z * Z) :=
  match amounts with
  | [] => Ok (local, remainingFees)
  | (address, amount) :: rest =>
      userShare ← calculateUserShareV2 totalRemainingFees amount total;
      let userShare := Z.min userShare remainingFees in
      sharesV2 totalRemainingFees total rest (map_add local address userShare) (remainingFees -! userShare)
  end.
Definition calculateDelegationRewardsV2 (val : ValidatorData) (accumulatedFees : Z) (r : bucketProcessingResult)
  : res error (gmap string Z) :=
  let commissionAmount := wrap_i64 (Z.quot (accumulatedFees * vd_Commission val) HundredPercent) in
  let local := {[RewardsAddress val := commissionAmount]} in
  let remainingFees := accumulatedFees -! commissionAmount in
  out ← sharesV2 remainingFees (totalDelegated r) (range_amounts (accumulatedDelegations r)) local remainingFees;
  let '(local, remainingFees) := out in
  Ok (if negb (remainingFees =? 0) && fc EnableSmartContracts
      then map_add local (RewardsAddress val) remainingFees else local).

(** [for a, amount := range from { to[a] += amount }]. *)
Definition add_all (to from : gmap string Z) : gmap string Z :=
  fold_left (fun m kv => map_add m kv.1 kv.2) (range_amounts from) to.
End rewards.

(** *** Status *)

Definition updateValidatorJailStatus (val : ValidatorData) (list : PeerList) (currentEpoch : Z) : ValidatorData :=
  let val := if Jailed val && negb (bool_decide (list = List_jailed))
             then set_status val (SelfStaked val) MaxUint32 false (Waiting val) (NumJailed val) (TotalRewards val)
             else val in
  if negb (Jailed val) && bool_decide (list = List_jailed)
  then set_status val (SelfStaked val) currentEpoch true (Waiting val) (wrap_u32 (NumJailed val + 1)) (TotalRewards val)
  else val.

Definition updatePeerListStatus (val : ValidatorData) (minSelfDelegated minTotalDelegated totalDelegated : Z)
    (a : peerAccount) : peerAccount :=
  if Jailed val then a
  else if SelfStake val <? minSelfDelegated then SetList List_inactive a
  else if totalDelegated <? minTotalDelegated then SetList List_waiting a
  else if negb (bool_decide (List a = List_elected)) then SetList List_eligible a
  else a.

Definition set_SelfStaked (v : ValidatorData) (b : bool) : ValidatorData :=
  set_status v b (JailedEpoch v) (Jailed v) (Waiting v) (NumJailed v) (TotalRewards v).

(** ** Operations *)

(** A contract's context with the rater, which is nil until it is set, and the
    platform's conversions of values out of range. *)
Record updateEnv : Type := {
  ue_env :> validatorEnv;
  ue_rater : option BlockSigningRater;
  (** Whether the application has its proposal controller; [pe_live] is read
      through it. *)
  ue_controller : bool;
  ue_oob : spec_float -> Z;
}.

(** [kapp.RateChange]. *)
Record RateChange : Type := { rc_Leader : Z; rc_Validator : Z }.

Section operations.
Context `{TO : TrieOps} `{UA : AccountsAdapter userAccount} `{KA : AccountsAdapter kappAccount}
  `{PA : AccountsAdapter peerAccount} `{CU : Marshalizer UserKDA} `{FP : FloatParsers}
  {CV : Marshalizer ValidatorData} {CB : Marshalizer PeerData}.
Variable env : updateEnv.
Variable range_buckets : gmap string PeerBucket -> list (string * PeerBucket).
Variable range_amounts : gmap string Z -> list (string * Z).
Variable range_missed : gmap string RateChange -> list (string * RateChange).

Abbreviation WM := (M (world peerAccount) error).
Abbreviation fc := (env_fc env).

Fixpoint for_each {A} (f : A -> WM unit) (l : list A) : WM unit :=
  match l with
  | [] => mret tt
  | x :: rest => _ ← f x; for_each f rest
  end.

(** A call through a nil rater panics. *)
Definition rater : WM BlockSigningRater :=
  match ue_rater env with Some r => mret r | None => fail GoPanic end.

Definition isValidatorWithLowRating (a : peerAccount) : bool :=
  match ue_rater env with
  | None => false
  | Some r => GetChance r (TempRating a) <? GetChance r 0
  end.
Definition jailValidatorIfBadRating (a : peerAccount) : peerAccount :=
  if isValidatorWithLowRating a then SetListAndIndex List_jailed (pa_Index a) a else a.
Definition setToJailedIfNeeded (validator : validatorInfo) (a : peerAccount) : peerAccount :=
  if str_eqb (in_List validator) "elected" || str_eqb (in_List validator) "eligible" then a
  else if str_eqb (in_List validator) "jailed" && negb (bool_decide (List a = List_jailed))
  then SetListAndIndex List_jailed (in_Index validator) a
  else if isValidatorWithLowRating a then SetListAndIndex List_jailed (in_Index validator) a
  else a.

Definition getPeerAccount (addr : string) (app : nat) : WM nat :=
  val ← on_kapp app (getValidator addr);
  loadPeerAccount (BlsPubKey val).

(** *** Ratings at the end of an epoch *)

(** [float32] division and comparison; the ratings data of the validator are
    updated too. *)
Definition verifySignaturesBelowSignedThreshold (validator : validatorInfo) (signedThreshold : spec_float)
  : WM validatorInfo :=
  let validatorOccurrences :=
    Z.max 1 (wrap_u32 (wrap_u32 (in_ValidatorSuccess validator + in_ValidatorFailure validator) +
                       in_ValidatorIgnoredSignatures validator)) in
  let computedThreshold := f32_div (f32_of_Z (in_ValidatorSuccess validator)) (f32_of_Z validatorOccurrences) in
  if SFleb computedThreshold signedThreshold then
    let increasedRatingTimes :=
      wrap_u32 (in_ValidatorSuccess validator + in_ValidatorIgnoredSignatures validator) in
    r ← rater;
    let newTempRating := RevertIncreaseValidator r (in_TempRating validator) increasedRatingTimes in
    peerAcc ← loadPeerAccount (in_PublicKey validator);
    _ ← peer_set peerAcc (SetTempRating newTempRating);
    _ ← peer_set peerAcc jailValidatorIfBadRating;
    _ ← on_cache (UpdatePeer peerAcc);
    mret (set_in_TempRating validator newTempRating)
  else mret validator.

Fixpoint process_ratings (signedThreshold : spec_float) (validatorInfos : list validatorInfo)
  : WM (list validatorInfo) :=
  match validatorInfos with
  | [] => mret []
  | validator :: rest =>
      v ← (if negb (str_eqb (in_List validator) "elected") && negb (WasLeavingElectedInCurrentEpoch validator)
           then mret validator
           else verifySignaturesBelowSignedThreshold validator signedThreshold);
      vs ← process_ratings signedThreshold rest;
      mret (v :: vs)
  end.
Definition ProcessRatingsEndOfEpoch (validatorInfos : list validatorInfo) : WM (list validatorInfo) :=
  _ ← on_cache SaveAll;
  app ← getKApp;
  r ← rater;
  infos ← process_ratings (signedBlocksThreshold r) validatorInfos;
  _ ← saveKApp app;
  _ ← on_cache SaveAll;
  mret infos.

Fixpoint reset_statistics (vInfos : list validatorInfo) : WM (list validatorInfo) :=
  match vInfos with
  | [] => mret []
  | validator :: rest =>
      if in_IsPubKeyRevoked validator then reset_statistics rest
      else
        peerAcc ← loadPeerAccount (in_PublicKey validator);
        _ ← peer_set peerAcc ResetAtNewEpoch;
        _ ← peer_set peerAcc (setToJailedIfNeeded validator);
        _ ← on_cache (UpdatePeer peerAcc);
        info ← peer_get peerAcc (PeerAccountToValidatorInfo (in_PublicKey validator) (in_IsPubKeyRevoked validator));
        infos ← reset_statistics rest;
        mret (info :: infos)
  end.
Definition ResetValidatorStatisticsAtNewEpoch (vInfos : list validatorInfo) : WM (list validatorInfo) :=
  _ ← on_cache SaveAll;
  updatedList ← reset_statistics vInfos;
  _ ← on_cache SaveAll;
  mret updatedList.

(** *** Missed blocks *)

Definition decreasePeerCounter (app : nat) (addr : string) (slotCounters : RateChange) : WM unit :=
  peerAcc ← getPeerAccount addr app;
  _ ← (if 0 <? rc_Leader slotCounters
       then peer_set peerAcc (DecreaseLeaderSuccessRate (rc_Leader slotCounters)) else mret tt);
  _ ← (if 0 <? rc_Validator slotCounters then
         if fc EnableSmartContracts then peer_set peerAcc (DecreaseValidatorSuccessRate (rc_Validator slotCounters))
         else peer_set peerAcc (DecreaseLeaderSuccessRate (rc_Validator slotCounters))
       else mret tt);
  on_cache (UpdatePeer peerAcc).
Definition UpdateMissedBlocksCounters (mb : gmap string RateChange) : WM unit :=
  _ ← on_cache SaveAll;
  app ← getKApp;
  _ ← for_each (fun kv => decreasePeerCounter app kv.1 kv.2) (range_missed mb);
  on_cache SaveAll.

(** *** Lists of nodes *)

Definition isNodeLeavingConsensus (peerType : string) (a : peerAccount) : bool :=
  (str_eqb peerType "eligible" || str_eqb peerType "elected") && bool_decide (List a = List_waiting).
Definition processValidator (index : nat) (peerType : string) (peerAcc : nat) : WM unit :=
  _ ← peer_set peerAcc (fun a =>
        SetListAndIndex (if isValidatorWithLowRating a then List_jailed else List_value peerType)
          (wrap_u32 (Z.of_nat index)) a);
  on_cache (UpdatePeer peerAcc).
Fixpoint save_updates (app index : nat) (addrs : list string) (peerType : string) : WM bool :=
  match addrs with
  | [] => mret false
  | addr :: rest =>
      peerAcc ← getPeerAccount addr app;
      isNodeLeaving ← peer_get peerAcc (isNodeLeavingConsensus peerType);
      _ ← processValidator index peerType peerAcc;
      others ← save_updates app (S index) rest peerType;
      mret (isNodeLeaving || others)
  end.
Definition saveUpdatesForList (addrs : list string) (peerType : string) : WM bool :=
  app ← getKApp;
  save_updates app 0 addrs peerType.
Definition SaveUpdatesForNodesMap (nodeOwners : list string) (peerType : string) : WM bool :=
  _ ← on_cache SaveAll;
  nodeForcedToRemain ← saveUpdatesForList nodeOwners peerType;
  _ ← on_cache SaveAll;
  mret nodeForcedToRemain.

(** *** The account that is credited *)

Definition peerForEpochAccounting (elected : nat) : WM nat :=
  e ← peer_get elected id;
  if negb (fc FixAuditChangesV7) || negb (Revoked e) then mret elected
  else
    app ← getKApp;
    val ← on_kapp app (getValidator (pa_OwnerAddress e));
    if str_eqb (BlsPubKey val) (BLSPublicKey e) then mret elected
    else loadPeerAccount (BlsPubKey val).
(** Pointers are compared. *)
Definition saveEpochAccounting (elected accounting : nat) : WM unit :=
  _ ← on_cache (UpdatePeer accounting);
  if negb (accounting =? elected)%nat then on_cache (UpdatePeer elected) else mret tt.

(** *** Penalties *)

Fixpoint iterate {A} (n : nat) (f : A -> A) (x : A) : A :=
  match n with O => x | S n' => iterate n' f (f x) end.

(** The rating drop of the elected key is only logged. *)
Definition decreaseElectedValidator (leaderAppearances consensusGroupAppearances : Z) (validator : string) : WM unit :=
  electedPeer ← loadPeerAccount validator;
  accounting ← peerForEpochAccounting electedPeer;
  _ ← peer_set accounting (DecreaseLeaderSuccessRate leaderAppearances);
  _ ← peer_set accounting (DecreaseValidatorSuccessRate consensusGroupAppearances);
  tempRating ← peer_get electedPeer TempRating;
  r ← (if (0 <? leaderAppearances) || (0 <? consensusGroupAppearances) then (r ← rater; mret (Some r)) else mret None);
  let currentTempRating :=
    match r with
    | None => tempRating
    | Some r =>
        iterate (Z.to_nat consensusGroupAppearances) (ComputeDecreaseValidator r)
          (iterate (Z.to_nat leaderAppearances) (fun t => ComputeDecreaseProposer (ue_oob env) r t 0) tempRating)
    end in
  _ ← peer_set electedPeer (SetTempRating currentTempRating);
  _ ← peer_set electedPeer jailValidatorIfBadRating;
  saveEpochAccounting electedPeer accounting.

Definition DecreaseAll (validators : list string) (missedSlots consensusGroupSize : Z) : WM unit :=
  _ ← on_cache SaveAll;
  let consensusGroupSizeValidators :=
    if fc EnableSmartContracts then consensusGroupSize -! 1 else consensusGroupSize in
  let '(leaderAppearances, consensusGroupAppearances) :=
    computeDecreaseAllAppearances (ue_oob env) (fc FixAuditChangesV6) missedSlots
      (Z.of_nat (length validators)) consensusGroupSizeValidators in
  _ ← for_each (decreaseElectedValidator leaderAppearances consensusGroupAppearances) validators;
  on_cache SaveAll.

Definition DecreaseTempRating (validator : string) (isProposer : bool) : WM unit :=
  _ ← on_cache SaveAll;
  app ← getKApp;
  peerAcc ← getPeerAccount validator app;
  r ← rater;
  _ ← (if isProposer then
         peer_set peerAcc (fun a =>
           SetTempRating (ComputeDecreaseProposer (ue_oob env) r (TempRating a) (ConsecutiveProposerMisses a))
             (SetConsecutiveProposerMisses (wrap_u32 (ConsecutiveProposerMisses a + 1)) a))
       else peer_set peerAcc (fun a => SetTempRating (ComputeDecreaseValidator r (TempRating a)) a));
  _ ← peer_set peerAcc jailValidatorIfBadRating;
  _ ← on_cache (UpdatePeer peerAcc);
  on_cache SaveAll.

(** *** The economics of an epoch *)

Definition getValidatorParams : res error (Z * Z) :=
  if negb (ue_controller env) then Ok (0, 0)
  else
    minSelfDelegated ← GetParameterInt (pe_live env) EnumParameter_MinSelfDelegatedAmount;
    minTotalDelegated ← GetParameterInt (pe_live env) EnumParameter_MinTotalDelegatedAmount;
    Ok (minSelfDelegated, minTotalDelegated).

Definition finalizeValidatorEpoch (app : nat) (addr : string) (val : ValidatorData) (peerAcc : nat) : WM unit :=
  a ← peer_get peerAcc id;
  let val := set_status val (SelfStaked val) (JailedEpoch val) (Jailed val)
               (bool_decide (List a = List_waiting)) (NumJailed val) (TotalRewards val +! AccumulatedFees a) in
  _ ← peer_set peerAcc ResetAtNewEpoch;
  _ ← on_cache (UpdatePeer peerAcc);
  on_kapp app (setValidator addr val).

(** [updateStakingBucketsV1] and, after its deletions, [updateStakingBucketsV2]. *)
Definition updateStakingBuckets (app : nat) (addr : string) (pd : PeerData) (totalDelegated totalUnDelegated : Z)
  : WM Z :=
  if negb (fc FixStakingBuckets) then mret totalDelegated
  else
    let totalDelegated := if negb (fc EnableSmartContracts) then totalDelegated -! totalUnDelegated
                          else totalDelegated in
    _ ← on_kapp app (setValidatorBuckets addr pd);
    mret totalDelegated.

(** The end of [processValidatorEpochV1] and [processValidatorEpochV2]. *)
Definition close_validator (app : nat) (addr : string) (val : ValidatorData) (peerAcc : nat) (pd : PeerData)
    (r : bucketProcessingResult) (currentEpoch minSelfDelegated minTotalDelegated : Z) : WM unit :=
  let val := set_SelfStaked val (minSelfDelegated <=? SelfStake val) in
  list ← peer_get peerAcc List;
  let val := updateValidatorJailStatus val list currentEpoch in
  total ← updateStakingBuckets app addr pd (totalDelegated r) (totalUnDelegated r);
  _ ← peer_set peerAcc (updatePeerListStatus val minSelfDelegated minTotalDelegated total);
  finalizeValidatorEpoch app addr val peerAcc.

Definition processValidatorEpochV1 (app : nat) (currentEpoch minSelfDelegated minTotalDelegated : Z)
    (info : validatorInfo) (totals : gmap string Z) : WM (gmap string Z) :=
  let addr := in_OwnerAddress info in
  pd ← on_kapp app (getValidatorBuckets addr);
  let '(r, pd) := processBucketDelegationsV1 fc range_buckets pd currentEpoch in
  val ← on_kapp app (getValidator addr);
  peerAcc ← loadPeerAccount (BlsPubKey val);
  fees ← peer_get peerAcc AccumulatedFees;
  let totals := calculateDelegationRewardsV1 fc (ue_oob env) range_amounts val fees r totals in
  _ ← close_validator app addr val peerAcc pd r currentEpoch minSelfDelegated minTotalDelegated;
  mret totals.

Definition processValidatorEpochV2 (app : nat) (currentEpoch minSelfDelegated minTotalDelegated : Z)
    (info : validatorInfo) (totals : gmap string Z) : WM (gmap string Z) :=
  let addr := in_OwnerAddress info in
  pd ← on_kapp app (getValidatorBuckets addr);
  let '(r, keysToDelete) := processBucketDelegationsV2 fc range_buckets pd currentEpoch in
  val ← on_kapp app (getValidator addr);
  peerAcc ← loadPeerAccount (BlsPubKey val);
  fees ← peer_get peerAcc AccumulatedFees;
  local ← lift (calculateDelegationRewardsV2 fc range_amounts val fees r);
  let totals := add_all range_amounts totals local in
  let pd := {| pd_Buckets := foldr delete (pd_Buckets pd) keysToDelete |} in
  _ ← close_validator app addr val peerAcc pd r currentEpoch minSelfDelegated minTotalDelegated;
  mret totals.

(** The loop over the validators, threading the rewards. *)
Fixpoint each_validator (f : validatorInfo -> gmap string Z -> WM (gmap string Z)) (infos : list validatorInfo)
    (totals : gmap string Z) : WM (gmap string Z) :=
  match infos with
  | [] => mret totals
  | info :: rest => totals ← f info totals; each_validator f rest totals
  end.

Definition updateUserAllowances (totals : gmap string Z) : WM unit :=
  for_each (fun kv =>
    if kv.2 =? 0 then mret tt
    else
      userAcc ← on_cache (LoadUser kv.1);
      _ ← on_user userAcc (AddToAllowance kv.2);
      on_cache (UpdateUser userAcc)) (range_amounts totals).

Definition savePendingRewardsV2 (app : nat) (totals : gmap string Z) : WM unit :=
  for_each (fun kv => if kv.2 =? 0 then mret tt else on_kapp app (addToPendingRewards kv.1 kv.2))
    (range_amounts totals).

Definition ProcessEconomicsEndOfEpochV1 (currentEpoch : Z) (infos : list validatorInfo) : WM unit :=
  params ← lift getValidatorParams;
  app ← getKApp;
  totals ← each_validator (processValidatorEpochV1 app currentEpoch params.1 params.2) infos ∅;
  _ ← saveKApp app;
  _ ← updateUserAllowances totals;
  on_cache SaveAll.

Definition ProcessEconomicsEndOfEpochV2 (currentEpoch : Z) (infos : list validatorInfo) : WM unit :=
  params ← lift getValidatorParams;
  app ← getKApp;
  totals ← each_validator (processValidatorEpochV2 app currentEpoch params.1 params.2) infos ∅;
  _ ← savePendingRewardsV2 app totals;
  _ ← saveKApp app;
  on_cache SaveAll.

Definition ProcessEconomicsEndOfEpoch (currentEpoch : Z) (infos : list validatorInfo) : WM unit :=
  _ ← on_cache SaveAll;
  if negb (fc EpochRewardsV2) then ProcessEconomicsEndOfEpochV1 currentEpoch infos
  else ProcessEconomicsEndOfEpochV2 currentEpoch infos.

(** *** A successful block *)

Definition creditElectedValidator (signingBitmap : string) (leaderFees validatorFees : Z) (pubKey : string)
    (index : nat) : WM unit :=
  electedPeer ← loadPeerAccount pubKey;
  accounting ← peerForEpochAccounting electedPeer;
  _ ← peer_set accounting IncreaseNumSelectedInSuccessBlocks;
  e ← peer_get electedPeer id;
  validatorSigned ← lift (has_signed signingBitmap index);
  newRating ←
    match computeValidatorActionType (index =? 0)%nat validatorSigned with
    | leaderSuccess =>
        _ ← peer_set accounting (IncreaseLeaderSuccessRate 1);
        _ ← peer_set accounting (SetConsecutiveProposerMisses 0);
        r ← rater;
        _ ← peer_set accounting (AddToAccumulatedFees leaderFees);
        mret (ComputeIncreaseProposer r (TempRating e))
    | validatorSuccess =>
        _ ← peer_set accounting (IncreaseValidatorSuccessRate 1);
        r ← rater;
        _ ← peer_set accounting (AddToAccumulatedFees validatorFees);
        mret (ComputeIncreaseValidator r (TempRating e))
    | validatorIgnoredSignature =>
        _ ← peer_set accounting (IncreaseValidatorIgnoredSignaturesRate 1);
        r ← rater;
        mret (ComputeIncreaseValidator r (TempRating e))
    | leaderFail => mret (Rating e)
    end;
  _ ← peer_set electedPeer (SetTempRating newRating);
  saveEpochAccounting electedPeer accounting.

Fixpoint credit_all (signingBitmap : string) (leaderFees validatorFees : Z) (keys : list string) (index : nat)
  : WM unit :=
  match keys with
  | [] => mret tt
  | k :: rest =>
      _ ← creditElectedValidator signingBitmap leaderFees validatorFees k index;
      credit_all signingBitmap leaderFees validatorFees rest (S index)
  end.

(** The keys of the consensus group, the leader first. *)
Definition UpdateValidatorInfoOnSuccessfulBlock (validatorList : list string) (signingBitmap : string)
    (accumulatedFees : Z) : WM unit :=
  _ ← on_cache SaveAll;
  totalSigned ← lift (count_signed signingBitmap (length validatorList) 0 0);
  fees ← (if 1 <? totalSigned then
            percent ← lift (if ue_controller env
                            then GetParameterUint (pe_live env) EnumParameter_LeaderValidatorRewardsPercentage
                            else Err GoPanic);
            let leaderPercent := Z.min percent HundredPercent in
            lift (splitAccumulatedFees (ue_oob env) accumulatedFees (wrap_u32 (HundredPercent - leaderPercent))
                    (totalSigned - 1))
          else mret (accumulatedFees, 0));
  let '(leaderAccumulatedFees, validatorAccumulatedFees) := fees in
  _ ← credit_all signingBitmap leaderAccumulatedFees validatorAccumulatedFees validatorList 0;
  on_cache SaveAll.
End operations.
