(* ===== verification/ValidatorLemmas.v ===== *)
(** * Reasoning about the validators application

    The state an operation on validators works on is the storage of the
    application account and the peer account of each BLS key.  The lemmas say
    what each step of a handler reads and changes of them, with the cache
    enabled. *)

From S2P Require Import Prelude Common Strconv GoStd Forks Tools Permissions KdaUtils KdaData DataTrie UserAccount Codec.
From S2P Require Import Balances AccountsCache Staking World SystemAccount KdaKapp WorldLemmas NetParams Proposals ProposalProps Rating Validators PeersUpdate.
Local Open Scope Z_scope.

(** ** Storage keys *)

Lemma validatorKey_inj a b : validatorKey a = validatorKey b -> a = b.
Proof. unfold validatorKey. intros E. by apply string_app_inj_l, string_app_inj_l in E. Qed.
Lemma bucketsKey_inj a b : validatorBucketsKey a = validatorBucketsKey b -> a = b.
Proof. unfold validatorBucketsKey. intros E. by apply string_app_inj_l, string_app_inj_l in E. Qed.
Lemma pendingKey_inj a b : pendingRewardsKey a = pendingRewardsKey b -> a = b.
Proof. unfold pendingRewardsKey. intros E. by apply string_app_inj_l, string_app_inj_l in E. Qed.
Lemma keys_apart a b :
  validatorKey a <> validatorBucketsKey b /\ validatorKey a <> pendingRewardsKey b /\
  validatorBucketsKey a <> pendingRewardsKey b.
Proof. split; [|split]; discriminate. Qed.
Lemma keys_nonempty a :
  validatorKey a <> EmptyString /\ validatorBucketsKey a <> EmptyString /\ pendingRewardsKey a <> EmptyString.
Proof. split; [|split]; discriminate. Qed.

(** ** What the accounts databases promise *)

Class ValidatorStores `{TO : TrieOps} (KA : AccountsAdapter kappAccount) (PA : AccountsAdapter peerAccount)
  : Prop := {
  vs_peer_addr : forall a : peerAccount, addr_of a = pa_address a;
  vs_peer_load : forall db k (a : peerAccount), adb_Load db k = Ok a -> addr_of a = k;
  vs_peer_save : forall db (a : peerAccount) db' a', adb_Save db a = (db', a', Ok tt) ->
    addr_of a' = addr_of a /\ adb_Load db' (addr_of a) = Ok a /\
    (forall k, k <> addr_of a -> adb_Load db' k = adb_Load db k);
  vs_kapp_save : forall db (a : kappAccount) db' a', adb_Save db a = (db', a', Ok tt) ->
    addr_of a' = addr_of a /\
    (exists b, adb_Load db' (addr_of a) = Ok b /\ forall key, storage b key = storage a key) /\
    (forall k, k <> addr_of a -> adb_Load db' k = adb_Load db k);
}.

(** ** Saving every cached account *)

Section save.
Context {A : Type} `{AA : AccountsAdapter A} (R : A -> A -> Prop).
Hypothesis Hsave : forall db (a : A) db' a', adb_Save db a = (db', a', Ok tt) ->
  addr_of a' = addr_of a /\ (exists b, adb_Load db' (addr_of a) = Ok b /\ R b a) /\
  (forall k, k <> addr_of a -> adb_Load db' k = adb_Load db k).

Lemma save_list_loads keys (p p' : pool A) :
  NoDup keys -> save_list keys p = (p', Ok tt) ->
  (forall k l, objMap p !! k = Some l -> k ∈ keys -> exists a, heap p !! l = Some a /\ addr_of a = k) ->
  (forall k, k ∉ keys -> adb_Load (adapter p') k = adb_Load (adapter p) k) /\
  (forall k, k ∈ keys -> exists l a b, objMap p !! k = Some l /\ heap p !! l = Some a /\
     adb_Load (adapter p') k = Ok b /\ R b a).
Proof.
  intros Hnd. revert p. induction Hnd as [|k keys Hk Hnd IH]; intros p Hs Ho.
  { injection Hs as <-. split; [done|]. by intros k ?%elem_of_nil. }
  cbn in Hs. unfold mbind, M_bind, get in Hs. destruct (objMap p !! k) as [l|] eqn:El; [|done].
  destruct (Ho k l El) as (a & Ha & Hak); [left|]. unfold save_object_at in Hs. rewrite Ha in Hs.
  destruct (adb_Save (adapter p) a) as [[db a'] [[]|]] eqn:Es; [|done].
  destruct (Hsave _ _ _ _ Es) as (Haddr & (b & Hb & Hr) & Hf). rewrite Hak in *.
  assert (forall j l', j ∈ keys -> objMap p !! j = Some l' -> l' <> l) as Hal.
  { intros j l' Hj Hl' ->. destruct (Ho j l Hl') as (a2 & Ha2 & <-); [by right|]. simplify_eq. done. }
  destruct (IH _ Hs) as [IH1 IH2]; cbn [objMap heap adapter] in *.
  { intros j l' Hl' Hj. destruct (Ho j l' Hl') as (a2 & Ha2 & Ea2); [by right|]. exists a2. split; [|done].
    rewrite list_lookup_insert_ne; [done|]. by intros ->; eapply Hal. }
  split.
  - intros j [Hne Hj]%not_elem_of_cons. rewrite IH1 by done. by apply Hf.
  - intros j [->|Hj]%elem_of_cons.
    + exists l, a, b. splits; try done. by rewrite IH1.
    + destruct (IH2 j Hj) as (l' & a2 & b2 & Hl' & Ha2 & Hb2). exists l', a2, b2. splits; try apply Hb2; try done.
      rewrite list_lookup_insert_ne in Ha2; [done|]. by intros ->; eapply Hal.
Qed.

(** An address stands for the same account before and after. *)
Lemma save_pool_obj (p p' : pool A) k :
  (forall a, R a a) -> pool_wf p -> save_list (objList p) p = (p', Ok tt) ->
  match pool_obj (reset_pool p') k, pool_obj p k with
  | Some b, Some a => R b a
  | None, None => True
  | _, _ => False
  end.
Proof.
  intros Hrefl Hwf Hs.
  destruct (save_list_loads _ _ _ (pw_nodup _ Hwf) Hs) as [Hout Hin].
  { intros j l Hl _. by apply (pw_object _ Hwf). }
  unfold pool_obj. cbn. destruct (decide (k ∈ objList p)) as [Hk|Hk].
  - destruct (Hin k Hk) as (l & a & b & -> & -> & -> & Hr). done.
  - rewrite (Hout k Hk). destruct (objMap p !! k) eqn:E; [destruct Hk; apply (pw_dom _ Hwf); by rewrite E|].
    destruct (adb_Load _ k); [apply Hrefl|done].
Qed.
End save.

Section lemmas.
Context `{TO : TrieOps} `{UA : AccountsAdapter userAccount} `{KA : AccountsAdapter kappAccount}
  `{PA : AccountsAdapter peerAccount} `{CU : Marshalizer UserKDA}
  {CV : Marshalizer ValidatorData} {CB : Marshalizer PeerData}
  {LV : ProtoCodec CV zeroValidator} {LB : ProtoCodec CB zeroPeerData}
  {WL : WorldLaws peerAccount} {VL : ValidatorStores KA PA}.

Implicit Types (w : world peerAccount) (s : string -> string).

(** ** Storage *)

Lemma storage_bytes a key : storage a key = from_ok EmptyString (bytes_at a key).
Proof.
  unfold storage, GetStorage, bytes_at, retrieveOptional, kapp_RetrieveValue.
  destruct (RetrieveValue _ key) as [v|e]; [done|]. by destruct (_ || _).
Qed.

Lemma SetStorage_spec key v a a' :
  key <> EmptyString -> SetStorage key v a = (a', Ok tt) ->
  kapp_Address a' = kapp_Address a /\ storage a' key = v /\ (forall k, k <> key -> storage a' k = storage a k).
Proof.
  intros Hk H. destruct (save_bytes _ _ _ _ H Hk) as (Ha & Hb & Ho).
  split; [done|]. rewrite storage_bytes, Hb. split; [done|]. intros k Hne. by rewrite !storage_bytes, Ho.
Qed.

(** The records of a storage. *)
Definition validator_at s (k : string) : option ValidatorData :=
  let data := s (validatorKey k) in
  if slen data =? 0 then None else match Unmarshal data with Ok v => Some v | Err _ => None end.
Definition buckets_at s (k : string) : option PeerData :=
  let data := s (validatorBucketsKey k) in
  if slen data =? 0 then Some zeroPeerData else match Unmarshal data with Ok p => Some p | Err _ => None end.
Definition pending_at s (k : string) : Z :=
  let data := s (pendingRewardsKey k) in
  if slen data =? 8 then wrap_i64 (BigEndian_Uint64 data) else 0.

(** [s'] is [s] with other records at the given places. *)
Record set_validator s s' (k : string) (v : ValidatorData) : Prop := {
  sv_at : v <> zeroValidator -> validator_at s' k = Some v;
  sv_validator : forall j, j <> k -> validator_at s' j = validator_at s j;
  sv_buckets : forall j, buckets_at s' j = buckets_at s j;
  sv_pending : forall j, pending_at s' j = pending_at s j;
}.
Record set_pd s s' (k : string) (p : PeerData) : Prop := {
  sb_at : buckets_at s' k = Some p;
  sb_validator : forall j, validator_at s' j = validator_at s j;
  sb_buckets : forall j, j <> k -> buckets_at s' j = buckets_at s j;
  sb_pending : forall j, pending_at s' j = pending_at s j;
}.

Lemma getValidator_spec k a a' v :
  getValidator k a = (a', Ok v) -> a' = a /\ validator_at (storage a) k = Some v.
Proof.
  unfold getValidator, validator_at. destruct (slen _ =? 0); [done|]. intros [= <- E]. by rewrite E.
Qed.
Lemma getValidatorBuckets_spec k a a' p :
  getValidatorBuckets k a = (a', Ok p) -> a' = a /\ buckets_at (storage a) k = Some p.
Proof.
  unfold getValidatorBuckets, buckets_at. destruct (slen _ =? 0); [by intros [= <- <-]|].
  intros [= <- E]. by rewrite E.
Qed.
Lemma getValidator_reads k a : (getValidator k a).1 = a.
Proof. unfold getValidator. by destruct (_ =? 0). Qed.

Lemma getValidatorBuckets_reads k a : (getValidatorBuckets k a).1 = a.
Proof. unfold getValidatorBuckets. by destruct (_ =? 0). Qed.

Lemma setValidator_spec k v a a' :
  setValidator k v a = (a', Ok tt) ->
  kapp_Address a' = kapp_Address a /\ set_validator (storage a) (storage a') k v.
Proof.
  unfold setValidator. intros H. step H as a1 data Hm. injection Hm as <- Hm.
  apply SetStorage_spec in H as (Ha & Hat & Ho); [|apply keys_nonempty]. split; [done|]. split.
  - intros Hz. unfold validator_at. rewrite Hat.
    rewrite (proj2 (Z.eqb_neq _ _)) by (intros E%slen_zero; rewrite E in Hm; by apply pc_empty in Hm).
    by rewrite (unmarshal_marshal _ _ Hm), pc_canon.
  - intros j Hj. unfold validator_at. rewrite Ho; [done|]. by intros E%validatorKey_inj.
  - intros j. unfold buckets_at. rewrite Ho; [done|]. intros E. by destruct (keys_apart k j).
  - intros j. unfold pending_at. rewrite Ho; [done|]. intros E. by destruct (keys_apart k j) as (_ & ? & _).
Qed.

Lemma setValidatorBuckets_spec k p a a' :
  setValidatorBuckets k p a = (a', Ok tt) ->
  kapp_Address a' = kapp_Address a /\ set_pd (storage a) (storage a') k p.
Proof.
  unfold setValidatorBuckets. intros H. step H as a1 data Hm. injection Hm as <- Hm.
  apply SetStorage_spec in H as (Ha & Hat & Ho); [|apply keys_nonempty]. split; [done|]. split.
  - unfold buckets_at. rewrite Hat. destruct (Z.eqb_spec (slen data) 0) as [E|E].
    + apply slen_zero in E. rewrite E in Hm. by rewrite (pc_empty p Hm).
    + by rewrite (unmarshal_marshal _ _ Hm), pc_canon.
  - intros j. unfold validator_at. rewrite Ho; [done|]. intros E. by destruct (keys_apart j k).
  - intros j Hj. unfold buckets_at. rewrite Ho; [done|]. by intros E%bucketsKey_inj.
  - intros j. unfold pending_at. rewrite Ho; [done|]. intros E. by destruct (keys_apart k j) as (_ & _ & ?).
Qed.

(** *** Rewards waiting to be claimed *)

Record set_pending s s' (k : string) (x : Z) : Prop := {
  sp_at : pending_at s' k = x;
  sp_validator : forall j, validator_at s' j = validator_at s j;
  sp_buckets : forall j, buckets_at s' j = buckets_at s j;
  sp_pending : forall j, j <> k -> pending_at s' j = pending_at s j;
}.

Lemma getPendingRewards_spec k a a' x :
  getPendingRewards k a = (a', Ok x) -> a' = a /\ x = pending_at (storage a) k.
Proof.
  unfold getPendingRewards, pending_at. intros [= <- H]. split; [done|].
  destruct (Z.eqb_spec (slen (storage a (pendingRewardsKey k))) 0) as [E|E]; [rewrite E; by injection H|].
  destruct (Z.eqb_spec (slen (storage a (pendingRewardsKey k))) 8); cbn in H; [by injection H|done].
Qed.

Lemma setPendingRewards_spec k x a a' :
  x <= MaxInt64 -> setPendingRewards k x a = (a', Ok tt) ->
  0 <= x /\ kapp_Address a' = kapp_Address a /\ set_pending (storage a) (storage a') k x.
Proof.
  intros Hmax H. unfold setPendingRewards in H. guard_ok H. split; [done|].
  assert (exists d, SetStorage (pendingRewardsKey k) d a = (a', Ok tt) /\
            (if slen d =? 8 then wrap_i64 (BigEndian_Uint64 d) else 0) = x) as (d & Hd & Hv).
  { destruct (Z.eqb_spec x 0) as [->|Hx]; [by exists EmptyString|]. exists (be_bytes x). split; [done|].
    unfold slen. rewrite be_bytes_length. change (Z.of_nat 8 =? 8) with true. rewrite be_bytes_value by ilia. apply wrap_i64_id. ilia. }
  apply SetStorage_spec in Hd as (Ha & Hat & Ho); [|apply keys_nonempty]. split; [done|]. split.
  - unfold pending_at. by rewrite Hat.
  - intros j. unfold validator_at. rewrite Ho; [done|]. intros E. by destruct (keys_apart j k) as (_ & ? & _).
  - intros j. unfold buckets_at. rewrite Ho; [done|]. intros E. by destruct (keys_apart j k) as (_ & _ & ?).
  - intros j Hj. unfold pending_at. rewrite Ho; [done|]. by intros E%pendingKey_inj.
Qed.
(** ** The world *)

Definition vstorage w : string -> string :=
  match kapp_obj w ValidatorsKAppAddress with Some a => storage a | None => fun _ => EmptyString end.
Definition peer_at w (k : string) : option peerAccount := pool_obj (peers (w_cache w)) k.

Definition app_loc w (l : nat) : Prop := kapp_loc w ValidatorsKAppAddress l.
Definition peer_loc w (k : string) (l : nat) : Prop := objMap (peers (w_cache w)) !! k = Some l.

Record vok w : Prop := { vo_world : world_ok w; vo_peers : pool_wf (peers (w_cache w)) }.

(** Objects handed out stay the objects of their addresses. *)
Record vkeep w w' : Prop := {
  vk_ok : vok w';
  vk_app : forall l, app_loc w l -> app_loc w' l;
  vk_peer : forall k l, peer_loc w k l -> peer_loc w' k l;
}.
(** Neither the application nor a peer changes. *)
Record same_state w w' : Prop := {
  ss_app : forall key, vstorage w' key = vstorage w key;
  ss_peer : forall k, peer_at w' k = peer_at w k;
}.
Definition quiet w w' : Prop := vkeep w w' /\ same_state w w'.

Lemma vkeep_refl w : vok w -> vkeep w w.
Proof. by split. Qed.
Lemma vkeep_trans w1 w2 w3 : vkeep w1 w2 -> vkeep w2 w3 -> vkeep w1 w3.
Proof. intros [] []. split; eauto. Qed.
Lemma same_state_refl w : same_state w w.
Proof. by split. Qed.
Lemma same_state_trans w1 w2 w3 : same_state w1 w2 -> same_state w2 w3 -> same_state w1 w3.
Proof. intros [A1 B1] [A2 B2]. split; intros; by rewrite ?A2, ?A1, ?B2, ?B1. Qed.
Lemma vquiet_refl w : vok w -> quiet w w.
Proof. split; [by apply vkeep_refl|apply same_state_refl]. Qed.
Lemma vquiet_trans w1 w2 w3 : quiet w1 w2 -> quiet w2 w3 -> quiet w1 w3.
Proof. intros [] []. split; eauto using vkeep_trans, same_state_trans. Qed.

(** What a step that leaves the applications and peers alone keeps. *)
Lemma quiet_same w w' :
  vok w -> world_ok w' -> kapps (w_cache w') = kapps (w_cache w) -> peers (w_cache w') = peers (w_cache w) ->
  quiet w w'.
Proof.
  intros [Hw Hp] Hw' Ek Ep.
  split; split; unfold app_loc, kapp_loc, peer_loc, peer_at, vstorage, kapp_obj, wkapps; rewrite ?Ek, ?Ep; try done.
  split; [done|]. by rewrite Ep.
Qed.

(** *** Loading *)

Lemma validatorsApp_spec w w' l : vok w -> getKApp w = (w', Ok l) -> quiet w w' /\ app_loc w' l.
Proof.
  intros [Hw Hp] H. unfold getKApp in H. pose proof H as H'.
  apply LoadKApp_spec in H as [[Hok Hu Hk Hul Hkl] Hl]; [|done].
  apply on_cache_ok in H' as (c & Hc & ->). unfold LoadKApp, on_kapps in Hc.
  destruct (Load _ _ _) as [p r]. injection Hc as <- ->.
  split; [|done]. split; [split; [by split|apply Hkl|done]|]. split; [|done].
  intros key. unfold vstorage. by rewrite Hk by (unfold nobody; tauto).
Qed.

Lemma loadPeer_spec w w' k l : vok w -> loadPeerAccount k w = (w', Ok l) -> quiet w w' /\ peer_loc w' k l.
Proof.
  intros [[He Hu Hk] Hp] (c & Hc & ->)%on_cache_ok. unfold LoadPeer, on_peers, Load in Hc. rewrite He in Hc.
  destruct (fetch adb_Load true k (peers (w_cache w))) as [p r] eqn:Hf. injection Hc as <- ->.
  destruct (fetch_spec adb_Load k _ _ _ (fun db a E => E) vs_peer_load Hp Hf) as (Hwf & Hl & Ho & Hkeep).
  split; [|done]. split; [split; [by split; [split|]|done|apply Hkeep]|]. by split.
Qed.

Lemma load_user_quiet load w w' k l :
  vok w -> on_cache (on_users (fun e => fetch load e k)) w = (w', Ok l) ->
  (forall db a, load db k = Ok a -> adb_Load db k = Ok a) -> quiet w w' /\ user_loc w' k l.
Proof.
  intros Hok H Hl. pose proof H as H'. apply load_user_spec in H as [[Hw _ _ _ _] Hlo]; [|done|apply Hok].
  split; [|done]. apply on_cache_ok in H' as (c & Hc & ->). unfold on_users in Hc. destruct (fetch _ _ _ _).
  injection Hc as <- ->. by apply quiet_same.
Qed.

Lemma on_user_quiet {B} l k (m : M userAccount error B) w w' x :
  vok w -> user_loc w k l -> (forall a a' r, m a = (a', r) -> address a' = address a) ->
  on_user l m w = (w', Ok x) -> quiet w w'.
Proof.
  intros Hok Hl Hm H. pose proof H as H'. apply (on_user_spec _ _ k) in H as [[Hw _ _ _ _] _]; [|apply Hok|done..].
  apply on_user_ok in H' as (a & a' & _ & _ & ->). by apply quiet_same.
Qed.

(** *** Reading and writing the application *)

Lemma app_object w l : vok w -> app_loc w l -> exists a, heap (kapps (w_cache w)) !! l = Some a /\ vstorage w = storage a /\
  addr_of a = ValidatorsKAppAddress.
Proof.
  intros [Hw _] Hl. destruct (pw_object _ (wo_kapps _ Hw) _ _ Hl) as (a & Ha & Haddr). exists a. splits; try done.
  unfold vstorage, kapp_obj, pool_obj. unfold app_loc, kapp_loc in Hl. by rewrite Hl, Ha.
Qed.

Lemma on_kapp_read {B} l (m : M kappAccount error B) w w' x :
  vok w -> app_loc w l -> (forall a, (m a).1 = a) -> on_kapp l m w = (w', Ok x) ->
  w' = w /\ exists a, vstorage w = storage a /\ m a = (a, Ok x).
Proof.
  intros Hok Hl Hr (a & a' & Ha & Hm & ->)%on_kapp_ok.
  pose proof (Hr a) as E. rewrite Hm in E. cbn in E. subst a'.
  destruct (app_object w l Hok Hl) as (b & Hb & Hs & _). simplify_eq. split; [|eauto].
  destruct w as [[e u [ad h om ol] p] rc rd]. unfold set_cache, write_kapp, set_heap. cbn in *. by rewrite list_insert_id.
Qed.

Lemma on_kapp_write {B} l (m : M kappAccount error B) w w' x :
  vok w -> app_loc w l -> on_kapp l m w = (w', Ok x) ->
  (forall a a', m a = (a', Ok x) -> kapp_Address a' = kapp_Address a) ->
  vkeep w w' /\ (forall k, peer_at w' k = peer_at w k) /\
  exists a a', m a = (a', Ok x) /\ vstorage w = storage a /\ vstorage w' = storage a'.
Proof.
  intros Hok Hl (a & a' & Ha & Hm & ->)%on_kapp_ok Haddr.
  destruct (app_object w l Hok Hl) as (b & Hb & Hs & Hab). assert (a = b) as -> by congruence.
  assert (addr_of a' = addr_of b) as E by (rewrite !wl_kapp_addr; eauto).
  destruct Hok as [[He Hu Hk] Hp].
  destruct (write_obj (wkapps w) ValidatorsKAppAddress l b a' Hk Hl Hb E) as (Hwf & _ & H2 & _).
  split; [split; [by split; [split|]|done..]|]. split; [done|]. exists b, a'. splits; try done.
  unfold vstorage, kapp_obj.
  change (wkapps (set_cache w _)) with (set_heap (wkapps w) (<[l:=a']> (heap (wkapps w)))). by rewrite H2.
Qed.

Lemma app_getValidator l k w w' v :
  vok w -> app_loc w l -> on_kapp l (getValidator k) w = (w', Ok v) ->
  w' = w /\ validator_at (vstorage w) k = Some v.
Proof.
  intros Hok Hl H. destruct (on_kapp_read _ _ _ _ _ Hok Hl (getValidator_reads k) H) as (-> & a & Hs & Hm).
  apply getValidator_spec in Hm as [_ Hm]. by rewrite Hs.
Qed.
Lemma app_getBuckets l k w w' p :
  vok w -> app_loc w l -> on_kapp l (getValidatorBuckets k) w = (w', Ok p) ->
  w' = w /\ buckets_at (vstorage w) k = Some p.
Proof.
  intros Hok Hl H.
  destruct (on_kapp_read _ _ _ _ _ Hok Hl (getValidatorBuckets_reads k) H) as (-> & a & Hs & Hm).
  apply getValidatorBuckets_spec in Hm as [_ Hm]. by rewrite Hs.
Qed.
Lemma app_getPending l k w w' x :
  vok w -> app_loc w l -> on_kapp l (getPendingRewards k) w = (w', Ok x) ->
  w' = w /\ x = pending_at (vstorage w) k.
Proof.
  intros Hok Hl H.
  destruct (on_kapp_read l (getPendingRewards k) w w' x Hok Hl (fun a => eq_refl) H) as (-> & a & Hs & Hm).
  apply getPendingRewards_spec in Hm as [_ Hm]. by rewrite Hs.
Qed.

Lemma app_storage l key w w' x :
  vok w -> app_loc w l -> on_kapp l (a ← get; mret (storage a key)) w = (w', Ok x) -> w' = w /\ x = vstorage w key.
Proof.
  intros Hok Hl H. apply on_kapp_read in H as (-> & a & Hs & Hm); [|done..]. injection Hm as <-. by rewrite Hs.
Qed.

(** A write of the application that changes no peer. *)
Definition app_write w w' (R : (string -> string) -> (string -> string) -> Prop) : Prop :=
  vkeep w w' /\ (forall k, peer_at w' k = peer_at w k) /\ R (vstorage w) (vstorage w').

Lemma app_op {B} l (m : M kappAccount error B) w w' x (R : (string -> string) -> (string -> string) -> Prop) :
  vok w -> app_loc w l -> on_kapp l m w = (w', Ok x) ->
  (forall a a', m a = (a', Ok x) -> kapp_Address a' = kapp_Address a /\ R (storage a) (storage a')) ->
  app_write w w' R.
Proof.
  intros Hok Hl H HR.
  destruct (on_kapp_write _ _ _ _ _ Hok Hl H) as (Hk & Hp & a & a' & Hm & E & E'); [intros; by apply HR|].
  split; [done|]. split; [done|]. rewrite E, E'. by apply HR.
Qed.

Lemma app_setValidator l k v w w' :
  vok w -> app_loc w l -> on_kapp l (setValidator k v) w = (w', Ok tt) ->
  app_write w w' (fun s s' => set_validator s s' k v).
Proof. intros Hok Hl H. eapply app_op; [done..|]. intros a a'. apply setValidator_spec. Qed.
Lemma app_setPd l k p w w' :
  vok w -> app_loc w l -> on_kapp l (setValidatorBuckets k p) w = (w', Ok tt) ->
  app_write w w' (fun s s' => set_pd s s' k p).
Proof. intros Hok Hl H. eapply app_op; [done..|]. intros a a'. apply setValidatorBuckets_spec. Qed.

(** *** Updates change nothing while the cache is enabled *)

Lemma UpdatePeer_enabled w w' l x : vok w -> on_cache (UpdatePeer l) w = (w', Ok x) -> w' = w.
Proof. intros Hok. apply update_enabled; [|apply Hok]. intros [e u k p] Hc. cbn in Hc. by subst. Qed.
Lemma saveKApp_enabled w w' l x : vok w -> saveKApp l w = (w', Ok x) -> w' = w.
Proof. intros Hok. unfold saveKApp. apply UpdateKapp_enabled, Hok. Qed.

Lemma SaveAll_spec w w' : vok w -> on_cache SaveAll w = (w', Ok tt) -> vok w' /\ same_state w w'.
Proof.
  intros [[He Hu Hk] Hp] (c & Hc & ->)%on_cache_ok.
  apply SaveAll_pools in Hc as (pu & pk & pp & Hsu & Hsk & Hsp & ->).
  split; [split; [split; [done|..]|]; cbn; by apply empty_pool_wf|]. split.
  - intros key.
    pose proof (save_pool_obj (fun b a => forall key, storage b key = storage a key) vs_kapp_save _ _
      ValidatorsKAppAddress (fun _ _ => eq_refl) Hk Hsk) as H.
    unfold vstorage, kapp_obj, wkapps in *. cbn. destruct (pool_obj (reset_pool pk) _), (pool_obj _ _); done.
  - intros k.
    assert (forall db (a : peerAccount) db' a', adb_Save db a = (db', a', Ok tt) ->
      addr_of a' = addr_of a /\ (exists b, adb_Load db' (addr_of a) = Ok b /\ b = a) /\
      (forall k, k <> addr_of a -> adb_Load db' k = adb_Load db k)) as Hs.
    { intros db a db' a' E. destruct (vs_peer_save _ _ _ _ E) as (? & ? & ?). eauto. }
    pose proof (save_pool_obj eq Hs _ _ k (fun _ => eq_refl) Hp Hsp) as H. unfold peer_at. cbn.
    destruct (pool_obj (reset_pool pp) k), (pool_obj (peers (w_cache w)) k); try done. by subst.
Qed.

(** *** Peers *)

Lemma peer_object w k l : vok w -> peer_loc w k l -> exists p, heap (peers (w_cache w)) !! l = Some p /\
  peer_at w k = Some p /\ pa_address p = k.
Proof.
  intros [_ Hp] Hl. destruct (pw_object _ Hp _ _ Hl) as (p & Hh & Ha). exists p. splits; try done.
  - unfold peer_at, pool_obj. unfold peer_loc in Hl. by rewrite Hl.
  - by rewrite <- vs_peer_addr.
Qed.

Lemma peer_get_spec {B} w w' k l (f : peerAccount -> B) x :
  vok w -> peer_loc w k l -> peer_get l f w = (w', Ok x) ->
  w' = w /\ exists p, peer_at w k = Some p /\ x = f p.
Proof.
  intros Hok Hl (a & a' & Ha & Hm & ->)%on_peer_ok. injection Hm as <- <-.
  destruct (peer_object w k l Hok Hl) as (p & Hp & Hat & _). simplify_eq. split; [|eauto].
  destruct w as [[e u kp [ad h om ol]] rc rd]. unfold set_cache, write_peer, set_heap. cbn in *. by rewrite list_insert_id.
Qed.

(** Peer [k] becomes [p'], nothing else changes. *)
Record peer_becomes w w' (k : string) (p p' : peerAccount) : Prop := {
  pb_keep : vkeep w w';
  pb_app : forall key, vstorage w' key = vstorage w key;
  pb_old : peer_at w k = Some p;
  pb_new : peer_at w' k = Some p';
  pb_other : forall j, j <> k -> peer_at w' j = peer_at w j;
}.

Lemma quiet_becomes w1 w2 w3 k p q : quiet w1 w2 -> peer_becomes w2 w3 k p q -> peer_becomes w1 w3 k p q.
Proof.
  intros [K1 [A1 B1]] [K2 A2 O N F]. split; [by eapply vkeep_trans|intros; by rewrite A2|by rewrite <- B1|done|].
  intros j Hj. by rewrite F, B1.
Qed.

Lemma on_peer_spec {B} w w' k l (m : M peerAccount error B) x :
  vok w -> peer_loc w k l -> on_peer l m w = (w', Ok x) ->
  (forall p p', m p = (p', Ok x) -> pa_address p' = pa_address p) ->
  exists p p', m p = (p', Ok x) /\ peer_becomes w w' k p p'.
Proof.
  intros Hok Hl (p & p' & Hp & Hm & ->)%on_peer_ok Haddr.
  destruct (peer_object w k l Hok Hl) as (q & Hq & Hat & Ha). assert (p = q) as -> by congruence.
  assert (addr_of p' = addr_of q) as E by (rewrite !vs_peer_addr; eauto).
  destruct Hok as [[He Hu Hk] Hpw].
  destruct (write_obj (peers (w_cache w)) k l q p' Hpw Hl Hq E) as (Hwf & H1 & H2 & H3).
  exists q, p'. split; [done|]. split; try done.
Qed.

Lemma peer_set_spec w w' k l (f : peerAccount -> peerAccount) :
  vok w -> peer_loc w k l -> peer_set l f w = (w', Ok tt) ->
  (forall p, pa_address (f p) = pa_address p) ->
  exists p, peer_becomes w w' k p (f p).
Proof.
  intros Hok Hl H Hf. destruct (on_peer_spec _ _ _ _ _ _ Hok Hl H) as (p & p' & Hm & Hb).
  - intros p p' [= <-]. apply Hf.
  - injection Hm as <-. eauto.
Qed.

Lemma or_code_ok {B} c (m : M (world peerAccount) error B) w w' x :
  or_code c m w = (w', Ok x) <-> m w = (w', Ok x).
Proof. unfold or_code, with_err. destruct (m w) as [w1 [y|e]]; cbn; split; intros H; congruence. Qed.

Lemma Receipts_quiet w w' r x : vok w -> Receipts_Add r w = (w', Ok x) -> quiet w w'.
Proof.
  intros Hok H. pose proof (Receipts_Add_spec _ _ _ _ (vo_world _ Hok) H) as [Hw _ _ _ _].
  injection H as <-. by apply quiet_same.
Qed.
End lemmas.
