(* ===== verification/ValidatorProps.v ===== *)
(** * Stakes and keys of validators

    Whatever happens to the validators, the total stake of each is the sum of
    its active bookings, and its BLS key is bound to it alone. *)

From S2P Require Import Prelude Common Strconv GoStd Forks Tools Permissions KdaUtils KdaData DataTrie UserAccount Codec.
From S2P Require Import Balances AccountsCache Staking World SystemAccount KdaKapp WorldLemmas NetParams Proposals ProposalProps Rating Validators PeersUpdate ValidatorLemmas.
Local Open Scope Z_scope.

Create HintDb benign.

Section props.
Context `{TO : TrieOps} `{UA : AccountsAdapter userAccount} `{KA : AccountsAdapter kappAccount}
  `{PA : AccountsAdapter peerAccount} `{CU : Marshalizer UserKDA} `{FP : FloatParsers}
  {CV : Marshalizer ValidatorData} {CB : Marshalizer PeerData}
  {LV : ProtoCodec CV zeroValidator} {LB : ProtoCodec CB zeroPeerData}
  {WL : WorldLaws peerAccount} {VL : ValidatorStores KA PA}.

Implicit Types (w : world peerAccount) (s : string -> string).

(** ** Operations that leave keys and stakes alone *)

(** The fields of a peer account that say whose key it is. *)
Definition same_key (p p' : peerAccount) : Prop :=
  pa_address p' = pa_address p /\ BLSPublicKey p' = BLSPublicKey p /\
  pa_OwnerAddress p' = pa_OwnerAddress p /\ Revoked p' = Revoked p.
#[global] Instance same_key_po : PreOrder same_key.
Proof. split; [by intros p|]. intros p q r (? & ? & ? & ?) (? & ? & ? & ?). unfold same_key. splits; congruence. Qed.

Definition peers_same w w' : Prop := forall k, option_Forall2 same_key (peer_at w k) (peer_at w' k).

Lemma peers_same_refl w : peers_same w w.
Proof. intros k. destruct (peer_at w k); constructor. reflexivity. Qed.
Lemma peers_same_trans w1 w2 w3 : peers_same w1 w2 -> peers_same w2 w3 -> peers_same w1 w3.
Proof.
  intros H1 H2 k. specialize (H1 k). specialize (H2 k).
  destruct (peer_at w1 k); inversion H1; subst; rewrite <- H in H2 || rewrite <- H0 in H2; inversion H2; subst; constructor.
  by etransitivity.
Qed.

Record calm w w' : Prop := {
  ca_ok : vok w';
  ca_app : forall key, vstorage w' key = vstorage w key;
  ca_peers : peers_same w w';
}.
Lemma calm_refl w : vok w -> calm w w.
Proof. split; [done|done|apply peers_same_refl]. Qed.
Lemma calm_trans w1 w2 w3 : calm w1 w2 -> calm w2 w3 -> calm w1 w3.
Proof. intros [? A1 P1] [? A2 P2]. split; [done|intros; by rewrite A2, A1|by eapply peers_same_trans]. Qed.
Lemma same_state_calm w w' : vok w' -> same_state w w' -> calm w w'.
Proof.
  intros Hok [A B]. split; [done|done|]. intros k. rewrite B. destruct (peer_at w k); constructor. reflexivity.
Qed.
Lemma quiet_calm w w' : quiet w w' -> calm w w'.
Proof. intros [[Hok _ _] Hs]. by apply same_state_calm. Qed.

Definition benign {E B} (m : M (world peerAccount) E B) : Prop :=
  forall w w' x, vok w -> m w = (w', Ok x) -> calm w w'.

Lemma benign_bind {E B D} (m : M (world peerAccount) E B) (f : B -> M (world peerAccount) E D) :
  benign m -> (forall x, benign (f x)) -> benign (mbind f m).
Proof.
  intros Hm Hf w w' x Hok H. step H as w1 y K. pose proof (Hm _ _ _ Hok K) as C.
  eapply calm_trans; [exact C|]. eapply Hf; [apply C|exact H].
Qed.
Lemma benign_ret {E B} (x : B) : benign (E := E) (mret x).
Proof. intros w w' y Hok [= <- _]. by apply calm_refl. Qed.
Lemma benign_lift {E B} (r : res E B) : benign (lift r).
Proof. intros w w' y Hok [= <- _]. by apply calm_refl. Qed.
Lemma benign_fail {E B} (e : E) : benign (B := B) (fail e).
Proof. by intros w w' y Hok [=]. Qed.
Lemma benign_reject {E} b (e : E) : benign (reject_if b e).
Proof. intros w w' x Hok H. apply reject_if_ok in H as [_ ->]. by apply calm_refl. Qed.
Lemma benign_or_code {B} c (m : M (world peerAccount) error B) : benign m -> benign (or_code c m).
Proof.
  intros Hm w w' x Hok H. unfold or_code, with_err in H. destruct (m w) as [w1 [y|]] eqn:E; [|done].
  injection H as <- <-. by eapply Hm.
Qed.
Lemma benign_or_refuse {B} env f c (m : M (world peerAccount) error B) : benign m -> benign (or_refuse env f c m).
Proof. intros Hm w w' x Hok H. apply or_refuse_ok in H. by eapply Hm. Qed.
Lemma benign_refuse_if env b f c e : benign (refuse_if env b f c e).
Proof. intros w w' x Hok H. apply refuse_if_ok in H as [_ ->]. by apply calm_refl. Qed.
Lemma benign_receipt r : benign (Receipts_Add r).
Proof. intros w w' x Hok H. by eapply quiet_calm, Receipts_quiet. Qed.
Lemma benign_getKApp : benign getKApp.
Proof. intros w w' x Hok H. by apply validatorsApp_spec in H as [?%quiet_calm _]. Qed.
Lemma benign_loadPeer k : benign (loadPeerAccount k).
Proof. intros w w' x Hok H. by apply loadPeer_spec in H as [?%quiet_calm _]. Qed.
Lemma benign_UpdatePeer l : benign (on_cache (UpdatePeer l)).
Proof. intros w w' x Hok H. apply UpdatePeer_enabled in H as ->; [|done]. by apply calm_refl. Qed.
Lemma benign_saveKApp l : benign (saveKApp l).
Proof. intros w w' x Hok H. apply saveKApp_enabled in H as ->; [|done]. by apply calm_refl. Qed.
Lemma benign_SaveAll : benign (on_cache SaveAll).
Proof. intros w w' [] Hok H. apply SaveAll_spec in H as [? ?]; [|done]. by apply same_state_calm. Qed.

(** Whatever object [l] is. *)
Lemma benign_on_peer {B} l (m : M peerAccount error B) :
  (forall p p' x, m p = (p', Ok x) -> same_key p p') -> benign (on_peer l m).
Proof.
  intros Hm w w' x [[He Hu Hk] Hp] (p & p' & Hl & E & ->)%on_peer_ok. apply Hm in E.
  assert (addr_of p' = addr_of p) as Ha by (rewrite !vs_peer_addr; apply E).
  split; [split; [by split|by eapply write_heap_wf]|done|].
  intros k. unfold peer_at, pool_obj. cbn. destruct (objMap _ !! k) as [l'|] eqn:El.
  - destruct (decide (l = l')) as [->|Hne].
    + rewrite list_lookup_insert_eq by (by eapply lookup_lt_Some). rewrite Hl. by constructor.
    + rewrite list_lookup_insert_ne by done. destruct (heap _ !! l'); constructor. reflexivity.
  - destruct (adb_Load _ k); constructor. reflexivity.
Qed.
Lemma benign_peer_set l f : (forall p, same_key p (f p)) -> benign (peer_set l f).
Proof. intros Hf. apply benign_on_peer. intros p p' x [= <-]. apply Hf. Qed.
Lemma benign_peer_get {B} l (f : peerAccount -> B) : benign (peer_get l f).
Proof. apply benign_on_peer. intros p p' x [= <-]. reflexivity. Qed.

Lemma benign_on_kapp_read {B} l (m : M kappAccount error B) : (forall a, (m a).1 = a) -> benign (on_kapp l m).
Proof.
  intros Hr w w' x Hok (a & a' & Ha & Hm & ->)%on_kapp_ok. pose proof (Hr a) as E. rewrite Hm in E. cbn in E. subst a'.
  replace (set_cache w (write_kapp l a (w_cache w)).1) with w; [by apply calm_refl|].
  destruct w as [[e u [ad h om ol] p] rc rd]. unfold set_cache, write_kapp, set_heap. cbn in *. by rewrite list_insert_id.
Qed.

Lemma benign_for_each {A} (f : A -> M (world peerAccount) error unit) l :
  (forall x, benign (f x)) -> benign (for_each f l).
Proof. intros Hf. induction l as [|x l IH]; cbn [for_each]; [apply benign_ret|]. by apply benign_bind. Qed.

Lemma benign_getValidator l k : benign (on_kapp l (getValidator k)).
Proof. apply benign_on_kapp_read, getValidator_reads. Qed.
End props.

#[export] Hint Resolve benign_ret benign_lift benign_fail benign_reject benign_refuse_if
  benign_loadPeer benign_UpdatePeer benign_saveKApp benign_SaveAll benign_peer_get benign_getValidator : benign.

(** [benign] composes operations known to be benign; a peer is changed by
    operations that keep its key. *)
Ltac benign :=
  repeat first
    [ solve [auto with benign] | apply benign_getKApp | apply benign_receipt
    | apply benign_bind; [|intros ?]
    | apply benign_or_code | apply benign_or_refuse
    | apply benign_for_each; intros ?
    | apply benign_peer_set; intros ?; solve [repeat case_match; done]
    | case_match ].

Section updates.
Context `{TO : TrieOps} `{UA : AccountsAdapter userAccount} `{KA : AccountsAdapter kappAccount}
  `{PA : AccountsAdapter peerAccount} `{CU : Marshalizer UserKDA} `{FP : FloatParsers}
  {CV : Marshalizer ValidatorData} {CB : Marshalizer PeerData}
  {LV : ProtoCodec CV zeroValidator} {LB : ProtoCodec CB zeroPeerData}
  {WL : WorldLaws peerAccount} {VL : ValidatorStores KA PA}.
Variable env : updateEnv.
Variable range_missed : gmap string RateChange -> list (string * RateChange).

Lemma jail_same_key p : same_key p (jailValidatorIfBadRating env p).
Proof. unfold jailValidatorIfBadRating. by case_match. Qed.
Lemma benign_jail l : benign (peer_set l (jailValidatorIfBadRating env)).
Proof. apply benign_peer_set, jail_same_key. Qed.
Lemma benign_rater : benign (rater env).
Proof. unfold rater. case_match; auto with benign. Qed.
#[local] Hint Resolve benign_jail benign_rater : benign.

Lemma benign_getPeerAccount k app : benign (getPeerAccount k app).
Proof. unfold getPeerAccount. benign. Qed.
Lemma benign_accounting l : benign (peerForEpochAccounting env l).
Proof. unfold peerForEpochAccounting. benign. Qed.
Lemma benign_saveAccounting l l' : benign (saveEpochAccounting l l').
Proof. unfold saveEpochAccounting. benign. Qed.
#[local] Hint Resolve benign_getPeerAccount benign_accounting benign_saveAccounting : benign.

Lemma benign_ratings infos : benign (ProcessRatingsEndOfEpoch env infos).
Proof.
  unfold ProcessRatingsEndOfEpoch.
  assert (forall t l, benign (process_ratings env t l)) as H.
  { intros t l. induction l as [|i l IH]; cbn [process_ratings]; [benign|].
    apply benign_bind; [|intros ?; apply benign_bind; [done|benign]].
    case_match; [benign|]. unfold verifySignaturesBelowSignedThreshold. benign. }
  benign.
Qed.
Lemma benign_reset infos : benign (ResetValidatorStatisticsAtNewEpoch env infos).
Proof.
  unfold ResetValidatorStatisticsAtNewEpoch.
  assert (forall l, benign (reset_statistics env l)) as H.
  { induction l as [|i l IH]; cbn [reset_statistics]; [benign|]. case_match; [done|].
    do 2 (apply benign_bind; [benign|intros ?]).
    apply benign_bind; [|intros ?; benign].
    apply benign_peer_set. intros p. unfold setToJailedIfNeeded. repeat case_match; done. }
  benign.
Qed.
Lemma benign_missed mb : benign (UpdateMissedBlocksCounters env range_missed mb).
Proof. unfold UpdateMissedBlocksCounters, decreasePeerCounter. benign. Qed.
Lemma benign_save_updates owners peerType : benign (SaveUpdatesForNodesMap env owners peerType).
Proof.
  unfold SaveUpdatesForNodesMap, saveUpdatesForList.
  assert (forall app l i, benign (save_updates env app i l peerType)) as H.
  { induction l as [|a l IH]; intros i; cbn [save_updates]; [benign|]. unfold processValidator. benign. }
  benign.
Qed.
Lemma benign_decrease_all ks missed size : benign (DecreaseAll env ks missed size).
Proof. unfold DecreaseAll, decreaseElectedValidator. benign. Qed.
Lemma benign_decrease k b : benign (DecreaseTempRating env k b).
Proof. unfold DecreaseTempRating. benign. Qed.
Lemma benign_credit bm lf vf k i : benign (creditElectedValidator env bm lf vf k i).
Proof. unfold creditElectedValidator. benign. Qed.
Lemma benign_block ks bm fees : benign (UpdateValidatorInfoOnSuccessfulBlock env ks bm fees).
Proof.
  unfold UpdateValidatorInfoOnSuccessfulBlock.
  assert (forall lf vf l i, benign (credit_all env bm lf vf l i)) as H.
  { induction l as [|k l IH]; intros i; cbn [credit_all]; [benign|]. apply benign_bind; [apply benign_credit|done]. }
  benign.
Qed.
Lemma benign_unjail k : benign (Unjail env k).
Proof. unfold Unjail. benign. Qed.
End updates.

(** ** The stake of a validator *)

Definition active (b : PeerBucket) : Z := if UndelegatedEpoch b =? DefaultUndelegatedEpoch then pb_Value b else 0.
(** The sum of the bookings that have not been taken back. *)
Definition booked (p : PeerData) : Z := msum active (pd_Buckets p).

Section stake.
Context `{TO : TrieOps} {CV : Marshalizer ValidatorData} {CB : Marshalizer PeerData}
  {LV : ProtoCodec CV zeroValidator} {LB : ProtoCodec CB zeroPeerData}.
Implicit Types (s : string -> string).

(** The records of an address fit together: a validator is stored under its
    owner, its total stake is what is booked on it, and it has no more
    bookings than the limit; an address that is no validator has none. *)
Definition stake_at s (k : string) : Prop :=
  match validator_at s k with
  | Some v => vd_OwnerAddress v = k /\ k <> EmptyString /\
      exists p, buckets_at s k = Some p /\ TotalStake v = wrap_i64 (booked p) /\
                Z.of_nat (size (pd_Buckets p)) <= MaxBucketsPerValidator
  | None => buckets_at s k = Some zeroPeerData
  end.
Definition stake_inv s : Prop := forall k, stake_at s k.

(** The key of every validator is the same. *)
Definition same_bls s s' : Prop := forall k, BlsPubKey <$> validator_at s' k = BlsPubKey <$> validator_at s k.
(** Only the records of [k] change. *)
Definition only_at (k : string) s s' : Prop :=
  forall j, j <> k -> validator_at s' j = validator_at s j /\ buckets_at s' j = buckets_at s j.

Lemma stake_at_eq s s' k :
  validator_at s' k = validator_at s k -> buckets_at s' k = buckets_at s k -> stake_at s k -> stake_at s' k.
Proof. unfold stake_at. by intros -> ->. Qed.
Lemma stake_inv_ext s s' : (forall key, s' key = s key) -> stake_inv s -> stake_inv s'.
Proof. intros E H k. eapply stake_at_eq, H; unfold validator_at, buckets_at; by rewrite E. Qed.
Lemma same_bls_ext s s' : (forall key, s' key = s key) -> same_bls s s'.
Proof. intros E k. unfold validator_at. by rewrite E. Qed.
Lemma same_bls_trans s1 s2 s3 : same_bls s1 s2 -> same_bls s2 s3 -> same_bls s1 s3.
Proof. intros H1 H2 k. by rewrite H2, H1. Qed.

Lemma owner_not_zero v k : vd_OwnerAddress v = k -> k <> EmptyString -> v <> zeroValidator.
Proof. intros <- H ->. done. Qed.

(** Writing a validator and its bookings. *)
Lemma set_both s s1 s' k v v' p p' :
  stake_inv s -> validator_at s k = Some v -> buckets_at s k = Some p ->
  set_pd s s1 k p' -> set_validator s1 s' k v' ->
  vd_OwnerAddress v' = vd_OwnerAddress v -> BlsPubKey v' = BlsPubKey v ->
  TotalStake v' = wrap_i64 (booked p') -> Z.of_nat (size (pd_Buckets p')) <= MaxBucketsPerValidator ->
  stake_inv s' /\ same_bls s s' /\ only_at k s s'.
Proof.
  intros Hinv Hv Hp [B1 B2 B3 _] [V1 V2 V3 _] Ho Hb Ht Hn.
  pose proof (Hinv k) as Hk. unfold stake_at in Hk. rewrite Hv in Hk. destruct Hk as (Hown & Hk & _).
  assert (validator_at s' k = Some v') as Hv' by (apply V1; eapply owner_not_zero; [|exact Hk]; congruence).
  assert (only_at k s s') as Hon by (intros j Hj; rewrite V2, V3, B2, B3; done).
  splits; [| |done].
  - intros j. destruct (decide (j = k)) as [->|Hj].
    + unfold stake_at. rewrite Hv', V3, B1. splits; [congruence|done|]. by exists p'.
    + destruct (Hon j Hj) as [E1 E2]. eapply stake_at_eq; [done..|apply Hinv].
  - intros j. destruct (decide (j = k)) as [->|Hj]; [rewrite Hv', Hv; cbn; by rewrite Hb|by rewrite (proj1 (Hon j Hj))].
Qed.

Lemma addStake_fields v k staker d :
  vd_OwnerAddress (addStake v k staker d) = vd_OwnerAddress v /\ BlsPubKey (addStake v k staker d) = BlsPubKey v /\
  TotalStake (addStake v k staker d) = TotalStake v +! d.
Proof. done. Qed.

Lemma booked_insert p id b :
  booked {| pd_Buckets := <[id := b]> (pd_Buckets p) |} =
  active b - default 0 (active <$> pd_Buckets p !! id) + booked p.
Proof. apply msum_insert. Qed.
Lemma booked_delete p id b :
  pd_Buckets p !! id = Some b -> booked {| pd_Buckets := delete id (pd_Buckets p) |} = booked p - active b.
Proof. intros H. unfold booked. cbn. rewrite (msum_delete active _ _ _ H). lia. Qed.

Lemma wrap_i64_add3 x y z : wrap_i64 (wrap_i64 (wrap_i64 x + wrap_i64 y) + z) = wrap_i64 (x + y + z).
Proof.
  rewrite wrap_i64_add_l, <- Z.add_assoc, wrap_i64_add_l, Z.add_comm, <- Z.add_assoc, wrap_i64_add_l.
  f_equal. lia.
Qed.

Variable fc : ForkController.

Lemma undelegate_spec epoch k sender id a a' :
  epoch <> DefaultUndelegatedEpoch -> undelegate fc epoch k sender id a = (a', Ok tt) ->
  kapp_Address a' = kapp_Address a /\
  (stake_inv (storage a) -> stake_inv (storage a') /\ same_bls (storage a) (storage a') /\
     only_at k (storage a) (storage a')).
Proof.
  intros He H. unfold undelegate in H.
  step H as a1 v K. apply getValidator_spec in K as [-> Hv].
  step H as a2 p K. apply getValidatorBuckets_spec in K as [-> Hp].
  destruct (pd_Buckets p !! EncodeToString id) as [b|] eqn:Hb; [|done].
  destruct (Z.eqb_spec (UndelegatedEpoch b) DefaultUndelegatedEpoch) as [Ha|]; [|done]. cbn [negb] in H.
  step H as a3 [] K. apply setValidatorBuckets_spec in K as [Ha3 Hs3].
  apply setValidator_spec in H as [Ha4 Hs4]. split; [congruence|]. intros Hinv.
  pose proof (Hinv k) as Hk. unfold stake_at in Hk. rewrite Hv in Hk. destruct Hk as (_ & _ & p0 & Hp0 & Ht & Hn).
  rewrite Hp in Hp0. injection Hp0 as <-.
  assert (active b = pb_Value b) as Eb by (unfold active; by rewrite Ha).
  eapply set_both; [done..| |].
  - rewrite (proj2 (proj2 (addStake_fields _ _ _ _))), Ht. unfold neg_i64. rewrite wrap_i64_add_l, wrap_i64_add_r. f_equal.
    destruct (_ && _) eqn:Ed.
    + rewrite delete_insert_eq. rewrite (booked_delete p _ b Hb). lia.
    + rewrite booked_insert, Hb. cbn. unfold active at 1. cbn. rewrite (proj2 (Z.eqb_neq _ _)) by done. lia.
  - cbn. destruct (_ && _); [rewrite delete_insert_eq, map_size_delete, Hb; lia|].
    rewrite map_size_insert, Hb. done.
Qed.

Lemma replacedBooking_spec k id a a' o :
  fc FixAuditChangesV6 = true -> replacedBooking fc k id a = (a', Ok o) ->
  a' = a /\ exists p, buckets_at (storage a) k = Some p /\ o.1 = Some p /\
    default 0 (active <$> pd_Buckets p !! id) = from_option pb_Value 0 o.2.
Proof.
  intros H6 H. unfold replacedBooking in H. rewrite H6 in H. cbn [negb] in H.
  step H as a1 p K. apply getValidatorBuckets_spec in K as [-> Hp].
  destruct (pd_Buckets p !! id) as [b|] eqn:Hb.
  - unfold active. cbn. destruct (UndelegatedEpoch b =? DefaultUndelegatedEpoch) eqn:E; cbn [negb] in H;
      injection H as <- <-; (split; [done|]); exists p; rewrite Hb; cbn; by rewrite E.
  - injection H as <- <-. split; [done|]. exists p. by rewrite Hb.
Qed.

Lemma replacedBooking_reads k id a : (replacedBooking fc k id a).1 = a.
Proof.
  unfold replacedBooking. destruct (negb _); [done|]. unfold mbind, M_bind.
  pose proof (getValidatorBuckets_reads k a) as E. destruct (getValidatorBuckets k a) as [a1 [p|]]; cbn in E; subst; [|done].
  by destruct (pd_Buckets p !! id); [case_match|].
Qed.

Lemma delegate_spec k id booking p replaced a a' :
  fc EpochRewardsV2 = true -> UndelegatedEpoch booking = DefaultUndelegatedEpoch ->
  buckets_at (storage a) k = Some p ->
  default 0 (active <$> pd_Buckets p !! id) = from_option pb_Value 0 replaced ->
  delegate fc k id booking (Some p) replaced a = (a', Ok tt) ->
  kapp_Address a' = kapp_Address a /\
  (stake_inv (storage a) -> stake_inv (storage a') /\ same_bls (storage a) (storage a') /\
     only_at k (storage a) (storage a')).
Proof.
  intros H2 Hu Hp Hr H. unfold delegate in H.
  step H as a1 v K. apply getValidator_spec in K as [-> Hv]. step H as a2 p' K. injection K as <- <-.
  apply M_bind_ok in H as (? & ? & G & H). apply reject_if_ok in G as [G ->].
  step H as a3 [] K. apply setValidatorBuckets_spec in K as [Ha3 Hs3].
  apply setValidator_spec in H as [Ha4 Hs4]. split; [congruence|]. intros Hinv.
  pose proof (Hinv k) as Hk. unfold stake_at in Hk. rewrite Hv in Hk. destruct Hk as (_ & _ & p0 & Hp0 & Ht & Hn).
  rewrite Hp in Hp0. injection Hp0 as <-.
  assert (active booking = pb_Value booking) as Eb by (unfold active; by rewrite Hu).
  eapply set_both; [done| | |done|done|..]; [done..| | | |].
  - by destruct replaced.
  - by destruct replaced.
  - rewrite booked_insert, Hr, Eb, (proj2 (proj2 (addStake_fields _ _ _ _))).
    destruct replaced as [r|]; cbn [from_option]; rewrite ?(proj2 (proj2 (addStake_fields _ _ _ _))), Ht; unfold neg_i64.
    + rewrite wrap_i64_add3. f_equal. lia.
    + rewrite wrap_i64_add_l. f_equal. lia.
  - cbn. rewrite map_size_insert. destruct (pd_Buckets p !! id) as [b|] eqn:Hb; [done|].
    rewrite H2 in G. rewrite bool_decide_eq_false_2 in G by (by intros [? ?]). cbn in G.
    zify_bools. unfold MaxBucketsPerValidator in *. lia.
Qed.
End stake.

(** ** The key of a validator *)

Section keys.
Context `{TO : TrieOps} `{UA : AccountsAdapter userAccount} `{KA : AccountsAdapter kappAccount}
  `{PA : AccountsAdapter peerAccount} `{CU : Marshalizer UserKDA} `{FP : FloatParsers}
  {CV : Marshalizer ValidatorData} {CB : Marshalizer PeerData}
  {LV : ProtoCodec CV zeroValidator} {LB : ProtoCodec CB zeroPeerData}
  {WL : WorldLaws peerAccount} {VL : ValidatorStores KA PA}.
Implicit Types (w : world peerAccount) (s : string -> string) (pi : string -> option peerAccount).

(** Keys and validators point at each other: the key of a validator is owned by
    it and not revoked, a key that is owned and not revoked is the key of its
    owner, and a key without an owner was never used. *)
Record keys_inv s pi : Prop := {
  ki_bound : forall k v, validator_at s k = Some v ->
    exists p, pi (BlsPubKey v) = Some p /\ pa_OwnerAddress p = k /\ Revoked p = false;
  ki_owner : forall key p, pi key = Some p -> pa_OwnerAddress p <> EmptyString -> Revoked p = false ->
    exists v, validator_at s (pa_OwnerAddress p) = Some v /\ BlsPubKey v = key;
  ki_fresh : forall key p, pi key = Some p -> pa_OwnerAddress p = EmptyString -> BLSPublicKey p = EmptyString;
}.

Lemma keys_inv_same s s' pi pi' :
  same_bls s s' -> (forall k, option_Forall2 same_key (pi k) (pi' k)) -> keys_inv s pi -> keys_inv s' pi'.
Proof.
  intros Hs Hp [Hb Ho Hf]. split.
  - intros k v' Hv'. specialize (Hs k). rewrite Hv' in Hs. cbn in Hs. symmetry in Hs.
    apply fmap_Some in Hs as (v & Hv & ->). destruct (Hb k v Hv) as (p & Hpk & <- & Hr).
    specialize (Hp (BlsPubKey v)). rewrite Hpk in Hp. inversion Hp as [? p' (_ & _ & E1 & E2) |]; subst. eauto with congruence.
  - intros key p' Hp' Hne Hr. specialize (Hp key). rewrite Hp' in Hp. inversion Hp as [p ? (_ & _ & E1 & E2) E |]; subst.
    destruct (Ho key p) as (v & Hv & Hk); [done|congruence..|]. rewrite E1.
    specialize (Hs (pa_OwnerAddress p)). rewrite Hv in Hs. cbn in Hs. apply fmap_Some in Hs as (v' & Hv' & E'). eauto with congruence.
  - intros key p' Hp' He. specialize (Hp key). rewrite Hp' in Hp. inversion Hp as [p ? (_ & E0 & E1 & E2) E |]; subst.
    rewrite E0. eapply Hf; [done|congruence].
Qed.

Record vinv w : Prop := { vi_stake : stake_inv (vstorage w); vi_keys : keys_inv (vstorage w) (peer_at w) }.

(** A revoked key stays revoked. *)
Definition revoked_stay w w' : Prop := forall k p, peer_at w k = Some p -> Revoked p = true ->
  exists p', peer_at w' k = Some p' /\ Revoked p' = true.

Record good w w' : Prop := { go_ok : vok w'; go_inv : vinv w'; go_revoked : revoked_stay w w' }.

Lemma peers_same_revoked w w' : peers_same w w' -> revoked_stay w w'.
Proof.
  intros H k p Hp Hr. specialize (H k). rewrite Hp in H. inversion H as [? p' (_ & _ & _ & E) |]; subst.
  exists p'. split; [done|congruence].
Qed.
Lemma peers_eq_same w w' : (forall k, peer_at w' k = peer_at w k) -> peers_same w w'.
Proof. intros H k. rewrite H. destruct (peer_at w k); constructor. reflexivity. Qed.

(** The keys stay, the stakes are kept right. *)
Lemma good_same_keys w w' :
  vok w' -> peers_same w w' -> vinv w -> stake_inv (vstorage w') -> same_bls (vstorage w) (vstorage w') -> good w w'.
Proof.
  intros Hok Hp [Hs Hk] Hs' Hb. split; [done| |by apply peers_same_revoked]. split; [done|]. by eapply keys_inv_same.
Qed.
Lemma calm_good w w' : calm w w' -> vinv w -> good w w'.
Proof.
  intros [Hok Ha Hp] Hinv. eapply good_same_keys; [done..| |].
  - eapply stake_inv_ext; [done|apply Hinv].
  - by apply same_bls_ext.
Qed.

(** *** Delegating *)

Variable env : validatorEnv.
Hypothesis Hv6 : env_fc env FixAuditChangesV6 = true.
Hypothesis Hv2 : env_fc env EpochRewardsV2 = true.
Hypothesis Hfs : env_fc env FixStakingBuckets = true.
Hypothesis Hlen : 0 < env_pubkeyLen env.

(** A write of the application that keeps stakes and keys right. *)
Definition stake_write w w' : Prop :=
  vkeep w w' /\ (forall k, peer_at w' k = peer_at w k) /\
  stake_inv (vstorage w') /\ same_bls (vstorage w) (vstorage w').

Lemma stake_write_good w w' : stake_write w w' -> vinv w -> good w w'.
Proof.
  intros (Hk & Hp & Hs & Hb) Hinv. apply good_same_keys; [apply Hk|by apply peers_eq_same|done..].
Qed.

Lemma undelegate_write l epoch k sender id w w' :
  epoch <> DefaultUndelegatedEpoch -> vok w -> app_loc w l -> vinv w ->
  on_kapp l (undelegate (env_fc env) epoch k sender id) w = (w', Ok tt) ->
  stake_write w w' /\ only_at k (vstorage w) (vstorage w').
Proof.
  intros He Hok Hl Hinv H.
  destruct (app_op _ _ _ _ _ (fun s s' => stake_inv s -> stake_inv s' /\ same_bls s s' /\ only_at k s s') Hok Hl H)
    as (Hk & Hp & HR).
  - intros a a' Hm. by eapply undelegate_spec.
  - destruct HR as (H1 & H2 & H3); [apply Hinv|]. by split.
Qed.

Lemma good_trans w1 w2 w3 : good w1 w2 -> good w2 w3 -> good w1 w3.
Proof.
  intros [_ _ R1] [? ? R2]. split; [done|done|]. intros k p Hp Hr. destruct (R1 k p Hp Hr) as (p' & Hp' & Hr'). eauto.
Qed.
Lemma quiet_good w w' : quiet w w' -> vinv w -> good w w'.
Proof. intros H. by apply calm_good, quiet_calm. Qed.

Lemma Undelegate_good epoch k sender tc w w' x :
  epoch <> DefaultUndelegatedEpoch -> vok w -> vinv w -> Undelegate env epoch k sender tc w = (w', Ok x) -> good w w'.
Proof.
  intros He Hok Hinv H. unfold Undelegate in H. step H as w1 l K. w_ok.
  apply validatorsApp_spec in K as [Hq Hl]; [|done]. pose proof (quiet_good _ _ Hq Hinv) as G1. eapply good_trans; [exact G1|].
  destruct x0. apply undelegate_write in Hm as [Hw _]; [|done|apply G1|done|apply G1].
  pose proof (stake_write_good _ _ Hw (go_inv _ _ G1)) as G2.
  apply saveKApp_enabled in H as ->; [done|apply G2].
Qed.

Lemma delegate_write l k id booking p replaced w w' :
  UndelegatedEpoch booking = DefaultUndelegatedEpoch -> vok w -> app_loc w l -> vinv w ->
  buckets_at (vstorage w) k = Some p ->
  default 0 (active <$> pd_Buckets p !! id) = from_option pb_Value 0 replaced ->
  on_kapp l (delegate (env_fc env) k id booking (Some p) replaced) w = (w', Ok tt) -> stake_write w w'.
Proof.
  intros Hu Hok Hl Hinv Hp Hr H.
  destruct (on_kapp_write _ _ _ _ _ Hok Hl H) as (Hk & Hpe & a & a' & Hm & E & E').
  { intros a a' Hm. pose proof Hm as Hm'. unfold delegate in Hm. w_ok.
    repeat match goal with
    | K : getValidator _ _ = _ |- _ => apply getValidator_spec in K as [-> _]
    | K : setValidator _ _ _ = (_, Ok ?x) |- _ => destruct x; apply setValidator_spec in K as [? _]
    | K : setValidatorBuckets _ _ _ = (_, Ok ?x) |- _ => destruct x; apply setValidatorBuckets_spec in K as [? _]
    end. congruence. }
  rewrite E in *. destruct (delegate_spec _ _ _ _ _ _ _ _ Hv2 Hu Hp Hr Hm) as [_ HR].
  destruct HR as (H1 & H2 & _); [rewrite <- E; apply Hinv|]. unfold stake_write. by rewrite E, E'.
Qed.

(** The previous delegation is taken back first. *)
Lemma undelegate_first l epoch k sender id w w' (out : list string) :
  epoch <> DefaultUndelegatedEpoch -> vok w -> app_loc w l -> vinv w ->
  (if 0 <? slen k then
     _ ← or_code Transaction_AccountError (on_kapp l (undelegate (env_fc env) epoch k sender id)); mret [k]
   else mret []) w = (w', Ok out) ->
  good w w' /\ app_loc w' l /\ only_at k (vstorage w) (vstorage w').
Proof.
  intros He Hok Hl Hinv H. destruct (0 <? slen k).
  - w_ok. destruct x. apply undelegate_write in Hm as [Hw Ho]; [|done..].
    split; [by apply stake_write_good|]. split; [by apply Hw|done].
  - injection H as <- _. split; [by apply quiet_good, Hinv; apply vquiet_refl|]. split; [done|]. by intros j.
Qed.

Lemma Delegate_good sender time epoch tc w w' ups :
  epoch <> DefaultUndelegatedEpoch -> vok w -> vinv w -> Delegate env sender time epoch tc w = (w', Ok ups) -> good w w'.
Proof.
  intros He Hok Hinv H. unfold Delegate in H. step H as w1 l K. w_ok.
  apply validatorsApp_spec in K as [Hq1 Hl]; [|done].
  apply load_user_quiet in Hm as [Hq2 Hul]; [|apply Hq1|intros; by apply wl_user_get].
  apply app_getValidator in Hm0 as [-> Hv]; [|apply Hq2|by apply Hq2].
  apply (on_user_quiet _ sender) in Hm1; [|apply Hq2|done|by intros a a' r [= <- _]].
  assert (quiet w w3) as Hq by (eauto using vquiet_trans).
  assert (app_loc w3 l) as Hl3 by (apply Hm1; by apply Hq2).
  pose proof (quiet_good _ _ Hq Hinv) as G3. eapply good_trans; [exact G3|].
  destruct (default ∅ x1 !! _) as [bucket|]; [|done]. step H as w4 [] K4. apply reject_if_ok in K4 as [_ ->].
  step H as w5 [] K5. apply reject_if_ok in K5 as [Hne ->]. unfold str_eqb in Hne. zify_bools.
  step H as w6 [pd replaced] K6. apply or_code_ok in K6.
  assert (exists a, vstorage w3 = storage a /\ w6 = w3 /\
            replacedBooking (env_fc env) (dc_ToAddress tc) (EncodeToString (dc_BucketID tc)) a = (a, Ok (pd, replaced)))
    as (a & Ea & -> & Hr).
  { destruct (on_kapp_read l (replacedBooking (env_fc env) (dc_ToAddress tc) (EncodeToString (dc_BucketID tc))) w3 w6
      (pd, replaced)) as (-> & a & Ea & Hr); [apply G3|done|apply replacedBooking_reads|done|eauto]. }
  apply replacedBooking_spec in Hr as [_ (p & Hp & E1 & E2)]; [|done]. cbn in E1, E2. subst pd. rewrite <- Ea in Hp.
  step H as w7 [] K7. apply reject_if_ok in K7 as [_ ->]. step H as w8 up K8.
  destruct (undelegate_first _ _ _ _ _ _ _ _ He (go_ok _ _ G3) Hl3 (go_inv _ _ G3) K8) as (G8 & Hl8 & Ho8).
  eapply good_trans; [exact G8|]. w_ok. destruct x2.
  apply (delegate_write _ _ _ _ p) in Hm; [|done|apply G8|done|apply G8| |done].
  - pose proof (stake_write_good _ _ Hm (go_inv _ _ G8)) as G9. apply saveKApp_enabled in Hm0 as ->; [done|apply G9].
  - by rewrite (proj2 (Ho8 _ Hne)).
Qed.
(** *** Registering *)

(** What the sequence of writes of one peer amounts to. *)
Lemma becomes_trans w1 w2 w3 k p q r :
  peer_becomes w1 w2 k p q -> peer_becomes w2 w3 k q r -> peer_becomes w1 w3 k p r.
Proof.
  intros [K1 A1 O1 N1 F1] [K2 A2 O2 N2 F2]. split; [by eapply vkeep_trans|intros; by rewrite A2|done|done|].
  intros j Hj. by rewrite F2, F1.
Qed.
Lemma becomes_ext w1 w2 w3 k p q q' r :
  peer_becomes w1 w2 k p q -> peer_becomes w2 w3 k q' r -> q' = q.
Proof. intros [_ _ _ N _] [_ _ O _ _]. congruence. Qed.

(** Setting a field of the peer [k] that was changed before. *)
Lemma peer_set_next w1 w2 w3 k l p q f :
  peer_becomes w1 w2 k p q -> peer_loc w2 k l -> peer_set l f w2 = (w3, Ok tt) ->
  (forall p, pa_address (f p) = pa_address p) -> peer_becomes w1 w3 k p (f q) /\ peer_loc w3 k l.
Proof.
  intros H Hl Hs Hf. apply (peer_set_spec _ _ k) in Hs as (q' & Hq); [|apply H|done|done].
  rewrite (becomes_ext _ _ _ _ _ _ _ _ H Hq) in Hq. split; [by eapply becomes_trans|by apply Hq].
Qed.

Lemma claimPeerAccount_spec owner key proof w w' l :
  vok w -> claimPeerAccount env owner key proof w = (w', Ok l) ->
  peer_loc w' key l /\ exists p p', peer_becomes w w' key p p' /\ pa_OwnerAddress p = EmptyString /\
    Revoked p = false /\ pa_OwnerAddress p' = owner /\ BLSPublicKey p' = key /\ Revoked p' = false /\
    AccumulatedFees p' = AccumulatedFees p /\ owner <> EmptyString /\ key <> EmptyString.
Proof.
  intros Hok H. unfold claimPeerAccount in H. step H as w1 l1 K1. apply or_code_ok in K1.
  apply loadPeer_spec in K1 as [Hq Hl]; [|done]. step H as w2 pa K2. apply or_code_ok in K2.
  apply (peer_get_spec _ _ key) in K2 as (-> & p & Hp & ->); [|apply Hq|done]. w_ok.
  rewrite Hfs in *. cbn in *. zify_bools.
  match goal with K : on_peer _ (SetOwnerAddress _) _ = _ |- _ =>
    apply (on_peer_spec _ _ key) in K as (p1 & p2 & M1 & B1); [|apply Hq|done|by intros ? ? M; unfold SetOwnerAddress in M; w_ok] end.
  match goal with K : on_peer _ (SetBLSPublicKey _) _ = _ |- _ =>
    apply (on_peer_spec _ _ key) in K as (p3 & p4 & M2 & B2);
      [|apply B1|by apply B1|by intros ? ? M; unfold SetBLSPublicKey in M; w_ok] end.
  match goal with K : on_cache (UpdatePeer _) _ = _ |- _ => apply UpdatePeer_enabled in K as ->; [|apply B2] end.
  pose proof (becomes_ext _ _ _ _ _ _ _ _ B1 B2) as ->. pose proof (becomes_trans _ _ _ _ _ _ _ B1 B2) as B.
  split; [by apply B|]. exists p1, p4.
  assert (p1 = p) as -> by (pose proof (pb_old _ _ _ _ _ B1); congruence).
  unfold SetOwnerAddress, SetBLSPublicKey in M1, M2. w_ok. cbn in *. zify_bools.
  splits; try done; [by eapply quiet_becomes|by apply slen_zero; unfold slen in *; lia|..]; by intros ->.
Qed.

Lemma slen_pos_ne x : 0 < slen x -> x <> EmptyString.
Proof. by intros H ->. Qed.

(** Binding a fresh key to a validator. *)
Lemma bind_key s s' pi pi' k v key p' :
  keys_inv s pi -> k <> EmptyString ->
  (forall v0, validator_at s k = Some v0 -> exists old', pi' (BlsPubKey v0) = Some old' /\ Revoked old' = true) ->
  (forall p, pi key = Some p -> pa_OwnerAddress p = EmptyString) ->
  validator_at s' k = Some v -> BlsPubKey v = key ->
  (forall j, j <> k -> validator_at s' j = validator_at s j) ->
  pi' key = Some p' -> pa_OwnerAddress p' = k -> Revoked p' = false ->
  (forall j p0, j <> key -> pi' j = Some p0 -> exists p, pi j = Some p /\ pa_OwnerAddress p = pa_OwnerAddress p0 /\
     (Revoked p0 = false -> Revoked p = false) /\ BLSPublicKey p0 = BLSPublicKey p) ->
  (forall j v0 p, j <> k -> validator_at s j = Some v0 -> pi (BlsPubKey v0) = Some p ->
     exists p0, pi' (BlsPubKey v0) = Some p0 /\ pa_OwnerAddress p0 = pa_OwnerAddress p /\ Revoked p0 = Revoked p) ->
  (forall j p0, j <> key -> pi' j = Some p0 -> pa_OwnerAddress p0 = k -> Revoked p0 = true) ->
  keys_inv s' pi'.
Proof.
  intros [Hb Ho Hf] Hk Hold Hfr Hv Hbls Hvs Hp' Hown Hrev Hback Hfwd Honly. split.
  - intros j v0 Hj. destruct (decide (j = k)) as [->|Hne].
    + rewrite Hv in Hj. injection Hj as <-. rewrite Hbls. eauto.
    + rewrite Hvs in Hj by done. destruct (Hb j v0 Hj) as (p & Hp & <- & Hr).
      destruct (Hfwd _ _ _ Hne Hj Hp) as (p0 & Hp0 & E1 & E2). exists p0. by rewrite E1, E2.
  - intros j p0 Hj Hne Hr. destruct (decide (j = key)) as [->|Hjk].
    + rewrite Hp' in Hj. injection Hj as <-. rewrite Hown. eauto.
    + destruct (Hback j p0 Hjk Hj) as (p & Hp & E & Hr' & _).
      assert (pa_OwnerAddress p0 <> k) as Hn.
      { intros E'. rewrite (Honly j p0 Hjk Hj E') in Hr. done. }
      rewrite <- E in *. destruct (Ho j p Hp) as (v0 & Hv0 & E0); [done|auto|]. exists v0. by rewrite Hvs.
  - intros j p0 Hj E. destruct (decide (j = key)) as [->|Hjk]; [congruence|].
    destruct (Hback j p0 Hjk Hj) as (p & Hp & E1 & _ & ->). eapply Hf; [done|congruence].
Qed.

(** The receipts do not matter. *)
Lemma good_cache w w1 w' : good w w1 -> w_cache w' = w_cache w1 -> good w w'.
Proof.
  intros G E. eapply good_trans; [exact G|]. apply quiet_good; [|apply G].
  destruct (go_ok _ _ G) as [[He Hu Hk] Hp]. apply quiet_same; rewrite ?E; try done.
  split; unfold wusers, wkapps in *; by rewrite E.
Qed.

(** A validator that was not there is written with a fresh key. *)
Lemma good_new w w1 w2 owner v key p q :
  vinv w -> validator_at (vstorage w) owner = None -> owner <> EmptyString -> vd_OwnerAddress v = owner ->
  TotalStake v = 0 -> BlsPubKey v = key ->
  peer_becomes w w1 key p q -> pa_OwnerAddress p = EmptyString -> Revoked p = false ->
  pa_OwnerAddress q = owner -> Revoked q = false ->
  app_write w1 w2 (fun s s' => set_validator s s' owner v) -> good w w2.
Proof.
  intros [Hst Hke] Hnone Hne Hown Htot Hbls [Kk Ka Ko Kn Kf] Hpo Hpr Hqo Hqr (Hk2 & Hp2 & [V1 V2 V3 _]).
  assert (validator_at (vstorage w2) owner = Some v) as Hv by (apply V1; by eapply owner_not_zero).
  assert (forall j, j <> owner -> validator_at (vstorage w2) j = validator_at (vstorage w) j) as Hvj
    by (intros j Hj; rewrite V2 by done; unfold validator_at; by rewrite Ka).
  assert (forall j, buckets_at (vstorage w2) j = buckets_at (vstorage w) j) as Hbj
    by (intros j; rewrite V3; unfold buckets_at; by rewrite Ka).
  assert (forall j, j <> key -> peer_at w2 j = peer_at w j) as Hpj by (intros j Hj; by rewrite Hp2, Kf).
  assert (peer_at w2 key = Some q) as Hq by (by rewrite Hp2).
  split; [apply Hk2| |].
  - split.
    + intros j. destruct (decide (j = owner)) as [->|Hj].
      * unfold stake_at. rewrite Hv, Hbj. pose proof (Hst owner) as E. unfold stake_at in E. rewrite Hnone in E.
        splits; [done..|]. exists zeroPeerData. splits; [done| |vm_compute; discriminate].
        rewrite Htot. reflexivity.
      * eapply stake_at_eq; [by apply Hvj|apply Hbj|apply Hst].
    + eapply bind_key; try done; try congruence.
      * intros j p0 Hj Hp0. rewrite Hpj in Hp0 by done. eauto.
      * intros j v0 p0 Hj Hv0 Hp0. exists p0. splits; try done. rewrite Hpj; [done|]. intros E.
        destruct (ki_bound _ _ Hke j v0 Hv0) as (p1 & Hp1 & <- & _). rewrite E, Ko in Hp1. injection Hp1 as <-.
        pose proof (Hst (pa_OwnerAddress p)) as Es. unfold stake_at in Es. rewrite Hv0 in Es. naive_solver.
      * intros j p0 Hj Hp0 E. rewrite Hpj in Hp0 by done.
        destruct (Revoked p0) eqn:Hr; [done|]. destruct (ki_owner _ _ Hke j p0 Hp0) as (v0 & Hv0 & _); [congruence|done|].
        rewrite E in Hv0. congruence.
  - intros j p0 Hp0 Hr. destruct (decide (j = key)) as [->|Hj]; [congruence|]. rewrite Hpj by done. eauto.
Qed.

Lemma Register_good sender tc w w' x : vok w -> vinv w -> Register env sender tc w = (w', Ok x) -> good w w'.
Proof.
  intros Hok Hinv H. unfold Register in H. step H as w1 [] K1.
  assert (w1 = w /\ slen (cv_OwnerAddress tc) = env_pubkeyLen env) as [-> Hown].
  { unfold validateRegisterContract, validateCommissionAndDelegation, validateValidatorMetadata in K1. w_ok. by zify_bools. }
  clear K1. w_ok.
  apply validatorsApp_spec in Hm as [Hq Hl]; [|done]. pose proof (quiet_good _ _ Hq Hinv) as G0.
  apply app_storage in Hm0 as [-> ->]; [|apply G0|done].
  apply claimPeerAccount_spec in Hm1 as (Hl3 & p & p' & B3 & Hp1 & Hp2 & Hp3 & _ & Hp5 & _ & Hne & _); [|apply G0].
  destruct x4, x5, x6.
  destruct (peer_set_next _ _ _ _ _ _ _ _ B3 Hl3 Hm2 ltac:(done)) as [B4 Hl4].
  destruct (peer_set_next _ _ _ _ _ _ _ _ B4 Hl4 Hm3 ltac:(done)) as [B5 Hl5].
  destruct (peer_set_next _ _ _ _ _ _ _ _ B5 Hl5 Hm4 ltac:(done)) as [B6 _]. clear Hm2 Hm3 Hm4 B4 B5.
  apply UpdatePeer_enabled in Hm5 as ->; [|apply B6]. destruct x8.
  apply app_setValidator in Hm6; [|apply B6|by apply B6].
  apply saveKApp_enabled in Hm7 as ->; [|apply Hm6].
  apply (good_cache _ w7); [|done]. eapply good_trans; [exact G0|].
  refine (good_new _ _ _ _ (newValidator env tc) _ _ _ (go_inv _ _ G0) _ Hne eq_refl eq_refl eq_refl B6 Hp1 Hp2 Hp3 Hp5 Hm6).
  unfold validator_at. zify_bools. rewrite (proj2 (Z.eqb_eq _ _)); [done|].
  unfold slen in *. lia.
Qed.
(** *** Rotating a key *)

(** [w] is [w0] with other accounts for the keys [k1] and [k2]. *)
Record two w0 w (k1 k2 : string) (p1 p2 : peerAccount) : Prop := {
  tw_keep : vkeep w0 w;
  tw_app : forall key, vstorage w key = vstorage w0 key;
  tw_1 : peer_at w k1 = Some p1;
  tw_2 : peer_at w k2 = Some p2;
  tw_other : forall j, j <> k1 -> j <> k2 -> peer_at w j = peer_at w0 j;
}.
Lemma two_sym w0 w k1 k2 p1 p2 : two w0 w k1 k2 p1 p2 -> two w0 w k2 k1 p2 p1.
Proof. intros []. split; auto. Qed.
Lemma two_quiet w0 w w' k1 k2 p1 p2 : two w0 w k1 k2 p1 p2 -> quiet w w' -> two w0 w' k1 k2 p1 p2.
Proof.
  intros [K A H1 H2 F] [K' [A' P']]. split; [by eapply vkeep_trans|intros; by rewrite A'|by rewrite P'..|].
  intros. rewrite P'. auto.
Qed.
Lemma two_step {B} w0 w w' k1 k2 p1 p2 l (m : M peerAccount error B) x :
  k1 <> k2 -> two w0 w k1 k2 p1 p2 -> peer_loc w k1 l -> on_peer l m w = (w', Ok x) ->
  (forall p p', m p = (p', Ok x) -> pa_address p' = pa_address p) ->
  exists p', m p1 = (p', Ok x) /\ two w0 w' k1 k2 p' p2 /\ vkeep w w'.
Proof.
  intros Hne [K A H1 H2 F] Hl H Ha. apply (on_peer_spec _ _ k1) in H as (p & p' & Hm & [K' A' O N G]); [|apply K|done..].
  assert (p = p1) as -> by congruence. exists p'. splits; [done| |done].
  split; [by eapply vkeep_trans|intros; by rewrite A'|done|rewrite G by congruence; done|].
  intros j J1 J2. by rewrite G, F.
Qed.
Lemma two_set w0 w w' k1 k2 p1 p2 l f :
  k1 <> k2 -> two w0 w k1 k2 p1 p2 -> peer_loc w k1 l -> peer_set l f w = (w', Ok tt) ->
  (forall p, pa_address (f p) = pa_address p) -> two w0 w' k1 k2 (f p1) p2 /\ vkeep w w'.
Proof.
  intros Hne H Hl Hs Hf. destruct (two_step _ _ _ _ _ _ _ _ _ _ Hne H Hl Hs) as (p' & [= <-] & ? & ?); [|done].
  intros p p' [= <-]. apply Hf.
Qed.
Lemma two_get {B} w0 w w' k1 k2 p1 p2 l (f : peerAccount -> B) x :
  two w0 w k1 k2 p1 p2 -> peer_loc w k1 l -> peer_get l f w = (w', Ok x) -> w' = w /\ x = f p1.
Proof.
  intros [K A H1 H2 F] Hl H. apply (peer_get_spec _ _ k1) in H as (-> & p & Hp & ->); [|apply K|done].
  split; [done|]. congruence.
Qed.

(** A peer of the new key seen for the first time takes the old peer's place. *)
Lemma initRotated_spec w0 w w' kn ko pn po ln lo :
  kn <> ko -> two w0 w kn ko pn po -> peer_loc w kn ln -> peer_loc w ko lo -> BLSPublicKey pn <> kn ->
  initRotatedPeerAccount env ln lo kn w = (w', Ok tt) ->
  exists pn' po', two w0 w' kn ko pn' po' /\ vkeep w w' /\
    pa_OwnerAddress pn' = pa_OwnerAddress pn /\ BLSPublicKey pn' = kn /\ Revoked pn' = Revoked pn /\
    AccumulatedFees pn' = AccumulatedFees po /\ same_key po po' /\
    AccumulatedFees po' = (if env_fc env FixAuditChangesV7 then 0 else AccumulatedFees po).
Proof.
  intros Hne Ht Hln Hlo Hb H. unfold initRotatedPeerAccount in H. step H as w1 bls K1.
  destruct (two_get _ _ _ _ _ _ _ _ _ _ Ht Hln K1) as [-> ->].
  unfold str_eqb in H. rewrite bool_decide_eq_false_2 in H by done.
  step H as w2 [] K2. destruct (two_step _ _ _ _ _ _ _ _ _ _ Hne Ht Hln K2) as (p2 & M2 & T2 & V2).
  { intros p p' M. unfold SetBLSPublicKey in M. w_ok. done. }
  unfold SetBLSPublicKey in M2. w_ok. rewrite Hfs in H. cbn [negb] in H.
  step H as w3 old K3.
  destruct (two_get _ _ _ _ _ _ _ _ _ _ (two_sym _ _ _ _ _ _ T2) (vk_peer _ _ V2 _ _ Hlo) K3) as [-> ->].
  step H as w4 [] K4. destruct (two_set _ _ _ _ _ _ _ _ _ Hne T2 (vk_peer _ _ V2 _ _ Hln) K4 ltac:(done)) as [T4 V4].
  step H as w5 [] K5.
  assert (exists po', two w0 w5 kn ko (CopyFrom po (with_keys pn kn (pa_OwnerAddress pn) (Revoked pn))) po' /\ vkeep w4 w5 /\
    same_key po po' /\ AccumulatedFees po' = (if env_fc env FixAuditChangesV7 then 0 else AccumulatedFees po))
    as (po' & T5 & V5 & Hk & Hf).
  { destruct (env_fc env FixAuditChangesV7).
    - step K5 as w6 [] K6.
      destruct (two_set _ _ _ _ _ _ _ _ _ (not_eq_sym Hne) (two_sym _ _ _ _ _ _ T4)
        (vk_peer _ _ V4 _ _ (vk_peer _ _ V2 _ _ Hlo)) K6 ltac:(done)) as [T6 V6].
      apply UpdatePeer_enabled in K5 as ->; [|apply V6]. exists (ClearEpochAccounting po).
      split; [by apply two_sym|done].
    - injection K5 as <-. exists po. splits; try done. by apply vkeep_refl, V4. }
  step H as w6 pl K6. pose proof (vk_peer _ _ V5 _ _ (vk_peer _ _ V4 _ _ (vk_peer _ _ V2 _ _ Hln))) as Hln5.
  destruct (two_get _ _ _ _ _ _ _ _ _ _ T5 Hln5 K6) as [-> ->].
  assert (vkeep w w5) as V by (eauto using vkeep_trans).
  destruct (bool_decide _).
  - step H as w7 [] K7. destruct (two_set _ _ _ _ _ _ _ _ _ Hne T5 Hln5 K7 ltac:(done)) as [T7 V7].
    step H as w8 [] K8. pose proof (vk_peer _ _ V7 _ _ Hln5) as Hln7.
    destruct (two_set _ _ _ _ _ _ _ _ _ Hne T7 Hln7 K8 ltac:(done)) as [T8 V8].
    destruct (two_set _ _ _ _ _ _ _ _ _ Hne T8 (vk_peer _ _ V8 _ _ Hln7) H ltac:(done)) as [T9 V9].
    eexists _, po'. split; [exact T9|]. splits; try done. eauto using vkeep_trans.
  - injection H as <-. eexists _, po'. split; [exact T5|]. by splits.
Qed.
(** The old key is revoked, the new one bound to the sender with the fees of the
    epoch. *)
Record rotated w w' (sender : string) (old new : string) (fees : Z) : Prop := {
  ro_keep : vkeep w w';
  ro_app : forall key, vstorage w' key = vstorage w key;
  ro_other : forall j, j <> old -> j <> new -> peer_at w' j = peer_at w j;
  ro_old : exists p p', peer_at w old = Some p /\ peer_at w' old = Some p' /\ pa_OwnerAddress p' = pa_OwnerAddress p /\
    BLSPublicKey p' = BLSPublicKey p /\ Revoked p' = true /\ AccumulatedFees p = fees /\
    AccumulatedFees p' = (if env_fc env FixAuditChangesV7 then 0 else fees);
  ro_new : exists p p', peer_at w new = Some p /\ peer_at w' new = Some p' /\ pa_OwnerAddress p = EmptyString /\
    Revoked p = false /\ pa_OwnerAddress p' = sender /\ BLSPublicKey p' = new /\ Revoked p' = false /\
    AccumulatedFees p' = fees;
}.

Lemma rotateBLSKey_spec sender val cfg w w' val' :
  vok w -> vinv w -> validator_at (vstorage w) sender = Some val ->
  BlsPubKey val <> vcf_BLSPublicKey cfg -> vcf_BLSPublicKey cfg <> EmptyString ->
  rotateBLSKey env sender val cfg w = (w', Ok val') ->
  val' = set_BlsPubKey val (vcf_BLSPublicKey cfg) /\
  exists fees, rotated w w' sender (BlsPubKey val) (vcf_BLSPublicKey cfg) fees.
Proof.
  intros Hok Hinv Hv Hne Hnk H. unfold rotateBLSKey in H. rewrite Hv6 in H. cbn iota in H.
  set (kn := vcf_BLSPublicKey cfg) in *. set (ko := BlsPubKey val) in *.
  step H as w1 [] K1. w_ok. unfold loadAndCheckRotationTarget in Hm. step Hm as wt ln K2. apply or_code_ok in K2.
  apply loadPeer_spec in K2 as [Q1 Hln]; [|done]. unfold checkRotationTarget in Hm. step Hm as wu pn K3.
  apply or_code_ok in K3. apply (peer_get_spec _ _ kn) in K3 as (-> & p & Hpn & ->); [|apply Q1|done]. w_ok.
  split; [done|]. unfold id in *.
  assert (peer_at w1 kn = Some p) as Hp1 by (by rewrite <- (ss_peer _ _ (proj2 Q1))).
  assert (pa_OwnerAddress p = EmptyString) as Ho.
  { destruct (decide (pa_OwnerAddress p = EmptyString)) as [|Hn]; [done|]. exfalso.
    destruct (ki_owner _ _ (vi_keys _ Hinv) kn p Hp1 Hn H2) as (v & Hv' & Ek).
    assert (sender = pa_OwnerAddress p) as Es.
    { destruct (Z.ltb_spec 0 (slen (pa_OwnerAddress p))) as [|Hz]; cbn in H.
      - apply negb_false_iff in H. unfold str_eqb in H. by zify_bools.
      - destruct Hn. apply slen_zero. unfold slen in *. lia. }
    rewrite <- Es, Hv in Hv'. injection Hv' as <-. done. }
  pose proof (ki_fresh _ _ (vi_keys _ Hinv) kn p Hp1 Ho) as Hfr.
  unfold revokePeerAccount in Hm1. step Hm1 as wa lo K4. apply loadPeer_spec in K4 as [Q4 Hlo]; [|apply Q1].
  step Hm1 as wb [] K5. destruct (peer_set_spec _ _ ko _ _ (vk_ok _ _ (proj1 Q4)) Hlo K5 ltac:(done)) as (po & B5).
  step Hm1 as wc [] K6. apply UpdatePeer_enabled in K6 as ->; [|apply B5]. injection Hm1 as <- <-.
  pose proof (quiet_becomes _ _ _ _ _ _ (vquiet_trans _ _ _ Q1 Q4) B5) as [Kk Ka Ko Kn Kf].
  assert (two w1 wb kn ko p (SetRevoked po)) as T5 by (split; [done|done|by rewrite Kf by congruence|done|auto]).
  apply loadPeer_spec in Hm2 as [Q6 Hl6]; [|apply B5]. pose proof (two_quiet _ _ _ _ _ _ _ T5 Q6) as T6. destruct x3.
  assert (peer_loc w4 ko lo) as Hlo4 by (apply (proj1 Q6); by apply B5).
  assert (BLSPublicKey p <> kn) as Hbk by congruence.
  destruct (initRotated_spec _ _ _ _ _ _ _ _ _ (not_eq_sym Hne) T6 Hl6 Hlo4 Hbk Hm3)
    as (pn' & po' & T7 & V7 & E1 & E2 & E3 & E4 & E5 & E6).
  destruct (two_step _ _ _ _ _ _ _ _ _ _ (not_eq_sym Hne) T7 (vk_peer _ _ V7 _ _ Hl6) Hm5) as (pn2 & M8 & T8 & V8).
  { intros q q' M. unfold SetOwnerAddress in M. by w_ok. }
  apply UpdatePeer_enabled in Hm6 as ->; [|apply V8]. unfold SetOwnerAddress in M8. w_ok.
  exists (AccumulatedFees po). destruct T8 as [T1 T2 T3 T4 T5'], E5 as (_ & E51 & E52 & E53).
  split; [done|done|auto|exists po, po'; by splits|]. eexists p, _. splits; try done; cbn; congruence.
Qed.
(** Writing other configuration. *)
Lemma good_config w w' k v v' :
  vinv w -> validator_at (vstorage w) k = Some v -> vd_OwnerAddress v' = vd_OwnerAddress v ->
  TotalStake v' = TotalStake v -> BlsPubKey v' = BlsPubKey v ->
  app_write w w' (fun s s' => set_validator s s' k v') -> good w w'.
Proof.
  intros Hinv Hv Ho Ht Hb (Hk & Hp & [V1 V2 V3 _]).
  pose proof (vi_stake _ Hinv k) as Hs. unfold stake_at in Hs. rewrite Hv in Hs. destruct Hs as (Eo & Hne & p & Hpd & Hs).
  assert (validator_at (vstorage w') k = Some v') as Hv' by (apply V1; eapply owner_not_zero; [|exact Hne]; congruence).
  apply good_same_keys; [apply Hk|by apply peers_eq_same|done| |].
  - intros j. destruct (decide (j = k)) as [->|Hj]; [|eapply stake_at_eq, Hinv; auto].
    unfold stake_at. rewrite Hv', V3. splits; [congruence|done|]. exists p. by rewrite Ht.
  - intros j. destruct (decide (j = k)) as [->|Hj]; [rewrite Hv', Hv; cbn; congruence|by rewrite V2].
Qed.

(** Writing the validator of a rotated key. *)
Lemma good_rotated w w1 w2 k v v' new fees :
  vinv w -> validator_at (vstorage w) k = Some v -> new <> BlsPubKey v ->
  vd_OwnerAddress v' = vd_OwnerAddress v -> TotalStake v' = TotalStake v -> BlsPubKey v' = new ->
  rotated w w1 k (BlsPubKey v) new fees ->
  app_write w1 w2 (fun s s' => set_validator s s' k v') -> good w w2.
Proof.
  intros Hinv Hv Hn Ho Ht Hb [Rk Ra Rf (po & po' & O1 & O2 & O3 & O4 & O5 & _) (pn & pn' & N1 & N2 & N3 & N4 & N5 & N6 & N7 & _)]
    (Hk & Hp & [V1 V2 V3 _]).
  pose proof (vi_stake _ Hinv k) as Hs. unfold stake_at in Hs. rewrite Hv in Hs. destruct Hs as (Eo & Hne & p & Hpd & Hs).
  pose proof (vi_keys _ Hinv) as Hki. destruct (ki_bound _ _ Hki k v Hv) as (po0 & Hpo0 & Hown & Hrev).
  assert (po0 = po) as -> by congruence.
  assert (validator_at (vstorage w2) k = Some v') as Hv' by (apply V1; eapply owner_not_zero; [|exact Hne]; congruence).
  assert (forall j, j <> k -> validator_at (vstorage w2) j = validator_at (vstorage w) j) as Hvj
    by (intros j Hj; rewrite V2 by done; unfold validator_at; by rewrite Ra).
  assert (forall j, buckets_at (vstorage w2) j = buckets_at (vstorage w) j) as Hbj
    by (intros j; rewrite V3; unfold buckets_at; by rewrite Ra).
  split; [apply Hk| |].
  - split.
    + intros j. destruct (decide (j = k)) as [->|Hj]; [|eapply stake_at_eq, Hinv; auto].
      unfold stake_at. rewrite Hv', Hbj. splits; [congruence|done|]. exists p. by rewrite Ht.
    + eapply (bind_key _ _ _ _ k v' new pn' Hki); try done.
      * intros v0 E. rewrite Hv in E. injection E as <-. exists po'. by rewrite Hp.
      * intros q Hq. congruence.
      * by rewrite Hp.
      * intros j p0 Hj Hp0. rewrite Hp in Hp0. destruct (decide (j = BlsPubKey v)) as [->|Hjo].
        -- exists po. rewrite O2 in Hp0. injection Hp0 as <-. splits; [done|done|congruence|done].
        -- rewrite Rf in Hp0 by done. eauto.
      * intros j v0 q Hj Hv0 Hq. exists q. splits; try done. rewrite Hp, Rf; [done|..].
        -- intros E. destruct (ki_bound _ _ Hki j v0 Hv0) as (q' & Hq' & Eq & _). congruence.
        -- intros E. destruct (ki_bound _ _ Hki j v0 Hv0) as (q' & Hq' & Eq & _).
           assert (q' = pn) as -> by congruence. rewrite N3 in Eq. subst j.
           pose proof (vi_stake _ Hinv EmptyString) as Es. unfold stake_at in Es. rewrite Hv0 in Es. naive_solver.
      * intros j p0 Hj Hp0 E. rewrite Hp in Hp0. destruct (decide (j = BlsPubKey v)) as [->|Hjo]; [congruence|].
        rewrite Rf in Hp0 by done. destruct (Revoked p0) eqn:Hr; [done|].
        destruct (ki_owner _ _ Hki j p0 Hp0) as (v0 & Hv0 & E0); [congruence|done|]. rewrite E, Hv in Hv0.
        injection Hv0 as <-. done.
  - intros j q Hq Hr. destruct (decide (j = new)) as [->|Hj]; [congruence|].
    destruct (decide (j = BlsPubKey v)) as [->|Hjo]; [exists po'; by rewrite Hp|]. exists q. by rewrite Hp, Rf.
Qed.

Lemma validateMetadata_ok cfg w w' x : validateValidatorMetadata env cfg w = (w', Ok x) -> w' = w.
Proof. intros H. unfold validateValidatorMetadata in H. by w_ok. Qed.

(** A successful update of a validator: with another key its fees move to the
    new key. *)
Lemma UpdateValidator_cases sender tc w w' x :
  vok w -> vinv w -> UpdateValidator env sender tc w = (w', Ok x) ->
  exists w0 w1 w2 v, quiet w w0 /\ vok w1 /\ validator_at (vstorage w) sender = Some v /\ w_cache w' = w_cache w2 /\
    let key := vcf_BLSPublicKey (vcc_Config tc) in
    ((key = EmptyString \/ key = BlsPubKey v) /\ w1 = w0 /\
       app_write w1 w2 (fun s s' => set_validator s s' sender (applyValidatorConfig v (vcc_Config tc))) \/
     key <> EmptyString /\ key <> BlsPubKey v /\ (exists fees, rotated w0 w1 sender (BlsPubKey v) key fees) /\
       app_write w1 w2 (fun s s' => set_validator s s' sender (applyValidatorConfig (set_BlsPubKey v key) (vcc_Config tc)))).
Proof.
  intros Hok Hinv H. unfold UpdateValidator in H. step H as wa [] K1. apply refuse_if_ok in K1 as [_ ->].
  step H as wa [] K2. assert (wa = w) as -> by (unfold validateCommissionAndDelegation in K2; by w_ok). clear K2.
  step H as w0 l K3. apply or_code_ok in K3. apply validatorsApp_spec in K3 as [Q Hl]; [|done].
  pose proof (quiet_good _ _ Q Hinv) as G0.
  step H as wb v K4. apply or_refuse_ok in K4. apply app_getValidator in K4 as [-> Hv]; [|apply G0|done].
  assert (validator_at (vstorage w) sender = Some v) as Hvw
    by (unfold validator_at in *; by rewrite <- (ss_app _ _ (proj2 Q))).
  step H as w1 v1 K5. step H as w2 [] K6. apply or_code_ok in K6. w_ok.
  unfold rotateKeyAndCheckMetadata in K5. rewrite Hv6 in K5. cbn iota in K5.
  step K5 as wc [] K7. apply validateMetadata_ok in K7 as ->. step K5 as wd v2 K8. w_ok.
  set (key := vcf_BLSPublicKey (vcc_Config tc)) in *.
  destruct ((0 <? slen key) && negb (str_eqb (BlsPubKey v) key)) eqn:E.
  - unfold str_eqb in E. zify_bools. assert (key <> EmptyString) as Hke by (by apply slen_pos_ne).
    destruct (rotateBLSKey_spec _ _ _ _ _ _ (go_ok _ _ G0) (go_inv _ _ G0) Hv ltac:(done) Hke K8) as (-> & fees & R).
    apply app_setValidator in K6; [|apply R|by apply R].
    match goal with K : saveKApp _ _ = _ |- _ => apply saveKApp_enabled in K as ->; [|apply K6] end.
    eexists w0, _, w2, v. splits; [done|apply R|done|done|]. right. eauto.
  - injection K8 as <- <-. apply app_setValidator in K6; [|apply G0|done].
    match goal with K : saveKApp _ _ = _ |- _ => apply saveKApp_enabled in K as ->; [|apply K6] end.
    eexists w0, w0, w2, v. splits; [done|apply G0|done|done|]. left. splits; try done.
    apply andb_false_iff in E as [E|E]; unfold str_eqb in E; zify_bools; [left|by right].
    apply slen_zero. unfold slen in *. lia.
Qed.

Lemma UpdateValidator_good sender tc w w' x :
  vok w -> vinv w -> UpdateValidator env sender tc w = (w', Ok x) -> good w w'.
Proof.
  intros Hok Hinv H. destruct (UpdateValidator_cases _ _ _ _ _ Hok Hinv H) as (w0 & w1 & w2 & v & Q & Hok1 & Hv & Hc & Hcase).
  apply (good_cache _ w2); [|done]. pose proof (quiet_good _ _ Q Hinv) as G0. eapply good_trans; [exact G0|].
  assert (validator_at (vstorage w0) sender = Some v) as Hv0
    by (unfold validator_at in *; by rewrite (ss_app _ _ (proj2 Q))).
  destruct Hcase as [(_ & -> & Hw)|(_ & Hne & [fees R] & Hw)].
  - exact (good_config _ _ _ _ (applyValidatorConfig v (vcc_Config tc)) (go_inv _ _ G0) Hv0 eq_refl eq_refl eq_refl Hw).
  - exact (good_rotated _ _ _ _ _ (applyValidatorConfig (set_BlsPubKey v (vcf_BLSPublicKey (vcc_Config tc))) (vcc_Config tc)) _ _
      (go_inv _ _ G0) Hv0 Hne eq_refl eq_refl eq_refl R Hw).
Qed.

(** *** Claiming *)

Lemma Claim_good address w w' x :
  vok w -> vinv w -> ClaimPendingRewards address w = (w', Ok x) -> good w w' /\
    x = pending_at (vstorage w) address /\ pending_at (vstorage w') address = 0 /\
    (forall j, j <> address -> pending_at (vstorage w') j = pending_at (vstorage w) j).
Proof.
  intros Hok Hinv H. unfold ClaimPendingRewards in H. step H as w0 l K1. apply validatorsApp_spec in K1 as [Q Hl]; [|done].
  pose proof (quiet_good _ _ Q Hinv) as G0. step H as w1 y K2. apply app_getPending in K2 as [-> ->]; [|apply G0|done].
  assert (forall j, pending_at (vstorage w0) j = pending_at (vstorage w) j) as Hp
    by (intros j; unfold pending_at; by rewrite (ss_app _ _ (proj2 Q))).
  destruct (Z.eqb_spec (pending_at (vstorage w0) address) 0) as [E|E].
  { injection H as <- <-. split; [done|]. rewrite <- !Hp. by splits. }
  step H as w2 [] K3. step H as w3 [] K4. injection H as <- <-.
  apply (app_op _ _ _ _ _ (fun s s' => set_pending s s' address 0)) in K3 as (Hk & Hpe & [S1 S2 S3 S4]); [|apply G0|done|].
  - apply saveKApp_enabled in K4 as ->; [|apply Hk]. split; [|by rewrite S1, <- Hp; splits; [..|intros; by rewrite S4, Hp]].
    eapply good_trans; [exact G0|]. apply good_same_keys; [apply Hk|by apply peers_eq_same|apply G0| |].
    + intros j. eapply stake_at_eq, G0; auto.
    + intros j. by rewrite S2.
  - intros a a' M. apply setPendingRewards_spec in M as (_ & ? & ?); [done|ilia].
Qed.
End keys.
