(* ===== verification/ValidatorRewards.v ===== *)
(** * The fees of a validator, and runs of the validators application

    Where the fees of blocks go: to the accounts of the members of the
    consensus group, and at the end of an epoch to the delegators, as rewards
    waiting to be claimed.  Runs of the handlers, what holds of stakes and keys
    in every state they reach, and what a key rotation does to fees. *)

From S2P Require Import Prelude Common Strconv GoStd Forks Tools Permissions KdaUtils KdaData DataTrie UserAccount Codec.
From S2P Require Import Balances AccountsCache Staking World SystemAccount KdaKapp WorldLemmas NetParams Proposals ProposalProps Rating Validators PeersUpdate ValidatorLemmas ValidatorProps.
Local Open Scope Z_scope.

(** ** The specification of an epoch's rewards *)

(** A booking earns when it is not taken back and was made before the last
    epoch. *)
Definition earns (epoch : Z) (b : PeerBucket) : bool :=
  negb (UndelegatedEpoch b <=? epoch) &&
  ((DelegatedEpoch b =? 0) || (wrap_u32 (DelegatedEpoch b + 1) <? epoch)).

(** What each address has booked. *)
Definition add_earning (epoch : Z) (m : gmap string Z) (b : PeerBucket) : gmap string Z :=
  if earns epoch b then map_add m (pb_Address b) (pb_Value b) else m.




(** ** The code computes it *)

Section pure.
Variable fc : ForkController.
Hypothesis Hsame : fc FixDelegationSameEpoch = true.
Hypothesis Hsc : fc EnableSmartContracts = true.
Variable range_buckets : gmap string PeerBucket -> list (string * PeerBucket).
Variable range_amounts : gmap string Z -> list (string * Z).
Hypothesis Hrb : forall m, range_buckets m ≡ₚ map_to_list m.
Hypothesis Hra : forall m, range_amounts m ≡ₚ map_to_list m.



(** The fold over the buckets, component by component. *)
Definition earned (epoch : Z) (b : PeerBucket) : Z := if earns epoch b then pb_Value b else 0.

Lemma bucketsV2_fold epoch l r ks :
  let out := fold_left (bucketV2 fc epoch) l (r, ks) in
  accumulatedDelegations out.1 = fold_left (add_earning epoch) (snd <$> l) (accumulatedDelegations r) /\
  (is_i64 (totalDelegated r) -> totalDelegated out.1 = wrap_i64 (totalDelegated r + zsum (earned epoch ∘ snd <$> l))) /\
  out.2 = ks ++ (fst <$> filter (fun kb => UndelegatedEpoch kb.2 <= epoch) l).
Proof.
  revert r ks. induction l as [|[k b] l IH]; intros r ks.
  { cbn. rewrite app_nil_r, Z.add_0_r. splits; try done. intros H. by rewrite wrap_i64_id. }
  cbn [fold_left].
  assert (bucketV2 fc epoch (r, ks) (k, b) =
    if UndelegatedEpoch b <=? epoch then (add_undelegated r b, ks ++ [k])
    else if earns epoch b then (add_delegated r b, ks) else (r, ks)) as ->.
  { unfold bucketV2, earns. rewrite Hsame. cbn [andb]. by destruct (UndelegatedEpoch b <=? epoch). }
  cbn [fmap list_fmap snd zsum foldr fold_left compose]. unfold add_earning at 2, earned at 1.
  destruct (Z.leb_spec (UndelegatedEpoch b) epoch) as [Hu|Hu].
  - assert (earns epoch b = false) as -> by (unfold earns; by rewrite (proj2 (Z.leb_le _ _) Hu)).
    destruct (IH (add_undelegated r b) (ks ++ [k])) as (E1 & E2 & E3). rewrite filter_cons_True by done.
    cbv zeta. splits; [done|done|]. rewrite E3, <- app_assoc. done.
  - rewrite filter_cons_False by (cbn; lia). destruct (earns epoch b).
    + destruct (IH (add_delegated r b) ks) as (E1 & E2 & E3). cbv zeta. splits; [done| |done].
      intros Hi. rewrite E2 by apply wrap_i64_range. cbn [totalDelegated add_delegated]. rewrite wrap_i64_add_l. f_equal. unfold compose, zsum. lia.
    + by apply IH.
Qed.
(** *** Amounts without overflow *)







(** Only bookings taken back are marked for removal. *)
Lemma expired_keys epoch p k :
  k ∈ (processBucketDelegationsV2 fc range_buckets p epoch).2 ->
  exists b, pd_Buckets p !! k = Some b /\ UndelegatedEpoch b <= epoch.
Proof.
  intros Hk. destruct (bucketsV2_fold epoch (range_buckets (pd_Buckets p)) noBuckets []) as (_ & _ & E3).
  unfold processBucketDelegationsV2 in Hk. rewrite E3 in Hk. cbn in Hk.
  apply list_elem_of_fmap in Hk as ([k' b] & -> & Hin). apply list_elem_of_filter in Hin as [Hu Hin].
  rewrite (Hrb (pd_Buckets p)) in Hin. apply elem_of_map_to_list in Hin. eauto.
Qed.


(** *** Shares *)


Definition share (rest total amount : Z) : Z := rest * amount / total.





(** *** Sums of amounts *)




End pure.

(** ** The end of an epoch *)

Lemma status_fields v sf je ja wa nj tr :
  let v' := set_status v sf je ja wa nj tr in
  vd_OwnerAddress v' = vd_OwnerAddress v /\ BlsPubKey v' = BlsPubKey v /\ TotalStake v' = TotalStake v.
Proof. done. Qed.
Lemma jail_fields v l epoch :
  let v' := updateValidatorJailStatus v l epoch in
  vd_OwnerAddress v' = vd_OwnerAddress v /\ BlsPubKey v' = BlsPubKey v /\ TotalStake v' = TotalStake v.
Proof. unfold updateValidatorJailStatus. repeat case_match; done. Qed.
Lemma list_status_same v a b c p : same_key p (updatePeerListStatus v a b c p).
Proof. unfold updatePeerListStatus. repeat case_match; done. Qed.
Lemma list_status_fees v a b c p : AccumulatedFees (updatePeerListStatus v a b c p) = AccumulatedFees p.
Proof. unfold updatePeerListStatus. repeat case_match; done. Qed.

Section epoch.
Context `{TO : TrieOps} `{UA : AccountsAdapter userAccount} `{KA : AccountsAdapter kappAccount}
  `{PA : AccountsAdapter peerAccount} `{CU : Marshalizer UserKDA} `{FP : FloatParsers}
  {CV : Marshalizer ValidatorData} {CB : Marshalizer PeerData}
  {LV : ProtoCodec CV zeroValidator} {LB : ProtoCodec CB zeroPeerData}
  {WL : WorldLaws peerAccount} {VL : ValidatorStores KA PA}.
Variable env : updateEnv.
Hypothesis Hv2 : env_fc env EpochRewardsV2 = true.
Hypothesis Hfs : env_fc env FixStakingBuckets = true.
Hypothesis Hsame : env_fc env FixDelegationSameEpoch = true.
Hypothesis Hsc : env_fc env EnableSmartContracts = true.
Variable range_buckets : gmap string PeerBucket -> list (string * PeerBucket).
Variable range_amounts : gmap string Z -> list (string * Z).
Hypothesis Hrb : forall m, range_buckets m ≡ₚ map_to_list m.
Hypothesis Hra : forall m, range_amounts m ≡ₚ map_to_list m.
Implicit Types (w : world peerAccount) (s : string -> string).

(** The validator at [addr] has its epoch closed: its account holds no fees,
    its stake and key are as before, and nobody else is touched. *)
Record closed w w' (addr : string) (v : ValidatorData) : Prop := {
  cl_keep : vkeep w w';
  cl_bls : same_bls (vstorage w) (vstorage w');
  cl_good : good w w';
  cl_only : only_at addr (vstorage w) (vstorage w');
  cl_pending : forall j, pending_at (vstorage w') j = pending_at (vstorage w) j;
  cl_peer : exists q', peer_at w' (BlsPubKey v) = Some q' /\ AccumulatedFees q' = 0;
  cl_others : forall j, j <> BlsPubKey v -> peer_at w' j = peer_at w j;
}.

Lemma close_validator_spec w w' l addr v p p' q lp r epoch ms mt :
  vok w -> vinv w -> app_loc w l -> validator_at (vstorage w) addr = Some v -> buckets_at (vstorage w) addr = Some p ->
  peer_loc w (BlsPubKey v) lp -> peer_at w (BlsPubKey v) = Some q ->
  booked p' = booked p -> Z.of_nat (size (pd_Buckets p')) <= MaxBucketsPerValidator ->
  close_validator env l addr v lp p' r epoch ms mt w = (w', Ok tt) -> closed w w' addr v.
Proof.
  intros Hok Hinv Hl Hv Hp Hlp Hq Hb Hn H. unfold close_validator in H. step H as w1 li K1.
  apply (peer_get_spec _ _ (BlsPubKey v)) in K1 as (-> & q0 & Hq0 & ->); [|done|done].
  assert (q0 = q) as -> by congruence. clear Hq0.
  set (v1 := updateValidatorJailStatus _ _ _) in *.
  destruct (jail_fields (set_SelfStaked v (ms <=? SelfStake v)) (List q) epoch) as (F1 & F2 & F3).
  fold v1 in F1, F2, F3.
  step H as w2 tot K2. unfold updateStakingBuckets in K2. rewrite Hfs in K2. cbn [negb] in K2.
  step K2 as w3 [] K3. injection K2 as <- _. apply app_setPd in K3 as (V3 & P3 & S3); [|done|done].
  step H as w4 [] K4. destruct (peer_set_spec _ _ (BlsPubKey v) _ _ (vk_ok _ _ V3) (vk_peer _ _ V3 _ _ Hlp) K4) as (q1 & B4).
  { intros x. apply list_status_same. }
  assert (q1 = q) as -> by (pose proof (pb_old _ _ _ _ _ B4) as E; rewrite P3 in E; congruence).
  unfold finalizeValidatorEpoch in H. step H as w5 q2 K5.
  pose proof (vk_peer _ _ (pb_keep _ _ _ _ _ B4) _ _ (vk_peer _ _ V3 _ _ Hlp)) as Hlp4.
  apply (peer_get_spec _ _ (BlsPubKey v)) in K5 as (-> & q3 & Hq3 & ->); [|apply B4|done].
  step H as w6 [] K6. destruct (peer_set_next _ _ _ _ _ _ _ _ B4 Hlp4 K6 ltac:(done)) as [B6 _].
  step H as w7 [] K7. apply UpdatePeer_enabled in K7 as ->; [|apply B6].
  apply app_setValidator in H as (V7 & P7 & S7); [|apply B6|by apply B6, V3].
  assert (vkeep w w') as V by (eapply vkeep_trans; [exact V3|]; eapply vkeep_trans; [apply B6|done]).
  assert (forall key, vstorage w6 key = vstorage w3 key) as Es by apply B6.
  assert (set_validator (vstorage w3) (vstorage w') addr _) as S7' by
    (destruct S7 as [A1 A2 A3 A4]; split;
     [exact A1|intros j Hj; rewrite A2 by done; unfold validator_at; by rewrite Es
     |intros j; rewrite A3; unfold buckets_at; by rewrite Es|intros j; rewrite A4; unfold pending_at; by rewrite Es]).
  destruct (set_both _ _ _ _ _ _ _ _ (vi_stake _ Hinv) Hv Hp S3 S7') as (I1 & I2 & I3); [done|done| |done|].
  { rewrite Hb. pose proof (vi_stake _ Hinv addr) as E. unfold stake_at in E. rewrite Hv, Hp in E.
    destruct E as (_ & _ & p0 & [= <-] & Ht & _). rewrite <- Ht. exact F3. }
  assert (peers_same w w') as Hps.
  { intros j. rewrite P7. destruct (decide (j = BlsPubKey v)) as [->|Hj].
    - rewrite (pb_new _ _ _ _ _ B6), Hq. constructor. etransitivity; [apply list_status_same|done].
    - rewrite (pb_other _ _ _ _ _ B6) by done. rewrite P3. destruct (peer_at w j); constructor. reflexivity. }
  split; [done|done|by apply good_same_keys; [apply V|..]|done| | |].
  - intros j. destruct S7' as [_ _ _ A4], S3 as [_ _ _ A5]. by rewrite A4, A5.
  - eexists. rewrite P7. split; [apply B6|done].
  - intros j Hj. by rewrite P7, (pb_other _ _ _ _ _ B6), P3.
Qed.
Definition epoch_ok (epoch : Z) : Prop := 0 <= epoch < DefaultUndelegatedEpoch.

Lemma booked_without p ks :
  (forall k b, k ∈ ks -> pd_Buckets p !! k = Some b -> active b = 0) ->
  booked {| pd_Buckets := foldr delete (pd_Buckets p) ks |} = booked p /\
  (size (foldr delete (pd_Buckets p) ks) <= size (pd_Buckets p))%nat.
Proof.
  intros H. induction ks as [|k ks IH]; [by destruct p|]. cbn [foldr].
  destruct IH as [IH1 IH2]; [intros; eapply H; [by right|done]|]. set (m := foldr delete (pd_Buckets p) ks) in *.
  rewrite map_size_delete. destruct (m !! k) as [b|] eqn:E; [|by rewrite delete_id].
  split; [|lia]. pose proof (booked_delete {| pd_Buckets := m |} k b E) as X. cbn [pd_Buckets] in X.
  rewrite <- IH1, X, (H k b); [lia|left|].
  clear -E. subst m. induction ks as [|j ks IH]; [done|]. cbn in E. apply lookup_delete_Some in E as [_ E]. by apply IH.
Qed.

(** The fees an address is owed for, and what its epoch pays. *)
Definition fees_of w (addr : string) : Z :=
  match validator_at (vstorage w) addr with
  | Some v => from_option AccumulatedFees 0 (peer_at w (BlsPubKey v))
  | None => 0
  end.

(** What an epoch's end does for one validator. *)
Lemma epochV2_parts l epoch ms mt info totals w w' totals' :
  epoch_ok epoch -> vok w -> vinv w -> app_loc w l ->
  processValidatorEpochV2 env range_buckets range_amounts l epoch ms mt info totals w = (w', Ok totals') ->
  let addr := in_OwnerAddress info in
  exists v p local, validator_at (vstorage w) addr = Some v /\ buckets_at (vstorage w) addr = Some p /\
    closed w w' addr v /\ totals' = add_all range_amounts totals local /\
    calculateDelegationRewardsV2 (env_fc env) range_amounts v (fees_of w addr)
      (processBucketDelegationsV2 (env_fc env) range_buckets p epoch).1 = Ok local.
Proof.
  intros He Hok Hinv Hl H addr. unfold processValidatorEpochV2 in H. fold addr in H.
  step H as w1 p K1. apply app_getBuckets in K1 as [-> Hp]; [|done|done].
  destruct (processBucketDelegationsV2 _ _ _ _) as [r ks] eqn:Er.
  step H as w1 v K2. apply app_getValidator in K2 as [-> Hv]; [|done|done].
  step H as w2 lp K3. apply loadPeer_spec in K3 as [Q Hlp]; [|done].
  step H as w3 fees K4. apply (peer_get_spec _ _ (BlsPubKey v)) in K4 as (-> & q & Hq & ->); [|apply Q|done].
  assert (peer_at w (BlsPubKey v) = Some q) as Hq' by (by rewrite <- (ss_peer _ _ (proj2 Q))).
  assert (fees_of w addr = AccumulatedFees q) as Ef by (unfold fees_of; by rewrite Hv, Hq').
  step H as w3 local K5. injection K5 as <- K5. step H as w4 [] K6. injection H as <- <-.
  exists v, p, local. split; [done|]. split; [done|]. split; [|rewrite Ef, Er; by split].
  pose proof (quiet_good _ _ Q Hinv) as GQ.
  assert (forall key, vstorage w2 key = vstorage w key) as Es by apply Q.
  destruct (booked_without p ks) as [Eb Hsz].
  { intros k b Hk Hb. destruct (expired_keys (env_fc env) Hsame range_buckets Hrb epoch p k) as (b' & Hb' & Hu); [by rewrite Er|].
    rewrite Hb in Hb'. injection Hb' as <-. unfold active. rewrite (proj2 (Z.eqb_neq _ _)); [done|]. unfold epoch_ok in He. lia. }
  apply (close_validator_spec _ _ _ _ _ p _ q) in K6 as [C1 CB' C2 C3 C4 C5 C6].
  - split; [by eapply vkeep_trans; [apply Q|]|eapply same_bls_trans; [by apply same_bls_ext|done]|by eapply good_trans| | |done|].
    + intros j Hj. destruct (C3 j Hj) as [E1 E2]. unfold validator_at, buckets_at in *. by rewrite E1, E2, Es, Es.
    + intros j. rewrite C4. unfold pending_at. by rewrite Es.
    + intros j Hj. by rewrite C6, (ss_peer _ _ (proj2 Q)).
  - apply Q.
  - apply GQ.
  - by apply Q.
  - unfold validator_at in *. by rewrite Es.
  - unfold buckets_at in *. by rewrite Es.
  - done.
  - done.
  - done.
  - cbn [pd_Buckets]. pose proof (vi_stake _ Hinv addr) as E. unfold stake_at in E. rewrite Hv, Hp in E.
    destruct E as (_ & _ & p0 & [= <-] & _ & Hsize). lia.
Qed.


(** *** All validators *)







(** *** Booking the rewards *)

Lemma pending_range s a : is_i64 (pending_at s a).
Proof. unfold pending_at. destruct (_ =? 8); [apply wrap_i64_range|ilia]. Qed.
Definition save_reward (l : nat) (kv : string * Z) : M (world peerAccount) error unit :=
  if kv.2 =? 0 then mret tt else on_kapp l (addToPendingRewards kv.1 kv.2).

(** An addition that overflows is refused. *)
Lemma save_reward_write l kv w w' :
  vok w -> app_loc w l -> save_reward l kv w = (w', Ok tt) ->
  app_write w w' (fun s s' => set_pending s s' kv.1 (pending_at s kv.1 +! kv.2) /\ (kv.2 = 0 \/ 0 <= pending_at s kv.1 +! kv.2)).
Proof.
  intros Hok Hl H. unfold save_reward in H. destruct (Z.eqb_spec kv.2 0) as [E|E].
  { injection H as <-. split; [by apply vkeep_refl|]. split; [done|]. rewrite E, Z.add_0_r.
    rewrite wrap_i64_id by apply pending_range. split; [by split|by left]. }
  eapply app_op; [done..|]. intros a a' Hm. unfold addToPendingRewards in Hm. rewrite (proj2 (Z.eqb_neq _ _) E) in Hm.
  step Hm as b1 c K. apply getPendingRewards_spec in K as [-> ->].
  apply setPendingRewards_spec in Hm as (? & ? & ?); [by auto|].
  pose proof (wrap_i64_range (pending_at (storage a) kv.1 + kv.2)). ilia.
Qed.




(** *** Stakes and keys whatever the amounts *)

Lemma good_refl w : vok w -> vinv w -> good w w.
Proof. intros Hok. by apply quiet_good, vquiet_refl. Qed.

Lemma epoch_loop_good l epoch ms mt infos totals w w' totals' :
  epoch_ok epoch -> vok w -> vinv w -> app_loc w l ->
  each_validator (processValidatorEpochV2 env range_buckets range_amounts l epoch ms mt) infos totals w = (w', Ok totals') ->
  vkeep w w' /\ good w w'.
Proof.
  intros He. revert w totals. induction infos as [|info infos IH]; intros w totals Hok Hinv Hl H.
  { injection H as <- _. split; [by apply vkeep_refl|by apply good_refl]. }
  cbn [each_validator] in H. step H as w1 t1 K1.
  destruct (epochV2_parts _ _ _ _ _ _ _ _ _ He Hok Hinv Hl K1) as (v & p & local & _ & _ & C & _).
  destruct (IH w1 t1) as [V G]; [apply C|apply C|by apply (cl_keep _ _ _ _ C)|done|].
  split; [exact (vkeep_trans _ _ _ (cl_keep _ _ _ _ C) V)|exact (good_trans _ _ _ (cl_good _ _ _ _ C) G)].
Qed.

Lemma save_rewards_good l kvs w w' :
  vok w -> app_loc w l -> vinv w -> for_each (save_reward l) kvs w = (w', Ok tt) -> good w w'.
Proof.
  revert w. induction kvs as [|kv kvs IH]; intros w Hok Hl Hinv H; [injection H as <-; by apply good_refl|].
  cbn [for_each] in H. step H as w1 [] K1. destruct (save_reward_write _ _ _ _ Hok Hl K1) as (V & P & [_ S2 S3 _] & _).
  assert (good w w1) as G.
  { apply good_same_keys; [apply V|by apply peers_eq_same|done| |].
    - intros j. eapply stake_at_eq, Hinv; auto.
    - intros j. by rewrite S2. }
  eapply good_trans; [exact G|]. eapply IH; [apply V|by apply V|apply G|done].
Qed.

Lemma epoch_good epoch infos w w' :
  epoch_ok epoch -> vok w -> vinv w ->
  ProcessEconomicsEndOfEpoch env range_buckets range_amounts epoch infos w = (w', Ok tt) -> good w w'.
Proof.
  intros He Hok Hinv H. unfold ProcessEconomicsEndOfEpoch in H. rewrite Hv2 in H. cbn [negb] in H.
  step H as w0 [] K0. apply SaveAll_spec in K0 as [Hok0 S0]; [|done].
  pose proof (calm_good _ _ (same_state_calm _ _ Hok0 S0) Hinv) as G0.
  unfold ProcessEconomicsEndOfEpochV2 in H. step H as w1 prm K1. injection K1 as <- _.
  step H as w1 l K2. apply validatorsApp_spec in K2 as [Q1 Hl]; [|done].
  pose proof (good_trans _ _ _ G0 (quiet_good _ _ Q1 (go_inv _ _ G0))) as G1.
  step H as w2 totals K3. destruct (epoch_loop_good _ _ _ _ _ _ _ _ _ He (go_ok _ _ G1) (go_inv _ _ G1) Hl K3) as [V2 G2].
  step H as w3 [] K4. pose proof (save_rewards_good _ _ _ _ (go_ok _ _ G2) (vk_app _ _ V2 _ Hl) (go_inv _ _ G2) K4) as G3.
  step H as w4 [] K5. apply saveKApp_enabled in K5 as ->; [|apply G3].
  apply SaveAll_spec in H as [Hok4 S4]; [|apply G3].
  pose proof (calm_good _ _ (same_state_calm _ _ Hok4 S4) (go_inv _ _ G3)) as G4.
  eapply good_trans; [exact G1|]. eapply good_trans; [exact G2|]. by eapply good_trans.
Qed.

End epoch.

(** ** Runs of the application *)

Section runs.
Context `{TO : TrieOps} `{UA : AccountsAdapter userAccount} `{KA : AccountsAdapter kappAccount}
  `{PA : AccountsAdapter peerAccount} `{CU : Marshalizer UserKDA} `{FP : FloatParsers}
  {CV : Marshalizer ValidatorData} {CB : Marshalizer PeerData}
  {LV : ProtoCodec CV zeroValidator} {LB : ProtoCodec CB zeroPeerData}
  {WL : WorldLaws peerAccount} {VL : ValidatorStores KA PA}.
Variable range_buckets : gmap string PeerBucket -> list (string * PeerBucket).
Variable range_amounts : gmap string Z -> list (string * Z).
Variable range_missed : gmap string RateChange -> list (string * RateChange).
Hypothesis Hrb : forall m, range_buckets m ≡ₚ map_to_list m.
Implicit Types (w : world peerAccount) (env : updateEnv).

(** The forks of the current rules are on. *)
Record current env : Prop := {
  cu_v6 : env_fc env FixAuditChangesV6 = true;
  cu_v2 : env_fc env EpochRewardsV2 = true;
  cu_fs : env_fc env FixStakingBuckets = true;
  cu_same : env_fc env FixDelegationSameEpoch = true;
  cu_len : 0 < env_pubkeyLen env;
}.

(** A successful call, in a context of its own: a contract, or what the block
    processor does to the validators. *)
Inductive validator_step w w' : Prop :=
| vs_Register env sender tc x : current env -> Register env sender tc w = (w', Ok x) -> validator_step w w'
| vs_UpdateValidator env sender tc x :
    current env -> UpdateValidator env sender tc w = (w', Ok x) -> validator_step w w'
| vs_Unjail env sender x : Unjail env sender w = (w', Ok x) -> validator_step w w'
| vs_Delegate env sender time epoch tc x :
    current env -> epoch_ok epoch -> Delegate env sender time epoch tc w = (w', Ok x) -> validator_step w w'
| vs_Undelegate env epoch validator sender tc x :
    current env -> epoch_ok epoch -> Undelegate env epoch validator sender tc w = (w', Ok x) -> validator_step w w'
| vs_Claim address x : ClaimPendingRewards address w = (w', Ok x) -> validator_step w w'
| vs_Economics env epoch infos :
    current env -> epoch_ok epoch ->
    ProcessEconomicsEndOfEpoch env range_buckets range_amounts epoch infos w = (w', Ok tt) -> validator_step w w'
| vs_Ratings env infos x : ProcessRatingsEndOfEpoch env infos w = (w', Ok x) -> validator_step w w'
| vs_Reset env infos x : ResetValidatorStatisticsAtNewEpoch env infos w = (w', Ok x) -> validator_step w w'
| vs_Missed env missed x : UpdateMissedBlocksCounters env range_missed missed w = (w', Ok x) -> validator_step w w'
| vs_Lists env owners peerType x : SaveUpdatesForNodesMap env owners peerType w = (w', Ok x) -> validator_step w w'
| vs_DecreaseAll env keys missed size x : DecreaseAll env keys missed size w = (w', Ok x) -> validator_step w w'
| vs_Decrease env key proposer x : DecreaseTempRating env key proposer w = (w', Ok x) -> validator_step w w'
| vs_Block env keys bitmap fees x :
    UpdateValidatorInfoOnSuccessfulBlock env keys bitmap fees w = (w', Ok x) -> validator_step w w'
| vs_Save x : on_cache SaveAll w = (w', Ok x) -> validator_step w w'.

Lemma benign_good {E B} (m : M (world peerAccount) E B) w w' x :
  benign m -> vok w -> vinv w -> m w = (w', Ok x) -> good w w'.
Proof. intros Hm Hok Hinv H. eapply calm_good; [|done]. by eapply Hm. Qed.

Lemma step_good w w' : vok w -> vinv w -> validator_step w w' -> good w w'.
Proof.
  intros Hok Hinv H. assert (forall e, epoch_ok e -> e <> DefaultUndelegatedEpoch) as He by (unfold epoch_ok; intros; lia).
  destruct H as [env sender tc x [] H|env sender tc x [] H|env sender x H|env sender time epoch tc x [] ? H
    |env epoch validator sender tc x [] ? H|address x H|env epoch infos [] ? H|env infos x H|env infos x H|env missed x H
    |env owners peerType x H|env keys missed size x H|env key proposer x H|env keys bitmap fees x H|x H].
  - by eapply Register_good.
  - by eapply UpdateValidator_good.
  - eapply benign_good; [apply benign_unjail|done|done|exact H].
  - eapply Delegate_good; eauto.
  - eapply Undelegate_good; eauto.
  - by eapply Claim_good.
  - by eapply epoch_good.
  - eapply benign_good; [apply benign_ratings|done|done|exact H].
  - eapply benign_good; [apply benign_reset|done|done|exact H].
  - eapply benign_good; [apply benign_missed|done|done|exact H].
  - eapply benign_good; [apply benign_save_updates|done|done|exact H].
  - eapply benign_good; [apply benign_decrease_all|done|done|exact H].
  - eapply benign_good; [apply benign_decrease|done|done|exact H].
  - eapply benign_good; [apply benign_block|done|done|exact H].
  - eapply benign_good; [apply benign_SaveAll|done|done|exact H].
Qed.

Lemma run_good w0 w : vok w0 -> vinv w0 -> rtc validator_step w0 w -> good w0 w.
Proof.
  intros Hok Hinv H. induction H as [w|w1 w2 w3 Hs _ IH]; [by apply good_refl|].
  pose proof (step_good _ _ Hok Hinv Hs) as G. eapply good_trans; [exact G|]. apply IH; apply G.
Qed.

(** C7: whatever contracts of the validators application and block updates have
    succeeded under the current rules (V6, EpochRewardsV2, FixStakingBuckets and
    FixDelegationSameEpoch), the total stake of every validator is the 64-bit sum
    of the bookings on it that are not taken back, so exactly their sum whenever
    it fits; there are no more bookings than the limit, and an address that is
    no validator has no bookings. *)
Theorem stake_totals_exact w0 w :
  vok w0 -> vinv w0 -> rtc validator_step w0 w ->
  forall addr, match validator_at (vstorage w) addr with
  | Some v => vd_OwnerAddress v = addr /\
      exists p, buckets_at (vstorage w) addr = Some p /\
        TotalStake v = wrap_i64 (msum active (pd_Buckets p)) /\
        (is_i64 (msum active (pd_Buckets p)) -> TotalStake v = msum active (pd_Buckets p)) /\
        Z.of_nat (size (pd_Buckets p)) <= MaxBucketsPerValidator
  | None => buckets_at (vstorage w) addr = Some zeroPeerData
  end.
Proof.
  intros Hok Hinv H addr. pose proof (vi_stake _ (go_inv _ _ (run_good _ _ Hok Hinv H)) addr) as E. unfold stake_at in E.
  destruct (validator_at (vstorage w) addr) as [v|]; [|done]. destruct E as (E1 & _ & p & E2 & E3 & E4).
  split; [done|]. exists p. splits; [done|done| |done]. intros Hi. rewrite <- (wrap_i64_id _ Hi). exact E3.
Qed.

(** C8: whatever the validators application has executed under the current
    rules (V6, EpochRewardsV2, FixStakingBuckets and FixDelegationSameEpoch), no two validators
    share a BLS key, the account of a validator's key belongs to it and is not
    revoked, and a key that was ever revoked is revoked for good. *)
Theorem bls_keys_bound w0 w :
  vok w0 -> vinv w0 -> rtc validator_step w0 w ->
  (forall a b va vb, validator_at (vstorage w) a = Some va -> validator_at (vstorage w) b = Some vb ->
     BlsPubKey va = BlsPubKey vb -> a = b) /\
  (forall a v, validator_at (vstorage w) a = Some v ->
     exists p, peer_at w (BlsPubKey v) = Some p /\ pa_OwnerAddress p = a /\ Revoked p = false) /\
  (forall key p, peer_at w0 key = Some p -> Revoked p = true ->
     (exists p', peer_at w key = Some p' /\ Revoked p' = true) /\
     forall a v, validator_at (vstorage w) a = Some v -> BlsPubKey v <> key).
Proof.
  intros Hok Hinv H. destruct (run_good _ _ Hok Hinv H) as [_ [_ Hk] Hr]. splits.
  - intros a b va vb Ha Hb E. destruct (ki_bound _ _ Hk _ _ Ha) as (p & Hp & Ep & _).
    destruct (ki_bound _ _ Hk _ _ Hb) as (q & Hq & Eq & _). congruence.
  - apply Hk.
  - intros key p Hp Hv. destruct (Hr key p Hp Hv) as (p' & Hp' & Hv'). split; [eauto|].
    intros a v Ha <-. destruct (ki_bound _ _ Hk _ _ Ha) as (q & Hq & _ & Hq'). congruence.
Qed.

(** *** Rotating a key *)

Lemma cache_same_state w w' : w_cache w' = w_cache w -> same_state w w'.
Proof. intros E. split; intros; unfold vstorage, kapp_obj, wkapps, peer_at; by rewrite E. Qed.

(** C19: under the current rules (V6, EpochRewardsV2, FixStakingBuckets and
    FixDelegationSameEpoch), a validator that changes its BLS key keeps the fees
    of the epoch: the account of the new key has those of the old one, which is
    revoked; from V7 on the old account is emptied, before it keeps its copy.
    The validator's stake is kept, and so are the fees of every other
    validator. *)
Theorem rotation_keeps_fees env sender tc w w' x v :
  let key := vcf_BLSPublicKey (vcc_Config tc) in
  current env -> vok w -> vinv w ->
  validator_at (vstorage w) sender = Some v -> key <> EmptyString -> key <> BlsPubKey v ->
  UpdateValidator env sender tc w = (w', Ok x) ->
  (exists v', validator_at (vstorage w') sender = Some v' /\ BlsPubKey v' = key /\ TotalStake v' = TotalStake v) /\
  (exists p, peer_at w' (BlsPubKey v) = Some p /\ Revoked p = true /\
     AccumulatedFees p = if env_fc env FixAuditChangesV7 then 0 else fees_of w sender) /\
  (forall o, fees_of w' o = fees_of w o).
Proof.
  intros key [Hv6 Hv2 Hfs _ Hlen] Hok Hinv Hv Hke Hne H.
  destruct (UpdateValidator_cases env Hv6 Hfs sender tc w w' x Hok Hinv H)
    as (w0 & w1 & w2 & v1 & Q & Hok1 & Hv1 & Hc & Hcase). fold key in Hcase.
  rewrite Hv in Hv1. injection Hv1 as <-.
  destruct Hcase as [([?|?] & _)|(_ & _ & [fees R] & (V & P & S))]; [done|done|].
  destruct (cache_same_state _ _ Hc) as [Ea Ep]. destruct (ro_old _ _ _ _ _ _ _ R) as (po & po' & O1 & O2 & _ & _ & O5 & O6 & O7).
  destruct (ro_new _ _ _ _ _ _ _ R) as (pn & pn' & N1 & N2 & N3 & _ & _ & _ & _ & N7).
  set (v' := applyValidatorConfig _ _) in S.
  pose proof (vi_stake _ Hinv sender) as Hst. unfold stake_at in Hst. rewrite Hv in Hst. destruct Hst as (Ho & Hs0 & _).
  assert (forall j, peer_at w' j = peer_at w1 j) as Ep' by (intros j; by rewrite Ep, P).
  assert (validator_at (vstorage w') sender = Some v') as Hv'.
  { unfold validator_at. rewrite Ea. apply S. by eapply (owner_not_zero _ sender). }
  splits.
  - by exists v'.
  - exists po'. rewrite Ep', O7. splits; [done|done|]. unfold fees_of. rewrite Hv, <- (ss_peer _ _ (proj2 Q)), O1. by rewrite <- O6.
  - intros o. unfold fees_of. destruct (decide (o = sender)) as [->|Hos].
    + rewrite Hv', Hv. change (BlsPubKey v') with key. rewrite Ep', N2. cbn.
      rewrite <- (ss_peer _ _ (proj2 Q)), O1. cbn. congruence.
    + assert (validator_at (vstorage w') o = validator_at (vstorage w) o) as ->.
      { destruct S as [_ S2 _ _]. unfold validator_at in *. rewrite Ea, S2 by done. by rewrite (ro_app _ _ _ _ _ _ _ R), (ss_app _ _ (proj2 Q)). }
      destruct (validator_at (vstorage w) o) as [vo|] eqn:E; [|done]. f_equal.
      destruct (ki_bound _ _ (vi_keys _ Hinv) _ _ E) as (q & Hq & Hqo & _).
      destruct (ki_bound _ _ (vi_keys _ Hinv) _ _ Hv) as (q0 & Hq0 & Hq0o & _).
      pose proof (vi_stake _ Hinv o) as Hst. unfold stake_at in Hst. rewrite E in Hst. destruct Hst as (_ & Ho0 & _).
      rewrite Ep', (ro_other _ _ _ _ _ _ _ R), (ss_peer _ _ (proj2 Q)); [done|congruence|].
      intros E'. rewrite <- E', (ss_peer _ _ (proj2 Q)) in N1. congruence.
Qed.
End runs.

(** ** The fees of a block *)

Section block.
Context `{TO : TrieOps} `{UA : AccountsAdapter userAccount} `{KA : AccountsAdapter kappAccount}
  `{PA : AccountsAdapter peerAccount} `{CU : Marshalizer UserKDA} `{FP : FloatParsers}
  {CV : Marshalizer ValidatorData} {CB : Marshalizer PeerData}
  {LV : ProtoCodec CV zeroValidator} {LB : ProtoCodec CB zeroPeerData}
  {WL : WorldLaws peerAccount} {VL : ValidatorStores KA PA}.
Variable env : updateEnv.
Implicit Types (w : world peerAccount).

Definition signed (bitmap : string) (i : nat) : bool :=
  match has_signed bitmap i with Ok b => b | Err _ => false end.
(** What the member at [i] of the group is due. *)
Definition due (bitmap : string) (lf vf : Z) (i : nat) : Z :=
  if signed bitmap i then (if (i =? 0)%nat then lf else vf) else 0.
Definition signer (bitmap : string) (i : nat) : Z := if signed bitmap i then 1 else 0.

(** The fees booked on a key. *)
Definition key_fees w (k : string) : Z := from_option AccumulatedFees 0 (peer_at w k).
(** The key whose account is credited for an elected key: from V7 on, for a key
    that was revoked since, the present key of its owner. *)
Definition payee w (k : string) : string :=
  match peer_at w k with
  | Some e =>
      if env_fc env FixAuditChangesV7 && Revoked e then
        match validator_at (vstorage w) (pa_OwnerAddress e) with
        | Some v => if decide (BlsPubKey v = BLSPublicKey e) then k else BlsPubKey v
        | None => k
        end
      else k
  | None => k
  end.
(** What [j] receives of the dues [f] of the members paid to the accounts [to]. *)
Fixpoint booked_to (f : nat -> Z) (to : list string) (i : nat) (j : string) : Z :=
  match to with
  | [] => 0
  | k :: rest => (if decide (j = k) then f i else 0) + booked_to f rest (S i) j
  end.
(** The share of a signer that is not the leader, of [n] such signers. *)
Definition validator_share (leaderPercent fees n : Z) : Z :=
  if n =? 0 then 0 else part_of fees (HundredPercent - Z.min leaderPercent HundredPercent) / n.

Lemma count_signed_spec bitmap n i total t :
  count_signed bitmap n i total = Ok t -> t = total + zsum (signer bitmap <$> seq i n).
Proof.
  revert i total. induction n as [|n IH]; intros i total H; cbn [count_signed] in H.
  { injection H as <-. cbn. lia. }
  apply res_bind_ok in H as (b & Hb & H). apply IH in H as ->. cbn. unfold signer at 2, signed. rewrite Hb.
  unfold zsum. destruct b; lia.
Qed.

(** Accounts in [K] are written; the fees booked on an account change as [g]
    says, keys and owners do not. *)
Record books w w' (K : string -> Prop) (g : string -> Z) : Prop := {
  bo_keep : vkeep w w';
  bo_app : forall key, vstorage w' key = vstorage w key;
  bo_other : forall j, ~ K j -> peer_at w' j = peer_at w j;
  bo_same : peers_same w w';
  bo_fees : forall j, cong64 (key_fees w' j) (key_fees w j + g j);
  bo_range : (forall j, is_i64 (key_fees w j)) -> forall j, is_i64 (key_fees w' j);
}.

Lemma books_quiet w w' K : quiet w w' -> books w w' K (fun _ => 0).
Proof.
  intros [Hk [Ha Hp]]. assert (forall j, key_fees w' j = key_fees w j) as E by (intros j; unfold key_fees; by rewrite Hp).
  split; [done|done|by intros|by apply peers_eq_same|..].
  - intros j. rewrite E, Z.add_0_r. reflexivity.
  - intros H j. rewrite E. apply H.
Qed.

Lemma books_trans w1 w2 w3 K g1 g2 g : books w1 w2 K g1 -> books w2 w3 K g2 ->
  (forall j, g j = g1 j + g2 j) -> books w1 w3 K g.
Proof.
  intros [K1 A1 O1 S1 F1 R1] [K2 A2 O2 S2 F2 R2] Hg. split.
  - by eapply vkeep_trans.
  - intros key. by rewrite A2.
  - intros j Hj. by rewrite O2, O1.
  - intros k. specialize (S1 k). specialize (S2 k). inversion S1 as [p q Hpq E1 E2|E1 E2]; rewrite <- E2 in S2;
      inversion S2 as [p' q' Hpq' E1' E2'|]; constructor. by etrans.
  - intros j. rewrite F2, F1, Hg. cong_lia.
  - auto.
Qed.

Lemma books_weaken w w' (K K' : string -> Prop) g : (forall j, K j -> K' j) -> books w w' K g -> books w w' K' g.
Proof. intros HK [? ? O ? ? ?]. split; try done. intros j Hj. apply O. auto. Qed.

Lemma becomes_books w w' k p p' g :
  peer_becomes w w' k p p' -> same_key p p' -> is_i64 (AccumulatedFees p') \/ AccumulatedFees p' = AccumulatedFees p ->
  cong64 (AccumulatedFees p') (AccumulatedFees p + g) ->
  books w w' (eq k) (fun j => if decide (j = k) then g else 0).
Proof.
  intros [V A O N F] Hs Hi Hg.
  assert (key_fees w k = AccumulatedFees p) as E by (unfold key_fees; by rewrite O).
  assert (key_fees w' k = AccumulatedFees p') as E' by (unfold key_fees; by rewrite N).
  assert (forall j, j <> k -> key_fees w' j = key_fees w j) as Ef by (intros j Hj; unfold key_fees; by rewrite F).
  split; try done.
  - intros j Hj. apply F. congruence.
  - intros j. destruct (decide (j = k)) as [->|Hj]; [rewrite O, N; by constructor|].
    rewrite F by done. destruct (peer_at w j); by constructor.
  - intros j. case_decide as Hj; [subst j; by rewrite E, E'|]. rewrite Ef, Z.add_0_r by done. reflexivity.
  - intros H j. destruct (decide (j = k)) as [->|Hj]; [|by rewrite Ef].
    rewrite E'. destruct Hi as [? | ->]; [done|]. rewrite <- E. apply H.
Qed.

(** Writing an account that keeps its fees. *)
Lemma books_set w w' k l f :
  vok w -> peer_loc w k l -> peer_set l f w = (w', Ok tt) ->
  (forall p, same_key p (f p)) -> (forall p, AccumulatedFees (f p) = AccumulatedFees p) ->
  books w w' (eq k) (fun _ => 0) /\ peer_loc w' k l.
Proof.
  intros Hok Hl H Hs Hf. destruct (peer_set_spec _ _ k _ _ Hok Hl H) as (p & B); [intros q; apply (Hs q)|].
  split; [|exact (vk_peer _ _ (pb_keep _ _ _ _ _ B) _ _ Hl)].
  destruct (becomes_books _ _ _ _ _ 0 B (Hs p)) as [V A O S F R]; [by right|rewrite Hf, Z.add_0_r; reflexivity|].
  split; try done. intros j. rewrite F. by case_decide.
Qed.
Lemma books_add w w' k l v :
  vok w -> peer_loc w k l -> peer_set l (AddToAccumulatedFees v) w = (w', Ok tt) ->
  books w w' (eq k) (fun j => if decide (j = k) then v else 0) /\ peer_loc w' k l.
Proof.
  intros Hok Hl H. destruct (peer_set_spec _ _ k _ _ Hok Hl H) as (p & B); [done|].
  split; [|exact (vk_peer _ _ (pb_keep _ _ _ _ _ B) _ _ Hl)].
  eapply becomes_books; [exact B|done|left; apply wrap_i64_range|apply wrap_cong64].
Qed.

Lemma payee_same w w' k :
  (forall key, vstorage w' key = vstorage w key) -> peers_same w w' -> payee w' k = payee w k.
Proof.
  intros Ha Hs. unfold payee, validator_at. specialize (Hs k). inversion Hs as [p p' (_ & E1 & E2 & E3)|]; [|done].
  rewrite E1, E2, E3, Ha. done.
Qed.

Lemma accounting_spec w w' k l x :
  vok w -> peer_loc w k l -> peerForEpochAccounting env l w = (w', Ok x) ->
  quiet w w' /\ peer_loc w' (payee w k) x.
Proof.
  intros Hok Hl H. unfold peerForEpochAccounting in H. step H as w1 e K.
  apply (peer_get_spec _ _ k) in K as (-> & q & Hq & ->); [|done|done]. unfold id in *. unfold payee. rewrite Hq.
  destruct (env_fc env FixAuditChangesV7); cbn [negb orb andb] in *;
    [|injection H as <- <-; split; [split; [by apply vkeep_refl|apply same_state_refl]|done]].
  destruct (Revoked q); cbn [negb] in H;
    [|injection H as <- <-; split; [split; [by apply vkeep_refl|apply same_state_refl]|done]].
  step H as w2 app K2. apply validatorsApp_spec in K2 as [Q2 L2]; [|done].
  step H as w3 v K3. apply app_getValidator in K3 as [-> Hv]; [|apply Q2|done].
  unfold validator_at in *. rewrite (ss_app _ _ (proj2 Q2)) in Hv. rewrite Hv.
  unfold str_eqb in H. case_bool_decide as E.
  - rewrite decide_True by done. injection H as <- <-. split; [done|by apply (vk_peer _ _ (proj1 Q2))].
  - rewrite decide_False by done. apply loadPeer_spec in H as [Q3 L3]; [|apply Q2].
    split; [by eapply vquiet_trans|done].
Qed.

Lemma books_then w1 w2 w3 k l K g f :
  books w1 w2 K g -> peer_loc w2 k l -> K k -> peer_set l f w2 = (w3, Ok tt) ->
  (forall p, same_key p (f p)) -> (forall p, AccumulatedFees (f p) = AccumulatedFees p) ->
  books w1 w3 K g /\ (forall j i, peer_loc w2 j i -> peer_loc w3 j i).
Proof.
  intros B Hl HK H Hs Hf. destruct (books_set _ _ k _ _ (vk_ok _ _ (bo_keep _ _ _ _ B)) Hl H Hs Hf) as [B2 _].
  split; [|apply B2]. eapply books_trans; [exact B|eapply books_weaken; [|exact B2]; by intros j <-|]. intros j. cbn. lia.
Qed.

Lemma credit_member_spec bitmap lf vf k i w w' :
  vok w -> creditElectedValidator env bitmap lf vf k i w = (w', Ok tt) ->
  books w w' (fun j => j = k \/ j = payee w k) (fun j => if decide (j = payee w k) then due bitmap lf vf i else 0).
Proof.
  intros Hok H. unfold creditElectedValidator in H. set (K := fun j => j = k \/ j = payee w k).
  assert (K k) as Kk by (by left). assert (K (payee w k)) as Kp by (by right).
  step H as w1 l K1. apply loadPeer_spec in K1 as [Q1 Hl]; [|done].
  step H as w2 acc K2. apply (accounting_spec _ _ k) in K2 as [Q2 Hacc]; [|apply Q1|done].
  rewrite (payee_same w w1) in Hacc by (try apply peers_eq_same; apply Q1).
  pose proof (books_quiet _ _ K (vquiet_trans _ _ _ Q1 Q2)) as B2.
  pose proof (vk_peer _ _ (proj1 Q2) _ _ Hl) as Hl2.
  step H as w3 [] K3. destruct (books_then _ _ _ _ _ _ _ _ B2 Hacc Kp K3) as [B3 P3]; [done|done|].
  step H as w4 e K4. apply (peer_get_spec _ _ k) in K4 as (-> & q & Hq & ->); [|apply B3|by apply P3].
  step H as w4 b K5. injection K5 as <- Hb. step H as w5 rating K6.
  assert (forall wa wb r, rater env wa = (wb, Ok r) -> wb = wa) as Hrater
    by (intros wa wb r; unfold rater; destruct (ue_rater env); [by intros [= <- _]|done]).
  assert (books w w5 K (fun j => if decide (j = payee w k) then due bitmap lf vf i else 0) /\
    (forall j i, peer_loc w3 j i -> peer_loc w5 j i)) as [B5 P5].
  { assert (forall wa wb v g, books w wa K (fun _ => 0) -> peer_loc wa (payee w k) acc ->
      peer_set acc (AddToAccumulatedFees v) wa = (wb, Ok tt) -> g = v ->
      books w wb K (fun j => if decide (j = payee w k) then g else 0) /\ (forall j i, peer_loc wa j i -> peer_loc wb j i)) as Hadd.
    { intros wa wb v g B L J ->. destruct (books_add _ _ _ _ _ (vk_ok _ _ (bo_keep _ _ _ _ B)) L J) as [Bv _].
      split; [|apply Bv]. eapply books_trans; [exact B|eapply books_weaken; [|exact Bv]; by intros j <-|]. done. }
    assert (due bitmap lf vf i = if b then (if (i =? 0)%nat then lf else vf) else 0) as Ed
      by (unfold due, signed; by rewrite Hb).
    assert (forall wa, books w wa K (fun _ => 0) -> books w wa K (fun j => if decide (j = payee w k) then 0 else 0)) as Hz.
    { intros wa B. eapply books_trans; [exact B|apply books_quiet; split; [apply vkeep_refl, B|apply same_state_refl]|].
      intros j. by case_decide. }
    rewrite Ed. pose proof (P3 _ _ Hacc) as L3.
    destruct (i =? 0)%nat, b; cbn [computeValidatorActionType] in K6.
    - step K6 as wa [] J1. destruct (books_then _ _ _ _ _ _ _ _ B3 L3 Kp J1) as [B4 P4]; [done|done|].
      step K6 as wb [] J2. destruct (books_then _ _ _ _ _ _ _ _ B4 (P4 _ _ L3) Kp J2) as [B4' P4']; [done|done|].
      step K6 as wc r J3. apply Hrater in J3 as ->. step K6 as wd [] J4. injection K6 as <- _.
      destruct (Hadd _ _ _ lf B4' (P4' _ _ (P4 _ _ L3)) J4 eq_refl). split; [done|]. eauto.
    - injection K6 as <- _. split; [by apply Hz|done].
    - step K6 as wa [] J1. destruct (books_then _ _ _ _ _ _ _ _ B3 L3 Kp J1) as [B4 P4]; [done|done|].
      step K6 as wc r J3. apply Hrater in J3 as ->. step K6 as wd [] J4. injection K6 as <- _.
      destruct (Hadd _ _ _ vf B4 (P4 _ _ L3) J4 eq_refl). split; [done|]. eauto.
    - step K6 as wa [] J1. destruct (books_then _ _ _ _ _ _ _ _ B3 L3 Kp J1) as [B4 P4]; [done|done|].
      step K6 as wc r J3. apply Hrater in J3 as ->. injection K6 as <- _. split; [by apply Hz|done]. }
  step H as w6 [] K7. destruct (books_then _ _ _ _ _ _ _ _ B5 (P5 _ _ (P3 _ _ Hl2)) Kk K7) as [B6 _]; [done|done|].
  unfold saveEpochAccounting in H. step H as w7 [] K8. apply UpdatePeer_enabled in K8 as ->; [|apply B6].
  destruct (negb (acc =? l)%nat); [apply UpdatePeer_enabled in H as ->; [done|apply B6]|by injection H as <-].
Qed.

(** Members are credited; nothing else changes. *)
Lemma credit_all_spec bitmap lf vf keys i w w' :
  vok w -> credit_all env bitmap lf vf keys i w = (w', Ok tt) ->
  books w w' (fun j => j ∈ keys \/ j ∈ (payee w <$> keys)) (booked_to (due bitmap lf vf) (payee w <$> keys) i).
Proof.
  revert i w. induction keys as [|k keys IH]; intros i w Hok H.
  { injection H as <-. apply books_quiet. split; [by apply vkeep_refl|apply same_state_refl]. }
  cbn [credit_all] in H. step H as w1 [] K1. apply credit_member_spec in K1 as B1; [|done].
  apply IH in H as B2; [|apply B1].
  assert (payee w1 <$> keys = payee w <$> keys) as E.
  { apply list_fmap_ext. intros j x _. apply payee_same; apply B1. }
  rewrite E in B2. cbn [booked_to fmap list_fmap].
  eapply books_trans; [eapply books_weaken; [|exact B1]|eapply books_weaken; [|exact B2]|done].
  - intros j [-> | ->]; [left; left|right; left].
  - intros j [Hj|Hj]; [left; by right|right; by right].
Qed.

(** The parts add up to the fees. *)
Lemma split_exact fees percent n lf vf :
  0 <= fees <= MaxInt64 -> 0 <= percent -> 0 < n ->
  splitAccumulatedFees (ue_oob env) fees (wrap_u32 (HundredPercent - Z.min percent HundredPercent)) n = Ok (lf, vf) ->
  vf = validator_share percent fees n /\ lf = fees - vf * n /\ 0 <= vf /\ 0 <= lf.
Proof.
  intros Hf Hp Hn. unfold splitAccumulatedFees, validator_share. rewrite (proj2 (Z.eqb_neq n 0)) by lia.
  assert (0 <= HundredPercent - Z.min percent HundredPercent <= HundredPercent) as Hpc by (unfold HundredPercent; lia).
  rewrite wrap_u32_id by (unfold is_u32, MaxUint32, HundredPercent in *; lia). intros H. apply res_bind_ok in H as (share & Hs & H).
  apply percentage_value in Hs as [-> _]. pose proof (part_of_bound fees _ (proj1 Hf) Hpc) as Hb.
  set (s := part_of fees _) in *. rewrite Z.quot_div_nonneg in H by lia.
  assert (0 <= s / n /\ s / n * n <= s) as [Hq1 Hq2] by (split; [apply Z.div_pos; lia|rewrite Z.mul_comm; apply Z.mul_div_le; lia]).
  assert (s / n <= s / n * n) by nia.
  rewrite (wrap_i64_id (s / n)), (wrap_i64_id (s / n * n)), (wrap_i64_id (fees - s / n * n)) in H by ilia. injection H as <- <-. splits; try done; lia.
Qed.

Lemma dues_after bitmap lf vf i n :
  (0 < i)%nat -> zsum (due bitmap lf vf <$> seq i n) = vf * zsum (signer bitmap <$> seq i n).
Proof.
  revert i. induction n as [|n IH]; intros i Hi; cbn; [lia|]. fold (zsum (due bitmap lf vf <$> seq (S i) n)) (zsum (signer bitmap <$> seq (S i) n)).
  rewrite IH by lia. unfold due, signer at 2. destruct (signed bitmap i); [|lia].
  destruct (Nat.eqb_spec i 0); lia.
Qed.

Lemma signers_nonneg bitmap i n : 0 <= zsum (signer bitmap <$> seq i n).
Proof. apply zsum_nonneg, Forall_fmap, Forall_forall. intros x _. cbn. unfold signer. by destruct (signed bitmap x). Qed.

Lemma booked_to_bound (f : nat -> Z) to i j :
  (forall i, 0 <= f i) -> 0 <= booked_to f to i j <= zsum (f <$> seq i (length to)).
Proof.
  intros Hf. revert i. induction to as [|k to IH]; intros i; cbn [booked_to length seq fmap list_fmap]; [done|].
  rewrite zsum_cons. specialize (IH (S i)). specialize (Hf i). case_decide; lia.
Qed.

(** C16: the fees of a block that its leader signed are given out exactly.  Of
    the members that signed, each but the leader is due the same share, the part
    of the fees the network leaves to validators divided among them and rounded
    down; the leader is due the rest, so that the dues add up to the fees.  A
    member's due goes to its account, or from V7 on, if its key was revoked
    since, to the account of its owner's present key; every account grows by the
    dues of the members paid to it, and no account but those of the members and
    the payees and no validator record changes.  The fees are nonnegative and
    fit, with what is booked already, a signed 64-bit number. *)
Theorem block_fees_exact leader members bitmap fees percent w w' x :
  let keys := leader :: members in
  let n := zsum (signer bitmap <$> seq 1 (length members)) in
  let share := validator_share percent fees n in
  let dues := due bitmap (fees - share * n) share in
  vok w -> signed bitmap 0 = true ->
  GetParameterUint (pe_live env) EnumParameter_LeaderValidatorRewardsPercentage = Ok percent -> 0 <= percent ->
  0 <= fees -> (forall j, 0 <= key_fees w j <= MaxInt64 - fees) ->
  UpdateValidatorInfoOnSuccessfulBlock env keys bitmap fees w = (w', Ok x) ->
  (forall j, key_fees w' j = key_fees w j + booked_to dues (payee w <$> keys) 0 j) /\
  zsum (dues <$> seq 0 (length keys)) = fees /\ (forall i, 0 <= dues i) /\
  (forall j, j ∉ keys -> j ∉ (payee w <$> keys) -> peer_at w' j = peer_at w j) /\
  (forall key, vstorage w' key = vstorage w key).
Proof.
  intros keys n share dues Hok Hl Hpc Hpc0 Hf Hb H. unfold UpdateValidatorInfoOnSuccessfulBlock in H.
  step H as w0 [] K0. apply SaveAll_spec in K0 as [Hok0 [A0 P0]]; [|done].
  step H as w1 total K1. injection K1 as <- Ht.
  change (count_signed bitmap (length keys) 0 0 = Ok total) in Ht. apply count_signed_spec in Ht.
  cbn [keys length seq fmap list_fmap] in Ht. rewrite zsum_cons in Ht. fold n in Ht.
  assert (signer bitmap 0 = 1) as E1 by (unfold signer; by rewrite Hl). rewrite E1 in Ht.
  pose proof (signers_nonneg bitmap 1 (length members)) as Hn. fold n in Hn.
  assert (fees <= MaxInt64) as Hfm by (pose proof (Hb leader); lia).
  step H as w1 [lf vf] K2.
  assert (w1 = w0 /\ vf = share /\ lf = fees - share * n /\ 0 <= share /\ 0 <= fees - share * n) as (-> & -> & -> & S1 & S2).
  { destruct (Z.ltb_spec 1 total) as [Hlt|Hle].
    - destruct (ue_controller env); [|done]. rewrite Hpc in K2. step K2 as wa pc J. injection J as <- <-. injection K2 as <- K2. split; [done|].
      replace (total - 1) with n in K2 by lia. apply split_exact in K2 as (-> & -> & ? & ?); [done|lia|done|lia].
    - injection K2 as <- <- <-. assert (n = 0) as Hn0 by lia. assert (share = 0) as -> by (unfold share, validator_share; by rewrite Hn0). splits; try done; lia. }
  fold dues in H. step H as w2 [] K3. apply credit_all_spec in K3 as [V A O S F R]; [|done].
  destruct x. apply SaveAll_spec in H as [_ [A3 P3]]; [|apply V].
  assert (forall k, key_fees w' k = key_fees w2 k) as Ek' by (intros k; unfold key_fees; by rewrite P3).
  assert (forall k, key_fees w0 k = key_fees w k) as Ek by (intros k; unfold key_fees; by rewrite P0).
  assert (payee w0 <$> keys = payee w <$> keys) as Ep.
  { apply list_fmap_ext. intros j k _. by apply payee_same; [|apply peers_eq_same]. }
  rewrite Ep in F, O. assert (forall i, 0 <= dues i) as Hd.
  { intros i. unfold dues, due. destruct (signed bitmap i); [|done]. by destruct (i =? 0)%nat. }
  assert (zsum (dues <$> seq 0 (length keys)) = fees) as Htot.
  { cbn [keys length seq fmap list_fmap]. rewrite zsum_cons. unfold dues at 2. rewrite (dues_after _ _ _ 1) by lia. fold n.
    assert (dues 0%nat = fees - share * n) as -> by (unfold dues, due; by rewrite Hl). lia. }
  splits; try done.
  - intros j. rewrite Ek'. pose proof (booked_to_bound dues (payee w <$> keys) 0 j Hd) as Hbt.
    rewrite length_fmap, Htot in Hbt. pose proof (Hb j).
    assert (is_i64 (key_fees w2 j)) as Hi by (apply R; intros k; rewrite Ek; pose proof (Hb k); ilia).
    rewrite <- (wrap_i64_id (key_fees w2 j)) by done.
    rewrite <- (wrap_i64_id (key_fees w j + _)) by ilia. apply cong64_wrap. rewrite <- Ek. apply F.
  - intros j Hj1 Hj2. rewrite P3, O, P0; [done|]. tauto.
  - intros key. by rewrite A3, A, A0.
Qed.
End block.
