(* ===== verification/ValidatorExample.v ===== *)
(** * A validator and its delegators

    Serializers for the records of the validators application, an accounts
    database of peer accounts, and a small network: alice runs a validator that
    bob and carol delegate to.  The theorems on validators are applied to it. *)

From S2P Require Import Prelude Common Strconv GoStd Forks Tools Permissions KdaUtils KdaData DataTrie UserAccount Codec.
From S2P Require Import Balances AccountsCache Staking World SystemAccount KdaKapp WorldLemmas NetParams Proposals ProposalProps Rating Validators PeersUpdate ValidatorLemmas ValidatorProps ValidatorRewards WorldExample ProposalExample.
Local Open Scope Z_scope.

(** ** Serializers and databases *)

#[export] Instance Ser_ValidatorData : Ser ValidatorData :=
  Ser_iso (fun v => (vd_OwnerAddress v, RewardsAddress v, RegisterNonce v, SelfStaked v, SelfStake v, TotalStake v,
                     BlsPubKey v, JailedEpoch v, Jailed v, Waiting v, NumJailed v, TotalSlash v, vd_CanDelegate v,
                     MaxDelegation v, vd_Commission v, TotalRewards v, vd_Name v, vd_Logo v, vd_URIs v))
    (fun '(a, b, c, d, e, f, g, h, i, j, k, l, m, n, o, p, q, r, s) =>
       {| vd_OwnerAddress := a; RewardsAddress := b; RegisterNonce := c; SelfStaked := d; SelfStake := e;
          TotalStake := f; BlsPubKey := g; JailedEpoch := h; Jailed := i; Waiting := j; NumJailed := k;
          TotalSlash := l; vd_CanDelegate := m; MaxDelegation := n; vd_Commission := o; TotalRewards := p;
          vd_Name := q; vd_Logo := r; vd_URIs := s |})
    ltac:(by intros []).
#[export] Instance Ser_PeerBucket : Ser PeerBucket :=
  Ser_iso (fun b => (DelegatedAt b, DelegatedEpoch b, UndelegatedEpoch b, pb_Value b, pb_Address b))
    (fun '(a, b, c, d, e) => {| DelegatedAt := a; DelegatedEpoch := b; UndelegatedEpoch := c; pb_Value := d;
                                pb_Address := e |})
    ltac:(by intros []).
#[export] Instance Ser_PeerData : Ser PeerData :=
  Ser_iso pd_Buckets (fun m => {| pd_Buckets := m |}) ltac:(by intros []).

Definition validator_codec : Marshalizer ValidatorData := proto_codec zeroValidator.
Definition buckets_codec : Marshalizer PeerData := proto_codec zeroPeerData.
#[export] Instance validator_codec_laws : ProtoCodec validator_codec zeroValidator.
Proof. apply proto_codec_laws. Qed.
#[export] Instance buckets_codec_laws : ProtoCodec buckets_codec zeroPeerData.
Proof. apply proto_codec_laws. Qed.

(** A peer account that nobody has used. *)
Definition new_peer (k : string) : peerAccount := with_keys (from_ok {|
    pa_address := k; BLSPublicKey := EmptyString; pa_OwnerAddress := EmptyString; Revoked := false; ShardId := 0;
    List := List_inactive; pa_Index := 0; AccumulatedFees := 0; ValidatorSuccessRate := no_rate;
    LeaderSuccessRate := no_rate; ValidatorIgnoredSignaturesRate := 0; Rating := 0; TempRating := 0;
    NumSelectedInSuccessBlocks := 0; ConsecutiveProposerMisses := 0; TotalValidatorSuccessRate := no_rate;
    TotalLeaderSuccessRate := no_rate; TotalValidatorIgnoredSignaturesRate := 0 |} (NewPeerAccount k))
    EmptyString EmptyString false.
Lemma new_peer_address k : pa_address (new_peer k) = k.
Proof. unfold new_peer, NewPeerAccount. by destruct (slen k =? 0). Qed.

Definition peer_adapter : AccountsAdapter peerAccount :=
  {| adb := gmap string peerAccount; addr_of := pa_address;
     adb_GetExisting := map_find pa_address;
     adb_Load db k := Ok (from_ok (new_peer k) (map_find pa_address db k));
     adb_Save db a := (<[pa_address a := a]> db, a, Ok tt) |}.

#[local] Existing Instances map_trie userkda_codec user_adapter kapp_adapter peer_adapter
  validator_codec buckets_codec no_floats.

#[export] Instance validator_world_laws :
  @WorldLaws map_trie userkda_codec peerAccount user_adapter kapp_adapter peer_adapter.
Proof.
  split.
  1,2: done.
  1,2: intros db k a E; cbn in *; by rewrite E.
  1,2: intros db k a E; cbn in *; injection E as <-; by apply map_load_addr.
  intros db a db' a' [= <- <-]. split; [done|]. cbn. unfold map_find. split.
  - exists a. rewrite lookup_insert_eq, decide_True by done. done.
  - intros k Hne. by rewrite lookup_insert_ne.
Qed.
#[export] Instance validator_stores : ValidatorStores kapp_adapter peer_adapter.
Proof.
  split.
  - done.
  - intros db k a E. cbn in *. injection E as <-. apply map_load_addr, new_peer_address.
  - intros db a db' a' [= <- <-]. split; [done|]. cbn. unfold map_find. split.
    + by rewrite lookup_insert_eq, decide_True.
    + intros k Hne. by rewrite lookup_insert_ne.
  - intros db a db' a' [= <- <-]. split; [done|]. cbn. unfold map_find. split.
    + exists a. by rewrite lookup_insert_eq, decide_True.
    + intros k Hne. by rewrite lookup_insert_ne.
Qed.

(** ** The network at its start *)

Definition alice_key : string := "blsA".
Definition alice_validator : ValidatorData :=
  {| vd_OwnerAddress := alice; RewardsAddress := alice; RegisterNonce := 1; SelfStaked := false; SelfStake := 0;
     TotalStake := 400; BlsPubKey := alice_key; JailedEpoch := MaxUint32; Jailed := false; Waiting := false;
     NumJailed := 0; TotalSlash := 0; vd_CanDelegate := true; MaxDelegation := 0; vd_Commission := 1000;
     TotalRewards := 0; vd_Name := "alice's"; vd_Logo := EmptyString; vd_URIs := ∅ |}.
Definition booking_of (who : string) (amount : Z) : PeerBucket :=
  {| DelegatedAt := 5; DelegatedEpoch := 2; UndelegatedEpoch := DefaultUndelegatedEpoch; pb_Value := amount;
     pb_Address := who |}.
Definition alice_buckets : PeerData :=
  {| pd_Buckets := <[EncodeToString "b1" := booking_of bob 300]> {[EncodeToString "c1" := booking_of carol 100]} |}.
Definition alice_peer : peerAccount :=
  AddToAccumulatedFees 1001 (SetList List_elected (with_keys (new_peer alice_key) alice_key alice false)).

Definition vapp0 : ex_kapp := new_kapp ValidatorsKAppAddress.
Definition vapp1 : ex_kapp := (setValidatorBuckets alice alice_buckets vapp0).1.
Definition vapp2 : ex_kapp := (setValidator alice alice_validator vapp1).1.

Abbreviation vworld := (@world map_trie peerAccount user_adapter kapp_adapter peer_adapter).
Definition val_world0 : vworld :=
  {| w_cache := resetAllNoLock true (@NewAccountsCacher _ _ _ user_adapter kapp_adapter peer_adapter
       (∅ : gmap string ex_user)
       (<[ValidatorsKAppAddress := vapp2]> ∅ : gmap string ex_kapp)
       (<[alice_key := alice_peer]> ∅ : gmap string peerAccount));
     w_receipts := []; w_returnData := [] |}.

Lemma start_storage :
  (forall k, validator_at (storage vapp2) k = if decide (k = alice) then Some alice_validator else None) /\
  (forall k, buckets_at (storage vapp2) k = Some (if decide (k = alice) then alice_buckets else zeroPeerData)) /\
  (forall k, pending_at (storage vapp2) k = 0).
Proof.
  destruct (setValidatorBuckets_spec alice alice_buckets vapp0 vapp1) as (_ & [B1 B2 B3 B4]).
  { apply (run_unit_spec (setValidatorBuckets alice alice_buckets vapp0)). vm_compute. reflexivity. }
  destruct (setValidator_spec alice alice_validator vapp1 vapp2) as (_ & [V1 V2 V3 V4]).
  { apply (run_unit_spec (setValidator alice alice_validator vapp1)). vm_compute. reflexivity. }
  splits; intros k.
  - case_decide as E; [subst; by apply V1|]. by rewrite V2, B2.
  - rewrite V3. case_decide as E; [subst; by apply B1|]. by rewrite B3.
  - by rewrite V4, B4.
Qed.

Lemma start_app : vstorage val_world0 = storage vapp2.
Proof. reflexivity. Qed.
Lemma start_peer k : peer_at val_world0 k = Some (if decide (k = alice_key) then alice_peer else new_peer k).
Proof.
  unfold peer_at, pool_obj. cbn. unfold map_find. case_decide as E.
  - subst. by rewrite lookup_insert_eq.
  - by rewrite lookup_insert_ne, lookup_empty by done.
Qed.

Lemma val_start_ok : vok val_world0 /\ vinv val_world0.
Proof.
  split; [split; [split; [done|by apply empty_pool_wf..]|by apply empty_pool_wf]|].
  destruct start_storage as (Hv & Hb & _). split.
  - intros k. unfold stake_at. rewrite start_app, Hv, Hb. case_decide as E; [|done]. subst.
    split; [done|]. split; [done|]. exists alice_buckets. split; [done|]. split; [vm_compute; reflexivity|].
    vm_compute. discriminate.
  - rewrite start_app. split.
    + intros k v. rewrite Hv. case_decide as E; [|done]. subst. intros [= <-]. exists alice_peer.
      by rewrite start_peer, decide_True.
    + intros key p. rewrite start_peer. intros [= <-]. case_decide as E; [|by intros []].
      subst. intros _ _. exists alice_validator. by rewrite Hv, decide_True.
    + intros key p. rewrite start_peer. intros [= <-]. case_decide as E; [done|]. done.
Qed.

(** ** The end of an epoch *)

Definition val_env : updateEnv :=
  {| ue_env := {| ve_env := gov_env; ve_nonce := 9; ve_StartRating := 5000001;
                  ve_CheckPublicKeyValid := fun k => 0 <? slen k; ve_VerifyBLS := fun _ _ _ => true |};
     ue_rater := Some example_rater; ue_controller := true; ue_oob := no_oob |}.
Lemma val_env_current : current val_env.
Proof. by split. Qed.

Definition buckets_order (m : gmap string PeerBucket) : list (string * PeerBucket) := map_to_list m.
Definition amounts_order (m : gmap string Z) : list (string * Z) := map_to_list m.
Definition missed_order (m : gmap string RateChange) : list (string * RateChange) := map_to_list m.




(** ** The fees of a block *)

(** The leader and the third member signed. *)
Definition block_bitmap : string := String (Ascii.ascii_of_nat 5) EmptyString.
Definition block_members : list string := ["blsC"; "blsD"].
Definition val_world_b : vworld :=
  (UpdateValidatorInfoOnSuccessfulBlock val_env (alice_key :: block_members) block_bitmap 1000 val_world0).1.

Lemma block_fees_exact_witness :
  key_fees val_world_b alice_key = 1601 /\ key_fees val_world_b "blsC" = 0 /\ key_fees val_world_b "blsD" = 400.
Proof.
  destruct (block_fees_exact val_env alice_key block_members block_bitmap 1000 6000 val_world0 val_world_b tt)
    as (H & _).
  - exact (proj1 val_start_ok).
  - vm_compute. reflexivity.
  - vm_compute. reflexivity.
  - discriminate.
  - discriminate.
  - intros k. unfold key_fees. rewrite start_peer. destruct (decide (k = alice_key)).
    + split; vm_compute; discriminate.
    + assert (AccumulatedFees (new_peer k) = 0) as E by (unfold new_peer, from_ok, NewPeerAccount; by destruct (slen k =? 0)).
      cbn [from_option]. rewrite E. split; [discriminate|vm_compute; discriminate].
  - unfold val_world_b. apply run_unit_spec. vm_compute. reflexivity.
  - split; [refine (eq_trans (H alice_key) _); vm_compute; reflexivity|].
    split; [refine (eq_trans (H "blsC") _)|refine (eq_trans (H "blsD") _)]; vm_compute; reflexivity.
Defined.

(** ** Another key, another validator, and a bucket taken back *)

Definition config_for (key : string) : ValidatorConfig :=
  {| vcf_BLSPublicKey := key; vcf_RewardAddress := dave; vcf_CanDelegate := true; vcf_Commission := 500;
     vcf_MaxDelegationAmount := 0; vcf_Logo := EmptyString; vcf_URIs := ∅; vcf_Name := "node";
     vcf_BLSSignature := "signature" |}.
Definition rotate_tc : ValidatorConfigContract := {| vcc_Config := config_for "blsB" |}.
Definition register_tc : CreateValidatorContract := {| cv_OwnerAddress := dave; cv_Config := config_for "blsD" |}.

Definition val_world2 : vworld := (UpdateValidator val_env alice rotate_tc val_world0).1.
Definition val_world3 : vworld := (Register val_env dave register_tc val_world2).1.
Definition val_world4 : vworld := (Undelegate val_env 6 alice bob {| uc_BucketID := "b1" |} val_world3).1.

Lemma rotated_key : UpdateValidator val_env alice rotate_tc val_world0 = (val_world2, Ok tt).
Proof. unfold val_world2. apply run_unit_spec. vm_compute. reflexivity. Qed.
Lemma registered : Register val_env dave register_tc val_world2 = (val_world3, Ok tt).
Proof. unfold val_world3. apply run_unit_spec. vm_compute. reflexivity. Qed.
Lemma taken_back : Undelegate val_env 6 alice bob {| uc_BucketID := "b1" |} val_world3 = (val_world4, Ok tt).
Proof. unfold val_world4. apply run_unit_spec. vm_compute. reflexivity. Qed.

Abbreviation val_step := (validator_step buckets_order amounts_order missed_order).
Lemma first_step : val_step val_world0 val_world2.
Proof. exact (vs_UpdateValidator _ _ _ _ _ val_env alice rotate_tc tt val_env_current rotated_key). Qed.
Lemma later_steps : rtc val_step val_world2 val_world4.
Proof.
  eapply rtc_l; [exact (vs_Register _ _ _ _ _ val_env dave register_tc tt val_env_current registered)|].
  eapply rtc_once, (vs_Undelegate _ _ _ _ _ val_env 6 alice bob {| uc_BucketID := "b1" |} tt val_env_current); [|exact taken_back].
  split; vm_compute; [discriminate|reflexivity].
Qed.
Lemma order_buckets m : buckets_order m ≡ₚ map_to_list m.
Proof. reflexivity. Qed.
Lemma second_ok : vok val_world2 /\ vinv val_world2.
Proof.
  destruct val_start_ok as [Hok Hinv]. destruct (step_good _ _ _ order_buckets _ _ Hok Hinv first_step) as [H1 H2 _]. by split.
Qed.

Lemma rotation_keeps_fees_witness :
  fees_of val_world2 alice = 1001 /\ exists p, peer_at val_world2 alice_key = Some p /\ Revoked p = true.
Proof.
  destruct val_start_ok as [Hok Hinv]. destruct start_storage as (Hv & _).
  destruct (rotation_keeps_fees val_env alice rotate_tc val_world0 val_world2 tt alice_validator)
    as (_ & (p & H1 & H2 & _) & Hf).
  - exact val_env_current.
  - exact Hok.
  - exact Hinv.
  - rewrite start_app, Hv. by apply decide_True.
  - discriminate.
  - discriminate.
  - exact rotated_key.
  - split; [|exists p; split; [exact H1|exact H2]]. rewrite Hf. vm_compute. reflexivity.
Defined.

Lemma default_of {A} (d x : A) (o : option A) : o = Some x -> x = default d o.
Proof. by intros ->. Qed.

Lemma stake_totals_exact_witness :
  exists v, validator_at (vstorage val_world4) alice = Some v /\ TotalStake v = 100 /\ vd_OwnerAddress v = alice.
Proof.
  destruct val_start_ok as [Hok Hinv].
  pose proof (stake_totals_exact buckets_order amounts_order missed_order order_buckets val_world0 val_world4
    Hok Hinv (rtc_l _ _ _ _ first_step later_steps) alice) as H.
  destruct (validator_at (vstorage val_world4) alice) as [v|] eqn:E; [|exfalso; revert E; vm_compute; discriminate].
  exists v. split; [reflexivity|]. split; [|apply H].
  destruct H as (_ & p & Hp & Ht & _). rewrite (default_of zeroPeerData p _ Hp) in Ht.
  refine (eq_trans Ht _). vm_compute. reflexivity.
Defined.

Lemma bls_keys_bound_witness :
  exists p, peer_at val_world4 alice_key = Some p /\ Revoked p = true.
Proof.
  destruct second_ok as [Hok Hinv].
  destruct (bls_keys_bound buckets_order amounts_order missed_order order_buckets val_world2 val_world4
    Hok Hinv later_steps) as (_ & _ & H).
  destruct (H alice_key (default alice_peer (peer_at val_world2 alice_key))) as [Hr _].
  - apply some_default. vm_compute. reflexivity.
  - vm_compute. reflexivity.
  - exact Hr.
Defined.
