(* ===== verification/TrieNode.v ===== *)
(** * Nodes of the Patricia Merkle trie

    [data/trie/node.go], [leafNode.go], [extensionNode.go], [branchNode.go]: the
    nibble paths of keys, the three kinds of nodes with their cached hash and
    dirty flag, and the operations that read, change, hash, store and reload
    them.  A node is owned by its parent, so a method that mutates its receiver
    is a computation [NM] whose state is that node.  A child may be present in
    memory or only known by its hash; it is then read from the database. *)

From S2P Require Import Prelude Common Strconv.
From Stdlib Require Import Ascii.
Local Open Scope Z_scope.

(** ** Paths

    A path is the list of the nibbles of a key, the last nibble of the key
    first, closed by the terminator. *)

Abbreviation path := (list Z) (only parsing).

Definition nrOfChildren : nat := 17.
Definition hexTerminator : Z := 16.

(** The slice is filled from its end, one byte of the key at a time. *)
Fixpoint fill_nibbles (str : string) (filled : path) : path :=
  match str with
  | EmptyString => filled
  | String c rest =>
      let b := Z.of_nat (nat_of_ascii c) in
      fill_nibbles rest (Z.land b 15 :: Z.shiftr b 4 :: filled)
  end.
Definition keyBytesToHex (str : string) : path := fill_nibbles str [hexTerminator].

(** ** Errors of the package ([data/trie/errors.go])

    [ErrWrapped] carries an error of the marshalizer or of the database.
    [RuntimePanic] stands for an index out of range or a nil dereference,
    [OutOfFuel] for a recursion deeper than the bound a caller chose; both are
    shown not to occur on well-formed tries. *)
Inductive trieError : Type :=
| ErrInvalidNode | ErrInvalidEncoding | ErrValueTooShort | ErrChildPosOutOfRange
| ErrNodeNotFound | ErrEmptyBranchNode | ErrEmptyExtensionNode | ErrEmptyLeafNode
| ErrNilNode | TrieErrInvalidLength | ErrInvalidHexKey | ErrInvalidBranchNodeChildrenCount
| ErrHashNotFound | ErrInvalidKey | ErrInvalidIdentifier | ErrWrapped (e : error)
| RuntimePanic | OutOfFuel.

Definition hasOnlyNibbles (key : path) : bool := forallb (fun nibble => nibble <? hexTerminator) key.

Fixpoint join_nibbles (hex : path) (key : string) : string :=
  match hex with
  | lo :: hi :: rest =>
      join_nibbles rest (String (ascii_of_nat (Z.to_nat (Z.lor (Z.shiftl hi 4) lo))) key)
  | _ => key
  end.

Definition hexToKeyBytes (hex : path) : res trieError string :=
  if negb (default (-1) (last hex) =? hexTerminator) then Err ErrInvalidHexKey else
  let hex := removelast hex in
  if negb (hasOnlyNibbles hex) then Err ErrInvalidHexKey else
  if Nat.odd (length hex) then Err TrieErrInvalidLength else
  Ok (join_nibbles hex EmptyString).

Fixpoint prefixLen (a b : path) : nat :=
  match a, b with
  | x :: a, y :: b => if x =? y then S (prefixLen a b) else O
  | _, _ => O
  end.

Definition isCanonicalLeafKey (key : path) : bool :=
  match key with
  | [] => true
  | _ => (default (-1) (last key) =? hexTerminator) && hasOnlyNibbles (removelast key)
  end.

Definition childPosOutOfRange (pos : Z) : bool := Z.of_nat nrOfChildren <=? pos.

(** ** Nodes

    The messages of [proto/node.proto].  An absent hash in a message is the
    empty string; the code only asks for its length. *)

Record CollapsedLn : Type := { ln_Key : path; ln_Value : slice }.
Record CollapsedEn : Type := { en_Key : path; EncodedChild : string }.
Record CollapsedBn : Type := { EncodedChildren : list string }.

Record baseNode : Type := { hash : slice; dirty : bool }.

Inductive node : Type :=
| LeafNode (ln : CollapsedLn) (b : baseNode)
| ExtensionNode (en : CollapsedEn) (child : option node) (b : baseNode)
| BranchNode (bn : CollapsedBn) (children : list (option node)) (b : baseNode).

Definition base_of (n : node) : baseNode :=
  match n with LeafNode _ b | ExtensionNode _ _ b | BranchNode _ _ b => b end.
Definition with_base (f : baseNode -> baseNode) (n : node) : node :=
  match n with
  | LeafNode ln b => LeafNode ln (f b)
  | ExtensionNode en c b => ExtensionNode en c (f b)
  | BranchNode bn cs b => BranchNode bn cs (f b)
  end.

Definition getHash (n : node) : slice := hash (base_of n).
Definition isDirty (n : node) : bool := dirty (base_of n).
Definition setGivenHash (h : slice) : node -> node :=
  with_base (fun b => {| hash := h; dirty := dirty b |}).
Definition setDirty (d : bool) : node -> node :=
  with_base (fun b => {| hash := hash b; dirty := d |}).

Definition fresh : baseNode := {| hash := None; dirty := true |}.
Definition newLeafNode (key : path) (value : slice) : node :=
  LeafNode {| ln_Key := key; ln_Value := value |} fresh.
Definition newExtensionNode (key : path) (child : option node) : node :=
  ExtensionNode {| en_Key := key; EncodedChild := EmptyString |} child fresh.
Definition newBranchNode : node :=
  BranchNode {| EncodedChildren := repeat EmptyString nrOfChildren |}
    (repeat None nrOfChildren) fresh.

(** The child at a position; an extension node has a single child. *)
Definition child_at (n : node) (pos : nat) : option node :=
  match n with
  | LeafNode _ _ => None
  | ExtensionNode _ c _ => c
  | BranchNode _ cs _ => mjoin (cs !! pos)
  end.
Definition set_child (pos : nat) (c : option node) (n : node) : node :=
  match n with
  | LeafNode _ _ => n
  | ExtensionNode en _ b => ExtensionNode en c b
  | BranchNode bn cs b => BranchNode bn (<[pos := c]> cs) b
  end.

Definition empty_str (s : string) : bool := slen s =? 0.
Definition is_nil {A} (o : option A) : bool := match o with None => true | Some _ => false end.

(** Slot [i] of a branch is taken by a loaded child or by a child's hash. *)
Fixpoint taken (cs : list (option node)) (enc : list string) : list bool :=
  match cs, enc with
  | c :: cs, e :: enc => negb (is_nil c && empty_str e) :: taken cs enc
  | _, _ => []
  end.

Definition isEmptyOrNil (n : node) : res trieError unit :=
  match n with
  | LeafNode ln _ => if is_nil (ln_Value ln) then Err ErrEmptyLeafNode else Ok tt
  | ExtensionNode en c _ =>
      if is_nil c && empty_str (EncodedChild en) then Err ErrEmptyExtensionNode else Ok tt
  | BranchNode bn cs _ =>
      if negb (length (EncodedChildren bn) =? nrOfChildren)%nat
      then Err ErrInvalidBranchNodeChildrenCount
      else if existsb id (taken cs (EncodedChildren bn)) then Ok tt else Err ErrEmptyBranchNode
  end.

Definition isCollapsed (n : node) : bool :=
  match n with
  | LeafNode _ _ => false
  | ExtensionNode en c _ => is_nil c && negb (empty_str (EncodedChild en))
  | BranchNode _ cs _ => forallb is_nil cs
  end.

Definition isPosCollapsed (n : node) (pos : nat) : bool :=
  match n with
  | LeafNode _ _ => false
  | ExtensionNode _ _ _ => isCollapsed n
  | BranchNode bn cs _ =>
      is_nil (mjoin (cs !! pos)) && negb (empty_str (default EmptyString (EncodedChildren bn !! pos)))
  end.

Definition isValid (n : node) : bool :=
  match n with
  | LeafNode ln _ => negb (empty_str (bytes_of (ln_Value ln))) && isCanonicalLeafKey (ln_Key ln)
  | ExtensionNode en c _ =>
      negb (empty_str (EncodedChild en) && is_nil c) &&
      (negb (bool_decide (en_Key en = [])) && hasOnlyNibbles (en_Key en))
  | BranchNode bn cs _ =>
      (length (EncodedChildren bn) =? nrOfChildren)%nat &&
      (2 <=? length (filter Is_true (taken cs (EncodedChildren bn))))%nat
  end.

(** ** Storage, hashing, encoding *)

(** The key-value database below the trie ([data.DBWriteCacher]). *)
Class DBWriteCacher : Type := {
  dbT : Type;
  db_Get : dbT -> string -> res error string;
  db_Put : dbT -> string -> string -> res error dbT;
  db_Remove : dbT -> string -> res error dbT;
}.

(** The root hash of an empty trie: 32 zero bytes. *)
Definition zero_bytes (n : nat) : string := Nat.iter n (String (ascii_of_nat 0)) EmptyString.
Definition EmptyTrieHash : string := zero_bytes 32.

(** A computation that may replace the node it runs on. *)
Abbreviation NM := (M node trieError).

Section node.
Context {DB : DBWriteCacher} {HS : Hasher}.
Context {ML : Marshalizer CollapsedLn} {ME : Marshalizer CollapsedEn} {MB : Marshalizer CollapsedBn}.

Definition extension_byte : string := String (ascii_of_nat 0) EmptyString.
Definition leaf_byte : string := String (ascii_of_nat 1) EmptyString.
Definition branch_byte : string := String (ascii_of_nat 2) EmptyString.

Definition getEncodedNode (n : node) : res trieError string :=
  _ ← isEmptyOrNil n;
  match n with
  | LeafNode ln _ => m ← map_err ErrWrapped (Marshal ln); Ok (m +:+ leaf_byte)
  | ExtensionNode en _ _ => m ← map_err ErrWrapped (Marshal en); Ok (m +:+ extension_byte)
  | BranchNode bn _ _ => m ← map_err ErrWrapped (Marshal bn); Ok (m +:+ branch_byte)
  end.

Definition encodeNodeAndGetHash (n : node) : res trieError string :=
  encNode ← getEncodedNode n; Ok (Compute encNode).

(** A decoded node is clean and has no hash yet. *)
Definition decoded : baseNode := {| hash := None; dirty := false |}.

Definition checkDecodedNodeShape (bn : CollapsedBn) : res trieError unit :=
  if (length (EncodedChildren bn) =? nrOfChildren)%nat then Ok tt
  else Err ErrInvalidBranchNodeChildrenCount.

Fixpoint split_last (s : string) : option (string * ascii) :=
  match s with
  | EmptyString => None
  | String c s' =>
      match split_last s' with
      | None => Some (EmptyString, c)
      | Some (init, l) => Some (String c init, l)
      end
  end.

Definition decodeNode (encNode : string) : res trieError node :=
  match split_last encNode with
  | None => Err ErrInvalidEncoding
  | Some (body, nodeType) =>
      match nat_of_ascii nodeType with
      | 0%nat => en ← map_err ErrWrapped (Unmarshal body); Ok (ExtensionNode en None decoded)
      | 1%nat => ln ← map_err ErrWrapped (Unmarshal body); Ok (LeafNode ln decoded)
      | 2%nat =>
          bn ← map_err ErrWrapped (Unmarshal body);
          _ ← checkDecodedNodeShape bn;
          Ok (BranchNode bn (repeat None nrOfChildren) decoded)
      | _ => Err ErrInvalidNode
      end
  end.

Definition getNodeFromDBAndDecode (h : string) (db : dbT) : res trieError node :=
  encChild ← map_err ErrWrapped (db_Get db h); decodeNode encChild.

Definition resolveCollapsed (pos : nat) (db : dbT) : NM unit :=
  n ← get;
  match n with
  | LeafNode _ _ => mret tt
  | ExtensionNode en _ b =>
      _ ← lift (isEmptyOrNil n);
      child ← lift (getNodeFromDBAndDecode (EncodedChild en) db);
      put (ExtensionNode en (Some (setGivenHash (Some (EncodedChild en)) child)) b)
  | BranchNode bn cs b =>
      _ ← lift (isEmptyOrNil n);
      _ ← reject_if (childPosOutOfRange (Z.of_nat pos)) ErrChildPosOutOfRange;
      let enc := default EmptyString (EncodedChildren bn !! pos) in
      if empty_str enc then mret tt else
      child ← lift (getNodeFromDBAndDecode enc db);
      put (BranchNode bn (<[pos := Some (setGivenHash (Some enc) child)]> cs) b)
  end.

Definition resolveIfCollapsed (pos : nat) (db : dbT) : NM unit :=
  n ← get;
  _ ← lift (isEmptyOrNil n);
  if isPosCollapsed n pos then resolveCollapsed pos db else mret tt.

(** Calling a method of a child. *)
Definition on_child {A} (pos : nat) (m : NM A) : NM A := fun n =>
  match child_at n pos with
  | None => (n, Err RuntimePanic)
  | Some c => let '(c', r) := m c in (set_child pos (Some c') n, r)
  end.

(** ** Reading *)

Fixpoint tryGet (fuel : nat) (key : path) (db : dbT) : NM slice :=
  match fuel with
  | O => fail OutOfFuel
  | S fuel =>
      n ← get;
      _ ← lift (isEmptyOrNil n);
      match n with
      | LeafNode ln _ => mret (if decide (key = ln_Key ln) then ln_Value ln else None)
      | ExtensionNode en _ _ =>
          let l := length (en_Key en) in
          if (length key <? l)%nat then mret None else
          if negb (bool_decide (en_Key en = take l key)) then mret None else
          _ ← resolveIfCollapsed 0 db;
          on_child 0 (tryGet fuel (drop l key) db)
      | BranchNode _ _ _ =>
          match key with
          | [] => mret None
          | childPos :: key =>
              if childPosOutOfRange childPos then fail ErrChildPosOutOfRange else
              _ ← resolveIfCollapsed (Z.to_nat childPos) db;
              n ← get;
              if is_nil (child_at n (Z.to_nat childPos)) then mret None
              else on_child (Z.to_nat childPos) (tryGet fuel key db)
          end
      end
  end.

(** The next node on the way to [key], named by its position, with the rest of
    the key; [None] at the leaf that holds the key. *)
Definition getNext (key : path) (db : dbT) : NM (option (nat * path)) :=
  n ← get;
  _ ← lift (isEmptyOrNil n);
  match n with
  | LeafNode ln _ => if decide (key = ln_Key ln) then mret None else fail ErrNodeNotFound
  | ExtensionNode en _ _ =>
      let l := length (en_Key en) in
      if (length key <? l)%nat then fail ErrNodeNotFound else
      if negb (bool_decide (en_Key en = take l key)) then fail ErrNodeNotFound else
      _ ← resolveIfCollapsed 0 db;
      mret (Some (0%nat, drop l key))
  | BranchNode _ _ _ =>
      match key with
      | [] => fail ErrValueTooShort
      | childPos :: key =>
          if childPosOutOfRange childPos then fail ErrChildPosOutOfRange else
          _ ← resolveIfCollapsed (Z.to_nat childPos) db;
          n ← get;
          if is_nil (child_at n (Z.to_nat childPos)) then fail ErrNodeNotFound
          else mret (Some (Z.to_nat childPos, key))
      end
  end.

(** One step of a proof's verification on a decoded node: whether the key ends
    here, the hash the next node must have, the rest of the key. *)
Definition getNextHashAndKey (n : node) (key : path) : bool * slice * path :=
  match n with
  | LeafNode ln _ => (bool_decide (key = ln_Key ln), None, [])
  | ExtensionNode en _ _ =>
      let l := length (en_Key en) in
      match key with
      | [] => (false, None, [])
      | _ =>
          if (length key <? l)%nat || negb (bool_decide (en_Key en = take l key))
          then (false, None, [])
          else (false, Some (EncodedChild en), drop l key)
      end
  | BranchNode bn _ _ =>
      match key with
      | [] => (false, None, [])
      | childPos :: key =>
          if childPosOutOfRange childPos || negb (length (EncodedChildren bn) =? nrOfChildren)%nat
          then (false, None, [])
          else (false, EncodedChildren bn !! Z.to_nat childPos, key)
      end
  end.

(** ** Inserting a leaf

    The result says whether the trie changed, the node that takes the
    receiver's place, and the hashes of the stored nodes it replaces. *)

Abbreviation insert_result := (bool * node * list string)%type.

Definition old_hash (b : baseNode) : list string := if dirty b then [] else [bytes_of (hash b)].

Definition leaf_insert (ln : CollapsedLn) (b : baseNode) (key : path) (value : slice)
  : NM insert_result :=
  let oldHash := old_hash b in
  if decide (key = ln_Key ln) then
    if decide (bytes_of (ln_Value ln) = bytes_of value) then mret (false, LeafNode ln b, [])
    else
      let n := LeafNode {| ln_Key := ln_Key ln; ln_Value := value |} fresh in
      _ ← put n; mret (true, n, oldHash)
  else
    let keyMatchLen := prefixLen key (ln_Key ln) in
    match ln_Key ln !! keyMatchLen, key !! keyMatchLen with
    | Some oldChildPos, Some newChildPos =>
        if childPosOutOfRange oldChildPos || childPosOutOfRange newChildPos
        then fail ErrChildPosOutOfRange
        else
          let bn := set_child (Z.to_nat newChildPos)
                      (Some (newLeafNode (drop (S keyMatchLen) key) value))
                      (set_child (Z.to_nat oldChildPos)
                         (Some (newLeafNode (drop (S keyMatchLen) (ln_Key ln)) (ln_Value ln)))
                         newBranchNode) in
          if (keyMatchLen =? 0)%nat then mret (true, bn, oldHash)
          else mret (true, newExtensionNode (take keyMatchLen (ln_Key ln)) (Some bn), oldHash)
    | _, _ => fail RuntimePanic
    end.

Definition ext_insert (insert : path -> NM insert_result) (key : path) (value : slice) (db : dbT)
  : NM insert_result :=
  _ ← resolveIfCollapsed 0 db;
  n ← get;
  match n with
  | ExtensionNode en child b =>
      let keyMatchLen := prefixLen key (en_Key en) in
      if (keyMatchLen =? length (en_Key en))%nat then
        '(changed, newNode, oldHashes) ← on_child 0 (insert (drop keyMatchLen key));
        en' ← get;
        if negb (changed : bool) then mret (false, en', [])
        else mret (true, newExtensionNode (en_Key en) (Some newNode), oldHashes ++ old_hash b)
      else
        match en_Key en !! keyMatchLen, key !! keyMatchLen with
        | Some oldChildPos, Some newChildPos =>
            if childPosOutOfRange oldChildPos || childPosOutOfRange newChildPos
            then fail ErrChildPosOutOfRange
            else
              let following := drop (S keyMatchLen) (en_Key en) in
              let old := match following with
                         | [] => child
                         | _ => Some (newExtensionNode following child)
                         end in
              let bn := set_child (Z.to_nat newChildPos)
                          (Some (newLeafNode (drop (S keyMatchLen) key) value))
                          (set_child (Z.to_nat oldChildPos) old newBranchNode) in
              if (keyMatchLen =? 0)%nat then mret (true, bn, old_hash b)
              else mret (true, newExtensionNode (take keyMatchLen (en_Key en)) (Some bn), old_hash b)
        | _, _ => fail RuntimePanic
        end
  | _ => fail RuntimePanic
  end.

Definition branch_insert (insert : path -> NM insert_result) (key : path) (value : slice) (db : dbT)
  : NM insert_result :=
  match key with
  | [] => fail ErrValueTooShort
  | childPos :: key =>
      if childPosOutOfRange childPos then fail ErrChildPosOutOfRange else
      let pos := Z.to_nat childPos in
      _ ← resolveIfCollapsed pos db;
      bn ← get;
      let oldHash := old_hash (base_of bn) in
      if negb (is_nil (child_at bn pos)) then
        '(changed, newNode, oldHashes) ← on_child pos (insert key);
        bn ← get;
        if negb (changed : bool) then mret (false, bn, [])
        else
          let bn' := with_base (fun _ => fresh) (set_child pos (Some newNode) bn) in
          _ ← put bn'; mret (true, bn', oldHashes ++ oldHash)
      else
        let bn' := with_base (fun _ => fresh) (set_child pos (Some (newLeafNode key value)) bn) in
        _ ← put bn'; mret (true, bn', oldHash)
  end.

Fixpoint node_insert (fuel : nat) (value : slice) (db : dbT) (key : path) : NM insert_result :=
  match fuel with
  | O => fail OutOfFuel
  | S fuel =>
      n ← get;
      _ ← lift (isEmptyOrNil n);
      match n with
      | LeafNode ln b => leaf_insert ln b key value
      | ExtensionNode _ _ _ => ext_insert (node_insert fuel value db) key value db
      | BranchNode _ _ _ => branch_insert (node_insert fuel value db) key value db
      end
  end.

(** ** Deleting a key *)

Abbreviation delete_result := (bool * option node * list string)%type.

Definition leaf_delete (ln : CollapsedLn) (b : baseNode) (key : path) : NM delete_result :=
  if decide (key = ln_Key ln) then mret (true, None, old_hash b)
  else mret (false, Some (LeafNode ln b), []).

Definition ext_delete (delete : path -> NM delete_result) (key : path) (db : dbT)
  : NM delete_result :=
  n ← get;
  match n with
  | ExtensionNode en _ b =>
      match key with
      | [] => fail ErrValueTooShort
      | _ =>
          if (prefixLen key (en_Key en) <? length (en_Key en))%nat then mret (false, Some n, [])
          else
            _ ← resolveIfCollapsed 0 db;
            '(changed, newNode, oldHashes) ← on_child 0 (delete (drop (length (en_Key en)) key));
            en' ← get;
            if negb (changed : bool) then mret (false, Some en', [])
            else
              let oldHashes := oldHashes ++ old_hash b in
              match newNode with
              | Some (LeafNode ln _) =>
                  mret (true, Some (newLeafNode (en_Key en ++ ln_Key ln) (ln_Value ln)), oldHashes)
              | Some (ExtensionNode en2 child2 _) =>
                  mret (true, Some (newExtensionNode (en_Key en ++ en_Key en2) child2), oldHashes)
              | _ => mret (true, Some (newExtensionNode (en_Key en) newNode), oldHashes)
              end
      end
  | _ => fail RuntimePanic
  end.

(** The number of taken slots and the last of them. *)
Definition getChildPosition (bn : CollapsedBn) (cs : list (option node))
  : res trieError (nat * nat) :=
  if negb (length (EncodedChildren bn) =? nrOfChildren)%nat
  then Err ErrInvalidBranchNodeChildrenCount
  else
    Ok (foldl (fun '(nr, pos) '(i, t) => if t : bool then (S nr, i) else (nr, pos)) (0%nat, 0%nat)
          (imap pair (taken cs (EncodedChildren bn)))).

(** The node that replaces a branch whose only child is [n], at [pos], and
    whether that child's stored form is superseded. *)
Definition reduceNode (n : node) (pos : nat) : node * bool :=
  match n with
  | LeafNode ln _ => (newLeafNode (Z.of_nat pos :: ln_Key ln) (ln_Value ln), true)
  | ExtensionNode en c _ => (newExtensionNode (Z.of_nat pos :: en_Key en) c, true)
  | BranchNode _ _ _ => (newExtensionNode [Z.of_nat pos] (Some n), false)
  end.

Definition reduceNodeIfNecessary (oldHashes : list string) (db : dbT) : NM delete_result :=
  n ← get;
  match n with
  | BranchNode bn cs _ =>
      '(numChildren, pos) ← lift (getChildPosition bn cs);
      if (numChildren =? 1)%nat then
        _ ← resolveIfCollapsed pos db;
        _ ← on_child pos (resolveIfCollapsed pos db);
        n ← get;
        match child_at n pos with
        | None => fail RuntimePanic
        | Some c =>
            let '(newNode, newChildHash) := reduceNode c pos in
            let oldHashes := if newChildHash && negb (isDirty c)
                             then oldHashes ++ [bytes_of (getHash c)] else oldHashes in
            mret (true, Some newNode, oldHashes)
        end
      else
        let n' := setDirty true n in
        _ ← put n'; mret (true, Some n', oldHashes)
  | _ => fail RuntimePanic
  end.

(** [updateChildReference]: without a child the slot's hash is dropped too. *)
Definition updateChildReference (pos : nat) (newNode : option node) (n : node) : node :=
  match n with
  | BranchNode bn cs b =>
      BranchNode
        (if is_nil newNode then {| EncodedChildren := <[pos := EmptyString]> (EncodedChildren bn) |}
         else bn)
        (<[pos := newNode]> cs) b
  | _ => n
  end.

Definition branch_delete (delete : path -> NM delete_result) (key : path) (db : dbT)
  : NM delete_result :=
  match key with
  | [] => fail ErrValueTooShort
  | childPos :: key =>
      if childPosOutOfRange childPos then fail ErrChildPosOutOfRange else
      let pos := Z.to_nat childPos in
      _ ← resolveIfCollapsed pos db;
      bn ← get;
      if is_nil (child_at bn pos) then mret (false, Some bn, []) else
      '(changed, newNode, oldHashes) ← on_child pos (delete key);
      bn ← get;
      if negb (changed : bool) then mret (false, Some bn, [])
      else
        let oldHashes := oldHashes ++ old_hash (base_of bn) in
        _ ← put (updateChildReference pos newNode (setGivenHash None bn));
        reduceNodeIfNecessary oldHashes db
  end.

(** A leaf does not check that it has a value before it is deleted. *)
Fixpoint node_delete (fuel : nat) (db : dbT) (key : path) : NM delete_result :=
  match fuel with
  | O => fail OutOfFuel
  | S fuel =>
      n ← get;
      match n with
      | LeafNode ln b => leaf_delete ln b key
      | ExtensionNode _ _ _ =>
          _ ← lift (isEmptyOrNil n); ext_delete (node_delete fuel db) key db
      | BranchNode _ _ _ =>
          _ ← lift (isEmptyOrNil n); branch_delete (node_delete fuel db) key db
      end
  end.

(** ** Hashing

    Hashing a node first hashes the loaded children that have no hash. *)

(** Run [f] on every loaded child, stopping at the first error. *)
Definition each_child (f : node -> node * res trieError unit) :=
  fix go (cs : list (option node)) : list (option node) * res trieError unit :=
    match cs with
    | [] => ([], Ok tt)
    | None :: cs => let '(cs', r) := go cs in (None :: cs', r)
    | Some c :: cs =>
        match f c with
        | (c', Ok _) => let '(cs', r) := go cs in (Some c' :: cs', r)
        | (c', Err e) => (Some c' :: cs, Err e)
        end
    end.

(** The hashes of the loaded children, written over the recorded ones. *)
Fixpoint encodeChildren (cs : list (option node)) (enc : list string)
  : list string * res trieError unit :=
  match cs, enc with
  | c :: cs, e :: enc =>
      match c with
      | None => let '(enc', r) := encodeChildren cs enc in (e :: enc', r)
      | Some c =>
          match encodeNodeAndGetHash c with
          | Ok h => let '(enc', r) := encodeChildren cs enc in (h :: enc', r)
          | Err x => (e :: enc, Err x)
          end
      end
  | _, _ => (enc, Ok tt)
  end.

Definition hashNode : NM string :=
  n ← get;
  _ ← lift (isEmptyOrNil n);
  match n with
  | LeafNode _ _ => lift (encodeNodeAndGetHash n)
  | ExtensionNode en None _ => lift (encodeNodeAndGetHash n)
  | ExtensionNode en (Some c) b =>
      encChild ← lift (encodeNodeAndGetHash c);
      let n' := ExtensionNode {| en_Key := en_Key en; EncodedChild := encChild |} (Some c) b in
      _ ← put n'; lift (encodeNodeAndGetHash n')
  | BranchNode bn cs b =>
      let '(enc, r) := encodeChildren cs (EncodedChildren bn) in
      let n' := BranchNode {| EncodedChildren := enc |} cs b in
      _ ← put n'; _ ← lift r; lift (encodeNodeAndGetHash n')
  end.

(** Store the hash just computed. *)
Definition keep_hash (m : NM string) : NM unit := h ← m; modify (setGivenHash (Some h)).

(** [setHash]; [setHashConcurrent] is the same on a goroutine per child. *)
Fixpoint setHash (n : node) : node * res trieError unit :=
  match isEmptyOrNil n with
  | Err e => (n, Err e)
  | Ok _ =>
      match getHash n with
      | Some _ => (n, Ok tt)
      | None =>
          if isCollapsed n then keep_hash (n ← get; lift (encodeNodeAndGetHash n)) n
          else
            match n with
            | LeafNode _ _ => keep_hash hashNode n
            | ExtensionNode en None b => keep_hash hashNode n
            | ExtensionNode en (Some c) b =>
                match setHash c with
                | (c', Ok _) => keep_hash hashNode (ExtensionNode en (Some c') b)
                | (c', Err e) => (ExtensionNode en (Some c') b, Err e)
                end
            | BranchNode bn cs b =>
                match each_child setHash cs with
                | (cs', Ok _) => keep_hash hashNode (BranchNode bn cs' b)
                | (cs', Err e) => (BranchNode bn cs' b, Err e)
                end
            end
      end
  end.

(** [setRootHash] hashes the children of a branch concurrently; they do not
    share nodes, so the outcome is that of [setHash] (of several failures any
    one may be reported). *)
Definition setRootHash : NM unit := setHash.

Definition hasValidHash (n : node) : res trieError bool :=
  _ ← isEmptyOrNil n; Ok (negb (is_nil (getHash n) || isDirty n)).

Definition hash_if_invalid (c : node) : node * res trieError unit :=
  match hasValidHash c with
  | Err e => (c, Err e)
  | Ok true => (c, Ok tt)
  | Ok false => setHash c
  end.

(** The hash of a loaded child, else the recorded one. *)
Definition child_hash (c : option node) (enc : string) : string :=
  match c with Some c => bytes_of (getHash c) | None => enc end.

(** A node that holds its children's hashes in place of the children. *)
Definition getCollapsed : NM node :=
  n ← get;
  match n with
  | LeafNode _ _ => mret n
  | ExtensionNode en c b =>
      _ ← lift (isEmptyOrNil n);
      if isCollapsed n then mret n else
      _ ← on_child 0 hash_if_invalid;
      n ← get;
      mret (ExtensionNode {| en_Key := en_Key en;
                             EncodedChild := child_hash (child_at n 0) (EncodedChild en) |} None b)
  | BranchNode bn cs b =>
      _ ← lift (isEmptyOrNil n);
      if isCollapsed n then mret n else
      let '(cs', r) := each_child hash_if_invalid cs in
      _ ← put (BranchNode bn cs' b);
      _ ← lift r;
      mret (BranchNode {| EncodedChildren := zip_with child_hash cs' (EncodedChildren bn) |}
              (repeat None nrOfChildren) b)
  end.

(** ** Storing *)

(** A computation on a node that also writes to a database. *)
Abbreviation CM := (M (node * dbT) trieError).

Definition on_node {A} (m : NM A) : CM A := fun '(n, d) => let '(n', r) := m n in ((n', d), r).

Definition put_in_db (key val : string) : CM unit := fun '(n, d) =>
  match db_Put d key val with
  | Ok d' => ((n, d'), Ok tt)
  | Err e => ((n, d), Err (ErrWrapped e))
  end.

Definition encodeNodeAndCommitToDB : CM unit :=
  n ← on_node get;
  _ ← (if is_nil (getHash n) then on_node setHash else mret tt);
  n ← on_node get;
  let key := bytes_of (getHash n) in
  collapsed ← on_node getCollapsed;
  val ← lift (getEncodedNode collapsed);
  put_in_db key val.

Definition commit_child (m : CM unit) (pos : nat) : CM unit := fun '(n, d) =>
  match child_at n pos with
  | None => ((n, d), Ok tt)
  | Some c => let '((c', d'), r) := m (c, d) in ((set_child pos (Some c') n, d'), r)
  end.

Fixpoint for_each {A} (f : A -> CM unit) (l : list A) : CM unit :=
  match l with
  | [] => mret tt
  | x :: l => _ ← f x; for_each f l
  end.

Definition positions (n : node) : list nat :=
  match n with
  | LeafNode _ _ => []
  | ExtensionNode _ _ _ => [0%nat]
  | BranchNode _ _ _ => seq 0 nrOfChildren
  end.

(** The number of levels in memory, enough fuel for a [commit] that does not
    load nodes. *)
Fixpoint node_depth (n : node) : nat :=
  match n with
  | LeafNode _ _ => 1%nat
  | ExtensionNode _ c _ => S (from_option node_depth 0%nat c)
  | BranchNode _ cs _ => S (foldr (fun c d => Nat.max (from_option node_depth 0%nat c) d) 0%nat cs)
  end.

(** Write every dirty node below the receiver to the database, children first;
    with [force] also the clean ones, after reading them from [originDb].  At
    the level [maxTrieLevelInMemory] the children are dropped from memory.
    [level] is a byte. *)
Fixpoint commit (fuel : nat) (force : bool) (level maxTrieLevelInMemory : Z) (originDb : dbT)
  : CM unit :=
  match fuel with
  | O => fail OutOfFuel
  | S fuel =>
      n ← on_node get;
      let level := (level + 1) mod 256 in
      _ ← lift (isEmptyOrNil n);
      if negb (isDirty n) && negb force then mret tt else
      _ ← for_each (fun pos =>
            _ ← (if force then on_node (resolveIfCollapsed pos originDb) else mret tt);
            commit_child (commit fuel force level maxTrieLevelInMemory originDb) pos)
            (positions n);
      _ ← on_node (modify (setDirty false));
      _ ← encodeNodeAndCommitToDB;
      match n with
      | LeafNode _ _ => mret tt
      | _ =>
          if level =? maxTrieLevelInMemory then
            collapsed ← on_node getCollapsed; on_node (put collapsed)
          else mret tt
      end
  end.

(** ** Walking over a whole trie *)

(** The hashes, in hex, of the dirty nodes. *)
Fixpoint getDirtyHashes (n : node) (hashes : gset string) : res trieError (gset string) :=
  _ ← isEmptyOrNil n;
  if negb (isDirty n) then Ok hashes else
  match n with
  | LeafNode _ b => Ok ({[EncodeToString (bytes_of (hash b))]} ∪ hashes)
  | ExtensionNode _ None _ => Ok hashes
  | ExtensionNode _ (Some c) b =>
      hashes ← getDirtyHashes c hashes; Ok ({[EncodeToString (bytes_of (hash b))]} ∪ hashes)
  | BranchNode _ cs b =>
      hashes ← (fix go (cs : list (option node)) (hashes : gset string) : res trieError (gset string) :=
                  match cs with
                  | [] => Ok hashes
                  | None :: cs => go cs hashes
                  | Some c :: cs => hashes ← getDirtyHashes c hashes; go cs hashes
                  end) cs hashes;
      Ok ({[EncodeToString (bytes_of (hash b))]} ∪ hashes)
  end.

(** The results for the positions of a list, one after the other. *)
Fixpoint collect {A} (f : nat -> NM (list A)) (l : list nat) : NM (list A) :=
  match l with
  | [] => mret []
  | i :: l => xs ← f i; more ← collect f l; mret (xs ++ more)
  end.

(** The hashes of all nodes, loading what is not in memory. *)
Fixpoint getAllHashes (fuel : nat) (db : dbT) : NM (list string) :=
  match fuel with
  | O => fail OutOfFuel
  | S fuel =>
      n ← get;
      _ ← lift (isEmptyOrNil n);
      match n with
      | LeafNode _ b => mret [bytes_of (hash b)]
      | ExtensionNode _ _ b =>
          _ ← resolveIfCollapsed 0 db;
          hashes ← on_child 0 (getAllHashes fuel db);
          mret (hashes ++ [bytes_of (hash b)])
      | BranchNode _ _ b =>
          hashes ← collect (fun i =>
            _ ← resolveIfCollapsed i db;
            n ← get;
            if is_nil (child_at n i) then mret [] else on_child i (getAllHashes fuel db))
            (seq 0 nrOfChildren);
          mret (hashes ++ [bytes_of (hash b)])
      end
  end.

(** The leaves in order, with the keys of their paths; the children visited are
    dropped from memory.  The walk of a context that is not cancelled. *)
Fixpoint getAllLeaves (fuel : nat) (key : path) (db : dbT) : NM (list (string * string)) :=
  match fuel with
  | O => fail OutOfFuel
  | S fuel =>
      n ← get;
      _ ← lift (isEmptyOrNil n);
      match n with
      | LeafNode ln _ =>
          nodeKey ← lift (hexToKeyBytes (key ++ ln_Key ln));
          mret [(nodeKey, bytes_of (ln_Value ln))]
      | ExtensionNode en _ _ =>
          _ ← resolveIfCollapsed 0 db;
          leaves ← on_child 0 (getAllLeaves fuel (key ++ en_Key en) db);
          _ ← modify (set_child 0 None);
          mret leaves
      | BranchNode _ _ _ =>
          collect (fun i =>
            _ ← resolveIfCollapsed i db;
            n ← get;
            if is_nil (child_at n i) then mret [] else
            leaves ← on_child i (getAllLeaves fuel (key ++ [Z.of_nat i]) db);
            _ ← modify (set_child i None);
            mret leaves) (seq 0 nrOfChildren)
      end
  end.

(** The nodes on the way to [key], encoded ([GetProof]). *)
Fixpoint getProofNodes (fuel : nat) (key : path) (db : dbT) : NM (list string) :=
  match fuel with
  | O => fail OutOfFuel
  | S fuel =>
      n ← get;
      encodedNode ← lift (getEncodedNode n);
      next ← getNext key db;
      match next with
      | None => mret [encodedNode]
      | Some (pos, key) => rest ← on_child pos (getProofNodes fuel key db); mret (encodedNode :: rest)
      end
  end.
End node.
