(* ===== verification/TrieTree.v ===== *)
(** * Logical trees of a Patricia Merkle trie

    What a node stands for, whatever part of it is loaded: a tree of leaves,
    extensions and branches over nibble paths.  A well-formed tree is in normal
    form, so it is determined by the keys and values it holds; a Merkle hash of
    the tree is then a hash of its contents.  The path of a key determines it, and
    the two conversions are inverse to each other on paths of an even number of
    nibbles. *)

From S2P Require Import Prelude TrieNode.
From Stdlib Require Import Ascii.
Local Open Scope Z_scope.

Inductive tree : Type :=
| TLeaf (k : path) (v : string)
| TExt (k : path) (t : tree)
| TBranch (cs : list (option tree)).

(** The induction principle with a hypothesis for every child of a branch. *)
Section tree_ind'.
Variable P : tree -> Prop.
Hypothesis HL : forall k v, P (TLeaf k v).
Hypothesis HE : forall k t, P t -> P (TExt k t).
Hypothesis HB : forall cs, Forall (fun o => forall t, o = Some t -> P t) cs -> P (TBranch cs).

Fixpoint tree_ind' (t : tree) : P t :=
  match t with
  | TLeaf k v => HL k v
  | TExt k t => HE k t (tree_ind' t)
  | TBranch cs =>
      HB cs ((fix go (cs : list (option tree)) : Forall (fun o => forall t, o = Some t -> P t) cs :=
                match cs with
                | [] => Forall_nil_2 _
                | o :: cs =>
                    Forall_cons_2 _ o cs
                      (match o return forall t, o = Some t -> P t with
                       | None => fun t H => ltac:(discriminate H)
                       | Some x => fun t H => match H in _ = y return from_option P True y with
                                              | eq_refl => tree_ind' x
                                              end
                       end)
                      (go cs)
                end) cs)
  end.
End tree_ind'.

(** The slot at position [i] of a branch. *)
Definition slot {A} (cs : list (option A)) (i : Z) : option A := mjoin (cs !! Z.to_nat i).

Definition at_pos {A B} (f : A -> B) (d : B) :=
  fix go (cs : list (option A)) (i : nat) : B :=
    match cs, i with
    | [], _ => d
    | o :: _, O => from_option f d o
    | _ :: cs, S i => go cs i
    end.

Lemma at_pos_spec {A B} (f : A -> B) d cs i : at_pos f d cs i = from_option f d (mjoin (cs !! i)).
Proof. revert i. induction cs as [|o cs IH]; intros [|i]; cbn; auto. Qed.

Fixpoint tget (t : tree) (key : path) : option string :=
  match t with
  | TLeaf k v => if decide (key = k) then Some v else None
  | TExt k t => if decide (k = take (length k) key) then tget t (drop (length k) key) else None
  | TBranch cs =>
      match key with
      | [] => None
      | i :: key => at_pos (fun t => tget t key) None cs (Z.to_nat i)
      end
  end.

Lemma tget_branch cs i key :
  tget (TBranch cs) (i :: key) = from_option (fun t => tget t key) None (slot cs i).
Proof. apply at_pos_spec. Qed.

(** ** Paths of keys *)

Definition nibble (i : Z) : Prop := 0 <= i < 16.

Inductive hexpath : path -> Prop :=
| hex_end : hexpath [16]
| hex_cons i k : nibble i -> hexpath k -> hexpath (i :: k).

Lemma hexpath_nonnil k : hexpath k -> k <> [].
Proof. by destruct 1. Qed.

Lemma hexpath_app ns k : Forall nibble ns -> hexpath k -> hexpath (ns ++ k).
Proof. induction 1; cbn; auto using hexpath. Qed.

Lemma hexpath_app_inv ns k : Forall nibble ns -> hexpath (ns ++ k) -> hexpath k.
Proof.
  induction 1 as [|i ns Hi _ IH]; [done|]. cbn. inversion 1; subst; [|auto].
  unfold nibble in Hi. lia.
Qed.

Lemma hexpath_cons_inv i k : hexpath (i :: k) -> (i = 16 /\ k = []) \/ (nibble i /\ hexpath k).
Proof. inversion 1; subst; auto. Qed.

(** Two paths of keys are equal or part at a position both have. *)
Lemma prefixLen_split a b :
  take (prefixLen a b) a = take (prefixLen a b) b /\
  ((a !! prefixLen a b) = None \/ (b !! prefixLen a b) = None \/
   exists x y, a !! prefixLen a b = Some x /\ b !! prefixLen a b = Some y /\ x <> y).
Proof.
  revert b. induction a as [|x a IH]; intros [|y b]; cbn; auto.
  destruct (Z.eqb_spec x y) as [->|Hne]; cbn.
  - destruct (IH b) as [Ht H]. rewrite Ht. auto.
  - split; [done|]. right; right. eauto.
Qed.

Lemma prefixLen_full a b : prefixLen a b = length b <-> take (length b) a = b.
Proof.
  revert b. induction a as [|x a IH]; intros [|y b]; cbn; try done.
  destruct (Z.eqb_spec x y) as [->|Hne]; cbn.
  - split; intros H; [f_equal; apply IH; lia|]. f_equal. apply IH. congruence.
  - split; [done|]. congruence.
Qed.

Lemma prefixLen_le a b : (prefixLen a b <= length b)%nat /\ (prefixLen a b <= length a)%nat.
Proof.
  revert b. induction a as [|x a IH]; intros [|y b]; cbn; try lia.
  destruct (x =? y); [|lia]. specialize (IH b). lia.
Qed.

(** ** Normal form *)

Definition is_branch (t : tree) : Prop := match t with TBranch _ => True | _ => False end.
Definition loaded {A} (cs : list (option A)) : nat := length (omap id cs).

Inductive wf : tree -> Prop :=
| wf_leaf k v : hexpath k -> v <> EmptyString -> wf (TLeaf k v)
| wf_ext k t : k <> [] -> Forall nibble k -> is_branch t -> wf t -> wf (TExt k t)
| wf_branch cs :
    length cs = nrOfChildren -> (2 <= loaded cs)%nat ->
    (forall i t, nibble i -> slot cs i = Some t -> wf t) ->
    (forall t, slot cs 16 = Some t -> exists v, t = TLeaf [] v /\ v <> EmptyString) ->
    wf (TBranch cs).

Lemma slot_ext {A} (cs1 cs2 : list (option A)) :
  length cs1 = nrOfChildren -> length cs2 = nrOfChildren ->
  (forall i, 0 <= i <= 16 -> slot cs1 i = slot cs2 i) -> cs1 = cs2.
Proof.
  intros H1 H2 H. apply list_eq_same_length with nrOfChildren; [done..|].
  intros i x y Hi Hx Hy. specialize (H (Z.of_nat i)).
  unfold slot in H. rewrite Nat2Z.id, Hx, Hy in H. cbn in H.
  apply H. unfold nrOfChildren in Hi. lia.
Qed.

Lemma loaded_two {A} (cs : list (option A)) :
  (2 <= loaded cs)%nat ->
  exists i j x y, (i < j)%nat /\ cs !! i = Some (Some x) /\ cs !! j = Some (Some y).
Proof.
  unfold loaded. induction cs as [|[x|] cs IH]; cbn; [lia| |].
  - intros H. destruct (omap id cs) as [|y l] eqn:E; [cbn in H; lia|].
    assert (y ∈ omap id cs) as Hy by (rewrite E; left).
    apply list_elem_of_omap in Hy as (o & Ho & Hid). unfold id in Hid. subst o.
    apply list_elem_of_lookup in Ho as [j Hj]. exists 0%nat, (S j), x, y. split; [lia|]. done.
  - intros H. destruct (IH H) as (i & j & x & y & Hij & Hi & Hj).
    exists (S i), (S j), x, y. split; [lia|]. done.
Qed.

Definition childpos (i : Z) : Prop := 0 <= i <= 16.

Lemma wf_branch_two cs :
  wf (TBranch cs) -> exists i j t1 t2, childpos i /\ childpos j /\ i <> j /\
    slot cs i = Some t1 /\ slot cs j = Some t2.
Proof.
  inversion 1 as [| |? Hl H2 _ _]; subst.
  destruct (loaded_two cs H2) as (i & j & x & y & Hij & Hi & Hj).
  assert (i < nrOfChildren)%nat by (rewrite <- Hl; by eapply lookup_lt_Some).
  assert (j < nrOfChildren)%nat by (rewrite <- Hl; by eapply lookup_lt_Some).
  exists (Z.of_nat i), (Z.of_nat j), x, y. unfold slot. rewrite !Nat2Z.id, Hi, Hj.
  unfold childpos, nrOfChildren in *. split_and!; try done; lia.
Qed.

(** A path below a slot is a path of a key once the position is put in front. *)
Definition subpath (i : Z) (k : path) : Prop := hexpath (i :: k).

(** Every well-formed tree holds a key. *)
Lemma wf_nonempty t : wf t -> exists k v, hexpath k /\ tget t k = Some v.
Proof.
  induction t as [k v|k t IH|cs IH] using tree_ind'.
  - inversion 1; subst. exists k, v. split; [done|]. cbn. by rewrite decide_True.
  - inversion 1 as [|? ? Hk Hn _ Hw|]; subst. destruct (IH Hw) as (k' & v & Hk' & Hg).
    exists (k ++ k'), v. split; [by apply hexpath_app|]. cbn.
    rewrite decide_True by (by rewrite take_app_length). by rewrite drop_app_length.
  - intros Hw. destruct (wf_branch_two cs Hw) as (i & j & t1 & t2 & Hi & Hj & Hij & H1 & H2).
    inversion Hw as [| |? Hl _ Hc Ht]; subst.
    destruct (decide (i = 16)) as [->|Hni].
    + destruct (Ht _ H1) as (v & -> & _). exists [16], v. split; [constructor|].
      rewrite tget_branch, H1. cbn. done.
    + assert (nibble i) as Hn by (unfold nibble, childpos in *; lia).
      rewrite Forall_forall in IH. specialize (IH (Some t1)).
      destruct (IH ltac:(apply list_elem_of_lookup; exists (Z.to_nat i); unfold slot in H1;
          destruct (cs !! Z.to_nat i) as [[]|]; cbn in H1; congruence) t1 eq_refl
          (Hc i t1 Hn H1)) as (k & v & Hk & Hg).
      exists (i :: k), v. split; [by constructor|]. by rewrite tget_branch, H1.
Qed.

(** A taken slot of a well-formed branch holds a key. *)
Lemma slot_nonempty cs i t :
  wf (TBranch cs) -> childpos i -> slot cs i = Some t ->
  exists k v, hexpath (i :: k) /\ tget (TBranch cs) (i :: k) = Some v.
Proof.
  intros Hw Hi Hs. inversion Hw as [| |? Hl _ Hc Ht]; subst.
  destruct (decide (i = 16)) as [->|Hni].
  - destruct (Ht _ Hs) as (v & -> & _). exists [], v. split; [constructor|].
    by rewrite tget_branch, Hs.
  - assert (nibble i) as Hn by (unfold nibble, childpos in *; lia).
    destruct (wf_nonempty t (Hc i t Hn Hs)) as (k & v & Hk & Hg).
    exists k, v. split; [by constructor|]. by rewrite tget_branch, Hs.
Qed.

(** A well-formed branch holds two keys that differ in their first nibble. *)
Lemma branch_two_keys t :
  is_branch t -> wf t -> exists i j k1 k2 v1 v2, i <> j /\ hexpath (i :: k1) /\ hexpath (j :: k2) /\
    tget t (i :: k1) = Some v1 /\ tget t (j :: k2) = Some v2.
Proof.
  destruct t as [| |cs]; [done..|]. intros _ Hw.
  destruct (wf_branch_two cs Hw) as (i & j & t1 & t2 & Hi & Hj & Hij & H1 & H2).
  destruct (slot_nonempty cs i t1 Hw Hi H1) as (k1 & v1 & Hk1 & Hg1).
  destruct (slot_nonempty cs j t2 Hw Hj H2) as (k2 & v2 & Hk2 & Hg2).
  by exists i, j, k1, k2, v1, v2.
Qed.

Lemma tget_ext_app k t key : tget (TExt k t) (k ++ key) = tget t key.
Proof. cbn. by rewrite take_app_length, drop_app_length, decide_True. Qed.

Lemma tget_ext_inv k t key v : tget (TExt k t) key = Some v -> exists key', key = k ++ key' /\ tget t key' = Some v.
Proof.
  cbn. case_decide as H; [|done]. intros Hg. exists (drop (length k) key). split; [|done].
  rewrite H at 1. by rewrite take_drop.
Qed.

(** The trees that agree on the keys of well-formed trees. *)
Definition same_content (t1 t2 : tree) : Prop := forall key, hexpath key -> tget t1 key = tget t2 key.

Lemma same_content_sym t1 t2 : same_content t1 t2 -> same_content t2 t1.
Proof. intros H key Hk. symmetry. auto. Qed.

(** An extension holds two keys that part right after its own key. *)
Lemma ext_two_keys k t :
  wf (TExt k t) -> exists i j k1 k2 v1 v2, i <> j /\
    hexpath (k ++ i :: k1) /\ hexpath (k ++ j :: k2) /\
    tget (TExt k t) (k ++ i :: k1) = Some v1 /\ tget (TExt k t) (k ++ j :: k2) = Some v2.
Proof.
  inversion 1 as [|? ? Hk Hn Hb Hw|]; subst.
  destruct (branch_two_keys t Hb Hw) as (i & j & k1 & k2 & v1 & v2 & Hij & H1 & H2 & Hg1 & Hg2).
  exists i, j, k1, k2, v1, v2. rewrite !tget_ext_app. auto using hexpath_app.
Qed.

(** The key of an extension is a prefix of the key of any extension with the
    same content. *)
Lemma ext_key_prefix k1 t1 k2 t2 :
  wf (TExt k1 t1) -> same_content (TExt k1 t1) (TExt k2 t2) -> k2 `prefix_of` k1.
Proof.
  intros Hw Hs. destruct (ext_two_keys k1 t1 Hw) as (i & j & p & q & v & w & Hij & H1 & H2 & Hg1 & Hg2).
  rewrite Hs in Hg1, Hg2 by done.
  apply tget_ext_inv in Hg1 as (r1 & E1 & _), Hg2 as (r2 & E2 & _).
  clear -Hij E1 E2. revert k2 E1 E2. induction k1 as [|a k1 IH]; intros [|b k2] E1 E2; cbn in *.
  - done.
  - congruence.
  - apply prefix_nil.
  - injection E1 as -> E1. injection E2 as E2. apply prefix_cons, IH; done.
Qed.

Lemma leaf_no_two k v t :
  wf t -> ~ (exists k v, t = TLeaf k v) -> same_content (TLeaf k v) t -> False.
Proof.
  intros Hw Hl Hs. destruct t as [k' v'|k' t|cs]; [by eauto|..].
  - destruct (ext_two_keys k' t Hw) as (i & j & p & q & a & b & Hij & H1 & H2 & Hg1 & Hg2).
    rewrite <- Hs in Hg1, Hg2 by done. cbn in Hg1, Hg2. do 2 case_decide; try done. simplify_list_eq.
  - destruct (branch_two_keys (TBranch cs) I Hw) as (i & j & p & q & a & b & Hij & H1 & H2 & Hg1 & Hg2).
    rewrite <- Hs in Hg1, Hg2 by done. cbn in Hg1, Hg2. do 2 case_decide; try done. simplify_list_eq.
Qed.

Lemma ext_branch_differ k t cs :
  wf (TExt k t) -> wf (TBranch cs) -> same_content (TExt k t) (TBranch cs) -> False.
Proof.
  intros He Hb Hs. inversion He as [|? ? Hk _ _ _|]; subst.
  destruct (branch_two_keys (TBranch cs) I Hb) as (i & j & p & q & a & b & Hij & H1 & H2 & Hg1 & Hg2).
  rewrite <- Hs in Hg1, Hg2 by done. apply tget_ext_inv in Hg1 as (? & E1 & _), Hg2 as (? & E2 & _).
  destruct k as [|c k]; [done|]. cbn in *. congruence.
Qed.

(** Well-formed trees with the same content are equal. *)
Lemma canonical t1 t2 : wf t1 -> wf t2 -> same_content t1 t2 -> t1 = t2.
Proof.
  revert t2. induction t1 as [k v|k t IH|cs IH] using tree_ind'; intros t2 H1 H2 Hs.
  - destruct t2 as [k' v'| |]; [|exfalso; eapply leaf_no_two; [exact H2| |done]; naive_solver..].
    inversion H1; subst. specialize (Hs k). cbn in Hs. rewrite decide_True in Hs by done.
    specialize (Hs ltac:(done)). case_decide; congruence.
  - destruct t2 as [k' v'|k' t'|cs'].
    + exfalso. eapply leaf_no_two; [exact H1| |by apply same_content_sym]. naive_solver.
    + assert (k = k') as <-.
      { apply prefix_length_eq; [by eapply ext_key_prefix; [|apply same_content_sym]|].
        apply prefix_length. by eapply ext_key_prefix. }
      f_equal. inversion H1; inversion H2; subst. apply IH; [done..|].
      intros key Hk. rewrite <- (tget_ext_app k t), <- (tget_ext_app k t'). apply Hs.
      by apply hexpath_app.
    + exfalso. by eapply ext_branch_differ.
  - destruct t2 as [k' v'|k' t'|cs'].
    + exfalso. eapply leaf_no_two; [exact H1| |by apply same_content_sym]. naive_solver.
    + exfalso. by eapply ext_branch_differ; [exact H2|exact H1|apply same_content_sym].
    + f_equal. inversion H1 as [| |? Hl _ Hc Ht]; inversion H2 as [| |? Hl' _ Hc' Ht']; subst.
      apply slot_ext; [done..|]. intros i Hi.
      assert (forall key, hexpath (i :: key) ->
        from_option (fun t => tget t key) None (slot cs i) =
        from_option (fun t => tget t key) None (slot cs' i)) as Hsi.
      { intros key Hk. rewrite <- !tget_branch. by apply Hs. }
      destruct (slot cs i) as [a|] eqn:Ea, (slot cs' i) as [b|] eqn:Eb; [|exfalso..|done]; cbn in Hsi.
      * f_equal. destruct (decide (i = 16)) as [->|Hni].
        { destruct (Ht _ Ea) as (v & -> & _), (Ht' _ Eb) as (v' & -> & _).
          specialize (Hsi [] ltac:(constructor)). cbn in Hsi.
          rewrite !decide_True in Hsi by done. congruence. }
        assert (nibble i) as Hn by (unfold nibble in *; lia).
        rewrite Forall_forall in IH. apply (IH (Some a)); [|done|by eapply Hc|by eapply Hc'|].
        { apply list_elem_of_lookup. exists (Z.to_nat i). unfold slot in Ea.
          destruct (cs !! Z.to_nat i) as [[]|]; cbn in Ea; congruence. }
        intros key Hk. apply Hsi. by constructor.
      * destruct (slot_nonempty cs i a H1 Hi Ea) as (k & v & Hk & Hg).
        rewrite tget_branch, Ea in Hg. cbn in Hg. rewrite Hsi in Hg by done. done.
      * destruct (slot_nonempty cs' i b H2 Hi Eb) as (k & v & Hk & Hg).
        rewrite tget_branch, Eb in Hg. cbn in Hg. rewrite <- Hsi in Hg by done. done.
Qed.

Definition lo (c : ascii) : Z := Z.land (Z.of_nat (nat_of_ascii c)) 15.
Definition hi (c : ascii) : Z := Z.shiftr (Z.of_nat (nat_of_ascii c)) 4.

Lemma nibbles_of_byte c : nibble (lo c) /\ nibble (hi c).
Proof. by destruct c as [[] [] [] [] [] [] [] []]; vm_compute. Qed.

Lemma byte_of_nibbles c : ascii_of_nat (Z.to_nat (Z.lor (Z.shiftl (hi c) 4) (lo c))) = c.
Proof. by destruct c as [[] [] [] [] [] [] [] []]; vm_compute. Qed.

Lemma nibble_cases i : nibble i -> In i (map Z.of_nat (seq 0 16)).
Proof.
  intros H. apply in_map_iff. exists (Z.to_nat i). unfold nibble in H.
  split; [lia|]. apply in_seq. lia.
Qed.

Lemma nibbles_of_join l h :
  nibble l -> nibble h ->
  let c := ascii_of_nat (Z.to_nat (Z.lor (Z.shiftl h 4) l)) in lo c = l /\ hi c = h.
Proof.
  intros Hl%nibble_cases Hh%nibble_cases.
  assert (forallb (fun l => forallb (fun h =>
    let c := ascii_of_nat (Z.to_nat (Z.lor (Z.shiftl h 4) l)) in (lo c =? l) && (hi c =? h))
    (map Z.of_nat (seq 0 16))) (map Z.of_nat (seq 0 16)) = true) as H by (vm_compute; reflexivity).
  rewrite forallb_forall in H. specialize (H l Hl). rewrite forallb_forall in H. specialize (H h Hh).
  cbv zeta in *. zify_bools. auto.
Qed.

(** Induction on a list taken two elements at a time. *)
Lemma pair_ind (P : list Z -> Prop) :
  P [] -> (forall a, P [a]) -> (forall a b l, P l -> P (a :: b :: l)) -> forall l, P l.
Proof.
  intros H0 H1 H2. fix IH 1. intros [|a [|b l]]; [exact H0|apply H1|apply H2, IH].
Qed.

Lemma fill_app a b acc : fill_nibbles (a +:+ b) acc = fill_nibbles b (fill_nibbles a acc).
Proof. revert acc. induction a as [|c a IH]; intros acc; [done|]. rewrite string_app_cons. cbn. apply IH. Qed.

Lemma fill_acc s acc : fill_nibbles s acc = fill_nibbles s [] ++ acc.
Proof.
  revert acc. induction s as [|c s IH]; intros acc; [done|]. cbn [fill_nibbles].
  rewrite (IH (_ :: _ :: acc)), (IH [_; _]), <- app_assoc. done.
Qed.

Lemma join_app l s : join_nibbles l s = join_nibbles l "" +:+ s.
Proof.
  revert s. induction l as [|a|a b l IH] using pair_ind; intros s; [done|done|]. cbn [join_nibbles].
  rewrite (IH (String _ s)), (IH (String _ "")), <- string_app_assoc. done.
Qed.

(** ** From a key to its path and back *)

Lemma join_snoc l a b s :
  Nat.even (length l) = true ->
  join_nibbles (l ++ [a; b]) s = String (ascii_of_nat (Z.to_nat (Z.lor (Z.shiftl b 4) a))) (join_nibbles l s).
Proof.
  revert s. induction l as [|x|x y l IH] using pair_ind; intros s He; [done|done|].
  cbn [app join_nibbles]. by rewrite IH.
Qed.

Lemma fill_even s : Nat.even (length (fill_nibbles s [])) = true.
Proof.
  induction s as [|c s IH]; [done|]. cbn [fill_nibbles]. rewrite fill_acc, length_app, Nat.even_add, IH. done.
Qed.

Lemma join_fill s : join_nibbles (fill_nibbles s []) "" = s.
Proof.
  induction s as [|c s IH]; [done|]. cbn [fill_nibbles]. rewrite fill_acc, join_snoc by apply fill_even.
  rewrite IH. f_equal. exact (byte_of_nibbles c).
Qed.

Lemma fill_nibble s : Forall nibble (fill_nibbles s []).
Proof.
  induction s as [|c s IH]; [constructor|]. cbn [fill_nibbles]. rewrite fill_acc. apply Forall_app. split; [done|].
  pose proof (nibbles_of_byte c) as [? ?]. by apply Forall_cons; split; [|apply Forall_singleton].
Qed.

Lemma keyBytesToHex_hexpath k : hexpath (keyBytesToHex k).
Proof.
  unfold keyBytesToHex. rewrite fill_acc. apply hexpath_app; [apply fill_nibble|]. constructor.
Qed.

Lemma hasOnlyNibbles_spec k : Forall nibble k -> hasOnlyNibbles k = true.
Proof.
  intros H. apply forallb_forall. intros x Hx%list_elem_of_In. rewrite Forall_forall in H.
  apply Z.ltb_lt. specialize (H x Hx). unfold nibble, hexTerminator in *. lia.
Qed.

(** What [hexToKeyBytes] does on the path of nibbles closed by the terminator. *)
Lemma hexToKeyBytes_path ns :
  Forall nibble ns ->
  hexToKeyBytes (ns ++ [16]) =
    if Nat.odd (length ns) then Err TrieErrInvalidLength else Ok (join_nibbles ns "").
Proof.
  intros H. unfold hexToKeyBytes. rewrite last_snoc. cbn [default negb Z.eqb].
  rewrite removelast_last. by rewrite hasOnlyNibbles_spec.
Qed.

Lemma hexToKeyBytes_keyBytesToHex k : hexToKeyBytes (keyBytesToHex k) = Ok k.
Proof.
  unfold keyBytesToHex, hexTerminator. rewrite fill_acc, hexToKeyBytes_path by apply fill_nibble.
  rewrite <- Nat.negb_even, fill_even. cbn. by rewrite join_fill.
Qed.

Lemma fill_join ns acc :
  Forall nibble ns -> Nat.even (length ns) = true -> fill_nibbles (join_nibbles ns "") acc = ns ++ acc.
Proof.
  revert acc. induction ns as [|a|a b ns IH] using pair_ind; intros acc Hn He; [done|done|].
  inversion Hn as [|? ? Ha Hn1]; inversion Hn1 as [|? ? Hb Hn2]; subst.
  cbn [join_nibbles app]. rewrite join_app, fill_app, IH by done.
  cbn [fill_nibbles]. destruct (nibbles_of_join a b Ha Hb) as [El Eh]. unfold lo, hi in *. by rewrite El, Eh.
Qed.

Lemma hexpath_snoc k : hexpath k -> exists ns, k = ns ++ [16] /\ Forall nibble ns.
Proof.
  induction 1 as [|i k Hi _ (ns & -> & IH)]; [by exists []|]. exists (i :: ns). split; [done|by constructor].
Qed.

Lemma keyBytesToHex_of_path hk k : hexpath hk -> hexToKeyBytes hk = Ok k -> hk = keyBytesToHex k.
Proof.
  intros (ns & -> & Hn)%hexpath_snoc. rewrite hexToKeyBytes_path by done.
  destruct (Nat.odd (length ns)) eqn:E; [done|]. intros [= <-].
  unfold keyBytesToHex, hexTerminator. by rewrite fill_join by (rewrite <- ?Nat.negb_odd, ?E; done).
Qed.

Lemma keyBytesToHex_inj k1 k2 : keyBytesToHex k1 = keyBytesToHex k2 -> k1 = k2.
Proof. intros E. pose proof (hexToKeyBytes_keyBytesToHex k1) as H. rewrite E, hexToKeyBytes_keyBytesToHex in H. congruence. Qed.
