(* ===== verification/TrieSim.v ===== *)
(** * Editing trees, and the nodes that represent them

    The shapes that insertions and deletions build: a branch where two paths
    part, an extension put in front of a tree, an extension merged with what is
    below it.  Each lemma gives the content of the new tree and its normal form.
    [repr db n t]: the node [n], with what it has in memory and what the
    database [db] holds, stands for the tree [t]; cached hashes are those of the
    tree and clean nodes are stored.  Loading, reading and hashing keep the tree
    and never fail on a well-formed one. *)

From S2P Require Import Prelude Common TrieNode TrieTree.
From Stdlib Require Import Ascii.
Local Open Scope Z_scope.

(** [key] may be looked up in [t]: a well-formed tree with the path of a key, or
    the end of a key in the last slot of a branch. *)
Definition wfk (t : tree) (key : path) : Prop :=
  (wf t /\ hexpath key) \/ (exists v, t = TLeaf [] v /\ v <> EmptyString) /\ key = [].

(** ** Paths *)

Lemma lookup_part {A} (ns : list A) x a : (ns ++ x :: a) !! length ns = Some x.
Proof. by rewrite list_lookup_middle. Qed.

Lemma drop_part {A} (ns : list A) x a : drop (S (length ns)) (ns ++ x :: a) = a.
Proof. rewrite (cons_middle x ns a), app_assoc. apply drop_app_length'. rewrite length_app. cbn. lia. Qed.

(** Two different paths of keys part somewhere. *)
Lemma hexpath_part a b :
  hexpath a -> hexpath b -> a <> b ->
  exists ns x y a' b', a = ns ++ x :: a' /\ b = ns ++ y :: b' /\ x <> y /\
    prefixLen a b = length ns /\ Forall nibble ns /\ hexpath (x :: a') /\ hexpath (y :: b').
Proof.
  intros Ha. revert b. induction Ha as [|i a Hi Ha IH]; intros b Hb Hab.
  - inversion Hb as [|j b' Hj Hb']; subst; [done|]. exists [], 16, j, [], b'.
    cbn -[Z.eqb]. destruct (Z.eqb_spec 16 j); [unfold nibble in Hj; lia|]. split_and!; try done; auto using hexpath.
  - inversion Hb as [|j b' Hj Hb']; subst.
    { exists [], i, 16, a, []. cbn -[Z.eqb]. destruct (Z.eqb_spec i 16); [unfold nibble in Hi; lia|].
      split_and!; try done; auto using hexpath. }
    destruct (decide (i = j)) as [<-|Hne].
    + destruct (IH b' Hb') as (ns & x & y & a' & b'' & -> & -> & Hxy & Hp & Hn & H1 & H2); [congruence|].
      exists (i :: ns), x, y, a', b''. cbn -[Z.eqb]. rewrite Z.eqb_refl. split_and!; try done; by (f_equal || constructor).
    + exists [], i, j, a, b'. cbn -[Z.eqb]. destruct (Z.eqb_spec i j); [done|]. split_and!; try done; auto using hexpath.
Qed.

(** The path of a key parts from the key of an extension it does not start with. *)
Lemma hexpath_part_ext key k :
  hexpath key -> Forall nibble k -> prefixLen key k <> length k ->
  exists ns x y a b, key = ns ++ x :: a /\ k = ns ++ y :: b /\ x <> y /\
    prefixLen key k = length ns /\ Forall nibble ns /\ hexpath (x :: a) /\ nibble y /\ Forall nibble b.
Proof.
  intros Hkey. revert k. induction Hkey as [|i key Hi Hkey IH]; intros k Hk Hp;
    (destruct k as [|j k]; [done|]); inversion Hk as [|? ? Hj Hk']; subst.
  - exists [], 16, j, [], k. cbn -[Z.eqb]. destruct (Z.eqb_spec 16 j); [unfold nibble in Hj; lia|].
    split_and!; try done; auto using hexpath.
  - cbn -[Z.eqb] in Hp. destruct (Z.eqb_spec i j) as [<-|Hne].
    + destruct (IH k Hk') as (ns & x & y & a & b & -> & -> & Hxy & Hpl & Hn & H1 & H2 & H3); [cbn in Hp; lia|].
      exists (i :: ns), x, y, a, b. cbn -[Z.eqb]. rewrite Z.eqb_refl. split_and!; try done; by (f_equal || constructor).
    + exists [], i, j, key, k. cbn -[Z.eqb]. destruct (Z.eqb_spec i j); [done|]. split_and!; try done; auto using hexpath.
Qed.

(** ** Slots *)

Definition has {A} (o : option A) : nat := match o with Some _ => 1 | None => 0 end.

Lemma loaded_insert {A} (l : list (option A)) i o :
  (i < length l)%nat -> (loaded (<[i := o]> l) + has (mjoin (l !! i)) = loaded l + has o)%nat.
Proof.
  unfold loaded. revert i. induction l as [|c l IH]; intros [|i] Hi; cbn in *; try lia.
  - destruct o, c; cbn; lia.
  - specialize (IH i ltac:(lia)). destruct c; [exact (f_equal S IH)|exact IH].
Qed.

Lemma loaded_repeat {A} m : loaded (repeat (None : option A) m) = 0%nat.
Proof. unfold loaded. induction m; cbn; auto. Qed.

Lemma childpos_lt i : childpos i -> (Z.to_nat i < nrOfChildren)%nat.
Proof. unfold childpos, nrOfChildren. lia. Qed.

Lemma slot_insert {A} (cs : list (option A)) i j o :
  length cs = nrOfChildren -> childpos i -> 0 <= j ->
  slot (<[Z.to_nat i := o]> cs) j = if decide (i = j) then o else slot cs j.
Proof.
  intros Hl Hi Hj. pose proof (childpos_lt i Hi). unfold slot. case_decide as E.
  - subst. by rewrite list_lookup_insert_eq by lia.
  - rewrite list_lookup_insert_ne; [done|]. unfold childpos in Hi. lia.
Qed.

Lemma slot_empty {A} m i : slot (repeat (None : option A) m) i = None.
Proof.
  unfold slot. generalize (Z.to_nat i). intros j. revert m. induction j; intros [|m]; cbn; auto.
Qed.

Lemma hexpath_childpos i k : hexpath (i :: k) -> childpos i.
Proof. intros H%hexpath_cons_inv. unfold childpos, nibble in *. lia. Qed.

Lemma slot_wfk i t k : hexpath (i :: k) -> wfk t k ->
  (nibble i -> wf t) /\ (i = 16 -> exists v, t = TLeaf [] v /\ v <> EmptyString).
Proof.
  intros Hk Hw. apply hexpath_cons_inv in Hk as [[-> ->]|[Hi Hk]].
  - split; [unfold nibble; lia|]. intros _. destruct Hw as [[_ H%hexpath_nonnil]|[H _]]; done.
  - split; [|unfold nibble in Hi; lia]. intros _. destruct Hw as [[H _]|[_ ->]]; [done|].
    by apply hexpath_nonnil in Hk.
Qed.

Lemma wf_branch_intro cs :
  length cs = nrOfChildren -> (2 <= loaded cs)%nat ->
  (forall i t, childpos i -> slot cs i = Some t -> exists k, hexpath (i :: k) /\ wfk t k) ->
  wf (TBranch cs).
Proof.
  intros Hl H2 H. constructor; [done..| |].
  - intros i t Hi Hs. destruct (H i t) as (k & Hk & Hw); [unfold nibble, childpos in *; lia|done|].
    by apply (slot_wfk i t k).
  - intros t Hs. destruct (H 16 t) as (k & Hk & Hw); [by unfold childpos|done|].
    by apply (slot_wfk 16 t k).
Qed.

(** What a taken slot of a well-formed branch is. *)
Lemma wf_branch_elim cs i t :
  wf (TBranch cs) -> childpos i -> slot cs i = Some t -> exists k, hexpath (i :: k) /\ wfk t k.
Proof.
  intros Hw Hi Hs. inversion Hw as [| |? Hl _ Hc Ht]; subst.
  destruct (decide (i = 16)) as [->|Hne].
  - exists []. split; [constructor|]. right. split; [by apply Ht|done].
  - assert (nibble i) as Hn by (unfold nibble, childpos in *; lia).
    pose proof (Hc i t Hn Hs) as Hwt. destruct (wf_nonempty t Hwt) as (k & v & Hk & _).
    exists k. split; [by constructor|]. by left.
Qed.

Lemma wf_branch_length cs : wf (TBranch cs) -> length cs = nrOfChildren.
Proof. by inversion 1. Qed.

(** ** A tree below a prefix *)

Definition wrap_ext (ns : path) (t : tree) : tree := match ns with [] => t | _ => TExt ns t end.

Lemma tget_wrap ns t k : tget (wrap_ext ns t) (ns ++ k) = tget t k.
Proof. destruct ns; [done|]. apply tget_ext_app. Qed.

Lemma tget_wrap_none ns t k : ~ ns `prefix_of` k -> tget (wrap_ext ns t) k = None.
Proof.
  intros H. destruct ns as [|i ns]; [by destruct H; apply prefix_nil|].
  destruct (tget (wrap_ext (i :: ns) t) k) eqn:E; [|done].
  apply tget_ext_inv in E as (k' & -> & _). destruct H. by apply prefix_app_r.
Qed.

Lemma wf_wrap ns t : Forall nibble ns -> is_branch t -> wf t -> wf (wrap_ext ns t).
Proof. destruct ns; [done|]. intros. by constructor. Qed.

(** [merge k t]: an extension with key [k] over [t], in normal form. *)
Definition merge (k : path) (t : tree) : tree :=
  match t with
  | TLeaf k' v => TLeaf (k ++ k') v
  | TExt k' t => TExt (k ++ k') t
  | TBranch _ => TExt k t
  end.

Lemma tget_merge k t key : tget (merge k t) (k ++ key) = tget t key.
Proof.
  destruct t as [k' v|k' t|cs]; [| |apply tget_ext_app]; cbn.
  - destruct (decide (key = k')) as [->|Hne]; [by rewrite decide_True|].
    rewrite decide_False; [done|]. by intros ?%app_inv_head.
  - rewrite length_app, take_app_add, drop_app_add.
    destruct (decide (k' = take (length k') key)) as [E|E]; [by rewrite decide_True by (by f_equal)|].
    rewrite decide_False; [done|]. by intros ?%app_inv_head.
Qed.

Lemma tget_merge_none k t key : ~ k `prefix_of` key -> tget (merge k t) key = None.
Proof.
  intros H. destruct (tget (merge k t) key) eqn:E; [|done]. destruct H.
  destruct t as [k' v|k' t|cs]; cbn [merge] in E.
  - cbn in E. case_decide; [|done]. subst. by apply prefix_app_r.
  - apply tget_ext_inv in E as (k2 & -> & _). rewrite <- app_assoc. by apply prefix_app_r.
  - apply tget_ext_inv in E as (k2 & -> & _). by apply prefix_app_r.
Qed.

Lemma wf_merge k t : k <> [] -> Forall nibble k -> wf t -> wf (merge k t).
Proof.
  intros Hk Hn Hw. destruct t as [k' v|k' t|cs]; cbn; inversion Hw; subst; constructor; try done.
  - by apply hexpath_app.
  - by destruct k.
  - by apply Forall_app.
Qed.

(** A lone child in a slot of a branch. *)
Lemma wf_merge_slot i t k : hexpath (i :: k) -> wfk t k -> wf (merge [i] t).
Proof.
  intros Hk Hw. pose proof (hexpath_cons_inv _ _ Hk) as [[-> ->]|[Hi Hk']].
  - destruct Hw as [[_ H%hexpath_nonnil]|[(v & -> & Hv) _]]; [done|]. constructor; [constructor|done].
  - destruct Hw as [[Hw _]|[_ ->]]; [|by apply hexpath_nonnil in Hk'].
    apply wf_merge; auto.
Qed.

(** ** The branch where two paths part *)

Definition two_slots (x y : Z) (tx ty : tree) : list (option tree) :=
  <[Z.to_nat x := Some tx]> (<[Z.to_nat y := Some ty]> (repeat None nrOfChildren)).

Lemma two_slots_slot x y tx ty j :
  childpos x -> childpos y -> 0 <= j ->
  slot (two_slots x y tx ty) j =
    if decide (x = j) then Some tx else if decide (y = j) then Some ty else None.
Proof.
  intros Hx Hy Hj. unfold two_slots.
  rewrite !slot_insert by (rewrite ?length_insert, ?repeat_length; done).
  by rewrite slot_empty.
Qed.

Lemma wf_two_slots x y tx ty a b :
  x <> y -> hexpath (x :: a) -> hexpath (y :: b) -> wfk tx a -> wfk ty b ->
  wf (TBranch (two_slots x y tx ty)).
Proof.
  intros Hxy Hxa Hyb Hx Hy.
  pose proof (hexpath_childpos _ _ Hxa) as Hcx. pose proof (hexpath_childpos _ _ Hyb) as Hcy.
  pose proof (childpos_lt x Hcx). pose proof (childpos_lt y Hcy).
  apply wf_branch_intro.
  - unfold two_slots. by rewrite !length_insert, repeat_length.
  - unfold two_slots.
    pose proof (loaded_insert (repeat None nrOfChildren) (Z.to_nat y) (Some ty)) as H1.
    pose proof (loaded_insert (<[Z.to_nat y := Some ty]> (repeat None nrOfChildren)) (Z.to_nat x) (Some tx)) as H2.
    rewrite loaded_repeat in H1. rewrite length_insert, repeat_length in *.
    fold (slot (repeat (None : option tree) nrOfChildren) y) in H1. rewrite slot_empty in H1.
    fold (slot (<[Z.to_nat y := Some ty]> (repeat None nrOfChildren)) x) in H2.
    rewrite slot_insert, decide_False, slot_empty in H2 by (done || (unfold childpos in *; lia)).
    cbn [has] in *. lia.
  - intros j t Hj. rewrite two_slots_slot by (unfold childpos in *; lia || done).
    repeat case_decide; intros [= <-]; subst; eauto.
Qed.

(** Adding the key [ns ++ x :: a] to a tree whose keys all start with
    [ns ++ [y]]: the content of the branch put where they part. *)
Lemma split_content ns x y a v ty old key' :
  x <> y -> Forall nibble ns -> childpos x -> childpos y -> hexpath key' ->
  (forall k, tget old (ns ++ y :: k) = tget ty k) ->
  (forall k, ~ (ns ++ [y]) `prefix_of` k -> tget old k = None) ->
  tget (wrap_ext ns (TBranch (two_slots x y (TLeaf a v) ty))) key' =
    if decide (key' = ns ++ x :: a) then Some v else tget old key'.
Proof.
  intros Hxy Hns Hx Hy Hkey Hold Hnone.
  destruct (decide (ns `prefix_of` key')) as [[k ->]|Hnp].
  - rewrite tget_wrap. apply hexpath_app_inv in Hkey; [|done].
    destruct k as [|j k]; [by apply hexpath_nonnil in Hkey|].
    pose proof (hexpath_childpos _ _ Hkey) as Hj.
    rewrite tget_branch, two_slots_slot by (done || (unfold childpos in *; lia)).
    assert (forall k', ns ++ j :: k = ns ++ x :: k' <-> j = x /\ k = k') as Heq.
    { intros k'. split; [by intros [= -> ->]%app_inv_head|by intros [-> ->]]. }
    destruct (decide (x = j)) as [<-|Hxj]; cbn [from_option].
    + cbn [tget]. destruct (decide (k = a)) as [->|Hka]; [by rewrite decide_True|].
      rewrite decide_False by (rewrite Heq; naive_solver). symmetry. apply Hnone.
      intros [k' E]. rewrite <- app_assoc in E. apply app_inv_head in E. injection E. congruence.
    + rewrite (decide_False (P := ns ++ j :: k = ns ++ x :: a)) by (rewrite Heq; naive_solver).
      destruct (decide (y = j)) as [<-|Hyj]; cbn [from_option]; [by rewrite Hold|].
      symmetry. apply Hnone. intros [k' E]. rewrite <- app_assoc in E. apply app_inv_head in E.
      injection E. congruence.
  - rewrite tget_wrap_none by done. rewrite decide_False.
    + symmetry. apply Hnone. intros [k ->]. destruct Hnp. rewrite <- app_assoc. by apply prefix_app_r.
    + intros ->. destruct Hnp. by apply prefix_app_r.
Qed.

Definition is_byte (b : Z) : Prop := 0 <= b < 256.
Abbreviation ch cs i := (mjoin (cs !! i)).

(** ** What the trie relies on

    The serializer reads back what it wrote, the hash function has no
    collisions and neither the empty digest nor that of the empty trie, and the database returns what was put. *)

Class NodeCodecLaws {ML : Marshalizer CollapsedLn} {ME : Marshalizer CollapsedEn}
  {MB : Marshalizer CollapsedBn} : Prop := {
  codec_ln : forall k v, Forall is_byte k -> v <> EmptyString ->
    exists b, Marshal {| ln_Key := k; ln_Value := Some v |} = Ok b /\
              Unmarshal b = Ok {| ln_Key := k; ln_Value := Some v |};
  codec_en : forall en, Forall is_byte (en_Key en) -> exists b, Marshal en = Ok b /\ Unmarshal b = Ok en;
  codec_bn : forall bn : CollapsedBn, exists b, Marshal bn = Ok b /\ Unmarshal b = Ok bn;
}.

Class HasherLaws {HS : Hasher} : Prop := {
  compute_inj :: Inj (=) (=) Compute;
  compute_nonempty : forall s, Compute s <> EmptyString;
  compute_not_empty_trie : forall s, Compute s <> EmptyTrieHash;
}.

Class DBLaws {DB : DBWriteCacher} : Prop := {
  db_get_put_eq : forall d d' k v, db_Put d k v = Ok d' -> db_Get d' k = Ok v;
  db_get_put_ne : forall d d' k k' v, db_Put d k v = Ok d' -> k <> k' -> db_Get d' k' = db_Get d k';
  db_put_total : forall d k v, exists d', db_Put d k v = Ok d';
  db_get_remove_eq : forall d d' k, db_Remove d k = Ok d' -> is_ok (db_Get d' k) = false;
  db_get_remove_ne : forall d d' k k', db_Remove d k = Ok d' -> k <> k' -> db_Get d' k' = db_Get d k';
  db_remove_total : forall d k, exists d', db_Remove d k = Ok d';
}.

Section sim.
Context {DB : DBWriteCacher} {HS : Hasher}.
Context {ML : Marshalizer CollapsedLn} {ME : Marshalizer CollapsedEn} {MB : Marshalizer CollapsedBn}.

(** ** The Merkle encoding of a tree *)

Definition marshaled {T} {C : Marshalizer T} (x : T) : string := from_ok EmptyString (Marshal x).

Fixpoint tenc (t : tree) : string :=
  match t with
  | TLeaf k v => marshaled {| ln_Key := k; ln_Value := Some v |} +:+ leaf_byte
  | TExt k t => marshaled {| en_Key := k; EncodedChild := Compute (tenc t) |} +:+ extension_byte
  | TBranch cs =>
      marshaled {| EncodedChildren := map (from_option (fun t => Compute (tenc t)) EmptyString) cs |}
        +:+ branch_byte
  end.
Definition thash (t : tree) : string := Compute (tenc t).

(** The hashes of the children of a branch. *)
Definition slot_hashes (cs : list (option tree)) : list string :=
  map (from_option thash EmptyString) cs.

(** The part of a tree that its node stores: everything but the children. *)
Definition collapsed (t : tree) (b : baseNode) : node :=
  match t with
  | TLeaf k v => LeafNode {| ln_Key := k; ln_Value := Some v |} b
  | TExt k t => ExtensionNode {| en_Key := k; EncodedChild := thash t |} None b
  | TBranch cs => BranchNode {| EncodedChildren := slot_hashes cs |} (repeat None nrOfChildren) b
  end.

(** What the message of a node must satisfy to be read back. *)
Definition encodable (t : tree) : Prop :=
  match t with
  | TLeaf k v => Forall is_byte k /\ v <> EmptyString
  | TExt k t => Forall is_byte k
  | TBranch cs => length cs = nrOfChildren
  end.

Section repr.
Variable db : dbT.

Inductive stored : tree -> Prop :=
| stored_node t :
    encodable t -> db_Get db (thash t) = Ok (tenc t) ->
    (forall k t', t = TExt k t' -> stored t') ->
    (forall cs i t', t = TBranch cs -> ch cs i = Some t' -> stored t') ->
    stored t.

(** A cached hash is the tree's; a clean node is stored. *)
Definition base_ok (b : baseNode) (t : tree) : Prop :=
  (forall h, hash b = Some h -> h = thash t) /\ (dirty b = false -> stored t).

Inductive repr : node -> tree -> Prop :=
| repr_leaf k v b :
    encodable (TLeaf k v) -> base_ok b (TLeaf k v) ->
    repr (LeafNode {| ln_Key := k; ln_Value := Some v |} b) (TLeaf k v)
| repr_ext k enc c b t :
    encodable (TExt k t) -> base_ok b (TExt k t) ->
    (forall n, c = Some n -> repr n t) ->
    (c = None -> enc = thash t /\ stored t) ->
    (hash b <> None -> enc = thash t /\ forall n, c = Some n -> getHash n <> None) ->
    repr (ExtensionNode {| en_Key := k; EncodedChild := enc |} c b) (TExt k t)
| repr_branch enc ns b cs :
    encodable (TBranch cs) -> base_ok b (TBranch cs) ->
    length enc = nrOfChildren -> length ns = nrOfChildren ->
    (forall i n t, ch ns i = Some n -> ch cs i = Some t -> repr n t) ->
    (forall i, ch cs i = None -> ch ns i = None /\ default EmptyString (enc !! i) = EmptyString) ->
    (forall i t, ch cs i = Some t -> ch ns i = None ->
       default EmptyString (enc !! i) = thash t /\ stored t) ->
    (hash b <> None -> forall i t, ch cs i = Some t ->
       default EmptyString (enc !! i) = thash t /\ forall n, ch ns i = Some n -> getHash n <> None) ->
    repr (BranchNode {| EncodedChildren := enc |} ns b) (TBranch cs).
End repr.

(** A tree in a slot: well-formed, or the value of a key that ends there. *)
Definition wfs (t : tree) : Prop := wf t \/ exists v, t = TLeaf [] v /\ v <> EmptyString.

Lemma wfk_wfs t key : wfk t key -> wfs t.
Proof. intros [[? _]|[? _]]; [by left|by right]. Qed.

Lemma nibble_byte k : Forall nibble k -> Forall is_byte k.
Proof. intros H. eapply Forall_impl; [exact H|]. unfold nibble, is_byte. lia. Qed.

Lemma hexpath_byte k : hexpath k -> Forall is_byte k.
Proof.
  induction 1 as [|i k Hi _ IH]; constructor; try done; unfold nibble, is_byte in *; try lia.
Qed.

Lemma wfs_encodable t : wfs t -> encodable t.
Proof.
  intros [Hw|(v & -> & Hv)]; [|by split].
  inversion Hw; subst; cbn; auto using hexpath_byte, nibble_byte.
Qed.

Lemma wf_branch_slot cs i key t :
  wf (TBranch cs) -> hexpath (i :: key) -> slot cs i = Some t -> wfk t key.
Proof.
  inversion 1 as [| |? Hl _ Hc Ht]; subst. intros Hk Hs.
  apply hexpath_cons_inv in Hk as [[-> ->]|[Hi Hk]].
  - right. split; [|done]. by apply Ht.
  - left. split; [by eapply Hc|done].
Qed.

Lemma ch_slot {A} (cs : list (option A)) i : ch cs i = slot cs (Z.of_nat i).
Proof. unfold slot. by rewrite Nat2Z.id. Qed.

Lemma ch_lt {A} (cs : list (option A)) i t : ch cs i = Some t -> (i < length cs)%nat.
Proof.
  destruct (cs !! i) eqn:E; [|done]. intros _. by eapply lookup_lt_Some.
Qed.

Lemma wf_branch_ch cs i t : wf (TBranch cs) -> ch cs i = Some t -> wfs t.
Proof.
  inversion 1 as [| |? Hl _ Hc Ht]; subst. intros Hi.
  pose proof (ch_lt _ _ _ Hi) as Hlt. rewrite Hl in Hlt. rewrite ch_slot in Hi.
  destruct (decide (i = 16)%nat) as [->|Hne].
  - right. by apply Ht.
  - left. eapply Hc; [|done]. unfold nibble, nrOfChildren in *. lia.
Qed.

Context {CL : NodeCodecLaws} {HL : HasherLaws}.

Lemma empty_str_hash t : empty_str (thash t) = false.
Proof.
  unfold empty_str. apply Z.eqb_neq. intros E.
  destruct (thash t) eqn:Eh; [by eapply compute_nonempty|]. unfold slen in E. cbn in E. lia.
Qed.

Lemma slot_hashes_ch cs i :
  default EmptyString (slot_hashes cs !! i) = from_option thash EmptyString (ch cs i).
Proof. unfold slot_hashes. rewrite list_lookup_fmap. by destruct (cs !! i) as [[]|]. Qed.

(** *** Lookups in the taken slots *)

Lemma taken_lookup ns enc i :
  length ns = length enc ->
  taken ns enc !! i =
    match ns !! i, enc !! i with
    | Some c, Some e => Some (negb (is_nil c && empty_str e))
    | _, _ => None
    end.
Proof.
  revert enc i. induction ns as [|c ns IH]; intros [|e enc] i Hl; try done.
  destruct i as [|i]; cbn; [done|]. apply IH. cbn in Hl. lia.
Qed.

Lemma branch_nonempty ns enc b i :
  length enc = nrOfChildren -> taken ns enc !! i = Some true ->
  isEmptyOrNil (BranchNode {| EncodedChildren := enc |} ns b) = Ok tt.
Proof.
  intros He Ht. cbn [isEmptyOrNil EncodedChildren]. rewrite He. cbn [Nat.eqb nrOfChildren negb].
  assert (existsb id (taken ns enc) = true) as ->; [|done].
  apply existsb_exists. exists true. split; [|done]. apply list_elem_of_In, list_elem_of_lookup. eauto.
Qed.

Definition some_slot {A} (cs : list (option A)) : Prop := exists i t, ch cs i = Some t.

Lemma wfs_branch_taken cs : wfs (TBranch cs) -> some_slot cs.
Proof.
  intros [Hw|(? & ? & _)]; [|done].
  destruct (wf_branch_two cs Hw) as (i & _ & t & _ & _ & _ & _ & Hi & _). by exists (Z.to_nat i), t.
Qed.

(** The message of [n] is that of the tree [t]. *)
Definition message_of (n : node) (t : tree) : Prop :=
  match n, t with
  | LeafNode ln _, TLeaf k v => ln = {| ln_Key := k; ln_Value := Some v |}
  | ExtensionNode en _ _, TExt k t => en = {| en_Key := k; EncodedChild := thash t |}
  | BranchNode bn _ _, TBranch cs => EncodedChildren bn = slot_hashes cs
  | _, _ => False
  end.

Lemma encode_message n t :
  encodable t -> message_of n t -> isEmptyOrNil n = Ok tt -> getEncodedNode n = Ok (tenc t).
Proof.
  intros He Hm Hne. unfold getEncodedNode. rewrite Hne.
  destruct n as [ln b|en c b|[enc] ns b], t as [k v|k t|cs]; try done; cbn in Hm; subst; cbn;
    unfold marshaled.
  - destruct He as [Hk Hv]. destruct (codec_ln k v Hk Hv) as (m & -> & _). done.
  - destruct (codec_en {| en_Key := k; EncodedChild := thash t |} He) as (m & E & _).
    unfold thash in *. by rewrite E.
  - destruct (codec_bn {| EncodedChildren := slot_hashes cs |}) as (m & E & _).
    change (map _ cs) with (slot_hashes cs). by rewrite E.
Qed.

Lemma encode_hash n t : getEncodedNode n = Ok (tenc t) -> encodeNodeAndGetHash n = Ok (thash t).
Proof. intros H. unfold encodeNodeAndGetHash. by rewrite H. Qed.

Lemma thash_inj t s : thash t = thash s -> tenc t = tenc s.
Proof. apply compute_inj. Qed.

Lemma compute_tenc t : Compute (tenc t) = thash t.
Proof. reflexivity. Qed.
Lemma thash_nonempty t : thash t <> EmptyString.
Proof. apply compute_nonempty. Qed.
Lemma thash_not_empty_trie t : thash t <> EmptyTrieHash.
Proof. apply compute_not_empty_trie. Qed.

Lemma collapsed_nonempty t b : wfs t -> isEmptyOrNil (collapsed t b) = Ok tt.
Proof.
  intros Hw. pose proof (wfs_encodable t Hw) as He. destruct t as [k v|k t|cs]; cbn [collapsed].
  - done.
  - cbn -[empty_str]. by rewrite empty_str_hash.
  - destruct (wfs_branch_taken cs Hw) as (i & t & Hi).
    assert (length (slot_hashes cs) = nrOfChildren) as Hl by (unfold slot_hashes; by rewrite length_map).
    apply branch_nonempty with i; [done|]. rewrite taken_lookup by by rewrite repeat_length.
    destruct (cs !! i) as [o|] eqn:E; [|done]. cbn in Hi. subst o.
    pose proof (lookup_lt_Some _ _ _ E) as Hlt. rewrite He in Hlt.
    rewrite (proj2 (list_lookup_fmap_Some _ _ _ _) (ex_intro _ _ (conj eq_refl E)) :
      slot_hashes cs !! i = Some _).
    destruct (repeat None nrOfChildren !! i) as [c|] eqn:Ec;
      [|apply lookup_ge_None in Ec; rewrite repeat_length in Ec; lia].
    cbn. by rewrite empty_str_hash, andb_false_r.
Qed.

Lemma split_last_app s c : split_last (s +:+ String c EmptyString) = Some (s, c).
Proof. induction s as [|a s IH]; [done|]. rewrite string_app_cons. cbn. by rewrite IH. Qed.

Lemma decode_tree t : encodable t -> decodeNode (tenc t) = Ok (collapsed t decoded).
Proof.
  destruct t as [k v|k t|cs]; cbn [encodable tenc]; intros He; unfold decodeNode, leaf_byte,
    extension_byte, branch_byte; rewrite split_last_app.
  - cbn [nat_of_ascii ascii_of_nat]. destruct He as [Hk Hv]. unfold marshaled.
    destruct (codec_ln k v Hk Hv) as (m & -> & E). cbn. by rewrite E.
  - unfold marshaled. destruct (codec_en {| en_Key := k; EncodedChild := thash t |} He) as (m & E & Eu).
    unfold thash in *. rewrite E. cbn. by rewrite Eu.
  - unfold marshaled. change (map _ cs) with (slot_hashes cs).
    destruct (codec_bn {| EncodedChildren := slot_hashes cs |}) as (m & E & Eu).
    rewrite E. cbn. rewrite Eu. cbn. unfold checkDecodedNodeShape. cbn.
    rewrite (length_map _ cs : length (slot_hashes cs) = _), He. done.
Qed.

Lemma load_stored db t :
  stored db t -> getNodeFromDBAndDecode (thash t) db = Ok (collapsed t decoded).
Proof.
  destruct 1 as [t He Hg _ _]. unfold getNodeFromDBAndDecode. rewrite Hg. cbn. by apply decode_tree.
Qed.

Lemma ch_repeat_None {A} m i : ch (repeat (None : option A) m) i = None.
Proof. revert m. induction i as [|i IH]; intros [|m]; cbn; auto. Qed.

(** A node read from the database, with the hash it was found under. *)
Lemma repr_loaded db t b :
  stored db t -> (forall h, hash b = Some h -> h = thash t) -> repr db (collapsed t b) t.
Proof.
  intros Hst Hb. inversion Hst as [? He Hg Hx Hc]; subst.
  assert (base_ok db b t) as Hbo by (split; auto).
  destruct t as [k v|k t|cs]; cbn [collapsed]; constructor; try assumption.
  - discriminate.
  - intros _. split; [reflexivity|]. by eapply Hx.
  - intros _. split; [reflexivity|discriminate].
  - unfold slot_hashes. by rewrite length_map.
  - apply repeat_length.
  - intros i n t Hn. by rewrite ch_repeat_None in Hn.
  - intros i Hi. by rewrite ch_repeat_None, slot_hashes_ch, Hi.
  - intros i t Hi _. rewrite slot_hashes_ch, Hi. split; [reflexivity|by eapply Hc].
  - intros _ i t Hi. rewrite slot_hashes_ch, Hi. split; [reflexivity|]. intros n. by rewrite ch_repeat_None.
Qed.

Lemma repr_taken db enc ns b cs i :
  repr db (BranchNode {| EncodedChildren := enc |} ns b) (TBranch cs) ->
  taken ns enc !! i = (fun o => negb (is_nil o)) <$> (cs !! i).
Proof.
  inversion 1 as [| |? ? ? ? Hl _ He Hn _ Hnone Hcol _]; subst. cbn in Hl.
  rewrite taken_lookup by congruence.
  destruct (cs !! i) as [o|] eqn:Ec.
  - pose proof (lookup_lt_Some _ _ _ Ec) as Hlt. rewrite Hl in Hlt.
    destruct (lookup_lt_is_Some_2 ns i) as [c Hc]; [lia|].
    destruct (lookup_lt_is_Some_2 enc i) as [e Hee]; [lia|].
    rewrite Hc, Hee. cbn. f_equal.
    specialize (Hnone i). specialize (Hcol i). rewrite Ec, Hc, Hee in *. cbn in *.
    destruct o as [t|].
    + destruct c as [n|]; [done|]. destruct (Hcol t eq_refl eq_refl) as [-> _].
      by rewrite empty_str_hash.
    + destruct (Hnone eq_refl) as [-> ->]. done.
  - apply lookup_ge_None in Ec. rewrite (proj2 (lookup_ge_None ns i)) by lia. done.
Qed.

Lemma repr_branch_nonempty db enc ns b cs :
  some_slot cs -> repr db (BranchNode {| EncodedChildren := enc |} ns b) (TBranch cs) ->
  isEmptyOrNil (BranchNode {| EncodedChildren := enc |} ns b) = Ok tt.
Proof.
  intros (i & t & Hi) Hr. apply branch_nonempty with i; [by inversion Hr|].
  rewrite (repr_taken db enc ns b cs) by done.
  destruct (cs !! i) as [o|]; [|done]. cbn in Hi. by subst.
Qed.

Lemma repr_nonempty db n t : wfs t -> repr db n t -> isEmptyOrNil n = Ok tt.
Proof.
  intros Hw Hr. inversion Hr as [|? ? ? ? ? ? ? _ Hc _|enc ns b cs Hl _ He Hn _ _ _ _]; subst.
  - done.
  - cbn -[empty_str]. destruct c; [done|]. destruct (Hc eq_refl) as [-> _]. by rewrite empty_str_hash.
  - by eapply repr_branch_nonempty; [apply wfs_branch_taken|].
Qed.

(** ** Loading children *)

Lemma ch_insert {A} (l : list (option A)) i j o :
  (i < length l)%nat -> ch (<[i := o]> l) j = if decide (i = j) then o else ch l j.
Proof.
  intros Hi. case_decide as E; [subst|]; by rewrite ?list_lookup_insert_eq, ?list_lookup_insert_ne.
Qed.

(** Replacing a child by another node for the same tree. *)
Lemma repr_branch_child db enc ns b cs i n t :
  repr db (BranchNode {| EncodedChildren := enc |} ns b) (TBranch cs) ->
  ch cs i = Some t -> repr db n t -> (hash b <> None -> getHash n <> None) ->
  repr db (BranchNode {| EncodedChildren := enc |} (<[i := Some n]> ns) b) (TBranch cs).
Proof.
  inversion 1 as [| |? ? ? ? Hl Hb He Hn Hrec Hnone Hcol Hh]; subst. cbn in Hl. intros Hi Hr Hg.
  pose proof (ch_lt _ _ _ Hi) as Hlt.
  constructor; try assumption; rewrite ?length_insert; try assumption.
  - intros j n' t'. rewrite ch_insert by lia. case_decide; [|apply Hrec]. congruence.
  - intros j Hj. rewrite ch_insert by lia. case_decide; [congruence|]. by apply Hnone.
  - intros j t' Hj. rewrite ch_insert by lia. case_decide; [discriminate|]. by apply Hcol.
  - intros Hh' j t' Hj. destruct (Hh Hh' j t' Hj) as [-> Hn']. split; [reflexivity|].
    intros n'. rewrite ch_insert by lia. case_decide; [|auto]. intros [= <-]. auto.
Qed.

(** Replacing a child by a node for another tree. *)
Lemma repr_branch_update db enc ns b cs i n t :
  repr db (BranchNode {| EncodedChildren := enc |} ns b) (TBranch cs) ->
  (i < nrOfChildren)%nat -> repr db n t ->
  repr db (BranchNode {| EncodedChildren := enc |} (<[i := Some n]> ns) fresh)
    (TBranch (<[i := Some t]> cs)).
Proof.
  inversion 1 as [| |? ? ? ? Hl Hb He Hn Hrec Hnone Hcol Hh]; subst. cbn in Hl. intros Hi Hr.
  constructor; try assumption; cbn [encodable]; rewrite ?length_insert; try assumption.
  - split; [discriminate|discriminate].
  - intros j n' t'. rewrite !ch_insert by lia. case_decide; [congruence|]. apply Hrec.
  - intros j. rewrite !ch_insert by lia. case_decide; [discriminate|]. apply Hnone.
  - intros j t'. rewrite !ch_insert by lia. case_decide; [discriminate|]. apply Hcol.
  - intros []. reflexivity.
Qed.

(** Dropping a child and its hash. *)
Lemma repr_branch_remove db enc ns b cs i :
  repr db (BranchNode {| EncodedChildren := enc |} ns b) (TBranch cs) -> (i < nrOfChildren)%nat ->
  repr db (BranchNode {| EncodedChildren := <[i := EmptyString]> enc |} (<[i := None]> ns) fresh)
    (TBranch (<[i := None]> cs)).
Proof.
  inversion 1 as [| |? ? ? ? Hl Hb He Hn Hrec Hnone Hcol Hh]; subst. cbn in Hl. intros Hi.
  constructor; try assumption; cbn [encodable]; rewrite ?length_insert; try assumption.
  - split; [discriminate|discriminate].
  - intros j n' t'. rewrite !ch_insert by lia. case_decide; [discriminate|]. apply Hrec.
  - intros j. rewrite !ch_insert by lia. case_decide as E.
    + subst. by rewrite list_lookup_insert_eq by lia.
    + rewrite list_lookup_insert_ne by done. apply Hnone.
  - intros j t'. rewrite !ch_insert by lia. case_decide; [discriminate|].
    rewrite list_lookup_insert_ne by done. apply Hcol.
  - intros []. reflexivity.
Qed.


(** The node a stored child becomes when it is loaded. *)
Lemma collapsed_given t h : setGivenHash h (collapsed t decoded) = collapsed t {| hash := h; dirty := false |}.
Proof. by destruct t. Qed.

Lemma getHash_collapsed t b : getHash (collapsed t b) = hash b.
Proof. by destruct t. Qed.

Lemma resolve_branch db enc ns b cs i :
  repr db (BranchNode {| EncodedChildren := enc |} ns b) (TBranch cs) ->
  some_slot cs -> (i < nrOfChildren)%nat ->
  exists ns',
    (forall b', resolveIfCollapsed i db (BranchNode {| EncodedChildren := enc |} ns b') =
                (BranchNode {| EncodedChildren := enc |} ns' b', Ok tt)) /\
    repr db (BranchNode {| EncodedChildren := enc |} ns' b) (TBranch cs) /\
    is_nil (ch ns' i) = is_nil (ch cs i).
Proof.
  intros Hr Hw Hi.
  assert (forall b', isEmptyOrNil (BranchNode {| EncodedChildren := enc |} ns b') = Ok tt) as Hne
    by exact (fun _ => repr_branch_nonempty db _ _ _ _ Hw Hr).
  inversion Hr as [| |? ? ? ? Hl Hb He Hn Hrec Hnone Hcol Hh]; subst. cbn in Hl.
  unfold resolveIfCollapsed. mrun. cbn [isPosCollapsed EncodedChildren].
  destruct (ch ns i) as [n|] eqn:En; [|destruct (ch cs i) as [t|] eqn:Ec].
  - exists ns. split; [intros b'; by rewrite Hne|]. split; [done|].
    rewrite En. destruct (ch cs i) eqn:Ec; [done|]. destruct (Hnone i Ec) as [? _]. congruence.
  - destruct (Hcol i t Ec En) as [Hei Hst].
    exists (<[i := Some (collapsed t {| hash := Some (thash t); dirty := false |})]> ns).
    split; [|split].
    + intros b'. rewrite Hne, Hei, empty_str_hash. cbn [is_nil negb andb].
      unfold resolveCollapsed. mrun. rewrite Hne. unfold childPosOutOfRange.
      rewrite (proj2 (Z.leb_gt _ _)) by (unfold nrOfChildren in *; lia).
      cbn [EncodedChildren]. rewrite Hei, empty_str_hash, load_stored by done.
      by rewrite collapsed_given.
    + eapply repr_branch_child; [done|done| |].
      { apply repr_loaded; [done|]. by intros h [= <-]. }
      intros _. by rewrite getHash_collapsed.
    + rewrite ch_insert by lia. by rewrite decide_True.
  - exists ns. split; [|split; [done|by rewrite En]]. intros b'. rewrite Hne.
    destruct (Hnone i Ec) as [_ ->]. done.
Qed.

Lemma repr_ext_child db k enc c b t n :
  repr db (ExtensionNode {| en_Key := k; EncodedChild := enc |} c b) (TExt k t) ->
  repr db n t -> (hash b <> None -> getHash n <> None) ->
  repr db (ExtensionNode {| en_Key := k; EncodedChild := enc |} (Some n) b) (TExt k t).
Proof.
  inversion 1 as [|? ? ? ? ? He Hb Hrec Hcol Hh|]; subst. intros Hr Hg.
  constructor; try assumption; try discriminate; [by intros ? [= <-]|].
  intros Hb'. destruct (Hh Hb') as [-> _]. split; [reflexivity|]. intros ? [= <-]. auto.
Qed.

Lemma resolve_ext db k enc c b t i :
  repr db (ExtensionNode {| en_Key := k; EncodedChild := enc |} c b) (TExt k t) ->
  exists n,
    resolveIfCollapsed i db (ExtensionNode {| en_Key := k; EncodedChild := enc |} c b) =
      (ExtensionNode {| en_Key := k; EncodedChild := enc |} (Some n) b, Ok tt) /\
    repr db (ExtensionNode {| en_Key := k; EncodedChild := enc |} (Some n) b) (TExt k t) /\ repr db n t.
Proof.
  intros Hr. inversion Hr as [|? ? ? ? ? He Hb Hrec Hcol Hh|]; subst.
  destruct c as [n|].
  - exists n. split; [done|]. auto.
  - destruct (Hcol eq_refl) as [-> Hst].
    assert (repr db (collapsed t {| hash := Some (thash t); dirty := false |}) t) as Hc.
    { apply repr_loaded; [done|]. by intros h [= <-]. }
    exists (collapsed t {| hash := Some (thash t); dirty := false |}). split; [|split; [|done]].
    + unfold resolveIfCollapsed, resolveCollapsed. mrun.
      cbn -[getNodeFromDBAndDecode setGivenHash empty_str]. rewrite empty_str_hash.
      cbn -[getNodeFromDBAndDecode setGivenHash empty_str]. mrun. rewrite empty_str_hash.
      cbn -[getNodeFromDBAndDecode setGivenHash empty_str].
      rewrite load_stored by done. by rewrite collapsed_given.
    + eapply repr_ext_child; [done|done|]. by rewrite getHash_collapsed.
Qed.

(** ** Reading *)

Lemma hexpath_pos i key : hexpath (i :: key) -> childpos i /\ childPosOutOfRange i = false.
Proof.
  intros H. apply hexpath_cons_inv in H. unfold childPosOutOfRange, childpos, nibble, nrOfChildren in *.
  split; [lia|]. apply Z.leb_gt. lia.
Qed.

Lemma on_child_branch {A} enc ns b i n n' (m : NM A) r :
  ch ns i = Some n -> m n = (n', r) ->
  on_child i m (BranchNode enc ns b) = (BranchNode enc (<[i := Some n']> ns) b, r).
Proof. intros Hn Hm. unfold on_child. cbn. by rewrite Hn, Hm. Qed.

Lemma on_child_ext {A} en b i n n' (m : NM A) r :
  m n = (n', r) -> on_child i m (ExtensionNode en (Some n) b) = (ExtensionNode en (Some n') b, r).
Proof. intros Hm. unfold on_child. cbn. by rewrite Hm. Qed.

Lemma ext_wf_inv k t key :
  wfk (TExt k t) key -> k <> [] /\ Forall nibble k /\ is_branch t /\ wf t /\ hexpath key.
Proof. intros [[Hw ?]|[(? & ? & _) _]]; [|done]. by inversion Hw; subst. Qed.

Lemma tryGet_spec db fuel n t key :
  wfk t key -> repr db n t -> (length key < fuel)%nat ->
  exists n', tryGet fuel key db n = (n', Ok (tget t key)) /\ repr db n' t /\ base_of n' = base_of n.
Proof.
  revert n t key. induction fuel as [|fuel IH]; [lia|]. intros n t key Hw Hr Hf.
  pose proof (repr_nonempty db n t (wfk_wfs _ _ Hw) Hr) as Hne.
  cbn [tryGet]. unfold mbind at 1, M_bind at 1, get at 1. unfold mbind at 1, M_bind at 1, lift at 1.
  rewrite Hne. inversion Hr as [k v b He Hb|k enc c b t' He Hb Hrec Hcol Hh
    |enc ns b cs Hl Hb He Hn Hrec Hnone Hcol Hh]; subst.
  - eexists. split; [|split; [exact Hr|done]]. cbn. mrun. by case_decide.
  - destruct (ext_wf_inv _ _ _ Hw) as (Hk & Hnib & Hbr & Hwt & Hkey). cbn [en_Key tget].
    destruct (Nat.ltb_spec (length key) (length k)) as [Hlt|Hge].
    { rewrite decide_False; [eauto|]. intros E%(f_equal length). rewrite length_take in E. lia. }
    destruct (bool_decide (k = take (length k) key)) eqn:Ed; zify_bools; cbn [negb].
    2: { rewrite decide_False by done. eauto. }
    rewrite decide_True by done. destruct (resolve_ext db k enc c b t' 0 Hr) as (n & Hres & Hr1 & Hn1).
    unfold mbind at 1, M_bind at 1. rewrite Hres.
    assert (hexpath (drop (length k) key)) as Hdrop.
    { apply hexpath_app_inv with k; [done|]. rewrite Ed at 1. by rewrite take_drop. }
    destruct (IH n t' (drop (length k) key)) as (n' & Hg & Hr' & Hb'); [by left|done| |].
    { rewrite length_drop. destruct k; [done|]. cbn in *. lia. }
    eexists. split; [by apply on_child_ext|]. split; [|done].
    eapply repr_ext_child; [done..|]. intros Hh'. unfold getHash. rewrite Hb'.
    inversion Hr1 as [|? ? ? ? ? _ _ _ _ Hh1|]; subst. exact (proj2 (Hh1 Hh') n eq_refl).
  - destruct Hw as [[Hw Hkey]|[(? & ? & _) _]]; [|done].
    destruct key as [|i key]; [by apply hexpath_nonnil in Hkey|].
    destruct (hexpath_pos i key Hkey) as [Hi Hpos]. rewrite Hpos.
    assert (Z.to_nat i < nrOfChildren)%nat as Hlt by (unfold childpos, nrOfChildren in *; lia).
    destruct (resolve_branch db enc ns b cs (Z.to_nat i) Hr (wfs_branch_taken cs (or_introl Hw)) Hlt)
      as (ns' & Hres & Hr1 & Hnil).
    unfold mbind at 1, M_bind at 1. rewrite Hres. unfold mbind at 1, M_bind at 1, get at 1.
    cbn [child_at]. rewrite Hnil, tget_branch. unfold slot.
    destruct (ch cs (Z.to_nat i)) as [t|] eqn:Ec; cbn [is_nil from_option]; [|eauto].
    destruct (ch ns' (Z.to_nat i)) as [n|] eqn:En; [|done].
    assert (repr db n t) as Hn1 by (inversion Hr1; eauto).
    destruct (IH n t key) as (n' & Hg & Hr' & Hb'); [by eapply wf_branch_slot|done|cbn in Hf; lia|].
    eexists. split; [by eapply on_child_branch|]. split; [|done].
    eapply repr_branch_child; [done..|]. intros Hh'. unfold getHash. rewrite Hb'.
    inversion Hr1 as [| |? ? ? ? _ _ _ _ _ _ _ Hh1]; subst. exact (proj2 (Hh1 Hh' _ _ Ec) n En).
Qed.
End sim.

(** Hashes are compared, never computed, in the proofs that follow. *)
#[global] Opaque tenc thash.
