(* ===== verification/TrieUpdate.v ===== *)
(** * Insertion and deletion on nodes

    Both operations succeed on a well-formed trie whose stored part is complete;
    the node they return represents a well-formed tree with the key added or
    removed, in normal form (a branch left with one child is folded into it), and
    a node they leave in place still represents the same tree. *)

From S2P Require Import Prelude Common TrieNode TrieTree TrieSim.
Local Open Scope Z_scope.

Section update.
Context {DB : DBWriteCacher} {HS : Hasher}.
Context {ML : Marshalizer CollapsedLn} {ME : Marshalizer CollapsedEn} {MB : Marshalizer CollapsedBn}.
Context {CL : NodeCodecLaws} {HL : HasherLaws}.
Variable db : dbT.


(** [t'] is [t] with [key] set to [v]. *)
Definition added (t t' : tree) (key : path) (v : string) : Prop :=
  forall k, wfk t k -> tget t' k = if decide (k = key) then Some v else tget t k.

Record insert_ok (n : node) (t : tree) (key : path) (v : string)
    (out : node * res trieError (bool * node * list string)) : Prop := {
  ins_eq : exists n' changed newNode hs t', out = (n', Ok (changed, newNode, hs)) /\
    repr db newNode t' /\ wfk t' key /\ (is_branch t -> is_branch t') /\ added t t' key v /\
    (if changed : bool then isDirty newNode = true
     else newNode = n' /\ t' = t /\ base_of n' = base_of n);
}.

Lemma base_fresh t : base_ok db fresh t.
Proof. split; discriminate. Qed.

Lemma repr_new_leaf k v : Forall is_byte k -> v <> EmptyString ->
  repr db (newLeafNode k (Some v)) (TLeaf k v).
Proof. intros. apply repr_leaf; [done|]. apply base_fresh. Qed.

Lemma repr_new_ext k n t : Forall is_byte k -> repr db n t ->
  repr db (newExtensionNode k (Some n)) (TExt k t).
Proof.
  intros Hk Hn. apply repr_ext; [done|apply base_fresh| | |].
  - by intros ? [= <-].
  - discriminate.
  - by intros [].
Qed.

Lemma repr_new_branch : repr db newBranchNode (TBranch (repeat None nrOfChildren)).
Proof.
  apply repr_branch; [reflexivity|apply base_fresh|reflexivity|reflexivity|..].
  - intros i n t H. by rewrite ch_repeat_None in H.
  - intros i _. split; [apply ch_repeat_None|]. unfold nrOfChildren.
    do 17 (destruct i as [|i]; [done|]). done.
  - intros i t H. by rewrite ch_repeat_None in H.
  - intros []. reflexivity.
Qed.

(** The node built where two paths part. *)
Definition split_node (ns : path) (x y : Z) (nx : node) (ny : option node) : node :=
  let bn := set_child (Z.to_nat x) (Some nx) (set_child (Z.to_nat y) ny newBranchNode) in
  if (length ns =? 0)%nat then bn else newExtensionNode ns (Some bn).

Lemma repr_split ns x y nx ny tx ty :
  Forall nibble ns -> childpos x -> childpos y -> repr db nx tx -> repr db ny ty ->
  repr db (split_node ns x y nx (Some ny)) (wrap_ext ns (TBranch (two_slots x y tx ty))).
Proof.
  intros Hns Hx Hy Hrx Hry. unfold split_node.
  assert (repr db (set_child (Z.to_nat x) (Some nx) (set_child (Z.to_nat y) (Some ny) newBranchNode))
            (TBranch (two_slots x y tx ty))) as Hb.
  { eapply repr_branch_update; [|by apply childpos_lt|done].
    eapply repr_branch_update; [apply repr_new_branch|by apply childpos_lt|done]. }
  destruct ns as [|i ns]; cbn [length Nat.eqb wrap_ext]; [done|].
  apply repr_new_ext; [by apply nibble_byte|done].
Qed.

Lemma split_dirty ns x y nx ny : isDirty (split_node ns x y nx ny) = true.
Proof. unfold split_node. by case_match. Qed.

(** What remains of an extension below the branch. *)
Definition following_node (k : path) (c : node) : node :=
  match k with [] => c | _ => newExtensionNode k (Some c) end.

Lemma repr_following k c t : Forall is_byte k -> repr db c t ->
  repr db (following_node k c) (wrap_ext k t).
Proof. destruct k; [done|]. intros. by apply repr_new_ext. Qed.

Lemma prefix_snoc_inv {A} (ns : list A) y k l : (ns ++ y :: k) `prefix_of` l -> (ns ++ [y]) `prefix_of` l.
Proof.
  intros [r ->]. exists (k ++ r). by rewrite <- !app_assoc.
Qed.

Lemma leaf_insert_ok n k v0 b key v :
  repr db n (TLeaf k v0) -> wfk (TLeaf k v0) key -> v <> EmptyString ->
  n = LeafNode {| ln_Key := k; ln_Value := Some v0 |} b ->
  insert_ok n (TLeaf k v0) key v
    (leaf_insert {| ln_Key := k; ln_Value := Some v0 |} b key (Some v) n).
Proof.
  intros Hr Hw Hv ->. split. unfold leaf_insert. cbn [ln_Key ln_Value]. mrun.
  assert (Forall is_byte k) as Hkb by (by inversion Hr as [? ? ? []| |]; subst).
  destruct (decide (key = k)) as [->|Hne].
  - destruct (decide (bytes_of (Some v0) = bytes_of (Some v))) as [Hv0|Hv0]; cbn in Hv0; [subst v0|];
      do 4 eexists.
    + exists (TLeaf k v). split; [reflexivity|]. split_and!; try done.
      intros k' _. cbn. by case_decide.
    + exists (TLeaf k v). split; [reflexivity|]. split; [by apply repr_new_leaf|]. split_and!; try done.
      * destruct Hw as [[Hw Hk]|[(v' & [= -> ->] & _) _]]; [left|right; eauto].
        split; [by constructor|done].
      * intros k' _. cbn. by case_decide.
  - destruct Hw as [[Hw Hkey]|[(v' & [= -> ->] & _) ->]]; [|done].
    inversion Hw as [? ? Hk Hv0| |]; subst.
    destruct (hexpath_part key k Hkey Hk Hne)
      as (ns & x & y & a & b' & -> & -> & Hxy & -> & Hns & Hxa & Hyb).
    pose proof (hexpath_pos _ _ Hxa) as [Hcx Hox]. pose proof (hexpath_pos _ _ Hyb) as [Hcy Hoy].
    rewrite !lookup_part, !drop_part, take_app_length, Hox, Hoy. cbn [orb].
    assert (Forall is_byte a /\ Forall is_byte b') as [Hab Hbb].
    { apply hexpath_byte in Hxa, Hyb. by inversion Hxa; inversion Hyb. }
    exists (LeafNode {| ln_Key := ns ++ y :: b'; ln_Value := Some v0 |} b), true,
      (split_node ns x y (newLeafNode a (Some v)) (Some (newLeafNode b' (Some v0)))), (old_hash b),
      (wrap_ext ns (TBranch (two_slots x y (TLeaf a v) (TLeaf b' v0)))).
    split; [unfold split_node; by case_match|].
    assert (wfk (TLeaf a v) a /\ wfk (TLeaf b' v0) b') as [Hwa Hwb].
    { clear -Hxa Hyb Hv Hv0. apply hexpath_cons_inv in Hxa as [[-> ->]|[_ Ha]],
        Hyb as [[-> ->]|[_ Hb]]; split; unfold wfk; eauto 6 using wf. }
    split; [apply repr_split; try done; by apply repr_new_leaf|].
    split; [left; split; [|done]; apply wf_wrap; [done..|by eapply wf_two_slots]|].
    split; [done|]. split; [|apply split_dirty].
    intros k' [[_ Hk']|[(? & [= E _] & _) _]]; [|by destruct ns].
    apply split_content; try done.
    + intros k3. cbn. destruct (decide (k3 = b')) as [->|Hn3]; [by rewrite decide_True|].
      rewrite decide_False; [done|]. intros [= ->]%app_inv_head. done.
    + intros k3 Hp. cbn. rewrite decide_False; [done|]. intros ->. apply Hp. by eapply prefix_snoc_inv.
Qed.

(** The recursive call is correct on shorter keys. *)
Definition insert_rec_ok (bound : nat) (v : string) (rec : path -> NM (bool * node * list string)) : Prop :=
  forall n t key, wfk t key -> repr db n t -> (length key < bound)%nat ->
    insert_ok n t key v (rec key n).

Lemma ext_insert_ok rec n k enc c b t key v :
  n = ExtensionNode {| en_Key := k; EncodedChild := enc |} c b ->
  repr db n (TExt k t) -> wfk (TExt k t) key -> v <> EmptyString ->
  insert_rec_ok (length key) v rec ->
  insert_ok n (TExt k t) key v (ext_insert rec key (Some v) db n).
Proof.
  intros -> Hr Hw Hv IH. split. destruct (ext_wf_inv _ _ _ Hw) as (Hk & Hnib & Hbr & Hwt & Hkey).
  destruct (resolve_ext db k enc c b t 0 Hr) as (c1 & Hres & Hr1 & Hc1).
  unfold ext_insert. unfold mbind at 1, M_bind at 1. rewrite Hres.
  unfold mbind at 1, M_bind at 1, get at 1. cbn [en_Key].
  destruct (Nat.eqb_spec (prefixLen key k) (length k)) as [Hp|Hp].
  - pose proof (proj1 (prefixLen_full key k) Hp) as Htake. rewrite Hp.
    assert (key = k ++ drop (length k) key) as Hsplit by (rewrite <- Htake at 1; by rewrite take_drop).
    assert (hexpath (drop (length k) key)) as Hd.
    { apply hexpath_app_inv with k; [done|]. by rewrite <- Hsplit. }
    destruct (IH c1 t (drop (length k) key)) as
      [(c2 & changed & m & hs & t' & Hrec & Hm & Hwm & Hbr' & Hadd & Hch)].
    { by left. } { done. }
    { rewrite length_drop. pose proof (f_equal length Hsplit) as E. rewrite length_app, length_drop in E.
      destruct k; [done|]. cbn in *. lia. }
    unfold mbind at 1, M_bind at 1. rewrite (on_child_ext _ _ _ _ _ _ _ Hrec). mrun. cbn [en_Key].
    assert (wf t') as Hwt'.
    { destruct Hwm as [[? _]|[_ E]]; [done|]. rewrite E in Hd. by apply hexpath_nonnil in Hd. }
    assert (added (TExt k t) (TExt k t') key v) as Hadd'.
    { intros k' [[_ Hk']|[(? & ? & _) _]]; [|done]. cbn [tget].
      destruct (decide (k = take (length k) k')) as [E|E].
      - assert (k' = k ++ drop (length k) k') as E' by (rewrite E at 1; by rewrite take_drop).
        rewrite Hadd by (left; split; [done|]; apply hexpath_app_inv with k; [done|by rewrite <- E']).
        do 2 case_decide; try done; exfalso; congruence.
      - rewrite decide_False; [done|]. intros ->. by rewrite Htake in E. }
    destruct changed; cbn [negb].
    + do 4 eexists. exists (TExt k t'). split; [reflexivity|].
      split; [by apply repr_new_ext; [apply nibble_byte|]|].
      split; [|split; [done|by split]]. left. split; [|done]. constructor; auto.
    + destruct Hch as (-> & -> & Hbase). do 4 eexists. exists (TExt k t). split; [reflexivity|].
      split; [|split_and!; try done].
      eapply repr_ext_child; [done..|]. intros Hh. unfold getHash. rewrite Hbase.
      inversion Hr1 as [|? ? ? ? ? _ _ _ _ Hh1|]; subst. exact (proj2 (Hh1 Hh) c1 eq_refl).
  - destruct (hexpath_part_ext key k Hkey Hnib Hp)
      as (ns & x & y & a & b' & -> & -> & Hxy & -> & Hns & Hxa & Hy & Hb').
    pose proof (hexpath_pos _ _ Hxa) as [Hcx Hox].
    assert (childpos y /\ childPosOutOfRange y = false) as [Hcy Hoy].
    { unfold childpos, childPosOutOfRange, nrOfChildren, nibble in *. split; [lia|]. apply Z.leb_gt. lia. }
    rewrite !lookup_part, !drop_part, take_app_length, Hox, Hoy. cbn [orb]. mrun.
    exists (ExtensionNode {| en_Key := ns ++ y :: b'; EncodedChild := enc |} (Some c1) b), true,
      (split_node ns x y (newLeafNode a (Some v)) (Some (following_node b' c1))), (old_hash b),
      (wrap_ext ns (TBranch (two_slots x y (TLeaf a v) (wrap_ext b' t)))).
    split; [unfold split_node, following_node; destruct b'; by case_match|].
    assert (wfk (TLeaf a v) a) as Hwa.
    { clear -Hxa Hv. apply hexpath_cons_inv in Hxa as [[-> ->]|[_ Ha]]; unfold wfk; eauto 6 using wf. }
    assert (wf (wrap_ext b' t)) as Hwb by (by apply wf_wrap).
    destruct (wf_nonempty _ Hwb) as (kb & vb & Hkb & _).
    assert (Forall is_byte a) as Hab by (apply hexpath_byte in Hxa; by inversion Hxa).
    split; [apply repr_split; try done; [by apply repr_new_leaf|by apply repr_following; [apply nibble_byte|]]|].
    split; [left; split; [|done]; apply wf_wrap; [done..|];
      eapply (wf_two_slots x y _ _ a kb); [done|done|by constructor|done|by left]|].
    split; [done|]. split; [|apply split_dirty].
    intros k' [[_ Hk']|[(? & ? & _) _]]; [|done].
    apply split_content; try done.
    + intros k3. destruct (decide (b' `prefix_of` k3)) as [[k4 ->]|Hnp].
      * rewrite tget_wrap. replace (ns ++ y :: b' ++ k4) with ((ns ++ y :: b') ++ k4)
          by by rewrite <- app_assoc. apply tget_ext_app.
      * rewrite tget_wrap_none by done. destruct (tget (TExt (ns ++ y :: b') t) (ns ++ y :: k3)) eqn:E; [|done].
        apply tget_ext_inv in E as (k4 & E & _). rewrite <- app_assoc in E. apply app_inv_head in E.
        injection E as ->. destruct Hnp. by apply prefix_app_r.
    + intros k3 Hp3. destruct (tget (TExt (ns ++ y :: b') t) k3) eqn:E; [|done].
      apply tget_ext_inv in E as (k4 & -> & _). destruct Hp3. eapply prefix_snoc_inv. by apply prefix_app_r.
Qed.

(** Setting a slot of a well-formed branch. *)
Lemma set_slot_wf cs i t key :
  wf (TBranch cs) -> hexpath (i :: key) -> wfk t key -> wf (TBranch (<[Z.to_nat i := Some t]> cs)).
Proof.
  intros Hw Hk Ht. pose proof (wf_branch_length cs Hw) as Hl.
  pose proof (hexpath_childpos _ _ Hk) as Hi. pose proof (childpos_lt i Hi) as Hlt.
  apply wf_branch_intro; [by rewrite length_insert| |].
  - inversion Hw as [| |? _ H2 _ _]; subst.
    pose proof (loaded_insert cs (Z.to_nat i) (Some t) ltac:(lia)) as E. cbn [has] in E.
    destruct (ch cs (Z.to_nat i)); cbn [has] in E; lia.
  - intros j t' Hj. rewrite slot_insert by (done || (unfold childpos in *; lia)).
    case_decide; [intros [= <-]; subst; eauto|]. by apply wf_branch_elim.
Qed.

Lemma set_slot_added cs i t key v :
  wf (TBranch cs) -> hexpath (i :: key) ->
  (forall k, hexpath (i :: k) -> tget t k =
     if decide (k = key) then Some v else from_option (fun t => tget t k) None (slot cs i)) ->
  added (TBranch cs) (TBranch (<[Z.to_nat i := Some t]> cs)) (i :: key) v.
Proof.
  intros Hw Hk Ht k' [[_ Hk']|[(? & ? & _) _]]; [|done].
  destruct k' as [|j k']; [by apply hexpath_nonnil in Hk'|].
  pose proof (hexpath_childpos _ _ Hk) as Hi. pose proof (hexpath_childpos _ _ Hk') as Hj.
  rewrite !tget_branch, slot_insert by (by apply wf_branch_length || (unfold childpos in *; lia)).
  destruct (decide (i = j)) as [<-|Hne]; cbn [from_option].
  - rewrite Ht by done. do 2 case_decide; try done; congruence.
  - rewrite decide_False by congruence. done.
Qed.

Lemma branch_insert_ok rec n enc ns b cs key v :
  n = BranchNode {| EncodedChildren := enc |} ns b ->
  repr db n (TBranch cs) -> wfk (TBranch cs) key -> v <> EmptyString ->
  insert_rec_ok (length key) v rec ->
  insert_ok n (TBranch cs) key v (branch_insert rec key (Some v) db n).
Proof.
  intros -> Hr Hw Hv IH. split. destruct Hw as [[Hw Hkey]|[(? & ? & _) _]]; [|done].
  destruct key as [|i key]; [by apply hexpath_nonnil in Hkey|]. unfold branch_insert.
  destruct (hexpath_pos i key Hkey) as [Hi Hpos]. rewrite Hpos.
  pose proof (childpos_lt i Hi) as Hlt.
  destruct (resolve_branch db enc ns b cs (Z.to_nat i) Hr (wfs_branch_taken cs (or_introl Hw)) Hlt) as (ns' & Hres & Hr1 & Hnil).
  unfold mbind at 1, M_bind at 1. rewrite Hres. unfold mbind at 1, M_bind at 1, get at 1.
  cbn [child_at base_of]. rewrite Hnil. fold (slot cs i).
  destruct (slot cs i) as [t|] eqn:Ec; cbn [is_nil negb].
  - destruct (ch ns' (Z.to_nat i)) as [n|] eqn:En; [|by unfold slot in Ec; rewrite Ec in Hnil].
    assert (repr db n t) as Hn1 by (inversion Hr1; eauto).
    pose proof (wf_branch_slot cs i key t Hw Hkey Ec) as Hwk.
    destruct (IH n t key) as [(c2 & changed & m & hs & t' & Hrec & Hm & Hwm & Hbr' & Hadd & Hch)];
      [done|done|cbn; lia|].
    unfold mbind at 1, M_bind at 1. rewrite (on_child_branch _ _ _ _ _ _ _ _ En Hrec). mrun.
    assert (added (TBranch cs) (TBranch (<[Z.to_nat i := Some t']> cs)) (i :: key) v) as Hadd'.
    { apply set_slot_added; [done..|]. intros k Hk. rewrite Ec. apply Hadd. by eapply wf_branch_slot. }
    destruct changed; cbn [negb].
    + do 4 eexists. exists (TBranch (<[Z.to_nat i := Some t']> cs)). split; [reflexivity|].
      cbn [set_child with_base]. rewrite list_insert_insert_eq.
      split; [by eapply repr_branch_update|]. split; [left; split; [by eapply set_slot_wf|done]|]. done.
    + destruct Hch as (-> & -> & Hbase). do 4 eexists. exists (TBranch cs). split; [reflexivity|].
      split.
      { eapply repr_branch_child; [done..|]. intros Hh. unfold getHash. rewrite Hbase.
        inversion Hr1 as [| |? ? ? ? _ _ _ _ _ _ _ Hh1]; subst. exact (proj2 (Hh1 Hh _ _ Ec) n En). }
      split; [by left|]. split; [done|]. split; [|done].
      unfold slot in Ec. replace (<[Z.to_nat i := Some t]> cs) with cs in Hadd'; [done|].
      symmetry. apply list_insert_id. destruct (cs !! Z.to_nat i) as [o|]; [|done]. cbn in Ec. by subst.
  - mrun. do 4 eexists. exists (TBranch (<[Z.to_nat i := Some (TLeaf key v)]> cs)). split; [reflexivity|].
    cbn [set_child with_base].
    assert (wfk (TLeaf key v) key) as Hwl.
    { apply hexpath_cons_inv in Hkey as [[-> ->]|[_ Ha]]; unfold wfk; eauto 6 using wf. }
    split.
    { eapply repr_branch_update; [done..|]. apply repr_new_leaf; [|done].
      apply hexpath_byte in Hkey. by inversion Hkey. }
    split; [left; split; [by eapply set_slot_wf|done]|]. split; [done|]. split; [|done].
    apply set_slot_added; [done..|]. intros k _. rewrite Ec. cbn. done.
Qed.

Lemma node_insert_spec fuel n t key v :
  wfk t key -> repr db n t -> v <> EmptyString -> (length key < fuel)%nat ->
  insert_ok n t key v (node_insert fuel (Some v) db key n).
Proof.
  revert n t key. induction fuel as [|fuel IH]; [lia|]. intros n t key Hw Hr Hv Hf.
  pose proof (repr_nonempty db n t (wfk_wfs _ _ Hw) Hr) as Hne.
  cbn [node_insert]. unfold mbind at 1, M_bind at 1, get at 1. unfold mbind at 1, M_bind at 1, lift at 1.
  rewrite Hne. assert (insert_rec_ok (length key) v (node_insert fuel (Some v) db)) as Hrec.
  { intros n' t' key' ? ? ?. apply IH; auto. lia. }
  inversion Hr; subst.
  - by apply leaf_insert_ok.
  - by eapply ext_insert_ok.
  - by eapply branch_insert_ok.
Qed.
End update.

(** ** The taken slots of a branch *)

Definition count (l : list bool) : nat := length (filter Is_true l).

Lemma count_snoc l b : count (l ++ [b]) = (count l + if b then 1 else 0)%nat.
Proof. unfold count. rewrite filter_app, length_app. by destruct b. Qed.

Lemma scan_spec (l : list bool) :
  let '(nr, pos) := foldl (fun '(nr, pos) '(i, t) => if t : bool then (S nr, i) else (nr, pos))
                      (0%nat, 0%nat) (imap pair l) in
  nr = count l /\ ((0 < nr)%nat -> l !! pos = Some true).
Proof.
  induction l as [|b l IH] using rev_ind; [cbn; split; [done|lia]|].
  rewrite imap_app, foldl_app. destruct (foldl _ _ (imap pair l)) as [nr pos]. cbn.
  rewrite Nat.add_0_r, count_snoc. destruct IH as [-> IH]. destruct b; cbn.
  - split; [lia|]. intros _. by rewrite lookup_app_r, Nat.sub_diag by lia.
  - split; [lia|]. intros H. specialize (IH H). by rewrite lookup_app_l by (by eapply lookup_lt_Some).
Qed.

Lemma count_loaded {A} (cs : list (option A)) : count (map (fun o => negb (is_nil o)) cs) = loaded cs.
Proof.
  unfold count, loaded. induction cs as [|[x|] cs IH]; [done|..]; cbn [map is_nil negb].
  - rewrite filter_cons_True by done. exact (f_equal S IH).
  - rewrite filter_cons_False by (by intros []). exact IH.
Qed.

(** With a single taken slot, the others are free. *)
Lemma loaded_one {A} (cs : list (option A)) i j x y :
  loaded cs = 1%nat -> ch cs i = Some x -> ch cs j = Some y -> i = j.
Proof.
  intros H1 Hi Hj. destruct (decide (i = j)) as [|Hne]; [done|].
  pose proof (ch_lt _ _ _ Hi) as Hli. pose proof (ch_lt _ _ _ Hj) as Hlj.
  pose proof (loaded_insert cs i None Hli) as E1. rewrite Hi in E1.
  pose proof (loaded_insert (<[i := None]> cs) j None) as E2.
  rewrite length_insert, ch_insert, decide_False, Hj in E2 by done. cbn [has] in *.
  specialize (E2 Hlj). lia.
Qed.

Lemma loaded_pos {A} (cs : list (option A)) : (0 < loaded cs)%nat -> some_slot cs.
Proof.
  unfold loaded. induction cs as [|[x|] cs IH]; cbn; [lia|by exists 0%nat, x|].
  intros H. destruct (IH H) as (i & y & Hi). by exists (S i), y.
Qed.

Section delete.
Context {DB : DBWriteCacher} {HS : Hasher}.
Context {ML : Marshalizer CollapsedLn} {ME : Marshalizer CollapsedEn} {MB : Marshalizer CollapsedBn}.
Context {CL : NodeCodecLaws} {HL : HasherLaws}.
Variable db : dbT.


(** [t'] is [t] without [key]. *)
Definition removed (t t' : tree) (key : path) : Prop :=
  forall k, hexpath k -> tget t' k = if decide (k = key) then None else tget t k.

(** An extension keeps its child in memory. *)
Definition ext_loaded (n : node) : Prop :=
  match n with ExtensionNode _ None _ => False | _ => True end.

(** A node built by a deletion: it represents a well-formed tree. *)
Definition rebuilt (m : node) (t : tree) : Prop :=
  repr db m t /\ wf t /\ isDirty m = true /\ ext_loaded m.

Record delete_ok (n : node) (t : tree) (key : path)
    (out : node * res trieError (bool * option node * list string)) : Prop := {
  del_eq : exists n' changed newNode hs, out = (n', Ok (changed, newNode, hs)) /\
    if changed : bool then
      match newNode with
      | None => exists v, t = TLeaf key v
      | Some m => exists t', rebuilt m t' /\ hexpath key /\ removed t t' key
      end
    else newNode = Some n' /\ repr db n' t /\ base_of n' = base_of n /\ tget t key = None;
}.

Lemma leaf_delete_ok k v b key :
  let n := LeafNode {| ln_Key := k; ln_Value := Some v |} b in
  repr db n (TLeaf k v) ->
  delete_ok n (TLeaf k v) key (leaf_delete {| ln_Key := k; ln_Value := Some v |} b key n).
Proof.
  intros n Hr. split. unfold leaf_delete. cbn [ln_Key]. mrun. destruct (decide (key = k)) as [->|Hne].
  - do 4 eexists. split; [reflexivity|]. cbn. eauto.
  - do 4 eexists. split; [reflexivity|]. cbn. by rewrite decide_False.
Qed.

(** An extension put in front of a rebuilt node. *)
Lemma merge_rebuilt k m t :
  k <> [] -> Forall nibble k -> rebuilt m t ->
  rebuilt (match m with
           | LeafNode ln _ => newLeafNode (k ++ ln_Key ln) (ln_Value ln)
           | ExtensionNode en2 c2 _ => newExtensionNode (k ++ en_Key en2) c2
           | BranchNode _ _ _ => newExtensionNode k (Some m)
           end) (merge k t).
Proof.
  intros Hk Hn (Hr & Hw & Hd & He). split; [|split; [by apply wf_merge|]].
  - apply nibble_byte in Hn.
    inversion Hr as [? ? ? [Hb Hv] _|? ? c ? ? Hb _ Hrec _ _|? ? ? ? _ _ _ _ _ _ _ _]; subst; cbn [merge ln_Key ln_Value en_Key].
    + apply repr_new_leaf; [by apply Forall_app|done].
    + destruct c as [c|]; [|done]. apply repr_new_ext; [by apply Forall_app|auto].
    + by apply repr_new_ext.
  - inversion Hr; subst; [done| |done]. cbn in He. by destruct c.
Qed.

Definition delete_rec_ok (bound : nat) (rec : path -> NM (bool * option node * list string)) : Prop :=
  forall n t key, wfk t key -> repr db n t -> (length key < bound)%nat -> delete_ok n t key (rec key n).

Lemma ext_delete_ok rec n k enc c b t key :
  n = ExtensionNode {| en_Key := k; EncodedChild := enc |} c b ->
  repr db n (TExt k t) -> wfk (TExt k t) key -> delete_rec_ok (length key) rec ->
  delete_ok n (TExt k t) key (ext_delete rec key db n).
Proof.
  intros -> Hr Hw IH. split. destruct (ext_wf_inv _ _ _ Hw) as (Hk & Hnib & Hbr & Hwt & Hkey).
  unfold ext_delete. unfold mbind at 1, M_bind at 1, get at 1. cbn [en_Key].
  destruct key as [|i0 key0]; [by apply hexpath_nonnil in Hkey|]. set (key := i0 :: key0) in *.
  destruct (Nat.ltb_spec (prefixLen key k) (length k)) as [Hp|Hp].
  - do 4 eexists. split; [reflexivity|]. split_and!; try done. cbn [tget].
    rewrite decide_False; [done|]. intros E. symmetry in E. apply prefixLen_full in E. lia.
  - assert (take (length k) key = k) as Htake.
    { apply prefixLen_full. pose proof (prefixLen_le key k). lia. }
    assert (key = k ++ drop (length k) key) as Hsplit by (rewrite <- Htake at 1; by rewrite take_drop).
    assert (hexpath (drop (length k) key)) as Hd.
    { apply hexpath_app_inv with k; [done|]. by rewrite <- Hsplit. }
    destruct (resolve_ext db k enc c b t 0 Hr) as (c1 & Hres & Hr1 & Hc1).
    unfold mbind at 1, M_bind at 1. rewrite Hres.
    destruct (IH c1 t (drop (length k) key)) as [(c2 & changed & m & hs & Hrec & Hch)].
    { by left. } { done. }
    { rewrite length_drop. pose proof (f_equal length Hsplit) as E. rewrite length_app, length_drop in E.
      destruct k; [done|]. cbn in *. lia. }
    unfold mbind at 1, M_bind at 1. rewrite (on_child_ext _ _ _ _ _ _ _ Hrec). mrun.
    destruct changed; cbn [negb].
    + destruct m as [m|]; [|by destruct Hch as [v ->]].
      destruct Hch as (t' & Hreb & _ & Hrem). pose proof (merge_rebuilt k m t' Hk Hnib Hreb) as Hmr.
      assert (removed (TExt k t) (merge k t') key) as Hrem'.
      { intros k' Hk'. destruct (decide (k `prefix_of` k')) as [[k2 ->]|Hnp].
        - rewrite tget_merge, tget_ext_app, Hrem by by eapply hexpath_app_inv.
          destruct (decide (k2 = drop (length k) key)) as [E|E].
          + rewrite decide_True; [done|]. rewrite E. by rewrite <- Hsplit.
          + rewrite decide_False; [done|]. intros E2. apply E. rewrite <- E2. by rewrite drop_app_length.
        - rewrite tget_merge_none by done.
          assert (tget (TExt k t) k' = None) as ->.
          { destruct (tget (TExt k t) k') eqn:E; [|done]. apply tget_ext_inv in E as (k2 & -> & _).
            destruct Hnp. by apply prefix_app_r. }
          by case_decide. }
      destruct m as [ln bm|en2 cm bm|bn nsm bm]; do 4 eexists; (split; [reflexivity|]);
        exists (merge k t'); done.
    + destruct Hch as (-> & Hr2 & Hbase & Hnone). do 4 eexists. split; [reflexivity|].
      split; [done|]. split; [|split; [done|]].
      * eapply repr_ext_child; [done..|]. intros Hh. unfold getHash. rewrite Hbase.
        inversion Hr1 as [|? ? ? ? ? _ _ _ _ Hh1|]; subst. exact (proj2 (Hh1 Hh) c1 eq_refl).
      * cbn [tget]. by rewrite Htake, decide_True.
Qed.

(** Loading whatever a node has at a position. *)
Lemma resolve_any n t pos :
  repr db n t -> wfs t -> (pos < nrOfChildren)%nat ->
  exists n', resolveIfCollapsed pos db n = (n', Ok tt) /\ repr db n' t /\ ext_loaded n'.
Proof.
  intros Hr Hw Hpos. pose proof (repr_nonempty db n t Hw Hr) as Hne.
  inversion Hr; subst.
  - eexists. split; [|by split]. unfold resolveIfCollapsed. mrun. by rewrite Hne.
  - destruct (resolve_ext db _ _ _ _ _ pos Hr) as (c1 & Hres & Hr1 & _). by eexists.
  - destruct (resolve_branch db _ _ _ _ pos Hr (wfs_branch_taken _ Hw) Hpos) as (ns' & Hres & Hr1 & _).
    by eexists.
Qed.

(** A branch whose slots are as in a well-formed one, some of them taken. *)
Definition slots_ok (cs : list (option tree)) : Prop :=
  length cs = nrOfChildren /\ some_slot cs /\
  forall i t, childpos i -> slot cs i = Some t -> exists k, hexpath (i :: k) /\ wfk t k.

(** A branch with one child has the content of that child below its position. *)
Lemma lone_child_content cs p t k :
  loaded cs = 1%nat -> childpos p -> slot cs p = Some t -> hexpath k ->
  tget (merge [p] t) k = tget (TBranch cs) k.
Proof.
  intros H1 Hp Hs Hk. destruct k as [|j k]; [by apply hexpath_nonnil in Hk|].
  pose proof (hexpath_childpos _ _ Hk) as Hj. rewrite tget_branch.
  destruct (decide (p = j)) as [<-|Hne].
  - rewrite Hs. exact (tget_merge [p] t k).
  - rewrite tget_merge_none by (intros [r [= ]]; done).
    destruct (slot cs j) as [t'|] eqn:E; [|done]. exfalso. apply Hne.
    pose proof (loaded_one cs _ _ _ _ H1 Hs E). unfold childpos in *. lia.
Qed.

Lemma reduceNode_rebuilt c t p k :
  repr db c t -> ext_loaded c -> hexpath (Z.of_nat p :: k) -> wfk t k ->
  rebuilt (reduceNode c p).1 (merge [Z.of_nat p] t).
Proof.
  intros Hr He Hk Hw. pose proof (hexpath_byte _ Hk) as Hb. inversion Hb as [|? ? Hbp _]; subst.
  split; [|split; [by eapply wf_merge_slot|]].
  - inversion Hr as [? ? ? [Hkb Hv] _|? ? c' ? ? Hkb _ Hrec _ _|? ? ? ? _ _ _ _ _ _ _ _]; subst; cbn [merge reduceNode fst app].
    + by apply repr_new_leaf; [constructor|].
    + destruct c' as [c'|]; [|done]. apply repr_new_ext; [by constructor|auto].
    + by apply repr_new_ext; [repeat constructor; apply Hbp|].
  - inversion Hr; subst; [done| |done]. cbn in He. by destruct c0.
Qed.

Lemma reduce_ok enc ns d cs hs :
  repr db (BranchNode {| EncodedChildren := enc |} ns fresh) (TBranch cs) -> slots_ok cs ->
  exists n' m hs' t',
    reduceNodeIfNecessary hs db (BranchNode {| EncodedChildren := enc |} ns {| hash := None; dirty := d |})
      = (n', Ok (true, Some m, hs')) /\
    rebuilt m t' /\ (forall k, hexpath k -> tget t' k = tget (TBranch cs) k).
Proof.
  intros Hr (Hl & Hsome & Hslots). unfold reduceNodeIfNecessary.
  unfold mbind at 1, M_bind at 1, get at 1. unfold mbind at 1, M_bind at 1, lift at 1, getChildPosition.
  assert (length enc = nrOfChildren) as He by by inversion Hr.
  cbn [EncodedChildren]. rewrite He. cbn [Nat.eqb nrOfChildren negb].
  assert (taken ns enc = map (fun o => negb (is_nil o)) cs) as Htk.
  { apply list_eq. intros i. rewrite (repr_taken db enc ns fresh cs i Hr). by rewrite list_lookup_fmap. }
  rewrite Htk. pose proof (scan_spec (map (fun o => negb (is_nil o)) cs)) as Hscan.
  destruct (foldl _ _ _) as [nr pos]. destruct Hscan as [Hnr Hpos]. rewrite count_loaded in Hnr. subst nr.
  destruct (Nat.eqb_spec (loaded cs) 1) as [H1|H1].
  - specialize (Hpos ltac:(lia)). rewrite list_lookup_fmap in Hpos.
    destruct (cs !! pos) as [[t|]|] eqn:Epos; try discriminate Hpos.
    pose proof (lookup_lt_Some _ _ _ Epos) as Hlt. rewrite Hl in Hlt.
    assert (ch cs pos = Some t) as Hc by by rewrite Epos.
    destruct (resolve_branch db enc ns fresh cs pos Hr Hsome Hlt) as (ns' & Hres & Hr1 & Hnil).
    unfold mbind at 1, M_bind at 1. rewrite Hres. rewrite Hc in Hnil. cbn in Hnil.
    destruct (ch ns' pos) as [c|] eqn:En; [|done].
    assert (repr db c t) as Hct by (inversion Hr1; eauto).
    assert (childpos (Z.of_nat pos)) as Hcp by (unfold childpos, nrOfChildren in *; lia).
    assert (slot cs (Z.of_nat pos) = Some t) as Hs by by rewrite <- ch_slot.
    destruct (Hslots _ _ Hcp Hs) as (k & Hk & Hwk).
    destruct (resolve_any c t pos Hct (wfk_wfs _ _ Hwk) Hlt) as (c' & Hresc & Hc' & Hel).
    unfold mbind at 1, M_bind at 1. rewrite (on_child_branch _ _ _ _ _ _ _ _ En Hresc).
    unfold mbind at 1, M_bind at 1, get at 1. cbn [child_at].
    assert (length ns' = nrOfChildren) as Hln by by inversion Hr1.
    rewrite ch_insert, decide_True by (done || lia).
    pose proof (reduceNode_rebuilt c' t pos k Hc' Hel Hk Hwk) as Hreb.
    destruct (reduceNode c' pos) as [m newHash]. cbn [fst] in Hreb. mrun.
    do 3 eexists. exists (merge [Z.of_nat pos] t). split; [reflexivity|]. split; [done|].
    intros k' Hk'. by apply lone_child_content.
  - mrun. do 3 eexists. exists (TBranch cs). split; [reflexivity|]. split; [|done].
    split; [exact Hr|]. split; [|done]. apply wf_branch_intro; [done| |done].
    destruct Hsome as (i & t & Hi). pose proof (ch_lt _ _ _ Hi) as Hlt.
    pose proof (loaded_insert cs i None Hlt) as E. rewrite Hi in E. cbn [has] in E. lia.
Qed.

(** The slots of a branch after a deletion in one of them. *)
Lemma edit_slots_ok cs i o :
  wf (TBranch cs) -> childpos i ->
  (forall t, o = Some t -> exists k, hexpath (i :: k) /\ wfk t k) ->
  slots_ok (<[Z.to_nat i := o]> cs).
Proof.
  intros Hw Hi Ho. pose proof (wf_branch_length cs Hw) as Hl. pose proof (childpos_lt i Hi) as Hlt.
  split; [by rewrite length_insert|]. split.
  - apply loaded_pos. pose proof (loaded_insert cs (Z.to_nat i) o ltac:(lia)) as E.
    inversion Hw as [| |? _ H2 _ _]; subst. destruct (ch cs (Z.to_nat i)), o; cbn [has] in E; lia.
  - intros j t Hj. rewrite slot_insert by (done || (unfold childpos in *; lia)).
    case_decide; [subst; apply Ho|]. by apply wf_branch_elim.
Qed.

Lemma edit_slots_removed cs i o key :
  wf (TBranch cs) -> hexpath (i :: key) ->
  (forall k, hexpath (i :: k) -> from_option (fun t => tget t k) None o =
     if decide (k = key) then None else from_option (fun t => tget t k) None (slot cs i)) ->
  removed (TBranch cs) (TBranch (<[Z.to_nat i := o]> cs)) (i :: key).
Proof.
  intros Hw Hk Ho k' Hk'. destruct k' as [|j k']; [by apply hexpath_nonnil in Hk'|].
  pose proof (hexpath_childpos _ _ Hk) as Hi. pose proof (hexpath_childpos _ _ Hk') as Hj.
  rewrite !tget_branch, slot_insert by (by apply wf_branch_length || (unfold childpos in *; lia)).
  destruct (decide (i = j)) as [<-|Hne].
  - rewrite Ho by done. do 2 case_decide; try done; congruence.
  - by rewrite decide_False by congruence.
Qed.

Lemma branch_delete_ok rec n enc ns b cs key :
  n = BranchNode {| EncodedChildren := enc |} ns b ->
  repr db n (TBranch cs) -> wfk (TBranch cs) key -> delete_rec_ok (length key) rec ->
  delete_ok n (TBranch cs) key (branch_delete rec key db n).
Proof.
  intros -> Hr Hw IH. split. destruct Hw as [[Hw Hkey]|[(? & ? & _) _]]; [|done].
  destruct key as [|i key]; [by apply hexpath_nonnil in Hkey|]. unfold branch_delete.
  destruct (hexpath_pos i key Hkey) as [Hi Hpos]. rewrite Hpos.
  pose proof (childpos_lt i Hi) as Hlt.
  destruct (resolve_branch db enc ns b cs (Z.to_nat i) Hr (wfs_branch_taken cs (or_introl Hw)) Hlt)
    as (ns' & Hres & Hr1 & Hnil).
  unfold mbind at 1, M_bind at 1. rewrite Hres. unfold mbind at 1, M_bind at 1, get at 1.
  cbn [child_at]. rewrite Hnil. fold (slot cs i).
  destruct (slot cs i) as [t|] eqn:Ec; cbn [is_nil].
  2: { mrun. do 4 eexists. split; [reflexivity|]. split_and!; try done. by rewrite tget_branch, Ec. }
  destruct (ch ns' (Z.to_nat i)) as [n|] eqn:En; [|by unfold slot in Ec; rewrite Ec in Hnil].
  assert (repr db n t) as Hn1 by (inversion Hr1; eauto).
  pose proof (wf_branch_slot cs i key t Hw Hkey Ec) as Hwk.
  destruct (IH n t key) as [(c2 & changed & m & hs & Hrec & Hch)]; [done|done|cbn; lia|].
  unfold mbind at 1, M_bind at 1. rewrite (on_child_branch _ _ _ _ _ _ _ _ En Hrec).
  unfold mbind at 1, M_bind at 1, get at 1. destruct changed; cbn [negb].
  2: { destruct Hch as (-> & Hr2 & Hbase & Hnone). mrun. do 4 eexists. split; [reflexivity|].
       split; [done|]. split; [|split; [done|by rewrite tget_branch, Ec]].
       eapply repr_branch_child; [done..|]. intros Hh. unfold getHash. rewrite Hbase.
       inversion Hr1 as [| |? ? ? ? _ _ _ _ _ _ _ Hh1]; subst. exact (proj2 (Hh1 Hh _ _ Ec) n En). }
  unfold mbind at 1, M_bind at 1, put at 1. unfold setGivenHash. cbn [with_base updateChildReference base_of].
  assert (exists o cs' enc', cs' = <[Z.to_nat i := o]> cs /\
    (if is_nil m then {| EncodedChildren := <[Z.to_nat i := EmptyString]> enc |}
     else {| EncodedChildren := enc |}) = {| EncodedChildren := enc' |} /\
    repr db (BranchNode {| EncodedChildren := enc' |} (<[Z.to_nat i := m]> ns') fresh) (TBranch cs') /\
    slots_ok cs' /\ removed (TBranch cs) (TBranch cs') (i :: key)) as (o & cs' & enc' & -> & Hee & Hr' & Hok & Hrem).
  { destruct m as [m|].
    - destruct Hch as (t' & (Hm & Hwt' & _) & Hke & Hrt). exists (Some t'), (<[Z.to_nat i := Some t']> cs), enc.
      split; [done|]. split; [done|]. split; [by eapply repr_branch_update|]. split.
      + apply edit_slots_ok; [done..|]. intros ? [= <-]. exists key. split; [done|]. by left.
      + apply edit_slots_removed; [done..|]. intros k Hk. rewrite Ec. cbn [from_option].
        apply Hrt. apply hexpath_cons_inv in Hk as [[-> ->]|[_ Hk]]; [|done].
        apply hexpath_cons_inv in Hkey as [[_ ->]|[Hn _]]; [done|unfold nibble in Hn; lia].
    - destruct Hch as [v Ht]. exists None, (<[Z.to_nat i := None]> cs), (<[Z.to_nat i := EmptyString]> enc).
      split; [done|]. split; [done|]. split; [by eapply repr_branch_remove|]. split.
      + by apply edit_slots_ok.
      + apply edit_slots_removed; [done..|]. intros k Hk. rewrite Ec, Ht. cbn. by case_decide. }
  cbn [EncodedChildren]. rewrite Hee, list_insert_insert_eq.
  destruct (reduce_ok enc' (<[Z.to_nat i := m]> ns') (dirty b) (<[Z.to_nat i := o]> cs)
              (hs ++ old_hash b) Hr' Hok) as (n' & m' & hs' & t' & -> & Hreb & Hcont).
  do 4 eexists. split; [reflexivity|]. cbn. exists t'. split; [done|]. split; [done|].
  intros k Hk. rewrite Hcont by done. by apply Hrem.
Qed.

Lemma node_delete_spec fuel n t key :
  wfk t key -> repr db n t -> (length key < fuel)%nat -> delete_ok n t key (node_delete fuel db key n).
Proof.
  revert n t key. induction fuel as [|fuel IH]; [lia|]. intros n t key Hw Hr Hf.
  pose proof (repr_nonempty db n t (wfk_wfs _ _ Hw) Hr) as Hne.
  cbn [node_delete]. unfold mbind at 1, M_bind at 1, get at 1.
  assert (delete_rec_ok (length key) (node_delete fuel db)) as Hrec.
  { intros n' t' key' ? ? ?. apply IH; auto. lia. }
  inversion Hr; subst.
  - by apply leaf_delete_ok.
  - unfold mbind at 1, M_bind at 1, lift at 1. rewrite Hne. by eapply ext_delete_ok.
  - unfold mbind at 1, M_bind at 1, lift at 1. rewrite Hne. by eapply branch_delete_ok.
Qed.
End delete.
