(* ===== verification/TrieCommit.v ===== *)
(** * Hashing and storing nodes

    Hashing computes the Merkle hash of the represented tree and caches it;
    [commit] writes every node that is not stored yet.  After a commit the
    database holds every node of the tree under its hash, so a node loaded by
    the root hash represents the same tree. *)

From S2P Require Import Prelude Common TrieNode TrieTree TrieSim.
Local Open Scope Z_scope.

Lemma setDirty_id n : setDirty (isDirty n) n = n.
Proof. by destruct n as [? []|? ? []|? ? []]. Qed.

Lemma setDirty_setDirty x y n : setDirty x (setDirty y n) = setDirty x n.
Proof. by destruct n. Qed.

Lemma getHash_setDirty x n : getHash (setDirty x n) = getHash n.
Proof. by destruct n. Qed.

Section hash.
Context {DB : DBWriteCacher} {HS : Hasher}.
Context {ML : Marshalizer CollapsedLn} {ME : Marshalizer CollapsedEn} {MB : Marshalizer CollapsedBn}.
Context {CL : NodeCodecLaws} {HL : HasherLaws}.


(** ** Loops over the children *)

Lemma each_child_spec (f : node -> node * res trieError unit) (Q : nat -> node -> node -> Prop) ns :
  (forall i c, ch ns i = Some c -> exists c', f c = (c', Ok tt) /\ Q i c c') ->
  exists ns', each_child f ns = (ns', Ok tt) /\ length ns' = length ns /\
    forall i, match ch ns i with
              | None => ch ns' i = None
              | Some c => exists c', ch ns' i = Some c' /\ Q i c c'
              end.
Proof.
  revert Q. induction ns as [|o ns IH]; intros Q H.
  { exists []. split; [done|]. split; [done|]. intros i. done. }
  destruct (IH (fun i => Q (S i))) as (ns' & Hns & Hl & Hi); [intros i c Hc; apply (H (S i) c Hc)|].
  destruct o as [c|]; cbn [each_child].
  - destruct (H 0%nat c eq_refl) as (c' & Hc & HQ). rewrite Hc. fold (each_child f). rewrite Hns.
    exists (Some c' :: ns'). split; [done|]. split; [cbn; lia|]. intros [|i]; [by exists c'|exact (Hi i)].
  - fold (each_child f). rewrite Hns. exists (None :: ns'). split; [done|]. split; [cbn; lia|].
    intros [|i]; [done|exact (Hi i)].
Qed.

Lemma encodeChildren_spec ns enc (h : nat -> string) :
  length ns = length enc ->
  (forall i c, ch ns i = Some c -> encodeNodeAndGetHash c = Ok (h i)) ->
  exists enc', encodeChildren ns enc = (enc', Ok tt) /\ length enc' = length enc /\
    forall i, default EmptyString (enc' !! i) =
              match ch ns i with Some _ => h i | None => default EmptyString (enc !! i) end.
Proof.
  revert enc h. induction ns as [|o ns IH]; intros [|e enc] h Hl H; try done.
  { exists []. split; [done|]. split; [done|]. intros i. done. }
  destruct (IH enc (fun i => h (S i))) as (enc' & Hns & Hl' & Hi);
    [cbn in Hl; lia|intros i c Hc; apply (H (S i) c Hc)|].
  cbn [encodeChildren]. destruct o as [c|].
  - rewrite (H 0%nat c eq_refl), Hns. exists (h 0%nat :: enc'). split; [done|]. split; [cbn; lia|].
    intros [|i]; [done|exact (Hi i)].
  - rewrite Hns. exists (e :: enc'). split; [done|]. split; [cbn; lia|].
    intros [|i]; [done|exact (Hi i)].
Qed.

(** The recorded hashes are those of the tree as soon as they are so slot by slot. *)
Lemma enc_slot_hashes enc cs :
  length enc = length cs ->
  (forall i, default EmptyString (enc !! i) = from_option thash EmptyString (ch cs i)) ->
  enc = slot_hashes cs.
Proof.
  intros Hl H. apply list_eq_same_length with (length cs); [by unfold slot_hashes; rewrite length_map|done|].
  intros i x y Hi Hx Hy. specialize (H i). rewrite <- slot_hashes_ch, Hx, Hy in H. done.
Qed.

(** ** Hashed nodes *)

Lemma hashed_message db n t : repr db n t -> getHash n <> None -> message_of n t.
Proof.
  intros Hr Hh. inversion Hr as [|? ? ? ? ? _ _ _ _ Hx|? ? ? ? Hl _ He _ _ Hnone _ Hx]; subst; cbn.
  - done.
  - by destruct (Hx Hh) as [-> _].
  - apply enc_slot_hashes; [by rewrite He|]. intros i. destruct (ch cs i) eqn:Ec; cbn.
    + by destruct (Hx Hh _ _ Ec) as [-> _].
    + by destruct (Hnone _ Ec) as [_ ->].
Qed.

Lemma hashed_encode db n t :
  wfs t -> repr db n t -> getHash n <> None -> getEncodedNode n = Ok (tenc t).
Proof.
  intros Hw Hr Hh. apply encode_message; [by apply wfs_encodable|by eapply hashed_message|].
  by eapply repr_nonempty.
Qed.

Lemma cached_hash db n t h : repr db n t -> getHash n = Some h -> h = thash t.
Proof. inversion 1 as [? ? ? _ [Hb _]|? ? ? ? ? _ [Hb _] _ _ _|? ? ? ? _ [Hb _] _ _ _ _ _ _]; subst; apply Hb. Qed.

Lemma base_with_hash db b t :
  base_ok db b t -> base_ok db {| hash := Some (thash t); dirty := dirty b |} t.
Proof. intros [_ Hd]. split; [by intros h [= <-]|done]. Qed.

(** [setHash], whatever the dirty flag says. *)
Definition sets_hash db (n : node) (t : tree) : Prop :=
  exists n', (forall x, setHash (setDirty x n) = (setDirty x n', Ok tt)) /\
    repr db n' t /\ getHash n' = Some (thash t) /\ isDirty n' = isDirty n.

Lemma sets_hash_run db n t : sets_hash db n t ->
  exists n', setHash n = (n', Ok tt) /\ repr db n' t /\ getHash n' = Some (thash t) /\ isDirty n' = isDirty n.
Proof.
  intros (n' & Hs & Hr & Hh & Hd). exists n'. split; [|done].
  rewrite <- (setDirty_id n) at 1. rewrite Hs, <- Hd. by rewrite setDirty_id.
Qed.

Lemma setHash_leaf db k v b :
  let n := LeafNode {| ln_Key := k; ln_Value := Some v |} b in
  wfs (TLeaf k v) -> repr db n (TLeaf k v) -> hash b = None -> sets_hash db n (TLeaf k v).
Proof.
  intros n Hw Hr Hh. inversion Hr as [? ? ? He Hb| |]; subst.
  exists (LeafNode {| ln_Key := k; ln_Value := Some v |} {| hash := Some (thash (TLeaf k v)); dirty := dirty b |}).
  split; [|split; [|done]].
  - intros x. unfold n. cbn [setDirty with_base setHash isEmptyOrNil is_nil ln_Value getHash base_of].
    unfold getHash. cbn [base_of hash]. rewrite Hh. cbn [isCollapsed].
    unfold keep_hash, hashNode. mrun. cbn [isEmptyOrNil is_nil ln_Value].
    rewrite (encode_hash _ (TLeaf k v)); [done|]. by apply encode_message.
  - apply repr_leaf; [done|by apply base_with_hash].
Qed.

Lemma setHash_ext db k enc c b t :
  let n := ExtensionNode {| en_Key := k; EncodedChild := enc |} c b in
  wfs t -> repr db n (TExt k t) -> hash b = None ->
  (forall n, repr db n t -> sets_hash db n t) -> sets_hash db n (TExt k t).
Proof.
  intros n Hwt Hr Hh IH. inversion Hr as [|? ? ? ? ? He Hb Hrec Hcol _|]; subst.
  destruct c as [c|].
  - destruct (sets_hash_run _ _ _ (IH c (Hrec c eq_refl))) as (c' & Hs & Hc' & Hch & _).
    exists (ExtensionNode {| en_Key := k; EncodedChild := thash t |} (Some c')
              {| hash := Some (thash (TExt k t)); dirty := dirty b |}).
    split; [|split; [|done]].
    + intros x. unfold n. cbn [setDirty with_base setHash isEmptyOrNil is_nil andb].
      unfold getHash. cbn [base_of hash]. rewrite Hh. cbn [isCollapsed is_nil andb]. rewrite Hs.
      unfold keep_hash, hashNode. mrun. cbn [isEmptyOrNil is_nil andb en_Key].
      rewrite (encode_hash _ t) by (by eapply hashed_encode; [..|rewrite Hch]).
      rewrite (encode_hash _ (TExt k t)) by (by apply encode_message). done.
    + apply repr_ext; [done|by apply base_with_hash|by intros ? [= <-]|discriminate|].
      intros _. split; [reflexivity|]. intros ? [= <-]. by rewrite Hch.
  - destruct (Hcol eq_refl) as [-> Hst].
    exists (ExtensionNode {| en_Key := k; EncodedChild := thash t |} None
              {| hash := Some (thash (TExt k t)); dirty := dirty b |}).
    split; [|split; [|done]].
    + intros x. unfold n. cbn [setDirty with_base setHash isEmptyOrNil is_nil andb EncodedChild].
      rewrite empty_str_hash. unfold getHash. cbn [base_of hash]. rewrite Hh.
      cbn [isCollapsed is_nil andb EncodedChild]. rewrite empty_str_hash. cbn [negb].
      unfold keep_hash. mrun.
      rewrite (encode_hash _ (TExt k t)); [done|].
      apply encode_message; [done..|]. cbn [isEmptyOrNil is_nil andb EncodedChild]. by rewrite empty_str_hash.
    + apply repr_ext; [done|by apply base_with_hash|discriminate|done|]. intros _. split; [reflexivity|discriminate].
Qed.

(** A branch whose loaded children all have their hash. *)
Record kids_hashed db (ns : list (option node)) (enc : list string) (cs : list (option tree)) : Prop := {
  kh_cs : length cs = nrOfChildren;
  kh_ns : length ns = nrOfChildren;
  kh_enc : length enc = nrOfChildren;
  kh_loaded : forall i t n, ch cs i = Some t -> ch ns i = Some n -> repr db n t /\ getHash n = Some (thash t);
  kh_stored : forall i t, ch cs i = Some t -> ch ns i = None ->
    default EmptyString (enc !! i) = thash t /\ stored db t;
  kh_none : forall i, ch cs i = None -> ch ns i = None /\ default EmptyString (enc !! i) = EmptyString;
}.

(** Running on every child a function that hashes it. *)
Lemma hash_children db f enc ns b cs :
  repr db (BranchNode {| EncodedChildren := enc |} ns b) (TBranch cs) ->
  (forall i t c, ch cs i = Some t -> repr db c t ->
     exists c', f c = (c', Ok tt) /\ repr db c' t /\ getHash c' = Some (thash t)) ->
  exists ns', each_child f ns = (ns', Ok tt) /\ kids_hashed db ns' enc cs /\
    (forall i, is_nil (ch ns' i) = is_nil (ch ns i)).
Proof.
  intros Hr Hf. inversion Hr as [| |? ? ? ? Hl _ He Hn Hrec Hnone Hcol _]; subst. cbn in Hl.
  destruct (each_child_spec f (fun i c c' => forall t, ch cs i = Some t ->
    repr db c' t /\ getHash c' = Some (thash t)) ns) as (ns' & Hns & Hln & Hi).
  { intros i c Hc. destruct (ch cs i) as [t|] eqn:Ec; [|by destruct (Hnone i Ec); congruence].
    destruct (Hf i t c Ec (Hrec i c t Hc Ec)) as (c' & Hs & Hc'). exists c'. split; [done|]. by intros ? [= <-]. }
  exists ns'. split; [done|]. split; [split; [done|lia|done|..]|].
  - intros i t n1 Ec En. specialize (Hi i). destruct (ch ns i); [|congruence].
    destruct Hi as (c' & Hc' & HQ). rewrite Hc' in En. injection En as <-. by apply HQ.
  - intros i t Ec En. apply Hcol; [done|]. specialize (Hi i). destruct (ch ns i); [|done].
    destruct Hi as (? & ? & _). congruence.
  - intros i Ec. destruct (Hnone i Ec) as [E ->]. split; [|done]. specialize (Hi i). by rewrite E in Hi.
  - intros i. specialize (Hi i). destruct (ch ns i); [by destruct Hi as (? & -> & _)|by rewrite Hi].
Qed.

Lemma kids_enc db ns enc cs :
  kids_hashed db ns enc cs -> kids_hashed db ns (slot_hashes cs) cs.
Proof.
  intros [Hl Hn He Hlo Hst Hno]. split; [done|done| |done|..].
  - unfold slot_hashes. by rewrite length_map.
  - intros i t Ec En. rewrite slot_hashes_ch, Ec. split; [reflexivity|]. by apply (Hst i).
  - intros i Ec. rewrite slot_hashes_ch, Ec. split; [|done]. by apply Hno.
Qed.

Lemma kids_repr db ns enc cs b :
  kids_hashed db ns enc cs -> base_ok db b (TBranch cs) ->
  repr db (BranchNode {| EncodedChildren := slot_hashes cs |} ns b) (TBranch cs).
Proof.
  intros [Hl Hn He Hlo Hst Hno]%kids_enc Hb. apply repr_branch; [done|done|done|done| |done|done|].
  - intros i n1 t En Ec. by apply (Hlo i).
  - intros _ i t Ec. rewrite slot_hashes_ch, Ec. split; [reflexivity|]. intros n1 En.
    by destruct (Hlo i t n1 Ec En) as [_ ->].
Qed.

Lemma kids_nonempty db ns enc cs b :
  some_slot cs -> kids_hashed db ns enc cs ->
  isEmptyOrNil (BranchNode {| EncodedChildren := enc |} ns b) = Ok tt.
Proof.
  intros (i & t & Ec) [Hl Hn He Hlo Hst Hno]. pose proof (ch_lt _ _ _ Ec) as Hlt.
  destruct (lookup_lt_is_Some_2 ns i ltac:(lia)) as [c Hc].
  destruct (lookup_lt_is_Some_2 enc i ltac:(lia)) as [y Hy].
  apply branch_nonempty with i; [lia|]. rewrite taken_lookup by lia. rewrite Hc, Hy.
  destruct c as [c|]; [done|]. cbn. specialize (Hst i t Ec). rewrite Hc, Hy in Hst.
  destruct (Hst eq_refl) as [E _]. cbn in E. subst y. by rewrite empty_str_hash.
Qed.

Lemma kids_encode db ns enc cs :
  wfs (TBranch cs) -> kids_hashed db ns enc cs -> encodeChildren ns enc = (slot_hashes cs, Ok tt).
Proof.
  intros Hw [Hl Hn He Hlo Hst Hno].
  destruct (encodeChildren_spec ns enc (fun i => from_option thash EmptyString (ch cs i)))
    as (enc' & Henc & Hle & Hei); [lia| |].
  { intros i c En. destruct (ch cs i) as [t|] eqn:Ec; [|by destruct (Hno i Ec); congruence].
    destruct (Hlo i t c Ec En) as [Hc Hch]. apply encode_hash. eapply hashed_encode; [|done|by rewrite Hch].
    destruct Hw as [Hw|(? & ? & _)]; [|done]. by eapply wf_branch_ch. }
  rewrite Henc. do 2 f_equal. apply enc_slot_hashes; [lia|]. intros i. rewrite Hei.
  destruct (ch ns i) as [|] eqn:En; [done|].
  destruct (ch cs i) as [t|] eqn:Ec; cbn; [by apply Hst|by apply Hno].
Qed.

Lemma all_nil_repeat {A} (ns : list (option A)) : forallb is_nil ns = true -> ns = repeat None (length ns).
Proof.
  induction ns as [|[x|] ns IH]; cbn; [done|done|]. intros H. by rewrite <- IH.
Qed.

(** Without loaded children the recorded hashes are all there is. *)
Lemma kids_none db enc cs :
  kids_hashed db (repeat None nrOfChildren) enc cs -> enc = slot_hashes cs.
Proof.
  intros [Hl _ He _ Hst Hno]. apply enc_slot_hashes; [by rewrite He|]. intros i.
  destruct (ch cs i) as [t|] eqn:Ec; cbn; [apply Hst; [done|apply ch_repeat_None]|by apply Hno].
Qed.

Lemma each_child_none f m : each_child f (repeat None m) = (repeat None m, Ok tt).
Proof. induction m as [|m IH]; [done|]. cbn [repeat each_child]. fold (each_child f). by rewrite IH. Qed.

Lemma setHash_branch db enc ns b cs :
  let n := BranchNode {| EncodedChildren := enc |} ns b in
  wfs (TBranch cs) -> repr db n (TBranch cs) -> hash b = None ->
  (forall i t n, ch cs i = Some t -> repr db n t -> sets_hash db n t) -> sets_hash db n (TBranch cs).
Proof.
  intros n Hw Hr Hh IH.
  assert (forall b', isEmptyOrNil (BranchNode {| EncodedChildren := enc |} ns b') = Ok tt) as Hne
    by exact (fun _ => repr_nonempty db _ _ Hw Hr).
  pose proof (wfs_branch_taken cs Hw) as Hsome.
  destruct (hash_children db setHash enc ns b cs Hr) as (ns' & Hns & Hk & _).
  { intros i t c Ec Hc. destruct (sets_hash_run _ _ _ (IH i t c Ec Hc)) as (c' & ? & ? & ? & _). eauto. }
  assert (base_ok db b (TBranch cs) /\ length cs = nrOfChildren /\ length ns = nrOfChildren) as (Hb & Hl & Hn)
    by by inversion Hr.
  exists (BranchNode {| EncodedChildren := slot_hashes cs |} ns'
            {| hash := Some (thash (TBranch cs)); dirty := dirty b |}).
  split; [|split; [by eapply kids_repr; [|apply base_with_hash]|done]].
  intros x. unfold n. cbn [setDirty with_base setHash]. rewrite Hne. unfold getHash. cbn [base_of hash].
  rewrite Hh. cbn [isCollapsed].
  assert (forall b', encodeNodeAndGetHash (BranchNode {| EncodedChildren := slot_hashes cs |} ns' b')
    = Ok (thash (TBranch cs))) as Henc.
  { intros b'. apply encode_hash, encode_message; [done..|]. by eapply kids_nonempty, kids_enc. }
  destruct (forallb is_nil ns) eqn:Eall.
  - apply all_nil_repeat in Eall. rewrite Hn in Eall. subst ns.
    rewrite each_child_none in Hns. injection Hns as <-. rewrite (kids_none db enc cs Hk).
    unfold keep_hash. mrun. by rewrite Henc.
  - rewrite Hns. unfold keep_hash, hashNode. mrun. rewrite (kids_nonempty db ns' enc cs) by done.
    cbn [EncodedChildren]. by rewrite (kids_encode db ns' enc cs), Henc.
Qed.

Lemma setHash_cached db n t h :
  wfs t -> repr db n t -> getHash n = Some h -> sets_hash db n t.
Proof.
  intros Hw Hr Hh. pose proof (cached_hash _ _ _ _ Hr Hh) as ->. exists n. split; [|done]. intros x.
  assert (isEmptyOrNil (setDirty x n) = Ok tt) as Hne.
  { rewrite <- (repr_nonempty _ _ _ Hw Hr). by destruct n. }
  rewrite <- (getHash_setDirty x) in Hh. destruct (setDirty x n) as [ln b|en c b|bn ns b];
    cbn [setHash]; by rewrite Hne, Hh.
Qed.

Lemma setHash_spec db t : forall n, wfs t -> repr db n t -> sets_hash db n t.
Proof.
  induction t as [k v|k t IH|cs IH] using tree_ind'; intros n Hw Hr;
    (destruct (getHash n) as [h|] eqn:Hh; [by eapply setHash_cached|]);
    inversion Hr; subst; unfold getHash in Hh; cbn in Hh.
  - by apply setHash_leaf.
  - destruct Hw as [Hw|(? & ? & _)]; [|done].
    assert (wfs t) by (left; by inversion Hw). apply setHash_ext; auto.
  - apply setHash_branch; [done..|]. intros i t n Ec Hc. rewrite Forall_forall in IH.
    apply (IH (Some t)); [|done| |done].
    + destruct (cs !! i) as [o|] eqn:E; [|done]. cbn in Ec. subst o. by eapply list_elem_of_lookup_2.
    + destruct Hw as [Hw|(? & ? & _)]; [|done]. by eapply wf_branch_ch.
Qed.
End hash.

Section commit.
Context {DB : DBWriteCacher} {HS : Hasher}.
Context {ML : Marshalizer CollapsedLn} {ME : Marshalizer CollapsedEn} {MB : Marshalizer CollapsedBn}.
Context {CL : NodeCodecLaws} {HL : HasherLaws} {DL : DBLaws}.

Abbreviation CM := (M (node * dbT) trieError).


(** ** A database that only grows *)

Definition grows (d d' : dbT) : Prop := forall t, stored d t -> stored d' t.

Lemma grows_refl d : grows d d.
Proof. by intros t. Qed.
Lemma grows_trans d1 d2 d3 : grows d1 d2 -> grows d2 d3 -> grows d1 d3.
Proof. intros H1 H2 t Ht. apply H2, H1, Ht. Qed.

Lemma base_ok_grows d d' b t : grows d d' -> base_ok d b t -> base_ok d' b t.
Proof. intros Hg [Hh Hd]. split; [done|]. intros E. by apply Hg, Hd. Qed.

Lemma repr_grows d d' n t : grows d d' -> repr d n t -> repr d' n t.
Proof.
  intros Hg. induction 1 as [k v b He Hb|k enc c b t He Hb _ IH Hcol Hh
    |enc ns b cs Hl Hb He Hn _ IH Hnone Hcol Hh].
  - apply repr_leaf; [done|]. by eapply base_ok_grows.
  - apply repr_ext; [done|by eapply base_ok_grows|done| |done].
    intros E. destruct (Hcol E) as [-> ?]. split; [reflexivity|]. by apply Hg.
  - apply repr_branch; [done|by eapply base_ok_grows|done|done|done|done| |done].
    intros i t Ec En. destruct (Hcol i t Ec En) as [-> ?]. split; [reflexivity|]. by apply Hg.
Qed.

(** A node written under its hash does not disturb the others: two nodes under
    one hash are the same node. *)
Lemma put_grows d d' t : db_Put d (thash t) (tenc t) = Ok d' -> grows d d'.
Proof.
  intros Hp s. induction 1 as [s He Hg _ IHx _ IHc]. constructor; [done| |done|done].
  destruct (decide (thash t = thash s)) as [E|E].
  - rewrite <- E. rewrite (db_get_put_eq _ _ _ _ Hp). f_equal. by apply thash_inj.
  - by rewrite (db_get_put_ne _ _ _ _ _ Hp E).
Qed.

(** The children of a tree are stored. *)
Definition kids_stored (d : dbT) (t : tree) : Prop :=
  match t with
  | TLeaf _ _ => True
  | TExt _ t => stored d t
  | TBranch cs => forall i t, ch cs i = Some t -> stored d t
  end.

Lemma kids_stored_grows d d' t : grows d d' -> kids_stored d t -> kids_stored d' t.
Proof. intros Hg. destruct t; cbn; [done|apply Hg|]. intros H i t Hi. by eapply Hg, H. Qed.

Lemma put_stored d d' t :
  encodable t -> kids_stored d t -> db_Put d (thash t) (tenc t) = Ok d' -> stored d' t.
Proof.
  intros He Hk Hp. apply (kids_stored_grows d d') in Hk; [|by eapply put_grows].
  constructor; [done|by eapply db_get_put_eq| |].
  - by intros k t' ->.
  - intros cs i t' ->. apply Hk.
Qed.

Lemma repr_setDirty d n t x :
  repr d n t -> (x = false -> stored d t) -> repr d (setDirty x n) t.
Proof.
  assert (forall b, base_ok d b t -> (x = false -> stored d t) ->
    base_ok d {| hash := hash b; dirty := x |} t) as Hb by by intros b [? _].
  intros Hr Hx. inversion Hr; subst; cbn [setDirty with_base]; constructor; auto.
Qed.

(** ** Collapsing *)

Lemma hash_if_invalid_spec d c t :
  wfs t -> repr d c t ->
  exists c', hash_if_invalid c = (c', Ok tt) /\ repr d c' t /\ getHash c' = Some (thash t).
Proof.
  intros Hw Hr. unfold hash_if_invalid, hasValidHash. rewrite (repr_nonempty _ _ _ Hw Hr). cbn.
  destruct (is_nil (getHash c) || isDirty c) eqn:E; cbn.
  - destruct (sets_hash_run _ _ _ (setHash_spec d t c Hw Hr)) as (c' & ? & ? & ? & _). eauto.
  - apply orb_false_iff in E as [E _]. destruct (getHash c) as [h|] eqn:Eh; [|done].
    exists c. split; [done|]. split; [done|]. by rewrite Eh, (cached_hash _ _ _ _ Hr Eh).
Qed.

Lemma zip_child_hash d ns enc cs :
  kids_hashed d ns enc cs -> zip_with child_hash ns enc = slot_hashes cs.
Proof.
  intros [Hl Hn He Hlo Hst Hno]. apply enc_slot_hashes.
  - rewrite length_zip_with. lia.
  - intros i. rewrite lookup_zip_with.
    destruct (lt_dec i nrOfChildren) as [Hlt|Hge].
    + destruct (lookup_lt_is_Some_2 ns i) as [c Hc]; [lia|].
      destruct (lookup_lt_is_Some_2 enc i) as [e Hee]; [lia|].
      specialize (Hlo i). specialize (Hst i). specialize (Hno i). rewrite Hc, Hee in *. cbn in *.
      destruct (ch cs i) as [t|], c as [c|]; cbn.
      * by destruct (Hlo t c eq_refl eq_refl) as [_ ->].
      * by apply Hst.
      * by destruct (Hno eq_refl).
      * by apply Hno.
    + rewrite (proj2 (lookup_ge_None ns i)) by lia. cbn.
      by rewrite (proj2 (lookup_ge_None cs i)) by lia.
Qed.

Lemma kids_repr_enc d ns enc cs b :
  kids_hashed d ns enc cs -> base_ok d b (TBranch cs) -> (hash b <> None -> enc = slot_hashes cs) ->
  repr d (BranchNode {| EncodedChildren := enc |} ns b) (TBranch cs).
Proof.
  intros Hk Hb He. destruct (hash b) as [h|] eqn:Eh.
  - rewrite He by done. by eapply kids_repr.
  - destruct Hk as [Hl Hn Hle Hlo Hst Hno]. apply repr_branch; [done|done|done|done| |done|done|].
    + intros i n t En Ec. by apply (Hlo i).
    + by rewrite Eh.
Qed.

Definition collapses (d : dbT) (n : node) (t : tree) : Prop :=
  exists n', (forall x, getCollapsed (setDirty x n) =
                (setDirty x n', Ok (collapsed t {| hash := getHash n; dirty := x |}))) /\
    repr d n' t /\ base_of n' = base_of n.

Lemma getCollapsed_ext d k enc c b t :
  let n := ExtensionNode {| en_Key := k; EncodedChild := enc |} c b in
  wfs t -> repr d n (TExt k t) -> collapses d n (TExt k t).
Proof.
  intros n Hw Hr. inversion Hr as [|? ? ? ? ? He Hb Hrec Hcol Hh|]; subst.
  destruct c as [c|].
  - destruct (hash_if_invalid_spec d c t Hw (Hrec c eq_refl)) as (c' & Hs & Hc' & Hch).
    exists (ExtensionNode {| en_Key := k; EncodedChild := enc |} (Some c') b).
    split; [|split; [|done]].
    + intros x. unfold n. cbn [setDirty with_base]. unfold getCollapsed. mrun.
      cbn [isEmptyOrNil isCollapsed is_nil andb]. rewrite (on_child_ext _ _ _ _ _ _ _ Hs).
      cbn [child_at child_hash en_Key]. rewrite Hch. done.
    + eapply repr_ext_child; [done..|]. by rewrite Hch.
  - destruct (Hcol eq_refl) as [-> Hst]. exists n. split; [|done]. intros x. unfold n.
    cbn [setDirty with_base]. unfold getCollapsed. mrun. cbn [isEmptyOrNil isCollapsed is_nil andb EncodedChild].
    by rewrite empty_str_hash.
Qed.

Lemma getCollapsed_branch d enc ns b cs :
  let n := BranchNode {| EncodedChildren := enc |} ns b in
  wfs (TBranch cs) -> repr d n (TBranch cs) -> collapses d n (TBranch cs).
Proof.
  intros n Hw Hr.
  assert (forall b', isEmptyOrNil (BranchNode {| EncodedChildren := enc |} ns b') = Ok tt) as Hne
    by exact (fun _ => repr_nonempty d _ _ Hw Hr).
  destruct (hash_children d hash_if_invalid enc ns b cs Hr) as (ns' & Hns & Hk & _).
  { intros i t c Ec Hc. apply hash_if_invalid_spec; [|done].
    destruct Hw as [Hw|(? & ? & _)]; [|done]. by eapply wf_branch_ch. }
  assert (base_ok d b (TBranch cs) /\ length ns = nrOfChildren) as (Hb & Hn) by by inversion Hr.
  exists (BranchNode {| EncodedChildren := enc |} ns' b). split; [|split; [|done]].
  - intros x. unfold n. cbn [setDirty with_base]. unfold getCollapsed. mrun. rewrite Hne.
    cbn [isCollapsed]. destruct (forallb is_nil ns) eqn:Eall.
    + apply all_nil_repeat in Eall. rewrite Hn in Eall. subst ns.
      rewrite each_child_none in Hns. injection Hns as <-. by rewrite (kids_none d enc cs Hk).
    + rewrite Hns. cbn [EncodedChildren]. by rewrite (zip_child_hash d ns' enc cs Hk).
  - apply kids_repr_enc; [done..|]. intros Hh. exact (hashed_message d n _ Hr Hh).
Qed.

Lemma getCollapsed_spec d n t : wfs t -> repr d n t -> collapses d n t.
Proof.
  intros Hw Hr. inversion Hr; subst.
  - eexists. split; [|by split]. done.
  - apply getCollapsed_ext; [|done]. destruct Hw as [Hw|(? & ? & _)]; [|done]. left. by inversion Hw.
  - by apply getCollapsed_branch.
Qed.

(** ** Writing one node *)

Lemma commit_node d n t :
  wfs t -> repr d n t -> kids_stored d t ->
  exists n' d', encodeNodeAndCommitToDB (setDirty false n, d) = ((n', d'), Ok tt) /\
    repr d' n' t /\ stored d' t /\ getHash n' = Some (thash t) /\ grows d d'.
Proof.
  intros Hw Hr Hk.
  assert (exists n1, (if is_nil (getHash (setDirty false n)) then setHash (setDirty false n)
            else (setDirty false n, Ok tt)) = (setDirty false n1, Ok tt) /\
          repr d n1 t /\ getHash n1 = Some (thash t)) as (n1 & Hs & Hr1 & Hh1).
  { rewrite getHash_setDirty. destruct (getHash n) as [h|] eqn:Eh; cbn [is_nil].
    - exists n. by rewrite Eh, (cached_hash _ _ _ _ Hr Eh).
    - destruct (setHash_spec d t n Hw Hr) as (n1 & Hs & ? & ? & _). exists n1. auto. }
  destruct (getCollapsed_spec d n1 t Hw Hr1) as (n2 & Hc & Hr2 & Hb2).
  destruct (db_put_total d (thash t) (tenc t)) as [d' Hp].
  exists (setDirty false n2), d'.
  assert (stored d' t) as Hst by (by eapply put_stored; [apply wfs_encodable|..]).
  split; [|split; [|split; [done|split; [|by eapply put_grows]]]].
  - unfold encodeNodeAndCommitToDB, on_node. mrun.
    destruct (is_nil (getHash (setDirty false n))); [rewrite Hs|injection Hs as Hs; rewrite Hs];
      rewrite getHash_setDirty, Hh1, Hc; cbn [bytes_of default];
      rewrite (encode_message _ t); try (by apply wfs_encodable); try (by apply collapsed_nonempty);
      try (by destruct t); unfold put_in_db; cbn; by rewrite Hp.
  - apply repr_setDirty; [|done]. by eapply repr_grows; [eapply put_grows|].
  - rewrite getHash_setDirty. unfold getHash. rewrite Hb2. exact Hh1.
Qed.

(** ** Writing all of them *)

(** The commit of a node with the given fuel. *)
Definition commits (d : dbT) (n : node) (t : tree) (m : CM unit) : Prop :=
  exists n' d', m (n, d) = ((n', d'), Ok tt) /\ repr d' n' t /\ stored d' t /\ grows d d' /\
    (getHash n <> None -> getHash n' <> None).

Lemma depth_child ns i c : ch ns i = Some c ->
  (node_depth c <= foldr (fun c d => Nat.max (from_option node_depth 0%nat c) d) 0%nat ns)%nat.
Proof.
  revert i. induction ns as [|o ns IH]; intros i H; [done|].
  destruct i as [|i]; cbn in *; [subst; cbn; lia|]. specialize (IH i H). lia.
Qed.

(** The loop over the children of a branch. *)
Lemma commit_children (rec : CM unit) enc b cs l :
  (forall i t, ch cs i = Some t -> wfs t) -> NoDup l ->
  forall ns d,
  repr d (BranchNode {| EncodedChildren := enc |} ns b) (TBranch cs) -> length ns = nrOfChildren ->
  (forall i c t d', i ∈ l -> ch ns i = Some c -> ch cs i = Some t -> repr d' c t -> commits d' c t rec) ->
  exists ns' d',
    for_each (fun pos => _ ← mret tt; commit_child rec pos) l
      (BranchNode {| EncodedChildren := enc |} ns b, d)
      = ((BranchNode {| EncodedChildren := enc |} ns' b, d'), Ok tt) /\
    repr d' (BranchNode {| EncodedChildren := enc |} ns' b) (TBranch cs) /\ grows d d' /\
    forall i t, i ∈ l -> ch cs i = Some t -> stored d' t.
Proof.
  intros Hw. induction 1 as [|i l Hnin _ IH]; intros ns d Hr Hl Hrec.
  { exists ns, d. split; [done|]. split; [done|]. split; [apply grows_refl|]. by intros i t ?%not_elem_of_nil. }
  assert (exists ns1 d1,
    commit_child rec i (BranchNode {| EncodedChildren := enc |} ns b, d) =
      ((BranchNode {| EncodedChildren := enc |} ns1 b, d1), Ok tt) /\
    repr d1 (BranchNode {| EncodedChildren := enc |} ns1 b) (TBranch cs) /\ grows d d1 /\
    (forall t, ch cs i = Some t -> stored d1 t) /\ length ns1 = length ns /\
    (forall j, j <> i -> ch ns1 j = ch ns j)) as (ns1 & d1 & Hc & Hr1 & Hg1 & Hs1 & Hl1 & Hj1).
  { unfold commit_child. cbn [child_at].
    inversion Hr as [| |? ? ? ? Hlc Hb He Hn Hk Hnone Hcol Hh]; subst. cbn in Hlc.
    destruct (ch ns i) as [c|] eqn:Ec.
    - destruct (ch cs i) as [t|] eqn:Et; [|by destruct (Hnone i Et); congruence].
      destruct (Hrec i c t d) as (c' & d1 & Hm & Hc' & Hst & Hg & Hgh);
        [left|done|done|by eapply Hk|]. rewrite Hm.
      exists (<[i := Some c']> ns), d1. split; [done|].
      pose proof (ch_lt _ _ _ Ec). split; [|split; [done|split; [by intros ? [= <-]|split; [apply length_insert|]]]].
      + eapply repr_branch_child; [by eapply repr_grows|done|done|].
        intros Hb'. apply Hgh. by eapply (proj2 (Hh Hb' _ _ Et)).
      + intros j Hj. by rewrite ch_insert, decide_False by done.
    - exists ns, d. split; [done|]. split; [done|]. split; [apply grows_refl|]. split; [|done].
      intros t Et. by apply (Hcol i). }
  destruct (IH ns1 d1 Hr1 ltac:(lia)) as (ns2 & d2 & Hf & Hr2 & Hg2 & Hs2).
  { intros j c t d' Hj Hcj. rewrite Hj1 in Hcj by (intros ->; done). apply Hrec; [by right|done]. }
  exists ns2, d2. split; [|split; [done|split; [by eapply grows_trans|]]].
  - cbn [for_each]. mrun. rewrite Hc. exact Hf.
  - intros j t [->|Hj]%elem_of_cons Ht; [by apply Hg2, Hs1|by eapply Hs2].
Qed.

(** The end of a node's commit, once its children are stored. *)
Lemma commit_finish d n t level maxLevel :
  wfs t -> repr d n t -> kids_stored d t ->
  exists n' d',
    (_ ← on_node (modify (setDirty false));
     _ ← encodeNodeAndCommitToDB;
     match n with
     | LeafNode _ _ => mret tt
     | _ => if level =? maxLevel then collapsed ← on_node getCollapsed; on_node (put collapsed) else mret tt
     end : CM unit) (n, d) = ((n', d'), Ok tt) /\
    repr d' n' t /\ stored d' t /\ grows d d' /\ getHash n' <> None.
Proof.
  intros Hw Hr Hk. destruct (commit_node d n t Hw Hr Hk) as (n1 & d1 & Hc & Hr1 & Hst & Hh & Hg).
  assert (exists n2, ((collapsed ← on_node getCollapsed; on_node (put collapsed)) : CM unit) (n1, d1)
    = ((n2, d1), Ok tt) /\ repr d1 n2 t /\ getHash n2 <> None) as (n2 & Hcol & Hr2 & Hh2).
  { destruct (getCollapsed_spec d1 n1 t Hw Hr1) as (n2 & Hcol & Hr2 & _).
    specialize (Hcol (isDirty n1)). rewrite setDirty_id in Hcol. rewrite Hh in Hcol.
    eexists. split; [|split].
    - unfold on_node. mrun. rewrite Hcol. reflexivity.
    - apply repr_loaded; [done|]. by intros h [= <-].
    - by rewrite getHash_collapsed. }
  unfold mbind at 1, M_bind at 1.
  change (on_node (modify (setDirty false)) (n, d)) with ((setDirty false n, d), @Ok trieError unit tt).
  cbv beta iota. unfold mbind at 1, M_bind at 1. rewrite Hc.
  destruct n; [|destruct (level =? maxLevel)..]; eexists _, _;
    (split; [first [exact Hcol|reflexivity]|]); split_and!; try done; by rewrite Hh.
Qed.

Lemma commit_spec maxLevel o fuel : forall level n d t,
  wfs t -> repr d n t -> (node_depth n <= fuel)%nat -> commits d n t (commit fuel false level maxLevel o).
Proof.
  induction fuel as [|fuel IH]; intros level n d t Hw Hr Hf; [destruct n; cbn in Hf; lia|].
  pose proof (repr_nonempty _ _ _ Hw Hr) as Hne. unfold commits.
  cbn [commit]. set (lv := (level + 1) mod 256) in *.
  unfold mbind at 1, M_bind at 1, on_node at 1, get at 1. unfold mbind at 1, M_bind at 1, lift at 1. rewrite Hne.
  cbn [negb]. rewrite andb_true_r. destruct (isDirty n) eqn:Hd; cbn [negb].
  2: { exists n, d. split; [done|]. split; [done|]. split; [|split; [apply grows_refl|done]].
       unfold isDirty in Hd. inversion Hr as [? ? ? _ [_ Hb]|? ? ? ? ? _ [_ Hb] _ _ _|? ? ? ? _ [_ Hb] _ _ _ _ _ _];
         subst; by apply Hb. }
  assert (exists n1 d1, for_each (fun pos => _ ← mret tt; commit_child (commit fuel false lv maxLevel o) pos)
      (positions n) (n, d) = ((n1, d1), Ok tt) /\ repr d1 n1 t /\ kids_stored d1 t /\ grows d d1 /\
      (match n with LeafNode _ _ => true | _ => false end = match n1 with LeafNode _ _ => true | _ => false end))
    as (n1 & d1 & Hloop & Hr1 & Hk1 & Hg1 & Hleaf).
  { inversion Hr as [k v b He Hb|k enc c b t' He Hb Hrec Hcol Hh|enc ns b cs Hl Hb He Hn Hrec Hnone Hcol Hh]; subst.
    - exists (LeafNode {| ln_Key := k; ln_Value := Some v |} b), d. split; [done|]. split; [done|].
      split; [done|]. split; [apply grows_refl|done].
    - cbn [positions for_each]. mrun. unfold commit_child. cbn [child_at]. destruct c as [c|].
      + destruct (IH lv c d t') as (c' & d1 & Hm & Hc' & Hst & Hg & Hgh);
          [destruct Hw as [Hw|(? & ? & _)]; [left; by inversion Hw|done]|auto|cbn in Hf; lia|].
        rewrite Hm. do 2 eexists. split; [reflexivity|]. split; [|split; [exact Hst|split; [exact Hg|done]]].
        eapply repr_ext_child; [by eapply repr_grows|done|]. intros Hb'. apply Hgh. by apply (proj2 (Hh Hb')).
      + do 2 eexists. split; [reflexivity|]. split; [done|]. split; [by apply Hcol|]. split; [apply grows_refl|done].
    - destruct Hw as [Hw|(? & ? & _)]; [|done]. cbn [positions].
      destruct (commit_children (commit fuel false lv maxLevel o) enc b cs (seq 0 nrOfChildren)
        ltac:(intros i t; by apply wf_branch_ch) (NoDup_seq 0 nrOfChildren) ns d Hr Hn)
        as (ns' & d' & Hfe & Hr' & Hg & Hst).
      { intros i c t d' _ Hc Ht Hct. apply IH; [by eapply wf_branch_ch|done|].
        apply depth_child in Hc. cbn in Hf. lia. }
      do 2 eexists. split; [exact Hfe|]. split; [done|]. split; [|split; [exact Hg|done]].
      intros i t Ht. apply Hst with i; [|done]. apply elem_of_seq. pose proof (ch_lt _ _ _ Ht). cbn in Hl. lia. }
  unfold mbind at 1, M_bind at 1. rewrite Hloop.
  destruct (commit_finish d1 n1 t lv maxLevel Hw Hr1 Hk1) as (n2 & d2 & Hfin & Hr2 & Hst2 & Hg2 & Hh2).
  exists n2, d2. split; [destruct n, n1; first [done|exact Hfin]|].
  split; [done|]. split; [done|]. split; [by eapply grows_trans|done].
Qed.
End commit.
