(* ===== verification/TrieStorage.v ===== *)
(** * Storage of the tries

    [data/trie/trieStorageManager.go], [evictionWaitingList.go],
    [pruningBuffer.go]: the database the tries share, the hashes that wait for
    their removal from it, and the pruning requests held back while a walk over
    a trie is in progress. *)

From S2P Require Import Prelude Common Strconv TrieNode TrieSim.
From Stdlib Require Import Ascii.
Local Open Scope Z_scope.

(** A [data.ModifiedHashes] is a set of hex-encoded hashes. *)
Abbreviation ModifiedHashes := (gset string) (only parsing).

(** The message a full waiting list writes to its database. *)
Record Batch : Type := { Data : list string }.

Inductive TriePruningIdentifier : Type := OldRoot | NewRoot.
Definition identifier_byte (i : TriePruningIdentifier) : ascii :=
  match i with OldRoot => ascii_of_nat 0 | NewRoot => ascii_of_nat 1 end.
Definition with_identifier (rootHash : string) (i : TriePruningIdentifier) : string :=
  rootHash +:+ String (identifier_byte i) EmptyString.

Inductive pruningOperation : Type := cancelPruneOp | pruneOp.
Definition operation_byte (o : pruningOperation) : ascii :=
  match o with cancelPruneOp => ascii_of_nat 0 | pruneOp => ascii_of_nat 1 end.

Section storage.
Context {DB : DBWriteCacher} {MBa : Marshalizer Batch}.

(** ** The eviction waiting list

    [None] in the cache marks hashes that are in the list's own database. *)
Record evictionWaitingList : Type := {
  ewl_cache : gmap string (option ModifiedHashes);
  ewl_cacheSize : Z;
  ewl_db : dbT;
}.

Definition with_cache (c : gmap string (option ModifiedHashes)) (w : evictionWaitingList) :=
  {| ewl_cache := c; ewl_cacheSize := ewl_cacheSize w; ewl_db := ewl_db w |}.
Definition with_ewl_db (d : dbT) (w : evictionWaitingList) :=
  {| ewl_cache := ewl_cache w; ewl_cacheSize := ewl_cacheSize w; ewl_db := d |}.

(** [order] is the order in which the set of hashes is visited. *)
Definition ewl_Put (order : ModifiedHashes -> list string) (rootHash : string) (hashes : ModifiedHashes)
  : M evictionWaitingList trieError unit :=
  w ← get;
  if Z.of_nat (size (ewl_cache w)) <? ewl_cacheSize w then
    put (with_cache (<[rootHash := Some hashes]> (ewl_cache w)) w)
  else
    marshalizedHashes ← lift (map_err ErrWrapped (Marshal {| Data := order hashes |}));
    d ← lift (map_err ErrWrapped (db_Put (ewl_db w) rootHash marshalizedHashes));
    put (with_ewl_db d (with_cache (<[rootHash := None]> (ewl_cache w)) w)).

(** The hashes under a key: in the cache unless there are none there. *)
Definition cached_hashes (w : evictionWaitingList) (key : string) (hashes : option ModifiedHashes)
  : res trieError ModifiedHashes :=
  if decide (default ∅ hashes = ∅) then
    marshalizedHashes ← map_err ErrWrapped (db_Get (ewl_db w) key);
    b ← map_err ErrWrapped (Unmarshal marshalizedHashes);
    Ok (list_to_set (Data b))
  else Ok (default ∅ hashes).

Definition Evict (rootHash : string) : M evictionWaitingList trieError ModifiedHashes :=
  w ← get;
  match ewl_cache w !! rootHash with
  | None => mret ∅
  | Some hashes =>
      let w' := with_cache (delete rootHash (ewl_cache w)) w in
      _ ← put w';
      hs ← lift (cached_hashes w' rootHash hashes);
      if decide (default ∅ hashes = ∅) then
        d ← lift (map_err ErrWrapped (db_Remove (ewl_db w') rootHash));
        _ ← put (with_ewl_db d w');
        mret hs
      else mret hs
  end.

Definition last_byte (s : string) : option ascii := snd <$> split_last s.

(** Whether some entry still needs the hash.  Entries of old roots do not count
    when an old root is pruned.  [keys] is the order of the cache's keys. *)
Fixpoint ShouldKeepHash (w : evictionWaitingList) (keys : list string) (h : string)
    (identifier : TriePruningIdentifier) : res trieError bool :=
  match keys with
  | [] => Ok false
  | key :: keys =>
      match last_byte key with
      | None => Err ErrInvalidKey
      | Some lastByte =>
          if bool_decide (lastByte = identifier_byte OldRoot) &&
             bool_decide (identifier_byte identifier = identifier_byte OldRoot)
          then ShouldKeepHash w keys h identifier
          else
            hashes ← cached_hashes w key (default None (ewl_cache w !! key));
            if decide (h ∈ hashes) then Ok true else ShouldKeepHash w keys h identifier
      end
  end.

(** ** The storage manager *)

Record trieStorageManager : Type := {
  tsm_db : dbT;
  snapshots : list dbT;
  pruningBuffer : list string;
  pruningBufferLen : Z;
  pruningBlockingOps : Z;
  dbEvictionWaitingList : evictionWaitingList;
  IsPruningEnabled : bool;
}.

Definition with_db (d : dbT) (s : trieStorageManager) : trieStorageManager :=
  {| tsm_db := d; snapshots := snapshots s; pruningBuffer := pruningBuffer s;
     pruningBufferLen := pruningBufferLen s; pruningBlockingOps := pruningBlockingOps s;
     dbEvictionWaitingList := dbEvictionWaitingList s; IsPruningEnabled := IsPruningEnabled s |}.
Definition with_waiting (w : evictionWaitingList) (s : trieStorageManager) : trieStorageManager :=
  {| tsm_db := tsm_db s; snapshots := snapshots s; pruningBuffer := pruningBuffer s;
     pruningBufferLen := pruningBufferLen s; pruningBlockingOps := pruningBlockingOps s;
     dbEvictionWaitingList := w; IsPruningEnabled := IsPruningEnabled s |}.
Definition with_buffer (b : list string) (s : trieStorageManager) : trieStorageManager :=
  {| tsm_db := tsm_db s; snapshots := snapshots s; pruningBuffer := b;
     pruningBufferLen := pruningBufferLen s; pruningBlockingOps := pruningBlockingOps s;
     dbEvictionWaitingList := dbEvictionWaitingList s; IsPruningEnabled := IsPruningEnabled s |}.
Definition with_blocking (n : Z) (s : trieStorageManager) : trieStorageManager :=
  {| tsm_db := tsm_db s; snapshots := snapshots s; pruningBuffer := pruningBuffer s;
     pruningBufferLen := pruningBufferLen s; pruningBlockingOps := n;
     dbEvictionWaitingList := dbEvictionWaitingList s; IsPruningEnabled := IsPruningEnabled s |}.

Abbreviation SM := (M trieStorageManager trieError).

Definition on_waiting {A} (m : M evictionWaitingList trieError A) : SM A := fun s =>
  let '(w, r) := m (dbEvictionWaitingList s) in (with_waiting w s, r).

Definition EnterPruningBufferingMode (s : trieStorageManager) : trieStorageManager :=
  with_blocking (wrap_u32 (pruningBlockingOps s + 1)) s.
Definition ExitPruningBufferingMode (s : trieStorageManager) : trieStorageManager :=
  if pruningBlockingOps s <? 1 then s else with_blocking (pruningBlockingOps s - 1) s.

(** A manager without pruning marks nothing. *)
Definition MarkForEviction (order : ModifiedHashes -> list string) (root : string)
    (hashes : ModifiedHashes) : SM unit :=
  s ← get;
  if IsPruningEnabled s then on_waiting (ewl_Put order root hashes) else mret tt.

Definition GetSnapshotThatContainsHash (s : trieStorageManager) (rootHash : string) : option dbT :=
  head (filter (fun d => is_ok (db_Get d rootHash)) (snapshots s)).

(** A request that does not fit in the buffer is dropped. *)
Definition buffer_add (r : string) (s : trieStorageManager) : trieStorageManager :=
  if wrap_u32 (Z.of_nat (length (pruningBuffer s))) =? pruningBufferLen s then s
  else with_buffer (pruningBuffer s ++ [r]) s.

(** [cache_order] is the order of the waiting list's keys, [hash_order] that of
    a set of hashes. *)
Section prune.
Variable cache_order : gmap string (option ModifiedHashes) -> list string.
Variable hash_order : ModifiedHashes -> list string.

Fixpoint remove_hashes (identifier : TriePruningIdentifier) (keys : list string) : SM unit :=
  match keys with
  | [] => mret tt
  | key :: keys =>
      s ← get;
      let w := dbEvictionWaitingList s in
      shouldKeepHash ← lift (ShouldKeepHash w (cache_order (ewl_cache w)) key identifier);
      if (shouldKeepHash : bool) then remove_hashes identifier keys
      else
        h ← lift (map_err ErrWrapped (DecodeString key));
        d ← lift (map_err ErrWrapped (db_Remove (tsm_db s) h));
        _ ← put (with_db d s);
        remove_hashes identifier keys
  end.

(** [root] is a root hash with its identifier. *)
Definition removeFromDb (root : string) : SM unit :=
  hashes ← on_waiting (Evict root);
  match last_byte root with
  | None => fail ErrInvalidIdentifier
  | Some b =>
      let identifier := if decide (b = identifier_byte OldRoot) then OldRoot else NewRoot in
      remove_hashes identifier (hash_order hashes)
  end.

(** Failures are only logged. *)
Definition prune (root : string) (s : trieStorageManager) : trieStorageManager := (removeFromDb root s).1.
Definition cancelPrune (root : string) (s : trieStorageManager) : trieStorageManager :=
  (on_waiting (Evict root) s).1.

Fixpoint resolveBufferedHashes (oldHashes : list string) (s : trieStorageManager) : trieStorageManager :=
  match oldHashes with
  | [] => s
  | r :: rest =>
      resolveBufferedHashes rest
        (match split_last r with
         | None => s
         | Some (root, op) =>
             if decide (op = operation_byte pruneOp) then prune root s
             else if decide (op = operation_byte cancelPruneOp) then cancelPrune root s
             else s
         end)
  end.

Definition Prune (rootHash : string) (identifier : TriePruningIdentifier) (s : trieStorageManager)
  : trieStorageManager :=
  if negb (IsPruningEnabled s) then s else
  let root := with_identifier rootHash identifier in
  if 0 <? pruningBlockingOps s then
    match identifier with
    | NewRoot => cancelPrune root s
    | OldRoot => buffer_add (root +:+ String (operation_byte pruneOp) EmptyString) s
    end
  else prune root (resolveBufferedHashes (pruningBuffer s) (with_buffer [] s)).

Definition CancelPrune (rootHash : string) (identifier : TriePruningIdentifier) (s : trieStorageManager)
  : trieStorageManager :=
  if negb (IsPruningEnabled s) then s else
  let root := with_identifier rootHash identifier in
  if (0 <? pruningBlockingOps s) || negb (bool_decide (pruningBuffer s = []))
  then buffer_add (root +:+ String (operation_byte cancelPruneOp) EmptyString) s
  else cancelPrune root s.
End prune.
End storage.
