(* ===== verification/PatriciaTrie.v ===== *)
(** * The Patricia Merkle trie

    [data/trie/patriciaMerkleTrie.go]: a trie is its root node and the hashes
    its next commit replaces; the storage manager is shared by all tries.  The
    recursion of an operation on one key is bounded by the length of the key's
    path, that of a commit by the levels in memory; walks over a whole trie take
    the number of levels as an argument. *)

From S2P Require Import Prelude Common Strconv TrieNode TrieStorage.
Local Open Scope Z_scope.

Section trie.
Context {DB : DBWriteCacher} {HS : Hasher} {MBa : Marshalizer Batch}.
Context {ML : Marshalizer CollapsedLn} {ME : Marshalizer CollapsedEn} {MB : Marshalizer CollapsedBn}.

Record patriciaMerkleTrie : Type := {
  root : option node;
  oldHashes : list string;
  oldRoot : string;
  newHashes : gset string;
  maxTrieLevelInMemory : Z;
}.

Definition NewTrie (maxLevel : Z) : patriciaMerkleTrie :=
  {| root := None; oldHashes := []; oldRoot := EmptyString; newHashes := ∅;
     maxTrieLevelInMemory := maxLevel |}.

Definition with_root (r : option node) (t : patriciaMerkleTrie) : patriciaMerkleTrie :=
  {| root := r; oldHashes := oldHashes t; oldRoot := oldRoot t; newHashes := newHashes t;
     maxTrieLevelInMemory := maxTrieLevelInMemory t |}.
Definition with_old (hs : list string) (r : string) (t : patriciaMerkleTrie) : patriciaMerkleTrie :=
  {| root := root t; oldHashes := hs; oldRoot := r; newHashes := newHashes t;
     maxTrieLevelInMemory := maxTrieLevelInMemory t |}.
Definition SetNewHashes (hs : gset string) (t : patriciaMerkleTrie) : patriciaMerkleTrie :=
  {| root := root t; oldHashes := oldHashes t; oldRoot := oldRoot t; newHashes := hs;
     maxTrieLevelInMemory := maxTrieLevelInMemory t |}.

(** The state an operation of a trie works on. *)
Record trieState : Type := { st_trie : patriciaMerkleTrie; st_storage : trieStorageManager }.
Abbreviation TM := (M trieState trieError).

Definition database (s : trieState) : dbT := tsm_db (st_storage s).
Definition upd_trie (f : patriciaMerkleTrie -> patriciaMerkleTrie) (s : trieState) : trieState :=
  {| st_trie := f (st_trie s); st_storage := st_storage s |}.

(** Calling a method of the root node, which changes it in place. *)
Definition on_root {A} (n : node) (m : NM A) : TM A := fun s =>
  let '(n', r) := m n in (upd_trie (with_root (Some n')) s, r).

Definition path_fuel (hexKey : list Z) : nat := S (length hexKey).

Definition Get (key : string) : TM slice :=
  s ← get;
  match root (st_trie s) with
  | None => mret None
  | Some n =>
      let hexKey := keyBytesToHex key in
      on_root n (tryGet (path_fuel hexKey) hexKey (database s))
  end.

(** A clean root is about to be replaced: its hash is remembered. *)
Definition remember_root (n : node) : TM unit :=
  if isDirty n then mret tt
  else modify (upd_trie (fun t => with_old (oldHashes t) (bytes_of (getHash n)) t)).

Definition replace_root (newRoot : option node) (hashes : list string) : TM unit :=
  modify (upd_trie (fun t => with_old (oldHashes t ++ hashes) (oldRoot t) (with_root newRoot t))).

Definition Delete (key : string) : TM unit :=
  s ← get;
  match root (st_trie s) with
  | None => mret tt
  | Some n =>
      let hexKey := keyBytesToHex key in
      _ ← remember_root n;
      '(_, newRoot, hashes) ← on_root n (node_delete (path_fuel hexKey) (database s) hexKey);
      replace_root newRoot hashes
  end.

Definition Update (key : string) (value : slice) : TM unit :=
  s ← get;
  let hexKey := keyBytesToHex key in
  if negb (slen (bytes_of value) =? 0) then
    match root (st_trie s) with
    | None => modify (upd_trie (with_root (Some (newLeafNode hexKey value))))
    | Some n =>
        _ ← remember_root n;
        '(_, newRoot, hashes) ← on_root n (node_insert (path_fuel hexKey) value (database s) hexKey);
        replace_root (Some newRoot) hashes
    end
  else Delete key.

Definition getRootHash : TM string :=
  s ← get;
  match root (st_trie s) with
  | None => mret EmptyTrieHash
  | Some n =>
      match getHash n with
      | Some h => mret h
      | None =>
          _ ← on_root n setRootHash;
          s ← get;
          mret (bytes_of (root (st_trie s) ≫= getHash))
      end
  end.
Definition RootHash : TM string := getRootHash.

(** ** Committing *)

Definition removeDuplicatedKeys (olds news : gset string) : gset string * gset string :=
  (olds ∖ news, news ∖ olds).

Definition on_storage {A} (m : M trieStorageManager trieError A) : TM A := fun s =>
  let '(st, r) := m (st_storage s) in ({| st_trie := st_trie s; st_storage := st |}, r).

Definition markForEviction (order : gset string -> list string) (newRoot : string) : TM unit :=
  s ← get;
  let t := st_trie s in
  if decide (newRoot = oldRoot t) then mret tt else
  let '(olds, news) := removeDuplicatedKeys (list_to_set (EncodeToString <$> oldHashes t)) (newHashes t) in
  _ ← modify (upd_trie (SetNewHashes news));
  _ ← (if negb (bool_decide (news = ∅)) && negb (slen newRoot =? 0)
       then on_storage (MarkForEviction order (with_identifier newRoot NewRoot) news) else mret tt);
  if negb (bool_decide (olds = ∅)) && negb (slen (oldRoot t) =? 0)
  then
    let r := with_identifier (oldRoot t) OldRoot in
    _ ← modify (upd_trie (fun t => with_old (oldHashes t) r t));
    on_storage (MarkForEviction order r olds)
  else mret tt.

(** Writing the root node and all below it to the database. *)
Definition commit_root (n : node) : TM unit := fun s =>
  let t := st_trie s in
  let '((n', d'), r) := commit (node_depth n) false 0 (maxTrieLevelInMemory t) (database s) (n, database s) in
  ({| st_trie := with_root (Some n') t; st_storage := with_db d' (st_storage s) |}, r).

Definition Commit (order : gset string -> list string) : TM unit :=
  s ← get;
  match root (st_trie s) with
  | None => mret tt
  | Some n =>
      if negb (isDirty n) then mret tt else
      _ ← on_root n setRootHash;
      s ← get;
      match root (st_trie s) with
      | None => fail RuntimePanic
      | Some n =>
          _ ← (if IsPruningEnabled (st_storage s) then markForEviction order (bytes_of (getHash n))
               else mret tt);
          _ ← modify (upd_trie (fun t => SetNewHashes ∅ (with_old [] EmptyString t)));
          commit_root n
      end
  end.

(** ** Reloading *)

Definition emptyTrie (rootHash : string) : bool :=
  (slen rootHash =? 0) || str_eqb rootHash EmptyTrieHash.

Definition recreateFromDb (maxLevel : Z) (rootHash : string) (db : dbT) : res trieError patriciaMerkleTrie :=
  newRoot ← getNodeFromDBAndDecode rootHash db;
  Ok (with_root (Some (setGivenHash (Some rootHash) newRoot)) (NewTrie maxLevel)).

(** From a snapshot all nodes are copied into the main database. *)
Definition recreateFromSnapshotDb (levels : nat) (maxLevel : Z) (rootHash : string)
  : M trieStorageManager trieError patriciaMerkleTrie :=
  s ← get;
  match GetSnapshotThatContainsHash s rootHash with
  | None => fail ErrHashNotFound
  | Some snap =>
      newTr ← lift (recreateFromDb maxLevel rootHash snap);
      match root newTr with
      | None => fail RuntimePanic
      | Some n =>
          let '((n', d'), r) := commit levels true 0 maxLevel snap (n, tsm_db s) in
          _ ← put (with_db d' s);
          _ ← lift r;
          mret (with_root (Some n') newTr)
      end
  end.

Definition Recreate (levels : nat) (maxLevel : Z) (rootHash : string)
  : M trieStorageManager trieError patriciaMerkleTrie :=
  if emptyTrie rootHash then mret (NewTrie maxLevel) else
  s ← get;
  match db_Get (tsm_db s) rootHash, recreateFromDb maxLevel rootHash (tsm_db s) with
  | Ok _, Ok newTr => mret newTr
  | _, _ => recreateFromSnapshotDb levels maxLevel rootHash
  end.

Definition RecreateFromMainDb (maxLevel : Z) (rootHash : string) (s : trieStorageManager)
  : res trieError patriciaMerkleTrie :=
  if emptyTrie rootHash then Ok (NewTrie maxLevel) else
  _ ← match db_Get (tsm_db s) rootHash with Ok _ => Ok tt | Err _ => Err ErrHashNotFound end;
  recreateFromDb maxLevel rootHash (tsm_db s).

(** ** Hashes for the eviction list *)

Definition AppendToOldHashes (hashes : list string) : TM unit :=
  modify (upd_trie (fun t => with_old (oldHashes t ++ hashes) (oldRoot t) t)).

Definition ResetOldHashes : TM (list string) :=
  s ← get;
  _ ← modify (upd_trie (with_old [] EmptyString));
  mret (oldHashes (st_trie s)).

Definition GetDirtyHashes : TM (gset string) :=
  s ← get;
  match root (st_trie s) with
  | None => mret ∅
  | Some n =>
      _ ← on_root n setRootHash;
      s ← get;
      match root (st_trie s) with
      | None => fail RuntimePanic
      | Some n => lift (getDirtyHashes n ∅)
      end
  end.

Definition GetAllHashes (levels : nat) : TM (list string) :=
  s ← get;
  match root (st_trie s) with
  | None => mret []
  | Some n =>
      _ ← on_root n setRootHash;
      s ← get;
      match root (st_trie s) with
      | None => fail RuntimePanic
      | Some n => on_root n (getAllHashes levels (database s))
      end
  end.

(** The leaves of the trie with the given root hash; the walk works on a trie
    of its own. *)
Definition GetAllLeaves (levels : nat) (maxLevel : Z) (rootHash : string)
  : M trieStorageManager trieError (list (string * string)) :=
  newTrie ← Recreate levels maxLevel rootHash;
  match root newTrie with
  | None => mret []
  | Some n => s ← get; lift (getAllLeaves levels [] (tsm_db s) n).2
  end.

(** ** Merkle proofs *)

Definition GetProof (key : string) : TM (list string) :=
  s ← get;
  match root (st_trie s) with
  | None => fail ErrNilNode
  | Some n =>
      let hexKey := keyBytesToHex key in
      _ ← on_root n setRootHash;
      s ← get;
      match root (st_trie s) with
      | None => fail RuntimePanic
      | Some n => on_root n (getProofNodes (path_fuel hexKey) hexKey (database s))
      end
  end.

Fixpoint verify_nodes (wantHash : slice) (key : list Z) (proof : list slice) : res trieError bool :=
  match proof with
  | [] => Ok false
  | None :: _ => Ok false
  | Some encodedNode :: proof =>
      if negb (str_eqb (bytes_of wantHash) (Compute encodedNode)) then Ok false else
      n ← decodeNode encodedNode;
      let '(proofVerified, wantHash, key) := getNextHashAndKey n key in
      if (proofVerified : bool) then Ok true else verify_nodes wantHash key proof
  end.

Definition VerifyProof (key : string) (proof : list slice) : TM bool :=
  wantHash ← getRootHash;
  lift (verify_nodes (Some wantHash) (keyBytesToHex key) proof).
End trie.
