(* ===== verification/TrieProofs.v ===== *)
(** * Merkle proofs and walks

    The nodes on the way to a key verify against the root hash exactly when the
    key is present, and a walk over the stored trie lists each entry once. *)

From S2P Require Import Prelude Common Strconv TrieNode TrieTree TrieSim TrieCommit TrieStorage PatriciaTrie.
Local Open Scope Z_scope.

Section proofs.
Context {DB : DBWriteCacher} {HS : Hasher} {MBa : Marshalizer Batch}.
Context {ML : Marshalizer CollapsedLn} {ME : Marshalizer CollapsedEn} {MB : Marshalizer CollapsedBn}.
Context {CL : NodeCodecLaws} {HL : HasherLaws}.


(** ** Verifying *)

(** A proof starts with the encoding of the tree whose hash is wanted. *)
Lemma verify_step t key e proof :
  encodable t ->
  verify_nodes (Some (thash t)) key (Some e :: proof) =
    if decide (e = tenc t) then
      let '(b, want, key') := getNextHashAndKey (collapsed t decoded) key in
      if (b : bool) then Ok true else verify_nodes want key' proof
    else Ok false.
Proof.
  intros He. cbn [verify_nodes bytes_of default]. unfold str_eqb. case_decide as E.
  - subst e. rewrite compute_tenc, bool_decide_eq_true_2 by done. cbn [negb]. by rewrite decode_tree.
  - rewrite bool_decide_eq_false_2; [done|]. intros E2. apply E. apply (inj Compute).
    cbn in E2. rewrite <- E2. symmetry. apply compute_tenc.
Qed.

(** No node has the empty hash. *)
Lemma verify_no_hash want key proof : bytes_of want = EmptyString -> verify_nodes want key proof = Ok false.
Proof.
  intros Hw. destruct proof as [|[e|] proof]; [done| |done]. cbn [verify_nodes]. rewrite Hw. unfold str_eqb.
  rewrite bool_decide_eq_false_2; [done|]. intros E. by destruct (compute_nonempty e).
Qed.

Lemma next_ext k t key :
  key <> [] -> getNextHashAndKey (collapsed (TExt k t) decoded) key =
    if decide (k = take (length k) key) then (false, Some (thash t), drop (length k) key)
    else (false, None, []).
Proof.
  intros Hk. destruct key as [|i key]; [done|]. cbn [getNextHashAndKey collapsed en_Key EncodedChild].
  set (l := i :: key). destruct (decide (k = take (length k) l)) as [E|E].
  - rewrite bool_decide_eq_true_2 by done. rewrite orb_false_r.
    destruct (Nat.ltb_spec (length l) (length k)) as [Hlt|]; [|done].
    apply (f_equal length) in E. rewrite length_take in E. lia.
  - rewrite bool_decide_eq_false_2 by done. by rewrite orb_true_r.
Qed.

Lemma next_branch cs i key :
  length cs = nrOfChildren -> childpos i ->
  getNextHashAndKey (collapsed (TBranch cs) decoded) (i :: key) = (false, slot_hashes cs !! Z.to_nat i, key).
Proof.
  intros Hl Hi. cbn [getNextHashAndKey collapsed EncodedChildren].
  assert (length (slot_hashes cs) = nrOfChildren) as -> by (unfold slot_hashes; by rewrite length_map).
  assert (childPosOutOfRange i = false) as ->; [|done].
  unfold childPosOutOfRange, childpos, nrOfChildren in *. apply Z.leb_gt. lia.
Qed.

Lemma bytes_of_slot cs i : bytes_of (slot_hashes cs !! i) = from_option thash EmptyString (ch cs i).
Proof. apply slot_hashes_ch. Qed.

Lemma verify_sound proof : forall t key,
  wfk t key -> verify_nodes (Some (thash t)) key proof = Ok true -> is_Some (tget t key).
Proof.
  induction proof as [|[e|] proof IH]; intros t key Hw; [done| |done].
  rewrite verify_step by (eapply wfs_encodable, wfk_wfs; done).
  case_decide as E; [|done]. destruct t as [k v|k t|cs].
  - cbn. case_bool_decide as Ek; [|by rewrite verify_no_hash]. by rewrite decide_True.
  - destruct (ext_wf_inv _ _ _ Hw) as (Hk & Hnib & Hbr & Hwt & Hkey).
    rewrite next_ext by by apply hexpath_nonnil. cbn [tget]. case_decide as Ek; [|by rewrite verify_no_hash].
    apply IH. left. split; [done|]. apply hexpath_app_inv with k; [done|]. rewrite Ek at 1. by rewrite take_drop.
  - destruct Hw as [[Hw Hkey]|[(? & ? & _) _]]; [|done].
    destruct key as [|i key]; [by apply hexpath_nonnil in Hkey|].
    pose proof (hexpath_childpos _ _ Hkey) as Hi. rewrite next_branch by (done || by apply wf_branch_length).
    rewrite tget_branch. pose proof (bytes_of_slot cs (Z.to_nat i)) as Hb. fold (slot cs i) in Hb.
    destruct (slot cs i) as [t|] eqn:Es; cbn in Hb; [|by rewrite verify_no_hash].
    destruct (slot_hashes cs !! Z.to_nat i) as [h|]; [|by destruct (thash_nonempty t)].
    cbn in Hb. subst h. apply IH. by eapply wf_branch_slot.
Qed.

(** ** Making a proof *)

(** A proof with its verification, or a refusal when the key is absent. *)
Definition proves (db : dbT) (n : node) (t : tree) (key : list Z)
    (out : node * res trieError (list string)) : Prop :=
  match tget t key with
  | Some _ => exists n' p, out = (n', Ok p) /\ repr db n' t /\ base_of n' = base_of n /\
      verify_nodes (Some (thash t)) key (Some <$> p) = Ok true
  | None => exists n' e, out = (n', Err e)
  end.

Lemma getProof_leaf db k v b key rec :
  let n := LeafNode {| ln_Key := k; ln_Value := Some v |} b in
  wfs (TLeaf k v) -> repr db n (TLeaf k v) -> getHash n <> None ->
  proves db n (TLeaf k v) key (getProofNodes (S rec) key db n).
Proof.
  intros n Hw Hr Hh. unfold proves. cbn [tget getProofNodes]. mrun.
  rewrite (hashed_encode db n (TLeaf k v) Hw Hr Hh). unfold getNext. mrun. cbn [isEmptyOrNil n is_nil ln_Value ln_Key].
  destruct (decide (key = k)) as [->|Hne]; [|eauto].
  do 2 eexists. split; [reflexivity|]. split; [done|]. split; [done|].
  cbn [fmap list_fmap]. rewrite verify_step by by apply wfs_encodable. rewrite decide_True by done.
  cbn. by rewrite bool_decide_eq_true_2.
Qed.

Lemma getProof_spec db fuel : forall n t key,
  wfk t key -> repr db n t -> getHash n <> None -> (length key < fuel)%nat ->
  proves db n t key (getProofNodes fuel key db n).
Proof.
  induction fuel as [|fuel IH]; [lia|]. intros n t key Hw Hr Hh Hf.
  pose proof (wfk_wfs _ _ Hw) as Hws. pose proof (repr_nonempty db n t Hws Hr) as Hne.
  pose proof (hashed_encode db n t Hws Hr Hh) as Henc.
  inversion Hr as [k v b _ _|k enc c b t' _ _ _ _ _|enc ns b cs _ _ _ _ _ _ _ _]; subst; [by apply getProof_leaf|..];
    unfold proves; cbn [getProofNodes]; unfold getNext; mrun; rewrite Henc, Hne.
  - destruct (ext_wf_inv _ _ _ Hw) as (Hk & Hnib & Hbr & Hwt & Hkey). cbn [en_Key tget].
    destruct (Nat.ltb_spec (length key) (length k)) as [Hlt|Hge].
    { rewrite decide_False; [eauto|]. intros E%(f_equal length). rewrite length_take in E. lia. }
    destruct (bool_decide (k = take (length k) key)) eqn:Ed; zify_bools; cbn [negb].
    2: { rewrite decide_False by done. eauto. }
    rewrite decide_True by done. destruct (resolve_ext db k enc c b t' 0 Hr) as (n & Hres & Hr1 & Hn1).
    rewrite Hres.
    assert (hexpath (drop (length k) key)) as Hdrop.
    { apply hexpath_app_inv with k; [done|]. rewrite Ed at 1. by rewrite take_drop. }
    assert (getHash n <> None) as Hhn.
    { inversion Hr1 as [|? ? ? ? ? _ _ _ _ Hh1|]; subst. exact (proj2 (Hh1 Hh) n eq_refl). }
    assert (length (drop (length k) key) < fuel)%nat as Hlen.
    { rewrite length_drop. destruct k; [done|]. cbn in *. lia. }
    specialize (IH n t' (drop (length k) key) ltac:(by left) Hn1 Hhn Hlen). unfold proves in IH.
    destruct (tget t' (drop (length k) key)) as [v|].
    + destruct IH as (n' & p & Hg & Hr' & Hb' & Hv). rewrite (on_child_ext _ _ _ _ _ _ _ Hg).
      do 2 eexists. split; [reflexivity|]. split; [|split; [done|]].
      * eapply repr_ext_child; [done..|]. intros _. unfold getHash. rewrite Hb'. exact Hhn.
      * cbn [fmap list_fmap]. rewrite verify_step by by apply wfs_encodable. rewrite decide_True by done.
        rewrite next_ext by by apply hexpath_nonnil. rewrite decide_True by done. exact Hv.
    + destruct IH as (n' & e & Hg). rewrite (on_child_ext _ _ _ _ _ _ _ Hg). eauto.
  - destruct Hw as [[Hw Hkey]|[(? & ? & _) _]]; [|done].
    destruct key as [|i key]; [by apply hexpath_nonnil in Hkey|].
    destruct (hexpath_pos i key Hkey) as [Hi Hpos]. rewrite Hpos.
    pose proof (childpos_lt i Hi) as Hlt.
    destruct (resolve_branch db enc ns b cs (Z.to_nat i) Hr (wfs_branch_taken cs Hws) Hlt)
      as (ns' & Hres & Hr1 & Hnil).
    rewrite Hres. cbn [child_at]. rewrite Hnil, tget_branch. fold (slot cs i).
    destruct (slot cs i) as [t|] eqn:Ec; cbn [is_nil from_option]; [|eauto].
    destruct (ch ns' (Z.to_nat i)) as [n|] eqn:En; [|by unfold slot in Ec; rewrite Ec in Hnil].
    assert (repr db n t) as Hn1 by (inversion Hr1; eauto).
    assert (getHash n <> None) as Hhn.
    { inversion Hr1 as [| |? ? ? ? _ _ _ _ _ _ _ Hh1]; subst. exact (proj2 (Hh1 Hh _ _ Ec) n En). }
    specialize (IH n t key (wf_branch_slot cs i key t Hw Hkey Ec) Hn1 Hhn ltac:(cbn in Hf; lia)).
    unfold proves in IH. destruct (tget t key) as [v|].
    + destruct IH as (n' & p & Hg & Hr' & Hb' & Hv). rewrite (on_child_branch _ _ _ _ _ _ _ _ En Hg).
      do 2 eexists. split; [reflexivity|]. split; [|split; [done|]].
      * eapply repr_branch_child; [done..|]. intros _. unfold getHash. rewrite Hb'. exact Hhn.
      * cbn [fmap list_fmap]. rewrite verify_step by by apply wfs_encodable. rewrite decide_True by done.
        rewrite next_branch by (done || by apply wf_branch_length).
        pose proof (bytes_of_slot cs (Z.to_nat i)) as Hb. fold (slot cs i) in Hb. rewrite Ec in Hb. cbn in Hb.
        destruct (slot_hashes cs !! Z.to_nat i) as [h|]; [|by destruct (thash_nonempty t)].
        cbn in Hb. subst h. exact Hv.
    + destruct IH as (n' & e & Hg). rewrite (on_child_branch _ _ _ _ _ _ _ _ En Hg). eauto.
Qed.

(** ** The leaves *)

(** Run over the taken slots of a branch, from position [i] on. *)
Definition over_slots {B} (f : nat -> tree -> list B) :=
  fix go (i : nat) (cs : list (option tree)) : list B :=
    match cs with
    | [] => []
    | o :: cs => from_option (f i) [] o ++ go (S i) cs
    end.

(** The entries of a tree in the order of the walk. *)
Fixpoint tleaves (t : tree) (prefix : list Z) : list (list Z * string) :=
  match t with
  | TLeaf k v => [(prefix ++ k, v)]
  | TExt k t => tleaves t (prefix ++ k)
  | TBranch cs => over_slots (fun i t => tleaves t (prefix ++ [Z.of_nat i])) 0 cs
  end.

Fixpoint tdepth (t : tree) : nat :=
  match t with
  | TLeaf _ _ => 1%nat
  | TExt _ t => S (tdepth t)
  | TBranch cs => S (foldr (fun o d => Nat.max (from_option tdepth 0%nat o) d) 0%nat cs)
  end.

Lemma tdepth_child cs i t : ch cs i = Some t ->
  (tdepth t <= foldr (fun o d => Nat.max (from_option tdepth 0%nat o) d) 0%nat cs)%nat.
Proof.
  revert i. induction cs as [|o cs IH]; intros i H; [done|].
  destruct i as [|i]; cbn in *; [subst; cbn; lia|]. specialize (IH i H). lia.
Qed.

Lemma elem_of_over_slots {B} (f : nat -> tree -> list B) x i cs :
  x ∈ over_slots f i cs <-> exists j t, ch cs j = Some t /\ x ∈ f (i + j)%nat t.
Proof.
  revert i. induction cs as [|o cs IH]; intros i; cbn [over_slots].
  - split; [by intros ?%not_elem_of_nil|]. by intros (j & t & ? & _).
  - fold (over_slots f). rewrite elem_of_app, IH. split.
    + intros [H|(j & t & Hj & Hx)].
      * destruct o as [t|]; [|by apply not_elem_of_nil in H]. exists 0%nat, t. by rewrite Nat.add_0_r.
      * exists (S j), t. by rewrite Nat.add_succ_r.
    + intros (j & t & Hj & Hx). destruct j as [|j].
      * left. cbn in Hj. subst o. cbn. by rewrite Nat.add_0_r in Hx.
      * right. exists j, t. by rewrite Nat.add_succ_r in Hx.
Qed.

Lemma elem_of_tleaves t : forall prefix hk v, wfs t ->
  (hk, v) ∈ tleaves t prefix <-> exists k, hk = prefix ++ k /\ wfk t k /\ tget t k = Some v.
Proof.
  induction t as [k0 v0|k0 t IH|cs IH] using tree_ind'; intros prefix hk v Hw; cbn [tleaves].
  - rewrite list_elem_of_singleton. split.
    + intros [= -> ->]. exists k0. split; [done|]. split; [|cbn; by rewrite decide_True].
      destruct Hw as [Hw|(? & [= -> ->] & ?)]; [left; split; [done|by inversion Hw]|right; eauto].
    + intros (k & -> & _ & Hg). cbn in Hg. case_decide; [|done]. congruence.
  - destruct Hw as [Hw|(? & ? & _)]; [|done]. inversion Hw as [|? ? Hk Hn Hb Hwt|]; subst.
    rewrite IH by by left. split.
    + intros (k & -> & Hwk & Hg). exists (k0 ++ k). rewrite app_assoc, tget_ext_app. split; [done|]. split; [|done].
      left. split; [done|]. destruct Hwk as [[_ ?]|[(? & -> & _) _]]; [by apply hexpath_app|done].
    + intros (k & -> & [[_ Hkey]|[(? & ? & _) _]] & (k' & -> & Hg)%tget_ext_inv); [|done].
      exists k'. rewrite app_assoc. split; [done|]. split; [|done]. left. split; [done|].
      by eapply hexpath_app_inv.
  - destruct Hw as [Hw|(? & ? & _)]; [|done]. rewrite elem_of_over_slots. rewrite Forall_forall in IH.
    assert (forall j t, ch cs j = Some t -> forall prefix hk v, (hk, v) ∈ tleaves t prefix <->
      exists k, hk = prefix ++ k /\ wfk t k /\ tget t k = Some v) as IH'.
    { intros j t Hj prefix' hk' v'. apply (IH (Some t)); [|done|by eapply wf_branch_ch].
      destruct (cs !! j) as [o|] eqn:E; [|done]. cbn in Hj. subst o. by eapply list_elem_of_lookup_2. }
    clear IH. split.
    + intros (j & t & Hj & Hx). cbn in Hx. apply (IH' j t Hj) in Hx as (k & -> & Hwk & Hg).
      assert (childpos (Z.of_nat j)) as Hcp.
      { pose proof (ch_lt _ _ _ Hj). rewrite (wf_branch_length _ Hw) in *. unfold childpos, nrOfChildren in *. lia. }
      rewrite ch_slot in Hj.
      destruct (wf_branch_elim cs _ t Hw Hcp Hj) as (k2 & Hk2 & Hwk2).
      exists (Z.of_nat j :: k). rewrite <- app_assoc. split; [done|]. split; [|by rewrite tget_branch, Hj].
      left. split; [done|]. destruct (slot_wfk _ _ _ Hk2 Hwk2) as [Hn H16].
      destruct (decide (Z.of_nat j = 16)) as [E|E].
      * destruct (H16 E) as (v' & -> & _). cbn in Hg. case_decide; [|done]. subst k. rewrite E. constructor.
      * constructor; [unfold nibble, childpos in *; lia|].
        destruct Hwk as [[_ ?]|[(v' & -> & _) _]]; [done|].
        specialize (Hn ltac:(unfold nibble, childpos in *; lia)). inversion Hn as [? ? Hbad _| |]; subst.
        by apply hexpath_nonnil in Hbad.
    + intros (k & -> & [[_ Hkey]|[(? & ? & _) _]] & Hg); [|done].
      destruct k as [|i k]; [by apply hexpath_nonnil in Hkey|]. rewrite tget_branch in Hg.
      pose proof (hexpath_childpos _ _ Hkey) as Hi.
      destruct (slot cs i) as [t|] eqn:Es; [|done]. cbn in Hg. exists (Z.to_nat i), t. split; [done|].
      cbn. apply (IH' (Z.to_nat i) t Es). exists k. rewrite Z2Nat.id by (unfold childpos in Hi; lia).
      rewrite <- app_assoc. split; [done|]. split; [by eapply wf_branch_slot|done].
Qed.

Lemma NoDup_over_slots (f : nat -> tree -> list (list Z * string)) i cs :
  (forall j t, ch cs j = Some t -> NoDup (f (i + j)%nat t).*1) ->
  (forall j1 j2 t1 t2 k, j1 <> j2 -> ch cs j1 = Some t1 -> ch cs j2 = Some t2 ->
     k ∈ (f (i + j1)%nat t1).*1 -> k ∈ (f (i + j2)%nat t2).*1 -> False) ->
  NoDup (over_slots f i cs).*1.
Proof.
  revert i. induction cs as [|o cs IH]; intros i Hn Hd; cbn [over_slots]; [constructor|].
  fold (over_slots f). rewrite fmap_app. apply NoDup_app. split_and!.
  - destruct o as [t|]; [|constructor]. cbn. specialize (Hn 0%nat t eq_refl). by rewrite Nat.add_0_r in Hn.
  - destruct o as [t|]; cbn [from_option]; [|by intros k ?%not_elem_of_nil].
    intros k Hk Hk2. apply list_elem_of_fmap in Hk2 as (x & -> & Hx).
    apply elem_of_over_slots in Hx as (j & t2 & Hj & Hx).
    apply (Hd 0%nat (S j) t t2 x.1); [done|done|done|by rewrite Nat.add_0_r|].
    rewrite Nat.add_succ_r. by apply list_elem_of_fmap_2.
  - apply IH.
    + intros j t Hj. specialize (Hn (S j) t Hj). by rewrite Nat.add_succ_r in Hn.
    + intros j1 j2 t1 t2 k Hne H1 H2. specialize (Hd (S j1) (S j2) t1 t2 k). rewrite !Nat.add_succ_r in Hd.
      apply Hd; auto.
Qed.

Lemma NoDup_tleaves t : forall prefix, wfs t -> NoDup (tleaves t prefix).*1.
Proof.
  induction t as [k0 v0|k0 t IH|cs IH] using tree_ind'; intros prefix Hw; cbn [tleaves].
  - cbn. apply NoDup_singleton.
  - destruct Hw as [Hw|(? & ? & _)]; [|done]. apply IH. left. by inversion Hw.
  - destruct Hw as [Hw|(? & ? & _)]; [|done]. rewrite Forall_forall in IH. apply NoDup_over_slots; cbn.
    + intros j t Hj. apply (IH (Some t)); [|done|by eapply wf_branch_ch].
      destruct (cs !! j) as [o|] eqn:E; [|done]. cbn in Hj. subst o. by eapply list_elem_of_lookup_2.
    + intros j1 j2 t1 t2 k Hne H1 H2 ([k1 v1] & -> & Hx1)%list_elem_of_fmap ([k2 v2] & E & Hx2)%list_elem_of_fmap.
      cbn in E. apply elem_of_tleaves in Hx1 as (p1 & -> & _); [|by eapply wf_branch_ch].
      apply elem_of_tleaves in Hx2 as (p2 & -> & _); [|by eapply wf_branch_ch].
      rewrite <- !app_assoc in E. apply app_inv_head in E. injection E as E _. lia.
Qed.

(** ** The walk *)

(** An entry of the walk is an entry of the tree with its path turned into a key. *)
Definition entry_ok (e : list Z * string) (r : string * string) : Prop :=
  hexToKeyBytes e.1 = Ok r.1 /\ r.2 = e.2.

(** A hashed node of a stored tree can drop a child from memory. *)
Lemma repr_branch_unload db enc ns b cs i :
  repr db (BranchNode {| EncodedChildren := enc |} ns b) (TBranch cs) ->
  hash b <> None -> stored db (TBranch cs) ->
  repr db (BranchNode {| EncodedChildren := enc |} (<[i := None]> ns) b) (TBranch cs).
Proof.
  inversion 1 as [| |? ? ? ? Hl Hb He Hn Hrec Hnone Hcol Hh]; subst. intros Hb' Hst.
  assert (forall j t, ch (<[i := None]> ns) j = Some t -> ch ns j = Some t) as Hsub.
  { intros j t. destruct (decide (i = j)) as [->|Hne]; [|by rewrite list_lookup_insert_ne].
    destruct (lt_dec j (length ns)); [by rewrite list_lookup_insert_eq|].
    by rewrite list_insert_ge by lia. }
  apply repr_branch; [done|done|done|by rewrite length_insert|..].
  - intros j n t Hj. apply Hrec, Hsub, Hj.
  - intros j Hj. destruct (Hnone j Hj) as [E ->]. split; [|done].
    destruct (ch (<[i := None]> ns) j) eqn:E2; [|done]. apply Hsub in E2. congruence.
  - intros j t Hj _. split; [by apply (Hh Hb')|]. inversion Hst as [? _ _ _ Hc]; subst. by eapply Hc.
  - intros _ j t Hj. destruct (Hh Hb' j t Hj) as [-> Hg]. split; [reflexivity|]. intros n' Hn'. by apply Hg, Hsub.
Qed.

Definition walks (db : dbT) (t : tree) (prefix : list Z) (out : node * res trieError (list (string * string))) : Prop :=
  exists n' l, out = (n', Ok l) /\ Forall2 entry_ok (tleaves t prefix) l.

(** The loop over the slots of a branch. *)
Lemma collect_slots db enc b cs (f : nat -> NM (list (string * string))) (g : nat -> tree -> list (list Z * string)) l :
  (forall i ns, (i < nrOfChildren)%nat -> repr db (BranchNode {| EncodedChildren := enc |} ns b) (TBranch cs) ->
     exists ns' r, f i (BranchNode {| EncodedChildren := enc |} ns b) =
         (BranchNode {| EncodedChildren := enc |} ns' b, Ok r) /\
       repr db (BranchNode {| EncodedChildren := enc |} ns' b) (TBranch cs) /\
       Forall2 entry_ok (from_option (g i) [] (ch cs i)) r) ->
  forall i ns, l = seq i (nrOfChildren - i) -> (i <= nrOfChildren)%nat ->
  repr db (BranchNode {| EncodedChildren := enc |} ns b) (TBranch cs) ->
  exists ns' r, collect f l (BranchNode {| EncodedChildren := enc |} ns b) =
      (BranchNode {| EncodedChildren := enc |} ns' b, Ok r) /\
    Forall2 entry_ok (over_slots g i (drop i cs)) r.
Proof.
  intros Hf. induction l as [|j l IH]; intros i ns Hl Hi Hr.
  - assert (length cs = nrOfChildren) as Hlc by by inversion Hr.
    assert (i = nrOfChildren) as -> by (destruct (nrOfChildren - i)%nat eqn:E; [lia|done]).
    rewrite drop_ge by lia. exists ns, []. split; [done|constructor].
  - destruct (nrOfChildren - i)%nat as [|m] eqn:Em; [done|]. cbn in Hl. injection Hl as -> Hl.
    assert (length cs = nrOfChildren) as Hlc by by inversion Hr.
    destruct (Hf i ns ltac:(lia) Hr) as (ns1 & r1 & H1 & Hr1 & Hx1).
    destruct (IH (S i) ns1) as (ns2 & r2 & H2 & Hx2); [by rewrite Hl; f_equal; lia|lia|done|].
    exists ns2, (r1 ++ r2). split; [cbn [collect]; mrun; by rewrite H1, H2|].
    destruct (lookup_lt_is_Some_2 cs i ltac:(lia)) as [o Ho].
    rewrite (drop_S cs o i Ho). cbn [over_slots]. fold (over_slots g).
    rewrite Ho in Hx1. cbn in Hx1. by apply Forall2_app.
Qed.

Lemma walk_spec db fuel : forall n t prefix,
  wfs t -> repr db n t -> stored db t -> getHash n <> None -> (tdepth t <= fuel)%nat ->
  (forall hk v, (hk, v) ∈ tleaves t prefix -> is_ok (hexToKeyBytes hk) = true) ->
  walks db t prefix (getAllLeaves fuel prefix db n).
Proof.
  induction fuel as [|fuel IH]; intros n t prefix Hw Hr Hst Hh Hf Hkeys; [destruct t; cbn in Hf; lia|].
  pose proof (repr_nonempty db n t Hw Hr) as Hne. unfold walks. cbn [getAllLeaves].
  unfold mbind at 1, M_bind at 1, get at 1. unfold mbind at 1, M_bind at 1, lift at 1. rewrite Hne.
  inversion Hr as [k v b _ _|k enc c b t' _ _ _ _ _|enc ns b cs _ _ _ _ _ _ _ _]; subst; cbn [tleaves] in *.
  - specialize (Hkeys (prefix ++ k) v (list_elem_of_here _ _)). apply (from_ok_spec EmptyString) in Hkeys.
    mrun. cbn [ln_Key]. rewrite Hkeys. do 2 eexists. split; [reflexivity|].
    constructor; [by split|constructor].
  - destruct (resolve_ext db k enc c b t' 0 Hr) as (n & Hres & Hr1 & Hn1).
    destruct Hw as [Hw|(? & ? & _)]; [|done].
    destruct (IH n t' (prefix ++ k)) as (n' & l & Hg & Hx);
      [left; by inversion Hw|done|by inversion Hst; eauto| |cbn in Hf; lia|done|].
    { inversion Hr1 as [|? ? ? ? ? _ _ _ _ Hh1|]; subst. exact (proj2 (Hh1 Hh) n eq_refl). }
    mrun. rewrite Hres. cbn [en_Key]. rewrite (on_child_ext _ _ _ _ _ _ _ Hg). eauto.
  - destruct Hw as [Hw|(? & ? & _)]; [|done].
    edestruct (collect_slots db enc b cs) with (i := 0%nat) (ns := ns)
      (g := fun i t => tleaves t (prefix ++ [Z.of_nat i])) as (ns' & r & Hc & Hx);
      [|reflexivity|lia|exact Hr|do 2 eexists; split; [exact Hc|exact Hx]].
    intros i ns1 Hi Hr1. cbv beta.
    destruct (resolve_branch db enc ns1 b cs i Hr1 (wfs_branch_taken cs (or_introl Hw)) Hi)
      as (ns2 & Hres & Hr2 & Hnil).
    mrun. rewrite Hres. cbn [child_at]. rewrite Hnil.
    destruct (ch cs i) as [t|] eqn:Ec; cbn [is_nil from_option]; [|do 2 eexists; split_and!; [done..|constructor]].
    destruct (ch ns2 i) as [c|] eqn:En; [|done].
    assert (getHash c <> None) as Hhc.
    { inversion Hr2 as [| |? ? ? ? _ _ _ _ _ _ _ Hh1]; subst. exact (proj2 (Hh1 Hh _ _ Ec) c En). }
    destruct (IH c t (prefix ++ [Z.of_nat i])) as (c' & l & Hg & Hx);
      [by eapply wf_branch_ch|by inversion Hr2; eauto|by inversion Hst; eauto|done| | |].
    { pose proof (tdepth_child cs i t Ec). cbn in Hf. lia. }
    { intros hk v Hin. apply (Hkeys hk v). apply elem_of_over_slots. by exists i, t. }
    rewrite (on_child_branch _ _ _ _ _ _ _ _ En Hg). cbn [set_child].
    do 2 eexists. split; [reflexivity|]. split; [|done]. rewrite list_insert_insert_eq.
    by apply repr_branch_unload.
Qed.
End proofs.
