(* ===== verification/PatriciaProps.v ===== *)
(** * What a Patricia Merkle trie promises

    A trie behaves as a finite map from keys to values, its root hash stands for
    the contents of that map, a commit makes the map readable from the root
    hash, and a proof for a key can be made exactly when the key is present. *)

From S2P Require Import Prelude Common Strconv TrieNode TrieTree TrieSim TrieUpdate TrieCommit TrieStorage PatriciaTrie TrieProofs.
Local Open Scope Z_scope.

(** The waiting list's own messages are read back. *)
Class BatchLaws {MBa : Marshalizer Batch} : Prop := {
  codec_batch : forall b : Batch, exists x, Marshal b = Ok x /\ Unmarshal x = Ok b;
}.

Section props.
Context {DB : DBWriteCacher} {HS : Hasher} {MBa : Marshalizer Batch}.
Context {ML : Marshalizer CollapsedLn} {ME : Marshalizer CollapsedEn} {MB : Marshalizer CollapsedBn}.
Context {CL : NodeCodecLaws} {HL : HasherLaws} {DL : DBLaws} {BL : BatchLaws}.

(** ** The map a trie stands for *)

(** The tree holds exactly the paths of the map's keys. *)
Definition holds (t : tree) (m : gmap string string) : Prop :=
  forall hk, hexpath hk -> tget t hk = match hexToKeyBytes hk with Ok k => m !! k | Err _ => None end.

Definition trie_map (s : trieState) (m : gmap string string) : Prop :=
  match root (st_trie s) with
  | None => m = ∅
  | Some n => exists t, repr (database s) n t /\ wf t /\ holds t m
  end.

Lemma holds_key t m k : holds t m -> tget t (keyBytesToHex k) = m !! k.
Proof. intros H. rewrite H by apply keyBytesToHex_hexpath. by rewrite hexToKeyBytes_keyBytesToHex. Qed.

(** A change at the path of a key is a change of the map at that key. *)
Lemma holds_edit t t' m k o :
  holds t m ->
  (forall hk, hexpath hk -> tget t' hk = if decide (hk = keyBytesToHex k) then o else tget t hk) ->
  holds t' (partial_alter (fun _ => o) k m).
Proof.
  intros H Ht hk Hk. rewrite Ht by done. destruct (decide (hk = keyBytesToHex k)) as [->|Hne].
  - by rewrite hexToKeyBytes_keyBytesToHex, lookup_partial_alter_eq.
  - rewrite H by done. destruct (hexToKeyBytes hk) as [k'|] eqn:E; [|done].
    rewrite lookup_partial_alter_ne; [done|]. intros ->. apply Hne. by apply keyBytesToHex_of_path.
Qed.

Lemma wfk_key t k : wf t -> wfk t (keyBytesToHex k).
Proof. intros H. left. split; [done|apply keyBytesToHex_hexpath]. Qed.

Lemma path_fuel_ok k : (length k < path_fuel k)%nat.
Proof. unfold path_fuel. lia. Qed.

(** ** Reading and writing *)

Lemma Get_spec s m k :
  trie_map s m -> exists s', Get k s = (s', Ok (m !! k)) /\ trie_map s' m /\ st_storage s' = st_storage s.
Proof.
  unfold trie_map, Get. mrun. destruct (root (st_trie s)) as [n|] eqn:Hroot.
  - intros (t & Hr & Hw & Hh).
    destruct (tryGet_spec (database s) _ n t _ (wfk_key t k Hw) Hr (path_fuel_ok _)) as (n' & Hg & Hr' & _).
    unfold on_root. rewrite Hg, (holds_key _ _ _ Hh). eexists. split; [reflexivity|]. split; [|done]. cbn.
    by exists t.
  - intros ->. eexists. split; [reflexivity|]. by rewrite Hroot.
Qed.

Lemma remember_root_run n s : exists s', remember_root n s = (s', Ok tt) /\
  root (st_trie s') = root (st_trie s) /\ st_storage s' = st_storage s.
Proof. unfold remember_root. destruct (isDirty n); mrun; eexists; by split_and!. Qed.

Lemma trie_map_root s m r :
  root (st_trie s) = r ->
  trie_map s m <-> match r with
                   | None => m = ∅
                   | Some n => exists t, repr (database s) n t /\ wf t /\ holds t m
                   end.
Proof. intros <-. done. Qed.

Lemma trie_map_intro s n t m :
  root (st_trie s) = Some n -> repr (database s) n t -> wf t -> holds t m -> trie_map s m.
Proof. intros E ? ? ?. apply (trie_map_root s m _ E). eauto. Qed.

Lemma empty_holds t : wf t -> (forall hk, hexpath hk -> tget t hk = None) -> False.
Proof. intros Hw H. destruct (wf_nonempty t Hw) as (k & v & Hk & Hg). rewrite H in Hg; done. Qed.

Lemma Delete_spec s m k :
  trie_map s m ->
  exists s', Delete k s = (s', Ok tt) /\ trie_map s' (delete k m) /\ st_storage s' = st_storage s.
Proof.
  unfold Delete. unfold mbind at 1, M_bind at 1, get at 1. destruct (root (st_trie s)) as [n|] eqn:Hroot.
  2: { intros H. apply (trie_map_root s m None Hroot) in H. subst m. rewrite delete_empty.
       exists s. split; [done|]. split; [by apply (trie_map_root s ∅ None Hroot)|done]. }
  intros (t & Hr & Hw & Hh)%(trie_map_root s m (Some n) Hroot).
  destruct (remember_root_run n s) as (s1 & Hrem & Hroot1 & Hst1).
  unfold mbind at 1, M_bind at 1. rewrite Hrem.
  destruct (node_delete_spec (database s) _ n t _ (wfk_key t k Hw) Hr (path_fuel_ok _))
    as [(n' & changed & newRoot & hs & Hd & Hch)].
  mrun. unfold on_root. rewrite Hd. unfold replace_root, modify.
  eexists. split; [reflexivity|]. split; [|done]. cbn -[database].
  eapply (trie_map_root _ _ newRoot); [done|]. change (database _) with (database s1).
  replace (database s1) with (database s) by (unfold database; by rewrite Hst1).
  destruct changed.
  - destruct newRoot as [m'|].
    + destruct Hch as (t' & (Hr' & Hw' & _) & _ & Hrm). exists t'. split; [done|]. split; [done|].
      by apply (holds_edit t t' m k None).
    + destruct Hch as [v ->]. apply map_empty. intros k'. rewrite lookup_delete. case_decide as E; [done|].
      rewrite <- (holds_key _ _ _ Hh). cbn. rewrite decide_False; [done|]. intros E2%keyBytesToHex_inj. congruence.
  - destruct Hch as (-> & Hr' & _ & Hnone). exists t. split; [done|]. split; [done|].
    rewrite (holds_key _ _ _ Hh) in Hnone. by rewrite delete_id.
Qed.

Lemma new_leaf_holds k v : holds (TLeaf (keyBytesToHex k) v) {[k := v]}.
Proof.
  intros hk Hk. cbn. destruct (decide (hk = keyBytesToHex k)) as [->|Hne].
  - by rewrite hexToKeyBytes_keyBytesToHex, lookup_singleton_eq.
  - destruct (hexToKeyBytes hk) as [k'|] eqn:E; [|done].
    rewrite lookup_singleton_ne; [done|]. intros ->. apply Hne. by apply keyBytesToHex_of_path.
Qed.

Lemma Update_spec s m k v :
  trie_map s m ->
  exists s', Update k v s = (s', Ok tt) /\ st_storage s' = st_storage s /\
    trie_map s' (if decide (bytes_of v = "") then delete k m else <[k := bytes_of v]> m).
Proof.
  intros Hm. unfold Update. unfold mbind at 1, M_bind at 1, get at 1.
  destruct (Z.eqb_spec (slen (bytes_of v)) 0) as [E|E]; cbn [negb].
  { rewrite decide_True by (destruct (bytes_of v); [done|unfold slen in E; cbn in E; lia]).
    destruct (Delete_spec s m k Hm) as (s' & ? & ? & ?). eauto. }
  rewrite decide_False by (by intros E2; rewrite E2 in E).
  destruct v as [v|]; [|done]. cbn [bytes_of default] in *.
  assert (v <> "") as Hv by (by intros ->).
  destruct (root (st_trie s)) as [n|] eqn:Hroot.
  2: { apply (trie_map_root s m None Hroot) in Hm. subst m. mrun. eexists. split; [reflexivity|]. split; [done|].
       eapply (trie_map_root _ _ (Some _)); [reflexivity|]. exists (TLeaf (keyBytesToHex k) v).
       split; [apply repr_new_leaf; [apply hexpath_byte, keyBytesToHex_hexpath|done]|].
       split; [by constructor; [apply keyBytesToHex_hexpath|]|]. exact (new_leaf_holds k v). }
  apply (trie_map_root s m (Some n) Hroot) in Hm as (t & Hr & Hw & Hh).
  destruct (remember_root_run n s) as (s1 & Hrem & Hroot1 & Hst1).
  unfold mbind at 1, M_bind at 1. rewrite Hrem.
  destruct (node_insert_spec (database s) _ n t _ v (wfk_key t k Hw) Hr Hv (path_fuel_ok _))
    as [(n' & changed & newRoot & hs & t' & Hi & Hr' & Hw' & _ & Hadd & _)].
  mrun. unfold on_root. rewrite Hi. unfold replace_root, modify.
  eexists. split; [reflexivity|]. split; [exact Hst1|].
  eapply (trie_map_intro _ newRoot t'); [done|unfold database; cbn; by rewrite Hst1|..].
  - destruct Hw' as [[? _]|[_ E2]]; [done|]. pose proof (keyBytesToHex_hexpath k) as Hk. rewrite E2 in Hk.
    by apply hexpath_nonnil in Hk.
  - apply (holds_edit t t' m k (Some v) Hh). intros hk Hk. apply Hadd. by left.
Qed.

(** ** The root hash *)

(** Two trees in normal form with the same hash are the same tree. *)
Lemma thash_tree_inj t : forall t', wfs t -> wfs t' -> thash t = thash t' -> t = t'.
Proof.
  induction t as [k v|k t IH|cs IH] using tree_ind'; intros t' Hw Hw' Heq;
    apply thash_inj in Heq; pose proof (decode_tree _ (wfs_encodable _ Hw)) as Hd;
    rewrite Heq, (decode_tree _ (wfs_encodable _ Hw')) in Hd;
    destruct t' as [k' v'|k' t'|cs']; try discriminate Hd; injection Hd as Hd.
  - congruence.
  - f_equal; [done|]. destruct Hw as [Hw|(? & ? & _)], Hw' as [Hw'|(? & ? & _)]; try done.
    inversion Hw; inversion Hw'; subst. apply IH; [by left|by left|done].
  - f_equal. destruct Hw as [Hw|(? & ? & _)], Hw' as [Hw'|(? & ? & _)]; try done.
    apply list_eq_same_length with nrOfChildren; [by apply wf_branch_length..|].
    intros i o o' Hi Ho Ho'. pose proof (slot_hashes_ch cs i) as E. pose proof (slot_hashes_ch cs' i) as E'.
    rewrite Hd, E in E'. rewrite Ho, Ho' in E'. cbn in E'.
    destruct o as [t|], o' as [t'|]; cbn in E'; [|by apply thash_nonempty in E'|by destruct (thash_nonempty t')|done].
    f_equal. rewrite Forall_forall in IH. apply (IH (Some t)); [by eapply list_elem_of_lookup_2|done|..].
    + apply (wf_branch_ch cs i t Hw). by rewrite Ho.
    + apply (wf_branch_ch cs' i t' Hw'). by rewrite Ho'.
    + done.
Qed.

(** The root hash of a map: that of the only tree that holds it. *)
Definition root_hash_of (m : gmap string string) (h : string) : Prop :=
  (m = ∅ /\ h = EmptyTrieHash) \/ exists t, wf t /\ holds t m /\ h = thash t.

Lemma holds_nonempty t : wf t -> ~ holds t ∅.
Proof.
  intros Hw H. apply (empty_holds t Hw). intros hk Hk. rewrite H by done. by destruct (hexToKeyBytes hk).
Qed.

Lemma holds_inj t m m' : holds t m -> holds t m' -> m = m'.
Proof.
  intros H H'. apply map_eq. intros k. by rewrite <- (holds_key _ _ k H), <- (holds_key _ _ k H').
Qed.

Lemma root_hash_inj m m' h h' :
  root_hash_of m h -> root_hash_of m' h' -> (h = h' <-> m = m').
Proof.
  intros [[-> ->]|(t & Hw & Hh & ->)] [[-> ->]|(t' & Hw' & Hh' & ->)].
  - done.
  - split; [intros E; by destruct (thash_not_empty_trie t')|]. intros <-. by apply holds_nonempty in Hh'.
  - split; [intros E; by destruct (thash_not_empty_trie t)|]. intros ->. by apply holds_nonempty in Hh.
  - split.
    + intros E. apply thash_tree_inj in E; [|by left..]. subst t'. by eapply holds_inj.
    + intros <-. f_equal. apply canonical; [done..|]. intros hk Hk. by rewrite (Hh hk Hk), (Hh' hk Hk).
Qed.

(** Hashing the root in place. *)
Lemma on_root_hash s n t :
  repr (database s) n t -> wf t ->
  exists n', on_root n setRootHash s = (upd_trie (with_root (Some n')) s, Ok tt) /\
    repr (database s) n' t /\ getHash n' = Some (thash t) /\ isDirty n' = isDirty n.
Proof.
  intros Hr Hw. destruct (sets_hash_run _ _ _ (setHash_spec (database s) t n (or_introl Hw) Hr))
    as (n' & Hs & Hr' & Hh & Hd).
  exists n'. unfold on_root, setRootHash. by rewrite Hs.
Qed.

Lemma RootHash_spec s m :
  trie_map s m ->
  exists s' h, RootHash s = (s', Ok h) /\ trie_map s' m /\ st_storage s' = st_storage s /\ root_hash_of m h.
Proof.
  intros Hm. unfold RootHash, getRootHash. unfold mbind at 1, M_bind at 1, get at 1.
  destruct (root (st_trie s)) as [n|] eqn:Hroot.
  2: { exists s, EmptyTrieHash. split; [done|]. split; [done|]. split; [done|]. left.
       by apply (trie_map_root s m None Hroot) in Hm. }
  pose proof Hm as (t & Hr & Hw & Hh)%(trie_map_root s m (Some n) Hroot).
  destruct (getHash n) as [h|] eqn:Eh.
  - pose proof (cached_hash _ _ _ _ Hr Eh) as ->. exists s, (thash t). split; [done|]. split; [done|].
    split; [done|]. right. eauto.
  - destruct (on_root_hash s n t Hr Hw) as (n' & Ho & Hr' & Hh' & _).
    unfold mbind at 1, M_bind at 1. rewrite Ho. mrun.
    eexists _, _. split; [reflexivity|]. split; [by eapply trie_map_intro|]. split; [done|].
    right. exists t. split; [done|]. split; [done|]. cbn. by rewrite Hh'.
Qed.

(** ** Committing *)

Lemma ewl_Put_run order r hs w : exists w', ewl_Put order r hs w = (w', Ok tt).
Proof.
  unfold ewl_Put. mrun. destruct (_ <? _); [eauto|].
  destruct (codec_batch {| Data := order hs |}) as (x & -> & _). cbn.
  destruct (db_put_total (ewl_db w) r x) as [d' ->]. cbn. eauto.
Qed.

Lemma MarkForEviction_run order r hs s :
  exists s', on_storage (MarkForEviction order r hs) s = (s', Ok tt) /\
    st_trie s' = st_trie s /\ database s' = database s.
Proof.
  unfold on_storage, MarkForEviction. mrun. destruct (IsPruningEnabled (st_storage s)); [|eauto].
  unfold on_waiting. destruct (ewl_Put_run order r hs (dbEvictionWaitingList (st_storage s))) as [w' ->].
  by eexists.
Qed.

Lemma markForEviction_run order r s :
  exists s', markForEviction order r s = (s', Ok tt) /\
    root (st_trie s') = root (st_trie s) /\ database s' = database s /\
    maxTrieLevelInMemory (st_trie s') = maxTrieLevelInMemory (st_trie s).
Proof.
  unfold markForEviction. unfold mbind at 1, M_bind at 1, get at 1. case_decide; [by eexists|].
  destruct (removeDuplicatedKeys _ _) as [olds news].
  unfold mbind at 1, M_bind at 1, modify at 1.
  assert (forall (b : bool) r hs s0, exists s', (if b then on_storage (MarkForEviction order r hs) else mret tt) s0
    = (s', Ok tt) /\ st_trie s' = st_trie s0 /\ database s' = database s0) as Hmark.
  { intros [] r' hs s0; [apply MarkForEviction_run|]. by eexists. }
  unfold mbind at 1, M_bind at 1.
  edestruct (Hmark (negb (bool_decide (news = ∅)) && negb (slen r =? 0))) as (s1 & -> & Ht1 & Hd1).
  destruct (negb (bool_decide (olds = ∅)) && _).
  - unfold mbind at 1, M_bind at 1, modify at 1.
    edestruct (MarkForEviction_run order) as (s2 & -> & Ht2 & Hd2). eexists. split; [reflexivity|].
    rewrite Ht2, Hd2. cbn. rewrite Ht1. split_and!; [done| |done]. exact Hd1.
  - eexists. split; [reflexivity|]. rewrite Ht1. split_and!; [done| |done]. exact Hd1.
Qed.

Lemma commit_root_spec s n t :
  repr (database s) n t -> wf t ->
  exists n' st, commit_root n s = ({| st_trie := with_root (Some n') (st_trie s); st_storage := st |}, Ok tt) /\
    repr (tsm_db st) n' t /\ stored (tsm_db st) t /\ grows (database s) (tsm_db st).
Proof.
  intros Hr Hw. unfold commit_root.
  destruct (commit_spec (maxTrieLevelInMemory (st_trie s)) (database s) (node_depth n) 0 n (database s) t
    (or_introl Hw) Hr (le_n _)) as (n' & d' & -> & Hr' & Hst & Hg & _).
  by eexists n', (with_db d' (st_storage s)).
Qed.

(** After a commit the root is stored. *)
Definition committed (s : trieState) (m : gmap string string) : Prop :=
  match root (st_trie s) with
  | None => m = ∅
  | Some n => exists t, repr (database s) n t /\ wf t /\ holds t m /\ stored (database s) t
  end.

Lemma committed_map s m : committed s m -> trie_map s m.
Proof. unfold committed, trie_map. destruct (root (st_trie s)); [|done]. intros (t & ? & ? & ? & _). eauto. Qed.

Lemma repr_clean d n t : repr d n t -> isDirty n = false -> stored d t.
Proof.
  inversion 1 as [? ? ? _ [_ Hb]|? ? ? ? ? _ [_ Hb] _ _ _|? ? ? ? _ [_ Hb] _ _ _ _ _ _]; subst; apply Hb.
Qed.

Lemma Commit_spec order s m :
  trie_map s m ->
  exists s', Commit order s = (s', Ok tt) /\ committed s' m /\ grows (database s) (database s').
Proof.
  intros Hm. unfold Commit. unfold mbind at 1, M_bind at 1, get at 1.
  destruct (root (st_trie s)) as [n|] eqn:Hroot.
  2: { exists s. split; [done|]. split; [|apply grows_refl]. unfold committed. by unfold trie_map in Hm; rewrite Hroot in *. }
  pose proof Hm as (t & Hr & Hw & Hh)%(trie_map_root s m (Some n) Hroot).
  destruct (isDirty n) eqn:Hd; cbn [negb].
  2: { exists s. split; [done|]. split; [|apply grows_refl]. unfold committed. rewrite Hroot.
       exists t. split; [exact Hr|]. split; [exact Hw|]. split; [exact Hh|]. by eapply repr_clean. }
  destruct (on_root_hash s n t Hr Hw) as (n1 & Ho & Hr1 & Hh1 & _).
  unfold mbind at 1, M_bind at 1. rewrite Ho. unfold mbind at 1, M_bind at 1, get at 1. cbn [st_trie upd_trie with_root root].
  set (s1 := upd_trie (with_root (Some n1)) s) in *.
  assert (exists s2, (if IsPruningEnabled (st_storage s1) then markForEviction order (bytes_of (getHash n1)) else mret tt) s1
    = (s2, Ok tt) /\ root (st_trie s2) = root (st_trie s1) /\ database s2 = database s1) as (s2 & Hm2 & Hr2 & Hd2).
  { destruct (IsPruningEnabled (st_storage s1)); [|by eexists].
    destruct (markForEviction_run order (bytes_of (getHash n1)) s1) as (s2 & ? & ? & ? & _). eauto. }
  unfold mbind at 1, M_bind at 1. rewrite Hm2. unfold mbind at 1, M_bind at 1, modify at 1.
  set (s3 := upd_trie _ s2). assert (database s3 = database s) as Hd3 by (unfold s3; cbn; exact Hd2).
  destruct (commit_root_spec s3 n1 t) as (n' & st & Hc & Hr' & Hst & Hg); [by rewrite Hd3|done|].
  rewrite Hc. eexists. split; [reflexivity|]. split; [|by rewrite <- Hd3]. unfold committed. cbn.
  exists t. by split_and!.
Qed.

Lemma emptyTrie_hash t : emptyTrie (thash t) = false.
Proof.
  unfold emptyTrie. pose proof (empty_str_hash t) as E. unfold empty_str in E. rewrite E. cbn.
  apply bool_decide_eq_false. apply thash_not_empty_trie.
Qed.

Lemma Recreate_stored levels maxLevel st t m :
  wf t -> holds t m -> stored (tsm_db st) t ->
  exists tr, Recreate levels maxLevel (thash t) st = (st, Ok tr) /\
    trie_map {| st_trie := tr; st_storage := st |} m.
Proof.
  intros Hw Hh Hst. unfold Recreate. rewrite emptyTrie_hash. mrun.
  assert (db_Get (tsm_db st) (thash t) = Ok (tenc t)) as Hg by by inversion Hst.
  rewrite Hg. unfold recreateFromDb. rewrite load_stored by done. cbn. eexists. split; [reflexivity|].
  eapply trie_map_intro; [reflexivity| |done|done]. rewrite collapsed_given. apply repr_loaded; [done|].
  by intros h [= <-].
Qed.

(** Writing to the shared database keeps every other trie. *)
Lemma trie_map_grows tr st st' m :
  grows (tsm_db st) (tsm_db st') ->
  trie_map {| st_trie := tr; st_storage := st |} m -> trie_map {| st_trie := tr; st_storage := st' |} m.
Proof.
  intros Hg. unfold trie_map. cbn. destruct (root tr) as [n|]; [|done]. intros (t & Hr & Hw & Hh).
  exists t. split; [|done]. by eapply repr_grows.
Qed.

(** The root hash of a stored trie, and reloading from it. *)
Lemma committed_reload s m :
  committed s m ->
  exists s' h, RootHash s = (s', Ok h) /\ root_hash_of m h /\
    forall levels maxLevel, exists tr, Recreate levels maxLevel h (st_storage s) = (st_storage s, Ok tr) /\
      trie_map {| st_trie := tr; st_storage := st_storage s |} m.
Proof.
  intros Hc. destruct (RootHash_spec s m (committed_map s m Hc)) as (s' & h & Hh & _ & _ & Hof).
  exists s', h. split; [done|]. split; [done|]. intros levels maxLevel. unfold committed in Hc.
  destruct (root (st_trie s)) as [n|].
  - destruct Hc as (t & _ & Hw & Ht & Hst).
    assert (h = thash t) as -> by (apply (root_hash_inj m m); [done|right; eauto|done]).
    by apply Recreate_stored.
  - subst m. assert (h = EmptyTrieHash) as -> by (apply (root_hash_inj ∅ ∅); [done|by left|done]).
    exists (NewTrie maxLevel). by split.
Qed.

(** ** Reading the leaves of a stored trie *)

Lemma wf_wfk_hexpath t q : wf t -> wfk t q -> hexpath q.
Proof.
  intros Hw [[_ ?]|[(v & -> & _) _]]; [done|]. inversion Hw as [? ? Hb| |]. by apply hexpath_nonnil in Hb.
Qed.

Lemma leaves_elem t m l k v :
  wf t -> holds t m -> Forall2 entry_ok (tleaves t []) l -> (k, v) ∈ l <-> m !! k = Some v.
Proof.
  intros Hw Hh Hl. rewrite <- (holds_key t m k Hh). split.
  - intros (i & Hi)%list_elem_of_lookup. destruct (Forall2_lookup_r _ _ _ _ _ Hl Hi) as ([hk v'] & He & Hok & Hv).
    cbn in Hok, Hv. subst v'. apply list_elem_of_lookup_2, elem_of_tleaves in He as (k' & -> & Hwk & Hg); [|by left].
    apply keyBytesToHex_of_path in Hok; [|by apply (wf_wfk_hexpath t)]. cbn in Hok. by subst k'.
  - intros Hg. assert ((keyBytesToHex k, v) ∈ tleaves t []) as (i & Hi)%list_elem_of_lookup.
    { apply elem_of_tleaves; [by left|]. exists (keyBytesToHex k). split; [done|]. split; [by apply wfk_key|done]. }
    destruct (Forall2_lookup_l _ _ _ _ _ Hl Hi) as ([k' v'] & He & Hok & Hv). cbn in Hok, Hv.
    rewrite hexToKeyBytes_keyBytesToHex in Hok. injection Hok as <-. subst v'. by eapply list_elem_of_lookup_2.
Qed.

Lemma leaves_NoDup t l : wf t -> Forall2 entry_ok (tleaves t []) l -> NoDup l.*1.
Proof.
  intros Hw Hl. pose proof (NoDup_tleaves t [] (or_introl Hw)) as Hn. rewrite NoDup_alt in Hn.
  apply NoDup_alt. intros i j k Hi Hj. rewrite list_lookup_fmap in Hi, Hj.
  destruct (l !! i) as [[k1 v1]|] eqn:Ei, (l !! j) as [[k2 v2]|] eqn:Ej; try done. cbn in Hi, Hj. simplify_eq.
  destruct (Forall2_lookup_r _ _ _ _ _ Hl Ei) as ([h1 w1] & He1 & Hok1 & _).
  destruct (Forall2_lookup_r _ _ _ _ _ Hl Ej) as ([h2 w2] & He2 & Hok2 & _). cbn in *.
  pose proof (list_elem_of_lookup_2 _ _ _ He1) as (q1 & E1 & Hw1 & _)%elem_of_tleaves; [|by left].
  pose proof (list_elem_of_lookup_2 _ _ _ He2) as (q2 & E2 & Hw2 & _)%elem_of_tleaves; [|by left].
  cbn in E1, E2. subst q1 q2.
  apply keyBytesToHex_of_path in Hok1, Hok2; [|by apply (wf_wfk_hexpath t)..].
  apply (Hn i j h1); rewrite list_lookup_fmap; [by rewrite He1|rewrite He2; cbn; congruence].
Qed.

Lemma leaves_of_map t m l :
  wf t -> holds t m -> Forall2 entry_ok (tleaves t []) l -> l ≡ₚ map_to_list m.
Proof.
  intros Hw Hh Hl.
  apply NoDup_Permutation; [by eapply NoDup_fmap_1, leaves_NoDup|apply NoDup_map_to_list|].
  intros [k v]. by rewrite (leaves_elem t m l k v), elem_of_map_to_list.
Qed.

Lemma GetAllLeaves_spec levels maxLevel st t m :
  wf t -> holds t m -> stored (tsm_db st) t -> (tdepth t <= levels)%nat ->
  exists l, GetAllLeaves levels maxLevel (thash t) st = (st, Ok l) /\ l ≡ₚ map_to_list m.
Proof.
  intros Hw Hh Hst Hlev. unfold GetAllLeaves, Recreate. rewrite emptyTrie_hash. mrun.
  assert (db_Get (tsm_db st) (thash t) = Ok (tenc t)) as -> by by inversion Hst.
  unfold recreateFromDb. rewrite load_stored by done. cbn -[getAllLeaves]. rewrite collapsed_given.
  destruct (walk_spec (tsm_db st) levels (collapsed t {| hash := Some (thash t); dirty := false |}) t [])
    as (n' & l & Hg & Hl); [by left| |done|by rewrite getHash_collapsed|done| |].
  { apply repr_loaded; [done|]. by intros h [= <-]. }
  { intros hk v (k & -> & Hwk & Hg)%elem_of_tleaves; [|by left].
    rewrite (Hh k) in Hg by by apply (wf_wfk_hexpath t). change ([] ++ k) with k. by destruct (hexToKeyBytes k). }
  rewrite Hg. exists l. split; [done|]. by eapply leaves_of_map.
Qed.

(** ** What an account's data trie relies on

    A trie that stands for some map, as the value the interface [TrieOps] of the
    tracked data trie speaks about. *)
Definition map_trie_state : Type := { s : trieState | exists m, trie_map s m }.

Lemma Update_keeps k v s : (exists m, trie_map s m) -> exists m, trie_map (Update k v s).1 m.
Proof. intros [m Hm]. destruct (Update_spec s m k v Hm) as (s' & -> & _ & ?). eauto. Qed.

Definition patricia_get (t : map_trie_state) (key : string) : res error string :=
  match (Get key (`t)).2 with Ok v => Ok (bytes_of v) | Err _ => Err (ErrExternal 3) end.
Definition patricia_update (t : map_trie_state) (key value : string) : res error map_trie_state :=
  match (Update key (Some value) (`t)).2 with
  | Ok _ => Ok ((Update key (Some value) (`t)).1 ↾ Update_keeps key (Some value) (`t) (proj2_sig t))
  | Err _ => Err (ErrExternal 3)
  end.

#[local] Instance patricia_TrieOps : TrieOps :=
  {| trie := map_trie_state; trie_get := patricia_get; trie_update := patricia_update |}.

Lemma patricia_get_map (t : map_trie_state) m k :
  trie_map (`t) m -> patricia_get t k = Ok (default EmptyString (m !! k)).
Proof. intros Hm. unfold patricia_get. by destruct (Get_spec (`t) m k Hm) as (s' & -> & _). Qed.

Lemma patricia_update_map (t t' : map_trie_state) m k v :
  trie_map (`t) m -> patricia_update t k v = Ok t' ->
  trie_map (`t') (if decide (v = "") then delete k m else <[k := v]> m).
Proof.
  intros Hm. unfold patricia_update. destruct (Update_spec (`t) m k (Some v) Hm) as (s' & E & _ & Hm').
  assert ((Update k (Some v) (`t)).2 = Ok tt) as E2 by by rewrite E. rewrite E2.
  intros [= <-]. cbn [proj1_sig]. by rewrite E.
Qed.

Lemma patricia_TrieLaws : TrieLaws.
Proof.
  split; cbn; intros t t'.
  - intros k v Hu. destruct (proj2_sig t) as [m Hm]. erewrite patricia_get_map by by eapply patricia_update_map.
    case_decide; subst; by simplify_map_eq.
  - intros k k' v Hu Hne. destruct (proj2_sig t) as [m Hm].
    erewrite patricia_get_map by by eapply patricia_update_map. rewrite (patricia_get_map t m) by done.
    case_decide; by simplify_map_eq.
Qed.

(** ** Properties *)

(** C2: on a trie that stands for a finite map, a read returns the map's value,
    an update sets it (or removes it, for an empty value) and a deletion removes
    it; none of them fails or runs forever, whatever part of the trie is in
    memory, and the trie stands for the new map afterwards. *)
Theorem trie_refines_map s m k v :
  trie_map s m ->
  (exists s1, Get k s = (s1, Ok (m !! k)) /\ trie_map s1 m) /\
  (exists s2, Update k v s = (s2, Ok tt) /\
     trie_map s2 (if decide (bytes_of v = "") then delete k m else <[k := bytes_of v]> m)) /\
  (exists s3, Delete k s = (s3, Ok tt) /\ trie_map s3 (delete k m)).
Proof.
  intros Hm. split_and!.
  - destruct (Get_spec s m k Hm) as (s1 & ? & ? & _). eauto.
  - destruct (Update_spec s m k v Hm) as (s2 & ? & _ & ?). eauto.
  - destruct (Delete_spec s m k Hm) as (s3 & ? & ? & _). eauto.
Qed.

(** C25: the root hash stands for the contents: two tries, whatever their
    histories and databases, report the same root hash exactly when they hold
    the same keys with the same values. *)
Theorem root_hash_identifies_content s1 m1 s2 m2 :
  trie_map s1 m1 -> trie_map s2 m2 ->
  exists s1' s2' h1 h2, RootHash s1 = (s1', Ok h1) /\ RootHash s2 = (s2', Ok h2) /\
    trie_map s1' m1 /\ trie_map s2' m2 /\ (h1 = h2 <-> m1 = m2).
Proof.
  intros H1 H2. destruct (RootHash_spec s1 m1 H1) as (s1' & h1 & ? & ? & _ & Ho1).
  destruct (RootHash_spec s2 m2 H2) as (s2' & h2 & ? & ? & _ & Ho2).
  exists s1', s2', h1, h2. split_and!; try done; by apply (root_hash_inj m1 m2).
Qed.

(** C24: a commit succeeds and keeps the contents, the trie recreated from the
    root hash that is then reported has the same contents, and every other trie
    over the same storage keeps its own. *)
Theorem commit_then_recreate order s m :
  trie_map s m ->
  exists s' s'' h, Commit order s = (s', Ok tt) /\ trie_map s' m /\ RootHash s' = (s'', Ok h) /\
    (forall levels maxLevel, exists tr,
       Recreate levels maxLevel h (st_storage s') = (st_storage s', Ok tr) /\
       trie_map {| st_trie := tr; st_storage := st_storage s' |} m) /\
    (forall tr2 m2, trie_map {| st_trie := tr2; st_storage := st_storage s |} m2 ->
       trie_map {| st_trie := tr2; st_storage := st_storage s' |} m2).
Proof.
  intros Hm. destruct (Commit_spec order s m Hm) as (s' & Hc & Hcm & Hg).
  destruct (committed_reload s' m Hcm) as (s'' & h & Hh & _ & Hrec).
  exists s', s'', h. split; [done|]. split; [by apply committed_map|]. split; [done|]. split; [done|].
  intros tr2 m2. by apply trie_map_grows.
Qed.

(** C26: for a key that is present a proof is produced and verifies; whatever
    sequence of byte strings verifies for a key, the key is present. *)
Theorem proofs_exactly_for_present_keys s m k :
  trie_map s m ->
  (is_Some (m !! k) -> exists s' s'' p, GetProof k s = (s', Ok p) /\ trie_map s' m /\
     VerifyProof k (Some <$> p) s' = (s'', Ok true)) /\
  (forall p s', VerifyProof k p s = (s', Ok true) -> is_Some (m !! k)).
Proof.
  intros Hm. split.
  - intros [v Hv]. unfold GetProof. unfold mbind at 1, M_bind at 1, get at 1.
    destruct (root (st_trie s)) as [n|] eqn:Hroot.
    2: { apply (trie_map_root s m None Hroot) in Hm. subst m. by rewrite lookup_empty in Hv. }
    apply (trie_map_root s m (Some n) Hroot) in Hm as (t & Hr & Hw & Hh).
    destruct (on_root_hash s n t Hr Hw) as (n1 & Ho & Hr1 & Hh1 & _).
    unfold mbind at 1, M_bind at 1. rewrite Ho. unfold mbind at 1, M_bind at 1, get at 1.
    cbn [st_trie upd_trie with_root root].
    pose proof (getProof_spec (database s) _ n1 t _ (wfk_key t k Hw) Hr1 ltac:(by rewrite Hh1) (path_fuel_ok _)) as Hp.
    unfold proves in Hp. rewrite (holds_key _ _ _ Hh), Hv in Hp. destruct Hp as (n2 & p & Hp & Hr2 & Hb2 & Hver).
    unfold on_root. change (database (upd_trie _ s)) with (database s). rewrite Hp.
    eexists _, _, p. split; [reflexivity|].
    split; [by eapply trie_map_intro|].
    unfold VerifyProof, getRootHash. mrun. cbn [st_trie upd_trie with_root root].
    assert (getHash n2 = Some (thash t)) as -> by (unfold getHash; rewrite Hb2; exact Hh1).
    by rewrite Hver.
  - intros p s' Hver. unfold VerifyProof in Hver. unfold mbind, M_bind in Hver.
    destruct (RootHash_spec s m Hm) as (s1 & h & Hh & _ & _ & Hof). unfold RootHash in Hh. rewrite Hh in Hver.
    unfold lift in Hver. injection Hver as _ Hver. destruct Hof as [[-> ->]|(t & Hw & Ht & ->)].
    + exfalso. destruct p as [|[e|] p]; [done| |done]. cbn in Hver. unfold str_eqb in Hver.
      rewrite bool_decide_eq_false_2 in Hver; [done|]. intros E. by destruct (compute_not_empty_trie e).
    + apply verify_sound in Hver; [|by apply wfk_key]. by rewrite (holds_key _ _ _ Ht) in Hver.
Qed.

(** With enough levels for its depth, the walk over a committed trie ends
    and delivers each key with its value exactly once. *)
Theorem leaves_listed_once order s m :
  trie_map s m ->
  exists s' s'' h depth, Commit order s = (s', Ok tt) /\ RootHash s' = (s'', Ok h) /\
    forall levels maxLevel, (depth <= levels)%nat ->
      exists l, GetAllLeaves levels maxLevel h (st_storage s') = (st_storage s', Ok l) /\
        l ≡ₚ map_to_list m.
Proof.
  intros Hm. destruct (Commit_spec order s m Hm) as (s' & Hc & Hcm & _).
  destruct (committed_reload s' m Hcm) as (s'' & h & Hh & Hof & _).
  destruct Hof as [[-> ->]|(t & Hw & Ht & ->)].
  - exists s', s'', EmptyTrieHash, 0%nat. split; [done|]. split; [done|]. intros levels maxLevel _.
    exists []. split; [reflexivity|]. by rewrite map_to_list_empty.
  - exists s', s'', (thash t), (tdepth t). split; [done|]. split; [done|]. intros levels maxLevel Hlev.
    apply GetAllLeaves_spec; [done..| |done]. unfold committed in Hcm.
    destruct (root (st_trie s')) as [n|]; [|subst m; by apply holds_nonempty in Ht].
    destruct Hcm as (t' & _ & Hw' & Ht' & Hst').
    assert (t = t') as ->; [|done]. apply canonical; [done..|]. intros hk Hk. by rewrite (Ht hk Hk), (Ht' hk Hk).
Qed.
End props.
