(* ===== verification/TriePruning.v ===== *)
(** * Pruning

    What the eviction waiting list and the pruning of the storage manager
    promise: hashes marked for eviction are given back unchanged wherever they
    were kept, and a prune removes from the database exactly those of them that
    no remaining entry of the list lists, where the prune of an old root looks
    at the entries of new roots only. *)

From S2P Require Import Prelude Common Strconv TrieNode TrieSim TrieStorage PatriciaProps.
From Stdlib Require Import Ascii.
Local Open Scope Z_scope.

Section pruning.
Context {DB : DBWriteCacher} {MBa : Marshalizer Batch} {DL : DBLaws} {BL : BatchLaws}.

(** ** The waiting list *)

Lemma ewl_Put_cached order r hs w :
  Z.of_nat (size (ewl_cache w)) < ewl_cacheSize w ->
  ewl_Put order r hs w = (with_cache (<[r := Some hs]> (ewl_cache w)) w, Ok tt).
Proof. intros Hs. unfold ewl_Put. mrun. by destruct (Z.ltb_spec (Z.of_nat (size (ewl_cache w))) (ewl_cacheSize w)); [|lia]. Qed.

Lemma ewl_Put_spilled order r hs w :
  ewl_cacheSize w <= Z.of_nat (size (ewl_cache w)) ->
  exists d x, ewl_Put order r hs w = (with_ewl_db d (with_cache (<[r := None]> (ewl_cache w)) w), Ok tt) /\
    db_Get d r = Ok x /\ Unmarshal x = Ok {| Data := order hs |}.
Proof.
  intros Hs. unfold ewl_Put. mrun.
  destruct (Z.ltb_spec (Z.of_nat (size (ewl_cache w))) (ewl_cacheSize w)); [lia|].
  destruct (codec_batch {| Data := order hs |}) as (x & -> & Hx). cbn.
  destruct (db_put_total (ewl_db w) r x) as [d Hd]. rewrite Hd. cbn.
  exists d, x. split; [done|]. split; [by eapply db_get_put_eq|done].
Qed.

(** ** The hashes that are still listed *)

(** The entry was made for an old root: its key ends in that identifier. *)
Definition old_root_entry (key : string) : Prop := last_byte key = Some (identifier_byte OldRoot).
(** An entry among those [P] selects lists the hash. *)
Definition listed_in (w : evictionWaitingList) (P : string -> Prop) (x : string) : Prop :=
  exists key e hs, ewl_cache w !! key = Some e /\ P key /\ cached_hashes w key e = Ok hs /\ x ∈ hs.

(** The entries the code looks at: all of them for the prune of a new root, and
    those of new roots only for the prune of an old root.  (The comment on
    [ShouldKeepHash] announces the old roots' entries as well in that case; the
    loop skips them.) *)
Definition entry_counts (i : TriePruningIdentifier) (key : string) : Prop :=
  match i with OldRoot => ~ old_root_entry key | NewRoot => True end.
Abbreviation needed w i x := (listed_in w (entry_counts i) x).

(** Every entry has a proper key, and its hashes can be read. *)
Definition readable (w : evictionWaitingList) : Prop :=
  forall key e, ewl_cache w !! key = Some e -> key <> EmptyString /\ is_ok (cached_hashes w key e) = true.

Lemma last_byte_some key : key <> EmptyString -> is_Some (last_byte key).
Proof. unfold last_byte. destruct key as [|c s]; [done|]. intros _. cbn. destruct (split_last s) as [[]|]; cbn; eauto. Qed.

Lemma identifier_is_old i : identifier_byte i = identifier_byte OldRoot <-> i = OldRoot.
Proof. by destruct i. Qed.

Lemma ShouldKeepHash_spec w keys x i :
  readable w -> (forall key, key ∈ keys -> is_Some (ewl_cache w !! key)) ->
  exists b, ShouldKeepHash w keys x i = Ok b /\
    (b = true <-> exists key e hs, key ∈ keys /\ ewl_cache w !! key = Some e /\ entry_counts i key /\
                    cached_hashes w key e = Ok hs /\ x ∈ hs).
Proof.
  intros Hr. induction keys as [|key keys IH]; intros Hk; cbn [ShouldKeepHash].
  { exists false. split; [done|]. split; [done|]. by intros (key & _ & _ & Hin%elem_of_nil & _). }
  destruct IH as (b & Hb & Hiff); [intros; apply Hk; by right|].
  destruct (Hk key) as [e He]; [by left|]. destruct (Hr key e He) as [Hne Hok].
  destruct (last_byte_some key Hne) as [c Hc]. rewrite Hc, He. cbn [default from_option id].
  destruct (bool_decide (c = identifier_byte OldRoot) &&
            bool_decide (identifier_byte i = identifier_byte OldRoot)) eqn:Hskip.
  - apply andb_true_iff in Hskip as [->%bool_decide_eq_true Hi%bool_decide_eq_true%identifier_is_old].
    exists b. split; [done|]. rewrite Hiff. split.
    + intros (key' & e' & hs & ? & ?). exists key', e', hs. split; [by right|done].
    + intros (key' & e' & hs & [->|Hin]%elem_of_cons & He' & Hcount & ?); [by rewrite Hi in Hcount; destruct Hcount|].
      by exists key', e', hs.
  - assert (entry_counts i key) as Hcount.
    { destruct i; [|done]. intros Hl. unfold old_root_entry in Hl. rewrite Hc in Hl. injection Hl as ->. cbn in Hskip.
      by rewrite bool_decide_eq_true_2 in Hskip. }
    destruct (cached_hashes w key e) as [hs|] eqn:Hch; [|done]. cbn. destruct (decide (x ∈ hs)) as [Hx|Hx].
    + exists true. split; [done|]. split; [|done]. intros _. exists key, e, hs. split; [by left|done].
    + exists b. split; [done|]. rewrite Hiff. split.
      * intros (key' & e' & hs' & ? & ?). exists key', e', hs'. split; [by right|done].
      * intros (key' & e' & hs' & [->|Hin]%elem_of_cons & He' & Hc' & Hch' & Hx'); [congruence|].
        by exists key', e', hs'.
Qed.

(** ** Removing hashes *)

Section order.
Variable cache_order : gmap string (option ModifiedHashes) -> list string.
Variable hash_order : ModifiedHashes -> list string.
(** The orders in which Go visits a map are arbitrary, but visit every key. *)
Hypothesis cache_order_all : forall c key, key ∈ cache_order c <-> is_Some (c !! key).
Hypothesis hash_order_all : forall hs x, x ∈ hash_order hs <-> x ∈ hs.

Lemma keep_decides w x i : readable w ->
  exists b, ShouldKeepHash w (cache_order (ewl_cache w)) x i = Ok b /\ (b = true <-> needed w i x).
Proof.
  intros Hr. destruct (ShouldKeepHash_spec w (cache_order (ewl_cache w)) x i Hr) as (b & Hb & Hiff).
  { intros key. by rewrite cache_order_all. }
  exists b. split; [done|]. rewrite Hiff. split.
  - intros (key & e & hs & _ & ?). by exists key, e, hs.
  - intros (key & e & hs & He & ?). exists key, e, hs. rewrite cache_order_all. eauto.
Qed.

(** The database [d'] has lost exactly the hashes [gone] of [d]. *)
Definition lost (gone : string -> Prop) (d d' : dbT) : Prop :=
  forall h, (gone h -> is_ok (db_Get d' h) = false) /\ (~ gone h -> db_Get d' h = db_Get d h).

Lemma remove_hashes_spec i keys s :
  readable (dbEvictionWaitingList s) -> (forall x, x ∈ keys -> exists h, x = EncodeToString h) ->
  exists d', remove_hashes cache_order i keys s = (with_db d' s, Ok tt) /\
    lost (fun h => EncodeToString h ∈ keys /\ ~ needed (dbEvictionWaitingList s) i (EncodeToString h))
         (tsm_db s) d'.
Proof.
  revert s. induction keys as [|x keys IH]; intros s Hr Hx.
  { exists (tsm_db s). split; [by destruct s|]. intros h. split; [by intros [?%elem_of_nil _]|done]. }
  destruct (Hx x ltac:(by left)) as [hx ->].
  assert (forall y, y ∈ keys -> exists h, y = EncodeToString h) as Hx' by (intros; apply Hx; by right).
  cbn [remove_hashes]. unfold mbind, M_bind, get, lift.
  destruct (keep_decides _ (EncodeToString hx) i Hr) as (b & -> & Hb). destruct b.
  - destruct (IH s Hr Hx') as (d' & -> & Hl). exists d'. split; [done|].
    intros h. destruct (Hl h) as [Hg Hk]. split.
    + intros [[E|Hin]%elem_of_cons Hn]; [|by apply Hg]. rewrite E in Hn. by destruct Hn; apply Hb.
    + intros Hn. apply Hk. intros [Hin ?]. apply Hn. split; [by right|done].
  - rewrite DecodeString_EncodeToString. cbn.
    destruct (db_remove_total (tsm_db s) hx) as [d1 Hd1]. rewrite Hd1. cbn.
    destruct (IH (with_db d1 s)) as (d' & -> & Hl); [done..|]. exists d'. split; [done|].
    assert (~ needed (dbEvictionWaitingList s) i (EncodeToString hx)) as Hnx by by rewrite <- Hb.
    intros h. destruct (Hl h) as [Hg Hk]. cbn in Hg, Hk. split.
    + intros [[E|Hin]%elem_of_cons Hn]; [|by apply Hg]. apply EncodeToString_inj in E. subst h.
      destruct (decide (EncodeToString hx ∈ keys)) as [Hin|Hnin]; [by apply Hg|].
      rewrite Hk; [by eapply db_get_remove_eq|]. by intros [? _].
    + intros Hn. rewrite Hk.
      * eapply db_get_remove_ne; [done|]. intros ->. apply Hn. split; [by left|done].
      * intros [Hin ?]. apply Hn. split; [by right|done].
Qed.

Lemma last_byte_snoc s c : last_byte (s +:+ String c "") = Some c.
Proof.
  unfold last_byte. induction s as [|a s IH]; [done|]. rewrite string_app_cons. cbn.
  destruct (split_last (s +:+ String c "")) as [[]|]; cbn in *; by simplify_eq.
Qed.

(** Marking hashes under a root and evicting that root again. *)
Definition mark_then_evict (r : string) (hs : ModifiedHashes) : M evictionWaitingList trieError ModifiedHashes :=
  _ ← ewl_Put hash_order r hs; Evict r.

(** Marking hashes for eviction and then evicting them gives the same set of
    hashes back, whether the waiting list kept them in memory or spilled them
    to its database, and leaves no entry behind. *)
Theorem evicted_as_marked r hs w :
  hs <> ∅ ->
  exists w', mark_then_evict r hs w = (w', Ok hs) /\ ewl_cache w' = delete r (ewl_cache w).
Proof.
  intros Hne. unfold mark_then_evict. unfold mbind at 1, M_bind at 1. destruct (Z.ltb_spec (Z.of_nat (size (ewl_cache w))) (ewl_cacheSize w)) as [Hs|Hs].
  - rewrite ewl_Put_cached by done. eexists. unfold Evict. mrun.
    cbn [ewl_cache with_cache]. rewrite lookup_insert_eq. unfold cached_hashes. cbn [default].
    rewrite !decide_False by done. split; [reflexivity|]. cbn. by rewrite delete_insert_eq.
  - assert (list_to_set (hash_order hs) = hs) as Hset.
    { apply set_eq. intros y. by rewrite elem_of_list_to_set, hash_order_all. }
    destruct (ewl_Put_spilled hash_order r hs w Hs) as (d & x & -> & Hx & Hu).
    destruct (db_remove_total d r) as [d' Hd'].
    eexists. unfold Evict. mrun.
    cbn [ewl_cache with_cache with_ewl_db]. rewrite lookup_insert_eq. unfold cached_hashes. cbn [default from_option].
    rewrite !decide_True by done. cbn. rewrite Hx. cbn. rewrite Hu. cbn.
    rewrite Hd'. rewrite (decide_True (P := ∅ = ∅)) by done.
    cbn [map_err]. rewrite Hset. split; [reflexivity|]. cbn. by rewrite delete_insert_eq.
Qed.

(** C39: with no operation blocking the pruning, nothing buffered and a waiting
    list whose entries can be read, pruning a root evicts its entry and removes
    from the database some of the hashes marked for it and nothing else.  A new
    root (a block reverted) loses exactly the marked hashes that no remaining
    entry lists; an old root (a block made final) exactly those that no
    remaining entry of a new root lists: contrary to the comment on
    ShouldKeepHash, a hash that only the entry of another old root lists is
    removed. *)
Theorem prune_removes_exactly rootHash i s w hs :
  IsPruningEnabled s = true -> pruningBlockingOps s = 0 -> pruningBuffer s = [] ->
  Evict (with_identifier rootHash i) (dbEvictionWaitingList s) = (w, Ok hs) ->
  readable w -> (forall x, x ∈ hs -> exists h, x = EncodeToString h) ->
  let s' := Prune cache_order hash_order rootHash i s in
  dbEvictionWaitingList s' = w /\
  lost (fun h => EncodeToString h ∈ hs /\
          match i with
          | NewRoot => ~ listed_in w (fun _ => True) (EncodeToString h)
          | OldRoot => ~ listed_in w (fun key => ~ old_root_entry key) (EncodeToString h)
          end) (tsm_db s) (tsm_db s').
Proof.
  intros Hen Hblk Hbuf Hev Hr Hhex s'.
  assert (s' = (remove_hashes cache_order i (hash_order hs) (with_waiting w (with_buffer [] s))).1) as ->.
  { subst s'. unfold Prune. rewrite Hen, Hblk, Hbuf. cbn [negb].
    change (0 <? 0) with false. cbn [resolveBufferedHashes]. unfold prune, removeFromDb. unfold mbind, M_bind.
    unfold on_waiting. cbn [dbEvictionWaitingList with_buffer]. rewrite Hev.
    unfold with_identifier. rewrite last_byte_snoc. by destruct i. }
  destruct (remove_hashes_spec i (hash_order hs) (with_waiting w (with_buffer [] s))) as (d' & -> & Hl).
  { done. }
  { intros x. rewrite hash_order_all. apply Hhex. }
  split; [done|]. intros h. destruct (Hl h) as [Hg Hk]. cbn in Hg, Hk. cbn.
  split; intros Hgone; [apply Hg|apply Hk]; rewrite hash_order_all; by destruct i.
Qed.
End order.
End pruning.
