(* ===== verification/TrieExample.v ===== *)
(** * A concrete trie

    A database that is a finite map, an injective hash and a serializer of the
    stored nodes: what the trie assumes of its database, hasher and serializer
    can hold.  The theorems about the trie are applied to a small trie built on
    them, and the trie is shown to offer what an account's tracked data trie
    relies on ([TrieOps], [TrieLaws]). *)

From S2P Require Import Prelude Common Strconv Codec TrieNode TrieTree TrieSim TrieStorage PatriciaTrie PatriciaProps TriePruning.
From Stdlib Require Import Ascii.
Local Open Scope Z_scope.

(** ** Database, hasher and serializer *)

#[local] Instance map_db : DBWriteCacher := {|
  dbT := gmap string string;
  db_Get := fun d k => match d !! k with Some v => Ok v | None => Err (ErrExternal 2) end;
  db_Put := fun d k v => Ok (<[k := v]> d);
  db_Remove := fun d k => Ok (delete k d);
|}.

#[local] Instance map_db_laws : DBLaws.
Proof.
  split; cbn.
  - intros d d' k v [= <-]. by rewrite lookup_insert_eq.
  - intros d d' k k' v [= <-] Hne. by rewrite lookup_insert_ne.
  - eauto.
  - intros d d' k [= <-]. by rewrite lookup_delete_eq.
  - intros d d' k k' [= <-] Hne. by rewrite lookup_delete_ne.
  - eauto.
Qed.

#[local] Instance tag_hasher : Hasher := { Compute := String "h" }.

#[local] Instance tag_hasher_laws : HasherLaws.
Proof. split; [by intros s s' [= ->]|done..]. Qed.

Definition ser_codec {A} `{Ser A} : Marshalizer A :=
  {| Marshal x := Ok (ser x); Unmarshal := codec_unmarshal; canon := id |}.

#[local] Instance Ser_CollapsedLn : Ser CollapsedLn :=
  Ser_iso (fun l => (ln_Key l, ln_Value l)) (fun p => {| ln_Key := p.1; ln_Value := p.2 |}) ltac:(by intros []).
#[local] Instance Ser_CollapsedEn : Ser CollapsedEn :=
  Ser_iso (fun e => (en_Key e, EncodedChild e)) (fun p => {| en_Key := p.1; EncodedChild := p.2 |})
    ltac:(by intros []).
#[local] Instance Ser_CollapsedBn : Ser CollapsedBn :=
  Ser_iso EncodedChildren Build_CollapsedBn ltac:(by intros []).
#[local] Instance Ser_Batch : Ser Batch := Ser_iso Data Build_Batch ltac:(by intros []).

#[local] Instance codec_CollapsedLn : Marshalizer CollapsedLn := ser_codec.
#[local] Instance codec_CollapsedEn : Marshalizer CollapsedEn := ser_codec.
#[local] Instance codec_CollapsedBn : Marshalizer CollapsedBn := ser_codec.
#[local] Instance codec_Batch : Marshalizer Batch := ser_codec.

Lemma ser_codec_roundtrip {A} `{Ser A} (x : A) :
  exists b, @Marshal _ ser_codec x = Ok b /\ @Unmarshal _ ser_codec b = Ok x.
Proof. eexists. split; [reflexivity|]. apply codec_unmarshal_ser. Qed.

#[local] Instance node_codec_laws : NodeCodecLaws.
Proof. split; intros; apply ser_codec_roundtrip. Qed.
#[local] Instance batch_laws : BatchLaws.
Proof. split; intros; apply ser_codec_roundtrip. Qed.

(** ** A small trie *)

Definition empty_waiting : evictionWaitingList :=
  {| ewl_cache := ∅; ewl_cacheSize := 100; ewl_db := (∅ : gmap string string) |}.
Definition empty_storage : trieStorageManager :=
  {| tsm_db := (∅ : gmap string string); snapshots := []; pruningBuffer := []; pruningBufferLen := 10;
     pruningBlockingOps := 0; dbEvictionWaitingList := empty_waiting; IsPruningEnabled := true |}.
Definition empty_trie_state : trieState :=
  {| st_trie := NewTrie 5; st_storage := empty_storage |}.

Lemma empty_trie_map : trie_map empty_trie_state ∅.
Proof. reflexivity. Qed.

(** Two keys that share their first nibbles. *)
Definition two_keys : trieState :=
  ((Update "dog" (Some "puppy") ;; Update "dig" (Some "hole")) empty_trie_state).1.
Definition two_keys_map : gmap string string := <["dig" := "hole"]> {["dog" := "puppy"]}.

Lemma two_keys_trie_map : trie_map two_keys two_keys_map.
Proof.
  unfold two_keys. unfold mbind, M_bind.
  destruct (Update_spec empty_trie_state ∅ "dog" (Some "puppy") empty_trie_map) as (s1 & -> & _ & H1).
  rewrite decide_False in H1 by done.
  destruct (Update_spec s1 _ "dig" (Some "hole") H1) as (s2 & E & _ & H2). rewrite E.
  by rewrite decide_False in H2.
Qed.

(** The model runs: a read, a deletion, and a commit with a reload. *)
Example get_runs : (Get "dog" two_keys).2 = Ok (Some "puppy").
Proof. vm_compute. reflexivity. Qed.
Example get_absent_runs : (Get "dot" two_keys).2 = Ok None.
Proof. vm_compute. reflexivity. Qed.
Example delete_runs : (Get "dog" (Delete "dog" two_keys).1).2 = Ok None.
Proof. vm_compute. reflexivity. Qed.
Example reload_runs :
  let s := (Commit elements two_keys).1 in
  match RootHash s with
  | (_, Ok h) =>
      match Recreate 10 5 h (st_storage s) with
      | (st, Ok tr) => (Get "dig" {| st_trie := tr; st_storage := st |}).2
      | (_, Err e) => Err e
      end
  | (_, Err e) => Err e
  end = Ok (Some "hole").
Proof. vm_compute. reflexivity. Qed.
Example proof_runs :
  match GetProof "dog" two_keys with
  | (s, Ok p) => (VerifyProof "dog" (Some <$> p) s).2
  | (_, Err e) => Err e
  end = Ok true.
Proof. vm_compute. reflexivity. Qed.

(** ** The theorems at the small trie *)

Lemma trie_refines_map_witness :
  exists s2, Update "cat" (Some "kit") two_keys = (s2, Ok tt) /\
    trie_map s2 (<["cat" := "kit"]> two_keys_map).
Proof. exact (proj1 (proj2 (trie_refines_map two_keys two_keys_map "cat" (Some "kit") two_keys_trie_map))). Defined.

Lemma root_hash_identifies_content_witness :
  exists s1' s2' h1 h2, RootHash two_keys = (s1', Ok h1) /\ RootHash empty_trie_state = (s2', Ok h2) /\
    trie_map s1' two_keys_map /\ trie_map s2' ∅ /\ (h1 = h2 <-> two_keys_map = ∅).
Proof.
  exact (root_hash_identifies_content two_keys two_keys_map empty_trie_state ∅ two_keys_trie_map empty_trie_map).
Defined.

Lemma commit_then_recreate_witness :
  exists s' s'' h, Commit elements two_keys = (s', Ok tt) /\ RootHash s' = (s'', Ok h) /\
    exists tr, Recreate 10 5 h (st_storage s') = (st_storage s', Ok tr) /\
      trie_map {| st_trie := tr; st_storage := st_storage s' |} two_keys_map.
Proof.
  destruct (commit_then_recreate elements two_keys two_keys_map two_keys_trie_map)
    as (s' & s'' & h & Hc & _ & Hr & Hrec & _).
  exists s', s'', h. split; [exact Hc|]. split; [exact Hr|]. exact (Hrec 10%nat 5).
Defined.

Lemma proofs_exactly_for_present_keys_witness :
  exists s' s'' p, GetProof "dog" two_keys = (s', Ok p) /\ trie_map s' two_keys_map /\
    VerifyProof "dog" (Some <$> p) s' = (s'', Ok true).
Proof.
  apply (proj1 (proofs_exactly_for_present_keys two_keys two_keys_map "dog" two_keys_trie_map)).
  exists "puppy". reflexivity.
Defined.

Lemma leaves_listed_once_witness :
  exists s' s'' h depth, Commit elements two_keys = (s', Ok tt) /\ RootHash s' = (s'', Ok h) /\
    forall levels maxLevel, (depth <= levels)%nat ->
      exists l, GetAllLeaves levels maxLevel h (st_storage s') = (st_storage s', Ok l) /\
        l ≡ₚ map_to_list two_keys_map.
Proof. exact (leaves_listed_once elements two_keys two_keys_map two_keys_trie_map). Defined.

(** ** Pruning *)

Definition keys_of (c : gmap string (option ModifiedHashes)) : list string := (map_to_list c).*1.

Lemma keys_of_all c key : key ∈ keys_of c <-> is_Some (c !! key).
Proof.
  unfold keys_of. rewrite list_elem_of_fmap. split.
  - intros ([k v] & -> & Hin). apply elem_of_map_to_list in Hin. cbn. eauto.
  - intros [v Hv]. exists (key, v). by rewrite elem_of_map_to_list.
Qed.

Lemma elements_all (hs : ModifiedHashes) x : x ∈ elements hs <-> x ∈ hs.
Proof. apply elem_of_elements. Qed.

(** Two nodes ["na"] and ["nb"] are marked for the old root ["r0"]; the second
    one belongs to the new root ["r1"] too. *)
Definition old_marks : ModifiedHashes := {[EncodeToString "na"; EncodeToString "nb"]}.
Definition new_marks : ModifiedHashes := {[EncodeToString "nb"]}.
Definition marked_waiting : evictionWaitingList :=
  {| ewl_cache := <[with_identifier "r0" OldRoot := Some old_marks]>
                    {[with_identifier "r1" NewRoot := Some new_marks]};
     ewl_cacheSize := 100; ewl_db := (∅ : gmap string string) |}.
Definition marked_storage : trieStorageManager :=
  {| tsm_db := (<["na" := "A"]> {["nb" := "B"]} : gmap string string); snapshots := []; pruningBuffer := [];
     pruningBufferLen := 10; pruningBlockingOps := 0; dbEvictionWaitingList := marked_waiting;
     IsPruningEnabled := true |}.
Definition pruned_waiting : evictionWaitingList := (Evict (with_identifier "r0" OldRoot) marked_waiting).1.

Lemma pruned_waiting_entries key e :
  ewl_cache pruned_waiting !! key = Some e -> key = with_identifier "r1" NewRoot /\ e = Some new_marks.
Proof.
  change (ewl_cache pruned_waiting) with
    (delete (with_identifier "r0" OldRoot) (<[with_identifier "r0" OldRoot := Some old_marks]>
       ({[with_identifier "r1" NewRoot := Some new_marks]} : gmap string (option ModifiedHashes)))).
  rewrite delete_insert_eq, delete_id by by vm_compute.
  intros [<- <-]%lookup_singleton_Some. done.
Qed.

Lemma new_marks_nonempty : new_marks <> ∅.
Proof. apply non_empty_singleton_L. Qed.

Lemma evicted_as_marked_witness :
  exists w', mark_then_evict elements "r2" new_marks empty_waiting = (w', Ok new_marks) /\
    ewl_cache w' = delete "r2" (ewl_cache empty_waiting).
Proof. apply (evicted_as_marked elements elements_all). exact new_marks_nonempty. Defined.

Lemma prune_removes_exactly_witness :
  let s' := Prune keys_of elements "r0" OldRoot marked_storage in
  is_ok (db_Get (tsm_db s') "na") = false /\ db_Get (tsm_db s') "nb" = Ok "B".
Proof.
  destruct (prune_removes_exactly keys_of elements keys_of_all elements_all "r0" OldRoot marked_storage
              pruned_waiting old_marks) as [_ Hl].
  - reflexivity.
  - reflexivity.
  - reflexivity.
  - vm_compute. reflexivity.
  - intros key e [-> ->]%pruned_waiting_entries. split; [discriminate|vm_compute; reflexivity].
  - intros x [->%elem_of_singleton| ->%elem_of_singleton]%elem_of_union; eauto.
  - split; [apply (proj1 (Hl "na"))|rewrite (proj2 (Hl "nb")); [reflexivity|]].
    + split; [apply elem_of_union; left; by apply elem_of_singleton|].
      intros (key & e & hs & [-> ->]%pruned_waiting_entries & _ & Hh & Hin).
      unfold cached_hashes in Hh. rewrite decide_False in Hh by exact new_marks_nonempty. injection Hh as <-.
      apply elem_of_singleton in Hin. discriminate.
    + intros [_ Hn]. apply Hn. exists (with_identifier "r1" NewRoot), (Some new_marks), new_marks.
      split_and!; [vm_compute; reflexivity|intros E; vm_compute in E; discriminate|vm_compute; reflexivity|by apply elem_of_singleton].
Defined.
