(* ===== verification/AccountsDB.v ===== *)
(** * The accounts database

    [data/state/accountsDB.go], [journalEntries.go], [dataTriesHolder.go]:
    accounts are leaves of the main trie, each with a data trie of its own;
    contract code is kept in the main trie too, with a reference count.  Every
    change of a trie is journalized so that it can be undone.

    Tries and account objects are shared by reference in the code (a data trie by
    the account, the holder and the journal; an account by its caller and the
    journal), so both live in heaps here and are named by their position. *)

From S2P Require Import Prelude Common Strconv TrieNode TrieStorage PatriciaTrie.
Local Open Scope Z_scope.

(** ** Data *)

(** The message of the accounts a database keeps ([UserAccountData],
    [KAppAccountData] or [PeerAccountData]), as far as the database looks into
    it, and a new one for an address ([AccountFactory.CreateAccount]). *)
Class AccountData (T : Type) : Type := {
  new_data : string -> T;
  GetRootHash : T -> string;
  SetRootHash : string -> T -> T;
  GetCodeHash : T -> string;
  SetCodeHash : string -> T -> T;
}.

Record CodeEntry : Type := { Code : string; NumReferences : Z }.

Inductive adbError : Type :=
| AdbErr (e : error) | AdbTrieErr (e : trieError)
| ErrNilAccountHandler | ErrSnapshotValueOutOfBounds | ErrInvalidAddressLength
| ErrNilOrEmptyDataTrieUpdates | ErrInvalidRootHash | ErrMissingTrie (rootHash : string)
| AdbPanic.

(** An account object: the [baseAccount] with its data trie tracker, and the
    account's message. *)
Record account (T : Type) : Type := {
  acc_address : string;
  acc_dirty : gmap string string;
  acc_trie : option nat;
  acc_code : string;
  acc_hasNewCode : bool;
  acc_data : T;
}.
Arguments acc_address {T}. Arguments acc_dirty {T}. Arguments acc_trie {T}.
Arguments acc_code {T}. Arguments acc_hasNewCode {T}. Arguments acc_data {T}.

Definition with_acc_data {T} (f : T -> T) (a : account T) : account T :=
  {| acc_address := acc_address a; acc_dirty := acc_dirty a; acc_trie := acc_trie a;
     acc_code := acc_code a; acc_hasNewCode := acc_hasNewCode a; acc_data := f (acc_data a) |}.
Definition with_acc_trie {T} (p : nat) (a : account T) : account T :=
  {| acc_address := acc_address a; acc_dirty := acc_dirty a; acc_trie := Some p;
     acc_code := acc_code a; acc_hasNewCode := acc_hasNewCode a; acc_data := acc_data a |}.
Definition with_acc_dirty {T} (d : gmap string string) (a : account T) : account T :=
  {| acc_address := acc_address a; acc_dirty := d; acc_trie := acc_trie a;
     acc_code := acc_code a; acc_hasNewCode := acc_hasNewCode a; acc_data := acc_data a |}.

(** The journal.  [updater] and [trie] point to the main trie at the time of the
    entry; the map of obsolete hashes an entry refers to is the one of the
    database, which is replaced only when the journal is emptied. *)
Inductive JournalEntry (T : Type) : Type :=
| journalEntryAccount (a : account T)
| journalEntryAccountCreation (addr : string) (updater : nat)
| journalEntryAccountDataTrieUpdates (trieUpdates : gmap string slice) (l : nat)
| journalEntryAccountDataTrieRemove (rootHash : string)
| journalEntryCode (oldCodeEntry : option CodeEntry) (oldCodeHash newCodeHash : string) (trie : nat).
Arguments journalEntryAccount {T}. Arguments journalEntryAccountCreation {T}.
Arguments journalEntryAccountDataTrieUpdates {T}. Arguments journalEntryAccountDataTrieRemove {T}.
Arguments journalEntryCode {T}.

Section adb.
Context {DB : DBWriteCacher} {HS : Hasher} {MBa : Marshalizer Batch}.
Context {ML : Marshalizer CollapsedLn} {ME : Marshalizer CollapsedEn} {MB : Marshalizer CollapsedBn}.
Context {T : Type} {AD : AccountData T} {MT : Marshalizer T} {MC : Marshalizer CodeEntry}.

Record AccountsDB : Type := {
  mainTrie : nat;
  userAccounts : bool; (* whether the factory makes user accounts *)
  obsoleteDataTrieHashes : gmap string (list string);
  lastRootHash : string;
  dataTries : gmap string nat;
  entries : list (JournalEntry T);
}.

Record adbState : Type := {
  db : AccountsDB;
  tries : list patriciaMerkleTrie;
  storage : trieStorageManager;
  objects : list (account T);
}.

Definition with_adb (d : AccountsDB) (s : adbState) : adbState :=
  {| db := d; tries := tries s; storage := storage s; objects := objects s |}.
Definition with_tries (ts : list patriciaMerkleTrie) (s : adbState) : adbState :=
  {| db := db s; tries := ts; storage := storage s; objects := objects s |}.
Definition with_storage (st : trieStorageManager) (s : adbState) : adbState :=
  {| db := db s; tries := tries s; storage := st; objects := objects s |}.
Definition with_objects (os : list (account T)) (s : adbState) : adbState :=
  {| db := db s; tries := tries s; storage := storage s; objects := os |}.

Definition with_mainTrie (p : nat) (d : AccountsDB) : AccountsDB :=
  {| mainTrie := p; userAccounts := userAccounts d; obsoleteDataTrieHashes := obsoleteDataTrieHashes d;
     lastRootHash := lastRootHash d; dataTries := dataTries d; entries := entries d |}.
Definition with_obsolete (o : gmap string (list string)) (d : AccountsDB) : AccountsDB :=
  {| mainTrie := mainTrie d; userAccounts := userAccounts d; obsoleteDataTrieHashes := o;
     lastRootHash := lastRootHash d; dataTries := dataTries d; entries := entries d |}.
Definition with_lastRootHash (h : string) (d : AccountsDB) : AccountsDB :=
  {| mainTrie := mainTrie d; userAccounts := userAccounts d; obsoleteDataTrieHashes := obsoleteDataTrieHashes d;
     lastRootHash := h; dataTries := dataTries d; entries := entries d |}.
Definition with_dataTries (t : gmap string nat) (d : AccountsDB) : AccountsDB :=
  {| mainTrie := mainTrie d; userAccounts := userAccounts d; obsoleteDataTrieHashes := obsoleteDataTrieHashes d;
     lastRootHash := lastRootHash d; dataTries := t; entries := entries d |}.
Definition with_entries (es : list (JournalEntry T)) (d : AccountsDB) : AccountsDB :=
  {| mainTrie := mainTrie d; userAccounts := userAccounts d; obsoleteDataTrieHashes := obsoleteDataTrieHashes d;
     lastRootHash := lastRootHash d; dataTries := dataTries d; entries := es |}.

Abbreviation AM := (M adbState adbError).
Abbreviation JEntry := (JournalEntry T).

(** ** The heaps *)

Definition upd_adb (f : AccountsDB -> AccountsDB) : AM unit := modify (fun s => with_adb (f (db s)) s).

(** Calling a method of a trie. *)
Definition on_trie {A} (p : nat) (m : M trieState trieError A) : AM A := fun s =>
  match tries s !! p with
  | None => (s, Err AdbPanic)
  | Some t =>
      let '(ts, r) := m {| st_trie := t; st_storage := storage s |} in
      (with_storage (st_storage ts) (with_tries (<[p := st_trie ts]> (tries s)) s), map_err AdbTrieErr r)
  end.

Definition new_trie (t : patriciaMerkleTrie) : AM nat := fun s =>
  (with_tries (tries s ++ [t]) s, Ok (length (tries s))).

Definition on_main {A} (m : M trieState trieError A) : AM A :=
  s ← get; on_trie (mainTrie (db s)) m.

(** [levels] bounds the walks over a whole trie. *)
Variable levels : nat.

(** [mainTrie.Recreate]. *)
Definition main_Recreate (rootHash : string) : AM nat :=
  s ← get;
  match tries s !! mainTrie (db s) with
  | None => fail AdbPanic
  | Some t =>
      let '(st, r) := Recreate levels (maxTrieLevelInMemory t) rootHash (storage s) in
      _ ← put (with_storage st s);
      newTr ← lift (map_err AdbTrieErr r);
      new_trie newTr
  end.

Definition object (l : nat) : AM (account T) :=
  s ← get; match objects s !! l with None => fail ErrNilAccountHandler | Some a => mret a end.
Definition set_object (l : nat) (f : account T -> account T) : AM unit :=
  modify (fun s => with_objects (alter f l (objects s)) s).
Definition new_object (a : account T) : AM nat := fun s =>
  (with_objects (objects s ++ [a]) s, Ok (length (objects s))).

Definition journalize (e : JEntry) : AM unit := upd_adb (fun d => with_entries (entries d ++ [e]) d).

(** ** Reading accounts *)

(** [AccountFactory.CreateAccount], the same in the three factories. *)
Definition CreateAccount (addr : string) : res adbError (account T) :=
  if slen addr =? 0 then Err (AdbErr ErrNilAddress)
  else Ok {| acc_address := addr; acc_dirty := ∅; acc_trie := None; acc_code := EmptyString;
             acc_hasNewCode := false; acc_data := new_data addr |}.

Definition getAccount (addr : string) : AM (option (account T)) :=
  val ← on_main (Get addr);
  match val with
  | None => mret None
  | Some v =>
      acnt ← lift (CreateAccount addr);
      d ← lift (map_err AdbErr (Unmarshal v));
      mret (Some (with_acc_data (fun _ => d) acnt))
  end.

(** The trie of an account is shared through the holder. *)
Definition loadDataTrie (a : account T) : AM (account T) :=
  if slen (GetRootHash (acc_data a)) =? 0 then mret a else
  s ← get;
  match dataTries (db s) !! acc_address a with
  | Some p => mret (with_acc_trie p a)
  | None =>
      p ← with_err (fun _ => ErrMissingTrie (GetRootHash (acc_data a))) (main_Recreate (GetRootHash (acc_data a)));
      _ ← upd_adb (fun d => with_dataTries (<[acc_address a := p]> (dataTries d)) d);
      mret (with_acc_trie p a)
  end.

Definition LoadAccount (addr : string) : AM nat :=
  _ ← reject_if (slen addr =? 0) (AdbErr ErrNilAddress);
  acnt ← getAccount addr;
  match acnt with
  | None => a ← lift (CreateAccount addr); new_object a
  | Some a => a ← loadDataTrie a; new_object a
  end.

Definition GetExistingAccount (addr : string) : AM nat :=
  _ ← reject_if (slen addr =? 0) (AdbErr ErrNilAddress);
  acnt ← getAccount addr;
  match acnt with
  | None => fail (AdbErr ErrAccNotFound)
  | Some a => a ← loadDataTrie a; new_object a
  end.

(** ** Contract code *)

Definition getCodeEntry (codeHash : string) (trie : nat) : AM (option CodeEntry) :=
  val ← on_trie trie (Get codeHash);
  if slen (bytes_of val) =? 0 then mret None
  else e ← lift (map_err AdbErr (Unmarshal (bytes_of val))); mret (Some e).

(** A nil entry serializes to nothing. *)
Definition saveCodeEntry (codeHash : string) (entry : option CodeEntry) (trie : nat) : AM unit :=
  codeEntry ← lift (match entry with Some e => map_err AdbErr (Marshal e) | None => Ok EmptyString end);
  on_trie trie (Update codeHash (Some codeEntry)).

Definition with_refs (n : Z) (e : CodeEntry) : CodeEntry := {| Code := Code e; NumReferences := n |}.

Definition updateOldCodeEntry (oldCodeHash : string) : AM (option CodeEntry) :=
  s ← get;
  let main := mainTrie (db s) in
  oldCodeEntry ← getCodeEntry oldCodeHash main;
  match oldCodeEntry with
  | None => mret None
  | Some e =>
      if NumReferences e <=? 1 then
        _ ← on_main (Update oldCodeHash None); mret (Some e)
      else
        _ ← saveCodeEntry oldCodeHash (Some (with_refs (NumReferences e - 1) e)) main; mret (Some e)
  end.

Definition updateNewCodeEntry (newCodeHash newCode : string) : AM unit :=
  if slen newCode =? 0 then mret tt else
  s ← get;
  let main := mainTrie (db s) in
  entry ← getCodeEntry newCodeHash main;
  let e := default {| Code := newCode; NumReferences := 0 |} entry in
  saveCodeEntry newCodeHash (Some (with_refs (wrap_u32 (NumReferences e + 1)) e)) main.

Definition saveCode (l : nat) (oldAccount : option (account T)) : AM unit :=
  s ← get;
  if negb (userAccounts (db s)) then mret tt else
  a ← object l;
  if negb (acc_hasNewCode a) then mret tt else
  let oldCodeHash := from_option (fun o => GetCodeHash (acc_data o)) EmptyString oldAccount in
  let newCode := acc_code a in
  let newCodeHash := if slen newCode =? 0 then EmptyString else Compute newCode in
  if str_eqb oldCodeHash newCodeHash then set_object l (with_acc_data (SetCodeHash newCodeHash))
  else
    unmodifiedOldCodeEntry ← updateOldCodeEntry oldCodeHash;
    _ ← updateNewCodeEntry newCodeHash newCode;
    s ← get;
    _ ← journalize (journalEntryCode unmodifiedOldCodeEntry oldCodeHash newCodeHash (mainTrie (db s)));
    set_object l (with_acc_data (SetCodeHash newCodeHash)).

(** ** Saving accounts *)

Section orders.
(** The orders in which Go visits the maps involved. *)
Variable dirty_order : gmap string string -> list (string * string).
Variable updates_order : gmap string slice -> list (string * slice).

Fixpoint write_dirty (p : nat) (dirty : list (string * string)) (oldValues : gmap string slice)
  : AM (gmap string slice) :=
  match dirty with
  | [] => mret oldValues
  | (k, v) :: dirty =>
      val ← on_trie p (Get k);
      _ ← on_trie p (Update k (Some v));
      write_dirty p dirty (<[k := val]> oldValues)
  end.

Definition AccountsDB_saveDataTrie (l : nat) : AM unit :=
  a ← object l;
  if decide (acc_dirty a = ∅) then mret tt else
  p ← match acc_trie a with
      | Some p => mret p
      | None =>
          p ← main_Recreate EmptyString;
          _ ← set_object l (with_acc_trie p);
          _ ← upd_adb (fun d => with_dataTries (<[acc_address a := p]> (dataTries d)) d);
          mret p
      end;
  oldValues ← write_dirty p (dirty_order (acc_dirty a)) ∅;
  _ ← reject_if (bool_decide (oldValues = ∅)) ErrNilOrEmptyDataTrieUpdates;
  _ ← journalize (journalEntryAccountDataTrieUpdates oldValues l);
  rootHash ← on_trie p PatriciaTrie.RootHash;
  _ ← set_object l (with_acc_data (SetRootHash rootHash));
  set_object l (with_acc_dirty ∅).

Definition saveAccountToTrie (a : account T) : AM unit :=
  buff ← lift (map_err AdbErr (Marshal (acc_data a)));
  on_main (Update (acc_address a) (Some buff)).

Definition ImportAccount (l : nat) : AM unit := a ← object l; saveAccountToTrie a.

Definition SaveAccount (l : nat) : AM unit :=
  a ← object l;
  oldAccount ← getAccount (acc_address a);
  s ← get;
  _ ← match oldAccount with
      | None =>
          _ ← reject_if (slen (acc_address a) =? 0) ErrInvalidAddressLength;
          journalize (journalEntryAccountCreation (acc_address a) (mainTrie (db s)))
      | Some o => journalize (journalEntryAccount o)
      end;
  _ ← AccountsDB_saveDataTrie l;
  _ ← saveCode l oldAccount;
  a ← object l;
  saveAccountToTrie a.

Fixpoint SaveAccounts (ls : list nat) : AM unit :=
  match ls with
  | [] => mret tt
  | l :: ls => _ ← SaveAccount l; SaveAccounts ls
  end.

(** ** Removing accounts *)

Definition removeCode (a : account T) : AM unit :=
  let oldCodeHash := GetCodeHash (acc_data a) in
  unmodifiedOldCodeEntry ← updateOldCodeEntry oldCodeHash;
  s ← get;
  journalize (journalEntryCode unmodifiedOldCodeEntry oldCodeHash EmptyString (mainTrie (db s))).

Definition removeDataTrie (a : account T) : AM unit :=
  let rootHash := GetRootHash (acc_data a) in
  if slen rootHash =? 0 then mret tt else
  p ← main_Recreate rootHash;
  hashes ← on_trie p (GetAllHashes levels);
  _ ← upd_adb (fun d => with_obsolete (<[rootHash := hashes]> (obsoleteDataTrieHashes d)) d);
  journalize (journalEntryAccountDataTrieRemove rootHash).

(** [loaded addr] is the account that is about to be removed, journalized. *)
Definition load_for_removal (addr : string) : AM (account T) :=
  _ ← reject_if (slen addr =? 0) (AdbErr ErrNilAddress);
  acnt ← getAccount addr;
  match acnt with
  | None => fail (AdbErr ErrAccNotFound)
  | Some a => _ ← journalize (journalEntryAccount a); mret a
  end.

Definition RemoveAccountCode (addr : string) : AM unit :=
  a ← load_for_removal addr;
  s ← get;
  if userAccounts (db s) then removeCode a else mret tt.

Definition RemoveAccount (addr : string) : AM unit :=
  a ← load_for_removal addr;
  s ← get;
  _ ← (if userAccounts (db s) then _ ← removeCode a; removeDataTrie a else mret tt);
  on_main (Update addr (Some EmptyString)).

(** ** Undoing *)

Fixpoint restore_values (p : nat) (updates : list (string * slice)) : AM unit :=
  match updates with
  | [] => mret tt
  | (k, v) :: updates => _ ← on_trie p (Update k v); restore_values p updates
  end.

Definition revertOldCodeEntry (oldCodeEntry : option CodeEntry) (oldCodeHash : string) (trie : nat) : AM unit :=
  if slen oldCodeHash =? 0 then mret tt else saveCodeEntry oldCodeHash oldCodeEntry trie.

Definition revertNewCodeEntry (newCodeHash : string) (trie : nat) : AM unit :=
  newCodeEntry ← getCodeEntry newCodeHash trie;
  match newCodeEntry with
  | None => mret tt
  | Some e =>
      if NumReferences e <=? 1 then on_trie trie (Update newCodeHash None)
      else saveCodeEntry newCodeHash (Some (with_refs (NumReferences e - 1) e)) trie
  end.

Definition journalEntryAccountDataTrieUpdates_Revert (updates : gmap string slice) (l : nat)
  : AM (option (account T)) :=
  a ← object l;
  match acc_trie a with
  | None => fail AdbPanic
  | Some p =>
      _ ← restore_values p (updates_order updates);
      rootHash ← on_trie p PatriciaTrie.RootHash;
      _ ← set_object l (with_acc_data (SetRootHash rootHash));
      a ← object l; mret (Some a)
  end.

Definition journalEntryCode_Revert (oldCodeEntry : option CodeEntry) (oldCodeHash newCodeHash : string) (trie : nat)
  : AM (option (account T)) :=
  if str_eqb oldCodeHash newCodeHash then mret None else
  _ ← revertOldCodeEntry oldCodeEntry oldCodeHash trie;
  _ ← revertNewCodeEntry newCodeHash trie;
  mret None.

(** [JournalAccountEntry.Revert]: the account to save again, if any. *)
Definition Revert (e : JEntry) : AM (option (account T)) :=
  match e with
  | journalEntryAccount a => mret (Some a)
  | journalEntryAccountCreation addr updater => _ ← on_trie updater (Update addr None); mret None
  | journalEntryAccountDataTrieUpdates updates l => journalEntryAccountDataTrieUpdates_Revert updates l
  | journalEntryAccountDataTrieRemove rootHash =>
      _ ← upd_adb (fun d => with_obsolete (delete rootHash (obsoleteDataTrieHashes d)) d); mret None
  | journalEntryCode oldCodeEntry oldCodeHash newCodeHash trie =>
      journalEntryCode_Revert oldCodeEntry oldCodeHash newCodeHash trie
  end.

(** The entries are given last first. *)
Fixpoint revert_entries (es : list JEntry) : AM unit :=
  match es with
  | [] => mret tt
  | e :: es =>
      acnt ← Revert e;
      _ ← match acnt with None => mret tt | Some a => saveAccountToTrie a end;
      revert_entries es
  end.

Definition recreateTrie (rootHash : string) : AM unit :=
  _ ← upd_adb (fun d => with_entries [] (with_dataTries ∅ (with_obsolete ∅ d)));
  p ← main_Recreate rootHash;
  upd_adb (with_mainTrie p).

Definition RevertToSnapshot (snapshot : Z) : AM unit :=
  s ← get;
  let es := entries (db s) in
  _ ← reject_if ((Z.of_nat (length es) <? snapshot) || (snapshot <? 0)) ErrSnapshotValueOutOfBounds;
  if snapshot =? 0 then recreateTrie (lastRootHash (db s))
  else
    _ ← revert_entries (rev (drop (Z.to_nat snapshot) es));
    upd_adb (fun d => with_entries (take (Z.to_nat snapshot) (entries d)) d).

Definition JournalLen (s : adbState) : Z := Z.of_nat (length (entries (db s))).

(** ** Committing *)

Variable holder_order : gmap string nat -> list nat.
Variable obsolete_order : gmap string (list string) -> list (list string).
Variable hash_order : gset string -> list string.

Fixpoint commit_data_tries (ps : list nat) (oldHashes : list string) (newHashes : gset string)
  : AM (list string * gset string) :=
  match ps with
  | [] => mret (oldHashes, newHashes)
  | p :: ps =>
      oldTrieHashes ← on_trie p ResetOldHashes;
      newTrieHashes ← on_trie p GetDirtyHashes;
      _ ← on_trie p (Commit hash_order);
      commit_data_tries ps (oldHashes ++ oldTrieHashes) (newHashes ∪ newTrieHashes)
  end.

(** The main trie, with the hashes of all tries for the eviction list. *)
Definition commit_main (oldHashes : list string) (newHashes : gset string) : AM string :=
  newTrieHashes ← on_main GetDirtyHashes;
  s ← get;
  let oldHashes := oldHashes ++ concat (obsolete_order (obsoleteDataTrieHashes (db s))) in
  _ ← on_main (modify (upd_trie (SetNewHashes (newHashes ∪ newTrieHashes))));
  _ ← on_main (AppendToOldHashes oldHashes);
  _ ← on_main (Commit hash_order);
  on_main PatriciaTrie.RootHash.

Definition AccountsDB_Commit : AM string :=
  _ ← upd_adb (with_entries []);
  s ← get;
  '(oldHashes, newHashes) ← commit_data_tries (holder_order (dataTries (db s))) [] ∅;
  _ ← upd_adb (with_dataTries ∅);
  root ← commit_main oldHashes newHashes;
  _ ← upd_adb (fun d => with_obsolete ∅ (with_lastRootHash root d));
  mret root.

Definition AccountsDB_RootHash : AM string := on_main PatriciaTrie.RootHash.

Definition RecreateTrie (rootHash : string) : AM unit :=
  _ ← recreateTrie rootHash;
  upd_adb (with_lastRootHash rootHash).

(** ** Pruning, code *)

Variable cache_order : gmap string (option (gset string)) -> list string.

Definition PruneTrie (rootHash : string) (i : TriePruningIdentifier) (s : adbState) : adbState :=
  with_storage (Prune cache_order hash_order rootHash i (storage s)) s.
Definition AccountsDB_CancelPrune (rootHash : string) (i : TriePruningIdentifier) (s : adbState) : adbState :=
  with_storage (CancelPrune rootHash i (storage s)) s.

(** A failing read gives no code. *)
Definition GetCode (codeHash : string) (s : adbState) : adbState * string :=
  if slen codeHash =? 0 then (s, EmptyString) else
  match on_main (Get codeHash) s with
  | (s', Ok val) =>
      match Unmarshal (bytes_of val) with
      | Ok e => (s', Code e)
      | Err _ => (s', EmptyString)
      end
  | (s', Err _) => (s', EmptyString)
  end.
End orders.
End adb.
