(* ===== verification/AccountsTries.v ===== *)
(** * The accounts database over maps

    Which finite maps the tries of an accounts database stand for, what the
    steps of the database's operations do to them, and what undoing a journal
    entry does: each kind of entry undoes the change it was written for, up to
    the account it belongs to, whose own entry comes first.  Tries that nothing
    refers to any more are not followed. *)

From S2P Require Import Prelude Common TrieNode TrieTree TrieSim TrieStorage PatriciaTrie PatriciaProps AccountsDB.
Local Open Scope Z_scope.

(** What the database relies on from the serializer: a code entry that is in use
    is read back and takes at least a byte, an account's message is read back up
    to its normal form, which has the same encoding. *)
Class CodeCodecLaws {MC : Marshalizer CodeEntry} : Prop := {
  codec_code : forall e, 0 < NumReferences e < 2 ^ 32 ->
    exists b, Marshal e = Ok b /\ b <> EmptyString /\ Unmarshal b = Ok e;
}.

Class AccountCodecLaws {T : Type} {AD : AccountData T} {MT : Marshalizer T} : Prop := {
  codec_account : forall d : T, exists b, Marshal d = Ok b /\ Unmarshal b = Ok (canon d) /\
    Marshal (canon d) = Ok b;
  canon_CodeHash : forall d, GetCodeHash (canon d) = GetCodeHash d;
  canon_RootHash : forall d, GetRootHash (canon d) = GetRootHash d;
  code_of_SetRootHash : forall h d, GetCodeHash (SetRootHash h d) = GetCodeHash d;
  code_of_SetCodeHash : forall h d, GetCodeHash (SetCodeHash h d) = h;
  root_of_SetRootHash : forall h d, GetRootHash (SetRootHash h d) = h;
  root_of_SetCodeHash : forall h d, GetRootHash (SetCodeHash h d) = GetRootHash d;
  code_of_new : forall a, GetCodeHash (new_data a) = EmptyString;
}.

(** ** Writing to a map that holds no empty values *)

Abbreviation kvmap := (gmap string string) (only parsing).

Definition nonempty (v : slice) : option string :=
  if decide (bytes_of v = EmptyString) then None else Some (bytes_of v).
Definition write (k : string) (v : slice) (m : kvmap) : kvmap := partial_alter (fun _ => nonempty v) k m.
Definition write_all (ups : gmap string slice) (m : kvmap) : kvmap :=
  base.merge (fun u x => match u with Some v => nonempty v | None => x end) ups m.

Definition no_empty (m : kvmap) : Prop := forall k, m !! k <> Some EmptyString.

Lemma nonempty_not_empty v : nonempty v <> Some EmptyString.
Proof. unfold nonempty. case_decide; congruence. Qed.

Lemma nonempty_lookup (m : kvmap) k : no_empty m -> nonempty (m !! k) = m !! k.
Proof.
  intros Hn. unfold nonempty. specialize (Hn k). destruct (m !! k) as [v|]; cbn; [|done].
  case_decide; congruence.
Qed.

Lemma lookup_write k v m k' : write k v m !! k' = if decide (k = k') then nonempty v else m !! k'.
Proof. unfold write. rewrite lookup_partial_alter. by case_decide. Qed.

Lemma lookup_write_all ups m k :
  write_all ups m !! k = match ups !! k with Some v => nonempty v | None => m !! k end.
Proof. unfold write_all. rewrite lookup_merge. unfold diag_None. by destruct (ups !! k), (m !! k). Qed.

Lemma write_eq k v (m : kvmap) :
  (if decide (bytes_of v = EmptyString) then delete k m else <[k := bytes_of v]> m) = write k v m.
Proof. unfold write, nonempty. by case_decide. Qed.

Lemma no_empty_write k v m : no_empty m -> no_empty (write k v m).
Proof. intros Hn k'. rewrite lookup_write. case_decide; [apply nonempty_not_empty|apply Hn]. Qed.

Lemma no_empty_write_all ups m : no_empty m -> no_empty (write_all ups m).
Proof. intros Hn k'. rewrite lookup_write_all. case_match; [apply nonempty_not_empty|apply Hn]. Qed.

Lemma write_write k v v' m : write k v (write k v' m) = write k v m.
Proof. apply map_eq. intros k'. rewrite !lookup_write. by case_decide. Qed.

Lemma write_comm k k' v v' m : k <> k' -> write k v (write k' v' m) = write k' v' (write k v m).
Proof. intros Hne. apply map_eq. intros x. rewrite !lookup_write. repeat case_decide; congruence. Qed.

Lemma write_id k m : no_empty m -> write k (m !! k) m = m.
Proof.
  intros Hn. apply map_eq. intros x. rewrite lookup_write, nonempty_lookup by done.
  case_decide; congruence.
Qed.

Lemma write_id' k v m : no_empty m -> m !! k = v -> write k v m = m.
Proof. intros Hn <-. by apply write_id. Qed.

Lemma write_absent k (v : slice) m : nonempty v = None -> m !! k = None -> write k v m = m.
Proof. intros Hv Hk. apply map_eq. intros x. rewrite lookup_write. case_decide; congruence. Qed.

(** The values under the keys of [ups], for writing them back. *)
Definition saved_values {A} (ups : gmap string A) (m : kvmap) : gmap string slice :=
  map_imap (fun k _ => Some (m !! k)) ups.

Lemma restore_saved (ups : gmap string slice) m :
  no_empty m -> write_all (saved_values ups m) (write_all ups m) = m.
Proof.
  intros Hn. apply map_eq. intros k. rewrite !lookup_write_all. unfold saved_values.
  rewrite map_lookup_imap. destruct (ups !! k); cbn; [by apply nonempty_lookup|done].
Qed.

(** ** Contract code in the main trie *)

Section code.
Context {MC : Marshalizer CodeEntry} {CC : CodeCodecLaws}.

Definition code_at (h : string) (m : kvmap) : option CodeEntry :=
  match m !! h with
  | Some v => match Unmarshal v with Ok e => Some e | Err _ => None end
  | None => None
  end.

Definition code_bytes_of (e : option CodeEntry) : string :=
  match e with Some e => from_ok EmptyString (Marshal e) | None => EmptyString end.
Definition code_write (h : string) (e : option CodeEntry) (m : kvmap) : kvmap :=
  write h (Some (code_bytes_of e)) m.

(** One reference less, and one more. *)
Definition code_dec (h : string) (m : kvmap) : kvmap :=
  match code_at h m with
  | None => m
  | Some e =>
      if NumReferences e <=? 1 then write h None m
      else code_write h (Some (with_refs (NumReferences e - 1) e)) m
  end.
Definition code_inc (h newCode : string) (m : kvmap) : kvmap :=
  if slen newCode =? 0 then m else
  let e := default {| Code := newCode; NumReferences := 0 |} (code_at h m) in
  code_write h (Some (with_refs (wrap_u32 (NumReferences e + 1)) e)) m.

Definition code_undo (oldEntry : option CodeEntry) (oldHash newHash : string) (m : kvmap) : kvmap :=
  if str_eqb oldHash newHash then m
  else code_dec newHash (if slen oldHash =? 0 then m else code_write oldHash oldEntry m).

(** The bytes of a code entry that is in use. *)
Definition code_bytes (v : string) : Prop := exists e, 0 < NumReferences e < 2 ^ 32 /\ Marshal e = Ok v.

(** The key holds a code entry, if anything. *)
Definition code_ok (h : string) (m : kvmap) : Prop := forall v, m !! h = Some v -> code_bytes v.

Lemma code_bytes_read v : code_bytes v -> exists e, Unmarshal v = Ok e /\ 0 < NumReferences e < 2 ^ 32 /\ Marshal e = Ok v.
Proof.
  intros (e & He & Hm). exists e. destruct (codec_code e He) as (b & Hb & _ & Hu).
  rewrite Hm in Hb. injection Hb as <-. done.
Qed.

Lemma code_bytes_nonempty e : 0 < NumReferences e < 2 ^ 32 ->
  exists b, code_bytes_of (Some e) = b /\ b <> EmptyString /\ Marshal e = Ok b /\ Unmarshal b = Ok e.
Proof. intros He. destruct (codec_code e He) as (b & Hb & Hn & Hu). exists b. cbn. by rewrite Hb. Qed.

Lemma code_at_some h m e : code_ok h m -> code_at h m = Some e ->
  0 < NumReferences e < 2 ^ 32 /\ m !! h = Some (code_bytes_of (Some e)).
Proof.
  intros Hok. unfold code_at. destruct (m !! h) as [v|] eqn:Ev; [|done].
  destruct (code_bytes_read v (Hok v Ev)) as (e' & Hu & He & Hm). rewrite Hu. intros [= <-].
  split; [done|]. cbn. by rewrite Hm.
Qed.

Lemma code_at_none h m : code_ok h m -> code_at h m = None -> m !! h = None.
Proof.
  intros Hok. unfold code_at. destruct (m !! h) as [v|] eqn:Ev; [|done].
  destruct (code_bytes_read v (Hok v Ev)) as (e' & Hu & _). by rewrite Hu.
Qed.

Lemma code_at_write h e m : 0 < NumReferences e < 2 ^ 32 -> code_at h (code_write h (Some e) m) = Some e.
Proof.
  intros He. destruct (code_bytes_nonempty e He) as (b & Hb & Hn & _ & Hu).
  unfold code_at, code_write. rewrite lookup_write, decide_True by done. rewrite Hb.
  unfold nonempty. change (bytes_of (Some b)) with b. rewrite decide_False by done. by rewrite Hu.
Qed.

Lemma code_at_write_ne h k v m : k <> h -> code_at h (write k v m) = code_at h m.
Proof. intros Hne. unfold code_at. by rewrite lookup_write, decide_False. Qed.

Lemma code_dec_write_ne h k v m : k <> h -> code_dec h (write k v m) = write k v (code_dec h m).
Proof.
  intros Hne. unfold code_dec. rewrite code_at_write_ne by done. destruct (code_at h m) as [e|]; [|done].
  destruct (_ <=? _); unfold code_write; by rewrite (write_comm h k).
Qed.

Lemma code_dec_lookup_ne h k m : k <> h -> code_dec h m !! k = m !! k.
Proof.
  intros Hne. unfold code_dec. destruct (code_at h m); [|done]. destruct (_ <=? _); unfold code_write;
    by rewrite lookup_write, decide_False.
Qed.

Lemma code_write_old h m : no_empty m -> code_ok h m -> code_write h (code_at h m) m = m.
Proof.
  intros Hn Hok. unfold code_write. destruct (code_at h m) as [e|] eqn:E.
  - apply write_id'; [done|]. by destruct (code_at_some h m e Hok E).
  - apply write_absent; [done|]. by apply code_at_none.
Qed.

Lemma code_write_dec h e m : code_write h e (code_dec h m) = code_write h e m.
Proof.
  unfold code_dec. destruct (code_at h m); [|done]. destruct (_ <=? _); unfold code_write; by rewrite write_write.
Qed.

(** A reference that was added and removed again leaves the entry as it was. *)
Lemma code_dec_inc h newCode m :
  no_empty m -> code_ok h m -> (forall e, code_at h m = Some e -> NumReferences e + 1 < 2 ^ 32) ->
  slen newCode <> 0 -> code_dec h (code_inc h newCode m) = m.
Proof.
  intros Hn Hok Hfit Hc. unfold code_inc. rewrite (proj2 (Z.eqb_neq _ _)) by done.
  destruct (code_at h m) as [e|] eqn:E; cbn [default from_option id].
  - destruct (code_at_some h m e Hok E) as [He Hm]. specialize (Hfit e eq_refl).
    rewrite wrap_u32_id by ilia.
    unfold code_dec at 1. rewrite code_at_write by (cbn; lia). cbn [NumReferences with_refs].
    destruct (Z.leb_spec (NumReferences e + 1) 1); [lia|]. unfold code_write. rewrite write_write.
    apply write_id'; [done|]. rewrite Hm. do 3 f_equal. unfold with_refs. destruct e. cbn. f_equal. lia.
  - cbn [NumReferences]. change (wrap_u32 (0 + 1)) with 1. unfold code_dec at 1.
    rewrite code_at_write by (cbn; lia). cbn [NumReferences with_refs]. change (1 <=? 1) with true.
    unfold code_write. rewrite write_write. apply write_absent; [done|]. by apply code_at_none.
Qed.

Lemma code_inc_write_ne h newCode k v m :
  k <> h -> code_inc h newCode (write k v m) = write k v (code_inc h newCode m).
Proof.
  intros Hne. unfold code_inc. destruct (_ =? _); [done|]. rewrite code_at_write_ne by done.
  unfold code_write. by rewrite write_comm.
Qed.

Lemma code_write_inc_ne h k e newCode m :
  h <> k -> code_write k e (code_inc h newCode m) = code_inc h newCode (code_write k e m).
Proof. intros Hne. unfold code_write. by rewrite code_inc_write_ne. Qed.
End code.

(** ** The main trie *)

Section main.
Context {T : Type} {AD : AccountData T} {MT : Marshalizer T} {MC : Marshalizer CodeEntry}.
Context {CC : CodeCodecLaws} {AC : AccountCodecLaws}.

(** The keys under which code is kept; no address is one of them. *)
Variable is_code : string -> Prop.
Hypothesis code_key_nonempty : ~ is_code EmptyString.

(** The code hash of an account: none, or a key of the code. *)
Definition code_key (h : string) : Prop := h = EmptyString \/ is_code h.
Definition acct_bytes (v : string) : Prop := exists d : T, Marshal d = Ok v /\ code_key (GetCodeHash d).

Record main_ok (m : kvmap) : Prop := {
  mok_nonempty : no_empty m;
  mok_no_key : m !! EmptyString = None;
  mok_code : forall k v, m !! k = Some v -> is_code k -> code_bytes v;
  mok_acct : forall k v, m !! k = Some v -> ~ is_code k -> acct_bytes v;
}.

Lemma main_code_ok h m : main_ok m -> code_key h -> code_ok h m.
Proof.
  intros Hm [->|Hc] v Hv; [by rewrite (mok_no_key m Hm) in Hv|by eapply mok_code].
Qed.

Lemma code_at_no_key m : main_ok m -> code_at EmptyString m = None.
Proof. intros Hm. unfold code_at. by rewrite (mok_no_key m Hm). Qed.

Lemma code_dec_no_key m : main_ok m -> code_dec EmptyString m = m.
Proof. intros Hm. unfold code_dec. by rewrite code_at_no_key. Qed.

(** Writing a proper value, or removing one, keeps the main trie in order. *)
Lemma main_ok_write k v m :
  main_ok m -> k <> EmptyString ->
  (forall b, nonempty v = Some b -> (is_code k -> code_bytes b) /\ (~ is_code k -> acct_bytes b)) ->
  main_ok (write k v m).
Proof.
  intros Hm Hk Hv. split.
  - apply no_empty_write, Hm.
  - rewrite lookup_write, decide_False by done. apply Hm.
  - intros k' b. rewrite lookup_write. case_decide as E; [subst k'; intros Hb; by apply (Hv b)|by apply (mok_code m Hm)].
  - intros k' b. rewrite lookup_write. case_decide as E; [subst k'; intros Hb; by apply (Hv b)|by apply (mok_acct m Hm)].
Qed.

Lemma main_ok_delete k m : main_ok m -> k <> EmptyString -> main_ok (write k None m).
Proof. intros Hm Hk. by apply main_ok_write. Qed.

Lemma main_ok_account k v m :
  main_ok m -> k <> EmptyString -> ~ is_code k -> (v <> EmptyString -> acct_bytes v) -> main_ok (write k (Some v) m).
Proof.
  intros Hm Hk Hc Hv. apply main_ok_write; [done..|]. unfold nonempty. intros b.
  change (bytes_of (Some v)) with v. case_decide; [done|]. intros [= <-]. split; [done|auto].
Qed.

Lemma main_ok_code k e m :
  main_ok m -> is_code k -> (forall x, e = Some x -> 0 < NumReferences x < 2 ^ 32) -> main_ok (code_write k e m).
Proof.
  intros Hm Hk He. assert (k <> EmptyString) as Hne by (by intros ->).
  unfold code_write. destruct e as [e|].
  - destruct (code_bytes_nonempty e (He e eq_refl)) as (b & -> & Hb & Hbm & _).
    apply main_ok_write; [done..|]. unfold nonempty. intros b'. change (bytes_of (Some b)) with b.
    rewrite decide_False by done. intros [= <-]. split; [|done]. intros _. exists e. auto.
  - by apply main_ok_write.
Qed.

Lemma main_ok_dec h m : main_ok m -> code_key h -> main_ok (code_dec h m).
Proof.
  intros Hm Hk. destruct Hk as [->|Hk]; [by rewrite code_dec_no_key|]. unfold code_dec.
  destruct (code_at h m) as [e|] eqn:E; [|done].
  destruct (code_at_some h m e (main_code_ok h m Hm (or_intror Hk)) E) as [He _].
  destruct (Z.leb_spec (NumReferences e) 1).
  - apply main_ok_delete; [done|]. by intros ->.
  - apply main_ok_code; [done..|]. intros x [= <-]. cbn. lia.
Qed.

Lemma main_ok_inc h newCode m :
  main_ok m -> (slen newCode <> 0 -> is_code h) ->
  (forall e, code_at h m = Some e -> NumReferences e + 1 < 2 ^ 32) -> main_ok (code_inc h newCode m).
Proof.
  intros Hm Hk Hfit. unfold code_inc. destruct (Z.eqb_spec (slen newCode) 0) as [|Hne]; [done|].
  apply main_ok_code; [done|auto|]. intros x [= <-]. cbn [NumReferences with_refs].
  destruct (code_at h m) as [e|] eqn:E; cbn [default from_option id NumReferences].
  - destruct (code_at_some h m e (main_code_ok h m Hm (or_intror (Hk Hne))) E) as [He _].
    specialize (Hfit e eq_refl). rewrite wrap_u32_id by ilia. lia.
  - by change (wrap_u32 (0 + 1)) with 1.
Qed.

(** The code entry of the journal undoes both changes of the counters. *)
Lemma code_undo_do oldHash newHash newCode addr x m :
  main_ok m -> code_key oldHash -> (slen newCode <> 0 -> is_code newHash) ->
  (slen newCode = 0 -> newHash = EmptyString) -> ~ is_code addr -> addr <> EmptyString ->
  (forall e, code_at newHash m = Some e -> NumReferences e + 1 < 2 ^ 32) -> oldHash <> newHash ->
  code_undo (code_at oldHash m) oldHash newHash
    (write addr x (code_inc newHash newCode (code_dec oldHash m))) = write addr x m.
Proof.
  intros Hm Ho Hn0 Hn1 Ha Ha0 Hfit Hne. unfold code_undo.
  unfold str_eqb. rewrite bool_decide_eq_false_2 by done.
  assert (addr <> oldHash) as Hao by (destruct Ho as [->|?]; [done|by intros ->]).
  assert (code_key newHash) as Hn.
  { destruct (Z.eq_dec (slen newCode) 0); [left|right]; auto. }
  assert (addr <> newHash) as Han by (destruct Hn as [->|?]; [done|by intros ->]).
  set (m1 := code_dec oldHash m).
  assert (main_ok m1) as Hm1 by by apply main_ok_dec.
  assert (code_dec newHash (code_inc newHash newCode m) = m) as Hinc.
  { destruct (Z.eq_dec (slen newCode) 0) as [E|E].
    - rewrite (Hn1 E). unfold code_inc. rewrite E. change (0 =? 0) with true. by apply code_dec_no_key.
    - apply code_dec_inc; [apply Hm|by apply main_code_ok|done|done]. }
  rewrite <- code_inc_write_ne by done.
  destruct (Z.eqb_spec (slen oldHash) 0) as [E0|E0].
  - assert (oldHash = EmptyString) as Eo by (destruct oldHash; [done|unfold slen in E0; cbn in E0; lia]).
    subst m1. rewrite Eo, code_dec_no_key by done. rewrite code_inc_write_ne, code_dec_write_ne by done.
    by rewrite Hinc.
  - rewrite code_write_inc_ne by done. unfold code_write. rewrite write_comm by done.
    fold (code_write oldHash (code_at oldHash m) m1). subst m1. rewrite code_write_dec.
    rewrite code_write_old; [|apply Hm|by apply main_code_ok].
    rewrite code_inc_write_ne, code_dec_write_ne by done. by rewrite Hinc.
Qed.

(** ** Journal entries over maps *)

(** A journal entry with the account it belongs to and its trie resolved. *)
Inductive undoEntry : Type :=
| UAccount (addr : string) (v : slice)
| UData (ups : gmap string slice) (addr : string) (p : nat)
| UCode (oldEntry : option CodeEntry) (oldHash newHash : string)
| UNone.

Section undo.
Variable main : nat.

(** The contents before and after an entry is undone.  Undoing the writes to a
    data trie also saves the account as it is by then. *)
Definition undo (e : undoEntry) (ms ms' : gmap nat kvmap) : Prop :=
  match e with
  | UAccount addr v => ms' = alter (write addr v) main ms
  | UData ups addr p => exists b, ms' = alter (write addr (Some b)) main (alter (write_all ups) p ms)
  | UCode oldEntry oldHash newHash => ms' = alter (code_undo oldEntry oldHash newHash) main ms
  | UNone => ms' = ms
  end.

(** Undoing the entries, the last one first, leads back to (at least) [ms0]. *)
Fixpoint reverts (es : list undoEntry) (ms ms0 : gmap nat kvmap) : Prop :=
  match es with
  | [] => ms0 ⊆ ms
  | e :: es => forall ms', undo e ms ms' -> reverts es ms' ms0
  end.

Lemma alter_mono (f : kvmap -> kvmap) p (ms ms' : gmap nat kvmap) :
  ms ⊆ ms' -> alter f p ms ⊆ alter f p ms'.
Proof.
  rewrite !map_subseteq_spec. intros H q x. destruct (decide (p = q)) as [->|Hne].
  - rewrite !lookup_alter_eq. destruct (ms !! q) as [m|] eqn:E; [|done]. by rewrite (H q m E).
  - rewrite !lookup_alter_ne by done. apply H.
Qed.

Lemma undo_mono e ms ms' ms1' : ms ⊆ ms' -> undo e ms' ms1' -> exists ms1, undo e ms ms1 /\ ms1 ⊆ ms1'.
Proof.
  intros Hs. destruct e as [addr v|ups addr p|oe oh nh|]; cbn.
  - intros ->. eexists. split; [done|]. by apply alter_mono.
  - intros [b ->]. eexists. split; [by exists b|]. by apply alter_mono, alter_mono.
  - intros ->. eexists. split; [done|]. by apply alter_mono.
  - intros ->. eauto.
Qed.

Lemma reverts_mono es ms ms' ms0 : ms ⊆ ms' -> reverts es ms ms0 -> reverts es ms' ms0.
Proof.
  revert ms ms'. induction es as [|e es IH]; intros ms ms' Hs; cbn; [by intros; transitivity ms|].
  intros H ms1' Hu. destruct (undo_mono e ms ms' ms1' Hs Hu) as (ms1 & Hu1 & Hs1). eauto.
Qed.

(** *** Entries undo the changes they were written for

    While an account is being changed its own value in the main trie may be
    anything, since the account's entry is undone last. *)
Definition reverts_mod (addr : string) (es : list undoEntry) (ms ms0 : gmap nat kvmap) : Prop :=
  forall x, reverts es (alter (write addr x) main ms) ms0.

Lemma alter_write_write addr x y (ms : gmap nat kvmap) :
  alter (write addr x) main (alter (write addr y) main ms) = alter (write addr x) main ms.
Proof. rewrite alter_alter_eq. apply alter_ext. intros m _. apply write_write. Qed.

Lemma alter_main_id f (ms : gmap nat kvmap) m : ms !! main = Some m -> f m = m -> alter f main ms = ms.
Proof. intros Hm Hf. apply alter_id. intros m' Hm'. rewrite Hm in Hm'. by injection Hm' as <-. Qed.

Lemma reverts_mod_reverts addr es ms ms0 m :
  ms !! main = Some m -> no_empty m -> reverts_mod addr es ms ms0 -> reverts es ms ms0.
Proof.
  intros Hm Hn H. specialize (H (m !! addr)). rewrite (alter_main_id _ ms m) in H; [done|done|]. by apply write_id.
Qed.

Lemma account_entry addr es ms ms0 m :
  ms !! main = Some m -> no_empty m -> reverts es ms ms0 ->
  reverts_mod addr (UAccount addr (m !! addr) :: es) ms ms0.
Proof.
  intros Hm Hn H x ms'. cbn. rewrite alter_write_write. intros ->.
  rewrite (alter_main_id _ ms m); [done|done|]. by apply write_id.
Qed.

Lemma data_entry addr p ups es ms ms0 m :
  ms !! p = Some m -> no_empty m -> p <> main -> reverts_mod addr es ms ms0 ->
  reverts_mod addr (UData (saved_values ups m) addr p :: es) (alter (write_all ups) p ms) ms0.
Proof.
  intros Hm Hn Hp H x ms' [b ->]. rewrite (alter_alter_ne _ _ _ p main) by done.
  rewrite alter_write_write. rewrite alter_alter_eq.
  rewrite (alter_id _ ms p); [apply H|]. intros m' Hm'. rewrite Hm in Hm'. injection Hm' as <-.
  by apply restore_saved.
Qed.

Lemma code_entry addr oldHash newHash newCode es ms ms0 m :
  ms !! main = Some m -> main_ok m -> code_key oldHash -> (slen newCode <> 0 -> is_code newHash) ->
  (slen newCode = 0 -> newHash = EmptyString) -> ~ is_code addr -> addr <> EmptyString ->
  (forall e, code_at newHash m = Some e -> NumReferences e + 1 < 2 ^ 32) -> oldHash <> newHash ->
  reverts_mod addr es ms ms0 ->
  reverts_mod addr (UCode (code_at oldHash m) oldHash newHash :: es)
    (alter (fun m => code_inc newHash newCode (code_dec oldHash m)) main ms) ms0.
Proof.
  intros Hm Hok Ho Hn0 Hn1 Ha Ha0 Hfit Hne H x ms'. cbn. intros ->. rewrite !alter_alter_eq.
  specialize (H x). erewrite alter_ext; [exact H|]. intros m' Hm'. rewrite Hm in Hm'. injection Hm' as <-.
  cbn. by apply code_undo_do.
Qed.
End undo.
End main.

Section tries.
Context {DB : DBWriteCacher} {HS : Hasher} {MBa : Marshalizer Batch}.
Context {ML : Marshalizer CollapsedLn} {ME : Marshalizer CollapsedEn} {MB : Marshalizer CollapsedBn}.
Context {CL : NodeCodecLaws} {HL : HasherLaws} {DL : DBLaws} {BL : BatchLaws}.
Context {T : Type} {AD : AccountData T} {MT : Marshalizer T} {MC : Marshalizer CodeEntry}.
Context {CC : CodeCodecLaws} {AC : AccountCodecLaws}.

Abbreviation maps := (gmap nat (gmap string string)).

Definition tries_hold (s : @adbState DB T) (ms : maps) : Prop :=
  forall p m, ms !! p = Some m ->
    exists t, tries s !! p = Some t /\ trie_map {| st_trie := t; st_storage := storage s |} m.

(** Only the tries in memory changed. *)
Record quiet (s s' : @adbState DB T) : Prop := {
  quiet_db : db s' = db s;
  quiet_objects : objects s' = objects s;
  quiet_storage : storage s' = storage s;
  quiet_length : length (tries s') = length (tries s);
}.

Lemma quiet_refl s : quiet s s.
Proof. by split. Qed.
Lemma adb_quiet_trans s1 s2 s3 : quiet s1 s2 -> quiet s2 s3 -> quiet s1 s3.
Proof. intros [] []. split; congruence. Qed.

Lemma tries_hold_lt s ms p m : tries_hold s ms -> ms !! p = Some m -> (p < length (tries s))%nat.
Proof. intros Hs Hp. destruct (Hs p m Hp) as (t & Ht & _). by eapply lookup_lt_Some. Qed.

Lemma tries_hold_fresh s ms : tries_hold s ms -> ms !! length (tries s) = None.
Proof.
  intros Hs. destruct (ms !! length (tries s)) as [m|] eqn:E; [|done].
  pose proof (tries_hold_lt s ms _ m Hs E). lia.
Qed.

(** ** Values of a trie are not empty *)

Lemma wf_values t k v : wf t -> hexpath k -> tget t k = Some v -> v <> EmptyString.
Proof.
  intros Hw. revert k. induction Hw as [k' v' _ Hv|k' t _ Hk _ _ IH|cs _ _ _ IH Hlast]; intros k Hp.
  - cbn. case_decide; [|done]. by intros [= <-].
  - cbn. case_decide as E; [|done]. apply IH. apply (hexpath_app_inv k'); [done|].
    rewrite E at 1. by rewrite take_drop.
  - destruct k as [|i k]; [by apply hexpath_nonnil in Hp|]. rewrite tget_branch.
    destruct (slot cs i) as [t|] eqn:E; [|done]. cbn.
    apply hexpath_cons_inv in Hp as [[-> ->]|[Hi Hp]]; [|by eapply IH].
    destruct (Hlast t E) as (v' & -> & Hv). cbn. by intros [= <-].
Qed.

Lemma trie_map_no_empty s m : trie_map s m -> no_empty m.
Proof.
  unfold trie_map. destruct (root (st_trie s)) as [n|].
  - intros (t & _ & Hw & Hh) k Hk. rewrite <- (holds_key t m k Hh) in Hk.
    by apply (wf_values t _ EmptyString Hw (TrieTree.keyBytesToHex_hexpath k)).
  - intros -> k. by rewrite lookup_empty.
Qed.

Lemma tries_hold_no_empty s ms p m : tries_hold s ms -> ms !! p = Some m -> no_empty m.
Proof. intros Hs Hp. destruct (Hs p m Hp) as (t & _ & Ht). by eapply trie_map_no_empty. Qed.

(** ** Operations of one trie *)

Lemma on_trie_run {A} (f : M trieState trieError A) (Q : A -> Prop) s ms p m m' :
  tries_hold s ms -> ms !! p = Some m ->
  (forall ts, trie_map ts m -> exists ts' r, f ts = (ts', Ok r) /\ trie_map ts' m' /\
     st_storage ts' = st_storage ts /\ Q r) ->
  exists s' r, on_trie p f s = (s', Ok r) /\ tries_hold s' (<[p := m']> ms) /\ quiet s s' /\ Q r.
Proof.
  intros Hs Hp Hf. destruct (Hs p m Hp) as (t & Ht & Htm).
  destruct (Hf _ Htm) as (ts' & r & Hrun & Hm' & Hst & HQ). cbn in Hst.
  unfold on_trie. rewrite Ht, Hrun. eexists _, r. split; [reflexivity|]. rewrite Hst.
  assert (p < length (tries s))%nat as Hlt by by eapply lookup_lt_Some.
  split; [|split; [split; cbn; [done..|by rewrite length_insert]|done]].
  intros q mq. destruct (decide (p = q)) as [<-|Hne].
  - rewrite lookup_insert_eq. intros [= <-]. exists (st_trie ts'). cbn.
    rewrite list_lookup_insert_eq by done. split; [done|]. rewrite <- Hst. by destruct ts'.
  - rewrite lookup_insert_ne by done. intros Hq. destruct (Hs q mq Hq) as (tq & Htq & Hmq).
    exists tq. cbn. by rewrite list_lookup_insert_ne.
Qed.

Lemma on_trie_Get s ms p m k :
  tries_hold s ms -> ms !! p = Some m ->
  exists s', on_trie p (Get k) s = (s', Ok (m !! k)) /\ tries_hold s' ms /\ quiet s s'.
Proof.
  intros Hs Hp. destruct (on_trie_run (Get k) (fun r => r = m !! k) s ms p m m Hs Hp) as (s' & r & Hr & Hs' & Hq & ->).
  { intros ts Hts. destruct (Get_spec ts m k Hts) as (ts' & ? & ? & ?). eauto 6. }
  exists s'. split; [done|]. split; [|done]. by rewrite insert_id in Hs'.
Qed.

Lemma on_trie_Update s ms p m k v :
  tries_hold s ms -> ms !! p = Some m ->
  exists s', on_trie p (Update k v) s = (s', Ok tt) /\ tries_hold s' (alter (write k v) p ms) /\ quiet s s'.
Proof.
  intros Hs Hp. destruct (on_trie_run (Update k v) (fun _ => True) s ms p m (write k v m) Hs Hp)
    as (s' & [] & Hr & Hs' & Hq & _).
  { intros ts Hts. destruct (Update_spec ts m k v Hts) as (ts' & ? & ? & Hm). rewrite write_eq in Hm. eauto 6. }
  exists s'. split; [done|]. split; [|done]. by rewrite alter_alt, Hp.
Qed.

Lemma on_trie_RootHash s ms p m :
  tries_hold s ms -> ms !! p = Some m ->
  exists s' h, on_trie p PatriciaTrie.RootHash s = (s', Ok h) /\ tries_hold s' ms /\ quiet s s' /\ root_hash_of m h.
Proof.
  intros Hs Hp. destruct (on_trie_run PatriciaTrie.RootHash (root_hash_of m) s ms p m m Hs Hp)
    as (s' & h & Hr & Hs' & Hq & Hh).
  { intros ts Hts. destruct (RootHash_spec ts m Hts) as (ts' & h & ? & ? & ? & ?). eauto 6. }
  exists s', h. split; [done|]. split; [|done]. by rewrite insert_id in Hs'.
Qed.

(** ** Several writes *)

Lemma write_all_insert (ups : gmap string slice) k v m :
  ups !! k = None -> write_all (<[k := v]> ups) m = write_all ups (write k v m).
Proof.
  intros Hk. apply map_eq. intros x. rewrite !lookup_write_all, lookup_write.
  destruct (decide (k = x)) as [<-|Hne]; [by rewrite lookup_insert_eq, Hk|].
  by rewrite lookup_insert_ne.
Qed.

Lemma write_all_empty m : write_all ∅ m = m.
Proof. apply map_eq. intros x. by rewrite lookup_write_all, lookup_empty. Qed.

Lemma saved_values_insert {A} (ups : gmap string A) k v w m ov :
  ups !! k = None ->
  saved_values ups (write k w m) ∪ <[k := m !! k]> ov = saved_values (<[k := v]> ups) m ∪ ov.
Proof.
  intros Hk. apply map_eq. intros x. rewrite !lookup_union. unfold saved_values.
  rewrite !map_lookup_imap, lookup_write. destruct (decide (k = x)) as [<-|Hne].
  - rewrite Hk, !lookup_insert_eq. cbn. by destruct (ov !! k).
  - by rewrite !lookup_insert_ne.
Qed.

Lemma write_dirty_spec dirty s ms p m ov :
  tries_hold s ms -> ms !! p = Some m -> NoDup dirty.*1 ->
  exists s', write_dirty p dirty ov s =
      (s', Ok (saved_values (list_to_map dirty : gmap string string) m ∪ ov)) /\
    tries_hold s' (alter (write_all (Some <$> (list_to_map dirty : gmap string string))) p ms) /\ quiet s s'.
Proof.
  revert s ms m ov. induction dirty as [|[k v] dirty IH]; intros s ms m ov Hs Hp Hnd; cbn [write_dirty].
  { exists s. split; [|split; [|apply quiet_refl]].
    - cbn. unfold mret, M_ret. unfold saved_values. rewrite map_imap_empty. by rewrite (left_id ∅ (∪)).
    - cbn. rewrite fmap_empty. rewrite alter_id; [done|]. intros. apply write_all_empty. }
  inversion_clear Hnd as [|? ? Hk Hnd']. cbn in Hk.
  assert ((list_to_map dirty : gmap string string) !! k = None) as Hkn by by apply not_elem_of_list_to_map_1.
  unfold mbind, M_bind. destruct (on_trie_Get s ms p m k Hs Hp) as (s1 & -> & Hs1 & Hq1).
  destruct (on_trie_Update s1 ms p m k (Some v) Hs1 Hp) as (s2 & -> & Hs2 & Hq2).
  destruct (IH s2 (alter (write k (Some v)) p ms) (write k (Some v) m) (<[k := m !! k]> ov) Hs2) as (s3 & Hr & Hs3 & Hq3).
  { by rewrite lookup_alter_eq, Hp. }
  { done. }
  exists s3. split; [|split; [|by eapply adb_quiet_trans; [|eapply adb_quiet_trans]]].
  - rewrite Hr. cbn. do 2 f_equal. by apply saved_values_insert.
  - rewrite alter_alter_eq in Hs3. erewrite alter_ext; [exact Hs3|]. intros m' _. cbn.
    rewrite fmap_insert. by rewrite write_all_insert by by rewrite lookup_fmap, Hkn.
Qed.

Lemma restore_values_spec ups s ms p m :
  tries_hold s ms -> ms !! p = Some m -> NoDup ups.*1 ->
  exists s', restore_values p ups s = (s', Ok tt) /\
    tries_hold s' (alter (write_all (list_to_map ups : gmap string slice)) p ms) /\ quiet s s'.
Proof.
  revert s ms m. induction ups as [|[k v] ups IH]; intros s ms m Hs Hp Hnd; cbn [restore_values].
  { exists s. split; [done|]. split; [|apply quiet_refl]. cbn. rewrite alter_id; [done|].
    intros. apply write_all_empty. }
  inversion_clear Hnd as [|? ? Hk Hnd']. cbn in Hk.
  assert ((list_to_map ups : gmap string slice) !! k = None) as Hkn by by apply not_elem_of_list_to_map_1.
  unfold mbind, M_bind. destruct (on_trie_Update s ms p m k v Hs Hp) as (s2 & -> & Hs2 & Hq2).
  destruct (IH s2 (alter (write k v) p ms) (write k v m) Hs2) as (s3 & Hr & Hs3 & Hq3).
  { by rewrite lookup_alter_eq, Hp. }
  { done. }
  exists s3. split; [done|]. split; [|by eapply adb_quiet_trans].
  rewrite alter_alter_eq in Hs3. erewrite alter_ext; [exact Hs3|]. intros m' _. cbn.
  by rewrite write_all_insert.
Qed.

(** ** Code entries *)

Lemma getCodeEntry_spec s ms p m h :
  tries_hold s ms -> ms !! p = Some m -> code_ok h m ->
  exists s', getCodeEntry h p s = (s', Ok (code_at h m)) /\ tries_hold s' ms /\ quiet s s'.
Proof.
  intros Hs Hp Hok. unfold getCodeEntry. unfold mbind at 1, M_bind at 1.
  destruct (on_trie_Get s ms p m h Hs Hp) as (s1 & -> & Hs1 & Hq1). exists s1. split; [|done].
  pose proof (tries_hold_no_empty s ms p m Hs Hp h) as Hne. unfold code_at.
  destruct (m !! h) as [v|] eqn:Ev; [|done]. change (bytes_of (Some v)) with v.
  destruct (code_bytes_read v (Hok v Ev)) as (e & Hu & _).
  destruct (Z.eqb_spec (slen v) 0) as [E|E].
  - destruct v; [done|]. unfold slen in E. cbn in E. lia.
  - by rewrite Hu.
Qed.

Lemma saveCodeEntry_spec s ms p m h e :
  tries_hold s ms -> ms !! p = Some m -> (forall x, e = Some x -> 0 < NumReferences x < 2 ^ 32) ->
  exists s', saveCodeEntry h e p s = (s', Ok tt) /\ tries_hold s' (alter (code_write h e) p ms) /\ quiet s s'.
Proof.
  intros Hs Hp He. unfold saveCodeEntry. unfold mbind, M_bind, lift. destruct e as [e|].
  - destruct (code_bytes_nonempty e (He e eq_refl)) as (b & Hb & _ & Hm & _). rewrite Hm. cbn [map_err].
    destruct (on_trie_Update s ms p m h (Some b) Hs Hp) as (s' & Hu & Hs' & Hq). exists s'.
    split; [done|]. split; [|done]. unfold code_write. by rewrite Hb.
  - by apply (on_trie_Update s ms p m h (Some EmptyString)).
Qed.

(** The same step takes a reference away when code is replaced and when it is
    put back. *)
Lemma code_dec_step s ms p m h (e : CodeEntry) :
  tries_hold s ms -> ms !! p = Some m -> code_ok h m -> code_at h m = Some e ->
  exists s', (if NumReferences e <=? 1 then on_trie p (Update h None)
              else saveCodeEntry h (Some (with_refs (NumReferences e - 1) e)) p) s = (s', Ok tt) /\
    tries_hold s' (alter (code_dec h) p ms) /\ quiet s s'.
Proof.
  intros Hs Hp Hok He. destruct (code_at_some h m e Hok He) as [Hr _].
  assert (forall f, f m = code_dec h m -> alter (code_dec h) p ms = alter f p ms) as Halt.
  { intros f Hf. apply alter_ext. intros m' Hm'. rewrite Hp in Hm'. by injection Hm' as <-. }
  assert (code_dec h m = if NumReferences e <=? 1 then write h None m
                         else code_write h (Some (with_refs (NumReferences e - 1) e)) m) as Hdec
    by (unfold code_dec; by rewrite He).
  destruct (Z.leb_spec (NumReferences e) 1).
  - rewrite (Halt (write h None)) by done. by eapply on_trie_Update.
  - rewrite (Halt (code_write h (Some (with_refs (NumReferences e - 1) e)))) by done.
    eapply saveCodeEntry_spec; [done..|]. intros x [= <-]. cbn. lia.
Qed.

Lemma alter_code_dec_none (ms : maps) p m h : ms !! p = Some m -> code_at h m = None -> alter (code_dec h) p ms = ms.
Proof.
  intros Hp Hn. apply alter_id. intros m' Hm'. rewrite Hp in Hm'. injection Hm' as <-. unfold code_dec. by rewrite Hn.
Qed.

Lemma updateOldCodeEntry_spec s ms m h :
  tries_hold s ms -> ms !! mainTrie (db s) = Some m -> code_ok h m ->
  exists s', updateOldCodeEntry h s = (s', Ok (code_at h m)) /\
    tries_hold s' (alter (code_dec h) (mainTrie (db s)) ms) /\ quiet s s'.
Proof.
  intros Hs Hp Hok. unfold updateOldCodeEntry. unfold mbind at 1, M_bind at 1, get at 1.
  unfold mbind at 1, M_bind at 1. destruct (getCodeEntry_spec s ms _ m h Hs Hp Hok) as (s1 & -> & Hs1 & Hq1).
  destruct (code_at h m) as [e|] eqn:He.
  - destruct (code_dec_step s1 ms _ m h e Hs1 Hp Hok He) as (s2 & Hr & Hs2 & Hq2). exists s2.
    split; [|split; [done|by eapply adb_quiet_trans]]. unfold on_main.
    destruct (NumReferences e <=? 1); unfold mbind, M_bind, get; [rewrite (quiet_db _ _ Hq1)|]; by rewrite Hr.
  - exists s1. split; [done|]. by erewrite alter_code_dec_none.
Qed.

Lemma updateNewCodeEntry_spec s ms m h newCode :
  tries_hold s ms -> ms !! mainTrie (db s) = Some m -> (slen newCode <> 0 -> code_ok h m) ->
  (forall e, code_at h m = Some e -> NumReferences e + 1 < 2 ^ 32) ->
  exists s', updateNewCodeEntry h newCode s = (s', Ok tt) /\
    tries_hold s' (alter (code_inc h newCode) (mainTrie (db s)) ms) /\ quiet s s'.
Proof.
  intros Hs Hp Hok Hfit. unfold updateNewCodeEntry.
  assert (forall f, f m = code_inc h newCode m ->
    alter (code_inc h newCode) (mainTrie (db s)) ms = alter f (mainTrie (db s)) ms) as Halt.
  { intros f Hf. apply alter_ext. intros m' Hm'. rewrite Hp in Hm'. by injection Hm' as <-. }
  destruct (Z.eqb_spec (slen newCode) 0) as [E|E].
  { exists s. split; [done|]. split; [|apply quiet_refl]. rewrite (Halt id); [by rewrite alter_id|].
    unfold code_inc. by rewrite E. }
  unfold mbind at 1, M_bind at 1, get at 1. unfold mbind at 1, M_bind at 1.
  destruct (getCodeEntry_spec s ms _ m h Hs Hp (Hok E)) as (s1 & -> & Hs1 & Hq1).
  set (e := default _ _) in *.
  destruct (saveCodeEntry_spec s1 ms _ m h (Some (with_refs (wrap_u32 (NumReferences e + 1)) e)) Hs1 Hp)
    as (s2 & Hr & Hs2 & Hq2).
  { intros x [= <-]. cbn [with_refs NumReferences]. subst e. destruct (code_at h m) as [e|] eqn:He; [|by cbn].
    destruct (code_at_some h m e (Hok E) He) as [Hn _]. specialize (Hfit e eq_refl).
    cbn [default from_option id]. rewrite wrap_u32_id by ilia. lia. }
  exists s2. split; [done|]. split; [|by eapply adb_quiet_trans]. 
  rewrite (Halt (code_write h (Some (with_refs (wrap_u32 (NumReferences e + 1)) e)))); [done|].
  unfold code_inc. by rewrite (proj2 (Z.eqb_neq _ _)) by done.
Qed.

(** ** Accounts *)

Section accounts.
Variable is_code : string -> Prop.

(** A stored account, as it is read: nothing pending, no data trie attached. *)
Definition stored_account (addr : string) (d : T) : account T :=
  {| acc_address := addr; acc_dirty := ∅; acc_trie := None; acc_code := EmptyString;
     acc_hasNewCode := false; acc_data := d |}.

Definition account_at (addr : string) (m : gmap string string) (o : option (account T)) : Prop :=
  match m !! addr with
  | None => o = None
  | Some v => exists d, o = Some (stored_account addr d) /\ Marshal d = Ok v /\ Unmarshal v = Ok d /\
                code_key is_code (GetCodeHash d)
  end.

Lemma CreateAccount_ok addr : addr <> EmptyString -> CreateAccount addr = Ok (stored_account addr (new_data addr)).
Proof.
  intros Hne. unfold CreateAccount. destruct (Z.eqb_spec (slen addr) 0) as [E|E]; [|done].
  destruct addr; [done|]. unfold slen in E. cbn in E. lia.
Qed.

Lemma getAccount_spec s ms m addr :
  tries_hold s ms -> ms !! mainTrie (db s) = Some m -> main_ok is_code m -> addr <> EmptyString -> ~ is_code addr ->
  exists s' o, getAccount addr s = (s', Ok o) /\ account_at addr m o /\ tries_hold s' ms /\ quiet s s'.
Proof.
  intros Hs Hp Hm Hne Hc. unfold getAccount, on_main. unfold mbind at 1, M_bind at 1. unfold mbind at 1, M_bind at 1, get at 1.
  destruct (on_trie_Get s ms _ m addr Hs Hp) as (s1 & -> & Hs1 & Hq1). exists s1.
  unfold account_at. destruct (m !! addr) as [v|] eqn:Ev; [|eexists; by split_and!].
  destruct (mok_acct _ m Hm addr v Ev Hc) as (d & Hd & Hk).
  destruct (codec_account d) as (b & Hb & Hu & Hb'). rewrite Hd in Hb. injection Hb as <-.
  unfold mbind, M_bind, lift. rewrite CreateAccount_ok by done. rewrite Hu. cbn.
  eexists. split; [reflexivity|]. split; [|done]. exists (canon d). split; [done|]. split; [done|].
  split; [done|]. by rewrite canon_CodeHash.
Qed.

Lemma saveAccountToTrie_spec s ms m (a : account T) :
  tries_hold s ms -> ms !! mainTrie (db s) = Some m ->
  exists s' b, saveAccountToTrie a s = (s', Ok tt) /\ Marshal (acc_data a) = Ok b /\
    tries_hold s' (alter (write (acc_address a) (Some b)) (mainTrie (db s)) ms) /\ quiet s s'.
Proof.
  intros Hs Hp. unfold saveAccountToTrie, on_main. unfold mbind, M_bind, lift, get.
  destruct (codec_account (acc_data a)) as (b & Hb & _). rewrite Hb. cbn [map_err].
  destruct (on_trie_Update s ms _ m (acc_address a) (Some b) Hs Hp) as (s' & ? & ? & ?). by exists s', b.
Qed.
End accounts.

(** ** Loading tries *)

(** What the root hash of an account may stand for: no trie, a trie of the
    database, or nothing that can be found. *)
Definition available (st : trieStorageManager) (h : string) : Prop :=
  emptyTrie h = true \/
  (exists t m, thash t = h /\ wf t /\ holds t m /\ stored (tsm_db st) t) \/
  (is_ok (db_Get (tsm_db st) h) = false /\ GetSnapshotThatContainsHash st h = None).

Lemma Recreate_available levels mx st h :
  available st h ->
  exists r, Recreate levels mx h st = (st, r) /\
    forall tr, r = Ok tr -> exists m, trie_map {| st_trie := tr; st_storage := st |} m.
Proof.
  intros [He|[(t & m & <- & Hw & Hh & Hst)|[Hno Hsnap]]].
  - unfold Recreate. rewrite He. eexists. split; [reflexivity|]. intros tr [= <-]. by exists ∅.
  - destruct (Recreate_stored levels mx st t m Hw Hh Hst) as (tr & -> & Hm). eexists. split; [reflexivity|].
    intros tr' [= <-]. by exists m.
  - unfold Recreate. destruct (emptyTrie h).
    { eexists. split; [reflexivity|]. intros tr [= <-]. by exists ∅. }
    unfold mbind, M_bind, get. destruct (db_Get (tsm_db st) h) as [?|?]; [done|].
    unfold recreateFromSnapshotDb. unfold mbind, M_bind, get. rewrite Hsnap. eexists. split; [reflexivity|]. done.
Qed.

(** Nothing but a new trie in memory. *)
Record grown (s s' : @adbState DB T) : Prop := {
  grown_db : db s' = db s;
  grown_objects : objects s' = objects s;
  grown_storage : storage s' = storage s;
}.

Lemma quiet_grown s s' : quiet s s' -> grown s s'.
Proof. by intros []. Qed.

Lemma tries_hold_new s ms tr m :
  tries_hold s ms -> trie_map {| st_trie := tr; st_storage := storage s |} m ->
  tries_hold (with_tries (tries s ++ [tr]) s) (<[length (tries s) := m]> ms).
Proof.
  intros Hs Hm p m'. destruct (decide (length (tries s) = p)) as [<-|Hne].
  - rewrite lookup_insert_eq. intros [= <-]. exists tr. cbn. split; [|done]. by rewrite list_lookup_middle.
  - rewrite lookup_insert_ne by done. intros Hp. destruct (Hs p m' Hp) as (t & Ht & Htm). exists t. cbn.
    split; [|done]. rewrite lookup_app_l; [done|]. by eapply lookup_lt_Some.
Qed.

Lemma main_Recreate_run levels (s : @adbState DB T) h t r :
  tries s !! mainTrie (db s) = Some t ->
  Recreate levels (maxTrieLevelInMemory t) h (storage s) = (storage s, r) ->
  main_Recreate levels h s = match r with Ok tr => new_trie tr s | Err e => (s, Err (AdbTrieErr e)) end.
Proof.
  intros Ht Hr. unfold main_Recreate. unfold mbind at 1, M_bind at 1, get at 1. rewrite Ht, Hr.
  unfold mbind, M_bind, put, lift. assert (with_storage (storage s) s = s) as -> by by destruct s. by destruct r.
Qed.

Lemma main_Recreate_spec levels s ms m h :
  tries_hold s ms -> ms !! mainTrie (db s) = Some m -> available (storage s) h ->
  exists s', grown s s' /\ tries_hold s' ms /\
    ((exists e, main_Recreate levels h s = (s', Err e)) \/
     exists m', main_Recreate levels h s = (s', Ok (length (tries s))) /\
       tries_hold s' (<[length (tries s) := m']> ms)).
Proof.
  intros Hs Hp Hav. destruct (Hs _ m Hp) as (t & Ht & _).
  destruct (Recreate_available levels (maxTrieLevelInMemory t) (storage s) h Hav) as (r & Hrun & Hr).
  rewrite (main_Recreate_run levels s h t r Ht Hrun). destruct r as [tr|e].
  - destruct (Hr tr eq_refl) as [m' Hm']. pose proof (tries_hold_new s ms tr m' Hs Hm') as Hs'.
    eexists. split; [|split; [|right; exists m'; split; [reflexivity|exact Hs']]]; [done|].
    intros p q Hpq. apply Hs'. rewrite lookup_insert_ne; [done|]. intros <-. by rewrite tries_hold_fresh in Hpq.
  - exists s. split; [done|]. split; [done|]. left. eauto.
Qed.

Lemma main_Recreate_empty levels s ms m :
  tries_hold s ms -> ms !! mainTrie (db s) = Some m ->
  exists s', main_Recreate levels EmptyString s = (s', Ok (length (tries s))) /\ grown s s' /\
    tries_hold s' (<[length (tries s) := ∅]> ms).
Proof.
  intros Hs Hp. destruct (Hs _ m Hp) as (t & Ht & _). erewrite main_Recreate_run by done.
  eexists. split; [reflexivity|]. split; [done|]. by apply tries_hold_new.
Qed.
End tries.
