(* ===== verification/AccountsRevert.v ===== *)
(** * Reverting the accounts database

    Every operation on the accounts database keeps its journal good for going
    back: undoing the journal's entries down to an earlier length restores the
    contents that the main trie and the data tries had then. *)

From S2P Require Import Prelude Common TrieNode TrieSim TrieStorage PatriciaTrie PatriciaProps AccountsDB AccountsTries.
Local Open Scope Z_scope.

Section revert.
Context {DB : DBWriteCacher} {HS : Hasher} {MBa : Marshalizer Batch}.
Context {ML : Marshalizer CollapsedLn} {ME : Marshalizer CollapsedEn} {MB : Marshalizer CollapsedBn}.
Context {CL : NodeCodecLaws} {HL : HasherLaws} {DL : DBLaws} {BL : BatchLaws}.
Context {T : Type} {AD : AccountData T} {MT : Marshalizer T} {MC : Marshalizer CodeEntry}.
Context {CC : CodeCodecLaws} {AC : AccountCodecLaws}.

Abbreviation maps := (gmap nat (gmap string string)).
Abbreviation State := (@adbState DB T).

Variable levels : nat.
(** Go visits a map in some order, each key once. *)
Variable dirty_order : gmap string string -> list (string * string).
Variable updates_order : gmap string slice -> list (string * slice).
Hypothesis dirty_order_all : forall d, dirty_order d ≡ₚ map_to_list d.
Hypothesis updates_order_all : forall u, updates_order u ≡ₚ map_to_list u.

(** The keys of contract code. *)
Variable is_code : string -> Prop.
Hypothesis code_key_nonempty : ~ is_code EmptyString.

(** ** The journal and the maps *)

(** An account object: its address is not the hash of code in use, its code is. *)
Record obj_ok (a : account T) : Prop := {
  ok_address : acc_address a <> EmptyString;
  ok_not_code : ~ is_code (acc_address a);
  ok_code : slen (acc_code a) <> 0 -> is_code (Compute (acc_code a));
  ok_hash : code_key is_code (GetCodeHash (acc_data a));
}.

(** Objects keep their address and, once they have one, their data trie. *)
Definition objs_le (os os' : list (account T)) : Prop :=
  forall l a p, os !! l = Some a -> acc_trie a = Some p ->
    exists a', os' !! l = Some a' /\ acc_trie a' = Some p /\ acc_address a' = acc_address a.

Variable main : nat.

Inductive matches (os : list (account T)) : JournalEntry T -> undoEntry -> Prop :=
| match_account a b :
    Marshal (acc_data a) = Ok b -> matches os (journalEntryAccount a) (UAccount (acc_address a) (Some b))
| match_creation addr : matches os (journalEntryAccountCreation addr main) (UAccount addr None)
| match_data ups l a p :
    os !! l = Some a -> acc_trie a = Some p ->
    matches os (journalEntryAccountDataTrieUpdates ups l) (UData ups (acc_address a) p)
| match_remove h : matches os (journalEntryAccountDataTrieRemove h) UNone
| match_code e oh nh : matches os (journalEntryCode e oh nh main) (UCode e oh nh).

Lemma matches_le os os' e u : objs_le os os' -> matches os e u -> matches os' e u.
Proof.
  intros Hle. destruct 1 as [| |ups l a p Hl Hp| |]; try by constructor.
  destruct (Hle l a p Hl Hp) as (a' & Hl' & Hp' & <-). by constructor.
Qed.

Definition undo_ok (ms : maps) (u : undoEntry) : Prop :=
  match u with
  | UAccount addr v => addr <> EmptyString /\ ~ is_code addr /\ forall b, v = Some b -> acct_bytes is_code b
  | UData _ addr p => p <> main /\ is_Some (ms !! p)
  | UCode e oh nh => code_key is_code oh /\ code_key is_code nh /\
                     forall x, e = Some x -> 0 < NumReferences x < 2 ^ 32
  | UNone => True
  end.

(** The state of the database, with the maps its tries hold and its journal. *)
Record Inv (s : State) (ms : maps) (us : list undoEntry) : Prop := {
  inv_main : mainTrie (db s) = main;
  inv_tries : tries_hold s ms;
  inv_main_ok : exists m, ms !! main = Some m /\ main_ok is_code m;
  inv_objects : forall l a, objects s !! l = Some a -> obj_ok a /\
    forall p, acc_trie a = Some p -> p <> main /\ is_Some (ms !! p);
  inv_holder : forall addr p, dataTries (db s) !! addr = Some p -> p <> main /\ is_Some (ms !! p);
  inv_entries : Forall2 (matches (objects s)) (entries (db s)) us;
  inv_undo : Forall (undo_ok ms) us;
}.

Definition keeps_tries (ms ms' : maps) : Prop := forall p, is_Some (ms !! p) -> is_Some (ms' !! p).

Lemma undo_ok_keeps ms ms' u : keeps_tries ms ms' -> undo_ok ms u -> undo_ok ms' u.
Proof. intros Hk. destruct u; cbn; try done. intros [? ?]. split; [done|by apply Hk]. Qed.

Lemma keeps_alter f p ms : keeps_tries ms (alter f p ms).
Proof. intros q. rewrite lookup_alter. case_decide; [subst; by rewrite fmap_is_Some|done]. Qed.

Lemma keeps_insert p m ms : keeps_tries ms (<[p := m]> ms).
Proof. intros q [x Hq]. rewrite lookup_insert. case_decide; eauto. Qed.

(** Changes of tries. *)
Lemma Inv_tries s s' ms ms' us :
  Inv s ms us -> grown s s' -> tries_hold s' ms' -> keeps_tries ms ms' ->
  (forall m, ms' !! main = Some m -> main_ok is_code m) -> Inv s' ms' us.
Proof.
  intros [Hmain Ht (m & Hm & Hok) Ho Hh He Hu] [Hdb Hob Hst] Ht' Hk Hok'.
  split; rewrite ?Hdb, ?Hob; try done.
  - destruct (Hk main (ex_intro _ m Hm)) as [m' Hm']. eauto.
  - intros l a Hl. destruct (Ho l a Hl) as [? Hp]. split; [done|]. intros p Hap. destruct (Hp p Hap). auto.
  - intros addr p Hp. destruct (Hh addr p Hp). auto.
  - eapply Forall_impl; [done|]. intros u. by apply undo_ok_keeps.
Qed.

Lemma Inv_same s s' ms us : Inv s ms us -> grown s s' -> tries_hold s' ms -> Inv s' ms us.
Proof.
  intros Hi Hg Ht. eapply Inv_tries; [done|done|done|by intros p|].
  intros m Hm. destruct (inv_main_ok _ _ _ Hi) as (m' & Hm' & Hok). congruence.
Qed.

Lemma Inv_main s s' ms us f :
  Inv s ms us -> grown s s' -> tries_hold s' (alter f main ms) ->
  (forall m, ms !! main = Some m -> main_ok is_code m -> main_ok is_code (f m)) -> Inv s' (alter f main ms) us.
Proof.
  intros Hi Hg Ht Hf. eapply Inv_tries; [done|done|done|apply keeps_alter|].
  intros m. rewrite lookup_alter_eq. destruct (inv_main_ok _ _ _ Hi) as (m' & Hm' & Hok). rewrite Hm'.
  intros [= <-]. by apply Hf.
Qed.

Lemma Inv_other s s' ms us p m :
  Inv s ms us -> grown s s' -> tries_hold s' (<[p := m]> ms) -> p <> main -> Inv s' (<[p := m]> ms) us.
Proof.
  intros Hi Hg Ht Hp. eapply Inv_tries; [done|done|done|apply keeps_insert|].
  intros m'. rewrite lookup_insert_ne by done. intros Hm'.
  destruct (inv_main_ok _ _ _ Hi) as (m'' & Hm'' & Hok). congruence.
Qed.

(** New journal entries, objects and holder entries. *)
Lemma Inv_journalize s ms us e u :
  Inv s ms us -> matches (objects s) e u -> undo_ok ms u ->
  Inv (with_adb (with_entries (entries (db s) ++ [e]) (db s)) s) ms (us ++ [u]).
Proof.
  intros [] He Hu. split; try done; cbn; [by apply Forall2_app; [|constructor]|].
  apply Forall_app. split; [done|by constructor].
Qed.

Lemma objs_le_alter os l a f :
  os !! l = Some a -> (forall p, acc_trie a = Some p -> acc_trie (f a) = Some p) ->
  acc_address (f a) = acc_address a -> objs_le os (alter f l os).
Proof.
  intros Hl Ht Ha k b p Hk Hp. destruct (decide (l = k)) as [<-|Hne].
  - rewrite Hl in Hk. injection Hk as <-. exists (f a). rewrite list_lookup_alter_eq, Hl. auto.
  - exists b. by rewrite list_lookup_alter_ne.
Qed.

Lemma Inv_object s ms us l a f :
  Inv s ms us -> objects s !! l = Some a -> obj_ok (f a) -> acc_address (f a) = acc_address a ->
  (forall p, acc_trie a = Some p -> acc_trie (f a) = Some p) ->
  (forall p, acc_trie (f a) = Some p -> p <> main /\ is_Some (ms !! p)) ->
  Inv (with_objects (alter f l (objects s)) s) ms us.
Proof.
  intros Hi Hl Hok Ha Ht Hp. pose proof (inv_objects _ _ _ Hi) as Hos. destruct Hi. split; try done; cbn.
  - intros k b. destruct (decide (l = k)) as [<-|Hne].
    + rewrite list_lookup_alter_eq, Hl. intros [= <-]. done.
    + rewrite list_lookup_alter_ne by done. apply Hos.
  - eapply Forall2_impl; [done|]. intros e u. apply matches_le. by eapply objs_le_alter.
Qed.

Lemma Inv_new_object s ms us a :
  Inv s ms us -> obj_ok a -> (forall p, acc_trie a = Some p -> p <> main /\ is_Some (ms !! p)) ->
  Inv (with_objects (objects s ++ [a]) s) ms us.
Proof.
  intros Hi Hok Hp. pose proof (inv_objects _ _ _ Hi) as Hos. destruct Hi. split; try done; cbn.
  - intros k b [Hk|[_ Hk]]%lookup_app_Some; [by apply (Hos k)|]. apply list_lookup_singleton_Some in Hk as [_ <-]. done.
  - eapply Forall2_impl; [done|]. intros e u. apply matches_le. intros l b p Hl Hb. exists b.
    by rewrite lookup_app_l by by eapply lookup_lt_Some.
Qed.

Lemma Inv_holder s ms us addr p :
  Inv s ms us -> p <> main -> is_Some (ms !! p) ->
  Inv (with_adb (with_dataTries (<[addr := p]> (dataTries (db s))) (db s)) s) ms us.
Proof.
  intros Hi Hp Hs. pose proof (inv_holder _ _ _ Hi) as Hh. destruct Hi. split; try done; cbn.
  intros k q. rewrite lookup_insert. case_decide; [by intros [= <-]|apply Hh].
Qed.

(** ** Going back to an earlier journal

    [n] is the earlier length of the journal, [es0] its entries, [ms0] the maps
    then; storage and last committed root do not change on the way. *)

Variables (n : nat) (es0 : list (JournalEntry T)) (ms0 : maps).
Variables (st0 : trieStorageManager) (last0 : string).

Record back (R : list undoEntry -> maps -> maps -> Prop) (s : State) (ms : maps) (us : list undoEntry) : Prop := {
  back_inv : Inv s ms us;
  back_len : (n <= length us)%nat;
  back_base : take n (entries (db s)) = es0;
  back_storage : storage s = st0;
  back_last : lastRootHash (db s) = last0;
  back_rev : R (rev (drop n us)) ms ms0;
}.

Abbreviation Back := (back (reverts main)).
Abbreviation BackMod := (fun addr => back (reverts_mod main addr)).

Definition same_core (s s' : State) : Prop :=
  entries (db s') = entries (db s) /\ storage s' = storage s /\ lastRootHash (db s') = lastRootHash (db s) /\
  userAccounts (db s') = userAccounts (db s).

Lemma grown_core s s' : grown s s' -> same_core s s'.
Proof. intros [Hd _ Hs]. unfold same_core. by rewrite Hd, Hs. Qed.
Lemma core_trans s1 s2 s3 : same_core s1 s2 -> same_core s2 s3 -> same_core s1 s3.
Proof. intros (?&?&?&?) (?&?&?&?). unfold same_core. repeat split; congruence. Qed.

Lemma back_core (R R' : list undoEntry -> maps -> maps -> Prop) s s' ms ms' us :
  back R s ms us -> same_core s s' -> Inv s' ms' us ->
  (forall es, R es ms ms0 -> R' es ms' ms0) -> back R' s' ms' us.
Proof.
  intros [Hi Hlen Hb Hst Hl Hr] (He & Hs & Hla & _) Hi' HR. split; try done; [congruence..|by apply HR].
Qed.

Lemma back_same R s s' ms us : back R s ms us -> grown s s' -> tries_hold s' ms -> back R s' ms us.
Proof.
  intros Hb Hg Ht. eapply back_core; [done|by apply grown_core| |by auto].
  eapply Inv_same; [apply Hb|done|done].
Qed.

Lemma back_entries_length R s ms us : back R s ms us -> length (entries (db s)) = length us.
Proof. intros Hb. by eapply Forall2_length, Hb. Qed.

Lemma back_journalize (R R' : list undoEntry -> maps -> maps -> Prop) s ms us e u :
  back R s ms us -> matches (objects s) e u -> undo_ok ms u ->
  (forall es, R es ms ms0 -> R' (u :: es) ms ms0) ->
  back R' (with_adb (with_entries (entries (db s) ++ [e]) (db s)) s) ms (us ++ [u]).
Proof.
  intros Hb He Hu HR. pose proof (back_entries_length _ _ _ _ Hb) as Hlen. destruct Hb as [Hi Hn Hbase Hst Hl Hr].
  split; try done.
  - by apply Inv_journalize.
  - rewrite length_app. lia.
  - cbn. rewrite take_app_le by lia. done.
  - rewrite drop_app_le by done. rewrite rev_app_distr. by apply HR.
Qed.

Lemma back_main R s ms us : back R s ms us -> exists m, ms !! main = Some m /\ main_ok is_code m /\ mainTrie (db s) = main.
Proof. intros [[Hmain _ (m & Hm & Hok) _ _ _ _] _ _ _ _ _]. exists m. auto. Qed.

(** *** Saving an account *)

Definition old_entry (addr : string) (o : option (account T)) : JournalEntry T :=
  match o with None => journalEntryAccountCreation addr main | Some a => journalEntryAccount a end.

Lemma back_old_entry s ms us m addr o :
  Back s ms us -> ms !! main = Some m -> account_at is_code addr m o -> addr <> EmptyString -> ~ is_code addr ->
  BackMod addr (with_adb (with_entries (entries (db s) ++ [old_entry addr o]) (db s)) s) ms
    (us ++ [UAccount addr (m !! addr)]).
Proof.
  intros Hb Hm Ho Ha Hc. eapply back_journalize; [done|..].
  - unfold account_at in Ho. destruct (m !! addr) as [v|].
    + destruct Ho as (d & -> & Hd & _). by apply (match_account _ (stored_account addr d)).
    + subst o. constructor.
  - cbn. split; [done|]. split; [done|]. intros b Hv. unfold account_at in Ho. rewrite Hv in Ho.
    destruct Ho as (d & _ & Hd & _ & Hk). by exists d.
  - intros es Hr. destruct (back_main _ _ _ _ Hb) as (m' & Hm' & Hok & _).
    apply account_entry; [done| |done]. rewrite Hm in Hm'. injection Hm' as <-. apply Hok.
Qed.

Lemma obj_ok_data a f :
  obj_ok a -> code_key is_code (GetCodeHash (f (acc_data a))) -> obj_ok (with_acc_data f a).
Proof. by intros []. Qed.

(** The data trie of the account, a new one if it has none. *)
Lemma data_trie_of addr s ms us l a :
  BackMod addr s ms us -> objects s !! l = Some a -> acc_address a = addr ->
  exists s' ms' p a' mp, (match acc_trie a with
      | Some p => mret p
      | None =>
          p ← main_Recreate levels EmptyString;
          _ ← set_object l (with_acc_trie p);
          _ ← upd_adb (fun d => with_dataTries (<[acc_address a := p]> (dataTries d)) d);
          mret p
      end) s = (s', Ok p) /\
    BackMod addr s' ms' us /\ objects s' !! l = Some a' /\ acc_trie a' = Some p /\ obj_ok a' /\
    acc_address a' = addr /\ acc_code a' = acc_code a /\ acc_hasNewCode a' = acc_hasNewCode a /\
    ms' !! p = Some mp /\ p <> main /\ ms' !! main = ms !! main /\ userAccounts (db s') = userAccounts (db s).
Proof.
  intros Hb Hl Ha. destruct (inv_objects _ _ _ (back_inv _ _ _ _ Hb) l a Hl) as [Hok Hp].
  destruct (acc_trie a) as [p|] eqn:Et.
  { destruct (Hp p eq_refl) as [Hne [mp Hmp]]. exists s, ms, p, a, mp. by split_and!. }
  destruct (back_main _ _ _ _ Hb) as (m & Hm & Hmok & Hmain).
  pose proof (inv_tries _ _ _ (back_inv _ _ _ _ Hb)) as Ht.
  destruct (main_Recreate_empty levels s ms m Ht) as (s1 & Hrun & Hg & Ht1); [by rewrite Hmain|].
  set (p := length (tries s)) in *.
  assert (p <> main) as Hne.
  { pose proof (tries_hold_lt s ms main m Ht Hm). subst p. lia. }
  assert (ms ⊆ <[p := ∅]> ms) as Hsub by by apply insert_subseteq, tries_hold_fresh.
  assert (Inv s1 (<[p := ∅]> ms) us) as Hi1 by (eapply Inv_other; [apply Hb|done..]).
  assert (objects s1 !! l = Some a) as Hl1 by by rewrite (grown_objects _ _ Hg).
  assert (Inv (with_objects (alter (with_acc_trie p) l (objects s1)) s1) (<[p := ∅]> ms) us) as Hi2.
  { eapply Inv_object; [exact Hi1|exact Hl1|by destruct Hok|done|by rewrite Et|].
    intros q [= <-]. split; [done|]. rewrite lookup_insert_eq. eauto. }
  apply (Inv_holder _ _ _ addr p) in Hi2; [|done|rewrite lookup_insert_eq; eauto].
  unfold mbind, M_bind. rewrite Hrun. cbn.
  eexists _, (<[p := ∅]> ms), p, (with_acc_trie p a), ∅. split; [rewrite Ha; reflexivity|].
  split; [|split_and!; try done].
  - eapply back_core; [exact Hb| |exact Hi2|].
    + eapply core_trans; [by apply grown_core|done].
    + intros es Hr x. eapply reverts_mono; [|apply Hr]. by apply alter_mono.
  - cbn. by rewrite list_lookup_alter_eq, Hl1.
  - by destruct Hok.
  - by rewrite lookup_insert_eq.
  - by rewrite lookup_insert_ne.
  - cbn. by rewrite (grown_db _ _ Hg).
Qed.

Lemma object_run (s : State) l a : objects s !! l = Some a -> object l s = (s, Ok a).
Proof. intros Hl. unfold object. unfold mbind, M_bind, get. by rewrite Hl. Qed.

(** Changing an object in place. *)
Lemma back_object R s ms us l a f :
  back R s ms us -> objects s !! l = Some a -> obj_ok (f a) -> acc_address (f a) = acc_address a ->
  acc_trie (f a) = acc_trie a ->
  back R (with_objects (alter f l (objects s)) s) ms us.
Proof.
  intros Hb Hl Hok Ha Ht. eapply back_core; [exact Hb|done| |by auto].
  eapply Inv_object; [apply Hb|exact Hl|done|done|by rewrite Ht|]. rewrite Ht.
  by apply (inv_objects _ _ _ (back_inv _ _ _ _ Hb) l a Hl).
Qed.

Lemma back_set_object R s ms us l a f :
  back R s ms us -> objects s !! l = Some a -> obj_ok (f a) -> acc_address (f a) = acc_address a ->
  acc_trie (f a) = acc_trie a ->
  exists s', set_object l f s = (s', Ok tt) /\ back R s' ms us /\ objects s' !! l = Some (f a) /\ db s' = db s.
Proof.
  intros Hb Hl Hok Ha Ht. eexists. split; [reflexivity|]. split; [by eapply back_object|]. split; [|done].
  cbn. by rewrite list_lookup_alter_eq, Hl.
Qed.

Lemma dirty_order_map d : list_to_map (dirty_order d) = d /\ NoDup (dirty_order d).*1.
Proof.
  assert (NoDup (dirty_order d).*1) as Hnd by (rewrite (dirty_order_all d); apply NoDup_fst_map_to_list).
  split; [|done]. rewrite <- (list_to_map_to_list d) at 2. by apply list_to_map_proper.
Qed.

Lemma saved_values_union {A} (d : gmap string A) m : saved_values d m ∪ ∅ = saved_values d m.
Proof. apply (right_id ∅ (∪)). Qed.

Lemma saved_values_some (d : gmap string string) m : saved_values (Some <$> d) m = saved_values d m.
Proof.
  apply map_eq. intros k. unfold saved_values. rewrite !map_lookup_imap, lookup_fmap. by destruct (d !! k).
Qed.

Lemma saved_values_nonempty {A} (d : gmap string A) m : d <> ∅ -> saved_values d m <> ∅.
Proof.
  intros Hd E. apply Hd, map_empty. intros k. apply (f_equal (lookup k)) in E. unfold saved_values in E.
  rewrite map_lookup_imap, lookup_empty in E. by destruct (d !! k).
Qed.

(** What saving does to the account object, as far as later steps look at it. *)
Definition same_object (a a' : account T) : Prop :=
  acc_address a' = acc_address a /\ acc_code a' = acc_code a /\ acc_hasNewCode a' = acc_hasNewCode a.

(** Writing the dirty values and journalizing the old ones. *)
Lemma write_and_journalize addr s ms us l a p mp d :
  BackMod addr s ms us -> objects s !! l = Some a -> acc_trie a = Some p -> acc_address a = addr ->
  ms !! p = Some mp -> p <> main -> d <> ∅ ->
  exists s' ms' us', (oldValues ← write_dirty p (dirty_order d) ∅;
      _ ← reject_if (bool_decide (oldValues = ∅)) ErrNilOrEmptyDataTrieUpdates;
      journalize (journalEntryAccountDataTrieUpdates oldValues l)) s = (s', Ok tt) /\
    BackMod addr s' ms' us' /\ objects s' = objects s /\ is_Some (ms' !! p) /\ ms' !! main = ms !! main /\
    userAccounts (db s') = userAccounts (db s).
Proof.
  intros Hb Hl Ht Ha Hp Hne Hd. destruct (dirty_order_map d) as [Hmap Hnd].
  destruct (write_dirty_spec (dirty_order d) s ms p mp ∅ (inv_tries _ _ _ (back_inv _ _ _ _ Hb)) Hp Hnd)
    as (s1 & Hrun & Ht1 & Hq). rewrite Hmap, saved_values_union in Hrun. rewrite Hmap in Ht1.
  set (u := UData (saved_values (Some <$> d) mp) addr p).
  assert (back (fun es ms ms0 => reverts_mod main addr (u :: es) ms ms0) s1 (alter (write_all (Some <$> d)) p ms) us) as Hb1.
  { eapply back_core; [exact Hb|by apply grown_core, quiet_grown| |].
    - eapply Inv_tries; [apply Hb|by apply quiet_grown|done|apply keeps_alter|].
      intros m. rewrite lookup_alter_ne by done. intros Hm.
      destruct (back_main _ _ _ _ Hb) as (m' & Hm' & Hok & _). congruence.
    - intros es Hr. apply data_entry; [done| |done|done].
      by eapply tries_hold_no_empty; [apply (inv_tries _ _ _ (back_inv _ _ _ _ Hb))|]. }
  unfold mbind, M_bind. rewrite Hrun. rewrite bool_decide_eq_false_2 by by apply saved_values_nonempty. cbn.
  eexists _, _, (us ++ [u]). split; [reflexivity|]. split; [|split_and!].
  - eapply back_journalize; [exact Hb1| | |by auto].
    + subst u addr. rewrite saved_values_some. apply match_data; [by rewrite (quiet_objects _ _ Hq)|done].
    + cbn. split; [done|]. rewrite lookup_alter_eq, Hp. eauto.
  - apply Hq.
  - rewrite lookup_alter_eq, Hp. eauto.
  - by rewrite lookup_alter_ne.
  - cbn. by rewrite (quiet_db _ _ Hq).
Qed.

Lemma saveDataTrie_back addr s ms us l a :
  BackMod addr s ms us -> objects s !! l = Some a -> acc_address a = addr ->
  exists s' ms' us' a', AccountsDB_saveDataTrie levels dirty_order l s = (s', Ok tt) /\
    BackMod addr s' ms' us' /\ objects s' !! l = Some a' /\ same_object a a' /\
    ms' !! main = ms !! main /\ userAccounts (db s') = userAccounts (db s).
Proof.
  intros Hb Hl Ha. unfold AccountsDB_saveDataTrie. unfold mbind at 1, M_bind at 1. rewrite (object_run s l a Hl).
  destruct (decide (acc_dirty a = ∅)) as [E|E]; [by exists s, ms, us, a|].
  destruct (data_trie_of addr s ms us l a Hb Hl Ha)
    as (s1 & ms1 & p & a1 & mp & Hrun & Hb1 & Hl1 & Ht1 & Hok1 & Ha1 & Hc1 & Hn1 & Hp1 & Hne & Hm1 & Hu1).
  unfold mbind at 1, M_bind at 1. rewrite Hrun.
  destruct (write_and_journalize addr s1 ms1 us l a1 p mp (acc_dirty a) Hb1 Hl1 Ht1 Ha1 Hp1 Hne E)
    as (s2 & ms2 & us2 & Hrun2 & Hb2 & Hob2 & [mp2 Hp2] & Hm2 & Hu2).
  apply M_bind_ok in Hrun2 as (w1 & ov & Hw1 & Hrun2). apply M_bind_ok in Hrun2 as (w2 & [] & Hw2 & Hrun2).
  unfold mbind at 1, M_bind at 1. rewrite Hw1. unfold mbind at 1, M_bind at 1. rewrite Hw2.
  unfold mbind at 1, M_bind at 1. rewrite Hrun2.
  destruct (on_trie_RootHash s2 ms2 p mp2 (inv_tries _ _ _ (back_inv _ _ _ _ Hb2)) Hp2) as (s3 & h & Hrun3 & Ht3 & Hq3 & _).
  unfold mbind at 1, M_bind at 1. rewrite Hrun3.
  assert (BackMod addr s3 ms2 us2) as Hb3 by (eapply back_same; [done|by apply quiet_grown|done]).
  assert (objects s3 !! l = Some a1) as Hl3 by by rewrite (quiet_objects _ _ Hq3), Hob2.
  destruct (back_set_object _ s3 ms2 us2 l a1 (with_acc_data (SetRootHash h)) Hb3 Hl3) as (s4 & Hrun4 & Hb4 & Hl4 & Hd4); [|done|done|].
  { apply obj_ok_data; [done|]. rewrite code_of_SetRootHash. apply Hok1. }
  unfold mbind at 1, M_bind at 1. rewrite Hrun4.
  destruct (back_set_object _ s4 ms2 us2 l _ (with_acc_dirty ∅) Hb4 Hl4) as (s5 & Hrun5 & Hb5 & Hl5 & Hd5); [|done|done|].
  { destruct Hok1. split; cbn; try done. by rewrite code_of_SetRootHash. }
  exists s5, ms2, us2. eexists. split; [exact Hrun5|]. split; [done|]. split; [exact Hl5|].
  split; [by unfold same_object; cbn; rewrite Ha1, Ha|]. split; [by rewrite Hm2|].
  by rewrite Hd5, Hd4, (quiet_db _ _ Hq3), Hu2.
Qed.

(** No counter of code references is about to overflow. *)
Definition counters_fit (m : gmap string string) : Prop :=
  forall h e, is_code h -> code_at h m = Some e -> NumReferences e + 1 < 2 ^ 32.

Lemma counters_fit_key m h e :
  main_ok is_code m -> counters_fit m -> code_key is_code h -> code_at h m = Some e -> NumReferences e + 1 < 2 ^ 32.
Proof. intros Hm Hf [->|Hc]; [by rewrite (code_at_no_key is_code m Hm)|by apply Hf]. Qed.

Lemma code_at_dec_ne h k m : k <> h -> code_at k (code_dec h m) = code_at k m.
Proof. intros Hne. unfold code_at. by rewrite code_dec_lookup_ne. Qed.

(** Both counters and the journal entry that undoes them. *)
Lemma change_code_back addr s ms us m oh nh newCode :
  BackMod addr s ms us -> ms !! main = Some m -> counters_fit m -> addr <> EmptyString -> ~ is_code addr ->
  code_key is_code oh -> (slen newCode <> 0 -> is_code nh) -> (slen newCode = 0 -> nh = EmptyString) -> oh <> nh ->
  exists s' ms', (old ← updateOldCodeEntry oh; _ ← updateNewCodeEntry nh newCode; s ← get;
      journalize (journalEntryCode old oh nh (mainTrie (db s)))) s = (s', Ok tt) /\
    BackMod addr s' ms' (us ++ [UCode (code_at oh m) oh nh]) /\ objects s' = objects s /\
    userAccounts (db s') = userAccounts (db s).
Proof.
  intros Hb Hm Hfit Ha Hc Ho Hn0 Hn1 Hne.
  destruct (back_main _ _ _ _ Hb) as (m' & Hm' & Hok & Hmain). rewrite Hm in Hm'. injection Hm' as <-.
  assert (code_key is_code nh) as Hn by (destruct (Z.eq_dec (slen newCode) 0); [left|right]; auto).
  pose proof (main_ok_dec _ code_key_nonempty oh m Hok Ho) as Hok1.
  destruct (updateOldCodeEntry_spec s ms m oh (inv_tries _ _ _ (back_inv _ _ _ _ Hb))) as (s1 & Hr1 & Ht1 & Hq1);
    [by rewrite Hmain|by eapply main_code_ok|]. rewrite Hmain in Ht1.
  assert (mainTrie (db s1) = main) as Hmain1 by by rewrite (quiet_db _ _ Hq1).
  destruct (updateNewCodeEntry_spec s1 _ (code_dec oh m) nh newCode Ht1) as (s2 & Hr2 & Ht2 & Hq2).
  { by rewrite Hmain1, lookup_alter_eq, Hm. }
  { intros _. by eapply main_code_ok. }
  { intros e. rewrite code_at_dec_ne by done. by apply (counters_fit_key m). }
  rewrite Hmain1, alter_alter_eq in Ht2. change (code_inc nh newCode ∘ code_dec oh) with
    (fun m => code_inc nh newCode (code_dec oh m)) in Ht2.
  assert (quiet s s2) as Hq by by eapply adb_quiet_trans.
  set (u := UCode (code_at oh m) oh nh).
  assert (back (fun es ms ms0 => reverts_mod main addr (u :: es) ms ms0) s2
            (alter (fun m => code_inc nh newCode (code_dec oh m)) main ms) us) as Hb2.
  { eapply back_core; [exact Hb|by apply grown_core, quiet_grown| |].
    - eapply Inv_main; [apply Hb|by apply quiet_grown|done|]. intros m' Hm' _. rewrite Hm in Hm'. injection Hm' as <-.
      apply main_ok_inc; [done|done|done|]. intros e. rewrite code_at_dec_ne by done. by apply (counters_fit_key m).
    - intros es Hr. apply (code_entry is_code code_key_nonempty); try done. intros e. by apply (counters_fit_key m). }
  unfold mbind, M_bind, get. rewrite Hr1, Hr2. eexists _, _. split; [reflexivity|].
  split; [|split; [apply Hq|cbn; by rewrite (quiet_db _ _ Hq)]].
  eapply back_journalize; [exact Hb2| | |by auto].
  - rewrite (quiet_db _ _ Hq), Hmain. constructor.
  - cbn. split; [done|]. split; [done|]. intros e He. by apply (code_at_some oh m e); [eapply main_code_ok|].
Qed.

Lemma saveCode_back addr s ms us m l a o :
  BackMod addr s ms us -> objects s !! l = Some a -> acc_address a = addr -> ms !! main = Some m -> counters_fit m ->
  (forall x, o = Some x -> code_key is_code (GetCodeHash (acc_data x))) ->
  exists s' ms' us' a', saveCode l o s = (s', Ok tt) /\ BackMod addr s' ms' us' /\
    objects s' !! l = Some a' /\ acc_address a' = addr.
Proof.
  intros Hb Hl Ha Hm Hfit Ho. unfold saveCode. unfold mbind at 1, M_bind at 1, get at 1.
  destruct (userAccounts (db s)); cbn [negb]; [|by exists s, ms, us, a].
  unfold mbind at 1, M_bind at 1. rewrite (object_run s l a Hl).
  destruct (acc_hasNewCode a); cbn [negb]; [|by exists s, ms, us, a].
  destruct (inv_objects _ _ _ (back_inv _ _ _ _ Hb) l a Hl) as [Hok _].
  set (oh := from_option _ _ o). set (nh := if slen (acc_code a) =? 0 then EmptyString else Compute (acc_code a)).
  assert (code_key is_code oh) as Hoh by (subst oh; destruct o as [x|]; [by apply Ho|by left]).
  assert ((slen (acc_code a) <> 0 -> is_code nh) /\ (slen (acc_code a) = 0 -> nh = EmptyString)) as [Hn0 Hn1].
  { subst nh. destruct (Z.eqb_spec (slen (acc_code a)) 0) as [E|E]; [done|]. split; [|done]. intros _. by apply Hok. }
  assert (code_key is_code nh) as Hn by (destruct (Z.eq_dec (slen (acc_code a)) 0); [left|right]; auto).
  assert (obj_ok (with_acc_data (SetCodeHash nh) a)) as Hok'.
  { apply obj_ok_data; [done|]. by rewrite code_of_SetCodeHash. }
  unfold str_eqb. destruct (decide (oh = nh)) as [E|E].
  { rewrite bool_decide_eq_true_2 by done.
    destruct (back_set_object _ s ms us l a (with_acc_data (SetCodeHash nh)) Hb Hl) as (s1 & Hr & Hb1 & Hl1 & _); [done..|].
    by exists s1, ms, us, (with_acc_data (SetCodeHash nh) a). }
  rewrite bool_decide_eq_false_2 by done.
  assert (addr <> EmptyString /\ ~ is_code addr) as [Ha0 Hac] by (subst addr; by destruct Hok).
  destruct (change_code_back addr s ms us m oh nh (acc_code a) Hb Hm Hfit Ha0 Hac Hoh Hn0 Hn1 E)
    as (s1 & ms1 & Hr & Hb1 & Hob1 & _).
  apply M_bind_ok in Hr as (w1 & old & Hw1 & Hr). apply M_bind_ok in Hr as (w2 & [] & Hw2 & Hr).
  apply M_bind_ok in Hr as (w3 & x3 & Hw3 & Hr).
  unfold mbind at 1, M_bind at 1. rewrite Hw1. unfold mbind at 1, M_bind at 1. rewrite Hw2.
  unfold mbind at 1, M_bind at 1. rewrite Hw3. unfold mbind at 1, M_bind at 1. rewrite Hr.
  rewrite <- Hob1 in Hl.
  destruct (back_set_object _ s1 ms1 _ l a (with_acc_data (SetCodeHash nh)) Hb1 Hl) as (s2 & Hr2 & Hb2 & Hl2 & _); [done..|].
  by exists s2, ms1, (us ++ [UCode (code_at oh m) oh nh]), (with_acc_data (SetCodeHash nh) a).
Qed.

(** The account itself is written last. *)
Lemma save_last addr s ms us l a :
  BackMod addr s ms us -> objects s !! l = Some a -> acc_address a = addr ->
  exists s' ms', saveAccountToTrie a s = (s', Ok tt) /\ Back s' ms' us.
Proof.
  intros Hb Hl Ha. destruct (back_main _ _ _ _ Hb) as (m & Hm & Hok & Hmain).
  destruct (inv_objects _ _ _ (back_inv _ _ _ _ Hb) l a Hl) as [Hoa _].
  destruct (saveAccountToTrie_spec s ms m a (inv_tries _ _ _ (back_inv _ _ _ _ Hb))) as (s' & b & Hr & Hbm & Ht & Hq);
    [by rewrite Hmain|]. rewrite Hmain in Ht.
  eexists s', _. split; [done|]. eapply back_core; [exact Hb|by apply grown_core, quiet_grown| |].
  - eapply Inv_main; [apply Hb|by apply quiet_grown|done|]. intros m' _ Hm'. destruct Hoa.
    apply main_ok_account; [done..|]. intros _. by exists (acc_data a).
  - intros es Hrev. rewrite Ha. apply Hrev.
Qed.

(** Without further changes the state itself can be reverted. *)
Lemma back_mod_back addr s ms us : BackMod addr s ms us -> Back s ms us.
Proof.
  intros Hb. destruct (back_main _ _ _ _ Hb) as (m & Hm & Hok & _).
  eapply back_core; [exact Hb|done|apply Hb|]. intros es. eapply reverts_mod_reverts; [done|apply Hok].
Qed.

Lemma slen_nonzero addr : addr <> EmptyString -> (slen addr =? 0) = false.
Proof. intros Hne. apply Z.eqb_neq. destruct addr; [done|]. unfold slen. cbn. lia. Qed.

Lemma journal_old (s : State) addr o :
  mainTrie (db s) = main -> addr <> EmptyString ->
  (s' ← get; match o with
   | None => _ ← reject_if (slen addr =? 0) ErrInvalidAddressLength;
             journalize (journalEntryAccountCreation addr (mainTrie (db s')))
   | Some x => journalize (journalEntryAccount x) end) s =
  (with_adb (with_entries (entries (db s) ++ [old_entry addr o]) (db s)) s, Ok tt).
Proof.
  intros Hmain Hne. unfold mbind, M_bind, get. destruct o as [x|]; [done|].
  rewrite slen_nonzero by done. cbn. by rewrite Hmain.
Qed.

Lemma SaveAccount_back s ms us m l a :
  Back s ms us -> ms !! main = Some m -> counters_fit m -> objects s !! l = Some a ->
  exists s' ms' us', SaveAccount levels dirty_order l s = (s', Ok tt) /\ Back s' ms' us'.
Proof.
  intros Hb Hm Hfit Hl. unfold SaveAccount. unfold mbind at 1, M_bind at 1.
  rewrite (object_run s l a Hl). destruct (back_main _ _ _ _ Hb) as (m' & Hm' & Hok & Hmain).
  rewrite Hm in Hm'. injection Hm' as <-.
  destruct (inv_objects _ _ _ (back_inv _ _ _ _ Hb) l a Hl) as [Hoa _].
  destruct (getAccount_spec is_code s ms m (acc_address a) (inv_tries _ _ _ (back_inv _ _ _ _ Hb)))
    as (s1 & o & Hr1 & Hat & Ht1 & Hq1); [by rewrite Hmain|done|apply Hoa|apply Hoa|].
  unfold mbind at 1, M_bind at 1. rewrite Hr1.
  assert (Back s1 ms us) as Hb1 by (eapply back_same; [done|by apply quiet_grown|done]).
  pose proof (back_old_entry s1 ms us m (acc_address a) o Hb1 Hm Hat (ok_address _ Hoa) (ok_not_code _ Hoa)) as Hb2.
  pose proof (journal_old s1 (acc_address a) o) as Hj. rewrite (quiet_db _ _ Hq1) in Hj.
  specialize (Hj Hmain (ok_address _ Hoa)). apply M_bind_ok in Hj as (w & x & Hg & Hj). unfold get in Hg. injection Hg as <- <-.
  unfold mbind at 1, M_bind at 1, get at 1. unfold mbind at 1, M_bind at 1. rewrite (quiet_db _ _ Hq1) in *. rewrite Hj.
  set (s2 := with_adb _ s1) in *. assert (objects s2 !! l = Some a) as Hl2 by (cbn; by rewrite (quiet_objects _ _ Hq1)).
  destruct (saveDataTrie_back _ s2 ms _ l a Hb2 Hl2 eq_refl)
    as (s3 & ms3 & us3 & a3 & Hr3 & Hb3 & Hl3 & (Ha3 & _) & Hm3 & _).
  unfold mbind at 1, M_bind at 1. rewrite Hr3. rewrite Hm in Hm3.
  destruct (saveCode_back _ s3 ms3 us3 m l a3 o Hb3 Hl3 Ha3 Hm3 Hfit) as (s4 & ms4 & us4 & a4 & Hr4 & Hb4 & Hl4 & Ha4).
  { intros x ->. unfold account_at in Hat. destruct (m !! acc_address a); [|done]. by destruct Hat as (d & [= ->] & _ & _ & ?). }
  unfold mbind at 1, M_bind at 1. rewrite Hr4. unfold mbind at 1, M_bind at 1. rewrite (object_run s4 l a4 Hl4).
  destruct (save_last _ s4 ms4 us4 l a4 Hb4 Hl4 Ha4) as (s5 & ms5 & Hr5 & Hb5). by exists s5, ms5, us4.
Qed.

(** *** Undoing entries *)

Lemma updates_order_map u : list_to_map (updates_order u) = u /\ NoDup (updates_order u).*1.
Proof.
  assert (NoDup (updates_order u).*1) as Hnd by (rewrite (updates_order_all u); apply NoDup_fst_map_to_list).
  split; [|done]. rewrite <- (list_to_map_to_list u) at 2. by apply list_to_map_proper.
Qed.

(** One entry of the journal, with the save of the account it gives back. *)
Definition revert_entry (e : JournalEntry T) : M State adbError unit :=
  acnt ← Revert updates_order e;
  match acnt with None => mret tt | Some a => saveAccountToTrie a end.

(** What a reverted entry does. *)
Definition reverted (u : undoEntry) (s s' : State) (ms ms' : maps) (us : list undoEntry) : Prop :=
  undo main u ms ms' /\ Inv s' ms' us /\ same_core s s' /\ objs_le (objects s) (objects s') /\ keeps_tries ms ms'.

Lemma objs_le_refl os : objs_le os os.
Proof. intros l a p Hl Hp. eauto. Qed.

Lemma reverted_main u s s' ms us f :
  Inv s ms us -> grown s s' -> tries_hold s' (alter f main ms) ->
  (forall m, main_ok is_code m -> main_ok is_code (f m)) -> undo main u ms (alter f main ms) ->
  reverted u s s' ms (alter f main ms) us.
Proof.
  intros Hi Hg Ht Hf Hu. split; [done|]. split; [by eapply Inv_main; [| | |auto]|].
  split; [by apply grown_core|]. split; [|apply keeps_alter]. rewrite (grown_objects _ _ Hg). apply objs_le_refl.
Qed.

Lemma revert_account s ms us a b :
  Inv s ms us -> Marshal (acc_data a) = Ok b -> undo_ok ms (UAccount (acc_address a) (Some b)) ->
  exists s' ms', revert_entry (journalEntryAccount a) s = (s', Ok tt) /\
    reverted (UAccount (acc_address a) (Some b)) s s' ms ms' us.
Proof.
  intros Hi Hb (Ha & Hc & Hv). destruct (inv_main_ok _ _ _ Hi) as (m & Hm & _).
  destruct (saveAccountToTrie_spec s ms m a (inv_tries _ _ _ Hi)) as (s' & b' & Hr & Hb' & Ht & Hq);
    [by rewrite (inv_main _ _ _ Hi)|]. rewrite Hb in Hb'. injection Hb' as <-. rewrite (inv_main _ _ _ Hi) in Ht.
  eexists s', _. split; [exact Hr|]. apply reverted_main; [done|by apply quiet_grown|done| |done].
  intros m' Hm'. apply main_ok_account; auto.
Qed.

Lemma revert_creation s ms us addr :
  Inv s ms us -> undo_ok ms (UAccount addr None) ->
  exists s' ms', revert_entry (journalEntryAccountCreation addr main) s = (s', Ok tt) /\
    reverted (UAccount addr None) s s' ms ms' us.
Proof.
  intros Hi (Ha & Hc & _). destruct (inv_main_ok _ _ _ Hi) as (m & Hm & _).
  destruct (on_trie_Update s ms main m addr None (inv_tries _ _ _ Hi) Hm) as (s' & Hr & Ht & Hq).
  eexists s', _. split.
  - unfold revert_entry, Revert. unfold mbind, M_bind. rewrite Hr. reflexivity.
  - apply reverted_main; [done|by apply quiet_grown|done| |done]. intros m' Hm'. by apply main_ok_delete.
Qed.

Lemma revert_data s ms us ups l a p :
  Inv s ms us -> objects s !! l = Some a -> acc_trie a = Some p -> undo_ok ms (UData ups (acc_address a) p) ->
  exists s' ms', revert_entry (journalEntryAccountDataTrieUpdates ups l) s = (s', Ok tt) /\
    reverted (UData ups (acc_address a) p) s s' ms ms' us.
Proof.
  intros Hi Hl Htr [Hp [mp Hmp]]. destruct (updates_order_map ups) as [Hmap Hnd].
  destruct (inv_objects _ _ _ Hi l a Hl) as [Hoa Hpa].
  destruct (restore_values_spec (updates_order ups) s ms p mp (inv_tries _ _ _ Hi) Hmp Hnd) as (s1 & Hr1 & Ht1 & Hq1).
  rewrite Hmap in Ht1. set (ms1 := alter (write_all ups) p ms) in *.
  assert (ms1 !! p = Some (write_all ups mp)) as Hmp1 by (subst ms1; by rewrite lookup_alter_eq, Hmp).
  destruct (on_trie_RootHash s1 ms1 p _ Ht1 Hmp1) as (s2 & h & Hr2 & Ht2 & Hq2 & _).
  assert (quiet s s2) as Hq by by eapply adb_quiet_trans.
  assert (Inv s2 ms1 us) as Hi2.
  { eapply Inv_tries; [done|by apply quiet_grown|done|apply keeps_alter|]. intros m. subst ms1.
    rewrite lookup_alter_ne by done. intros Hm. destruct (inv_main_ok _ _ _ Hi) as (m' & Hm' & Hok). congruence. }
  assert (objects s2 !! l = Some a) as Hl2 by by rewrite (quiet_objects _ _ Hq).
  set (f := with_acc_data (SetRootHash h)). set (s3 := with_objects (alter f l (objects s2)) s2).
  assert (obj_ok (f a)) as Hof by (apply obj_ok_data; [done|rewrite code_of_SetRootHash; apply Hoa]).
  assert (Inv s3 ms1 us) as Hi3.
  { eapply Inv_object; [done|done|done|done|done|]. intros q Hq'. destruct (Hpa q Hq') as [? ?]. split; [done|].
    by apply keeps_alter. }
  assert (objects s3 !! l = Some (f a)) as Hl3 by (cbn; by rewrite list_lookup_alter_eq, Hl2).
  destruct (inv_main_ok _ _ _ Hi3) as (m3 & Hm3 & _).
  destruct (saveAccountToTrie_spec s3 ms1 m3 (f a) (inv_tries _ _ _ Hi3)) as (s4 & b & Hr4 & Hb & Ht4 & Hq4);
    [by rewrite (inv_main _ _ _ Hi3)|]. rewrite (inv_main _ _ _ Hi3) in Ht4.
  eexists s4, _. split.
  { unfold revert_entry, Revert, journalEntryAccountDataTrieUpdates_Revert. unfold mbind, M_bind.
    rewrite (object_run s l a Hl), Htr, Hr1, Hr2.
    unfold set_object, modify. fold f. fold s3. rewrite (object_run s3 l _ Hl3). exact Hr4. }
  split; [by exists b|]. split; [|split; [|split]].
  - eapply Inv_main; [exact Hi3|by apply quiet_grown|exact Ht4|]. intros m _ Hm. destruct Hof.
    apply main_ok_account; [done..|]. intros _. by exists (acc_data (f a)).
  - eapply core_trans; [by apply grown_core, quiet_grown|]. apply (core_trans _ s3); [done|].
    by apply grown_core, quiet_grown.
  - rewrite (quiet_objects _ _ Hq4). subst s3. cbn. rewrite <- (quiet_objects _ _ Hq). by eapply objs_le_alter.
  - intros q Hq'. by apply keeps_alter, keeps_alter.
Qed.

Lemma revert_remove s ms us h :
  Inv s ms us -> exists s' ms', revert_entry (journalEntryAccountDataTrieRemove h) s = (s', Ok tt) /\
    reverted UNone s s' ms ms' us.
Proof.
  intros Hi. eexists _, ms. split; [reflexivity|]. split; [done|]. split; [by destruct Hi|].
  split; [done|]. split; [apply objs_le_refl|by intros p].
Qed.

Lemma revert_code s ms us e oh nh :
  Inv s ms us -> undo_ok ms (UCode e oh nh) ->
  exists s' ms', revert_entry (journalEntryCode e oh nh main) s = (s', Ok tt) /\
    reverted (UCode e oh nh) s s' ms ms' us.
Proof.
  intros Hi (Ho & Hn & He). destruct (inv_main_ok _ _ _ Hi) as (m & Hm & Hok).
  unfold revert_entry, Revert, journalEntryCode_Revert. unfold str_eqb. destruct (decide (oh = nh)) as [E|E].
  { rewrite bool_decide_eq_true_2 by done. eexists s, _. split; [reflexivity|].
    assert (alter (code_undo e oh nh) main ms = ms) as Hid.
    { apply alter_id. intros m' _. unfold code_undo, str_eqb. by rewrite bool_decide_eq_true_2. }
    eapply reverted_main with (f := code_undo e oh nh); [done|done|rewrite Hid; apply Hi| |done].
    intros m' Hm'. unfold code_undo, str_eqb. by rewrite bool_decide_eq_true_2. }
  rewrite bool_decide_eq_false_2 by done.
  set (f1 := fun m => if slen oh =? 0 then m else code_write oh e m).
  assert (forall m, main_ok is_code m -> main_ok is_code (f1 m)) as Hf1.
  { intros m' Hm'. subst f1. cbn. destruct (Z.eqb_spec (slen oh) 0) as [E0|E0]; [done|].
    apply main_ok_code; [done|done| |done]. destruct Ho as [->|]; [done|done]. }
  assert (exists s1, revertOldCodeEntry e oh main s = (s1, Ok tt) /\ tries_hold s1 (alter f1 main ms) /\ quiet s s1)
    as (s1 & Hr1 & Ht1 & Hq1).
  { unfold revertOldCodeEntry. subst f1. destruct (slen oh =? 0); cbn.
    - exists s. split; [done|]. split; [|apply quiet_refl]. rewrite alter_id by done. apply Hi.
    - by eapply saveCodeEntry_spec; [apply Hi| |]. }
  assert (alter f1 main ms !! main = Some (f1 m)) as Hm1 by by rewrite lookup_alter_eq, Hm.
  assert (code_ok nh (f1 m)) as Hcok by (eapply main_code_ok; [by apply Hf1|done]).
  assert (exists s2, revertNewCodeEntry nh main s1 = (s2, Ok tt) /\
    tries_hold s2 (alter (code_dec nh) main (alter f1 main ms)) /\ quiet s1 s2) as (s2 & Hr2 & Ht2 & Hq2).
  { unfold revertNewCodeEntry. unfold mbind at 1, M_bind at 1.
    destruct (getCodeEntry_spec s1 _ main _ nh Ht1 Hm1 Hcok) as (s2 & -> & Ht2 & Hq2).
    destruct (code_at nh (f1 m)) as [x|] eqn:Ex.
    - destruct (code_dec_step s2 _ main _ nh x Ht2 Hm1 Hcok Ex) as (s3 & Hr3 & Ht3 & Hq3). exists s3.
      split; [by destruct (NumReferences x <=? 1)|]. split; [done|by eapply adb_quiet_trans].
    - exists s2. split; [done|]. split; [|done]. by erewrite alter_code_dec_none. }
  eexists s2, _. split; [unfold mbind, M_bind; rewrite Hr1, Hr2; reflexivity|].
  rewrite alter_alter_eq in Ht2.
  assert (alter (code_dec nh ∘ f1) main ms = alter (code_undo e oh nh) main ms) as Heq.
  { apply alter_ext. intros m' _. unfold code_undo, str_eqb. by rewrite bool_decide_eq_false_2. }
  eapply reverted_main with (f := code_undo e oh nh).
  - done.
  - apply quiet_grown. by eapply adb_quiet_trans.
  - by rewrite <- Heq.
  - intros m' Hm'. unfold code_undo, str_eqb. rewrite bool_decide_eq_false_2 by done.
    apply main_ok_dec; [done|by apply Hf1|done].
  - done.
Qed.

Lemma revert_one s ms us e u :
  Inv s ms us -> matches (objects s) e u -> undo_ok ms u ->
  exists s' ms', revert_entry e s = (s', Ok tt) /\ reverted u s s' ms ms' us.
Proof.
  intros Hi [a b Hb|addr|ups l a p Hl Hp|h|x oh nh] Hu.
  - by apply revert_account.
  - by apply revert_creation.
  - by apply revert_data.
  - by apply revert_remove.
  - by apply revert_code.
Qed.

(** Undoing a series of entries, last first. *)
Lemma revert_entries_spec es vs rest s ms us :
  Inv s ms us -> Forall2 (matches (objects s)) es vs -> Forall (undo_ok ms) vs ->
  reverts main (vs ++ rest) ms ms0 ->
  exists s' ms', revert_entries updates_order es s = (s', Ok tt) /\ Inv s' ms' us /\ same_core s s' /\
    reverts main rest ms' ms0.
Proof.
  revert vs s ms. induction es as [|e es IH]; intros vs s ms Hi Hes Hvs Hr.
  { apply Forall2_nil_inv_l in Hes as ->. by exists s, ms. }
  apply Forall2_cons_inv_l in Hes as (u & vs' & He & Hes & ->). apply Forall_cons in Hvs as [Hu Hvs].
  destruct (revert_one s ms us e u Hi He Hu) as (s1 & ms1 & Hr1 & Hundo & Hi1 & Hc1 & Hle & Hk).
  destruct (IH vs' s1 ms1 Hi1) as (s2 & ms2 & Hr2 & Hi2 & Hc2 & Hrev2).
  - eapply Forall2_impl; [done|]. intros ? ?. by apply matches_le.
  - eapply Forall_impl; [done|]. intros ?. by apply undo_ok_keeps.
  - by apply Hr.
  - exists s2, ms2. split; [|split; [done|split; [by eapply core_trans|done]]].
    cbn [revert_entries]. apply M_bind_ok in Hr1 as (w & x & Hw & Hr1).
    unfold mbind at 1, M_bind at 1. rewrite Hw. unfold mbind at 1, M_bind at 1. by rewrite Hr1.
Qed.

Lemma Forall2_rev_drop {A B} (P : A -> B -> Prop) k l l' :
  Forall2 P l l' -> Forall2 P (rev (drop k l)) (rev (drop k l')).
Proof. intros H. rewrite !rev_alt. by apply (Forall2_reverse P), Forall2_drop. Qed.

Lemma rev_drop_split {A} (l : list A) j k :
  (j <= k)%nat -> rev (drop j l) = rev (drop k l) ++ rev (drop j (take k l)).
Proof.
  intros Hle. rewrite <- rev_app_distr. f_equal. rewrite <- (take_drop k l) at 1.
  destruct (decide (k <= length l)%nat) as [Hk|Hk].
  - rewrite drop_app_le; [done|]. rewrite length_take. lia.
  - rewrite (drop_ge l) by lia. by rewrite !app_nil_r.
Qed.

Lemma RevertToSnapshot_back s ms us k :
  Back s ms us -> (n <= k)%nat -> (0 < k)%nat -> (k <= length us)%nat ->
  exists s' ms', RevertToSnapshot levels updates_order (Z.of_nat k) s = (s', Ok tt) /\
    Back s' ms' (take k us).
Proof.
  intros Hb Hnk Hk Hlen. pose proof (back_entries_length _ _ _ _ Hb) as Hel. destruct Hb as [Hi Hn Hbase Hst Hla Hr].
  unfold RevertToSnapshot. unfold mbind at 1, M_bind at 1, get at 1. unfold mbind at 1, M_bind at 1.
  destruct (Z.ltb_spec (Z.of_nat (length (entries (db s)))) (Z.of_nat k)); [lia|].
  destruct (Z.ltb_spec (Z.of_nat k) 0); [lia|]. cbn [orb reject_if mret].
  destruct (Z.eqb_spec (Z.of_nat k) 0); [lia|]. rewrite Nat2Z.id. unfold mret, M_ret.
  rewrite (rev_drop_split us n k Hnk) in Hr.
  destruct (revert_entries_spec (rev (drop k (entries (db s)))) (rev (drop k us)) (rev (drop n (take k us))) s ms us Hi
    (Forall2_rev_drop _ k _ _ (inv_entries _ _ _ Hi))) as (s1 & ms1 & Hr1 & Hi1 & (He1 & Hs1 & Hl1 & Hu1) & Hrev1).
  { apply Forall_rev. by apply Forall_drop, Hi. }
  { exact Hr. }
  unfold mbind at 1, M_bind at 1. rewrite Hr1. eexists _, ms1. split; [reflexivity|]. split.
  - destruct Hi1. split; try done; cbn; [by apply Forall2_take|by apply Forall_take].
  - rewrite length_take. lia.
  - cbn. rewrite He1, take_take, Nat.min_l by done. exact Hbase.
  - cbn. congruence.
  - cbn. congruence.
  - exact Hrev1.
Qed.

(** *** Loading accounts *)

(** The outcome of a call, whether it fails or not. *)
Definition outcome {A} (m : M State adbError A) (s : State) (E : State -> Prop) (Q : A -> State -> Prop) : Prop :=
  match m s with (s', Ok a) => Q a s' | (s', Err _) => E s' end.

Lemma outcome_bind {A B} (m : M State adbError A) (f : A -> M State adbError B) s E Q :
  outcome m s E (fun a s' => outcome (f a) s' E Q) -> outcome (mbind f m) s E Q.
Proof. unfold outcome, mbind, M_bind. by destruct (m s) as [s' [a|e]]. Qed.

Lemma outcome_mono {A} (m : M State adbError A) s E (Q Q' : A -> State -> Prop) :
  outcome m s E Q -> (forall a s', Q a s' -> Q' a s') -> outcome m s E Q'.
Proof. unfold outcome. destruct (m s) as [s' [a|e]]; auto. Qed.

Lemma outcome_state {A} (m : M State adbError A) s (P : State -> Prop) :
  outcome m s P (fun _ s' => P s') -> P (m s).1.
Proof. unfold outcome. by destruct (m s) as [s' [a|e]]. Qed.

Lemma outcome_reject b e s E Q : (b = true -> E s) -> (b = false -> Q tt s) -> outcome (reject_if b e) s E Q.
Proof. unfold outcome, reject_if. destruct b; cbn; auto. Qed.

Definition Reverts (s : State) : Prop := exists ms us, Back s ms us.
Definition RevertsMod (addr : string) (s : State) : Prop := exists ms us, BackMod addr s ms us.

(** The data trie of an account can be loaded or is not there at all. *)
Definition root_available (s : State) (addr : string) : Prop :=
  forall a, (getAccount addr s).2 = Ok (Some a) -> available st0 (GetRootHash (acc_data a)).

Lemma stored_obj_ok addr d : addr <> EmptyString -> ~ is_code addr -> code_key is_code (GetCodeHash d) ->
  obj_ok (stored_account addr d).
Proof. by split. Qed.

Lemma loadDataTrie_back s ms us addr d :
  Back s ms us -> available st0 (GetRootHash d) -> obj_ok (stored_account addr d) ->
  outcome (loadDataTrie levels (stored_account addr d)) s Reverts (fun a s' => exists ms' us',
    Back s' ms' us' /\ obj_ok a /\ forall p, acc_trie a = Some p -> p <> main /\ is_Some (ms' !! p)).
Proof.
  intros Hb Hav Hok. unfold loadDataTrie. cbn [acc_data stored_account].
  destruct (slen (GetRootHash d) =? 0); [by exists ms, us|].
  apply outcome_bind. unfold outcome at 1, get. cbn [acc_address stored_account].
  destruct (dataTries (db s) !! addr) as [p|] eqn:Eh.
  { exists ms, us. split; [done|]. split; [by destruct Hok|]. intros q [= <-].
    by apply (inv_holder _ _ _ (back_inv _ _ _ _ Hb) addr). }
  destruct (back_main _ _ _ _ Hb) as (m & Hm & Hmok & Hmain).
  destruct (main_Recreate_spec levels s ms m (GetRootHash d) (inv_tries _ _ _ (back_inv _ _ _ _ Hb)))
    as (s1 & Hg & Ht1 & Hcase); [by rewrite Hmain|by rewrite (back_storage _ _ _ _ Hb)|].
  apply outcome_bind. unfold outcome at 1, with_err. destruct Hcase as [[e ->]|(m' & -> & Ht2)].
  { exists ms, us. by eapply back_same. }
  cbn [map_err]. set (p := length (tries s)) in *.
  assert (p <> main) as Hne.
  { pose proof (tries_hold_lt s ms main m (inv_tries _ _ _ (back_inv _ _ _ _ Hb)) Hm). subst p. lia. }
  assert (Inv s1 (<[p := m']> ms) us) as Hi1 by (eapply Inv_other; [apply Hb|done..]).
  apply (Inv_holder _ _ _ addr p) in Hi1; [|done|rewrite lookup_insert_eq; eauto].
  unfold outcome, mbind, M_bind, upd_adb, modify, mret, M_ret. eexists (<[p := m']> ms), us.
  split; [|split; [by destruct Hok|]].
  - eapply back_core; [exact Hb| |exact Hi1|].
    + eapply core_trans; [by apply grown_core|done].
    + intros es Hr. eapply reverts_mono; [|apply Hr]. apply insert_subseteq, tries_hold_fresh, Hb.
  - intros q [= <-]. split; [done|]. rewrite lookup_insert_eq. eauto.
Qed.

Lemma new_object_back s ms us a :
  Back s ms us -> obj_ok a -> (forall p, acc_trie a = Some p -> p <> main /\ is_Some (ms !! p)) ->
  outcome (new_object a) s Reverts (fun _ s' => Reverts s').
Proof.
  intros Hb Hok Hp. exists ms, us. eapply back_core; [exact Hb|done| |by auto]. apply Inv_new_object; [apply Hb|done..].
Qed.

(** The account that is stored, if any, with what reverting needs. *)
Lemma getAccount_back s ms us addr :
  Back s ms us -> addr <> EmptyString -> ~ is_code addr -> root_available s addr ->
  outcome (getAccount addr) s Reverts (fun o s' => Back s' ms us /\
    match o with
    | None => True
    | Some a => exists d, a = stored_account addr d /\ available st0 (GetRootHash d) /\ obj_ok a
    end).
Proof.
  intros Hb Ha Hc Hav. destruct (back_main _ _ _ _ Hb) as (m & Hm & Hok & Hmain).
  destruct (getAccount_spec is_code s ms m addr (inv_tries _ _ _ (back_inv _ _ _ _ Hb)))
    as (s1 & o & Hr & Hat & Ht1 & Hq); [by rewrite Hmain|done..|].
  unfold outcome. rewrite Hr. split; [eapply back_same; [done|by apply quiet_grown|done]|].
  destruct o as [a|]; [|done]. unfold account_at in Hat. destruct (m !! addr) as [v|]; [|done].
  destruct Hat as (d & [= ->] & _ & _ & Hk). exists d. split; [done|].
  split; [|by apply stored_obj_ok]. apply (Hav (stored_account addr d)). by rewrite Hr.
Qed.

Lemma load_back s addr (create : bool) :
  Reverts s -> ~ is_code addr -> root_available s addr ->
  outcome (_ ← reject_if (slen addr =? 0) (AdbErr ErrNilAddress);
           acnt ← getAccount addr;
           match acnt with
           | None => if create then a ← lift (CreateAccount addr); new_object a else fail (AdbErr ErrAccNotFound)
           | Some a => a ← loadDataTrie levels a; new_object a
           end) s Reverts (fun _ s' => Reverts s').
Proof.
  intros (ms & us & Hb) Hc Hav. apply outcome_bind, outcome_reject; [by exists ms, us|].
  intros Hne. assert (addr <> EmptyString) as Ha by (by intros ->).
  apply outcome_bind. eapply outcome_mono; [by apply (getAccount_back s ms us addr)|].
  intros o s1 [Hb1 Ho]. destruct o as [a|].
  - destruct Ho as (d & -> & Hroot & Hok). apply outcome_bind.
    eapply outcome_mono; [by apply (loadDataTrie_back s1 ms us addr d)|].
    intros a s2 (ms2 & us2 & Hb2 & Hok2 & Hp2). by eapply new_object_back.
  - destruct create; [|by exists ms, us]. apply outcome_bind. unfold outcome at 1, lift.
    rewrite CreateAccount_ok by done. eapply new_object_back; [done| |done].
    apply stored_obj_ok; [done..|]. left. apply code_of_new.
Qed.

(** *** Removing accounts *)

Lemma load_for_removal_back s ms us addr :
  Back s ms us -> ~ is_code addr -> root_available s addr ->
  outcome (load_for_removal addr) s Reverts (fun a s' => exists us', BackMod addr s' ms us' /\
    addr <> EmptyString /\ available st0 (GetRootHash (acc_data a)) /\ code_key is_code (GetCodeHash (acc_data a)) /\
    userAccounts (db s') = userAccounts (db s)).
Proof.
  intros Hb Hc Hav. unfold load_for_removal. apply outcome_bind, outcome_reject; [by exists ms, us|].
  intros Hne. assert (addr <> EmptyString) as Ha by (by intros ->).
  destruct (back_main _ _ _ _ Hb) as (m & Hm & Hok & Hmain).
  destruct (getAccount_spec is_code s ms m addr (inv_tries _ _ _ (back_inv _ _ _ _ Hb)))
    as (s1 & o & Hr & Hat & Ht1 & Hq); [by rewrite Hmain|done..|].
  assert (Back s1 ms us) as Hb1 by (eapply back_same; [done|by apply quiet_grown|done]).
  pose proof (back_old_entry s1 ms us m addr o Hb1 Hm Hat Ha Hc) as Hb2.
  apply outcome_bind. unfold outcome at 1. rewrite Hr. destruct o as [a|]; [|by exists ms, us].
  specialize (Hav a). rewrite Hr in Hav. unfold account_at in Hat. destruct (m !! addr); [|done].
  destruct Hat as (d & [= ->] & _ & _ & Hk). eexists. split; [exact Hb2|]. split; [done|].
  split; [by apply Hav|]. split; [done|]. cbn. by rewrite (quiet_db _ _ Hq).
Qed.

Lemma removeCode_back addr s ms us m a :
  BackMod addr s ms us -> ms !! main = Some m -> counters_fit m -> addr <> EmptyString -> ~ is_code addr ->
  code_key is_code (GetCodeHash (acc_data a)) ->
  exists s' ms' us', removeCode a s = (s', Ok tt) /\ BackMod addr s' ms' us'.
Proof.
  intros Hb Hm Hfit Ha Hc Hk. unfold removeCode. set (oh := GetCodeHash (acc_data a)) in *.
  destruct (decide (oh = EmptyString)) as [E|E].
  - rewrite E. destruct (back_main _ _ _ _ Hb) as (m' & Hm' & Hok & Hmain). rewrite Hm in Hm'. injection Hm' as <-.
    destruct (updateOldCodeEntry_spec s ms m EmptyString (inv_tries _ _ _ (back_inv _ _ _ _ Hb))) as (s1 & Hr1 & Ht1 & Hq1);
      [by rewrite Hmain|eapply main_code_ok; [done|by left]|]. rewrite Hmain in Ht1.
    rewrite (alter_code_dec_none _ _ m) in Ht1 by (done || by eapply code_at_no_key).
    assert (BackMod addr s1 ms us) as Hb1 by (eapply back_same; [exact Hb|by apply quiet_grown|exact Ht1]).
    unfold mbind, M_bind, get. rewrite Hr1. eexists _, ms, _. split; [reflexivity|].
    eapply (back_journalize _ _ _ _ _ _ (UCode (code_at EmptyString m) EmptyString EmptyString)); [exact Hb1| | |].
    + rewrite (quiet_db _ _ Hq1), Hmain. constructor.
    + rewrite (code_at_no_key is_code m Hok). cbn. split; [by left|]. split; [by left|done].
    + intros es Hr x ms'. cbn. intros ->. rewrite alter_id; [apply Hr|].
      intros m' _. unfold code_undo, str_eqb. by rewrite bool_decide_eq_true_2.
  - destruct (change_code_back addr s ms us m oh EmptyString EmptyString Hb Hm Hfit Ha Hc Hk)
      as (s1 & ms1 & Hr & Hb1 & _); [done|done|done|].
    eexists s1, ms1, _. split; [|exact Hb1]. rewrite <- Hr. unfold mbind, M_bind, get, mret, M_ret.
    by destruct (updateOldCodeEntry oh s) as [s2 [x|e]].
Qed.

Lemma GetAllHashes_storage lv ts : st_storage (GetAllHashes lv ts).1 = st_storage ts.
Proof.
  unfold GetAllHashes. unfold mbind, M_bind, get, mret, M_ret, fail.
  destruct (root (st_trie ts)) as [nd|]; [|done]. unfold on_root at 1. destruct (setRootHash nd) as [nd1 [?|?]]; [|done].
  cbn [st_trie upd_trie with_root root]. unfold on_root. by destruct (getAllHashes _ _ _).
Qed.

(** A trie nobody else refers to may be used freely. *)
Lemma on_trie_free {A} (f : M trieState trieError A) (s : State) ms p :
  tries_hold s ms -> ms !! p = None -> (forall ts, st_storage (f ts).1 = st_storage ts) ->
  tries_hold (on_trie p f s).1 ms /\ grown s (on_trie p f s).1.
Proof.
  intros Ht Hp Hf. unfold on_trie. destruct (tries s !! p) as [t|] eqn:Et; [|done].
  specialize (Hf {| st_trie := t; st_storage := storage s |}). destruct (f _) as [ts r]. cbn in Hf |- *.
  split; [|split; [done|done|exact Hf]]. intros q mq Hq. destruct (Ht q mq Hq) as (tq & Htq & Hmq). exists tq. cbn.
  rewrite Hf, list_lookup_insert_ne; [done|]. intros <-. congruence.
Qed.

Lemma removeDataTrie_back addr s ms us a :
  BackMod addr s ms us -> available st0 (GetRootHash (acc_data a)) ->
  outcome (removeDataTrie levels a) s Reverts (fun _ s' => RevertsMod addr s').
Proof.
  intros Hb Hav. unfold removeDataTrie. destruct (slen (GetRootHash (acc_data a)) =? 0); [by exists ms, us|].
  destruct (back_main _ _ _ _ Hb) as (m & Hm & Hmok & Hmain).
  pose proof (inv_tries _ _ _ (back_inv _ _ _ _ Hb)) as Ht.
  destruct (main_Recreate_spec levels s ms m (GetRootHash (acc_data a)) Ht)
    as (s1 & Hg & Ht1 & Hcase); [by rewrite Hmain|by rewrite (back_storage _ _ _ _ Hb)|].
  assert (BackMod addr s1 ms us) as Hb1 by (eapply back_same; [exact Hb|exact Hg|exact Ht1]).
  apply outcome_bind. unfold outcome at 1. destruct Hcase as [[e ->]|(m' & -> & _)].
  { exists ms, us. exact (back_mod_back addr _ _ _ Hb1). }
  apply outcome_bind. unfold outcome at 1.
  destruct (on_trie_free (GetAllHashes levels) s1 ms (length (tries s)) Ht1) as [Ht2 Hg2];
    [by apply tries_hold_fresh|apply GetAllHashes_storage|].
  assert (BackMod addr (on_trie (length (tries s)) (GetAllHashes levels) s1).1 ms us) as Hb2
    by (eapply back_same; [exact Hb1|exact Hg2|exact Ht2]).
  destruct (on_trie _ _ s1) as [s2 [hs|e]]; cbn [fst] in Hb2; [|exists ms, us; exact (back_mod_back addr _ _ _ Hb2)].
  unfold outcome, mbind, M_bind, upd_adb, modify. eexists ms, (us ++ [UNone]).
  eapply (back_journalize _ _ (with_adb _ s2)).
  - eapply back_core; [exact Hb2|done| |by auto]. pose proof (back_inv _ _ _ _ Hb2) as []. by split.
  - constructor.
  - done.
  - intros es Hr x ms'. cbn. intros ->. apply Hr.
Qed.

Lemma remove_last addr s ms us :
  BackMod addr s ms us -> addr <> EmptyString -> ~ is_code addr ->
  outcome (on_main (Update addr (Some EmptyString))) s Reverts (fun _ s' => Reverts s').
Proof.
  intros Hb Ha Hc. destruct (back_main _ _ _ _ Hb) as (m & Hm & Hok & Hmain).
  destruct (on_trie_Update s ms main m addr (Some EmptyString) (inv_tries _ _ _ (back_inv _ _ _ _ Hb)) Hm)
    as (s' & Hr & Ht & Hq).
  unfold outcome, on_main, mbind, M_bind, get. rewrite Hmain, Hr. eexists _, us.
  eapply back_core; [exact Hb|by apply grown_core, quiet_grown| |].
  - eapply Inv_main; [apply Hb|by apply quiet_grown|exact Ht|]. intros m' _ Hm'. by apply main_ok_account.
  - intros es Hrev. apply Hrev.
Qed.

Lemma RemoveAccountCode_back s ms us m addr :
  Back s ms us -> ms !! main = Some m -> counters_fit m -> ~ is_code addr -> root_available s addr ->
  outcome (RemoveAccountCode addr) s Reverts (fun _ s' => Reverts s').
Proof.
  intros Hb Hm Hfit Hc Hav. unfold RemoveAccountCode. apply outcome_bind.
  eapply outcome_mono; [by apply (load_for_removal_back s ms us addr)|].
  intros a s1 (us1 & Hb1 & Ha & _ & Hk & _). apply outcome_bind. unfold outcome at 1, get.
  destruct (userAccounts (db s1)); [|exists ms, us1; exact (back_mod_back addr _ _ _ Hb1)].
  destruct (removeCode_back addr s1 ms us1 m a Hb1 Hm Hfit Ha Hc Hk) as (s2 & ms2 & us2 & Hr2 & Hb2).
  unfold outcome. rewrite Hr2. exists ms2, us2. exact (back_mod_back addr _ _ _ Hb2).
Qed.

Lemma RemoveAccount_back s ms us m addr :
  Back s ms us -> ms !! main = Some m -> counters_fit m -> ~ is_code addr -> root_available s addr ->
  outcome (RemoveAccount levels addr) s Reverts (fun _ s' => Reverts s').
Proof.
  intros Hb Hm Hfit Hc Hav. unfold RemoveAccount. apply outcome_bind.
  eapply outcome_mono; [by apply (load_for_removal_back s ms us addr)|].
  intros a s1 (us1 & Hb1 & Ha & Hroot & Hk & _). apply outcome_bind. unfold outcome at 1, get.
  apply outcome_bind. destruct (userAccounts (db s1)); [|by eapply remove_last].
  destruct (removeCode_back addr s1 ms us1 m a Hb1 Hm Hfit Ha Hc Hk) as (s2 & ms2 & us2 & Hr2 & Hb2).
  apply outcome_bind. unfold outcome at 1. rewrite Hr2.
  eapply outcome_mono; [by apply (removeDataTrie_back addr s2 ms2 us2)|].
  intros [] s3 (ms3 & us3 & Hb3). by eapply remove_last.
Qed.
End revert.
