(* ===== verification/AccountsSnapshots.v ===== *)
(** * Snapshots and commits of the accounts database

    [RevertToSnapshot] after any series of operations: the journal leads back to
    the contents of all tries at the time of the snapshot.  A series may fail at
    any operation, may revert on its way, and may change account objects between
    the operations as their owners do.  A commit writes every data trie in use and
    the main trie to the database; from the root hash it returns all of them can
    be loaded again, and reverting to the start of the journal later on goes back
    to that state. *)

From S2P Require Import Prelude Common TrieNode TrieTree TrieSim TrieCommit TrieStorage PatriciaTrie PatriciaProps AccountsDB AccountsTries AccountsRevert.
Local Open Scope Z_scope.

Section snapshots.
Context {DB : DBWriteCacher} {HS : Hasher} {MBa : Marshalizer Batch}.
Context {ML : Marshalizer CollapsedLn} {ME : Marshalizer CollapsedEn} {MB : Marshalizer CollapsedBn}.
Context {CL : NodeCodecLaws} {HL : HasherLaws} {DL : DBLaws} {BL : BatchLaws}.
Context {T : Type} {AD : AccountData T} {MT : Marshalizer T} {MC : Marshalizer CodeEntry}.
Context {CC : CodeCodecLaws} {AC : AccountCodecLaws}.

Abbreviation maps := (gmap nat (gmap string string)).
Abbreviation State := (@adbState DB T).

Variable levels : nat.
Variable dirty_order : gmap string string -> list (string * string).
Variable updates_order : gmap string slice -> list (string * slice).
Hypothesis dirty_order_all : forall d, dirty_order d ≡ₚ map_to_list d.
Hypothesis updates_order_all : forall u, updates_order u ≡ₚ map_to_list u.
Variable is_code : string -> Prop.
Hypothesis code_key_nonempty : ~ is_code EmptyString.

(** A database in order: the tries it uses hold the maps [ms], the values of the
    main trie are accounts and code in use, the journal's entries refer to them. *)
Definition adb_ok (s : State) (ms : maps) : Prop :=
  exists us, Inv is_code (mainTrie (db s)) s ms us.

(** The counters of code references stay within 32 bits. *)
Definition code_counters_fit (s : State) : Prop :=
  forall h e, is_code h -> (getCodeEntry h (mainTrie (db s)) s).2 = Ok (Some e) -> NumReferences e + 1 < 2 ^ 32.

(** The data trie of a stored account is in the database, or cannot be found. *)
Definition data_trie_available (s : State) (addr : string) : Prop :=
  forall a, (getAccount addr s).2 = Ok (Some a) -> available (storage s) (GetRootHash (acc_data a)).

(** The operations between a snapshot at the journal length [n] and its revert. *)
Inductive adb_step (n : nat) (s : State) : State -> Prop :=
| step_load addr :
    ~ is_code addr -> data_trie_available s addr -> adb_step n s (LoadAccount levels addr s).1
| step_existing addr :
    ~ is_code addr -> data_trie_available s addr -> adb_step n s (GetExistingAccount levels addr s).1
| step_save l : code_counters_fit s -> adb_step n s (SaveAccount levels dirty_order l s).1
| step_remove addr :
    ~ is_code addr -> data_trie_available s addr -> code_counters_fit s ->
    adb_step n s (RemoveAccount levels addr s).1
| step_remove_code addr :
    ~ is_code addr -> data_trie_available s addr -> code_counters_fit s ->
    adb_step n s (RemoveAccountCode addr s).1
| step_revert k :
    (n <= k)%nat -> (0 < k)%nat -> adb_step n s (RevertToSnapshot levels updates_order (Z.of_nat k) s).1
| step_root_hash : adb_step n s (AccountsDB_RootHash s).1
| step_object l a a' :
    objects s !! l = Some a -> obj_ok is_code a' -> acc_address a' = acc_address a -> acc_trie a' = acc_trie a ->
    adb_step n s (with_objects (<[l := a']> (objects s)) s).

Section one.
Variables (n : nat) (es0 : list (JournalEntry T)) (ms0 : maps) (main : nat).
Variables (st0 : trieStorageManager) (last0 : string).

Abbreviation Rev := (Reverts is_code main n es0 ms0 st0 last0).

Lemma counters_fit_map s ms us m :
  back is_code main n es0 ms0 st0 last0 (reverts main) s ms us -> ms !! main = Some m ->
  code_counters_fit s -> counters_fit is_code m.
Proof.
  intros Hb Hm Hfit h e Hh He. destruct (back_main _ _ _ _ _ _ _ _ _ _ _ Hb) as (m' & Hm' & Hok & Hmain).
  rewrite Hm in Hm'. injection Hm' as <-.
  destruct (getCodeEntry_spec s ms main m h (inv_tries _ _ _ _ _ (back_inv _ _ _ _ _ _ _ _ _ _ _ Hb)) Hm) as (s' & Hr & _).
  { intros v Hv. by eapply mok_code. }
  apply (Hfit h e Hh). rewrite Hmain, Hr, He. done.
Qed.

Lemma available_here s addr : storage s = st0 -> data_trie_available s addr -> root_available st0 s addr.
Proof. intros Hst Hav a Ha. rewrite <- Hst. by apply Hav. Qed.

Lemma insert_as_alter {A} (os : list A) l a a0 : os !! l = Some a0 -> <[l := a]> os = alter (fun _ => a) l os.
Proof.
  intros Hl. apply list_eq. intros i. destruct (decide (l = i)) as [<-|Hne].
  - rewrite list_lookup_alter_eq, Hl, list_lookup_insert_eq; [done|]. by eapply lookup_lt_Some.
  - by rewrite list_lookup_alter_ne, list_lookup_insert_ne.
Qed.

Lemma step_reverts s s' : Rev s -> adb_step n s s' -> Rev s'.
Proof.
  intros (ms & us & Hb) Hstep.
  destruct (back_main _ _ _ _ _ _ _ _ _ _ _ Hb) as (m & Hm & Hok & Hmain).
  pose proof (back_storage _ _ _ _ _ _ _ _ _ _ _ Hb) as Hst.
  destruct Hstep as [addr Hc Hav|addr Hc Hav|l Hfit|addr Hc Hav Hfit|addr Hc Hav Hfit|k Hk Hk0| |l a a' Hl Hok' Ha Ht].
  - apply outcome_state. apply (load_back levels is_code main n es0 ms0 st0 last0 s addr true);
      [by exists ms, us|done|by apply available_here].
  - apply outcome_state. apply (load_back levels is_code main n es0 ms0 st0 last0 s addr false);
      [by exists ms, us|done|by apply available_here].
  - destruct (objects s !! l) as [a|] eqn:Hl.
    + destruct (SaveAccount_back levels dirty_order dirty_order_all is_code code_key_nonempty main n es0 ms0 st0 last0
        s ms us m l a Hb Hm (counters_fit_map s ms us m Hb Hm Hfit) Hl) as (s' & ms' & us' & -> & Hb'). by exists ms', us'.
    + unfold SaveAccount, object. unfold mbind, M_bind, get. rewrite Hl. by exists ms, us.
  - apply outcome_state. eapply RemoveAccount_back; [done|done|done|by eapply counters_fit_map|done|by apply available_here].
  - apply outcome_state. eapply RemoveAccountCode_back; [done|done|done|by eapply counters_fit_map|done|by apply available_here].
  - destruct (decide (k <= length us)%nat) as [Hle|Hgt].
    + destruct (RevertToSnapshot_back levels updates_order updates_order_all is_code code_key_nonempty main n es0 ms0 st0 last0
        s ms us k Hb Hk Hk0 Hle) as (s' & ms' & -> & Hb'). by eexists _, _.
    + pose proof (back_entries_length _ _ _ _ _ _ _ _ _ _ _ Hb) as Hlen.
      unfold RevertToSnapshot, mbind, M_bind, get.
      destruct (Z.ltb_spec (Z.of_nat (length (entries (db s)))) (Z.of_nat k)); [|lia]. by exists ms, us.
  - destruct (on_trie_RootHash s ms main m (inv_tries _ _ _ _ _ (back_inv _ _ _ _ _ _ _ _ _ _ _ Hb)) Hm)
      as (s' & h & Hr & Ht & Hq & _).
    unfold AccountsDB_RootHash, on_main, mbind, M_bind, get. rewrite Hmain, Hr. exists ms, us.
    eapply back_same; [done|by apply quiet_grown|done].
  - exists ms, us. rewrite (insert_as_alter _ l a' a Hl).
    eapply back_object; [exact Hb|exact Hl|done..].
Qed.

Lemma steps_revert s s' : Rev s -> rtc (adb_step n) s s' -> Rev s'.
Proof. intros Hr Hs. induction Hs; [done|]. eauto using step_reverts. Qed.
End one.

(** The state of the snapshot itself. *)
Lemma snapshot_reverts s ms us :
  Inv is_code (mainTrie (db s)) s ms us ->
  back is_code (mainTrie (db s)) (length (entries (db s))) (entries (db s)) ms (storage s) (lastRootHash (db s))
    (reverts (mainTrie (db s))) s ms us.
Proof.
  intros Hi. pose proof (Forall2_length _ _ _ (inv_entries _ _ _ _ _ Hi)) as Hlen. split; try done.
  - lia.
  - by rewrite firstn_all.
  - rewrite drop_ge by lia. cbn. reflexivity.
Qed.

(** The root hash tells the contents of the main trie. *)
Lemma RootHash_same s s' ms ms' m :
  adb_ok s ms -> adb_ok s' ms' -> ms !! mainTrie (db s) = Some m -> ms' !! mainTrie (db s') = Some m ->
  (AccountsDB_RootHash s').2 = (AccountsDB_RootHash s).2.
Proof.
  intros [us Hi] [us' Hi'] Hm Hm'.
  destruct (on_trie_RootHash s ms _ m (inv_tries _ _ _ _ _ Hi) Hm) as (s1 & h & Hr & _ & _ & Hh).
  destruct (on_trie_RootHash s' ms' _ m (inv_tries _ _ _ _ _ Hi') Hm') as (s1' & h' & Hr' & _ & _ & Hh').
  unfold AccountsDB_RootHash, on_main, mbind, M_bind, get. rewrite Hr, Hr'. cbn. f_equal.
  by apply (root_hash_inj m m).
Qed.

(** C12: after any series of loads, saves, removals, reverts and changes of
    account objects, failing or not, reverting to a snapshot of the journal
    taken before succeeds and restores the contents of the main trie and of
    every data trie, the root hash and the journal of the snapshot. *)
Theorem revert_restores_snapshot s0 ms0 s1 :
  adb_ok s0 ms0 -> 0 < JournalLen s0 -> rtc (adb_step (length (entries (db s0)))) s0 s1 ->
  exists s2 ms2, RevertToSnapshot levels updates_order (JournalLen s0) s1 = (s2, Ok tt) /\ adb_ok s2 ms2 /\
    ms0 ⊆ ms2 /\ mainTrie (db s2) = mainTrie (db s0) /\ entries (db s2) = entries (db s0) /\
    (AccountsDB_RootHash s2).2 = (AccountsDB_RootHash s0).2.
Proof.
  intros [us0 Hi0] Hlen Hsteps. pose proof (snapshot_reverts s0 ms0 us0 Hi0) as Hb0.
  assert (Reverts is_code (mainTrie (db s0)) (length (entries (db s0))) (entries (db s0)) ms0 (storage s0)
            (lastRootHash (db s0)) s1) as (ms1 & us1 & Hb1).
  { eapply steps_revert; [by exists ms0, us0|exact Hsteps]. }
  unfold JournalLen in *. set (n := length (entries (db s0))) in *.
  pose proof (back_len _ _ _ _ _ _ _ _ _ _ _ Hb1) as Hn1.
  destruct (RevertToSnapshot_back levels updates_order updates_order_all is_code code_key_nonempty _ _ _ _ _ _
    s1 ms1 us1 n Hb1 (le_n n)) as (s2 & ms2 & Hr & Hb2); [lia|done|].
  pose proof (back_rev _ _ _ _ _ _ _ _ _ _ _ Hb2) as Hrev. rewrite drop_ge in Hrev by (rewrite length_take; lia).
  cbn in Hrev. pose proof (back_inv _ _ _ _ _ _ _ _ _ _ _ Hb2) as Hi2.
  pose proof (inv_main _ _ _ _ _ Hi2) as Hmain2.
  assert (adb_ok s2 ms2) as Hok2 by (exists (take n us1); by rewrite Hmain2).
  exists s2, ms2. split; [done|]. split; [done|]. split; [done|]. split; [done|]. split.
  - rewrite <- (back_base _ _ _ _ _ _ _ _ _ _ _ Hb2). rewrite take_ge; [done|].
    rewrite (back_entries_length _ _ _ _ _ _ _ _ _ _ _ Hb2), length_take. lia.
  - destruct (inv_main_ok _ _ _ _ _ Hi0) as (m & Hm & _).
    apply (RootHash_same s0 s2 ms0 ms2 m); [by exists us0|done|done|]. rewrite Hmain2.
    by eapply lookup_weaken.
Qed.
End snapshots.

Section commit.
Context {DB : DBWriteCacher} {HS : Hasher} {MBa : Marshalizer Batch}.
Context {ML : Marshalizer CollapsedLn} {ME : Marshalizer CollapsedEn} {MB : Marshalizer CollapsedBn}.
Context {CL : NodeCodecLaws} {HL : HasherLaws} {DL : DBLaws} {BL : BatchLaws}.

(** ** The hashes of dirty nodes *)

Lemma dirty_children (cs : list (option node)) (hs : gset string) :
  (forall c, Some c ∈ cs -> forall hs, exists hs', getDirtyHashes c hs = Ok hs') ->
  exists hs', (fix go (cs : list (option node)) (hashes : gset string) : res trieError (gset string) :=
                  match cs with
                  | [] => Ok hashes
                  | None :: cs => go cs hashes
                  | Some c :: cs => hashes ← getDirtyHashes c hashes; go cs hashes
                  end) cs hs = Ok hs'.
Proof.
  revert hs. induction cs as [|[c|] cs IH]; intros hs Hc; [by exists hs|..].
  - destruct (Hc c ltac:(by left) hs) as [hs1 Hh]. rewrite Hh. cbn. apply IH. intros c' Hin. apply Hc. by right.
  - apply IH. intros c' Hin. apply Hc. by right.
Qed.

Lemma getDirtyHashes_ok d t : forall n hs, wfs t -> repr d n t -> exists hs', getDirtyHashes n hs = Ok hs'.
Proof.
  induction t as [k v|k t IH|cs IH] using tree_ind'; intros n hs Hw Hr;
    pose proof (repr_nonempty d n _ Hw Hr) as Hne; 
    inversion Hr as [|k' enc c b t' _ _ Hc _ _|enc ns b cs' _ _ _ _ Hc Hn _ _]; subst.
  - cbn [getDirtyHashes]. rewrite Hne. cbn [mbind res_bind]. destruct (negb _); eauto.
  - cbn [getDirtyHashes]. rewrite Hne. cbn [mbind res_bind]. destruct (negb _); [eauto|]. destruct c as [c|]; [|eauto].
    assert (wfs t) as Hwt by (destruct Hw as [Hw|(v & E & _)]; [inversion Hw; by left|done]).
    destruct (IH c hs Hwt (Hc c eq_refl)) as [hs' Hh]. rewrite Hh. cbn. eauto.
  - cbn [getDirtyHashes]. rewrite Hne. cbn [mbind res_bind]. destruct (negb _); [eauto|].
    assert (wf (TBranch cs)) as Hwb by (destruct Hw as [Hw|(v & E & _)]; done).
    destruct (dirty_children ns hs) as [hs' Hh]; [|rewrite Hh; cbn; eauto].
    intros c (i & Hi)%list_elem_of_lookup hs1. assert (ch ns i = Some c) as Hci by (unfold ch; by rewrite Hi).
    destruct (ch cs i) as [t|] eqn:Et; [|by destruct (Hn i Et); congruence].
    rewrite Forall_forall in IH. apply (IH (Some t)) with (t := t); [|done|by apply (wf_branch_ch cs i t)|by apply (Hc i)].
    unfold ch in Et. destruct (cs !! i) as [o|] eqn:Eo; [|done]. cbn in Et. subst o. by eapply list_elem_of_lookup_2.
Qed.

Lemma GetDirtyHashes_spec s m :
  trie_map s m -> exists s' hs, GetDirtyHashes s = (s', Ok hs) /\ trie_map s' m /\ st_storage s' = st_storage s.
Proof.
  intros Hm. unfold GetDirtyHashes. unfold mbind at 1, M_bind at 1, get at 1.
  destruct (root (st_trie s)) as [n|] eqn:Hroot; [|by exists s, ∅].
  pose proof Hm as (t & Hr & Hw & Hh)%(trie_map_root s m (Some n) Hroot).
  destruct (on_root_hash s n t Hr Hw) as (n' & Ho & Hr' & _).
  unfold mbind at 1, M_bind at 1. rewrite Ho. unfold mbind at 1, M_bind at 1, get at 1. cbn [st_trie upd_trie with_root root].
  destruct (getDirtyHashes_ok (database s) t n' ∅ (or_introl Hw) Hr') as [hs Hhs]. unfold lift. rewrite Hhs.
  eexists _, hs. split; [reflexivity|]. split; [by eapply trie_map_intro|done].
Qed.

(** ** Tries that are in the database *)

Definition persisted (d : dbT) (m : gmap string string) : Prop :=
  m = ∅ \/ exists t, wf t /\ holds t m /\ stored d t.

Lemma committed_persisted s m : committed s m -> persisted (database s) m.
Proof.
  unfold committed. destruct (root (st_trie s)); [|by left]. intros (t & _ & Hw & Hh & Hst). right. exists t.
  split; [exact Hw|]. split; [exact Hh|exact Hst].
Qed.

Lemma persisted_grows d d' m : grows d d' -> persisted d m -> persisted d' m.
Proof.
  intros Hg [->|(t & Hw & Hh & Hst)]; [by left|]. right. exists t. split; [exact Hw|]. split; [exact Hh|]. by apply Hg.
Qed.

Lemma persisted_reload st m h lv mx :
  persisted (tsm_db st) m -> root_hash_of m h ->
  exists tr, Recreate lv mx h st = (st, Ok tr) /\ trie_map {| st_trie := tr; st_storage := st |} m.
Proof.
  intros [->|(t & Hw & Hh & Hst)] Hroot.
  - assert (h = EmptyTrieHash) as -> by (apply (root_hash_inj ∅ ∅); [done|by left|done]).
    by exists (NewTrie mx).
  - assert (h = thash t) as -> by (apply (root_hash_inj m m); [done|right; exists t; by split_and!|done]).
    by apply Recreate_stored.
Qed.

(** ** Committing all tries *)

Context {T : Type} {AD : AccountData T} {MT : Marshalizer T} {MC : Marshalizer CodeEntry}.
Context {CC : CodeCodecLaws} {AC : AccountCodecLaws}.

Abbreviation maps := (gmap nat (gmap string string)).
Abbreviation State := (@adbState DB T).

Definition db_of (s : State) : dbT := tsm_db (storage s).

(** Tries and the database below them changed, nothing else. *)
Record writes (s s' : State) : Prop := {
  writes_db : db s' = db s;
  writes_objects : objects s' = objects s;
  writes_grows : grows (db_of s) (db_of s');
}.

Lemma writes_trans s1 s2 s3 : writes s1 s2 -> writes s2 s3 -> writes s1 s3.
Proof. intros [? ? G1] [? ? G2]. split; [congruence..|]. eapply grows_trans; [exact G1|exact G2]. Qed.

Lemma on_trie_writes {A} (f : M trieState trieError A) (Q : A -> dbT -> Prop) (s : State) ms p m :
  tries_hold s ms -> ms !! p = Some m ->
  (forall ts, trie_map ts m -> exists ts' r, f ts = (ts', Ok r) /\ trie_map ts' m /\
     grows (database ts) (database ts') /\ Q r (database ts')) ->
  exists s' r, on_trie p f s = (s', Ok r) /\ tries_hold s' ms /\ writes s s' /\ Q r (db_of s').
Proof.
  intros Hs Hp Hf. destruct (Hs p m Hp) as (t & Ht & Htm).
  destruct (Hf _ Htm) as (ts' & r & Hrun & Hm' & Hg & HQ). unfold on_trie. rewrite Ht, Hrun.
  eexists _, r. split; [reflexivity|]. split; [|split; [by split|exact HQ]].
  intros q mq Hq. destruct (decide (p = q)) as [<-|Hne].
  - rewrite Hp in Hq. injection Hq as <-. exists (st_trie ts'). cbn.
    rewrite list_lookup_insert_eq by by eapply lookup_lt_Some. split; [done|]. by destruct ts'.
  - destruct (Hs q mq Hq) as (tq & Htq & Hmq). exists tq. cbn. rewrite list_lookup_insert_ne by done.
    split; [done|]. by eapply trie_map_grows; [exact Hg|].
Qed.

Lemma on_trie_keeps {A} (f : M trieState trieError A) (s : State) ms p m :
  tries_hold s ms -> ms !! p = Some m ->
  (forall ts, trie_map ts m -> exists ts' r, f ts = (ts', Ok r) /\ trie_map ts' m /\ st_storage ts' = st_storage ts) ->
  exists s' r, on_trie p f s = (s', Ok r) /\ tries_hold s' ms /\ writes s s'.
Proof.
  intros Hs Hp Hf. destruct (on_trie_writes f (fun _ _ => True) s ms p m Hs Hp) as (s' & r & ? & ? & ? & _); [|eauto].
  intros ts Hts. destruct (Hf ts Hts) as (ts' & r & ? & ? & E). exists ts', r. split; [done|]. split; [done|].
  split; [|done]. unfold database. rewrite E. apply grows_refl.
Qed.

Variable holder_order : gmap string nat -> list nat.
Variable obsolete_order : gmap string (list string) -> list (list string).
Variable hash_order : gset string -> list string.
Hypothesis holder_order_all : forall t p, p ∈ holder_order t <-> exists addr, t !! addr = Some p.

Lemma ResetOldHashes_spec ts m :
  trie_map ts m -> exists ts' r, ResetOldHashes ts = (ts', Ok r) /\ trie_map ts' m /\ st_storage ts' = st_storage ts.
Proof. intros Hm. eexists _, _. split; [reflexivity|]. done. Qed.

Lemma on_trie_Commit s ms p m :
  tries_hold s ms -> ms !! p = Some m ->
  exists s', on_trie p (Commit hash_order) s = (s', Ok tt) /\ tries_hold s' ms /\ writes s s' /\ persisted (db_of s') m.
Proof.
  intros Hs Hp. destruct (on_trie_writes (Commit hash_order) (fun _ d => persisted d m) s ms p m Hs Hp)
    as (s' & [] & ? & ? & ? & ?).
  { intros ts Hts. destruct (Commit_spec hash_order ts m Hts) as (ts' & Hr & Hc & Hg). exists ts', tt.
    split; [exact Hr|]. split; [by apply committed_map|]. split; [exact Hg|]. by apply committed_persisted. }
  by exists s'.
Qed.

Lemma commit_data_tries_spec ps s ms olds news :
  tries_hold s ms -> (forall p, p ∈ ps -> is_Some (ms !! p)) ->
  exists s' r, commit_data_tries hash_order ps olds news s = (s', Ok r) /\ tries_hold s' ms /\ writes s s' /\
    forall p m, p ∈ ps -> ms !! p = Some m -> persisted (db_of s') m.
Proof.
  revert s olds news. induction ps as [|p ps IH]; intros s olds news Hs Hps; cbn [commit_data_tries].
  { exists s, (olds, news). split; [done|]. split; [done|]. split; [|by intros ? ? ?%not_elem_of_nil].
    split; [done..|apply grows_refl]. }
  destruct (Hps p) as [m Hm]; [by left|].
  destruct (on_trie_keeps ResetOldHashes s ms p m Hs Hm) as (s1 & r1 & Hr1 & Hs1 & Hw1); [intros; by apply ResetOldHashes_spec|].
  destruct (on_trie_keeps GetDirtyHashes s1 ms p m Hs1 Hm) as (s2 & r2 & Hr2 & Hs2 & Hw2); [intros; by apply GetDirtyHashes_spec|].
  destruct (on_trie_Commit s2 ms p m Hs2 Hm) as (s3 & Hr3 & Hs3 & Hw3 & Hper).
  destruct (IH s3 (olds ++ r1) (news ∪ r2) Hs3) as (s4 & r & Hr4 & Hs4 & Hw4 & Hall); [intros; apply Hps; by right|].
  exists s4, r. split; [|split; [done|split]].
  - unfold mbind, M_bind. by rewrite Hr1, Hr2, Hr3.
  - do 3 (eapply writes_trans; [eassumption|]). done.
  - intros q mq [->|Hin]%elem_of_cons Hq; [|by eapply Hall]. rewrite Hm in Hq. injection Hq as <-.
    eapply persisted_grows; [apply Hw4|exact Hper].
Qed.

(** A step on the main trie. *)
Lemma on_main_keeps {A} (f : M trieState trieError A) (s : State) ms m :
  tries_hold s ms -> ms !! mainTrie (db s) = Some m ->
  (forall ts, trie_map ts m -> exists ts' r, f ts = (ts', Ok r) /\ trie_map ts' m /\ st_storage ts' = st_storage ts) ->
  exists s' r, on_main f s = (s', Ok r) /\ tries_hold s' ms /\ writes s s' /\ ms !! mainTrie (db s') = Some m.
Proof.
  intros Hs Hm Hf. destruct (on_trie_keeps f s ms _ m Hs Hm Hf) as (s' & r & Hr & Hs' & Hw). exists s', r.
  unfold on_main, mbind, M_bind, get. by rewrite (writes_db _ _ Hw).
Qed.

Lemma commit_main_spec olds news s ms m :
  tries_hold s ms -> ms !! mainTrie (db s) = Some m ->
  exists s' root, commit_main obsolete_order hash_order olds news s = (s', Ok root) /\ tries_hold s' ms /\
    writes s s' /\ persisted (db_of s') m /\ root_hash_of m root.
Proof.
  intros Hs Hm. unfold commit_main.
  destruct (on_main_keeps GetDirtyHashes s ms m Hs Hm) as (s1 & r1 & Hr1 & Hs1 & Hw1 & Hm1); [intros; by apply GetDirtyHashes_spec|].
  set (old := olds ++ concat (obsolete_order (obsoleteDataTrieHashes (db s1)))).
  destruct (on_main_keeps (modify (upd_trie (SetNewHashes (news ∪ r1)))) s1 ms m Hs1 Hm1) as (s2 & [] & Hr2 & Hs2 & Hw2 & Hm2).
  { intros ts Hts. eexists _, _. split; [reflexivity|]. done. }
  destruct (on_main_keeps (AppendToOldHashes old) s2 ms m Hs2 Hm2) as (s3 & [] & Hr3 & Hs3 & Hw3 & Hm3).
  { intros ts Hts. eexists _, _. split; [reflexivity|]. done. }
  destruct (on_trie_Commit s3 ms _ m Hs3 Hm3) as (s4 & Hr4 & Hs4 & Hw4 & Hper).
  rewrite <- (writes_db _ _ Hw4) in Hm3.
  destruct (on_trie_RootHash s4 ms _ m Hs4 Hm3) as (s5 & h & Hr5 & Hs5 & Hq5 & Hh).
  assert (writes s4 s5) as Hw5 by (destruct Hq5 as [? ? E ?]; split; [done..|unfold db_of; rewrite E; apply grows_refl]).
  exists s5, h. split; [|split; [done|split; [|split; [|done]]]].
  - unfold mbind at 1, M_bind at 1. rewrite Hr1. unfold mbind at 1, M_bind at 1, get at 1. fold old.
    unfold mbind at 1, M_bind at 1. rewrite Hr2. unfold mbind at 1, M_bind at 1. rewrite Hr3.
    unfold on_main, mbind, M_bind, get. by rewrite Hr4, Hr5.
  - do 4 (eapply writes_trans; [eassumption|]). done.
  - eapply persisted_grows; [apply Hw5|exact Hper].
Qed.

Variable is_code : string -> Prop.

Lemma adb_Commit_spec s ms us m :
  Inv is_code (mainTrie (db s)) s ms us -> ms !! mainTrie (db s) = Some m ->
  exists s' root, AccountsDB_Commit holder_order obsolete_order hash_order s = (s', Ok root) /\
    Inv is_code (mainTrie (db s)) s' ms [] /\ entries (db s') = [] /\ lastRootHash (db s') = root /\
    root_hash_of m root /\ persisted (db_of s') m /\
    forall addr p mp, dataTries (db s) !! addr = Some p -> ms !! p = Some mp -> persisted (db_of s') mp.
Proof.
  intros Hi Hm. unfold AccountsDB_Commit.
  unfold mbind at 1, M_bind at 1, upd_adb at 1, modify at 1. unfold mbind at 1, M_bind at 1, get at 1.
  set (s0 := with_adb _ s). assert (tries_hold s0 ms) as Ht0 by apply Hi.
  destruct (commit_data_tries_spec (holder_order (dataTries (db s0))) s0 ms [] ∅ Ht0) as (s1 & [olds news] & Hr1 & Ht1 & Hw1 & Hall).
  { intros p [addr Hp]%holder_order_all. by apply (inv_holder _ _ _ _ _ Hi addr). }
  unfold mbind at 1, M_bind at 1. rewrite Hr1. unfold mbind at 1, M_bind at 1, upd_adb at 1, modify at 1.
  set (s2 := with_adb _ s1).
  destruct (commit_main_spec olds news s2 ms m Ht1) as (s3 & root & Hr3 & Ht3 & Hw3 & Hper & Hroot).
  { cbn. by rewrite (writes_db _ _ Hw1). }
  unfold mbind at 1, M_bind at 1. rewrite Hr3.
  assert (db s3 = with_dataTries ∅ (with_entries [] (db s))) as Hd3.
  { rewrite (writes_db _ _ Hw3). cbn. by rewrite (writes_db _ _ Hw1). }
  assert (objects s3 = objects s) as Ho3.
  { rewrite (writes_objects _ _ Hw3). cbn. by rewrite (writes_objects _ _ Hw1). }
  eexists _, root. split; [reflexivity|]. split; [|cbn; rewrite Hd3; split_and!; try done].
  - destruct Hi. split; cbn; rewrite ?Hd3, ?Ho3; try done.
  - intros addr p mp Hp Hmp. eapply persisted_grows; [apply Hw3|]. apply (Hall p mp); [|done].
    apply holder_order_all. by exists addr.
Qed.

(** ** Going back to the last commit *)

Variable levels : nat.
Variable dirty_order : gmap string string -> list (string * string).
Variable updates_order : gmap string slice -> list (string * slice).
Hypothesis dirty_order_all : forall d, dirty_order d ≡ₚ map_to_list d.
Hypothesis updates_order_all : forall u, updates_order u ≡ₚ map_to_list u.
Hypothesis code_key_nonempty : ~ is_code EmptyString.

Lemma recreateTrie_spec s ms us m h :
  Inv is_code (mainTrie (db s)) s ms us -> persisted (db_of s) m -> root_hash_of m h -> main_ok is_code m ->
  exists s', recreateTrie levels h s = (s', Ok tt) /\ adb_ok is_code s' (<[mainTrie (db s') := m]> ms) /\
    entries (db s') = [] /\ dataTries (db s') = ∅.
Proof.
  intros Hi Hper Hroot Hok. unfold recreateTrie. unfold mbind at 1, M_bind at 1, upd_adb at 1, modify at 1.
  set (s1 := with_adb _ s). destruct (inv_main_ok _ _ _ _ _ Hi) as (m1 & Hm1 & _).
  destruct (inv_tries _ _ _ _ _ Hi _ m1 Hm1) as (t & Ht & _).
  destruct (persisted_reload (storage s1) m h levels (maxTrieLevelInMemory t) Hper Hroot) as (tr & Hrec & Htr).
  unfold mbind at 1, M_bind at 1. rewrite (main_Recreate_run levels s1 h t (Ok tr) Ht Hrec).
  pose proof (tries_hold_new s1 ms tr m (inv_tries _ _ _ _ _ Hi) Htr) as Ht2.
  pose proof (tries_hold_fresh s ms (inv_tries _ _ _ _ _ Hi)) as Hfresh.
  eexists. split; [reflexivity|]. split; [|done]. exists []. cbn. set (p := length (tries s)) in *.
  assert (forall q, is_Some (ms !! q) -> q <> p /\ is_Some ((<[p := m]> ms) !! q)) as Hother.
  { intros q [x Hq]. split; [intros ->; congruence|]. rewrite lookup_insert_ne; [eauto|]. intros <-. congruence. }
  split; try done; cbn.
  - exists m. by rewrite lookup_insert_eq.
  - intros l a Hl. destruct (inv_objects _ _ _ _ _ Hi l a Hl) as [Hoa Hp]. split; [done|].
    intros q Hq. destruct (Hp q Hq) as [_ Hs]. by apply Hother.
Qed.

(** C18: a commit writes the main trie and every data trie in use to the
    database and returns a root hash; whatever happens to the database's
    accounts afterwards, reverting to the start of the journal succeeds and
    brings back the main trie that was committed, with that root hash. *)
Theorem revert_all_restores_commit s0 ms0 m :
  adb_ok is_code s0 ms0 -> ms0 !! mainTrie (db s0) = Some m ->
  exists sC root, AccountsDB_Commit holder_order obsolete_order hash_order s0 = (sC, Ok root) /\
    adb_ok is_code sC ms0 /\ JournalLen sC = 0 /\
    (forall addr p mp, dataTries (db s0) !! addr = Some p -> ms0 !! p = Some mp -> persisted (db_of sC) mp) /\
    forall s1, rtc (adb_step levels dirty_order updates_order is_code 0) sC s1 ->
      exists s2 ms2, RevertToSnapshot levels updates_order 0 s1 = (s2, Ok tt) /\ adb_ok is_code s2 ms2 /\
        ms2 !! mainTrie (db s2) = Some m /\ (AccountsDB_RootHash s2).2 = Ok root /\ JournalLen s2 = 0.
Proof.
  intros [us0 Hi0] Hm. destruct (inv_main_ok _ _ _ _ _ Hi0) as (m' & Hm' & Hok). rewrite Hm in Hm'. injection Hm' as <-.
  destruct (adb_Commit_spec s0 ms0 us0 m Hi0 Hm) as (sC & root & HrC & HiC & HeC & HlC & Hroot & Hper & Hall).
  rewrite <- (inv_main _ _ _ _ _ HiC) in HiC.
  exists sC, root. split; [exact HrC|]. split; [by exists []|]. split; [unfold JournalLen; by rewrite HeC|].
  split; [exact Hall|]. intros s1 Hsteps.
  pose proof (snapshot_reverts is_code sC ms0 [] HiC) as HbC. rewrite HeC in HbC.
  assert (Reverts is_code (mainTrie (db sC)) 0 [] ms0 (storage sC) (lastRootHash (db sC)) s1) as (ms1 & us1 & Hb1).
  { eapply steps_revert; [done|done|done|by exists ms0, []|exact Hsteps]. }
  pose proof (back_inv _ _ _ _ _ _ _ _ _ _ _ Hb1) as Hi1. rewrite <- (inv_main _ _ _ _ _ Hi1) in Hi1.
  destruct (recreateTrie_spec s1 ms1 us1 m root Hi1) as (s2 & Hr2 & Hok2 & He2 & _).
  { unfold db_of. rewrite (back_storage _ _ _ _ _ _ _ _ _ _ _ Hb1). exact Hper. }
  { done. }
  { done. }
  exists s2, (<[mainTrie (db s2) := m]> ms1). split; [|split; [exact Hok2|]].
  - unfold RevertToSnapshot. unfold mbind at 1, M_bind at 1, get at 1. unfold mbind at 1, M_bind at 1.
    destruct (Z.ltb_spec (Z.of_nat (length (entries (db s1)))) 0); [lia|]. cbn [orb].
    change (0 <? 0) with false. cbn [reject_if mret]. change (0 =? 0) with true. unfold mret, M_ret.
    rewrite (back_last _ _ _ _ _ _ _ _ _ _ _ Hb1), HlC. exact Hr2.
  - split; [by rewrite lookup_insert_eq|]. split; [|unfold JournalLen; by rewrite He2].
    destruct Hok2 as [us2 Hi2].
    destruct (on_trie_RootHash s2 _ (mainTrie (db s2)) m (inv_tries _ _ _ _ _ Hi2)) as (s3 & h & Hr3 & _ & _ & Hh).
    { by rewrite lookup_insert_eq. }
    unfold AccountsDB_RootHash, on_main, mbind, M_bind, get. rewrite Hr3. cbn. f_equal. by apply (root_hash_inj m m).
Qed.
End commit.
