(* ===== verification/AccountsExample.v ===== *)
(** * A concrete accounts database

    The theorems about the accounts database at a small database over the
    concrete trie of [TrieExample]: an account with contract code and data is
    saved, changed and reverted. *)

From S2P Require Import Prelude Common Strconv Codec TrieNode TrieTree TrieSim TrieStorage PatriciaTrie PatriciaProps TrieExample AccountsDB AccountsTries AccountsRevert AccountsSnapshots.
Local Open Scope Z_scope.

(** ** Messages *)

(** [UserAccountData], without the permissions. *)
Record accountMessage : Type := {
  am_Address : string; am_Name : string; am_RootHash : string; am_Balance : Z; am_Nonce : Z; am_CodeHash : string;
}.

#[local] Instance accountMessage_data : AccountData accountMessage := {|
  new_data a := {| am_Address := a; am_Name := ""; am_RootHash := ""; am_Balance := 0; am_Nonce := 0; am_CodeHash := "" |};
  GetRootHash := am_RootHash;
  SetRootHash h d := {| am_Address := am_Address d; am_Name := am_Name d; am_RootHash := h; am_Balance := am_Balance d;
                        am_Nonce := am_Nonce d; am_CodeHash := am_CodeHash d |};
  GetCodeHash := am_CodeHash;
  SetCodeHash h d := {| am_Address := am_Address d; am_Name := am_Name d; am_RootHash := am_RootHash d;
                        am_Balance := am_Balance d; am_Nonce := am_Nonce d; am_CodeHash := h |};
|}.

#[local] Instance Ser_accountMessage : Ser accountMessage :=
  Ser_iso (fun d => (am_Address d, am_Name d, am_RootHash d, am_Balance d, am_Nonce d, am_CodeHash d))
    (fun p => {| am_Address := p.1.1.1.1.1; am_Name := p.1.1.1.1.2; am_RootHash := p.1.1.1.2;
                 am_Balance := p.1.1.2; am_Nonce := p.1.2; am_CodeHash := p.2 |}) ltac:(by intros []).
#[local] Instance Ser_CodeEntry : Ser CodeEntry :=
  Ser_iso (fun e => (NumReferences e, Code e)) (fun p => {| NumReferences := p.1; Code := p.2 |}) ltac:(by intros []).

#[local] Instance codec_accountMessage : Marshalizer accountMessage := ser_codec.
#[local] Instance codec_CodeEntry : Marshalizer CodeEntry := ser_codec.

#[local] Instance account_codec_laws : AccountCodecLaws.
Proof.
  split; try done. intros d. destruct (ser_codec_roundtrip d) as (b & Hb & Hu). exists b. split_and!; done.
Qed.

#[local] Instance code_codec_laws : CodeCodecLaws.
Proof.
  split. intros e _. destruct (ser_codec_roundtrip e) as (b & Hb & Hu). exists b. split_and!; [done| |done].
  injection Hb as <-. apply (ser_pair_nonempty (NumReferences e, Code e)). apply ser_Z_nonempty.
Qed.

#[local] Existing Instances map_db map_db_laws tag_hasher tag_hasher_laws codec_CollapsedLn codec_CollapsedEn
  codec_CollapsedBn codec_Batch node_codec_laws batch_laws.

(** ** A database with one account *)

Definition the_code : string := "wasm".
Definition in_code (k : string) : Prop := k = Compute the_code.

Definition alice : account accountMessage :=
  {| acc_address := "alice"; acc_dirty := {["KDA/AST" := "7KDA/ASTalice"]}; acc_trie := None; acc_code := the_code;
     acc_hasNewCode := true; acc_data := new_data "alice" |}.

Definition empty_adb : @AccountsDB accountMessage :=
  {| mainTrie := 0; userAccounts := true; obsoleteDataTrieHashes := ∅; lastRootHash := ""; dataTries := ∅; entries := [] |}.
Definition start : adbState :=
  {| db := empty_adb; tries := [NewTrie 5]; storage := empty_storage; objects := [alice] |}.
Definition start_maps : gmap nat (gmap string string) := {[0%nat := ∅]}.

Definition list_order {V} (m : gmap string V) : list (string * V) := map_to_list m.
Lemma list_order_all {V} (m : gmap string V) : list_order m ≡ₚ map_to_list m.
Proof. done. Qed.
Definition holder_order (t : gmap string nat) : list nat := (map_to_list t).*2.
Lemma holder_order_all t p : p ∈ holder_order t <-> exists addr, t !! addr = Some p.
Proof.
  unfold holder_order. rewrite list_elem_of_fmap. split.
  - intros ([a q] & -> & Hin). apply elem_of_map_to_list in Hin. cbn. eauto.
  - intros [a Ha]. exists (a, p). by rewrite elem_of_map_to_list.
Qed.
Definition obsolete_order (o : gmap string (list string)) : list (list string) := (map_to_list o).*2.

Lemma in_code_nonempty : ~ in_code "".
Proof. done. Qed.

Lemma alice_ok : obj_ok in_code alice.
Proof. split; [done|done|done|by left]. Qed.

Lemma start_ok : adb_ok in_code start start_maps.
Proof.
  exists []. split; cbn; try done.
  - unfold start_maps. intros p m Hp. apply lookup_singleton_Some in Hp as [<- <-]. by exists (NewTrie 5).
  - exists ∅. split; [reflexivity|]. split; try done.
  - intros l a Hl. destruct l as [|[|l]]; [|done|done]. injection Hl as <-. split; [exact alice_ok|done].
Qed.

Lemma adb_main ic (s : @adbState map_db accountMessage) ms :
  adb_ok ic s ms -> exists m, ms !! mainTrie (db s) = Some m.
Proof. intros [us Hi]. destruct (inv_main_ok _ _ _ _ _ Hi) as (m & Hm & _). eauto. Qed.

(** The first save, a change of the object, and the second save. *)
Definition saved : adbState := (SaveAccount 10 list_order 0 start).1.

Definition alice_changed : account accountMessage :=
  {| acc_address := "alice"; acc_dirty := {["KDA/AST" := "9KDA/ASTalice"]}; acc_trie := Some 1%nat; acc_code := "";
     acc_hasNewCode := true; acc_data := new_data "alice" |}.
Definition changed : adbState := with_objects (<[0%nat := alice_changed]> (objects saved)) saved.
Definition saved_again : adbState := (SaveAccount 10 list_order 0 changed).1.

Lemma start_steps : rtc (adb_step 10 list_order list_order in_code 0) start saved.
Proof.
  eapply rtc_l; [|reflexivity]. apply step_save. intros h e -> He. vm_compute in He. discriminate.
Qed.

Lemma saved_ok : exists ms, adb_ok in_code saved ms.
Proof.
  destruct start_ok as [us Hi]. pose proof (snapshot_reverts in_code start start_maps us Hi) as Hb.
  destruct (steps_revert 10 list_order list_order list_order_all list_order_all in_code in_code_nonempty _ _ _ _ _ _
    start saved (ex_intro _ start_maps (ex_intro _ us Hb)) start_steps) as (ms & us' & Hb').
  exists ms, us'. apply Hb'.
Qed.

Lemma changed_steps : rtc (adb_step 10 list_order list_order in_code (length (entries (db saved)))) saved saved_again.
Proof.
  eapply rtc_l; [eapply (step_object _ _ _ _ _ saved 0%nat _ alice_changed)|].
  - vm_compute. reflexivity.
  - split; [done|done|done|by left].
  - reflexivity.
  - reflexivity.
  - eapply rtc_l; [|reflexivity]. apply step_save. intros h e -> He. vm_compute in He. injection He as <-. done.
Qed.

(** The second save drops the code and changes the stored value. *)
Example code_dropped : (GetCode (Compute the_code) saved_again).2 = "".
Proof. vm_compute. reflexivity. Qed.
Example code_kept : (GetCode (Compute the_code) saved).2 = the_code.
Proof. vm_compute. reflexivity. Qed.

Lemma revert_restores_snapshot_witness :
  exists ms0 s2 ms2, adb_ok in_code saved ms0 /\
    RevertToSnapshot 10 list_order (JournalLen saved) saved_again = (s2, Ok tt) /\ adb_ok in_code s2 ms2 /\
    ms0 ⊆ ms2 /\ (AccountsDB_RootHash s2).2 = (AccountsDB_RootHash saved).2.
Proof.
  destruct saved_ok as [ms0 Hok]. exists ms0.
  destruct (revert_restores_snapshot 10 list_order list_order list_order_all list_order_all in_code in_code_nonempty
    saved ms0 saved_again Hok eq_refl changed_steps) as (s2 & ms2 & Hr & Hok2 & Hsub & _ & _ & Hroot).
  exists s2, ms2. split; [exact Hok|]. split; [exact Hr|]. split; [exact Hok2|]. split; [exact Hsub|exact Hroot].
Defined.

Lemma revert_all_restores_commit_witness :
  exists ms0 m sC root, adb_ok in_code saved ms0 /\ ms0 !! mainTrie (db saved) = Some m /\
    AccountsDB_Commit holder_order obsolete_order elements saved = (sC, Ok root) /\
    exists s2 (ms2 : gmap nat (gmap string string)),
      RevertToSnapshot 10 list_order 0 sC = (s2, Ok tt) /\ ms2 !! mainTrie (db s2) = Some m /\
      (AccountsDB_RootHash s2).2 = Ok root.
Proof.
  destruct saved_ok as [ms0 Hok]. destruct (adb_main in_code saved ms0 Hok) as [m Hm].
  destruct (revert_all_restores_commit holder_order obsolete_order elements holder_order_all in_code 10 list_order
    list_order list_order_all list_order_all in_code_nonempty saved ms0 m Hok Hm)
    as (sC & root & Hc & _ & _ & _ & Hrev).
  exists ms0, m, sC, root. split; [exact Hok|]. split; [exact Hm|]. split; [exact Hc|].
  destruct (Hrev sC (rtc_refl _ _)) as (s2 & ms2 & Hr & _ & Hm2 & Hroot & _).
  exists s2, ms2. split; [exact Hr|]. split; [exact Hm2|exact Hroot].
Defined.
