(* ===== verification/TxList.v ===== *)
(** * The maps of the transaction pool and the transactions of one sender

    [storage/txcache/maps/concurrentMap.go], [bucketSortedMap.go]: maps split
    into chunks by a hash of the key, so that goroutines seldom wait for each
    other.  A bucket-sorted map also keeps each item in one of a fixed number of
    score chunks.  Items of a bucket-sorted map are objects of the heap, given
    by their location.

    [storage/txcache/txListForSender.go], [wrappedTransaction.go]: the pending
    transactions of an account, sorted by nonce and, for one nonce, by falling
    fee.  [container/list] is a list; an element is named by its position. *)

From S2P Require Import Prelude.

Definition fnv32_prime : Z := 16777619.
Definition fnv32_offset : Z := 2166136261.

(** [fnv32] and [fnv32Hash], which are the same function. *)
Fixpoint fnv32_loop (hash : Z) (key : string) : Z :=
  match key with
  | EmptyString => hash
  | String c key => fnv32_loop (Z.lxor (wrap_u32 (hash * fnv32_prime)) (Z.of_N (Ascii.N_of_ascii c))) key
  end.
Definition fnv32 (key : string) : Z := fnv32_loop fnv32_offset key.

(** The chunk that holds a key, among [length cs] chunks. *)
Definition chunk_index {A} (key : string) (cs : list (gmap string A)) : nat :=
  Z.to_nat (fnv32 key mod Z.of_nat (length cs)).

Section sharded.
Context {A : Type}.
Implicit Types cs : list (gmap string A).

Definition initializeChunks (n : Z) : list (gmap string A) := replicate (Z.to_nat n) ∅.

(** [NewConcurrentMap]: there is at least one chunk. *)
Definition NewConcurrentMap (nChunks : Z) : list (gmap string A) :=
  initializeChunks (if nChunks =? 0 then 1 else nChunks).

Definition getChunk (key : string) cs : gmap string A := default ∅ (cs !! chunk_index key cs).
Definition set_chunk (key : string) (f : gmap string A -> gmap string A) cs : list (gmap string A) :=
  alter f (chunk_index key cs) cs.

Definition cm_Get (key : string) cs : option A := getChunk key cs !! key.
Definition cm_Set (key : string) (v : A) cs : list (gmap string A) := set_chunk key (insert key v) cs.
Definition SetIfAbsent (key : string) (v : A) cs : list (gmap string A) * bool :=
  match cm_Get key cs with
  | Some _ => (cs, false)
  | None => (cm_Set key v cs, true)
  end.
Definition cm_Remove (key : string) cs : list (gmap string A) * option A :=
  (set_chunk key (delete key) cs, cm_Get key cs).

(** Clearing makes as many chunks again. *)
Definition cm_Clear cs : list (gmap string A) := initializeChunks (Z.of_nat (length cs)).

(** [Count] *)
Definition cm_Count cs : Z := zsum ((fun c => Z.of_nat (size c)) <$> cs).
End sharded.

(** ** The bucket-sorted map *)

(** A score chunk is named by its position; [Clear] replaces all chunks, so the
    name also says after how many clears the chunk was made. *)
Definition chunkRef : Type := nat * nat.

Record BucketSortedMap : Type := {
  maxScore : Z;
  generation : nat;
  chunks : list (gmap string nat);
  scoreChunks : list (gmap string nat);
}.

Definition NewBucketSortedMap (nChunks nScoreChunks : Z) : BucketSortedMap :=
  let nScoreChunks := if nScoreChunks =? 0 then 1 else nScoreChunks in
  {| maxScore := nScoreChunks - 1; generation := 0;
     chunks := NewConcurrentMap nChunks; scoreChunks := initializeChunks nScoreChunks |}.

Definition with_chunks (cs : list (gmap string nat)) (m : BucketSortedMap) : BucketSortedMap :=
  {| maxScore := maxScore m; generation := generation m; chunks := cs; scoreChunks := scoreChunks m |}.
Definition with_scoreChunks (cs : list (gmap string nat)) (m : BucketSortedMap) : BucketSortedMap :=
  {| maxScore := maxScore m; generation := generation m; chunks := chunks m; scoreChunks := cs |}.

(** [Set] does not add the item to a score chunk. *)
Definition bsm_Set (key : string) (item : nat) (m : BucketSortedMap) : BucketSortedMap :=
  with_chunks (cm_Set key item (chunks m)) m.
Definition bsm_Get (key : string) (m : BucketSortedMap) : option nat := cm_Get key (chunks m).

(** [scoreChunk] is the chunk the item says it is in.  A chunk made before the
    last [Clear] is not part of the map any more. *)
Definition removeFromScoreChunk (key : string) (scoreChunk : option chunkRef) (m : BucketSortedMap)
  : BucketSortedMap :=
  match scoreChunk with
  | None => m
  | Some (g, i) =>
      if decide (g = generation m) then with_scoreChunks (alter (delete key) i (scoreChunks m)) m else m
  end.

(** The map, and the score chunk the item is in afterwards. *)
Definition NotifyScoreChange (key : string) (item : nat) (scoreChunk : option chunkRef) (newScore : Z)
    (m : BucketSortedMap) : BucketSortedMap * option chunkRef :=
  let newScore := if maxScore m <? newScore then maxScore m else newScore in
  let newScoreChunk := (generation m, Z.to_nat newScore) in
  if decide (Some newScoreChunk = scoreChunk) then (m, scoreChunk)
  else
    let m := removeFromScoreChunk key scoreChunk m in
    (with_scoreChunks (alter (insert key item) (Z.to_nat newScore) (scoreChunks m)) m, Some newScoreChunk).

(** [score_chunk_of] reads the item's own record of its chunk. *)
Definition bsm_Remove (key : string) (score_chunk_of : nat -> option chunkRef) (m : BucketSortedMap)
  : BucketSortedMap * option nat :=
  let '(cs, item) := cm_Remove key (chunks m) in
  let m := with_chunks cs m in
  match item with
  | Some p => (removeFromScoreChunk key (score_chunk_of p) m, Some p)
  | None => (m, None)
  end.

Definition bsm_Clear (m : BucketSortedMap) : BucketSortedMap :=
  {| maxScore := maxScore m; generation := S (generation m);
     chunks := cm_Clear (chunks m); scoreChunks := cm_Clear (scoreChunks m) |}.

(** [types.NewDeterministicMap(m).Each]: the entries by key. *)
Definition deterministic_values (m : gmap string nat) : list nat :=
  omap (fun k => m !! k) (merge_sort str_le (map_to_list m).*1).

Definition GetSnapshotAscending (m : BucketSortedMap) : list nat :=
  concat (deterministic_values <$> scoreChunks m).
(** [range_values] is the order in which Go visits a chunk. *)
Definition GetSnapshotDescending (range_values : gmap string nat -> list nat) (m : BucketSortedMap) : list nat :=
  concat (range_values <$> reverse (scoreChunks m)).

(** ** The chunks stand for one map *)

Lemma elem_of_concat {A} (x : A) (ls : list (list A)) : x ∈ concat ls <-> exists l, l ∈ ls /\ x ∈ l.
Proof. rewrite list_elem_of_In, in_concat. by setoid_rewrite list_elem_of_In. Qed.

Lemma fnv32_loop_nonneg key hash : 0 <= hash -> 0 <= fnv32_loop hash key.
Proof.
  revert hash. induction key as [|c key IH]; intros hash Hh; cbn; [done|]. apply IH.
  apply Z.lxor_nonneg. pose proof (wrap_u32_range (hash * fnv32_prime)). ints. split; lia.
Qed.

Record represents {A} (cs : list (gmap string A)) (m : gmap string A) : Prop := {
  rep_nonempty : cs <> [];
  rep_get : forall k, cm_Get k cs = m !! k;
}.

Section represents.
Context {A : Type}.
Implicit Types (cs : list (gmap string A)) (m : gmap string A).

Lemma chunk_index_lt k cs : cs <> [] -> (chunk_index k cs < length cs)%nat.
Proof.
  intros Hne. unfold chunk_index. destruct cs as [|c cs]; [done|].
  pose proof (Z.mod_pos_bound (fnv32 k) (Z.of_nat (length (c :: cs)))) as Hb. cbn [length] in *. lia.
Qed.

Lemma set_chunk_lookup k k' f cs : cs <> [] ->
  cm_Get k' (set_chunk k f cs) =
    (if decide (chunk_index k cs = chunk_index k' cs) then f (getChunk k cs) !! k' else cm_Get k' cs).
Proof.
  intros Hne. unfold cm_Get, getChunk, set_chunk.
  assert (chunk_index k' (alter f (chunk_index k cs) cs) = chunk_index k' cs) as Hi.
  { unfold chunk_index. by rewrite length_alter. }
  rewrite Hi. case_decide as Hd.
  - rewrite <- Hd, list_lookup_alter_eq. pose proof (chunk_index_lt k cs Hne) as Hlt.
    destruct (cs !! chunk_index k cs) as [c|] eqn:Hc; [done|]. apply lookup_ge_None in Hc. lia.
  - by rewrite list_lookup_alter_ne.
Qed.

Lemma set_chunk_nonempty k f cs : cs <> [] -> set_chunk k f cs <> [].
Proof. intros Hne He. apply Hne, length_zero_iff_nil. unfold set_chunk in He. apply (f_equal length) in He. by rewrite length_alter in He. Qed.

Lemma represents_set k v cs m : represents cs m -> represents (cm_Set k v cs) (<[k := v]> m).
Proof.
  intros [Hne Hg]. split; [by apply set_chunk_nonempty|]. intros k'. unfold cm_Set.
  rewrite set_chunk_lookup by done. destruct (decide (k = k')) as [->|Hk].
  - by rewrite decide_True, !lookup_insert_eq by done.
  - rewrite (lookup_insert_ne m) by done. rewrite <- Hg. case_decide as Hd; [|done].
    rewrite lookup_insert_ne by done. unfold cm_Get, getChunk. by rewrite Hd.
Qed.

Lemma represents_remove k cs m : represents cs m ->
  represents (cm_Remove k cs).1 (delete k m) /\ (cm_Remove k cs).2 = m !! k.
Proof.
  intros [Hne Hg]. split; [|apply Hg]. split; [by apply set_chunk_nonempty|]. intros k'. cbn.
  rewrite set_chunk_lookup by done. destruct (decide (k = k')) as [->|Hk].
  - by rewrite decide_True, !lookup_delete_eq by done.
  - rewrite (lookup_delete_ne m) by done. rewrite <- Hg. case_decide as Hd; [|done].
    rewrite lookup_delete_ne by done. unfold cm_Get, getChunk. by rewrite Hd.
Qed.

Lemma initial_represents n : 0 < n -> represents (initializeChunks n) (∅ : gmap string A).
Proof.
  intros Hn. split.
  - intros He. apply (f_equal length) in He. unfold initializeChunks in He. rewrite length_replicate in He. cbn in He. lia.
  - intros k. unfold cm_Get, getChunk, initializeChunks.
    destruct (replicate _ _ !! _) as [c|] eqn:Hc; [|done]. by apply lookup_replicate in Hc as [-> _].
Qed.

Lemma new_represents n : 0 <= n -> represents (NewConcurrentMap n) (∅ : gmap string A).
Proof. intros Hn. unfold NewConcurrentMap. apply initial_represents. destruct (n =? 0) eqn:Hz; zify_bools; lia. Qed.

Lemma clear_represents cs m : represents cs m -> represents (cm_Clear cs) (∅ : gmap string A).
Proof. intros [Hne _]. apply initial_represents. destruct cs; cbn; [done|lia]. Qed.
End represents.

(** ** Score chunks *)

Definition in_chunk (i : nat) (k : string) (m : BucketSortedMap) : option nat := scoreChunks m !! i ≫= (.!! k).

Lemma in_chunk_alter i j k f m :
  in_chunk i k (with_scoreChunks (alter f j (scoreChunks m)) m) =
    (if decide (i = j) then scoreChunks m !! i ≫= (fun c => f c !! k) else in_chunk i k m).
Proof.
  unfold in_chunk. cbn. case_decide as Hd.
  - subst. rewrite list_lookup_alter_eq. by destruct (scoreChunks m !! j).
  - by rewrite list_lookup_alter_ne.
Qed.

Lemma removeFromScoreChunk_other i k k' c m : k <> k' -> in_chunk i k' (removeFromScoreChunk k c m) = in_chunk i k' m.
Proof.
  intros Hk. destruct c as [[g j]|]; cbn; [|done]. case_decide; [|done]. rewrite in_chunk_alter.
  case_decide; [|done]. subst. unfold in_chunk. destruct (scoreChunks m !! j); cbn; [|done].
  by apply lookup_delete_ne.
Qed.

Lemma removeFromScoreChunk_same i k c m :
  (forall j p, in_chunk j k m = Some p -> c = Some (generation m, j)) ->
  in_chunk i k (removeFromScoreChunk k c m) = None.
Proof.
  intros Hin. destruct c as [[g j]|]; cbn.
  - case_decide as Hg.
    + rewrite in_chunk_alter. case_decide as Hij.
      * subst. destruct (scoreChunks m !! j); cbn; [|done]. apply lookup_delete_eq.
      * destruct (in_chunk i k m) as [p|] eqn:Hp; [|done]. specialize (Hin i p Hp). congruence.
    + destruct (in_chunk i k m) as [p|] eqn:Hp; [|done]. specialize (Hin i p Hp). congruence.
  - destruct (in_chunk i k m) as [p|] eqn:Hp; [|done]. by specialize (Hin i p Hp).
Qed.

Lemma removeFromScoreChunk_fields k c m :
  let m' := removeFromScoreChunk k c m in
  chunks m' = chunks m /\ generation m' = generation m /\ maxScore m' = maxScore m /\
  length (scoreChunks m') = length (scoreChunks m).
Proof. destruct c as [[g j]|]; cbn; [|done]. case_decide; cbn; [|done]. by rewrite length_alter. Qed.

(** Where the clamped score puts an item. *)
Definition clamp_score (score : Z) (m : BucketSortedMap) : nat :=
  Z.to_nat (if maxScore m <? score then maxScore m else score).

Lemma NotifyScoreChange_spec k p c score m m' c' :
  NotifyScoreChange k p c score m = (m', c') ->
  0 <= score -> 0 <= maxScore m -> Z.of_nat (length (scoreChunks m)) = maxScore m + 1 ->
  (forall j q, in_chunk j k m = Some q <-> q = p /\ c = Some (generation m, j)) ->
  c' = Some (generation m, clamp_score score m) /\
  (forall j q, in_chunk j k m' = Some q <-> q = p /\ c' = Some (generation m, j)) /\
  (forall j k', k <> k' -> in_chunk j k' m' = in_chunk j k' m) /\
  chunks m' = chunks m /\ generation m' = generation m /\ maxScore m' = maxScore m /\
  length (scoreChunks m') = length (scoreChunks m).
Proof.
  intros Hrun Hs Hmax Hlen Hin. unfold NotifyScoreChange in Hrun. fold (clamp_score score m) in Hrun.
  set (i := clamp_score score m) in *.
  assert (i < length (scoreChunks m))%nat as Hi.
  { subst i. unfold clamp_score. destruct (maxScore m <? score) eqn:Hc; zify_bools; lia. }
  case_decide as Hd; simplify_eq.
  - splits; try done.
  - destruct (removeFromScoreChunk_fields k c m) as (F1 & F2 & F3 & F4).
    set (m1 := removeFromScoreChunk k c m) in *. splits; try done; cbn.
    + intros j q. rewrite in_chunk_alter. case_decide as Hj.
      * subst j. destruct (scoreChunks m1 !! i) as [ch|] eqn:Hch.
        -- cbn. rewrite lookup_insert_eq. naive_solver.
        -- apply lookup_ge_None in Hch. rewrite F4 in Hch. lia.
      * unfold m1. rewrite removeFromScoreChunk_same by (intros; by eapply Hin). split; [done|]. intros [_ [=]]. done.
    + intros j k' Hk. rewrite in_chunk_alter. case_decide as Hj.
      * subst j. transitivity (in_chunk i k' m1); [|by apply removeFromScoreChunk_other].
        unfold in_chunk. destruct (scoreChunks m1 !! i); cbn; [|done]. by rewrite lookup_insert_ne.
      * by apply removeFromScoreChunk_other.
    + by rewrite length_alter.
Qed.

(** What the pool reads of a transaction. *)
Record TransactionHandler : Type := {
  tx_GetSender : string;
  tx_GetNonce : Z;
  tx_GetTotalFees : Z;
  tx_GetGasLimit : Z;
}.

Record WrappedTransaction : Type := {
  Tx : TransactionHandler;
  TxHash : string;
  Size : Z;
  TxFeeScoreNormalized : Z;
  ExpireOn : Z;
}.

Definition sameAs (a b : WrappedTransaction) : bool := str_eqb (TxHash a) (TxHash b).
Definition estimateTxGas (tx : WrappedTransaction) : Z := tx_GetTotalFees (Tx tx).
Definition nonce_of (tx : WrappedTransaction) : Z := tx_GetNonce (Tx tx).

Record senderConstraints : Type := { maxNumTxs : Z; maxNumBytes : Z }.

Record txListForSender : Type := {
  copyDetectedGap : bool;
  lastComputedScore : Z;
  accountNonceKnown : bool;
  sweepable : bool;
  copyPreviousNonce : Z;
  sender : string;
  items : list WrappedTransaction;
  copyBatchIndex : nat;
  scoreChunk : option chunkRef;
  accountNonce : Z;
  totalBytes : Z;
  totalFees : Z;
  numFailedSelections : Z;
}.

Definition newTxListForSender (s : string) : txListForSender :=
  {| copyDetectedGap := false; lastComputedScore := 0; accountNonceKnown := false; sweepable := false;
     copyPreviousNonce := 0; sender := s; items := []; copyBatchIndex := 0; scoreChunk := None;
     accountNonce := 0; totalBytes := 0; totalFees := 0; numFailedSelections := 0 |}.

Definition with_items (ts : list WrappedTransaction) (bytes fees : Z) (l : txListForSender) : txListForSender :=
  {| copyDetectedGap := copyDetectedGap l; lastComputedScore := lastComputedScore l;
     accountNonceKnown := accountNonceKnown l; sweepable := sweepable l;
     copyPreviousNonce := copyPreviousNonce l; sender := sender l; items := ts;
     copyBatchIndex := copyBatchIndex l; scoreChunk := scoreChunk l; accountNonce := accountNonce l;
     totalBytes := bytes; totalFees := fees; numFailedSelections := numFailedSelections l |}.
Definition with_score (score : Z) (c : option chunkRef) (l : txListForSender) : txListForSender :=
  {| copyDetectedGap := copyDetectedGap l; lastComputedScore := score;
     accountNonceKnown := accountNonceKnown l; sweepable := sweepable l;
     copyPreviousNonce := copyPreviousNonce l; sender := sender l; items := items l;
     copyBatchIndex := copyBatchIndex l; scoreChunk := c; accountNonce := accountNonce l;
     totalBytes := totalBytes l; totalFees := totalFees l; numFailedSelections := numFailedSelections l |}.
Definition with_failures (n : Z) (sweep : bool) (l : txListForSender) : txListForSender :=
  {| copyDetectedGap := copyDetectedGap l; lastComputedScore := lastComputedScore l;
     accountNonceKnown := accountNonceKnown l; sweepable := sweep;
     copyPreviousNonce := copyPreviousNonce l; sender := sender l; items := items l;
     copyBatchIndex := copyBatchIndex l; scoreChunk := scoreChunk l; accountNonce := accountNonce l;
     totalBytes := totalBytes l; totalFees := totalFees l; numFailedSelections := n |}.
Definition with_copy (gap : bool) (idx : nat) (prev : Z) (l : txListForSender) : txListForSender :=
  {| copyDetectedGap := gap; lastComputedScore := lastComputedScore l;
     accountNonceKnown := accountNonceKnown l; sweepable := sweepable l;
     copyPreviousNonce := prev; sender := sender l; items := items l;
     copyBatchIndex := idx; scoreChunk := scoreChunk l; accountNonce := accountNonce l;
     totalBytes := totalBytes l; totalFees := totalFees l; numFailedSelections := numFailedSelections l |}.

Definition countTx (l : txListForSender) : Z := Z.of_nat (length (items l)).
Definition IsEmpty (l : txListForSender) : bool := countTx l =? 0.
Definition getTxHashes (l : txListForSender) : list string := TxHash <$> items l.

(** ** Adding *)

(** [back] lists the items from the last one; the result is the number of items
    before the new one, or nothing for a transaction that is already there. *)
Fixpoint findInsertionPlace (tx : WrappedTransaction) (back : list WrappedTransaction) : option nat :=
  match back with
  | [] => Some 0%nat
  | cur :: before =>
      if sameAs tx cur then None
      else if (nonce_of cur =? nonce_of tx) && (tx_GetTotalFees (Tx tx) <? tx_GetTotalFees (Tx cur))
      then Some (length back)
      else if nonce_of cur <? nonce_of tx then Some (length back)
      else findInsertionPlace tx before
  end.

Definition insert_at (n : nat) (tx : WrappedTransaction) (l : txListForSender) : txListForSender :=
  with_items (take n (items l) ++ tx :: drop n (items l)) (totalBytes l) (totalFees l) l.

Definition onAddedTransaction (tx : WrappedTransaction) (l : txListForSender) : txListForSender :=
  with_items (items l) (totalBytes l +! Size tx) (totalFees l +! estimateTxGas tx) l.
Definition onRemovedListElement (tx : WrappedTransaction) (l : txListForSender) : txListForSender :=
  with_items (items l) (totalBytes l -! Size tx) (totalFees l -! estimateTxGas tx) l.

Definition set_items (ts : list WrappedTransaction) (l : txListForSender) : txListForSender :=
  with_items ts (totalBytes l) (totalFees l) l.

(** [items.Remove] of the items [p] selects, one after the other, with their
    accounting; the hashes that were removed. *)
Fixpoint remove_where (p : WrappedTransaction -> bool) (ts : list WrappedTransaction) (l : txListForSender)
  : txListForSender * list string :=
  match ts with
  | [] => (set_items [] l, [])
  | tx :: ts =>
      if p tx then
        let '(l, removed) := remove_where p ts (onRemovedListElement tx l) in (l, TxHash tx :: removed)
      else
        let '(l, removed) := remove_where p ts l in (set_items (tx :: items l) l, removed)
  end.

Section constraints.
Variable constraints : senderConstraints.

Definition isCapacityExceeded (l : txListForSender) : bool :=
  (maxNumBytes constraints <? totalBytes l) || (maxNumTxs constraints <? countTx l).

(** The loop from the back of the list.  [items.Remove] clears the links of the
    element it removes, so that the following [element.Prev()] is nil and the
    loop ends after one removal. *)
Definition remove_last_if_exceeded (l : txListForSender) : txListForSender * list string :=
  if isCapacityExceeded l then
    match reverse (items l) with
    | [] => (l, [])
    | tx :: before => (onRemovedListElement tx (set_items (reverse before) l), [TxHash tx])
    end
  else (l, []).

Definition applySizeConstraints (now : Z) (l : txListForSender) : txListForSender * list string :=
  if negb (isCapacityExceeded l) then (l, [])
  else
    let '(l, expired) := remove_where (fun tx => ExpireOn tx <? now) (items l) l in
    let '(l, evicted) := remove_last_if_exceeded l in
    (l, expired ++ evicted).

(** [AddTx], before the score of the sender is recomputed. *)
Definition list_AddTx (now : Z) (tx : WrappedTransaction) (l : txListForSender)
  : txListForSender * option (list string) :=
  match findInsertionPlace tx (reverse (items l)) with
  | None => (l, None)
  | Some n =>
      let '(l, evicted) := applySizeConstraints now (onAddedTransaction tx (insert_at n tx l)) in
      (l, Some evicted)
  end.
End constraints.

(** ** Removing *)

(** The number of items before the one to find. *)
Fixpoint findListElementWithTx (txToFind : WrappedTransaction) (ts : list WrappedTransaction) : option nat :=
  match ts with
  | [] => None
  | tx :: ts =>
      if sameAs tx txToFind then Some 0%nat
      else if nonce_of txToFind <? nonce_of tx then None
      else S <$> findListElementWithTx txToFind ts
  end.

Definition list_RemoveTx (tx : WrappedTransaction) (l : txListForSender) : txListForSender * bool :=
  match findListElementWithTx tx (items l) with
  | None => (l, false)
  | Some n =>
      match items l !! n with
      | Some found => (onRemovedListElement found (set_items (delete n (items l)) l), true)
      | None => (l, false)
      end
  end.

(** The loop of [removeTxLowerNonce], which stops at the first higher nonce. *)
Fixpoint remove_lower (nonce : Z) (ts : list WrappedTransaction) (l : txListForSender)
  : txListForSender * list string :=
  match ts with
  | [] => (set_items [] l, [])
  | tx :: rest =>
      if nonce <? nonce_of tx then (set_items ts l, [])
      else let '(l, removed) := remove_lower nonce rest (onRemovedListElement tx l) in
           (l, TxHash tx :: removed)
  end.

(** ** Scores *)

Record senderScoreParams : Type := { score_count : Z; score_size : Z; score_fees : Z }.

(** [atomic.Counter.GetUint64] *)
Definition counter_uint64 (z : Z) : Z := if z <? 0 then 0 else z.

Definition getScoreParams (l : txListForSender) : senderScoreParams :=
  {| score_count := countTx l; score_size := counter_uint64 (totalBytes l);
     score_fees := counter_uint64 (totalFees l) |}.

(** ** Selecting *)

Definition senderGracePeriodLowerBound : Z := 2.
Definition senderGracePeriodUpperBound : Z := 2.

Definition notify_nonce (nonce : Z) (l : txListForSender) : txListForSender :=
  {| copyDetectedGap := copyDetectedGap l; lastComputedScore := lastComputedScore l;
     accountNonceKnown := true; sweepable := sweepable l;
     copyPreviousNonce := copyPreviousNonce l; sender := sender l; items := items l;
     copyBatchIndex := copyBatchIndex l; scoreChunk := scoreChunk l; accountNonce := nonce;
     totalBytes := totalBytes l; totalFees := totalFees l; numFailedSelections := numFailedSelections l |}.

Definition isInGracePeriod (l : txListForSender) : bool :=
  (senderGracePeriodLowerBound <=? numFailedSelections l) && (numFailedSelections l <=? senderGracePeriodUpperBound).
Definition isGracePeriodExceeded (l : txListForSender) : bool :=
  senderGracePeriodUpperBound <? numFailedSelections l.

Definition hasInitialGap (l : txListForSender) : bool :=
  if negb (accountNonceKnown l) then false
  else match items l with
       | [] => false
       | firstTx :: _ => accountNonce l <? nonce_of firstTx
       end.

Definition verifyInitialGapOnSelectionStart (l : txListForSender) : txListForSender * bool :=
  if hasInitialGap l then
    let l := with_failures (numFailedSelections l +! 1) (sweepable l) l in
    ((if isGracePeriodExceeded l then with_failures (numFailedSelections l) true l else l), true)
  else (with_failures 0 (sweepable l) l, false).

(** What the copy loop leaves: the copied transactions, the last nonce that was
    looked at without a gap, whether a gap stopped it. *)
Record copy_result : Type := { cr_copied : list WrappedTransaction; cr_previous : Z; cr_gap : bool }.

Fixpoint copy_loop (batchSize availableSpace bandwidth : Z) (copied copiedBandwidth previousNonce : Z)
    (rest : list WrappedTransaction) : copy_result :=
  match rest with
  | [] => {| cr_copied := []; cr_previous := previousNonce; cr_gap := false |}
  | value :: rest =>
      if (copied =? batchSize) || (copied =? availableSpace) || (bandwidth <=? copiedBandwidth)
      then {| cr_copied := []; cr_previous := previousNonce; cr_gap := false |}
      else if (0 <? previousNonce) && (wrap_u64 (previousNonce + 1) <? nonce_of value)
      then {| cr_copied := []; cr_previous := previousNonce; cr_gap := true |}
      else
        let r := copy_loop batchSize availableSpace bandwidth (copied + 1)
                   (wrap_u64 (copiedBandwidth + tx_GetGasLimit (Tx value))) (nonce_of value) rest in
        {| cr_copied := value :: cr_copied r; cr_previous := cr_previous r; cr_gap := cr_gap r |}
  end.

(** The list, and the transactions written to the destination. *)
Definition selectBatchTo (isFirstBatch : bool) (availableSpace batchSize bandwidth : Z) (l : txListForSender)
  : txListForSender * list WrappedTransaction :=
  let l := if isFirstBatch then let '(l, gap) := verifyInitialGapOnSelectionStart l in with_copy gap 0 0 l
           else l in
  let batchSize := if copyDetectedGap l then (if isFirstBatch && isInGracePeriod l then 1 else 0)
                   else batchSize in
  let r := copy_loop batchSize availableSpace bandwidth 0 0 (copyPreviousNonce l)
             (drop (copyBatchIndex l) (items l)) in
  (with_copy (copyDetectedGap l || cr_gap r) (copyBatchIndex l + length (cr_copied r)) (cr_previous r) l,
   cr_copied r).
