(* ===== verification/TxCache.v ===== *)
(** * The transaction pool

    [storage/txcache/txCache.go], [txListBySenderMap.go], [txByHashMap.go],
    [eviction.go], [sweeping.go], [config.go]: pending transactions by hash and
    by sender, eviction of low-score senders when the pool is full, sweeping of
    senders with a lasting nonce gap, expiry, and the selection of transactions
    for a block.  The lists of the senders are objects of a heap: a list that is
    waiting to be swept may have left the pool in the meantime.  An operation
    runs from start to end without another in between, which is an abstraction
    of the code: [AddTx] holds [mutTxOperation] only while it adds to the two
    indexes, with the eviction before and the removal of the transactions beyond
    the sender's limits after it outside the lock, and the expiry walks the
    senders under their own mutexes and takes the lock for the removal only.
    What can happen between those parts is not modelled.  The sweep after a
    selection, which runs in a goroutine of its own, is an operation. *)

From S2P Require Import Prelude TxList.

(** ** Configuration *)

Record Config : Type := {
  Name : string;
  NumChunks : Z;
  EvictionEnabled : bool;
  NumBytesThreshold : Z;
  NumBytesPerSenderThreshold : Z;
  CountThreshold : Z;
  CountPerSenderThreshold : Z;
  NumSendersToPreemptivelyEvict : Z;
}.

Definition numberOfScoreChunks : Z := 100.

(** [verify]: whether the configuration is accepted. *)
Definition verify (c : Config) : bool :=
  negb (slen (Name c) =? 0) &&
  negb ((NumChunks c <? 1) || (128 <? NumChunks c)) &&
  negb ((NumBytesPerSenderThreshold c <? 1) || (33554432 <? NumBytesPerSenderThreshold c)) &&
  negb (CountPerSenderThreshold c <? 1) &&
  (if EvictionEnabled c then
     negb ((NumBytesThreshold c <? 4) || (1073741824 <? NumBytesThreshold c)) &&
     negb (CountThreshold c <? 4) && negb (NumSendersToPreemptivelyEvict c <? 1)
   else true).

Definition getSenderConstraints (c : Config) : senderConstraints :=
  {| maxNumTxs := CountPerSenderThreshold c; maxNumBytes := NumBytesPerSenderThreshold c |}.

(** ** State *)

Record txByHashMap : Type := {
  hash_chunks : list (gmap string WrappedTransaction);
  hash_counter : Z;
  numBytes : Z;
}.

(** The map of senders, with the heap of the lists it refers to. *)
Record txListBySenderMap : Type := {
  backingMap : BucketSortedMap;
  sender_counter : Z;
  lists : list txListForSender;
}.

Record TxCache : Type := {
  txListBySender : txListBySenderMap;
  txByHash : txByHashMap;
  config : Config;
  sweepingListOfSenders : list nat;
}.

Definition with_bySender (m : txListBySenderMap) (c : TxCache) : TxCache :=
  {| txListBySender := m; txByHash := txByHash c; config := config c;
     sweepingListOfSenders := sweepingListOfSenders c |}.
Definition with_byHash (m : txByHashMap) (c : TxCache) : TxCache :=
  {| txListBySender := txListBySender c; txByHash := m; config := config c;
     sweepingListOfSenders := sweepingListOfSenders c |}.
Definition with_sweeping (ps : list nat) (c : TxCache) : TxCache :=
  {| txListBySender := txListBySender c; txByHash := txByHash c; config := config c;
     sweepingListOfSenders := ps |}.

Definition NewTxCache (c : Config) : option TxCache :=
  if verify c then
    Some {| txListBySender := {| backingMap := NewBucketSortedMap (NumChunks c) numberOfScoreChunks;
                                 sender_counter := 0; lists := [] |};
            txByHash := {| hash_chunks := NewConcurrentMap (NumChunks c); hash_counter := 0; numBytes := 0 |};
            config := c; sweepingListOfSenders := [] |}
  else None.

(** ** Transactions by hash *)

Definition hash_addTx (tx : WrappedTransaction) (m : txByHashMap) : txByHashMap * bool :=
  let '(cs, added) := SetIfAbsent (TxHash tx) tx (hash_chunks m) in
  if added then ({| hash_chunks := cs; hash_counter := hash_counter m +! 1; numBytes := numBytes m +! Size tx |}, true)
  else (m, false).

Definition hash_removeTx (txHash : string) (m : txByHashMap) : txByHashMap * option WrappedTransaction :=
  let '(cs, removed) := cm_Remove txHash (hash_chunks m) in
  match removed with
  | Some tx => ({| hash_chunks := cs; hash_counter := hash_counter m -! 1; numBytes := numBytes m -! Size tx |}, Some tx)
  | None => ({| hash_chunks := cs; hash_counter := hash_counter m; numBytes := numBytes m |}, None)
  end.

Definition getTx (txHash : string) (m : txByHashMap) : option WrappedTransaction := cm_Get txHash (hash_chunks m).

Fixpoint RemoveTxsBulk (txHashes : list string) (m : txByHashMap) : txByHashMap * Z :=
  match txHashes with
  | [] => (m, 0)
  | h :: hs =>
      let '(m, removed) := hash_removeTx h m in
      let '(m, n) := RemoveTxsBulk hs m in
      (m, match removed with Some _ => wrap_u32 (n + 1) | None => n end)
  end.

(** [clear] resets the counter of transactions and leaves the one of bytes. *)
Definition hash_clear (m : txByHashMap) : txByHashMap :=
  {| hash_chunks := cm_Clear (hash_chunks m); hash_counter := 0; numBytes := numBytes m |}.

(** ** Lists by sender *)

(** [scoreComputer]: the score of a sender. *)
Class scoreComputer : Type := computeScore : senderScoreParams -> Z.

Section pool.
Context {SC : scoreComputer}.

Definition with_backing (b : BucketSortedMap) (m : txListBySenderMap) : txListBySenderMap :=
  {| backingMap := b; sender_counter := sender_counter m; lists := lists m |}.
Definition with_lists (ls : list txListForSender) (m : txListBySenderMap) : txListBySenderMap :=
  {| backingMap := backingMap m; sender_counter := sender_counter m; lists := ls |}.
Definition with_counter (n : Z) (m : txListBySenderMap) : txListBySenderMap :=
  {| backingMap := backingMap m; sender_counter := n; lists := lists m |}.

Definition deref (p : nat) (m : txListBySenderMap) : txListForSender := default (newTxListForSender EmptyString) (lists m !! p).
Definition set_list (p : nat) (l : txListForSender) (m : txListBySenderMap) : txListBySenderMap :=
  with_lists (<[p := l]> (lists m)) m.

Definition getListForSender (s : string) (m : txListBySenderMap) : option nat := bsm_Get s (backingMap m).

Definition addSender (s : string) (m : txListBySenderMap) : txListBySenderMap * nat :=
  let p := length (lists m) in
  let m := with_lists (lists m ++ [newTxListForSender s]) m in
  let m := with_backing (bsm_Set s p (backingMap m)) m in
  (with_counter (sender_counter m +! 1) m, p).

Definition getOrAddListForSender (s : string) (m : txListBySenderMap) : txListBySenderMap * nat :=
  match getListForSender s m with
  | Some p => (m, p)
  | None => addSender s m
  end.

(** [triggerScoreChange] of a list calls [notifyScoreChange] of the map. *)
Definition triggerScoreChange (p : nat) (m : txListBySenderMap) : txListBySenderMap :=
  let l := deref p m in
  let score := computeScore (getScoreParams l) in
  let '(b, c) := NotifyScoreChange (sender l) p (scoreChunk l) score (backingMap m) in
  set_list p (with_score score c l) (with_backing b m).

Definition sender_addTx (cs : senderConstraints) (now : Z) (tx : WrappedTransaction) (m : txListBySenderMap)
  : txListBySenderMap * (bool * list string) :=
  let '(m, p) := getOrAddListForSender (tx_GetSender (Tx tx)) m in
  let '(l, evicted) := list_AddTx cs now tx (deref p m) in
  match evicted with
  | None => (m, (false, []))
  | Some evicted => (triggerScoreChange p (set_list p l m), (true, evicted))
  end.

Definition removeSender (s : string) (m : txListBySenderMap) : txListBySenderMap * bool :=
  let '(b, removed) := bsm_Remove s (fun p => scoreChunk (deref p m)) (backingMap m) in
  let m := with_backing b m in
  match removed with
  | Some _ => (with_counter (sender_counter m -! 1) m, true)
  | None => (m, false)
  end.

Definition remove_if_empty (s : string) (p : nat) (m : txListBySenderMap) : txListBySenderMap :=
  if IsEmpty (deref p m) then (removeSender s m).1 else m.

Definition sender_removeTx (tx : WrappedTransaction) (m : txListBySenderMap) : txListBySenderMap * bool :=
  let s := tx_GetSender (Tx tx) in
  match getListForSender s m with
  | None => (m, false)
  | Some p =>
      let '(l, isFound) := list_RemoveTx tx (deref p m) in
      let m := if isFound then triggerScoreChange p (set_list p l m) else m in
      (remove_if_empty s p m, isFound)
  end.

Definition removeTxLowerNonce (s : string) (nonce : Z) (m : txListBySenderMap) : txListBySenderMap * list string :=
  match getListForSender s m with
  | None => (m, [])
  | Some p =>
      let '(l, removed) := remove_lower nonce (items (deref p m)) (deref p m) in
      let m := triggerScoreChange p (set_list p l m) in
      (remove_if_empty s p m, removed)
  end.

Fixpoint RemoveSendersBulk (senders : list string) (m : txListBySenderMap) : txListBySenderMap * Z :=
  match senders with
  | [] => (m, 0)
  | s :: ss =>
      let '(m, removed) := removeSender s m in
      let '(m, n) := RemoveSendersBulk ss m in
      (m, if removed then wrap_u32 (n + 1) else n)
  end.

Definition sender_notifyAccountNonce (s : string) (nonce : Z) (m : txListBySenderMap) : txListBySenderMap :=
  match getListForSender s m with
  | None => m
  | Some p => set_list p (notify_nonce nonce (deref p m)) m
  end.

(** The walk of [PendingFor]: the first nonce that is missing after a nonzero one. *)
Fixpoint pending_loop (pendingNonce : Z) (ts : list WrappedTransaction) : Z :=
  match ts with
  | [] => pendingNonce
  | tx :: ts =>
      if (pendingNonce =? 0) || (nonce_of tx =? wrap_u64 (pendingNonce + 1)) then pending_loop (nonce_of tx) ts
      else wrap_u64 (pendingNonce + 1)
  end.

Definition PendingFor (s : string) (m : txListBySenderMap) : Z * Z :=
  match getListForSender s m with
  | None => (0, 0)
  | Some p => let l := deref p m in (pending_loop 0 (items l), countTx l)
  end.

Definition sender_clear (m : txListBySenderMap) : txListBySenderMap :=
  with_counter 0 (with_backing (bsm_Clear (backingMap m)) m).

(** ** The pool *)

Definition NumBytes (c : TxCache) : Z := counter_uint64 (numBytes (txByHash c)).
Definition CountTx (c : TxCache) : Z := counter_uint64 (hash_counter (txByHash c)).
Definition CountSenders (c : TxCache) : Z := counter_uint64 (sender_counter (txListBySender c)).
Definition GetByTxHash (txHash : string) (c : TxCache) : option WrappedTransaction := getTx txHash (txByHash c).

(** *** Eviction *)

Definition cache_isCapacityExceeded (c : TxCache) : bool :=
  (NumBytesThreshold (config c) <? NumBytes c) || (CountThreshold (config c) <? CountSenders c)
  || (CountThreshold (config c) <? CountTx c).

Definition doEvictItems (txsToEvict sendersToEvict : list string) (c : TxCache) : TxCache * (Z * Z) :=
  let '(h, countTxs) := RemoveTxsBulk txsToEvict (txByHash c) in
  let '(m, countSenders) := RemoveSendersBulk sendersToEvict (txListBySender c) in
  (with_bySender m (with_byHash h c), (countTxs, countSenders)).

Definition evictSendersAndTheirTxs (listsToEvict : list nat) (c : TxCache) : TxCache * (Z * Z) :=
  let ls := (fun p => deref p (txListBySender c)) <$> listsToEvict in
  doEvictItems (concat (getTxHashes <$> ls)) (sender <$> ls) c.

(** [snapshot[batchStart:batchEndBounded]] *)
Definition batch_of (snapshot : list nat) (batchStart batchEnd : Z) : list nat :=
  take (Z.to_nat (batchEnd - batchStart)) (drop (Z.to_nat batchStart) snapshot).

(** The loop of [evictSendersWhile]; at most one round per sender of the snapshot. *)
Fixpoint evict_loop (fuel : nat) (snapshot : list nat) (batchStart : Z) (c : TxCache) : TxCache :=
  match fuel with
  | O => c
  | S fuel =>
      if negb (cache_isCapacityExceeded c) then c
      else
        let snapshotLength := wrap_u32 (Z.of_nat (length snapshot)) in
        let batchSize := NumSendersToPreemptivelyEvict (config c) in
        let batchEnd := wrap_u32 (batchStart + batchSize) in
        let batch := batch_of snapshot batchStart (Z.min batchEnd snapshotLength) in
        let '(c, (numTxs, numSenders)) := evictSendersAndTheirTxs batch c in
        let batchStart := wrap_u32 (batchStart + batchSize) in
        if (snapshotLength <=? batchStart) || (numTxs =? 0) || (numSenders <? batchSize) then c
        else evict_loop fuel snapshot batchStart c
  end.

Definition doEviction (c : TxCache) : TxCache :=
  if negb (cache_isCapacityExceeded c) then c
  else let snapshot := GetSnapshotAscending (backingMap (txListBySender c)) in
       evict_loop (S (length snapshot)) snapshot 0 c.

(** *** Adding and removing *)

(** [now] is the time in seconds; the second result is [added].  Eviction,
    addition and the removal of what the sender's limits push out are one step
    here; in the code only the addition is under the lock. *)
Definition TxCache_AddTx (now : Z) (tx : WrappedTransaction) (c : TxCache) : TxCache * bool :=
  let c := if EvictionEnabled (config c) then doEviction c else c in
  let '(h, addedInByHash) := hash_addTx tx (txByHash c) in
  let '(m, (addedInBySender, evicted)) :=
    sender_addTx (getSenderConstraints (config c)) now tx (txListBySender c) in
  let h := (RemoveTxsBulk evicted h).1 in
  (with_bySender m (with_byHash h c), addedInByHash || addedInBySender).

Definition RemoveTxByHash (txHash : string) (c : TxCache) : TxCache * option WrappedTransaction :=
  let '(h, found) := hash_removeTx txHash (txByHash c) in
  match found with
  | None => (with_byHash h c, None)
  | Some tx => (with_bySender (sender_removeTx tx (txListBySender c)).1 (with_byHash h c), Some tx)
  end.

Definition RemoveTxBySenderNonce (s : string) (nonce : Z) (c : TxCache) : TxCache * Z :=
  let '(m, removed) := removeTxLowerNonce s nonce (txListBySender c) in
  (with_bySender m (with_byHash (RemoveTxsBulk removed (txByHash c)).1 c), Z.of_nat (length removed)).

Definition NotifyAccountNonce (accountKey : string) (nonce : Z) (c : TxCache) : TxCache :=
  with_bySender (sender_notifyAccountNonce accountKey nonce (txListBySender c)) c.

Definition Clear (c : TxCache) : TxCache :=
  with_bySender (sender_clear (txListBySender c)) (with_byHash (hash_clear (txByHash c)) c).

(** *** Expiry *)

(** One sender: the list without what expired, the removed hashes. *)
Definition processExpiredForSender (now : Z) (p : nat) (m : txListBySenderMap) : txListBySenderMap * list string :=
  let l := deref p m in
  let '(l', removed) := remove_where (fun tx => ExpireOn tx <? now) (items l) l in
  (set_list p l' m, removed).

Fixpoint processExpiredTransactions (now : Z) (ps : list nat) (m : txListBySenderMap)
  : txListBySenderMap * (list string * list string) :=
  match ps with
  | [] => (m, ([], []))
  | p :: ps =>
      let '(m, removed) := processExpiredForSender now p m in
      let l := deref p m in
      let '(m, (txs, ss)) := processExpiredTransactions now ps m in
      (m, (removed ++ txs,
           if IsEmpty l && negb (bool_decide (removed = [])) then sender l :: ss else ss))
  end.

(** [revalidateEmptySenders] *)
Definition revalidateEmptySenders (ss : list string) (m : txListBySenderMap) : list string :=
  filter (fun s => from_option (fun p => IsEmpty (deref p m)) false (getListForSender s m) = true) ss.

Definition performBulkRemoval (txsToRemove sendersToRemove : list string) (c : TxCache) : TxCache :=
  match txsToRemove with
  | [] => c
  | _ =>
      let c := with_byHash (RemoveTxsBulk txsToRemove (txByHash c)).1 c in
      let m := txListBySender c in
      with_bySender (RemoveSendersBulk (revalidateEmptySenders sendersToRemove m) m).1 c
  end.

(** The walk over the senders and the removal are one step here; in the code
    another goroutine may run between them. *)
Definition cleanExpiredTransactions (now : Z) (c : TxCache) : TxCache :=
  let senders := GetSnapshotAscending (backingMap (txListBySender c)) in
  let '(m, (txs, ss)) := processExpiredTransactions now senders (txListBySender c) in
  performBulkRemoval txs ss (with_bySender m c).

(** *** Selection *)

Definition collectSweepable (p : nat) (c : TxCache) : TxCache :=
  if sweepable (deref p (txListBySender c)) then with_sweeping (sweepingListOfSenders c ++ [p]) c else c.

Definition sweepSweepable (c : TxCache) : TxCache :=
  match sweepingListOfSenders c with
  | [] => c
  | ps => with_sweeping [] (evictSendersAndTheirTxs ps c).1
  end.

(** [numRequested] and the batch limits of a selection. *)
Record selection : Type := { numRequested : Z; batchSizePerSender : Z; bandwidthPerSender : Z }.

(** [batchSizeWithScoreCoefficient] *)
Definition batch_size (sel : selection) (l : txListForSender) : Z :=
  wrap_i64 (batchSizePerSender sel * wrap_u32 (lastComputedScore l + 1)).

(** One pass over the senders: the pool, the transactions selected so far, how
    many of them in this pass, whether the result is full. *)
Fixpoint select_pass (sel : selection) (isFirstBatch : bool) (senders : list nat) (c : TxCache)
    (result : list WrappedTransaction) (copiedInThisPass : Z)
  : TxCache * (list WrappedTransaction * Z * bool) :=
  match senders with
  | [] => (c, (result, copiedInThisPass, false))
  | p :: senders =>
      let l := deref p (txListBySender c) in
      let '(l, copied) := selectBatchTo isFirstBatch (numRequested sel - Z.of_nat (length result))
                            (batch_size sel l) (bandwidthPerSender sel) l in
      let c := with_bySender (set_list p l (txListBySender c)) c in
      let c := if isFirstBatch then collectSweepable p c else c in
      let result := result ++ copied in
      let copiedInThisPass := copiedInThisPass + Z.of_nat (length copied) in
      if Z.of_nat (length result) =? numRequested sel then (c, (result, copiedInThisPass, true))
      else select_pass sel isFirstBatch senders c result copiedInThisPass
  end.

(** The passes.  A pass that is not the last copies something, so that there
    are at most [numRequested + 1] of them. *)
Fixpoint select_passes (fuel : nat) (sel : selection) (isFirstBatch : bool) (senders : list nat) (c : TxCache)
    (result : list WrappedTransaction) : TxCache * list WrappedTransaction :=
  match fuel with
  | O => (c, result)
  | S fuel =>
      let '(c, (result, copiedInThisPass, resultIsFull)) := select_pass sel isFirstBatch senders c result 0 in
      if copiedInThisPass =? 0 then (c, result)
      else if resultIsFull then (c, result)
      else select_passes fuel sel false senders c result
  end.

Variable range_values : gmap string nat -> list nat.

Definition doSelectTransactions (sel : selection) (c : TxCache) : TxCache * list WrappedTransaction :=
  let senders := GetSnapshotDescending range_values (backingMap (txListBySender c)) in
  select_passes (S (Z.to_nat (numRequested sel))) sel true senders c [].
End pool.
