(* ===== verification/TxCacheInv.v ===== *)
(** * The invariant of the transaction pool

    The lists of the senders stay sorted and free of duplicates, their byte and
    fee counters exact, and each operation removes what it reports; the map of
    senders and its score chunks stay consistent. *)

From S2P Require Import Prelude TxList TxCache.

(** Lower nonces first; for one nonce, higher fees first. *)
Definition before (a b : WrappedTransaction) : Prop :=
  nonce_of a < nonce_of b \/ (nonce_of a = nonce_of b /\ estimateTxGas b <= estimateTxGas a).

Definition bytes_of_txs (ts : list WrappedTransaction) : Z := zsum (Size <$> ts).
Definition fees_of_txs (ts : list WrappedTransaction) : Z := zsum (estimateTxGas <$> ts).

Lemma bytes_of_txs_cons tx ts : bytes_of_txs (tx :: ts) = Size tx + bytes_of_txs ts.
Proof. done. Qed.
Lemma fees_of_txs_cons tx ts : fees_of_txs (tx :: ts) = estimateTxGas tx + fees_of_txs ts.
Proof. done. Qed.

Lemma sorted_sublist {A} (R : relation A) l l' : sublist l l' -> StronglySorted R l' -> StronglySorted R l.
Proof.
  induction 1 as [|x l l' Hs IH|x l l' Hs IH]; [done| |]; rewrite ?StronglySorted_cons; intros [Hx Hl']; [|auto].
  split; [|auto]. rewrite Forall_forall in *. intros y Hy. apply Hx. by eapply elem_of_sublist.
Qed.

Section txs.
(** The transaction, and its size, a hash belongs to. *)
Variable preimage : string -> TransactionHandler * Z.

Definition coherent (tx : WrappedTransaction) : Prop := preimage (TxHash tx) = (Tx tx, Size tx).

Lemma coherent_same a b : coherent a -> coherent b -> TxHash a = TxHash b -> Tx a = Tx b.
Proof. unfold coherent. congruence. Qed.

Record list_ok (l : txListForSender) : Prop := {
  lo_sorted : StronglySorted before (items l);
  lo_nodup : NoDup (TxHash <$> items l);
  lo_items : forall tx, tx ∈ items l -> coherent tx /\ tx_GetSender (Tx tx) = sender l;
  lo_bytes : cong64 (totalBytes l) (bytes_of_txs (items l));
  lo_fees : cong64 (totalFees l) (fees_of_txs (items l));
}.

Lemma new_list_ok s : list_ok (newTxListForSender s).
Proof. split; cbn; [constructor|constructor|set_solver|reflexivity|reflexivity]. Qed.

(** ** Removals *)

(** [l'] is [l] without the transactions whose hashes are [removed]. *)
Definition drops (l l' : txListForSender) (removed : list string) : Prop :=
  exists gone, removed = TxHash <$> gone /\ items l' ++ gone ≡ₚ items l /\ sublist (items l') (items l) /\
    cong64 (totalBytes l') (totalBytes l - bytes_of_txs gone) /\
    cong64 (totalFees l') (totalFees l - fees_of_txs gone) /\
    sender l' = sender l /\ scoreChunk l' = scoreChunk l.

Lemma drops_ok l l' removed : list_ok l -> drops l l' removed -> list_ok l'.
Proof.
  intros [Hs Hn Hi Hb Hf] (gone & _ & Hp & Hsub & Hb' & Hf' & Hse & _). split.
  - by eapply sorted_sublist.
  - eapply sublist_NoDup; [exact Hn|by apply fmap_sublist].
  - intros tx Htx. rewrite Hse. apply Hi. by eapply elem_of_sublist.
  - rewrite Hb', Hb. unfold bytes_of_txs. rewrite <- Hp, fmap_app, zsum_app. cong_lia.
  - rewrite Hf', Hf. unfold fees_of_txs. rewrite <- Hp, fmap_app, zsum_app. cong_lia.
Qed.

Lemma drops_hashes l l' removed : drops l l' removed ->
  forall h, h ∈ getTxHashes l <-> h ∈ getTxHashes l' \/ h ∈ removed.
Proof.
  intros (gone & -> & Hp & _) h. unfold getTxHashes.
  assert (h ∈ TxHash <$> items l <-> h ∈ TxHash <$> (items l' ++ gone)) as -> by (by rewrite Hp).
  by rewrite fmap_app, elem_of_app.
Qed.

Lemma drops_exact l l' removed : list_ok l -> drops l l' removed ->
  forall h, h ∈ getTxHashes l' <-> h ∈ getTxHashes l /\ h ∉ removed.
Proof.
  intros Hok Hd h. rewrite (drops_hashes _ _ _ Hd h).
  assert (h ∈ getTxHashes l' -> h ∉ removed); [|tauto].
  destruct Hd as (gone & -> & Hp & _). pose proof (lo_nodup _ Hok) as Hn. rewrite <- Hp, fmap_app in Hn.
  apply NoDup_app in Hn as (_ & Hn & _). apply Hn.
Qed.

Lemma drops_refl l : drops l l [].
Proof.
  exists []. rewrite app_nil_r. splits; try done; cbn; rewrite Z.sub_0_r; reflexivity.
Qed.

Lemma drops_trans l1 l2 l3 r1 r2 : drops l1 l2 r1 -> drops l2 l3 r2 -> drops l1 l3 (r1 ++ r2).
Proof.
  intros (g1 & -> & Hp1 & Hs1 & Hb1 & Hf1 & Hse1 & Hc1) (g2 & -> & Hp2 & Hs2 & Hb2 & Hf2 & Hse2 & Hc2).
  exists (g1 ++ g2). splits; try congruence.
  - by rewrite fmap_app.
  - rewrite <- Hp1, <- Hp2. rewrite <- app_assoc. by rewrite (Permutation_app_comm g1).
  - by etransitivity.
  - rewrite Hb2, Hb1. unfold bytes_of_txs. rewrite fmap_app, zsum_app. cong_lia.
  - rewrite Hf2, Hf1. unfold fees_of_txs. rewrite fmap_app, zsum_app. cong_lia.
Qed.

Lemma remove_where_spec p ts l l' removed : remove_where p ts l = (l', removed) ->
  removed = TxHash <$> filter (fun tx => p tx = true) ts /\ items l' = filter (fun tx => ~ p tx = true) ts /\
  cong64 (totalBytes l') (totalBytes l - bytes_of_txs (filter (fun tx => p tx = true) ts)) /\
  cong64 (totalFees l') (totalFees l - fees_of_txs (filter (fun tx => p tx = true) ts)) /\
  sender l' = sender l /\ scoreChunk l' = scoreChunk l.
Proof.
  revert l l' removed. induction ts as [|tx ts IH]; intros l l' removed Hrun; cbn in Hrun.
  - simplify_eq. splits; try done; cbn; rewrite Z.sub_0_r; reflexivity.
  - rewrite !filter_cons. destruct (p tx) eqn:Hp; destruct (remove_where _ _ _) as [l1 r1] eqn:Hr; simplify_eq.
    + destruct (IH _ _ _ Hr) as (-> & -> & Hb & Hf & Hse & Hc). rewrite decide_True, decide_False by (done || intros H; by apply H).
      splits; try done; [rewrite Hb|rewrite Hf]; cbn [totalBytes totalFees onRemovedListElement with_items];
        rewrite wrap_cong64, ?bytes_of_txs_cons, ?fees_of_txs_cons; cong_lia.
    + destruct (IH _ _ _ Hr) as (-> & He & Hb & Hf & Hse & Hc). rewrite decide_False, decide_True by done.
      splits; try done. cbn. by rewrite He.
Qed.

Lemma remove_where_drops p l l' removed : remove_where p (items l) l = (l', removed) -> drops l l' removed.
Proof.
  intros (-> & Hi & Hb & Hf & Hse & Hc)%remove_where_spec.
  exists (filter (fun tx => p tx = true) (items l)). splits; try done.
  - rewrite Hi, Permutation_app_comm. apply filter_app_complement.
  - rewrite Hi. apply sublist_filter.
Qed.

Lemma set_items_drop l ts tx : items l ≡ₚ ts ++ [tx] -> sublist ts (items l) ->
  drops l (onRemovedListElement tx (set_items ts l)) [TxHash tx].
Proof.
  intros Hp Hs. exists [tx]. splits; try done; cbn.
  - rewrite wrap_cong64. unfold bytes_of_txs. cbn. cong_lia.
  - rewrite wrap_cong64. unfold fees_of_txs. cbn. cong_lia.
Qed.

Lemma remove_last_drops cs l : let '(l', removed) := remove_last_if_exceeded cs l in drops l l' removed.
Proof.
  unfold remove_last_if_exceeded. destruct (isCapacityExceeded cs l); [|apply drops_refl].
  destruct (reverse (items l)) as [|tx bef] eqn:Hr; [apply drops_refl|].
  apply (f_equal reverse) in Hr. rewrite reverse_involutive, reverse_cons in Hr.
  apply set_items_drop; rewrite Hr; [done|]. by apply sublist_inserts_r.
Qed.

Lemma applySizeConstraints_drops cs now l : let '(l', removed) := applySizeConstraints cs now l in drops l l' removed.
Proof.
  unfold applySizeConstraints. destruct (isCapacityExceeded cs l); cbn; [|apply drops_refl].
  destruct (remove_where _ _ _) as [l1 r1] eqn:H1. pose proof (remove_last_drops cs l1) as H2.
  destruct (remove_last_if_exceeded cs l1) as [l2 r2].
  eapply drops_trans; [by eapply remove_where_drops|done].
Qed.

Lemma remove_lower_spec n ts l l' removed : remove_lower n ts l = (l', removed) ->
  exists gone, removed = TxHash <$> gone /\ ts = gone ++ items l' /\
    cong64 (totalBytes l') (totalBytes l - bytes_of_txs gone) /\
    cong64 (totalFees l') (totalFees l - fees_of_txs gone) /\
    sender l' = sender l /\ scoreChunk l' = scoreChunk l.
Proof.
  revert l l' removed. induction ts as [|tx ts IH]; intros l l' removed Hrun; cbn in Hrun.
  - simplify_eq. exists []. splits; try done; cbn; rewrite Z.sub_0_r; reflexivity.
  - destruct (n <? nonce_of tx).
    + simplify_eq. exists []. splits; try done; cbn; rewrite Z.sub_0_r; reflexivity.
    + destruct (remove_lower _ _ _) as [l1 r1] eqn:Hr. simplify_eq.
      destruct (IH _ _ _ Hr) as (gone & -> & -> & Hb & Hf & Hse & Hc). exists (tx :: gone). splits; try done.
      * rewrite Hb, bytes_of_txs_cons. cbn [totalBytes onRemovedListElement with_items]. rewrite wrap_cong64. cong_lia.
      * rewrite Hf, fees_of_txs_cons. cbn [totalFees onRemovedListElement with_items]. rewrite wrap_cong64. cong_lia.
Qed.

Lemma remove_lower_drops n l l' removed : remove_lower n (items l) l = (l', removed) -> drops l l' removed.
Proof.
  intros (gone & -> & Hi & Hb & Hf & Hse & Hc)%remove_lower_spec. exists gone. splits; try done.
  - by rewrite Hi, Permutation_app_comm.
  - rewrite Hi. by apply sublist_inserts_l.
Qed.

(** ** Insertion *)

Lemma findInsertionPlace_some tx back n :
  coherent tx -> (forall y, y ∈ back -> coherent y) -> StronglySorted before (reverse back) ->
  findInsertionPlace tx back = Some n ->
  (n <= length back)%nat /\
  (forall y, y ∈ take n (reverse back) -> before y tx /\ TxHash y <> TxHash tx) /\
  (forall y, y ∈ drop n (reverse back) -> before tx y /\ TxHash y <> TxHash tx).
Proof.
  intros Htx. revert n. induction back as [|cur back IH]; intros n Hco Hs Hf; cbn [findInsertionPlace] in Hf.
  { simplify_eq. cbn. split; [lia|]. split; intros y Hy; by apply not_elem_of_nil in Hy. }
  destruct (sameAs tx cur) eqn:Hsame; [done|]. unfold sameAs, str_eqb in Hsame. zify_bools.
  rewrite reverse_cons in *. apply StronglySorted_app in Hs as (Hbc & Hs & _).
  assert (forall y, y ∈ reverse back ++ [cur] -> y = cur \/ before y cur) as Hcur.
  { intros y Hy. apply elem_of_app in Hy as [Hy| ->%list_elem_of_singleton]; [right; apply Hbc; [done|by apply list_elem_of_singleton]|by left]. }
  assert (forall y, y ∈ reverse back ++ [cur] -> coherent y) as Hcoy.
  { intros y Hy. apply Hco. apply elem_of_reverse. by rewrite reverse_cons. }
  assert (forall y, coherent y -> before y tx /\ ~ before tx y -> before y tx /\ TxHash y <> TxHash tx) as Hne.
  { intros y Hy [Hb Hn]. split; [done|]. intros He. apply Hn.
    unfold before, nonce_of, estimateTxGas in *.
    rewrite (coherent_same y tx Hy Htx He) in *. right. split; [done|lia]. }
  assert ((nonce_of cur = nonce_of tx /\ estimateTxGas tx < estimateTxGas cur) \/ nonce_of cur < nonce_of tx ->
          Some (length (cur :: back)) = Some n ->
          (n <= length (cur :: back))%nat /\
          (forall y, y ∈ take n (reverse back ++ [cur]) -> before y tx /\ TxHash y <> TxHash tx) /\
          (forall y, y ∈ drop n (reverse back ++ [cur]) -> before tx y /\ TxHash y <> TxHash tx)) as Hstop.
  { intros Hc Hn. injection Hn as <-. split; [done|].
    assert (length (reverse back ++ [cur]) = length (cur :: back)) as Hl.
    { rewrite length_app, length_reverse. cbn. lia. }
    rewrite take_ge, drop_ge by (rewrite Hl; cbn; lia). split; [|set_solver]. intros y Hy. apply Hne; [by apply Hcoy|].
    destruct (Hcur y Hy) as [->|Hb]; unfold before in *; lia. }
  destruct ((nonce_of cur =? nonce_of tx) && (tx_GetTotalFees (Tx tx) <? tx_GetTotalFees (Tx cur))) eqn:Hc1.
  { zify_bools. apply Hstop; [|done]. left. by split. }
  destruct (nonce_of cur <? nonce_of tx) eqn:Hc2; zify_bools; [apply Hstop; auto|].
  destruct (IH n) as (Hn & Hbe & Haf); [intros y Hy; apply Hco; by constructor|done|done|]. split; [cbn; lia|].
  rewrite take_app_le, drop_app_le by (rewrite length_reverse; lia). split; [done|].
  intros y [Hy| ->%list_elem_of_singleton]%elem_of_app; [by apply Haf|]. split; [|congruence].
  apply andb_false_iff in Hc1. unfold before, estimateTxGas in *. destruct Hc1; zify_bools; lia.
Qed.

Lemma findInsertionPlace_none tx back :
  findInsertionPlace tx back = None -> TxHash tx ∈ TxHash <$> back.
Proof.
  induction back as [|cur back IH]; cbn; [done|]. unfold sameAs, str_eqb.
  destruct (bool_decide _) eqn:Hs; zify_bools; [rewrite Hs; by left|]. repeat guard_case; try done. right. auto.
Qed.

Lemma list_AddTx_spec cs now tx l l' r :
  list_ok l -> coherent tx -> tx_GetSender (Tx tx) = sender l -> list_AddTx cs now tx l = (l', r) ->
  match r with
  | None => l' = l /\ TxHash tx ∈ getTxHashes l
  | Some evicted => exists l1, list_ok l1 /\ items l1 ≡ₚ tx :: items l /\ drops l1 l' evicted /\
      sender l1 = sender l /\ scoreChunk l1 = scoreChunk l
  end.
Proof.
  intros Hok Htx Hse Hrun. unfold list_AddTx in Hrun.
  destruct (findInsertionPlace tx (reverse (items l))) as [n|] eqn:Hf.
  2:{ simplify_eq. split; [done|]. apply findInsertionPlace_none in Hf. unfold getTxHashes.
      by rewrite fmap_reverse, elem_of_reverse in Hf. }
  set (l1 := onAddedTransaction tx (insert_at n tx l)) in *.
  pose proof (applySizeConstraints_drops cs now l1) as Hd. destruct (applySizeConstraints cs now l1) as [l2 ev].
  simplify_eq. exists l1. destruct Hok as [Hs Hn Hi Hb Hfe].
  apply findInsertionPlace_some in Hf as (Hlen & Hbe & Haf); [|done| |by rewrite reverse_involutive].
  2:{ intros y Hy. rewrite elem_of_reverse in Hy. exact (proj1 (Hi y Hy)). }
  rewrite reverse_involutive in Hbe, Haf.
  assert (items l1 ≡ₚ tx :: items l) as Hp.
  { subst l1. cbn. rewrite <- Permutation_middle. by rewrite take_drop. }
  splits; try done. split.
  - subst l1. cbn. apply StronglySorted_app_2.
    + intros x1 x2 H1 H2. apply elem_of_cons in H2 as [->|H2]; [by apply Hbe|].
      rewrite <- (take_drop n (items l)) in Hs. by eapply StronglySorted_app_1_elem_of.
    + eapply sorted_sublist; [apply sublist_take|done].
    + apply StronglySorted_cons. split; [apply Forall_forall; intros y Hy; by apply Haf|].
      eapply sorted_sublist; [apply sublist_drop|done].
  - rewrite Hp. cbn. constructor; [|done]. intros (y & He & Hy)%list_elem_of_fmap.
    rewrite <- (take_drop n (items l)) in Hy. apply elem_of_app in Hy as [Hy|Hy]; [by apply Hbe in Hy as [_ []]|by apply Haf in Hy as [_ []]].
  - intros y Hy. rewrite Hp in Hy. apply elem_of_cons in Hy as [->|Hy]; [done|]. by apply Hi.
  - subst l1. cbn [totalBytes onAddedTransaction insert_at with_items]. rewrite wrap_cong64, Hb. unfold bytes_of_txs.
    rewrite Hp. cbn [fmap list_fmap]. rewrite zsum_cons. cong_lia.
  - subst l1. cbn [totalFees onAddedTransaction insert_at with_items]. rewrite wrap_cong64, Hfe. unfold fees_of_txs.
    rewrite Hp. cbn [fmap list_fmap]. rewrite zsum_cons. cong_lia.
Qed.

(** ** Lookup *)

Lemma findListElementWithTx_some tx ts n : findListElementWithTx tx ts = Some n ->
  exists x, ts !! n = Some x /\ TxHash x = TxHash tx.
Proof.
  revert n. induction ts as [|y ts IH]; intros n; cbn; [done|]. unfold sameAs, str_eqb.
  destruct (bool_decide _) eqn:Hs; zify_bools; [intros [= <-]; eauto|].
  destruct (nonce_of tx <? nonce_of y); [done|]. intros (k & Hk & ->)%fmap_Some. by apply IH.
Qed.

Lemma findListElementWithTx_none tx ts :
  coherent tx -> (forall y, y ∈ ts -> coherent y) -> StronglySorted before ts ->
  findListElementWithTx tx ts = None -> TxHash tx ∉ TxHash <$> ts.
Proof.
  intros Htx. induction ts as [|y ts IH]; intros Hco Hs Hf; [by apply not_elem_of_nil|]. cbn in Hf |- *.
  apply StronglySorted_cons in Hs as [Hy Hs]. unfold sameAs, str_eqb in Hf.
  destruct (bool_decide _) eqn:He; [done|]. zify_bools. apply not_elem_of_cons. split; [congruence|].
  destruct (nonce_of tx <? nonce_of y) eqn:Hn; zify_bools.
  - intros (x & Hx & Hin)%list_elem_of_fmap. rewrite Forall_forall in Hy. specialize (Hy x Hin).
    assert (Tx tx = Tx x) as Ht by (apply coherent_same; [done|apply Hco; by right|done]).
    unfold before, nonce_of in *. rewrite Ht in Hn. lia.
  - apply fmap_None in Hf. apply IH; [intros x Hx; apply Hco; by right|done|done].
Qed.

Lemma list_RemoveTx_spec tx l l' found :
  list_ok l -> coherent tx -> list_RemoveTx tx l = (l', found) ->
  if found then drops l l' [TxHash tx] else l' = l /\ TxHash tx ∉ getTxHashes l.
Proof.
  intros Hok Htx Hrun. unfold list_RemoveTx in Hrun.
  destruct (findListElementWithTx tx (items l)) as [n|] eqn:Hf.
  - destruct (findListElementWithTx_some _ _ _ Hf) as (x & Hx & He). rewrite Hx in Hrun. simplify_eq.
    rewrite <- He. apply set_items_drop.
    + etransitivity; [by apply delete_Permutation|]. by rewrite Permutation_app_comm.
    + apply sublist_delete.
  - simplify_eq. split; [done|]. apply findListElementWithTx_none; [done| |by apply lo_sorted|done].
    intros y Hy. by apply (lo_items _ Hok).
Qed.
End txs.

(** A score is a [uint32]. *)
Class ScoreLaws {SC : scoreComputer} : Prop := score_range : forall ps, is_u32 (computeScore ps).

Definition delete_all {A} (ks : list string) (m : gmap string A) : gmap string A := foldl (fun m k => delete k m) m ks.

Lemma delete_all_lookup {A} ks (m : gmap string A) k :
  delete_all ks m !! k = if decide (k ∈ ks) then None else m !! k.
Proof.
  unfold delete_all. revert m. induction ks as [|k0 ks IH]; intros m; cbn.
  { rewrite decide_False; [done|]. apply not_elem_of_nil. }
  rewrite IH. destruct (decide (k = k0)) as [->|Hk].
  - rewrite lookup_delete_eq. rewrite (decide_True (P := k0 ∈ k0 :: ks)) by set_solver. by case_decide.
  - rewrite lookup_delete_ne by done. do 2 case_decide; try done; set_solver.
Qed.

Section inv.
Context {SC : scoreComputer} {SL : ScoreLaws}.
Variable preimage : string -> TransactionHandler * Z.

(** The sender of the transaction a hash belongs to. *)
Definition owner (h : string) : string := tx_GetSender (preimage h).1.

(** ** Senders *)

Record senders_ok (m : txListBySenderMap) (sm : gmap string nat) : Prop := {
  so_map : represents (chunks (backingMap m)) sm;
  so_live : forall k p, sm !! k = Some p -> exists l, lists m !! p = Some l /\ sender l = k;
  so_score : forall i k p, in_chunk i k (backingMap m) = Some p <->
    sm !! k = Some p /\ scoreChunk (deref p m) = Some (generation (backingMap m), i);
  so_max : 0 <= maxScore (backingMap m);
  so_len : Z.of_nat (length (scoreChunks (backingMap m))) = maxScore (backingMap m) + 1;
  so_counter : sender_counter m = wrap_i64 (Z.of_nat (size sm));
  so_lists : forall p l, lists m !! p = Some l -> list_ok preimage l;
}.

(** Every sender but [k] has a score chunk. *)
Definition scored_but (k : option string) (m : txListBySenderMap) (sm : gmap string nat) : Prop :=
  forall k' p, sm !! k' = Some p -> Some k' <> k -> exists i, scoreChunk (deref p m) = Some (generation (backingMap m), i).

(** The hashes listed for a sender. *)
Definition hashes_at (m : txListBySenderMap) (sm : gmap string nat) (k : string) : list string :=
  match sm !! k with Some p => getTxHashes (deref p m) | None => [] end.

Lemma deref_lookup m p l : lists m !! p = Some l -> deref p m = l.
Proof. intros H. unfold deref. by rewrite H. Qed.

Lemma getListForSender_spec m sm k : senders_ok m sm -> getListForSender k m = sm !! k.
Proof. intros Hok. apply (rep_get _ _ (so_map _ _ Hok)). Qed.

Lemma so_deref m sm k p : senders_ok m sm -> sm !! k = Some p ->
  lists m !! p = Some (deref p m) /\ sender (deref p m) = k /\ list_ok preimage (deref p m).
Proof.
  intros Hok Hp. destruct (so_live _ _ Hok k p Hp) as (l & Hl & Hk). rewrite (deref_lookup _ _ _ Hl).
  split; [done|]. split; [done|]. by eapply so_lists.
Qed.

Lemma so_inj m sm k k' p : senders_ok m sm -> sm !! k = Some p -> sm !! k' = Some p -> k = k'.
Proof. intros Hok H1 H2. destruct (so_deref _ _ _ _ Hok H1) as (_ & <- & _). by destruct (so_deref _ _ _ _ Hok H2) as (_ & <- & _). Qed.

Lemma hashes_owner m sm k h : senders_ok m sm -> h ∈ hashes_at m sm k -> owner h = k.
Proof.
  intros Hok Hh. unfold hashes_at in Hh. destruct (sm !! k) as [p|] eqn:Hp; [|by apply not_elem_of_nil in Hh].
  destruct (so_deref _ _ _ _ Hok Hp) as (_ & Hk & Hl). apply list_elem_of_fmap in Hh as (tx & -> & Htx).
  destruct (lo_items _ _ Hl tx Htx) as [Hc Hs]. unfold owner. rewrite Hc. cbn. congruence.
Qed.

Lemma deref_set p q l m : (p < length (lists m))%nat ->
  deref q (set_list p l m) = if decide (p = q) then l else deref q m.
Proof.
  intros Hp. unfold deref, set_list. cbn. case_decide as Hd.
  - subst. by rewrite list_lookup_insert_eq.
  - by rewrite list_lookup_insert_ne.
Qed.

(** Changing the transactions of a list. *)
Lemma set_list_ok p l l' m sm :
  senders_ok m sm -> lists m !! p = Some l -> list_ok preimage l' -> sender l' = sender l -> scoreChunk l' = scoreChunk l ->
  senders_ok (set_list p l' m) sm.
Proof.
  intros [Hm Hl Hs Hx Hn Hc Hall] Hp Hl' Hse Hsc. pose proof (lookup_lt_Some _ _ _ Hp) as Hlt.
  split; try done.
  - intros k q Hq. destruct (Hl k q Hq) as (x & Hxq & Hk). cbn. destruct (decide (p = q)) as [->|Hne].
    + exists l'. rewrite list_lookup_insert_eq by done. split; [done|]. congruence.
    + exists x. by rewrite list_lookup_insert_ne.
  - intros i k q. rewrite deref_set by done. cbn [set_list with_lists backingMap]. rewrite Hs. case_decide as Hd; [|done].
    subst q. by rewrite Hsc, (deref_lookup _ _ _ Hp).
  - intros q x Hq. cbn in Hq. apply list_lookup_insert_Some in Hq as [(-> & <- & _)|[_ Hq]]; [done|]. by eapply Hall.
Qed.

Lemma set_list_scored p l l' m sm b :
  lists m !! p = Some l -> scoreChunk l' = scoreChunk l -> scored_but b m sm -> scored_but b (set_list p l' m) sm.
Proof.
  intros Hp Hsc Hs k q Hq Hb. rewrite deref_set by by eapply lookup_lt_Some. case_decide as Hd; [|by eapply Hs].
  subst q. rewrite Hsc, <- (deref_lookup _ _ _ Hp). by eapply Hs.
Qed.

Lemma set_list_hashes p l' m sm k k' :
  senders_ok m sm -> sm !! k = Some p ->
  hashes_at (set_list p l' m) sm k' = if decide (k = k') then getTxHashes l' else hashes_at m sm k'.
Proof.
  intros Hok Hp. destruct (so_deref _ _ _ _ Hok Hp) as (Hl & _). unfold hashes_at. case_decide as Hk.
  - subst. rewrite Hp, deref_set by by eapply lookup_lt_Some. by rewrite decide_True.
  - destruct (sm !! k') as [q|] eqn:Hq; [|done]. rewrite deref_set by by eapply lookup_lt_Some.
    rewrite decide_False; [done|]. intros <-. apply Hk. by eapply so_inj.
Qed.

(** *** Scores *)

Lemma trigger_spec p k m sm :
  senders_ok m sm -> sm !! k = Some p ->
  let m' := triggerScoreChange p m in
  senders_ok m' sm /\ (scored_but (Some k) m sm -> scored_but None m' sm) /\
  (forall k', hashes_at m' sm k' = hashes_at m sm k').
Proof.
  intros Hok Hp. destruct (so_deref _ _ _ _ Hok Hp) as (Hl & Hk & Hlok). pose proof (lookup_lt_Some _ _ _ Hl) as Hlt.
  cbn zeta. unfold triggerScoreChange. set (l := deref p m) in *.
  destruct (NotifyScoreChange _ _ _ _ _) as [b c] eqn:Hn. pose proof (score_range (getScoreParams l)) as Hr.
  apply NotifyScoreChange_spec in Hn as (Hc & Hin & Hoth & F1 & F2 & F3 & F4);
    [|ints; lia|by eapply so_max|by eapply so_len|].
  2:{ intros j q. rewrite Hk, (so_score _ _ Hok). fold l. split; [intros [H1 H2]; simplify_eq; by split|intros [-> H2]; by split]. }
  set (m1 := with_backing b m). set (l' := with_score _ c l). rewrite Hk in *.
  assert (forall q, deref q (set_list p l' m1) = if decide (p = q) then l' else deref q m) as Hd.
  { intros q. by rewrite deref_set. }
  assert (senders_ok (set_list p l' m1) sm) as Hok'.
  { split; cbn [set_list with_lists with_backing m1 backingMap sender_counter lists].
    - rewrite F1. by eapply so_map.
    - intros k' q Hq. destruct (so_live _ _ Hok k' q Hq) as (x & Hxq & Hk'). destruct (decide (p = q)) as [->|Hne].
      + exists l'. rewrite list_lookup_insert_eq by done. split; [done|]. cbn. unfold l. rewrite (deref_lookup _ _ _ Hxq). done.
      + exists x. by rewrite list_lookup_insert_ne.
    - intros i k' q. rewrite Hd, F2. destruct (decide (k = k')) as [<-|Hne].
      + rewrite Hin. split.
        * intros [-> Hci]. split; [done|]. by rewrite decide_True.
        * intros [H1 H2]. simplify_eq. rewrite decide_True in H2 by done. by split.
      + rewrite Hoth by done. rewrite (so_score _ _ Hok).
        split; intros [H1 H2]; (split; [done|]); (rewrite decide_False in * by (intros <-; apply Hne; by eapply so_inj); done).
    - rewrite F3. by eapply so_max.
    - rewrite F3, F4. by eapply so_len.
    - by eapply so_counter.
    - intros q x Hq. apply list_lookup_insert_Some in Hq as [(-> & <- & _)|[_ Hq]]; [|by eapply so_lists].
      by destruct Hlok. }
  split; [done|]. split.
  - intros Hs k' q Hq _. rewrite Hd. cbn [set_list with_lists with_backing m1 backingMap]. rewrite F2.
    case_decide as Hpq; [eexists; exact Hc|]. apply (Hs k' q Hq). intros [= ->]. congruence.
  - intros k'. unfold hashes_at. destruct (sm !! k') as [q|]; [|done]. rewrite Hd. case_decide as Hpq; [|done]. by subst q.
Qed.

(** ** What an operation does to the transactions of one sender *)

Definition changes (m : txListBySenderMap) (sm : gmap string nat) (m' : txListBySenderMap) (sm' : gmap string nat)
    (k : string) (added removed : list string) : Prop :=
  (forall k', k' <> k -> hashes_at m' sm' k' = hashes_at m sm k') /\
  (forall h, h ∈ hashes_at m' sm' k <-> (h ∈ hashes_at m sm k \/ h ∈ added) /\ h ∉ removed).

Lemma removeSender_spec k m sm m' b :
  senders_ok m sm -> removeSender k m = (m', b) ->
  senders_ok m' (delete k sm) /\ (scored_but None m sm -> scored_but None m' (delete k sm)) /\
  lists m' = lists m /\ b = bool_decide (is_Some (sm !! k)).
Proof.
  intros Hok Hrun. unfold removeSender, bsm_Remove in Hrun. set (bm := backingMap m) in *.
  destruct (represents_remove k _ _ (so_map _ _ Hok)) as [Hrep Hget]. fold bm in Hrep, Hget.
  destruct (cm_Remove k (chunks bm)) as [cs it]. cbn in Hrep, Hget. subst it. destruct (sm !! k) as [p|] eqn:Hp.
  - simplify_eq. set (c := scoreChunk (deref p m)).
    destruct (removeFromScoreChunk_fields k c (with_chunks cs bm)) as (F1 & F2 & F3 & F4).
    assert (forall i k' q, in_chunk i k' (removeFromScoreChunk k c (with_chunks cs bm)) = Some q <->
              delete k sm !! k' = Some q /\ scoreChunk (deref q m) = Some (generation bm, i)) as Hsc.
    { intros i k' q. destruct (decide (k = k')) as [<-|Hk].
      - rewrite lookup_delete_eq, removeFromScoreChunk_same; [split; [done|by intros []]|].
        intros j q' Hj. apply (so_score _ _ Hok) in Hj as [Hq' Hj]. simplify_eq. exact Hj.
      - rewrite lookup_delete_ne, removeFromScoreChunk_other by done. apply (so_score _ _ Hok). }
    split; [|split; [|by rewrite bool_decide_true by eauto]].
    + split; cbn [with_counter with_backing backingMap sender_counter lists]; rewrite ?F1, ?F2, ?F3, ?F4; try done.
      * intros k' q [_ Hq]%lookup_delete_Some. by eapply so_live.
      * by eapply so_max.
      * by eapply so_len.
      * rewrite (so_counter _ _ Hok), wrap_i64_sub_l, map_size_delete, Hp. f_equal.
        enough (size sm <> 0%nat) by lia. intros H0%map_size_empty_inv. by subst sm.
      * by eapply so_lists.
    + intros Hs k' q [_ Hq]%lookup_delete_Some Hb. cbn. rewrite F2. by apply (Hs k' q).
  - simplify_eq. rewrite delete_id by done. rewrite delete_id in Hrep by done. rewrite bool_decide_false by by intros [].
    split; [|done]. destruct Hok. by split.
Qed.

Lemma removed_sender_hashes k m sm m' k' : lists m' = lists m ->
  hashes_at m' (delete k sm) k' = if decide (k = k') then [] else hashes_at m sm k'.
Proof.
  intros Hl. unfold hashes_at, deref. rewrite Hl. case_decide as Hk.
  - subst. by rewrite lookup_delete_eq.
  - by rewrite lookup_delete_ne.
Qed.

Lemma remove_if_empty_spec k p m sm :
  senders_ok m sm -> scored_but None m sm -> sm !! k = Some p ->
  exists sm', senders_ok (remove_if_empty k p m) sm' /\ scored_but None (remove_if_empty k p m) sm' /\
    (forall k', hashes_at (remove_if_empty k p m) sm' k' = hashes_at m sm k').
Proof.
  intros Hok Hs Hp. unfold remove_if_empty. destruct (IsEmpty (deref p m)) eqn:He; [|by exists sm].
  destruct (removeSender k m) as [m' b] eqn:Hr. destruct (removeSender_spec _ _ _ _ _ Hok Hr) as (Hok' & Hs' & Hl & _).
  exists (delete k sm). split; [done|]. split; [auto|]. intros k'. cbn. rewrite (removed_sender_hashes k m) by done.
  case_decide as Hk; [|done]. subst k'. unfold hashes_at, getTxHashes. rewrite Hp.
  unfold IsEmpty, countTx in He. zify_bools. by destruct (items (deref p m)).
Qed.

Lemma RemoveSendersBulk_spec ks m sm :
  senders_ok m sm -> scored_but None m sm ->
  let m' := (RemoveSendersBulk ks m).1 in
  senders_ok m' (delete_all ks sm) /\ scored_but None m' (delete_all ks sm) /\ lists m' = lists m.
Proof.
  revert m sm. induction ks as [|k ks IH]; intros m sm Hok Hs; [done|]. cbn.
  destruct (removeSender k m) as [m1 b] eqn:Hr. destruct (removeSender_spec _ _ _ _ _ Hok Hr) as (Hok1 & Hs1 & Hl1 & _).
  destruct (IH m1 _ Hok1 (Hs1 Hs)) as (Hok2 & Hs2 & Hl2). destruct (RemoveSendersBulk ks m1) as [m2 n]. cbn in *.
  split; [done|]. split; [done|]. congruence.
Qed.

(** Replacing the list of a sender by one with fewer transactions. *)
Lemma drop_txs_spec k p l' removed m sm :
  senders_ok m sm -> scored_but None m sm -> sm !! k = Some p -> drops (deref p m) l' removed ->
  let m' := triggerScoreChange p (set_list p l' m) in
  senders_ok m' sm /\ scored_but None m' sm /\ changes m sm m' sm k [] removed.
Proof.
  intros Hok Hs Hp Hd m'. destruct (so_deref _ _ _ _ Hok Hp) as (Hl & Hk & Hlok).
  assert (senders_ok (set_list p l' m) sm) as Hok1.
  { eapply set_list_ok; [done..|by eapply drops_ok| |]; by destruct Hd as (? & _ & _ & _ & _ & _ & ? & ?). }
  destruct (trigger_spec p k _ _ Hok1 Hp) as (Hok2 & Hs2 & Hh2). split; [done|]. split.
  - apply Hs2. intros k' q Hq _. eapply set_list_scored; [done| |done|done|done].
    by destruct Hd as (? & _ & _ & _ & _ & _ & _ & ?).
  - split.
    + intros k' Hk'. rewrite Hh2, (set_list_hashes _ _ _ _ k) by done. by rewrite decide_False.
    + intros h. rewrite Hh2, (set_list_hashes _ _ _ _ k), decide_True by done.
      rewrite (drops_exact _ _ _ _ Hlok Hd). unfold hashes_at. rewrite Hp. set_solver.
Qed.

Lemma changes_hashes m sm m1 sm1 m2 sm2 k added removed :
  changes m sm m1 sm1 k added removed -> (forall k', hashes_at m2 sm2 k' = hashes_at m1 sm1 k') ->
  changes m sm m2 sm2 k added removed.
Proof. intros [H1 H2] He. split; [intros k' Hk; by rewrite He, H1|]. intros h. by rewrite He. Qed.

Lemma sender_removeTx_spec tx m sm :
  senders_ok m sm -> scored_but None m sm -> coherent preimage tx ->
  let m' := (sender_removeTx tx m).1 in
  exists sm', senders_ok m' sm' /\ scored_but None m' sm' /\ changes m sm m' sm' (tx_GetSender (Tx tx)) [] [TxHash tx].
Proof.
  intros Hok Hs Htx. cbn zeta. unfold sender_removeTx. set (k := tx_GetSender (Tx tx)) in *.
  rewrite (getListForSender_spec _ _ _ Hok). destruct (sm !! k) as [p|] eqn:Hp.
  2:{ exists sm. split; [done|]. split; [done|]. split; [done|]. intros h. cbn. unfold hashes_at. rewrite Hp. set_solver. }
  destruct (so_deref _ _ _ _ Hok Hp) as (Hl & Hk & Hlok).
  destruct (list_RemoveTx tx (deref p m)) as [l' found] eqn:Hr. apply (list_RemoveTx_spec preimage) in Hr; [|done..].
  destruct found.
  - destruct (drop_txs_spec k p l' _ m sm Hok Hs Hp Hr) as (Hok1 & Hs1 & Hch).
    destruct (remove_if_empty_spec k p _ sm Hok1 Hs1 Hp) as (sm' & Hok2 & Hs2 & Hh).
    exists sm'. split; [done|]. split; [done|]. by eapply changes_hashes.
  - destruct Hr as [-> Hn]. destruct (remove_if_empty_spec k p _ sm Hok Hs Hp) as (sm' & Hok2 & Hs2 & Hh).
    exists sm'. split; [done|]. split; [done|]. apply (changes_hashes m sm m sm); [|done].
    split; [done|]. intros h. unfold hashes_at. rewrite Hp. set_solver.
Qed.

Lemma removeTxLowerNonce_spec k n m sm m' removed :
  senders_ok m sm -> scored_but None m sm -> removeTxLowerNonce k n m = (m', removed) ->
  exists sm', senders_ok m' sm' /\ scored_but None m' sm' /\ changes m sm m' sm' k [] removed /\
    (forall h, h ∈ removed -> h ∈ hashes_at m sm k).
Proof.
  intros Hok Hs Hrun. unfold removeTxLowerNonce in Hrun.
  rewrite (getListForSender_spec _ _ _ Hok) in Hrun. destruct (sm !! k) as [p|] eqn:Hp.
  2:{ simplify_eq. exists sm. split; [done|]. split; [done|]. split; [|set_solver]. split; [done|]. intros h. unfold hashes_at. rewrite Hp. set_solver. }
  destruct (remove_lower n _ _) as [l' rem] eqn:Hr. apply remove_lower_drops in Hr. simplify_eq.
  destruct (drop_txs_spec k p l' _ m sm Hok Hs Hp Hr) as (Hok1 & Hs1 & Hch).
  destruct (remove_if_empty_spec k p _ sm Hok1 Hs1 Hp) as (sm' & Hok2 & Hs2 & Hh).
  exists sm'. split; [done|]. split; [done|]. split; [by eapply changes_hashes|].
  intros h Hin. unfold hashes_at. rewrite Hp. apply (drops_hashes _ _ _ Hr). by right.
Qed.

(** *** Adding *)

Lemma getOrAdd_spec k m sm m' p :
  senders_ok m sm -> scored_but None m sm -> getOrAddListForSender k m = (m', p) ->
  exists sm', senders_ok m' sm' /\ scored_but (Some k) m' sm' /\ sm' !! k = Some p /\
    (forall k', hashes_at m' sm' k' = hashes_at m sm k') /\
    (scored_but None m' sm' \/ items (deref p m') = []).
Proof.
  intros Hok Hs Hrun. unfold getOrAddListForSender in Hrun. rewrite (getListForSender_spec _ _ _ Hok) in Hrun.
  destruct (sm !! k) as [q|] eqn:Hq.
  { simplify_eq. exists sm. split; [done|]. split; [|by eauto]. intros k' q' Hq' _. by apply (Hs k' q'). }
  unfold addSender in Hrun. injection Hrun as <- <-.
  set (p := length (lists m)). set (m' := with_counter _ _).
  assert (lists m' = lists m ++ [newTxListForSender k]) as Hls by done.
  assert (forall q, (q < p)%nat -> deref q m' = deref q m) as Hd.
  { intros q Hlt. unfold deref. by rewrite Hls, lookup_app_l. }
  assert (deref p m' = newTxListForSender k) as Hdp.
  { unfold deref. by rewrite Hls, list_lookup_middle. }
  assert (forall k' q, sm !! k' = Some q -> (q < p)%nat) as Hlt.
  { intros k' q Hk'. destruct (so_live _ _ Hok _ _ Hk') as (l & Hl & _). by eapply lookup_lt_Some. }
  exists (<[k := p]> sm). split; [|split; [|split; [by rewrite lookup_insert_eq|split; [|right; by rewrite Hdp]]]].
  - split; cbn [m' with_counter with_backing with_lists backingMap sender_counter].
    + apply represents_set. by eapply so_map.
    + intros k' q. destruct (decide (k = k')) as [<-|Hk].
      * rewrite lookup_insert_eq. intros [= <-]. exists (newTxListForSender k). by rewrite Hls, list_lookup_middle.
      * rewrite lookup_insert_ne by done. intros Hk'. destruct (so_live _ _ Hok _ _ Hk') as (l & Hl & Hse).
        exists l. rewrite Hls, lookup_app_l; [done|]. by eapply Hlt.
    + intros i k' q.
      change (in_chunk i k' (backingMap m) = Some q <->
              <[k := p]> sm !! k' = Some q /\ scoreChunk (deref q m') = Some (generation (backingMap m), i)).
      rewrite (so_score _ _ Hok). destruct (decide (k = k')) as [<-|Hk].
      * rewrite lookup_insert_eq, Hq. split; [by intros []|]. intros [[= <-] Hc]. by rewrite Hdp in Hc.
      * rewrite lookup_insert_ne by done. split; intros [Hk' Hc]; (split; [done|]); rewrite Hd in * by (by eapply Hlt); done.
    + by eapply so_max.
    + by eapply so_len.
    + cbn. rewrite (so_counter _ _ Hok), wrap_i64_add_l, map_size_insert_None by done. f_equal. lia.
    + intros q l Hl. rewrite Hls in Hl. apply lookup_app_Some in Hl as [Hl|[_ Hl]]; [by eapply so_lists|].
      apply list_lookup_singleton_Some in Hl as [_ <-]. apply new_list_ok.
  - intros k' q Hk' Hne. rewrite lookup_insert_ne in Hk' by congruence. rewrite Hd by (by eapply Hlt). by apply (Hs k' q).
  - intros k'. unfold hashes_at. destruct (decide (k = k')) as [<-|Hk].
    + by rewrite lookup_insert_eq, Hq, Hdp.
    + rewrite lookup_insert_ne by done. destruct (sm !! k') as [q|] eqn:Hk'; [|done]. by rewrite Hd by (by eapply Hlt).
Qed.

Lemma sender_addTx_spec cs now tx m sm m' added evicted :
  senders_ok m sm -> scored_but None m sm -> coherent preimage tx ->
  sender_addTx cs now tx m = (m', (added, evicted)) ->
  exists sm', senders_ok m' sm' /\ scored_but None m' sm' /\
    changes m sm m' sm' (tx_GetSender (Tx tx)) [TxHash tx] evicted /\
    (forall h, h ∈ evicted -> owner h = tx_GetSender (Tx tx)).
Proof.
  intros Hok Hs Htx Hrun. unfold sender_addTx in Hrun. set (k := tx_GetSender (Tx tx)) in *.
  destruct (getOrAddListForSender k m) as [m1 p] eqn:Hg.
  destruct (getOrAdd_spec _ _ _ _ _ Hok Hs Hg) as (sm1 & Hok1 & Hs1 & Hp & Hh1 & Hnew).
  destruct (so_deref _ _ _ _ Hok1 Hp) as (Hl & Hk & Hlok).
  destruct (list_AddTx cs now tx (deref p m1)) as [l' r] eqn:Ha.
  pose proof (list_AddTx_spec preimage _ _ _ _ _ _ Hlok Htx (eq_sym Hk) Ha) as Hspec. exists sm1.
  assert (hashes_at m sm k = getTxHashes (deref p m1)) as Hold by (rewrite <- Hh1; unfold hashes_at; by rewrite Hp).
  destruct r as [ev|]; injection Hrun as <- <- <-.
  - destruct Hspec as (l1 & Hl1 & Hperm & Hd & Hse & Hsc).
    assert (list_ok preimage l' /\ sender l' = sender (deref p m1) /\ scoreChunk l' = scoreChunk (deref p m1)) as (Hl'ok & Hse' & Hsc').
    { split; [by eapply drops_ok|]. destruct Hd as (? & _ & _ & _ & _ & _ & ? & ?). split; congruence. }
    assert (senders_ok (set_list p l' m1) sm1) as Hok2 by by eapply set_list_ok.
    destruct (trigger_spec p k _ _ Hok2 Hp) as (Hok3 & Hs3 & Hh3). split; [done|]. split.
    { apply Hs3. intros k' q Hq Hne. by eapply set_list_scored. }
    assert (forall h, h ∈ getTxHashes l1 <-> h = TxHash tx \/ h ∈ getTxHashes (deref p m1)) as Hin.
    { intros h. unfold getTxHashes. rewrite Hperm. cbn. by rewrite elem_of_cons. }
    split.
    + split.
      * intros k' Hk'. rewrite Hh3, (set_list_hashes _ _ _ _ k) by done. by rewrite decide_False.
      * intros h. rewrite Hh3, (set_list_hashes _ _ _ _ k), decide_True by done.
        rewrite (drops_exact _ _ _ _ Hl1 Hd), Hold, Hin, list_elem_of_singleton. tauto.
    + intros h Hev. assert (h ∈ getTxHashes l1) as Hh by (apply (drops_hashes _ _ _ Hd); by right).
      apply list_elem_of_fmap in Hh as (x & -> & Hx). destruct (lo_items _ _ Hl1 x Hx) as [Hc Hsx].
      unfold owner. rewrite Hc. cbn. congruence.
  - destruct Hspec as [-> Hin]. split; [done|]. split.
    { destruct Hnew as [Hnew|Hnew]; [done|]. unfold getTxHashes in Hin. rewrite Hnew in Hin. by apply not_elem_of_nil in Hin. }
    split; [|intros h Hh; by apply not_elem_of_nil in Hh]. split; [done|]. intros h. rewrite Hh1, list_elem_of_singleton.
    rewrite Hold. split; [intros H; split; [by left|apply not_elem_of_nil]|]. by intros [[H| ->] _].
Qed.

(** *** Operations that leave the transactions *)

Lemma notify_spec k n m sm :
  senders_ok m sm -> scored_but None m sm ->
  let m' := sender_notifyAccountNonce k n m in
  senders_ok m' sm /\ scored_but None m' sm /\ (forall k', hashes_at m' sm k' = hashes_at m sm k').
Proof.
  intros Hok Hs. cbn zeta. unfold sender_notifyAccountNonce. rewrite (getListForSender_spec _ _ _ Hok).
  destruct (sm !! k) as [p|] eqn:Hp; [|done]. destruct (so_deref _ _ _ _ Hok Hp) as (Hl & Hk & Hlok).
  split; [eapply set_list_ok; [done|done| |done|done]; by destruct Hlok|].
  split; [by eapply set_list_scored|]. intros k'. rewrite (set_list_hashes _ _ _ _ k) by done.
  case_decide as Hk'; [|done]. subst k'. unfold hashes_at. by rewrite Hp.
Qed.

Lemma sender_clear_spec m sm : senders_ok m sm -> senders_ok (sender_clear m) ∅ /\ scored_but None (sender_clear m) ∅.
Proof.
  intros [Hm Hl Hs Hx Hn Hc Hall]. split; [|intros k p Hp; by rewrite lookup_empty in Hp].
  split; cbn [sender_clear with_counter with_backing backingMap bsm_Clear chunks maxScore scoreChunks]; try done.
  - by eapply clear_represents.
  - intros i k p. rewrite lookup_empty. split; [|by intros []]. unfold in_chunk. cbn. unfold cm_Clear, initializeChunks.
    intros (c & Hci & Hck)%bind_Some. apply lookup_replicate in Hci as [-> _]. by rewrite lookup_empty in Hck.
  - unfold cm_Clear, initializeChunks. rewrite length_replicate. lia.
Qed.
End inv.
