(* ===== verification/TxCacheProps.v ===== *)
(** * The indexes of the transaction pool agree

    Through any series of operations, the lists of the senders stay sorted and
    every listed transaction is found by its hash; the pool counts exactly what
    it holds. *)

From S2P Require Import Prelude TxList TxCacheInv TxCache.

Section props.
Context {SC : scoreComputer} {SL : ScoreLaws}.
Variable preimage : string -> TransactionHandler * Z.
Abbreviation owner := (owner preimage).
Abbreviation senders_ok := (senders_ok preimage).

(** ** Transactions by hash *)

Record hash_ok (h : txByHashMap) (hm : gmap string WrappedTransaction) : Prop := {
  ho_map : represents (hash_chunks h) hm;
  ho_txs : forall k tx, hm !! k = Some tx -> TxHash tx = k /\ coherent preimage tx;
  ho_counter : hash_counter h = wrap_i64 (Z.of_nat (size hm));
}.

Definition bytes_ok (h : txByHashMap) (hm : gmap string WrappedTransaction) : Prop := numBytes h = wrap_i64 (msum Size hm).

Lemma hash_addTx_spec tx h hm :
  hash_ok h hm -> coherent preimage tx ->
  let h' := (hash_addTx tx h).1 in
  exists hm', hash_ok h' hm' /\ (forall k, is_Some (hm' !! k) <-> is_Some (hm !! k) \/ k = TxHash tx) /\
    (bytes_ok h hm -> bytes_ok h' hm').
Proof.
  intros Hok Htx. cbn zeta. unfold hash_addTx, SetIfAbsent. rewrite (rep_get _ _ (ho_map _ _ Hok)).
  destruct (hm !! TxHash tx) as [tx0|] eqn:Hk.
  - exists hm. split; [done|]. split; [|done]. intros k. split; [by left|]. intros [?| ->]; eauto.
  - exists (<[TxHash tx := tx]> hm). split; [|split].
    + split; cbn.
      * apply represents_set. by eapply ho_map.
      * intros k t Ht. apply lookup_insert_Some in Ht as [[<- <-]|[_ Ht]]; [done|]. by eapply ho_txs.
      * rewrite (ho_counter _ _ Hok), wrap_i64_add_l, map_size_insert_None by done. f_equal. lia.
    + intros k. rewrite lookup_insert_is_Some. destruct (decide (TxHash tx = k)); naive_solver.
    + intros Hb. unfold bytes_ok in *. cbn. rewrite Hb, wrap_i64_add_l, msum_insert_new by done. f_equal. lia.
Qed.

Lemma hash_removeTx_spec k h hm :
  hash_ok h hm -> let '(h', r) := hash_removeTx k h in
  hash_ok h' (delete k hm) /\ r = hm !! k /\ (bytes_ok h hm -> bytes_ok h' (delete k hm)).
Proof.
  intros Hok. unfold hash_removeTx. destruct (represents_remove k _ _ (ho_map _ _ Hok)) as [Hrep Hget].
  destruct (cm_Remove k (hash_chunks h)) as [cs r]. cbn in Hrep, Hget. subst r.
  assert (forall k' tx, delete k hm !! k' = Some tx -> TxHash tx = k' /\ coherent preimage tx) as Htxs.
  { intros k' tx [_ Ht]%lookup_delete_Some. by eapply ho_txs. }
  destruct (hm !! k) as [tx|] eqn:Hk.
  - split; [|split; [done|]].
    + split; cbn; [done|done|]. rewrite (ho_counter _ _ Hok), wrap_i64_sub_l, map_size_delete, Hk. f_equal.
      enough (size hm <> 0%nat) by lia. intros H0%map_size_empty_inv. by subst hm.
    + intros Hb. unfold bytes_ok in *. cbn. rewrite Hb, wrap_i64_sub_l. rewrite (msum_delete Size hm k tx Hk). f_equal. lia.
  - rewrite delete_id in * by done. split; [|done]. split; cbn; [done|done|exact (ho_counter _ _ Hok)].
Qed.

Lemma RemoveTxsBulk_spec ks h hm :
  hash_ok h hm -> let h' := (RemoveTxsBulk ks h).1 in
  hash_ok h' (delete_all ks hm) /\ (bytes_ok h hm -> bytes_ok h' (delete_all ks hm)).
Proof.
  revert h hm. induction ks as [|k ks IH]; intros h hm Hok; [done|]. cbn zeta. cbn [RemoveTxsBulk].
  pose proof (hash_removeTx_spec k h hm Hok) as H1. destruct (hash_removeTx k h) as [h1 r].
  destruct H1 as (Hok1 & _ & Hb1). destruct (IH h1 _ Hok1) as [Hok2 Hb2].
  destruct (RemoveTxsBulk ks h1) as [h2 n]. cbn in *. auto.
Qed.

(** ** The pool *)

Record pool (c : TxCache) (sm : gmap string nat) (hm : gmap string WrappedTransaction) : Prop := {
  po_senders : senders_ok (txListBySender c) sm;
  po_scored : scored_but None (txListBySender c) sm;
  po_hash : hash_ok (txByHash c) hm;
  po_listed : forall k h, h ∈ hashes_at (txListBySender c) sm k -> is_Some (hm !! h);
  po_sweeping : forall p, p ∈ sweepingListOfSenders c -> (p < length (lists (txListBySender c)))%nat;
}.

(** Every transaction found by its hash is listed for its sender. *)
Definition complete (c : TxCache) (sm : gmap string nat) (hm : gmap string WrappedTransaction) : Prop :=
  forall h, is_Some (hm !! h) -> h ∈ hashes_at (txListBySender c) sm (owner h).

(** [full]: no transaction was stranded; [exact]: the bytes are counted exactly. *)
Definition good (full exact : bool) (c : TxCache) : Prop :=
  exists sm hm, pool c sm hm /\ (full = true -> complete c sm hm /\ sweepingListOfSenders c = []) /\
    (exact = true -> bytes_ok (txByHash c) hm).

(** A change to one sender, carried over to the hashes. *)
Lemma pool_changes c sm hm c' sm' hm' k added removed :
  pool c sm hm -> senders_ok (txListBySender c') sm' -> scored_but None (txListBySender c') sm' ->
  hash_ok (txByHash c') hm' -> changes (txListBySender c) sm (txListBySender c') sm' k added removed ->
  (forall h, h ∈ added \/ h ∈ removed -> owner h = k) ->
  (forall h, is_Some (hm' !! h) <-> (is_Some (hm !! h) \/ h ∈ added) /\ h ∉ removed) ->
  sweepingListOfSenders c' = sweepingListOfSenders c ->
  (length (lists (txListBySender c)) <= length (lists (txListBySender c')))%nat ->
  pool c' sm' hm' /\ (complete c sm hm -> complete c' sm' hm').
Proof.
  intros Hp Hs Hsc Hh [Hoth Hk] Hown Hhm Hsw Hlen. split.
  - split; [done..| |].
    + intros k' h Hin. apply Hhm. destruct (decide (k' = k)) as [->|Hne].
      * apply Hk in Hin as [[Hin|Hin] Hr]; (split; [|done]); [left|by right]. by eapply po_listed.
      * rewrite Hoth in Hin by done. pose proof (hashes_owner preimage _ _ _ _ (po_senders _ _ _ Hp) Hin) as Ho.
        split; [left; by eapply po_listed|]. intros Hr. apply Hne. rewrite <- Ho. apply Hown. by right.
    + rewrite Hsw. intros p Hin. pose proof (po_sweeping _ _ _ Hp p Hin). lia.
  - intros Hc h [Hin Hr]%Hhm. destruct (decide (owner h = k)) as [He|Hne].
    + rewrite He. apply Hk. split; [|done]. destruct Hin as [Hin|Hin]; [left|by right]. rewrite <- He. by apply Hc.
    + rewrite Hoth by done. destruct Hin as [Hin|Hin]; [by apply Hc|]. destruct Hne. apply Hown. by left.
Qed.

Lemma delete_all_is_some {A} ks (m : gmap string A) k : is_Some (delete_all ks m !! k) <-> is_Some (m !! k) /\ k ∉ ks.
Proof. rewrite delete_all_lookup. case_decide; [|tauto]. split; [by intros []|tauto]. Qed.

(** *** Evicting senders *)

(** None of the lists was replaced by another list of its sender. *)
Definition fresh (m : txListBySenderMap) (sm : gmap string nat) (ps : list nat) : Prop :=
  forall p q, p ∈ ps -> sm !! sender (deref p m) = Some q -> q = p.

Lemma evict_spec ps c sm hm :
  pool c sm hm -> (forall p, p ∈ ps -> p < length (lists (txListBySender c)))%nat ->
  let c' := (evictSendersAndTheirTxs ps c).1 in
  exists ks hs, let sm' := delete_all ks sm in let hm' := delete_all hs hm in
    pool c' sm' hm' /\ (fresh (txListBySender c) sm ps -> complete c sm hm -> complete c' sm' hm') /\
    (bytes_ok (txByHash c) hm -> bytes_ok (txByHash c') hm') /\
    lists (txListBySender c') = lists (txListBySender c) /\ config c' = config c /\
    sweepingListOfSenders c' = sweepingListOfSenders c.
Proof.
  intros Hp Hlt. cbn zeta. unfold evictSendersAndTheirTxs, doEvictItems.
  set (ls := (fun p => deref p (txListBySender c)) <$> ps). set (hs := concat (getTxHashes <$> ls)). set (ks := sender <$> ls).
  destruct (RemoveTxsBulk_spec hs _ _ (po_hash _ _ _ Hp)) as [Hh Hb].
  destruct (RemoveSendersBulk_spec preimage ks _ _ (po_senders _ _ _ Hp) (po_scored _ _ _ Hp)) as (Hs & Hsc & Hl).
  destruct (RemoveTxsBulk hs (txByHash c)) as [h' n1]. destruct (RemoveSendersBulk ks (txListBySender c)) as [m' n2].
  cbn in Hh, Hb, Hs, Hsc, Hl |- *. exists ks, hs.
  assert (forall h, h ∈ hs <-> exists p, p ∈ ps /\ h ∈ getTxHashes (deref p (txListBySender c))) as Hhs.
  { intros h. unfold hs, ls. rewrite elem_of_concat. split.
    - intros (vs & (l & -> & (p & -> & Hpp)%list_elem_of_fmap)%list_elem_of_fmap & Hin). by exists p.
    - intros (p & Hpp & Hin). eexists. split; [|exact Hin]. apply list_elem_of_fmap_2.
      by apply (list_elem_of_fmap_2 (fun p => deref p (txListBySender c))). }
  assert (forall k, k ∈ ks <-> exists p, p ∈ ps /\ k = sender (deref p (txListBySender c))) as Hks.
  { intros k. unfold ks, ls. split.
    - intros (l & -> & (p & -> & Hpp)%list_elem_of_fmap)%list_elem_of_fmap. by exists p.
    - intros (p & Hpp & ->). apply list_elem_of_fmap_2.
      by apply (list_elem_of_fmap_2 (fun p => deref p (txListBySender c))). }
  assert (forall k, hashes_at m' (delete_all ks sm) k = if decide (k ∈ ks) then [] else hashes_at (txListBySender c) sm k) as Hat.
  { intros k. unfold hashes_at, deref. rewrite delete_all_lookup, Hl. by case_decide. }
  split; [|split; [|done]].
  - split; cbn; [done..| |rewrite Hl; by eapply po_sweeping]. intros k h Hin. rewrite Hat in Hin.
    case_decide as Hk; [by apply not_elem_of_nil in Hin|].
    apply delete_all_is_some. split; [by eapply po_listed|]. intros (p & Hpp & Hph)%Hhs. apply Hk, Hks. exists p. split; [done|].
    rewrite <- (hashes_owner preimage _ _ _ _ (po_senders _ _ _ Hp) Hin).
    destruct (lookup_lt_is_Some_2 _ _ (Hlt p Hpp)) as [l Hlp]. rewrite (deref_lookup _ _ _ Hlp) in *.
    apply list_elem_of_fmap in Hph as (tx & -> & Htx).
    destruct (lo_items _ _ (so_lists _ _ _ (po_senders _ _ _ Hp) _ _ Hlp) tx Htx) as [Hco Hse].
    unfold TxCacheInv.owner. by rewrite Hco.
  - intros Hfr Hc h [Hin Hh']%delete_all_is_some. cbn. rewrite Hat. rewrite decide_False; [by apply Hc|].
    intros (p & Hpp & Ho)%Hks. apply Hh', Hhs. exists p. split; [done|]. specialize (Hc h Hin).
    rewrite Ho in Hc. unfold hashes_at in Hc. destruct (sm !! _) as [q|] eqn:Hq; [|by apply not_elem_of_nil in Hc].
    by rewrite (Hfr p q Hpp Hq) in Hc.
Qed.

Lemma fresh_delete m m' sm ks ps : lists m' = lists m -> fresh m sm ps -> fresh m' (delete_all ks sm) ps.
Proof.
  intros Hl Hf p q Hp. unfold deref. rewrite Hl, delete_all_lookup. case_decide; [done|]. by apply Hf.
Qed.

(** The lists in score chunks are those of the senders. *)
Lemma chunk_live m sm i ch k p :
  senders_ok m sm -> scoreChunks (backingMap m) !! i = Some ch -> ch !! k = Some p -> sm !! k = Some p.
Proof.
  intros Hok Hi Hk. assert (in_chunk i k (backingMap m) = Some p) as Hin by (unfold in_chunk; by rewrite Hi).
  by apply (so_score _ _ _ Hok) in Hin as [? _].
Qed.

Lemma snapshot_ascending_live m sm p :
  senders_ok m sm -> p ∈ GetSnapshotAscending (backingMap m) -> exists k, sm !! k = Some p.
Proof.
  intros Hok Hin. unfold GetSnapshotAscending in Hin. apply elem_of_concat in Hin as (vs & Hvs & Hin).
  apply list_elem_of_fmap in Hvs as (ch & -> & Hch). apply list_elem_of_lookup in Hch as [i Hi].
  apply list_elem_of_omap in Hin as (k & _ & Hk). exists k. by eapply chunk_live.
Qed.

Lemma live_fresh m sm ps : senders_ok m sm -> (forall p, p ∈ ps -> exists k, sm !! k = Some p) ->
  fresh m sm ps /\ (forall p, p ∈ ps -> p < length (lists m))%nat.
Proof.
  intros Hok Hl. split.
  - intros p q Hp Hq. destruct (Hl p Hp) as [k Hk]. destruct (so_deref _ _ _ _ _ Hok Hk) as (_ & Hs & _). congruence.
  - intros p Hp. destruct (Hl p Hp) as [k Hk]. destruct (so_deref _ _ _ _ _ Hok Hk) as (Hx & _ & _). by eapply lookup_lt_Some.
Qed.

Lemma evict_loop_good fuel snapshot start c sm hm (full exact : bool) :
  pool c sm hm -> (full = true -> complete c sm hm) -> (exact = true -> bytes_ok (txByHash c) hm) ->
  fresh (txListBySender c) sm snapshot -> (forall p, p ∈ snapshot -> p < length (lists (txListBySender c)))%nat ->
  let c' := evict_loop fuel snapshot start c in
  exists sm' hm', pool c' sm' hm' /\ (full = true -> complete c' sm' hm') /\ (exact = true -> bytes_ok (txByHash c') hm') /\
    sweepingListOfSenders c' = sweepingListOfSenders c /\ config c' = config c.
Proof.
  revert start c sm hm. induction fuel as [|fuel IH]; intros start c sm hm Hp Hf He Hfr Hlt; cbn zeta; [by exists sm, hm|].
  cbn [evict_loop]. destruct (cache_isCapacityExceeded c); cbn [negb]; [|by exists sm, hm].
  set (batch := batch_of _ _ _).
  assert (forall p, p ∈ batch -> p ∈ snapshot) as Hsub.
  { intros p Hin. apply elem_of_take in Hin as (i & Hi & _). rewrite lookup_drop in Hi. by eapply list_elem_of_lookup_2. }
  destruct (evict_spec batch c sm hm Hp) as (ks & hs & Hp' & Hc' & Hb' & Hl & Hcf & Hsw); [eauto|].
  destruct (evictSendersAndTheirTxs batch c) as [c' [n1 n2]]. cbn [fst] in *.
  assert (full = true -> complete c' (delete_all ks sm) (delete_all hs hm)) as Hf'.
  { intros Hfu. apply Hc'; [|auto]. intros p q Hin. apply Hfr; auto. }
  destruct (_ || _ || _).
  - exists (delete_all ks sm), (delete_all hs hm). splits; auto.
  - destruct (IH (wrap_u32 (start + NumSendersToPreemptivelyEvict (config c))) c' (delete_all ks sm) (delete_all hs hm))
      as (sm2 & hm2 & H1 & H2 & H3 & H4 & H5); [done|done|auto|by eapply fresh_delete|by rewrite Hl|].
    exists sm2, hm2. splits; [done..|congruence|congruence].
Qed.

Lemma doEviction_good full exact c : good full exact c -> good full exact (doEviction c) /\ config (doEviction c) = config c.
Proof.
  intros (sm & hm & Hp & Hf & He). unfold doEviction. destruct (cache_isCapacityExceeded c); cbn [negb]; [|split; [by exists sm, hm|done]].
  set (snapshot := GetSnapshotAscending (backingMap (txListBySender c))).
  destruct (live_fresh _ sm snapshot (po_senders _ _ _ Hp)) as [Hfr Hlt].
  { intros p Hin. by eapply snapshot_ascending_live; [eapply po_senders|]. }
  destruct (evict_loop_good (S (length snapshot)) snapshot 0 c sm hm full exact Hp)
    as (sm' & hm' & H1 & H2 & H3 & H4 & H5); [by intros [? _]%Hf|done|done|done|].
  split; [|done]. exists sm', hm'. split; [done|]. split; [|done]. intros Hfu. split; [auto|]. rewrite H4. by apply Hf.
Qed.

(** *** Adding and removing *)

Lemma AddTx_good full exact now tx c :
  coherent preimage tx -> good full exact c -> good full exact (TxCache_AddTx now tx c).1.
Proof.
  intros Htx Hg. unfold TxCache_AddTx.
  set (c1 := if EvictionEnabled (config c) then doEviction c else c).
  assert (good full exact c1) as (sm & hm & Hp & Hf & He).
  { subst c1. destruct (EvictionEnabled _); [by apply doEviction_good|done]. }
  clearbody c1. clear Hg c.
  destruct (hash_addTx_spec tx _ _ (po_hash _ _ _ Hp) Htx) as (hm1 & Hh1 & Hin1 & Hb1).
  destruct (hash_addTx tx (txByHash c1)) as [h1 added1]. cbn [fst] in *.
  destruct (sender_addTx _ now tx (txListBySender c1)) as [m' [added2 ev]] eqn:Ha.
  assert (length (lists (txListBySender c1)) <= length (lists m'))%nat as Hlen.
  { clear -Ha. unfold sender_addTx, getOrAddListForSender, addSender in Ha.
    destruct (getListForSender _ _); destruct (list_AddTx _ _ _ _) as [l [e|]]; simplify_eq;
      unfold triggerScoreChange; try destruct (NotifyScoreChange _ _ _ _ _); cbn;
      rewrite ?length_insert, ?length_app; lia. }
  destruct (sender_addTx_spec preimage _ _ _ _ _ _ _ _ (po_senders _ _ _ Hp) (po_scored _ _ _ Hp) Htx Ha)
    as (sm' & Hs' & Hsc' & Hch & Hev).
  destruct (RemoveTxsBulk_spec ev h1 hm1 Hh1) as [Hh2 Hb2]. destruct (RemoveTxsBulk ev h1) as [h2 n]. cbn [fst] in *.
  destruct (pool_changes c1 sm hm (with_bySender m' (with_byHash h2 c1)) sm' (delete_all ev hm1)
              (tx_GetSender (Tx tx)) [TxHash tx] ev) as [Hp' Hc']; try done.
  { intros h [->%list_elem_of_singleton|Hin]; [|by apply Hev]. unfold TxCacheInv.owner. by rewrite Htx. }
  { intros h. rewrite delete_all_is_some, Hin1, list_elem_of_singleton. tauto. }
  exists sm', (delete_all ev hm1). split; [done|]. split; [|auto].
  intros [Hc Hsw]%Hf. split; [by apply Hc'|done].
Qed.

Lemma trigger_length p m : length (lists (triggerScoreChange p m)) = length (lists m).
Proof. unfold triggerScoreChange. destruct (NotifyScoreChange _ _ _ _ _). cbn. by rewrite length_insert. Qed.

Lemma remove_if_empty_length k p m : length (lists (remove_if_empty k p m)) = length (lists m).
Proof.
  unfold remove_if_empty, removeSender. destruct (IsEmpty _); [|done]. by destruct (bsm_Remove _ _ _) as [? []].
Qed.

Lemma sender_removeTx_length tx m : length (lists (sender_removeTx tx m).1) = length (lists m).
Proof.
  unfold sender_removeTx. destruct (getListForSender _ _); [|done].
  destruct (list_RemoveTx _ _) as [l []]; cbn [fst]; rewrite remove_if_empty_length; [|done].
  rewrite trigger_length. cbn. by rewrite length_insert.
Qed.

Lemma removeTxLowerNonce_length k n m : length (lists (removeTxLowerNonce k n m).1) = length (lists m).
Proof.
  unfold removeTxLowerNonce. destruct (getListForSender _ _); [|done]. destruct (remove_lower _ _ _) as [l r].
  cbn [fst]. rewrite remove_if_empty_length, trigger_length. cbn. by rewrite length_insert.
Qed.

Lemma RemoveTxByHash_good full exact h c : good full exact c -> good full exact (RemoveTxByHash h c).1.
Proof.
  intros (sm & hm & Hp & Hf & He). unfold RemoveTxByHash.
  pose proof (hash_removeTx_spec h _ _ (po_hash _ _ _ Hp)) as H1. destruct (hash_removeTx h (txByHash c)) as [h' r].
  destruct H1 as (Hh' & -> & Hb). destruct (hm !! h) as [tx|] eqn:Hk; cbn [fst].
  - destruct (ho_txs _ _ (po_hash _ _ _ Hp) _ _ Hk) as [Hth Hco].
    destruct (sender_removeTx_spec preimage tx _ _ (po_senders _ _ _ Hp) (po_scored _ _ _ Hp) Hco) as (sm' & Hs' & Hsc' & Hch).
    destruct (pool_changes c sm hm (with_bySender (sender_removeTx tx (txListBySender c)).1 (with_byHash h' c)) sm' (delete h hm)
                (tx_GetSender (Tx tx)) [] [TxHash tx]) as [Hp' Hc']; try done.
    { intros x [Hx|Hx]; [by apply not_elem_of_nil in Hx|]. apply list_elem_of_singleton in Hx as ->.
      unfold TxCacheInv.owner. by rewrite Hco. }
    { intros x. rewrite lookup_delete_is_Some, Hth, list_elem_of_singleton. set_solver. }
    { cbn. by rewrite sender_removeTx_length. }
    exists sm', (delete h hm). split; [done|]. split; [|auto]. intros [Hc Hsw]%Hf. split; [by apply Hc'|done].
  - rewrite delete_id in * by done. exists sm, hm. split; [|split; [|auto]].
    + destruct Hp. by split.
    + intros [Hc Hsw]%Hf. by split.
Qed.

Lemma RemoveTxBySenderNonce_good full exact k n c : good full exact c -> good full exact (RemoveTxBySenderNonce k n c).1.
Proof.
  intros (sm & hm & Hp & Hf & He). unfold RemoveTxBySenderNonce.
  pose proof (removeTxLowerNonce_length k n (txListBySender c)) as Hlen.
  destruct (removeTxLowerNonce k n (txListBySender c)) as [m' removed] eqn:Hr.
  destruct (removeTxLowerNonce_spec preimage _ _ _ _ _ _ (po_senders _ _ _ Hp) (po_scored _ _ _ Hp) Hr)
    as (sm' & Hs' & Hsc' & Hch & Hrem).
  destruct (RemoveTxsBulk_spec removed _ _ (po_hash _ _ _ Hp)) as [Hh2 Hb2].
  destruct (RemoveTxsBulk removed (txByHash c)) as [h2 x]. cbn [fst] in *.
  destruct (pool_changes c sm hm (with_bySender m' (with_byHash h2 c)) sm' (delete_all removed hm) k [] removed)
    as [Hp' Hc']; try done.
  { intros h [Hx|Hx]; [by apply not_elem_of_nil in Hx|]. eapply hashes_owner; [by eapply po_senders|]. by apply Hrem. }
  { intros h. rewrite delete_all_is_some. set_solver. }
  { cbn. by rewrite Hlen. }
  exists sm', (delete_all removed hm). split; [done|]. split; [|auto]. intros [Hc Hsw]%Hf. split; [by apply Hc'|done].
Qed.

Lemma Clear_good full exact c : good full exact c -> good full false (Clear c).
Proof.
  intros (sm & hm & Hp & Hf & _). destruct (sender_clear_spec preimage _ _ (po_senders _ _ _ Hp)) as [Hs Hsc].
  exists ∅, ∅. split; [|split; [|done]].
  - split; cbn; [done|done| | |].
    + split; cbn; [eapply clear_represents; by eapply ho_map, po_hash| |by rewrite map_size_empty].
      intros k tx Hk. by rewrite lookup_empty in Hk.
    + intros k h Hin. unfold hashes_at in Hin. rewrite lookup_empty in Hin. by apply not_elem_of_nil in Hin.
    + by eapply po_sweeping.
  - intros [_ Hsw]%Hf. split; [|done]. intros h Hh. rewrite lookup_empty in Hh. by destruct Hh.
Qed.

(** *** Operations that leave the transactions as they are *)

(** [c'] lists the same transactions. *)
Lemma same_hashes_good full exact c c' sm hm :
  pool c sm hm -> (full = true -> complete c sm hm /\ sweepingListOfSenders c = []) ->
  (exact = true -> bytes_ok (txByHash c) hm) ->
  senders_ok (txListBySender c') sm -> scored_but None (txListBySender c') sm ->
  (forall k, hashes_at (txListBySender c') sm k = hashes_at (txListBySender c) sm k) ->
  txByHash c' = txByHash c -> sweepingListOfSenders c' = sweepingListOfSenders c ->
  length (lists (txListBySender c')) = length (lists (txListBySender c)) -> good full exact c'.
Proof.
  intros Hp Hf He Hs Hsc Hh Hb Hsw Hlen. exists sm, hm. split; [|split].
  - split; [done|done|rewrite Hb; by eapply po_hash| |].
    + intros k h. rewrite Hh. by eapply po_listed.
    + rewrite Hsw, Hlen. by eapply po_sweeping.
  - intros [Hc Hw]%Hf. split; [|by rewrite Hsw]. intros h Hin. rewrite Hh. by apply Hc.
  - by rewrite Hb.
Qed.

Lemma Notify_good full exact k n c : good full exact c -> good full exact (NotifyAccountNonce k n c).
Proof.
  intros (sm & hm & Hp & Hf & He).
  destruct (notify_spec preimage k n _ _ (po_senders _ _ _ Hp) (po_scored _ _ _ Hp)) as (Hs & Hsc & Hh).
  eapply same_hashes_good; [done..|]. cbn. unfold sender_notifyAccountNonce. destruct (getListForSender _ _); [|done].
  cbn. by rewrite length_insert.
Qed.

(** *** Expiry *)

(** [m'] is [m] without the transactions [removed]. *)
Definition loses (m m' : txListBySenderMap) (sm : gmap string nat) (removed : list string) : Prop :=
  forall k h, h ∈ hashes_at m' sm k <-> h ∈ hashes_at m sm k /\ h ∉ removed.

Lemma processExpiredForSender_spec now k p m sm m' removed :
  senders_ok m sm -> scored_but None m sm -> sm !! k = Some p -> processExpiredForSender now p m = (m', removed) ->
  senders_ok m' sm /\ scored_but None m' sm /\ loses m m' sm removed /\ length (lists m') = length (lists m).
Proof.
  intros Hok Hs Hp Hrun. unfold processExpiredForSender in Hrun.
  destruct (remove_where _ _ _) as [l' r] eqn:Hr. injection Hrun as <- <-. apply remove_where_drops in Hr.
  destruct (so_deref _ _ _ _ _ Hok Hp) as (Hl & Hk & Hlok).
  assert (scoreChunk l' = scoreChunk (deref p m) /\ sender l' = sender (deref p m)) as [Hsc Hse]
    by by destruct Hr as (? & _ & _ & _ & _ & _ & ? & ?).
  split; [eapply set_list_ok; [done|done|by eapply drops_ok|done|done]|].
  split; [by eapply set_list_scored|]. split; [|cbn; by rewrite length_insert].
  intros k' h. rewrite (set_list_hashes preimage _ _ _ _ k) by done. case_decide as Hk'.
  - subst k'. rewrite (drops_exact preimage _ _ _ Hlok Hr). unfold hashes_at. by rewrite Hp.
  - split; [|tauto]. intros Hin. split; [done|]. intros Hre. apply Hk'.
    rewrite <- (hashes_owner preimage _ _ _ _ Hok Hin). symmetry. eapply hashes_owner; [done|].
    unfold hashes_at. rewrite Hp. apply (drops_hashes _ _ _ Hr). by right.
Qed.

Lemma processExpiredTransactions_spec now ps m sm m' txs ss :
  senders_ok m sm -> scored_but None m sm -> (forall p, p ∈ ps -> exists k, sm !! k = Some p) ->
  processExpiredTransactions now ps m = (m', (txs, ss)) ->
  senders_ok m' sm /\ scored_but None m' sm /\ loses m m' sm txs /\ length (lists m') = length (lists m).
Proof.
  revert m m' txs ss. induction ps as [|p ps IH]; intros m m' txs ss Hok Hs Hl Hrun; cbn in Hrun.
  { simplify_eq. splits; try done. intros k h. set_solver. }
  destruct (processExpiredForSender now p m) as [m1 r1] eqn:H1. destruct (Hl p) as [k Hk]; [by left|].
  destruct (processExpiredForSender_spec _ _ _ _ _ _ _ Hok Hs Hk H1) as (Hok1 & Hs1 & Hlo1 & Hn1).
  destruct (processExpiredTransactions now ps m1) as [m2 [txs2 ss2]] eqn:H2.
  destruct (IH _ _ _ _ Hok1 Hs1 (fun q Hq => Hl q (proj2 (elem_of_cons _ _ _) (or_intror Hq))) H2) as (Hok2 & Hs2 & Hlo2 & Hn2).
  injection Hrun as <- <- <-. splits; [done|done| |congruence].
  intros k' h. rewrite (Hlo2 k' h), (Hlo1 k' h), elem_of_app. tauto.
Qed.

Lemma clean_good full exact now c : good full exact c -> good full exact (cleanExpiredTransactions now c).
Proof.
  intros (sm & hm & Hp & Hf & He). unfold cleanExpiredTransactions.
  destruct (processExpiredTransactions _ _ _) as [m' [txs ss]] eqn:Hr.
  apply (processExpiredTransactions_spec _ _ _ sm) in Hr as (Hs & Hsc & Hlo & Hlen);
    [|by eapply po_senders|by eapply po_scored|].
  2:{ intros p Hin. eapply snapshot_ascending_live; [by eapply po_senders|done]. }
  unfold performBulkRemoval. destruct txs as [|t txs].
  { exists sm, hm. split; [|split; [|done]].
    - split; cbn; [done|done|by eapply po_hash| |rewrite Hlen; by eapply po_sweeping].
      intros k h [Hin _]%Hlo. by eapply po_listed.
    - intros [Hc Hsw]%Hf. split; [|done]. intros h Hin. apply Hlo. split; [by apply Hc|apply not_elem_of_nil]. }
  set (removed := t :: txs) in *. cbn [txListBySender with_bySender with_byHash txByHash].
  set (ks := revalidateEmptySenders ss m').
  destruct (RemoveTxsBulk_spec removed _ _ (po_hash _ _ _ Hp)) as [Hh Hb].
  destruct (RemoveSendersBulk_spec preimage ks m' sm Hs Hsc) as (Hs2 & Hsc2 & Hl2).
  destruct (RemoveTxsBulk removed (txByHash c)) as [h' n1]. destruct (RemoveSendersBulk ks m') as [m2 n2]. cbn [fst] in *.
  assert (forall k, hashes_at m2 (delete_all ks sm) k = hashes_at m' sm k) as Hat.
  { intros k. unfold hashes_at, deref. rewrite delete_all_lookup, Hl2. case_decide as Hk; [|done].
    subst ks. unfold revalidateEmptySenders in Hk. apply list_elem_of_filter in Hk as [Hk _].
    rewrite (getListForSender_spec preimage m' sm k Hs) in Hk. destruct (sm !! k) as [p|]; [|done]. cbn in Hk.
    unfold IsEmpty, countTx, deref in Hk. zify_bools. unfold getTxHashes. by destruct (items _). }
  exists (delete_all ks sm), (delete_all removed hm). split; [|split].
  - split; cbn [txListBySender txByHash with_bySender with_byHash sweepingListOfSenders]; [done|done|done| |].
    + intros k h. rewrite Hat, (Hlo k h), delete_all_is_some. intros [Hin Hn]. split; [by eapply po_listed|done].
    + rewrite Hl2, Hlen. by eapply po_sweeping.
  - intros [Hc Hsw]%Hf. split; [|done]. intros h [Hin Hn]%delete_all_is_some.
    cbn [txListBySender with_bySender]. rewrite Hat. apply Hlo. split; [by apply Hc|done].
  - auto.
Qed.
End props.
