(* ===== verification/TxSelect.v ===== *)
(** * Scores of senders and the selection for a block

    [storage/txcache/score.go]: senders that pay more for little data come first
    in a selection and last in an eviction (the logarithm and the exponential of
    Go's [math] package are parameters; the rest is [float64] arithmetic); and what
    one batch, one pass and a whole selection take from the lists of the senders. *)

From S2P Require Import Prelude GoStd TxList TxCache TxCacheInv TxCacheProps.
From Stdlib Require Import SpecFloat.

Definition f64_add (x y : spec_float) : spec_float := SFadd 53 f64_emax x y.
Definition f64_sub (x y : spec_float) : spec_float := SFsub 53 f64_emax x y.

(** The loop halves [i] until it is at most 2^12; 64 rounds are enough. *)
Fixpoint shift_loop (fuel : nat) (i m : Z) : Z :=
  match fuel with
  | O => m
  | S fuel => if 4096 <? i then shift_loop fuel (Z.shiftr i 1) (m + 7) else m
  end.
Definition computeShiftMagnitude (x : Z) : Z := let m := shift_loop 64 x 0 in wrap_u64 (m * m).

Section score.
Variables (math_Log math_Exp : spec_float -> spec_float).
(** What the platform makes of a value that does not fit. *)
Variable oob : spec_float -> Z.

Definition computeRawScore (params : senderScoreParams) : spec_float :=
  if negb ((0 <? score_fees params) && (0 <? score_size params) && (0 <? score_count params)) then S754_zero false
  else
    let shiftMagnitude := computeShiftMagnitude (score_fees params) in
    let shiftMagnitude := if shiftMagnitude <? 100 then 100 else shiftMagnitude in
    let one := f64_of_Z 1 in
    let ppuScoreAdjusted := f64_div (f64_mul (math_Log (f64_of_Z (score_fees params))) (f64_of_Z shiftMagnitude))
                              (f64_of_Z 100000) in
    let countPow2 := f64_mul (f64_of_Z (score_count params)) (f64_of_Z (score_count params)) in
    let countScore := f64_add (math_Log (f64_add countPow2 one)) one in
    let size := f64_div (f64_of_Z (score_size params)) (f64_of_Z 1000) in
    let sizePow2 := f64_mul size size in
    let sizeScore := f64_add (math_Log (f64_add sizePow2 one)) one in
    let rawScore := f64_div (f64_mul ppuScoreAdjusted sizeScore) countScore in
    let half := f64_div one (f64_of_Z 2) in
    let asymptoticScore := f64_mul (f64_sub (f64_div one (f64_add one (math_Exp (SFopp rawScore)))) half) (f64_of_Z 2) in
    f64_mul asymptoticScore (f64_of_Z numberOfScoreChunks).

(** [uint32(rawScore)] *)
Definition f64_to_u32 (x : spec_float) : Z :=
  match sf_trunc x with
  | Some z => if decide (is_u32 z) then z else wrap_u32 (oob x)
  | None => wrap_u32 (oob x)
  end.

Definition defaultScoreComputer : scoreComputer := fun params => f64_to_u32 (computeRawScore params).
#[export] Existing Instance defaultScoreComputer.

(** The computed score is what the pool's theorems ask of it. *)
#[export] Instance defaultScoreComputer_laws : ScoreLaws.
Proof.
  intros ps. unfold computeScore, defaultScoreComputer, f64_to_u32. destruct (sf_trunc _) as [z|]; [|apply wrap_u32_range].
  destruct (decide (is_u32 z)); [done|apply wrap_u32_range].
Qed.
End score.

(** The bound on the rounds is enough: the loop ends by its own test. *)
Lemma shift_loop_enough n i m : 0 <= i < 2 ^ Z.of_nat n -> shift_loop (S n) i m = shift_loop n i m.
Proof.
  revert i m. induction n as [|n IH]; intros i m Hi.
  - cbn in Hi. assert (i = 0) as -> by lia. done.
  - change (shift_loop (S (S n)) i m) with (if 4096 <? i then shift_loop (S n) (Z.shiftr i 1) (m + 7) else m).
    cbn [shift_loop]. destruct (4096 <? i); [|done]. apply IH. rewrite Z.shiftr_div_pow2 by lia.
    split; [apply Z.div_pos; lia|]. apply Z.div_lt_upper_bound; [lia|]. rewrite Nat2Z.inj_succ, Z.pow_succ_r in Hi; lia.
Qed.

(** ** One batch *)

(** The loop's own test for a gap, by which the batches are described: a
    previous nonce of 0 counts as none, so after a transaction of nonce 0 a gap
    is not seen. *)
Definition follows (previous : Z) (tx : WrappedTransaction) : Prop :=
  ~ (0 < previous /\ wrap_u64 (previous + 1) < nonce_of tx).
Definition last_nonce (ts : list WrappedTransaction) : Z := from_option nonce_of 0 (last ts).
Definition gap_free (ts : list WrappedTransaction) : Prop :=
  forall i tx, ts !! i = Some tx -> follows (last_nonce (take i ts)) tx.

Lemma gap_free_nil : gap_free [].
Proof. intros i tx Hi. by rewrite lookup_nil in Hi. Qed.

Lemma gap_free_snoc ts tx : gap_free ts -> follows (last_nonce ts) tx -> gap_free (ts ++ [tx]).
Proof.
  intros Hg Hf i y Hi. apply lookup_app_Some in Hi as [Hi|[Hle Hi]].
  - rewrite take_app_le by (apply lookup_lt_Some in Hi; lia). by apply Hg.
  - apply list_lookup_singleton_Some in Hi as [Hi <-]. by rewrite take_app_length' by lia.
Qed.

Lemma last_nonce_snoc ts tx : last_nonce (ts ++ [tx]) = nonce_of tx.
Proof. unfold last_nonce. by rewrite last_snoc. Qed.

(** What the test means for the nonces of a batch: after a positive nonce none
    is missing, and a batch ends at a gap only after a positive nonce. *)
Lemma gap_free_next ts i tx tx' :
  gap_free ts -> ts !! i = Some tx -> ts !! S i = Some tx' -> 0 < nonce_of tx -> nonce_of tx' <= nonce_of tx + 1.
Proof.
  intros Hg Hi Hi' Hpos. specialize (Hg (S i) tx' Hi'). rewrite (take_S_r _ _ _ Hi), last_nonce_snoc in Hg.
  unfold follows in Hg. assert (wrap_u64 (nonce_of tx + 1) <= nonce_of tx + 1) by (unfold wrap_u64; apply Z.mod_le; lia).
  lia.
Qed.

Lemma gap_after_last (l ts : list WrappedTransaction) n :
  (exists tx, l !! n = Some tx /\ ~ follows (last_nonce ts) tx) ->
  exists tx tx', last ts = Some tx /\ l !! n = Some tx' /\ 0 < nonce_of tx /\ wrap_u64 (nonce_of tx + 1) < nonce_of tx'.
Proof.
  intros (tx' & Hn & Hf). unfold follows, last_nonce in Hf. destruct (last ts) as [tx|]; cbn in Hf; [|lia].
  exists tx, tx'. destruct (decide (0 < nonce_of tx /\ wrap_u64 (nonce_of tx + 1) < nonce_of tx')); tauto.
Qed.

(** [taken] was copied by earlier batches, [cur] by this one so far. *)
Lemma copy_loop_spec batchSize space bandwidth taken cur cb rest :
  gap_free (taken ++ cur) -> (cur = [] -> cb = 0) ->
  let r := copy_loop batchSize space bandwidth (Z.of_nat (length cur)) cb (last_nonce (taken ++ cur)) rest in
  exists j, cr_copied r = take j rest /\ (j <= length rest)%nat /\
    gap_free (taken ++ cur ++ take j rest) /\ cr_previous r = last_nonce (taken ++ cur ++ take j rest) /\
    (cr_gap r = true -> exists tx, rest !! j = Some tx /\ ~ follows (cr_previous r) tx) /\
    (cr_gap r = false -> j = length rest \/ Z.of_nat (length cur + j) = batchSize \/
       Z.of_nat (length cur + j) = space \/ bandwidth <= 0 \/ (0 < length cur + j)%nat) /\
    (Z.of_nat (length cur) <= space -> Z.of_nat (length cur + j) <= space) /\
    (Z.of_nat (length cur) <= batchSize -> Z.of_nat (length cur + j) <= batchSize).
Proof.
  revert cur cb. induction rest as [|tx rest IH]; intros cur cb Hg Hcb; cbn zeta; cbn [copy_loop].
  { exists 0%nat. cbn. rewrite !app_nil_r. splits; try done; try lia. }
  destruct (_ || _ || _) eqn:Hstop.
  { exists 0%nat. cbn [take cr_copied cr_previous cr_gap]. rewrite !app_nil_r. splits; try done; try lia.
    intros _. rewrite Nat.add_0_r. apply orb_true_iff in Hstop as [Hstop|Hstop]; [|zify_bools].
    - apply orb_true_iff in Hstop as [Hstop|Hstop]; zify_bools; auto.
    - destruct cur; [rewrite Hcb in Hstop by done; auto|]. do 4 right. cbn. lia. }
  zify_bools. destruct (_ && _) eqn:Hgap.
  { exists 0%nat. cbn [take cr_copied cr_previous cr_gap]. rewrite !app_nil_r. splits; try done; try lia.
    intros _. exists tx. split; [done|]. zify_bools. unfold follows. tauto. }
  assert (follows (last_nonce (taken ++ cur)) tx) as Hf.
  { apply andb_false_iff in Hgap. unfold follows. intros [? ?]. destruct Hgap; zify_bools; lia. }
  specialize (IH (cur ++ [tx]) (wrap_u64 (cb + tx_GetGasLimit (Tx tx)))).
  destruct IH as (j & Hc & Hj & Hg' & Hp & Hga & Hst & Hsp & Hbs).
  { rewrite app_assoc. by apply gap_free_snoc. }
  { by destruct cur. }
  rewrite app_assoc, last_nonce_snoc, length_app in *. cbn [length] in *.
  replace (Z.of_nat (length cur + 1)) with (Z.of_nat (length cur) + 1) in * by lia.
  set (r := copy_loop _ _ _ _ _ (nonce_of tx) rest) in *.
  exists (S j). cbn [cr_copied cr_previous cr_gap take length lookup list_lookup].
  assert (forall ts, taken ++ cur ++ tx :: ts = taken ++ (cur ++ [tx]) ++ ts) as Happ by (intros; by rewrite <- (app_assoc cur)).
  rewrite Happ. splits; try done; try lia; [by f_equal|]. by rewrite app_assoc.
Qed.

(** ** The lists during a selection *)

Record sel_state (l0 l : txListForSender) (n : nat) : Prop := {
  ss_items : items l = items l0;
  ss_sender : sender l = sender l0;
  ss_chunk : scoreChunk l = scoreChunk l0;
  ss_totals : totalBytes l = totalBytes l0 /\ totalFees l = totalFees l0;
  ss_score : lastComputedScore l = lastComputedScore l0;
  ss_index : copyBatchIndex l = n /\ (n <= length (items l0))%nat;
  ss_free : gap_free (take n (items l0));
  ss_previous : copyPreviousNonce l = last_nonce (take n (items l0));
  ss_gap : copyDetectedGap l = true -> hasInitialGap l0 = true \/
    exists tx, items l0 !! n = Some tx /\ ~ follows (last_nonce (take n (items l0))) tx;
  ss_no_gap : copyDetectedGap l = false -> hasInitialGap l0 = false;
  ss_initial : hasInitialGap l0 = true -> (n <= 1)%nat /\ (n = 1%nat -> numFailedSelections l0 +! 1 = 2);
}.

(** Nothing more can be taken from the list. *)
Definition exhausted (l0 : txListForSender) (n : nat) : Prop :=
  hasInitialGap l0 = true \/ n = length (items l0) \/
  exists tx, items l0 !! n = Some tx /\ ~ follows (last_nonce (take n (items l0))) tx.

Definition reset_copy (l0 : txListForSender) : txListForSender :=
  let '(l, gap) := verifyInitialGapOnSelectionStart l0 in with_copy gap 0 0 l.

Lemma reset_sel_state l0 : sel_state l0 (reset_copy l0) 0 /\
  (isInGracePeriod (reset_copy l0) = true -> hasInitialGap l0 = true -> numFailedSelections l0 +! 1 = 2).
Proof.
  unfold reset_copy, verifyInitialGapOnSelectionStart. destruct (hasInitialGap l0) eqn:Hi.
  - set (l1 := with_failures (numFailedSelections l0 +! 1) (sweepable l0) l0).
    assert (forall l, l = l1 \/ l = with_failures (numFailedSelections l1) true l1 ->
      sel_state l0 (with_copy true 0 0 l) 0 /\ (isInGracePeriod (with_copy true 0 0 l) = true -> true = true ->
        numFailedSelections l0 +! 1 = 2)) as H.
    { intros l [->| ->]; (split; [split; cbn; try done; try (split; [done|lia]); [by left|intros _; lia]|]);
        unfold isInGracePeriod, senderGracePeriodLowerBound, senderGracePeriodUpperBound; cbn; intros ? _; zify_bools; lia. }
    destruct (isGracePeriodExceeded l1); auto.
  - split; [|done]. split; cbn; try done; [split; [done|lia]|by rewrite Hi].
Qed.

Lemma selectBatchTo_spec (first : bool) space bs bw l0 l n l' copied :
  (if first then l = l0 /\ n = 0%nat else sel_state l0 l n) -> 0 <= space ->
  selectBatchTo first space bs bw l = (l', copied) ->
  exists j, sel_state l0 l' (n + j) /\ copied = take j (drop n (items l0)) /\ length copied = j /\ Z.of_nat j <= space /\
    (j = 0%nat -> 0 < space -> 0 < bw -> bs <> 0 -> exhausted l0 n).
Proof.
  intros Hl Hspace Hrun. unfold selectBatchTo in Hrun. change (let '(l, gap) := _ in _) with (reset_copy l) in Hrun.
  set (l1 := if first then reset_copy l else l) in *.
  assert (sel_state l0 l1 n /\ (first = true -> n = 0%nat /\ (isInGracePeriod l1 = true -> hasInitialGap l0 = true ->
    numFailedSelections l0 +! 1 = 2))) as [Hs Hgr].
  { destruct first; [|done]. destruct Hl as [-> ->]. destruct (reset_sel_state l0). done. }
  clearbody l1. clear Hl. destruct Hs as [S1 S2 S3 S4 S5 [S6 S6'] S7 S8 S9 S10 S11].
  set (bs' := if copyDetectedGap l1 then _ else bs) in *.
  destruct (copy_loop_spec bs' space bw (take n (items l0)) [] 0 (drop n (items l0))) as (j & Hc & Hj & Hg & Hp & Hga & Hst & Hsp & Hbs).
  { by rewrite app_nil_r. } { done. }
  cbn [length app] in *. rewrite app_nil_r in *. rewrite S1, S6, S8 in Hrun.
  set (r := copy_loop _ _ _ _ _ _ _) in *. rewrite length_drop in Hj. rewrite Nat.add_0_l in *.
  assert (take n (items l0) ++ take j (drop n (items l0)) = take (n + j) (items l0)) as Htk by apply take_take_drop.
  rewrite Htk in Hg, Hp. exists j. injection Hrun as <- <-. rewrite Hc.
  assert (length (take j (drop n (items l0))) = j) as Hlen by (rewrite length_take, length_drop; lia). rewrite Hlen.
  splits; [|done|done|by apply Hsp|].
  - split; cbn; try done.
    + split; [done|lia].
    + rewrite orb_true_iff. intros [Hd|Hd].
      * destruct (S9 Hd) as [Hi|Hx]; [by left|right].
        assert (bs' = 0) as Hb0.
        { subst bs'. rewrite Hd. destruct first; [|done]. cbn.
          destruct (isInGracePeriod l1) eqn:Hgp; [|done]. destruct (Hgr eq_refl) as [-> _].
          destruct Hx as (tx & _ & Hx). destruct Hx. intros [H0 _]. by cbn in H0. }
        assert (j = 0%nat) as -> by lia. by rewrite Nat.add_0_r.
      * right. destruct (Hga Hd) as (tx & Htx & Hnf). exists tx. rewrite lookup_drop in Htx. by rewrite <- Hp.
    + intros [Hd _]%orb_false_iff. by apply S10.
    + intros Hi. destruct (S11 Hi) as [Hn1 Hn2].
      assert (copyDetectedGap l1 = true) as Hd by (destruct (copyDetectedGap l1); [done|]; by rewrite S10 in Hi).
      subst bs'. rewrite Hd in Hbs. destruct (first && isInGracePeriod l1) eqn:Hf.
      * apply andb_true_iff in Hf as [-> Hgp]. destruct (Hgr eq_refl) as [-> Hgr']. split; [lia|]. intros _. by apply Hgr'.
      * assert (j = 0%nat) as -> by lia. rewrite Nat.add_0_r. done.
  - intros -> Hsp0 Hbw Hbs0. unfold exhausted. rewrite Nat.add_0_r in *.
    destruct (copyDetectedGap l1) eqn:Hd.
    + destruct (S9 eq_refl) as [Hi|Hx]; auto.
    + destruct (cr_gap r) eqn:Hgp.
      * right. right. destruct (Hga eq_refl) as (tx & Htx & Hnf). exists tx. rewrite lookup_drop, Nat.add_0_r in Htx. by rewrite <- Hp.
      * destruct (Hst eq_refl) as [H|[H|[H|[H|H]]]]; [|subst bs'; cbn in H; lia..|lia]. right. left. rewrite length_drop in H. lia.
Qed.

(** ** Passes over the senders *)

Section passes.
Context {SC : scoreComputer}.
Variable c0 : TxCache.
Variable snap : list nat.
Abbreviation m0 := (txListBySender c0).

(** What the result holds of the transactions of one list. *)
Definition picked (p : nat) (result : list WrappedTransaction) : list WrappedTransaction :=
  filter (fun tx => tx_GetSender (Tx tx) = sender (deref p m0)) result.

Hypothesis snap_heap : forall p, p ∈ snap -> (p < length (lists m0))%nat.
Hypothesis snap_senders : forall p q, p ∈ snap -> q ∈ snap -> sender (deref p m0) = sender (deref q m0) -> p = q.
Hypothesis snap_items : forall p tx, p ∈ snap -> tx ∈ items (deref p m0) -> tx_GetSender (Tx tx) = sender (deref p m0).

(** The lists in [vis] were visited by this selection. *)
Record sel_inv (vis : list nat) (c : TxCache) (result : list WrappedTransaction) : Prop := {
  si_hash : txByHash c = txByHash c0;
  si_config : config c = config c0;
  si_backing : backingMap (txListBySender c) = backingMap m0;
  si_counter : sender_counter (txListBySender c) = sender_counter m0;
  si_length : length (lists (txListBySender c)) = length (lists m0);
  si_vis : forall p, p ∈ vis -> p ∈ snap /\ exists n, sel_state (deref p m0) (deref p (txListBySender c)) n /\
    picked p result = take n (items (deref p m0));
  si_new : forall p, p ∉ vis -> deref p (txListBySender c) = deref p m0 /\ (p ∈ snap -> picked p result = []);
  si_result : forall tx, tx ∈ result -> exists p, p ∈ vis /\ tx ∈ items (deref p m0);
  si_sweeping : forall q, q ∈ sweepingListOfSenders c -> q ∈ sweepingListOfSenders c0 \/ q ∈ vis;
}.

Lemma collect_fields p c :
  txByHash (collectSweepable p c) = txByHash c /\ config (collectSweepable p c) = config c /\
  txListBySender (collectSweepable p c) = txListBySender c /\
  (forall q, q ∈ sweepingListOfSenders (collectSweepable p c) -> q ∈ sweepingListOfSenders c \/ q = p).
Proof.
  unfold collectSweepable. destruct (sweepable _); [|by splits; auto]. splits; try done. cbn. intros q.
  rewrite elem_of_app, list_elem_of_singleton. tauto.
Qed.

Lemma picked_app p r1 r2 : picked p (r1 ++ r2) = picked p r1 ++ picked p r2.
Proof. unfold picked. by rewrite filter_app. Qed.

Lemma picked_own p ts : p ∈ snap -> (forall tx, tx ∈ ts -> tx ∈ items (deref p m0)) -> picked p ts = ts.
Proof.
  intros Hp Hts. unfold picked. induction ts as [|tx ts IH]; [done|]. rewrite filter_cons, decide_True.
  - rewrite IH; [done|]. intros t Ht. apply Hts. by right.
  - apply snap_items; [done|]. apply Hts. by left.
Qed.

Lemma picked_other p q ts : p ∈ snap -> q ∈ snap -> p <> q ->
  (forall tx, tx ∈ ts -> tx ∈ items (deref p m0)) -> picked q ts = [].
Proof.
  intros Hp Hq Hne Hts. unfold picked. induction ts as [|tx ts IH]; [done|]. rewrite filter_cons, decide_False.
  - rewrite IH; [done|]. intros t Ht. apply Hts. by right.
  - intros He. apply Hne, snap_senders; [done|done|]. rewrite <- He. symmetry. apply snap_items; [done|]. apply Hts. by left.
Qed.

Lemma elem_of_take_drop {A} (x : A) j n l : x ∈ take j (drop n l) -> x ∈ l.
Proof. intros (i & Hi & _)%elem_of_take. rewrite lookup_drop in Hi. by eapply list_elem_of_lookup_2. Qed.

(** One batch of one sender. *)
Lemma select_step (first : bool) sel p vis c result l copied :
  sel_inv vis c result -> p ∈ snap -> (if first then p ∉ vis else p ∈ vis) ->
  Z.of_nat (length result) <= numRequested sel ->
  let m := txListBySender c in
  selectBatchTo first (numRequested sel - Z.of_nat (length result)) (batch_size sel (deref p m))
    (bandwidthPerSender sel) (deref p m) = (l, copied) ->
  let c1 := with_bySender (set_list p l m) c in
  let c2 := if first then collectSweepable p c1 else c1 in
  sel_inv (if first then p :: vis else vis) c2 (result ++ copied) /\
  Z.of_nat (length (result ++ copied)) <= numRequested sel /\
  (copied = [] -> Z.of_nat (length result) < numRequested sel -> 0 < bandwidthPerSender sel ->
    batch_size sel (deref p m0) <> 0 -> exhausted (deref p m0) (length (picked p result))).
Proof.
  intros Hi Hp Hv Hlen m Hrun c1 c2. set (l0 := deref p m0).
  assert (exists n, (if first then deref p m = l0 /\ n = 0%nat else sel_state l0 (deref p m) n) /\
            picked p result = take n (items l0) /\ (n <= length (items l0))%nat) as (n & Hn & Hpick & Hnl).
  { destruct first.
    - destruct (si_new _ _ _ Hi p Hv) as [He Hpk]. exists 0%nat. split; [by split|]. split; [by apply Hpk|lia].
    - destruct (si_vis _ _ _ Hi p Hv) as (_ & n & Hs & Hpk). exists n. split; [done|]. split; [done|]. by destruct Hs as [_ _ _ _ _ [_ ?]]. }
  assert (batch_size sel (deref p m) = batch_size sel l0) as Hbs.
  { unfold batch_size. destruct first; [by destruct Hn as [-> _]|]. by rewrite (ss_score _ _ _ Hn). }
  assert (0 <= numRequested sel - Z.of_nat (length result)) as Hspace by lia.
  destruct (selectBatchTo_spec first _ _ _ l0 _ n _ _ Hn Hspace Hrun) as (j & Hs & Hc & Hj & Hsp & Hex).
  rewrite Hbs in Hex. clear Hrun Hbs.
  assert (forall tx, tx ∈ copied -> tx ∈ items l0) as Hown by (rewrite Hc; intros tx; apply elem_of_take_drop).
  assert (forall q, deref q (set_list p l m) = if decide (p = q) then l else deref q m) as Hd.
  { intros q. apply deref_set. unfold m. rewrite (si_length _ _ _ Hi). by apply snap_heap. }
  assert (txByHash c2 = txByHash c /\ config c2 = config c /\ txListBySender c2 = set_list p l m /\
    (forall q, q ∈ sweepingListOfSenders c2 -> q ∈ sweepingListOfSenders c \/ (first = true /\ q = p))) as (E1 & E2 & E3 & E4).
  { subst c2. destruct first; [|split; [reflexivity|]; split; [reflexivity|]; split; [reflexivity|]; intros q Hq; left; exact Hq].
    destruct (collect_fields p c1) as (F1 & F2 & F3 & F4).
    rewrite F1, F2, F3. split; [reflexivity|]. split; [reflexivity|]. split; [reflexivity|]. intros q [Hq|Hq]%F4; [left; exact Hq|right; split; [reflexivity|exact Hq]]. }
  clearbody c2. splits.
  - split.
    + by rewrite E1, (si_hash _ _ _ Hi).
    + by rewrite E2, (si_config _ _ _ Hi).
    + by rewrite E3, <- (si_backing _ _ _ Hi).
    + by rewrite E3, <- (si_counter _ _ _ Hi).
    + rewrite E3. cbn. rewrite length_insert. apply (si_length _ _ _ Hi).
    + intros q Hq. rewrite E3, Hd, picked_app. destruct (decide (p = q)) as [<-|Hne].
      * split; [done|]. exists (n + j)%nat. split; [done|]. rewrite Hpick, picked_own, Hc by done. apply take_take_drop.
      * assert (q ∈ vis) as Hqv by (destruct first; [by apply elem_of_cons in Hq as [->|?]|done]).
        destruct (si_vis _ _ _ Hi q Hqv) as (Hqs & n' & Hs' & Hpk). split; [done|]. exists n'. split; [done|].
        rewrite Hpk, (picked_other p q), app_nil_r by done. done.
    + intros q Hq. assert (q <> p /\ q ∉ vis) as [Hne Hqv].
      { destruct first; [by apply not_elem_of_cons in Hq|]. split; [by intros ->|done]. }
      rewrite E3, Hd, decide_False by done. destruct (si_new _ _ _ Hi q Hqv) as [He Hpk]. split; [done|].
      intros Hqs. rewrite picked_app, Hpk, (picked_other p q) by done. done.
    + intros tx [Ht|Ht]%elem_of_app.
      * destruct (si_result _ _ _ Hi tx Ht) as (q & Hq & Hin). exists q. split; [|done]. destruct first; [by right|done].
      * exists p. split; [destruct first; [by left|done]|by apply Hown].
    + intros q [Hq|[-> ->]]%E4; [|right; by left]. destruct (si_sweeping _ _ _ Hi q Hq); [by left|right].
      destruct first; [by right|done].
  - rewrite length_app, Hj. lia.
  - intros -> Hlt Hbw Hb. rewrite Hpick, length_take_le by done. apply Hex; [by destruct j|lia|done|done].
Qed.

(** One pass. *)
Lemma select_pass_spec (first : bool) sel todo vis c result cnt c' result' cnt' full :
  sel_inv vis c result -> (forall p, p ∈ todo -> p ∈ snap) -> NoDup todo ->
  (forall p, p ∈ todo -> if first then p ∉ vis else p ∈ vis) ->
  Z.of_nat (length result) <= numRequested sel ->
  select_pass sel first todo c result cnt = (c', (result', cnt', full)) ->
  exists vis' ext, sel_inv vis' c' result' /\ (forall p, p ∈ vis -> p ∈ vis') /\
    result' = result ++ ext /\ cnt' = cnt + Z.of_nat (length ext) /\ Z.of_nat (length result') <= numRequested sel /\
    (if full then Z.of_nat (length result') = numRequested sel
     else (forall p, p ∈ todo -> p ∈ vis') /\ (todo <> [] -> Z.of_nat (length result') <> numRequested sel) /\
          (ext = [] -> Z.of_nat (length result) < numRequested sel -> 0 < bandwidthPerSender sel ->
           forall p, p ∈ todo -> batch_size sel (deref p m0) <> 0 -> exhausted (deref p m0) (length (picked p result)))).
Proof.
  revert vis c result cnt. induction todo as [|p todo IH]; intros vis c result cnt Hi Hsn Hnd Hv Hlen Hrun; cbn [select_pass] in Hrun.
  { injection Hrun as <- <- <- <-. exists vis, []. rewrite app_nil_r. cbn. splits; [done|done|done|lia|done| |done|];
      [intros p Hp|intros _ _ _ p Hp]; by apply not_elem_of_nil in Hp. }
  destruct (selectBatchTo _ _ _ _ _) as [l copied] eqn:Hsel.
  destruct (select_step first sel p vis c result l copied Hi) as (Hi1 & Hlen1 & Hex); [apply Hsn; by left|apply Hv; by left|done|done|].
  apply NoDup_cons in Hnd as [Hp Hnd].
  set (c2 := if first then _ else _) in *. clearbody c2. set (vis1 := if first then p :: vis else vis) in *.
  assert (forall q, q ∈ vis -> q ∈ vis1) as Hsub by (subst vis1; destruct first; [by right|done]).
  assert (p ∈ vis1) as Hpv by (subst vis1; destruct first; [by left|apply (Hv p); by left]).
  destruct (_ =? _) eqn:Hfull; zify_bools.
  { injection Hrun as <- <- <- <-. by exists vis1, copied. }
  destruct (IH vis1 c2 (result ++ copied) (cnt + Z.of_nat (length copied))) as (vis' & ext & H1 & H2 & H3 & H4 & H5 & H6); [done| |done| |done|done|].
  { intros q Hq. apply Hsn. by right. }
  { intros q Hq. specialize (Hv q (proj2 (elem_of_cons _ _ _) (or_intror Hq))). subst vis1. destruct first; [|done].
    apply not_elem_of_cons. split; [by intros ->|done]. }
  exists vis', (copied ++ ext). rewrite app_assoc, length_app. splits; [done|intros q Hq; by apply H2, Hsub|done|lia|done|].
  destruct full; [done|]. destruct H6 as (H6 & Hne & H7). splits.
  - intros q [->|Hq]%elem_of_cons; [by apply H2|by apply H6].
  - intros _. destruct todo as [|q todo]; [|by apply Hne]. cbn [select_pass] in Hrun. by injection Hrun as <- <- _.
  - intros [-> ->]%app_nil Hlt Hbw q Hq Hb. rewrite app_nil_r in *.
    apply elem_of_cons in Hq as [->|Hq]; [by apply Hex|by apply H7].
Qed.

(** All passes: with as many rounds as transactions are missing, plus one, the
    selection ends because the result is full or nothing more can be taken. *)
Lemma select_passes_spec fuel (first : bool) sel vis c result :
  sel_inv vis c result -> NoDup snap -> (if first then vis = [] else forall p, p ∈ snap -> p ∈ vis) ->
  Z.of_nat (length result) <= numRequested sel ->
  (first = false -> Z.of_nat (length result) < numRequested sel) ->
  (numRequested sel < Z.of_nat (fuel + length result)) ->
  let '(c', result') := select_passes fuel sel first snap c result in
  exists vis', sel_inv vis' c' result' /\ Z.of_nat (length result') <= numRequested sel /\
    (Z.of_nat (length result') = numRequested sel \/
     (0 < bandwidthPerSender sel -> forall p, p ∈ snap -> batch_size sel (deref p m0) <> 0 ->
      exhausted (deref p m0) (length (picked p result')))).
Proof.
  revert first vis c result. induction fuel as [|fuel IH]; intros first vis c result Hi Hnd Hv Hlen Hnf Hfuel; [lia|].
  cbn [select_passes]. destruct (select_pass _ _ _ _ _ _) as [c1 [[result1 cnt1] full]] eqn:Hrun.
  assert (snap = [] -> cnt1 = 0) as Hnil by (intros Hs; rewrite Hs in Hrun; by injection Hrun as _ _ <- _).
  assert (forall p, p ∈ snap -> if first then p ∉ vis else p ∈ vis) as Hv'.
  { destruct first; [|done]. subst vis. intros p _. apply not_elem_of_nil. }
  destruct (select_pass_spec first sel snap vis c result 0 c1 result1 cnt1 full Hi (fun p Hp => Hp) Hnd Hv' Hlen Hrun)
    as (vis1 & ext & H1 & H2 & -> & -> & H5 & H6). clear Hrun.
  destruct (_ =? 0) eqn:Hz; zify_bools.
  { assert (ext = []) as -> by (apply length_zero_iff_nil; lia). rewrite app_nil_r in *. exists vis1. split; [done|].
    split; [done|]. destruct full; [by left|]. destruct (Z.eq_dec (Z.of_nat (length result)) (numRequested sel)) as [He|Hne]; [by left|right].
    intros Hbw p Hp Hb. destruct H6 as (_ & _ & H6). apply H6; [done|lia|done|done|done]. }
  destruct full; [exists vis1; split; [done|]; split; [done|]; by left|]. destruct H6 as (H6 & Hne & _).
  assert (Z.of_nat (length (result ++ ext)) <> numRequested sel) as Hn.
  { apply Hne. intros Hs. apply Hz, Hnil, Hs. }
  apply (IH false vis1); [done|done|done|done|intros _; lia|]. rewrite length_app. lia.
Qed.
End passes.
