(* ===== verification/TxPool.v ===== *)
(** * The transaction pool over time

    Series of operations on a pool, and the two theorems on them: the indexes
    agree, and a selection takes from every sender a run of transactions without
    nonce gaps, as many as it may.  At the end, runs on which the theorems are
    applied. *)

From S2P Require Import Prelude TxList TxCache TxCacheInv TxCacheProps TxSelect.

(** ** Snapshots of the senders *)

Lemma NoDup_concat_tag {A} (tag : A -> nat) off (ls : list (list A)) :
  (forall i l, ls !! i = Some l -> NoDup l /\ forall x, x ∈ l -> tag x = (off + i)%nat) -> NoDup (concat ls).
Proof.
  revert off. induction ls as [|l ls IH]; intros off H; cbn; [constructor|].
  destruct (H 0%nat l eq_refl) as [Hn Ht]. apply NoDup_app. split; [done|]. split.
  - intros x Hx (l' & Hl' & Hx')%elem_of_concat. apply list_elem_of_lookup in Hl' as [i Hi].
    destruct (H (S i) l' Hi) as [_ Ht']. pose proof (Ht x Hx). pose proof (Ht' x Hx'). lia.
  - apply (IH (S off)). intros i l' Hi. destruct (H (S i) l' Hi) as [Hn' Ht']. split; [done|]. intros x Hx. rewrite (Ht' x Hx). lia.
Qed.

Section pool.
Context {SC : scoreComputer} {SL : ScoreLaws}.
Variable preimage : string -> TransactionHandler * Z.
Variable range_values : gmap string nat -> list nat.
Hypothesis range_values_all : forall m, range_values m ≡ₚ (map_to_list m).*2.

Abbreviation pool := (pool preimage).
Abbreviation good := (good preimage).

Lemma range_values_elem m p : p ∈ range_values m <-> exists k, m !! k = Some p.
Proof.
  rewrite range_values_all, list_elem_of_fmap. split.
  - intros ([k q] & -> & Hin). exists k. by apply elem_of_map_to_list.
  - intros [k Hk]. exists (k, p). split; [done|]. by apply elem_of_map_to_list.
Qed.

Lemma snapshot_descending_live m sm p :
  senders_ok preimage m sm -> scored_but None m sm ->
  (p ∈ GetSnapshotDescending range_values (backingMap m) <-> exists k, sm !! k = Some p).
Proof.
  intros Hok Hs. unfold GetSnapshotDescending. rewrite elem_of_concat. split.
  - intros (vs & (ch & -> & Hch)%list_elem_of_fmap & Hin). rewrite elem_of_reverse in Hch.
    apply list_elem_of_lookup in Hch as [i Hi]. apply range_values_elem in Hin as [k Hk]. exists k. by eapply chunk_live.
  - intros [k Hk]. destruct (Hs k p Hk) as [i Hi]; [done|].
    assert (in_chunk i k (backingMap m) = Some p) as Hin by (by apply (so_score _ _ _ Hok)).
    unfold in_chunk in Hin. apply bind_Some in Hin as (ch & Hch & Hin). exists (range_values ch). split.
    + apply list_elem_of_fmap_2. rewrite elem_of_reverse. by eapply list_elem_of_lookup_2.
    + apply range_values_elem. by exists k.
Qed.

Lemma snapshot_descending_nodup m sm : senders_ok preimage m sm -> NoDup (GetSnapshotDescending range_values (backingMap m)).
Proof.
  intros Hok. unfold GetSnapshotDescending.
  assert (concat (range_values <$> reverse (scoreChunks (backingMap m))) ≡ₚ
          concat (range_values <$> scoreChunks (backingMap m))) as ->.
  { induction (scoreChunks (backingMap m)) as [|ch cs IH]; [done|].
    rewrite reverse_cons, fmap_app, concat_app, IH. cbn. by rewrite app_nil_r, Permutation_app_comm. }
  apply (NoDup_concat_tag (fun p => from_option snd 0%nat (scoreChunk (deref p m))) 0). intros i vs Hi.
  rewrite list_lookup_fmap in Hi. apply fmap_Some in Hi as (ch & Hch & ->).
  assert (forall k p, ch !! k = Some p -> sm !! k = Some p /\ scoreChunk (deref p m) = Some (generation (backingMap m), i)) as Hin.
  { intros k p Hk. apply (so_score _ _ _ Hok). unfold in_chunk. by rewrite Hch. }
  split.
  - rewrite range_values_all. apply NoDup_fmap_2_strong; [|apply NoDup_map_to_list].
    intros [k1 p] [k2 p2] H1%elem_of_map_to_list H2%elem_of_map_to_list. cbn. intros ->. f_equal.
    eapply so_inj; [done|by apply Hin|by apply Hin].
  - intros p Hp. apply range_values_elem in Hp as [k Hk]. by destruct (Hin k p Hk) as [_ ->].
Qed.

(** ** A selection leaves the pool's transactions *)

Lemma sel_inv_items c0 snap vis c result p : sel_inv c0 snap vis c result ->
  let l0 := deref p (txListBySender c0) in let l := deref p (txListBySender c) in
  items l = items l0 /\ sender l = sender l0 /\ scoreChunk l = scoreChunk l0 /\
  totalBytes l = totalBytes l0 /\ totalFees l = totalFees l0.
Proof.
  intros Hi. cbn zeta. destruct (decide (p ∈ vis)) as [Hp|Hp].
  - destruct (si_vis _ _ _ _ _ Hi p Hp) as (_ & n & [S1 S2 S3 [S4 S4'] _ _ _ _ _ _ _] & _). done.
  - by destruct (si_new _ _ _ _ _ Hi p Hp) as [-> _].
Qed.

Lemma sel_inv_pool c0 snap vis c result sm hm :
  pool c0 sm hm -> (forall p, p ∈ snap -> p < length (lists (txListBySender c0)))%nat -> sel_inv c0 snap vis c result ->
  pool c sm hm /\ (forall k, hashes_at (txListBySender c) sm k = hashes_at (txListBySender c0) sm k).
Proof.
  intros Hp Hlt Hi. destruct (po_senders _ _ _ _ Hp) as [A1 A2 A3 A4 A5 A6 A7].
  assert (forall k, hashes_at (txListBySender c) sm k = hashes_at (txListBySender c0) sm k) as Hh.
  { intros k. unfold hashes_at. destruct (sm !! k) as [p|]; [|done]. unfold getTxHashes.
    destruct (sel_inv_items _ _ _ _ _ p Hi) as [-> _]. done. }
  assert (forall p l, lists (txListBySender c) !! p = Some l -> exists l0, lists (txListBySender c0) !! p = Some l0 /\
            deref p (txListBySender c) = l /\ deref p (txListBySender c0) = l0) as Hlook.
  { intros p l Hl. destruct (lookup_lt_is_Some_2 (lists (txListBySender c0)) p) as [l0 Hl0].
    - rewrite <- (si_length _ _ _ _ _ Hi). by eapply lookup_lt_Some.
    - exists l0. split; [done|]. split; by apply deref_lookup. }
  split; [|done]. split.
  - split; rewrite ?(si_backing _ _ _ _ _ Hi), ?(si_counter _ _ _ _ _ Hi); try done.
    + intros k p Hk. destruct (A2 k p Hk) as (l0 & Hl0 & Hs). destruct (lookup_lt_is_Some_2 (lists (txListBySender c)) p) as [l Hl].
      { rewrite (si_length _ _ _ _ _ Hi). by eapply lookup_lt_Some. }
      exists l. split; [done|]. rewrite <- Hs, <- (deref_lookup _ _ _ Hl), <- (deref_lookup _ _ _ Hl0).
      by destruct (sel_inv_items _ _ _ _ _ p Hi) as (_ & -> & _).
    + intros i k p. rewrite A3. by destruct (sel_inv_items _ _ _ _ _ p Hi) as (_ & _ & -> & _).
    + intros p l Hl. destruct (Hlook p l Hl) as (l0 & Hl0 & <- & He). specialize (A7 p l0 Hl0). rewrite <- He in A7.
      destruct (sel_inv_items _ _ _ _ _ p Hi) as (E1 & E2 & _ & E4 & E5). destruct A7. split; by rewrite ?E1, ?E2, ?E4, ?E5.
  - intros k p Hk Hb. rewrite (si_backing _ _ _ _ _ Hi). destruct (sel_inv_items _ _ _ _ _ p Hi) as (_ & _ & -> & _).
    by apply (po_scored _ _ _ _ Hp k p).
  - rewrite (si_hash _ _ _ _ _ Hi). by eapply po_hash.
  - intros k h. rewrite Hh. by eapply po_listed.
  - intros p [Hs|Hv]%(si_sweeping _ _ _ _ _ Hi); rewrite (si_length _ _ _ _ _ Hi); [by eapply po_sweeping|].
    apply Hlt. by apply (si_vis _ _ _ _ _ Hi).
Qed.

(** What a selection from a consistent pool does. *)
Lemma select_spec sel c sm hm :
  pool c sm hm -> 0 <= numRequested sel ->
  let snap := GetSnapshotDescending range_values (backingMap (txListBySender c)) in
  let '(c', result) := doSelectTransactions range_values sel c in
  exists vis, sel_inv c snap vis c' result /\ Z.of_nat (length result) <= numRequested sel /\
    (Z.of_nat (length result) = numRequested sel \/
     (0 < bandwidthPerSender sel -> forall p, p ∈ snap -> batch_size sel (deref p (txListBySender c)) <> 0 ->
      exhausted (deref p (txListBySender c)) (length (picked c p result)))) /\
    (forall p, p ∈ snap <-> exists k, sm !! k = Some p).
Proof.
  intros Hp Hn snap. pose proof (po_senders _ _ _ _ Hp) as Hok. unfold doSelectTransactions. fold snap.
  assert (forall p, p ∈ snap <-> exists k, sm !! k = Some p) as Hlive.
  { intros p. apply snapshot_descending_live; [done|by eapply po_scored]. }
  destruct (live_fresh preimage _ sm snap Hok) as [Hfr Hlt]; [intros p; apply Hlive|].
  assert (forall p q, p ∈ snap -> q ∈ snap -> sender (deref p (txListBySender c)) = sender (deref q (txListBySender c)) -> p = q) as Hinj.
  { intros p q [k Hk]%Hlive Hq He. destruct (so_deref _ _ _ _ _ Hok Hk) as (_ & Hs & _). apply (Hfr q p Hq). by rewrite <- He, Hs. }
  assert (forall p tx, p ∈ snap -> tx ∈ items (deref p (txListBySender c)) -> tx_GetSender (Tx tx) = sender (deref p (txListBySender c))) as Hit.
  { intros p tx [k Hk]%Hlive. destruct (so_deref _ _ _ _ _ Hok Hk) as (_ & _ & Hl). by apply (lo_items _ _ Hl). }
  assert (sel_inv c snap [] c []) as Hi.
  { split; try done; try (intros x Hx; by apply not_elem_of_nil in Hx). intros q Hq. by left. }
  pose proof (select_passes_spec c snap Hlt Hinj Hit (S (Z.to_nat (numRequested sel))) true sel [] c [] Hi
                (snapshot_descending_nodup _ _ Hok) eq_refl ltac:(cbn; lia) ltac:(done) ltac:(cbn; lia)) as Hspec.
  destruct (select_passes _ _ _ _ _ _) as [c' result]. destruct Hspec as (vis & H1 & H2 & H3). by exists vis.
Qed.

(** ** Series of operations *)

Inductive pool_op : Type :=
| OpAdd (now : Z) (tx : WrappedTransaction)
| OpRemove (txHash : string)
| OpRemoveLower (sender : string) (nonce : Z)
| OpNotify (sender : string) (nonce : Z)
| OpExpire (now : Z)
| OpClear
| OpSelect (sel : selection) (sweep : bool) (* whether the sweep runs at once *)
| OpSweep.

Definition run_op (c : TxCache) (op : pool_op) : TxCache :=
  match op with
  | OpAdd now tx => (TxCache_AddTx now tx c).1
  | OpRemove h => (RemoveTxByHash h c).1
  | OpRemoveLower s n => (RemoveTxBySenderNonce s n c).1
  | OpNotify s n => NotifyAccountNonce s n c
  | OpExpire now => cleanExpiredTransactions now c
  | OpClear => Clear c
  | OpSelect sel sweep =>
      let c := (doSelectTransactions range_values sel c).1 in if sweep then sweepSweepable c else c
  | OpSweep => sweepSweepable c
  end.
Definition run_ops (ops : list pool_op) (c : TxCache) : TxCache := foldl run_op c ops.

(** The transactions that are added are those their hashes belong to. *)
Definition op_ok (op : pool_op) : Prop :=
  match op with
  | OpAdd _ tx => coherent preimage tx
  | OpSelect sel _ => 0 <= numRequested sel
  | _ => True
  end.

(** No sweep waits while other operations run. *)
Definition sweeps_at_once (op : pool_op) : Prop :=
  match op with OpSelect _ false => False | OpSweep => False | _ => True end.
Definition is_clear (op : pool_op) : bool := match op with OpClear => true | _ => false end.

Lemma sweep_good exact c : good false exact c -> good false exact (sweepSweepable c).
Proof.
  intros (sm & hm & Hp & _ & He). unfold sweepSweepable. destruct (sweepingListOfSenders c) as [|p ps] eqn:Hs; [by exists sm, hm|].
  destruct (evict_spec preimage (p :: ps) c sm hm Hp) as (ks & hs & Hp' & _ & Hb & _).
  { rewrite <- Hs. by eapply po_sweeping. }
  exists (delete_all ks sm), (delete_all hs hm). split; [|split; [done|auto]].
  destruct Hp' as [P1 P2 P3 P4 P5]. split; [done..|]. cbn. intros q Hq. by apply not_elem_of_nil in Hq.
Qed.

Lemma select_good full exact sel c :
  0 <= numRequested sel -> good full exact c ->
  let c' := (doSelectTransactions range_values sel c).1 in
  good false exact c' /\ (good full exact (sweepSweepable c')).
Proof.
  intros Hn (sm & hm & Hp & Hf & He). cbn zeta. pose proof (select_spec sel c sm hm Hp Hn) as Hs. cbn zeta in Hs.
  set (snap := GetSnapshotDescending _ _) in Hs. destruct (doSelectTransactions range_values sel c) as [c' result].
  destruct Hs as (vis & Hi & _ & _ & Hlive). cbn [fst].
  destruct (live_fresh preimage _ sm snap (po_senders _ _ _ _ Hp)) as [Hfr Hlt]; [intros p; apply Hlive|].
  destruct (sel_inv_pool _ _ _ _ _ _ _ Hp Hlt Hi) as [Hp' Hh].
  assert (good false exact c') as Hg'.
  { exists sm, hm. split; [done|]. split; [done|]. by rewrite (si_hash _ _ _ _ _ Hi). }
  split; [done|]. destruct full; [|by apply sweep_good]. destruct (Hf eq_refl) as [Hc Hsw].
  assert (complete preimage c' sm hm) as Hc'.
  { intros h Hin. rewrite Hh. by apply Hc. }
  unfold sweepSweepable. destruct (sweepingListOfSenders c') as [|p ps] eqn:Hs'.
  { exists sm, hm. split; [done|]. split; [done|]. by rewrite (si_hash _ _ _ _ _ Hi). }
  destruct (evict_spec preimage (p :: ps) c' sm hm Hp') as (ks & hs & Hp2 & Hc2 & Hb & _).
  { rewrite <- Hs'. by eapply po_sweeping. }
  exists (delete_all ks sm), (delete_all hs hm). split; [|split].
  - destruct Hp2 as [P1 P2 P3 P4 P5]. split; [done..|]. cbn. intros q Hq. by apply not_elem_of_nil in Hq.
  - intros _. split; [|done]. apply Hc2; [|done]. intros q q' Hq Hq'.
    assert (q ∈ snap) as Hqs.
    { rewrite <- Hs' in Hq. apply (si_sweeping _ _ _ _ _ Hi) in Hq as [Hq|Hq]; [rewrite Hsw in Hq; by apply not_elem_of_nil in Hq|].
      by apply (si_vis _ _ _ _ _ Hi). }
    apply (Hfr q q' Hqs). by destruct (sel_inv_items _ _ _ _ _ q Hi) as (_ & <- & _).
  - intros Hex. apply Hb. rewrite (si_hash _ _ _ _ _ Hi). auto.
Qed.

Lemma good_weaken full exact c : good full exact c -> good false exact c.
Proof. intros (sm & hm & Hp & _ & He). by exists sm, hm. Qed.

Lemma run_op_good full exact op c :
  op_ok op -> good full exact c -> (full = true -> sweeps_at_once op) ->
  good full (exact && negb (is_clear op)) (run_op c op).
Proof.
  intros Hop Hg Hs. rewrite andb_comm. destruct op; cbn [is_clear negb andb run_op].
  - by apply AddTx_good.
  - by apply RemoveTxByHash_good.
  - by apply RemoveTxBySenderNonce_good.
  - by apply Notify_good.
  - by apply clean_good.
  - by eapply Clear_good.
  - destruct (select_good full exact sel c Hop Hg) as [H1 H2]. destruct sweep; [done|]. destruct full; [by destruct (Hs eq_refl)|done].
  - destruct full; [by destruct (Hs eq_refl)|]. by apply sweep_good.
Qed.

Lemma run_ops_good full exact ops c :
  Forall op_ok ops -> good full exact c -> (full = true -> Forall sweeps_at_once ops) ->
  good full (exact && negb (existsb is_clear ops)) (run_ops ops c).
Proof.
  revert exact c. induction ops as [|op ops IH]; intros exact c Hok Hg Hs; cbn.
  { by rewrite andb_true_r. }
  apply Forall_cons in Hok as [Hop Hok]. rewrite negb_orb, andb_assoc. apply IH; [done| |intros Hf; by apply Forall_cons in Hs as [_ ?]].
  apply run_op_good; [done|done|]. intros Hf. by apply Forall_cons in Hs as [? _].
Qed.

Lemma new_pool_good cfg c : NewTxCache cfg = Some c -> good true true c.
Proof.
  unfold NewTxCache. destruct (verify cfg) eqn:Hv; [|done]. intros [= <-]. exists ∅, ∅.
  assert (0 <= NumChunks cfg) as Hn.
  { unfold verify in Hv. repeat (apply andb_true_iff in Hv as [Hv ?]). zify_bools. lia. }
  split; [|split; [|done]].
  - split; cbn.
    + split; cbn; [by apply new_represents|done| |done|done|done|].
      * intros i k p. rewrite lookup_empty. split; [|by intros []]. unfold in_chunk. cbn.
        intros (ch & Hch & Hk)%bind_Some. apply lookup_replicate in Hch as [-> _]. by rewrite lookup_empty in Hk.
      * intros p l Hl. by rewrite lookup_nil in Hl.
    + intros k p Hp. by rewrite lookup_empty in Hp.
    + split; cbn; [by apply new_represents| |done]. intros k tx Hk. by rewrite lookup_empty in Hk.
    + intros k h Hin. by apply not_elem_of_nil in Hin.
    + intros p Hp. by apply not_elem_of_nil in Hp.
  - intros _. split; [|done]. intros h Hh. rewrite lookup_empty in Hh. by destruct Hh.
Qed.

(** ** The theorems *)

(** The transactions of a sender. *)
Definition listed (k : string) (c : TxCache) : list WrappedTransaction :=
  match getListForSender k (txListBySender c) with
  | Some p => items (deref p (txListBySender c))
  | None => []
  end.

Lemma listed_spec c sm hm k : pool c sm hm ->
  StronglySorted before (listed k c) /\ NoDup (TxHash <$> listed k c) /\
  (forall tx, tx ∈ listed k c -> coherent preimage tx /\ tx_GetSender (Tx tx) = k) /\
  TxHash <$> listed k c = hashes_at (txListBySender c) sm k.
Proof.
  intros Hp. unfold listed, hashes_at. rewrite (getListForSender_spec preimage _ sm) by by eapply po_senders.
  destruct (sm !! k) as [p|] eqn:Hk.
  - destruct (so_deref _ _ _ _ _ (po_senders _ _ _ _ Hp) Hk) as (_ & <- & [S1 S2 S3 _ _]). done.
  - splits; [constructor|constructor| |done]. intros tx Htx. by apply not_elem_of_nil in Htx.
Qed.

(** C28: after any series of additions, removals, notifications, expiries,
    clears, selections and sweeps, one after another, the transactions of every sender are sorted by
    nonce and falling fee, without duplicates, and each is found by its hash; a
    transaction found by its hash is listed for its sender unless a sweep was
    delayed; the pool counts its transactions and, as long as it was not cleared,
    their bytes exactly. *)
Theorem pool_indexes_agree cfg c0 ops :
  NewTxCache cfg = Some c0 -> Forall op_ok ops ->
  let c := run_ops ops c0 in
  (forall k, StronglySorted before (listed k c) /\ NoDup (TxHash <$> listed k c)) /\
  (forall k tx, tx ∈ listed k c -> tx_GetSender (Tx tx) = k /\
     exists tx', GetByTxHash (TxHash tx) c = Some tx' /\ Tx tx' = Tx tx) /\
  (Forall sweeps_at_once ops -> forall h tx, GetByTxHash h c = Some tx -> h ∈ TxHash <$> listed (tx_GetSender (Tx tx)) c) /\
  exists txs : gmap string WrappedTransaction, (forall h, GetByTxHash h c = txs !! h) /\
    hash_counter (txByHash c) = wrap_i64 (Z.of_nat (size txs)) /\
    (existsb is_clear ops = false -> numBytes (txByHash c) = wrap_i64 (msum Size txs)).
Proof.
  intros Hnew Hok c. pose proof (new_pool_good _ _ Hnew) as Hg0.
  assert (good false (negb (existsb is_clear ops)) c) as (sm & hm & Hp & _ & He).
  { apply (run_ops_good false true ops c0 Hok); [by eapply good_weaken|done]. }
  pose proof (po_hash _ _ _ _ Hp) as [Hh1 Hh2 Hh3].
  assert (forall h, GetByTxHash h c = hm !! h) as Hget by (intros h; apply (rep_get _ _ Hh1)).
  splits.
  - intros k. by destruct (listed_spec c sm hm k Hp) as (H1 & H2 & _).
  - intros k tx Htx. destruct (listed_spec c sm hm k Hp) as (_ & _ & H3 & H4). destruct (H3 tx Htx) as [Hco Hs]. split; [done|].
    destruct (po_listed _ _ _ _ Hp k (TxHash tx)) as [tx' Htx']; [rewrite <- H4; by apply list_elem_of_fmap_2|].
    exists tx'. rewrite Hget. split; [done|]. destruct (Hh2 _ _ Htx') as [He' Hco']. by eapply coherent_same.
  - intros Hsw h tx Hget'. clear Hp Hh1 Hh2 Hh3 Hget He hm sm.
    destruct (run_ops_good true true ops c0 Hok Hg0 (fun _ => Hsw)) as (sm & hm & Hp & Hf & _).
    destruct (Hf eq_refl) as [Hc _]. pose proof (po_hash _ _ _ _ Hp) as [Hh1 Hh2 _].
    assert (hm !! h = Some tx) as Hh by (rewrite <- Hget'; symmetry; apply (rep_get _ _ Hh1)).
    destruct (Hh2 h tx Hh) as [He Hco]. fold c in Hp, Hc, Hh1.
    destruct (listed_spec c sm hm (tx_GetSender (Tx tx)) Hp) as (_ & _ & _ & ->).
    specialize (Hc h). unfold owner in Hc. unfold coherent in Hco. rewrite He in Hco. rewrite Hco in Hc. apply Hc. eauto.
  - exists hm. split; [done|]. split; [done|]. intros Hcl. apply He. by rewrite Hcl.
Qed.

(** C29: a selection from a pool in any reachable state ends with at most the
    requested number of transactions and leaves every list as it was; of each
    sender it takes a run from the start of the sorted list (at most one
    transaction when the first nonce is ahead of the account's), in which no
    nonce is missing between a transaction and the next except after a
    transaction of nonce 0, where the code does not look for a gap.  With a
    positive bandwidth per sender it stops short of the request only when each
    sender that starts without a gap, and whose batch size is not 0, has given
    its whole list or is at a gap after a positive nonce. *)
Theorem selection_takes_runs cfg c0 ops sel :
  NewTxCache cfg = Some c0 -> Forall op_ok ops -> 0 <= numRequested sel ->
  let c := run_ops ops c0 in
  let '(c', result) := doSelectTransactions range_values sel c in
  let mine k := filter (fun tx => tx_GetSender (Tx tx) = k) result in
  Z.of_nat (length result) <= numRequested sel /\
  (forall k, listed k c' = listed k c) /\
  (forall tx, tx ∈ result -> tx ∈ listed (tx_GetSender (Tx tx)) c) /\
  (forall k p, getListForSender k (txListBySender c) = Some p ->
     let l := deref p (txListBySender c) in
     mine k = take (length (mine k)) (listed k c) /\
     (forall i tx tx', mine k !! i = Some tx -> mine k !! S i = Some tx' -> 0 < nonce_of tx ->
        nonce_of tx' <= nonce_of tx + 1) /\
     (hasInitialGap l = true -> (length (mine k) <= 1)%nat) /\
     (Z.of_nat (length result) < numRequested sel -> 0 < bandwidthPerSender sel -> batch_size sel l <> 0 ->
      hasInitialGap l = false ->
      mine k = listed k c \/
      exists tx tx', last (mine k) = Some tx /\ listed k c !! length (mine k) = Some tx' /\
        0 < nonce_of tx /\ wrap_u64 (nonce_of tx + 1) < nonce_of tx')).
Proof.
  intros Hnew Hok Hn c. assert (good false (negb (existsb is_clear ops)) c) as (sm & hm & Hp & _ & _).
  { apply (run_ops_good false true ops c0 Hok); [eapply good_weaken; by apply (new_pool_good cfg)|done]. }
  clearbody c. pose proof (select_spec sel c sm hm Hp Hn) as Hs. cbn zeta in Hs.
  set (snap := GetSnapshotDescending _ _) in Hs. destruct (doSelectTransactions range_values sel c) as [c' result].
  destruct Hs as (vis & Hi & Hlen & Hend & Hlive). cbn zeta.
  pose proof (po_senders _ _ _ _ Hp) as Hso.
  assert (forall k, getListForSender k (txListBySender c) = sm !! k) as Hget by (intros k; by eapply getListForSender_spec).
  assert (forall k p, sm !! k = Some p -> listed k c = items (deref p (txListBySender c)) /\ sender (deref p (txListBySender c)) = k) as Hl.
  { intros k p Hk. unfold listed. rewrite Hget, Hk. by destruct (so_deref _ _ _ _ _ Hso Hk) as (_ & ? & _). }
  splits; [done| | |].
  - intros k. unfold listed, getListForSender, bsm_Get. rewrite (si_backing _ _ _ _ _ Hi).
    destruct (cm_Get _ _) as [p|]; [|done]. by destruct (sel_inv_items _ _ _ _ _ p Hi) as [-> _].
  - intros tx Htx. destruct (si_result _ _ _ _ _ Hi tx Htx) as (p & Hv & Hin).
    destruct (si_vis _ _ _ _ _ Hi p Hv) as [[k Hk]%Hlive _].
    destruct (so_deref _ _ _ _ _ Hso Hk) as (_ & Hs & Hlo). destruct (lo_items _ _ Hlo tx Hin) as [_ ->].
    by destruct (Hl _ _ Hk) as [Hlk ->]; rewrite Hlk.
  - intros k p Hk. rewrite Hget in Hk. destruct (Hl k p Hk) as [Hlk Hse]. rewrite Hlk.
    assert (filter (fun tx => tx_GetSender (Tx tx) = k) result = picked c p result) as ->.
    { unfold picked. by rewrite Hse. }
    assert (p ∈ snap) as Hps by (apply Hlive; eauto).
    assert (exists n, picked c p result = take n (items (deref p (txListBySender c))) /\ (n <= length (items (deref p (txListBySender c))))%nat /\
              gap_free (take n (items (deref p (txListBySender c)))) /\
              (hasInitialGap (deref p (txListBySender c)) = true -> (n <= 1)%nat)) as (n & Hpk & Hnl & Hgf & Hig).
    { destruct (decide (p ∈ vis)) as [Hv|Hv].
      - destruct (si_vis _ _ _ _ _ Hi p Hv) as (_ & n & [_ _ _ _ _ [_ S6] S7 _ _ _ S11] & Hpk). exists n. splits; try done. intros Hh. by apply S11.
      - destruct (si_new _ _ _ _ _ Hi p Hv) as [_ Hpk]. exists 0%nat. rewrite (Hpk Hps). splits; [done|apply Nat.le_0_l|apply gap_free_nil|intros _; apply Nat.le_0_l]. }
    assert (length (picked c p result) = n) as Hln by (rewrite Hpk, length_take_le; done).
    rewrite Hln. splits; [done|intros i tx tx'; rewrite Hpk; by apply gap_free_next|done|].
    intros Hlt Hbw Hbs Hno. destruct Hend as [Hend|Hend]; [lia|]. specialize (Hend Hbw p Hps Hbs). rewrite Hln in Hend.
    destruct Hend as [Hend|[Hend|Hend]]; [congruence| |right; rewrite Hpk; by apply gap_after_last].
    left. rewrite Hpk, Hend. apply take_ge. done.
Qed.
End pool.

#[local] Instance count_score : scoreComputer := fun ps => Z.min 99 (Z.max 0 (score_count ps)).
#[local] Instance count_score_laws : ScoreLaws.
Proof. intros ps. unfold computeScore, count_score. ints. lia. Qed.

Definition ex_tx (hash s : string) (nonce fee size : Z) : WrappedTransaction :=
  {| Tx := {| tx_GetSender := s; tx_GetNonce := nonce; tx_GetTotalFees := fee; tx_GetGasLimit := 0 |};
     TxHash := hash; Size := size; TxFeeScoreNormalized := 0; ExpireOn := 1000 |}.

Definition ex_txs : list WrappedTransaction :=
  [ex_tx "a1" "alice" 1 5 10; ex_tx "a2" "alice" 2 5 10; ex_tx "a2+" "alice" 2 9 10; ex_tx "a4" "alice" 4 5 10;
   ex_tx "b7" "bob" 7 5 10].

Definition ex_preimage (h : string) : TransactionHandler * Z :=
  match list_find (fun tx => TxHash tx = h) ex_txs with
  | Some (_, tx) => (Tx tx, Size tx)
  | None => (Tx (ex_tx "" "" 0 0 0), 0)
  end.

Definition ex_config : Config :=
  {| Name := "pool"; NumChunks := 4; EvictionEnabled := true; NumBytesThreshold := 1000;
     NumBytesPerSenderThreshold := 100; CountThreshold := 10; CountPerSenderThreshold := 5;
     NumSendersToPreemptivelyEvict := 1 |}.
Definition ex_new : TxCache :=
  default {| txListBySender := {| backingMap := NewBucketSortedMap 1 1; sender_counter := 0; lists := [] |};
             txByHash := {| hash_chunks := []; hash_counter := 0; numBytes := 0 |};
             config := ex_config; sweepingListOfSenders := [] |} (NewTxCache ex_config).
Definition ex_range (m : gmap string nat) : list nat := (map_to_list m).*2.
Definition ex_sel : selection := {| numRequested := 10; batchSizePerSender := 1; bandwidthPerSender := 100 |}.

Definition ex_ops : list pool_op :=
  (OpAdd 0 <$> ex_txs) ++ [OpNotify "bob" 7; OpSelect ex_sel true; OpRemove "b7"; OpExpire 10].

Lemma ex_ops_ok : Forall (op_ok ex_preimage) ex_ops.
Proof. repeat (constructor; [vm_compute; done|]). constructor. Qed.

Lemma pool_indexes_agree_witness :
  let c := run_ops ex_range ex_ops ex_new in
  TxHash <$> listed "alice" c = ["a1"; "a2+"; "a2"; "a4"] /\ StronglySorted before (listed "alice" c).
Proof.
  split; [reflexivity|].
  apply (pool_indexes_agree ex_preimage ex_range (fun m => reflexivity _) ex_config ex_new ex_ops eq_refl ex_ops_ok).
Defined.

(** Alice's fourth nonce is behind a gap. *)
Lemma selection_takes_runs_witness :
  let r := doSelectTransactions ex_range ex_sel (run_ops ex_range (OpAdd 0 <$> ex_txs) ex_new) in
  TxHash <$> r.2 = ["a1"; "a2+"; "a2"; "b7"] /\ Z.of_nat (length r.2) <= numRequested ex_sel.
Proof.
  split; [vm_compute; reflexivity|].
  assert (Forall (op_ok ex_preimage) (OpAdd 0 <$> ex_txs)) as Hok by (repeat (constructor; [vm_compute; done|]); constructor).
  pose proof (selection_takes_runs ex_preimage ex_range (fun m => reflexivity _) ex_config ex_new (OpAdd 0 <$> ex_txs) ex_sel
    eq_refl Hok ltac:(done)) as H.
  cbn zeta in H. destruct (doSelectTransactions _ _ _) as [c' result]. exact (proj1 H).
Defined.

(** After a transaction of nonce 0 the gap to nonce 5 is not seen: both are
    selected.  After nonce 1 the same gap is. *)
Example gap_after_zero_taken :
  let pool ts := run_ops ex_range (OpAdd 0 <$> ts) ex_new in
  TxHash <$> (doSelectTransactions ex_range ex_sel (pool [ex_tx "z0" "carol" 0 5 10; ex_tx "z5" "carol" 5 5 10])).2 =
    ["z0"; "z5"] /\
  TxHash <$> (doSelectTransactions ex_range ex_sel (pool [ex_tx "z1" "carol" 1 5 10; ex_tx "z5" "carol" 5 5 10])).2 =
    ["z1"].
Proof. vm_compute. split; reflexivity. Qed.

(** ** Limits and counters *)

(** Adding a transaction removes at most one live transaction, whatever the
    sender's byte limit asks for: the list is left above the limit. *)
Theorem sender_byte_limit_exceeded :
  let cs := {| maxNumTxs := 10; maxNumBytes := 100 |} in
  let l1 := (list_AddTx cs 0 (ex_tx "x5" "alice" 5 1 40) (newTxListForSender "alice")).1 in
  let l2 := (list_AddTx cs 0 (ex_tx "x6" "alice" 6 1 40) l1).1 in
  let l3 := (list_AddTx cs 0 (ex_tx "x1" "alice" 1 1 90) l2).1 in
  isCapacityExceeded cs l2 = false /\ TxHash <$> items l3 = ["x1"; "x5"] /\ isCapacityExceeded cs l3 = true.
Proof. split; [reflexivity|]. split; reflexivity. Qed.

(** An emptied pool still counts the bytes of what it held, and so still counts
    as full. *)
Theorem clear_keeps_byte_count c : NumBytes (Clear c) = NumBytes c /\ CountTx (Clear c) = 0.
Proof. done. Qed.

(** A sweep that runs late removes a list that was made in the meantime and
    leaves its transaction in the map by hash. *)
Theorem late_sweep_strands_transaction :
  let ahead := ex_tx "g9" "greta" 9 1 10 in
  let again := ex_tx "g8" "greta" 8 1 10 in
  let sel := {| numRequested := 1; batchSizePerSender := 0; bandwidthPerSender := 100 |} in
  let ops := [OpAdd 0 ahead; OpNotify "greta" 1; OpSelect sel false; OpSelect sel false; OpSelect sel false;
              OpRemove "g9"; OpAdd 0 again; OpSweep] in
  let c := run_ops ex_range ops ex_new in
  listed "greta" c = [] /\ GetByTxHash "g8" c = Some again.
Proof. vm_compute. done. Qed.
