(* ===== verification/ForkDetector.v ===== *)
(** * The fork detector

    [core/process/sync/baseForkDetector.go] and [metaForkDetector.go]: the headers
    a node has seen above its final block, the checkpoints of the blocks it has
    committed, and the choice between competing headers of one nonce.  Its black
    list is a time cache ([storage/timecache/timeCache.go]): keys that expire; every
    reading of [time.Now] within one operation is the same instant, in
    nanoseconds. *)

From S2P Require Import Prelude Common GoStd Tools.
From Stdlib Require Import SpecFloat.
Local Open Scope Z_scope.

(** [time.Duration] of a difference saturates. *)
Definition time_Sub (t u : Z) : Z := Z.max MinInt64 (Z.min MaxInt64 (t - u)).
Definition time_Second : Z := 1000000000.
(** The zero [time.Time], the first of January of year 1. *)
Definition time_zero : Z := - 62135596800 * time_Second.

Record span : Type := { sp_timestamp : Z; sp_span : Z }.

Record TimeCache : Type := { tc_data : gmap string span; tc_defaultSpan : Z }.

Definition NewTimeCache (defaultSpan : Z) : TimeCache := {| tc_data := ∅; tc_defaultSpan := defaultSpan |}.

Definition set_tc_data (tc : TimeCache) (m : gmap string span) : TimeCache :=
  {| tc_data := m; tc_defaultSpan := tc_defaultSpan tc |}.

(** [None] is the refusal of an empty key. *)
Definition tc_add (now : Z) (tc : TimeCache) (key : string) (duration : Z) : option TimeCache :=
  if slen key =? 0 then None
  else Some (set_tc_data tc (<[key := {| sp_timestamp := now; sp_span := duration |}]> (tc_data tc))).

Definition tc_Add (now : Z) (tc : TimeCache) (key : string) : option TimeCache :=
  tc_add now tc key (tc_defaultSpan tc).
Definition tc_AddWithSpan := tc_add.

Definition tc_Upsert (now : Z) (tc : TimeCache) (key : string) (duration : Z) : option TimeCache :=
  if slen key =? 0 then None
  else
    let d := match tc_data tc !! key with
             | Some existing => if sp_span existing <? duration then duration else sp_span existing
             | None => duration
             end in
    Some (set_tc_data tc (<[key := {| sp_timestamp := now; sp_span := d |}]> (tc_data tc))).

Definition is_old (now : Z) (s : span) : bool := sp_span s <? time_Sub now (sp_timestamp s).

Definition tc_Sweep (now : Z) (tc : TimeCache) : TimeCache :=
  set_tc_data tc (filter (fun kv => is_old now kv.2 = false) (tc_data tc)).
Definition tc_ResetAll (tc : TimeCache) : TimeCache := set_tc_data tc ∅.
Definition tc_Remove (tc : TimeCache) (key : string) : TimeCache := set_tc_data tc (delete key (tc_data tc)).
Definition tc_Has (tc : TimeCache) (key : string) : bool := bool_decide (is_Some (tc_data tc !! key)).
Definition tc_Len (tc : TimeCache) : Z := Z.of_nat (size (tc_data tc)).

Lemma tc_Has_Sweep now tc key :
  tc_Has (tc_Sweep now tc) key = true <->
  exists s, tc_data tc !! key = Some s /\ time_Sub now (sp_timestamp s) <= sp_span s.
Proof.
  unfold tc_Has, tc_Sweep. rewrite bool_decide_eq_true. cbn. split.
  - intros [s Hs]. apply map_lookup_filter_Some in Hs as [Hs H]. exists s. split; [done|].
    unfold is_old in H. cbn in H. lia.
  - intros (s & Hs & H). exists s. apply map_lookup_filter_Some. split; [done|]. unfold is_old. cbn. lia.
Qed.

(** ** Headers, constants, errors *)

(** What the synchronization reads of a block header ([data.HeaderHandler]). *)
Record header : Type := {
  GetNonce : Z; GetSlot : Z; GetEpoch : Z; GetTimestamp : Z; GetParentHash : string;
  GetRandSeed : string; GetPrevRandSeed : string;
}.
#[global] Instance header_eq_dec : EqDecision header.
Proof. solve_decision. Defined.

Inductive BlockHeaderState : Type := BHReceived | BHReceivedTooLate | BHProcessed | BHProposed | BHNotarized.
#[global] Instance BlockHeaderState_eq_dec : EqDecision BlockHeaderState.
Proof. solve_decision. Defined.

Definition MinForkSlot : Z := 0.
Definition MaxSlotsWithoutCommittedBlock : Z := 10.
Definition NonceDifferenceWhenSynced : Z := 0.
Definition BlockFinality : Z := 1.
Definition SlotModulusTrigger : Z := 5.

Inductive syncError : Type :=
| ErrNilHeader | ErrNilHash | ErrLowerNonceInBlock | ErrHigherNonceInBlock | ErrLowerSlotInBlock
| ErrHigherSlotInBlock | ErrGenesisTimeMismatch | ErrHeaderIsBlackListed
| ErrRollBackBehindFinalHeader | ErrRollBackBehindForkNonce | ErrNilBlockHeader
| ErrSlotAheadOfChronology | ErrWrongNonceInBlock | ErrBlockHashDoesNotMatch | ErrRandSeedDoesNotMatch
| ErrEpochDoesNotMatch | ErrBlockBodyNotMatchingHeader | ErrTransactionResultMismatch
| ErrBlockExecutionNotMatchingHeader | ErrTimeIsOut
(** Any other error of the components the synchronization calls. *)
| ErrOther (msg : string).
#[global] Instance syncError_eq_dec : EqDecision syncError.
Proof. solve_decision. Defined.

(** [bytes.Compare(a, b) < 0]. *)
Definition bytes_lt (a b : string) : bool := String.ltb a b.

Record headerInfo : Type := {
  hi_epoch : Z; hi_nonce : Z; hi_slot : Z; hi_hash : string; hi_state : BlockHeaderState;
}.
#[global] Instance headerInfo_eq_dec : EqDecision headerInfo.
Proof. solve_decision. Defined.

Record checkpointInfo : Type := { cp_nonce : Z; cp_slot : Z; cp_hash : slice }.

Record forkInfo : Type := {
  checkpoint : list checkpointInfo;
  fi_finalCheckpoint : checkpointInfo;
  fi_probableHighestNonce : Z;
  fi_highestNonceReceived : Z;
  rollBackNonce : Z;
  fi_lastSlotWithForcedFork : Z;
}.

Record baseForkDetector : Type := {
  headers : gmap Z (list headerInfo);
  fork : forkInfo;
  blackListHandler : TimeCache;
  genesisTime : Z;
  genesisNonce : Z;
  genesisSlot : Z;
  maxForkHeaderEpoch : Z;
  tmpStuck : Z;
}.

(** The answer of [CheckFork] ([process.ForkInfo]). *)
Record ForkInfo : Type := { IsDetected : bool; fork_Nonce : Z; fork_Slot : Z; fork_Hash : slice }.
Definition NewForkInfo : ForkInfo :=
  {| IsDetected := false; fork_Nonce := MaxUint64; fork_Slot := MaxUint64; fork_Hash := None |}.

(** ** Assignments *)

Definition set_headers (m : gmap Z (list headerInfo)) (d : baseForkDetector) : baseForkDetector :=
  {| headers := m; fork := fork d; blackListHandler := blackListHandler d; genesisTime := genesisTime d;
     genesisNonce := genesisNonce d; genesisSlot := genesisSlot d;
     maxForkHeaderEpoch := maxForkHeaderEpoch d; tmpStuck := tmpStuck d |}.
Definition set_fork (f : forkInfo) (d : baseForkDetector) : baseForkDetector :=
  {| headers := headers d; fork := f; blackListHandler := blackListHandler d; genesisTime := genesisTime d;
     genesisNonce := genesisNonce d; genesisSlot := genesisSlot d;
     maxForkHeaderEpoch := maxForkHeaderEpoch d; tmpStuck := tmpStuck d |}.
Definition set_blackList (tc : TimeCache) (d : baseForkDetector) : baseForkDetector :=
  {| headers := headers d; fork := fork d; blackListHandler := tc; genesisTime := genesisTime d;
     genesisNonce := genesisNonce d; genesisSlot := genesisSlot d;
     maxForkHeaderEpoch := maxForkHeaderEpoch d; tmpStuck := tmpStuck d |}.
Definition set_maxForkHeaderEpoch (e : Z) (d : baseForkDetector) : baseForkDetector :=
  {| headers := headers d; fork := fork d; blackListHandler := blackListHandler d; genesisTime := genesisTime d;
     genesisNonce := genesisNonce d; genesisSlot := genesisSlot d; maxForkHeaderEpoch := e;
     tmpStuck := tmpStuck d |}.
Definition set_tmpStuck (t : Z) (d : baseForkDetector) : baseForkDetector :=
  {| headers := headers d; fork := fork d; blackListHandler := blackListHandler d; genesisTime := genesisTime d;
     genesisNonce := genesisNonce d; genesisSlot := genesisSlot d;
     maxForkHeaderEpoch := maxForkHeaderEpoch d; tmpStuck := t |}.

Definition set_checkpoint (l : list checkpointInfo) (d : baseForkDetector) : baseForkDetector :=
  set_fork {| checkpoint := l; fi_finalCheckpoint := fi_finalCheckpoint (fork d);
              fi_probableHighestNonce := fi_probableHighestNonce (fork d);
              fi_highestNonceReceived := fi_highestNonceReceived (fork d);
              rollBackNonce := rollBackNonce (fork d);
              fi_lastSlotWithForcedFork := fi_lastSlotWithForcedFork (fork d) |} d.
Definition setFinalCheckpoint (c : checkpointInfo) (d : baseForkDetector) : baseForkDetector :=
  set_fork {| checkpoint := checkpoint (fork d); fi_finalCheckpoint := c;
              fi_probableHighestNonce := fi_probableHighestNonce (fork d);
              fi_highestNonceReceived := fi_highestNonceReceived (fork d);
              rollBackNonce := rollBackNonce (fork d);
              fi_lastSlotWithForcedFork := fi_lastSlotWithForcedFork (fork d) |} d.
Definition setProbableHighestNonce (n : Z) (d : baseForkDetector) : baseForkDetector :=
  set_fork {| checkpoint := checkpoint (fork d); fi_finalCheckpoint := fi_finalCheckpoint (fork d);
              fi_probableHighestNonce := n; fi_highestNonceReceived := fi_highestNonceReceived (fork d);
              rollBackNonce := rollBackNonce (fork d);
              fi_lastSlotWithForcedFork := fi_lastSlotWithForcedFork (fork d) |} d.
Definition set_highestNonceReceived (n : Z) (d : baseForkDetector) : baseForkDetector :=
  set_fork {| checkpoint := checkpoint (fork d); fi_finalCheckpoint := fi_finalCheckpoint (fork d);
              fi_probableHighestNonce := fi_probableHighestNonce (fork d); fi_highestNonceReceived := n;
              rollBackNonce := rollBackNonce (fork d);
              fi_lastSlotWithForcedFork := fi_lastSlotWithForcedFork (fork d) |} d.
Definition SetRollBackNonce (n : Z) (d : baseForkDetector) : baseForkDetector :=
  set_fork {| checkpoint := checkpoint (fork d); fi_finalCheckpoint := fi_finalCheckpoint (fork d);
              fi_probableHighestNonce := fi_probableHighestNonce (fork d);
              fi_highestNonceReceived := fi_highestNonceReceived (fork d); rollBackNonce := n;
              fi_lastSlotWithForcedFork := fi_lastSlotWithForcedFork (fork d) |} d.
Definition setLastSlotWithForcedFork (n : Z) (d : baseForkDetector) : baseForkDetector :=
  set_fork {| checkpoint := checkpoint (fork d); fi_finalCheckpoint := fi_finalCheckpoint (fork d);
              fi_probableHighestNonce := fi_probableHighestNonce (fork d);
              fi_highestNonceReceived := fi_highestNonceReceived (fork d);
              rollBackNonce := rollBackNonce (fork d); fi_lastSlotWithForcedFork := n |} d.

Definition finalCheckpoint (d : baseForkDetector) : checkpointInfo := fi_finalCheckpoint (fork d).
Definition probableHighestNonce (d : baseForkDetector) : Z := fi_probableHighestNonce (fork d).
Definition highestNonceReceived (d : baseForkDetector) : Z := fi_highestNonceReceived (fork d).
Definition lastSlotWithForcedFork (d : baseForkDetector) : Z := fi_lastSlotWithForcedFork (fork d).
Definition GetHighestFinalBlockNonce (d : baseForkDetector) : Z := cp_nonce (finalCheckpoint d).
Definition GetHighestFinalBlockHash (d : baseForkDetector) : slice := cp_hash (finalCheckpoint d).

Definition genesis_checkpoint (d : baseForkDetector) : checkpointInfo :=
  {| cp_nonce := genesisNonce d; cp_slot := genesisSlot d; cp_hash := None |}.

Definition lastCheckpoint (d : baseForkDetector) : checkpointInfo :=
  default (genesis_checkpoint d) (last (checkpoint (fork d))).

Definition addCheckpoint (c : checkpointInfo) (d : baseForkDetector) : baseForkDetector :=
  set_checkpoint (checkpoint (fork d) ++ [c]) d.

Definition setHighestNonceReceived (nonce : Z) (d : baseForkDetector) : baseForkDetector :=
  if nonce <=? highestNonceReceived d then d else set_highestNonceReceived nonce d.

Definition NewMetaForkDetector (blackList : TimeCache) (gTime : Z) : baseForkDetector :=
  let cp := {| cp_nonce := 0; cp_slot := 0; cp_hash := None |} in
  {| headers := ∅;
     fork := {| checkpoint := [cp]; fi_finalCheckpoint := cp; fi_probableHighestNonce := 0;
                fi_highestNonceReceived := 0; rollBackNonce := MaxUint64; fi_lastSlotWithForcedFork := 0 |};
     blackListHandler := blackList; genesisTime := gTime; genesisNonce := 0; genesisSlot := 0;
     maxForkHeaderEpoch := 0; tmpStuck := time_zero |}.

Definition RestoreToGenesis (d : baseForkDetector) : baseForkDetector :=
  let cp := genesis_checkpoint d in
  set_fork {| checkpoint := [cp]; fi_finalCheckpoint := cp; fi_probableHighestNonce := genesisNonce d;
              fi_highestNonceReceived := genesisNonce d; rollBackNonce := rollBackNonce (fork d);
              fi_lastSlotWithForcedFork := fi_lastSlotWithForcedFork (fork d) |} (set_headers ∅ d).

Definition SetFinalToLastCheckpoint (d : baseForkDetector) : baseForkDetector :=
  setFinalCheckpoint (lastCheckpoint d) d.

(** ** Bookkeeping of headers and checkpoints *)

Definition removePastHeaders (d : baseForkDetector) : baseForkDetector :=
  set_headers (filter (fun kv => cp_nonce (finalCheckpoint d) <= kv.1) (headers d)) d.

Definition nonempty {A} (l : list A) : option (list A) := match l with [] => None | _ => Some l end.

Definition is_received (s : BlockHeaderState) : bool :=
  bool_decide (s = BHReceived) || bool_decide (s = BHReceivedTooLate).

Definition isReceivedHeaderInvalid (d : baseForkDetector) (i : headerInfo) : bool :=
  let slotDif := SafeU64ToI64 (hi_slot i) -! SafeU64ToI64 (cp_slot (finalCheckpoint d)) in
  let nonceDif := SafeU64ToI64 (hi_nonce i) -! SafeU64ToI64 (cp_nonce (finalCheckpoint d)) in
  is_received (hi_state i) && (slotDif <? nonceDif).

Definition removeInvalidReceivedHeaders (d : baseForkDetector) : baseForkDetector :=
  set_headers (omap (fun l => nonempty (filter (fun i => isReceivedHeaderInvalid d i = false) l)) (headers d)) d.

Definition removeCheckpointsBehindNonce (nonce : Z) (d : baseForkDetector) : baseForkDetector :=
  set_checkpoint (filter (fun c => nonce <= cp_nonce c) (checkpoint (fork d))) d.
Definition removePastCheckpoints (d : baseForkDetector) : baseForkDetector :=
  removeCheckpointsBehindNonce (cp_nonce (finalCheckpoint d)) d.
Definition removePastOrInvalidRecords (d : baseForkDetector) : baseForkDetector :=
  removePastCheckpoints (removeInvalidReceivedHeaders (removePastHeaders d)).

Definition removeCheckpointWithNonce (nonce : Z) (d : baseForkDetector) : baseForkDetector :=
  set_checkpoint (filter (fun c => cp_nonce c <> nonce) (checkpoint (fork d))) d.

(** Adds a header unless it is there with the same state. *)
Definition bfd_append (i : headerInfo) (d : baseForkDetector) : baseForkDetector * bool :=
  let stored := default [] (headers d !! hi_nonce i) in
  match stored with
  | [] => (set_headers (<[hi_nonce i := [i]]> (headers d)) d, true)
  | _ =>
      if existsb (fun j => str_eqb (hi_hash j) (hi_hash i) && bool_decide (hi_state j = hi_state i)) stored
      then (d, false)
      else (set_headers (<[hi_nonce i := stored ++ [i]]> (headers d)) d, true)
  end.

Definition cleanupReceivedHeadersHigherThanNonce (nonce : Z) (d : baseForkDetector) : baseForkDetector :=
  set_headers (map_imap (fun n l => if n <=? nonce then Some l
                                    else nonempty (filter (fun i => hi_state i = BHNotarized) l)) (headers d)) d.

Definition GetNotarizedHeaderHash (nonce : Z) (d : baseForkDetector) : slice :=
  hi_hash <$> List.find (fun i => bool_decide (hi_state i = BHNotarized)) (default [] (headers d !! nonce)).

(** ** Operations

    [Index] and [TimeDuration] (in nanoseconds) are those of the slot manager and
    [now] the clock, as an operation reads them. *)

Record slotClock : Type := { Index : Z; TimeDuration : Z; now : Z }.

Section detector.
(** The order in which [range] visits the headers. *)
Variable range : gmap Z (list headerInfo) -> list (Z * list headerInfo).
(** The value of a float conversion that is out of range. *)
Variable oob : spec_float -> Z.
Variable clk : slotClock.

Definition highest_loop (nonces : list Z) (start : Z) : Z :=
  fold_left (fun p n => if n <=? p then p else n) nonces start.
Definition computeProbableHighestNonce (d : baseForkDetector) : Z :=
  highest_loop (range (headers d)).*1 (cp_nonce (finalCheckpoint d)).

Definition ResetProbableHighestNonce (d : baseForkDetector) : baseForkDetector :=
  let d1 := cleanupReceivedHeadersHigherThanNonce (cp_nonce (lastCheckpoint d)) d in
  setProbableHighestNonce (computeProbableHighestNonce d1) d1.
Definition ResetFork (d : baseForkDetector) : baseForkDetector :=
  setLastSlotWithForcedFork (Index clk) (ResetProbableHighestNonce d).
Definition SoftResetFork (newProbableHighestNonce : Z) (d : baseForkDetector) : baseForkDetector :=
  setLastSlotWithForcedFork (Index clk) (setProbableHighestNonce newProbableHighestNonce d).

(** Removes the checkpoint and the headers of the hash, a notarized one
    excepted. *)
Definition RemoveHeader (nonce : Z) (hash : slice) (d : baseForkDetector) : baseForkDetector :=
  let d1 := removeCheckpointWithNonce nonce d in
  let preserved :=
    filter (fun i => negb (negb (bool_decide (hi_state i = BHNotarized)) && str_eqb (bytes_of hash) (hi_hash i))
                     = true) (default [] (headers d1 !! nonce)) in
  let d2 := set_headers (match nonempty preserved with
                         | None => delete nonce (headers d1)
                         | Some l => <[nonce := l]> (headers d1)
                         end) d1 in
  setProbableHighestNonce (computeProbableHighestNonce d2) d2.

(** [time.Duration.Seconds]. *)
Definition duration_Seconds (ns : Z) : spec_float :=
  SFadd 53 f64_emax (f64_of_Z (Z.quot ns time_Second))
    (f64_div (f64_of_Z (Z.rem ns time_Second)) (f64_of_Z time_Second)).

Definition computeGenesisTimeFromHeader (h : header) (d : baseForkDetector) : Z :=
  let timeDiff := f64_mul (f64_of_Z (wrap_u64 (GetSlot h - genesisSlot d))) (duration_Seconds (TimeDuration clk)) in
  match SFcompare timeDiff (f64_of_Z MaxInt64) with
  | Some Gt => - 1
  | _ => GetTimestamp h -! f64_to_i64 oob timeDiff
  end.

(** [process.AddHeaderToBlackList]: an empty hash is not added. *)
Definition AddHeaderToBlackList (tc : TimeCache) (hash : string) : TimeCache :=
  let tc1 := tc_Sweep (now clk) tc in default tc1 (tc_Add (now clk) tc1 hash).

Definition checkBlockBasicValidity (h : option header) (hash : slice) (d : baseForkDetector)
  : baseForkDetector * res syncError unit :=
  match h, hash with
  | None, _ => (d, Err ErrNilHeader)
  | _, None => (d, Err ErrNilHash)
  | Some h, Some hash =>
      let slotDif := SafeU64ToI64 (GetSlot h) -! SafeU64ToI64 (cp_slot (finalCheckpoint d)) in
      let nonceDif := SafeU64ToI64 (GetNonce h) -! SafeU64ToI64 (cp_nonce (finalCheckpoint d)) in
      let nextSlot := Index clk +! 1 in
      let tc := tc_Sweep (now clk) (blackListHandler d) in
      let d1 := set_blackList tc d in
      let blacklisted := set_blackList (AddHeaderToBlackList tc hash) d in
      if tc_Has tc (GetParentHash h) then (blacklisted, Err ErrHeaderIsBlackListed)
      else if negb (computeGenesisTimeFromHeader h d =? genesisTime d) then (blacklisted, Err ErrGenesisTimeMismatch)
      else if slotDif <? 0 then (d1, Err ErrLowerSlotInBlock)
      else if nonceDif <? 0 then (d1, Err ErrLowerNonceInBlock)
      else if SafeI64ToU64 nextSlot <? GetSlot h then (d1, Err ErrHigherSlotInBlock)
      else if slotDif <? nonceDif then (d1, Err ErrHigherNonceInBlock)
      else (d1, Ok tt)
  end.

Definition isHeaderReceivedTooLate (h : header) (state : BlockHeaderState) (finality : Z) : bool :=
  if bool_decide (state = BHProcessed) then false
  else SafeU64ToI64 (GetSlot h) <? Index clk -! finality.

Definition doJobOnBHProcessed (h : header) (hash : string) (d : baseForkDetector) : baseForkDetector :=
  removePastOrInvalidRecords
    (addCheckpoint {| cp_nonce := GetNonce h; cp_slot := GetSlot h; cp_hash := Some hash |}
       (setFinalCheckpoint (lastCheckpoint d) d)).

Definition header_info (h : header) (hash : string) (state : BlockHeaderState) : headerInfo :=
  {| hi_epoch := GetEpoch h; hi_nonce := GetNonce h; hi_slot := GetSlot h; hi_hash := hash; hi_state := state |}.

Definition processReceivedBlock (h : header) (hash : string) (state : BlockHeaderState) (d : baseForkDetector)
  : baseForkDetector :=
  let d1 := setHighestNonceReceived (GetNonce h) d in
  if bool_decide (state = BHProposed) then d1
  else
    let state := if isHeaderReceivedTooLate h state BlockFinality then BHReceivedTooLate else state in
    let '(d2, appended) := bfd_append (header_info h hash state) d1 in
    if negb appended then d2
    else
      let d3 := if bool_decide (state = BHProcessed) then doJobOnBHProcessed h hash d2 else d2 in
      setProbableHighestNonce (computeProbableHighestNonce d3) d3.

Definition AddHeader (h : option header) (hash : slice) (state : BlockHeaderState) (d : baseForkDetector)
  : baseForkDetector * res syncError unit :=
  match checkBlockBasicValidity h hash d with
  | (d1, Err e) => (d1, Err e)
  | (d1, Ok _) =>
      match h, hash with
      | Some h, Some hash => (processReceivedBlock h hash state d1, Ok tt)
      | _, _ => (d1, Ok tt)
      end
  end.

(** ** The choice between headers *)

Definition getMaxEpochFromHdrsInfo (l : list headerInfo) : Z :=
  fold_left (fun m i => if m <? hi_epoch i then hi_epoch i else m) l 0.

(** The best competing header so far: hash, slot and epoch. *)
Definition best : Type := slice * Z * Z.

Definition computeForkInfo (d : baseForkDetector) (i : headerInfo) (acc : best) : best :=
  let '(lastForkHash, lastForkSlot, lastForkEpoch) := acc in
  if bool_decide (hi_state i = BHReceivedTooLate) && (hi_nonce i <? highestNonceReceived d) then acc
  else if negb (bool_decide (hi_state i = BHNotarized)) && (hi_epoch i <? maxForkHeaderEpoch d) then acc
  else
    let currentForkSlot := if bool_decide (hi_state i = BHNotarized) then MinForkSlot else hi_slot i in
    if currentForkSlot <? lastForkSlot then (Some (hi_hash i), currentForkSlot, hi_epoch i)
    else if (currentForkSlot =? lastForkSlot) && bytes_lt (hi_hash i) (bytes_of lastForkHash)
    then (Some (hi_hash i), currentForkSlot, hi_epoch i)
    else acc.

Definition shouldSignalFork (d : baseForkDetector) (self : headerInfo) (acc : best) : bool :=
  let '(lastForkHash, lastForkSlot, lastForkEpoch) := acc in
  if str_eqb (hi_hash self) (bytes_of lastForkHash) then false
  else if negb (lastForkSlot =? MinForkSlot) && (lastForkEpoch <? hi_epoch self) then false
  else if negb (lastForkSlot =? MinForkSlot) && (hi_epoch self <? lastForkEpoch) then true
  else
    let higherHashForSameSlot := (hi_slot self =? lastForkSlot) && bytes_lt (bytes_of lastForkHash) (hi_hash self) in
    let higherNonceReceived := hi_nonce self <? highestNonceReceived d in
    (lastForkSlot <? hi_slot self) || (higherHashForSameSlot && negb higherNonceReceived).

Definition fork_scan (d : baseForkDetector) (st : option headerInfo * best) (i : headerInfo)
  : option headerInfo * best :=
  if bool_decide (hi_state i = BHProcessed) then (Some i, st.2) else (st.1, computeForkInfo d i st.2).

(** One round of the loop of [CheckFork]: the competing header at a nonce that
    calls for a roll back. *)
Definition fork_round (d : baseForkDetector) (infos : list headerInfo) : option best :=
  let '(self, acc) := fold_left (fork_scan d) infos (None, (None, MaxUint64, 0)) in
  match self with
  | None => None
  | Some self => if shouldSignalFork d self acc then Some acc else None
  end.

Fixpoint check_loop (d : baseForkDetector) (entries : list (Z * list headerInfo)) (out : ForkInfo)
  : baseForkDetector * ForkInfo :=
  match entries with
  | [] => (d, out)
  | (nonce, infos) :: rest =>
      if (length infos =? 1)%nat then check_loop d rest out
      else if nonce <=? cp_nonce (finalCheckpoint d) then check_loop d rest out
      else
        let d1 := set_maxForkHeaderEpoch (getMaxEpochFromHdrsInfo infos) d in
        check_loop d1 rest
          match fork_round d1 infos with
          | None => out
          | Some (hash, slot, _) =>
              if nonce <? fork_Nonce out
              then {| IsDetected := true; fork_Nonce := nonce; fork_Slot := slot; fork_Hash := hash |}
              else {| IsDetected := true; fork_Nonce := fork_Nonce out; fork_Slot := fork_Slot out;
                      fork_Hash := fork_Hash out |}
          end
  end.

Definition IsInProperSlot (index : Z) : bool := Z.rem index SlotModulusTrigger =? 0.

Definition isSyncing (d : baseForkDetector) : baseForkDetector * bool :=
  let noncesDifference :=
    SafeU64ToI64 (probableHighestNonce d) -! SafeU64ToI64 (cp_nonce (lastCheckpoint d)) in
  if NonceDifferenceWhenSynced <? noncesDifference then (set_tmpStuck (now clk) d, true)
  else (d, now clk <? tmpStuck d + 2 * time_Second).

Definition isConsensusStuck (d : baseForkDetector) : baseForkDetector * bool :=
  if lastSlotWithForcedFork d =? Index clk then (d, false)
  else
    let '(d1, syncing) := isSyncing d in
    if syncing then (d1, false)
    else
      let slotsDifference := wrap_u64 (SafeI64ToU64 (Index clk) - cp_slot (lastCheckpoint d1)) in
      if slotsDifference <=? MaxSlotsWithoutCommittedBlock then (d1, false)
      else (d1, IsInProperSlot (Index clk)).

Definition CheckFork (d : baseForkDetector) : baseForkDetector * ForkInfo :=
  let '(d1, stuck) := isConsensusStuck d in
  if stuck then
    (d1, {| IsDetected := true; fork_Nonce := MaxUint64; fork_Slot := MaxUint64; fork_Hash := None |})
  else if rollBackNonce (fork d1) <? MaxUint64 then
    (SetRollBackNonce MaxUint64 d1,
     {| IsDetected := true; fork_Nonce := rollBackNonce (fork d1); fork_Slot := MaxUint64; fork_Hash := None |})
  else check_loop d1 (range (headers d1)) NewForkInfo.
End detector.
