(* ===== verification/ForkChoice.v ===== *)
(** * The choice between competing headers

    What [CheckFork] decides.  At one nonce the choice is the minimum of a strict
    order on the competing headers, so it depends neither on the order in which
    they arrived nor on which of them the node has processed; over all nonces the
    lowest one above the final block is reported. *)

From S2P Require Import Prelude Common GoStd Tools ForkDetector.
From Stdlib Require Import Ascii SpecFloat.
Local Open Scope Z_scope.

(** ** The order on bytes *)

Lemma ascii_compare_lt a b : Ascii.compare a b = Lt <-> (N_of_ascii a < N_of_ascii b)%N.
Proof. unfold Ascii.compare. apply N.compare_lt_iff. Qed.

Lemma bytes_lt_compare a b : bytes_lt a b = true <-> String.compare a b = Lt.
Proof. unfold bytes_lt, String.ltb. by destruct (String.compare a b). Qed.

Lemma string_compare_refl a : String.compare a a = Eq.
Proof.
  induction a as [|c a IH]; [done|]. cbn. unfold Ascii.compare. by rewrite N.compare_refl.
Qed.

Lemma bytes_lt_irrefl a : bytes_lt a a = false.
Proof. unfold bytes_lt, String.ltb. by rewrite string_compare_refl. Qed.

Lemma bytes_lt_trans a b c : bytes_lt a b = true -> bytes_lt b c = true -> bytes_lt a c = true.
Proof.
  rewrite !bytes_lt_compare. revert b c.
  induction a as [|x a IH]; intros [|y b] [|z c]; cbn; try done.
  destruct (Ascii.compare x y) eqn:Exy; try done; destruct (Ascii.compare y z) eqn:Eyz; try done.
  - apply compare_eq_iff in Exy as ->. rewrite Eyz. apply IH.
  - apply compare_eq_iff in Exy as ->. by rewrite Eyz.
  - apply compare_eq_iff in Eyz as ->. by rewrite Exy.
  - intros _ _. apply ascii_compare_lt in Exy, Eyz.
    assert (E : Ascii.compare x z = Lt) by (apply ascii_compare_lt; by etransitivity). by rewrite E.
Qed.

Lemma bytes_lt_total a b : bytes_lt a b = true \/ a = b \/ bytes_lt b a = true.
Proof.
  rewrite !bytes_lt_compare. rewrite (String.compare_antisym b a).
  destruct (String.compare a b) eqn:E; [|auto|auto]. right. left. by apply String.compare_eq_iff.
Qed.

Lemma bytes_lt_empty a : bytes_lt a EmptyString = false.
Proof. by destruct a. Qed.

(** ** Candidates *)

Definition is_processed (i : headerInfo) : bool := bool_decide (hi_state i = BHProcessed).

(** A header the choice considers: not processed, not one that came too late,
    and of the highest epoch unless it is notarized. *)
Definition candidate (d : baseForkDetector) (i : headerInfo) : bool :=
  negb (is_processed i) &&
  negb (bool_decide (hi_state i = BHReceivedTooLate) && (hi_nonce i <? highestNonceReceived d)) &&
  (bool_decide (hi_state i = BHNotarized) || (maxForkHeaderEpoch d <=? hi_epoch i)).

Definition fork_slot (i : headerInfo) : Z :=
  if bool_decide (hi_state i = BHNotarized) then MinForkSlot else hi_slot i.

(** Earlier slot first, then the smaller hash. *)
Definition beats (i j : headerInfo) : Prop :=
  fork_slot i < fork_slot j \/ (fork_slot i = fork_slot j /\ bytes_lt (hi_hash i) (hi_hash j) = true).

Definition no_best : best := (None, MaxUint64, 0).
Definition as_best (i : headerInfo) : best := (Some (hi_hash i), fork_slot i, hi_epoch i).

(** [acc] is the best candidate of the list. *)
Definition best_in (d : baseForkDetector) (l : list headerInfo) (acc : best) : Prop :=
  (acc = no_best /\ Forall (fun j => candidate d j = true -> MaxUint64 <= fork_slot j) l) \/
  (exists i, i ∈ l /\ candidate d i = true /\ fork_slot i < MaxUint64 /\ acc = as_best i /\
             Forall (fun j => candidate d j = true -> ~ beats j i) l).

Lemma beats_trans i j k : beats i j -> beats j k -> beats i k.
Proof.
  intros [H|[H1 H2]] [K|[K1 K2]]; unfold beats; try (left; lia).
  right. split; [lia|]. by eapply bytes_lt_trans.
Qed.

Lemma beats_irrefl i : ~ beats i i.
Proof. intros [?|[_ H]]; [lia|]. by rewrite bytes_lt_irrefl in H. Qed.

(** Weakening: what beats a better header beats the worse one. *)
Lemma not_beats_trans i j k : ~ beats j i -> beats k i -> ~ beats j k.
Proof. intros H K J. apply H. by eapply beats_trans. Qed.

Lemma computeForkInfo_skip d i acc : is_processed i = false -> candidate d i = false ->
  computeForkInfo d i acc = acc.
Proof.
  unfold candidate, computeForkInfo. destruct acc as [[hash slot] epoch]. intros -> H. cbn in H.
  destruct (bool_decide (hi_state i = BHReceivedTooLate) && _); [done|]. cbn in H.
  apply orb_false_iff in H as [-> H]. cbn. rewrite Z.leb_gt in H. destruct (Z.ltb_spec (hi_epoch i) (maxForkHeaderEpoch d)); [done|lia].
Qed.

Lemma computeForkInfo_candidate d i acc : candidate d i = true ->
  computeForkInfo d i acc =
  if (fork_slot i <? acc.1.2) || ((fork_slot i =? acc.1.2) && bytes_lt (hi_hash i) (bytes_of acc.1.1))
  then as_best i else acc.
Proof.
  unfold candidate, computeForkInfo, as_best, fork_slot. destruct acc as [[hash slot] epoch].
  rewrite !andb_true_iff. intros [[_ H1] H2]. apply negb_true_iff in H1. rewrite H1.
  assert (E : negb (bool_decide (hi_state i = BHNotarized)) && (hi_epoch i <? maxForkHeaderEpoch d) = false).
  { apply andb_false_iff. apply orb_true_iff in H2 as [->|H2]; [by left|right]. apply Z.leb_le in H2. by apply Z.ltb_ge. }
  rewrite E. cbn. by destruct (_ <? slot), (_ =? slot), (bytes_lt _ _).
Qed.

Lemma best_in_snoc d l i acc : best_in d l acc -> is_processed i = false ->
  best_in d (l ++ [i]) (computeForkInfo d i acc).
Proof.
  intros H Hp. destruct (candidate d i) eqn:Hc.
  2: { rewrite computeForkInfo_skip by done. destruct H as [[-> H]|(b & Hb & Hcb & Hs & -> & H)].
       - left. split; [done|]. apply Forall_app. split; [done|]. constructor; [congruence|constructor].
       - right. exists b. rewrite elem_of_app. split_and!; try done; [by left|].
         apply Forall_app. split; [done|]. constructor; [congruence|constructor]. }
  rewrite computeForkInfo_candidate by done.
  destruct H as [[-> H]|(b & Hb & Hcb & Hs & -> & H)]; cbn [fst snd as_best no_best bytes_of default].
  - rewrite bytes_lt_empty, andb_false_r, orb_false_r. destruct (Z.ltb_spec (fork_slot i) MaxUint64).
    + right. exists i. rewrite elem_of_app, list_elem_of_singleton. split_and!; try done; [by right|].
      apply Forall_app. split; [|by constructor; [intros _; apply beats_irrefl|constructor]].
      eapply Forall_impl; [exact H|]. cbn. intros j Hj Hc' [?|[? _]]; specialize (Hj Hc'); lia.
    + left. split; [done|]. apply Forall_app. split; [done|]. constructor; [lia|constructor].
  - destruct (_ || _) eqn:E.
    + assert (Hbe : beats i b).
      { unfold beats. apply orb_true_iff in E as [E|E]; [left; lia|]. apply andb_true_iff in E as [E1 E2]. right. split; [lia|done]. }
      right. exists i. rewrite elem_of_app, list_elem_of_singleton. split_and!; try done; [by right| |].
      * destruct Hbe as [?|[? _]]; lia.
      * apply Forall_app. split; [|by constructor; [intros _; apply beats_irrefl|constructor]].
        eapply Forall_impl; [exact H|]. cbn. intros j Hj Hc'. eapply not_beats_trans; [by apply Hj|done].
    + right. exists b. rewrite elem_of_app. split_and!; try done; [by left|].
      apply Forall_app. split; [done|]. constructor; [|constructor]. intros _ [?|[E1 E2]].
      * apply orb_false_iff in E as [E _]. lia.
      * cbn in E. rewrite E1, E2, Z.eqb_refl, orb_true_r in E. done.
Qed.

Lemma best_in_processed d l i acc : best_in d l acc -> is_processed i = true -> best_in d (l ++ [i]) acc.
Proof.
  intros H Hp. assert (Hc : candidate d i = false) by (unfold candidate; by rewrite Hp).
  destruct H as [[-> H]|(b & Hb & Hcb & Hs & -> & H)].
  - left. split; [done|]. apply Forall_app. split; [done|]. constructor; [congruence|constructor].
  - right. exists b. rewrite elem_of_app. split_and!; try done; [by left|].
    apply Forall_app. split; [done|]. constructor; [congruence|constructor].
Qed.

(** The scan of [CheckFork] finds the node's own header and the best competitor. *)
Lemma fork_scan_spec d l :
  let r := fold_left (fork_scan d) l (None, no_best) in
  r.1 = last (filter (fun i => is_processed i = true) l) /\ best_in d l r.2.
Proof.
  cbn. induction l as [|i l IH] using rev_ind; cbn.
  { split; [done|]. left. split; [done|constructor]. }
  rewrite fold_left_app, filter_app. cbn [fold_left]. destruct IH as [IH1 IH2]. unfold fork_scan at 1 3.
  fold (is_processed i). destruct (is_processed i) eqn:Hp; cbn [fst snd].
  - rewrite filter_cons_True by done. rewrite filter_nil, last_snoc. split; [done|]. by apply best_in_processed.
  - rewrite filter_cons_False by congruence. rewrite filter_nil, app_nil_r. split; [done|]. by apply best_in_snoc.
Qed.

Lemma fork_scan_result d l self acc : fold_left (fork_scan d) l (None, no_best) = (self, acc) ->
  self = last (filter (fun i => is_processed i = true) l) /\ best_in d l acc.
Proof. intros H. pose proof (fork_scan_spec d l) as Hs. cbv zeta in Hs. by rewrite H in Hs. Qed.

(** ** Agreement between nodes *)

(** A header as the network knows it. *)
Record block : Type := { b_epoch : Z; b_slot : Z; b_hash : string }.
#[global] Instance block_eq_dec : EqDecision block.
Proof. solve_decision. Defined.
Definition block_of (i : headerInfo) : block :=
  {| b_epoch := hi_epoch i; b_slot := hi_slot i; b_hash := hi_hash i |}.

(** Higher epoch, then earlier slot, then smaller hash. *)
Definition preferred (b c : block) : Prop :=
  b_epoch c < b_epoch b \/
  (b_epoch b = b_epoch c /\
   (b_slot b < b_slot c \/ (b_slot b = b_slot c /\ bytes_lt (b_hash b) (b_hash c) = true))).

Definition winner (blocks : list block) (w : block) : Prop :=
  w ∈ blocks /\ Forall (fun c => c = w \/ preferred w c) blocks.

Lemma preferred_trans a b c : preferred a b -> preferred b c -> preferred a c.
Proof.
  intros [H|(H1 & [H2|(H2 & H3)])] [K|(K1 & [K2|(K2 & K3)])]; unfold preferred; try (left; lia);
    right; (split; [lia|]); try (left; lia).
  right. split; [lia|]. by eapply bytes_lt_trans.
Qed.

Lemma preferred_irrefl a : ~ preferred a a.
Proof. intros [?|(_ & [?|[_ H]])]; [lia|lia|]. by rewrite bytes_lt_irrefl in H. Qed.

Lemma preferred_total a b : b_hash a <> b_hash b -> preferred a b \/ preferred b a.
Proof.
  intros Hne. unfold preferred.
  destruct (Z.lt_total (b_epoch a) (b_epoch b)) as [?|[->|?]]; [right; by left| |left; by left].
  destruct (Z.lt_total (b_slot a) (b_slot b)) as [?|[->|?]]; [left; right; auto| |right; right; auto].
  destruct (bytes_lt_total (b_hash a) (b_hash b)) as [?|[?|?]]; [left; right; auto|done|right; right; auto].
Qed.

Lemma winner_exists blocks : blocks <> [] -> NoDup (b_hash <$> blocks) -> exists w, winner blocks w.
Proof.
  induction blocks as [|b l IH]; [done|]. intros _ Hnd. rewrite fmap_cons in Hnd. apply NoDup_cons in Hnd as [Hb Hnd].
  destruct l as [|c l].
  { exists b. split; [by left|]. by constructor; [left|constructor]. }
  destruct IH as (w & Hw & Hbest); [done|done|].
  assert (Hne : b_hash b <> b_hash w) by (intros E; apply Hb; rewrite E; by apply list_elem_of_fmap_2).
  destruct (preferred_total b w Hne) as [H|H].
  - exists b. split; [by left|]. constructor; [by left|]. eapply Forall_impl; [exact Hbest|].
    cbn. intros x [->|Hx]; right; [done|]. by eapply preferred_trans.
  - exists w. split; [by right|]. constructor; [by right|done].
Qed.

Lemma getMaxEpoch_bound l m i : i ∈ l -> hi_epoch i <= fold_left (fun m i => if m <? hi_epoch i then hi_epoch i else m) l m.
Proof.
  assert (Hm : forall l m, m <= fold_left (fun m i => if m <? hi_epoch i then hi_epoch i else m) l m).
  { intros l'. induction l' as [|j l' IH]; intros m'; cbn; [lia|]. specialize (IH (if m' <? hi_epoch j then hi_epoch j else m')).
    destruct (Z.ltb_spec m' (hi_epoch j)); lia. }
  revert m. induction l as [|j l IH]; intros m; [by rewrite elem_of_nil|]. rewrite elem_of_cons. cbn.
  intros [->|H]; [|by apply IH]. specialize (Hm l (if m <? hi_epoch j then hi_epoch j else m)).
  destruct (Z.ltb_spec m (hi_epoch j)); lia.
Qed.

Lemma getMaxEpoch_attained l m :
  let r := fold_left (fun m i => if m <? hi_epoch i then hi_epoch i else m) l m in
  r = m \/ exists i, i ∈ l /\ hi_epoch i = r.
Proof.
  cbn. revert m. induction l as [|j l IH]; intros m; [by left|]. cbn.
  destruct (IH (if m <? hi_epoch j then hi_epoch j else m)) as [E|(i & Hi & E)].
  - destruct (Z.ltb_spec m (hi_epoch j)); [|by left]. right. exists j. split; [by left|]. by rewrite E.
  - right. exists i. split; [by right|done].
Qed.

(** What a node knows of nonce [n]: entries for exactly the network's blocks, in
    any order, one of them processed and the others received, in time or too
    late; a block may have several entries, one it received and then processed
    among them.  None is notarized (no caller records a header so) and no header
    of a higher nonce was received. *)
Record knows (d : baseForkDetector) (n : Z) (infos : list headerInfo) (self : headerInfo) (blocks : list block)
  : Prop := {
  k_blocks : forall b, b ∈ blocks <-> b ∈ block_of <$> infos;
  k_self : filter (fun i => is_processed i = true) infos = [self];
  k_others : Forall (fun i => is_processed i = true \/ is_received (hi_state i) = true) infos;
  k_nonce : Forall (fun i => hi_nonce i = n) infos;
  k_last : highestNonceReceived d <= n;
}.

(** What the network makes: blocks have distinct hashes, none of them empty, and
    slots after the genesis. *)
Record proper (blocks : list block) : Prop := {
  p_hashes : NoDup (b_hash <$> blocks);
  p_slots : Forall (fun b => 0 < b_slot b < MaxUint64 /\ 0 <= b_epoch b) blocks;
  p_some : blocks <> [];
}.

Section choice.
Context (d : baseForkDetector) (n : Z) (infos : list headerInfo) (self : headerInfo) (blocks : list block).
Hypothesis Hk : knows d n infos self blocks.
Hypothesis Hp : proper blocks.
Let d1 := set_maxForkHeaderEpoch (getMaxEpochFromHdrsInfo infos) d.

Lemma info_block i : i ∈ infos -> block_of i ∈ blocks.
Proof. intros H. apply (k_blocks _ _ _ _ _ Hk). by apply list_elem_of_fmap_2. Qed.

Lemma block_info b : b ∈ blocks -> exists i, i ∈ infos /\ b = block_of i.
Proof. intros H%(k_blocks _ _ _ _ _ Hk). apply list_elem_of_fmap in H as (i & -> & Hi). by exists i. Qed.

Lemma info_hash_inj i j : i ∈ infos -> j ∈ infos -> hi_hash i = hi_hash j -> block_of i = block_of j.
Proof.
  intros Hi%info_block Hj%info_block E. pose proof (p_hashes _ Hp) as Hnd.
  apply list_elem_of_lookup in Hi as [a Ha], Hj as [b Hb].
  assert (a = b) as ->; [|congruence].
  eapply (NoDup_lookup _ a b (hi_hash i) Hnd); rewrite list_lookup_fmap; [by rewrite Ha|by rewrite Hb, E].
Qed.

Lemma self_in : self ∈ infos /\ is_processed self = true.
Proof.
  assert (H : self ∈ filter (fun i => is_processed i = true) infos) by (rewrite (k_self _ _ _ _ _ Hk); by left).
  apply list_elem_of_filter in H as [? ?]. done.
Qed.

Lemma processed_self i : i ∈ infos -> is_processed i = true -> i = self.
Proof.
  intros Hi Hpr. assert (H : i ∈ filter (fun i => is_processed i = true) infos) by (by apply list_elem_of_filter).
  rewrite (k_self _ _ _ _ _ Hk) in H. by apply list_elem_of_singleton in H.
Qed.

Lemma max_epoch_winner w : winner blocks w -> getMaxEpochFromHdrsInfo infos = b_epoch w.
Proof.
  intros [Hw Hbest]. pose proof (getMaxEpoch_attained infos 0) as Ha. cbn in Ha. fold (getMaxEpochFromHdrsInfo infos) in Ha.
  destruct (block_info _ Hw) as (i & Hi & ->). pose proof (getMaxEpoch_bound infos 0 i Hi) as Hb.
  fold (getMaxEpochFromHdrsInfo infos) in Hb. cbn.
  rewrite Forall_forall in Hbest. pose proof (p_slots _ Hp) as Hs. rewrite Forall_forall in Hs.
  destruct Ha as [E|(j & Hj & E)].
  - destruct (Hs _ Hw) as [_ He]. cbn in He. lia.
  - destruct (Hbest _ (info_block _ Hj)) as [Ej|Hpref].
    + apply (f_equal b_epoch) in Ej. cbn in Ej. lia.
    + unfold preferred in Hpref. cbn in Hpref. lia.
Qed.

Lemma candidate_iff i : i ∈ infos ->
  candidate d1 i = true <-> is_processed i = false /\ getMaxEpochFromHdrsInfo infos <= hi_epoch i.
Proof.
  intros Hi. pose proof (k_others _ _ _ _ _ Hk) as Ho. rewrite Forall_forall in Ho.
  pose proof (k_nonce _ _ _ _ _ Hk) as Hn. rewrite Forall_forall in Hn. specialize (Hn _ Hi).
  pose proof (k_last _ _ _ _ _ Hk) as Hl. unfold candidate. fold d1. cbn [maxForkHeaderEpoch d1 set_maxForkHeaderEpoch].
  change (highestNonceReceived d1) with (highestNonceReceived d).
  rewrite !andb_true_iff, !negb_true_iff.
  assert (E : (hi_nonce i <? highestNonceReceived d) = false) by lia. rewrite E, andb_false_r.
  destruct (Ho _ Hi) as [Hpr|Hr]; [by rewrite Hpr; naive_solver|].
  assert (E2 : bool_decide (hi_state i = BHNotarized) = false) by (by destruct (hi_state i)).
  rewrite E2. cbn. split; [intros [[? _] ?]; split; [done|lia]|intros [? ?]; split_and!; [done..|lia]].
Qed.

Lemma received_slot i : i ∈ infos -> is_processed i = false -> fork_slot i = hi_slot i.
Proof.
  intros Hi Hpr. pose proof (k_others _ _ _ _ _ Hk) as Ho. rewrite Forall_forall in Ho.
  destruct (Ho _ Hi) as [?|Hr]; [congruence|]. unfold fork_slot. by destruct (hi_state i).
Qed.

Lemma stays_on_winner acc : winner blocks (block_of self) -> best_in d1 infos acc ->
  shouldSignalFork d1 self acc = false.
Proof.
  intros Hw Hb. destruct self_in as [Hself Hpr]. pose proof (p_slots _ Hp) as Hs. rewrite Forall_forall in Hs.
  destruct (Hs _ (info_block _ Hself)) as [Hss Hse]. cbn in Hss, Hse.
  pose proof (max_epoch_winner _ Hw) as Hmax. cbn in Hmax. destruct Hw as [_ Hbest]. rewrite Forall_forall in Hbest.
  unfold shouldSignalFork. destruct Hb as [[-> _]|(i & Hi & Hc & _ & -> & _)]; cbn [no_best as_best].
  - destruct (str_eqb _ _); [done|]. cbn [Z.eqb MaxUint64 MinForkSlot]. cbn. destruct (Z.ltb_spec 0 (hi_epoch self)); [done|].
    destruct (Z.ltb_spec (hi_epoch self) 0); [lia|]. apply orb_false_iff. split; [apply Z.ltb_ge; lia|].
    assert (E : (hi_slot self =? MaxUint64) = false) by (apply Z.eqb_neq; lia). by rewrite E.
  - apply candidate_iff in Hc as [Hnp Hce]; [|done]. rewrite received_slot by done.
    change (bytes_of (Some (hi_hash i))) with (hi_hash i). destruct (Hs _ (info_block _ Hi)) as [Hsi _]. cbn in Hsi.
    destruct (Hbest _ (info_block _ Hi)) as [E|Hpref].
    { apply (f_equal b_hash) in E. cbn in E. unfold str_eqb. by rewrite E, bool_decide_eq_true_2. }
    destruct (str_eqb _ _); [done|]. unfold preferred in Hpref. cbn in Hpref.
    destruct (Z.ltb_spec (hi_epoch i) (hi_epoch self)); [lia|]. destruct (Z.ltb_spec (hi_epoch self) (hi_epoch i)); [lia|].
    rewrite !andb_false_r. apply orb_false_iff.
    destruct Hpref as [?|(_ & [?|(? & Hlt)])]; [lia|split; [apply Z.ltb_ge; lia|]..].
    + assert (E : (hi_slot self =? hi_slot i) = false) by (apply Z.eqb_neq; lia). by rewrite E.
    + assert (E : bytes_lt (hi_hash i) (hi_hash self) = false); [|by rewrite E, andb_false_r].
      apply not_true_iff_false. intros Hlt'. pose proof (bytes_lt_trans _ _ _ Hlt Hlt') as Hl. by rewrite bytes_lt_irrefl in Hl.
Qed.

Lemma leaves_for_winner i acc : i ∈ infos -> block_of i <> block_of self -> winner blocks (block_of i) -> best_in d1 infos acc ->
  acc = as_best i /\ shouldSignalFork d1 self acc = true.
Proof.
  intros Hi Hne Hw Hb. destruct self_in as [Hself Hpr]. pose proof (p_slots _ Hp) as Hs. rewrite Forall_forall in Hs.
  destruct (Hs _ (info_block _ Hi)) as [Hsi _]. cbn in Hsi.
  pose proof (max_epoch_winner _ Hw) as Hmax. cbn in Hmax. destruct Hw as [_ Hbest]. rewrite Forall_forall in Hbest.
  assert (Hnp : is_processed i = false) by (apply not_true_iff_false; intros H; apply Hne; by rewrite (processed_self _ Hi H)).
  assert (Hci : candidate d1 i = true) by (apply candidate_iff; [done|split; [done|lia]]).
  assert (acc = as_best i) as ->.
  { destruct Hb as [[-> H]|(j & Hj & Hc & _ & -> & H)]; rewrite Forall_forall in H.
    - specialize (H _ Hi Hci). rewrite received_slot in H by done. lia.
    - specialize (H _ Hi Hci). apply candidate_iff in Hc as [Hnpj Hcej]; [|done].
      destruct (Hbest _ (info_block _ Hj)) as [E|Hpref].
      { unfold as_best. rewrite !received_slot by done.
        by injection E as -> -> ->. }
      destruct H. unfold beats. rewrite !received_slot by done. unfold preferred in Hpref. cbn in Hpref.
      destruct Hpref as [?|(_ & Hpref)]; [lia|done]. }
  split; [done|]. unfold shouldSignalFork, as_best. rewrite received_slot by done.
  assert (Hh : str_eqb (hi_hash self) (hi_hash i) = false).
  { apply bool_decide_eq_false. intros E. apply Hne. symmetry. by apply info_hash_inj. }
  change (bytes_of (Some (hi_hash i))) with (hi_hash i). rewrite Hh. change MinForkSlot with 0.
  assert (E0 : (hi_slot i =? 0) = false) by lia. rewrite E0. cbn [negb andb].
  destruct (Hbest _ (info_block _ Hself)) as [E|Hpref].
  { apply (f_equal b_hash) in E. cbn in E. apply bool_decide_eq_false in Hh. done. }
  unfold preferred in Hpref. cbn in Hpref.
  destruct (Z.ltb_spec (hi_epoch i) (hi_epoch self)); [lia|]. destruct (Z.ltb_spec (hi_epoch self) (hi_epoch i)); [done|].
  destruct Hpref as [?|(_ & [?|(E & Hlt)])]; [lia|apply orb_true_iff; left; by apply Z.ltb_lt|].
  rewrite E, Z.eqb_refl, Hlt. apply orb_true_iff. right. cbn. apply negb_true_iff, Z.ltb_ge.
  pose proof (k_nonce _ _ _ _ _ Hk) as Hn. rewrite Forall_forall in Hn. rewrite (Hn _ Hself). apply Hk.
Qed.

Lemma fork_round_decides w : winner blocks w ->
  fork_round d1 infos =
  if decide (block_of self = w) then None else Some (Some (b_hash w), b_slot w, b_epoch w).
Proof.
  intros Hw. unfold fork_round.
  destruct (fold_left _ _ _) as [s acc] eqn:Es.
  apply fork_scan_result in Es as [-> Hb]. rewrite (k_self _ _ _ _ _ Hk). cbn [last].
  destruct (decide (block_of self = w)) as [<-|Hne]; [by rewrite stays_on_winner|].
  destruct (block_info w (proj1 Hw)) as (i & Hi & ->).
  destruct (leaves_for_winner i acc Hi) as [-> ->]; [congruence|done..|]. unfold as_best. rewrite received_slot; [done..|].
  apply not_true_iff_false. intros H. apply Hne. by rewrite (processed_self _ Hi H).
Qed.
End choice.

(** C11: nodes that know the same headers of a nonce settle on the same one, as
    long as none of them received a header of a higher nonce (then a node may
    keep the higher hash of a slot) and none of the headers is notarized (no
    caller records one so).  There is one header among them such that every node,
    whatever order the headers arrived in, whichever of them it has processed,
    and whether or not it also received that one, in time or too late, stays if
    it processed that header and otherwise is told to leave for exactly it. *)
Theorem fork_choice_converges n blocks : proper blocks ->
  exists w, w ∈ blocks /\
  forall d infos self, knows d n infos self blocks ->
    fork_round (set_maxForkHeaderEpoch (getMaxEpochFromHdrsInfo infos) d) infos =
    if decide (block_of self = w) then None else Some (Some (b_hash w), b_slot w, b_epoch w).
Proof.
  intros Hp. destruct (winner_exists blocks) as [w Hw]; [apply Hp..|]. exists w. split; [apply Hw|].
  intros d infos self Hk. by eapply fork_round_decides.
Qed.

(** ** Over all nonces *)

(** A roll back is called for at nonce [n], to the header [acc]. *)
Definition forked (d : baseForkDetector) (n : Z) (acc : best) : Prop :=
  exists infos, headers d !! n = Some infos /\ length infos <> 1%nat /\ GetHighestFinalBlockNonce d < n /\
    fork_round (set_maxForkHeaderEpoch (getMaxEpochFromHdrsInfo infos) d) infos = Some acc.

(** The fields the check does not touch. *)
Definition same_records (d d' : baseForkDetector) : Prop :=
  headers d' = headers d /\ fork d' = fork d /\ blackListHandler d' = blackListHandler d /\
  genesisTime d' = genesisTime d /\ genesisNonce d' = genesisNonce d /\ genesisSlot d' = genesisSlot d.

Lemma same_records_refl d : same_records d d.
Proof. by unfold same_records. Qed.
Lemma same_records_trans a b c : same_records a b -> same_records b c -> same_records a c.
Proof. unfold same_records. naive_solver congruence. Qed.

Lemma fork_round_same d d' infos e : fork d' = fork d ->
  fork_round (set_maxForkHeaderEpoch e d') infos = fork_round (set_maxForkHeaderEpoch e d) infos.
Proof.
  intros Hf. unfold fork_round.
  assert (Hs : forall acc l, fold_left (fork_scan (set_maxForkHeaderEpoch e d')) l acc =
                             fold_left (fork_scan (set_maxForkHeaderEpoch e d)) l acc).
  { intros acc l. revert acc. induction l as [|i l IH]; intros acc; [done|]. cbn. rewrite IH. f_equal.
    unfold fork_scan, computeForkInfo, highestNonceReceived. cbn. by rewrite Hf. }
  rewrite Hs. destruct (fold_left _ _ _) as [[self|] acc]; [|done].
  unfold shouldSignalFork, highestNonceReceived. cbn. by rewrite Hf.
Qed.

(** A round of the loop, for the entry of one nonce. *)
Definition signals (d : baseForkDetector) (e : Z * list headerInfo) (acc : best) : Prop :=
  length e.2 <> 1%nat /\ GetHighestFinalBlockNonce d < e.1 /\
  fork_round (set_maxForkHeaderEpoch (getMaxEpochFromHdrsInfo e.2) d) e.2 = Some acc.

(** [out] reports the lowest of the entries seen. *)
Definition reports (d : baseForkDetector) (seen : list (Z * list headerInfo)) (out : ForkInfo) : Prop :=
  (IsDetected out = true <-> exists e acc, e ∈ seen /\ signals d e acc) /\
  (forall e acc, e ∈ seen -> signals d e acc -> fork_Nonce out <= e.1) /\
  ((fork_Nonce out = MaxUint64 /\ fork_Slot out = MaxUint64 /\ fork_Hash out = None) \/
   exists e acc, e ∈ seen /\ signals d e acc /\ fork_Nonce out = e.1 /\ e.1 < MaxUint64 /\
                 fork_Slot out = acc.1.2 /\ fork_Hash out = acc.1.1).

Lemma reports_skip d seen out e : reports d seen out -> (forall acc, ~ signals d e acc) -> reports d (seen ++ [e]) out.
Proof.
  intros (H1 & H2 & H3) Hn. split_and!.
  - rewrite H1. split; intros (e' & acc & He & Hs); exists e', acc; (split; [|done]).
    + rewrite elem_of_app. by left.
    + apply elem_of_app in He as [?|He]; [done|]. apply list_elem_of_singleton in He as ->. by apply Hn in Hs.
  - intros e' acc He Hs. apply elem_of_app in He as [He|He]; [by eapply H2|].
    apply list_elem_of_singleton in He as ->. by apply Hn in Hs.
  - destruct H3 as [H3|(e' & acc & He & H3)]; [by left|right]. exists e', acc. rewrite elem_of_app. auto.
Qed.

Lemma reports_hit d seen out e acc : reports d seen out -> signals d e acc ->
  reports d (seen ++ [e])
    (if e.1 <? fork_Nonce out
     then {| IsDetected := true; fork_Nonce := e.1; fork_Slot := acc.1.2; fork_Hash := acc.1.1 |}
     else {| IsDetected := true; fork_Nonce := fork_Nonce out; fork_Slot := fork_Slot out; fork_Hash := fork_Hash out |}).
Proof.
  intros (H1 & H2 & H3) Hs.
  assert (Hin : e ∈ seen ++ [e]) by (rewrite elem_of_app, list_elem_of_singleton; by right).
  assert (Hmax : fork_Nonce out <= MaxUint64) by (destruct H3 as [(-> & _)|(e' & a & _ & _ & -> & ? & _)]; lia).
  destruct (Z.ltb_spec e.1 (fork_Nonce out)); split_and!; cbn.
  - split; [intros _; by exists e, acc|done].
  - intros e' acc' He Hs'. apply elem_of_app in He as [He|He]; [specialize (H2 _ _ He Hs'); lia|].
    apply list_elem_of_singleton in He as ->. lia.
  - right. exists e, acc. split_and!; try done. lia.
  - split; [intros _; by exists e, acc|done].
  - intros e' acc' He Hs'. apply elem_of_app in He as [He|He]; [by eapply H2|].
    apply list_elem_of_singleton in He as ->. lia.
  - destruct H3 as [H3|(e' & acc' & He & H3)]; [by left|right]. exists e', acc'. rewrite elem_of_app. auto.
Qed.

Lemma check_loop_reports d d0 entries seen out d' out' : fork d = fork d0 ->
  reports d0 seen out -> check_loop d entries out = (d', out') ->
  reports d0 (seen ++ entries) out' /\ same_records d d'.
Proof.
  revert d seen out. induction entries as [|[nonce infos] rest IH]; intros d seen out Hf Hr Hc.
  { cbn in Hc. injection Hc as <- <-. rewrite app_nil_r. split; [done|apply same_records_refl]. }
  rewrite cons_middle, app_assoc. cbn in Hc.
  destruct (Nat.eqb_spec (length infos) 1).
  { eapply IH; [done| |exact Hc]. apply reports_skip; [done|]. intros acc (? & _). done. }
  destruct (Z.leb_spec nonce (cp_nonce (finalCheckpoint d))) as [Hle|Hlt].
  { eapply IH; [done| |exact Hc]. apply reports_skip; [done|]. intros acc (_ & Hlt & _). revert Hlt.
    unfold GetHighestFinalBlockNonce, finalCheckpoint in *. rewrite Hf in Hle. cbn. lia. }
  destruct (fork_round (set_maxForkHeaderEpoch (getMaxEpochFromHdrsInfo infos) d) infos) as [[[hash slot] epoch]|] eqn:Er.
  - edestruct IH as [H1 H2]; [|apply (reports_hit d0 seen out (nonce, infos) (hash, slot, epoch)); [done|]|exact Hc|split; [exact H1|exact H2]].
    + done.
    + split_and!; [done| |]; cbn.
      * unfold GetHighestFinalBlockNonce, finalCheckpoint in *. by rewrite <- Hf.
      * by rewrite (fork_round_same d0 d) in Er.
  - edestruct IH as [H1 H2]; [|apply (reports_skip d0 seen out (nonce, infos)); [done|]|exact Hc|split; [exact H1|exact H2]].
    + done.
    + intros acc (_ & _ & Hs). cbn [fst snd] in Hs. rewrite (fork_round_same d0 d) in Er by done. congruence.
Qed.

Section check.
Variable range : gmap Z (list headerInfo) -> list (Z * list headerInfo).
Hypothesis range_ok : forall m, range m ≡ₚ map_to_list m.

Lemma in_range m n infos : (n, infos) ∈ range m <-> m !! n = Some infos.
Proof. rewrite range_ok. apply elem_of_map_to_list. Qed.

Lemma isConsensusStuck_same clk d : same_records d (isConsensusStuck clk d).1.
Proof.
  unfold isConsensusStuck, isSyncing.
  destruct (_ =? _); [apply same_records_refl|]. destruct (NonceDifferenceWhenSynced <? _); [done|].
  destruct (now clk <? _); [done|]. by destruct (_ <=? _).
Qed.

Lemma check_fork_lowest clk d d' out :
  (isConsensusStuck clk d).2 = false -> rollBackNonce (fork d) = MaxUint64 ->
  CheckFork range clk d = (d', out) ->
  same_records d d' /\
  (IsDetected out = true <-> exists n acc, forked d n acc) /\
  (forall n acc, forked d n acc -> fork_Nonce out <= n) /\
  (fork_Nonce out < MaxUint64 ->
   exists acc, forked d (fork_Nonce out) acc /\ fork_Slot out = acc.1.2 /\ fork_Hash out = acc.1.1 /\
               GetHighestFinalBlockNonce d < fork_Nonce out).
Proof.
  intros Hst Hrb Hc. unfold CheckFork in Hc. pose proof (isConsensusStuck_same clk d) as Hs1.
  destruct (isConsensusStuck clk d) as [d1 stuck]. cbn in Hst, Hs1. subst stuck.
  assert (Hh : headers d1 = headers d) by apply Hs1. assert (Hf : fork d1 = fork d) by apply Hs1.
  rewrite Hf, Hrb, Z.ltb_irrefl, Hh in Hc.
  eapply (check_loop_reports d1 d _ []) in Hc as [(H1 & H2 & H3) H4]; [|done|].
  2: { split_and!; cbn; [|intros e acc He; by apply elem_of_nil in He|by left].
       split; [done|]. intros (e & acc & He & _). by apply elem_of_nil in He. }
  cbn in *. assert (Hsig : forall n acc, forked d n acc <-> exists e, e ∈ range (headers d) /\ signals d e acc /\ e.1 = n).
  { intros n acc. split.
    - intros (infos & Hi & Hr). exists (n, infos). rewrite in_range. done.
    - intros ([n' infos] & He & (S1 & S2 & S3) & <-). apply in_range in He. by exists infos. }
  split; [by eapply same_records_trans|]. split_and!.
  - rewrite H1. split.
    + intros (e & acc & He & Hs). exists e.1, acc. rewrite Hsig. by exists e.
    + intros (n & acc & Hn). apply Hsig in Hn as (e & He & Hs & _). by exists e, acc.
  - intros n acc Hn. apply Hsig in Hn as (e & He & Hs & <-). by eapply H2.
  - intros Hlt. destruct H3 as [(E & _)|(e & acc & He & Hs & En & _ & Es & Eh)]; [lia|].
    exists acc. split_and!; try done; [by rewrite Hsig; exists e|]. rewrite En. apply Hs.
Qed.

(** When the consensus is not stuck and no roll back is forced, the check
    reports a fork exactly when some nonce above the final block has a header
    to be preferred to the processed one; it reports the lowest such nonce with
    that header, in whatever order the map is visited, never one at or below
    the final block, and it changes no header and no checkpoint. *)
Theorem check_fork_reports_lowest clk d d' out :
  (isConsensusStuck clk d).2 = false -> rollBackNonce (fork d) = MaxUint64 ->
  CheckFork range clk d = (d', out) ->
  same_records d d' /\
  (IsDetected out = true <-> exists n acc, forked d n acc) /\
  (forall n acc, forked d n acc -> fork_Nonce out <= n) /\
  (fork_Nonce out < MaxUint64 ->
   exists acc, forked d (fork_Nonce out) acc /\ fork_Slot out = acc.1.2 /\ fork_Hash out = acc.1.1 /\
               GetHighestFinalBlockNonce d < fork_Nonce out).
Proof. apply check_fork_lowest. Qed.
End check.
