(* ===== verification/BlockSync.v ===== *)
(** * Synchronization

    [core/process/sync/baseSync.go] with the parts of [metablock.go],
    [data/blockchain/blockchain.go] and [core/process/block] it drives: the loop
    that asks the fork detector, rolls blocks back, fetches the next header,
    and processes and commits it.  What those steps do elsewhere in the node
    (state tries, pools, stores, requests) is the interface [NodeOps]. *)

From S2P Require Import Prelude Common GoStd Tools ForkDetector.
From Stdlib Require Import SpecFloat.
Local Open Scope Z_scope.

Definition MaxSyncWithErrorsAllowed : Z := 10.
Definition MaxRetriesAvoidingSameRollback : Z := 2.

Inductive NodeState : Type := NsSynchronized | NsNotSynchronized | NsNotCalculated.
#[global] Instance NodeState_eq_dec : EqDecision NodeState.
Proof. solve_decision. Defined.

(** ** The rest of the node *)

(** Steps that cannot fail, and steps that can. *)
Inductive nodeEvent : Type :=
| PruneStateOnRollback (curr prev : header)
| RemoveHeaderByHash (hash : slice)
| RemoveNonceHash (nonce : Z)
(** Metrics, last slot and index after one block was rolled back. *)
| RolledBack (curr prev : header)
| RemoveHeadersHigherThanNonce (nonce : Z)
| RemoveHeaderRequests (nonce : Z) (hash : slice).
Inductive nodeCall : Type :=
| RevertStateToBlock (h : header)
| RestoreBlockIntoPools (h : header)
| ProcessBlock (h : header).

Class NodeOps (W : Type) : Type := {
  node_event : nodeEvent -> W -> W;
  node_call : nodeCall -> W -> W * res syncError unit;
  (** [headerStore.Get] with the decoding of the block. *)
  header_Get : W -> string -> res syncError header;
  (** [CalculateHash] of a header; [None] when it cannot be encoded. *)
  header_hash : header -> slice;
  getHeaderWithHashRequestingIfMissing : string -> W -> W * res syncError header;
  getHeaderWithNonceRequestingIfMissing : Z -> W -> W * res syncError header;
  (** The slot, fee and transaction root rules of a block. *)
  validateBlockAndSlot : header -> W -> res syncError unit;
  (** The work of a commit up to the committed tries; returns the hash. *)
  saveBlock : header -> W -> W * res syncError string;
  IsConnectedToTheNetwork : W -> bool;
}.

(** ** State *)

Record chainState : Type := { currentBlockHeader : option header; currentBlockHeaderHash : slice }.

Record nodeStatus : Type := {
  isNodeSynchronized : bool; isNodeStateCalculated : bool; hasLastBlock : bool; slotIndex : Z; hasStarted : bool;
  boot_forkInfo : ForkInfo;
}.

(** What a postponed or avoided attempt leaves behind. *)
Record attemptState : Type := {
  mapNonceSyncedWithErrors : gmap Z Z;
  isSyncPostponedForSlot : bool; postponedSyncSlotIndex : Z; postponedSyncNonce : Z;
  lastRollbackHash : slice; avoidingSameRollbackRetryCount : Z;
  epochToEndFinished : bool;
}.

Record baseBootstrap (W : Type) : Type := {
  forkDetector : baseForkDetector;
  chainHandler : chainState;
  status : nodeStatus;
  attempts : attemptState;
  node : W;
}.
Arguments forkDetector {W} _.
Arguments chainHandler {W} _.
Arguments status {W} _.
Arguments attempts {W} _.
Arguments node {W} _.
Arguments Build_baseBootstrap {W} _ _ _ _ _.

(** The fixed configuration of a node. *)
Record bootConfig : Type := {
  genesisHeader : header; genesisHeaderHash : string;
  isInImportMode : bool; syncUntil : Z; fixAuditChangesV4 : bool;
}.

Section sync.
Context {W : Type} `{NO : NodeOps W}.
Variable range : gmap Z (list headerInfo) -> list (Z * list headerInfo).
Variable oob : spec_float -> Z.
Variable clk : slotClock.
Variable cfg : bootConfig.

Abbreviation BM := (M (baseBootstrap W) syncError).

(** ** Access to the components *)

Definition with_detector {A} (f : baseForkDetector -> baseForkDetector * A) : BM A := fun b =>
  let '(d, a) := f (forkDetector b) in
  (Build_baseBootstrap d (chainHandler b) (status b) (attempts b) (node b), Ok a).
Definition on_detector (f : baseForkDetector -> baseForkDetector) : BM unit := with_detector (fun d => (f d, tt)).
Definition set_status (s : nodeStatus) : BM unit := fun b =>
  (Build_baseBootstrap (forkDetector b) (chainHandler b) s (attempts b) (node b), Ok tt).
Definition set_attempts (f : attemptState -> attemptState) : BM unit := fun b =>
  (Build_baseBootstrap (forkDetector b) (chainHandler b) (status b) (f (attempts b)) (node b), Ok tt).
Definition node_run {A} (f : W -> W * res syncError A) : BM A := fun b =>
  let '(w, r) := f (node b) in
  (Build_baseBootstrap (forkDetector b) (chainHandler b) (status b) (attempts b) w, r).
Definition emit (e : nodeEvent) : BM unit := node_run (fun w => (node_event e w, Ok tt)).
Definition call (c : nodeCall) : BM unit := node_run (node_call c).

(** The hash is copied, so an empty one becomes nil. *)
Definition SetCurrentBlockHeaderAndHash (h : option header) (hash : slice) : BM unit := fun b =>
  let hash := if slen (bytes_of hash) =? 0 then None else hash in
  (Build_baseBootstrap (forkDetector b)
     {| currentBlockHeader := h; currentBlockHeaderHash := hash |} (status b) (attempts b) (node b), Ok tt).

Definition current_nonce (b : baseBootstrap W) : option Z := GetNonce <$> currentBlockHeader (chainHandler b).
Definition getNonceForNextBlock (b : baseBootstrap W) : Z :=
  wrap_u64 (default (GetNonce (genesisHeader cfg)) (current_nonce b) + 1).
Definition getNonceForCurrentBlock (b : baseBootstrap W) : Z :=
  default (GetNonce (genesisHeader cfg)) (current_nonce b).

(** ** Node state *)

Definition computeNodeState : BM unit :=
  b ← get;
  if (slotIndex (status b) =? Index clk) && isNodeStateCalculated (status b) then mret tt
  else
    info ← with_detector (CheckFork range clk);
    b ← get;
    let probable := probableHighestNonce (forkDetector b) in
    let hasLast := match currentBlockHeader (chainHandler b) with
                   | None => probable =? GetNonce (genesisHeader cfg)
                   | Some h => probable <=? GetNonce h
                   end in
    let lastSlot := default (GetSlot (genesisHeader cfg)) (GetSlot <$> currentBlockHeader (chainHandler b)) in
    let started := hasStarted (status b) || (SafeI64ToU64 (Index clk) <=? lastSlot) in
    set_status {| isNodeSynchronized := negb (IsDetected info) && hasLast && IsConnectedToTheNetwork (node b) && started;
                  isNodeStateCalculated := true; hasLastBlock := hasLast; slotIndex := Index clk;
                  hasStarted := started; boot_forkInfo := info |}.

Definition GetNodeState (b : baseBootstrap W) : NodeState :=
  if isInImportMode cfg then NsNotSynchronized
  else if negb ((slotIndex (status b) =? Index clk) && isNodeStateCalculated (status b)) then NsNotCalculated
  else if isNodeSynchronized (status b) then NsSynchronized
  else NsNotSynchronized.

(** [isNodeStateCalculated = false]. *)
Definition forget_state : BM unit :=
  b ← get;
  let s := status b in
  set_status {| isNodeSynchronized := isNodeSynchronized s; isNodeStateCalculated := false;
                hasLastBlock := hasLastBlock s; slotIndex := slotIndex s; hasStarted := hasStarted s;
                boot_forkInfo := boot_forkInfo s |}.

Definition isForcedRollBackOneBlock (info : ForkInfo) : bool :=
  IsDetected info && (fork_Nonce info =? MaxUint64) && bool_decide (fork_Hash info = None).
Definition isForcedRollBackToNonce (info : ForkInfo) : bool :=
  IsDetected info && (fork_Slot info =? MaxUint64) && bool_decide (fork_Hash info = None).

(** ** Rolling back *)

Definition removeHeaderFromPools (h : header) : BM slice :=
  match header_hash h with
  | None => mret None
  | Some hash => _ ← emit (RemoveHeaderByHash (Some hash)); mret (Some hash)
  end.

Definition cleanCachesAndStorageOnRollback (h : header) : BM unit :=
  hash ← removeHeaderFromPools h;
  _ ← on_detector (RemoveHeader range (GetNonce h) hash);
  emit (RemoveNonceHash (GetNonce h)).

(** Failures are only logged. *)
Definition restoreState (hash : slice) (h : header) : BM unit := fun b =>
  let '(b1, _) := SetCurrentBlockHeaderAndHash (Some h) hash b in
  let '(b2, _) := call (RevertStateToBlock h) b1 in
  (b2, Ok tt).

(** The deferred [restoreState] of a failed step. *)
Definition or_restore {A} (hash : slice) (h : header) (m : BM A) : BM A := fun b =>
  match m b with
  | (b1, Err e) => ((restoreState hash h b1).1, Err e)
  | r => r
  end.

Definition rollBackOneBlock (currHash : slice) (curr : header) (prevHash : slice) (prev : header) : BM header :=
  or_restore currHash curr
    (_ ← (if 1 <? GetNonce curr then SetCurrentBlockHeaderAndHash (Some prev) prevHash
          else SetCurrentBlockHeaderAndHash None None);
     _ ← call (RevertStateToBlock prev);
     _ ← emit (PruneStateOnRollback curr prev);
     _ ← call (RestoreBlockIntoPools curr);
     _ ← cleanCachesAndStorageOnRollback curr;
     mret curr).

(** One round: [true] when the loop goes on. *)
Definition rollBack_round (revertUsingForkNonce : bool) : BM bool :=
  b ← get;
  let info := boot_forkInfo (status b) in
  let currHash := currentBlockHeaderHash (chainHandler b) in
  curr ← lift match currentBlockHeader (chainHandler b) with None => Err ErrNilBlockHeader | Some h => Ok h end;
  _ ← reject_if (negb revertUsingForkNonce && (GetNonce curr <=? GetHighestFinalBlockNonce (forkDetector b)))
        ErrRollBackBehindFinalHeader;
  _ ← reject_if (revertUsingForkNonce && (GetNonce curr <? fork_Nonce info)) ErrRollBackBehindForkNonce;
  prev ← lift (header_Get (node b) (GetParentHash curr));
  _ ← rollBackOneBlock currHash curr (Some (GetParentHash curr)) prev;
  _ ← emit (RolledBack curr prev);
  mret (revertUsingForkNonce && (fork_Nonce info <? GetNonce curr)).

(** The loop; [None] when the rounds given do not suffice. *)
Fixpoint rollBack (rounds : nat) (revertUsingForkNonce : bool) (b : baseBootstrap W)
  : baseBootstrap W * option (res syncError unit) :=
  match rounds with
  | O => (b, None)
  | S k =>
      match rollBack_round revertUsingForkNonce b with
      | (b1, Err e) => (b1, Some (Err e))
      | (b1, Ok true) => rollBack k revertUsingForkNonce b1
      | (b1, Ok false) => (b1, Some (Ok tt))
      end
  end.

(** Every round lowers the current nonce by one, so the nonce of the current
    block bounds the rounds. *)
Definition rounds_of (b : baseBootstrap W) : nat := S (Z.to_nat (getNonceForCurrentBlock b)).
Definition runRollBack (revertUsingForkNonce : bool) : BM unit := fun b =>
  match rollBack (rounds_of b) revertUsingForkNonce b with
  | (b1, Some r) => (b1, r)
  | (b1, None) => (b1, Err (ErrOther "the loop does not end"))
  end.

(** A failure that is only logged. *)
Definition logged (m : BM unit) : BM unit := fun b => ((m b).1, Ok tt).

Definition remove_higher : BM unit :=
  b ← get; emit (RemoveHeadersHigherThanNonce (getNonceForCurrentBlock b)).

Definition rollBackOneBlockForced : BM unit :=
  _ ← logged (runRollBack false);
  _ ← on_detector (ResetFork range clk);
  remove_higher.
Definition rollBackToNonceForced : BM unit :=
  _ ← logged (runRollBack true);
  _ ← on_detector (ResetProbableHighestNonce range);
  remove_higher.

(** ** Fetching, processing, committing *)

Definition getNextHeaderRequestingIfMissing : BM header :=
  b ← get;
  let nonce := getNonceForNextBlock b in
  let info := boot_forkInfo (status b) in
  let hash := if IsDetected info then fork_Hash info else GetNotarizedHeaderHash nonce (forkDetector b) in
  match hash with
  | Some hash => node_run (getHeaderWithHashRequestingIfMissing hash)
  | None => node_run (getHeaderWithNonceRequestingIfMissing nonce)
  end.

Definition checkSlotIsNotInTheFuture (h : header) : res syncError unit :=
  if negb (fixAuditChangesV4 cfg) then Ok tt
  else if wrap_u64 (SafeI64ToU64 (Index clk) + 1) <? GetSlot h then Err ErrSlotAheadOfChronology
  else Ok tt.

Definition validateGenesisBlock (h : header) : res syncError unit :=
  if GetNonce h =? wrap_u64 (GetNonce (genesisHeader cfg) + 1) then
    if str_eqb (GetParentHash h) (genesisHeaderHash cfg) then Ok tt else Err ErrBlockHashDoesNotMatch
  else Err ErrWrongNonceInBlock.

Definition validateBlockAgainstCurrentHeader (h curr : header) (currHash : slice) : res syncError unit :=
  if GetSlot h <=? GetSlot curr then Err ErrLowerSlotInBlock
  else if negb (GetNonce h =? wrap_u64 (GetNonce curr + 1)) then Err ErrWrongNonceInBlock
  else if negb (str_eqb (GetParentHash h) (bytes_of currHash)) then Err ErrBlockHashDoesNotMatch
  else if negb (str_eqb (GetPrevRandSeed h) (GetRandSeed curr)) then Err ErrRandSeedDoesNotMatch
  else if GetEpoch h <? GetEpoch curr then Err ErrEpochDoesNotMatch
  else if wrap_u32 (GetEpoch curr + 1) <? GetEpoch h then Err ErrEpochDoesNotMatch
  else Ok tt.

Definition checkBlockValidity (h : header) : BM unit :=
  b ← get;
  _ ← lift (checkSlotIsNotInTheFuture h);
  match currentBlockHeader (chainHandler b) with
  | None => lift (validateGenesisBlock h)
  | Some curr =>
      _ ← lift (validateBlockAgainstCurrentHeader h curr (currentBlockHeaderHash (chainHandler b)));
      lift (validateBlockAndSlot h (node b))
  end.

(** The refusal of the fork detector is only logged. *)
Definition CommitBlock (h : header) : BM unit :=
  _ ← checkBlockValidity h;
  hash ← node_run (saveBlock h);
  _ ← with_detector (fun d => AddHeader range oob clk (Some h) (Some hash) BHProcessed d);
  SetCurrentBlockHeaderAndHash (Some h) (Some hash).

Definition processReceivedHeader (h : header) (hash : slice) : BM unit :=
  if SafeI64ToU64 (Index clk) <? GetSlot h then mret tt
  else _ ← with_detector (fun d => AddHeader range oob clk (Some h) hash BHReceived d); mret tt.

(** ** A round of synchronization *)

Definition isBlockBodyRejected (e : syncError) : bool :=
  bool_decide (e = ErrBlockBodyNotMatchingHeader) || bool_decide (e = ErrTransactionResultMismatch) ||
  bool_decide (e = ErrBlockExecutionNotMatchingHeader).

Definition postponeSync (slotIdx nonce : Z) : BM unit :=
  set_attempts (fun a =>
    {| mapNonceSyncedWithErrors := mapNonceSyncedWithErrors a; isSyncPostponedForSlot := true;
       postponedSyncSlotIndex := slotIdx; postponedSyncNonce := nonce; lastRollbackHash := lastRollbackHash a;
       avoidingSameRollbackRetryCount := avoidingSameRollbackRetryCount a;
       epochToEndFinished := epochToEndFinished a |}).
Definition isSyncPostponed (b : baseBootstrap W) : bool :=
  isSyncPostponedForSlot (attempts b) && (postponedSyncSlotIndex (attempts b) =? Index clk) &&
  (postponedSyncNonce (attempts b) =? getNonceForNextBlock b).

Definition set_errors (m : gmap Z Z) : BM unit :=
  set_attempts (fun a =>
    {| mapNonceSyncedWithErrors := m; isSyncPostponedForSlot := isSyncPostponedForSlot a;
       postponedSyncSlotIndex := postponedSyncSlotIndex a; postponedSyncNonce := postponedSyncNonce a;
       lastRollbackHash := lastRollbackHash a; avoidingSameRollbackRetryCount := avoidingSameRollbackRetryCount a;
       epochToEndFinished := epochToEndFinished a |}).
Definition set_rollback_memory (hash : slice) (count : Z) : BM unit :=
  set_attempts (fun a =>
    {| mapNonceSyncedWithErrors := mapNonceSyncedWithErrors a; isSyncPostponedForSlot := isSyncPostponedForSlot a;
       postponedSyncSlotIndex := postponedSyncSlotIndex a; postponedSyncNonce := postponedSyncNonce a;
       lastRollbackHash := hash; avoidingSameRollbackRetryCount := count;
       epochToEndFinished := epochToEndFinished a |}).
Definition finish_epoch : BM unit :=
  set_attempts (fun a =>
    {| mapNonceSyncedWithErrors := mapNonceSyncedWithErrors a; isSyncPostponedForSlot := isSyncPostponedForSlot a;
       postponedSyncSlotIndex := postponedSyncSlotIndex a; postponedSyncNonce := postponedSyncNonce a;
       lastRollbackHash := lastRollbackHash a; avoidingSameRollbackRetryCount := avoidingSameRollbackRetryCount a;
       epochToEndFinished := true |}).

Definition incrementSyncedWithErrorsForNonce (nonce : Z) : BM Z :=
  b ← get;
  let m := mapNonceSyncedWithErrors (attempts b) in
  let n := wrap_u32 (default 0 (m !! nonce) + 1) in
  _ ← set_errors (<[nonce := n]> m);
  mret n.

Definition cleanNoncesSyncedWithErrorsBehindFinal : BM unit :=
  b ← get;
  set_errors (filter (fun kv => GetHighestFinalBlockNonce (forkDetector b) <= kv.1) (mapNonceSyncedWithErrors (attempts b))).

(** A failure that is neither early nor a rejected body. *)
Definition count_failure (h : option header) (e : syncError) : BM unit :=
  b ← get;
  let isProcessWithError := bool_decide (is_Some h) && negb (bool_decide (e = ErrTimeIsOut)) in
  num ← incrementSyncedWithErrorsForNonce (getNonceForNextBlock b);
  let limitReached := (MaxSyncWithErrorsAllowed <=? num) && IsInProperSlot (Index clk) in
  if isProcessWithError || limitReached then
    _ ← match h with
        | Some hd => hash ← removeHeaderFromPools hd; on_detector (RemoveHeader range (GetNonce hd) hash)
        | None => mret tt
        end;
    _ ← logged (runRollBack false);
    if limitReached then
      _ ← on_detector (ResetProbableHighestNonce range);
      remove_higher
    else mret tt
  else mret tt.

Definition doJobOnSyncBlockFail (h : option header) (e : syncError) (slotIdx : Z) : BM unit :=
  match h with
  | Some hd =>
      if bool_decide (e = ErrSlotAheadOfChronology) then postponeSync slotIdx (GetNonce hd)
      else if isBlockBodyRejected e then
        hash ← removeHeaderFromPools hd; emit (RemoveHeaderRequests (GetNonce hd) hash)
      else count_failure h e
  | None => count_failure h e
  end.

(** The deferred handling of an error. *)
Definition or_fail {A} (h : option header) (slotIdx : Z) (m : BM A) : BM A := fun b =>
  match m b with
  | (b1, Err e) => ((doJobOnSyncBlockFail h e slotIdx b1).1, Err e)
  | r => r
  end.

(** Fetching, processing and committing the next block. *)
Definition sync_next : BM unit :=
  b ← get;
  if isSyncPostponed b then mret tt
  else
    h ← or_fail None 0 getNextHeaderRequestingIfMissing;
    if negb (syncUntil cfg =? 0) && (syncUntil cfg <=? GetEpoch h) then finish_epoch
    else
      _ ← or_fail (Some h) (Index clk) (call (ProcessBlock h));
      _ ← or_fail (Some h) (Index clk) (CommitBlock h);
      cleanNoncesSyncedWithErrorsBehindFinal.

(** A forced roll back of one block, unless the same block was just rolled
    back. *)
Definition forced_one : BM unit :=
  b ← get;
  let currHash := currentBlockHeaderHash (chainHandler b) in
  let currNonce := default 0 (current_nonce b) in
  let again := str_eqb (bytes_of currHash) (bytes_of (lastRollbackHash (attempts b))) in
  let count := avoidingSameRollbackRetryCount (attempts b) + 1 in
  if again && (count <=? MaxRetriesAvoidingSameRollback) then
    _ ← set_rollback_memory (lastRollbackHash (attempts b)) count;
    on_detector (SoftResetFork clk (wrap_u64 (currNonce + 1)))
  else
    _ ← set_rollback_memory currHash 0;
    rollBackOneBlockForced.

(** The work of [syncBlock] on a node that is not synchronized. *)
Definition sync_forked : BM unit :=
  b ← get;
  let info := boot_forkInfo (status b) in
  if negb (IsDetected info) then sync_next
  else if isForcedRollBackOneBlock info then forced_one
  else if isForcedRollBackToNonce info then rollBackToNonceForced
  else _ ← runRollBack true; sync_next.

Definition syncBlock : BM unit := fun b =>
  let '(b1, _) := computeNodeState b in
  if negb (bool_decide (GetNodeState b1 = NsNotSynchronized)) then (b1, Ok tt)
  else
    let '(b2, r) := sync_forked b1 in
    ((forget_state b2).1, r).
End sync.
