(* ===== verification/FinalBlocks.v ===== *)
(** * Final blocks stay

    The invariant of the fork detector and the chain under every step of the
    synchronization: checkpoints climb with the chain, the final checkpoint is
    one of them, and a roll back removes only blocks above it. *)

From S2P Require Import Prelude Common GoStd Tools ForkDetector ForkChoice BlockSync.
From Stdlib Require Import SpecFloat.
Local Open Scope Z_scope.

(** ** Sorted checkpoints *)

Definition climbing (l : list checkpointInfo) : Prop := StronglySorted Z.lt (cp_nonce <$> l).

Lemma climbing_filter (P : checkpointInfo -> Prop) `{!forall c, Decision (P c)} l : climbing l -> climbing (filter P l).
Proof.
  unfold climbing. induction l as [|c l IH]; [done|]. intros Hs. rewrite fmap_cons in Hs. apply StronglySorted_inv in Hs as [H1 H2].
  destruct (decide (P c)); [|by rewrite filter_cons_False; [apply IH|]].
  rewrite filter_cons_True by done. rewrite fmap_cons. constructor; [by apply IH|].
  rewrite Forall_forall in *. intros n Hn. apply H2. apply list_elem_of_fmap in Hn as (x & -> & Hx).
  apply list_elem_of_filter in Hx as [_ Hx]. by apply list_elem_of_fmap_2.
Qed.

Lemma climbing_snoc l c : climbing l -> Forall (fun x => cp_nonce x < cp_nonce c) l -> climbing (l ++ [c]).
Proof.
  unfold climbing. intros H Hall. rewrite fmap_app. cbn. apply StronglySorted_app_2.
  - intros x y Hx Hy. apply list_elem_of_fmap in Hx as (a & -> & Ha). rewrite Forall_forall in Hall.
    apply list_elem_of_singleton in Hy as ->. by apply Hall.
  - done.
  - by repeat constructor.
Qed.

Lemma climbing_last l c x : climbing l -> last l = Some c -> x ∈ l -> cp_nonce x <= cp_nonce c.
Proof.
  unfold climbing. induction l as [|y l IH]; [done|]. intros H Hl Hx. cbn in H. apply StronglySorted_inv in H as [H1 H2].
  destruct l as [|z l].
  { cbn in Hl. injection Hl as ->. apply list_elem_of_singleton in Hx as ->. lia. }
  rewrite last_cons_cons in Hl. apply elem_of_cons in Hx as [->|Hx]; [|by apply IH].
  rewrite Forall_forall in H2. apply Z.lt_le_incl, H2. apply list_elem_of_fmap_2. by apply last_Some_elem_of in Hl.
Qed.

(** ** The invariant of the detector *)

Section inv.
Context {W : Type} `{NO : NodeOps W}.

(** Every recorded header is one of the network with its own nonce. *)
Definition header_known (hash : string) (n : Z) : Prop :=
  exists h, header_hash h = Some hash /\ GetNonce h = n.
Definition info_known (i : headerInfo) (n : Z) : Prop :=
  header_known (hi_hash i) n /\ 0 <= hi_epoch i /\ hi_slot i <= MaxInt64.
Definition headers_known (m : gmap Z (list headerInfo)) : Prop :=
  forall n infos i, m !! n = Some infos -> i ∈ infos -> info_known i n.

(** [c] is the nonce of the current block. *)
Record detector_inv (d : baseForkDetector) (c : Z) : Prop := {
  di_climbing : climbing (checkpoint (fork d));
  di_current : Forall (fun x => cp_nonce x <= c) (checkpoint (fork d));
  di_final : finalCheckpoint d ∈ checkpoint (fork d);
  di_no_roll_back : rollBackNonce (fork d) = MaxUint64;
  di_known : headers_known (headers d);
}.

(** An operation that leaves checkpoints, final block and forced roll back. *)
Definition same_checkpoints (d d' : baseForkDetector) : Prop :=
  checkpoint (fork d') = checkpoint (fork d) /\ finalCheckpoint d' = finalCheckpoint d /\
  rollBackNonce (fork d') = rollBackNonce (fork d).

Lemma detector_inv_same d d' c : same_checkpoints d d' -> headers_known (headers d') ->
  detector_inv d c -> detector_inv d' c.
Proof. intros (E1 & E2 & E3) Hk [? ? ? ? ?]. split; rewrite ?E1, ?E2, ?E3; done. Qed.

Lemma headers_known_sub m m' : headers_known m ->
  (forall n l, m' !! n = Some l -> exists l0, m !! n = Some l0 /\ l ⊆ l0) -> headers_known m'.
Proof. intros Hk Hsub n l i Hl Hi. destruct (Hsub _ _ Hl) as (l0 & H0 & Hin). eapply Hk; [exact H0|by apply Hin]. Qed.

Lemma nonempty_Some {A} (l l' : list A) : nonempty l = Some l' -> l' = l.
Proof. destruct l; cbn; congruence. Qed.

Lemma filter_sub {A} (P : A -> Prop) `{!forall x, Decision (P x)} (l : list A) : filter P l ⊆ l.
Proof. intros x Hx. by apply list_elem_of_filter in Hx as [_ ?]. Qed.

Lemma cleanup_known n d : headers_known (headers d) ->
  headers_known (headers (cleanupReceivedHeadersHigherThanNonce n d)).
Proof.
  intros Hk. eapply headers_known_sub; [exact Hk|]. cbn. intros m l Hl. rewrite map_lookup_imap in Hl.
  destruct (headers d !! m) as [l0|]; [|done]. cbn in Hl. exists l0. split; [done|].
  destruct (m <=? n); [by simplify_eq|]. apply nonempty_Some in Hl as ->. apply filter_sub.
Qed.

Lemma remove_headers_known n (P : headerInfo -> Prop) `{!forall i, Decision (P i)} m : headers_known m ->
  headers_known (match nonempty (filter P (default [] (m !! n))) with
                 | None => delete n m
                 | Some l => <[n := l]> m
                 end).
Proof.
  intros Hk. destruct (nonempty _) as [l|] eqn:E.
  - apply nonempty_Some in E as ->. intros n' infos i Hl Hi. apply lookup_insert_Some in Hl as [[<- <-]|[_ Hl]]; [|by eapply Hk].
    apply list_elem_of_filter in Hi as [_ Hi]. destruct (m !! n) as [l|] eqn:El; cbn in Hi; [by eapply Hk|by apply elem_of_nil in Hi].
  - intros n' infos i Hl. apply lookup_delete_Some in Hl as [_ Hl]. by eapply Hk.
Qed.

Lemma append_known i d : info_known i (hi_nonce i) -> headers_known (headers d) ->
  headers_known (headers (bfd_append i d).1).
Proof.
  intros Hi Hk. unfold bfd_append. destruct (headers d !! hi_nonce i) as [[|j l]|] eqn:E; cbn.
  2: destruct (_ || _); cbn; [done|].
  all: intros n infos x Hl Hx; apply lookup_insert_Some in Hl as [[<- <-]|[_ Hl]]; try by eapply Hk.
  1,3: by apply list_elem_of_singleton in Hx as ->.
  change (j :: l ++ [i]) with ((j :: l) ++ [i]) in Hx.
  apply elem_of_app in Hx as [Hx|Hx]; [by eapply Hk|]. by apply list_elem_of_singleton in Hx as ->.
Qed.

Lemma append_fork i d : fork (bfd_append i d).1 = fork d.
Proof. unfold bfd_append. destruct (default [] _); [done|]. by destruct (existsb _ _). Qed.

Lemma purge_known d : headers_known (headers d) -> headers_known (headers (removePastOrInvalidRecords d)).
Proof.
  intros Hk. eapply headers_known_sub; [exact Hk|]. cbn. intros n l Hl. rewrite lookup_omap in Hl.
  destruct (filter _ (headers d) !! n) as [l0|] eqn:E; [|done]. cbn in Hl. apply map_lookup_filter_Some in E as [E _].
  exists l0. split; [done|]. apply nonempty_Some in Hl as ->. apply filter_sub.
Qed.

(** *** Operations that keep the checkpoints *)

Lemma reset_probable_inv range d c : detector_inv d c -> detector_inv (ResetProbableHighestNonce range d) c.
Proof. intros H. apply (detector_inv_same d); [done| |exact H]. apply (cleanup_known _ _ (di_known _ _ H)). Qed.
Lemma reset_fork_inv range clk d c : detector_inv d c -> detector_inv (ResetFork range clk d) c.
Proof. intros H. apply (detector_inv_same d); [done| |exact H]. apply (cleanup_known _ _ (di_known _ _ H)). Qed.
Lemma soft_reset_inv clk n d c : detector_inv d c -> detector_inv (SoftResetFork clk n d) c.
Proof. intros H. apply (detector_inv_same d); [done| |exact H]. apply H. Qed.

Lemma last_checkpoint_inv d c : detector_inv d c ->
  lastCheckpoint d ∈ checkpoint (fork d) /\ GetHighestFinalBlockNonce d <= cp_nonce (lastCheckpoint d) <= c.
Proof.
  intros [Hc Hb Hf _ _]. unfold lastCheckpoint. destruct (last (checkpoint (fork d))) as [x|] eqn:E.
  2: { apply last_None in E. rewrite E in Hf. by apply elem_of_nil in Hf. }
  cbn. pose proof (last_Some_elem_of _ _ E) as Hx. split; [done|]. split; [by eapply climbing_last|].
  rewrite Forall_forall in Hb. by apply Hb.
Qed.

Lemma final_le_current d c : detector_inv d c -> GetHighestFinalBlockNonce d <= c.
Proof. intros H. apply last_checkpoint_inv in H as (_ & H). lia. Qed.

(** Removing a header above the final one. *)
Lemma remove_header_inv range n hash d c c' : detector_inv d c -> GetHighestFinalBlockNonce d < n ->
  c' = c \/ (c' = c - 1 /\ n = c) -> detector_inv (RemoveHeader range n hash d) c'.
Proof.
  intros [Hc Hb Hf Hr Hk] Hn Hc'. split; cbn.
  - by apply climbing_filter.
  - rewrite Forall_forall in *. intros x Hx. apply list_elem_of_filter in Hx as [Hne Hx]. specialize (Hb _ Hx). lia.
  - apply list_elem_of_filter. split; [|done]. unfold GetHighestFinalBlockNonce in Hn. unfold finalCheckpoint in *. lia.
  - done.
  - by apply remove_headers_known.
Qed.

Lemma remove_header_final range n hash d :
  GetHighestFinalBlockNonce (RemoveHeader range n hash d) = GetHighestFinalBlockNonce d.
Proof. done. Qed.

Lemma check_validity_slot clk oob h hash d d' :
  checkBlockBasicValidity oob clk (Some h) (Some hash) d = (d', Ok tt) -> GetSlot h <= MaxInt64.
Proof.
  unfold checkBlockBasicValidity. destruct (tc_Has _ _); [done|]. destruct (negb _); [done|].
  destruct (_ <? 0); [done|]. destruct (_ <? 0); [done|].
  destruct (Z.ltb_spec (SafeI64ToU64 (Index clk +! 1)) (GetSlot h)) as [|Hle]; [done|]. intros _.
  pose proof (wrap_i64_range (Index clk + 1)) as Hw. unfold SafeI64ToU64 in Hle.
  destruct (_ <? 0); ilia.
Qed.

Lemma check_validity_same clk oob h hash d d' r : checkBlockBasicValidity oob clk h hash d = (d', r) ->
  headers d' = headers d /\ fork d' = fork d.
Proof.
  unfold checkBlockBasicValidity. destruct h as [h|], hash as [hash|]; try (by intros [= <- _]).
  repeat (match goal with |- context [if ?b then _ else _] => destruct b end); by intros [= <- _].
Qed.

(** A header that the node has not committed. *)
Lemma add_header_inv range oob clk h hash st d d' r c : detector_inv d c -> st <> BHProcessed ->
  header_hash h = Some hash -> 0 <= GetEpoch h -> AddHeader range oob clk (Some h) (Some hash) st d = (d', r) ->
  detector_inv d' c /\ GetHighestFinalBlockNonce d' = GetHighestFinalBlockNonce d.
Proof.
  intros Hd Hst Hh He H. unfold AddHeader in H. destruct (checkBlockBasicValidity _ _ _ _ _) as [d1 [[]|e]] eqn:E.
  1: pose proof (check_validity_slot _ _ _ _ _ _ E) as Hsl.
  all: apply check_validity_same in E as [E1 E2]; injection H as <- _.
  2: { split; [|unfold GetHighestFinalBlockNonce, finalCheckpoint; by rewrite E2].
       eapply detector_inv_same; [|by rewrite E1; apply Hd|done]. unfold same_checkpoints, finalCheckpoint. by rewrite E2. }
  assert (Hk1 : headers_known (headers d1)) by (rewrite E1; apply Hd).
  unfold processReceivedBlock. set (d2 := setHighestNonceReceived (GetNonce h) d1).
  assert (Hs2 : same_checkpoints d d2 /\ headers d2 = headers d1).
  { unfold d2, setHighestNonceReceived, same_checkpoints, finalCheckpoint. destruct (_ <=? _); cbn; by rewrite E2. }
  destruct Hs2 as [Hs2 Hh2]. destruct (bool_decide (st = BHProposed)).
  { split; [|unfold GetHighestFinalBlockNonce; by rewrite (proj1 (proj2 Hs2))]. eapply detector_inv_same; [exact Hs2|by rewrite Hh2|done]. }
  set (st' := if isHeaderReceivedTooLate clk h st BlockFinality then BHReceivedTooLate else st).
  assert (Hst' : bool_decide (st' = BHProcessed) = false) by (unfold st'; destruct (isHeaderReceivedTooLate _ _ _ _); [done|by apply bool_decide_eq_false]).
  rewrite Hst'. pose proof (append_known (header_info h hash st') d2) as Ha. pose proof (append_fork (header_info h hash st') d2) as Hf.
  destruct (bfd_append _ d2) as [d3 []]; cbn in *.
  all: assert (Hi : detector_inv d3 c /\ GetHighestFinalBlockNonce d3 = GetHighestFinalBlockNonce d).
  1,3: split; [eapply detector_inv_same; [|apply Ha; [split_and!; [by exists h|done..]|by rewrite Hh2]|exact Hd]|].
  1-4: unfold same_checkpoints, GetHighestFinalBlockNonce, finalCheckpoint in *; rewrite Hf; by destruct Hs2 as (? & -> & ?).
  - destruct Hi as [Hi Hg]. split; [|exact Hg]. apply (detector_inv_same d3); [done| |exact Hi]. apply Hi.
  - exact Hi.
Qed.

Lemma detector_inv_weaken d c c' : c <= c' -> detector_inv d c -> detector_inv d c'.
Proof.
  intros Hle [? Hb ? ? ?]. split; try done. eapply Forall_impl; [exact Hb|]. cbn. lia.
Qed.

Lemma job_inv h hash d c : detector_inv d c -> GetNonce h = c + 1 ->
  detector_inv (doJobOnBHProcessed h hash d) (c + 1) /\
  GetHighestFinalBlockNonce d <= GetHighestFinalBlockNonce (doJobOnBHProcessed h hash d).
Proof.
  intros Hd Hn. destruct (last_checkpoint_inv d c Hd) as (Hin & Hlo & Hhi). destruct Hd as [Hc Hb Hf Hr Hk].
  assert (Hb' : Forall (fun x => cp_nonce x < c + 1) (checkpoint (fork d))) by (eapply Forall_impl; [exact Hb|]; cbn; lia).
  split; [|done]. split; cbn.
  - apply climbing_filter, climbing_snoc; [done|]. cbn. by rewrite Hn.
  - rewrite Forall_forall in *. intros x Hx. apply list_elem_of_filter in Hx as [_ Hx].
    apply elem_of_app in Hx as [Hx|Hx]; [specialize (Hb _ Hx); lia|]. apply list_elem_of_singleton in Hx as ->. cbn. lia.
  - apply list_elem_of_filter. cbn. split; [lia|]. apply elem_of_app. by left.
  - done.
  - apply (purge_known (addCheckpoint {| cp_nonce := GetNonce h; cp_slot := GetSlot h; cp_hash := Some hash |}
             (setFinalCheckpoint (lastCheckpoint d) d))). done.
Qed.

(** The header of a committed block. *)
Lemma add_processed_inv range oob clk h hash d d' r c : detector_inv d c -> header_hash h = Some hash ->
  0 <= GetEpoch h -> GetNonce h = c + 1 -> AddHeader range oob clk (Some h) (Some hash) BHProcessed d = (d', r) ->
  detector_inv d' (c + 1) /\ GetHighestFinalBlockNonce d <= GetHighestFinalBlockNonce d'.
Proof.
  intros Hd Hh He Hn H. unfold AddHeader in H. destruct (checkBlockBasicValidity _ _ _ _ _) as [d1 [[]|e]] eqn:E.
  1: pose proof (check_validity_slot _ _ _ _ _ _ E) as Hsl.
  all: apply check_validity_same in E as [E1 E2]; injection H as <- _.
  all: assert (Hd1 : detector_inv d1 c) by
    (apply (detector_inv_same d); [unfold same_checkpoints, finalCheckpoint; by rewrite E2|by rewrite E1; apply Hd|done]).
  all: assert (Hg : GetHighestFinalBlockNonce d = GetHighestFinalBlockNonce d1)
    by (unfold GetHighestFinalBlockNonce, finalCheckpoint; by rewrite E2).
  2: { rewrite Hg. split; [|lia]. eapply detector_inv_weaken; [|exact Hd1]. lia. }
  unfold processReceivedBlock. set (d2 := setHighestNonceReceived (GetNonce h) d1).
  assert (Hd2 : detector_inv d2 c /\ GetHighestFinalBlockNonce d2 = GetHighestFinalBlockNonce d1).
  { unfold d2, setHighestNonceReceived. destruct (_ <=? _); [done|]. split; [|done].
    apply (detector_inv_same d1); [done|apply Hd1|done]. }
  cbn [bool_decide BlockHeaderState_eq_dec isHeaderReceivedTooLate].
  rewrite bool_decide_eq_false_2 by done. unfold isHeaderReceivedTooLate. rewrite bool_decide_eq_true_2 by done.
  pose proof (append_known (header_info h hash BHProcessed) d2) as Ha. pose proof (append_fork (header_info h hash BHProcessed) d2) as Hf.
  destruct (bfd_append _ d2) as [d3 app]. cbn [fst] in Ha, Hf.
  assert (Hd3 : detector_inv d3 c /\ GetHighestFinalBlockNonce d3 = GetHighestFinalBlockNonce d1).
  { split; [|unfold GetHighestFinalBlockNonce, finalCheckpoint; rewrite Hf; apply Hd2].
    apply (detector_inv_same d2); [|apply Ha; [split_and!; [by exists h|done..]|apply Hd2]|apply Hd2].
    unfold same_checkpoints, finalCheckpoint. by rewrite Hf. }
  destruct Hd3 as [Hd3 Hg3]. destruct app; cbn [negb].
  - rewrite bool_decide_eq_true_2 by done. destruct (job_inv h hash d3 c Hd3 Hn) as [Hj Hle].
    split; [|rewrite Hg, <- Hg3; exact Hle]. apply (detector_inv_same (doJobOnBHProcessed h hash d3)); [done|apply Hj|done].
  - split; [eapply detector_inv_weaken; [|exact Hd3]; lia|]. rewrite Hg, Hg3. lia.
Qed.

Lemma check_fork_inv range clk d c : (forall m, range m ≡ₚ map_to_list m) -> detector_inv d c ->
  detector_inv (CheckFork range clk d).1 c /\
  GetHighestFinalBlockNonce (CheckFork range clk d).1 = GetHighestFinalBlockNonce d.
Proof.
  intros Hr Hd. assert (Hs : same_records d (CheckFork range clk d).1).
  { destruct (CheckFork range clk d) as [d' out] eqn:E. cbn.
    destruct (isConsensusStuck clk d).2 eqn:Est.
    - pose proof (isConsensusStuck_same clk d) as Hs. unfold CheckFork in E.
      destruct (isConsensusStuck clk d) as [d1 stuck]. cbn in Est, Hs. subst. by injection E as <- _.
    - eapply check_fork_lowest; [exact Hr|exact Est|apply Hd|exact E]. }
  destruct Hs as (H1 & H2 & _). split; [|unfold GetHighestFinalBlockNonce, finalCheckpoint; by rewrite H2].
  apply (detector_inv_same d); [unfold same_checkpoints, finalCheckpoint; by rewrite H2|rewrite H1; apply Hd|done].
Qed.

Lemma no_best_silent d self : 0 <= hi_epoch self -> hi_slot self <= MaxInt64 ->
  shouldSignalFork d self no_best = false.
Proof.
  intros He Hs. unfold shouldSignalFork, no_best. destruct (str_eqb _ _); [done|].
  change (MaxUint64 =? MinForkSlot) with false. cbn [negb andb].
  destruct (Z.ltb_spec 0 (hi_epoch self)); [done|]. destruct (Z.ltb_spec (hi_epoch self) 0); [lia|].
  apply orb_false_iff. split; [apply Z.ltb_ge; ilia|]. apply andb_false_iff. left. apply andb_false_iff. left.
  apply Z.eqb_neq. ilia.
Qed.

(** What a report of the check points to: a forced roll back of one block, or a
    known header above the final block. *)
Definition report_ok (d : baseForkDetector) (info : ForkInfo) : Prop :=
  IsDetected info = true ->
  isForcedRollBackOneBlock info = true \/
  (GetHighestFinalBlockNonce d < fork_Nonce info < MaxUint64 /\
   exists hash, fork_Hash info = Some hash /\ header_known hash (fork_Nonce info)).

Lemma check_fork_report range clk d c : (forall m, range m ≡ₚ map_to_list m) -> detector_inv d c ->
  report_ok (CheckFork range clk d).1 (CheckFork range clk d).2.
Proof.
  intros Hr Hd. destruct (check_fork_inv range clk d c Hr Hd) as [_ Hg]. unfold report_ok. rewrite Hg.
  destruct (CheckFork range clk d) as [d' out] eqn:E. cbn. intros Hdet.
  destruct (isConsensusStuck clk d).2 eqn:Est.
  { unfold CheckFork in E. destruct (isConsensusStuck clk d) as [d1 stuck]. cbn in Est. subst.
    injection E as _ <-. by left. }
  assert (Hout : fork_Nonce out < MaxUint64 \/ isForcedRollBackOneBlock out = true).
  { unfold CheckFork in E. pose proof (isConsensusStuck_same clk d) as Hs. destruct (isConsensusStuck clk d) as [d1 stuck].
    cbn in Est, Hs. subst. assert (Hf : fork d1 = fork d) by apply Hs. rewrite Hf, (di_no_roll_back _ _ Hd), Z.ltb_irrefl in E.
    eapply (check_loop_reports d1 d1 _ []) in E as [(_ & _ & H3) _]; [|done|].
    2: { split_and!; cbn; [|intros e acc He; by apply elem_of_nil in He|by left].
         split; [done|]. intros (e & acc & He & _). by apply elem_of_nil in He. }
    destruct H3 as [(E1 & _ & E3)|(e & acc & _ & _ & -> & ? & _)]; [right|by left].
    unfold isForcedRollBackOneBlock. by rewrite Hdet, E1, E3. }
  destruct Hout as [Hlt|?]; [right|by left].
  eapply check_fork_lowest in E as (_ & _ & _ & H); [|exact Hr|exact Est|apply Hd].
  destruct (H Hlt) as (acc & Hfk & _ & Eh & Hfin). split; [lia|].
  destruct Hfk as (infos & Hi & _ & _ & Hround). unfold fork_round in Hround.
  destruct (fold_left _ _ _) as [self acc'] eqn:Escan. apply fork_scan_result in Escan as [Hself Hb].
  destruct self as [self|]; [|done]. destruct (shouldSignalFork _ self acc') eqn:Esig; [|done]. injection Hround as <-.
  destruct Hb as [[-> _]|(i & Hin & _ & _ & -> & _)].
  - symmetry in Hself. apply last_Some_elem_of, list_elem_of_filter in Hself as [_ Hself].
    destruct (di_known _ _ Hd _ _ _ Hi Hself) as (_ & He & Hsl). by rewrite no_best_silent in Esig.
  - exists (hi_hash i). split; [done|]. eapply (di_known _ _ Hd); [exact Hi|exact Hin].
Qed.
End inv.
