(* ===== verification/SyncSafety.v ===== *)
(** * The chain under synchronization

    The committed blocks as a linked list over the store, the effect of every
    operation of [baseSync.go] on it, and the theorems: a roll back ends and
    removes exactly the blocks it is meant to, and no sequence of steps ever
    reverts a block that was final. *)

From S2P Require Import Prelude Common GoStd Tools ForkDetector ForkChoice BlockSync FinalBlocks.
From Stdlib Require Import SpecFloat.
Local Open Scope Z_scope.

(** What the synchronization relies on: stored headers stay, a saved block is
    read back under its hash, hashes identify headers, and a header that was
    asked for by hash or nonce is of that hash or nonce. *)
Class NodeLaws (W : Type) `{NO : NodeOps W} : Prop := {
  event_keeps : forall e w k h, header_Get w k = Ok h -> header_Get (node_event e w) k = Ok h;
  call_keeps : forall c w k h, header_Get w k = Ok h -> header_Get (node_call c w).1 k = Ok h;
  fetch_hash_keeps : forall a w k h, header_Get w k = Ok h ->
    header_Get (getHeaderWithHashRequestingIfMissing a w).1 k = Ok h;
  fetch_nonce_keeps : forall n w k h, header_Get w k = Ok h ->
    header_Get (getHeaderWithNonceRequestingIfMissing n w).1 k = Ok h;
  save_keeps : forall x w k h, header_Get w k = Ok h -> header_Get (saveBlock x w).1 k = Ok h;
  save_stores : forall h w w' k, saveBlock h w = (w', Ok k) ->
    header_Get w' k = Ok h /\ header_hash h = Some k /\ k <> EmptyString;
  hash_identifies : forall h h' k, header_hash h = Some k -> header_hash h' = Some k -> h = h';
  fetch_hash_ok : forall a w w' h, getHeaderWithHashRequestingIfMissing a w = (w', Ok h) ->
    header_hash h = Some a /\ 0 <= GetEpoch h;
  fetch_nonce_ok : forall n w w' h, getHeaderWithNonceRequestingIfMissing n w = (w', Ok h) ->
    GetNonce h = n /\ 0 <= GetEpoch h;
}.

Create HintDb steady.

Section chain.
Context {W : Type} `{NO : NodeOps W} {NL : NodeLaws W}.
Variable range : gmap Z (list headerInfo) -> list (Z * list headerInfo).
Hypothesis range_ok : forall m, range m ≡ₚ map_to_list m.
Variable oob : spec_float -> Z.
Variable cfg : bootConfig.
Hypothesis genesis_nonce : GetNonce (genesisHeader cfg) = 0.

Abbreviation boot := (baseBootstrap W).
Abbreviation BM := (M boot syncError).
Implicit Types (b : boot) (l : list (string * header)).

(** ** The chain of committed blocks, the newest first *)

Definition tip_hash l : string := match l with [] => genesisHeaderHash cfg | (k, _) :: _ => k end.

Fixpoint linked l : Prop :=
  match l with
  | [] => True
  | (k, h) :: rest =>
      GetNonce h = Z.of_nat (length l) /\ GetParentHash h = tip_hash rest /\
      header_hash h = Some k /\ k <> EmptyString /\ linked rest
  end.

Definition tip l : chainState :=
  match l with
  | [] => {| currentBlockHeader := None; currentBlockHeaderHash := None |}
  | (k, h) :: _ => {| currentBlockHeader := Some h; currentBlockHeaderHash := Some k |}
  end.

Record chain_inv b l : Prop := {
  ci_tip : chainHandler b = tip l;
  ci_linked : linked l;
  ci_stored : Forall (fun e => header_Get (node b) e.1 = Ok e.2) l;
  ci_detector : detector_inv (forkDetector b) (Z.of_nat (length l));
}.

Definition final_nonce b : Z := GetHighestFinalBlockNonce (forkDetector b).

(** From one state to the next: the final nonce does not fall, and the blocks up
    to the old one are still there. *)
Definition keeps_final b l b' l' : Prop :=
  final_nonce b <= final_nonce b' /\ (forall e, e ∈ l -> GetNonce e.2 <= final_nonce b -> e ∈ l').

Lemma keeps_final_refl b l b' : forkDetector b' = forkDetector b -> keeps_final b l b' l.
Proof. intros E. unfold keeps_final, final_nonce. rewrite E. split; [lia|done]. Qed.

Lemma keeps_final_trans b1 l1 b2 l2 b3 l3 :
  keeps_final b1 l1 b2 l2 -> keeps_final b2 l2 b3 l3 -> keeps_final b1 l1 b3 l3.
Proof.
  intros [H1 H2] [K1 K2]. split; [lia|]. intros e He Hn. apply K2; [by apply H2|]. lia.
Qed.

(** A computation that preserves the chain, whatever it answers, and leaves the
    node status. *)
Definition steady {A} (m : BM A) : Prop :=
  forall b l b' r, chain_inv b l -> m b = (b', r) -> chain_inv b' l /\ keeps_final b l b' l /\ status b' = status b.

Lemma steady_ret {A} (x : A) : steady (mret x).
Proof. intros b l b' r Hc [= <- _]. split_and!; [done|by apply keeps_final_refl|done]. Qed.
Lemma steady_get : steady get.
Proof. intros b l b' r Hc [= <- _]. split_and!; [done|by apply keeps_final_refl|done]. Qed.
Lemma steady_lift {A} (x : res syncError A) : steady (lift x).
Proof. intros b l b' r Hc [= <- _]. split_and!; [done|by apply keeps_final_refl|done]. Qed.

Lemma steady_bind {A B} (m : BM A) (f : A -> BM B) : steady m -> (forall x, steady (f x)) -> steady (mbind f m).
Proof.
  intros Hm Hf b l b' r Hc H. unfold mbind, M_bind in H. destruct (m b) as [b1 [x|e]] eqn:E.
  - destruct (Hm _ _ _ _ Hc E) as (H1 & H2 & H3). destruct (Hf x _ _ _ _ H1 H) as (K1 & K2 & K3).
    split_and!; [done|by eapply keeps_final_trans|congruence].
  - injection H as <- _. by eapply Hm.
Qed.

Lemma steady_detector (f : baseForkDetector -> baseForkDetector) :
  (forall d c, detector_inv d c -> detector_inv (f d) c /\ GetHighestFinalBlockNonce (f d) = GetHighestFinalBlockNonce d) ->
  steady (on_detector f).
Proof.
  intros Hf b l b' r [H1 H2 H3 H4] [= <- _]. destruct (Hf _ _ H4) as [K1 K2]. split_and!; [by split| |done].
  unfold keeps_final, final_nonce. cbn. rewrite K2. split; [lia|done].
Qed.

Lemma steady_node {A} (f : W -> W * res syncError A) :
  (forall w k h, header_Get w k = Ok h -> header_Get (f w).1 k = Ok h) -> steady (node_run f).
Proof.
  intros Hf b l b' r [H1 H2 H3 H4] H. unfold node_run in H. specialize (Hf (node b)).
  destruct (f (node b)) as [w x]. injection H as <- _. split_and!; [|by apply keeps_final_refl|done].
  split; cbn; try done. eapply Forall_impl; [exact H3|]. cbn. intros [k h] Hk. by apply Hf.
Qed.

Lemma steady_emit e : steady (emit e).
Proof. apply steady_node. intros w k h. cbn. apply event_keeps. Qed.
Lemma steady_call c : steady (call c).
Proof. apply steady_node. intros w k h. apply call_keeps. Qed.
Lemma steady_attempts f : steady (set_attempts f).
Proof. intros b l b' r [] [= <- _]. split_and!; [by split|by apply keeps_final_refl|done]. Qed.
Lemma steady_logged m : steady m -> steady (logged m).
Proof. intros Hm b l b' r Hc [= <- _]. destruct (m b) as [b1 x] eqn:E. by eapply Hm. Qed.
Lemma steady_reject c e : steady (reject_if c e : BM unit).
Proof. destruct c; intros b l b' r Hc [= <- _]; (split_and!; [done|by apply keeps_final_refl|done]). Qed.

#[local] Hint Resolve steady_ret steady_get steady_lift steady_emit steady_call steady_attempts steady_logged
  steady_reject steady_bind : steady.

(** A step of the rest of the node only. *)
Definition aside b b' : Prop :=
  forkDetector b' = forkDetector b /\ chainHandler b' = chainHandler b /\ status b' = status b /\
  (forall k h, header_Get (node b) k = Ok h -> header_Get (node b') k = Ok h).

Lemma aside_refl b : aside b b.
Proof. by unfold aside. Qed.
Lemma aside_trans b1 b2 b3 : aside b1 b2 -> aside b2 b3 -> aside b1 b3.
Proof. intros (? & ? & ? & H) (? & ? & ? & K). unfold aside. split_and!; try congruence. auto. Qed.
Lemma aside_call c b b' r : call c b = (b', r) -> aside b b'.
Proof.
  unfold call, node_run. pose proof (call_keeps c (node b)) as Hk. destruct (node_call c (node b)) as [w x].
  intros [= <- _]. by unfold aside.
Qed.
Lemma aside_emit e b b' r : emit e b = (b', r) -> aside b b' /\ r = Ok tt.
Proof. intros [= <- <-]. split; [|done]. split_and!; try done. cbn. intros k h. apply event_keeps. Qed.
Lemma aside_pools h b b' r : removeHeaderFromPools h b = (b', r) -> aside b b' /\ r = Ok (header_hash h).
Proof.
  unfold removeHeaderFromPools. destruct (header_hash h) as [k|].
  - unfold mbind, M_bind. destruct (emit _ b) as [b1 x] eqn:E. apply aside_emit in E as [? ->]. by intros [= <- <-].
  - intros [= <- <-]. split; [apply aside_refl|done].
Qed.

Lemma chain_inv_aside b b' l : aside b b' -> chain_inv b l -> chain_inv b' l.
Proof.
  intros (H1 & H2 & _ & H4) [? ? K ?]. split; [congruence|done| |congruence].
  eapply Forall_impl; [exact K|]. cbn. intros e. apply H4.
Qed.

Lemma chain_inv_status b l s : chain_inv b l ->
  chain_inv (Build_baseBootstrap (forkDetector b) (chainHandler b) s (attempts b) (node b)) l.
Proof. intros []. by split. Qed.

(** *** Rolling back one block *)

Lemma set_current_tip l b : linked l ->
  SetCurrentBlockHeaderAndHash (currentBlockHeader (tip l)) (currentBlockHeaderHash (tip l)) b =
  (Build_baseBootstrap (forkDetector b) (tip l) (status b) (attempts b) (node b), Ok tt).
Proof.
  intros Hl. destruct l as [|[k h] rest]; [done|]. destruct Hl as (_ & _ & _ & Hk & _).
  unfold SetCurrentBlockHeaderAndHash. cbn. by destruct k.
Qed.

(** What the first step of a roll back puts in place of the block. *)
Lemma previous_tip b k h rest prev : chain_inv b ((k, h) :: rest) ->
  header_Get (node b) (GetParentHash h) = Ok prev ->
  (if 1 <? GetNonce h then SetCurrentBlockHeaderAndHash (Some prev) (Some (GetParentHash h))
   else SetCurrentBlockHeaderAndHash None None) =
  SetCurrentBlockHeaderAndHash (W := W) (currentBlockHeader (tip rest)) (currentBlockHeaderHash (tip rest)).
Proof.
  intros [_ (Hn & Hp & _ & _ & Hl) Hst _] Hg. cbn in Hn. destruct rest as [|[k' h'] rest].
  - by rewrite Hn.
  - destruct (Z.ltb_spec 1 (GetNonce h)); [|cbn in Hn; lia]. cbn in Hp. rewrite Hp in Hg |- *.
    rewrite !Forall_cons in Hst. destruct Hst as (_ & Hg' & _). cbn in Hg'. cbn. congruence.
Qed.

Lemma roll_back_one b k h rest prev b' r : chain_inv b ((k, h) :: rest) -> final_nonce b < GetNonce h ->
  header_Get (node b) (GetParentHash h) = Ok prev ->
  rollBackOneBlock range (Some k) h (Some (GetParentHash h)) prev b = (b', r) ->
  status b' = status b /\ final_nonce b' = final_nonce b /\
  match r with Ok _ => chain_inv b' rest | Err _ => chain_inv b' ((k, h) :: rest) end.
Proof.
  intros Hc Hfin Hg H. pose proof Hc as [Htip Hlk Hst Hd]. pose proof Hlk as (Hn & _ & _ & Hk & Hlr).
  unfold rollBackOneBlock, or_restore in H. rewrite (previous_tip b k h rest prev Hc Hg) in H.
  unfold mbind, M_bind in H. rewrite set_current_tip in H by done.
  set (b1 := Build_baseBootstrap _ _ _ _ _) in H.
  assert (Hback : forall bx e, aside b1 bx ->
    ((restoreState (Some k) h bx).1, Err e) = (b', r) ->
    status b' = status b /\ final_nonce b' = final_nonce b /\
    match r with Ok _ => chain_inv b' rest | Err _ => chain_inv b' ((k, h) :: rest) end).
  { intros bx e (A1 & A2 & A3 & A4) [= Hb <-]. unfold restoreState in Hb.
    pose proof (set_current_tip ((k, h) :: rest) bx Hlk) as Es.
    cbn [tip currentBlockHeader currentBlockHeaderHash] in Es. rewrite Es in Hb.
    destruct (call (RevertStateToBlock h) _) as [b2 x] eqn:Ec. apply aside_call in Ec as (B1 & B2 & B3 & B4). cbn in *. subst b'.
    split_and!; [congruence|unfold final_nonce; congruence|]. split; [done|done| |by rewrite B1, A1].
    eapply Forall_impl; [exact Hst|]. intros e0 He0. cbn in *. by apply B4, A4. }
  destruct (call (RevertStateToBlock prev) b1) as [b2 [[]|e]] eqn:E2; pose proof (aside_call _ _ _ _ E2) as A2; [|by eapply Hback].
  destruct (emit (PruneStateOnRollback h prev) b2) as [b3 x3] eqn:E3. apply aside_emit in E3 as [A3 ->].
  destruct (call (RestoreBlockIntoPools h) b3) as [b4 [[]|e]] eqn:E4; pose proof (aside_call _ _ _ _ E4) as A4.
  2: { eapply Hback; [|exact H]. by eapply aside_trans; [exact A2|eapply aside_trans; [exact A3|exact A4]]. }
  unfold cleanCachesAndStorageOnRollback, mbind, M_bind in H.
  destruct (removeHeaderFromPools h b4) as [b5 x5] eqn:E5. apply aside_pools in E5 as [A5 ->].
  cbn in H. injection H as <- <-.
  assert (A : aside b1 b5) by (repeat (eapply aside_trans; [eassumption|]); apply aside_refl).
  destruct A as (F1 & F2 & F3 & F4). cbn in F1, F2, F3, F4.
  split_and!; [exact F3|unfold final_nonce; cbn; by rewrite F1|]. split; cbn; [exact F2|done| |].
  - rewrite Forall_cons in Hst. destruct Hst as [_ Hst]. eapply Forall_impl; [exact Hst|].
    intros e He. apply event_keeps. by apply F4.
  - rewrite F1. unfold final_nonce in Hfin. eapply remove_header_inv; [exact Hd|done|]. right. rewrite Hn. cbn [length]. lia.
Qed.

(** *** The loop *)

Lemma current_chain b l : chain_inv b l -> getNonceForCurrentBlock cfg b = Z.of_nat (length l).
Proof.
  intros [Ht Hl _ _]. unfold getNonceForCurrentBlock, current_nonce. rewrite Ht. destruct l as [|[k h] rest]; cbn.
  - exact genesis_nonce.
  - apply Hl.
Qed.

(** When the loop may go on to the next block. *)
Definition may_roll_back (fork : bool) b : Prop := fork = true -> final_nonce b < fork_Nonce (boot_forkInfo (status b)).

Lemma round_spec rv b l b' r : chain_inv b l -> may_roll_back rv b -> rollBack_round range rv b = (b', r) ->
  status b' = status b /\ final_nonce b' = final_nonce b /\
  match r with
  | Err _ => chain_inv b' l
  | Ok more => exists k h rest, l = (k, h) :: rest /\ chain_inv b' rest /\ final_nonce b < GetNonce h /\
      more = rv && (fork_Nonce (boot_forkInfo (status b)) <? GetNonce h) /\
      (rv = true -> fork_Nonce (boot_forkInfo (status b)) <= GetNonce h)
  end.
Proof.
  intros Hc Hm H. unfold rollBack_round, mbind, M_bind, get in H. rewrite (ci_tip _ _ Hc) in H.
  destruct l as [|[k h] rest]; cbn [tip currentBlockHeader currentBlockHeaderHash lift] in H; [by injection H as <- <-|].
  unfold lift in H. unfold reject_if, fail, mret, M_ret in H.
  destruct (negb rv && _) eqn:G1; [by injection H as <- <-|].
  destruct (rv && _) eqn:G2; [by injection H as <- <-|].
  assert (Hfin : final_nonce b < GetNonce h).
  { destruct rv; cbn in G1, G2; [specialize (Hm eq_refl); lia|]. unfold final_nonce. lia. }
  destruct (header_Get (node b) (GetParentHash h)) as [prev|e] eqn:Hg; [|by injection H as <- <-].
  destruct (rollBackOneBlock _ _ _ _ _ b) as [b1 [x|e]] eqn:E.
  - destruct (roll_back_one b k h rest prev b1 _ Hc Hfin Hg E) as (S1 & S2 & S3).
    destruct (emit _ b1) as [b2 y] eqn:E2. apply aside_emit in E2 as [A ->]. injection H as <- <-.
    destruct A as (A1 & A2 & A3 & A4). split_and!; [congruence|unfold final_nonce in *; congruence|].
    exists k, h, rest. split_and!; try done; [by eapply chain_inv_aside|]. intros ->. cbn in G2. lia.
  - injection H as <- <-. by destruct (roll_back_one b k h rest prev b1 _ Hc Hfin Hg E) as (S1 & S2 & S3).
Qed.

(** The loop removes some newest blocks, all of them above the final one. *)
Lemma roll_back_spec n rv b l b' o : chain_inv b l -> may_roll_back rv b -> rollBack range n rv b = (b', o) ->
  status b' = status b /\ final_nonce b' = final_nonce b /\
  (exists removed rest, l = removed ++ rest /\ chain_inv b' rest /\
     Forall (fun e => final_nonce b < GetNonce e.2) removed /\
     (o = Some (Ok tt) -> rv = true -> Z.of_nat (length rest) + 1 = fork_Nonce (boot_forkInfo (status b))) /\
     (o = Some (Ok tt) -> rv = false -> length removed = 1%nat)) /\
  ((length l < n)%nat -> o <> None).
Proof.
  revert b l. induction n as [|n IH]; intros b l Hc Hm H; cbn in H.
  { injection H as <- <-. split_and!; try done; [|lia]. exists [], l. by split_and!. }
  destruct (rollBack_round range rv b) as [b1 r] eqn:E. destruct (round_spec rv b l b1 r Hc Hm E) as (S1 & S2 & S3).
  destruct r as [more|e].
  2: { injection H as <- <-. split_and!; try done. exists [], l. by split_and!. }
  destruct S3 as (k & h & rest & -> & Hc1 & Hfin & -> & Hge). pose proof (ci_linked _ _ Hc) as (Hn & _). cbn [length] in Hn.
  destruct (rv && _) eqn:G.
  - assert (Hm1 : may_roll_back rv b1) by (unfold may_roll_back in *; by rewrite S1, S2).
    destruct (IH _ _ Hc1 Hm1 H) as (T1 & T2 & (removed & rest' & -> & T3 & T4 & T5 & T6) & T7).
    split_and!; [congruence|congruence| |].
    + exists ((k, h) :: removed), rest'. rewrite S1 in T5. rewrite S2 in T4. split_and!; try done.
      * constructor; [done|exact T4].
      * intros _ ->. done.
    + cbn [length]. intros Hlt. apply T7. lia.
  - injection H as <- <-. split_and!; try done. exists [(k, h)], rest. split_and!; try done.
    + by repeat constructor.
    + intros _ ->. cbn in G. specialize (Hge eq_refl). lia.
Qed.

(** ** The other operations *)

Definition moves b l b' : Prop := exists l', chain_inv b' l' /\ keeps_final b l b' l' /\ status b' = status b.

Lemma moves_refl b l : chain_inv b l -> moves b l b.
Proof. intros H. exists l. split_and!; [done|by apply keeps_final_refl|done]. Qed.
Lemma steady_moves {A} (m : BM A) b l b' r : steady m -> chain_inv b l -> m b = (b', r) -> moves b l b'.
Proof. intros Hm Hc H. exists l. by eapply Hm. Qed.
Lemma aside_moves b l b' : chain_inv b l -> aside b b' -> moves b l b'.
Proof.
  intros Hc Ha. exists l. split_and!; [by eapply chain_inv_aside|apply keeps_final_refl; apply Ha|apply Ha].
Qed.

Lemma moves_trans b1 l1 b2 b3 : moves b1 l1 b2 -> (forall l2, chain_inv b2 l2 -> moves b2 l2 b3) -> moves b1 l1 b3.
Proof.
  intros (l2 & H1 & H2 & H3) H. destruct (H _ H1) as (l3 & K1 & K2 & K3). exists l3.
  split_and!; [done|by eapply keeps_final_trans|congruence].
Qed.

Lemma aside_then b b1 l b' : aside b b1 -> moves b1 l b' -> moves b l b'.
Proof.
  intros (A1 & _ & A3 & _) (l' & H1 & H2 & H3). exists l'. split_and!; [done| |congruence].
  unfold keeps_final, final_nonce in *. by rewrite A1 in H2.
Qed.

Lemma run_roll_back_spec rv b l b' r : chain_inv b l -> may_roll_back rv b -> runRollBack range cfg rv b = (b', r) ->
  exists l', chain_inv b' l' /\ keeps_final b l b' l' /\ status b' = status b /\ final_nonce b' = final_nonce b /\
    (length l' <= length l)%nat /\
    (r = Ok tt -> rv = true -> Z.of_nat (length l') + 1 = fork_Nonce (boot_forkInfo (status b))).
Proof.
  intros Hc Hm H. unfold runRollBack in H. destruct (rollBack range (rounds_of cfg b) rv b) as [b1 o] eqn:E.
  destruct (roll_back_spec _ _ _ _ _ _ Hc Hm E) as (S1 & S2 & (removed & rest & -> & S3 & S4 & S5 & _) & _).
  exists rest. assert (b' = b1) as -> by (by destruct o; injection H as <- _).
  split_and!; try done.
  - split; [lia|]. intros e He Hn. apply elem_of_app in He as [He|He]; [|done].
    rewrite Forall_forall in S4. specialize (S4 _ He). cbn in S4. lia.
  - rewrite length_app. lia.
  - intros -> Hrv. apply S5; [|done]. destruct o; [by injection H as ->|done].
Qed.

Lemma logged_roll_back_moves rv b l b' r : chain_inv b l -> may_roll_back rv b ->
  logged (runRollBack range cfg rv) b = (b', r) -> moves b l b'.
Proof.
  intros Hc Hm [= <- _]. destruct (runRollBack range cfg rv b) as [b1 x] eqn:E.
  destruct (run_roll_back_spec _ _ _ _ _ Hc Hm E) as (l' & ? & ? & ? & _). by exists l'.
Qed.

Lemma steady_reset : steady (on_detector (ResetProbableHighestNonce range)).
Proof. apply steady_detector. intros d c Hd. split; [by apply reset_probable_inv|done]. Qed.
Lemma steady_reset_fork clk : steady (on_detector (ResetFork range clk)).
Proof. apply steady_detector. intros d c Hd. split; [by apply reset_fork_inv|done]. Qed.
Lemma steady_soft_reset clk n : steady (on_detector (SoftResetFork clk n)).
Proof. apply steady_detector. intros d c Hd. split; [by apply soft_reset_inv|done]. Qed.
Lemma steady_pools h : steady (removeHeaderFromPools h).
Proof. unfold removeHeaderFromPools. destruct (header_hash h); auto with steady. Qed.
Lemma steady_remove_higher : steady (remove_higher cfg).
Proof. unfold remove_higher. auto with steady. Qed.
#[local] Hint Resolve steady_reset steady_reset_fork steady_soft_reset steady_pools steady_remove_higher : steady.

Lemma remove_header_moves n hash b l b' r : chain_inv b l -> final_nonce b < n ->
  on_detector (RemoveHeader range n hash) b = (b', r) -> moves b l b'.
Proof.
  intros [H1 H2 H3 H4] Hn [= <- _]. exists l. split_and!; [|split; [apply Z.le_refl|done]|done].
  split; cbn; try done. eapply remove_header_inv; [exact H4|done|by left].
Qed.

(** *** Committing *)

Lemma validity_spec clk h b l b' r : chain_inv b l -> Z.of_nat (length l) < MaxUint64 ->
  checkBlockValidity clk cfg h b = (b', r) ->
  b' = b /\ (r = Ok tt -> GetNonce h = Z.of_nat (length l) + 1 /\ GetParentHash h = tip_hash l).
Proof.
  intros Hc Hlt H. assert (E : b' = b).
  { unfold checkBlockValidity, mbind, M_bind, get, lift in H. destruct (checkSlotIsNotInTheFuture _ _ _) as [[]|e]; [|by injection H].
    destruct (currentBlockHeader _); [|by injection H]. destruct (validateBlockAgainstCurrentHeader _ _ _) as [[]|e]; by injection H. }
  split; [done|]. intros ->. subst b'. unfold checkBlockValidity in H. m_ok.
  assert (Hw : wrap_u64 (Z.of_nat (length l) + 1) = Z.of_nat (length l) + 1) by (apply wrap_u64_id; ilia).
  rewrite (ci_tip _ _ Hc) in H. destruct l as [|[k hc] rest]; cbn [tip currentBlockHeader currentBlockHeaderHash] in H.
  - unfold lift, validateGenesisBlock in H. rewrite genesis_nonce in H. change (wrap_u64 (0 + 1)) with 1 in H.
    destruct (Z.eqb_spec (GetNonce h) 1); [|done]. unfold str_eqb in H. case_bool_decide; done.
  - m_ok. unfold validateBlockAgainstCurrentHeader in *. pose proof (ci_linked _ _ Hc) as (Hn & _). rewrite Hn, Hw in *.
    destruct (_ <=? _) in *; [done|]. destruct (Z.eqb_spec (GetNonce h) (Z.of_nat (length ((k, hc) :: rest)) + 1)) in *; [|done].
    cbn [negb bytes_of default from_option] in *. unfold str_eqb in *. case_bool_decide; [done|]. done.
Qed.

Lemma commit_block_spec clk h b l b' r : chain_inv b l -> Z.of_nat (length l) < MaxUint64 -> 0 <= GetEpoch h ->
  CommitBlock range oob clk cfg h b = (b', r) ->
  match r with Ok _ => moves b l b' | Err _ => aside b b' end.
Proof.
  intros Hc Hlt He H. unfold CommitBlock, mbind, M_bind in H.
  destruct (checkBlockValidity clk cfg h b) as [b1 [[]|e]] eqn:E1.
  all: destruct (validity_spec _ _ _ _ _ _ Hc Hlt E1) as [-> Hv].
  2: { injection H as <- <-. apply aside_refl. }
  destruct (Hv eq_refl) as [Hn Hp]. unfold node_run in H. pose proof (save_keeps h (node b)) as Hk.
  pose proof (save_stores h (node b)) as Hs. destruct (saveBlock h (node b)) as [w [k|e]]; cbn in H, Hk.
  2: { injection H as <- <-. by unfold aside. }
  destruct (Hs _ _ eq_refl) as (Hg & Hh & Hne). unfold with_detector in H. cbn in H.
  destruct (AddHeader range oob clk (Some h) (Some k) BHProcessed (forkDetector b)) as [d x] eqn:Ea. cbn in H.
  assert (Ez : (slen (bytes_of (Some k)) =? 0) = false) by (by destruct k).
  unfold SetCurrentBlockHeaderAndHash in H. rewrite Ez in H. injection H as <- <-.
  destruct Hc as [Ht Hl Hst Hd].
  destruct (add_processed_inv range oob clk h k (forkDetector b) d x (Z.of_nat (length l)) Hd Hh He Hn Ea) as [Hd' Hf].
  exists ((k, h) :: l). split_and!; [|split; [exact Hf|intros e0 He0 _; by right]|done]. split; cbn.
  - done.
  - split_and!; try done. rewrite Hn. lia.
  - constructor; [done|]. eapply Forall_impl; [exact Hst|]. intros e0 H0. by apply Hk.
  - replace (Z.of_nat (S (length l))) with (Z.of_nat (length l) + 1) by lia. exact Hd'.
Qed.

(** *** Failed attempts *)

Lemma steady_errors m : steady (set_errors m).
Proof. apply steady_attempts. Qed.
Lemma steady_increment n : steady (incrementSyncedWithErrorsForNonce n).
Proof. unfold incrementSyncedWithErrorsForNonce. auto using steady_errors with steady. Qed.

Lemma bind_moves {A B} (m : BM A) (f : A -> BM B) b l b' r : mbind f m b = (b', r) ->
  (forall b1 x, m b = (b1, x) -> moves b l b1) ->
  (forall b1 a l1, m b = (b1, Ok a) -> chain_inv b1 l1 -> f a b1 = (b', r) -> moves b1 l1 b') -> moves b l b'.
Proof.
  unfold mbind, M_bind. intros H Hm Hf. destruct (m b) as [b1 [a|e]] eqn:E.
  - eapply moves_trans; [by eapply Hm|]. intros l1 Hc. by eapply Hf.
  - injection H as <- _. by eapply Hm.
Qed.

(** The headers a failed attempt may drop. *)
Definition above_final (h : option header) b : Prop := forall hd, h = Some hd -> final_nonce b < GetNonce hd.

Lemma drop_header_moves hd b l b' r : chain_inv b l -> final_nonce b < GetNonce hd ->
  (hash ← removeHeaderFromPools hd; on_detector (RemoveHeader range (GetNonce hd) hash)) b = (b', r) -> moves b l b'.
Proof.
  intros Hc Hn H. unfold mbind, M_bind in H. destruct (removeHeaderFromPools hd b) as [b1 x] eqn:E.
  apply aside_pools in E as [A ->]. eapply moves_trans; [by eapply aside_moves|]. intros l1 Hc1.
  eapply remove_header_moves; [done| |exact H]. unfold final_nonce in *. by rewrite (proj1 A).
Qed.

Lemma count_failure_moves clk h e b l b' r : chain_inv b l -> above_final h b ->
  count_failure range clk cfg h e b = (b', r) -> moves b l b'.
Proof.
  intros Hc Ha H. unfold count_failure in H. unfold mbind at 1, M_bind at 1, get at 1 in H.
  unfold mbind at 1, M_bind at 1 in H.
  destruct (incrementSyncedWithErrorsForNonce _ b) as [b1 x] eqn:E1.
  destruct (steady_increment _ _ _ _ _ Hc E1) as (Hc1 & Hk1 & Hs1).
  assert (Hf1 : forkDetector b1 = forkDetector b).
  { unfold incrementSyncedWithErrorsForNonce, mbind, M_bind, get, set_errors, set_attempts, mret, M_ret in E1. by injection E1 as <- _. }
  assert (M1 : moves b l b1) by (by exists l). destruct x as [num|e']; [|by injection H as <- _].
  destruct (_ || _); [|by injection H as <- _]. eapply moves_trans; [exact M1|]. intros l1 Hl1.
  eapply bind_moves; [exact H| |].
  { intros b2 y Ey. destruct h as [hd|]; [|injection Ey as <- _; by apply moves_refl].
    eapply drop_header_moves; [done| |exact Ey]. unfold final_nonce. rewrite Hf1. by apply Ha. }
  intros b2 [] l2 _ Hl2 H2. eapply bind_moves; [exact H2| |].
  { intros b3 y Ey. eapply logged_roll_back_moves; [done| |exact Ey]. done. }
  intros b3 [] l3 _ Hl3 H3. eapply steady_moves; [|exact Hl3|exact H3]. destruct (_ && _); auto with steady.
Qed.

Lemma fail_job_moves clk h e i b l b' r : chain_inv b l -> above_final h b ->
  doJobOnSyncBlockFail range clk cfg h e i b = (b', r) -> moves b l b'.
Proof.
  intros Hc Ha H. unfold doJobOnSyncBlockFail in H. destruct h as [hd|]; [|by eapply count_failure_moves].
  case_bool_decide; [eapply steady_moves; [|done|exact H]; apply steady_attempts|].
  destruct (isBlockBodyRejected e); [|by eapply count_failure_moves].
  eapply steady_moves; [|done|exact H]. auto with steady.
Qed.

Lemma or_fail_moves {A} clk h i (m : BM A) b l b' r : chain_inv b l -> or_fail range clk cfg h i m b = (b', r) ->
  (forall b1 x, m b = (b1, x) -> match x with Ok _ => moves b l b1 | Err _ => aside b b1 end) ->
  above_final h b -> moves b l b'.
Proof.
  intros Hc H Hm Ha. unfold or_fail in H. destruct (m b) as [b1 [a|e]] eqn:E.
  - injection H as <- _. apply (Hm _ _ eq_refl).
  - specialize (Hm _ _ eq_refl). cbn in Hm. injection H as <- _.
    destruct (doJobOnSyncBlockFail range clk cfg h e i b1) as [b2 y] eqn:Ej.
    eapply moves_trans; [by eapply aside_moves|]. intros l1 Hc1. eapply fail_job_moves; [done| |exact Ej].
    intros hd Hd. unfold final_nonce. rewrite (proj1 Hm). by apply Ha.
Qed.

Lemma or_fail_ok {A} clk h i (m : BM A) b b' x :
  or_fail range clk cfg h i m b = (b', Ok x) -> m b = (b', Ok x).
Proof. unfold or_fail. by destruct (m b) as [b1 [a|e]]. Qed.

(** *** The next block *)

(** The reported fork, if any, is for the next nonce. *)
Definition next_known b l : Prop :=
  Z.of_nat (length l) < MaxUint64 /\
  (IsDetected (boot_forkInfo (status b)) = true ->
   exists hash, fork_Hash (boot_forkInfo (status b)) = Some hash /\ header_known hash (Z.of_nat (length l) + 1)).

Lemma next_nonce b l : chain_inv b l -> Z.of_nat (length l) < MaxUint64 ->
  getNonceForNextBlock cfg b = Z.of_nat (length l) + 1.
Proof.
  intros Hc Hlt. unfold getNonceForNextBlock. fold (getNonceForCurrentBlock cfg b). rewrite (current_chain b l Hc).
  apply wrap_u64_id. ilia.
Qed.

Lemma fetch_header_spec b l b' r : chain_inv b l -> next_known b l -> getNextHeaderRequestingIfMissing cfg b = (b', r) ->
  aside b b' /\ match r with Ok h => GetNonce h = Z.of_nat (length l) + 1 /\ 0 <= GetEpoch h | Err _ => True end.
Proof.
  intros Hc [Hlt Hnext] H. unfold getNextHeaderRequestingIfMissing, mbind, M_bind, get in H. rewrite (next_nonce b l Hc Hlt) in H.
  set (hash := if IsDetected _ then _ else _) in H.
  assert (Hh : forall a, hash = Some a -> header_known a (Z.of_nat (length l) + 1)).
  { intros a Ha. unfold hash in Ha. destruct (IsDetected _) eqn:E.
    - destruct (Hnext eq_refl) as (a' & E' & Hk). congruence.
    - unfold GetNotarizedHeaderHash in Ha. destruct (List.find _ _) as [i|] eqn:Ei; [|done]. injection Ha as <-.
      apply find_some in Ei as [Ei _]. destruct (headers (forkDetector b) !! _) as [infos|] eqn:El; [|done].
      eapply (di_known _ _ (ci_detector _ _ Hc)); [exact El|]. by apply list_elem_of_In. }
  destruct hash as [a|]; unfold node_run in H.
  - pose proof (fetch_hash_keeps a (node b)) as Hk. destruct (getHeaderWithHashRequestingIfMissing a (node b)) as [w x] eqn:E.
    injection H as <- <-. split; [by unfold aside|]. destruct x as [h|]; [|done].
    destruct (fetch_hash_ok _ _ _ _ E) as [Hhash He]. split; [|done]. destruct (Hh a eq_refl) as (h' & Hh' & <-).
    f_equal. by eapply hash_identifies.
  - pose proof (fetch_nonce_keeps (Z.of_nat (length l) + 1) (node b)) as Hk.
    destruct (getHeaderWithNonceRequestingIfMissing _ (node b)) as [w x] eqn:E.
    injection H as <- <-. split; [by unfold aside|]. destruct x as [h|]; [|done]. by eapply fetch_nonce_ok.
Qed.

Lemma sync_next_moves clk b l b' r : chain_inv b l -> next_known b l ->
  sync_next range oob clk cfg b = (b', r) -> moves b l b'.
Proof.
  intros Hc Hn H. unfold sync_next in H. unfold mbind at 1, M_bind at 1, get at 1 in H.
  destruct (isSyncPostponed _ _ b); [injection H as <- _; by apply moves_refl|].
  pose proof (final_le_current _ _ (ci_detector _ _ Hc)) as Hfin. fold (final_nonce b) in Hfin.
  unfold mbind at 1, M_bind at 1 in H. destruct (or_fail _ _ _ None 0 _ b) as [b1 [h|e]] eqn:E1.
  2: { injection H as <- _. eapply (or_fail_moves clk None 0); [done|exact E1| |done].
       intros b2 x E2. destruct (fetch_header_spec _ _ _ _ Hc Hn E2) as [A _]. destruct x; [by eapply aside_moves|done]. }
  apply or_fail_ok in E1. destruct (fetch_header_spec _ _ _ _ Hc Hn E1) as (A1 & Hnonce & He).
  pose proof (chain_inv_aside _ _ _ A1 Hc) as Hc1. eapply aside_then; [exact A1|].
  destruct (_ && _); [eapply steady_moves; [apply steady_attempts|done|exact H]|].
  assert (Ha : forall bx, aside b1 bx -> above_final (Some h) bx).
  { intros bx Hx hd [= <-]. unfold final_nonce in *. rewrite (proj1 Hx), (proj1 A1), Hnonce. lia. }
  unfold mbind at 1, M_bind at 1 in H. destruct (or_fail _ _ _ (Some h) _ (call _) b1) as [b2 [[]|e]] eqn:E2.
  2: { injection H as <- _. eapply (or_fail_moves clk (Some h)); [done|exact E2| |apply Ha, aside_refl].
       intros b3 x E3. apply aside_call in E3. destruct x; [by eapply aside_moves|done]. }
  apply or_fail_ok, aside_call in E2. pose proof (chain_inv_aside _ _ _ E2 Hc1) as Hc2.
  eapply aside_then; [exact E2|]. eapply bind_moves; [exact H| |].
  - intros b3 x E3. eapply (or_fail_moves clk (Some h)); [done|exact E3| |by apply Ha].
    intros b4 y E4. eapply commit_block_spec in E4; [|exact Hc2|apply Hn|done]. exact E4.
  - intros b3 [] l3 _ Hl3 H3. eapply steady_moves; [|done|exact H3]. unfold cleanNoncesSyncedWithErrorsBehindFinal.
    auto using steady_errors with steady.
Qed.

(** *** A round of synchronization *)

Lemma forced_one_moves clk b l b' r : chain_inv b l -> forced_one range clk cfg b = (b', r) -> moves b l b'.
Proof.
  intros Hc H. unfold forced_one in H. unfold mbind at 1, M_bind at 1, get at 1 in H. destruct (_ && _).
  { eapply steady_moves; [|done|exact H]. unfold set_rollback_memory. auto with steady. }
  eapply bind_moves; [exact H| |].
  { intros b1 x E. eapply steady_moves; [|done|exact E]. apply steady_attempts. }
  intros b1 [] l1 _ Hc1 H1. unfold rollBackOneBlockForced in H1. eapply bind_moves; [exact H1| |].
  { intros b2 x E. eapply logged_roll_back_moves; [done| |exact E]. done. }
  intros b2 [] l2 _ Hc2 H2. eapply steady_moves; [|done|exact H2]. auto with steady.
Qed.

Lemma sync_forked_moves clk b l b' r : chain_inv b l -> Z.of_nat (length l) < MaxUint64 ->
  report_ok (forkDetector b) (boot_forkInfo (status b)) -> sync_forked range oob clk cfg b = (b', r) -> moves b l b'.
Proof.
  intros Hc Hlt Hrep H. unfold sync_forked in H. unfold mbind at 1, M_bind at 1, get at 1 in H.
  destruct (IsDetected (boot_forkInfo (status b))) eqn:Hdet; cbn [negb] in H.
  2: { eapply sync_next_moves; [done| |exact H]. split; [done|]. congruence. }
  destruct (Hrep Hdet) as [Hf|(Hn & hash & Hh & Hk)]; [rewrite Hf in H; by eapply forced_one_moves|].
  assert (F1 : isForcedRollBackOneBlock (boot_forkInfo (status b)) = false).
  { unfold isForcedRollBackOneBlock. rewrite Hh. by rewrite andb_false_r. }
  assert (F2 : isForcedRollBackToNonce (boot_forkInfo (status b)) = false).
  { unfold isForcedRollBackToNonce. rewrite Hh. by rewrite andb_false_r. }
  rewrite F1, F2 in H. unfold mbind, M_bind in H.
  destruct (runRollBack range cfg true b) as [b1 x] eqn:E.
  destruct (run_roll_back_spec _ _ _ _ _ Hc (fun _ => proj1 Hn) E) as (l1 & Hc1 & Hk1 & Hs1 & _ & Hlen & Hnext).
  destruct x as [[]|e]; [|injection H as <- _; by exists l1].
  assert (M : moves b1 l1 b').
  { eapply sync_next_moves; [done| |exact H]. split; [lia|]. rewrite Hs1. intros _. exists hash. split; [done|].
    rewrite Hnext by done. done. }
  destruct M as (l2 & K1 & K2 & K3). exists l2. split_and!; [done|by eapply keeps_final_trans|congruence].
Qed.

(** Between rounds a calculated state reports no fork. *)
Definition status_ok b : Prop := isNodeStateCalculated (status b) = true -> IsDetected (boot_forkInfo (status b)) = false.

Lemma compute_state_spec clk b l b' r : chain_inv b l -> status_ok b ->
  computeNodeState range clk cfg b = (b', r) ->
  chain_inv b' l /\ keeps_final b l b' l /\ report_ok (forkDetector b') (boot_forkInfo (status b')) /\
  (GetNodeState clk cfg b' <> NsNotSynchronized -> status_ok b').
Proof.
  intros Hc Hs H. unfold computeNodeState in H. unfold mbind at 1, M_bind at 1, get at 1 in H.
  destruct (_ && _) eqn:Efresh.
  { injection H as <- _. split_and!; [done|by apply keeps_final_refl| |done].
    apply andb_true_iff in Efresh as [_ Ec]. intros Hdet. rewrite (Hs Ec) in Hdet. done. }
  unfold mbind, M_bind, with_detector, get in H.
  pose proof (check_fork_inv range clk _ _ range_ok (ci_detector _ _ Hc)) as [Hd Hg].
  pose proof (check_fork_report range clk _ _ range_ok (ci_detector _ _ Hc)) as Hrep.
  destruct (CheckFork range clk (forkDetector b)) as [d info]. cbn in H, Hd, Hg, Hrep. injection H as <- _.
  destruct Hc as [H1 H2 H3 H4]. split_and!.
  - by split.
  - unfold keeps_final, final_nonce. cbn. rewrite Hg. split; [lia|done].
  - exact Hrep.
  - unfold GetNodeState, status_ok. cbn. destruct (isInImportMode cfg); [done|]. rewrite Z.eqb_refl. cbn.
    destruct (IsDetected info); [done|]. done.
Qed.

Lemma sync_block_spec clk b l b' r : chain_inv b l -> Z.of_nat (length l) < MaxUint64 -> status_ok b ->
  syncBlock range oob clk cfg b = (b', r) ->
  exists l', chain_inv b' l' /\ keeps_final b l b' l' /\ status_ok b'.
Proof.
  intros Hc Hlt Hs H. unfold syncBlock in H. destruct (computeNodeState range clk cfg b) as [b1 x] eqn:E1.
  destruct (compute_state_spec _ _ _ _ _ Hc Hs E1) as (Hc1 & Hk1 & Hrep & Hst).
  destruct (negb _) eqn:En.
  { injection H as <- _. exists l. split_and!; [done..|]. apply Hst. apply negb_true_iff, bool_decide_eq_false in En. done. }
  destruct (sync_forked range oob clk cfg b1) as [b2 y] eqn:E2. injection H as <- _.
  destruct (sync_forked_moves _ _ _ _ _ Hc1 Hlt Hrep E2) as (l2 & [C1 C2 C3 C4] & Hk2 & _).
  exists l2. split_and!; [by split| |done].
  eapply keeps_final_trans; [exact Hk1|]. destruct Hk2 as [K1 K2]. split; done.
Qed.

(** ** Runs of a node *)

(** The steps of a node: the synchronization, headers from the network and from
    the consensus, a commit and a reset by the consensus.  Every step reads its
    own clock; fewer than 2^64 blocks are committed. *)
Inductive node_step b b' : Prop :=
| step_sync clk r : syncBlock range oob clk cfg b = (b', r) -> node_step b b'
| step_commit clk h r : 0 <= GetEpoch h -> CommitBlock range oob clk cfg h b = (b', r) -> node_step b b'
| step_receive clk h hash r : header_hash h = Some hash -> 0 <= GetEpoch h ->
    processReceivedHeader range oob clk h (Some hash) b = (b', r) -> node_step b b'
| step_propose clk h hash r : header_hash h = Some hash -> 0 <= GetEpoch h ->
    with_detector (AddHeader range oob clk (Some h) (Some hash) BHProposed) b = (b', r) -> node_step b b'
| step_reset r : on_detector (ResetProbableHighestNonce range) b = (b', r) -> node_step b b'.

Definition run_step b b' : Prop := getNonceForCurrentBlock cfg b < MaxUint64 /\ node_step b b'.

Definition node_inv b l : Prop := chain_inv b l /\ status_ok b.

Lemma add_header_moves clk h hash st b l b' r : chain_inv b l -> st <> BHProcessed -> header_hash h = Some hash ->
  0 <= GetEpoch h -> with_detector (AddHeader range oob clk (Some h) (Some hash) st) b = (b', r) -> moves b l b'.
Proof.
  intros [H1 H2 H3 H4] Hst Hh He H. unfold with_detector in H.
  destruct (AddHeader range oob clk (Some h) (Some hash) st (forkDetector b)) as [d x] eqn:E. injection H as <- _.
  destruct (add_header_inv _ _ _ _ _ _ _ _ _ _ H4 Hst Hh He E) as [Hd Hf].
  exists l. split_and!; [by split| |done]. unfold keeps_final, final_nonce. cbn. rewrite Hf. split; [lia|done].
Qed.

Lemma step_keeps b l b' : node_inv b l -> run_step b b' -> exists l', node_inv b' l' /\ keeps_final b l b' l'.
Proof.
  intros [Hc Hs] [Hlt Hstep]. rewrite (current_chain b l Hc) in Hlt.
  assert (Hm : moves b l b' -> exists l', node_inv b' l' /\ keeps_final b l b' l').
  { intros (l' & M1 & M2 & M3). exists l'. split; [|done]. split; [done|]. unfold status_ok in *. by rewrite M3. }
  destruct Hstep as [clk r H|clk h r He H|clk h hash r Hh He H|clk h hash r Hh He H|r H].
  - destruct (sync_block_spec _ _ _ _ _ Hc Hlt Hs H) as (l' & ? & ? & ?). by exists l'.
  - apply Hm. eapply commit_block_spec in H; [|done..]. destruct r; [done|]. by eapply aside_moves.
  - apply Hm. unfold processReceivedHeader in H. destruct (_ <? _); [injection H as <- _; by apply moves_refl|].
    unfold mbind, M_bind in H. destruct (with_detector _ b) as [b1 x] eqn:E.
    assert (moves b l b1) by (by eapply (add_header_moves clk h hash BHReceived)). by destruct x; injection H as <- _.
  - apply Hm. by eapply (add_header_moves clk h hash BHProposed).
  - apply Hm. eapply steady_moves; [|done|exact H]. apply steady_reset.
Qed.

(** C10: a block that is final is never reverted.  Over any run of
    synchronization rounds, commits, received and proposed headers and resets,
    with any clock, any failing step and any order of the maps, the final nonce
    never falls and every committed block at or below it stays in the chain. *)
Theorem final_blocks_never_reverted b l b' : rtc run_step b b' -> node_inv b l ->
  exists l', node_inv b' l' /\ final_nonce b <= final_nonce b' /\
    forall e, e ∈ l -> GetNonce e.2 <= final_nonce b -> e ∈ l'.
Proof.
  intros Hr. revert l. induction Hr as [b|b b1 b2 Hstep _ IH]; intros l Hinv.
  { exists l. split_and!; [done|lia|done]. }
  destruct (step_keeps _ _ _ Hinv Hstep) as (l1 & H1 & [K1 K2]). destruct (IH _ H1) as (l2 & H2 & L1 & L2).
  exists l2. split_and!; [done|lia|]. intros e He Hn. apply L2; [by apply K2|]. lia.
Qed.

(** C27: a roll back ends, within as many rounds as the current nonce plus one,
    and does what it is asked for.  It removes a run of newest blocks, all above
    the final one; when it succeeds, the roll back to a fork has removed exactly
    the blocks from the fork's nonce on, and the other kind exactly one block;
    when it fails, what is left is a consistent chain. *)
Theorem roll_back_exact rv b l : chain_inv b l ->
  (rv = true -> final_nonce b < fork_Nonce (boot_forkInfo (status b))) ->
  exists b' r removed rest, rollBack range (rounds_of cfg b) rv b = (b', Some r) /\
    l = removed ++ rest /\ chain_inv b' rest /\ Forall (fun e => final_nonce b < GetNonce e.2) removed /\
    (r = Ok tt -> if rv then Z.of_nat (length rest) + 1 = fork_Nonce (boot_forkInfo (status b))
                  else length removed = 1%nat).
Proof.
  intros Hc Hm. destruct (rollBack range (rounds_of cfg b) rv b) as [b' o] eqn:E.
  destruct (roll_back_spec _ _ _ _ _ _ Hc Hm E) as (_ & _ & (removed & rest & -> & S3 & S4 & S5 & S6) & S7).
  assert (Ho : o <> None) by (apply S7; unfold rounds_of; rewrite (current_chain _ _ Hc); lia).
  destruct o as [r|]; [|done]. exists b', r, removed, rest. split_and!; try done.
  intros ->. destruct rv; [by apply S5|by apply S6].
Qed.
End chain.
