(* ===== verification/SyncExample.v ===== *)
(** * A node that leaves a fork

    A store and a pool of headers for which the assumptions of the theorems on
    synchronization hold, and a run: two blocks are committed, a competitor of
    the second one with an earlier slot arrives, and the next round rolls the
    second block back and commits the competitor. *)

From S2P Require Import Prelude Common GoStd Tools Codec ForkDetector ForkChoice BlockSync FinalBlocks SyncSafety.
From Stdlib Require Import SpecFloat.
Local Open Scope Z_scope.

(** ** A hash without collisions *)

Definition header_tuple (h : header) : Z * (Z * (Z * (Z * (string * (string * string))))) :=
  (GetNonce h, (GetSlot h, (GetEpoch h, (GetTimestamp h, (GetParentHash h, (GetRandSeed h, GetPrevRandSeed h)))))).

Definition hash_of (h : header) : string := ser (header_tuple h).
Arguments hash_of : simpl never.

Lemma hash_of_inj h h' : hash_of h = hash_of h' -> h = h'.
Proof.
  intros H. assert (E : header_tuple h = header_tuple h').
  { pose proof (de_ser (header_tuple h) EmptyString) as H1. pose proof (de_ser (header_tuple h') EmptyString) as H2.
    unfold hash_of in H. rewrite H in H1. congruence. }
  destruct h, h'. unfold header_tuple in E. cbn in E. injection E as -> -> -> -> -> -> ->. done.
Qed.

Lemma hash_of_nonempty h : hash_of h <> EmptyString.
Proof.
  unfold hash_of. apply (ser_pair_nonempty (header_tuple h)). apply ser_Z_nonempty.
Qed.

(** ** The rest of the node: a content-addressed store and a pool *)

Record miniNode : Type := { mn_store : gmap string header; mn_pool : list header }.

Definition mini_Get (w : miniNode) (k : string) : res syncError header :=
  match mn_store w !! k with
  | Some h => if str_eqb (hash_of h) k then Ok h else Err (ErrOther "corrupt")
  | None => Err (ErrOther "key not found")
  end.

Definition from_pool (f : header -> bool) (w : miniNode) : miniNode * res syncError header :=
  (w, match List.find (fun h => f h && (0 <=? GetEpoch h)) (mn_pool w) with
      | Some h => Ok h
      | None => Err ErrTimeIsOut
      end).

#[global] Instance mini_ops : NodeOps miniNode := {|
  node_event := fun _ w => w;
  node_call := fun _ w => (w, Ok tt);
  header_Get := mini_Get;
  header_hash := fun h => Some (hash_of h);
  getHeaderWithHashRequestingIfMissing := fun k => from_pool (fun h => str_eqb (hash_of h) k);
  getHeaderWithNonceRequestingIfMissing := fun n => from_pool (fun h => GetNonce h =? n);
  validateBlockAndSlot := fun _ _ => Ok tt;
  saveBlock := fun h w => ({| mn_store := <[hash_of h := h]> (mn_store w); mn_pool := mn_pool w |}, Ok (hash_of h));
  IsConnectedToTheNetwork := fun _ => true;
|}.

Lemma from_pool_ok f w w' h : from_pool f w = (w', Ok h) -> f h = true /\ 0 <= GetEpoch h.
Proof.
  unfold from_pool. destruct (List.find _ _) as [x|] eqn:E; [|done]. intros [= _ <-].
  apply find_some in E as [_ E]. apply andb_true_iff in E as [? ?]. split; [done|]. lia.
Qed.

Lemma mini_get_save h w k x : mini_Get w k = Ok x ->
  mini_Get {| mn_store := <[hash_of h := h]> (mn_store w); mn_pool := mn_pool w |} k = Ok x.
Proof.
  unfold mini_Get. cbn. destruct (decide (hash_of h = k)) as [<-|Hne]; [|by rewrite lookup_insert_ne].
  rewrite lookup_insert. destruct (mn_store w !! hash_of h) as [y|]; [|done]. intros H.
  destruct (str_eqb (hash_of y) (hash_of h)) eqn:E; [|discriminate H]. injection H as <-.
  apply bool_decide_eq_true, hash_of_inj in E as ->. rewrite decide_True by done. unfold str_eqb.
  by rewrite bool_decide_eq_true_2.
Qed.

#[global] Instance mini_laws : NodeLaws miniNode.
Proof.
  split; cbn; try done.
  - intros x w k h. apply mini_get_save.
  - intros h w w' k [= <- <-]. split_and!; [|done|apply hash_of_nonempty]. unfold mini_Get. cbn.
    rewrite lookup_insert, decide_True by done. unfold str_eqb. by rewrite bool_decide_eq_true_2.
  - intros h h' k [= <-] [= E]. symmetry. by apply hash_of_inj.
  - intros a w w' h H. apply from_pool_ok in H as [H ?]. unfold str_eqb in H.
    apply bool_decide_eq_true in H as <-. done.
  - intros n w w' h H. apply from_pool_ok in H as [H ?]. split; [lia|done].
Qed.

(** ** The run *)

Definition block_at (nonce slot : Z) (parent seed : string) : header :=
  {| GetNonce := nonce; GetSlot := slot; GetEpoch := 0; GetTimestamp := 1000 + 4 * slot; GetParentHash := parent;
     GetRandSeed := seed; GetPrevRandSeed := "s" |}.

Definition genesis_block : header := block_at 0 0 "" "s".
Definition block1 : header := block_at 1 1 "genesis" "s".
Definition block2 : header := block_at 2 3 (hash_of block1) "s".
(** The competitor: the same parent, an earlier slot. *)
Definition block2' : header := block_at 2 2 (hash_of block1) "t".

Definition ex_cfg : bootConfig :=
  {| genesisHeader := genesis_block; genesisHeaderHash := "genesis"; isInImportMode := false; syncUntil := 0;
     fixAuditChangesV4 := true |}.
Definition ex_clk : slotClock := {| Index := 3; TimeDuration := 4 * time_Second; now := 0 |}.
Definition ex_range (m : gmap Z (list headerInfo)) : list (Z * list headerInfo) := map_to_list m.
Definition ex_oob (_ : spec_float) : Z := 0.
Lemma ex_range_ok m : ex_range m ≡ₚ map_to_list m.
Proof. done. Qed.

Definition ex_start : baseBootstrap miniNode := {|
  forkDetector := NewMetaForkDetector (NewTimeCache 0) 1000;
  chainHandler := {| currentBlockHeader := None; currentBlockHeaderHash := None |};
  status := {| isNodeSynchronized := false; isNodeStateCalculated := false; hasLastBlock := false; slotIndex := 0;
               hasStarted := false; boot_forkInfo := NewForkInfo |};
  attempts := {| mapNonceSyncedWithErrors := ∅; isSyncPostponedForSlot := false; postponedSyncSlotIndex := 0;
                 postponedSyncNonce := 0; lastRollbackHash := None; avoidingSameRollbackRetryCount := 0;
                 epochToEndFinished := false |};
  node := {| mn_store := ∅; mn_pool := [block2'] |};
|}.

Definition ex_commit (h : header) (b : baseBootstrap miniNode) := CommitBlock ex_range ex_oob ex_clk ex_cfg h b.
Definition ex_two : baseBootstrap miniNode := (ex_commit block2 (ex_commit block1 ex_start).1).1.
Definition ex_forked : baseBootstrap miniNode :=
  (processReceivedHeader ex_range ex_oob ex_clk block2' (Some (hash_of block2')) ex_two).1.
Definition ex_synced : baseBootstrap miniNode := (syncBlock ex_range ex_oob ex_clk ex_cfg ex_forked).1.

Definition ex_chain : list (string * header) := [(hash_of block2, block2); (hash_of block1, block1)].

Definition info_at (h : header) : headerInfo := header_info h (hash_of h) BHProcessed.

Lemma ex_two_headers : headers (forkDetector ex_two) = <[1 := [info_at block1]]> {[2 := [info_at block2]]}.
Proof. vm_compute. reflexivity. Qed.
Lemma ex_two_checkpoints : checkpoint (fork (forkDetector ex_two)) =
  [{| cp_nonce := 1; cp_slot := 1; cp_hash := Some (hash_of block1) |};
   {| cp_nonce := 2; cp_slot := 3; cp_hash := Some (hash_of block2) |}].
Proof. vm_compute. reflexivity. Qed.
Lemma ex_two_final : finalCheckpoint (forkDetector ex_two) =
  {| cp_nonce := 1; cp_slot := 1; cp_hash := Some (hash_of block1) |}.
Proof. vm_compute. reflexivity. Qed.
Lemma ex_two_tip : chainHandler ex_two = tip ex_chain.
Proof. vm_compute. reflexivity. Qed.
Lemma ex_two_stored : node ex_two =
  {| mn_store := <[hash_of block2 := block2]> {[hash_of block1 := block1]}; mn_pool := [block2'] |}.
Proof. vm_compute. reflexivity. Qed.

Lemma ex_blocks_differ : bool_decide (hash_of block2 = hash_of block1) = false.
Proof. vm_compute. reflexivity. Qed.

Lemma block_known h : header_known (W := miniNode) (hash_of h) (GetNonce h).
Proof. by exists h. Qed.

Lemma ex_two_detector : detector_inv (W := miniNode) (forkDetector ex_two) 2.
Proof.
  split; rewrite ?ex_two_checkpoints, ?ex_two_final.
  - unfold climbing. cbn. repeat constructor.
  - rewrite !Forall_cons. cbn. split_and!; [lia|lia|apply Forall_nil; exact I].
  - by left.
  - vm_compute. reflexivity.
  - rewrite ex_two_headers. intros n infos i Hl Hi.
    apply lookup_insert_Some in Hl as [[<- <-]|[_ Hl]]; [|apply lookup_singleton_Some in Hl as [<- <-]];
      apply list_elem_of_singleton in Hi as ->; (split; [apply block_known|]; cbn; ilia).
Qed.

Lemma ex_two_chain : chain_inv (W := miniNode) ex_cfg ex_two ex_chain.
Proof.
  split.
  - exact ex_two_tip.
  - cbn. split_and!; try done; apply hash_of_nonempty.
  - rewrite ex_two_stored. pose proof ex_blocks_differ as Hd. apply bool_decide_eq_false in Hd.
    unfold ex_chain. rewrite !Forall_cons. split_and!; [| |by apply Forall_nil]; cbn; unfold mini_Get; cbn.
    + rewrite lookup_insert, decide_True by done. unfold str_eqb. by rewrite bool_decide_eq_true_2.
    + rewrite lookup_insert_ne by done. rewrite lookup_singleton, decide_True by done. unfold str_eqb. by rewrite bool_decide_eq_true_2.
  - exact ex_two_detector.
Qed.

Lemma ex_two_inv : node_inv (W := miniNode) ex_cfg ex_two ex_chain.
Proof. split; [exact ex_two_chain|]. intros H. vm_compute in H. discriminate H. Qed.

Lemma received_pair (b : baseBootstrap miniNode) h hash :
  processReceivedHeader ex_range ex_oob ex_clk h hash b =
  ((processReceivedHeader ex_range ex_oob ex_clk h hash b).1, Ok tt).
Proof.
  unfold processReceivedHeader. destruct (_ <? _); [done|]. unfold mbind, M_bind, with_detector.
  by destruct (AddHeader _ _ _ _ _ _ _).
Qed.

Lemma ex_run : rtc (run_step (W := miniNode) ex_range ex_oob ex_cfg) ex_two ex_synced.
Proof.
  apply (rtc_l _ _ ex_forked).
  - split; [vm_compute; reflexivity|].
    apply (step_receive ex_range ex_oob ex_cfg ex_two ex_forked ex_clk block2' (hash_of block2') (Ok tt)); [done|done|].
    apply received_pair.
  - apply rtc_once. split; [vm_compute; reflexivity|].
    apply (step_sync ex_range ex_oob ex_cfg ex_forked ex_synced ex_clk (syncBlock ex_range ex_oob ex_clk ex_cfg ex_forked).2).
    unfold ex_synced. by destruct (syncBlock _ _ _ _ ex_forked).
Qed.

(** The fork is left: the competitor is the current block, and the first block,
    which was final, is still below it. *)
Lemma final_blocks_never_reverted_witness :
  currentBlockHeader (chainHandler ex_synced) = Some block2' /\
  exists l', node_inv ex_cfg ex_synced l' /\ final_nonce ex_two <= final_nonce ex_synced /\
    (forall e, e ∈ ex_chain -> GetNonce e.2 <= final_nonce ex_two -> e ∈ l').
Proof.
  split; [vm_compute; reflexivity|].
  exact (final_blocks_never_reverted ex_range ex_range_ok ex_oob ex_cfg eq_refl ex_two ex_chain ex_synced ex_run ex_two_inv).
Defined.

Definition ex_report : nodeStatus :=
  {| isNodeSynchronized := false; isNodeStateCalculated := true; hasLastBlock := true; slotIndex := 3;
     hasStarted := true;
     boot_forkInfo := {| IsDetected := true; fork_Nonce := 2; fork_Slot := 2; fork_Hash := Some (hash_of block2') |} |}.
Definition ex_reported : baseBootstrap miniNode :=
  Build_baseBootstrap (forkDetector ex_two) (chainHandler ex_two) ex_report (attempts ex_two) (node ex_two).

Lemma ex_reported_chain : chain_inv (W := miniNode) ex_cfg ex_reported ex_chain.
Proof. exact (chain_inv_status ex_cfg ex_two ex_chain ex_report ex_two_chain). Qed.

Lemma roll_back_exact_witness :
  exists b' r removed rest, rollBack ex_range (rounds_of ex_cfg ex_reported) true ex_reported = (b', Some r) /\
    ex_chain = removed ++ rest /\ chain_inv ex_cfg b' rest /\
    Forall (fun e => final_nonce ex_reported < GetNonce e.2) removed /\
    (r = Ok tt -> Z.of_nat (length rest) + 1 = 2).
Proof.
  apply (roll_back_exact ex_range ex_cfg eq_refl true ex_reported ex_chain ex_reported_chain).
  intros _. vm_compute. reflexivity.
Defined.

(** ** The choice *)

Definition ex_blocks : list block := [block_of (info_at block2); block_of (info_at block2')].
(** The node received both headers before it processed the first. *)
Definition ex_infos : list headerInfo :=
  [header_info block2 (hash_of block2) BHReceived; info_at block2; header_info block2' (hash_of block2') BHReceivedTooLate].

Lemma ex_proper : proper ex_blocks.
Proof.
  split; [|unfold ex_blocks; rewrite !Forall_cons; cbn; split_and!; [ilia..|by apply Forall_nil]|done].
  apply (bool_decide_unpack (NoDup (b_hash <$> ex_blocks))). vm_compute. exact I.
Qed.

Lemma ex_knows : knows (forkDetector ex_forked) 2 ex_infos (info_at block2) ex_blocks.
Proof.
  split.
  - intros b. unfold ex_blocks, ex_infos. rewrite !fmap_cons, !elem_of_cons. change (block_of (header_info block2 (hash_of block2) BHReceived)) with (block_of (info_at block2)).
    change (block_of (header_info block2' (hash_of block2') BHReceivedTooLate)) with (block_of (info_at block2')). rewrite fmap_nil. tauto.
  - done.
  - unfold ex_infos. rewrite !Forall_cons. split_and!; [by right|by left|by right|by apply Forall_nil].
  - unfold ex_infos. rewrite !Forall_cons. split_and!; [done..|by apply Forall_nil].
  - vm_compute. discriminate.
Qed.

(** The node of the example is told to leave for the competitor. *)
Lemma fork_choice_converges_witness :
  exists w, w ∈ ex_blocks /\
    fork_round (set_maxForkHeaderEpoch (getMaxEpochFromHdrsInfo ex_infos) (forkDetector ex_forked)) ex_infos =
    (if decide (block_of (info_at block2) = w) then None else Some (Some (b_hash w), b_slot w, b_epoch w)).
Proof.
  destruct (fork_choice_converges 2 ex_blocks ex_proper) as (w & Hw & H).
  exists w. split; [exact Hw|exact (H _ _ _ ex_knows)].
Defined.

Lemma check_fork_reports_lowest_witness :
  let r := CheckFork ex_range ex_clk (forkDetector ex_forked) in
  IsDetected r.2 = true /\ fork_Nonce r.2 = 2 /\ exists n acc, forked (forkDetector ex_forked) n acc.
Proof.
  split; [vm_compute; reflexivity|split; [vm_compute; reflexivity|]].
  destruct (check_fork_reports_lowest ex_range ex_range_ok ex_clk (forkDetector ex_forked)
    (CheckFork ex_range ex_clk (forkDetector ex_forked)).1 (CheckFork ex_range ex_clk (forkDetector ex_forked)).2)
    as (_ & Hdet & _); [vm_compute; reflexivity|vm_compute; reflexivity|by destruct (CheckFork _ _ _)|].
  apply Hdet. vm_compute. reflexivity.
Defined.
