(* ===== verification/Selection.v ===== *)
(** * Selection of the validators of a slot

    [sharding/selectionBasedProvider.go], [expandedListSampling.go] and the helper
    of [common.go]: a weighted selection without replacement.  The list of
    validators is expanded (one entry per unit of weight); instead of cutting the
    entries of a chosen validator out of the list, the provider remembers the
    positions they occupy and skips them.  The theorem: [Select] answers what
    repeated picking and cutting answers. *)

From S2P Require Import Prelude Common Strconv Tools.
Local Open Scope Z_scope.

(** The errors of [sharding/errors.go] these files return; [Panic] is an index or
    slice expression out of range. *)
Inductive shardError : Type :=
| ErrNilRandomness | ErrInvalidSampleSize | ErrNilWeights | ErrInvalidWeight | ErrSmallElectedListSize
| ErrNilOrEmptyDestinationForDistribute | ErrNilRandomSelector | ErrNilPubKey | ErrNilInputNodesMap
| ErrListSizeZero | ErrEpochNodesConfigDoesNotExist | ErrValidatorListNotFound | ErrNodesCoordinatorNotReady
| ErrValidatorNotFound | ErrInvalidConsensusGroupSize | ErrStorage (e : string) | ErrNilRegistryEpoch | ErrParse (e : error) | Panic.

(** ** The expanded list *)

Section expand.
(** [for j := 0; j < weight; j++ { append(list, i) }]. *)
Definition copies (i : Z) (weight : Z) : list Z := replicate (Z.to_nat weight) i.

Definition minWeight : Z := 1.

Fixpoint expand_loop (i : Z) (weightList : list Z) : res shardError (list Z) :=
  match weightList with
  | [] => Ok []
  | w :: rest =>
      if w <? minWeight then Err ErrInvalidWeight
      else l ← expand_loop (i + 1) rest; Ok (copies (wrap_u32 i) w ++ l)
  end.
Definition expandList (weightList : list Z) : res shardError (list Z) := expand_loop 0 weightList.
End expand.

Record selectorExpandedList : Type := { expandedList : list Z; uniqueItems : Z }.

Definition NewSelectorExpandedList (weightList : list Z) : res shardError selectorExpandedList :=
  if (length weightList =? 0)%nat then Err ErrNilWeights
  else l ← expandList weightList;
       Ok {| expandedList := l; uniqueItems := wrap_u32 (Z.of_nat (length weightList)) |}.

(** ** The entries of one validator *)

(** [for i := idx - 1; i >= 0; i--]: [i] positions are left to look at. *)
Fixpoint first_index (l : list Z) (val : Z) (i : nat) : Z :=
  match i with
  | O => 0
  | S j => if bool_decide (l !! j = Some val) then first_index l val j else Z.of_nat j + 1
  end.

(** [for i := idx + 1; i < listLen; i++] over the rest of the list. *)
Fixpoint last_index (val : Z) (i : Z) (rest : list Z) (endIdx : Z) : Z :=
  match rest with
  | [] => endIdx
  | x :: rest => if bool_decide (x = val) then last_index val (i + 1) rest endIdx else i - 1
  end.

Definition computeStartIndexAndNumAppearancesForValidator (expElectedList : list Z) (idx : Z) : res shardError (Z * Z) :=
  match expElectedList !! Z.to_nat idx with
  | None => Err Panic
  | Some val =>
      let startIdx := first_index expElectedList val (Z.to_nat idx) in
      let endIdx := last_index val (idx + 1) (drop (S (Z.to_nat idx)) expElectedList)
                      (Z.of_nat (length expElectedList) - 1) in
      Ok (startIdx, endIdx - startIdx + 1)
  end.

(** ** The provider *)

Record validatorEntry : Type := { startIndex : Z; numAppearances : Z }.
Record SelectionBasedProvider : Type := { sortedSlice : list validatorEntry; size : Z }.

Definition NewSelectionBasedProvider : SelectionBasedProvider := {| sortedSlice := []; size := 0 |}.
Definition clean (sbp : SelectionBasedProvider) : SelectionBasedProvider := {| sortedSlice := []; size := 0 |}.

Fixpoint insert_entry (ve : validatorEntry) (l : list validatorEntry) : list validatorEntry :=
  match l with
  | [] => [ve]
  | e :: l' => if startIndex ve <=? startIndex e then ve :: l else e :: insert_entry ve l'
  end.
Definition addToSortedSlice (ve : validatorEntry) (sbp : SelectionBasedProvider) : SelectionBasedProvider :=
  {| sortedSlice := insert_entry ve (sortedSlice sbp); size := size sbp +! numAppearances ve |}.

Definition add (expElList : list Z) (index : Z) (sbp : SelectionBasedProvider)
  : SelectionBasedProvider * res shardError unit :=
  match computeStartIndexAndNumAppearancesForValidator expElList index with
  | Err e => (sbp, Err e)
  | Ok (s, n) => (addToSortedSlice {| startIndex := s; numAppearances := n |} sbp, Ok tt)
  end.

Fixpoint adjust_loop (entries : list validatorEntry) (index : Z) : Z :=
  match entries with
  | [] => index
  | e :: rest =>
      if index <? wrap_u64 (startIndex e) then index
      else adjust_loop rest (wrap_u64 (index + wrap_u64 (numAppearances e)))
  end.
Definition adjustIndex (index : Z) (sbp : SelectionBasedProvider) : Z := adjust_loop (sortedSlice sbp) index.

Section provider.
Context `{HS : Hasher}.

(** [binary.BigEndian] on 64 bits. *)
Definition PutUint64 (u : Z) : string := String.rev (le_padded 8 u).
Definition BigEndian_Uint64 (s : string) : res shardError Z :=
  if (String.length s <? 8)%nat then Err Panic else Ok (le_value 8 (String.rev (String.substring 0 8 s))).

Definition computeRandomnessAsUint64 (randomness : string) (index : Z) : res shardError Z :=
  BigEndian_Uint64 (Compute (PutUint64 (wrap_u64 index) +:+ randomness)).

(** One round of [Get]. *)
Definition get_round (randomness : string) (l : list Z) (i : Z) : M SelectionBasedProvider shardError Z :=
  newRandomness ← lift (computeRandomnessAsUint64 randomness i);
  sbp ← get;
  let lenExpandedList := Z.of_nat (length l) in
  _ ← reject_if (lenExpandedList <=? size sbp) ErrInvalidSampleSize;
  let index := adjustIndex (newRandomness mod wrap_u64 (lenExpandedList -! size sbp)) sbp in
  v ← lift match l !! Z.to_nat index with Some v => Ok v | None => Err Panic end;
  _ ← add l index;
  mret v.

Fixpoint get_loop (randomness : string) (l : list Z) (i : Z) (rounds : nat)
  : M SelectionBasedProvider shardError (list Z) :=
  match rounds with
  | O => mret []
  | S k => v ← get_round randomness l i; vs ← get_loop randomness l (i + 1) k; mret (v :: vs)
  end.

Definition Get (randomness : string) (numValidators : Z) (expandedElectedList : list Z)
  (sbp : SelectionBasedProvider) : SelectionBasedProvider * res shardError (list Z) :=
  if (String.length randomness =? 0)%nat then (sbp, Err ErrNilRandomness)
  else if Z.of_nat (length expandedElectedList) <? numValidators then (sbp, Err ErrInvalidSampleSize)
  else
    let '(sbp', r) := get_loop randomness expandedElectedList 0 (Z.to_nat numValidators) sbp in
    (clean sbp', r).

Definition Select (randSeed : string) (sampleSize : Z) (s : selectorExpandedList) : res shardError (list Z) :=
  if (String.length randSeed =? 0)%nat then Err ErrNilRandomness
  else if (sampleSize =? 0) || (uniqueItems s <? sampleSize) then Err ErrInvalidSampleSize
  else (Get randSeed sampleSize (expandedList s) NewSelectionBasedProvider).2.
End provider.

(** ** The reference: pick an entry, cut out all entries of its validator *)

Fixpoint reslice (l : list Z) (randoms : list Z) : list Z :=
  match randoms with
  | [] => []
  | r :: rs =>
      match l !! Z.to_nat (r mod Z.of_nat (length l)) with
      | None => []
      | Some v => v :: reslice (filter (.≠ v) l) rs
      end
  end.

Section filters.
Context {A : Type} (P : A -> Prop) {dec : forall x, Decision (P x)}.
Lemma filter_all_in (l : list A) : (forall p x, l !! p = Some x -> P x) -> filter P l = l.
Proof.
  induction l as [|x l IH]; intros H; [done|]. rewrite filter_cons_True by exact (H 0%nat x eq_refl).
  f_equal. apply IH. intros p. exact (H (S p)).
Qed.
Lemma filter_none_in (l : list A) : (forall p x, l !! p = Some x -> ~ P x) -> filter P l = [].
Proof.
  induction l as [|x l IH]; intros H; [done|]. rewrite filter_cons_False by exact (H 0%nat x eq_refl).
  apply IH. intros p. exact (H (S p)).
Qed.
End filters.

(** ** Blocks of positions *)

Abbreviation zlen l := (Z.of_nat (length l)).

(** The entries cover disjoint runs of positions between [o] and [hi], in order. *)
Fixpoint laid_out (o hi : Z) (entries : list validatorEntry) : Prop :=
  match entries with
  | [] => o <= hi
  | e :: rest => o <= startIndex e /\ 0 < numAppearances e /\ laid_out (startIndex e + numAppearances e) hi rest
  end.

Definition covers (p : Z) (e : validatorEntry) : Prop := startIndex e <= p < startIndex e + numAppearances e.
Definition covered (p : Z) (entries : list validatorEntry) : Prop := Exists (covers p) entries.

(** What is left of [l], whose first position is [o], without the covered positions. *)
Fixpoint uncovered (o : Z) (l : list Z) (entries : list validatorEntry) : list Z :=
  match entries with
  | [] => l
  | e :: rest =>
      let before := Z.to_nat (startIndex e - o) in
      let n := Z.to_nat (numAppearances e) in
      take before l ++ uncovered (startIndex e + numAppearances e) (drop (before + n) l) rest
  end.

Lemma laid_out_le o hi entries : laid_out o hi entries -> o <= hi.
Proof. revert o. induction entries as [|e rest IH]; intros o; cbn; [done|]. intros (H & K & L%IH). lia. Qed.

Lemma laid_out_above o hi entries p : laid_out o hi entries -> covered p entries -> o <= p < hi.
Proof.
  revert o. induction entries as [|e rest IH]; intros o; cbn; [intros _ H; by apply Exists_nil in H|].
  intros (H & K & L) [C|C]%Exists_cons; [unfold covers in C; apply laid_out_le in L; lia|].
  pose proof (IH _ L C). lia.
Qed.

(** The index computed by skipping is the position of that entry of the cut list. *)
Lemma adjust_spec entries : forall o l i, 0 <= o -> 0 <= i -> laid_out o (o + zlen l) entries -> o + zlen l <= MaxInt64 ->
  i < zlen (uncovered o l entries) ->
  exists k, adjust_loop entries (o + i) = o + k /\ 0 <= k < zlen l /\ l !! Z.to_nat k = uncovered o l entries !! Z.to_nat i.
Proof.
  induction entries as [|e rest IH]; intros o l i Ho Hi Hl Hmax Hlen; cbn in *; [by exists i|].
  destruct Hl as (H1 & H2 & H3). pose proof (laid_out_le _ _ _ H3) as H4.
  rewrite (wrap_u64_id (startIndex e)) by ilia.
  set (a := Z.to_nat (startIndex e - o)) in *. assert (Ha : (a <= length l)%nat) by lia.
  destruct (Z.ltb_spec (o + i) (startIndex e)) as [Hlt|Hge].
  - exists i. split_and!; try lia. rewrite lookup_app_l; [|rewrite length_take; lia].
    by rewrite lookup_take_lt by lia.
  - rewrite (wrap_u64_id (numAppearances e)) by ilia.
    assert (Hd : zlen (drop (a + Z.to_nat (numAppearances e)) l) = o + zlen l - (startIndex e + numAppearances e))
      by (rewrite length_drop; lia).
    rewrite length_app, length_take in Hlen.
    destruct (IH (startIndex e + numAppearances e) (drop (a + Z.to_nat (numAppearances e)) l)
      (i - (startIndex e - o))) as (k & K1 & K2 & K3); [lia|lia|rewrite Hd; by replace (_ + _ + _) with (o + zlen l) by lia|rewrite Hd; lia|lia|].
    assert (Hb : zlen (uncovered (startIndex e + numAppearances e) (drop (a + Z.to_nat (numAppearances e)) l) rest) <=
      zlen (drop (a + Z.to_nat (numAppearances e)) l)).
    { clear. generalize (startIndex e + numAppearances e). generalize (drop (a + Z.to_nat (numAppearances e)) l).
      induction rest as [|x rest IH]; intros l' z; cbn; [lia|]. rewrite length_app, length_take.
      specialize (IH (drop (Z.to_nat (startIndex x - z) + Z.to_nat (numAppearances x)) l') (startIndex x + numAppearances x)).
      rewrite length_drop in IH. lia. }
    replace (startIndex e + numAppearances e + (i - (startIndex e - o))) with (o + i + numAppearances e) in K1 by lia.
    rewrite wrap_u64_id by ilia. rewrite K1. exists (startIndex e - o + numAppearances e + k).
    split_and!; [lia|lia|lia|]. rewrite lookup_app_r by (rewrite length_take; lia).
    rewrite length_take, Nat.min_l by done. rewrite lookup_drop in K3.
    replace (Z.to_nat (startIndex e - o + numAppearances e + k))
      with (a + Z.to_nat (numAppearances e) + Z.to_nat k)%nat by lia.
    rewrite K3. f_equal. lia.
Qed.

(** Cutting the blocks leaves the entries of the values not chosen, in order. *)
Lemma uncovered_filter (vs : list Z) entries : forall o l, laid_out o (o + zlen l) entries ->
  (forall p v, l !! p = Some v -> v ∈ vs <-> covered (o + Z.of_nat p) entries) ->
  uncovered o l entries = filter (.∉ vs) l.
Proof.
  induction entries as [|e rest IH]; intros o l Hl Hc; cbn in *.
  - symmetry. apply filter_all_in. intros p x Hx. intros Hin%(Hc p x Hx). by apply Exists_nil in Hin.
  - destruct Hl as (H1 & H2 & H3). pose proof (laid_out_le _ _ _ H3) as H4.
    set (a := Z.to_nat (startIndex e - o)) in *. set (n := Z.to_nat (numAppearances e)) in *.
    assert (Hd : zlen (drop (a + n) l) = o + zlen l - (startIndex e + numAppearances e)) by (rewrite length_drop; lia).
    rewrite (IH (startIndex e + numAppearances e) (drop (a + n) l)).
    + rewrite <- (take_drop a l) at 3. rewrite filter_app. f_equal.
      * symmetry. apply filter_all_in. intros p x Hx. apply lookup_take_Some in Hx as [Hx Hp].
        rewrite (Hc p x Hx). intros [C|C]%Exists_cons; [unfold covers in C; lia|].
        pose proof (laid_out_above _ _ _ _ H3 C). lia.
      * rewrite <- drop_drop. rewrite <- (take_drop n (drop a l)) at 2. rewrite filter_app.
        replace (filter _ (take n (drop a l))) with (@nil Z); [done|]. symmetry. apply filter_none_in.
        intros p x Hx. apply lookup_take_Some in Hx as [Hx Hp]. rewrite lookup_drop in Hx.
        intros Hn. apply Hn. rewrite (Hc _ _ Hx). apply Exists_cons. left. unfold covers. lia.
    + rewrite Hd. by replace (_ + _ + _) with (o + zlen l) by lia.
    + intros p v Hv. rewrite lookup_drop in Hv. rewrite (Hc _ _ Hv). unfold covered. rewrite Exists_cons.
      replace (o + Z.of_nat (a + n + p)) with (startIndex e + numAppearances e + Z.of_nat p) by lia.
      split; [|by right]. intros [C|C]; [unfold covers in C; lia|done].
Qed.

Lemma uncovered_length o l entries : laid_out o (o + zlen l) entries ->
  zlen (uncovered o l entries) = zlen l - zsum (numAppearances <$> entries).
Proof.
  revert o l. induction entries as [|e rest IH]; intros o l Hl; cbn [uncovered fmap list_fmap]; [cbn; lia|].
  destruct Hl as (H1 & H2 & H3). pose proof (laid_out_le _ _ _ H3) as H4. rewrite zsum_cons, length_app, length_take.
  specialize (IH (startIndex e + numAppearances e)
    (drop (Z.to_nat (startIndex e - o) + Z.to_nat (numAppearances e)) l)).
  rewrite length_drop in IH.
  replace (startIndex e + numAppearances e + _) with (o + zlen l) in IH by lia. specialize (IH H3). lia.
Qed.

(** A block that meets no other block finds its place. *)
Lemma insert_laid_out ve hi entries : forall o, laid_out o hi entries -> o <= startIndex ve -> 0 < numAppearances ve ->
  startIndex ve + numAppearances ve <= hi -> (forall p, covers p ve -> ~ covered p entries) ->
  laid_out o hi (insert_entry ve entries).
Proof.
  induction entries as [|e rest IH]; intros o Hl H1 H2 H3 Hd; cbn in *; [lia|]. destruct Hl as (K1 & K2 & K3).
  destruct (Z.leb_spec (startIndex ve) (startIndex e)) as [Hle|Hgt]; cbn.
  - split_and!; try done. destruct (Z.le_gt_cases (startIndex ve + numAppearances ve) (startIndex e)); [done|].
    exfalso. apply (Hd (startIndex e)); [unfold covers; lia|]. apply Exists_cons. left. unfold covers. lia.
  - split_and!; try done. apply IH; try done.
    + destruct (Z.le_gt_cases (startIndex e + numAppearances e) (startIndex ve)); [done|].
      exfalso. apply (Hd (startIndex ve)); [unfold covers; lia|]. apply Exists_cons. left. unfold covers. lia.
    + intros p Hp C. apply (Hd p Hp). apply Exists_cons. by right.
Qed.

Lemma insert_perm ve entries : insert_entry ve entries ≡ₚ ve :: entries.
Proof.
  induction entries as [|e rest IH]; cbn; [done|]. destruct (_ <=? _); [done|]. rewrite IH. by apply perm_swap.
Qed.

Lemma insert_sum ve entries :
  zsum (numAppearances <$> insert_entry ve entries) = numAppearances ve + zsum (numAppearances <$> entries).
Proof. by rewrite (insert_perm ve entries). Qed.

(** ** The block of one validator in a sorted list *)

Definition nondecreasing (l : list Z) : Prop :=
  forall i j x y, l !! i = Some x -> l !! j = Some y -> (i <= j)%nat -> x <= y.

Lemma first_index_spec l val i : let s := first_index l val i in
  0 <= s <= Z.of_nat i /\ (forall p, (p < i)%nat -> s <= Z.of_nat p -> l !! p = Some val) /\
  (0 < s -> l !! Z.to_nat (s - 1) <> Some val).
Proof.
  induction i as [|j IH]; cbn; [split_and!; lia|]. case_bool_decide as Hj.
  - destruct IH as (H1 & H2 & H3). split_and!; [lia|lia| |done].
    intros p Hp Hs. destruct (decide (p = j)) as [->|]; [done|]. apply H2; lia.
  - split_and!; [lia|lia|lia|]. intros _. by replace (Z.to_nat (Z.of_nat j + 1 - 1)) with j by lia.
Qed.

Lemma last_index_spec val rest : forall i endIdx, endIdx = i + zlen rest - 1 ->
  let e := last_index val i rest endIdx in
  i - 1 <= e <= endIdx /\ (forall p, i + Z.of_nat p <= e -> rest !! p = Some val) /\
  (e < endIdx -> rest !! Z.to_nat (e + 1 - i) <> Some val).
Proof.
  induction rest as [|x rest IH]; intros i endIdx ->; cbn.
  - split_and!; [lia|lia|intros p Hp; lia|lia].
  - case_bool_decide as Hx.
    + destruct (IH (i + 1) (i + Z.of_nat (S (length rest)) - 1)) as (H1 & H2 & H3); [lia|].
      split_and!; [lia|lia| |].
      * intros [|p] Hp; cbn; [by subst|]. apply H2. lia.
      * intros Hlt. set (e := last_index _ _ _ _) in *.
        replace (Z.to_nat (e + 1 - i)) with (S (Z.to_nat (e + 1 - (i + 1)))) by lia. cbn. by apply H3.
    + split_and!; [lia|lia|intros p Hp; lia|]. intros _. replace (Z.to_nat _) with 0%nat by lia. cbn. congruence.
Qed.

Lemma block_spec l idx v : nondecreasing l -> l !! idx = Some v ->
  exists s n, computeStartIndexAndNumAppearancesForValidator l (Z.of_nat idx) = Ok (s, n) /\
    0 <= s /\ 0 < n /\ s + n <= zlen l /\ forall p w, l !! p = Some w -> w = v <-> s <= Z.of_nat p < s + n.
Proof.
  intros Hs Hv. unfold computeStartIndexAndNumAppearancesForValidator. rewrite Nat2Z.id, Hv.
  pose proof (lookup_lt_Some _ _ _ Hv) as Hlt.
  destruct (first_index_spec l v idx) as (F1 & F2 & F3).
  destruct (last_index_spec v (drop (S idx) l) (Z.of_nat idx + 1) (zlen l - 1)) as (L1 & L2 & L3);
    [rewrite length_drop; lia|].
  set (s := first_index l v idx) in *. set (e := last_index _ _ _ _) in *.
  exists s, (e - s + 1). split_and!; [done|lia|lia|lia|]. intros p w Hw. split.
  - intros ->. pose proof (lookup_lt_Some _ _ _ Hw). split.
    + destruct (Z.le_gt_cases s (Z.of_nat p)); [done|]. exfalso.
      destruct (lookup_lt_is_Some_2 l (Z.to_nat (s - 1))) as [x Hx]; [lia|].
      apply F3; [lia|]. rewrite Hx. f_equal.
      pose proof (Hs _ _ _ _ Hw Hx ltac:(lia)). pose proof (Hs _ _ _ _ Hx Hv ltac:(lia)). lia.
    + destruct (Z.le_gt_cases (Z.of_nat p) e); [lia|]. exfalso.
      destruct (lookup_lt_is_Some_2 l (Z.to_nat (e + 1))) as [x Hx]; [lia|].
      apply L3; [lia|]. rewrite lookup_drop.
      replace (S idx + _)%nat with (Z.to_nat (e + 1)) by lia. rewrite Hx. f_equal.
      pose proof (Hs _ _ _ _ Hx Hw ltac:(lia)). pose proof (Hs _ _ _ _ Hv Hx ltac:(lia)). lia.
  - intros Hp. assert (l !! p = Some v); [|congruence].
    destruct (Nat.lt_trichotomy p idx) as [Hlt'|[->|Hgt]]; [apply F2; lia|done|].
    specialize (L2 (p - S idx)%nat). rewrite lookup_drop in L2. replace (S idx + (p - S idx))%nat with p in L2 by lia.
    apply L2. lia.
Qed.

(** ** The expanded list *)

Lemma expand_loop_spec weights : forall i l, expand_loop i weights = Ok l -> 0 <= i -> i + zlen weights <= MaxUint32 ->
  (forall v, v ∈ l <-> i <= v < i + zlen weights) /\ nondecreasing l.
Proof.
  induction weights as [|w rest IH]; intros i l; cbn [expand_loop].
  { intros [= <-] Hi Hmax. split; [intros v; cbn; rewrite elem_of_nil; lia|]. intros ? ? ? ? H. done. }
  destruct (Z.ltb_spec w minWeight) as [|Hw]; [done|]. unfold minWeight in Hw.
  destruct (expand_loop (i + 1) rest) as [l'|] eqn:E; [|done]. cbn. intros [= <-] Hi Hmax.
  destruct (IH _ _ E) as [IHv IHs]; [lia|lia|]. rewrite wrap_u32_id by ilia. unfold copies. split.
  - intros v. rewrite elem_of_app, IHv, elem_of_replicate. lia.
  - intros a b x y Ha Hb Hab. apply lookup_app_Some in Ha as [Ha|[Ha1 Ha]].
    + apply lookup_replicate in Ha as [-> _].
      apply lookup_app_Some in Hb as [[-> _]%lookup_replicate|[_ Hb]]; [lia|].
      apply list_elem_of_lookup_2, IHv in Hb. lia.
    + apply lookup_app_Some in Hb as [Hb|[Hb1 Hb]]; [apply lookup_lt_Some in Hb; lia|].
      apply (IHs _ _ _ _ Ha Hb). lia.
Qed.

(** ** The loop of [Get] *)

(** The provider covers exactly the positions of the chosen values. *)
Record provider_inv (l vs : list Z) (sbp : SelectionBasedProvider) : Prop := {
  pi_blocks : laid_out 0 (zlen l) (sortedSlice sbp);
  pi_covers : forall p v, l !! p = Some v -> v ∈ vs <-> covered (Z.of_nat p) (sortedSlice sbp);
  pi_size : size sbp = zsum (numAppearances <$> sortedSlice sbp);
}.

Lemma provider_inv_start l : provider_inv l [] NewSelectionBasedProvider.
Proof.
  split; cbn; [lia| |done]. intros p v _. split; [by intros ?%elem_of_nil|]. intros C. by apply Exists_nil in C.
Qed.

Lemma provider_remaining l vs sbp : provider_inv l vs sbp ->
  uncovered 0 l (sortedSlice sbp) = filter (.∉ vs) l /\ zlen (filter (.∉ vs) l) = zlen l - size sbp.
Proof.
  intros [H1 H2 H3]. assert (E : uncovered 0 l (sortedSlice sbp) = filter (.∉ vs) l) by by apply uncovered_filter.
  split; [done|]. rewrite <- E, H3. by apply uncovered_length.
Qed.

Lemma provider_add l vs sbp idx v : nondecreasing l -> zlen l <= MaxInt64 -> provider_inv l vs sbp ->
  l !! idx = Some v -> v ∉ vs ->
  exists sbp', add l (Z.of_nat idx) sbp = (sbp', Ok tt) /\ provider_inv l (v :: vs) sbp'.
Proof.
  intros Hs Hmax Hi Hv Hnew. pose proof Hi as [H1 H2 H3].
  destruct (block_spec _ _ _ Hs Hv) as (s & n & E & B1 & B2 & B3 & B4). unfold add. rewrite E.
  eexists. split; [reflexivity|]. pose proof (provider_remaining _ _ _ Hi) as [_ Hrem].
  assert (Hd : forall p, covers p {| startIndex := s; numAppearances := n |} -> ~ covered p (sortedSlice sbp)).
  { unfold covers. cbn. intros p Hp C. destruct (lookup_lt_is_Some_2 l (Z.to_nat p)) as [w Hw]; [lia|].
    assert (w = v) as -> by (apply (B4 _ _ Hw); lia). apply Hnew, (H2 _ _ Hw). by rewrite Z2Nat.id by lia. }
  split; cbn.
  - apply insert_laid_out; cbn; try done; lia.
  - intros p w Hw. rewrite elem_of_cons, (H2 p w Hw), (B4 p w Hw). unfold covered.
    rewrite (insert_perm _ (sortedSlice sbp)), Exists_cons. done.
  - rewrite insert_sum, <- H3. cbn.
    pose proof (insert_laid_out {| startIndex := s; numAppearances := n |} _ _ 0 H1 B1 B2 B3 Hd) as H4.
    pose proof (length_filter (.∉ vs) l) as Hle. 
    pose proof (uncovered_length 0 l _ H4) as H5.
    rewrite insert_sum, <- H3 in H5. cbn in H5.
    rewrite wrap_i64_id by ilia. lia.
Qed.

Section get.
Context `{HS : Hasher}.
(** Hashes have at least eight bytes (the hashers of the node return 32). *)
Hypothesis hash_size : forall s, (8 <= String.length (Compute s))%nat.

Definition random (seed : string) (i : Z) : Z := from_ok 0 (computeRandomnessAsUint64 seed i).

Lemma random_ok seed i : computeRandomnessAsUint64 seed i = Ok (random seed i).
Proof.
  unfold random, computeRandomnessAsUint64, BigEndian_Uint64. specialize (hash_size (PutUint64 (wrap_u64 i) +:+ seed)).
  destruct (Nat.ltb_spec (String.length (Compute (PutUint64 (wrap_u64 i) +:+ seed))) 8); [lia|done].
Qed.

(** One round picks from what is left, and the provider skips the choice from then on. *)
Lemma get_round_spec l vs sbp seed i : nondecreasing l -> zlen l <= MaxInt64 -> provider_inv l vs sbp ->
  filter (.∉ vs) l <> [] ->
  exists v sbp', get_round seed l i sbp = (sbp', Ok v) /\ provider_inv l (v :: vs) sbp' /\ v ∈ l /\ (v ∉ vs) /\
    (filter (.∉ vs) l) !! Z.to_nat (random seed i mod zlen (filter (.∉ vs) l)) = Some v.
Proof.
  intros Hs Hmax Hi Hne. destruct (provider_remaining _ _ _ Hi) as [Hu Hlen].
  assert (Hpos : 0 < zlen (filter (.∉ vs) l)) by (destruct (filter _ l); [done|cbn; lia]).
  pose proof (length_filter (.∉ vs) l) as Hle. set (r := random seed i mod zlen (filter (.∉ vs) l)).
  pose proof (Z.mod_pos_bound (random seed i) _ Hpos) as Hr. fold r in Hr.
  destruct (adjust_spec (sortedSlice sbp) 0 l r) as (k & K1 & K2 & K3); [lia|lia|apply Hi|lia|rewrite Hu; apply Hr|].
  rewrite Hu in K3. destruct (lookup_lt_is_Some_2 (filter (.∉ vs) l) (Z.to_nat r)) as [v Hv]; [lia|].
  rewrite Hv in K3. pose proof (list_elem_of_lookup_2 _ _ _ Hv) as [Hnew Hin]%list_elem_of_filter.
  destruct (provider_add l vs sbp (Z.to_nat k) v Hs Hmax Hi K3 Hnew) as (sbp' & A1 & A2).
  exists v, sbp'. split_and!; try done. unfold get_round, mbind, M_bind, lift, get, reject_if. rewrite random_ok.
  destruct (Z.leb_spec (zlen l) (size sbp)); [lia|]. cbn [mret M_ret]. unfold mret, M_ret.
  assert (E : wrap_u64 (zlen l -! size sbp) = zlen (filter (.∉ vs) l)).
  { rewrite Hlen, wrap_i64_id by ilia. apply wrap_u64_id. ilia. }
  rewrite E. fold r. unfold adjustIndex. replace (adjust_loop _ r) with k by (rewrite <- (Z.add_0_l r), K1; lia).
  rewrite K3. rewrite Z2Nat.id in A1 by lia. by rewrite A1.
Qed.

Lemma filter_step (l vs : list Z) v : filter (.∉ v :: vs) l = filter (.≠ v) (filter (.∉ vs) l).
Proof. rewrite list_filter_filter. apply list_filter_iff. intros x. rewrite not_elem_of_cons. tauto. Qed.

(** The loop: with enough different values it succeeds and answers as the reference. *)
Lemma get_loop_spec l : nondecreasing l -> zlen l <= MaxInt64 -> forall rounds seed i vs sbp, provider_inv l vs sbp ->
  (forall us, length us < length vs + rounds -> vs ⊆ us -> filter (.∉ us) l <> [])%nat ->
  exists picks sbp', get_loop seed l i rounds sbp = (sbp', Ok picks) /\
    picks = reslice (filter (.∉ vs) l) ((fun k => random seed (i + Z.of_nat k)) <$> seq 0 rounds) /\
    length picks = rounds /\ NoDup picks /\ (forall v, v ∈ picks -> v ∈ l /\ v ∉ vs).
Proof.
  intros Hs Hmax. induction rounds as [|n IH]; intros seed i vs sbp Hi Hrich.
  { exists [], sbp. split_and!; try done; [constructor|]. intros v ?%elem_of_nil. done. }
  destruct (get_round_spec l vs sbp seed i Hs Hmax Hi) as (v & sbp1 & R1 & R2 & R3 & R4 & R5); [apply Hrich; [lia|done]|].
  destruct (IH seed (i + 1) (v :: vs) sbp1 R2) as (picks & sbp2 & P1 & P2 & P3 & P4 & P5).
  { intros us Hus Hsub. cbn in Hus. apply Hrich; [lia|]. intros x Hx. apply Hsub. by right. }
  exists (v :: picks), sbp2. split_and!.
  - cbn. unfold mbind, M_bind. rewrite R1, P1. done.
  - cbn. rewrite Z.add_0_r, R5. f_equal. rewrite <- filter_step, P2, <- seq_shift, <- list_fmap_compose.
    f_equal. apply list_fmap_ext. intros _ k _. cbn. f_equal. lia.
  - cbn. by rewrite P3.
  - constructor; [|done]. intros [_ Hn]%P5. apply Hn. by left.
  - intros x [->|[Hx Hn]%P5]%elem_of_cons; [done|]. split; [done|]. intros K. apply Hn. by right.
Qed.

(** With fewer chosen values than validators something is left. *)
Lemma something_left (l us : list Z) n : (forall v, v ∈ l <-> 0 <= v < Z.of_nat n) -> (length us < n)%nat ->
  filter (.∉ us) l <> [].
Proof.
  intros Hv Hlt Hnil. assert (Hsub : seqZ 0 (Z.of_nat n) ⊆ us).
  { intros v [Hv1 Hv2]%elem_of_seqZ. destruct (decide (v ∈ us)) as [|Hn]; [done|]. exfalso.
    apply (filter_nil_not_elem_of _ _ v Hnil); [done|]. apply Hv. lia. }
  pose proof (submseteq_length _ _ (NoDup_submseteq _ _ (NoDup_seqZ 0 (Z.of_nat n)) Hsub)) as H.
  rewrite length_seqZ in H. lia.
Qed.

Lemma selector_spec weights sel seed sampleSize :
  NewSelectorExpandedList weights = Ok sel -> zlen weights <= MaxUint32 -> zlen (expandedList sel) <= MaxInt64 ->
  seed <> EmptyString -> 0 < sampleSize <= zlen weights ->
  exists picks, Select seed sampleSize sel = Ok picks /\
    picks = reslice (expandedList sel) ((fun k => random seed (Z.of_nat k)) <$> seq 0 (Z.to_nat sampleSize)) /\
    zlen picks = sampleSize /\ NoDup picks /\ Forall (fun v => 0 <= v < zlen weights) picks.
Proof.
  unfold NewSelectorExpandedList, expandList. intros Hn H32 H64 Hseed Hsize.
  destruct (Nat.eqb_spec (length weights) 0); [done|]. destruct (expand_loop 0 weights) as [l|] eqn:E; [|done].
  injection Hn as <-. cbn in H64 |- *. destruct (expand_loop_spec weights 0 l E) as [Hv Hs]; [lia|lia|].
  destruct (get_loop_spec l Hs H64 (Z.to_nat sampleSize) seed 0 [] _ (provider_inv_start l))
    as (picks & sbp & P1 & P2 & P3 & P4 & P5).
  { intros us Hus _. apply (something_left l us (length weights)); [done|]. cbn in Hus. lia. }
  exists picks. unfold Select, Get. cbn. rewrite wrap_u32_id by ilia.
  destruct seed as [|c seed]; [done|]. cbn.
  destruct (Z.eqb_spec sampleSize 0), (Z.ltb_spec (zlen weights) sampleSize); try lia. cbn.
  destruct (Z.ltb_spec (zlen l) sampleSize) as [Hlt|_].
  - exfalso. pose proof (submseteq_length picks l) as Hl. rewrite P3 in Hl.
    specialize (Hl (NoDup_submseteq _ _ P4 (fun v Hin => proj1 (P5 v Hin)))). lia.
  - rewrite P1. split_and!; [done| |lia|done|].
    + rewrite P2. f_equal. apply filter_all_in. intros p x _ K. by apply elem_of_nil in K.
    + apply Forall_forall. intros v [Hin _]%P5. by apply Hv.
Qed.

(** C17: the weighted selection of validators behaves as the reslicing it
    simulates.  For every list of positive weights, [Select] refuses an empty seed
    and a sample size that is zero or exceeds the number of validators; for every
    other seed and size it succeeds, and its answer is that of picking, in turn,
    the entry at the hash modulo the length of the list and cutting all entries
    of the picked validator out of it; the picks are as many as asked for,
    pairwise different and valid indices.  Hashes are of at least eight bytes, and
    the weights and the expanded list are of 32- and 64-bit length. *)
Theorem selection_simulates_reslicing weights sel seed sampleSize :
  NewSelectorExpandedList weights = Ok sel -> zlen weights <= MaxUint32 -> zlen (expandedList sel) <= MaxInt64 ->
  0 <= sampleSize ->
  if decide (seed = EmptyString) then Select seed sampleSize sel = Err ErrNilRandomness
  else if decide (0 < sampleSize <= zlen weights) then
    exists picks, Select seed sampleSize sel = Ok picks /\
      picks = reslice (expandedList sel) ((fun k => random seed (Z.of_nat k)) <$> seq 0 (Z.to_nat sampleSize)) /\
      zlen picks = sampleSize /\ NoDup picks /\ Forall (fun v => 0 <= v < zlen weights) picks
  else Select seed sampleSize sel = Err ErrInvalidSampleSize.
Proof.
  intros Hn H32 H64 H0. destruct (decide (seed = EmptyString)) as [->|Hseed]; [done|].
  destruct (decide _) as [Hs|Hs]; [by apply selector_spec|].
  assert (uniqueItems sel = zlen weights) as Hu.
  { unfold NewSelectorExpandedList in Hn. destruct (_ =? 0)%nat; [done|]. destruct (expandList weights); [|done].
    injection Hn as <-. cbn. apply wrap_u32_id. ilia. }
  unfold Select. rewrite Hu. destruct seed as [|c seed]; [done|]. cbn [String.length Nat.eqb].
  destruct (Z.eqb_spec sampleSize 0), (Z.ltb_spec (zlen weights) sampleSize); try done. lia.
Qed.
End get.
