(* ===== verification/Shuffler.v ===== *)
(** * Rotation of the validators between epochs

    [sharding/validator.go] and [sharding/hashValidatorShuffler.go]: at the start
    of an epoch some elected validators, chosen by hashing, give their place to
    eligible ones.  The theorem: nobody is lost or duplicated, exactly the chosen
    number rotates, and the elected list has the size asked for. *)

From S2P Require Import Prelude Common Strconv Tools Selection.
Local Open Scope Z_scope.

Record Validator : Type := { OwnerAddress : string; PubKey : string; Chances : Z; Index : Z }.

#[global] Instance Validator_eq_dec : EqDecision Validator.
Proof. solve_decision. Defined.

Definition NewValidator (owner : string) (pubKey : slice) (chances index : Z) : res shardError Validator :=
  match pubKey with
  | None => Err ErrNilPubKey
  | Some k => Ok {| OwnerAddress := owner; PubKey := k; Chances := chances; Index := index |}
  end.

(** ** Lists of validators *)

Section shuffle.
Context `{HS : Hasher}.

(** The key a validator is sorted by. *)
Definition shuffle_key (randomness : string) (v : Validator) : string := Compute (PubKey v +:+ randomness).

(** Every key of [keys] was put into the map, so no look-up fails. *)
Definition shuffleList (validators : list Validator) (randomness : string) : list Validator :=
  let keys := shuffle_key randomness <$> validators in
  let mapValidators := fold_left (fun m v => <[shuffle_key randomness v := v]> m) validators (∅ : gmap string Validator) in
  omap (fun k => mapValidators !! k) (merge_sort str_le keys).

Definition removeValidatorFromList (validatorList : list Validator) (index : Z) : list Validator :=
  if (Z.of_nat (length validatorList) - 1 <? index) || (index <? 0) then validatorList
  else match last validatorList with
       | None => validatorList
       | Some v => take (length validatorList - 1) (<[Z.to_nat index := v]> validatorList)
       end.

(** [for i := len - 1; i >= 0; i--]: [i] positions are left to look at. *)
Fixpoint find_last (key : string) (l : list Validator) (i : nat) : option nat :=
  match i with
  | O => None
  | S j => match l !! j with
           | Some v => if str_eqb (PubKey v) key then Some j else find_last key l j
           | None => find_last key l j
           end
  end.

Fixpoint remove_loop (resultedList : list Validator) (removed : list Validator) (toRemove : list Validator)
  (maxToRemove : nat) : list Validator * list Validator :=
  match toRemove with
  | [] => (resultedList, removed)
  | v :: rest =>
      if (length removed =? maxToRemove)%nat then (resultedList, removed)
      else
        match find_last (PubKey v) resultedList (length resultedList) with
        | None => remove_loop resultedList removed rest maxToRemove
        | Some i => remove_loop (removeValidatorFromList resultedList (Z.of_nat i))
                      (removed ++ option_list (resultedList !! i)) rest maxToRemove
        end
  end.
Definition removeValidatorsFromList (validatorList validatorsToRemove : list Validator) (maxToRemove : nat) :=
  remove_loop validatorList [] validatorsToRemove maxToRemove.

(** A destination that is a nil slice is refused. *)
Definition moveNodesToList (destination : option (list Validator)) (source : list Validator)
  : res shardError (list Validator * list Validator) :=
  match destination with
  | None => Err ErrNilOrEmptyDestinationForDistribute
  | Some d => Ok (d ++ source, [])
  end.

Definition computeNeededNodes (destination source : list Validator) (maxNumNodes : Z) : Z :=
  let numCurrentNodes := wrap_u32 (Z.of_nat (length destination)) in
  let numSourceNodes := wrap_u32 (Z.of_nat (length source)) in
  let numNeededNodes := if numCurrentNodes <? maxNumNodes then wrap_u32 (maxNumNodes - numCurrentNodes) else 0 in
  if numSourceNodes <? numNeededNodes then numSourceNodes else numNeededNodes.

Definition moveMaxNumNodesToList (destination : option (list Validator)) (source : list Validator) (numNodes : Z)
  : res shardError (list Validator * list Validator) :=
  match destination with
  | None => Err ErrNilOrEmptyDestinationForDistribute
  | Some d =>
      let n := Z.to_nat (computeNeededNodes d source numNodes) in
      Ok (d ++ take n source, drop n source)
  end.

(** ** One rotation *)

Record shuffleNodesArg : Type := {
  arg_elected : list Validator;
  arg_eligible : list Validator;
  arg_randomness : string;
  arg_nodes : Z;
  arg_maxNodesToSwap : Z;
}.
Record ResUpdateNodes : Type := { res_Elected : option (list Validator); res_Eligible : option (list Validator) }.

Definition computeNumToRemove (arg : shuffleNodesArg) : res shardError Z :=
  let len := Z.of_nat (length (arg_elected arg)) + Z.of_nat (length (arg_eligible arg)) in
  if len <? arg_nodes arg then Err ErrSmallElectedListSize else Ok (len - arg_nodes arg).

(** The slice expressions panic when the number exceeds the list. *)
Definition shuffleOutNodes (elected : list Validator) (numToShuffle : Z) (randomness : string)
  : res shardError (list Validator * list Validator) :=
  let shuffledElected := shuffleList elected randomness in
  if Z.of_nat (length shuffledElected) <? numToShuffle then Err Panic
  else
    let shuffledOut := take (Z.to_nat numToShuffle) shuffledElected in
    let remainingValidators := drop (Z.to_nat numToShuffle) shuffledElected in
    Ok (shuffledOut, (removeValidatorsFromList remainingValidators shuffledOut (length shuffledOut)).1).

(** A list that a failed move leaves nil. *)
Definition moved (r : res shardError (list Validator * list Validator)) : option (list Validator) * option (list Validator) :=
  match r with Ok (a, b) => (Some a, Some b) | Err _ => (None, None) end.

Definition shuffleNodes (arg : shuffleNodesArg) : res shardError ResUpdateNodes :=
  numToRemove ← computeNumToRemove arg;
  let numToRemove := if arg_maxNodesToSwap arg <? numToRemove then arg_maxNodesToSwap arg else numToRemove in
  out ← shuffleOutNodes (arg_elected arg) numToRemove (arg_randomness arg);
  let '(shuffledOutList, newElected) := out in
  let shuffledEligible := shuffleList (arg_eligible arg) (arg_randomness arg) in
  let '(updatedElected, updatedEligible) :=
    moved (moveMaxNumNodesToList (Some newElected) shuffledEligible (arg_nodes arg)) in
  let '(finalEligible, _) := moved (moveNodesToList updatedEligible shuffledOutList) in
  Ok {| res_Elected := updatedElected; res_Eligible := finalEligible |}.

(** ** The shuffler *)

Record MaxNodesChangeConfig : Type := { EpochEnable : Z; NodesToShuffle : Z }.
Record randHashShuffler : Type := {
  rhs_nodes : Z;
  activeNodesConfig : MaxNodesChangeConfig;
  availableNodesConfigs : list MaxNodesChangeConfig;
}.

(** [sort.Slice] by [EpochEnable]: some sorted rearrangement. *)
Variable sortSlice : list MaxNodesChangeConfig -> list MaxNodesChangeConfig.

Definition sortConfigs (rhs : randHashShuffler) : randHashShuffler :=
  {| rhs_nodes := rhs_nodes rhs; activeNodesConfig := activeNodesConfig rhs;
     availableNodesConfigs := sortSlice (availableNodesConfigs rhs) |}.
Definition UpdateParams (nodes : Z) (rhs : randHashShuffler) : randHashShuffler :=
  {| rhs_nodes := nodes; activeNodesConfig := activeNodesConfig rhs;
     availableNodesConfigs := availableNodesConfigs rhs |}.
Definition NewHashValidatorsShuffler (nodes : Z) (configs : list MaxNodesChangeConfig) : randHashShuffler :=
  sortConfigs (UpdateParams nodes {| rhs_nodes := 0; activeNodesConfig := {| EpochEnable := 0; NodesToShuffle := 0 |};
                                     availableNodesConfigs := configs |}).

Definition UpdateShufflerConfig (epoch : Z) (rhs : randHashShuffler) : randHashShuffler :=
  {| rhs_nodes := rhs_nodes rhs;
     activeNodesConfig :=
       fold_left (fun active c => if EpochEnable c <=? epoch then c else active) (availableNodesConfigs rhs)
         {| EpochEnable := EpochEnable (activeNodesConfig rhs); NodesToShuffle := rhs_nodes rhs |};
     availableNodesConfigs := availableNodesConfigs rhs |}.

Record ArgsUpdateNodes : Type := {
  upd_Elected : list Validator; upd_Eligible : list Validator; upd_Rand : string; upd_Epoch : Z;
}.
Definition UpdateNodeLists (args : ArgsUpdateNodes) (rhs : randHashShuffler)
  : randHashShuffler * res shardError ResUpdateNodes :=
  let rhs := UpdateShufflerConfig (upd_Epoch args) rhs in
  (rhs, shuffleNodes {| arg_elected := upd_Elected args; arg_eligible := upd_Eligible args;
                        arg_randomness := upd_Rand args; arg_nodes := rhs_nodes rhs;
                        arg_maxNodesToSwap := NodesToShuffle (activeNodesConfig rhs) |}).

(** ** Nobody is lost *)

Lemma string_app_inj_r (a b c : string) : a +:+ c = b +:+ c -> a = b.
Proof.
  intros H. assert (Hl : String.length a = String.length b).
  { apply (f_equal String.length) in H. rewrite !string_length_app in H. lia. }
  revert b H Hl. induction a as [|x a IH]; intros [|y b] H Hl; try done.
  rewrite !string_app_cons in H. injection H as -> H. f_equal. apply IH; [done|]. by injection Hl.
Qed.

Section laws.
Context {no_collision : Inj (=) (=) Compute}.
Implicit Types vs : list Validator.

Lemma shuffle_keys_nodup r vs : NoDup (PubKey <$> vs) -> NoDup (shuffle_key r <$> vs).
Proof.
  intros H. apply (NoDup_fmap_2_strong (fun k => Compute (k +:+ r))) in H.
  - by rewrite <- list_fmap_compose in H.
  - intros a b _ _ E%no_collision. by apply string_app_inj_r in E.
Qed.

Lemma shuffle_map_lookup r vs : NoDup (shuffle_key r <$> vs) -> forall (m : gmap string Validator) v, v ∈ vs ->
  fold_left (fun m v => <[shuffle_key r v := v]> m) vs m !! shuffle_key r v = Some v.
Proof.
  intros Hnd m v Hin. apply list_elem_of_split in Hin as (l1 & l2 & ->).
  rewrite fmap_app, fmap_cons in Hnd. apply NoDup_app in Hnd as (_ & _ & Hnd). apply NoDup_cons in Hnd as [Hv _].
  rewrite fold_left_app. cbn. generalize (fold_left (fun m v => <[shuffle_key r v := v]> m) l1 m). clear m. intros m.
  assert (Hm : <[shuffle_key r v := v]> m !! shuffle_key r v = Some v) by apply lookup_insert_eq.
  revert Hm. generalize (<[shuffle_key r v := v]> m). clear m. induction l2 as [|w l2 IH]; intros m Hm; [done|].
  cbn. apply IH; [intros Hin; apply Hv; by right|]. rewrite lookup_insert_ne; [done|]. intros E. apply Hv.
  rewrite fmap_cons, elem_of_cons. by left.
Qed.

Lemma shuffleList_perm r vs : NoDup (PubKey <$> vs) -> shuffleList vs r ≡ₚ vs.
Proof.
  intros Hnd%(shuffle_keys_nodup r). unfold shuffleList. rewrite merge_sort_Permutation.
  pose proof (shuffle_map_lookup r vs Hnd ∅) as H.
  set (m := fold_left _ _ _) in *. clearbody m. clear Hnd. induction vs as [|v vs IH]; [done|].
  rewrite fmap_cons. cbn. rewrite H by by left. f_equiv. apply IH. intros w Hw. apply H. by right.
Qed.

Lemma find_last_none key vs i : key ∉ (PubKey <$> vs) -> find_last key vs i = None.
Proof.
  intros H. induction i as [|i IH]; cbn; [done|]. destruct (vs !! i) as [v|] eqn:E; [|done].
  unfold str_eqb. case_bool_decide as Hk; [|done]. exfalso. apply H. rewrite <- Hk.
  apply list_elem_of_fmap_2, list_elem_of_lookup. by exists i.
Qed.

Lemma remove_loop_none toRemove n : forall vs removed, (forall v, v ∈ toRemove -> PubKey v ∉ (PubKey <$> vs)) ->
  remove_loop vs removed toRemove n = (vs, removed).
Proof.
  induction toRemove as [|v rest IH]; intros vs removed H; cbn; [done|]. destruct (_ =? _)%nat; [done|].
  rewrite find_last_none by (apply H; by left). apply IH. intros w Hw. apply H. by right.
Qed.

(** Taking the first of the shuffled list out removes exactly them. *)
Lemma shuffle_out_spec vs n r : NoDup (PubKey <$> vs) -> 0 <= n <= Z.of_nat (length vs) ->
  exists out kept, shuffleOutNodes vs n r = Ok (out, kept) /\ vs ≡ₚ out ++ kept /\ Z.of_nat (length out) = n.
Proof.
  intros Hnd Hn. pose proof (shuffleList_perm r vs Hnd) as Hp. unfold shuffleOutNodes.
  rewrite (Permutation_length Hp). destruct (Z.ltb_spec (Z.of_nat (length vs)) n); [lia|].
  unfold removeValidatorsFromList. rewrite remove_loop_none.
  - eexists _, _. split; [reflexivity|]. cbn. split; [by rewrite take_drop|].
    rewrite length_take, (Permutation_length Hp). lia.
  - intros v Hv. rewrite <- Hp in Hnd.
    rewrite <- (take_drop (Z.to_nat n) (shuffleList vs r)), fmap_app in Hnd. apply NoDup_app in Hnd as (_ & Hd & _).
    apply Hd. by apply list_elem_of_fmap_2.
Qed.

Definition num_to_remove (arg : shuffleNodesArg) : Z :=
  Z.min (zlen (arg_elected arg) + zlen (arg_eligible arg) - arg_nodes arg) (arg_maxNodesToSwap arg).

Lemma rotation_spec arg :
  NoDup (PubKey <$> arg_elected arg ++ arg_eligible arg) ->
  is_u32 (arg_nodes arg) -> 0 <= arg_maxNodesToSwap arg -> zlen (arg_elected arg) + zlen (arg_eligible arg) <= MaxUint32 ->
  if zlen (arg_elected arg) + zlen (arg_eligible arg) <? arg_nodes arg
  then shuffleNodes arg = Err ErrSmallElectedListSize
  else if zlen (arg_elected arg) <? num_to_remove arg then shuffleNodes arg = Err Panic
  else exists out kept brought rest,
    shuffleNodes arg = Ok {| res_Elected := Some (kept ++ brought); res_Eligible := Some (rest ++ out) |} /\
    arg_elected arg ≡ₚ out ++ kept /\ arg_eligible arg ≡ₚ brought ++ rest /\
    zlen out = num_to_remove arg /\
    zlen (kept ++ brought) = Z.max (arg_nodes arg) (zlen (arg_elected arg) - num_to_remove arg).
Proof.
  intros Hnd Hnodes Hswap Hlen. unfold shuffleNodes, computeNumToRemove.
  rewrite fmap_app in Hnd. apply NoDup_app in Hnd as (Hnd1 & _ & Hnd2).
  destruct (Z.ltb_spec (zlen (arg_elected arg) + zlen (arg_eligible arg)) (arg_nodes arg)) as [|Hge]; [done|]. cbn.
  replace (if arg_maxNodesToSwap arg <? _ then _ else _) with (num_to_remove arg)
    by (unfold num_to_remove; destruct (Z.ltb_spec (arg_maxNodesToSwap arg)
          (zlen (arg_elected arg) + zlen (arg_eligible arg) - arg_nodes arg)); lia).
  pose proof (shuffleList_perm (arg_randomness arg) _ Hnd1) as Hp1.
  pose proof (shuffleList_perm (arg_randomness arg) _ Hnd2) as Hp2.
  destruct (Z.ltb_spec (zlen (arg_elected arg)) (num_to_remove arg)) as [Hlt|Hr].
  { unfold shuffleOutNodes. rewrite (Permutation_length Hp1).
    by destruct (Z.ltb_spec (zlen (arg_elected arg)) (num_to_remove arg)); [|lia]. }
  assert (Hn : 0 <= num_to_remove arg <= zlen (arg_elected arg)) by (unfold num_to_remove in *; lia).
  destruct (shuffle_out_spec _ _ (arg_randomness arg) Hnd1 Hn) as (out & kept & E & P & Ho). rewrite E. cbn.
  eexists out, kept, _, _. split; [reflexivity|]. split; [done|]. split; [by rewrite take_drop|]. split; [done|].
  pose proof (Permutation_length P) as Hk. rewrite length_app in Hk.
  rewrite length_app, length_take, (Permutation_length Hp2). unfold computeNeededNodes.
  rewrite (Permutation_length Hp2). rewrite !(wrap_u32_id (zlen _)) by ilia.
  unfold num_to_remove in *.
  destruct (Z.ltb_spec (zlen kept) (arg_nodes arg)).
  - rewrite wrap_u32_id by ilia. destruct (Z.ltb_spec (zlen (arg_eligible arg)) (arg_nodes arg - zlen kept)); lia.
  - destruct (Z.ltb_spec (zlen (arg_eligible arg)) 0); lia.
Qed.

(** C30: a rotation of the validators loses and duplicates nobody.  When there are
    at least as many validators as places, it moves exactly the configured number
    [r] of elected validators to the eligible list (as many as the spare
    validators allow) and fills the elected list from the eligible ones, which
    then has exactly the number of places, or the elected validators left when
    they exceed it; those taken out are not elected again.  It is refused when
    validators are missing, and the slice expression fails when [r] exceeds the
    elected list. *)
Theorem rotation_exact arg :
  NoDup (PubKey <$> arg_elected arg ++ arg_eligible arg) ->
  is_u32 (arg_nodes arg) -> 0 <= arg_maxNodesToSwap arg -> zlen (arg_elected arg) + zlen (arg_eligible arg) <= MaxUint32 ->
  if zlen (arg_elected arg) + zlen (arg_eligible arg) <? arg_nodes arg
  then shuffleNodes arg = Err ErrSmallElectedListSize
  else if zlen (arg_elected arg) <? num_to_remove arg then shuffleNodes arg = Err Panic
  else exists out kept brought rest,
    shuffleNodes arg = Ok {| res_Elected := Some (kept ++ brought); res_Eligible := Some (rest ++ out) |} /\
    arg_elected arg ≡ₚ out ++ kept /\ arg_eligible arg ≡ₚ brought ++ rest /\
    zlen out = num_to_remove arg /\
    zlen (kept ++ brought) = Z.max (arg_nodes arg) (zlen (arg_elected arg) - num_to_remove arg).
Proof. apply rotation_spec. Qed.
End laws.
End shuffle.
