(* ===== verification/NodesCoordinator.v ===== *)
(** * The nodes coordinator

    [sharding/nodesCoordinator.go] and [indexHashedNodesCoordinatorRegistry.go]:
    the lists of validators of each epoch, their computation at the start of an
    epoch, the consensus group of a slot with its cache, and the registry the
    coordinator is saved to and restored from. *)

From S2P Require Import Prelude Common Strconv Tools Selection Shuffler.
Local Open Scope Z_scope.

Definition DefaultSelectionChances : Z := 1.
Definition nodeCoordinatorStoredEpochs : Z := 10.
Definition NodesCoordinatorRegistryKeyPrefix : string := "indexHashed_".
Definition ElectedList : string := "elected".
Definition EligibleList : string := "eligible".
Definition WaitingList : string := "waiting".
Definition InactiveList : string := "inactive".
Definition JailedList : string := "jailed".
Definition ObserverList : string := "observer".

Definition wrap_i32 (z : Z) : Z := (z + 2147483648) mod 4294967296 - 2147483648.

(** [validator.go]: what the cache accounts for. *)
Definition validator_Size (v : Validator) : Z := slen (OwnerAddress v) + slen (PubKey v) + 8.

(** ** Data *)

Record epochNodesConfig : Type := {
  electedList : list Validator;
  eligibleList : list Validator;
  waitingList : list Validator;
  leavingList : list Validator;
  selector : option selectorExpandedList;
}.

Record EValidatorInfo : Type := {
  evi_OwnerAddress : string; evi_PublicKey : slice; evi_List : string; evi_Index : Z; evi_TempRating : Z;
}.
(** The fields of [state.ValidatorInfo] that are copied. *)
Record ValidatorInfo : Type := {
  vi_OwnerAddress : slice; vi_PublicKey : slice; vi_List : string; vi_Index : Z; vi_TempRating : Z;
}.

Record SerializableValidator : Type := { sv_OwnerAddress : string; sv_PubKey : slice; sv_Index : Z }.
(** The slices hold pointers, which can be nil in stored JSON. *)
Record EpochValidators : Type := {
  ElectedValidators : list (option SerializableValidator);
  EligibleValidators : list (option SerializableValidator);
  WaitingValidators : list (option SerializableValidator);
  LeavingValidators : list (option SerializableValidator);
}.
(** A pointer of the map can be nil in stored JSON. *)
Record NodesCoordinatorRegistry : Type := {
  EpochsConfig : gmap string (option EpochValidators);
  reg_CurrentEpoch : Z;
}.

(** ** Code outside the model: the cache of groups, the storer, [encoding/json] *)

(** A cache may forget; a look-up may change what it forgets next. *)
Class GroupCacher : Type := {
  cacheT : Type;
  cache_Clear : cacheT -> cacheT;
  cache_Put : string -> list Validator -> Z -> cacheT -> cacheT;
  cache_Get : string -> cacheT -> cacheT * option (list Validator);
}.
Class BootStorer : Type := {
  storerT : Type;
  storer_Put : string -> string -> storerT -> storerT * res string unit;
  storer_Get : string -> storerT -> storerT * res string string;
}.
Class RegistryJSON : Type := {
  json_Marshal : NodesCoordinatorRegistry -> res string string;
  json_Unmarshal : string -> res string NodesCoordinatorRegistry;
}.

Section coordinator.
Context `{HS : Hasher} `{CO : GroupCacher} `{BS : BootStorer} `{RJ : RegistryJSON}.

Record indexHashedNodesCoordinator : Type := {
  selfPubKey : string;
  nodesConfig : gmap Z epochNodesConfig;
  validatorsInfo : gmap Z (list EValidatorInfo);
  publicKeyToValidatorMap : gmap string Validator;
  savedStateKey : string;
  bootStorer : storerT;
  shuffler : randHashShuffler;
  consensusGroupCacher : cacheT;
  consensusGroupSize : Z;
  currentEpoch : Z;
  startEpoch : Z;
  stateReady : bool;
}.
Abbreviation coord := indexHashedNodesCoordinator.
Abbreviation CM := (M coord shardError).

Definition set_nodesConfig (f : gmap Z epochNodesConfig -> gmap Z epochNodesConfig) (s : coord) : coord :=
  {| selfPubKey := selfPubKey s; nodesConfig := f (nodesConfig s); validatorsInfo := validatorsInfo s;
     publicKeyToValidatorMap := publicKeyToValidatorMap s; savedStateKey := savedStateKey s;
     bootStorer := bootStorer s; shuffler := shuffler s; consensusGroupCacher := consensusGroupCacher s;
     consensusGroupSize := consensusGroupSize s; currentEpoch := currentEpoch s; startEpoch := startEpoch s;
     stateReady := stateReady s |}.
Definition set_validatorsInfo (f : gmap Z (list EValidatorInfo) -> gmap Z (list EValidatorInfo)) (s : coord) : coord :=
  {| selfPubKey := selfPubKey s; nodesConfig := nodesConfig s; validatorsInfo := f (validatorsInfo s);
     publicKeyToValidatorMap := publicKeyToValidatorMap s; savedStateKey := savedStateKey s;
     bootStorer := bootStorer s; shuffler := shuffler s; consensusGroupCacher := consensusGroupCacher s;
     consensusGroupSize := consensusGroupSize s; currentEpoch := currentEpoch s; startEpoch := startEpoch s;
     stateReady := stateReady s |}.
Definition set_pkMap (m : gmap string Validator) (s : coord) : coord :=
  {| selfPubKey := selfPubKey s; nodesConfig := nodesConfig s; validatorsInfo := validatorsInfo s;
     publicKeyToValidatorMap := m; savedStateKey := savedStateKey s;
     bootStorer := bootStorer s; shuffler := shuffler s; consensusGroupCacher := consensusGroupCacher s;
     consensusGroupSize := consensusGroupSize s; currentEpoch := currentEpoch s; startEpoch := startEpoch s;
     stateReady := stateReady s |}.
Definition set_savedStateKey (k : string) (s : coord) : coord :=
  {| selfPubKey := selfPubKey s; nodesConfig := nodesConfig s; validatorsInfo := validatorsInfo s;
     publicKeyToValidatorMap := publicKeyToValidatorMap s; savedStateKey := k;
     bootStorer := bootStorer s; shuffler := shuffler s; consensusGroupCacher := consensusGroupCacher s;
     consensusGroupSize := consensusGroupSize s; currentEpoch := currentEpoch s; startEpoch := startEpoch s;
     stateReady := stateReady s |}.
Definition set_storer (b : storerT) (s : coord) : coord :=
  {| selfPubKey := selfPubKey s; nodesConfig := nodesConfig s; validatorsInfo := validatorsInfo s;
     publicKeyToValidatorMap := publicKeyToValidatorMap s; savedStateKey := savedStateKey s;
     bootStorer := b; shuffler := shuffler s; consensusGroupCacher := consensusGroupCacher s;
     consensusGroupSize := consensusGroupSize s; currentEpoch := currentEpoch s; startEpoch := startEpoch s;
     stateReady := stateReady s |}.
Definition set_shuffler (r : randHashShuffler) (s : coord) : coord :=
  {| selfPubKey := selfPubKey s; nodesConfig := nodesConfig s; validatorsInfo := validatorsInfo s;
     publicKeyToValidatorMap := publicKeyToValidatorMap s; savedStateKey := savedStateKey s;
     bootStorer := bootStorer s; shuffler := r; consensusGroupCacher := consensusGroupCacher s;
     consensusGroupSize := consensusGroupSize s; currentEpoch := currentEpoch s; startEpoch := startEpoch s;
     stateReady := stateReady s |}.
Definition set_cache (c : cacheT) (s : coord) : coord :=
  {| selfPubKey := selfPubKey s; nodesConfig := nodesConfig s; validatorsInfo := validatorsInfo s;
     publicKeyToValidatorMap := publicKeyToValidatorMap s; savedStateKey := savedStateKey s;
     bootStorer := bootStorer s; shuffler := shuffler s; consensusGroupCacher := c;
     consensusGroupSize := consensusGroupSize s; currentEpoch := currentEpoch s; startEpoch := startEpoch s;
     stateReady := stateReady s |}.
Definition set_epoch (e : Z) (s : coord) : coord :=
  {| selfPubKey := selfPubKey s; nodesConfig := nodesConfig s; validatorsInfo := validatorsInfo s;
     publicKeyToValidatorMap := publicKeyToValidatorMap s; savedStateKey := savedStateKey s;
     bootStorer := bootStorer s; shuffler := shuffler s; consensusGroupCacher := consensusGroupCacher s;
     consensusGroupSize := consensusGroupSize s; currentEpoch := e; startEpoch := startEpoch s;
     stateReady := stateReady s |}.
Definition set_ready (s : coord) : coord :=
  {| selfPubKey := selfPubKey s; nodesConfig := nodesConfig s; validatorsInfo := validatorsInfo s;
     publicKeyToValidatorMap := publicKeyToValidatorMap s; savedStateKey := savedStateKey s;
     bootStorer := bootStorer s; shuffler := shuffler s; consensusGroupCacher := consensusGroupCacher s;
     consensusGroupSize := consensusGroupSize s; currentEpoch := currentEpoch s; startEpoch := startEpoch s;
     stateReady := true |}.

(** An error that is only logged. *)
Definition logged_error (m : CM unit) : CM unit := fun s => ((m s).1, Ok tt).

(** The order of a [range] over a map, and the result of [sort.Sort] by index and key. *)
Variable range_configs : gmap Z epochNodesConfig -> list (Z * epochNodesConfig).
Variable range_registry : gmap string (option EpochValidators) -> list (string * option EpochValidators).
Variable sortValidators : list Validator -> list Validator.

(** [validatorList.Less]. *)
Definition Less (a b : Validator) : bool :=
  if Index a =? Index b then String.ltb (PubKey a) (PubKey b) else Index a <? Index b.

(** ** The registry *)

Definition ValidatorArrayToSerializableValidatorArray (validators : list Validator) : list (option SerializableValidator) :=
  (fun v => Some {| sv_OwnerAddress := OwnerAddress v; sv_PubKey := Some (PubKey v); sv_Index := Index v |}) <$> validators.

Definition epochNodesConfigToEpochValidators (config : epochNodesConfig) : EpochValidators :=
  {| ElectedValidators := ValidatorArrayToSerializableValidatorArray (electedList config);
     EligibleValidators := ValidatorArrayToSerializableValidatorArray (eligibleList config);
     WaitingValidators := ValidatorArrayToSerializableValidatorArray (waitingList config);
     LeavingValidators := ValidatorArrayToSerializableValidatorArray (leavingList config) |}.

Definition NodesCoordinatorToRegistry (s : coord) : NodesCoordinatorRegistry :=
  {| EpochsConfig := fold_left (fun m e => <[FormatUint e.1 := Some (epochNodesConfigToEpochValidators e.2)]> m)
                       (range_configs (nodesConfig s)) ∅;
     reg_CurrentEpoch := currentEpoch s |}.

Fixpoint serializableValidatorArrayToValidatorArray (sValidators : list (option SerializableValidator))
  : res shardError (list Validator) :=
  match sValidators with
  | [] => Ok []
  | None :: _ => Err Panic
  | Some v :: rest =>
      x ← NewValidator (sv_OwnerAddress v) (sv_PubKey v) DefaultSelectionChances (sv_Index v);
      xs ← serializableValidatorArrayToValidatorArray rest;
      Ok (x :: xs)
  end.

Definition epochValidatorsToEpochNodesConfig (config : option EpochValidators) : res shardError epochNodesConfig :=
  match config with
  | None => Err ErrNilRegistryEpoch
  | Some config =>
      elected ← serializableValidatorArrayToValidatorArray (ElectedValidators config);
      eligible ← serializableValidatorArrayToValidatorArray (EligibleValidators config);
      waiting ← serializableValidatorArrayToValidatorArray (WaitingValidators config);
      leaving ← serializableValidatorArrayToValidatorArray (LeavingValidators config);
      Ok {| electedList := elected; eligibleList := eligible; waitingList := waiting; leavingList := leaving;
            selector := None |}
  end.

(** ** Selectors *)

Definition ValidatorsWeights (validators : list Validator) : list Z := (fun _ => DefaultSelectionChances) <$> validators.
Definition createSelector (config : epochNodesConfig) : res shardError selectorExpandedList :=
  NewSelectorExpandedList (ValidatorsWeights (electedList config)).

Definition with_selector (sel : option selectorExpandedList) (c : epochNodesConfig) : epochNodesConfig :=
  {| electedList := electedList c; eligibleList := eligibleList c; waitingList := waitingList c;
     leavingList := leavingList c; selector := sel |}.

Fixpoint registry_loop (entries : list (string * option EpochValidators)) (result : gmap Z epochNodesConfig)
  : res shardError (gmap Z epochNodesConfig) :=
  match entries with
  | [] => Ok result
  | (epochStr, epochValidators) :: rest =>
      epoch ← map_err ErrParse (ParseInt epochStr);
      config ← epochValidatorsToEpochNodesConfig epochValidators;
      sel ← createSelector config;
      registry_loop rest (<[wrap_u32 epoch := with_selector (Some sel) config]> result)
  end.
Definition registryToNodesCoordinator (config : NodesCoordinatorRegistry) : res shardError (gmap Z epochNodesConfig) :=
  registry_loop (range_registry (EpochsConfig config)) ∅.

(** ** Saving and loading *)

Definition saveState (key : string) : CM unit :=
  s ← get;
  data ← lift (map_err ErrStorage (json_Marshal (NodesCoordinatorToRegistry s)));
  let '(b, r) := storer_Put (NodesCoordinatorRegistryKeyPrefix +:+ key) data (bootStorer s) in
  _ ← modify (set_storer b);
  lift (map_err ErrStorage r).

(** The keys in ascending order of epochs. *)
Definition sorted_epochs (m : gmap Z epochNodesConfig) : list Z := merge_sort Z.le (range_configs m).*1.

Definition add_keys (vs : list Validator) (m : gmap string Validator) : gmap string Validator :=
  fold_left (fun m v => <[PubKey v := v]> m) vs m.

Definition computePublicKeyToValidatorMap (configs : gmap Z epochNodesConfig) : gmap string Validator :=
  fold_left (fun m epoch => match configs !! epoch with
                            | None => m
                            | Some c => add_keys (eligibleList c) (add_keys (electedList c) m)
                            end) (sorted_epochs configs) ∅.

Definition fillPublicKeyToValidatorMap : CM unit :=
  s ← get; modify (set_pkMap (computePublicKeyToValidatorMap (nodesConfig s))).

Definition LoadState (key : string) : CM unit :=
  s ← get;
  let '(b, r) := storer_Get (NodesCoordinatorRegistryKeyPrefix +:+ key) (bootStorer s) in
  _ ← modify (set_storer b);
  data ← lift (map_err ErrStorage r);
  config ← lift (map_err ErrStorage (json_Unmarshal data));
  _ ← modify (set_savedStateKey key);
  _ ← modify (set_epoch (reg_CurrentEpoch config));
  configs ← lift (registryToNodesCoordinator config);
  _ ← modify (set_nodesConfig (fun _ => configs));
  let m := computePublicKeyToValidatorMap configs in
  _ ← (if decide (m = ∅) then mret tt else modify (set_pkMap m));
  modify set_ready.

(** ** Start of an epoch *)

Record nodes_lists : Type := { l_elected : list Validator; l_eligible : list Validator;
                               l_waiting : list Validator; l_leaving : list Validator }.

Fixpoint sort_infos (validators : list EValidatorInfo) (acc : nodes_lists) : res shardError nodes_lists :=
  match validators with
  | [] => Ok acc
  | info :: rest =>
      v ← NewValidator (evi_OwnerAddress info) (evi_PublicKey info) DefaultSelectionChances (evi_Index info);
      sort_infos rest
        (if str_eqb (evi_List info) EligibleList
         then {| l_elected := l_elected acc; l_eligible := l_eligible acc ++ [v]; l_waiting := l_waiting acc; l_leaving := l_leaving acc |}
         else if str_eqb (evi_List info) ElectedList
         then {| l_elected := l_elected acc ++ [v]; l_eligible := l_eligible acc; l_waiting := l_waiting acc; l_leaving := l_leaving acc |}
         else if str_eqb (evi_List info) WaitingList
         then {| l_elected := l_elected acc; l_eligible := l_eligible acc; l_waiting := l_waiting acc ++ [v]; l_leaving := l_leaving acc |}
         else if str_eqb (evi_List info) InactiveList then acc
         else if str_eqb (evi_List info) JailedList
         then {| l_elected := l_elected acc; l_eligible := l_eligible acc; l_waiting := l_waiting acc; l_leaving := l_leaving acc ++ [v] |}
         else acc)
  end.

Definition computeNodesConfigFromList (size : Z) (validators : list EValidatorInfo) : res shardError epochNodesConfig :=
  acc ← sort_infos validators {| l_elected := []; l_eligible := []; l_waiting := []; l_leaving := [] |};
  let numToStay := size - (zlen (l_elected acc) + zlen (l_eligible acc)) in
  let stay := (0 <? numToStay) && (numToStay <=? zlen (l_leaving acc)) in
  let eligible := if stay then l_eligible acc ++ take (Z.to_nat numToStay) (l_leaving acc) else l_eligible acc in
  let leaving := if stay then drop (Z.to_nat numToStay) (l_leaving acc) else l_leaving acc in
  if (length (l_elected acc) =? 0)%nat then Err ErrListSizeZero
  else Ok {| electedList := sortValidators (l_elected acc); eligibleList := sortValidators eligible;
             waitingList := sortValidators (l_waiting acc); leavingList := sortValidators leaving; selector := None |}.

(** A list that exists already is changed in place, before the selector is known. *)
Definition SetNodes (elected eligible : option (list Validator)) (waiting leaving : list Validator) (epoch : Z) : CM unit :=
  s ← get;
  match elected, eligible with
  | Some elected, Some eligible =>
      let config sel := {| electedList := elected; eligibleList := eligible; waitingList := waiting;
                           leavingList := leaving; selector := sel |} in
      match createSelector (config None) with
      | Ok sel => modify (set_nodesConfig (insert epoch (config (Some sel))))
      | Err e =>
          _ ← (if decide (is_Some (nodesConfig s !! epoch)) then modify (set_nodesConfig (insert epoch (config None)))
               else mret tt);
          fail e
      end
  | _, _ => fail ErrNilInputNodesMap
  end.

Definition getEpochValidatorsInfo (epoch : Z) (s : coord) : res shardError (list EValidatorInfo) :=
  match validatorsInfo s !! epoch with Some info => Ok info | None => Err ErrValidatorListNotFound end.

(** The header of the start of an epoch, as far as it is read. *)
Record epochHeader : Type := { hdr_IsEpochStart : bool; hdr_PrevRandSeed : string; hdr_Epoch : Z }.

(** A panic of the shuffler ends the node; the other failures are logged. *)
Definition EpochStartPrepare (metaHdr : epochHeader) : CM unit :=
  s ← get;
  if negb (hdr_IsEpochStart metaHdr) then mret tt
  else
    let randomness := hdr_PrevRandSeed metaHdr in
    let newEpoch := hdr_Epoch metaHdr in
    match getEpochValidatorsInfo newEpoch s with
    | Err _ => mret tt
    | Ok allValidatorInfo =>
        match computeNodesConfigFromList (consensusGroupSize s) allValidatorInfo with
        | Err _ => mret tt
        | Ok newNodesConfig =>
            let '(rhs, r) :=
              UpdateNodeLists {| upd_Elected := electedList newNodesConfig; upd_Eligible := eligibleList newNodesConfig;
                                 upd_Rand := randomness; upd_Epoch := newEpoch |} (shuffler s) in
            _ ← modify (set_shuffler rhs);
            match r with
            | Err Panic => fail Panic
            | Err _ => mret tt
            | Ok resUpdateNodes =>
                _ ← logged_error (SetNodes (res_Elected resUpdateNodes) (res_Eligible resUpdateNodes)
                                    (waitingList newNodesConfig) (leavingList newNodesConfig) newEpoch);
                _ ← fillPublicKeyToValidatorMap;
                _ ← logged_error (saveState randomness);
                _ ← modify (set_savedStateKey randomness);
                modify (fun s => set_cache (cache_Clear (consensusGroupCacher s)) s)
            end
        end
    end.

Definition EpochStartAction (newEpoch : Z) : CM unit :=
  let epochToRemove := wrap_i32 (wrap_i32 newEpoch - nodeCoordinatorStoredEpochs) in
  _ ← modify (set_epoch newEpoch);
  s ← get;
  _ ← logged_error (saveState (savedStateKey s));
  if 0 <=? epochToRemove
  then modify (set_nodesConfig (filter (fun e => ~ e.1 <= wrap_u32 epochToRemove)))
  else mret tt.

(** The copies made with [make] are not nil. *)
Definition copy_info (vi : ValidatorInfo) : EValidatorInfo :=
  {| evi_OwnerAddress := bytes_of (vi_OwnerAddress vi); evi_PublicKey := Some (bytes_of (vi_PublicKey vi));
     evi_List := vi_List vi; evi_Index := vi_Index vi; evi_TempRating := vi_TempRating vi |}.
Definition SetEpochValidatorsInfo (epoch : Z) (infos : list ValidatorInfo) : CM unit :=
  modify (set_validatorsInfo (fun m =>
    <[epoch := copy_info <$> infos]> (filter (fun e => ~ wrap_u32 (e.1 + 2) < epoch) m))).

(** ** The consensus group of a slot *)

Fixpoint pick_all (selected : list Z) (elected : list Validator) (n : nat) : res shardError (list Validator) :=
  match n, selected with
  | O, _ => Ok []
  | S n, i :: rest =>
      match elected !! Z.to_nat i with
      | None => Err Panic
      | Some v => vs ← pick_all rest elected n; Ok (v :: vs)
      end
  | S _, [] => Err Panic
  end.

Definition selectValidators (sel : option selectorExpandedList) (randomness : string) (consensusSize : Z)
  (elected : list Validator) : res shardError (list Validator) :=
  match sel with
  | None => Err ErrNilRandomSelector
  | Some sel =>
      if (String.length randomness =? 0)%nat then Err ErrNilRandomness
      else
        selectedIndexes ← Select randomness consensusSize sel;
        match selectedIndexes with
        | [] => Err Panic
        | i :: rest =>
            if (wrap_u32 (zlen elected) <=? fold_left Z.max rest i) || (length elected =? 0)%nat
            then Err ErrSmallElectedListSize
            else pick_all selectedIndexes elected (Z.to_nat consensusSize)
        end
  end.

(** [fmt.Sprintf("%s_%v_%v", ...)] and [fmt.Sprintf("%d-%s", ...)]. *)
Definition group_key (randomness : string) (slot epoch : Z) : string :=
  randomness +:+ "_" +:+ FormatUint slot +:+ "_" +:+ FormatUint epoch.
Definition slot_seed (slot : Z) (randomness : string) : string := FormatUint slot +:+ "-" +:+ randomness.

Definition ComputeConsensusGroup (randomness : string) (slot epoch : Z) : CM (list Validator) :=
  s ← get;
  if negb (stateReady s) then fail ErrNodesCoordinatorNotReady
  else if (String.length randomness =? 0)%nat then fail ErrNilRandomness
  else
    match nodesConfig s !! epoch with
    | None => fail ErrEpochNodesConfigDoesNotExist
    | Some config =>
        let key := group_key randomness slot epoch in
        let '(c, found) := cache_Get key (consensusGroupCacher s) in
        _ ← modify (set_cache c);
        match found with
        | Some validators => mret validators
        | None =>
            tempList ← lift (selectValidators (selector config) (slot_seed slot randomness)
                               (wrap_u32 (consensusGroupSize s)) (electedList config));
            let size := fold_left (fun n v => n + validator_Size v) tempList 0 in
            _ ← modify (fun s => set_cache (cache_Put key tempList size (consensusGroupCacher s)) s);
            mret tempList
        end
    end.

Definition GetConsensusValidatorsPublicKeys (randomness : string) (slot epoch : Z) : CM (list string) :=
  group ← ComputeConsensusGroup randomness slot epoch; mret (PubKey <$> group).

(** ** Queries *)

Definition GetValidatorWithPublicKey (publicKey : string) (s : coord) : res shardError Validator :=
  if (String.length publicKey =? 0)%nat then Err ErrNilPubKey
  else match publicKeyToValidatorMap s !! publicKey with Some v => Ok v | None => Err ErrValidatorNotFound end.

Definition getAllValidatorsKeys (epoch : Z) (ownerKey : bool) (pickList : epochNodesConfig -> list Validator) (s : coord)
  : res shardError (list string) :=
  match nodesConfig s !! epoch with
  | None => Err ErrEpochNodesConfigDoesNotExist
  | Some config => Ok ((if ownerKey then OwnerAddress else PubKey) <$> pickList config)
  end.
Definition GetAllElectedValidatorsKeys epoch ownerKey := getAllValidatorsKeys epoch ownerKey electedList.
Definition GetAllEligibleValidatorsKeys epoch ownerKey := getAllValidatorsKeys epoch ownerKey eligibleList.
Definition GetAllWaitingValidatorsKeys epoch ownerKey := getAllValidatorsKeys epoch ownerKey waitingList.
Definition GetAllLeavingValidatorsKeys epoch ownerKey := getAllValidatorsKeys epoch ownerKey leavingList.

Definition GetConsensusWhitelistedNodes (epoch : Z) (s : coord) : res shardError (gset string) :=
  let prev := if startEpoch s <? epoch
              then from_ok [] (GetAllElectedValidatorsKeys (wrap_u32 (epoch - 1)) false s) else [] in
  keys ← GetAllElectedValidatorsKeys epoch false s;
  Ok (list_to_set prev ∪ list_to_set keys).

(** The remainder keeps the sign of the slot; a negative index panics. *)
Definition CheckValidatorSlot (epoch slotIndex : Z) (pubkey : string) (s : coord) : res shardError bool :=
  match nodesConfig s !! epoch with
  | None => Ok false
  | Some config =>
      if (length (electedList config) <? 1)%nat then Ok false
      else
        let index := Z.rem slotIndex (zlen (electedList config)) in
        if index <? 0 then Err Panic
        else match electedList config !! Z.to_nat index with
             | None => Err Panic
             | Some v => Ok (str_eqb pubkey (PubKey v))
             end
  end.

(** ** Creation *)

Record ArgNodesCoordinator : Type := {
  arg_ConsensusGroupSize : Z; arg_Shuffler : randHashShuffler; arg_BootStorer : storerT;
  arg_ElectedNodes : list Validator; arg_EligibleNodes : list Validator; arg_SelfPublicKey : string;
  arg_Epoch : Z; arg_StartEpoch : Z; arg_ConsensusGroupCache : cacheT;
  arg_CurrValidatorsInfo : list ValidatorInfo; arg_PrevValidatorsInfo : list ValidatorInfo;
}.

Definition checkArguments (a : ArgNodesCoordinator) : res shardError unit :=
  if arg_ConsensusGroupSize a <? 1 then Err ErrInvalidConsensusGroupSize
  else if (String.length (arg_SelfPublicKey a) =? 0)%nat then Err ErrNilPubKey
  else Ok tt.

Definition new_coordinator (a : ArgNodesCoordinator) : coord :=
  let configs := {[ arg_Epoch a := {| electedList := arg_ElectedNodes a; eligibleList := arg_EligibleNodes a;
                                      waitingList := []; leavingList := []; selector := None |} ]} in
  {| selfPubKey := arg_SelfPublicKey a; nodesConfig := configs; validatorsInfo := ∅;
     publicKeyToValidatorMap := computePublicKeyToValidatorMap configs;
     savedStateKey := Compute (arg_SelfPublicKey a); bootStorer := arg_BootStorer a; shuffler := arg_Shuffler a;
     consensusGroupCacher := arg_ConsensusGroupCache a; consensusGroupSize := arg_ConsensusGroupSize a;
     currentEpoch := arg_StartEpoch a; startEpoch := arg_StartEpoch a; stateReady := arg_StartEpoch a =? 0 |}.

Definition init_coordinator (a : ArgNodesCoordinator) : CM unit :=
  s ← get;
  _ ← (if arg_StartEpoch a =? 0 then logged_error (saveState (savedStateKey s)) else mret tt);
  match nodesConfig s !! arg_Epoch a with
  | None => fail ErrEpochNodesConfigDoesNotExist
  | Some config =>
      _ ← reject_if (zlen (electedList config) <? consensusGroupSize s) ErrSmallElectedListSize;
      sel ← lift (createSelector config);
      _ ← modify (set_nodesConfig (insert (arg_Epoch a) (with_selector (Some sel) config)));
      _ ← (if (length (arg_CurrValidatorsInfo a) =? 0)%nat then mret tt
           else SetEpochValidatorsInfo (arg_Epoch a) (arg_CurrValidatorsInfo a));
      if (length (arg_PrevValidatorsInfo a) =? 0)%nat then mret tt
      else SetEpochValidatorsInfo (wrap_u32 (arg_Epoch a - 1)) (arg_PrevValidatorsInfo a)
  end.

Definition NewNodesCoordinator (a : ArgNodesCoordinator) : res shardError coord :=
  _ ← checkArguments a;
  match init_coordinator a (new_coordinator a) with
  | (s, Ok _) => Ok s
  | (_, Err e) => Err e
  end.
End coordinator.
