(* ===== verification/NodesCoordProps.v ===== *)
(** * What the nodes coordinator guarantees

    The consensus group of a slot depends on nothing but the randomness, the slot
    and the elected list of the epoch, through any run and whatever the cache
    keeps; the start of an epoch distributes every validator to exactly one list,
    in an order that does not depend on the order of the input; saving the
    coordinator and loading it again, on this node after a restart or on another
    one that got the stored text, restores the lists of every epoch. *)

From S2P Require Import Prelude Common Strconv Tools Selection Shuffler NodesCoordinator.
From Stdlib Require Import Ascii.
Local Open Scope Z_scope.

(** ** Keys of the cache *)

Lemma occurs_app_sep c a b : occurs c (a +:+ String c b) = true.
Proof. rewrite occurs_app. cbn. rewrite bool_decide_eq_true_2 by done. apply orb_true_r. Qed.

(** The part after the last separator is determined by the joined string. *)
Lemma last_sep_inj c a b a' b' : occurs c b = false -> occurs c b' = false ->
  a +:+ String c b = a' +:+ String c b' -> a = a' /\ b = b'.
Proof.
  intros Hb Hb'. revert a'. induction a as [|x a IH]; intros [|x' a']; rewrite ?string_app_cons, ?string_app_empty_l.
  - by intros [= ->].
  - intros [= -> ->]. by rewrite occurs_app_sep in Hb.
  - intros [= -> <-]. by rewrite occurs_app_sep in Hb'.
  - intros [= -> E]. by destruct (IH _ E) as [-> ->].
Qed.

Lemma group_key_inj r slot epoch r' slot' epoch' : is_u64 slot -> is_u64 epoch -> is_u64 slot' -> is_u64 epoch' ->
  group_key r slot epoch = group_key r' slot' epoch' -> r = r' /\ slot = slot' /\ epoch = epoch'.
Proof.
  intros H1 H2 H3 H4 E. unfold group_key in E. rewrite !string_app_assoc in E.
  assert (F : forall a n, (a +:+ "_") +:+ FormatUint n = a +:+ String "_"%char (FormatUint n))
    by (intros; rewrite <- string_app_assoc; done).
  rewrite !F in E. apply last_sep_inj in E as [E E2]; try (apply FormatUint_no_char; [done|unfold is_u64 in *; lia]).
  apply last_sep_inj in E as [-> E1]; try (apply FormatUint_no_char; [done|unfold is_u64 in *; lia]).
  pose proof (ParseUint_FormatUint slot H1) as P1. rewrite E1, (ParseUint_FormatUint slot' H3) in P1.
  pose proof (ParseUint_FormatUint epoch H2) as P2. rewrite E2, (ParseUint_FormatUint epoch' H4) in P2.
  split_and!; congruence.
Qed.

(** ** Assumptions *)

(** A cache answers only what was put under the key and not cleared since. *)
Class GroupCacherLaws {CO : GroupCacher} : Prop := {
  clear_forgets : forall k c, (cache_Get k (cache_Clear c)).2 = None;
  get_keeps : forall k k' c v, (cache_Get k' (cache_Get k c).1).2 = Some v -> (cache_Get k' c).2 = Some v;
  put_keeps : forall k v n k' c w, (cache_Get k' (cache_Put k v n c)).2 = Some w ->
    (k' = k /\ w = v) \/ (cache_Get k' c).2 = Some w;
}.
(** What was stored is read back; stored text decodes to what was encoded. *)
Class BootStorerLaws {BS : BootStorer} : Prop := {
  storer_get_put : forall k v b b', storer_Put k v b = (b', Ok tt) -> (storer_Get k b').2 = Ok v;
}.
Class RegistryJSONLaws {RJ : RegistryJSON} : Prop := {
  json_round_trip : forall r s, json_Marshal r = Ok s -> json_Unmarshal s = Ok r;
}.

(** ** Selection over validators of equal weight *)

Section unit_weights.
Context `{HS : Hasher}.

Lemma unit_expand n : forall i, 0 <= i -> i + Z.of_nat n <= MaxUint32 ->
  expand_loop i (replicate n 1) = Ok (seqZ i (Z.of_nat n)).
Proof.
  induction n as [|n IH]; intros i Hi Hmax; [done|]. cbn [replicate expand_loop].
  destruct (Z.ltb_spec 1 minWeight) as [H|_]; [unfold minWeight in H; lia|]. rewrite IH by lia.
  cbn -[seqZ]. rewrite wrap_u32_id by ilia. rewrite (seqZ_cons i) by lia.
  replace (Z.succ i) with (i + 1) by lia. by replace (Z.pred _) with (Z.of_nat n) by lia.
Qed.

Lemma weights_unit vs : ValidatorsWeights vs = replicate (length vs) 1.
Proof. unfold ValidatorsWeights, DefaultSelectionChances. induction vs as [|v vs IH]; cbn; [done|]. f_equal. exact IH. Qed.

Lemma createSelector_ok c : electedList c <> [] -> zlen (electedList c) <= MaxUint32 ->
  createSelector c = Ok {| expandedList := seqZ 0 (zlen (electedList c)); uniqueItems := zlen (electedList c) |}.
Proof.
  intros Hne Hmax. unfold createSelector, NewSelectorExpandedList, expandList. rewrite weights_unit, length_replicate.
  destruct (Nat.eqb_spec (length (electedList c)) 0) as [H|_]; [by destruct (electedList c)|].
  rewrite unit_expand by lia. cbn. rewrite wrap_u32_id by ilia. done.
Qed.

Lemma pick_all_spec elected : forall picks, Forall (fun i => 0 <= i < zlen elected) picks ->
  exists group, pick_all picks elected (length picks) = Ok group /\
    Forall2 (fun i v => elected !! Z.to_nat i = Some v) picks group.
Proof.
  induction picks as [|i picks IH]; intros H; cbn; [by exists []|]. apply Forall_cons in H as [Hi H].
  destruct (lookup_lt_is_Some_2 elected (Z.to_nat i)) as [v Hv]; [lia|]. rewrite Hv.
  destruct (IH H) as (g & -> & Hg). exists (v :: g). split; [done|]. by constructor.
Qed.

Lemma max_below n : forall l i, i < n -> Forall (fun v => v < n) l -> fold_left Z.max l i < n.
Proof. induction l as [|x l IH]; intros i Hi Hl; cbn; [done|]. apply Forall_cons in Hl as [Hx Hl]. apply IH; [lia|done]. Qed.

(** The positions drawn for a seed. *)
Definition drawn (seed : string) (size : Z) (elected : list Validator) : list Z :=
  reslice (seqZ 0 (zlen elected)) ((fun k => random seed (Z.of_nat k)) <$> seq 0 (Z.to_nat size)).

Hypothesis hash_size : forall s, (8 <= String.length (Compute s))%nat.

Lemma select_validators_spec c seed size : zlen (electedList c) <= MaxUint32 -> seed <> EmptyString ->
  0 < size <= zlen (electedList c) ->
  exists sel group, createSelector c = Ok sel /\
    selectValidators (Some sel) seed size (electedList c) = Ok group /\
    zlen (drawn seed size (electedList c)) = size /\ NoDup (drawn seed size (electedList c)) /\
    Forall2 (fun i v => electedList c !! Z.to_nat i = Some v) (drawn seed size (electedList c)) group.
Proof.
  intros Hmax Hseed Hsize.
  assert (Hc := createSelector_ok c ltac:(intros E; rewrite E in Hsize; cbn in Hsize; lia) Hmax).
  pose proof Hc as Hn. unfold createSelector in Hn.
  destruct (selector_spec hash_size _ _ seed size Hn) as (picks & P1 & P2 & P3 & P4 & P5);
    rewrite ?weights_unit, ?length_replicate; cbn; rewrite ?length_seqZ; try done; try ilia.
  rewrite weights_unit, length_replicate in P5. cbn in P2. change (picks = drawn seed size (electedList c)) in P2.
  destruct (pick_all_spec (electedList c) picks P5) as (group & G1 & G2).
  eexists _, group. rewrite <- P2. split_and!; [exact Hc| |done..]. unfold selectValidators.
  destruct seed as [|x seed]; [done|]. cbn [String.length Nat.eqb]. rewrite P1. cbn.
  destruct picks as [|i rest]; [cbn in P3; lia|].
  rewrite wrap_u32_id by ilia.
  assert (Hm : fold_left Z.max rest i < zlen (electedList c)).
  { apply Forall_cons in P5 as [Hi Hr]. apply max_below; [lia|]. eapply Forall_impl; [exact Hr|]. cbn. lia. }
  destruct (Z.leb_spec (zlen (electedList c)) (fold_left Z.max rest i)); [lia|].
  destruct (Nat.eqb_spec (length (electedList c)) 0); [lia|]. cbn -[pick_all].
  replace (Z.to_nat size) with (length (i :: rest)) by lia. exact G1.
Qed.
End unit_weights.

(** ** The invariant of a coordinator *)

Section runs.
Context `{HS : Hasher} `{CO : GroupCacher} {CL : GroupCacherLaws} `{BS : BootStorer} `{RJ : RegistryJSON}.
Variable range_configs : gmap Z epochNodesConfig -> list (Z * epochNodesConfig).
Variable range_registry : gmap string (option EpochValidators) -> list (string * option EpochValidators).
Variable sortValidators : list Validator -> list Validator.

Abbreviation coord := indexHashedNodesCoordinator.
Implicit Types s : coord.

Definition ok_option {E A} (r : res E A) : option A := match r with Ok a => Some a | Err _ => None end.

(** What the selection answers for a slot of an epoch. *)
Definition group_of (size : Z) (c : epochNodesConfig) (randomness : string) (slot : Z) : res shardError (list Validator) :=
  selectValidators (ok_option (createSelector c)) (slot_seed slot randomness) (wrap_u32 size) (electedList c).

Record coord_inv (size : Z) s : Prop := {
  ci_size : consensusGroupSize s = size;
  ci_selectors : forall e c, nodesConfig s !! e = Some c -> selector c = ok_option (createSelector c);
  ci_cached : forall r slot e c g, is_u64 slot -> is_u32 e -> nodesConfig s !! e = Some c ->
    (cache_Get (group_key r slot e) (consensusGroupCacher s)).2 = Some g ->
    group_of size c r slot = Ok g;
}.

(** A step that leaves the cache, its size and the lists alone, apart from
    dropping epochs. *)
Definition drops s s' : Prop :=
  nodesConfig s' ⊆ nodesConfig s /\ consensusGroupCacher s' = consensusGroupCacher s /\
  consensusGroupSize s' = consensusGroupSize s.

Lemma inv_drops size s s' : drops s s' -> coord_inv size s -> coord_inv size s'.
Proof.
  intros (H1 & H2 & H3) [I0 I1 I2]. split; [congruence| |].
  - intros e c Hc. eapply I1, lookup_weaken; eauto.
  - intros r slot e c g Hs He Hc. rewrite H2. apply (I2 r slot e c g); try done. by eapply lookup_weaken.
Qed.

Lemma save_same key s s' r : saveState range_configs key s = (s', r) ->
  nodesConfig s' = nodesConfig s /\ consensusGroupCacher s' = consensusGroupCacher s /\
  consensusGroupSize s' = consensusGroupSize s /\ validatorsInfo s' = validatorsInfo s.
Proof.
  unfold saveState. unfold mbind, M_bind, get, lift, modify.
  destruct (map_err ErrStorage (json_Marshal _)) as [d|e]; [|by intros [= <- _]].
  destruct (storer_Put _ d (bootStorer s)) as [b x]. by intros [= <- _].
Qed.

Lemma drops_save key s : drops s (saveState range_configs key s).1.
Proof.
  destruct (saveState range_configs key s) as [s' r] eqn:E. destruct (save_same _ _ _ _ E) as (H1 & H2 & H3 & _).
  unfold drops; cbn; by rewrite H1, H2, H3.
Qed.

(** Replacing the lists of epochs by consistent ones and clearing the cache. *)
Lemma inv_cleared size s' : consensusGroupSize s' = size -> (forall e c, nodesConfig s' !! e = Some c -> selector c = ok_option (createSelector c)) ->
  (forall k, (cache_Get k (consensusGroupCacher s')).2 = None) -> coord_inv size s'.
Proof. intros H0 H1 H2. split; [done..|]. intros r slot e c g _ _ _. by rewrite H2. Qed.

Lemma set_nodes_spec el eg w l e s s' r : SetNodes el eg w l e s = (s', r) ->
  consensusGroupSize s' = consensusGroupSize s /\ consensusGroupCacher s' = consensusGroupCacher s /\
  (nodesConfig s' = nodesConfig s \/
   exists c, nodesConfig s' = <[e := c]> (nodesConfig s) /\ selector c = ok_option (createSelector c)).
Proof.
  intros H. unfold SetNodes, mbind, M_bind, get, modify, fail, mret, M_ret in H.
  destruct el as [el|]; [|injection H as <- _; auto]. destruct eg as [eg|]; [|injection H as <- _; auto].
  destruct (createSelector _) as [sel|er] eqn:E.
  - injection H as <- _. split_and!; [done..|]. right. eexists. split; [done|]. unfold createSelector in *. cbn in *. by rewrite E.
  - destruct (decide _); injection H as <- _; [|auto]. split_and!; [done..|]. right. eexists. split; [done|].
    unfold createSelector in *. cbn in *. by rewrite E.
Qed.

Lemma set_nodes_selectors el eg w l e s s' r : (forall e c, nodesConfig s !! e = Some c -> selector c = ok_option (createSelector c)) ->
  SetNodes el eg w l e s = (s', r) -> consensusGroupSize s' = consensusGroupSize s /\
  forall e c, nodesConfig s' !! e = Some c -> selector c = ok_option (createSelector c).
Proof.
  intros Hs (Hz & _ & Hn)%set_nodes_spec. split; [done|]. intros e' c'.
  destruct Hn as [->|(c & -> & Hc)]; [apply Hs|]. rewrite lookup_insert_Some. intros [[_ <-]|[_ ?]]; [done|by eapply Hs].
Qed.

(** No group of the epoch is cached. *)
Definition uncached s (e : Z) : Prop :=
  forall r slot, is_u64 slot -> (cache_Get (group_key r slot e) (consensusGroupCacher s)).2 = None.

Lemma set_nodes_inv size el eg w l e s s' r : coord_inv size s -> uncached s e ->
  SetNodes el eg w l e s = (s', r) -> coord_inv size s'.
Proof.
  intros Hi Hu H. destruct (set_nodes_selectors _ _ _ _ _ _ _ _ (ci_selectors _ _ Hi) H) as [Hz Hs].
  apply set_nodes_spec in H as (_ & Hc & Hn). split; [rewrite Hz; apply Hi|done|].
  intros r' slot e' c' g Hsl He'. rewrite Hc. intros Hc' Hg. destruct (decide (e' = e)) as [->|Hne]; [by rewrite Hu in Hg|].
  apply (ci_cached _ _ Hi r' slot e' c' g); try done.
  destruct Hn as [<-|(c & Hn & _)]; [done|]. by rewrite Hn, lookup_insert_ne in Hc'.
Qed.

Lemma prepare_inv size hdr s s' r : coord_inv size s -> EpochStartPrepare range_configs sortValidators hdr s = (s', r) -> coord_inv size s'.
Proof.
  intros Hi H. unfold EpochStartPrepare in H. unfold mbind at 1, M_bind at 1, get at 1 in H.
  destruct (negb _); [by injection H as <- _|]. destruct (getEpochValidatorsInfo _ s); [|by injection H as <- _].
  destruct (computeNodesConfigFromList _ _ _) as [cfg|]; [|by injection H as <- _].
  destruct (UpdateNodeLists _ _) as [rhs u]. unfold mbind at 1, M_bind at 1, modify at 1 in H.
  assert (Hi1 : coord_inv size (set_shuffler rhs s)) by (apply (inv_drops size s); [done|exact Hi]).
  destruct u as [upd|e]; [|destruct e; by injection H as <- _].
  unfold mbind, M_bind, modify, logged_error in H.
  destruct (SetNodes _ _ _ _ _ (set_shuffler rhs s)) as [s1 x] eqn:E1.
  pose proof (set_nodes_selectors _ _ _ _ _ _ _ _ (ci_selectors _ _ Hi1) E1) as [Hz Hs1].
  unfold fillPublicKeyToValidatorMap, mbind, M_bind, get, modify in H. cbn in H.
  set (s2 := set_pkMap _ s1) in H. pose proof (drops_save (hdr_PrevRandSeed hdr) s2) as (D1 & D2 & D3).
  destruct (saveState _ _ s2) as [s3 y] eqn:E3. cbn in H, D1, D2, D3. injection H as <- _.
  apply inv_cleared; cbn; [rewrite D3; cbn; rewrite Hz; apply Hi| |intros k; apply clear_forgets].
  intros e c Hc. apply (Hs1 e c). change (nodesConfig s1) with (nodesConfig s2). by eapply lookup_weaken.
Qed.

Lemma action_inv size e s s' r : coord_inv size s -> EpochStartAction range_configs e s = (s', r) -> coord_inv size s'.
Proof.
  intros Hi H. unfold EpochStartAction in H. unfold mbind, M_bind, modify, get, logged_error in H.
  set (s1 := set_epoch e s) in H. pose proof (drops_save (savedStateKey s1) s1) as D.
  destruct (saveState _ _ s1) as [s2 x]. cbn in H, D.
  assert (Hi2 : coord_inv size s2) by (apply (inv_drops size s1); [done|]; by apply (inv_drops size s)).
  destruct (0 <=? _); injection H as <- _; [|done]. apply (inv_drops size s2); [|done].
  split_and!; cbn; [apply map_filter_subseteq|done..].
Qed.

Lemma infos_inv size e infos s s' r : coord_inv size s -> SetEpochValidatorsInfo e infos s = (s', r) -> coord_inv size s'.
Proof. intros Hi [= <- _]. by apply (inv_drops size s). Qed.

(** A coordinator is loaded before it has computed a group. *)
Lemma load_inv size key s s' r : coord_inv size s -> (forall e, is_u32 e -> uncached s e) ->
  LoadState range_configs range_registry key s = (s', r) -> coord_inv size s'.
Proof.
  intros Hi Hempty H. unfold LoadState, mbind, M_bind, get, modify, lift, mret, M_ret in H.
  destruct (storer_Get _ (bootStorer s)) as [b x].
  destruct (map_err ErrStorage x); [|injection H as <- _; by apply (inv_drops size s)].
  destruct (map_err ErrStorage (json_Unmarshal _)) as [cfg|]; [|injection H as <- _; by apply (inv_drops size s)].
  destruct (registryToNodesCoordinator _ cfg) as [m|] eqn:Er; [|injection H as <- _; by apply (inv_drops size s)].
  assert (Hm : forall e c, m !! e = Some c -> selector c = ok_option (createSelector c)).
  { unfold registryToNodesCoordinator in Er. revert Er.
    assert (H0 : forall e c, (∅ : gmap Z epochNodesConfig) !! e = Some c -> selector c = ok_option (createSelector c)) by done.
    revert H0. generalize (range_registry (EpochsConfig cfg)) (∅ : gmap Z epochNodesConfig). clear.
    intros entries. induction entries as [|[k v] rest IH]; intros m0 H0; cbn; [by intros [= <-]|].
    destruct (map_err ErrParse _) as [e|]; [|done]. cbn. destruct (epochValidatorsToEpochNodesConfig v) as [c|]; [|done].
    cbn. destruct (createSelector c) as [sel|] eqn:Es; [|done]. cbn. apply IH. intros e' c'.
    rewrite lookup_insert_Some. intros [[_ <-]|[_ Hc]]; [|by eapply H0].
    change (Some sel = ok_option (createSelector c)). by rewrite Es. }
  destruct (decide _); injection H as <- _; (split; [apply Hi|exact Hm|]);
    intros r' slot e1 c1 g Hsl He _; cbn; by rewrite Hempty.
Qed.

(** A group is answered from the cache exactly as it would be computed. *)
Lemma compute_group_spec size randomness slot epoch s : coord_inv size s -> is_u64 slot -> is_u32 epoch ->
  exists s', ComputeConsensusGroup randomness slot epoch s =
    (s', if negb (stateReady s) then Err ErrNodesCoordinatorNotReady
         else if (String.length randomness =? 0)%nat then Err ErrNilRandomness
         else match nodesConfig s !! epoch with
              | None => Err ErrEpochNodesConfigDoesNotExist
              | Some c => group_of size c randomness slot
              end) /\ coord_inv size s' /\ nodesConfig s' = nodesConfig s.
Proof.
  intros Hi Hslot Hep. unfold ComputeConsensusGroup, mbind, M_bind, get, modify, lift, mret, M_ret, fail.
  destruct (negb (stateReady s)); [by exists s|]. destruct (_ =? 0)%nat; [by exists s|].
  destruct (nodesConfig s !! epoch) as [c|] eqn:Ec; [|by exists s].
  pose proof (ci_cached size s Hi randomness slot epoch c) as Hcache.
  pose proof (get_keeps (group_key randomness slot epoch)) as Hkeep.
  destruct (cache_Get (group_key randomness slot epoch) (consensusGroupCacher s)) as [cache found] eqn:Eg.
  assert (Hi1 : coord_inv size (set_cache cache s)).
  { destruct Hi as [I0 I1 I2]. split; cbn; [done..|]. intros r sl e c' g Hsl He Hc' Hg. apply (I2 r sl e c' g); try done.
    specialize (Hkeep (group_key r sl e) (consensusGroupCacher s) g). rewrite Eg in Hkeep. by apply Hkeep. }
  destruct found as [g|].
  { exists (set_cache cache s). split_and!; [|done..]. f_equal. by rewrite (Hcache g). }
  unfold group_of. rewrite <- (ci_selectors size s Hi epoch c Ec), (ci_size size s Hi).
  destruct (selectValidators _ _ _ _) as [g|e] eqn:Es; [|by exists (set_cache cache s)].
  eexists. split; [reflexivity|]. split; [|done]. destruct Hi1 as [I0 I1 I2]. split; cbn; [done..|].
  intros r sl e c' g' Hsl He Hc' [[Hk ->]|Hg]%put_keeps; [|by apply (I2 r sl e c' g')].
  apply group_key_inj in Hk as (-> & -> & ->); try done; try (unfold is_u32, is_u64, MaxUint32, MaxUint64 in *; lia).
  cbn in Hc'. rewrite Ec in Hc'. injection Hc' as <-. unfold group_of. by rewrite <- (ci_selectors size s Hi epoch c Ec).
Qed.

(** ** Runs *)

(** What happens to a coordinator after its creation.  The start of a node loads
    a saved state and sets the lists of the epoch before; neither clears the
    cache, and both come before a group of the epochs they write is computed. *)
Inductive coord_step s s' : Prop :=
| step_infos e infos r : SetEpochValidatorsInfo e infos s = (s', r) -> coord_step s s'
| step_prepare hdr r : EpochStartPrepare range_configs sortValidators hdr s = (s', r) -> coord_step s s'
| step_action e r : EpochStartAction range_configs e s = (s', r) -> coord_step s s'
| step_group randomness slot epoch r : is_u64 slot -> is_u32 epoch ->
    ComputeConsensusGroup randomness slot epoch s = (s', r) -> coord_step s s'
| step_load key r : (forall e, is_u32 e -> uncached s e) ->
    LoadState range_configs range_registry key s = (s', r) -> coord_step s s'
| step_set el eg w l e r : uncached s e -> SetNodes el eg w l e s = (s', r) -> coord_step s s'.

Lemma coord_step_inv size s s' : coord_inv size s -> coord_step s s' -> coord_inv size s'.
Proof.
  intros Hi [e infos r H|hdr r H|e r H|randomness slot epoch r Hs He H|key r Hc H|el eg w l e r Hc H].
  - by eapply infos_inv.
  - by eapply prepare_inv.
  - by eapply action_inv.
  - destruct (compute_group_spec size randomness slot epoch s Hi Hs He) as (s1 & E & Hi1 & _). rewrite E in H.
    by injection H as <- _.
  - by eapply load_inv.
  - by eapply set_nodes_inv.
Qed.

Lemma runs_inv size s s' : coord_inv size s -> rtc coord_step s s' -> coord_inv size s'.
Proof. intros Hi Hr. induction Hr as [|s s1 s2 H _ IH]; [done|]. apply IH. by eapply coord_step_inv. Qed.

Lemma new_inv a s : NewNodesCoordinator range_configs a = Ok s ->
  (forall k, (cache_Get k (arg_ConsensusGroupCache a)).2 = None) ->
  1 <= arg_ConsensusGroupSize a /\ coord_inv (arg_ConsensusGroupSize a) s.
Proof.
  unfold NewNodesCoordinator. intros H Hempty. destruct (checkArguments a) as [[]|] eqn:Ea; [|done]. cbn in H.
  split. { unfold checkArguments in Ea. by destruct (Z.ltb_spec (arg_ConsensusGroupSize a) 1); [|lia]. }
  destruct (init_coordinator _ a _) as [s1 [x|]] eqn:E; [|done]. injection H as <-.
  unfold init_coordinator in E. unfold mbind at 1, M_bind at 1, get at 1 in E.
  unfold mbind at 1, M_bind at 1 in E.
  set (saved := if arg_StartEpoch a =? 0 then _ else _) in E.
  destruct (saved (new_coordinator range_configs a)) as [s0 y] eqn:E0. subst saved.
  assert (Hs0 : nodesConfig s0 = nodesConfig (new_coordinator range_configs a) /\
    consensusGroupCacher s0 = arg_ConsensusGroupCache a /\ consensusGroupSize s0 = arg_ConsensusGroupSize a).
  { destruct (arg_StartEpoch a =? 0); [|by injection E0 as <- _]. unfold logged_error in E0.
    destruct (saveState _ _ _) as [s2 z] eqn:E2. injection E0 as <- _. by destruct (save_same _ _ _ _ E2) as (? & ? & ? & _). }
  destruct Hs0 as (H1 & H2 & H3). destruct y as [y|]; [|done].
  cbn [nodesConfig new_coordinator] in E. rewrite lookup_singleton_eq in E. unfold mbind, M_bind in E.
  destruct (reject_if _ _ s0) as [s2 [z|]] eqn:Er; [|done]. apply reject_if_ok in Er as [_ ->]. unfold lift, modify in E.
  destruct (createSelector _) as [sel|] eqn:Es; [|done].
  set (s3 := set_nodesConfig _ s0) in E.
  assert (Hi : coord_inv (arg_ConsensusGroupSize a) s3).
  { apply inv_cleared; cbn; [done| |intros k; by rewrite H2]. rewrite H1. cbn. intros e c.
    rewrite lookup_insert_Some, lookup_singleton_Some. intros [[<- <-]|[? [? _]]]; [|done].
    symmetry. exact (f_equal ok_option Es). }
  destruct (length (arg_CurrValidatorsInfo a) =? 0)%nat, (length (arg_PrevValidatorsInfo a) =? 0)%nat;
    injection E as <- _; (apply (inv_drops _ s3); [done|exact Hi]).
Qed.

(** C13: the consensus group of a slot is a function of the randomness, the slot
    and the elected list of the epoch.  Through any run of a coordinator created
    with an empty cache, in which a state is loaded and the lists of an epoch are
    set by hand only before a group of the epochs they write was computed (neither
    clears the cache), and whatever its cache kept or forgot, a ready coordinator
    answers for non-empty randomness and a known epoch with enough elected
    validators the validators at the positions drawn for the slot: as many as the
    group size, at pairwise different positions of the elected list.  So nodes
    with the same list agree on the group.  Otherwise it answers the error of the
    first condition that fails: not ready, no randomness, unknown epoch.  Hashes
    are of at least eight bytes. *)
Theorem consensus_group_exact a s0 s randomness slot epoch :
  (forall x, 8 <= String.length (Compute x))%nat ->
  NewNodesCoordinator range_configs a = Ok s0 -> (forall k, (cache_Get k (arg_ConsensusGroupCache a)).2 = None) ->
  rtc coord_step s0 s -> is_u64 slot -> is_u32 epoch ->
  (forall c, nodesConfig s !! epoch = Some c -> arg_ConsensusGroupSize a <= zlen (electedList c) <= MaxUint32) ->
  exists s' answer, ComputeConsensusGroup randomness slot epoch s = (s', answer) /\
    if negb (stateReady s) then answer = Err ErrNodesCoordinatorNotReady
    else if decide (randomness = EmptyString) then answer = Err ErrNilRandomness
    else match nodesConfig s !! epoch with
    | None => answer = Err ErrEpochNodesConfigDoesNotExist
    | Some c =>
        let idx := drawn (slot_seed slot randomness) (arg_ConsensusGroupSize a) (electedList c) in
        zlen idx = arg_ConsensusGroupSize a /\ NoDup idx /\
        exists group, answer = Ok group /\ Forall2 (fun i v => electedList c !! Z.to_nat i = Some v) idx group
    end.
Proof.
  intros Hh Hnew Hempty Hrun Hslot Hep Hsize.
  destruct (new_inv _ _ Hnew Hempty) as [Hpos Hi]. apply (runs_inv _ _ s) in Hi; [|done].
  destruct (compute_group_spec _ randomness slot epoch s Hi Hslot Hep) as (s' & E & _ & _).
  eexists s', _. split; [exact E|]. destruct (negb (stateReady s)); [done|].
  destruct (Nat.eqb_spec (String.length randomness) 0); [rewrite decide_True by (by destruct randomness); done|].
  rewrite decide_False by (by intros ->). destruct (nodesConfig s !! epoch) as [c|]; [|done]. specialize (Hsize c eq_refl).
  destruct (select_validators_spec Hh c (slot_seed slot randomness) (arg_ConsensusGroupSize a))
    as (sel & group & S1 & S2 & S3); [lia| |lia|].
  { unfold slot_seed, FormatUint. intros K. apply (f_equal String.length) in K.
    rewrite string_length_app in K. cbn in K. rewrite string_length_app in K. cbn in K. lia. }
  destruct S3 as (? & ? & ?). split_and!; [done..|]. exists group. split; [|done]. unfold group_of. rewrite S1.
  cbn [ok_option]. rewrite wrap_u32_id by ilia. exact S2.
Qed.

(** ** The lists of an epoch *)

Definition valid_of (info : EValidatorInfo) : Validator :=
  {| OwnerAddress := evi_OwnerAddress info; PubKey := bytes_of (evi_PublicKey info);
     Chances := DefaultSelectionChances; Index := evi_Index info |}.
Definition listed (l : string) (infos : list EValidatorInfo) : list Validator :=
  valid_of <$> filter (fun i => evi_List i = l) infos.
Arguments listed : simpl never.
Arguments str_eqb : simpl never.
Definition keyed (infos : list EValidatorInfo) : Prop := Forall (fun i => is_Some (evi_PublicKey i)) infos.

Lemma listed_cons l i infos : listed l (i :: infos) = (if str_eqb (evi_List i) l then [valid_of i] else []) ++ listed l infos.
Proof. unfold listed, str_eqb. rewrite filter_cons. by case_bool_decide; case_decide. Qed.

Lemma sort_infos_spec infos : keyed infos -> forall acc, sort_infos infos acc =
  Ok {| l_elected := l_elected acc ++ listed ElectedList infos; l_eligible := l_eligible acc ++ listed EligibleList infos;
        l_waiting := l_waiting acc ++ listed WaitingList infos; l_leaving := l_leaving acc ++ listed JailedList infos |}.
Proof.
  induction 1 as [|i infos [k Hk] _ IH]; intros acc; [cbn; rewrite !app_nil_r; by destruct acc|].
  cbn [sort_infos]. unfold NewValidator. rewrite Hk.
  assert (Hv : {| OwnerAddress := evi_OwnerAddress i; PubKey := k; Chances := DefaultSelectionChances; Index := evi_Index i |}
    = valid_of i) by (unfold valid_of; rewrite Hk; done).
  rewrite Hv. cbn [mbind res_bind]. rewrite IH, !listed_cons. unfold str_eqb.
  destruct (bool_decide (evi_List i = EligibleList)) eqn:E1;
    [apply bool_decide_eq_true in E1; rewrite E1; cbn; by rewrite <- app_assoc|].
  destruct (bool_decide (evi_List i = ElectedList)) eqn:E2;
    [apply bool_decide_eq_true in E2; rewrite ?E2; cbn; by rewrite <- app_assoc|].
  destruct (bool_decide (evi_List i = WaitingList)) eqn:E3;
    [apply bool_decide_eq_true in E3; rewrite ?E3; cbn; by rewrite <- app_assoc|].
  destruct (bool_decide (evi_List i = InactiveList)) eqn:E4;
    [apply bool_decide_eq_true in E4; rewrite ?E4; done|].
  destruct (bool_decide (evi_List i = JailedList)) eqn:E5;
    [apply bool_decide_eq_true in E5; rewrite ?E5; cbn; by rewrite <- app_assoc|done].
Qed.

(** Jailed validators that stay, because the others are fewer than the group. *)
Definition staying (size : Z) (infos : list EValidatorInfo) : nat :=
  let missing := size - (zlen (listed ElectedList infos) + zlen (listed EligibleList infos)) in
  if (0 <? missing) && (missing <=? zlen (listed JailedList infos)) then Z.to_nat missing else 0.

Lemma compute_config_eq size infos : keyed infos ->
  computeNodesConfigFromList sortValidators size infos =
  if (length (listed ElectedList infos) =? 0)%nat then Err ErrListSizeZero
  else Ok {| electedList := sortValidators (listed ElectedList infos);
             eligibleList := sortValidators (listed EligibleList infos ++ take (staying size infos) (listed JailedList infos));
             waitingList := sortValidators (listed WaitingList infos);
             leavingList := sortValidators (drop (staying size infos) (listed JailedList infos)); selector := None |}.
Proof.
  intros Hk. unfold computeNodesConfigFromList. rewrite (sort_infos_spec infos Hk). cbn -[listed]. unfold staying.
  destruct (_ && _); cbn -[listed]; [done|]. by rewrite app_nil_r.
Qed.

(** *** The result does not depend on the order of the input *)

Lemma ltb_antisym a b : String.ltb a b = false -> String.ltb b a = false -> a = b.
Proof.
  unfold String.ltb. rewrite (String.compare_antisym b a). destruct (String.compare a b) eqn:E; try done.
  intros _ _. by apply String.compare_eq_iff.
Qed.

Definition in_order (a b : Validator) : Prop := Less b a = false.

Hypothesis sort_perm : forall l, sortValidators l ≡ₚ l.
Hypothesis sort_sorted : forall l, StronglySorted in_order (sortValidators l).

Lemma sort_unique l l' : NoDup (PubKey <$> l) -> l ≡ₚ l' -> sortValidators l = sortValidators l'.
Proof.
  intros Hnd Hp. apply (StronglySorted_unique_strong in_order); [|done..|by rewrite !sort_perm].
  intros x y Hx Hy. rewrite sort_perm in Hx. rewrite sort_perm, <- Hp in Hy. unfold in_order, Less.
  destruct (Z.eqb_spec (Index y) (Index x)) as [E|E]; destruct (Z.eqb_spec (Index x) (Index y)); try lia.
  intros H1 H2. pose proof (ltb_antisym _ _ H1 H2) as Hkey.
  apply list_elem_of_lookup in Hx as [i Hi]. apply list_elem_of_lookup in Hy as [j Hj].
  assert (i = j); [|congruence]. eapply (NoDup_lookup _ _ _ _ Hnd); rewrite list_lookup_fmap; [by rewrite Hi|rewrite Hj; cbn; congruence].
Qed.

Lemma listed_keys l infos : keyed infos -> NoDup (evi_PublicKey <$> infos) -> NoDup (PubKey <$> listed l infos).
Proof.
  intros Hk Hnd. unfold listed. rewrite <- list_fmap_compose.
  induction Hk as [|i infos [k Hi] Hk IH]; [constructor|]. rewrite fmap_cons, NoDup_cons in Hnd. destruct Hnd as [Hn Hnd].
  rewrite filter_cons. case_decide; [|by apply IH]. rewrite fmap_cons, NoDup_cons. split; [|by apply IH].
  intros (j & Hj & Hin)%list_elem_of_fmap. apply list_elem_of_filter in Hin as [_ Hin]. apply Hn.
  rewrite list_elem_of_fmap. exists j. split; [|done]. unfold keyed in Hk. rewrite Forall_forall in Hk.
  destruct (Hk j Hin) as [k' Hk']. cbn in Hj. rewrite Hi, Hk' in Hj. cbn in Hj. congruence.
Qed.

#[local] Instance listed_perm l : Proper ((≡ₚ) ==> (≡ₚ)) (listed l).
Proof. intros a b H. unfold listed. by rewrite H. Qed.

(** The lists of an epoch do not depend on the order in which the validators
    are given: for permuted inputs with distinct keys the computation gives the
    same configuration, element by element, or the same refusal, unless jailed
    validators have to stay to fill the group (those are taken in the order of the
    input). *)
Theorem nodes_config_order_independent size infos infos' :
  keyed infos -> NoDup (evi_PublicKey <$> infos) -> infos ≡ₚ infos' -> staying size infos = 0%nat ->
  computeNodesConfigFromList sortValidators size infos = computeNodesConfigFromList sortValidators size infos'.
Proof.
  intros Hk Hnd Hp Hst. assert (Hk' : keyed infos') by (unfold keyed in *; by rewrite <- Hp).
  assert (Hst' : staying size infos' = 0%nat).
  { rewrite <- Hst. unfold staying. by rewrite (Permutation_length (listed_perm ElectedList _ _ Hp)),
      (Permutation_length (listed_perm EligibleList _ _ Hp)), (Permutation_length (listed_perm JailedList _ _ Hp)). }
  rewrite !compute_config_eq by done. rewrite Hst, Hst', (Permutation_length (listed_perm ElectedList _ _ Hp)).
  destruct (_ =? 0)%nat; [done|]. cbn [take drop]. rewrite !app_nil_r.
  do 2 f_equal; (apply sort_unique; [by apply listed_keys|by apply listed_perm]).
Qed.

(** *** Every validator ends in exactly one list *)

Context {no_collision : Inj (=) (=) Compute}.

Lemma listed_disjoint l l' infos : l <> l' -> keyed infos -> NoDup (evi_PublicKey <$> infos) ->
  NoDup (PubKey <$> listed l infos ++ listed l' infos).
Proof.
  intros Hne Hk Hnd. rewrite fmap_app. apply NoDup_app. split_and!; [by apply listed_keys| |by apply listed_keys].
  intros k (v & -> & (i & -> & Hi)%list_elem_of_fmap)%list_elem_of_fmap
    (w & Hw & (j & -> & Hj)%list_elem_of_fmap)%list_elem_of_fmap.
  apply list_elem_of_filter in Hi as [Hl Hi]. apply list_elem_of_filter in Hj as [Hl' Hj].
  unfold keyed in Hk. rewrite Forall_forall in Hk. destruct (Hk i Hi) as [a Ha], (Hk j Hj) as [b Hb].
  cbn in Hw. rewrite Ha, Hb in Hw. cbn in Hw. subst b.
  apply list_elem_of_lookup in Hi as [n Hi]. apply list_elem_of_lookup in Hj as [m Hj].
  assert (n = m) by (eapply (NoDup_lookup _ _ _ _ Hnd); rewrite list_lookup_fmap; [by rewrite Hi|rewrite Hj; cbn; congruence]).
  congruence.
Qed.

Lemma config_keys size infos cfg : keyed infos -> NoDup (evi_PublicKey <$> infos) ->
  computeNodesConfigFromList sortValidators size infos = Ok cfg ->
  NoDup (PubKey <$> electedList cfg ++ eligibleList cfg) /\ electedList cfg ≡ₚ listed ElectedList infos /\
  waitingList cfg ≡ₚ listed WaitingList infos /\
  eligibleList cfg ++ leavingList cfg ≡ₚ listed EligibleList infos ++ listed JailedList infos.
Proof.
  intros Hk Hnd. rewrite compute_config_eq by done. destruct (_ =? 0)%nat; [done|]. intros [= <-]. cbn.
  rewrite !sort_perm. split_and!; try done.
  - pose proof (listed_disjoint ElectedList EligibleList infos ltac:(done) Hk Hnd) as H1.
    pose proof (listed_disjoint ElectedList JailedList infos ltac:(done) Hk Hnd) as H2.
    pose proof (listed_disjoint EligibleList JailedList infos ltac:(done) Hk Hnd) as H3.
    rewrite <- (take_drop (staying size infos) (listed JailedList infos)) in H2, H3.
    rewrite !fmap_app in *. apply NoDup_app in H1 as (E1 & E2 & _). apply NoDup_app in H2 as (_ & E3 & _).
    rewrite app_assoc in H3. apply NoDup_app in H3 as (E4 & _ & _). apply NoDup_app. split_and!; [done| |done].
    intros x Hx [Hg|Ht]%elem_of_app; [by apply (E2 x)|]. apply (E3 x Hx), elem_of_app. by left.
  - rewrite <- app_assoc, take_drop. done.
Qed.

Lemma regroup {A} (a b c d e f : list A) : (a ++ b) ++ (c ++ d) ++ e ++ f ≡ₚ (d ++ a) ++ e ++ (b ++ c) ++ f.
Proof.
  rewrite <- !app_assoc. rewrite (Permutation_app_swap_app d a). f_equiv.
  rewrite (Permutation_app_swap_app e b). rewrite (Permutation_app_swap_app d b). f_equiv.
  rewrite (Permutation_app_swap_app e c), (Permutation_app_swap_app d c). done.
Qed.

(** C15: the start of an epoch gives every validator exactly one place.  When the
    lists of the epoch can be computed from validators with distinct keys, there
    are three cases.  With fewer elected and eligible validators than places
    nothing but the shuffler's parameters changes.  When fewer are elected than
    are to be rotated out the shuffler's slice expression panics.  Otherwise the
    new epoch gets a configuration whose elected, eligible, waiting and leaving
    lists together are exactly the elected, eligible, waiting and jailed
    validators of the epoch, the waiting ones being those marked waiting; the
    elected list has the number of places (or the elected validators left when
    they exceed it); other epochs keep theirs, and no group computed before is
    answered any more.  The hash has no collisions, sorting keeps the elements, and
    there is at least one place. *)
Theorem epoch_start_partitions hdr infos cfg s :
  let epoch := hdr_Epoch hdr in
  let rhs := UpdateShufflerConfig epoch (shuffler s) in
  let arg := {| arg_elected := electedList cfg; arg_eligible := eligibleList cfg; arg_randomness := hdr_PrevRandSeed hdr;
                arg_nodes := rhs_nodes rhs; arg_maxNodesToSwap := NodesToShuffle (activeNodesConfig rhs) |} in
  hdr_IsEpochStart hdr = true -> validatorsInfo s !! epoch = Some infos ->
  keyed infos -> NoDup (evi_PublicKey <$> infos) ->
  computeNodesConfigFromList sortValidators (consensusGroupSize s) infos = Ok cfg ->
  0 < arg_nodes arg <= MaxUint32 -> 0 <= arg_maxNodesToSwap arg ->
  zlen (electedList cfg) + zlen (eligibleList cfg) <= MaxUint32 ->
  exists s' r, EpochStartPrepare range_configs sortValidators hdr s = (s', r) /\
    if zlen (electedList cfg) + zlen (eligibleList cfg) <? arg_nodes arg
    then r = Ok tt /\ s' = set_shuffler rhs s
    else if zlen (electedList cfg) <? num_to_remove arg then r = Err Panic
    else exists c, r = Ok tt /\ nodesConfig s' = <[epoch := c]> (nodesConfig s) /\
      electedList c ++ eligibleList c ++ waitingList c ++ leavingList c ≡ₚ
        listed ElectedList infos ++ listed EligibleList infos ++ listed WaitingList infos ++ listed JailedList infos /\
      waitingList c ≡ₚ listed WaitingList infos /\
      zlen (electedList c) = Z.max (arg_nodes arg) (zlen (electedList cfg) - num_to_remove arg) /\
      (forall k, (cache_Get k (consensusGroupCacher s')).2 = None).
Proof.
  intros epoch rhs arg Hstart Hinfos Hk Hnd Hcfg Hnodes Hswap Hmax.
  destruct (config_keys _ _ _ Hk Hnd Hcfg) as (Hkeys & Hel & Hwait & Heg).
  assert (Hu : is_u32 (arg_nodes arg)) by (unfold is_u32; lia).
  pose proof (rotation_spec arg Hkeys Hu Hswap Hmax) as Hrot.
  change (arg_elected arg) with (electedList cfg) in Hrot. change (arg_eligible arg) with (eligibleList cfg) in Hrot.
  unfold EpochStartPrepare, mbind, M_bind, get, modify, logged_error. rewrite Hstart. cbn [negb].
  unfold getEpochValidatorsInfo. fold epoch. rewrite Hinfos, Hcfg. unfold UpdateNodeLists. cbn [upd_Epoch upd_Elected upd_Eligible upd_Rand].
  fold epoch rhs arg.
  destruct (Z.ltb_spec (zlen (electedList cfg) + zlen (eligibleList cfg)) (arg_nodes arg)).
  { rewrite Hrot. by eexists _, _. }
  destruct (Z.ltb_spec (zlen (electedList cfg)) (num_to_remove arg)).
  { rewrite Hrot. by eexists _, _. }
  destruct Hrot as (out & kept & brought & rest & Es & P1 & P2 & _ & Hsize).
  set (c := {| electedList := kept ++ brought; eligibleList := rest ++ out; waitingList := waitingList cfg;
               leavingList := leavingList cfg; selector := None |}).
  destruct (createSelector c) as [sel|e] eqn:Esel.
  2: { rewrite createSelector_ok in Esel; [done| |]; cbn.
       - intros E. rewrite E in Hsize. cbn [length] in Hsize. lia.
       - pose proof (Permutation_length P1). pose proof (Permutation_length P2). rewrite !length_app in *. lia. }
  rewrite Es. cbn [res_Elected res_Eligible].
  unfold SetNodes, mbind, M_bind, get, modify. fold c. rewrite Esel.
  unfold fillPublicKeyToValidatorMap, mbind, M_bind, get, modify. cbn [fst].
  set (s1 := set_pkMap _ _). destruct (saveState range_configs (hdr_PrevRandSeed hdr) s1) as [s2 x] eqn:E2.
  destruct (save_same _ _ _ _ E2) as (V1 & V2 & _). eexists _, _. split; [reflexivity|].
  exists (with_selector (Some sel) c). split; [done|]. split; [exact V1|]. cbn. split_and!; [|done|exact Hsize|intros k; apply clear_forgets].
  rewrite Hwait. rewrite P1 in Hel. rewrite P2 in Heg. rewrite <- Hel.
  transitivity ((out ++ kept) ++ listed WaitingList infos ++ (brought ++ rest) ++ leavingList cfg); [apply regroup|].
  rewrite Heg. f_equiv. apply Permutation_app_swap_app.
Qed.
End runs.

Section registry.
Context `{HS : Hasher} `{CO : GroupCacher} `{BS : BootStorer} {SL : BootStorerLaws} `{RJ : RegistryJSON} {JL : RegistryJSONLaws}.
Variable range_configs : gmap Z epochNodesConfig -> list (Z * epochNodesConfig).
Variable range_registry : gmap string (option EpochValidators) -> list (string * option EpochValidators).
Hypothesis range_configs_ok : forall m, range_configs m ≡ₚ map_to_list m.
Hypothesis range_registry_ok : forall m, range_registry m ≡ₚ map_to_list m.

(** Configurations as the coordinator makes them: every validator has the default
    chances, the selector belongs to the elected list, which is not empty. *)
Definition default_chances (vs : list Validator) : Prop := Forall (fun v => Chances v = DefaultSelectionChances) vs.
Record config_wf (e : Z) (c : epochNodesConfig) : Prop := {
  cw_epoch : is_u32 e;
  cw_lists : default_chances (electedList c) /\ default_chances (eligibleList c) /\
             default_chances (waitingList c) /\ default_chances (leavingList c);
  cw_elected : electedList c <> [] /\ zlen (electedList c) <= MaxUint32;
  cw_selector : selector c = ok_option (createSelector c);
}.

Lemma array_round_trip vs : default_chances vs ->
  serializableValidatorArrayToValidatorArray (ValidatorArrayToSerializableValidatorArray vs) = Ok vs.
Proof.
  induction 1 as [|v vs Hv _ IH]; [done|]. cbn. unfold ValidatorArrayToSerializableValidatorArray in IH.
  rewrite IH. cbn. rewrite <- Hv. by destruct v.
Qed.

Lemma config_round_trip e c : config_wf e c ->
  epochValidatorsToEpochNodesConfig (Some (epochNodesConfigToEpochValidators c)) = Ok (with_selector None c).
Proof.
  intros [_ (H1 & H2 & H3 & H4) _ _]. cbn. by rewrite !array_round_trip by done.
Qed.

Definition entry (p : Z * epochNodesConfig) : string * option EpochValidators :=
  (FormatUint p.1, Some (epochNodesConfigToEpochValidators p.2)).

Lemma parse_epoch e : is_u32 e -> ParseInt (FormatUint e) = Ok e.
Proof.
  intros H. replace (FormatUint e) with (FormatInt e); [apply ParseInt_FormatInt; unfold is_u32, is_i64, MaxUint32, MinInt64, MaxInt64 in *; lia|].
  unfold FormatInt. destruct (Z.ltb_spec e 0); [unfold is_u32 in H; lia|done].
Qed.

Lemma entry_key_inj p q : config_wf p.1 p.2 -> config_wf q.1 q.2 -> (entry p).1 = (entry q).1 -> p.1 = q.1.
Proof.
  intros Hp Hq E. unfold entry, fst in E. fold (fst p) (fst q) in E.
  pose proof (parse_epoch p.1 (cw_epoch _ _ Hp)) as E1. rewrite E, (parse_epoch q.1 (cw_epoch _ _ Hq)) in E1.
  by injection E1.
Qed.

(** Loading the entries of some configurations adds these configurations. *)
Lemma registry_loop_entries l : Forall (fun p => config_wf p.1 p.2) l -> forall m,
  registry_loop (entry <$> l) m = Ok (fold_left (fun m p => <[p.1 := p.2]> m) l m).
Proof.
  induction 1 as [|[e c] l Hw _ IH]; intros m; [done|]. cbn [fmap list_fmap entry registry_loop fst snd].
  cbn in Hw. rewrite parse_epoch by apply Hw. cbn [map_err mbind res_bind].
  rewrite (config_round_trip e c Hw). cbn [mbind res_bind].
  assert (Hsel := cw_selector _ _ Hw). assert (Hc := createSelector_ok c (proj1 (cw_elected _ _ Hw)) (proj2 (cw_elected _ _ Hw))).
  change (createSelector (with_selector None c)) with (createSelector c). rewrite Hc in Hsel |- *. cbn [mbind res_bind ok_option] in *.
  fold (fmap (M := list) entry l). rewrite IH. cbn [fold_left fst snd]. rewrite wrap_u32_id by apply Hw.
  do 3 f_equal. unfold with_selector. cbn. rewrite <- Hsel. by destruct c.
Qed.

Lemma fold_insert_lookup l : NoDup l.*1 -> forall m : gmap Z epochNodesConfig, (forall e, e ∈ l.*1 -> m !! e = None) ->
  fold_left (fun m p => <[p.1 := p.2]> m) l m = list_to_map l ∪ m.
Proof.
  induction l as [|[e c] l IH]; intros Hnd m Hm; [cbn; by rewrite (left_id_L ∅ (∪))|].
  rewrite fmap_cons in Hnd. apply NoDup_cons in Hnd as [Hn Hnd]. cbn [fold_left list_to_map foldr fst snd]. rewrite IH; [|done|].
  - cbn. rewrite <- insert_union_r by by apply not_elem_of_list_to_map_1. by rewrite insert_union_l.
  - intros e' He'. rewrite lookup_insert_ne by (intros ->; done). apply Hm. rewrite fmap_cons. by right.
Qed.

(** The registry holds one entry per epoch. *)
Lemma registry_entries l : Forall (fun p => config_wf p.1 p.2) l -> NoDup l.*1 ->
  fold_left (fun m p => <[(entry p).1 := (entry p).2]> m) l (∅ : gmap string (option EpochValidators)) =
  list_to_map (entry <$> l).
Proof.
  intros Hw Hnd.
  assert (H : forall m : gmap string (option EpochValidators), (forall p, p ∈ l -> m !! (entry p).1 = None) ->
    fold_left (fun m p => <[(entry p).1 := (entry p).2]> m) l m = list_to_map (entry <$> l) ∪ m).
  { revert Hw Hnd. clear. induction l as [|p l IH]; intros Hw Hnd m Hm; [cbn; by rewrite (left_id_L ∅ (∪))|].
    rewrite fmap_cons in Hnd. apply NoDup_cons in Hnd as [Hn Hnd]. apply Forall_cons in Hw as [Hp Hw].
    assert (Hfresh : forall q, q ∈ l -> (entry p).1 <> (entry q).1).
    { intros q Hq E. rewrite Forall_forall in Hw. apply Hn. rewrite (entry_key_inj p q Hp (Hw q Hq) E).
      by apply list_elem_of_fmap_2. }
    cbn [fold_left fmap list_fmap]. rewrite IH; [|done|done|].
    - rewrite <- insert_union_r.
      + rewrite insert_union_l. f_equal.
      + apply not_elem_of_list_to_map_1. intros (x & E & (q & -> & Hq)%list_elem_of_fmap)%list_elem_of_fmap. by apply (Hfresh q Hq).
    - intros q Hq. rewrite lookup_insert_ne by by apply Hfresh. apply Hm. by right. }
  rewrite H by done. by rewrite (right_id_L ∅ (∪)).
Qed.

Lemma entries_nodup l : Forall (fun p => config_wf p.1 p.2) l -> NoDup l.*1 -> NoDup (entry <$> l).*1.
Proof.
  intros Hw Hnd. rewrite <- list_fmap_compose. induction l as [|p l IH]; [constructor|].
  rewrite fmap_cons. cbn [fmap list_fmap] in Hnd. apply NoDup_cons in Hnd as [Hn Hnd]. apply Forall_cons in Hw as [Hp Hw].
  apply NoDup_cons. split; [|by apply IH]. intros (q & E & Hq)%list_elem_of_fmap. apply Hn.
  rewrite Forall_forall in Hw. rewrite (entry_key_inj p q Hp (Hw q Hq) E). by apply list_elem_of_fmap_2.
Qed.

Lemma registry_round_trip (s : indexHashedNodesCoordinator) : (forall e c, nodesConfig s !! e = Some c -> config_wf e c) ->
  registryToNodesCoordinator range_registry (NodesCoordinatorToRegistry range_configs s) = Ok (nodesConfig s).
Proof.
  intros Hwf. unfold registryToNodesCoordinator, NodesCoordinatorToRegistry. cbn [EpochsConfig].
  set (l := range_configs (nodesConfig s)). pose proof (range_configs_ok (nodesConfig s)) as Hl. fold l in Hl.
  assert (Hw : Forall (fun p => config_wf p.1 p.2) l).
  { apply Forall_forall. intros [e c] Hin. rewrite Hl in Hin. apply elem_of_map_to_list in Hin. by apply Hwf. }
  assert (Hnd : NoDup l.*1) by (rewrite Hl; apply NoDup_fst_map_to_list).
  change (fold_left _ l ∅) with (fold_left (fun m p => <[(entry p).1 := (entry p).2]> m) l (∅ : gmap string (option EpochValidators))).
  rewrite registry_entries by done.
  pose proof (range_registry_ok (list_to_map (entry <$> l))) as Hr.
  rewrite map_to_list_to_map in Hr by by apply entries_nodup.
  apply Permutation_map_inv in Hr as (l' & Hr & Hl'). rewrite Hr.
  change (map entry l') with (entry <$> l').
  assert (Hw' : Forall (fun p => config_wf p.1 p.2) l') by by rewrite <- Hl'.
  rewrite registry_loop_entries by done. f_equal.
  assert (Hnd' : NoDup l'.*1) by by rewrite <- Hl'.
  rewrite fold_insert_lookup by done. rewrite (right_id_L ∅ (∪)).
  rewrite <- (list_to_map_to_list (nodesConfig s)). apply list_to_map_proper; [done|]. by rewrite <- Hl', Hl.
Qed.

(** C37: a saved coordinator is restored exactly: after a successful save, loading
    under the same key, into any coordinator with that storage, succeeds and
    gives back the lists and selectors of every epoch, the current epoch and the
    look-up of validators by key; the loaded coordinator is ready. *)
Theorem saved_state_restored key s s1 s2 :
  (forall e c, nodesConfig s !! e = Some c -> config_wf e c) ->
  saveState range_configs key s = (s1, Ok tt) -> bootStorer s2 = bootStorer s1 ->
  exists s3, LoadState range_configs range_registry key s2 = (s3, Ok tt) /\
    nodesConfig s3 = nodesConfig s /\ currentEpoch s3 = currentEpoch s /\ savedStateKey s3 = key /\
    stateReady s3 = true /\
    (computePublicKeyToValidatorMap range_configs (nodesConfig s) <> ∅ ->
     publicKeyToValidatorMap s3 = computePublicKeyToValidatorMap range_configs (nodesConfig s)).
Proof.
  intros Hwf Hsave Hst. unfold saveState, mbind, M_bind, get, lift, modify in Hsave.
  destruct (json_Marshal _) as [data|] eqn:Ej; [|done]. cbn [map_err] in Hsave.
  destruct (storer_Put _ data (bootStorer s)) as [b r] eqn:Eb. injection Hsave as <- Hr. destruct r as [[]|]; [|done].
  cbn in Hst. unfold LoadState, mbind, M_bind, get, modify, lift, mret, M_ret. rewrite Hst.
  pose proof (storer_get_put _ _ _ _ Eb) as Hget. destruct (storer_Get _ b) as [b' x]. cbn in Hget. subst x.
  cbn [map_err]. rewrite (json_round_trip _ _ Ej). cbn [map_err]. rewrite registry_round_trip by done.
  destruct (decide _) as [E|E]; (eexists; split; [reflexivity|]; cbn; split_and!; try done).
Qed.
End registry.
