(* ===== verification/ShardingExample.v ===== *)
(** * Running the selection of validators

    A hash function, a cache, a storage and a text format for which the
    assumptions of the theorems hold, and the theorems applied to them. *)

From S2P Require Import Prelude Common Strconv Tools ForkDetector ForkChoice Selection Shuffler NodesCoordinator NodesCoordProps.
From Stdlib Require Import Ascii.
Local Open Scope Z_scope.

(** A hash function without collisions whose values have eight bytes at least. *)
#[local] Instance padded : Hasher := { Compute s := s +:+ "--------" }.

Lemma padded_size s : (8 <= String.length (@Compute padded s))%nat.
Proof. cbn. rewrite string_length_app. cbn. lia. Qed.
#[local] Instance padded_inj : Inj (=) (=) (@Compute padded).
Proof. intros a b H. by apply string_app_inj_r in H. Qed.

Definition ex_weights : list Z := [2; 1; 3; 1].
Definition ex_selector : selectorExpandedList :=
  from_ok {| expandedList := []; uniqueItems := 0 |} (NewSelectorExpandedList ex_weights).

Example ex_expanded : expandedList ex_selector = [0; 0; 1; 2; 2; 2; 3].
Proof. reflexivity. Qed.
Example ex_select : Select "seed" 3 ex_selector = Ok [0; 2; 1].
Proof. vm_compute. reflexivity. Qed.

Lemma selection_simulates_reslicing_witness : exists picks, Select "seed" 3 ex_selector = Ok picks /\
    picks = reslice (expandedList ex_selector) ((fun k => random "seed" (Z.of_nat k)) <$> seq 0 (Z.to_nat 3)) /\
    zlen picks = 3 /\ NoDup picks /\ Forall (fun v => 0 <= v < zlen ex_weights) picks.
Proof.
  apply (selection_simulates_reslicing padded_size ex_weights ex_selector "seed" 3);
    [reflexivity|vm_compute; congruence|vm_compute; congruence|lia].
Defined.

(** ** Rotation *)

Definition ex_val (k : string) (i : Z) : Validator :=
  {| OwnerAddress := k; PubKey := k; Chances := DefaultSelectionChances; Index := i |}.
Definition ex_arg : shuffleNodesArg :=
  {| arg_elected := [ex_val "a" 0; ex_val "b" 1; ex_val "c" 2]; arg_eligible := [ex_val "d" 3; ex_val "e" 4];
     arg_randomness := "r"; arg_nodes := 3; arg_maxNodesToSwap := 1 |}.

Lemma rotation_exact_witness : exists out kept brought rest,
    shuffleNodes ex_arg = Ok {| res_Elected := Some (kept ++ brought); res_Eligible := Some (rest ++ out) |} /\
    arg_elected ex_arg ≡ₚ out ++ kept /\ arg_eligible ex_arg ≡ₚ brought ++ rest /\
    zlen out = num_to_remove ex_arg /\
    zlen (kept ++ brought) = Z.max (arg_nodes ex_arg) (zlen (arg_elected ex_arg) - num_to_remove ex_arg).
Proof.
  refine (rotation_exact ex_arg _ _ _ _).
  - apply (bool_decide_unpack (NoDup (PubKey <$> arg_elected ex_arg ++ arg_eligible ex_arg))). vm_compute. exact I.
  - vm_compute. split; congruence.
  - vm_compute. congruence.
  - vm_compute. congruence.
Defined.

(** ** A coordinator *)

#[local] Instance map_cache : GroupCacher :=
  { cacheT := gmap string (list Validator); cache_Clear _ := ∅; cache_Put k v _ c := <[k := v]> c;
    cache_Get k c := (c, c !! k) }.
#[local] Instance map_cache_laws : @GroupCacherLaws map_cache.
Proof.
  split; cbn; [done|done|]. intros k v _ k' c w. rewrite lookup_insert_Some. intros [[-> ->]|[_ H]]; [by left|by right].
Qed.

#[local] Instance map_storer : BootStorer :=
  { storerT := gmap string string; storer_Put k v b := (<[k := v]> b, Ok tt);
    storer_Get k b := (b, match b !! k with Some v => Ok v | None => Err "key not found" end) }.
#[local] Instance map_storer_laws : @BootStorerLaws map_storer.
Proof. split. cbn. intros k v b b' [= <-]. by rewrite lookup_insert_eq. Qed.

(** A text format for registries: their number, in binary digits. *)
Fixpoint pos_text (p : positive) : string :=
  match p with xH => "1" | xO p => String "0" (pos_text p) | xI p => String "1" (pos_text p) end.
Fixpoint text_pos (s : string) : option positive :=
  match s with
  | EmptyString => None
  | String c s => match text_pos s with
                  | None => if bool_decide (s = EmptyString) then Some xH else None
                  | Some p => Some (if bool_decide (c = "0"%char) then xO p else xI p)
                  end
  end.
Lemma text_pos_text p : text_pos (pos_text p) = Some p.
Proof. induction p as [p IH|p IH|]; cbn; [by rewrite IH|by rewrite IH|done]. Qed.

#[local] Instance sv_eq_dec : EqDecision SerializableValidator.
Proof. solve_decision. Defined.
#[local] Instance ev_eq_dec : EqDecision EpochValidators.
Proof. solve_decision. Defined.
#[local] Instance sv_countable : Countable SerializableValidator.
Proof.
  apply (inj_countable' (fun v => (sv_OwnerAddress v, sv_PubKey v, sv_Index v))
    (fun '(a, b, c) => {| sv_OwnerAddress := a; sv_PubKey := b; sv_Index := c |})). by intros [].
Defined.
#[local] Instance ev_countable : Countable EpochValidators.
Proof.
  apply (inj_countable' (fun v => (ElectedValidators v, EligibleValidators v, WaitingValidators v, LeavingValidators v))
    (fun '(a, b, c, d) => {| ElectedValidators := a; EligibleValidators := b; WaitingValidators := c; LeavingValidators := d |})).
  by intros [].
Defined.

#[local] Instance binary_text : RegistryJSON :=
  { json_Marshal r := Ok (pos_text (encode (EpochsConfig r, reg_CurrentEpoch r)));
    json_Unmarshal s := match p ← text_pos s; decode p with
                        | Some (m, e) => Ok {| EpochsConfig := m; reg_CurrentEpoch := e |}
                        | None => Err "invalid text"
                        end }.
#[local] Instance binary_text_laws : @RegistryJSONLaws binary_text.
Proof.
  split. intros [m e] s [= <-]. cbn. rewrite text_pos_text. cbn. rewrite decode_encode. done.
Qed.

(** Sorting by index and key. *)
#[local] Instance in_order_dec a b : Decision (in_order a b).
Proof. unfold in_order. apply _. Defined.
Definition ex_sort : list Validator -> list Validator := merge_sort in_order.

Lemma less_trans a b c : Less b a = false -> Less c b = false -> Less c a = false.
Proof.
  unfold Less. fold (bytes_lt (PubKey b) (PubKey a)) (bytes_lt (PubKey c) (PubKey b)) (bytes_lt (PubKey c) (PubKey a)).
  destruct (Z.eqb_spec (Index b) (Index a)), (Z.eqb_spec (Index c) (Index b)), (Z.eqb_spec (Index c) (Index a)); try lia.
  intros H1 H2. destruct (bytes_lt (PubKey c) (PubKey a)) eqn:H3; [|done].
  destruct (bytes_lt_total (PubKey b) (PubKey c)) as [H|[H|H]].
  - rewrite (bytes_lt_trans _ _ _ H H3) in H1. done.
  - rewrite H, H3 in H1. done.
  - congruence.
Qed.
#[local] Instance in_order_trans : Transitive in_order.
Proof. intros a b c. unfold in_order. intros H1 H2. by apply (less_trans a b c). Qed.
#[local] Instance in_order_total : Total in_order.
Proof.
  intros a b. unfold in_order, Less.
  destruct (Z.eqb_spec (Index b) (Index a)) as [E|E], (Z.eqb_spec (Index a) (Index b)); try lia.
  fold (bytes_lt (PubKey b) (PubKey a)) (bytes_lt (PubKey a) (PubKey b)).
  destruct (bytes_lt (PubKey b) (PubKey a)) eqn:H1; [|by left]. right.
  destruct (bytes_lt (PubKey a) (PubKey b)) eqn:H2; [|done].
  pose proof (bytes_lt_trans _ _ _ H1 H2) as H. by rewrite bytes_lt_irrefl in H.
Qed.
Lemma ex_sort_perm l : ex_sort l ≡ₚ l.
Proof. apply merge_sort_Permutation. Qed.
Lemma ex_sort_sorted l : StronglySorted in_order (ex_sort l).
Proof. apply (StronglySorted_merge_sort in_order). Qed.

Definition ex_range_configs (m : gmap Z epochNodesConfig) := map_to_list m.
Definition ex_range_registry (m : gmap string (option EpochValidators)) := map_to_list m.

Definition ex_info (k l : string) (i : Z) : EValidatorInfo :=
  {| evi_OwnerAddress := k; evi_PublicKey := Some k; evi_List := l; evi_Index := i; evi_TempRating := 0 |}.
Definition ex_infos : list EValidatorInfo :=
  [ex_info "a" ElectedList 2; ex_info "b" EligibleList 1; ex_info "c" ElectedList 1; ex_info "d" WaitingList 5;
   ex_info "e" JailedList 7].

Lemma ex_infos_keyed : keyed ex_infos.
Proof. unfold keyed, ex_infos. rewrite !Forall_cons. split_and!; try (eexists; reflexivity). by apply Forall_nil. Qed.
Lemma ex_infos_nodup : NoDup (evi_PublicKey <$> ex_infos).
Proof. apply (bool_decide_unpack (NoDup (evi_PublicKey <$> ex_infos))). vm_compute. exact I. Qed.
Lemma ex_infos_swapped : ex_infos ≡ₚ reverse ex_infos.
Proof. symmetry. apply reverse_Permutation. Qed.

Lemma nodes_config_order_independent_witness :
  computeNodesConfigFromList ex_sort 2 ex_infos = computeNodesConfigFromList ex_sort 2 (reverse ex_infos).
Proof.
  apply (nodes_config_order_independent ex_sort ex_sort_perm ex_sort_sorted 2 ex_infos (reverse ex_infos)
           ex_infos_keyed ex_infos_nodup ex_infos_swapped). vm_compute. reflexivity.
Defined.

Definition ex_args : ArgNodesCoordinator :=
  {| arg_ConsensusGroupSize := 2;
     arg_Shuffler := NewHashValidatorsShuffler (fun l => l) 2 [{| EpochEnable := 0; NodesToShuffle := 1 |}];
     arg_BootStorer := ∅; arg_ElectedNodes := [ex_val "a" 0; ex_val "b" 1; ex_val "c" 2]; arg_EligibleNodes := [];
     arg_SelfPublicKey := "me"; arg_Epoch := 0; arg_StartEpoch := 0; arg_ConsensusGroupCache := ∅;
     arg_CurrValidatorsInfo := []; arg_PrevValidatorsInfo := [] |}.
Definition ex_config : epochNodesConfig :=
  {| electedList := [ex_val "a" 0; ex_val "b" 1; ex_val "c" 2]; eligibleList := []; waitingList := []; leavingList := [];
     selector := Some {| expandedList := [0; 1; 2]; uniqueItems := 3 |} |}.

Definition ex_s0 : indexHashedNodesCoordinator :=
  from_ok (new_coordinator ex_range_configs ex_args) (NewNodesCoordinator ex_range_configs ex_args).
Lemma ex_new : NewNodesCoordinator ex_range_configs ex_args = Ok ex_s0.
Proof. apply from_ok_spec. vm_compute. reflexivity. Qed.
Lemma ex_config_known : nodesConfig ex_s0 !! 0 = Some ex_config.
Proof. vm_compute. reflexivity. Qed.

(** A group is computed twice; the second time it comes from the cache. *)
Definition ex_s1 : indexHashedNodesCoordinator := (ComputeConsensusGroup "seed" 7 0 ex_s0).1.
Lemma ex_group_run : rtc (coord_step ex_range_configs ex_range_registry ex_sort) ex_s0 ex_s1.
Proof.
  eapply rtc_once, (step_group _ _ _ _ _ "seed" 7 0 (ComputeConsensusGroup "seed" 7 0 ex_s0).2).
  - ilia.
  - ilia.
  - unfold ex_s1. by destruct (ComputeConsensusGroup "seed" 7 0 ex_s0).
Qed.

Lemma consensus_group_exact_witness : exists s' group, ComputeConsensusGroup "seed" 7 0 ex_s1 = (s', Ok group) /\
    let idx := drawn (slot_seed 7 "seed") 2 (electedList ex_config) in
    zlen idx = 2 /\ NoDup idx /\ Forall2 (fun i v => electedList ex_config !! Z.to_nat i = Some v) idx group.
Proof.
  destruct (consensus_group_exact ex_range_configs ex_range_registry ex_sort ex_args ex_s0 ex_s1 "seed" 7 0 padded_size)
    as (s' & answer & E & H).
  - exact ex_new.
  - reflexivity.
  - exact ex_group_run.
  - ilia.
  - ilia.
  - intros c Hc. assert (Some c = Some ex_config) as [= ->] by (rewrite <- Hc; vm_compute; reflexivity).
    vm_compute. split; congruence.
  - assert (stateReady ex_s1 = true /\ nodesConfig ex_s1 !! 0 = Some ex_config) as [E1 E2] by (split; vm_compute; reflexivity).
    rewrite E1, E2 in H. cbn [negb] in H. destruct H as (H1 & H2 & group & -> & H3).
    exists s', group. split; [exact E|]. split; [exact H1|]. split; [exact H2|exact H3].
Defined.

(** ** The next epoch *)

Definition ex_s2 : indexHashedNodesCoordinator := set_validatorsInfo (fun _ => {[ 1 := ex_infos ]}) ex_s1.
Definition ex_hdr : epochHeader := {| hdr_IsEpochStart := true; hdr_PrevRandSeed := "rand"; hdr_Epoch := 1 |}.
Definition ex_lists : epochNodesConfig :=
  {| electedList := [ex_val "c" 1; ex_val "a" 2]; eligibleList := [ex_val "b" 1]; waitingList := [ex_val "d" 5];
     leavingList := [ex_val "e" 7]; selector := None |}.

Lemma epoch_start_partitions_witness :
  exists s' c, EpochStartPrepare ex_range_configs ex_sort ex_hdr ex_s2 = (s', Ok tt) /\
    nodesConfig s' = <[1 := c]> (nodesConfig ex_s2) /\
    electedList c ++ eligibleList c ++ waitingList c ++ leavingList c ≡ₚ
      listed ElectedList ex_infos ++ listed EligibleList ex_infos ++ listed WaitingList ex_infos ++ listed JailedList ex_infos /\
    waitingList c ≡ₚ listed WaitingList ex_infos /\ zlen (electedList c) = 2 /\
    (forall k, (cache_Get k (consensusGroupCacher s')).2 = None).
Proof.
  destruct (epoch_start_partitions ex_range_configs ex_sort ex_sort_perm ex_hdr ex_infos ex_lists ex_s2)
    as (s' & r & E & H).
  - reflexivity.
  - reflexivity.
  - exact ex_infos_keyed.
  - exact ex_infos_nodup.
  - vm_compute. reflexivity.
  - vm_compute. split; congruence.
  - vm_compute. congruence.
  - vm_compute. congruence.
  - destruct H as (c & -> & H). exists s', c. split; [exact E|exact H].
Defined.

(** ** Saving and loading *)

Lemma ex_configs_wf e c : nodesConfig ex_s0 !! e = Some c -> config_wf e c.
Proof.
  intros H. assert (E : nodesConfig ex_s0 = {[ 0 := ex_config ]}) by (vm_compute; reflexivity).
  rewrite E in H. apply lookup_singleton_Some in H as [<- <-]. split; cbn.
  - ilia.
  - unfold default_chances. rewrite !Forall_cons, !Forall_nil. done.
  - split; [done|ilia].
  - reflexivity.
Qed.

Lemma saved_state_restored_witness : exists s3,
    LoadState ex_range_configs ex_range_registry "k" (saveState ex_range_configs "k" ex_s0).1 = (s3, Ok tt) /\
    nodesConfig s3 = nodesConfig ex_s0 /\ currentEpoch s3 = currentEpoch ex_s0 /\ savedStateKey s3 = "k" /\
    stateReady s3 = true /\
    (computePublicKeyToValidatorMap ex_range_configs (nodesConfig ex_s0) <> ∅ ->
     publicKeyToValidatorMap s3 = computePublicKeyToValidatorMap ex_range_configs (nodesConfig ex_s0)).
Proof.
  apply (saved_state_restored ex_range_configs ex_range_registry (fun m => reflexivity _) (fun m => reflexivity _) "k" ex_s0
    (saveState ex_range_configs "k" ex_s0).1 (saveState ex_range_configs "k" ex_s0).1 ex_configs_wf); [|reflexivity].
  unfold saveState, mbind, M_bind, get, lift. cbn [json_Marshal binary_text map_err]. reflexivity.
Defined.
